(* ===== verification/_CoqProject ===== *)
-Q . S2P
Prelude.v
Pantry.v
Auth.v
Admin.v
Energy.v
EnergyCommands.v
Irrigation.v
IrrigationAudit.v
IrrigationEffects.v
Expenses.v
Vault.v
Comfort.v
ComfortEffects.v
ComfortService.v
Chores.v
ChoreService.v
Presence.v
CommandJournal.v
PowerBudget.v
EvCharge.v
UtcText.v
Reservations.v
ResourceCatalog.v
ReservationService.v
HomeAccess.v
HomeRegistry.v
SoundEvents.v
SoundRepository.v
PresenceRepository.v
EventSharing.v
