(* ===== verification/Prelude.v ===== *)
(** * Larenor Core: a verification of the household server

    Larenor Core is the Python server under [server/larenor_server]: it keeps
    the accounts of one household, plans what the house may do (charge a
    battery, water a garden, open a window), sends the few commands that have
    a physical effect, and records what was bought, eaten and paid.  This
    library translates the parts that decide something into executable
    definitions and proves what makes each of them correct.  Paths below are
    relative to [server/larenor_server].

    ** How the parts interact

    A request reaches an operation through an HTTP route that only validates
    its form.  [auth.py] turns a bearer token into a [Principal] and
    [admin/service.py] changes accounts and sessions on the same tables; both
    run their statements in transactions of [database.py].  The planners
    ([energy_priorities], [garden_irrigation], [room_comfort]) are pure: they
    resolve the caller's authority and the policy anew, compare every input
    with the revision it claims, and return a plan that binds all of them.
    Commands ([energy_priorities/commands.py], [garden_irrigation/effects.py])
    take such a plan in two calls, a preview and a confirmation that carries
    the preview's token, re-check that the plan is still the current one and
    call a worker that is outside the server.  [shared_expenses], the
    irrigation audit and the command log are chains of digests; [vault.py] and
    [shared_expenses] store encrypted documents bound to their row; the pantry
    ledger lives in memory.  [fair_chores] and [resource_reservations] are each
    a store, which trusts the authority that it is handed and chains what it
    did, and a service at the boundary of the home, which reads that authority
    from the account tables.  [power_budget] and [ev_charging] share the signed
    journal of [CommandJournal]: a command is journaled before its worker sees
    it, and the journal answers after a crash.  [room_presence] turns the
    sensors' confidences into rooms and hands the changes to automations, each
    once; its repository keeps the engines of all devices in one encrypted row.
    [home_resources] and [home_people] decide which account sees which record;
    other services run their writings inside [perform_authorized].
    [sound_events] turns a classifier's reports into events, and
    [private_event_sharing] lets a recipient open a redacted camera event.

    ** Files

    - [Prelude]: results and exceptions ([res]), mutable state ([M], and
      [transaction] and [savepoint], which roll back), Python dictionaries, stable sorting,
      sums, text as code points, Pydantic models ([Model]: what
      [model_validate] accepts), JSON values, digest chains ([ChainRow]),
      clock ticks, tables ([sql_one] and friends), and the closed error sets
      ([api_only], [value_only], with the hint database [closed_errors]).
    - [Pantry]: [pantry_stock/ledger.py], [pantry_stock/models.py].
      [PantryLedger] is the object's state; [receive], [consume], [undo] and
      [snapshot] are its methods, in the order in which the source assigns.
    - [Auth]: [auth.py] and the tables of [database.py].  [auth_db] holds the
      tables; [login], [refresh], [authenticate], [logout],
      [change_password] and [rate_limit] are the transactions of
      [AuthService].
    - [Admin]: [admin/service.py], [admin/models.py]; it extends the database
      by the audit table and closes the two services into one server whose
      clients send any requests in any order ([server_reachable]).
    - [Energy], [EnergyCommands]: [energy_priorities/models.py],
      [planner.py] and [commands.py].  [plan] is the slot loop;
      [preview], [confirm] and [result] are the manager's methods.
    - [Irrigation], [IrrigationAudit], [IrrigationEffects]:
      [garden_irrigation/models.py], [planner.py], [audit.py], [effects.py].
    - [Comfort], [ComfortEffects], [ComfortService]: [room_comfort/models.py]
      (policies, readings, plans) and [planner.py]; [effects.py], whose
      [preview] and [confirm] command the devices of a room; [service.py], which
      stores the policy and the plans and publishes them to a display.
    - [Expenses]: [shared_expenses/service.py], [schema.py].
    - [Vault]: [vault.py].
    - [Chores], [ChoreService]: [fair_chores/service.py] with [schema.py], and
      the household boundary of [integration.py].
    - [Presence]: the fusion of [room_presence] and the hand-off of its changes
      to automations.
    - [CommandJournal]: the signed journal that [power_budget] and
      [ev_charging] keep of the commands they send.
    - [PowerBudget], [EvCharge]: the contracts, planner, service and command
      path of [power_budget] and [ev_charging].
    - [UtcText]: instants as the text of [_utc_text] and back.
    - [Reservations]: [resource_reservations/service.py] with [schema.py];
      [create], [cancel], [receipt], [availability], [history] and [export]
      work on the calendars of one database.
    - [ResourceCatalog]: [resource_reservations/catalog.py], whose [mutate]
      creates, updates and deactivates the resources of a home.
    - [ReservationService]: [resource_reservations/integration.py] with the
      bodies of [api.py]; its world is the account, the catalog and the
      calendar tables together.
    - [HomeAccess], [HomeRegistry]: the contracts and access decisions of
      [home_resources] and [home_people], and their two encrypted registries,
      written once over the class [Registry].
    - [SoundEvents]: [sound_events/models.py] and [engine.py]: [detect] is the
      detector, [ingest] and [list_events] are the engine's methods.
    - [SoundRepository]: [sound_events/repository.py], the store in which an
      account lists and acknowledges its events; nothing under [src] connects
      the engine to it yet, so they are separate here too.
    - [PresenceRepository]: [room_presence/repository.py] and
      [management_models.py]: [register_local], [fuse_local], [list_devices],
      and the two calls of a calibration, [preview] and [confirm].
    - [EventSharing]: [private_event_sharing/service.py] on the tables of
      [schema.py]: [create], [redeem], [revoke] and [export] of the redacted
      events that are shared with a recipient; [verified] reads a history.

    ** What the theorems show

    - Invariants over every reachable state, failing calls included: stock is
      conserved ([pantry_conserved]), the session tables are consistent
      ([server_sessions_consistent]), an administrator who can log in always
      remains ([server_keeps_an_admin]), a household's history always
      verifies ([expense_history_verifies]), the command log verifies and never
      fills up ([energy_audit_complete]).
    - One effect per request: the inverter and each valve are commanded at
      most once ([energy_command_sent_once], [irrigation_valves_once], which
      also ties each recorded result to what the worker answered), whatever is
      repeated, and only on current authority
      ([energy_command_authorized], [irrigation_confirm_closed]); "applied"
      means that water was seen to flow ([irrigation_applied_verified]).
      Retries are answered with the recorded receipt
      ([expense_retry_idempotent], [irrigation_receipt_replayed],
      [pantry_replay_idempotent], [energy_confirm_idempotent]).
    - The calendar and the catalog together: at every instant the
      reservations of a resource take at most its capacity, whatever is
      requested ([never_overbooked]), also when the catalog changes between
      requests ([catalog_capacity_kept]); a create books what it says
      ([create_books]) under the current session, revision and home
      ([create_authorised]); a cancel frees exactly its reservation
      ([cancel_frees]); a lost answer is recovered ([lost_answer_recovered],
      [create_retry], [catalog_retry]); what is read back is exact and well
      typed ([availability_exact], [reservations_typed]); the catalog is always
      legible and keeps an active resource ([catalog_always_lists],
      [catalog_change]).  The composition of [ReservationService] is proved for
      requests that follow each other as wholes; [ServiceExample] shows the
      interleaving in which a stale authority overbooks.
    - Households: what an account may not read never shows, not even in an
      error ([hidden_records_never_show]), and work runs only under the access
      it was promised ([perform_authorized_safe], [access_allowed_iff]); the
      registries always validate ([registry_storage_valid]), list exactly
      ([list_pages_exact]), change one grant at a time ([set_grant_exact]) and
      audit every writing ([writings_audited]).
    - Sounds: an answered report is judged by the whole list of reports before
      it ([sound_reports_judged], over the reference of [detector_exact]); what
      is handed to the automation was announced in the journal, once
      ([sound_handoffs_once]); answers are final ([sound_answers_final]).  The
      store always opens ([sound_store_valid]), lists exactly
      ([sound_events_listed]), records only for a current session
      ([sound_record_authorised]), and an acknowledgement is final
      ([sound_acknowledged_once]).
    - Rooms: a confirmed comfort plan commands what was previewed
      ([comfort_confirm_exact]) within its limits ([comfort_limits_are_final])
      and claims nothing it did not see ([comfort_confirm_claims_nothing]); a
      published plan reads back ([comfort_publish_reads_back]).
    - Turns and commands: every eligible member gets the chore in turn
      ([chore_rotation_fair]), the chore history always answers
      ([chores_always_served], [chore_completion_sound]) and the boundary
      refines the store ([chore_service_refines]); a journaled command is sent
      at most once ([journal_sent_once]), its history always verifies
      ([journal_always_verifies]), and after a crash a readback under the
      confirmed authority settles it ([journal_recovers]); loads are shed within
      the limit ([power_shed_exact], [power_sent_plans_safe],
      [power_service_refines]); a charge takes the cheapest feasible slots and
      only on current authority ([charge_plan_optimal], [charge_plan_complete],
      [charge_control_authorised], [charge_sent_once_and_safe]); presence
      changes are confirmed and handed over once
      ([presence_changes_confirmed], [presence_handoff_once],
      [presence_no_replay], [presence_fuse_answers]); the stored engines
      refine engines in memory ([presence_store_refines], over
      [presence_store_valid]), every device can be shown ([presence_listed]) to
      an authority while it is current ([presence_authority_current]), and a
      calibration is applied as previewed and once
      ([presence_calibration_exact], [presence_calibrated_once]).
    - Shared events: the encrypted shares with their signed histories refine a
      table of grants that are given, used and withdrawn, call by call and
      answer by answer ([share_store_refines]); a share is created as the consent says
      ([create_sound], [create_retried]), opens for its recipient alone
      ([redeem_authorised], [share_redeemable]), is redeemed once if it is for
      one access ([one_time_share_once]) and never after it was revoked
      ([revoked_share_closed]); a history is read back whole
      ([share_store_valid], [share_export_exact]) within bounds
      ([shares_bounded]), unless one redemption too many closed it
      ([overused_share_closes]).
    - Plans are safe for all inputs: battery limits ([energy_plan_safe]), the
      water budget and its gates ([irrigation_within_budget],
      [irrigation_safety_gates]), windows ([comfort_safety_gates]); a planner
      always answers ([energy_plan_total], [irrigation_errors_closed]).
    - Sessions: refresh tokens replayed at any later time, logout and password
      changes revoke ([auth_refresh_replay_revokes] of [Admin], over the calls
      of the whole server, [auth_logout_revokes],
      [auth_change_password_revokes]); logins and rotation are sound
      ([auth_login_sound], [auth_refresh_rotates]); counters bound the rate
      ([rate_limit_enforced]); a denied administration is undone
      ([admin_denied_rolls_back]); paging is exact ([admin_sessions_paging]).
    - Arithmetic and order: shares sum to the total ([expense_split_exact]),
      consumption is first expired first ([pantry_consume_first_expired]).
    - Reading back: [pantry_undo_restores], [vault_put_get],
      [audit_export_restores], [expense_export_exact]; and nothing forged or
      lost: [expense_history_tamper_evident], [audit_restore_sound],
      [vault_no_lost_update].
    - Equivalence: the explicit stack that bounds a document decides the
      recursive bounds exactly ([vault_bounds_exact]).

    ** Conventions

    - A function that may raise returns [res]; [ApiError] carries the code and
      the HTTP status of the source.  An object in memory keeps what it
      assigned before an exception, a transaction does not.
    - Integers are unbounded as in Python; where a model or a column bounds
      them the bound is part of the model, and overflow of a 64-bit column is
      the [IntegrityError] or the refusal the source has.  Times that the
      source keeps as floats are integers on a grid fine enough for every
      finite double.
    - [PyError] is an exception that no handler of the source turns into an
      [ApiError]; the HTTP layer answers 500.
    - A value from outside is [raw]: [Malformed] when it has not even the
      fields and types of its model, else [Shaped] with a record;
      [model_validate] then decides the bounds and the validators.
    - SHA-256, HMAC, Argon2 and AES-GCM are parameters of the sections that
      use them, and so are resolvers, workers and Unicode tables.  The
      canonical JSON a digest is taken of is represented by the value that is
      dumped.  What a theorem needs of them (decryption inverts encryption, no
      collision among given inputs) is a hypothesis of that theorem, and its
      witness instantiates it.
    - Clock readings, fresh tokens and identities are an environment record of
      the call.  Each operation runs under its lock or transaction in the
      source and is one step of the model; interleavings are sequences of
      steps.

    ** Bounds and fuel

    All recursion is structural but two.  The document walk of [Vault] takes
    [NODE_FUEL] = 40,001 steps: every iteration counts one node and the loop
    raises at the 40,001st, so it ends within its fuel on every value
    ([vault_bounds_exact] states it).  The page loop of
    [admin_sessions_paging] is a property's own reference loop, with one step
    per session.  The other constants are the source's: 10,000 rate-limit keys
    and audit events, 1,000 previews, 32 zones and rooms.

    ** Not modelled

    Routing and request parsing ([app.py], [boundary.py], the routes of the
    [api.py] files), process start and files, the durable wrappers that store a
    planner's output, network clients, [core_backups], [releases], [plugins]
    and the tablet client; the profiles, search and sensors of cameras; the
    household content stores, which keep encrypted
    documents in the way of [Vault] and [HomeRegistry]. *)

From stdpp Require Export prelude strings sorting.
From Stdlib Require Export ZArith Lia.

#[global] Open Scope Z_scope.

(** ** Exceptions and results

    The server raises [ApiError(code, status)] for every refusal that crosses
    the HTTP boundary, [StartupError(code)] when stored history is not
    genuine, and lets [ValueError] and sqlite3's [IntegrityError] escape from
    a few places; any other builtin exception is a [PyError] with its name. *)

Inductive exn :=
  | ApiError (code : string) (status : Z)
  | StartupError (code : string)
  | PantryConflict (code : string)
  | ValueError (code : string)
  | KeyError
  | IntegrityError
  | PyError (name : string).

#[export] Instance exn_eq_dec : EqDecision exn.
Proof. solve_decision. Defined.

Inductive res (A : Type) :=
  | Ok (a : A)
  | Raise (e : exn).
Arguments Ok {A} a.
Arguments Raise {A} e.

#[export] Instance res_ret : MRet res := fun A a => Ok a.
#[export] Instance res_bind : MBind res := fun A B f m =>
  match m with Ok a => f a | Raise e => Raise e end.
#[export] Instance res_fmap : FMap res := fun A B f m =>
  match m with Ok a => Ok (f a) | Raise e => Raise e end.

#[export] Instance res_eq_dec {A} `{EqDecision A} : EqDecision (res A).
Proof. solve_decision. Defined.

Definition is_ok {A} (r : res A) : bool :=
  match r with Ok _ => true | Raise _ => false end.

(** [if cond: raise e] *)
Definition raise_if (P : Prop) `{Decision P} (e : exn) : res unit :=
  if decide P then Raise e else Ok tt.

(** [x = o; if x is None: raise e] *)
Definition require_some {A} (o : option A) (e : exn) : res A :=
  match o with Some a => Ok a | None => Raise e end.

(** [try: r; except ValueError: raise e] *)
Definition except_value_error {A} (r : res A) (e : exn) : res A :=
  match r with Raise (ValueError _) => Raise e | _ => r end.

(** [try: r; except Exception: raise e] *)
Definition except_any {A} (r : res A) (e : exn) : res A :=
  match r with Raise _ => Raise e | Ok a => Ok a end.

(** A loop whose body may raise: the first failing iteration aborts it. *)
Fixpoint for_each {A} (f : A -> res unit) (l : list A) : res unit :=
  match l with
  | [] => Ok tt
  | x :: l' => _ ← f x; for_each f l'
  end.

Fixpoint fold_res {A S} (f : S -> A -> res S) (s : S) (l : list A) : res S :=
  match l with
  | [] => Ok s
  | x :: l' => s' ← f s x; fold_res f s' l'
  end.

Lemma bind_ok {A B} (m : res A) (f : A -> res B) b :
  (m ≫= f) = Ok b <-> exists a, m = Ok a /\ f a = Ok b.
Proof. destruct m; cbn; naive_solver. Qed.

Lemma bind_raise {A B} (m : res A) (f : A -> res B) e :
  (m ≫= f) = Raise e <-> m = Raise e \/ exists a, m = Ok a /\ f a = Raise e.
Proof. destruct m; cbn; naive_solver. Qed.

Lemma raise_if_ok P `{Decision P} e u : raise_if P e = Ok u <-> ~ P.
Proof. unfold raise_if. destruct u. case_decide; naive_solver. Qed.

Lemma raise_if_raise P `{Decision P} e e' : raise_if P e = Raise e' <-> P /\ e = e'.
Proof. unfold raise_if. case_decide; naive_solver. Qed.

Lemma raise_if_no P `{Decision P} e : ~ P -> raise_if P e = Ok tt.
Proof. intros. by apply raise_if_ok. Qed.

Lemma raise_if_yes P `{Decision P} e : P -> raise_if P e = Raise e.
Proof. intros. by apply raise_if_raise. Qed.

Lemma require_some_ok {A} (o : option A) e a : require_some o e = Ok a <-> o = Some a.
Proof. destruct o; cbn; naive_solver. Qed.

Lemma except_any_ok {A} (r : res A) e a : except_any r e = Ok a <-> r = Ok a.
Proof. destruct r; cbn; naive_solver. Qed.

Lemma except_any_raise {A} (r : res A) e e' : except_any r e = Raise e' -> e' = e.
Proof. destruct r; cbn; naive_solver. Qed.

Lemma except_value_error_ok {A} (r : res A) e a :
  except_value_error r e = Ok a <-> r = Ok a.
Proof. destruct r as [|[]]; cbn; naive_solver. Qed.

Lemma for_each_ok {A} (f : A -> res unit) l u :
  for_each f l = Ok u <-> Forall (fun x => f x = Ok tt) l.
Proof.
  destruct u. induction l as [|x l IH]; cbn; [naive_solver|].
  rewrite bind_ok, Forall_cons, <- IH.
  split; [intros ([] & ? & ?); done | naive_solver].
Qed.

Lemma for_each_raise {A} (f : A -> res unit) l e :
  for_each f l = Raise e -> exists x, x ∈ l /\ f x = Raise e.
Proof.
  induction l as [|x l IH]; cbn; [done|].
  rewrite bind_raise. intros [?|([]&?&?)]; [by exists x; split; [left|]|].
  destruct IH as (y & ? & ?); [done|]. exists y. by split; [right|].
Qed.

Lemma fold_res_app {A S} (f : S -> A -> res S) s l1 l2 :
  fold_res f s (l1 ++ l2) = s' ← fold_res f s l1; fold_res f s' l2.
Proof.
  revert s. induction l1 as [|x l1 IH]; intros s; cbn; [done|].
  destruct (f s x); cbn; [apply IH|done].
Qed.

(** A list that a loop collects. *)
Lemma fold_res_snoc {A B} (f : A -> res B) l : forall acc s,
  fold_res (fun acc x => y ← f x; Ok (acc ++ [y])) acc l = Ok s ->
  exists ys, s = acc ++ ys /\ Forall2 (fun x y => f x = Ok y) l ys.
Proof.
  induction l as [|x l IH]; intros acc s Hs; cbn in Hs.
  { injection Hs as <-. exists []. by rewrite app_nil_r. }
  apply bind_ok in Hs as (t & Ht & Hs). apply bind_ok in Ht as (y & Hy & [= <-]).
  apply IH in Hs as (ys & -> & Hys). exists (y :: ys). rewrite <- app_assoc. by repeat constructor.
Qed.

Lemma fold_res_invariant {A S} (P : S -> Prop) (f : S -> A -> res S) l s s' :
  (forall x t t', x ∈ l -> P t -> f t x = Ok t' -> P t') ->
  P s -> fold_res f s l = Ok s' -> P s'.
Proof.
  revert s. induction l as [|x l IH]; intros s Hf HP H; cbn in H; [by simplify_eq|].
  apply bind_ok in H as (t & Ht & H).
  eapply IH, H; [|eapply Hf; [left|..]; done].
  intros; eapply Hf; [by right|..]; done.
Qed.

(** Invert every successful step of a computation that returned [Ok]. *)
Ltac inv_ok :=
  repeat match goal with
  | H : Ok _ = Ok _ |- _ => injection H as H; try subst
  | H : Raise _ = Ok _ |- _ => discriminate H
  | H : Ok _ = Raise _ |- _ => discriminate H
  | H : mret _ = Ok _ |- _ => change (@mret res _ _ ?x) with (Ok x) in H
  | H : (_ ≫= _) = Ok _ |- _ => apply bind_ok in H as (? & ? & H)
  | H : raise_if _ _ = Ok _ |- _ => apply raise_if_ok in H
  | H : require_some _ _ = Ok _ |- _ => apply require_some_ok in H
  | H : except_any _ _ = Ok _ |- _ => apply except_any_ok in H
  | H : except_value_error _ _ = Ok _ |- _ => apply except_value_error_ok in H
  | H : for_each _ _ = Ok _ |- _ => apply for_each_ok in H
  end.

Lemma neither (P Q : Prop) : ~ (P \/ Q) -> ~ P /\ ~ Q.
Proof. tauto. Qed.

(** A guard [if a or b or ...: raise] that was passed. *)
Ltac passed :=
  repeat match goal with
  | H : ~ (_ \/ _) |- _ => apply neither in H as [? ?]
  | H : ~ (_ <> _) |- _ => apply dec_stable in H
  | H : ~ ~ _ |- _ => apply dec_stable in H
  end.

(** ** State and exceptions

    Objects that live in memory keep whatever they assigned before an
    exception was raised; a database transaction is rolled back. *)

Definition M (S A : Type) := S -> res A * S.

#[export] Instance M_ret {S} : MRet (M S) := fun A a s => (Ok a, s).
#[export] Instance M_bind {S} : MBind (M S) := fun A B f m s =>
  match m s with
  | (Ok a, s') => f a s'
  | (Raise e, s') => (Raise e, s')
  end.

Definition lift {S A} (r : res A) : M S A := fun s => (r, s).
Definition get_state {S} : M S S := fun s => (Ok s, s).
Definition put_state {S} (s : S) : M S unit := fun _ => (Ok tt, s).
Definition modify {S} (f : S -> S) : M S unit := fun s => (Ok tt, f s).

(** [with self.database.transaction() as connection: ...] *)
Definition transaction {S A} (m : M S A) : M S A := fun s =>
  match m s with
  | (Ok a, s') => (Ok a, s')
  | (Raise e, _) => (Raise e, s)
  end.

(** [try: body; except ApiError: ROLLBACK TO savepoint]: the outcome, with the
    state it leaves. *)
Definition savepoint {S A} (body : M S A) : M S (res A) := fun s =>
  match body s with
  | (Ok a, s') => (Ok (Ok a), s')
  | (Raise (ApiError c st), _) => (Ok (Raise (ApiError c st)), s)
  | (Raise ex, s') => (Raise ex, s')
  end.

Lemma savepoint_ok {S A} (m : M S A) s r s' :
  savepoint m s = (Ok r, s') ->
  (exists a, r = Ok a /\ m s = (Ok a, s')) \/ (s' = s /\ exists c n, r = Raise (ApiError c n)).
Proof.
  unfold savepoint. destruct (m s) as [[a|[]] t]; intros [= <- <-]; naive_solver.
Qed.

Lemma M_bind_ok {S A B} (m : M S A) (f : A -> M S B) s b s' :
  (m ≫= f) s = (Ok b, s') <-> exists a t, m s = (Ok a, t) /\ f a t = (Ok b, s').
Proof.
  unfold mbind, M_bind. destruct (m s) as [[a|e] t].
  - split; [intros H; by exists a, t|naive_solver].
  - split; [done|naive_solver].
Qed.

Lemma M_bind_raise {S A B} (m : M S A) (f : A -> M S B) s e s' :
  (m ≫= f) s = (Raise e, s') <->
  m s = (Raise e, s') \/ exists a t, m s = (Ok a, t) /\ f a t = (Raise e, s').
Proof.
  unfold mbind, M_bind. destruct (m s) as [[a|e'] t].
  - split; [intros H; right; by exists a, t|naive_solver].
  - split; [intros; simplify_eq; by left|naive_solver].
Qed.

Lemma lift_bind {S A B} (r : res A) (f : A -> M S B) s :
  (lift r ≫= f) s = match r with Ok a => f a s | Raise e => (Raise e, s) end.
Proof. by destruct r. Qed.

Lemma transaction_cases {S A} (m : M S A) s x s' :
  transaction m s = (x, s') ->
  (s' = s /\ forall a, x <> Ok a) \/ (exists a, x = Ok a /\ m s = (Ok a, s')).
Proof.
  unfold transaction. destruct (m s) as [[a|e] t]; intros [= <- <-]; [right|left]; eauto.
Qed.

Lemma transaction_raise {S A} (m : M S A) s e s' :
  transaction m s = (Raise e, s') -> s' = s.
Proof. unfold transaction. destruct (m s) as [[]]; naive_solver. Qed.

Lemma transaction_ok {S A} (m : M S A) s a s' :
  transaction m s = (Ok a, s') <-> m s = (Ok a, s').
Proof. unfold transaction. destruct (m s) as [[]]; naive_solver. Qed.

(** A computation that leaves the state alone when it raises. *)
Definition rolls_back {S A} (m : M S A) : Prop :=
  forall s e s', m s = (Raise e, s') -> s' = s.

Create HintDb rollback.

Lemma rolls_back_lift {S A B} (r : res A) (f : A -> M S B) :
  (forall a, r = Ok a -> rolls_back (f a)) -> rolls_back (lift r ≫= f).
Proof.
  intros Hf s e s'. unfold mbind, M_bind, lift. destruct r as [a|]; [|by intros [= _ <-]].
  by apply Hf.
Qed.

Lemma rolls_back_pure {S A} (r : res A) : rolls_back (lift (S := S) r).
Proof. by intros s e s' [= _ <-]. Qed.

Lemma rolls_back_transaction {S A} (m : M S A) : rolls_back (transaction m).
Proof. intros s e s'. apply transaction_raise. Qed.
#[export] Hint Resolve rolls_back_lift rolls_back_pure rolls_back_transaction : rollback.

Lemma lift_ok {S A} (r : res A) (s : S) a s' :
  lift r s = (Ok a, s') <-> r = Ok a /\ s' = s.
Proof. unfold lift. naive_solver. Qed.

Lemma lift_raise {S A} (r : res A) (s : S) e s' :
  lift r s = (Raise e, s') <-> r = Raise e /\ s' = s.
Proof. unfold lift. naive_solver. Qed.

(** Inversion of a stateful computation that succeeded. *)
Ltac inv_M :=
  repeat match goal with
  | H : (Ok _, _) = (Ok _, _) |- _ => injection H as H; try subst
  | H : (Raise _, _) = (Ok _, _) |- _ => discriminate H
  | H : transaction _ _ = (Ok _, _) |- _ => apply (proj1 (transaction_ok _ _ _ _)) in H
  | H : (_ ≫= _) _ = (Ok _, _) |- _ => apply M_bind_ok in H as (? & ? & ? & H)
  | H : lift _ _ = (Ok _, _) |- _ => apply lift_ok in H as [H ->]
  | H : get_state _ = (Ok _, _) |- _ => unfold get_state in H
  | H : put_state _ _ = (Ok _, _) |- _ => unfold put_state in H
  | H : modify _ _ = (Ok _, _) |- _ => unfold modify in H
  | H : mret _ _ = (Ok _, _) |- _ => unfold mret, M_ret in H
  | _ => progress inv_ok
  end.

Lemma filter_ext_in {A} (P Q : A -> Prop) `{!forall x, Decision (P x), !forall x, Decision (Q x)}
    (l : list A) : (forall x, x ∈ l -> (P x <-> Q x)) -> filter P l = filter Q l.
Proof.
  induction l as [|x l IH]; intros Heq; [done|].
  assert (P x <-> Q x) by (apply Heq; by left).
  rewrite !filter_cons, IH by (intros; apply Heq; by right). repeat case_decide; tauto.
Qed.

(** ** Python dictionaries

    Insertion ordered, one entry per key; assigning to a key that is present
    keeps its place. *)

Section dict.
Context {K V : Type} `{EqDecision K}.
Implicit Types (d : list (K * V)) (k : K) (v : V).

Fixpoint dict_get d k : option V :=
  match d with
  | [] => None
  | (k', v) :: d' => if decide (k = k') then Some v else dict_get d' k
  end.

Fixpoint dict_set d k v : list (K * V) :=
  match d with
  | [] => [(k, v)]
  | (k', v') :: d' =>
      if decide (k = k') then (k', v) :: d' else (k', v') :: dict_set d' k v
  end.

Fixpoint dict_pop d k : list (K * V) :=
  match d with
  | [] => []
  | (k', v') :: d' => if decide (k = k') then d' else (k', v') :: dict_pop d' k
  end.

Definition dict_keys d : list K := d.*1.
Definition dict_values d : list V := d.*2.

(** [{f(x): g(x) for x in l}] *)
Definition dict_of {A} (f : A -> K) (g : A -> V) (l : list A) : list (K * V) :=
  foldl (fun d x => dict_set d (f x) (g x)) [] l.

Lemma dict_get_set_eq d k v : dict_get (dict_set d k v) k = Some v.
Proof.
  induction d as [|[k' v'] d IH]; cbn; [by rewrite decide_True|].
  case_decide; cbn; [by rewrite decide_True|by rewrite decide_False].
Qed.

Lemma dict_get_set_ne d k k' v : k <> k' -> dict_get (dict_set d k v) k' = dict_get d k'.
Proof.
  intros Hne. induction d as [|[k0 v0] d IH]; cbn; [by rewrite decide_False|].
  case_decide; cbn; subst.
  - rewrite !decide_False; done.
  - by rewrite IH.
Qed.

Lemma dict_get_set d k k' v :
  dict_get (dict_set d k v) k' = if decide (k = k') then Some v else dict_get d k'.
Proof.
  case_decide; subst; [apply dict_get_set_eq|by apply dict_get_set_ne].
Qed.

Lemma dict_get_elem d k v : dict_get d k = Some v -> (k, v) ∈ d.
Proof.
  induction d as [|[k' v'] d IH]; cbn; [done|].
  case_decide; intros; simplify_eq; [by left|right; auto].
Qed.

Lemma dict_get_None d k : dict_get d k = None <-> k ∉ dict_keys d.
Proof.
  induction d as [|[k' v'] d IH]; cbn; [set_solver|].
  rewrite not_elem_of_cons, <- IH. case_decide; naive_solver.
Qed.

Lemma dict_elem_get d k v : NoDup (dict_keys d) -> (k, v) ∈ d -> dict_get d k = Some v.
Proof.
  induction d as [|[k' v'] d IH]; cbn; [set_solver|].
  rewrite NoDup_cons. intros [Hn Hd] [H|H]%elem_of_cons; simplify_eq.
  - by rewrite decide_True.
  - rewrite decide_False; [auto|]. intros ->. apply Hn.
    apply list_elem_of_fmap. by exists (k', v).
Qed.

Lemma dict_set_keys d k v :
  dict_keys (dict_set d k v)
  = if decide (k ∈ dict_keys d) then dict_keys d else dict_keys d ++ [k].
Proof.
  unfold dict_keys. induction d as [|[k' v'] d IH]; cbn.
  - rewrite decide_False; [done|set_solver].
  - destruct (decide (k = k')) as [->|Hne]; cbn.
    + rewrite decide_True; [done|set_solver].
    + rewrite IH. repeat case_decide; try done; set_solver.
Qed.

Lemma dict_set_nodup d k v : NoDup (dict_keys d) -> NoDup (dict_keys (dict_set d k v)).
Proof.
  intros. rewrite dict_set_keys. case_decide; [done|].
  apply NoDup_app. split_and!; [done| |apply NoDup_singleton]. set_solver.
Qed.

(** A fresh key is appended. *)
Lemma dict_set_fresh d k v : dict_get d k = None -> dict_set d k v = d ++ [(k, v)].
Proof.
  induction d as [|[k' v'] d IH]; cbn; [done|].
  case_decide; [done|]. intros. by rewrite IH.
Qed.

Lemma dict_set_length d k v :
  length (dict_set d k v) = (length d + if dict_get d k then 0 else 1)%nat.
Proof.
  induction d as [|[k' v'] d IH]; cbn; [done|].
  case_decide; cbn; [lia|]. rewrite IH. destruct (dict_get d k); lia.
Qed.

Lemma dict_of_get_elem {A} (f : A -> K) (g : A -> V) l k v :
  dict_get (dict_of f g l) k = Some v -> exists x, x ∈ l /\ f x = k /\ g x = v.
Proof.
  unfold dict_of. induction l as [|x l IH] using rev_ind; cbn; [done|].
  rewrite foldl_snoc, dict_get_set. case_decide; intros; simplify_eq.
  - exists x. set_solver.
  - destruct IH as (y & ? & ? & ?); [done|]. exists y. set_solver.
Qed.

Lemma dict_of_get {A} (f : A -> K) (g : A -> V) l x :
  NoDup (f <$> l) -> x ∈ l -> dict_get (dict_of f g l) (f x) = Some (g x).
Proof.
  unfold dict_of. induction l as [|y l IH] using rev_ind; [by inversion 2|].
  rewrite fmap_app, NoDup_app, foldl_snoc, elem_of_app, dict_get_set.
  intros (Hnd & Hdis & _) [Hx|Hx].
  - rewrite decide_False; [by apply IH|]. intros E. apply (Hdis (f x)); [|set_solver].
    by apply list_elem_of_fmap_2.
  - apply list_elem_of_singleton in Hx as ->. by rewrite decide_True.
Qed.

Lemma dict_of_get_None {A} (f : A -> K) (g : A -> V) l k :
  k ∉ f <$> l -> dict_get (dict_of f g l) k = None.
Proof.
  intros Hk. destruct (dict_get _ k) eqn:E; [|done].
  apply dict_of_get_elem in E as (x & ? & <- & _).
  destruct Hk. by apply list_elem_of_fmap_2.
Qed.

Lemma dict_of_keys {A} (f : A -> K) (g : A -> V) l k :
  k ∈ dict_keys (dict_of f g l) <-> k ∈ f <$> l.
Proof.
  unfold dict_of. induction l as [|x l IH] using rev_ind; [done|].
  rewrite foldl_snoc, dict_set_keys, fmap_app, elem_of_app, <- IH. cbn.
  rewrite list_elem_of_singleton. case_decide as Hd; [|by rewrite elem_of_app, list_elem_of_singleton].
  split; [by left|]. by intros [?| ->].
Qed.

Lemma dict_of_nodup {A} (f : A -> K) (g : A -> V) l : NoDup (dict_keys (dict_of f g l)).
Proof.
  unfold dict_of. induction l as [|x l IH] using rev_ind; cbn; [by apply NoDup_nil|].
  rewrite foldl_snoc. by apply dict_set_nodup.
Qed.
(** Assigning the entries of [l] one after the other. *)
Definition dict_update d (l : list (K * V)) : list (K * V) :=
  foldl (fun d kv => dict_set d kv.1 kv.2) d l.

Lemma dict_update_snoc d l kv : dict_update d (l ++ [kv]) = dict_set (dict_update d l) kv.1 kv.2.
Proof. unfold dict_update. by rewrite foldl_app. Qed.

Lemma dict_update_get d l k :
  NoDup (dict_keys l) ->
  dict_get (dict_update d l) k
  = match dict_get l k with Some v => Some v | None => dict_get d k end.
Proof.
  revert d. induction l as [|[k' v] l IH]; intros d; cbn; [done|].
  intros [Hk Hnd]%NoDup_cons. change (foldl _ _ l) with (dict_update (dict_set d k' v) l).
  rewrite IH by done. rewrite dict_get_set. case_decide as E.
  - subst k'. rewrite decide_True by done. apply dict_get_None in Hk. by rewrite Hk.
  - rewrite decide_False by done. done.
Qed.

Lemma dict_update_keys d l k :
  k ∈ dict_keys (dict_update d l) <-> k ∈ dict_keys d \/ k ∈ dict_keys l.
Proof.
  revert d. induction l as [|[k' v] l IH]; intros d; cbn; [set_solver|].
  change (foldl _ _ l) with (dict_update (dict_set d k' v) l).
  rewrite IH, dict_set_keys. case_decide; set_solver.
Qed.

Lemma dict_update_nodup d l : NoDup (dict_keys d) -> NoDup (dict_keys (dict_update d l)).
Proof.
  revert d. induction l as [|[k v] l IH]; intros d Hd; [done|]. by apply IH, dict_set_nodup.
Qed.

Lemma dict_update_length d l :
  NoDup (dict_keys l) ->
  length (dict_update d l)
  = (length d + length (filter (fun k => k ∉ dict_keys d) (dict_keys l)))%nat.
Proof.
  revert d. induction l as [|[k v] l IH]; intros d; [cbn; lia|].
  change (dict_keys ((k, v) :: l)) with (k :: dict_keys l).
  change (dict_update d ((k, v) :: l)) with (dict_update (dict_set d k v) l).
  intros [Hk Hnd]%NoDup_cons.
  rewrite IH, dict_set_length by done.
  assert (filter (fun k' => k' ∉ dict_keys (dict_set d k v)) (dict_keys l)
          = filter (fun k' => k' ∉ dict_keys d) (dict_keys l)) as ->.
  { apply filter_ext_in. intros x Hx.
    rewrite dict_set_keys. case_decide; [done|]. set_solver. }
  rewrite filter_cons. destruct (dict_get d k) as [w|] eqn:Hget.
  - rewrite decide_False; [lia|]. intros Hn. apply Hn.
    apply dict_get_elem in Hget. by apply (list_elem_of_fmap_2 fst) in Hget.
  - rewrite decide_True by (by apply dict_get_None). cbn. lia.
Qed.

End dict.

(** ** Sorting

    [list.sort] and [sorted] are stable; a stable sort has one result, so
    insertion sort computes it. *)

Section sort.
Context {A : Type} (le : A -> A -> Prop) `{!forall x y, Decision (le x y)}.

Fixpoint insert_sorted (x : A) (l : list A) : list A :=
  match l with
  | [] => [x]
  | y :: l' => if decide (le x y) then x :: l else y :: insert_sorted x l'
  end.

Definition py_sorted (l : list A) : list A := foldr insert_sorted [] l.

Lemma insert_sorted_perm x l : insert_sorted x l ≡ₚ x :: l.
Proof.
  induction l as [|y l IH]; cbn; [done|].
  case_decide; [done|]. rewrite IH. apply Permutation_swap.
Qed.

Lemma py_sorted_perm l : py_sorted l ≡ₚ l.
Proof.
  unfold py_sorted. induction l as [|x l IH]; cbn; [done|].
  by rewrite insert_sorted_perm, IH.
Qed.

Lemma py_sorted_elem x l : x ∈ py_sorted l <-> x ∈ l.
Proof. by rewrite py_sorted_perm. Qed.

Lemma py_sorted_length l : length (py_sorted l) = length l.
Proof. by rewrite py_sorted_perm. Qed.

Lemma insert_sorted_strong x l `{!Total le, !Transitive le} :
  StronglySorted le l -> StronglySorted le (insert_sorted x l).
Proof.
  induction 1 as [|y l Hl IH Hy]; cbn; [repeat constructor|].
  case_decide as Hxy.
  - constructor; [by constructor|]. constructor; [done|].
    eapply Forall_impl; [exact Hy|]. intros z ?. by etrans.
  - constructor; [done|]. rewrite insert_sorted_perm. constructor; [|done].
    by destruct (total le x y).
Qed.

Lemma py_sorted_strong l `{!Total le, !Transitive le} : StronglySorted le (py_sorted l).
Proof. induction l; cbn; [constructor|by apply insert_sorted_strong]. Qed.

(** Rows stored in order are read back in that order. *)
Lemma py_sorted_id l : StronglySorted le l -> py_sorted l = l.
Proof.
  unfold py_sorted. induction 1 as [|x l Hl IH Hx]; cbn; [done|].
  rewrite IH. destruct l as [|y l]; cbn; [done|].
  apply Forall_cons in Hx as [Hxy _]. by rewrite decide_True.
Qed.
End sort.

Lemma StronglySorted_snoc {A} (R : A -> A -> Prop) l x :
  StronglySorted R l -> Forall (fun y => R y x) l -> StronglySorted R (l ++ [x]).
Proof.
  induction 1 as [|y l Hl IH Hy]; cbn; intros HF; [repeat constructor|].
  apply Forall_cons in HF as [? ?]. constructor; [auto|].
  apply Forall_app. by repeat constructor.
Qed.

Lemma StronglySorted_filter_le {A} (R : A -> A -> Prop) (P : A -> Prop)
    `{!forall x, Decision (P x)} l : StronglySorted R l -> StronglySorted R (filter P l).
Proof.
  induction 1 as [|x l Hl IH Hx]; [constructor|]. rewrite filter_cons.
  case_decide; [|done]. constructor; [done|]. apply Forall_forall.
  intros y [_ Hy]%list_elem_of_filter. by eapply Forall_forall in Hx.
Qed.

Lemma filter_all {A} (P : A -> Prop) `{!forall x, Decision (P x)} (l : list A) :
  (forall x, x ∈ l -> P x) -> filter P l = l.
Proof.
  induction l as [|x l IH]; intros HP; [done|]. rewrite filter_cons, decide_True by (apply HP; left).
  f_equal. apply IH. intros. apply HP. by right.
Qed.

Lemma filter_none {A} (P : A -> Prop) `{!forall x, Decision (P x)} (l : list A) :
  (forall x, x ∈ l -> ~ P x) -> filter P l = [].
Proof.
  induction l as [|x l IH]; intros HP; [done|]. rewrite filter_cons, decide_False by (apply HP; left).
  apply IH. intros. apply HP. by right.
Qed.

(** ** Integer sums *)

Definition zsum (l : list Z) : Z := foldr Z.add 0 l.
#[global] Arguments zsum : simpl never.

Lemma zsum_nil : zsum [] = 0.
Proof. done. Qed.

Lemma zsum_cons x l : zsum (x :: l) = x + zsum l.
Proof. done. Qed.

Lemma zsum_app l1 l2 : zsum (l1 ++ l2) = zsum l1 + zsum l2.
Proof. induction l1; cbn; [done|]. unfold zsum in *. cbn. lia. Qed.

#[export] Instance zsum_perm : Proper (Permutation ==> eq) zsum.
Proof. induction 1; cbn in *; unfold zsum in *; cbn in *; lia. Qed.

Lemma zsum_nonneg l : Forall (fun x => 0 <= x) l -> 0 <= zsum l.
Proof. induction 1; cbn; unfold zsum in *; cbn; lia. Qed.

Lemma zsum_filter_le {A} (f : A -> Z) (P : A -> Prop) `{!forall x, Decision (P x)} l :
  Forall (fun x => 0 <= f x) l -> zsum (f <$> filter P l) <= zsum (f <$> l).
Proof.
  induction 1 as [|x l Hx _ IH]; [done|].
  rewrite filter_cons. case_decide; rewrite ?fmap_cons, ?zsum_cons; lia.
Qed.

Lemma zsum_fmap_add {A} (f g : A -> Z) l :
  zsum ((fun x => f x + g x) <$> l) = zsum (f <$> l) + zsum (g <$> l).
Proof. induction l; cbn; [done|]. unfold zsum in *. cbn. lia. Qed.

Lemma zsum_zeros {A} (l : list A) : zsum ((fun _ => 0) <$> l) = 0.
Proof. induction l; cbn; [done|]. unfold zsum in *. cbn. lia. Qed.

(** Summing by groups: every element of [ps] belongs to one element of [l]. *)
Lemma zsum_indicator {A K} `{EqDecision K} (k : A -> K) (y : K) (c : Z) (l : list A) :
  NoDup (k <$> l) -> y ∈ k <$> l -> zsum ((fun s => if decide (y = k s) then c else 0) <$> l) = c.
Proof.
  induction l as [|s l IH]; [by intros _ ?%elem_of_nil|].
  cbn. intros [Hs Hn]%NoDup_cons [->|Hy]%elem_of_cons; rewrite zsum_cons.
  - rewrite decide_True by done. assert ((fun s0 => if decide (k s = k s0) then c else 0) <$> l
      = (fun _ => 0) <$> l) as ->; [|rewrite zsum_zeros; lia].
    apply Forall_fmap_ext, Forall_forall. intros x Hx. rewrite decide_False; [done|].
    intros E. apply Hs. rewrite E. by apply list_elem_of_fmap_2.
  - rewrite decide_False by (intros ->; done). by rewrite IH.
Qed.

Lemma zsum_fibers {A B K} `{EqDecision K} (k : A -> K) (key : B -> K) (f : B -> Z) l ps :
  NoDup (k <$> l) -> Forall (fun p => key p ∈ k <$> l) ps ->
  zsum ((fun s => zsum (f <$> filter (fun p => key p = k s) ps)) <$> l) = zsum (f <$> ps).
Proof.
  intros Hn Hps. induction Hps as [|p ps Hp _ IH]; [apply zsum_zeros|].
  rewrite fmap_cons, zsum_cons, <- IH, <- (zsum_indicator k (key p) (f p) l) by done.
  rewrite <- zsum_fmap_add. f_equal. apply list_fmap_ext. intros _ s _. rewrite filter_cons.
  case_decide; [by rewrite fmap_cons, zsum_cons|lia].
Qed.

(** Assigning to one key changes a sum over the values by the difference. *)
Lemma zsum_dict_set {K V} `{EqDecision K} (f : V -> Z) (d : list (K * V)) k v :
  zsum (f <$> dict_values (dict_set d k v))
  = zsum (f <$> dict_values d) + f v - match dict_get d k with Some w => f w | None => 0 end.
Proof.
  unfold dict_values. induction d as [|[k' v'] d IH]; cbn.
  - unfold zsum; cbn; lia.
  - destruct (decide (k = k')); cbn; unfold zsum in *; cbn; [lia|]. rewrite IH. lia.
Qed.

(** Updating the value under a present key, seen as a map over the entries. *)
Lemma dict_set_map {K V} `{EqDecision K} (f : V -> V) (d : list (K * V)) k v :
  NoDup (dict_keys d) -> dict_get d k = Some v ->
  dict_set d k (f v) = (fun e => (e.1, if decide (k = e.1) then f e.2 else e.2)) <$> d.
Proof.
  unfold dict_keys. induction d as [|[k' v'] d IH]; cbn; [done|].
  rewrite NoDup_cons. intros [Hk Hd].
  destruct (decide (k = k')) as [->|Hne]; intros E; simplify_eq.
  - f_equal. rewrite <- (list_fmap_id d) at 1.
    apply list_fmap_ext. intros i [k0 v0] Hi. cbn.
    rewrite decide_False; [done|]. intros ->. apply Hk.
    apply list_elem_of_fmap. exists (k0, v0). split; [done|]. by eapply list_elem_of_lookup_2.
  - by rewrite IH.
Qed.

Create HintDb larenor.
#[export] Hint Rewrite zsum_nil zsum_cons zsum_app : larenor.

(** ** Text

    Identities, digests and codes are ASCII and are [string]s; free text is a
    list of Unicode code points.  [str.isalnum], [str.isspace] and
    [str.lower] are their ASCII tables below 128 and a parameter of the
    Unicode database above. *)

Abbreviation ustr := (list Z) (only parsing).

Fixpoint u (s : string) : ustr :=
  match s with
  | EmptyString => []
  | String c s' => Z.of_N (Ascii.N_of_ascii c) :: u s'
  end.

Class UnicodeData := {
  uni_isalnum : Z -> bool;
  uni_isspace : Z -> bool;
  uni_lower : Z -> list Z;
}.

(** A database with no letters beyond ASCII, for closed examples. *)
#[export] Instance ascii_only : UnicodeData | 100 := {|
  uni_isalnum _ := false; uni_isspace _ := false; uni_lower c := [c];
|}.

Section text.
Context `{UnicodeData}.

Definition char_isalnum (c : Z) : bool :=
  if c <? 128 then
    ((48 <=? c) && (c <=? 57)) || ((65 <=? c) && (c <=? 90)) || ((97 <=? c) && (c <=? 122))
  else uni_isalnum c.

Definition char_isspace (c : Z) : bool :=
  if c <? 128 then ((9 <=? c) && (c <=? 13)) || ((28 <=? c) && (c <=? 32))
  else uni_isspace c.

Definition char_lower (c : Z) : list Z :=
  if c <? 128 then [if (65 <=? c) && (c <=? 90) then c + 32 else c] else uni_lower c.

Fixpoint str_lstrip (s : ustr) : ustr :=
  match s with
  | [] => []
  | c :: s' => if char_isspace c then str_lstrip s' else s
  end.

Definition str_strip (s : ustr) : ustr := reverse (str_lstrip (reverse (str_lstrip s))).

Definition str_lower (s : ustr) : ustr := s ≫= char_lower.
End text.

(** [ord(char) < 32 or ord(char) == 127] *)
Definition is_control (c : Z) : Prop := c < 32 \/ c = 127.
#[export] Instance is_control_dec c : Decision (is_control c).
Proof. unfold is_control. apply _. Defined.

Definition is_surrogate (c : Z) : bool := (0xD800 <=? c) && (c <=? 0xDFFF).

(** Stripping twice strips once, and leaves a part of the text. *)
Section strip.
Context `{UnicodeData}.
Definition leading_ok (s : ustr) : Prop := match s with [] => True | c :: _ => char_isspace c = false end.

Lemma str_lstrip_leading s : leading_ok (str_lstrip s).
Proof.
  induction s as [|c s IH]; cbn; [done|]. destruct (char_isspace c) eqn:E; [done|]. by cbn.
Qed.
Lemma str_lstrip_id s : leading_ok s -> str_lstrip s = s.
Proof. destruct s as [|c s]; cbn; [done|]. by intros ->. Qed.
Lemma str_lstrip_suffix s : str_lstrip s `suffix_of` s.
Proof.
  induction s as [|c s IH]; cbn; [done|]. case_match; [|done]. by apply suffix_cons_r.
Qed.

Lemma leading_prefix s t : s `prefix_of` t -> leading_ok t -> leading_ok s.
Proof. intros [v ->]. by destruct s. Qed.

Lemma reverse_suffix (s t : ustr) : s `suffix_of` t -> reverse s `prefix_of` reverse t.
Proof. intros [v ->]. rewrite reverse_app. by exists (reverse v). Qed.

Lemma str_strip_idem s : str_strip (str_strip s) = str_strip s.
Proof.
  unfold str_strip.
  set (l := str_lstrip s). set (r := str_lstrip (reverse l)).
  assert (leading_ok (reverse r)) as Hl.
  { apply (leading_prefix _ l); [|apply str_lstrip_leading].
    rewrite <- (reverse_involutive l). apply reverse_suffix, str_lstrip_suffix. }
  rewrite (str_lstrip_id (reverse r) Hl), reverse_involutive.
  by rewrite (str_lstrip_id r) by apply str_lstrip_leading.
Qed.

Lemma str_strip_sub s : exists a b, s = a ++ str_strip s ++ b.
Proof.
  unfold str_strip. destruct (str_lstrip_suffix s) as [a Ha].
  destruct (str_lstrip_suffix (reverse (str_lstrip s))) as [b Hb].
  exists a, (reverse b). rewrite Ha at 1. f_equal.
  rewrite <- (reverse_involutive (str_lstrip s)) at 1. rewrite Hb at 1. by rewrite reverse_app.
Qed.
End strip.

(** The household stores' identifiers: letters, digits and [-_.:]. *)
Definition ident_char `{UnicodeData} (c : Z) : bool :=
  char_isalnum c || (c =? 45) || (c =? 95) || (c =? 46) || (c =? 58).

Definition _identifier `{UnicodeData} (value : ustr) : Prop :=
  1 <= Z.of_nat (length value) <= 128 /\ forallb ident_char value = true.
#[export] Instance _identifier_dec `{UnicodeData} v : Decision (_identifier v).
Proof. unfold _identifier. apply _. Defined.

(** Python compares strings by code points. *)
Fixpoint ustr_le (s t : ustr) : Prop :=
  match s, t with
  | [], _ => True
  | _ :: _, [] => False
  | c :: s', d :: t' => c < d \/ (c = d /\ ustr_le s' t')
  end.
#[export] Instance ustr_le_dec s t : Decision (ustr_le s t).
Proof. revert t. induction s as [|c s IH]; intros [|d t]; cbn; apply _. Defined.

#[export] Instance ustr_le_total : Total ustr_le.
Proof.
  intros s. induction s as [|c s IH]; intros [|d t]; cbn; [by left..|by right|].
  destruct (Z.lt_trichotomy c d) as [?|[->|?]]; [|destruct (IH t)|]; naive_solver.
Qed.

#[export] Instance ustr_le_trans : Transitive ustr_le.
Proof.
  intros s. induction s as [|c s IH]; intros [|d t] [|e v]; cbn; try done.
  intros [?|[-> ?]] [?|[-> ?]]; try (left; lia). right. naive_solver.
Qed.

(** [re.fullmatch(r'[0-9a-f]{n}', s)] *)
Fixpoint all_hex (s : string) : bool :=
  match s with
  | EmptyString => true
  | String c s' =>
      let z := Z.of_N (Ascii.N_of_ascii c) in
      (((48 <=? z) && (z <=? 57)) || ((97 <=? z) && (z <=? 102))) && all_hex s'
  end.
Definition is_hex (n : nat) (s : string) : Prop := String.length s = n /\ all_hex s = true.
#[export] Instance is_hex_dec n s : Decision (is_hex n s).
Proof. unfold is_hex. apply _. Defined.

(** [digest[:n]] *)
Lemma hex_prefix n m s : is_hex m s -> (n <= m)%nat -> is_hex n (String.substring 0 n s).
Proof.
  intros [<- Hs]. unfold is_hex. revert n Hs. induction s as [|c s IH]; intros [|n] Hs Hn; cbn in *;
    try (done || lia).
  apply andb_prop in Hs as [-> Hs]. destruct (IH n Hs) as [-> ->]; [lia|done].
Qed.

Abbreviation Identity := (is_hex 32) (only parsing).
Abbreviation Snapshot := (is_hex 64) (only parsing).
Definition MAX_REVISION : Z := 2 ^ 63 - 1.
Definition Revision (n : Z) : Prop := 1 <= n <= MAX_REVISION.
#[export] Instance Revision_dec n : Decision (Revision n).
Proof. unfold Revision. apply _. Defined.
Definition TimestampMs (n : Z) : Prop := 0 <= n <= 2 ^ 63 - 1.
#[export] Instance TimestampMs_dec n : Decision (TimestampMs n).
Proof. unfold TimestampMs. apply _. Defined.

(** ** Pydantic models

    A value from outside either has the shape of the model (its fields, in
    their types) or not; [model_validate] then checks the field bounds and the
    validators, which each component gives as its [Model] instance.  A field
    whose type is a [Literal] with one value carries nothing and is left out. *)

Class Model (A : Type) := {
  model_valid : A -> Prop;
  model_valid_dec :: forall a, Decision (model_valid a);
}.

(** Decidability of the conjunction of a model's checks. *)
Ltac solve_dec :=
  repeat first [apply _ | apply and_dec | apply or_dec
               | match goal with |- context [match ?x with _ => _ end] => destruct x end].

(** A field [X | None]. *)
Definition optional {A} (P : A -> Prop) (o : option A) : Prop :=
  match o with Some x => P x | None => True end.
#[export] Instance optional_dec {A} (P : A -> Prop) `{!forall x, Decision (P x)} o :
  Decision (optional P o).
Proof. destruct o; cbn; apply _. Defined.

Inductive raw (A : Type) := Shaped (a : A) | Malformed.
Arguments Shaped {A} a.
Arguments Malformed {A}.

Definition model_validate {A} `{Model A} (r : raw A) : res A :=
  match r with
  | Shaped a => if decide (model_valid a) then Ok a else Raise (ValueError "validation_error")
  | Malformed => Raise (ValueError "validation_error")
  end.

Definition model_validate_all {A} `{Model A} (l : list (raw A)) : res (list A) :=
  fold_res (fun acc r => a ← model_validate r; Ok (acc ++ [a])) [] l.

(** What a resolver callback hands back. *)
Inductive resolved (A : Type) :=
  | ResolverRaised (e : exn)
  | ResolvedNone
  | Resolved (r : raw A).
Arguments ResolverRaised {A} e.
Arguments ResolvedNone {A}.
Arguments Resolved {A} r.

(** [X.model_validate(resolver(key))]; validating [None] fails. *)
Definition validate_resolved {A} `{Model A} (r : resolved A) : res A :=
  match r with
  | ResolverRaised e => Raise e
  | ResolvedNone => Raise (ValueError "validation_error")
  | Resolved r => model_validate r
  end.

(** [None if current is None else X.model_validate(current)] *)
Definition validate_optional {A} `{Model A} (r : resolved A) : res (option A) :=
  match r with
  | ResolverRaised e => Raise e
  | ResolvedNone => Ok None
  | Resolved r => Some <$> model_validate r
  end.

Lemma model_validate_ok {A} `{Model A} (r : raw A) a :
  model_validate r = Ok a <-> r = Shaped a /\ model_valid a.
Proof. destruct r as [b|]; cbn; [case_decide|]; naive_solver. Qed.

Lemma model_validate_valid {A} `{Model A} (a : A) :
  model_valid a -> model_validate (Shaped a) = Ok a.
Proof. intros. by apply model_validate_ok. Qed.

Lemma model_validate_raise {A} `{Model A} (r : raw A) e :
  model_validate r = Raise e -> e = ValueError "validation_error".
Proof. destruct r as [b|]; cbn; [case_decide|]; naive_solver. Qed.

Lemma validate_resolved_ok {A} `{Model A} (r : resolved A) a :
  validate_resolved r = Ok a <-> r = Resolved (Shaped a) /\ model_valid a.
Proof.
  destruct r; cbn; [naive_solver..|]. rewrite model_validate_ok. naive_solver.
Qed.

Lemma validate_optional_some {A} `{Model A} (r : resolved A) a :
  validate_optional r = Ok (Some a) <-> r = Resolved (Shaped a) /\ model_valid a.
Proof.
  destruct r as [| |[b|]]; cbn; [naive_solver..| |naive_solver].
  case_decide; cbn; naive_solver.
Qed.

Lemma model_validate_all_ok {A} `{Model A} (l : list (raw A)) (al : list A) :
  model_validate_all l = Ok al <-> l = Shaped <$> al /\ Forall model_valid al.
Proof.
  unfold model_validate_all.
  enough (forall acc, fold_res (fun acc r => a ← model_validate r; Ok (acc ++ [a])) acc l = Ok al
    <-> exists new, al = acc ++ new /\ l = Shaped <$> new /\ Forall model_valid new) as ->.
  { split; [by intros (?&->&?&?)|]. intros [??]. by exists al. }
  induction l as [|r l IH]; intros acc; cbn.
  - split; [intros [= ->]; exists []; by rewrite app_nil_r|].
    intros ([|] & -> & ? & ?); [by rewrite app_nil_r|done].
  - rewrite bind_ok. setoid_rewrite bind_ok. split.
    + intros (acc' & (a & Ha & [= <-]) & Hl). apply model_validate_ok in Ha as [-> Ha].
      apply IH in Hl as (new & -> & -> & ?). exists (a :: new).
      rewrite <- app_assoc. by repeat constructor.
    + intros ([|a new] & -> & Hl & Hv); [done|]. injection Hl as -> ->.
      apply Forall_cons in Hv as [Ha Hv].
      exists (acc ++ [a]). split.
      * exists a. split; [by apply model_validate_ok|done].
      * apply IH. exists new. by rewrite <- app_assoc.
Qed.

(** ** JSON values and digests

    Digests are taken of canonical JSON texts.  SHA-256, HMAC-SHA-256 and
    AES-GCM are parameters of the components that use them; what is hashed is
    the JSON value itself.  A digest type [H] is any type with decidable
    equality. *)

Inductive jval :=
  | JNull
  | JBool (b : bool)
  | JInt (z : Z)
  | JTime (t : Z)
  | JStr (s : string)
  | JText (s : list Z)
  | JList (l : list jval)
  | JObj (l : list (string * jval)).

#[export] Instance jval_eq_dec : EqDecision jval.
Proof.
  refine (fix go (x y : jval) : Decision (x = y) :=
    match x, y with
    | JNull, JNull => left eq_refl
    | JBool b, JBool c => cast_if (decide (b = c))
    | JInt b, JInt c => cast_if (decide (b = c))
    | JTime b, JTime c => cast_if (decide (b = c))
    | JStr b, JStr c => cast_if (decide (b = c))
    | JText b, JText c => cast_if (decide (b = c))
    | JList b, JList c => cast_if (@list_eq_dec jval go b c)
    | JObj b, JObj c => cast_if (@list_eq_dec _ (@prod_eq_dec _ _ _ go) b c)
    | _, _ => right _
    end); clear go; abstract congruence.
Defined.

(** ** Hash chains

    Every audit table stores in a row the digest of the row's values and of
    the preceding digest.  The component says which are which; the chain
    argument is made once. *)

Class ChainRow (R H : Type) := {
  row_previous : R -> H;
  row_stored : R -> H;
  row_computed : R -> H;
}.

Section chain.
Context {R H : Type} `{EqDecision H} `{ChainRow R H}.
Implicit Types (l : list R) (p : H).

(** One iteration of a verification loop. *)
Definition link_ok (p : H) (r : R) : Prop :=
  row_previous r = p /\ row_stored r = row_computed r.
#[export] Instance link_ok_dec p r : Decision (link_ok p r).
Proof. unfold link_ok. apply _. Defined.

Fixpoint chained (p : H) (l : list R) : Prop :=
  match l with
  | [] => True
  | r :: l' => link_ok p r /\ chained (row_stored r) l'
  end.
#[export] Instance chained_dec p l : Decision (chained p l).
Proof. revert p. induction l; intros p; cbn; apply _. Defined.

(** The digest a new row is linked to. *)
Definition chain_head (p : H) (l : list R) : H :=
  match last l with Some r => row_stored r | None => p end.

Lemma chain_head_cons p r l : chain_head p (r :: l) = chain_head (row_stored r) l.
Proof.
  unfold chain_head. destruct l as [|x l]; [done|]. rewrite last_cons_cons.
  destruct (last (x :: l)) eqn:E; [done|]. by apply last_None in E.
Qed.

Lemma chain_head_snoc p l r : chain_head p (l ++ [r]) = row_stored r.
Proof. unfold chain_head. by rewrite last_snoc. Qed.

Lemma chained_app p l1 l2 :
  chained p (l1 ++ l2) <-> chained p l1 /\ chained (chain_head p l1) l2.
Proof.
  revert p. induction l1 as [|r l1 IH]; intros p; cbn; [naive_solver|].
  rewrite IH, chain_head_cons. naive_solver.
Qed.

Lemma chained_snoc p l r :
  chained p l -> link_ok (chain_head p l) r -> chained p (l ++ [r]).
Proof. intros. apply chained_app. by split; [|split]. Qed.

(** Digests without collisions fix the whole table: two verified tables of
    one length with one head are equal. *)
Lemma chained_unique_in p l1 l2 :
  (forall r1 r2, r1 ∈ l1 -> r2 ∈ l2 ->
     row_computed r1 = row_computed r2 -> row_stored r1 = row_stored r2 -> r1 = r2) ->
  chained p l1 -> chained p l2 -> length l1 = length l2 ->
  chain_head p l1 = chain_head p l2 -> l1 = l2.
Proof.
  revert l2.
  induction l1 as [|r1 l1 IH] using rev_ind; intros l2 Hinj H1 H2 Hlen Hhead.
  - by destruct l2.
  - destruct l2 as [|r2 l2 _] using rev_ind; [rewrite length_app in Hlen; cbn in *; lia|].
    rewrite !length_app in Hlen. cbn in Hlen.
    rewrite !chain_head_snoc in Hhead.
    apply chained_app in H1 as [H1 [[Hp1 Hs1] _]], H2 as [H2 [[Hp2 Hs2] _]].
    assert (r1 = r2) as -> by (apply Hinj; [set_solver..|congruence|congruence]).
    f_equal. apply IH; [|done..|lia|congruence]. intros. apply Hinj; set_solver.
Qed.

Lemma chained_unique p l1 l2 :
  (forall r1 r2, row_computed r1 = row_computed r2 -> row_stored r1 = row_stored r2 -> r1 = r2) ->
  chained p l1 -> chained p l2 -> length l1 = length l2 ->
  chain_head p l1 = chain_head p l2 -> l1 = l2.
Proof. intros Hinj. apply chained_unique_in. auto. Qed.
End chain.

(** ** Clock ticks

    [time.time()] is a double.  At the present epoch a double has 22 bits
    after the binary point, so a clock reading is an integer number of
    2^-22 s ticks, on which adding and comparing whole seconds is exact. *)

Definition TICK : Z := 2 ^ 22.
Definition seconds (n : Z) : Z := n * TICK.

(** Turn boolean integer comparisons into propositions. *)
Ltac zify_bools :=
  repeat match goal with
  | H : (_ <? _) = true |- _ => apply Z.ltb_lt in H
  | H : (_ <? _) = false |- _ => apply Z.ltb_ge in H
  | H : (_ <=? _) = true |- _ => apply Z.leb_le in H
  | H : (_ <=? _) = false |- _ => apply Z.leb_gt in H
  | H : (_ =? _) = true |- _ => apply Z.eqb_eq in H
  | H : (_ =? _) = false |- _ => apply Z.eqb_neq in H
  | H : andb _ _ = true |- _ => apply andb_true_iff in H as [? ?]
  | H : orb _ _ = false |- _ => apply orb_false_iff in H as [? ?]
  | H : negb _ = true |- _ => apply negb_true_iff in H
  | H : negb _ = false |- _ => apply negb_false_iff in H
  end.

(** ** Tables

    A table is the list of its rows in insertion order. *)

Section tables.
Context {A : Type}.

(** [SELECT ... WHERE P] and [fetchone()] *)
Definition sql_one (P : A -> Prop) `{!forall x, Decision (P x)} (l : list A) : option A :=
  head (filter P l).

(** [UPDATE ... SET f WHERE P] *)
Definition sql_update (P : A -> Prop) `{!forall x, Decision (P x)} (f : A -> A) (l : list A)
  : list A := (fun x => if decide (P x) then f x else x) <$> l.

(** [DELETE ... WHERE P] *)
Definition sql_delete (P : A -> Prop) `{!forall x, Decision (P x)} (l : list A) : list A :=
  filter (fun x => ~ P x) l.

(** [INSERT INTO ...], with the uniqueness constraints of the table as [clash] *)
Definition sql_insert (clash : A -> A -> Prop) `{!forall x y, Decision (clash x y)} (x : A)
    (l : list A) : res (list A) :=
  _ ← raise_if (Exists (clash x) l) IntegrityError;
  Ok (l ++ [x]).

Lemma sql_one_some (P : A -> Prop) `{!forall x, Decision (P x)} l x :
  sql_one P l = Some x -> x ∈ l /\ P x.
Proof.
  unfold sql_one. intros Hh. assert (x ∈ filter P l) as Hx.
  { destruct (filter P l); [done|]. cbn in Hh. simplify_eq. left. }
  apply list_elem_of_filter in Hx. naive_solver.
Qed.

Lemma sql_one_none (P : A -> Prop) `{!forall x, Decision (P x)} l :
  sql_one P l = None <-> Forall (fun x => ~ P x) l.
Proof.
  unfold sql_one. induction l as [|x l IH]; [by repeat constructor|].
  rewrite Forall_cons, filter_cons. case_decide; cbn; naive_solver.
Qed.

Lemma sql_one_exists (P : A -> Prop) `{!forall x, Decision (P x)} l x :
  x ∈ l -> P x -> exists y, sql_one P l = Some y.
Proof.
  intros Hx HP. destruct (sql_one P l) eqn:E; [eauto|].
  apply sql_one_none in E. rewrite Forall_forall in E. by destruct (E x Hx).
Qed.

(** A lookup by a key that is unique in the table. *)
Lemma sql_one_unique {K} `{EqDecision K} (f : A -> K) l x k :
  NoDup (f <$> l) -> x ∈ l -> f x = k -> sql_one (fun y => f y = k) l = Some x.
Proof.
  intros Hn Hx <-. unfold sql_one. induction l as [|y l IH]; [set_solver|].
  cbn in Hn. apply NoDup_cons in Hn as [Hy Hn]. rewrite filter_cons.
  apply elem_of_cons in Hx as [->|Hx]; [by rewrite decide_True|].
  rewrite decide_False; [auto|]. intros E. apply Hy. rewrite E. by apply list_elem_of_fmap_2.
Qed.

Lemma sql_update_elem (P : A -> Prop) `{!forall x, Decision (P x)} f l y :
  y ∈ sql_update P f l -> exists x, x ∈ l /\ y = if decide (P x) then f x else x.
Proof. unfold sql_update. intros (x & -> & ?)%list_elem_of_fmap. by exists x. Qed.

Lemma sql_update_elem_2 (P : A -> Prop) `{!forall x, Decision (P x)} f l x :
  x ∈ l -> (if decide (P x) then f x else x) ∈ sql_update P f l.
Proof. intros. unfold sql_update. apply list_elem_of_fmap. by exists x. Qed.

(** An update that leaves a column alone. *)
Lemma sql_update_column {K} (P : A -> Prop) `{!forall x, Decision (P x)} f l (g : A -> K) :
  (forall x, g (f x) = g x) -> g <$> sql_update P f l = g <$> l.
Proof.
  intros Hg. unfold sql_update. rewrite <- list_fmap_compose. apply list_fmap_ext.
  intros _ x _. cbn. case_decide; [apply Hg|done].
Qed.

Lemma sql_update_length (P : A -> Prop) `{!forall x, Decision (P x)} f l :
  length (sql_update P f l) = length l.
Proof. apply length_fmap. Qed.

Lemma sql_delete_elem (P : A -> Prop) `{!forall x, Decision (P x)} l x :
  x ∈ sql_delete P l <-> x ∈ l /\ ~ P x.
Proof. unfold sql_delete. rewrite list_elem_of_filter. tauto. Qed.

Lemma sql_delete_column {K} (P : A -> Prop) `{!forall x, Decision (P x)} l (g : A -> K) :
  NoDup (g <$> l) -> NoDup (g <$> sql_delete P l).
Proof. intros Hn. eapply sublist_NoDup; [exact Hn|]. apply fmap_sublist, sublist_filter. Qed.

Lemma sql_insert_ok (clash : A -> A -> Prop) `{!forall x y, Decision (clash x y)} x l l' :
  sql_insert clash x l = Ok l' -> l' = l ++ [x] /\ Forall (fun y => ~ clash x y) l.
Proof.
  unfold sql_insert. intros Hi. inv_ok. split; [done|].
  by apply Forall_Exists_neg.
Qed.

Lemma sql_insert_total (clash : A -> A -> Prop) `{!forall x y, Decision (clash x y)} x l :
  Forall (fun y => ~ clash x y) l -> sql_insert clash x l = Ok (l ++ [x]).
Proof.
  intros Hf. unfold sql_insert. rewrite raise_if_no; [done|]. by apply Forall_Exists_neg.
Qed.

Lemma nodup_column_inj {K} (f : A -> K) l x y :
  NoDup (f <$> l) -> x ∈ l -> y ∈ l -> f x = f y -> x = y.
Proof.
  induction l as [|z l IH]; [set_solver|]. cbn. intros [Hz Hn]%NoDup_cons Hx Hy E.
  apply elem_of_cons in Hx as [->|Hx]; apply elem_of_cons in Hy as [->|Hy]; try done; [| |auto];
    exfalso; apply Hz; apply list_elem_of_fmap; eauto.
Qed.

Lemma snoc_column {K} (f : A -> K) l x :
  NoDup (f <$> l) -> Forall (fun y => f x <> f y) l -> NoDup (f <$> l ++ [x]).
Proof.
  intros Hn Hf. rewrite fmap_app. apply NoDup_app. split_and!; [done| |apply NoDup_singleton].
  intros k Hk Hx. apply list_elem_of_singleton in Hx as ->.
  apply list_elem_of_fmap in Hk as (y & E & Hy). rewrite Forall_forall in Hf. by apply (Hf y).
Qed.
End tables.

(** [SELECT COALESCE(MAX(key),0)+1] *)
Definition next_key (keys : list Z) : Z :=
  match keys with
  | [] => 1
  | s :: l => foldr Z.max s l + 1
  end.

Lemma next_key_above keys k : k ∈ keys -> k < next_key keys.
Proof.
  destruct keys as [|s l]; [by intros ?%elem_of_nil|]. intros Hk. cbn.
  enough (k <= foldr Z.max s l) by lia.
  apply elem_of_cons in Hk as [->|Hk].
  - clear. induction l; cbn; lia.
  - induction l as [|t l IH]; [by apply elem_of_nil in Hk|]. cbn.
    apply elem_of_cons in Hk as [->|Hk]; [lia|]. specialize (IH Hk). lia.
Qed.

(** Lookups in tables that grow or are updated. *)

Lemma sql_one_app {A} (P : A -> Prop) `{!forall x, Decision (P x)} l l' :
  sql_one P (l ++ l') = match sql_one P l with Some x => Some x | None => sql_one P l' end.
Proof. unfold sql_one. rewrite filter_app. by destruct (filter P l). Qed.

Lemma sql_one_update_same {A} (P : A -> Prop) `{!forall x, Decision (P x)} row l x :
  P row -> sql_one P l = Some x -> sql_one P (sql_update P (fun _ => row) l) = Some row.
Proof.
  intros Hp. unfold sql_one, sql_update. induction l as [|y l IH]; [done|].
  rewrite fmap_cons, !filter_cons. destruct (decide (P y)); cbn.
  - by rewrite decide_True.
  - by rewrite decide_False.
Qed.

Lemma sql_one_update_map {A} (P : A -> Prop) `{!forall x, Decision (P x)} f l :
  (forall x, P x -> P (f x)) -> sql_one P (sql_update P f l) = f <$> sql_one P l.
Proof.
  intros Hf. unfold sql_one, sql_update. induction l as [|y l IH]; [done|].
  rewrite fmap_cons, !filter_cons. destruct (decide (P y)); cbn.
  - rewrite decide_True; [done|by apply Hf].
  - by rewrite decide_False.
Qed.

Lemma sql_one_update_away {A} (P Q : A -> Prop) `{!forall x, Decision (P x)}
    `{!forall x, Decision (Q x)} f l :
  (forall x, P x -> ~ Q x /\ ~ Q (f x)) -> sql_one Q (sql_update P f l) = sql_one Q l.
Proof.
  intros Hf. unfold sql_one, sql_update. induction l as [|y l IH]; [done|].
  rewrite fmap_cons, !filter_cons. destruct (decide (P y)) as [Hp|]; [|by case_decide].
  destruct (Hf y Hp). by rewrite !decide_False.
Qed.

Lemma sql_one_update_other {A} (P Q : A -> Prop) `{!forall x, Decision (P x)}
    `{!forall x, Decision (Q x)} row l :
  (forall x, P x -> ~ Q x) -> ~ Q row -> sql_one Q (sql_update P (fun _ => row) l) = sql_one Q l.
Proof.
  intros Hd Hr. unfold sql_one, sql_update. induction l as [|y l IH]; [done|].
  rewrite fmap_cons, !filter_cons. destruct (decide (P y)) as [Hp|Hp].
  - rewrite !decide_False; auto.
  - case_decide; auto.
Qed.

Lemma sql_one_single {A} (P : A -> Prop) `{!forall x, Decision (P x)} x :
  sql_one P [x] = if decide (P x) then Some x else None.
Proof. unfold sql_one. rewrite filter_cons, filter_nil. by case_decide. Qed.

(** An optional filter: [None] admits everything. *)
Definition opt_is {A} (o : option A) (x : A) : Prop :=
  match o with Some y => y = x | None => True end.
#[export] Instance opt_is_dec {A} `{EqDecision A} (o : option A) x : Decision (opt_is o x).
Proof. destruct o; cbn; apply _. Defined.

(** [DELETE ... WHERE key IN (SELECT key ... ORDER BY R LIMIT -1 OFFSET n)]
    leaves at most [n] rows. *)
Lemma keep_newest_length {A K} `{EqDecision K} (R : A -> A -> Prop)
    `{!forall x y, Decision (R x y)} (f : A -> K) (l : list A) n :
  (length (sql_delete (fun x => f x ∈ f <$> drop n (py_sorted R l)) l) <= n)%nat.
Proof.
  set (s := py_sorted R l).
  assert (l ≡ₚ take n s ++ drop n s) as Hp by (rewrite take_drop; symmetry; apply py_sorted_perm).
  unfold sql_delete. rewrite Hp at 1. rewrite filter_app, length_app.
  assert (filter (fun x => ~ f x ∈ f <$> drop n s) (drop n s) = []) as ->.
  { apply elem_of_nil_inv. intros x [Hn Hx]%list_elem_of_filter.
    apply Hn. by apply list_elem_of_fmap_2. }
  cbn. etrans; [apply Nat.eq_le_incl, Nat.add_0_r|].
  etrans; [apply length_filter|]. rewrite length_take. lia.
Qed.

(** It keeps a row whose key is greater than every other. *)
Lemma keep_newest_max {A} (R : A -> A -> Prop) `{!forall x y, Decision (R x y)}
    `{!Total R, !Transitive R} (f : A -> Z) (l : list A) n r :
  (forall x y, R x y -> f y <= f x) -> Forall (fun x => f x < f r) l -> (0 < n)%nat ->
  r ∈ sql_delete (fun x => f x ∈ f <$> drop n (py_sorted R (l ++ [r]))) (l ++ [r]).
Proof.
  intros HR Hl Hn. apply sql_delete_elem. split; [set_solver|].
  pose proof (py_sorted_strong R (l ++ [r])) as Hs. rewrite Forall_forall in Hl.
  destruct n as [|n]; [lia|].
  destruct (py_sorted R (l ++ [r])) as [|z s] eqn:E; cbn; [set_solver|].
  intros (y & Hy & Hin)%list_elem_of_fmap.
  apply StronglySorted_inv in Hs as [_ Hz]. rewrite Forall_forall in Hz.
  assert (y ∈ s) as Hys by (rewrite <- (take_drop n s); apply elem_of_app; by right).
  pose proof (HR _ _ (Hz _ Hys)) as Hle.
  assert (z :: s ≡ₚ l ++ [r]) as Hp by (rewrite <- E; apply py_sorted_perm).
  assert (z ∈ l ++ [r]) as [Hzl|Hzr%list_elem_of_singleton]%elem_of_app by (rewrite <- Hp; left).
  - specialize (Hl _ Hzl). lia.
  - subst z. assert (s ≡ₚ l) as Hp'.
    { apply (Permutation_cons_inv (a := r)). rewrite Hp. symmetry. apply Permutation_cons_append. }
    assert (y ∈ l) as Hyl by (by rewrite <- Hp').
    specialize (Hl _ Hyl). lia.
Qed.

Lemma u_inj s t : u s = u t -> s = t.
Proof.
  revert t. induction s as [|c s IH]; intros [|c' t]; cbn; intros E; try done.
  injection E as Ec Es. apply N2Z.inj in Ec.
  assert (c = c') as -> by (rewrite <- (Ascii.ascii_N_embedding c), Ec; apply Ascii.ascii_N_embedding).
  by rewrite (IH t).
Qed.

Lemma ustr_le_antisym s t : ustr_le s t -> ustr_le t s -> s = t.
Proof.
  revert t. induction s as [|c s IH]; intros [|c' t]; cbn; try done.
  intros [?|[-> ?]] [?|[? ?]]; try lia. by rewrite (IH t).
Qed.

(** Python's order on ASCII strings. *)
Definition str_le (s t : string) : Prop := ustr_le (u s) (u t).
#[export] Instance str_le_dec s t : Decision (str_le s t).
Proof. unfold str_le. apply _. Defined.
#[export] Instance str_le_total : Total str_le.
Proof. intros s t. apply ustr_le_total. Qed.
#[export] Instance str_le_trans : Transitive str_le.
Proof. intros s t v. apply ustr_le_trans. Qed.
Lemma str_le_antisym s t : str_le s t -> str_le t s -> s = t.
Proof. intros. apply u_inj. by apply ustr_le_antisym. Qed.

(** ** Closed error sets

    [api_only r]: the only exception that leaves [r] is an [ApiError];
    [value_only r]: the only one is a [ValueError]. *)

Definition api_only {A} (r : res A) : Prop := forall e, r = Raise e -> exists c s, e = ApiError c s.
Definition value_only {A} (r : res A) : Prop := forall e, r = Raise e -> exists c, e = ValueError c.

Lemma api_only_ok {A} (a : A) : api_only (Ok a).
Proof. by intros e H. Qed.
Lemma api_only_bind {A B} (m : res A) (f : A -> res B) :
  api_only m -> (forall a, m = Ok a -> api_only (f a)) -> api_only (m ≫= f).
Proof. intros Hm Hf e [H|(a & Ha & H)]%bind_raise; [by apply Hm|by eapply Hf]. Qed.
Lemma api_only_raise_if P `{Decision P} c s : api_only (raise_if P (ApiError c s)).
Proof. intros e [_ <-]%raise_if_raise. eauto. Qed.
Lemma api_only_require {A} (o : option A) c s : api_only (require_some o (ApiError c s)).
Proof. destruct o; intros e H; cbn in H; [done|]. injection H as <-. eauto. Qed.
Lemma api_only_some {A} (o : option A) e : is_Some o -> api_only (require_some o e).
Proof. by intros [a ->] e' H. Qed.
Lemma api_only_except_any {A} (r : res A) c s : api_only (except_any r (ApiError c s)).
Proof. destruct r; intros e' H'; cbn in H'; [done|]. injection H' as <-. eauto. Qed.
Lemma api_only_except_value {A} (r : res A) c s :
  value_only r -> api_only (except_value_error r (ApiError c s)).
Proof.
  intros Hr e He. destruct r as [|e']; cbn in He; [done|].
  destruct (Hr e' eq_refl) as [c' ->]. injection He as <-. eauto.
Qed.
Lemma api_only_for_each {A} (f : A -> res unit) l :
  (forall x, x ∈ l -> api_only (f x)) -> api_only (for_each f l).
Proof. intros Hf e (x & Hx & He)%for_each_raise. by eapply Hf. Qed.
Lemma api_only_fold {A S} (f : S -> A -> res S) s l :
  (forall s x, api_only (f s x)) -> api_only (fold_res f s l).
Proof.
  intros Hf. revert s. induction l as [|x l IH]; intros s; cbn; [apply api_only_ok|].
  by apply api_only_bind.
Qed.
Lemma value_only_bind {A B} (m : res A) (f : A -> res B) :
  value_only m -> (forall a, m = Ok a -> value_only (f a)) -> value_only (m ≫= f).
Proof. intros Hm Hf e [H|(a & Ha & H)]%bind_raise; [by apply Hm|by eapply Hf]. Qed.
Lemma value_only_ok {A} (a : A) : value_only (Ok a).
Proof. by intros e H. Qed.
Lemma value_only_raise_if P `{Decision P} c : value_only (raise_if P (ValueError c)).
Proof. intros e [_ <-]%raise_if_raise. eauto. Qed.
Lemma value_only_raise {A} c : value_only (Raise (A := A) (ValueError c)).
Proof. intros e H. injection H as <-. eauto. Qed.
Lemma except_value_error_raises {A} (r : res A) e e' :
  value_only r -> except_value_error r e = Raise e' -> e' = e.
Proof.
  intros Hr He. destruct r as [|e0]; cbn in He; [done|].
  destruct (Hr e0 eq_refl) as [c ->]. by injection He as <-.
Qed.
Lemma value_only_fold {A S} (f : S -> A -> res S) s l :
  (forall s x, value_only (f s x)) -> value_only (fold_res f s l).
Proof.
  intros Hf. revert s. induction l as [|x l IH]; intros s; cbn; [apply value_only_ok|].
  by apply value_only_bind.
Qed.
Lemma value_only_validate {A} `{Model A} (r : raw A) : value_only (model_validate r).
Proof. intros e ->%model_validate_raise. eauto. Qed.
Lemma value_only_validate_all {A} `{Model A} (l : list (raw A)) : value_only (model_validate_all l).
Proof.
  unfold model_validate_all.
  enough (forall acc, value_only (fold_res (fun acc r => a ← model_validate r; Ok (acc ++ [a])) acc l))
    as Hg by apply Hg.
  induction l as [|r l IH]; intros acc; cbn; [apply value_only_ok|].
  apply value_only_bind; [|intros; apply IH].
  apply value_only_bind; [apply value_only_validate|intros; apply value_only_ok].
Qed.

Create HintDb closed_errors discriminated.
#[export] Hint Resolve api_only_ok api_only_raise_if api_only_require api_only_except_any
  api_only_except_value api_only_fold value_only_ok value_only_raise_if value_only_raise
  value_only_fold value_only_validate
  value_only_validate_all : closed_errors.
