(* ===== verification/Pantry.v ===== *)
(** * The pantry stock ledger

    [server/larenor_server/pantry_stock]: lots are received, consumed first
    expired first, and a consumption can be undone once.  Every request
    carries an idempotency key and the revision it was made against.  The
    ledger lives in memory behind a lock, so an operation is one step of its
    state; what it assigned before an exception stays assigned. *)

From S2P Require Import Prelude.

Inductive StockUnit := Unit_g | Unit_kg | Unit_ml | Unit_l | Unit_piece.
Inductive MeasureKind := mass_mg | volume_ul | count_milli.
#[export] Instance StockUnit_eq_dec : EqDecision StockUnit.
Proof. solve_decision. Defined.
#[export] Instance MeasureKind_eq_dec : EqDecision MeasureKind.
Proof. solve_decision. Defined.

Record StockAmount := { quantityMillis : Z; unit_ : StockUnit }.

Definition StockAmount_valid (a : StockAmount) : Prop := 1 <= quantityMillis a <= 10000000.
#[export] Instance StockAmount_valid_dec a : Decision (StockAmount_valid a).
Proof. unfold StockAmount_valid. solve_dec. Defined.
#[export] Instance StockAmount_model : Model StockAmount := {| model_valid := StockAmount_valid |}.

Definition normalized (a : StockAmount) : res (MeasureKind * Z) :=
  let '(kind, multiplier) :=
    match unit_ a with
    | Unit_g => (mass_mg, 1)
    | Unit_kg => (mass_mg, 1000)
    | Unit_ml => (volume_ul, 1)
    | Unit_l => (volume_ul, 1000)
    | Unit_piece => (count_milli, 1)
    end in
  let value := quantityMillis a * multiplier in
  _ ← raise_if (value > 10000000000) (ValueError "quantity_out_of_range");
  Ok (kind, value).

(** ** Expiry dates

    [date.fromisoformat] reads more spellings than [YYYY-MM-DD], but the
    validator keeps only a text that [isoformat] prints back, so the accepted
    texts are the canonical ones of an existing date. *)

Record date := { year : Z; month : Z; day : Z }.

Definition digit (c : Ascii.ascii) : option Z :=
  let z := Z.of_N (Ascii.N_of_ascii c) in
  if (48 <=? z) && (z <=? 57) then Some (z - 48) else None.

Definition is_leap (y : Z) : bool :=
  (y mod 4 =? 0) && (negb (y mod 100 =? 0) || (y mod 400 =? 0)).

Definition days_in_month (y m : Z) : Z :=
  if (m =? 2) then (if is_leap y then 29 else 28)
  else if (m =? 4) || (m =? 6) || (m =? 9) || (m =? 11) then 30 else 31.

Definition date_exists (d : date) : Prop :=
  1 <= year d <= 9999 /\ 1 <= month d <= 12 /\ 1 <= day d <= days_in_month (year d) (month d).
#[export] Instance date_exists_dec d : Decision (date_exists d).
Proof. unfold date_exists. apply _. Defined.

Definition canonical_date (s : string) : option date :=
  match s with
  | String y1 (String y2 (String y3 (String y4 (String d1
      (String m1 (String m2 (String d2 (String a1 (String a2 EmptyString))))))))) =>
      y1 ← digit y1; y2 ← digit y2; y3 ← digit y3; y4 ← digit y4;
      m1 ← digit m1; m2 ← digit m2; a1 ← digit a1; a2 ← digit a2;
      let d := {| year := 1000 * y1 + 100 * y2 + 10 * y3 + y4;
                  month := 10 * m1 + m2; day := 10 * a1 + a2 |} in
      if decide (Ascii.N_of_ascii d1 = 45%N /\ Ascii.N_of_ascii d2 = 45%N /\ date_exists d) then Some d else None
  | _ => None
  end.

(** Dates compare by year, then month, then day. *)
Definition date_ordinal (d : date) : Z := 10000 * year d + 100 * month d + day d.

Record StockLot := {
  lot_id : string;
  lot_ingredientKey : ustr;
  lot_amount : StockAmount;
  lot_expiresOn : option string;
}.

Record StockAllocation := { alloc_lotId : string; alloc_quantity : Z }.

Inductive ReceiptKind := KReceive | KConsume | KUndo.
#[export] Instance ReceiptKind_eq_dec : EqDecision ReceiptKind.
Proof. solve_decision. Defined.

Record StockReceipt := {
  rcpt_requestId : string;
  rcpt_movementId : string;
  rcpt_revision : Z;
  rcpt_kind : ReceiptKind;
  rcpt_allocations : list StockAllocation;
}.

Record LotBalance := {
  bal_lotId : string;
  bal_ingredientKey : ustr;
  bal_measure : MeasureKind;
  bal_remaining : Z;
  bal_expiresOn : option string;
}.

Record StockSnapshot := { snap_revision : Z; snap_lots : list LotBalance }.

Definition make_allocation (lot : string) (quantity : Z) : res StockAllocation :=
  _ ← raise_if (~ 1 <= quantity <= 10000000000) (ValueError "validation_error");
  Ok {| alloc_lotId := lot; alloc_quantity := quantity |}.

(** ** State *)

Record Lot := {
  value : StockLot;
  measure : MeasureKind;
  remaining : Z;
  sequence : Z;
}.

Record Movement := { allocations : list StockAllocation; reverted : bool }.

Record PantryLedger {H : Type} := {
  max_lots : Z;
  max_receipts : Z;
  revision : Z;
  next_sequence : Z;
  lots : list (string * Lot);
  movements : list (string * Movement);
  receipts : list (string * (H * StockReceipt));
}.
Arguments PantryLedger : clear implicits.

Definition set_remaining (n : Z) (l : Lot) : Lot :=
  {| value := value l; measure := measure l; remaining := n; sequence := sequence l |}.

(** [self._lots[k].remaining += delta] *)
Definition add_remaining (k : string) (delta : Z) (d : list (string * Lot))
  : res (list (string * Lot)) :=
  l ← require_some (dict_get d k) KeyError;
  Ok (dict_set d k (set_remaining (remaining l + delta) l)).

Section ledger.
Context {H : Type} `{EqDecision H} `{UnicodeData}.

(** SHA-256 of a canonical JSON object, and of a movement name cut to 32
    hexadecimal digits. *)
Variable sha256 : jval -> H.
Variable sha256_movement : string -> string -> string.

Local Notation ledger := (PantryLedger H).

Definition ingredient_ok (k : ustr) : Prop :=
  k = str_strip k /\ k = str_lower k /\ Forall (fun c => ~ is_control c) k.
#[export] Instance ingredient_ok_dec k : Decision (ingredient_ok k).
Proof. unfold ingredient_ok. apply _. Defined.

Definition StockLot_valid (l : StockLot) : Prop :=
  is_hex 32 (lot_id l) /\
  1 <= Z.of_nat (length (lot_ingredientKey l)) <= 80 /\
  ingredient_ok (lot_ingredientKey l) /\
  model_valid (lot_amount l) /\
  match lot_expiresOn l with None => True | Some s => is_Some (canonical_date s) end.
#[export] Instance StockLot_valid_dec l : Decision (StockLot_valid l).
Proof. unfold StockLot_valid. solve_dec. Defined.
#[export] Instance StockLot_model : Model StockLot := {| model_valid := StockLot_valid |}.

Definition kind_name (k : ReceiptKind) : string :=
  match k with KReceive => "receive" | KConsume => "consume" | KUndo => "undo" end.
Definition unit_name (x : StockUnit) : string :=
  match x with
  | Unit_g => "g" | Unit_kg => "kg" | Unit_ml => "ml" | Unit_l => "l" | Unit_piece => "piece"
  end.
Definition measure_name (m : MeasureKind) : string :=
  match m with mass_mg => "mass_mg" | volume_ul => "volume_ul" | count_milli => "count_milli" end.

Definition dump_lot (l : StockLot) : jval := JObj [
  ("amount", JObj [("quantityMillis", JInt (quantityMillis (lot_amount l)));
                   ("schemaVersion", JInt 1);
                   ("unit", JStr (unit_name (unit_ (lot_amount l))))]);
  ("expiresOn", match lot_expiresOn l with None => JNull | Some s => JStr s end);
  ("id", JStr (lot_id l));
  ("ingredientKey", JText (lot_ingredientKey l));
  ("schemaVersion", JInt 1)].

Definition digest_ (kind : ReceiptKind) (fields : list (string * jval)) : H :=
  sha256 (JObj (("kind", JStr (kind_name kind)) :: fields)).

Definition movement_name (request_id : string) (kind : ReceiptKind) : string :=
  sha256_movement (kind_name kind) request_id.

Definition identity_ (value : string) : res unit :=
  raise_if (~ is_hex 32 value) (PantryConflict "invalid_request").

Definition replay_ (s : ledger) (request_id : string) (digest : H) : res (option StockReceipt) :=
  match dict_get (receipts s) request_id with
  | None => Ok None
  | Some (d, r) =>
      _ ← raise_if (d <> digest) (PantryConflict "idempotency_conflict");
      Ok (Some r)
  end.

Definition begin_ (s : ledger) (request_id : string) (expected_revision : Z) (digest : H)
  : res (option StockReceipt) :=
  _ ← identity_ request_id;
  replay ← replay_ s request_id digest;
  match replay with
  | Some r => Ok (Some r)
  | None =>
      _ ← raise_if (expected_revision < 0 \/ expected_revision <> revision s)
            (PantryConflict "revision_conflict");
      _ ← raise_if (revision s >= 2 ^ 63 - 1) (PantryConflict "revision_conflict");
      _ ← raise_if (Z.of_nat (length (receipts s)) >= max_receipts s)
            (PantryConflict "receipt_capacity");
      Ok None
  end.

Definition set_lots (d : list (string * Lot)) (s : ledger) : ledger :=
  {| max_lots := max_lots s; max_receipts := max_receipts s; revision := revision s;
     next_sequence := next_sequence s; lots := d; movements := movements s;
     receipts := receipts s |}.
Definition set_sequence (n : Z) (s : ledger) : ledger :=
  {| max_lots := max_lots s; max_receipts := max_receipts s; revision := revision s;
     next_sequence := n; lots := lots s; movements := movements s; receipts := receipts s |}.
Definition set_movements (d : list (string * Movement)) (s : ledger) : ledger :=
  {| max_lots := max_lots s; max_receipts := max_receipts s; revision := revision s;
     next_sequence := next_sequence s; lots := lots s; movements := d; receipts := receipts s |}.
Definition set_revision (n : Z) (s : ledger) : ledger :=
  {| max_lots := max_lots s; max_receipts := max_receipts s; revision := n;
     next_sequence := next_sequence s; lots := lots s; movements := movements s;
     receipts := receipts s |}.
Definition set_receipts (d : list (string * (H * StockReceipt))) (s : ledger) : ledger :=
  {| max_lots := max_lots s; max_receipts := max_receipts s; revision := revision s;
     next_sequence := next_sequence s; lots := lots s; movements := movements s; receipts := d |}.

Definition finish_ (request_id : string) (digest : H) (kind : ReceiptKind)
    (allocs : list StockAllocation) : M ledger StockReceipt :=
  _ ← modify (fun s => set_revision (revision s + 1) s);
  s ← get_state;
  _ ← lift (raise_if (~ Revision (revision s)) (ValueError "validation_error"));
  let receipt := {| rcpt_requestId := request_id;
                    rcpt_movementId := movement_name request_id kind;
                    rcpt_revision := revision s; rcpt_kind := kind;
                    rcpt_allocations := allocs |} in
  _ ← put_state (set_receipts (dict_set (receipts s) request_id (digest, receipt)) s);
  mret receipt.

(** ** Operations *)

Definition init (max_lots max_receipts : Z) : res ledger :=
  _ ← raise_if (~ (1 <= max_lots <= 4096 /\ 1 <= max_receipts <= 10000))
        (ValueError "invalid_limits");
  Ok {| max_lots := max_lots; max_receipts := max_receipts; revision := 0;
        next_sequence := 0; lots := []; movements := []; receipts := [] |}.

Definition receive (request_id : string) (expected_revision : Z) (raw_lot : raw StockLot)
  : M ledger StockReceipt :=
  lot ← lift (model_validate raw_lot);
  let digest := digest_ KReceive
    [("expectedRevision", JInt expected_revision); ("lot", dump_lot lot)] in
  s ← get_state;
  replay ← lift (begin_ s request_id expected_revision digest);
  match replay with
  | Some r => mret r
  | None =>
      _ ← lift (raise_if (is_Some (dict_get (lots s) (lot_id lot)))
                  (PantryConflict "duplicate_lot"));
      _ ← lift (raise_if (Z.of_nat (length (lots s)) >= max_lots s)
                  (PantryConflict "lot_capacity"));
      nq ← lift (normalized (lot_amount lot));
      _ ← modify (fun s => set_sequence (next_sequence s + 1) s);
      _ ← modify (fun s => set_lots (dict_set (lots s) (lot_id lot)
            {| value := lot; measure := nq.1; remaining := nq.2;
               sequence := next_sequence s |}) s);
      finish_ request_id digest KReceive []
  end.

(** Lots without an expiry date come last, then by date, then by arrival. *)
Definition expiry_key (l : Lot) : Z * Z * Z :=
  match lot_expiresOn (value l) with
  | None => (1, 0, sequence l)
  | Some s =>
      (0, match canonical_date s with Some d => date_ordinal d | None => 0 end, sequence l)
  end.

Definition key_le (a b : Z * Z * Z) : Prop :=
  let '(a1, a2, a3) := a in
  let '(b1, b2, b3) := b in
  a1 < b1 \/ (a1 = b1 /\ (a2 < b2 \/ (a2 = b2 /\ a3 <= b3))).
Definition expires_le (a b : Lot) : Prop := key_le (expiry_key a) (expiry_key b).
#[export] Instance expires_le_dec a b : Decision (expires_le a b).
Proof.
  unfold expires_le, key_le. destruct (expiry_key a) as [[] ?], (expiry_key b) as [[] ?].
  apply _.
Defined.

Definition is_candidate (key : ustr) (m : MeasureKind) (l : Lot) : Prop :=
  lot_ingredientKey (value l) = key /\ measure l = m /\ remaining l > 0.
#[export] Instance is_candidate_dec key m l : Decision (is_candidate key m l).
Proof. unfold is_candidate. apply _. Defined.

Definition candidates (s : ledger) (key : ustr) (m : MeasureKind) : list Lot :=
  py_sorted expires_le (filter (is_candidate key m) (dict_values (lots s))).

Fixpoint allocate (cs : list Lot) (rest : Z) : res (list StockAllocation) :=
  match cs with
  | [] => Ok []
  | c :: cs' =>
      if decide (rest = 0) then Ok []
      else
        let taken := Z.min (remaining c) rest in
        a ← make_allocation (lot_id (value c)) taken;
        l ← allocate cs' (rest - taken);
        Ok (a :: l)
  end.

(** The loop over the chosen allocations, one lot at a time; [sign] is -1 to
    take and 1 to give back. *)
Fixpoint apply_allocations (sign : Z) (allocs : list StockAllocation) : M ledger unit :=
  match allocs with
  | [] => mret tt
  | a :: allocs' =>
      s ← get_state;
      d ← lift (add_remaining (alloc_lotId a) (sign * alloc_quantity a) (lots s));
      _ ← put_state (set_lots d s);
      apply_allocations sign allocs'
  end.

Definition consume (request_id : string) (expected_revision : Z) (ingredient_key : ustr)
    (raw_amount : raw StockAmount) : M ledger StockReceipt :=
  amount ← lift (model_validate raw_amount);
  _ ← lift (raise_if (ingredient_key = [] \/ ~ ingredient_ok ingredient_key \/
                      Z.of_nat (length ingredient_key) > 80)
              (PantryConflict "invalid_request"));
  nq ← lift (normalized amount);
  let digest := digest_ KConsume
    [("expectedRevision", JInt expected_revision); ("ingredientKey", JText ingredient_key);
     ("measure", JStr (measure_name nq.1)); ("quantity", JInt nq.2)] in
  s ← get_state;
  replay ← lift (begin_ s request_id expected_revision digest);
  match replay with
  | Some r => mret r
  | None =>
      let cs := candidates s ingredient_key nq.1 in
      _ ← lift (raise_if (zsum (remaining <$> cs) < nq.2)
                  (PantryConflict "insufficient_stock"));
      allocs ← lift (allocate cs nq.2);
      _ ← apply_allocations (-1) allocs;
      receipt ← finish_ request_id digest KConsume allocs;
      _ ← modify (fun s => set_movements
            (dict_set (movements s) (rcpt_movementId receipt)
               {| allocations := allocs; reverted := false |}) s);
      mret receipt
  end.

Definition undo (request_id : string) (expected_revision : Z) (movement_id : string)
  : M ledger StockReceipt :=
  _ ← lift (identity_ movement_id);
  let digest := digest_ KUndo
    [("expectedRevision", JInt expected_revision); ("movementId", JStr movement_id)] in
  s ← get_state;
  replay ← lift (begin_ s request_id expected_revision digest);
  match replay with
  | Some r => mret r
  | None =>
      movement ← lift (require_some (dict_get (movements s) movement_id)
                         (PantryConflict "movement_not_found"));
      _ ← lift (raise_if (reverted movement = true) (PantryConflict "already_reverted"));
      _ ← lift (raise_if (Exists (fun a => ~ is_Some (dict_get (lots s) (alloc_lotId a)))
                            (allocations movement)) (PantryConflict "lot_missing"));
      _ ← apply_allocations 1 (allocations movement);
      _ ← modify (fun s => set_movements
            (dict_set (movements s) movement_id
               {| allocations := allocations movement; reverted := true |}) s);
      finish_ request_id digest KUndo (allocations movement)
  end.

Definition balance_of (l : Lot) : res LotBalance :=
  _ ← raise_if (~ 1 <= remaining l <= 10000000000) (ValueError "validation_error");
  Ok {| bal_lotId := lot_id (value l); bal_ingredientKey := lot_ingredientKey (value l);
        bal_measure := measure l; bal_remaining := remaining l;
        bal_expiresOn := lot_expiresOn (value l) |}.

Definition sequence_le (a b : Lot) : Prop := sequence a <= sequence b.
#[export] Instance sequence_le_dec a b : Decision (sequence_le a b).
Proof. unfold sequence_le. apply _. Defined.

Definition snapshot (s : ledger) : res StockSnapshot :=
  rows ← fold_res (fun acc l => b ← balance_of l; Ok (acc ++ [b])) []
           (filter (fun l => remaining l > 0) (py_sorted sequence_le (dict_values (lots s))));
  _ ← raise_if (~ 0 <= revision s <= 2 ^ 63 - 1) (ValueError "validation_error");
  Ok {| snap_revision := revision s; snap_lots := rows |}.
End ledger.

(** ** Lemmas on allocations *)

Definition taken (k : string) (allocs : list StockAllocation) : Z :=
  zsum (alloc_quantity <$> filter (fun a => alloc_lotId a = k) allocs).

#[local] Arguments taken : simpl never.
Lemma taken_nil k : taken k [] = 0.
Proof. done. Qed.

Lemma taken_cons k a allocs :
  taken k (a :: allocs) = (if decide (alloc_lotId a = k) then alloc_quantity a else 0) + taken k allocs.
Proof. unfold taken. rewrite filter_cons. case_decide; cbn; unfold zsum; cbn; lia. Qed.

Lemma taken_nonneg k allocs :
  Forall (fun a => 0 <= alloc_quantity a) allocs -> 0 <= taken k allocs.
Proof.
  induction 1 as [|a l]; [done|]. rewrite taken_cons. case_decide; lia.
Qed.

Lemma taken_notin k allocs : Forall (fun a => alloc_lotId a <> k) allocs -> taken k allocs = 0.
Proof.
  induction 1 as [|a l]; [done|]. rewrite taken_cons, decide_False by done. lia.
Qed.

Definition shift (sign : Z) (allocs : list StockAllocation) (e : string * Lot) : string * Lot :=
  (e.1, set_remaining (remaining e.2 + sign * taken e.1 allocs) e.2).

Lemma set_remaining_id l : set_remaining (remaining l) l = l.
Proof. by destruct l. Qed.

Lemma shift_nil sign (d : list (string * Lot)) : shift sign [] <$> d = d.
Proof.
  rewrite <- (list_fmap_id d) at 2. apply list_fmap_ext. intros _ [k l] _. unfold shift. cbn.
  rewrite taken_nil, Z.mul_0_r, Z.add_0_r. by rewrite set_remaining_id.
Qed.

Lemma add_remaining_ok k delta (d d' : list (string * Lot)) :
  NoDup (dict_keys d) -> add_remaining k delta d = Ok d' ->
  d' = (fun e => (e.1, if decide (k = e.1) then set_remaining (remaining e.2 + delta) e.2 else e.2)) <$> d.
Proof.
  intros Hd H. unfold add_remaining in H. inv_ok.
  by rewrite (dict_set_map (fun l => set_remaining (remaining l + delta) l)).
Qed.

Lemma shift_keys sign allocs (d : list (string * Lot)) : dict_keys (shift sign allocs <$> d) = dict_keys d.
Proof. unfold dict_keys. by rewrite <- list_fmap_compose. Qed.

Lemma add_remaining_total k delta (d : list (string * Lot)) :
  is_Some (dict_get d k) -> exists d', add_remaining k delta d = Ok d'.
Proof. intros [l Hl]. unfold add_remaining. rewrite Hl. by eexists. Qed.

Lemma shift_get sign allocs (d : list (string * Lot)) k :
  dict_get (shift sign allocs <$> d) k
  = (fun l => set_remaining (remaining l + sign * taken k allocs) l) <$> dict_get d k.
Proof.
  induction d as [|[k' l] d IH]; cbn; [done|]. case_decide; subst; [done|]. apply IH.
Qed.

Lemma shift_cons sign a allocs (d : list (string * Lot)) :
  shift sign allocs <$> ((fun e => (e.1, if decide (alloc_lotId a = e.1)
     then set_remaining (remaining e.2 + sign * alloc_quantity a) e.2 else e.2)) <$> d)
  = shift sign (a :: allocs) <$> d.
Proof.
  rewrite <- list_fmap_compose. apply list_fmap_ext. intros _ [k l] _. unfold shift. cbn.
  f_equal. rewrite taken_cons. destruct (decide (alloc_lotId a = k)); subst.
  - unfold set_remaining. cbn. f_equal. lia.
  - f_equal; lia.
Qed.

Lemma apply_allocations_run {H} sign allocs (s : PantryLedger H) :
  NoDup (dict_keys (lots s)) ->
  Forall (fun a => is_Some (dict_get (lots s) (alloc_lotId a))) allocs ->
  apply_allocations sign allocs s = (Ok tt, set_lots (shift sign allocs <$> lots s) s).
Proof.
  revert s. induction allocs as [|a allocs IH]; intros s Hd Hf; cbn.
  - rewrite shift_nil. by destruct s.
  - apply Forall_cons in Hf as [Ha Hf].
    destruct (add_remaining_total (alloc_lotId a) (sign * alloc_quantity a) _ Ha) as [d Hadd].
    unfold mbind, M_bind, get_state, lift, put_state. rewrite Hadd.
    apply add_remaining_ok in Hadd as ->; [|done].
    rewrite IH.
    + cbn. by rewrite shift_cons.
    + cbn. unfold dict_keys in *. by rewrite <- list_fmap_compose.
    + eapply Forall_impl; [exact Hf|]. intros b [l Hl]. cbn.
      clear - Hl. induction (lots s) as [|[k l'] d IHd]; cbn in *; [done|].
      destruct (decide _); [eauto|]. by apply IHd.
Qed.

Lemma allocate_zero cs : allocate cs 0 = Ok [].
Proof. destruct cs; [done|]. cbn. by rewrite decide_True. Qed.

Lemma remaining_sum_nonneg cs :
  Forall (fun c => 0 < remaining c) cs -> 0 <= zsum (remaining <$> cs).
Proof.
  intros H. apply zsum_nonneg, Forall_fmap. eapply Forall_impl; [exact H|]. cbn. lia.
Qed.

(** What the allocation loop hands out. *)
Lemma allocate_ok cs rest allocs :
  0 <= rest <= zsum (remaining <$> cs) -> Forall (fun c => 0 < remaining c) cs ->
  allocate cs rest = Ok allocs ->
  zsum (alloc_quantity <$> allocs) = rest /\
  Forall (fun a => 0 < alloc_quantity a /\ exists c, c ∈ cs /\ alloc_lotId a = lot_id (value c)) allocs.
Proof.
  revert rest allocs. induction cs as [|c cs IH]; intros rest allocs Hr Hpos H; cbn in H.
  - inv_ok. cbn in *. rewrite zsum_nil in *. split; [lia|constructor].
  - apply Forall_cons in Hpos as [Hc Hpos]. cbn in Hr. rewrite zsum_cons in Hr.
    pose proof (remaining_sum_nonneg _ Hpos) as Hnn.
    case_decide as H0; inv_ok.
    + split; [done|constructor].
    + unfold make_allocation in *. inv_ok.
      match goal with H : allocate _ _ = _ |- _ => apply IH in H as [Hs Hf]; [|lia|done] end.
      cbn. rewrite zsum_cons, Hs. split; [lia|].
      constructor; cbn.
      * split; [lia|]. exists c. split; [left|done].
      * eapply Forall_impl; [exact Hf|]. intros a (? & c' & ? & ?). split; [done|].
        exists c'. split; [by right|done].
Qed.

(** It never gives a lot more than it holds, and serves the lots in order: a
    lot that gives anything has only emptied lots before it. *)
Lemma allocate_taken cs rest allocs :
  0 <= rest <= zsum (remaining <$> cs) -> Forall (fun c => 0 < remaining c) cs ->
  NoDup (lot_id ∘ value <$> cs) ->
  allocate cs rest = Ok allocs ->
  (forall c, c ∈ cs -> 0 <= taken (lot_id (value c)) allocs <= remaining c) /\
  (forall pre c d post, cs = pre ++ d :: post -> c ∈ pre ->
     0 < taken (lot_id (value d)) allocs -> taken (lot_id (value c)) allocs = remaining c).
Proof.
  revert rest allocs. induction cs as [|x cs IH]; intros rest allocs Hr Hpos Hnd H; cbn in H.
  - inv_ok. split; [intros c Hc; inversion Hc|]. intros [|??] ???; discriminate.
  - pose proof Hpos as Hpos0. apply Forall_cons in Hpos as [Hx Hpos].
    cbn in Hr, Hnd. rewrite zsum_cons in Hr. pose proof (remaining_sum_nonneg _ Hpos) as Hnn. apply NoDup_cons in Hnd as [Hxn Hnd].
    case_decide as H0; inv_ok.
    + split; [intros c Hc; rewrite Forall_forall in Hpos0; specialize (Hpos0 c Hc); cbn in Hpos0; rewrite taken_nil; lia|].
      intros. rewrite taken_nil in *. lia.
    + unfold make_allocation in *. inv_ok.
      match goal with H : allocate _ _ = Ok ?l |- _ => rename H into Hal; rename l into rest_al end.
      assert (rest - Z.min (remaining x) rest = 0 -> rest_al = []) as Hzero.
      { intros E. rewrite E, allocate_zero in Hal. by inv_ok. }
      pose proof Hal as Hfs. apply allocate_ok in Hfs as [_ Hids]; [|lia|done].
      apply IH in Hal as [Hle Hord]; [|lia|done|done].
      assert (taken (lot_id (value x)) rest_al = 0) as Hx0.
      { apply taken_notin. eapply Forall_impl; [exact Hids|].
        intros a (_ & c & Hc & ->) E. apply Hxn. rewrite <- E.
        apply list_elem_of_fmap. by exists c. }
      assert (forall c, c ∈ cs -> lot_id (value x) <> lot_id (value c)) as Hne.
      { intros c Hc E. apply Hxn. rewrite E. apply list_elem_of_fmap. by exists c. }
      split.
      * intros c [->|Hc]%elem_of_cons; rewrite taken_cons; cbn.
        -- rewrite decide_True by done. rewrite Hx0. lia.
        -- rewrite decide_False by (by apply Hne). specialize (Hle c Hc). lia.
      * intros [|y pre] c d post E Hc Hd; [inversion Hc|].
        cbn in E. injection E as -> ->. rewrite taken_cons in Hd. cbn in Hd.
        rewrite decide_False in Hd by (apply Hne; set_solver).
        apply elem_of_cons in Hc as [->|Hc]; rewrite taken_cons; cbn.
        -- rewrite decide_True, Hx0 by done.
           assert (rest - Z.min (remaining y) rest <> 0) as Hnz; [|lia].
           intros E0. rewrite (Hzero E0) in Hd. rewrite taken_nil in Hd. lia.
        -- rewrite decide_False by (apply Hne; set_solver).
           rewrite (Hord pre c d post); [lia|done|done|lia].
Qed.

(** ** The ledger invariant *)

Lemma normalized_bound a kq : normalized a = Ok kq -> kq.2 <= 10000000000.
Proof. unfold normalized. destruct (unit_ a); cbn; intros H; inv_ok; cbn; lia. Qed.

Lemma normalized_total a : model_valid a -> exists kq, normalized a = Ok kq /\ 1 <= kq.2.
Proof.
  cbn. unfold StockAmount_valid, normalized. intros Ha.
  destruct (unit_ a); cbn; rewrite raise_if_no by lia; cbn; eexists; (split; [done|]); cbn; lia.
Qed.

Definition movement_share (k : string) (m : Movement) : Z :=
  if reverted m then 0 else taken k (allocations m).

(** What consumptions that still stand have taken from a lot. *)
Definition outstanding (k : string) (ms : list (string * Movement)) : Z :=
  zsum (movement_share k <$> dict_values ms).

Section invariant.
Context {H : Type} `{EqDecision H} `{UnicodeData}.
Variable sha256 : jval -> H.
Variable sha256_movement : string -> string -> string.
Local Notation ledger := (PantryLedger H).
Implicit Types (s : ledger).

Record lot_inv s (k : string) (l : Lot) : Prop := {
  lot_key : lot_id (value l) = k;
  lot_nonneg : 0 <= remaining l;
  lot_conserved : exists q, normalized (lot_amount (value l)) = Ok (measure l, q) /\
                            remaining l + outstanding k (movements s) = q;
  lot_sequence : sequence l <= next_sequence s;
}.

Record movement_inv s (k : string) (m : Movement) : Prop := {
  movement_key : exists rid, is_Some (dict_get (receipts s) rid) /\
                             k = movement_name sha256_movement rid KConsume;
  movement_allocs : Forall (fun a => 0 < alloc_quantity a /\
                              is_Some (dict_get (lots s) (alloc_lotId a))) (allocations m);
}.

Record ledger_inv s : Prop := {
  inv_keys : NoDup (dict_keys (lots s));
  inv_mkeys : NoDup (dict_keys (movements s));
  inv_lots : forall k l, dict_get (lots s) k = Some l -> lot_inv s k l;
  inv_movements : forall k m, dict_get (movements s) k = Some m -> movement_inv s k m;
  inv_order : StronglySorted Z.lt (sequence <$> dict_values (lots s));
  inv_revision : revision s = Z.of_nat (length (receipts s));
  inv_limits : 0 <= max_lots s <= 4096 /\ 0 <= max_receipts s <= 10000 /\
               Z.of_nat (length (receipts s)) <= max_receipts s;
}.

(** *** What a fresh request does *)

Lemma begin_fresh s rid rev dig :
  begin_ s rid rev dig = Ok None ->
  is_hex 32 rid /\ dict_get (receipts s) rid = None /\ rev = revision s /\
  revision s < 2 ^ 63 - 1 /\ Z.of_nat (length (receipts s)) < max_receipts s.
Proof.
  unfold begin_, identity_, replay_. intros Hb. inv_ok.
  destruct (dict_get (receipts s) rid) as [[d r]|] eqn:E; inv_ok; [done|].
  split_and!; try done; try lia. destruct (decide (is_hex 32 rid)); [done|]. naive_solver.
Qed.

Lemma begin_replay s rid rev dig r :
  begin_ s rid rev dig = Ok (Some r) ->
  is_hex 32 rid /\ dict_get (receipts s) rid = Some (dig, r).
Proof.
  unfold begin_, identity_, replay_. intros Hb. inv_ok.
  destruct (dict_get (receipts s) rid) as [[d r']|] eqn:E; inv_ok; [|done].
  destruct (decide (d = dig)), (decide (is_hex 32 rid)); naive_solver.
Qed.

Lemma begin_hit s rid rev dig r :
  is_hex 32 rid -> dict_get (receipts s) rid = Some (dig, r) ->
  begin_ s rid rev dig = Ok (Some r).
Proof.
  intros Hid E. unfold begin_, identity_, replay_.
  rewrite (raise_if_no (~ is_hex 32 rid)) by (intros Hn; by apply Hn).
  cbn. rewrite E. by rewrite (raise_if_no (dig <> dig)) by (intros Hn; by apply Hn).
Qed.

Definition make_receipt s rid kind allocs : StockReceipt :=
  {| rcpt_requestId := rid; rcpt_movementId := movement_name sha256_movement rid kind;
     rcpt_revision := revision s + 1; rcpt_kind := kind; rcpt_allocations := allocs |}.

Definition finished s rid dig kind allocs : ledger :=
  set_receipts (dict_set (receipts s) rid (dig, make_receipt s rid kind allocs))
    (set_revision (revision s + 1) s).

Lemma finish_run s rid dig kind allocs :
  0 <= revision s < 2 ^ 63 - 1 ->
  finish_ sha256_movement rid dig kind allocs s
  = (Ok (make_receipt s rid kind allocs), finished s rid dig kind allocs).
Proof.
  intros Hr. unfold finish_. unfold mbind, M_bind, modify, get_state, lift, put_state.
  rewrite raise_if_no; [done|]. unfold Revision, MAX_REVISION. cbn. lia.
Qed.

(** *** Operations as data

    What each operation checks and digests before it takes the lock. *)

Inductive operation :=
  | OpReceive (request_id : string) (expected_revision : Z) (lot : raw StockLot)
  | OpConsume (request_id : string) (expected_revision : Z) (key : ustr) (amount : raw StockAmount)
  | OpUndo (request_id : string) (expected_revision : Z) (movement_id : string).

Definition run (o : operation) : M ledger StockReceipt :=
  match o with
  | OpReceive rid rev lot => receive sha256 sha256_movement rid rev lot
  | OpConsume rid rev key amount => consume sha256 sha256_movement rid rev key amount
  | OpUndo rid rev mid => undo sha256 sha256_movement rid rev mid
  end.

Definition request_of (o : operation) : string :=
  match o with OpReceive rid _ _ | OpConsume rid _ _ _ | OpUndo rid _ _ => rid end.

Definition prepared (o : operation) : res H :=
  match o with
  | OpReceive _ rev rl =>
      lot ← model_validate rl;
      Ok (digest_ sha256 KReceive [("expectedRevision", JInt rev); ("lot", dump_lot lot)])
  | OpConsume _ rev key ra =>
      amount ← model_validate ra;
      _ ← raise_if (key = [] \/ ~ ingredient_ok key \/ Z.of_nat (length key) > 80)
            (PantryConflict "invalid_request");
      nq ← normalized amount;
      Ok (digest_ sha256 KConsume
            [("expectedRevision", JInt rev); ("ingredientKey", JText key);
             ("measure", JStr (measure_name nq.1)); ("quantity", JInt nq.2)])
  | OpUndo _ rev mid =>
      _ ← identity_ mid;
      Ok (digest_ sha256 KUndo [("expectedRevision", JInt rev); ("movementId", JStr mid)])
  end.

Lemma run_replay s o d r :
  prepared o = Ok d -> is_hex 32 (request_of o) ->
  dict_get (receipts s) (request_of o) = Some (d, r) -> run o s = (Ok r, s).
Proof.
  destruct o as [rid rev rl|rid rev key ra|rid rev mid]; cbn; intros Hp Hid Hg; inv_ok;
    unfold receive, consume, undo, mbind, M_bind, lift, get_state.
  - repeat match goal with H : _ = Ok _ |- _ => rewrite H; clear H end.
    by rewrite (begin_hit s rid rev _ r Hid Hg).
  - repeat match goal with H : _ = Ok _ |- _ => rewrite H; clear H end.
    rewrite raise_if_no by done.
    repeat match goal with H : _ = Ok _ |- _ => rewrite H; clear H end.
    by rewrite (begin_hit s rid rev _ r Hid Hg).
  - repeat match goal with H : _ = Ok _ |- _ => rewrite H; clear H end.
    by rewrite (begin_hit s rid rev _ r Hid Hg).
Qed.

(** A successful [receive] is a replay or stores the lot. *)
Lemma receive_ok s rid rev rl r s' :
  ledger_inv s -> receive sha256 sha256_movement rid rev rl s = (Ok r, s') ->
  exists dig, prepared (OpReceive rid rev rl) = Ok dig /\ is_hex 32 rid /\
  ((s' = s /\ dict_get (receipts s) rid = Some (dig, r)) \/
  exists lot m q,
    rl = Shaped lot /\ normalized (lot_amount lot) = Ok (m, q) /\ model_valid lot /\
    begin_ s rid rev dig = Ok None /\
    dict_get (lots s) (lot_id lot) = None /\ Z.of_nat (length (lots s)) < max_lots s /\
    let s1 := set_lots (dict_set (lots s) (lot_id lot)
                {| value := lot; measure := m; remaining := q; sequence := next_sequence s + 1 |})
                (set_sequence (next_sequence s + 1) s) in
    r = make_receipt s1 rid KReceive [] /\ s' = finished s1 rid dig KReceive []).
Proof.
  intros Hinv Hop. unfold receive in Hop. inv_M.
  match goal with H : model_validate _ = Ok _ |- _ =>
    rename H into Hmv; pose proof Hmv as [-> Hv]%model_validate_ok end.
  match goal with H : begin_ _ _ _ ?d = Ok ?o |- _ =>
    rename H into Hb; exists d; destruct o as [r0|] end;
    (split; [cbn [prepared]; by rewrite Hmv|]).
  - apply begin_replay in Hb as [? ?]. inv_M. split; [done|]. by left.
  - pose proof (begin_fresh _ _ _ _ Hb) as (? & _ & _ & Hr & _). split; [done|]. right.
    pose proof (inv_revision _ Hinv) as Hrev.
    inv_M. match goal with H : normalized _ = Ok ?p |- _ => destruct p as [m q] end.
    rewrite finish_run in Hop by (cbn; lia). simplify_eq.
    do 3 eexists. split_and!; try done; [|lia].
    apply eq_None_not_Some. done.
Qed.

(** *** The lots a consumption may use *)

Lemma key_le_total a b : key_le a b \/ key_le b a.
Proof. destruct a as [[a1 a2] a3], b as [[b1 b2] b3]. cbn. lia. Qed.

#[export] Instance expires_le_total : Total expires_le.
Proof. intros a b. apply key_le_total. Qed.

#[export] Instance expires_le_trans : Transitive expires_le.
Proof.
  intros a b c. unfold expires_le, key_le.
  destruct (expiry_key a) as [[] ?], (expiry_key b) as [[] ?], (expiry_key c) as [[] ?]. lia.
Qed.

Lemma values_get s l : ledger_inv s -> l ∈ dict_values (lots s) ->
  dict_get (lots s) (lot_id (value l)) = Some l.
Proof.
  intros Hi Hl. apply list_elem_of_fmap in Hl as ([k l'] & -> & He).
  pose proof (dict_elem_get _ _ _ (inv_keys _ Hi) He) as Hg.
  pose proof (lot_key _ _ _ (inv_lots _ Hi _ _ Hg)) as Hk. cbn. by rewrite Hk.
Qed.

Lemma candidates_elem s key m c : ledger_inv s ->
  c ∈ candidates s key m <->
  dict_get (lots s) (lot_id (value c)) = Some c /\ is_candidate key m c.
Proof.
  intros Hi. unfold candidates. rewrite py_sorted_elem, list_elem_of_filter.
  split; [intros [? Hc]; split; [by apply values_get|done]|].
  intros [Hg Hc]. split; [done|]. apply list_elem_of_fmap.
  exists (lot_id (value c), c). split; [done|]. by apply dict_get_elem.
Qed.

Lemma candidates_nodup s key m : ledger_inv s ->
  NoDup (lot_id ∘ value <$> candidates s key m).
Proof.
  intros Hi. unfold candidates. rewrite py_sorted_perm.
  assert (NoDup (lot_id ∘ value <$> dict_values (lots s))) as Hnd.
  { replace (lot_id ∘ value <$> dict_values (lots s)) with (dict_keys (lots s));
      [apply (inv_keys _ Hi)|].
    unfold dict_keys, dict_values. rewrite <- list_fmap_compose.
    apply list_fmap_ext. intros i [k l] Hl. cbn. symmetry.
    eapply lot_key, inv_lots; [done|]. apply dict_elem_get; [apply (inv_keys _ Hi)|].
    by eapply list_elem_of_lookup_2. }
  eapply sublist_NoDup; [exact Hnd|]. apply fmap_sublist, sublist_filter.
Qed.

Lemma candidates_sorted s key m : StronglySorted expires_le (candidates s key m).
Proof. apply py_sorted_strong; apply _. Qed.

Lemma candidates_pos s key m : ledger_inv s ->
  Forall (fun c => 0 < remaining c) (candidates s key m).
Proof.
  intros Hi. apply Forall_forall. intros c Hc.
  apply candidates_elem in Hc as (_ & _ & _ & ?); [lia|done].
Qed.

(** A successful consumption is a replay or takes what it allocated. *)
Lemma consume_ok s rid rev key ra r s' :
  ledger_inv s -> consume sha256 sha256_movement rid rev key ra s = (Ok r, s') ->
  exists dig, prepared (OpConsume rid rev key ra) = Ok dig /\ is_hex 32 rid /\
  ((s' = s /\ dict_get (receipts s) rid = Some (dig, r)) \/
  exists amount m q allocs,
    ra = Shaped amount /\ model_valid amount /\ normalized amount = Ok (m, q) /\
    begin_ s rid rev dig = Ok None /\
    q <= zsum (remaining <$> candidates s key m) /\
    allocate (candidates s key m) q = Ok allocs /\
    let s1 := set_lots (shift (-1) allocs <$> lots s) s in
    let s2 := finished s1 rid dig KConsume allocs in
    r = make_receipt s1 rid KConsume allocs /\
    s' = set_movements (dict_set (movements s) (movement_name sha256_movement rid KConsume)
           {| allocations := allocs; reverted := false |}) s2).
Proof.
  intros Hinv Hop. unfold consume in Hop. inv_M.
  match goal with H : model_validate _ = Ok _ |- _ =>
    rename H into Hmv; pose proof Hmv as [-> Hv]%model_validate_ok end.
  match goal with H : normalized _ = Ok ?p |- _ => rename H into Hn; destruct p as [m q] end.
  match goal with H : begin_ _ _ _ ?d = Ok ?o |- _ =>
    rename H into Hb; exists d; destruct o as [r0|] end;
    (split; [cbn [prepared]; rewrite Hmv; cbn [mbind res_bind];
             rewrite raise_if_no by done; cbn [mbind res_bind]; by rewrite Hn|]).
  - apply begin_replay in Hb as [? ?]. inv_M. split; [done|]. by left.
  - pose proof (begin_fresh _ _ _ _ Hb) as (? & _ & _ & Hr & _). split; [done|]. right.
    pose proof (inv_revision _ Hinv) as Hrev. cbn [fst snd] in *.
    inv_M.
    match type of Hinv with ledger_inv ?t => rename t into s end.
    match goal with H : allocate _ _ = Ok _ |- _ => rename H into Hal end.
    match goal with H : ~ zsum _ < q |- _ => rename H into Hq end.
    pose proof (normalized_total _ Hv) as (? & Hn' & ?). rewrite Hn in Hn'. injection Hn' as <-. cbn [fst snd] in *.
    assert (0 <= q <= zsum (remaining <$> candidates s key m)) as Hrange by lia.
    pose proof (allocate_ok _ _ _ Hrange (candidates_pos _ key m Hinv) Hal) as [_ Hids].
    rewrite apply_allocations_run in *; [|apply (inv_keys _ Hinv)|].
    2: { eapply Forall_impl; [exact Hids|]. intros a (_ & c & Hc & ->).
         apply candidates_elem in Hc as [-> _]; [by eexists|done]. }
    inv_M. rewrite finish_run in *; [|cbn; lia]. simplify_eq.
    do 4 eexists. split_and!; try done; lia.
Qed.

Lemma undo_ok s rid rev mid r s' :
  ledger_inv s -> undo sha256 sha256_movement rid rev mid s = (Ok r, s') ->
  exists dig, prepared (OpUndo rid rev mid) = Ok dig /\ is_hex 32 rid /\
  ((s' = s /\ dict_get (receipts s) rid = Some (dig, r)) \/
  exists allocs,
    begin_ s rid rev dig = Ok None /\
    dict_get (movements s) mid = Some {| allocations := allocs; reverted := false |} /\
    let s1 := set_lots (shift 1 allocs <$> lots s) s in
    let s2 := set_movements (dict_set (movements s) mid
                {| allocations := allocs; reverted := true |}) s1 in
    r = make_receipt s2 rid KUndo allocs /\ s' = finished s2 rid dig KUndo allocs).
Proof.
  intros Hinv Hop. unfold undo in Hop. inv_M.
  match goal with H : identity_ _ = Ok ?x |- _ => destruct x; rename H into Hmid end.
  match goal with H : begin_ _ _ _ ?d = Ok ?o |- _ =>
    rename H into Hb; exists d; destruct o as [r0|] end;
    (split; [cbn [prepared]; by rewrite Hmid|]).
  - apply begin_replay in Hb as [? ?]. inv_M. split; [done|]. by left.
  - pose proof (begin_fresh _ _ _ _ Hb) as (? & _ & _ & Hr & _). split; [done|]. right.
    pose proof (inv_revision _ Hinv) as Hrev. inv_M.
    match goal with H : dict_get _ _ = Some ?m |- _ => rename H into Hm; destruct m as [allocs [|]] end;
      [naive_solver|]. cbn in *.
    rewrite apply_allocations_run in *; [|apply (inv_keys _ Hinv)|].
    2: { eapply Forall_impl; [apply (movement_allocs _ _ _ (inv_movements _ Hinv _ _ Hm))|]. naive_solver. }
    inv_M. rewrite finish_run in *; [|cbn; lia]. simplify_eq.
    eexists. split_and!; done.
Qed.

#[local] Arguments dict_keys : simpl never.
#[local] Arguments dict_values : simpl never.
(** *** Preservation *)

Lemma outstanding_set k (ms : list (string * Movement)) mid m :
  outstanding k (dict_set ms mid m)
  = outstanding k ms + movement_share k m
    - match dict_get ms mid with Some m' => movement_share k m' | None => 0 end.
Proof. apply zsum_dict_set. Qed.

Lemma outstanding_fresh s k : ledger_inv s -> dict_get (lots s) k = None ->
  outstanding k (movements s) = 0.
Proof.
  intros Hi Hk. unfold outstanding.
  assert (Forall (fun e => movement_share k e.2 = 0) (movements s)) as HF.
  { apply Forall_forall. intros [mid m] Hm. cbn. unfold movement_share.
    destruct (reverted m); [done|]. apply taken_notin.
    eapply Forall_impl.
    - apply (movement_allocs _ _ _ (inv_movements _ Hi mid m
               (dict_elem_get _ _ _ (inv_mkeys _ Hi) Hm))).
    - intros a [_ [l Hl]] E. congruence. }
  unfold dict_values. rewrite <- list_fmap_compose. induction HF as [|x l Hx _ IH]; [done|].
  cbn. rewrite zsum_cons, IH. cbn in Hx. lia.
Qed.

Lemma receipts_grow {V} (d : list (string * V)) k v k' :
  is_Some (dict_get d k') -> is_Some (dict_get (dict_set d k v) k').
Proof. intros [x Hx]. rewrite dict_get_set. case_decide; eauto. Qed.

Lemma receipts_length {V} (d : list (string * V)) k v :
  dict_get d k = None -> length (dict_set d k v) = S (length d).
Proof.
  intros Hn. rewrite dict_set_fresh by done. rewrite length_app. cbn. lia.
Qed.

Hypothesis movement_inj : forall r1 r2,
  sha256_movement "consume" r1 = sha256_movement "consume" r2 -> r1 = r2.

Lemma lot_amount_valid (l : StockLot) : model_valid l -> model_valid (lot_amount l).
Proof. by intros (_ & _ & _ & ? & _). Qed.

Lemma receive_preserves s rid rev rl r s' :
  ledger_inv s -> receive sha256 sha256_movement rid rev rl s = (Ok r, s') -> ledger_inv s'.
Proof.
  intros Hi Hop. apply receive_ok in Hop as (dig & _ & _ & [[-> _]|Hop]); [done| |done].
  destruct Hop as (lot & m & q & -> & Hn & Hv & Hb & Hfresh & _ & _ & ->).
  pose proof (begin_fresh _ _ _ _ Hb) as (_ & Hrid & _ & _ & Hcap).
  pose proof (outstanding_fresh _ _ Hi Hfresh) as Hout.
  pose proof Hi as [Hk Hm Hl Hmv Hord Hrev Hlim].
  constructor; cbn.
  - by apply dict_set_nodup.
  - done.
  - intros k l. rewrite dict_get_set. case_decide as Hd; intros Hg.
    + simplify_eq. constructor; cbn; [done| | |lia].
      * pose proof (normalized_total _ (lot_amount_valid _ Hv)) as (? & Hn2 & ?). rewrite Hn in Hn2. simplify_eq. cbn in *. lia.
      * exists q. split; [done|lia].
    + destruct (Hl _ _ Hg) as [? ? ? ?]. constructor; cbn; try done. lia.
  - intros k mv Hg. destruct (Hmv _ _ Hg) as [(rid' & ? & ->) Ha]. constructor; cbn.
    + exists rid'. split; [by apply receipts_grow|done].
    + eapply Forall_impl; [exact Ha|]. intros a [? ?]. split; [done|by apply receipts_grow].
  - rewrite dict_set_fresh by done. unfold dict_values in *. rewrite !fmap_app. cbn.
    apply StronglySorted_snoc; [done|].
    apply Forall_fmap, Forall_fmap, Forall_forall. intros [k l] Hel. cbn.
    pose proof (lot_sequence _ _ _ (Hl k l (dict_elem_get _ _ _ Hk Hel))). lia.
  - rewrite receipts_length by done. lia.
  - rewrite receipts_length by done. lia.
Qed.

Lemma shift_sequences sign allocs (d : list (string * Lot)) :
  sequence <$> dict_values (shift sign allocs <$> d) = sequence <$> dict_values d.
Proof. unfold dict_values. by rewrite <- !list_fmap_compose. Qed.

Lemma shift_some sign allocs (d : list (string * Lot)) k :
  is_Some (dict_get d k) -> is_Some (dict_get (shift sign allocs <$> d) k).
Proof. rewrite shift_get. intros [l ->]. by eexists. Qed.

(** What a lot gives in an allocation never exceeds what it holds. *)
Lemma allocation_bounded s key m q allocs k l :
  ledger_inv s -> 0 <= q <= zsum (remaining <$> candidates s key m) ->
  allocate (candidates s key m) q = Ok allocs ->
  dict_get (lots s) k = Some l -> 0 <= taken k allocs <= remaining l.
Proof.
  intros Hi Hq Hal Hg.
  pose proof (candidates_pos s key m Hi) as Hpos.
  pose proof (allocate_taken _ _ _ Hq Hpos (candidates_nodup s key m Hi) Hal) as [Hle _].
  pose proof (allocate_ok _ _ _ Hq Hpos Hal) as [_ Hids].
  pose proof (inv_lots _ Hi _ _ Hg) as [Hlk Hnn _ _]. subst k.
  destruct (decide (is_candidate key m l)) as [Hc|Hc].
  - apply Hle. apply candidates_elem; [done|]. done.
  - rewrite taken_notin; [lia|]. eapply Forall_impl; [exact Hids|].
    intros a (_ & c & Hcc & ->) E. apply Hc.
    apply candidates_elem in Hcc as [Hg' Hcc]; [|done]. rewrite E, Hg in Hg'. by simplify_eq.
Qed.

Lemma consume_preserves s rid rev key ra r s' :
  ledger_inv s -> consume sha256 sha256_movement rid rev key ra s = (Ok r, s') -> ledger_inv s'.
Proof.
  intros Hi Hop. apply consume_ok in Hop as (dig & _ & _ & [[-> _]|Hop]); [done| |done].
  destruct Hop as (am & m & q & allocs & -> & Hv & Hn & Hb & Hle & Hal & _ & ->).
  pose proof (begin_fresh _ _ _ _ Hb) as (_ & Hrid & _ & _ & Hcap).
  pose proof (normalized_total _ Hv) as (? & Hn' & Hq1). rewrite Hn in Hn'.
  injection Hn' as <-. cbn [snd] in Hq1.
  assert (0 <= q <= zsum (remaining <$> candidates s key m)) as Hq by lia.
  pose proof (allocate_ok _ _ _ Hq (candidates_pos _ key m Hi) Hal) as [_ Hids].
  pose proof (fun k l => allocation_bounded s key m q allocs k l Hi Hq Hal) as Hbd.
  pose proof Hi as [Hk Hm Hl Hmv Hord Hrev Hlim].
  assert (dict_get (movements s) (movement_name sha256_movement rid KConsume) = None) as Hmid.
  { destruct (dict_get (movements s) _) as [mv|] eqn:E; [|done]. exfalso.
    destruct (Hmv _ _ E) as [(rid' & [rc Hrc] & Hkey) _].
    apply movement_inj in Hkey as <-. congruence. }
  constructor; cbn.
  - by rewrite shift_keys.
  - by apply dict_set_nodup.
  - intros k l'. rewrite shift_get. intros Hg.
    apply fmap_Some in Hg as (l & Hg & ->). specialize (Hbd _ _ Hg).
    destruct (Hl _ _ Hg) as [? ? (q' & ? & ?) ?]. constructor; cbn; [done|lia| |done].
    exists q'. split; [done|]. rewrite outstanding_set, Hmid. unfold movement_share. cbn. lia.
  - intros k mv. rewrite dict_get_set. case_decide as Hd; intros Hg; simplify_eq.
    + constructor; cbn.
      * exists rid. split; [|done]. rewrite dict_get_set_eq. by eexists.
      * eapply Forall_impl; [exact Hids|]. intros a (? & c & Hc & ->). split; [done|].
        apply shift_some. apply candidates_elem in Hc as [-> _]; [by eexists|done].
    + destruct (Hmv _ _ Hg) as [(rid' & ? & ->) Ha]. constructor; cbn.
      * exists rid'. split; [by apply receipts_grow|done].
      * eapply Forall_impl; [exact Ha|]. intros a [? ?]. split; [done|by apply shift_some].
  - by rewrite shift_sequences.
  - rewrite receipts_length by done. lia.
  - rewrite receipts_length by done. lia.
Qed.

Lemma undo_preserves s rid rev mid r s' :
  ledger_inv s -> undo sha256 sha256_movement rid rev mid s = (Ok r, s') -> ledger_inv s'.
Proof.
  intros Hi Hop. apply undo_ok in Hop as (dig & _ & _ & [[-> _]|Hop]); [done| |done].
  destruct Hop as (allocs & Hb & Hmid & _ & ->).
  pose proof (begin_fresh _ _ _ _ Hb) as (_ & Hrid & _ & _ & Hcap).
  pose proof Hi as [Hk Hm Hl Hmv Hord Hrev Hlim].
  destruct (Hmv _ _ Hmid) as [(rid0 & Hrid0 & Hmkey) Hallocs]. cbn in Hallocs.
  constructor; cbn.
  - by rewrite shift_keys.
  - by apply dict_set_nodup.
  - intros k l'. rewrite shift_get. intros Hg.
    apply fmap_Some in Hg as (l & Hg & ->).
    assert (0 <= taken k allocs) as Ht.
    { apply taken_nonneg. eapply Forall_impl; [exact Hallocs|]. cbn. lia. }
    destruct (Hl _ _ Hg) as [? ? (q' & ? & ?) ?]. constructor; cbn; [done|lia| |done].
    exists q'. split; [done|]. rewrite outstanding_set, Hmid. unfold movement_share. cbn. lia.
  - intros k mv. rewrite dict_get_set. case_decide as Hd; intros Hg; simplify_eq.
    + constructor; cbn.
      * exists rid0. split; [by apply receipts_grow|done].
      * eapply Forall_impl; [exact Hallocs|]. intros a [? ?]. split; [done|by apply shift_some].
    + destruct (Hmv _ _ Hg) as [(rid' & ? & ->) Ha]. constructor; cbn.
      * exists rid'. split; [by apply receipts_grow|done].
      * eapply Forall_impl; [exact Ha|]. intros a [? ?]. split; [done|by apply shift_some].
  - by rewrite shift_sequences.
  - rewrite receipts_length by done. lia.
  - rewrite receipts_length by done. lia.
Qed.

(** *** Steps and reachable ledgers *)

(** A call may raise: the step keeps whatever state it left behind. *)
Definition step s s' : Prop := exists o r, run o s = (r, s').
Definition reachable s : Prop :=
  exists nl nr s0, init (H:=H) nl nr = Ok s0 /\ rtc step s0 s.

Lemma init_inv nl nr s : init nl nr = Ok s -> ledger_inv s.
Proof.
  unfold init. intros Hi. inv_ok. constructor; cbn; try done; try constructor; lia.
Qed.

Lemma run_ok_preserves o s r s' : ledger_inv s -> run o s = (Ok r, s') -> ledger_inv s'.
Proof.
  destruct o; cbn; intros; [by eapply receive_preserves|by eapply consume_preserves|
    by eapply undo_preserves].
Qed.

Lemma allocate_total cs rest :
  0 <= rest <= 10000000000 -> Forall (fun c => 0 < remaining c) cs ->
  exists allocs, allocate cs rest = Ok allocs.
Proof.
  revert rest. induction cs as [|c cs IH]; intros rest Hr Hf; cbn; [by eexists|].
  apply Forall_cons in Hf as [Hc Hf]. case_decide; [by eexists|].
  unfold make_allocation. rewrite raise_if_no by lia. cbn.
  destruct (IH (rest - Z.min (remaining c) rest)) as [l ->]; [lia|done|]. by eexists.
Qed.

(** Every exception is raised before the first assignment. *)
Lemma run_raise_same o s e s' : ledger_inv s -> run o s = (Raise e, s') -> s' = s.
Proof.
  intros Hi. pose proof (inv_revision _ Hi) as Hrev. pose proof (inv_limits _ Hi) as Hlim.
  destruct o as [rid rev rl|rid rev key ra|rid rev mid]; cbn;
    unfold receive, consume, undo, mbind, M_bind, lift, get_state, modify.
  - destruct (model_validate rl) as [lot|]; [|naive_solver].
    destruct (begin_ _ _ _ _) as [[|]|] eqn:Hb; [by naive_solver| |by naive_solver].
    apply begin_fresh in Hb as (_ & _ & _ & Hr & _).
    destruct (raise_if _ _); [|naive_solver]. destruct (raise_if _ _); [|naive_solver].
    destruct (normalized _); [|naive_solver]. rewrite finish_run; [done|cbn; lia].
  - destruct (model_validate ra) as [am|] eqn:Ha; [|naive_solver].
    apply model_validate_ok in Ha as [-> Hv].
    destruct (raise_if _ _); [|naive_solver].
    destruct (normalized_total _ Hv) as ([m q] & Hn & Hq1). rewrite Hn.
    pose proof (normalized_bound _ _ Hn) as Hq2. cbn [fst snd] in *.
    destruct (begin_ _ _ _ _) as [[|]|] eqn:Hb; [by naive_solver| |by naive_solver].
    apply begin_fresh in Hb as (_ & _ & _ & Hr & _).
    destruct (raise_if _ _) as [[]|] eqn:Hs; [|naive_solver].
    apply raise_if_ok in Hs.
    destruct (allocate_total (candidates s key m) q) as [allocs Hal];
      [lia|by apply candidates_pos|]. rewrite Hal.
    assert (0 <= q <= zsum (remaining <$> candidates s key m)) as Hrange by lia.
    pose proof (allocate_ok _ _ _ Hrange (candidates_pos s key m Hi) Hal) as [_ Hids].
    rewrite apply_allocations_run; [|apply (inv_keys _ Hi)|].
    2: { eapply Forall_impl; [exact Hids|]. intros al (_ & c & Hc & ->).
         apply candidates_elem in Hc as [-> _]; [by eexists|done]. }
    rewrite finish_run; [done|cbn; lia].
  - destruct (identity_ mid); [|naive_solver].
    destruct (begin_ _ _ _ _) as [[|]|] eqn:Hb; [by naive_solver| |by naive_solver].
    apply begin_fresh in Hb as (_ & _ & _ & Hr & _).
    destruct (dict_get (movements s) mid) as [mv|] eqn:Hm; cbn; [|naive_solver].
    destruct (raise_if _ _); [|naive_solver]. destruct (raise_if _ _); [|naive_solver].
    rewrite apply_allocations_run; [|apply (inv_keys _ Hi)|].
    2: { eapply Forall_impl; [apply (movement_allocs _ _ _ (inv_movements _ Hi _ _ Hm))|].
         naive_solver. }
    rewrite finish_run; [done|cbn; lia].
Qed.

Lemma step_preserves s s' : ledger_inv s -> step s s' -> ledger_inv s'.
Proof.
  intros Hi (o & [r|e] & Hr); [by eapply run_ok_preserves|].
  by apply run_raise_same in Hr as ->.
Qed.

Lemma rtc_preserves s s' : ledger_inv s -> rtc step s s' -> ledger_inv s'.
Proof. intros Hi. induction 1; [done|]. eauto using step_preserves. Qed.

Lemma reachable_inv s : reachable s -> ledger_inv s.
Proof. intros (nl & nr & s0 & Hs0 & Hr). eauto using rtc_preserves, init_inv. Qed.

(** A receipt, once issued, stays. *)
Lemma run_receipts o s r s' k v : ledger_inv s ->
  run o s = (r, s') -> dict_get (receipts s) k = Some v -> dict_get (receipts s') k = Some v.
Proof.
  intros Hi Hop Hk. destruct r as [r|e]; [|by apply run_raise_same in Hop as ->].
  assert (forall rid rev dig x, begin_ s rid rev dig = Ok None ->
    dict_get (dict_set (receipts s) rid x) k = Some v) as Hkeep.
  { intros rid rev dig x Hb. apply begin_fresh in Hb as (_ & Hn & _).
    rewrite dict_get_set_ne; [done|]. intros ->. congruence. }
  destruct o; cbn in Hop;
    [apply receive_ok in Hop|apply consume_ok in Hop|apply undo_ok in Hop]; try done;
    destruct Hop as (dig & _ & _ & [[-> _]|Hop]); try done.
  - destruct Hop as (? & ? & ? & _ & _ & _ & Hb & _ & _ & _ & ->). by eapply Hkeep.
  - destruct Hop as (? & ? & ? & ? & _ & _ & _ & Hb & _ & _ & _ & ->). by eapply Hkeep.
  - destruct Hop as (? & Hb & _ & _ & ->). by eapply Hkeep.
Qed.

Lemma run_issues o s r s' : ledger_inv s -> run o s = (Ok r, s') ->
  exists d, prepared o = Ok d /\ is_hex 32 (request_of o) /\
            dict_get (receipts s') (request_of o) = Some (d, r).
Proof.
  intros Hi Hop. destruct o; cbn in Hop;
    [apply receive_ok in Hop|apply consume_ok in Hop|apply undo_ok in Hop]; try done;
    destruct Hop as (dig & ? & ? & [[-> ?]|Hop]); exists dig; (split_and!; [done..|]); try done.
  - destruct Hop as (? & ? & ? & _ & _ & _ & Hb & _ & _ & -> & ->). apply dict_get_set_eq.
  - destruct Hop as (? & ? & ? & ? & _ & _ & _ & Hb & _ & _ & -> & ->). apply dict_get_set_eq.
  - destruct Hop as (? & Hb & _ & -> & ->). apply dict_get_set_eq.
Qed.

Lemma rtc_receipts s s' k v : ledger_inv s -> rtc step s s' ->
  dict_get (receipts s) k = Some v -> dict_get (receipts s') k = Some v.
Proof.
  intros Hi Hs. revert Hi. induction Hs as [|s s1 s' Hst _ IH]; [done|]. intros Hi Hk.
  apply IH; [by eapply step_preserves|]. destruct Hst as (o & r & Hr). by eapply run_receipts.
Qed.

Lemma run_fresh_consume s rid rev key ra r s' :
  ledger_inv s -> dict_get (receipts s) rid = None ->
  consume sha256 sha256_movement rid rev key ra s = (Ok r, s') ->
  exists amount m q,
    ra = Shaped amount /\ normalized amount = Ok (m, q) /\
    0 <= q <= zsum (remaining <$> candidates s key m) /\
    allocate (candidates s key m) q = Ok (rcpt_allocations r) /\
    rcpt_movementId r = movement_name sha256_movement rid KConsume /\
    lots s' = shift (-1) (rcpt_allocations r) <$> lots s /\
    dict_get (movements s') (rcpt_movementId r)
      = Some {| allocations := rcpt_allocations r; reverted := false |}.
Proof.
  intros Hi Hf Hop. apply consume_ok in Hop as (dig & _ & _ & [[-> ?]|Hop]); [congruence| |done].
  destruct Hop as (am & m & q & allocs & -> & Hv & Hn & _ & Hle & Hal & -> & ->).
  pose proof (normalized_total _ Hv) as (? & Hn' & ?). rewrite Hn in Hn'. simplify_eq. cbn in *.
  exists am, m, q. split_and!; try done; try lia. apply dict_get_set_eq.
Qed.

Lemma shift_back allocs (d : list (string * Lot)) :
  shift 1 allocs <$> (shift (-1) allocs <$> d) = d.
Proof.
  rewrite <- list_fmap_compose. rewrite <- (list_fmap_id d) at 2.
  apply list_fmap_ext. intros _ [k l] _. unfold shift. cbn.
  destruct l. unfold set_remaining. cbn. do 2 f_equal. lia.
Qed.

Lemma sorted_before cs a b : StronglySorted expires_le cs -> a ∈ cs -> b ∈ cs ->
  ~ expires_le b a -> exists pre post, cs = pre ++ b :: post /\ a ∈ pre.
Proof.
  intros Hs Ha Hb Hba. apply list_elem_of_split in Hb as (pre & post & ->).
  exists pre, post. split; [done|]. apply elem_of_app in Ha as [?|[->|Ha]%elem_of_cons]; [done| |].
  - exfalso. apply Hba. by destruct (expires_le_total b b).
  - exfalso. apply Hba. apply StronglySorted_app in Hs as (_ & _ & Hs).
    apply StronglySorted_inv in Hs as [_ Hs]. rewrite Forall_forall in Hs. by apply Hs.
Qed.

Lemma balance_of_ok l : 1 <= remaining l <= 10000000000 ->
  balance_of l = Ok {| bal_lotId := lot_id (value l);
    bal_ingredientKey := lot_ingredientKey (value l); bal_measure := measure l;
    bal_remaining := remaining l; bal_expiresOn := lot_expiresOn (value l) |}.
Proof. intros. unfold balance_of. by rewrite raise_if_no by lia. Qed.

Lemma balances_ok ls acc :
  Forall (fun l => 1 <= remaining l <= 10000000000) ls ->
  fold_res (fun acc l => b ← balance_of l; Ok (acc ++ [b])) acc ls
  = Ok (acc ++ ((fun l => {| bal_lotId := lot_id (value l);
                   bal_ingredientKey := lot_ingredientKey (value l);
                   bal_measure := measure l; bal_remaining := remaining l;
                   bal_expiresOn := lot_expiresOn (value l) |}) <$> ls)).
Proof.
  intros Hf. revert acc. induction Hf as [|l ls Hl Hf IH]; intros acc; cbn.
  - by rewrite app_nil_r.
  - rewrite (balance_of_ok l Hl). cbn. rewrite IH, <- app_assoc. done.
Qed.

Lemma outstanding_nonneg s k : ledger_inv s -> 0 <= outstanding k (movements s).
Proof.
  intros Hi. apply zsum_nonneg, Forall_fmap, Forall_fmap, Forall_forall. intros [mid m] Hm.
  cbn. unfold movement_share. destruct (reverted m); [done|]. apply taken_nonneg.
  eapply Forall_impl.
  - apply (movement_allocs _ _ _ (inv_movements _ Hi mid m (dict_elem_get _ _ _ (inv_mkeys _ Hi) Hm))).
  - cbn. lia.
Qed.

(** C1 Stock is conserved.  In every ledger reached from a new one by any
    calls, failing ones included, what a lot still holds and what standing
    consumptions took from it add up to the normalized amount that was
    received, and no lot is overdrawn. *)
Theorem pantry_conserved s k l :
  reachable s -> dict_get (lots s) k = Some l ->
  exists q, normalized (lot_amount (value l)) = Ok (measure l, q) /\
            0 <= remaining l /\ remaining l + outstanding k (movements s) = q.
Proof.
  intros Hr Hg. apply reachable_inv in Hr.
  destruct (inv_lots _ Hr _ _ Hg) as [_ ? (q & ? & ?) _]. by exists q.
Qed.

(** A consumption takes exactly the normalized amount asked for, only
    from lots of the ingredient and measure, first expired first: a lot
    gives something only when every matching lot that expires earlier (or
    as early and arrived earlier) is emptied by the same consumption. *)
Theorem pantry_consume_first_expired s rid rev key ra r s' :
  reachable s -> dict_get (receipts s) rid = None ->
  consume sha256 sha256_movement rid rev key ra s = (Ok r, s') ->
  exists amount m q,
    ra = Shaped amount /\ normalized amount = Ok (m, q) /\
    zsum (alloc_quantity <$> rcpt_allocations r) = q /\
    (forall k l, dict_get (lots s) k = Some l ->
      let n := taken k (rcpt_allocations r) in
      dict_get (lots s') k = Some (set_remaining (remaining l - n) l) /\
      0 <= n <= remaining l /\ (0 < n -> is_candidate key m l)) /\
    (forall k1 l1 k2 l2,
      dict_get (lots s) k1 = Some l1 -> dict_get (lots s) k2 = Some l2 ->
      is_candidate key m l1 -> is_candidate key m l2 -> ~ expires_le l2 l1 ->
      0 < taken k2 (rcpt_allocations r) ->
      dict_get (lots s') k1 = Some (set_remaining 0 l1)).
Proof.
  intros Hr Hf Hop. apply reachable_inv in Hr as Hi.
  apply run_fresh_consume in Hop as (am & m & q & -> & Hn & Hq & Hal & _ & Hl & _); [|done..].
  pose proof (candidates_pos s key m Hi) as Hpos.
  pose proof (allocate_ok _ _ _ Hq Hpos Hal) as [Hsum Hids].
  pose proof (allocate_taken _ _ _ Hq Hpos (candidates_nodup s key m Hi) Hal) as [Hle Hord].
  exists am, m, q. rewrite Hl. split_and!; try done.
  - intros k l Hg n. rewrite shift_get, Hg. split_and!; try (by eapply allocation_bounded).
    { done. }
    intros Hp. destruct (decide (is_candidate key m l)) as [|Hc]; [done|].
      unfold n in Hp. rewrite taken_notin in Hp; [lia|]. eapply Forall_impl; [exact Hids|].
      intros a (_ & c & Hcc & ->) E. apply Hc.
      apply candidates_elem in Hcc as [Hg' Hcc]; [|done]. rewrite E, Hg in Hg'. by simplify_eq.
  - intros k1 l1 k2 l2 Hg1 Hg2 Hc1 Hc2 Hlt Ht.
    pose proof (lot_key _ _ _ (inv_lots _ Hi _ _ Hg1)) as <-.
    pose proof (lot_key _ _ _ (inv_lots _ Hi _ _ Hg2)) as <-.
    destruct (sorted_before (candidates s key m) l1 l2) as (pre & post & E & Hpre);
      [apply candidates_sorted|by apply candidates_elem..|done|].
    rewrite shift_get, Hg1. cbn. rewrite (Hord _ _ _ _ E Hpre Ht). do 2 f_equal. lia.
Qed.

(** Undoing a consumption gives every lot back exactly what it held. *)
Theorem pantry_undo_restores s rid rev key ra r s1 rid2 rev2 r2 s2 :
  reachable s -> dict_get (receipts s) rid = None ->
  consume sha256 sha256_movement rid rev key ra s = (Ok r, s1) ->
  dict_get (receipts s1) rid2 = None ->
  undo sha256 sha256_movement rid2 rev2 (rcpt_movementId r) s1 = (Ok r2, s2) ->
  lots s2 = lots s /\ rcpt_allocations r2 = rcpt_allocations r.
Proof.
  intros Hr Hf Hop Hf2 Hun. apply reachable_inv in Hr as Hi.
  pose proof (consume_preserves _ _ _ _ _ _ _ Hi Hop) as Hi1.
  apply run_fresh_consume in Hop as (am & m & q & _ & _ & _ & _ & _ & Hl & Hm); [|done..].
  apply undo_ok in Hun as (dig & _ & _ & [[-> ?]|Hun]); [congruence| |done].
  destruct Hun as (allocs & _ & Hm' & -> & ->). rewrite Hm in Hm'. simplify_eq. cbn.
  by rewrite Hl, shift_back.
Qed.

(** A call that raises leaves the ledger as it was, although the ledger
    is mutated in place and nothing rolls it back. *)
Theorem pantry_failure_unchanged s o e s' :
  reachable s -> run o s = (Raise e, s') -> s' = s.
Proof. intros Hr. apply run_raise_same. by apply reachable_inv. Qed.

(** A call that was answered is answered again with the same receipt and
    no effect, whatever happened in between. *)
Theorem pantry_replay_idempotent s o r s1 s2 :
  reachable s -> run o s = (Ok r, s1) -> rtc step s1 s2 -> run o s2 = (Ok r, s2).
Proof.
  intros Hr Hop Hs. apply reachable_inv in Hr as Hi.
  pose proof (run_ok_preserves _ _ _ _ Hi Hop) as Hi1.
  apply run_issues in Hop as (d & Hp & Hid & Hg); [|done].
  eapply run_replay; [done..|]. by eapply rtc_receipts.
Qed.

(** The snapshot of a reachable ledger never fails its model, and lists
    the lots that still hold something in the order of their arrival. *)
Theorem pantry_snapshot_total s :
  reachable s ->
  snapshot s = Ok {| snap_revision := revision s;
    snap_lots := (fun l => {| bal_lotId := lot_id (value l);
                   bal_ingredientKey := lot_ingredientKey (value l);
                   bal_measure := measure l; bal_remaining := remaining l;
                   bal_expiresOn := lot_expiresOn (value l) |})
                 <$> filter (fun l => remaining l > 0) (dict_values (lots s)) |}.
Proof.
  intros Hr. apply reachable_inv in Hr as Hi. unfold snapshot.
  rewrite py_sorted_id.
  2: { pose proof (inv_order _ Hi) as Ho. induction (dict_values (lots s)) as [|l ls IH];
         cbn in Ho; constructor; apply StronglySorted_inv in Ho as [Ho Hl]; [auto|].
       apply (Forall_fmap sequence) in Hl. eapply Forall_impl; [exact Hl|].
       unfold sequence_le. cbn. lia. }
  rewrite balances_ok; cbn.
  - rewrite raise_if_no; [done|]. pose proof (inv_revision _ Hi). pose proof (inv_limits _ Hi). lia.
  - apply Forall_forall. intros l Hl. apply list_elem_of_filter in Hl as [Hp Hl].
    apply (values_get _ _ Hi) in Hl as Hg.
    destruct (inv_lots _ Hi _ _ Hg) as [_ ? (q & Hn & Hc) _].
    pose proof (outstanding_nonneg s (lot_id (value l)) Hi) as Ho.
    pose proof (normalized_bound _ _ Hn). cbn [fst snd] in *. split; [lia|].
    replace (remaining l) with (q - outstanding (lot_id (value l)) (movements s)) by lia. lia.
Qed.
End invariant.

(** ** A worked ledger *)

Module PantryExample.
Definition hex (c : string) : string := String.concat "" (repeat c 32).
Definition sha : jval -> jval := fun j => j.
Definition mvt (kind rid : string) : string := if decide (kind = "consume"%string) then rid else kind +:+ rid.
Lemma mvt_inj r1 r2 : mvt "consume" r1 = mvt "consume" r2 -> r1 = r2.
Proof. done. Qed.

Definition lot (n : string) (q : Z) (e : option string) : raw StockLot :=
  Shaped {| lot_id := hex n; lot_ingredientKey := u "flour";
            lot_amount := {| quantityMillis := q; unit_ := Unit_g |}; lot_expiresOn := e |}.
Definition ask (q : Z) : raw StockAmount := Shaped {| quantityMillis := q; unit_ := Unit_g |}.

Definition s0 : PantryLedger jval :=
  match init 4 10 with Ok s => s | Raise _ =>
    {| max_lots := 0; max_receipts := 0; revision := 0; next_sequence := 0; lots := [];
       movements := []; receipts := [] |} end.
Definition s1 := (receive sha mvt (hex "1") 0 (lot "a" 500 None) s0).2.
Definition s2 := (receive sha mvt (hex "2") 1 (lot "b" 300 (Some "2026-05-01"%string)) s1).2.
Definition take : operation := OpConsume (hex "3") 2 (u "flour") (ask 400).
Definition s3 := (run sha mvt take s2).2.
Definition r3 : StockReceipt := make_receipt mvt s2 (hex "3") KConsume
  [{| alloc_lotId := hex "b"; alloc_quantity := 300 |};
   {| alloc_lotId := hex "a"; alloc_quantity := 100 |}].
Definition s4 := (undo sha mvt (hex "4") 3 (hex "3") s3).2.

Lemma step_run o s : step sha mvt s (run sha mvt o s).2.
Proof. exists o, (run sha mvt o s).1. by destruct (run sha mvt o s). Qed.

Lemma pantry_reach2 : reachable sha mvt s2.
Proof.
  exists 4, 10, s0. split; [by vm_compute|].
  eapply rtc_l; [apply (step_run (OpReceive (hex "1") 0 (lot "a" 500 None)))|].
  eapply rtc_l; [|apply rtc_refl]. apply (step_run (OpReceive (hex "2") 1 (lot "b" 300 (Some "2026-05-01"%string)))).
Qed.
End PantryExample.

Lemma pantry_conserved_witness :
  exists q, normalized {| quantityMillis := 500; unit_ := Unit_g |} = Ok (mass_mg, q) /\
            0 <= 500 /\ 500 + outstanding (PantryExample.hex "a") (movements PantryExample.s2) = q.
Proof.
  apply (pantry_conserved PantryExample.sha PantryExample.mvt PantryExample.mvt_inj
    PantryExample.s2 (PantryExample.hex "a")
    {| value := {| lot_id := PantryExample.hex "a"; lot_ingredientKey := u "flour";
         lot_amount := {| quantityMillis := 500; unit_ := Unit_g |}; lot_expiresOn := None |};
       measure := mass_mg; remaining := 500; sequence := 1 |}).
  - exact PantryExample.pantry_reach2.
  - vm_compute. reflexivity.
Defined.

Lemma pantry_consume_first_expired_witness :
  exists amount m q,
    PantryExample.ask 400 = Shaped amount /\ normalized amount = Ok (m, q) /\
    zsum (alloc_quantity <$> rcpt_allocations PantryExample.r3) = q.
Proof.
  destruct (pantry_consume_first_expired PantryExample.sha PantryExample.mvt
    PantryExample.mvt_inj PantryExample.s2 (PantryExample.hex "3") 2 (u "flour")
    (PantryExample.ask 400) PantryExample.r3 PantryExample.s3) as (am & m & q & ? & ? & ? & _).
  - exact PantryExample.pantry_reach2.
  - vm_compute. reflexivity.
  - vm_compute. reflexivity.
  - exists am, m, q. split_and!; assumption.
Defined.

Lemma pantry_undo_restores_witness : lots PantryExample.s4 = lots PantryExample.s2.
Proof.
  refine (proj1 (pantry_undo_restores PantryExample.sha PantryExample.mvt
    PantryExample.mvt_inj PantryExample.s2 (PantryExample.hex "3") 2 (u "flour")
    (PantryExample.ask 400) PantryExample.r3 PantryExample.s3 (PantryExample.hex "4") 3
    (make_receipt PantryExample.mvt PantryExample.s3 (PantryExample.hex "4") KUndo
       (rcpt_allocations PantryExample.r3)) PantryExample.s4 PantryExample.pantry_reach2 _ _ _ _)).
  all: vm_compute; reflexivity.
Defined.

Lemma pantry_failure_unchanged_witness :
  (run PantryExample.sha PantryExample.mvt
     (OpConsume (PantryExample.hex "5") 2 (u "flour") (PantryExample.ask 801)) PantryExample.s2).2
  = PantryExample.s2.
Proof.
  apply (pantry_failure_unchanged PantryExample.sha PantryExample.mvt PantryExample.mvt_inj
    PantryExample.s2 (OpConsume (PantryExample.hex "5") 2 (u "flour") (PantryExample.ask 801))
    (PantryConflict "insufficient_stock")).
  - exact PantryExample.pantry_reach2.
  - vm_compute. reflexivity.
Defined.

Lemma pantry_replay_idempotent_witness :
  run PantryExample.sha PantryExample.mvt PantryExample.take PantryExample.s4
  = (Ok PantryExample.r3, PantryExample.s4).
Proof.
  apply (pantry_replay_idempotent PantryExample.sha PantryExample.mvt PantryExample.mvt_inj
    PantryExample.s2 PantryExample.take PantryExample.r3 PantryExample.s3).
  - exact PantryExample.pantry_reach2.
  - vm_compute. reflexivity.
  - eapply rtc_l; [|apply rtc_refl].
    apply (PantryExample.step_run (OpUndo (PantryExample.hex "4") 3 (PantryExample.hex "3"))
             PantryExample.s3).
Defined.

Lemma pantry_snapshot_total_witness :
  exists snap, snapshot PantryExample.s2 = Ok snap /\ length (snap_lots snap) = 2%nat.
Proof.
  eexists. split.
  - exact (pantry_snapshot_total PantryExample.sha PantryExample.mvt PantryExample.mvt_inj
             PantryExample.s2 PantryExample.pantry_reach2).
  - vm_compute. reflexivity.
Defined.
