(* ===== verification/Auth.v ===== *)
(** * Accounts and sessions

    [server/larenor_server/auth.py] on the tables of [database.py]: rate
    limits, login, access tokens, rotating refresh tokens with replay
    detection, logout and password change.  Each [transaction()] of the source
    is one atomic step of the database; a call that uses several is the
    composition of them.  Argon2, HMAC and SHA-256 are parameters; the clock,
    [uuid4] and [secrets] readings of a call are its environment, numbered in
    the order in which the call takes them. *)

From S2P Require Import Prelude.

Inductive Role := Admin | Member.
#[export] Instance Role_eq_dec : EqDecision Role.
Proof. solve_decision. Defined.

Record user_row := {
  u_id : string;
  u_username : string;
  u_role : Role;
  u_password_hash : string;
  u_must_change : bool;
  u_created_at : Z;
  u_disabled : bool;
  u_revision : Z;
}.

Record family_row := {
  f_id : string;
  f_user_id : string;
  f_device_name : list Z;
  f_created_at : Z;
  f_expires_at : Z;
  f_revoked_at : option Z;
}.

Record token_row := {
  t_id : string;
  t_family_id : string;
  t_access_hash : string;
  t_refresh_hash : string;
  t_access_expires_at : Z;
  t_refresh_expires_at : Z;
  t_created_at : Z;
  t_rotated_at : option Z;
}.

Record limit_row := {
  rl_key : string;
  rl_window : Z;
  rl_count : Z;
  rl_touched_at : Z;
}.

Inductive admin_action := ActCreate | ActUpdate | ActResetPassword | ActRevoke.
#[export] Instance admin_action_eq_dec : EqDecision admin_action.
Proof. solve_decision. Defined.

Record audit_row := {
  au_id : Z;
  au_action : admin_action;
  au_success : bool;
  au_timestamp : Z;
  au_actor_id : string;
  au_target_id : option string;
}.

(** [au_next] is the table's AUTOINCREMENT counter. *)
Record auth_db := {
  users : list user_row;
  families : list family_row;
  tokens : list token_row;
  rate_limits : list limit_row;
  admin_audit : list audit_row;
  au_next : Z;
}.

Definition set_users (l : list user_row) (d : auth_db) : auth_db :=
  {| users := l; families := families d; tokens := tokens d; rate_limits := rate_limits d;
     admin_audit := admin_audit d; au_next := au_next d |}.
Definition set_families (l : list family_row) (d : auth_db) : auth_db :=
  {| users := users d; families := l; tokens := tokens d; rate_limits := rate_limits d;
     admin_audit := admin_audit d; au_next := au_next d |}.
Definition set_tokens (l : list token_row) (d : auth_db) : auth_db :=
  {| users := users d; families := families d; tokens := l; rate_limits := rate_limits d;
     admin_audit := admin_audit d; au_next := au_next d |}.
Definition set_rate_limits (l : list limit_row) (d : auth_db) : auth_db :=
  {| users := users d; families := families d; tokens := tokens d; rate_limits := l;
     admin_audit := admin_audit d; au_next := au_next d |}.
Definition set_admin_audit (l : list audit_row) (n : Z) (d : auth_db) : auth_db :=
  {| users := users d; families := families d; tokens := tokens d; rate_limits := rate_limits d;
     admin_audit := l; au_next := n |}.

Record Principal := {
  p_id : string;
  p_username : string;
  p_role : Role;
  p_must_change_password : bool;
  p_family_id : string;
  p_token_id : string;
}.

Record SessionPair := {
  sp_access : list Z;
  sp_refresh : list Z;
  sp_expires_in : Z;
  sp_family_id : string;
  sp_user_id : string;
  sp_username : string;
  sp_role : Role;
  sp_must_change_password : bool;
}.

Record Settings := {
  access_ttl_seconds : Z;
  refresh_ttl_seconds : Z;
  login_ip_limit : Z;
  login_account_limit : Z;
  login_global_limit : Z;
}.

(** The readings of one call: [clock] in the order they are taken, [uuid4 0]
    for a new family and [uuid4 1] for a new token, [token_urlsafe 0] and
    [token_urlsafe 1] for its access and refresh text; [password_slots] is how
    many of the two Argon2 slots the calls in flight hold. *)
Record AuthEnv := {
  clock : nat -> Z;
  uuid4 : nat -> string;
  token_urlsafe : nat -> list Z;
  password_slots : Z;
}.

(** [str.lower] on the ASCII user names the request model admits. *)
Fixpoint ascii_lower (s : string) : string :=
  match s with
  | EmptyString => EmptyString
  | String c s' =>
      let n := Ascii.nat_of_ascii c in
      String (if (Nat.leb 65 n && Nat.leb n 90)%bool then Ascii.ascii_of_nat (n + 32) else c)
        (ascii_lower s')
  end.

Definition set_revoked (now : Z) (f : family_row) : family_row :=
  {| f_id := f_id f; f_user_id := f_user_id f; f_device_name := f_device_name f;
     f_created_at := f_created_at f; f_expires_at := f_expires_at f; f_revoked_at := Some now |}.
Definition set_rotated (now : Z) (t : token_row) : token_row :=
  {| t_id := t_id t; t_family_id := t_family_id t; t_access_hash := t_access_hash t;
     t_refresh_hash := t_refresh_hash t; t_access_expires_at := t_access_expires_at t;
     t_refresh_expires_at := t_refresh_expires_at t; t_created_at := t_created_at t;
     t_rotated_at := Some now |}.
Definition set_password (h : string) (must_change : bool) (rev : Z) (x : user_row) : user_row :=
  {| u_id := u_id x; u_username := u_username x; u_role := u_role x; u_password_hash := h;
     u_must_change := must_change; u_created_at := u_created_at x; u_disabled := u_disabled x;
     u_revision := rev |}.

Definition user_by_id (i : string) (d : auth_db) : option user_row :=
  sql_one (fun x => u_id x = i) (users d).
Definition family_by_id (i : string) (d : auth_db) : option family_row :=
  sql_one (fun x => f_id x = i) (families d).

(** PRIMARY KEY and UNIQUE of session_families, session_tokens and users *)
Definition family_clash (x y : family_row) : Prop := f_id x = f_id y.
Definition token_clash (x y : token_row) : Prop :=
  t_id x = t_id y \/ t_access_hash x = t_access_hash y \/ t_refresh_hash x = t_refresh_hash y.
Definition user_clash (x y : user_row) : Prop := u_id x = u_id y \/ u_username x = u_username y.
#[export] Instance family_clash_dec x y : Decision (family_clash x y).
Proof. unfold family_clash. apply _. Defined.
#[export] Instance token_clash_dec x y : Decision (token_clash x y).
Proof. unfold token_clash. apply _. Defined.
#[export] Instance user_clash_dec x y : Decision (user_clash x y).
Proof. unfold user_clash. apply _. Defined.

Inductive token_column := access_hash | refresh_hash.
Definition column_of (c : token_column) (t : token_row) : string :=
  match c with access_hash => t_access_hash t | refresh_hash => t_refresh_hash t end.

(** The three-way join of [_lookup] and [assert_current]. *)
Definition join_session (t : token_row) (d : auth_db) : option (token_row * family_row * user_row) :=
  f ← family_by_id (t_family_id t) d; x ← user_by_id (f_user_id f) d; Some (t, f, x).

Definition newest_first (a b : family_row) : Prop := f_created_at b <= f_created_at a.
#[export] Instance newest_first_dec a b : Decision (newest_first a b).
Proof. unfold newest_first. apply _. Defined.
Definition touched_last (a b : limit_row) : Prop := rl_touched_at b <= rl_touched_at a.
#[export] Instance touched_last_dec a b : Decision (touched_last a b).
Proof. unfold touched_last. apply _. Defined.

Section auth.
(** SHA-256 of an ASCII text, the keyed digest of a rate-limit key, and the
    password hasher. *)
Variable sha256_hex : list Z -> string.
Variable rate_key : string -> list Z -> string.
Variable argon2_verify : string -> list Z -> bool.
Variable argon2_hash : string -> list Z -> string.
Variable check_needs_rehash : string -> bool.
Variable dummy_hash : string.
Variable settings : Settings.

Definition token_hash (value : list Z) : res string :=
  _ ← raise_if (Exists (fun c => 128 <= c) value) (ValueError "UnicodeEncodeError");
  Ok (sha256_hex value).

Definition verify_ (e : AuthEnv) (encoded : string) (password : list Z) : res bool :=
  _ ← raise_if (password_slots e >= 2) (ApiError "rate_limited" 429);
  Ok (argon2_verify encoded password).

(** The salt is drawn by [secrets]. *)
Definition hash_password (e : AuthEnv) (salt : string) (password : list Z) : res string :=
  _ ← raise_if (password_slots e >= 2) (ApiError "rate_limited" 429);
  Ok (argon2_hash salt password).

(** ** Rate limits *)

Definition upsert_limit (r : limit_row) (l : list limit_row) : list limit_row :=
  if decide (Exists (fun x => rl_key x = rl_key r) l)
  then sql_update (fun x => rl_key x = rl_key r) (fun _ => r) l
  else l ++ [r].

Definition count_category (now window : Z) (acc : list limit_row * bool)
    (c : string * list Z * Z) : list limit_row * bool :=
  let '(category, identifier, limit) := c in
  let digest := rate_key category identifier in
  let count :=
    match sql_one (fun x => rl_key x = digest) acc.1 with
    | Some old => if decide (rl_window old = window) then rl_count old + 1 else 1
    | None => 1
    end in
  (upsert_limit {| rl_key := digest; rl_window := window; rl_count := count;
                   rl_touched_at := now |} acc.1,
   acc.2 || (count >? limit)).

Definition rate_limit (e : AuthEnv) (categories : list (string * list Z * Z)) : M auth_db unit :=
  let now := clock e 0 in
  let window := now / seconds 60 in
  denied ← transaction (
    d ← get_state;
    let live := sql_delete (fun x => rl_touched_at x < now - seconds 3600) (rate_limits d) in
    let counted := foldl (count_category now window) (live, false) categories in
    let stale := rl_key <$> drop 10000 (py_sorted touched_last counted.1) in
    _ ← put_state (set_rate_limits (sql_delete (fun x => rl_key x ∈ stale) counted.1) d);
    mret counted.2);
  lift (raise_if (denied = true) (ApiError "rate_limited" 429)).

(** ** Sessions *)

Definition issue_ (e : AuthEnv) (n : nat) (x : user_row) (family_id : string) (expires_at : Z)
  : M auth_db SessionPair :=
  let now := clock e n in
  let access := token_urlsafe e 0 in
  let refresh := token_urlsafe e 1 in
  let ttl := Z.max 1 (Z.quot (Z.min (seconds (access_ttl_seconds settings)) (expires_at - now)) TICK) in
  access_digest ← lift (token_hash access);
  refresh_digest ← lift (token_hash refresh);
  d ← get_state;
  _ ← lift (raise_if (family_by_id family_id d = None) IntegrityError);
  l ← lift (sql_insert token_clash
        {| t_id := uuid4 e 1; t_family_id := family_id; t_access_hash := access_digest;
           t_refresh_hash := refresh_digest; t_access_expires_at := now + seconds ttl;
           t_refresh_expires_at := expires_at; t_created_at := now; t_rotated_at := None |}
        (tokens d));
  _ ← put_state (set_tokens l d);
  mret {| sp_access := access; sp_refresh := refresh; sp_expires_in := ttl;
          sp_family_id := family_id; sp_user_id := u_id x; sp_username := u_username x;
          sp_role := u_role x; sp_must_change_password := u_must_change x |}.

Definition drop_family (i : string) (d : auth_db) : auth_db :=
  set_families (sql_delete (fun f => f_id f = i) (families d))
    (set_tokens (sql_delete (fun t => t_family_id t = i) (tokens d)) d).

(** Clock readings [n] and [n + 1]. *)
Definition new_family (e : AuthEnv) (n : nat) (x : user_row) (device : list Z)
  : M auth_db SessionPair :=
  let now := clock e n in
  d ← get_state;
  let mine := py_sorted newest_first (filter (fun f => f_user_id f = u_id x) (families d)) in
  let d1 := foldl (fun d f => drop_family (f_id f) d) d (drop 31 mine) in
  let family_id := uuid4 e 0 in
  let expires_at := now + seconds (refresh_ttl_seconds settings) in
  _ ← lift (raise_if (user_by_id (u_id x) d = None) IntegrityError);
  l ← lift (sql_insert family_clash
        {| f_id := family_id; f_user_id := u_id x; f_device_name := device;
           f_created_at := now; f_expires_at := expires_at; f_revoked_at := None |}
        (families d1));
  _ ← put_state (set_families l d1);
  issue_ e (S n) x family_id expires_at.

(** The transaction of [login], after the password of [x] was verified
    against [old_hash] outside of it. *)
Definition login_commit (e : AuthEnv) (user_id old_hash : string) (replacement : option string)
    (device : list Z) : M auth_db SessionPair :=
  transaction (
    d ← get_state;
    current ← lift (require_some (user_by_id user_id d) (ApiError "invalid_credentials" 401));
    _ ← lift (raise_if (u_disabled current = true \/ u_password_hash current <> old_hash)
                (ApiError "invalid_credentials" 401));
    _ ← match replacement with
        | Some h => put_state (set_users (sql_update (fun x => u_id x = u_id current)
                      (fun x => set_password h (u_must_change x) (u_revision x) x) (users d)) d)
        | None => mret tt
        end;
    new_family e 1 current device).

Definition login (e : AuthEnv) (salt : string) (username : string) (password device peer : list Z)
  : M auth_db SessionPair :=
  let username := ascii_lower username in
  _ ← rate_limit e [("login_ip"%string, peer, login_ip_limit settings);
                    ("login_account"%string, u username, login_account_limit settings);
                    ("login_global"%string, u "all", login_global_limit settings)];
  d ← get_state;
  let user := sql_one (fun x => u_username x = username) (users d) in
  let old_hash := match user with Some x => u_password_hash x | None => dummy_hash end in
  verified ← lift (verify_ e old_hash password);
  x ← lift (require_some user (ApiError "invalid_credentials" 401));
  _ ← lift (raise_if (verified = false \/ u_disabled x = true) (ApiError "invalid_credentials" 401));
  replacement ← lift (if check_needs_rehash old_hash
                      then Some <$> hash_password e salt password else Ok None);
  login_commit e (u_id x) old_hash replacement device.

Definition lookup_ (d : auth_db) (digest : string) (column : token_column)
  : option (token_row * family_row * user_row) :=
  t ← sql_one (fun t => column_of column t = digest) (tokens d); join_session t d.

(** What [authenticate] requires of the row it found. *)
Definition session_live (now : Z) (r : token_row * family_row * user_row) : Prop :=
  let '(t, f, x) := r in
  u_disabled x = false /\ f_revoked_at f = None /\ t_rotated_at t = None /\
  now < t_access_expires_at t /\ now < f_expires_at f.
#[export] Instance session_live_dec now r : Decision (session_live now r).
Proof. destruct r as [[t f] x]. cbn. apply _. Defined.

Definition authenticate (e : AuthEnv) (access : list Z) (d : auth_db) : res Principal :=
  digest ← except_value_error (token_hash access) (ApiError "invalid_session" 401);
  r ← require_some (lookup_ d digest access_hash) (ApiError "invalid_session" 401);
  _ ← raise_if (~ session_live (clock e 0) r) (ApiError "invalid_session" 401);
  let '(t, f, x) := r in
  Ok {| p_id := f_user_id f; p_username := u_username x; p_role := u_role x;
        p_must_change_password := u_must_change x; p_family_id := f_id f; p_token_id := t_id t |}.

Definition assert_current (now : Z) (d : auth_db) (p : Principal) : res unit :=
  r ← require_some
        (t ← sql_one (fun t => t_id t = p_token_id p) (tokens d);
         r ← join_session t d;
         if decide (f_id r.1.2 = p_family_id p /\ f_user_id r.1.2 = p_id p) then Some r else None)
        (ApiError "invalid_session" 401);
  raise_if (~ session_live now r \/ u_role r.2 <> p_role p \/
            u_must_change r.2 <> p_must_change_password p) (ApiError "invalid_session" 401).

Definition revoke_family (now : Z) (i : string) (d : auth_db) : auth_db :=
  set_families (sql_update (fun f => f_id f = i) (set_revoked now) (families d)) d.

(** The transaction of [refresh]; [None] is the source's [invalid]. *)
Definition refresh_commit (e : AuthEnv) (digest : string) : M auth_db (option SessionPair) :=
  transaction (
    d ← get_state;
    let now := clock e 1 in
    match lookup_ d digest refresh_hash with
    | None => mret None
    | Some (t, f, x) =>
        if decide (u_disabled x = true \/ f_revoked_at f <> None) then mret None
        else if decide (t_rotated_at t <> None) then
          _ ← put_state (revoke_family now (f_id f) d); mret None
        else if decide (now >= t_refresh_expires_at t \/ now >= f_expires_at f) then
          _ ← put_state (revoke_family now (f_id f) d); mret None
        else if u_must_change x then
          lift (Raise (ApiError "password_change_required" 403))
        else if decide (Z.of_nat (length (filter (fun t' => t_family_id t' = f_id f) (tokens d))) >= 4096) then
          _ ← put_state (revoke_family now (f_id f) d); mret None
        else
          _ ← put_state (set_tokens (sql_update (fun t' => t_id t' = t_id t) (set_rotated now) (tokens d)) d);
          pair ← issue_ e 2 x (f_id f) (f_expires_at f);
          mret (Some pair)
    end).

Definition refresh (e : AuthEnv) (refresh_token peer : list Z) : M auth_db SessionPair :=
  _ ← rate_limit e [("refresh_ip"%string, peer, 30)];
  digest ← lift (token_hash refresh_token);
  result ← refresh_commit e digest;
  lift (require_some result (ApiError "invalid_session" 401)).

Definition logout (e : AuthEnv) (p : Principal) : M auth_db unit :=
  transaction (
    d ← get_state;
    _ ← lift (assert_current (clock e 0) d p);
    put_state (set_families (sql_update (fun f => f_id f = p_family_id p /\ f_user_id f = p_id p)
                               (set_revoked (clock e 1)) (families d)) d)).

(** The transaction of [change_password]; [read_hash] is the hash that the
    current password was verified against. *)
Definition change_commit (e : AuthEnv) (p : Principal) (read_hash encoded : string)
  : M auth_db SessionPair :=
  transaction (
    d ← get_state;
    _ ← lift (assert_current (clock e 1) d p);
    let now := clock e 2 in
    current ← lift (require_some (user_by_id (p_id p) d) (ApiError "invalid_session" 401));
    family ← lift (require_some (family_by_id (p_family_id p) d) (ApiError "invalid_session" 401));
    _ ← lift (raise_if (u_password_hash current <> read_hash \/ f_revoked_at family <> None \/
                        now >= f_expires_at family) (ApiError "invalid_session" 401));
    _ ← put_state (set_families (sql_update (fun f => f_user_id f = p_id p) (set_revoked now) (families d))
          (set_users (sql_update (fun x => u_id x = p_id p)
             (fun x => set_password encoded false (u_revision x + 1) x) (users d)) d));
    d ← get_state;
    updated ← lift (require_some (user_by_id (p_id p) d) (ValueError "TypeError"));
    new_family e 3 updated (f_device_name family)).

Definition change_password (e : AuthEnv) (salt : string) (p : Principal)
    (current_password new_password : list Z) : M auth_db SessionPair :=
  _ ← rate_limit e [("password_change"%string, u (p_id p), 5)];
  d ← get_state;
  x ← lift (require_some (user_by_id (p_id p) d) (ApiError "invalid_credentials" 401));
  ok ← lift (verify_ e (u_password_hash x) current_password);
  _ ← lift (raise_if (ok = false) (ApiError "invalid_credentials" 401));
  _ ← lift (raise_if (current_password = new_password) (ApiError "password_unchanged" 400));
  encoded ← lift (hash_password e salt new_password);
  change_commit e p (u_password_hash x) encoded.
End auth.

(** ** The session invariant *)

Record auth_inv (d : auth_db) : Prop := {
  ai_users : NoDup (u_id <$> users d);
  ai_names : NoDup (u_username <$> users d);
  ai_families : NoDup (f_id <$> families d);
  ai_tokens : NoDup (t_id <$> tokens d);
  ai_access : NoDup (t_access_hash <$> tokens d);
  ai_refresh : NoDup (t_refresh_hash <$> tokens d);
  ai_owner : Forall (fun f => f_user_id f ∈ u_id <$> users d) (families d);
  ai_family : Forall (fun t => exists f, f ∈ families d /\ f_id f = t_family_id t /\
                                t_refresh_expires_at t = f_expires_at f) (tokens d);
  ai_live : forall t1 t2, t1 ∈ tokens d -> t2 ∈ tokens d -> t_family_id t1 = t_family_id t2 ->
              t_rotated_at t1 = None -> t_rotated_at t2 = None -> t1 = t2;
}.

Lemma set_rate_limits_inv l d : auth_inv d -> auth_inv (set_rate_limits l d).
Proof. by intros []. Qed.

Lemma set_audit_inv l n d : auth_inv d -> auth_inv (set_admin_audit l n d).
Proof. by intros []. Qed.

Lemma update_users_inv (P : user_row -> Prop) `{!forall x, Decision (P x)} f d :
  (forall x, u_id (f x) = u_id x) -> (forall x, u_username (f x) = u_username x) ->
  auth_inv d -> auth_inv (set_users (sql_update P f (users d)) d).
Proof.
  intros Hi Hn []. constructor; cbn; try done; by rewrite sql_update_column.
Qed.

Lemma update_families_inv (P : family_row -> Prop) `{!forall x, Decision (P x)} f d :
  (forall x, f_id (f x) = f_id x) -> (forall x, f_user_id (f x) = f_user_id x) ->
  (forall x, f_expires_at (f x) = f_expires_at x) ->
  auth_inv d -> auth_inv (set_families (sql_update P f (families d)) d).
Proof.
  intros Hi Hu He []. constructor; cbn; try done.
  - by rewrite sql_update_column.
  - apply Forall_forall. intros y Hy. apply sql_update_elem in Hy as (x & Hx & ->).
    rewrite Forall_forall in ai_owner0. case_decide; [rewrite Hu|]; by apply ai_owner0.
  - eapply Forall_impl; [exact ai_family0|]. intros t (x & Hx & Hf & Ht).
    exists (if decide (P x) then f x else x). split; [by apply sql_update_elem_2|].
    case_decide; rewrite ?Hi, ?He; done.
Qed.

Lemma revoke_inv now (P : family_row -> Prop) `{!forall x, Decision (P x)} d :
  auth_inv d -> auth_inv (set_families (sql_update P (set_revoked now) (families d)) d).
Proof. by apply update_families_inv. Qed.

Lemma drop_family_inv i d : auth_inv d -> auth_inv (drop_family i d).
Proof.
  intros []. constructor; cbn; try done; try (by apply sql_delete_column).
  - apply Forall_forall. intros f Hf. apply sql_delete_elem in Hf as [Hf _].
    rewrite Forall_forall in ai_owner0. by apply ai_owner0.
  - apply Forall_forall. intros t Ht. apply sql_delete_elem in Ht as [Ht Hi].
    rewrite Forall_forall in ai_family0. destruct (ai_family0 t Ht) as (f & Hf & Hid & He).
    exists f. split; [|done]. apply sql_delete_elem. split; [done|congruence].
  - intros t1 t2 [H1 _]%sql_delete_elem [H2 _]%sql_delete_elem. by apply ai_live0.
Qed.

Lemma drop_families_inv (l : list family_row) d :
  auth_inv d -> auth_inv (foldl (fun d f => drop_family (f_id f) d) d l).
Proof. revert d. induction l; cbn; intros; [done|]. by apply IHl, drop_family_inv. Qed.

Lemma drop_families_users (l : list family_row) d :
  users (foldl (fun d f => drop_family (f_id f) d) d l) = users d.
Proof. revert d. induction l; cbn; intros; [done|]. by rewrite IHl. Qed.

Lemma insert_family_inv f l d :
  auth_inv d -> f_user_id f ∈ u_id <$> users d ->
  sql_insert family_clash f (families d) = Ok l -> auth_inv (set_families l d).
Proof.
  intros [] Hu [-> Hc]%sql_insert_ok. constructor; cbn; try done.
  - by apply snoc_column.
  - apply Forall_app. by repeat constructor.
  - eapply Forall_impl; [exact ai_family0|]. intros t (g & ? & ?). exists g. set_solver.
Qed.

Lemma insert_token_inv t f l d :
  auth_inv d -> f ∈ families d -> t_family_id t = f_id f ->
  t_refresh_expires_at t = f_expires_at f ->
  Forall (fun t' => t_family_id t' = f_id f -> t_rotated_at t' <> None) (tokens d) ->
  sql_insert token_clash t (tokens d) = Ok l -> auth_inv (set_tokens l d).
Proof.
  intros [] Hf Hi He Hlive [-> Hc]%sql_insert_ok.
  assert (Forall (fun y => t_id t <> t_id y /\ t_access_hash t <> t_access_hash y /\
    t_refresh_hash t <> t_refresh_hash y) (tokens d)) as Hne.
  { eapply Forall_impl; [exact Hc|]. unfold token_clash. tauto. }
  constructor; cbn; try done; try (apply snoc_column; [done|]; eapply Forall_impl; [exact Hne|]; naive_solver).
  - apply Forall_app. split; [done|]. repeat constructor. by exists f.
  - rewrite Forall_forall in Hlive.
    intros t1 t2 [H1|H1]%elem_of_app [H2|H2]%elem_of_app Ht R1 R2;
      try apply list_elem_of_singleton in H1 as ->; try apply list_elem_of_singleton in H2 as ->;
      try done; [by apply ai_live0|exfalso; eapply Hlive; [exact H1| |]; congruence
      |exfalso; eapply Hlive; [exact H2| |]; congruence].
Qed.

Lemma rotate_inv now t d : auth_inv d -> t ∈ tokens d ->
  auth_inv (set_tokens (sql_update (fun t' => t_id t' = t_id t) (set_rotated now) (tokens d)) d) /\
  (t_rotated_at t = None ->
   Forall (fun t' => t_family_id t' = t_family_id t -> t_rotated_at t' <> None)
     (sql_update (fun t' => t_id t' = t_id t) (set_rotated now) (tokens d))).
Proof.
  intros [] Ht. split.
  - constructor; cbn; try done; try (by rewrite sql_update_column).
    + apply Forall_forall. intros y (x & Hx & ->)%sql_update_elem.
      rewrite Forall_forall in ai_family0. destruct (ai_family0 x Hx) as (f & ? & ? & ?).
      exists f. case_decide; done.
    + intros t1 t2 (x1 & H1 & ->)%sql_update_elem (x2 & H2 & ->)%sql_update_elem.
      do 2 case_decide; cbn; try done. by apply ai_live0.
  - intros Hr. apply Forall_forall. intros y (x & Hx & ->)%sql_update_elem Hf Hn.
    case_decide as Hd; [done|]. apply Hd. f_equal. by apply ai_live0.
Qed.

Lemma user_by_id_elem i d x : user_by_id i d = Some x -> x ∈ users d /\ u_id x = i.
Proof. intros Hs. exact (sql_one_some _ _ _ Hs). Qed.

Lemma family_by_id_elem i d f : family_by_id i d = Some f -> f ∈ families d /\ f_id f = i.
Proof. intros Hs. exact (sql_one_some _ _ _ Hs). Qed.

Lemma join_session_some t d r : join_session t d = Some r ->
  exists f x, r = (t, f, x) /\ f ∈ families d /\ f_id f = t_family_id t /\
              x ∈ users d /\ u_id x = f_user_id f.
Proof.
  unfold join_session. intros E. apply bind_Some in E as (f & Hf & E).
  apply bind_Some in E as (x & Hx & [= <-]).
  apply family_by_id_elem in Hf as [? ?]. apply user_by_id_elem in Hx as [? ?].
  by exists f, x.
Qed.

Lemma lookup_some d digest c t f x : lookup_ d digest c = Some (t, f, x) ->
  t ∈ tokens d /\ column_of c t = digest /\ f ∈ families d /\ f_id f = t_family_id t /\
  x ∈ users d /\ u_id x = f_user_id f.
Proof.
  unfold lookup_. intros E. apply bind_Some in E as (t' & Ht & E).
  apply sql_one_some in Ht as [? ?].
  apply join_session_some in E as (f' & x' & ? & ? & ? & ? & ?). by simplify_eq.
Qed.

(** A token of a consistent database is found with its family and owner. *)
Lemma lookup_found d c t f x :
  auth_inv d -> t ∈ tokens d -> f ∈ families d -> f_id f = t_family_id t ->
  x ∈ users d -> u_id x = f_user_id f ->
  lookup_ d (column_of c t) c = Some (t, f, x).
Proof.
  intros [] Ht Hf Hi Hx Hu. unfold lookup_, join_session, family_by_id, user_by_id.
  rewrite (sql_one_unique (column_of c) _ t) by (by destruct c). cbn.
  rewrite (sql_one_unique f_id _ f) by done. cbn.
  by rewrite (sql_one_unique u_id _ x).
Qed.

Section sessions.
Variable sha256_hex : list Z -> string.
Variable settings : Settings.

Definition new_token (e : AuthEnv) (n : nat) (family_id : string) (expires_at : Z) : token_row :=
  let ttl := Z.max 1 (Z.quot (Z.min (seconds (access_ttl_seconds settings))
                                    (expires_at - clock e n)) TICK) in
  {| t_id := uuid4 e 1; t_family_id := family_id;
     t_access_hash := sha256_hex (token_urlsafe e 0);
     t_refresh_hash := sha256_hex (token_urlsafe e 1);
     t_access_expires_at := clock e n + seconds ttl;
     t_refresh_expires_at := expires_at; t_created_at := clock e n; t_rotated_at := None |}.

Lemma token_hash_ok v h : token_hash sha256_hex v = Ok h -> h = sha256_hex v.
Proof. unfold token_hash. intros. by inv_ok. Qed.

Lemma issue_ok e n x fid exp d pair d' :
  issue_ sha256_hex settings e n x fid exp d = (Ok pair, d') ->
  is_Some (family_by_id fid d) /\
  sql_insert token_clash (new_token e n fid exp) (tokens d) = Ok (tokens d') /\
  d' = set_tokens (tokens d') d /\
  token_hash sha256_hex (token_urlsafe e 0) = Ok (sha256_hex (token_urlsafe e 0)) /\
  token_hash sha256_hex (token_urlsafe e 1) = Ok (sha256_hex (token_urlsafe e 1)) /\
  sp_access pair = token_urlsafe e 0 /\ sp_refresh pair = token_urlsafe e 1 /\
  sp_family_id pair = fid /\ sp_user_id pair = u_id x.
Proof.
  unfold issue_. intros Hop. inv_M.
  repeat match goal with H : token_hash _ ?v = Ok ?h |- _ =>
    pose proof (token_hash_ok _ _ H); subst h end.
  split_and!; try done. by apply not_eq_None_Some.
Qed.

Lemma issue_inv e n x f d pair d' :
  auth_inv d -> f ∈ families d ->
  Forall (fun t' => t_family_id t' = f_id f -> t_rotated_at t' <> None) (tokens d) ->
  issue_ sha256_hex settings e n x (f_id f) (f_expires_at f) d = (Ok pair, d') -> auth_inv d'.
Proof.
  intros Hi Hf Hl Hop. apply issue_ok in Hop as (_ & Hins & -> & _).
  by eapply insert_token_inv; [exact Hi|exact Hf| | | |exact Hins].
Qed.

Definition made_family (e : AuthEnv) (n : nat) (x : user_row) (device : list Z) : family_row :=
  {| f_id := uuid4 e 0; f_user_id := u_id x; f_device_name := device; f_created_at := clock e n;
     f_expires_at := clock e n + seconds (refresh_ttl_seconds settings); f_revoked_at := None |}.

Lemma new_family_ok e n x device d pair d' :
  auth_inv d -> new_family sha256_hex settings e n x device d = (Ok pair, d') ->
  let f := made_family e n x device in
  let t := new_token e (S n) (f_id f) (f_expires_at f) in
  auth_inv d' /\ users d' = users d /\ f ∈ families d' /\ t ∈ tokens d' /\
  sp_access pair = token_urlsafe e 0 /\ token_hash sha256_hex (sp_access pair) = Ok (t_access_hash t) /\
  sp_family_id pair = f_id f /\
  (forall g, g ∈ families d' -> g = f \/ g ∈ families d) /\
  (forall v, t_family_id v <> f_id f -> v ∈ tokens d' -> v ∈ tokens d).
Proof.
  intros Hi Hop f t. unfold new_family in Hop. inv_M.
  match goal with H : sql_insert _ _ (families ?d1) = Ok _ |- _ => set (d1' := d1) in *; rename H into Hins end.
  match goal with H : ~ user_by_id _ ?d = None |- _ => rename H into Hu; rename d into db end.
  pose proof (drop_families_inv (drop 31 (py_sorted newest_first
    (filter (fun f0 => f_user_id f0 = u_id x) (families db)))) db Hi) as Hi1. fold d1' in Hi1.
  assert (users d1' = users db) as Hus by apply drop_families_users.
  pose proof (sql_insert_ok _ _ _ _ Hins) as [-> Hfc].
  assert (auth_inv (set_families (families d1' ++ [f]) d1')) as Hi2.
  { apply (insert_family_inv f); [done| |exact Hins]. rewrite Hus.
    apply not_eq_None_Some in Hu as [y Hy]. apply user_by_id_elem in Hy as [Hy Hyx].
    change (f_user_id f) with (u_id x). rewrite <- Hyx. by apply list_elem_of_fmap_2. }
  assert (Forall (fun t' => t_family_id t' = f_id f -> t_rotated_at t' <> None) (tokens d1')) as Hnone.
  { eapply Forall_impl; [apply (ai_family _ Hi1)|]. intros t' (g & Hg & Hgi & _) E.
    exfalso. rewrite Forall_forall in Hfc. apply (Hfc g Hg). unfold family_clash. cbn in *. congruence. }
  assert (f ∈ families d1' ++ [f]) as Hff by set_solver.
  pose proof (issue_inv _ _ _ f _ _ _ Hi2 Hff Hnone Hop) as Hi3.
  apply issue_ok in Hop as (_ & Hti & Hd & Hah & _ & Ha & _ & Hfi & _).
  rewrite <- Ha in Hah at 1.
  apply sql_insert_ok in Hti as [Htk _]. cbn [tokens set_families] in Htk.
  assert (families d' = families d1' ++ [f]) as Hfam by (by rewrite Hd).
  assert (users d' = users db) as Hus' by (by rewrite Hd).
  assert (forall (l : list family_row) (dd : auth_db) (v : token_row),
    v ∈ tokens (foldl (fun d f => drop_family (f_id f) d) dd l) -> v ∈ tokens dd) as Hmono.
  { induction l as [|a l IH]; cbn; intros dd v Hv; [done|]. apply IH in Hv. cbn in Hv.
    by apply sql_delete_elem in Hv as [? _]. }
  assert (forall (l : list family_row) (dd : auth_db) (g : family_row),
    g ∈ families (foldl (fun d f => drop_family (f_id f) d) dd l) -> g ∈ families dd) as Hmonof.
  { induction l as [|a l IH]; cbn; intros dd v Hv; [done|]. apply IH in Hv. cbn in Hv.
    by apply sql_delete_elem in Hv as [? _]. }
  rewrite Hfam, Htk. split_and!; try done.
  - apply elem_of_app. right. by apply list_elem_of_singleton.
  - intros g [Hg|Hg%list_elem_of_singleton]%elem_of_app; [right; by eapply Hmonof|by left].
  - intros v Hv [Hg|Hg%list_elem_of_singleton]%elem_of_app; [by eapply Hmono|]. subst v. by destruct Hv.
Qed.

Lemma rate_limit_frame rate_key e cats d r d' :
  rate_limit rate_key e cats d = (r, d') -> exists l, d' = set_rate_limits l d.
Proof.
  unfold rate_limit, transaction, mbind, M_bind, get_state, put_state, mret, M_ret, lift.
  intros Hop. simplify_eq. by eexists.
Qed.

(** *** Every transaction keeps the invariant *)

Lemma login_commit_inv e uid old repl device d r d' :
  auth_inv d -> login_commit sha256_hex settings e uid old repl device d = (r, d') -> auth_inv d'.
Proof.
  intros Hi Hop. destruct r as [pair|ex]; [|by apply transaction_raise in Hop as ->].
  unfold login_commit in Hop. inv_M. destruct repl as [h|]; inv_M.
  - eapply new_family_ok; [|exact Hop]. by apply update_users_inv.
  - by eapply new_family_ok.
Qed.

Lemma refresh_commit_inv e digest d r d' :
  auth_inv d -> refresh_commit sha256_hex settings e digest d = (r, d') -> auth_inv d'.
Proof.
  intros Hi Hop. destruct r as [o|ex]; [|by apply transaction_raise in Hop as ->].
  unfold refresh_commit in Hop. inv_M.
  match type of Hi with auth_inv ?x => rename x into db end.
  destruct (lookup_ db digest refresh_hash) as [[[t f] x]|] eqn:El; [|by inv_M].
  apply lookup_some in El as (Ht & _ & Hf & Hft & _ & _).
  case_decide as Hdis; [by inv_M|].
  case_decide as Hrot; [inv_M; by apply revoke_inv|].
  case_decide; [inv_M; by apply revoke_inv|].
  destruct (u_must_change x); [by inv_M|].
  case_decide; [inv_M; by apply revoke_inv|]. inv_M.
  destruct (rotate_inv (clock e 1) t db Hi Ht) as [Hi1 Hl].
  eapply issue_inv; [exact Hi1|exact Hf| |eassumption]. cbn.
  rewrite Hft. apply Hl. by destruct (t_rotated_at t).
Qed.

Lemma logout_inv e p d r d' : auth_inv d -> logout e p d = (r, d') -> auth_inv d'.
Proof.
  intros Hi Hop. destruct r; [|by apply transaction_raise in Hop as ->].
  unfold logout in Hop. inv_M. by apply revoke_inv.
Qed.

Lemma change_commit_inv e p old new d r d' :
  auth_inv d -> change_commit sha256_hex settings e p old new d = (r, d') -> auth_inv d'.
Proof.
  intros Hi Hop. destruct r; [|by apply transaction_raise in Hop as ->].
  unfold change_commit in Hop. inv_M. eapply new_family_ok; [|exact Hop].
  apply (revoke_inv _ _ (set_users _ _)). by apply update_users_inv.
Qed.

(** *** What an accepted token says *)

Lemma authenticate_ok e a d p : authenticate sha256_hex e a d = Ok p ->
  exists t f x, t ∈ tokens d /\ f ∈ families d /\ x ∈ users d /\
    token_hash sha256_hex a = Ok (t_access_hash t) /\ f_id f = t_family_id t /\
    u_id x = f_user_id f /\ session_live (clock e 0) (t, f, x) /\
    p_id p = f_user_id f /\ p_family_id p = f_id f /\ p_token_id p = t_id t.
Proof.
  unfold authenticate. intros Hop. inv_ok.
  match goal with H : lookup_ _ _ _ = Some ?r |- _ => rename H into Hl; destruct r as [[t f] y] end.
  inv_ok. apply lookup_some in Hl as (? & <- & ? & ? & ? & ?).
  match goal with H : ~ ~ _ |- _ => apply dec_stable in H end.
  exists t, f, y. done.
Qed.

Lemma authenticate_total e a d t f x :
  auth_inv d -> t ∈ tokens d -> f ∈ families d -> f_id f = t_family_id t ->
  x ∈ users d -> u_id x = f_user_id f -> token_hash sha256_hex a = Ok (t_access_hash t) ->
  session_live (clock e 0) (t, f, x) ->
  authenticate sha256_hex e a d =
    Ok {| p_id := f_user_id f; p_username := u_username x; p_role := u_role x;
          p_must_change_password := u_must_change x; p_family_id := f_id f; p_token_id := t_id t |}.
Proof.
  intros Hi Ht Hf Hft Hx Hu Hh Hl. unfold authenticate. rewrite Hh. cbn.
  pose proof (lookup_found d access_hash t f x Hi Ht Hf Hft Hx Hu) as Hk. cbn in Hk. rewrite Hk. cbn.
  cbn in Hl. by rewrite raise_if_no by tauto.
Qed.

(** No token of a revoked family is accepted. *)
Lemma revoked_rejected e a d p now (P : family_row -> Prop) `{!forall x, Decision (P x)} d0 :
  families d = sql_update P (set_revoked now) (families d0) ->
  authenticate sha256_hex e a d = Ok p ->
  exists f, f ∈ families d0 /\ ~ P f /\ f_id f = p_family_id p /\ f_user_id f = p_id p.
Proof.
  intros Hd Hop. apply authenticate_ok in Hop as (t & f & x & _ & Hf & _ & _ & _ & _ & Hl & ? & ? & _).
  rewrite Hd in Hf. apply sql_update_elem in Hf as (g & Hg & ->).
  cbn in Hl. case_decide; [by destruct Hl as (_ & ? & _)|]. by exists g.
Qed.

Lemma refresh_some e digest d pair d' :
  refresh_commit sha256_hex settings e digest d = (Ok (Some pair), d') ->
  exists t f x, lookup_ d digest refresh_hash = Some (t, f, x) /\
    u_disabled x = false /\ f_revoked_at f = None /\ t_rotated_at t = None /\
    clock e 1 < f_expires_at f /\ u_must_change x = false /\
    issue_ sha256_hex settings e 2 x (f_id f) (f_expires_at f)
      (set_tokens (sql_update (fun t' => t_id t' = t_id t) (set_rotated (clock e 1)) (tokens d)) d)
    = (Ok pair, d').
Proof.
  unfold refresh_commit. intros Hop. inv_M.
  match goal with H : context [lookup_ ?d digest _] |- _ => rename d into db end.
  destruct (lookup_ db digest refresh_hash) as [[[t f] x]|]; [|by inv_M].
  exists t, f, x. split; [done|].
  case_decide as H1; [by inv_M|]. case_decide as H2; [by inv_M|]. case_decide as H3; [by inv_M|].
  destruct (u_must_change x); [by inv_M|]. case_decide as H4; [by inv_M|]. inv_M.
  split_and!; try done; try lia.
  all: first [destruct (u_disabled x); intuition congruence
             | destruct (f_revoked_at f); intuition congruence
             | destruct (t_rotated_at t); intuition congruence].
Qed.

(** A refresh hands over the session: the new access token is accepted as
    the same user in the same family until it expires, the access token it
    replaces no longer is, and the family's lifetime is not extended. *)
Theorem auth_refresh_rotates e digest d pair d1 :
  auth_inv d -> refresh_commit sha256_hex settings e digest d = (Ok (Some pair), d1) ->
  exists t f x, lookup_ d digest refresh_hash = Some (t, f, x) /\ sp_family_id pair = f_id f /\
    families d1 = families d /\
    (forall e2, clock e2 0 < f_expires_at f -> clock e2 0 < clock e 2 + TICK ->
       exists p, authenticate sha256_hex e2 (sp_access pair) d1 = Ok p /\
                 p_id p = u_id x /\ p_family_id p = f_id f) /\
    (forall e2 a, token_hash sha256_hex a = Ok (t_access_hash t) ->
       authenticate sha256_hex e2 a d1 = Raise (ApiError "invalid_session" 401)).
Proof.
  intros Hi Hop. pose proof (refresh_commit_inv _ _ _ _ _ Hi Hop) as Hi1.
  apply refresh_some in Hop as (t & f & x & Hl & Hdis & Hrev & Hrot & Hexp & _ & Hop).
  exists t, f, x. split; [done|].
  apply lookup_some in Hl as (Ht & Hdig & Hf & Hft & Hx & Hu).
  apply issue_ok in Hop as (_ & Hins & Hd & Hha & _ & Hacc & _ & Hfam & _).
  apply sql_insert_ok in Hins as [Htk _]. cbn in Htk.
  assert (families d1 = families d) as Hfd by (by rewrite Hd).
  assert (users d1 = users d) as Hud by (by rewrite Hd). split; [done|].
  set (tn := new_token e 2 (f_id f) (f_expires_at f)) in *.
  assert (tn ∈ tokens d1) as Htn by (rewrite Htk; set_solver).
  split_and!; [done| |].
  - intros e2 H1 H2. eexists. split.
    + apply (authenticate_total e2 (sp_access pair) d1 tn f x); rewrite ?Hacc, ?Hfd, ?Hud; try done.
      cbn. unfold seconds, TICK in *. split_and!; try done. lia.
    + done.
  - intros e2 a Ha.
    set (t' := set_rotated (clock e 1) t).
    assert (t' ∈ tokens d1) as Ht'.
    { rewrite Htk. apply elem_of_app. left.
      pose proof (sql_update_elem_2 (fun t' => t_id t' = t_id t) (set_rotated (clock e 1)) _ _ Ht) as Hel.
      by rewrite decide_True in Hel. }
    assert (lookup_ d1 (t_access_hash t) access_hash = Some (t', f, x)) as Hl1.
    { apply (lookup_found d1 access_hash t' f x); rewrite ?Hfd, ?Hud; done. }
    unfold authenticate. rewrite Ha. cbn. rewrite Hl1. cbn. by rewrite raise_if_yes by naive_solver.
Qed.

Lemma assert_current_ok now d p v : assert_current now d p = Ok v ->
  exists t f x, t ∈ tokens d /\ f ∈ families d /\ x ∈ users d /\ f_id f = t_family_id t /\
    u_id x = f_user_id f /\ f_id f = p_family_id p /\ f_user_id f = p_id p /\
    t_id t = p_token_id p /\ session_live now (t, f, x) /\ u_role x = p_role p /\
    u_must_change x = p_must_change_password p.
Proof.
  unfold assert_current. intros Hc. apply bind_ok in Hc as ([[t1 f1] x1] & Hj & Hl).
  apply require_some_ok in Hj. apply bind_Some in Hj as (t & Ht & Hj).
  apply bind_Some in Hj as ([[t2 f2] x2] & Hj & Hd). case_decide as Hd'; [|done]. injection Hd as -> -> ->.
  apply sql_one_some in Ht as [Ht Hid]. apply join_session_some in Hj as (f & x & E & ? & ? & ? & ?).
  injection E as -> -> ->. apply raise_if_ok in Hl. cbn in Hd', Hl. exists t, f, x.
  assert (session_live now (t, f, x)) by (apply dec_stable; tauto).
  destruct (decide (u_role x = p_role p)), (decide (u_must_change x = p_must_change_password p));
    intuition.
Qed.

(** After a logout no token of the session family is accepted. *)
Theorem auth_logout_revokes e p d d' e2 a q :
  auth_inv d -> logout e p d = (Ok tt, d') -> authenticate sha256_hex e2 a d' = Ok q ->
  p_family_id q <> p_family_id p.
Proof.
  intros Hi Hop Ha E. unfold logout in Hop. inv_M.
  eapply revoked_rejected in Ha as (g & Hg & Hn & Hgi & _); [|done].
  apply Hn. split; [congruence|].
  match goal with H : assert_current _ _ _ = _ |- _ =>
    apply assert_current_ok in H as (t & f & x & _ & Hf & _ & _ & _ & Hd1 & Hd2 & _) end.
  rewrite <- Hd2. f_equal.
  eapply (nodup_column_inj f_id); [apply (ai_families _ Hi)|done..|congruence].
Qed.

Lemma new_session_live e n x device e2 d :
  clock e2 0 < f_expires_at (made_family e n x device) -> clock e2 0 < clock e (S n) + TICK ->
  u_disabled x = false ->
  session_live (clock e2 0)
    (new_token e (S n) (f_id (made_family e n x device)) (f_expires_at (made_family e n x device)),
     made_family e n x device, d) <-> u_disabled d = false.
Proof.
  intros H1 H2 Hx. cbn in *. unfold seconds, TICK in *.
  split; [by intros (? & _)|]. intros. split_and!; try done. lia.
Qed.

(** After a password change every session of the user but the new one is
    rejected, and the stored hash is the new password's. *)
Theorem auth_change_password_revokes e p old new d pair d' :
  auth_inv d -> change_commit sha256_hex settings e p old new d = (Ok pair, d') ->
  (exists x, x ∈ users d' /\ u_id x = p_id p /\ u_password_hash x = new /\ u_must_change x = false) /\
  forall e2 a q, authenticate sha256_hex e2 a d' = Ok q -> p_id q = p_id p ->
    p_family_id q = sp_family_id pair.
Proof.
  intros Hi Hop. unfold change_commit in Hop. inv_M.
  match goal with H : family_by_id _ ?d = _ |- _ => rename d into db end.
  match goal with H : user_by_id (p_id p) db = Some ?c |- _ => rename H into Hc; rename c into cur end.
  match goal with H : user_by_id (p_id p) (set_families _ _) = Some ?c |- _ =>
    rename H into Hx; rename c into upd end.
  apply user_by_id_elem in Hx as [Hx Hxi]. cbn in Hx.
  assert (u_password_hash upd = new /\ u_must_change upd = false) as [Hh Hm].
  { apply sql_update_elem in Hx as (y & _ & ->). case_decide as Hd; [done|]. by destruct Hd. }
  apply new_family_ok in Hop as (Hi' & Hu & Hf & Ht & _ & _ & Hfam & Hfs & _).
  2: { apply (revoke_inv _ _ (set_users _ _)). by apply update_users_inv. }
  split.
  - exists upd. rewrite Hu. by split_and!.
  - intros e2 a q Ha Eq. apply authenticate_ok in Ha as
      (t & f & x & _ & Hff & _ & _ & _ & _ & Hl & Hp & Hpf & _).
    apply Hfs in Hff as [->|Hff]; [by rewrite Hpf, Hfam|]. exfalso. cbn in Hff.
    apply sql_update_elem in Hff as (g & _ & ->). case_decide as Hd.
    + by destruct Hl as (_ & ? & _).
    + apply Hd. congruence.
Qed.

(** A login succeeds only for an account that is not disabled and whose
    stored hash verifies the password; its access token is then accepted as
    that user. *)
Theorem auth_login_sound rate_key argon2_verify argon2_hash check_needs_rehash dummy_hash
    e salt username password device peer d pair d' :
  auth_inv d ->
  login sha256_hex rate_key argon2_verify argon2_hash check_needs_rehash dummy_hash settings
    e salt username password device peer d = (Ok pair, d') ->
  exists x, x ∈ users d /\ u_username x = ascii_lower username /\ u_disabled x = false /\
    argon2_verify (u_password_hash x) password = true /\
    forall e2, clock e2 0 < clock e 1 + seconds (refresh_ttl_seconds settings) ->
      clock e2 0 < clock e 2 + TICK ->
      exists q, authenticate sha256_hex e2 (sp_access pair) d' = Ok q /\
                p_id q = u_id x /\ p_family_id q = sp_family_id pair.
Proof.
  intros Hi Hop. unfold login in Hop. inv_M.
  match goal with H : rate_limit _ _ _ _ = _ |- _ => apply rate_limit_frame in H as [l ->] end.
  match goal with H : sql_one _ _ = Some ?y |- _ => rename H into Hx; rename y into usr end.
  match goal with H : verify_ _ _ _ _ = Ok ?b |- _ => rename H into Hv; rename b into vb end.
  match goal with H : ~ (vb = false \/ _) |- _ => rename H into Hok end.
  rewrite Hx in Hop, Hv. cbn [users set_rate_limits] in Hx. apply sql_one_some in Hx as [Hx Hn].
  unfold verify_ in Hv. inv_ok.
  assert (argon2_verify (u_password_hash usr) password = true /\ u_disabled usr = false) as [Hver Hdis].
  { destruct (argon2_verify _ _), (u_disabled usr); intuition. }
  exists usr. split_and!; try done. intros e2 H1 H2.
  unfold login_commit in Hop. inv_M.
  match goal with H : user_by_id _ _ = Some ?y |- _ => rename H into Hc; rename y into cur end.
  apply user_by_id_elem in Hc as [Hc Hci]. cbn in Hc.
  assert (cur = usr) as -> by (by eapply (nodup_column_inj u_id); [apply (ai_users _ Hi)|..]).
  match goal with H : _ _ = (Ok ?z, ?d1) |- _ => rename d1 into dm; rename H into Hm end.
  assert (auth_inv dm /\ exists y, y ∈ users dm /\ u_id y = u_id usr /\ u_disabled y = false)
    as (Him & y & Hy & Hyi & Hyd).
  { match type of Hm with (match ?o with _ => _ end) _ = _ => destruct o as [h|] end; inv_M.
    - split; [apply (update_users_inv _ _ (set_rate_limits l d)); [done..|by apply set_rate_limits_inv]|].
      pose proof (sql_update_elem_2 (fun y => u_id y = u_id usr)
        (fun y => set_password h (u_must_change y) (u_revision y) y) _ _ Hx) as Hel.
      rewrite decide_True in Hel by done. eexists. split; [exact Hel|done].
    - split; [by apply set_rate_limits_inv|]. by exists usr. }
  apply new_family_ok in Hop as (Hi' & Hu & Hf & Ht & Hacc & Hah & Hfam & _); [|done].
  eexists. split.
  - eapply (authenticate_total e2 _ d' _ _ y);
      [done|exact Ht|exact Hf|done|by rewrite Hu|done|exact Hah|by apply new_session_live].
  - by rewrite Hfam.
Qed.
End sessions.

(** *** Rate limits *)

Section limits.
Variable rate_key : string -> list Z -> string.

Lemma upsert_keys r l : NoDup (rl_key <$> l) -> NoDup (rl_key <$> upsert_limit r l).
Proof.
  intros Hn. unfold upsert_limit. case_decide as Hd.
  - replace (rl_key <$> sql_update _ _ l) with (rl_key <$> l); [done|].
    unfold sql_update. rewrite <- list_fmap_compose. apply list_fmap_ext. intros _ x _. cbn.
    by case_decide.
  - apply snoc_column; [done|]. apply Forall_Exists_neg in Hd.
    eapply Forall_impl; [exact Hd|]. cbn. congruence.
Qed.

Lemma upsert_other r l k : rl_key r <> k ->
  sql_one (fun x => rl_key x = k) (upsert_limit r l) = sql_one (fun x => rl_key x = k) l.
Proof.
  intros Hk. unfold upsert_limit, sql_one. case_decide as Hd.
  - unfold sql_update. clear Hd. induction l as [|x l IH]; [done|]. cbn [fmap list_fmap].
    destruct (decide (rl_key x = rl_key r)) as [E|E]; rewrite !filter_cons;
      [rewrite !decide_False by congruence; exact IH|case_decide; [done|exact IH]].
  - rewrite filter_app, (filter_cons _ r []), decide_False by done. by rewrite filter_nil, app_nil_r.
Qed.

Lemma count_categories_denied now w cats acc :
  (foldl (count_category rate_key now w) acc cats).2 = false ->
  NoDup ((fun c => rate_key c.1.1 c.1.2) <$> cats) ->
  acc.2 = false /\
  forall c i n old, (c, i, n) ∈ cats -> sql_one (fun x => rl_key x = rate_key c i) acc.1 = Some old ->
    rl_window old = w -> rl_count old < n.
Proof.
  revert acc. induction cats as [|[[c0 i0] n0] cats IH]; intros acc Hf Hn; cbn in Hf.
  - split; [done|]. intros ???? H. inversion H.
  - cbn in Hn. apply NoDup_cons in Hn as [Hc0 Hn]. apply IH in Hf as [Hacc Hold]; [|done]. cbn in Hacc.
    apply orb_false_iff in Hacc as [Ha Hcnt]. split; [done|].
    intros c i n old [H|H]%elem_of_cons Ho Hw.
    + injection H as -> -> ->. rewrite Ho, decide_True in Hcnt by done. lia.
    + eapply Hold; [exact H| |done]. cbn. rewrite upsert_other; [done|]. cbn.
      intros E. apply Hc0. rewrite E. apply list_elem_of_fmap. by exists (c, i, n).
Qed.

Lemma count_categories_keys now w cats acc :
  NoDup (rl_key <$> acc.1) -> NoDup (rl_key <$> (foldl (count_category rate_key now w) acc cats).1).
Proof.
  revert acc. induction cats as [|[[c i] n] cats IH]; intros acc Hn; cbn; [done|].
  apply IH. cbn. by apply upsert_keys.
Qed.

(** Admission control.  A call that passes the limiter was below every one
    of its limits: no counter of the current minute had reached its limit.
    The table keeps one row per key and never more than 10,000 rows, whether
    the call passes or not. *)
Theorem rate_limit_enforced e cats d r d' :
  NoDup (rl_key <$> rate_limits d) -> NoDup ((fun c => rate_key c.1.1 c.1.2) <$> cats) ->
  rate_limit rate_key e cats d = (r, d') ->
  NoDup (rl_key <$> rate_limits d') /\ Z.of_nat (length (rate_limits d')) <= 10000 /\
  (r = Ok tt -> forall c i n old, (c, i, n) ∈ cats -> old ∈ rate_limits d ->
     rl_key old = rate_key c i -> rl_window old = clock e 0 / seconds 60 ->
     rl_touched_at old >= clock e 0 - seconds 3600 -> rl_count old < n).
Proof.
  intros Hn Hc Hop.
  unfold rate_limit, transaction, mbind, M_bind, get_state, put_state, mret, M_ret, lift in Hop.
  set (live := sql_delete _ (rate_limits d)) in *.
  set (counted := foldl _ (live, false) cats) in *. injection Hop as Hr <-.
  assert (NoDup (rl_key <$> live)) as Hlive by (by apply sql_delete_column).
  split_and!.
  - cbn [rate_limits set_rate_limits]. apply sql_delete_column. by apply count_categories_keys.
  - cbn [rate_limits set_rate_limits]. pose proof (keep_newest_length touched_last rl_key counted.1 10000) as Hlen.
    apply Nat2Z.inj_le in Hlen. etrans; [exact Hlen|]. by apply Z.leb_le.
  - intros -> c i n old Hin Hold Hk Hw Ht. apply raise_if_ok in Hr.
    destruct counted.2 eqn:E; [done|]. apply count_categories_denied in E as [_ E]; [|done].
    eapply E; [exact Hin| |exact Hw]. apply sql_one_unique; [done| |done].
    apply sql_delete_elem. split; [done|lia].
Qed.
End limits.

(** ** A worked session *)

Module AuthExample.
Fixpoint text (l : list Z) : string :=
  match l with [] => EmptyString | c :: l' => String (Ascii.ascii_of_N (Z.to_N c)) (text l') end.
Definition key (c : string) (i : list Z) : string := c +:+ ":" +:+ text i.
Definition verify (h : string) (p : list Z) : bool := bool_decide (h = "argon2:" +:+ text p)%string.
Definition hash (salt : string) (p : list Z) : string := "argon2:" +:+ text p.
Definition cfg : Settings :=
  {| access_ttl_seconds := 900; refresh_ttl_seconds := 2592000; login_ip_limit := 5;
     login_account_limit := 10; login_global_limit := 30 |}.
Definition env (k : Z) (tag : string) : AuthEnv :=
  {| clock n := seconds (k + Z.of_nat n);
     uuid4 n := (match n with O => "family-" | S _ => "token-" end +:+ tag)%string;
     token_urlsafe n := u (match n with O => "access-" | S _ => "refresh-" end +:+ tag)%string;
     password_slots := 0 |}.
Definition alice : user_row :=
  {| u_id := "1"; u_username := "alice"; u_role := Admin; u_password_hash := "argon2:secret";
     u_must_change := false; u_created_at := 0; u_disabled := false; u_revision := 1 |}.
Definition d0 : auth_db :=
  {| users := [alice]; families := []; tokens := []; rate_limits := []; admin_audit := []; au_next := 1 |}.
Lemma inv0 : auth_inv d0.
Proof.
  constructor; cbn; try apply NoDup_singleton; try apply NoDup_nil_2; try constructor.
  intros ?? H. inversion H.
Qed.

Definition no_pair : SessionPair :=
  {| sp_access := []; sp_refresh := []; sp_expires_in := 0; sp_family_id := ""; sp_user_id := "";
     sp_username := ""; sp_role := Member; sp_must_change_password := false |}.
Definition log_in := login text key verify hash (fun _ => false) "" cfg (env 1000 "a") "" "Alice"
  (u "secret") (u "tablet") (u "10.0.0.2").
Definition d1 : auth_db := (log_in d0).2.
Definition pair1 : SessionPair := match (log_in d0).1 with Ok p => p | _ => no_pair end.
Lemma log_in_ok : log_in d0 = (Ok pair1, d1).
Proof. vm_compute. reflexivity. Qed.
Lemma inv1 : auth_inv d1.
Proof.
  assert (login_commit text cfg (env 1000 "a") "1" "argon2:secret" None (u "tablet")
    (set_rate_limits (rate_limits d1) d0) = (Ok pair1, d1)) as E by (vm_compute; reflexivity).
  exact (login_commit_inv text cfg _ _ _ _ _ _ _ _ (set_rate_limits_inv _ _ inv0) E).
Qed.
(** A second device of the same user. *)
Definition log_in_z := login_commit text cfg (env 1010 "z") "1" "argon2:secret" None (u "phone").
Definition d1z : auth_db := (log_in_z d1).2.
Lemma inv1z : auth_inv d1z.
Proof.
  assert (exists p, log_in_z d1 = (Ok p, d1z)) as [p E] by (eexists; vm_compute; reflexivity).
  unfold log_in_z in E. exact (login_commit_inv text cfg _ _ _ _ _ _ _ _ inv1 E).
Qed.
Definition swap := refresh_commit text cfg (env 1100 "b") "refresh-a".
Definition d2 : auth_db := (swap d1).2.
Definition pair2 : SessionPair := match (swap d1).1 with Ok (Some p) => p | _ => no_pair end.
Definition me : Principal :=
  {| p_id := "1"; p_username := "alice"; p_role := Admin; p_must_change_password := false;
     p_family_id := "family-a"; p_token_id := "token-a" |}.
End AuthExample.

Lemma auth_refresh_rotates_witness :
  authenticate AuthExample.text (AuthExample.env 1150 "x") (u "access-a") AuthExample.d2
  = Raise (ApiError "invalid_session" 401).
Proof.
  destruct (auth_refresh_rotates AuthExample.text AuthExample.cfg (AuthExample.env 1100 "b")
    "refresh-a" AuthExample.d1 AuthExample.pair2 AuthExample.d2 AuthExample.inv1)
    as (t & f & x & Hl & _ & _ & _ & Hold).
  - vm_compute. reflexivity.
  - apply Hold. vm_compute in Hl. injection Hl as <- _ _. vm_compute. reflexivity.
Defined.

Lemma auth_logout_revokes_witness :
  exists q, authenticate AuthExample.text (AuthExample.env 1250 "x") (u "access-z")
    (logout (AuthExample.env 1200 "l") AuthExample.me AuthExample.d1z).2 = Ok q /\
    p_family_id q <> "family-a"%string.
Proof.
  eexists. split; [vm_compute; reflexivity|].
  eapply (auth_logout_revokes AuthExample.text (AuthExample.env 1200 "l") AuthExample.me
    AuthExample.d1z _ (AuthExample.env 1250 "x") (u "access-z")).
  - exact AuthExample.inv1z.
  - vm_compute. reflexivity.
  - vm_compute. reflexivity.
Defined.

Lemma auth_change_password_revokes_witness :
  exists x, x ∈ users (change_commit AuthExample.text AuthExample.cfg (AuthExample.env 1200 "p")
    AuthExample.me "argon2:secret" "argon2:new" AuthExample.d1).2 /\
    u_password_hash x = "argon2:new"%string.
Proof.
  destruct (auth_change_password_revokes AuthExample.text AuthExample.cfg (AuthExample.env 1200 "p")
    AuthExample.me "argon2:secret" "argon2:new" AuthExample.d1
    match (change_commit AuthExample.text AuthExample.cfg (AuthExample.env 1200 "p")
      AuthExample.me "argon2:secret" "argon2:new" AuthExample.d1).1 with
    | Ok p => p | _ => AuthExample.no_pair end
    (change_commit AuthExample.text AuthExample.cfg (AuthExample.env 1200 "p")
      AuthExample.me "argon2:secret" "argon2:new" AuthExample.d1).2) as [(x & Hx & _ & Hh & _) _].
  - exact AuthExample.inv1.
  - vm_compute. reflexivity.
  - exists x. split; assumption.
Defined.

Lemma auth_login_sound_witness :
  exists q, authenticate AuthExample.text (AuthExample.env 1002 "x") (u "access-a") AuthExample.d1 = Ok q
            /\ p_id q = "1"%string.
Proof.
  destruct (auth_login_sound AuthExample.text AuthExample.cfg AuthExample.key AuthExample.verify
    AuthExample.hash (fun _ => false) "" (AuthExample.env 1000 "a") "" "Alice" (u "secret")
    (u "tablet") (u "10.0.0.2") AuthExample.d0 AuthExample.pair1 AuthExample.d1
    AuthExample.inv0 AuthExample.log_in_ok) as (x & Hx & _ & _ & _ & Hacc).
  destruct (Hacc (AuthExample.env 1002 "x")) as (q & Hq & Hid & _); [vm_compute; reflexivity..|].
  exists q. split; [exact Hq|]. rewrite Hid. cbn in Hx.
  apply list_elem_of_singleton in Hx. rewrite Hx. reflexivity.
Defined.

Lemma rate_limit_enforced_witness :
  (rate_limit AuthExample.key (AuthExample.env 60 "r") [("login_ip", u "10.0.0.2", 1)]%string
    AuthExample.d0).1 = Ok tt /\
  Z.of_nat (length (rate_limits (rate_limit AuthExample.key (AuthExample.env 60 "r")
    [("login_ip", u "10.0.0.2", 1)]%string AuthExample.d0).2)) <= 10000.
Proof.
  split; [vm_compute; reflexivity|].
  apply (rate_limit_enforced AuthExample.key (AuthExample.env 60 "r")
    [("login_ip", u "10.0.0.2", 1)]%string AuthExample.d0
    (rate_limit AuthExample.key (AuthExample.env 60 "r") [("login_ip", u "10.0.0.2", 1)]%string AuthExample.d0).1).
  - apply NoDup_nil_2.
  - apply NoDup_singleton.
  - apply surjective_pairing.
Defined.
