(* ===== verification/Admin.v ===== *)
(** * Administration of accounts and sessions

    [server/larenor_server/admin/service.py] and the request models of
    [admin/models.py].  Every mutation re-checks the actor inside its
    transaction, runs under a savepoint, and leaves one audit event whether it
    was applied or denied.  Of a call's clock readings, the first is the rate
    limiter's, the second [assert_current]'s, the third stamps rows and the
    fourth the audit event.  The theorems over all requests of the server,
    [Auth]'s included, are here: a run is a sequence of [server_call]s. *)

From S2P Require Import Prelude Auth.

Definition MAX_USERS : Z := 256.
Definition MAX_AUDIT_EVENTS : nat := 10000.

Record CreateUserRequest := {
  cu_username : string;
  cu_role : Role;
  cu_initialPassword : list Z;
}.

Record UpdateUserRequest := {
  uu_expectedRevision : Z;
  uu_role : option Role;
  uu_disabled : option bool;
}.

Record ResetPasswordRequest := {
  rp_expectedRevision : Z;
  rp_temporaryPassword : list Z;
}.

(** [createdAt] is kept in clock ticks; [utc] prints it. *)
Record AdminUser := {
  pu_id : string;
  pu_username : string;
  pu_role : Role;
  pu_disabled : bool;
  pu_must_change : bool;
  pu_revision : Z;
  pu_created_at : Z;
}.

Definition public_user (x : user_row) : AdminUser :=
  {| pu_id := u_id x; pu_username := u_username x; pu_role := u_role x;
     pu_disabled := u_disabled x; pu_must_change := u_must_change x;
     pu_revision := u_revision x; pu_created_at := u_created_at x |}.

Definition newest_event (a b : audit_row) : Prop := au_id b <= au_id a.
#[export] Instance newest_event_dec a b : Decision (newest_event a b).
Proof. unfold newest_event. apply _. Defined.

(** [INSERT INTO admin_audit], then drop all but the newest events. *)
Definition record_event (r : audit_row) (d : auth_db) : auth_db :=
  let l := admin_audit d ++ [r] in
  let old := au_id <$> drop MAX_AUDIT_EVENTS (py_sorted newest_event l) in
  set_admin_audit (sql_delete (fun x => au_id x ∈ old) l) (au_next d + 1) d.

Section admin.
Variable rate_key : string -> list Z -> string.
Variable argon2_hash : string -> list Z -> string.

Definition assert_admin (now : Z) (d : auth_db) (actor : Principal) : res unit :=
  _ ← assert_current now d actor;
  _ ← raise_if (p_must_change_password actor = true) (ApiError "password_change_required" 403);
  raise_if (p_role actor <> Admin) (ApiError "forbidden" 403).

Definition read_ {A} (e : AuthEnv) (actor : Principal) (body : auth_db -> res A) : M auth_db A :=
  _ ← rate_limit rate_key e [("admin_read"%string, u (p_id actor), 120)];
  d ← get_state;
  _ ← lift (assert_admin (clock e 1) d actor);
  lift (body d).

Definition mutation {A} (e : AuthEnv) (actor : Principal) (action : admin_action)
    (target_id : option string) (body : M auth_db A) : M auth_db A :=
  outcome ← transaction (
    d ← get_state;
    _ ← lift (assert_admin (clock e 1) d actor);
    outcome ← savepoint body;
    _ ← modify (fun d => record_event
          {| au_id := au_next d; au_action := action; au_success := is_ok outcome;
             au_timestamp := clock e 3; au_actor_id := p_id actor; au_target_id := target_id |} d);
    mret outcome);
  lift outcome.

Definition write_limit (e : AuthEnv) (actor : Principal) : M auth_db unit :=
  rate_limit rate_key e [("admin_write"%string, u (p_id actor), 20)].

Definition user_ (d : auth_db) (user_id : string) (revision : option Z) : res user_row :=
  row ← require_some (user_by_id user_id d) (ApiError "not_found" 404);
  _ ← raise_if (~ opt_is revision (u_revision row))
        (ApiError "revision_conflict" 409);
  Ok row.

Definition revoke_user (now : Z) (user_id : string) (d : auth_db) : auth_db :=
  set_families (sql_update (fun f => f_user_id f = user_id /\ f_revoked_at f = None)
                  (set_revoked now) (families d)) d.

(** ** Users *)

Definition name_le (a b : user_row) : Prop :=
  let '(a1, b1) := (u (u_username a), u (u_username b)) in
  ~ ustr_le b1 a1 \/ (a1 = b1 /\ ustr_le (u (u_id a)) (u (u_id b))).
#[export] Instance name_le_dec a b : Decision (name_le a b).
Proof. unfold name_le. apply _. Defined.

Definition list_users (e : AuthEnv) (actor : Principal) : M auth_db (list AdminUser) :=
  read_ e actor (fun d =>
    Ok (public_user <$> take (Z.to_nat MAX_USERS) (py_sorted name_le (users d)))).

Definition create_body (e : AuthEnv) (user_id encoded : string) (b : CreateUserRequest)
  : M auth_db AdminUser :=
  d ← get_state;
  _ ← lift (raise_if (Z.of_nat (length (users d)) >= MAX_USERS) (ApiError "user_limit_reached" 409));
  _ ← lift (raise_if (is_Some (sql_one (fun x => u_username x = ascii_lower (cu_username b)) (users d)))
              (ApiError "username_unavailable" 409));
  l ← lift (sql_insert user_clash
        {| u_id := user_id; u_username := ascii_lower (cu_username b); u_role := cu_role b;
           u_password_hash := encoded; u_must_change := true; u_created_at := clock e 2;
           u_disabled := false; u_revision := 1 |} (users d));
  _ ← put_state (set_users l d);
  row ← lift (user_ (set_users l d) user_id None);
  mret (public_user row).

Definition create_user (e : AuthEnv) (salt : string) (actor : Principal) (b : CreateUserRequest)
  : M auth_db AdminUser :=
  _ ← write_limit e actor;
  encoded ← lift (hash_password argon2_hash e salt (cu_initialPassword b));
  mutation e actor ActCreate (Some (uuid4 e 0)) (create_body e (uuid4 e 0) encoded b).

Definition set_access (role : Role) (disabled : bool) (x : user_row) : user_row :=
  {| u_id := u_id x; u_username := u_username x; u_role := role;
     u_password_hash := u_password_hash x; u_must_change := u_must_change x;
     u_created_at := u_created_at x; u_disabled := disabled; u_revision := u_revision x + 1 |}.

Definition active_admin (x : user_row) : Prop := u_role x = Admin /\ u_disabled x = false.
#[export] Instance active_admin_dec x : Decision (active_admin x).
Proof. unfold active_admin. apply _. Defined.

Definition update_body (e : AuthEnv) (user_id : string) (b : UpdateUserRequest)
  : M auth_db AdminUser :=
  d ← get_state;
  row ← lift (user_ d user_id (Some (uu_expectedRevision b)));
  let role := default (u_role row) (uu_role b) in
  let disabled := default (u_disabled row) (uu_disabled b) in
  _ ← lift (raise_if (active_admin row /\ (role <> Admin \/ disabled = true) /\
                      (length (filter active_admin (users d)) <= 1)%nat)
              (ApiError "last_active_admin" 409));
  _ ← (if decide (role <> u_role row \/ disabled <> u_disabled row)
       then put_state (revoke_user (clock e 2) user_id
              (set_users (sql_update (fun x => u_id x = user_id) (set_access role disabled) (users d)) d))
       else mret tt);
  d ← get_state;
  row ← lift (user_ d user_id None);
  mret (public_user row).

Definition update_user (e : AuthEnv) (actor : Principal) (user_id : string) (b : UpdateUserRequest)
  : M auth_db AdminUser :=
  _ ← write_limit e actor;
  mutation e actor ActUpdate (Some user_id) (update_body e user_id b).

Definition reset_body (e : AuthEnv) (user_id encoded : string) (b : ResetPasswordRequest)
  : M auth_db AdminUser :=
  d ← get_state;
  _ ← lift (user_ d user_id (Some (rp_expectedRevision b)));
  _ ← put_state (revoke_user (clock e 2) user_id
        (set_users (sql_update (fun x => u_id x = user_id)
           (fun x => set_password encoded true (u_revision x + 1) x) (users d)) d));
  d ← get_state;
  row ← lift (user_ d user_id None);
  mret (public_user row).

Definition reset_password (e : AuthEnv) (salt : string) (actor : Principal) (user_id : string)
    (b : ResetPasswordRequest) : M auth_db AdminUser :=
  _ ← write_limit e actor;
  if decide (p_id actor = user_id)
  then mutation e actor ActResetPassword (Some user_id)
         (lift (Raise (ApiError "self_password_reset_forbidden" 403)))
  else
    encoded ← lift (hash_password argon2_hash e salt (rp_temporaryPassword b));
    mutation e actor ActResetPassword (Some user_id) (reset_body e user_id encoded b).

(** ** Sessions *)

Definition session_le (a b : family_row) : Prop :=
  f_created_at b < f_created_at a \/
  (f_created_at b = f_created_at a /\ ustr_le (u (f_id b)) (u (f_id a))).
#[export] Instance session_le_dec a b : Decision (session_le a b).
Proof. unfold session_le. apply _. Defined.

(** [created_at < ? OR (created_at = ? AND id < ?)] *)
Definition after_anchor (anchor f : family_row) : Prop :=
  f_created_at f < f_created_at anchor \/
  (f_created_at f = f_created_at anchor /\ ~ ustr_le (u (f_id anchor)) (u (f_id f))).
#[export] Instance after_anchor_dec a b : Decision (after_anchor a b).
Proof. unfold after_anchor. apply _. Defined.

Inductive session_status := Active | Revoked | Expired.
Definition status_of (now : Z) (f : family_row) : session_status :=
  match f_revoked_at f with
  | Some _ => Revoked
  | None => if decide (now >= f_expires_at f) then Expired else Active
  end.

Definition nonempty (o : option string) : option string :=
  match o with Some EmptyString => None | _ => o end.

(** The rows of one page, with its [nextCursor]. *)
Definition sessions_page (d : auth_db) (user_id cursor : option string) (limit : nat)
  : res (list family_row * option string) :=
  _ ← match nonempty user_id with Some i => _ ← user_ d i None; Ok tt | None => Ok tt end;
  let mine := filter (fun f => opt_is (nonempty user_id) (f_user_id f)) (families d) in
  selected ← match nonempty cursor with
    | None => Ok mine
    | Some c =>
        anchor ← require_some (family_by_id c d) (ApiError "invalid_request" 400);
        _ ← raise_if (~ opt_is (nonempty user_id) (f_user_id anchor))
              (ApiError "invalid_request" 400);
        Ok (filter (after_anchor anchor) mine)
    end;
  let rows := take (limit + 1) (py_sorted session_le selected) in
  Ok (take limit rows,
      if decide (limit < length rows)%nat then f_id <$> (rows !! (limit - 1)%nat) else None).

Definition with_status (now : Z) (page : list family_row * option string)
  : list (family_row * session_status) * option string :=
  ((fun f => (f, status_of now f)) <$> page.1, page.2).

Definition sessions (e : AuthEnv) (actor : Principal) (user_id cursor : option string) (limit : nat)
  : M auth_db (list (family_row * session_status) * option string) :=
  read_ e actor (fun d => with_status (clock e 2) <$> sessions_page d user_id cursor limit).

Definition revoke_body (e : AuthEnv) (family_id : string) : M auth_db unit :=
  d ← get_state;
  _ ← lift (require_some (family_by_id family_id d) (ApiError "not_found" 404));
  put_state (set_families (sql_update (fun f => f_id f = family_id /\ f_revoked_at f = None)
                             (set_revoked (clock e 2)) (families d)) d).

Definition revoke_session (e : AuthEnv) (actor : Principal) (family_id : string) : M auth_db unit :=
  _ ← write_limit e actor;
  mutation e actor ActRevoke (Some family_id) (revoke_body e family_id).

Definition audit_page (d : auth_db) (cursor : option Z) (limit : nat)
  : list audit_row * option Z :=
  let rows := take (limit + 1) (py_sorted newest_event
                (filter (fun r => au_id r < default (2 ^ 63 - 1) cursor) (admin_audit d))) in
  (take limit rows,
   if decide (limit < length rows)%nat then au_id <$> (rows !! (limit - 1)%nat) else None).

Definition audit (e : AuthEnv) (actor : Principal) (cursor : option Z) (limit : nat)
  : M auth_db (list audit_row * option Z) :=
  read_ e actor (fun d => Ok (audit_page d cursor limit)).
End admin.

(** ** The whole server database *)

Section server.
Variable sha256_hex : list Z -> string.
Variable rate_key : string -> list Z -> string.
Variable settings : Settings.

(** The bodies of the four administrative mutations. *)
Inductive admin_body (e : AuthEnv) : forall A, M auth_db A -> Prop :=
  | BodyCreate user_id encoded b : admin_body e _ (create_body e user_id encoded b)
  | BodyUpdate user_id b : admin_body e _ (update_body e user_id b)
  | BodyReset user_id encoded b : admin_body e _ (reset_body e user_id encoded b)
  | BodySelfReset A ex : admin_body e A (lift (Raise ex))
  | BodyRevoke family_id : admin_body e _ (revoke_body e family_id).

(** One committed or rolled-back transaction of any request, with what it
    reads of the clock and of the random source. *)
Inductive server_call (e : AuthEnv) : auth_db -> auth_db -> Prop :=
  | StepRateLimit cats d r d' :
      rate_limit rate_key e cats d = (r, d') -> server_call e d d'
  | StepLogin user_id old_hash replacement device d r d' :
      login_commit sha256_hex settings e user_id old_hash replacement device d = (r, d') ->
      server_call e d d'
  | StepRefresh digest d r d' :
      refresh_commit sha256_hex settings e digest d = (r, d') -> server_call e d d'
  | StepLogout p d r d' : logout e p d = (r, d') -> server_call e d d'
  | StepChange p read_hash encoded d r d' :
      change_commit sha256_hex settings e p read_hash encoded d = (r, d') -> server_call e d d'
  | StepAdmin actor action target A (body : M auth_db A) d r d' :
      admin_body e A body -> mutation e actor action target body d = (r, d') -> server_call e d d'.
Definition server_step (d d' : auth_db) : Prop := exists e, server_call e d d'.

(** A new server: one active administrator. *)
Definition fresh_server (x : user_row) : auth_db :=
  {| users := [x]; families := []; tokens := []; rate_limits := []; admin_audit := []; au_next := 1 |}.
Definition server_reachable (d : auth_db) : Prop :=
  exists x, active_admin x /\ rtc server_step (fresh_server x) d.

Lemma fresh_inv x : auth_inv (fresh_server x).
Proof.
  constructor; cbn; try apply NoDup_singleton; try apply NoDup_nil_2; try constructor.
  intros ?? H. inversion H.
Qed.

(** What a mutation leaves: the body's state or the old one, plus one event. *)
Lemma mutation_cases {A} e actor action target (body : M auth_db A) d r d' :
  mutation e actor action target body d = (r, d') ->
  (d' = d /\ exists ex, r = Raise ex) \/
  exists d1, d' = record_event
    {| au_id := au_next d1; au_action := action; au_success := is_ok r;
       au_timestamp := clock e 3; au_actor_id := p_id actor; au_target_id := target |} d1 /\
    assert_admin (clock e 1) d actor = Ok tt /\
    ((exists a, r = Ok a /\ body d = (Ok a, d1)) \/
     (exists c st dx, r = Raise (ApiError c st) /\ body d = (Raise (ApiError c st), dx) /\ d1 = d)).
Proof.
  unfold mutation, transaction, mbind, M_bind, get_state, lift, modify, mret, M_ret, savepoint.
  destruct (assert_admin (clock e 1) d actor) as [[]|ex]; [|intros; simplify_eq; left; eauto].
  destruct (body d) as [[a|ex] d1] eqn:Eb.
  - intros. simplify_eq. right. exists d1. split_and!; eauto.
  - destruct ex; intros; simplify_eq; try (left; by eauto).
    right. exists d. split_and!; try done. right. by eauto 10.
Qed.

Lemma insert_user_inv x l d : auth_inv d -> sql_insert user_clash x (users d) = Ok l ->
  auth_inv (set_users l d).
Proof.
  intros Hi [-> Hc]%sql_insert_ok.
  constructor; cbn; try apply Hi.
  - apply snoc_column; [apply Hi|]. eapply Forall_impl; [exact Hc|]. unfold user_clash. naive_solver.
  - apply snoc_column; [apply Hi|]. eapply Forall_impl; [exact Hc|]. unfold user_clash. naive_solver.
  - eapply Forall_impl; [apply (ai_owner _ Hi)|]. intros f. rewrite fmap_app. set_solver.
Qed.

(** The three ways a body changes the accounts. *)
Inductive users_change (d d1 : auth_db) : Prop :=
  | UsersSame : users d1 = users d -> users_change d d1
  | UsersAdded x : users d1 = users d ++ [x] -> users_change d d1
  | UsersUpdated i f : users d1 = sql_update (fun x => u_id x = i) f (users d) ->
      (forall x, x ∈ users d -> u_id x = i -> active_admin x -> ~ active_admin (f x) ->
         (1 < length (filter active_admin (users d)))%nat) -> users_change d d1.

Lemma user_ok d i rev x : user_ d i rev = Ok x -> user_by_id i d = Some x /\ opt_is rev (u_revision x).
Proof.
  unfold user_. intros Hu. inv_ok. split; [done|].
  match goal with H : ~ ~ _ |- _ => by apply dec_stable in H end.
Qed.

Lemma body_ok e A (body : M auth_db A) d a d1 :
  admin_body e A body -> auth_inv d -> body d = (Ok a, d1) -> auth_inv d1 /\ users_change d d1.
Proof.
  intros Hb Hi. destruct Hb as [i enc b|i b|i enc b|A ex|i]; intros Hop.
  - unfold create_body in Hop. inv_M. split; [by eapply insert_user_inv|].
    match goal with H : sql_insert _ _ _ = Ok _ |- _ => apply sql_insert_ok in H as [-> _] end.
    by eapply UsersAdded.
  - unfold update_body in Hop. inv_M.
    match goal with H : user_ ?d i (Some _) = Ok ?x |- _ => rename H into Hu; rename d into db; rename x into row end.
    match goal with H : ~ (active_admin _ /\ _) |- _ => rename H into Hlast end.
    match goal with H : user_ ?d i None = Ok _ |- _ => rename d into dn end.
    match goal with H : (if decide ?P then _ else _) _ = _ |- _ => destruct (decide P) end; inv_M; [|by split; [|apply UsersSame]].
    split; [apply (revoke_inv _ _ (set_users _ _)); by apply update_users_inv|].
    eapply UsersUpdated; [done|]. intros x Hx Hid Ha Hn.
    apply user_ok in Hu as [[Hrow Hri]%user_by_id_elem _].
    assert (x = row) as -> by (eapply (nodup_column_inj u_id); [apply (ai_users _ Hi)|done..|congruence]).
    destruct (decide (length (filter active_admin (users db)) <= 1)%nat) as [Hl|]; [|lia].
    exfalso. apply Hlast. split_and!; [done| |done].
    unfold active_admin, set_access in Hn. cbn in Hn.
    destruct (decide (default (u_role row) (uu_role b) = Admin)) as [Er|]; [|by left].
    right. destruct (default (u_disabled row) (uu_disabled b)); [done|]. by destruct Hn.
  - unfold reset_body in Hop. inv_M.
    split; [apply (revoke_inv _ _ (set_users _ _)); by apply update_users_inv|].
    eapply UsersUpdated; [done|]. intros x _ _ Ha Hn. by destruct Hn.
  - done.
  - unfold revoke_body in Hop. inv_M. split; [by apply revoke_inv|by apply UsersSame].
Qed.

Lemma users_change_admins d d1 : NoDup (u_id <$> users d) -> users_change d d1 ->
  (1 <= length (filter active_admin (users d)))%nat ->
  (1 <= length (filter active_admin (users d1)))%nat.
Proof.
  intros Hnd [->|x ->|i f -> Hlast] Hn; [done|rewrite filter_app, length_app; lia|].
  destruct (decide (Exists (fun x => u_id x <> i /\ active_admin x) (users d))) as [He|He].
  - apply Exists_exists in He as (x & Hx & Hne & Ha).
    assert (x ∈ filter active_admin (sql_update (fun x => u_id x = i) f (users d))) as Hin.
    { apply list_elem_of_filter. split; [done|].
      pose proof (sql_update_elem_2 (fun x => u_id x = i) f _ _ Hx) as Hel.
      by rewrite decide_False in Hel. }
    destruct (filter _ (sql_update _ _ _)); [inversion Hin|cbn; lia].
  - apply Forall_Exists_neg in He. rewrite Forall_forall in He.
    destruct (filter active_admin (users d)) as [|x l] eqn:E; [cbn in Hn; lia|].
    assert (x ∈ filter active_admin (users d)) as [Ha Hx]%list_elem_of_filter by (rewrite E; left).
    assert (u_id x = i) as Hid by (destruct (decide (u_id x = i)); [done|by destruct (He x)]).
    pose proof (sql_update_elem_2 (fun x => u_id x = i) f _ _ Hx) as Hel.
    rewrite decide_True in Hel by done.
    destruct (decide (active_admin (f x))) as [Hf|Hf].
    + assert (f x ∈ filter active_admin (sql_update (fun x => u_id x = i) f (users d))) as Hin
        by (by apply list_elem_of_filter).
      destruct (filter _ (sql_update _ _ _)); [inversion Hin|cbn; lia].
    + specialize (Hlast x Hx Hid Ha Hf). cbn in Hlast. exfalso.
      (* all active administrators carry the one id *)
      destruct l as [|y l]; [cbn in Hlast; lia|].
      assert (y ∈ filter active_admin (users d)) as [Hya Hy]%list_elem_of_filter
        by (rewrite E; right; left).
      assert (u_id y = i) as Hyi by (destruct (decide (u_id y = i)); [done|by destruct (He y)]).
      assert (NoDup (filter active_admin (users d))) as Hnf
        by (apply NoDup_filter; by eapply NoDup_fmap_1).
      rewrite E in Hnf. apply NoDup_cons in Hnf as [Hxl _]. apply Hxl.
      assert (x = y) as <- by (eapply (nodup_column_inj u_id); [exact Hnd|done..|congruence]). left.
Qed.

Lemma refresh_none e digest d d' :
  refresh_commit sha256_hex settings e digest d = (Ok None, d') ->
  d' = d \/ exists f, d' = revoke_family (clock e 1) (f_id f) d.
Proof.
  unfold refresh_commit. intros Hop. inv_M.
  match goal with H : context [lookup_ ?d digest _] |- _ => rename d into db end.
  destruct (lookup_ db digest refresh_hash) as [[[t f] x]|]; [|inv_M; by left].
  case_decide; [inv_M; by left|].
  case_decide; [inv_M; right; by eexists|].
  case_decide; [inv_M; right; by eexists|].
  destruct (u_must_change x); [by inv_M|]. case_decide; inv_M; [right; by eexists|congruence].
Qed.

Lemma body_audit e A (body : M auth_db A) d a d1 :
  admin_body e A body -> body d = (Ok a, d1) ->
  admin_audit d1 = admin_audit d /\ au_next d1 = au_next d.
Proof.
  intros Hb. destruct Hb; intros Hop.
  - unfold create_body in Hop. by inv_M.
  - unfold update_body in Hop. inv_M. case_decide; by inv_M.
  - unfold reset_body in Hop. by inv_M.
  - done.
  - unfold revoke_body in Hop. by inv_M.
Qed.

Record audit_inv (d : auth_db) : Prop := {
  av_ids : Forall (fun r => au_id r < au_next d) (admin_audit d);
  av_bound : (length (admin_audit d) <= MAX_AUDIT_EVENTS)%nat;
}.

#[export] Instance newest_event_total : Total newest_event.
Proof. intros a b. unfold newest_event. lia. Qed.
#[export] Instance newest_event_trans : Transitive newest_event.
Proof. intros a b c. unfold newest_event. lia. Qed.

Lemma record_event_inv r d : au_id r = au_next d -> audit_inv d -> audit_inv (record_event r d).
Proof.
  intros Hr []. unfold record_event.
  constructor; cbn [admin_audit au_next set_admin_audit]; [|apply keep_newest_length].
  apply Forall_forall. intros x [[Hx|Hx%list_elem_of_singleton]%elem_of_app _]%sql_delete_elem.
  - rewrite Forall_forall in av_ids0. specialize (av_ids0 _ Hx). lia.
  - subst x. lia.
Qed.

Lemma record_event_has r d : au_id r = au_next d -> audit_inv d -> r ∈ admin_audit (record_event r d).
Proof.
  intros Hr []. unfold record_event. cbn [admin_audit set_admin_audit].
  apply keep_newest_max; [apply _|apply _|intros ?? Hle; exact Hle|rewrite Hr; apply av_ids0|by apply Nat.ltb_lt].
Qed.

Lemma audit_same d d' : admin_audit d' = admin_audit d -> au_next d' = au_next d ->
  audit_inv d -> audit_inv d'.
Proof. intros Ha Hn []. constructor; by rewrite ?Ha, ?Hn. Qed.

Definition same_audit (d d' : auth_db) : Prop :=
  admin_audit d' = admin_audit d /\ au_next d' = au_next d.

Lemma drop_families_audit (l : list family_row) d :
  same_audit d (foldl (fun d f => drop_family (f_id f) d) d l).
Proof. revert d. induction l as [|f l IH]; intros d; cbn; [by split|]. apply (IH (drop_family (f_id f) d)). Qed.

Lemma new_family_audit e n x device d pair d' :
  new_family sha256_hex settings e n x device d = (Ok pair, d') -> same_audit d d'.
Proof.
  unfold new_family. intros Hop. inv_M.
  match type of Hop with issue_ _ _ _ _ _ _ _ (set_families _ ?d1) = _ => set (dd := d1) in * end.
  apply issue_ok in Hop as (_ & _ & Hd & _). unfold same_audit. rewrite Hd. cbn.
  apply drop_families_audit.
Qed.

(** What a step may do besides its effect on the audit table. *)
Lemma step_spec d d' : auth_inv d -> server_step d d' ->
  auth_inv d' /\ users_change d d' /\ (audit_inv d -> audit_inv d').
Proof.
  intros Hi [e Hs]. destruct Hs as [cats d r d' Hop|uid old repl dev d r d' Hop|dig d r d' Hop
    |p d r d' Hop|p old new d r d' Hop|actor action target A body d r d' Hb Hop].
  - apply rate_limit_frame in Hop as [l ->]. split_and!; [by apply set_rate_limits_inv|by apply UsersSame|].
    by apply audit_same.
  - split; [by eapply login_commit_inv|]. destruct r as [pair|ex].
    2: { apply transaction_raise in Hop as ->. by split; [apply UsersSame|]. }
    unfold login_commit in Hop. inv_M. destruct repl as [h|]; inv_M.
    + pose proof (new_family_audit _ _ _ _ _ _ _ Hop) as [? ?].
      apply new_family_ok in Hop as (_ & Hu & _); [|by apply update_users_inv].
      split; [|by apply audit_same]. eapply UsersUpdated; [exact Hu|].
      intros x _ _ Ha Hn. by destruct Hn.
    + pose proof (new_family_audit _ _ _ _ _ _ _ Hop) as [? ?].
      apply new_family_ok in Hop as (_ & Hu & _); [|done].
      split; [by apply UsersSame|by apply audit_same].
  - split; [by eapply refresh_commit_inv|]. destruct r as [[pair|]|ex].
    + apply refresh_some in Hop as (t & f & x & _ & _ & _ & _ & _ & _ & Hop).
      apply issue_ok in Hop as (_ & _ & Hd & _). split; [apply UsersSame; by rewrite Hd|].
      by apply audit_same; rewrite Hd.
    + apply refresh_none in Hop as [->|[f ->]]; (split; [by apply UsersSame|by apply audit_same]).
    + apply transaction_raise in Hop as ->. by split; [apply UsersSame|].
  - split; [by eapply logout_inv|]. destruct r as [pair|ex].
    2: { apply transaction_raise in Hop as ->. by split; [apply UsersSame|]. }
    unfold logout in Hop. inv_M. split; [by apply UsersSame|by apply audit_same].
  - split; [by eapply change_commit_inv|]. destruct r as [pair|ex].
    2: { apply transaction_raise in Hop as ->. by split; [apply UsersSame|]. }
    unfold change_commit in Hop. inv_M. pose proof (new_family_audit _ _ _ _ _ _ _ Hop) as [? ?].
    apply new_family_ok in Hop as (_ & Hu & _).
    2: { apply (revoke_inv _ _ (set_users _ _)). by apply update_users_inv. }
    split; [|by apply audit_same]. eapply UsersUpdated; [exact Hu|].
    intros x _ _ Ha Hn. by destruct Hn.
  - apply mutation_cases in Hop as [[-> _]|(d1 & -> & _ & [(a & -> & Hop)|(c & st & dx & -> & _ & ->)])].
    + by split_and!; [|apply UsersSame|].
    + destruct (body_ok _ _ _ _ _ _ Hb Hi Hop) as [? Hu]. split_and!; [by apply set_audit_inv|by destruct Hu; econstructor|].
      intros Hv. apply record_event_inv; [done|]. eapply audit_same; [..|exact Hv]; by eapply body_audit.
    + split_and!; [by apply set_audit_inv|by apply UsersSame|]. intros. by apply record_event_inv.
Qed.

Lemma reachable_spec d : server_reachable d ->
  auth_inv d /\ audit_inv d /\ (1 <= length (filter active_admin (users d)))%nat.
Proof.
  intros (x & Hx & Hs).
  assert (auth_inv (fresh_server x) /\ audit_inv (fresh_server x) /\
    (1 <= length (filter active_admin (users (fresh_server x))))%nat) as H0.
  { split_and!; [apply fresh_inv|constructor; [constructor|apply Nat.le_0_l]|].
    cbn [users fresh_server]. rewrite filter_cons, decide_True by done. cbn. lia. }
  revert H0. induction Hs as [|d d1 d2 Hst _ IH]; [done|]. intros (Hi & Hv & Hn). apply IH.
  apply step_spec in Hst as (? & Hu & ?); [|done]. split_and!; [done|auto|].
  eapply users_change_admins; [apply (ai_users _ Hi)|done..].
Qed.

(** C5 The session tables stay consistent under every request of every
    client, in any order, successful or not: identities and token digests are
    unique, every token belongs to a family and every family to a user, a
    refresh token expires with its family, and no family ever has two tokens
    that were not exchanged. *)
Theorem server_sessions_consistent d : server_reachable d -> auth_inv d.
Proof. intros Hr. by apply reachable_spec. Qed.

(** C9 The server is never left without an administrator who can log in: no
    sequence of requests demotes or disables the last one. *)
Theorem server_keeps_an_admin d :
  server_reachable d -> (1 <= length (filter active_admin (users d)))%nat.
Proof. intros Hr. by apply reachable_spec. Qed.

(** *** A refresh token that was exchanged *)

(** What a call may do to the family [fid] and to the token of digest [h] when
    it draws neither again: rows keep their owner, are never brought back to
    life, and the token stays as long as the family does. *)
Record tame (fid h : string) (d d' : auth_db) : Prop := {
  tm_token : forall t', t' ∈ tokens d' -> t_refresh_hash t' = h -> exists t, t ∈ tokens d /\ t_refresh_hash t = h /\
    t_family_id t' = t_family_id t /\ (t_rotated_at t <> None -> t_rotated_at t' <> None);
  tm_family : forall f', f' ∈ families d' -> f_id f' = fid -> exists f, f ∈ families d /\ f_id f = fid /\
    (f_revoked_at f <> None -> f_revoked_at f' <> None);
  tm_stays : forall t, t ∈ tokens d -> t_refresh_hash t = h -> t_family_id t = fid -> fid ∈ f_id <$> families d' ->
    exists t', t' ∈ tokens d' /\ t_refresh_hash t' = h /\ t_family_id t' = fid;
}.

Lemma tame_same fid h d d' : tokens d' = tokens d -> families d' = families d -> tame fid h d d'.
Proof. intros Ht Hf. split; rewrite ?Ht, ?Hf; eauto 10. Qed.
Lemma tame_trans fid h d1 d2 d3 : tame fid h d1 d2 -> tame fid h d2 d3 -> tame fid h d1 d3.
Proof.
  intros [T1 F1 S1] [T2 F2 S2]. split.
  - intros t3 H3 E3. destruct (T2 _ H3 E3) as (t2 & H2 & E2 & Hf & Hr). destruct (T1 _ H2 E2) as (t1 & ? & ? & ? & ?).
    exists t1. split_and!; [done..|congruence|auto].
  - intros f3 H3 E3. destruct (F2 _ H3 E3) as (f2 & H2 & E2 & Hr). destruct (F1 _ H2 E2) as (f1 & ? & ? & ?).
    exists f1. auto.
  - intros t H1 E Hf Hin. pose proof Hin as (f3 & E3 & H3)%list_elem_of_fmap.
    destruct (F2 f3 H3 (eq_sym E3)) as (f2 & H2 & E2 & _).
    destruct (S1 t H1 E Hf) as (t2 & ? & ? & ?); [apply list_elem_of_fmap; eauto|]. by apply (S2 t2).
Qed.

Lemma tame_families fid h d (P : family_row -> Prop) `{!forall x, Decision (P x)} now :
  tame fid h d (set_families (sql_update P (set_revoked now) (families d)) d).
Proof.
  split; cbn; [eauto 10| |eauto]. intros f' (f & Hf & ->)%sql_update_elem E.
  case_decide; exists f; (split_and!; [done..|by intros]).
Qed.
Lemma tame_rotate fid h d (P : token_row -> Prop) `{!forall x, Decision (P x)} now :
  tame fid h d (set_tokens (sql_update P (set_rotated now) (tokens d)) d).
Proof.
  split; cbn; [|eauto|].
  - intros t' (t & Ht & ->)%sql_update_elem E. case_decide; exists t; (split_and!; [done..|by intros]).
  - intros t Ht E Hf _. exists (if decide (P t) then set_rotated now t else t).
    split; [by apply sql_update_elem_2|]. by case_decide.
Qed.
Lemma tame_drop fid h d i : tame fid h d (drop_family i d).
Proof.
  split; cbn.
  - intros t [Ht _]%sql_delete_elem E. eauto 10.
  - intros f [Hf _]%sql_delete_elem E. eauto 10.
  - intros t Ht E Hf (f & Ef & [_ Hn]%sql_delete_elem)%list_elem_of_fmap. exists t. split; [|done].
    apply sql_delete_elem. split; [done|congruence].
Qed.
Lemma tame_drops fid h (l : list family_row) : forall d, tame fid h d (foldl (fun d f => drop_family (f_id f) d) d l).
Proof. induction l as [|f l IH]; intros d; cbn; [by apply tame_same|]. eapply tame_trans; [apply tame_drop|apply IH]. Qed.
Lemma tame_insert fid h d f : f_id f <> fid -> tame fid h d (set_families (families d ++ [f]) d).
Proof.
  intros Hn. split; cbn; [eauto 10| |eauto]. intros f' [Hf|Hf%list_elem_of_singleton]%elem_of_app E; [eauto|congruence].
Qed.
Lemma tame_issue fid h e n x i exp d pair d' : (forall k, sha256_hex (token_urlsafe e k) <> h) ->
  issue_ sha256_hex settings e n x i exp d = (Ok pair, d') -> tame fid h d d'.
Proof.
  intros Hh (_ & [Hd _]%sql_insert_ok & -> & _)%issue_ok. rewrite Hd. split; cbn; [|eauto|].
  - intros t' [Ht|Ht%list_elem_of_singleton]%elem_of_app E; [eauto 10|]. subst t'. by apply Hh in E.
  - intros t Ht E Hf _. exists t. split; [|done]. apply elem_of_app. by left.
Qed.
Lemma tame_new_family fid h e n x device d pair d' : (forall k, uuid4 e k <> fid) -> (forall k, sha256_hex (token_urlsafe e k) <> h) ->
  new_family sha256_hex settings e n x device d = (Ok pair, d') -> tame fid h d d'.
Proof.
  intros Hu Hh Hop. unfold new_family in Hop. inv_M.
  match goal with H : sql_insert _ _ _ = Ok _ |- _ => apply sql_insert_ok in H as [-> _] end.
  eapply tame_trans; [|by eapply tame_issue]. eapply tame_trans; [apply tame_drops|]. apply tame_insert, Hu.
Qed.

(** A disabled account has no session left. *)
Definition closed_out (d : auth_db) : Prop := forall f x, f ∈ families d -> x ∈ users d -> u_id x = f_user_id f ->
  u_disabled x = true -> f_revoked_at f <> None.
(** Every call leaves such a database, and does no more to a session than
    [tame] says. *)
Lemma call_tame fid h e d d' : (forall k, uuid4 e k <> fid) -> (forall k, sha256_hex (token_urlsafe e k) <> h) ->
  server_call e d d' -> tame fid h d d'.
Proof.
  intros Hu Hh Hs. destruct Hs as [cats d r d' Hop|uid old repl dev d r d' Hop|dig d r d' Hop
    |p d r d' Hop|p old new d r d' Hop|actor action target A body d r d' Hb Hop].
  - apply rate_limit_frame in Hop as [l ->]. by apply tame_same.
  - destruct r; [|apply transaction_raise in Hop as ->; by apply tame_same]. unfold login_commit in Hop. inv_M.
    destruct repl; inv_M; eapply tame_trans; [|by eapply tame_new_family| |by eapply tame_new_family]; by apply tame_same.
  - destruct r as [[pair|]|]; [| |apply transaction_raise in Hop as ->; by apply tame_same].
    + apply refresh_some in Hop as (t & f & x & _ & _ & _ & _ & _ & _ & Hop).
      eapply tame_trans; [|by eapply tame_issue]. apply tame_rotate.
    + apply refresh_none in Hop as [->|[f ->]]; [by apply tame_same|apply tame_families].
  - destruct r; [|apply transaction_raise in Hop as ->; by apply tame_same]. unfold logout in Hop. inv_M. apply tame_families.
  - destruct r; [|apply transaction_raise in Hop as ->; by apply tame_same]. unfold change_commit in Hop. inv_M.
    eapply tame_trans; [|by eapply tame_new_family].
    eapply (tame_trans _ _ _ (set_users _ _)); [|apply (tame_families _ _ (set_users _ _))]. by apply tame_same.
  - apply mutation_cases in Hop as [[-> _]|(d1 & -> & _ & [(a & -> & Hop)|(c & st & dx & -> & _ & ->)])]; [by apply tame_same| |by apply tame_same].
    apply (tame_trans _ _ _ d1); [|by apply tame_same]. destruct Hb as [i enc b|i b|i enc b|A ex|i].
    + unfold create_body in Hop. inv_M. by apply tame_same.
    + unfold update_body in Hop. inv_M. case_decide; inv_M; [|by apply tame_same].
      eapply (tame_trans _ _ _ (set_users _ _)); [|apply (tame_families _ _ (set_users _ _))]. by apply tame_same.
    + unfold reset_body in Hop. inv_M.
      eapply (tame_trans _ _ _ (set_users _ _)); [|apply (tame_families _ _ (set_users _ _))]. by apply tame_same.
    + done.
    + unfold revoke_body in Hop. inv_M. apply tame_families.
Qed.

Lemma closed_fewer d d' : users d' = users d -> (forall f', f' ∈ families d' -> exists f, f ∈ families d /\
  f_user_id f' = f_user_id f /\ (f_revoked_at f <> None -> f_revoked_at f' <> None)) -> closed_out d -> closed_out d'.
Proof.
  intros Hu Hf Hc f' x Hin Hx E Hd. destruct (Hf f' Hin) as (f & Hfin & Ef & Hr). rewrite Hu in Hx.
  apply Hr, (Hc f x); [done..|congruence|done].
Qed.
Lemma closed_revoke d (P : family_row -> Prop) `{!forall x, Decision (P x)} now : closed_out d ->
  closed_out (set_families (sql_update P (set_revoked now) (families d)) d).
Proof.
  apply closed_fewer; [done|]. intros f' (f & Hf & ->)%sql_update_elem. exists f. case_decide; (split_and!; [done..|by intros]).
Qed.
Lemma closed_users d (P : user_row -> Prop) `{!forall x, Decision (P x)} g : (forall x, u_id (g x) = u_id x /\ u_disabled (g x) = u_disabled x) ->
  closed_out d -> closed_out (set_users (sql_update P g (users d)) d).
Proof.
  intros Hg Hc f x' Hf (x & Hx & ->)%sql_update_elem E Hd. cbn in Hf. destruct (Hg x) as [E1 E2].
  apply (Hc f x); [done..|case_decide; congruence|case_decide; congruence].
Qed.
Lemma closed_new_family e n x device d pair d' : auth_inv d -> (forall y, y ∈ users d -> u_id y = u_id x -> u_disabled y = false) ->
  new_family sha256_hex settings e n x device d = (Ok pair, d') -> closed_out d -> closed_out d'.
Proof.
  intros Hi Hx Hop Hc. apply new_family_ok in Hop as (_ & Hu & _ & _ & _ & _ & _ & Hf & _); [|done].
  intros f y Hin Hy E Hdy. rewrite Hu in Hy. destruct (Hf f Hin) as [->|Hfd]; [|by apply (Hc f y)].
  rewrite (Hx y Hy E) in Hdy. done.
Qed.

(** The row of an account, whatever its password. *)
Lemma still_enabled d i x (P : user_row -> Prop) `{!forall x, Decision (P x)} g y : auth_inv d -> user_by_id i d = Some x -> u_disabled x = false ->
  (forall x, u_id (g x) = u_id x /\ u_disabled (g x) = u_disabled x) -> y ∈ sql_update P g (users d) -> u_id y = u_id x -> u_disabled y = false.
Proof.
  intros Hi [Hx _]%user_by_id_elem Hd Hg (z & Hz & ->)%sql_update_elem E. destruct (Hg z) as [E1 E2].
  assert (z = x) as -> by (apply (nodup_column_inj u_id (users d)); [apply Hi|done..|case_decide; congruence]).
  case_decide; congruence.
Qed.

Lemma call_closed e d d' : auth_inv d -> server_call e d d' -> closed_out d -> closed_out d'.
Proof.
  intros Hi Hs Hc. destruct Hs as [cats d r d' Hop|uid old repl dev d r d' Hop|dig d r d' Hop
    |p d r d' Hop|p old new d r d' Hop|actor action target A body d r d' Hb Hop].
  - by apply rate_limit_frame in Hop as [l ->].
  - destruct r; [|by apply transaction_raise in Hop as ->]. unfold login_commit in Hop. inv_M.
    match goal with H : ~ (u_disabled _ = true \/ _) |- _ => apply neither in H as [Hen _]; apply not_true_is_false in Hen end.
    destruct repl as [hash|]; inv_M; eapply closed_new_family in Hop; try done.
    + by apply update_users_inv.
    + intros y Hy E. eapply (still_enabled _ uid _ _ (fun x => set_password hash _ _ x)); [exact Hi|done|done| |exact Hy|exact E]. done.
    + by apply closed_users.
    + intros y Hy E. match goal with H : user_by_id _ _ = Some _ |- _ => apply user_by_id_elem in H as [Hx _] end.
      by rewrite (nodup_column_inj u_id _ y _ (ai_users _ Hi) Hy Hx E).
  - destruct r as [[pair|]|]; [| |by apply transaction_raise in Hop as ->].
    + apply refresh_some in Hop as (t & f & x & _ & _ & _ & _ & _ & _ & Hop).
      apply issue_ok in Hop as (_ & _ & -> & _). done.
    + apply refresh_none in Hop as [->|[f ->]]; [done|by apply closed_revoke].
  - destruct r; [|by apply transaction_raise in Hop as ->]. unfold logout in Hop. inv_M. by apply closed_revoke.
  - destruct r; [|by apply transaction_raise in Hop as ->]. unfold change_commit in Hop. inv_M.
    match goal with H : assert_current _ _ _ = Ok _ |- _ => apply assert_current_ok in H as (t & f & x & Ha) end.
    destruct Ha as (_ & _ & Hx & _ & Eu & _ & Ep & _ & [Hen _] & _).
    eapply closed_new_family in Hop; [done|..].
    + apply (revoke_inv _ _ (set_users _ _)). by apply update_users_inv.
    + intros y Hy E. match goal with H : user_by_id _ (set_families _ _) = Some _ |- _ => apply user_by_id_elem in H as [_ Ei] end.
      eapply (still_enabled _ (p_id p) x _ (fun x => set_password new false (u_revision x + 1) x)); [exact Hi| |exact Hen|done|exact Hy|congruence].
      apply (sql_one_unique u_id); [apply Hi|done|congruence].
    + apply (closed_revoke (set_users _ _)). by apply closed_users.
  - apply mutation_cases in Hop as [[-> _]|(d1 & -> & _ & [(a & -> & Hop)|(c & st & dx & -> & _ & ->)])]; [done| |done].
    enough (closed_out d1) by done. destruct Hb as [i enc b|i b|i enc b|A ex|i].
    + unfold create_body in Hop. inv_M. match goal with H : sql_insert _ _ _ = Ok _ |- _ => apply sql_insert_ok in H as [-> _] end.
      intros f x Hf [Hx|Hx%list_elem_of_singleton]%elem_of_app E Hd; [by apply (Hc f x)|by subst x].
    + unfold update_body in Hop. inv_M. case_decide; inv_M; [|done].
      intros f' x' (f & Hf & ->)%sql_update_elem (x & Hx & ->)%sql_update_elem E Hd. cbn in Hf.
      destruct (decide (f_user_id f = i /\ f_revoked_at f = None)) as [Hrev|Hrev]; [done|]. intros Hn.
      destruct (decide (u_id x = i)) as [Hid|Hid]; [|by apply (Hc f x)].
      apply Hrev. split; [cbn in E; congruence|done].
    + unfold reset_body in Hop. inv_M. apply (closed_revoke (set_users _ _)). by apply closed_users.
    + done.
    + unfold revoke_body in Hop. inv_M. by apply closed_revoke.
Qed.

Lemma reachable_closed d : server_reachable d -> closed_out d.
Proof.
  intros (x & _ & Hs). assert (closed_out (fresh_server x)) as Hc by (intros f y Hf; by apply elem_of_nil in Hf).
  pose proof (fresh_inv x) as Hi. revert Hi Hc. induction Hs as [|d d1 d2 Hst _ IH]; [done|]. intros Hi Hc.
  pose proof Hst as [e He]. apply IH; [by eapply step_spec|by eapply call_closed].
Qed.

(** A later call that draws neither the identity of the family nor the token
    again: UUIDs and session tokens are random and do not repeat. *)
Definition later_call (family_id digest : string) (d d' : auth_db) : Prop :=
  exists e, (forall k, uuid4 e k <> family_id) /\ (forall k, sha256_hex (token_urlsafe e k) <> digest) /\ server_call e d d'.

Lemma later_server_step fid h d d' : later_call fid h d d' -> server_step d d'.
Proof. intros (e & _ & _ & He). by exists e. Qed.
Lemma later_tame fid h d d' : rtc (later_call fid h) d d' -> tame fid h d d'.
Proof.
  induction 1 as [d|d1 d2 d3 (e & Hu & Hh & He) _ IH]; [by apply tame_same|].
  by eapply tame_trans; [eapply call_tame|].
Qed.
Lemma later_reachable fid h d d' : server_reachable d -> rtc (later_call fid h) d d' -> server_reachable d'.
Proof.
  intros (x & Hx & Hr) Hs. exists x. split; [done|]. etrans; [exact Hr|].
  clear -Hs. induction Hs as [|d1 d2 d3 Hst _ IH]; [done|]. eapply rtc_l; [by eapply later_server_step|done].
Qed.

(** The token was exchanged, and is kept as long as its family. *)
Definition spent (fid h : string) (d : auth_db) : Prop :=
  (forall t, t ∈ tokens d -> t_refresh_hash t = h -> t_family_id t = fid /\ t_rotated_at t <> None) /\
  (fid ∈ f_id <$> families d -> exists t, t ∈ tokens d /\ t_refresh_hash t = h).
Lemma spent_tame fid h d d' : tame fid h d d' -> spent fid h d -> spent fid h d'.
Proof.
  intros [T F S] [Ht Hf]. split.
  - intros t' Hin E. destruct (T t' Hin E) as (t & Htin & Et & Ef & Hr). destruct (Ht t Htin Et). split; [congruence|auto].
  - intros Hin. pose proof Hin as (f' & E' & Hf')%list_elem_of_fmap. destruct (F f' Hf' (eq_sym E')) as (f & Hfin & Ef & _).
    destruct Hf as (t & Htin & Et); [apply list_elem_of_fmap; eauto|]. destruct (Ht t Htin Et) as [Hfam _].
    destruct (S t Htin Et Hfam Hin) as (t' & ? & ? & _). eauto.
Qed.
(** No session of the family is left. *)
Definition ended (fid : string) (d : auth_db) : Prop := forall f, f ∈ families d -> f_id f = fid -> f_revoked_at f <> None.
Lemma ended_tame fid h d d' : tame fid h d d' -> ended fid d -> ended fid d'.
Proof. intros [_ F _] He f' Hf' E. destruct (F f' Hf' E) as (f & Hf & Ef & Hr). apply Hr. by apply He. Qed.

Lemma exchange_spends e digest d pair d1 : auth_inv d -> refresh_commit sha256_hex settings e digest d = (Ok (Some pair), d1) ->
  spent (sp_family_id pair) digest d1.
Proof.
  intros Hi Hop. pose proof (refresh_commit_inv _ _ _ _ _ _ _ Hi Hop) as Hi1.
  apply refresh_some in Hop as (t & f & x & Hl & _ & _ & _ & _ & _ & Hop).
  apply lookup_some in Hl as (Ht & Hdig & Hf & Hft & _). cbn in Hdig.
  apply issue_ok in Hop as (_ & [Htk _]%sql_insert_ok & _ & _ & _ & _ & _ & Hfam & _). cbn in Htk.
  set (t' := set_rotated (clock e 1) t).
  assert (t' ∈ tokens d1) as Ht'.
  { rewrite Htk. apply elem_of_app. left.
    pose proof (sql_update_elem_2 (fun t' => t_id t' = t_id t) (set_rotated (clock e 1)) _ _ Ht) as Hel.
    by rewrite decide_True in Hel. }
  split; [|intros _; by exists t'].
  intros v Hv E. rewrite (nodup_column_inj t_refresh_hash (tokens d1) v t') by (apply Hi1 || done || (cbn; congruence)).
  cbn. split; [congruence|done].
Qed.

(** The answer to a token that was exchanged. *)
Lemma replay_ends e fid h d : auth_inv d -> closed_out d -> spent fid h d ->
  exists d', refresh_commit sha256_hex settings e h d = (Ok None, d') /\ ended fid d'.
Proof.
  intros Hi Hc [Ht Hf]. unfold refresh_commit, transaction, mbind, M_bind, get_state.
  destruct (lookup_ d h refresh_hash) as [[[t f] x]|] eqn:Hl.
  - apply lookup_some in Hl as (Htin & Hdig & Hfin & Hft & Hx & Hu). destruct (Ht t Htin Hdig) as [Hfam Hrot].
    assert (forall g, g ∈ families d -> f_id g = fid -> g = f) as Hone.
    { intros g Hg Eg. apply (nodup_column_inj f_id (families d)); [apply Hi|done..|congruence]. }
    destruct (decide (u_disabled x = true \/ f_revoked_at f <> None)) as [Hdead|Hlive].
    + exists d. split; [done|]. intros g Hg Eg. rewrite (Hone g Hg Eg). destruct Hdead; [by apply (Hc f x)|done].
    + rewrite decide_True by done. exists (revoke_family (clock e 1) (f_id f) d). split; [done|].
      intros g (g0 & Hg0 & ->)%sql_update_elem Eg. destruct (decide (f_id g0 = f_id f)) as [|Hne]; [done|].
      destruct Hne. congruence.
  - exists d. split; [done|]. intros f Hfin E. destruct Hf as (t & Htin & Et); [apply list_elem_of_fmap; eauto|].
    destruct (Ht t Htin Et) as [Hfam _]. pose proof (ai_owner _ Hi) as Ho. rewrite Forall_forall in Ho.
    specialize (Ho f Hfin). apply list_elem_of_fmap in Ho as (x & Ex & Hx).
    pose proof (lookup_found d refresh_hash t f x Hi Htin Hfin ltac:(congruence) Hx (eq_sym Ex)) as Hlk.
    cbn in Hlk. congruence.
Qed.

(** C7 A refresh token works once.  Presenting a token that was already
    exchanged, whatever requests anyone made since, is answered with a
    rejection, and leaves the session family without a session: from then on
    no access token of that family is accepted, the newest one included,
    after any further requests and at any time.  The later requests draw fresh
    random values, neither the identity of the family nor the token again. *)
Theorem auth_refresh_replay_revokes e e2 digest d pair d1 d2 :
  server_reachable d -> refresh_commit sha256_hex settings e digest d = (Ok (Some pair), d1) ->
  rtc (later_call (sp_family_id pair) digest) d1 d2 ->
  exists d3, refresh_commit sha256_hex settings e2 digest d2 = (Ok None, d3) /\
    forall d4, rtc (later_call (sp_family_id pair) digest) d3 d4 ->
      forall e3 a p, authenticate sha256_hex e3 a d4 = Ok p -> p_family_id p <> sp_family_id pair.
Proof.
  intros Hr Hop Hs. pose proof (reachable_spec _ Hr) as (Hi & _). set (fid := sp_family_id pair) in *.
  assert (server_reachable d1) as Hr1.
  { destruct Hr as (x & Hx & Hrtc). exists x. split; [done|]. eapply rtc_r; [done|]. exists e. by eapply StepRefresh. }
  pose proof (later_reachable _ _ _ _ Hr1 Hs) as Hr2. pose proof (reachable_spec _ Hr2) as (Hi2 & _).
  destruct (spent_tame _ _ _ _ (later_tame _ _ _ _ Hs) (exchange_spends _ _ _ _ _ Hi Hop)) as [Ht Hf].
  enough (exists d3, refresh_commit sha256_hex settings e2 digest d2 = (Ok None, d3) /\ ended fid d3) as (d3 & Hd3 & He).
  { exists d3. split; [done|]. intros d4 Hs4 e3 a p Ha E.
    apply authenticate_ok in Ha as (t & f & x & _ & Hfin & _ & _ & _ & _ & (_ & Hn & _) & _ & Ep & _).
    apply (ended_tame _ _ _ _ (later_tame _ _ _ _ Hs4) He f Hfin); congruence. }
  apply replay_ends; [done|by apply reachable_closed|by split].
Qed.

(** A denied administrative action leaves exactly one trace.  Its writes
    are rolled back, the tables of accounts, sessions and limits are what they
    were, and the newest audit event, still within the 10,000 kept, is its
    denial. *)
Theorem admin_denied_rolls_back e A (body : M auth_db A) actor action target d c st d' :
  server_reachable d -> assert_admin (clock e 1) d actor = Ok tt ->
  mutation e actor action target body d = (Raise (ApiError c st), d') ->
  users d' = users d /\ families d' = families d /\ tokens d' = tokens d /\
  rate_limits d' = rate_limits d /\ (length (admin_audit d') <= MAX_AUDIT_EVENTS)%nat /\
  (body d).1 = Raise (ApiError c st) /\
  {| au_id := au_next d; au_action := action; au_success := false; au_timestamp := clock e 3;
     au_actor_id := p_id actor; au_target_id := target |} ∈ admin_audit d'.
Proof.
  intros (Hi & Hv & _)%reachable_spec Hadm Hop.
  unfold mutation, transaction, mbind, M_bind, get_state, lift, modify, mret, M_ret, savepoint in Hop.
  rewrite Hadm in Hop. destruct (body d) as [[a|ex] d1] eqn:Eb; [done|].
  destruct ex; simplify_eq. split_and!; try done.
  - by apply av_bound, record_event_inv.
  - apply record_event_has; [done|exact Hv].
Qed.

(** *** Paging through the sessions *)

#[export] Instance session_le_total : Total session_le.
Proof.
  intros a b. unfold session_le. destruct (Z.lt_trichotomy (f_created_at a) (f_created_at b)) as [|[|]]; [tauto| |tauto].
  destruct (ustr_le_total (u (f_id b)) (u (f_id a))); intuition.
Qed.
#[export] Instance session_le_trans : Transitive session_le.
Proof.
  intros a b c. unfold session_le. intros [?|[? Hab]] [?|[? Hbc]]; [lia..|right].
  split; [congruence|]. by etrans.
Qed.

Lemma session_le_antisym a b : session_le a b -> session_le b a -> f_id a = f_id b.
Proof.
  unfold session_le. intros [?|[? Hab]] [?|[? Hba]]; try lia. apply u_inj. by apply ustr_le_antisym.
Qed.

Lemma after_anchor_iff a f : after_anchor a f <-> ~ session_le f a.
Proof.
  unfold after_anchor, session_le. split; [intros [?|[? ?]] [?|[? ?]]; try lia; done|].
  intros Hn. destruct (Z.lt_trichotomy (f_created_at f) (f_created_at a)) as [|[|]]; [by left| |tauto].
  right. split; [done|]. intros Hle. apply Hn. right. by split; [congruence|].
Qed.

Definition all_sessions (d : auth_db) (user_id : option string) : list family_row :=
  py_sorted session_le (filter (fun f => opt_is (nonempty user_id) (f_user_id f)) (families d)).

Lemma rest_after (pre rest : list family_row) a l :
  NoDup (f_id <$> l) -> py_sorted session_le l = pre ++ a :: rest ->
  py_sorted session_le (filter (after_anchor a) l) = rest.
Proof.
  intros Hn Hs. pose proof (py_sorted_strong session_le l) as Hss.
  pose proof (py_sorted_perm session_le l) as Hp. rewrite Hs in Hp, Hss.
  apply StronglySorted_app in Hss as (Hord & Hpre & Hss).
  apply StronglySorted_inv in Hss as [Hrs Har]. rewrite Forall_forall in Har.
  assert (forall x y, x ∈ l -> y ∈ l -> session_le x y -> session_le y x -> x = y) as Hanti.
  { intros. eapply (nodup_column_inj f_id); [exact Hn|done..|by apply session_le_antisym]. }
  assert (filter (after_anchor a) l ≡ₚ rest) as Hf.
  { rewrite <- Hp, filter_app, filter_cons, decide_False.
    - assert (filter (after_anchor a) pre = []) as ->.
      { apply elem_of_nil_inv. intros x [Hx Hxp]%list_elem_of_filter.
        apply after_anchor_iff in Hx. apply Hx. apply Hord; [done|left]. }
      cbn. assert (Forall (after_anchor a) rest) as Hall.
      { apply Forall_forall. intros x Hx. apply after_anchor_iff. intros Hxa.
        assert (a = x) as <- by (apply Hanti; [rewrite <- Hp; set_solver..|by apply Har|done]).
        assert (NoDup (pre ++ a :: rest)) as Hnd by (rewrite Hp; by eapply NoDup_fmap_1).
        apply NoDup_app in Hnd as (_ & _ & Hnd). apply NoDup_cons in Hnd as [? _]. done. }
      clear - Hall. induction Hall as [|x l' Hx _ IH]; [done|]. by rewrite filter_cons, decide_True, IH.
    - rewrite after_anchor_iff. intros Ha. apply Ha. by destruct (session_le_total a a). }
  eapply StronglySorted_unique_strong; [|apply py_sorted_strong; apply _|exact Hrs|by rewrite py_sorted_perm].
  intros x y Hx Hy. rewrite py_sorted_elem, list_elem_of_filter in Hx.
  apply Hanti; [apply Hx|]. rewrite <- Hp. set_solver.
Qed.

(** What a client does: ask again with every [nextCursor]. *)
Fixpoint drain (fuel : nat) (d : auth_db) (user_id cursor : option string) (limit : nat)
  : list family_row :=
  match fuel with
  | O => []
  | S fuel' =>
      match sessions_page d user_id cursor limit with
      | Ok (rows, None) => rows
      | Ok (rows, Some c) => rows ++ drain fuel' d user_id (Some c) limit
      | Raise _ => []
      end
  end.

Definition page_of (rest : list family_row) (limit : nat) : list family_row * option string :=
  (take limit rest,
   if decide (limit < length rest)%nat then f_id <$> (rest !! (limit - 1)%nat) else None).

Lemma page_take rest limit : (0 < limit)%nat ->
  (take limit (take (limit + 1) rest),
   if decide (limit < length (take (limit + 1) rest))%nat
   then f_id <$> (take (limit + 1) rest !! (limit - 1)%nat) else None) = page_of rest limit.
Proof.
  intros Hl. unfold page_of. rewrite take_take, length_take.
  replace (Nat.min limit (limit + 1)) with limit by lia. f_equal.
  rewrite lookup_take_lt by lia. repeat case_decide; try done; lia.
Qed.

Lemma sessions_page_suffix d user_id cursor limit pre rest :
  auth_inv d -> (0 < limit)%nat -> Forall (fun f => f_id f <> ""%string) (families d) ->
  match nonempty user_id with Some i => is_Some (user_by_id i d) | None => True end ->
  all_sessions d user_id = pre ++ rest ->
  match cursor with None => pre = [] | Some c => exists p a, pre = p ++ [a] /\ c = f_id a end ->
  sessions_page d user_id cursor limit = Ok (page_of rest limit).
Proof.
  intros Hi Hl Hne Hu Hall Hc. unfold sessions_page.
  assert (match nonempty user_id with Some i => _ ← user_ d i None; Ok tt | None => Ok tt end
          = Ok tt) as ->.
  { destruct (nonempty user_id) as [i|]; [|done]. destruct Hu as [x Hx]. unfold user_. by rewrite Hx. }
  cbn [mbind res_bind]. destruct cursor as [c|].
  - destruct Hc as (p & a & -> & ->).
    rewrite <- app_assoc in Hall. cbn in Hall.
    assert (a ∈ filter (fun f => opt_is (nonempty user_id) (f_user_id f)) (families d)) as Ha.
    { rewrite <- py_sorted_elem. unfold all_sessions in Hall. rewrite Hall. set_solver. }
    apply list_elem_of_filter in Ha as [Hau Ha].
    rewrite Forall_forall in Hne. specialize (Hne a Ha).
    assert (nonempty (Some (f_id a)) = Some (f_id a)) as -> by (cbn; by destruct (f_id a)).
    assert (family_by_id (f_id a) d = Some a) as Hlk by (by apply (sql_one_unique f_id); [apply (ai_families _ Hi)|..]).
    rewrite Hlk. cbn [mbind res_bind require_some]. rewrite raise_if_no by tauto. cbn [mbind res_bind].
    rewrite (rest_after p rest a); [by rewrite page_take| |exact Hall].
    eapply sublist_NoDup; [apply (ai_families _ Hi)|]. apply fmap_sublist, sublist_filter.
  - subst pre. cbn [nonempty mbind res_bind]. cbn in Hall. unfold all_sessions in Hall.
    rewrite Hall. by rewrite page_take.
Qed.

(** Paging loses nothing and repeats nothing: asking again with every
    [nextCursor] until there is none yields every session of the selection
    exactly once, newest first, for every page size. *)
Theorem admin_sessions_paging d user_id limit fuel :
  auth_inv d -> (0 < limit)%nat -> Forall (fun f => f_id f <> ""%string) (families d) ->
  match nonempty user_id with Some i => is_Some (user_by_id i d) | None => True end ->
  (length (families d) < fuel)%nat ->
  drain fuel d user_id None limit = all_sessions d user_id /\
  all_sessions d user_id ≡ₚ filter (fun f => opt_is (nonempty user_id) (f_user_id f)) (families d).
Proof.
  intros Hi Hl Hne Hu Hfuel. split; [|apply py_sorted_perm].
  enough (forall fuel pre rest cursor, all_sessions d user_id = pre ++ rest ->
    (length rest < fuel)%nat ->
    match cursor with None => pre = [] | Some c => exists p a, pre = p ++ [a] /\ c = f_id a end ->
    drain fuel d user_id cursor limit = rest) as Hgen.
  { apply (Hgen fuel []); [done| |done].
    eapply Nat.le_lt_trans; [|exact Hfuel]. unfold all_sessions. rewrite py_sorted_length. apply length_filter. }
  clear fuel Hfuel. induction fuel as [|fuel IH]; intros pre rest cursor Hall Hf Hc; [lia|]. cbn.
  rewrite (sessions_page_suffix d user_id cursor limit pre rest) by done. unfold page_of.
  case_decide as Hd.
  - destruct (rest !! (limit - 1)%nat) as [a|] eqn:E; [|apply lookup_ge_None in E; lia]. cbn.
    rewrite (IH (pre ++ take limit rest) (drop limit rest)); [apply take_drop| | |].
    + by rewrite <- app_assoc, take_drop.
    + rewrite length_drop. lia.
    + exists (pre ++ take (limit - 1) rest), a. split; [|done].
      rewrite <- app_assoc. f_equal.
      replace limit with (S (limit - 1)) at 1 by lia. by apply take_S_r.
  - apply take_ge. lia.
Qed.
End server.

(** ** A worked administration *)

Module AdminExample.
Definition reached := server_reachable AuthExample.text AuthExample.key AuthExample.cfg.
Lemma admin_reach1 : reached AuthExample.d1.
Proof.
  exists AuthExample.alice. split; [done|].
  eapply rtc_l.
  - exists (AuthExample.env 1000 "a"). eapply (StepRateLimit _ _ _ _
      [("login_ip", u "10.0.0.2", 5); ("login_account", u "alice", 10); ("login_global", u "all", 30)]%string).
    apply surjective_pairing.
  - eapply rtc_l; [|apply rtc_refl].
    exists (AuthExample.env 1000 "a"). eapply (StepLogin _ _ _ _ "1" "argon2:secret" None (u "tablet")).
    vm_compute. reflexivity.
Qed.
(** After the exchange of [refresh-a] the user logs in on a phone, and the
    token that the exchange gave is exchanged too. *)
Definition phone := login_commit AuthExample.text AuthExample.cfg (AuthExample.env 1150 "z") "1" "argon2:secret" None (u "phone").
Definition d3 : auth_db := (phone AuthExample.d2).2.
Definition again := refresh_commit AuthExample.text AuthExample.cfg (AuthExample.env 1200 "d") "refresh-b".
Definition d4 : auth_db := (again d3).2.
Lemma since_exchange : rtc (later_call AuthExample.text AuthExample.key AuthExample.cfg "family-a" "refresh-a") AuthExample.d2 d4.
Proof.
  eapply rtc_l; [|eapply rtc_l; [|apply rtc_refl]].
  - exists (AuthExample.env 1150 "z"). split_and!; [by intros []|by intros []|].
    eapply (StepLogin _ _ _ _ "1" "argon2:secret" None (u "phone") AuthExample.d2). apply surjective_pairing.
  - exists (AuthExample.env 1200 "d"). split_and!; [by intros []|by intros []|].
    eapply (StepRefresh _ _ _ _ "refresh-b" d3). apply surjective_pairing.
Qed.
Definition demote : UpdateUserRequest :=
  {| uu_expectedRevision := 1; uu_role := Some Member; uu_disabled := None |}.
Definition demote_last := mutation (AuthExample.env 1010 "m") AuthExample.me ActUpdate (Some "1"%string)
  (update_body (AuthExample.env 1010 "m") "1" demote).
End AdminExample.

Lemma server_sessions_consistent_witness : auth_inv AuthExample.d1.
Proof.
  exact (server_sessions_consistent AuthExample.text AuthExample.key AuthExample.cfg
           AuthExample.d1 AdminExample.admin_reach1).
Defined.

Lemma server_keeps_an_admin_witness :
  (1 <= length (filter active_admin (users AuthExample.d1)))%nat.
Proof.
  exact (server_keeps_an_admin AuthExample.text AuthExample.key AuthExample.cfg
           AuthExample.d1 AdminExample.admin_reach1).
Defined.

Lemma auth_refresh_replay_revokes_witness : exists d,
  refresh_commit AuthExample.text AuthExample.cfg (AuthExample.env 1300 "c") "refresh-a" AdminExample.d4 = (Ok None, d) /\
  (forall p, authenticate AuthExample.text (AuthExample.env 1250 "x") (u "access-d") AdminExample.d4 = Ok p -> p_family_id p = "family-a"%string) /\
  forall p, authenticate AuthExample.text (AuthExample.env 1250 "x") (u "access-d") d = Ok p -> p_family_id p <> "family-a"%string.
Proof.
  destruct (auth_refresh_replay_revokes AuthExample.text AuthExample.key AuthExample.cfg (AuthExample.env 1100 "b")
    (AuthExample.env 1300 "c") "refresh-a" AuthExample.d1 AuthExample.pair2 AuthExample.d2 AdminExample.d4
    AdminExample.admin_reach1) as (d & E & Hno).
  - vm_compute. reflexivity.
  - exact AdminExample.since_exchange.
  - exists d. split_and!; [exact E| |].
    + intros p Hp. vm_compute in Hp. injection Hp as <-. reflexivity.
    + intros p Hp. apply (Hno d (rtc_refl _ d) (AuthExample.env 1250 "x") (u "access-d") p Hp).
Defined.

Lemma admin_denied_rolls_back_witness :
  users (AdminExample.demote_last AuthExample.d1).2 = users AuthExample.d1.
Proof.
  refine (proj1 (admin_denied_rolls_back AuthExample.text AuthExample.key AuthExample.cfg
    (AuthExample.env 1010 "m") _ (update_body (AuthExample.env 1010 "m") "1" AdminExample.demote)
    AuthExample.me ActUpdate (Some "1"%string) AuthExample.d1 "last_active_admin" 409
    (AdminExample.demote_last AuthExample.d1).2 AdminExample.admin_reach1 _ _)).
  - vm_compute. reflexivity.
  - vm_compute. reflexivity.
Defined.

Lemma admin_sessions_paging_witness :
  drain 2 AuthExample.d1 None None 1 = all_sessions AuthExample.d1 None.
Proof.
  apply (admin_sessions_paging AuthExample.d1 None 1 2).
  - exact AuthExample.inv1.
  - apply Nat.lt_0_1.
  - vm_compute. repeat constructor. discriminate.
  - exact I.
  - vm_compute. repeat constructor.
Defined.
