(* ===== verification/Energy.v ===== *)
(** * Energy priorities: the advisory planner

    [server/larenor_server/energy_priorities/models.py] and [planner.py]: one
    slot at a time, the planner charges a battery from solar surplus and
    discharges it in the dearest slots, or follows a manual override, and
    projects the state of charge.  Energies are whole Wh and powers whole W;
    Python's [//] on them is [Z.div].  The authority and the inputs come from
    resolver callbacks, SHA-256 of the inputs' JSON text is a parameter. *)

From S2P Require Import Prelude.

Definition EnergyWh (n : Z) : Prop := 0 <= n <= 10 ^ 12.
Definition PowerW (n : Z) : Prop := 0 <= n <= 10 ^ 9.
Definition Price (n : Z) : Prop := - 10 ^ 9 <= n <= 10 ^ 9.
#[export] Instance EnergyWh_dec n : Decision (EnergyWh n).
Proof. unfold EnergyWh. apply _. Defined.
#[export] Instance PowerW_dec n : Decision (PowerW n).
Proof. unfold PowerW. apply _. Defined.
#[export] Instance Price_dec n : Decision (Price n).
Proof. unfold Price. apply _. Defined.

Inductive home_role := RoleAdmin | RoleMember.
#[export] Instance home_role_eq_dec : EqDecision home_role.
Proof. solve_decision. Defined.

(** ** Contracts *)

Record EnergyAuthority := {
  ea_coreId : string;
  ea_homeId : string;
  ea_homeRevision : Z;
  ea_accountId : string;
  ea_accountRevision : Z;
  ea_memberRevision : Z;
  ea_sessionFamilyId : string;
  ea_role : home_role;
  ea_active : bool;
  ea_canPlan : bool;
  ea_canControl : bool;
}.
#[export] Instance EnergyAuthority_eq_dec : EqDecision EnergyAuthority.
Proof. solve_decision. Defined.

Definition EnergyAuthority_valid (a : EnergyAuthority) : Prop :=
  Identity (ea_coreId a) /\ Identity (ea_homeId a) /\ Revision (ea_homeRevision a) /\
  Identity (ea_accountId a) /\ Revision (ea_accountRevision a) /\
  Revision (ea_memberRevision a) /\ Identity (ea_sessionFamilyId a).
#[export] Instance EnergyAuthority_valid_dec a : Decision (EnergyAuthority_valid a).
Proof. unfold EnergyAuthority_valid. solve_dec. Defined.
#[export] Instance EnergyAuthority_model : Model EnergyAuthority :=
  {| model_valid := EnergyAuthority_valid |}.

Record MeterInput := {
  mi_resourceId : string;
  mi_revision : Z;
  mi_providerRevision : Z;
  mi_capturedAtMs : Z;
  mi_gridImportPowerW : Z;
  mi_gridExportPowerW : Z;
}.
#[export] Instance MeterInput_eq_dec : EqDecision MeterInput.
Proof. solve_decision. Defined.
Definition MeterInput_valid (m : MeterInput) : Prop :=
  Identity (mi_resourceId m) /\ Revision (mi_revision m) /\ Revision (mi_providerRevision m) /\
  TimestampMs (mi_capturedAtMs m) /\ PowerW (mi_gridImportPowerW m) /\
  PowerW (mi_gridExportPowerW m) /\
  ~ (mi_gridImportPowerW m <> 0 /\ mi_gridExportPowerW m <> 0).
#[export] Instance MeterInput_valid_dec a : Decision (MeterInput_valid a).
Proof. unfold MeterInput_valid. solve_dec. Defined.

Record SolarForecastInput := {
  sf_resourceId : string;
  sf_revision : Z;
  sf_providerRevision : Z;
  sf_generatedAtMs : Z;
  sf_startsAtMs : Z;
  sf_slotDurationSeconds : Z;
  solarEnergyWh : list Z;
  loadEnergyWh : list Z;
}.
#[export] Instance SolarForecastInput_eq_dec : EqDecision SolarForecastInput.
Proof. solve_decision. Defined.
Definition slot_list (P : Z -> Prop) (l : list Z) : Prop :=
  (1 <= length l <= 96)%nat /\ Forall P l.
#[export] Instance slot_list_dec P `{!forall x, Decision (P x)} l : Decision (slot_list P l).
Proof. unfold slot_list. solve_dec. Defined.
Definition SolarForecastInput_valid (f : SolarForecastInput) : Prop :=
  Identity (sf_resourceId f) /\ Revision (sf_revision f) /\ Revision (sf_providerRevision f) /\
  TimestampMs (sf_generatedAtMs f) /\ TimestampMs (sf_startsAtMs f) /\
  300 <= sf_slotDurationSeconds f <= 3600 /\
  slot_list EnergyWh (solarEnergyWh f) /\ slot_list EnergyWh (loadEnergyWh f) /\
  length (solarEnergyWh f) = length (loadEnergyWh f).
#[export] Instance SolarForecastInput_valid_dec a : Decision (SolarForecastInput_valid a).
Proof. unfold SolarForecastInput_valid. solve_dec. Defined.

Record TariffInput := {
  tf_resourceId : string;
  tf_revision : Z;
  tf_startsAtMs : Z;
  tf_slotDurationSeconds : Z;
  importPriceMicrosPerKwh : list Z;
  exportPriceMicrosPerKwh : list Z;
}.
#[export] Instance TariffInput_eq_dec : EqDecision TariffInput.
Proof. solve_decision. Defined.
Definition TariffInput_valid (t : TariffInput) : Prop :=
  Identity (tf_resourceId t) /\ Revision (tf_revision t) /\ TimestampMs (tf_startsAtMs t) /\
  300 <= tf_slotDurationSeconds t <= 3600 /\
  slot_list Price (importPriceMicrosPerKwh t) /\ slot_list Price (exportPriceMicrosPerKwh t) /\
  length (importPriceMicrosPerKwh t) = length (exportPriceMicrosPerKwh t).
#[export] Instance TariffInput_valid_dec a : Decision (TariffInput_valid a).
Proof. unfold TariffInput_valid. solve_dec. Defined.

Record BatteryInput := {
  bt_resourceId : string;
  bt_revision : Z;
  bt_providerRevision : Z;
  bt_capturedAtMs : Z;
  capacityWh : Z;
  stateOfChargeWh : Z;
  minimumSocWh : Z;
  maximumSocWh : Z;
  maxChargePowerW : Z;
  maxDischargePowerW : Z;
}.
#[export] Instance BatteryInput_eq_dec : EqDecision BatteryInput.
Proof. solve_decision. Defined.
Definition BatteryInput_valid (b : BatteryInput) : Prop :=
  Identity (bt_resourceId b) /\ Revision (bt_revision b) /\ Revision (bt_providerRevision b) /\
  TimestampMs (bt_capturedAtMs b) /\ EnergyWh (capacityWh b) /\ EnergyWh (stateOfChargeWh b) /\
  EnergyWh (minimumSocWh b) /\ EnergyWh (maximumSocWh b) /\
  PowerW (maxChargePowerW b) /\ PowerW (maxDischargePowerW b) /\
  0 < capacityWh b /\ minimumSocWh b <= stateOfChargeWh b <= maximumSocWh b /\
  minimumSocWh b < maximumSocWh b <= capacityWh b /\
  maxChargePowerW b > 0 /\ maxDischargePowerW b > 0.
#[export] Instance BatteryInput_valid_dec a : Decision (BatteryInput_valid a).
Proof. unfold BatteryInput_valid. solve_dec. Defined.

Record ReservePolicy := { rv_revision : Z; backupReservePercent : Z }.
#[export] Instance ReservePolicy_eq_dec : EqDecision ReservePolicy.
Proof. solve_decision. Defined.
Definition ReservePolicy_valid (r : ReservePolicy) : Prop :=
  Revision (rv_revision r) /\ 0 <= backupReservePercent r <= 100.
#[export] Instance ReservePolicy_valid_dec a : Decision (ReservePolicy_valid a).
Proof. unfold ReservePolicy_valid. solve_dec. Defined.

Inductive battery_action := Charge | Discharge | Hold.
#[export] Instance battery_action_eq_dec : EqDecision battery_action.
Proof. solve_decision. Defined.

Record ManualOverride := {
  mo_revision : Z;
  mo_mode : battery_action;
  mo_powerW : Z;
  mo_expiresAtMs : Z;
}.
#[export] Instance ManualOverride_eq_dec : EqDecision ManualOverride.
Proof. solve_decision. Defined.
Definition ManualOverride_valid (o : ManualOverride) : Prop :=
  Revision (mo_revision o) /\ PowerW (mo_powerW o) /\ TimestampMs (mo_expiresAtMs o) /\
  ~ (mo_mode o = Hold /\ mo_powerW o <> 0) /\ ~ (mo_mode o <> Hold /\ mo_powerW o = 0).
#[export] Instance ManualOverride_valid_dec a : Decision (ManualOverride_valid a).
Proof. unfold ManualOverride_valid. solve_dec. Defined.

Record EnergyInputs := {
  ei_coreId : string;
  ei_homeId : string;
  ei_homeRevision : Z;
  meter : MeterInput;
  forecast : SolarForecastInput;
  tariff : TariffInput;
  battery : BatteryInput;
  reserve : ReservePolicy;
  manualOverride : option ManualOverride;
}.
#[export] Instance EnergyInputs_eq_dec : EqDecision EnergyInputs.
Proof. solve_decision. Defined.

Definition coherent_inputs (i : EnergyInputs) : Prop :=
  length (importPriceMicrosPerKwh (tariff i)) = length (solarEnergyWh (forecast i)) /\
  tf_startsAtMs (tariff i) = sf_startsAtMs (forecast i) /\
  tf_slotDurationSeconds (tariff i) = sf_slotDurationSeconds (forecast i).
Definition EnergyInputs_valid (i : EnergyInputs) : Prop :=
  Identity (ei_coreId i) /\ Identity (ei_homeId i) /\ Revision (ei_homeRevision i) /\
  MeterInput_valid (meter i) /\ SolarForecastInput_valid (forecast i) /\
  TariffInput_valid (tariff i) /\ BatteryInput_valid (battery i) /\
  ReservePolicy_valid (reserve i) /\
  match manualOverride i with Some o => ManualOverride_valid o | None => True end /\
  coherent_inputs i.
#[export] Instance EnergyInputs_valid_dec a : Decision (EnergyInputs_valid a).
Proof. unfold EnergyInputs_valid, coherent_inputs. solve_dec. Defined.
#[export] Instance EnergyInputs_model : Model EnergyInputs := {| model_valid := EnergyInputs_valid |}.

Inductive slot_reason :=
  | solar_surplus | high_tariff_deficit | manual_override | safety_limit | balanced.
#[export] Instance slot_reason_eq_dec : EqDecision slot_reason.
Proof. solve_decision. Defined.

Record EnergyPlanSlot := {
  sl_index : Z;
  sl_startsAtMs : Z;
  sl_action : battery_action;
  sl_powerW : Z;
  sl_projectedSocWh : Z;
  sl_reason : slot_reason;
}.
#[export] Instance EnergyPlanSlot_eq_dec : EqDecision EnergyPlanSlot.
Proof. solve_decision. Defined.
Definition EnergyPlanSlot_valid (s : EnergyPlanSlot) : Prop :=
  0 <= sl_index s <= 95 /\ TimestampMs (sl_startsAtMs s) /\ PowerW (sl_powerW s) /\
  EnergyWh (sl_projectedSocWh s).
#[export] Instance EnergyPlanSlot_valid_dec a : Decision (EnergyPlanSlot_valid a).
Proof. unfold EnergyPlanSlot_valid. solve_dec. Defined.
#[export] Instance EnergyPlanSlot_model : Model EnergyPlanSlot :=
  {| model_valid := EnergyPlanSlot_valid |}.

Inductive override_status := NoOverride | OverrideActive | OverrideExpired.
#[export] Instance override_status_eq_dec : EqDecision override_status.
Proof. solve_decision. Defined.

Record EnergyPlan := {
  pl_planId : string;
  pl_coreId : string;
  pl_homeId : string;
  pl_homeRevision : Z;
  pl_batteryId : string;
  pl_batteryRevision : Z;
  pl_batteryProviderRevision : Z;
  pl_meterRevision : Z;
  pl_forecastRevision : Z;
  pl_forecastProviderRevision : Z;
  pl_tariffRevision : Z;
  pl_reserveRevision : Z;
  pl_overrideRevision : option Z;
  pl_inputDigest : string;
  pl_overrideStatus : override_status;
  pl_overrideExpiresAtMs : option Z;
  pl_slots : list EnergyPlanSlot;
}.
#[export] Instance EnergyPlan_eq_dec : EqDecision EnergyPlan.
Proof. solve_decision. Defined.
Definition EnergyPlan_valid (p : EnergyPlan) : Prop :=
  Identity (pl_planId p) /\ Identity (pl_coreId p) /\ Identity (pl_homeId p) /\
  Revision (pl_homeRevision p) /\ Identity (pl_batteryId p) /\ Revision (pl_batteryRevision p) /\
  Revision (pl_batteryProviderRevision p) /\ Revision (pl_meterRevision p) /\
  Revision (pl_forecastRevision p) /\ Revision (pl_forecastProviderRevision p) /\
  Revision (pl_tariffRevision p) /\ Revision (pl_reserveRevision p) /\
  match pl_overrideRevision p with Some r => Revision r | None => True end /\
  Snapshot (pl_inputDigest p) /\
  match pl_overrideExpiresAtMs p with Some t => TimestampMs t | None => True end /\
  (1 <= length (pl_slots p) <= 96)%nat /\ Forall EnergyPlanSlot_valid (pl_slots p).
#[export] Instance EnergyPlan_valid_dec a : Decision (EnergyPlan_valid a).
Proof. unfold EnergyPlan_valid. solve_dec. Defined.
#[export] Instance EnergyPlan_model : Model EnergyPlan := {| model_valid := EnergyPlan_valid |}.

(** ** The planner *)

Definition ms_per_slot (s : Z) : Z := s * 1000.

(** The choice of one slot: action, power, reason and the new state of charge.
    [override] is the manual override when it is active. *)
Definition slot_choice (b : BatteryInput) (slot_seconds reserve high_price low_price : Z)
    (override : option ManualOverride) (soc solar load price : Z)
  : battery_action * Z * slot_reason * Z :=
  let max_charge_wh := maxChargePowerW b * slot_seconds / 3600 in
  let max_discharge_wh := maxDischargePowerW b * slot_seconds / 3600 in
  match override with
  | Some o =>
      let requested_wh := mo_powerW o * slot_seconds / 3600 in
      match mo_mode o with
      | Charge =>
          let amount := Z.min (Z.min requested_wh max_charge_wh) (maximumSocWh b - soc) in
          if amount >? 0
          then (Charge, amount * 3600 / slot_seconds, manual_override, soc + amount)
          else (Hold, 0, manual_override, soc)
      | Discharge =>
          let amount := Z.min (Z.min requested_wh max_discharge_wh) (soc - reserve) in
          if amount >? 0
          then (Discharge, amount * 3600 / slot_seconds, manual_override, soc - amount)
          else (Hold, 0, manual_override, soc)
      | Hold => (Hold, 0, manual_override, soc)
      end
  | None =>
      let surplus := Z.max (solar - load) 0 in
      let deficit := Z.max (load - solar) 0 in
      if negb (surplus =? 0) then
        let amount := Z.min (Z.min surplus max_charge_wh) (maximumSocWh b - soc) in
        if amount >? 0
        then (Charge, amount * 3600 / slot_seconds, solar_surplus, soc + amount)
        else (Hold, 0, safety_limit, soc)
      else if negb (deficit =? 0) && (price =? high_price) && (high_price >? low_price) then
        let amount := Z.min (Z.min deficit max_discharge_wh) (soc - reserve) in
        if amount >? 0
        then (Discharge, amount * 3600 / slot_seconds, high_tariff_deficit, soc - amount)
        else (Hold, 0, safety_limit, soc)
      else (Hold, 0, balanced, soc)
  end.

(** [max(l)] and [min(l)] of a non-empty list *)
Definition py_max (l : list Z) : Z := match l with [] => 0 | x :: l' => foldl Z.max x l' end.
Definition py_min (l : list Z) : Z := match l with [] => 0 | x :: l' => foldl Z.min x l' end.

Definition reserve_of (i : EnergyInputs) : Z :=
  Z.max (minimumSocWh (battery i))
    (capacityWh (battery i) * backupReservePercent (reserve i) / 100).

Definition active_override (now : Z) (i : EnergyInputs) : override_status :=
  match manualOverride i with
  | None => NoOverride
  | Some o => if now <? mo_expiresAtMs o then OverrideActive else OverrideExpired
  end.

Definition choose (i : EnergyInputs) (status : override_status) (soc : Z) (x : Z * Z * Z)
  : battery_action * Z * slot_reason * Z :=
  slot_choice (battery i) (sf_slotDurationSeconds (forecast i)) (reserve_of i)
    (py_max (importPriceMicrosPerKwh (tariff i))) (py_min (importPriceMicrosPerKwh (tariff i)))
    (if decide (status = OverrideActive) then manualOverride i else None)
    soc x.1.1 x.1.2 x.2.

(** The loop of [plan]; [index] counts the slots done. *)
Fixpoint plan_slots (i : EnergyInputs) (status : override_status) (index soc : Z)
    (rows : list (Z * Z * Z)) : res (list EnergyPlanSlot) :=
  match rows with
  | [] => Ok []
  | x :: rows' =>
      let '(action, power, reason, soc') := choose i status soc x in
      s ← model_validate (Shaped
        {| sl_index := index;
           sl_startsAtMs := sf_startsAtMs (forecast i)
                            + index * ms_per_slot (sf_slotDurationSeconds (forecast i));
           sl_action := action; sl_powerW := power; sl_projectedSocWh := soc';
           sl_reason := reason |});
      l ← plan_slots i status (index + 1) soc' rows';
      Ok (s :: l)
  end.

(** [zip(solar, load, price, strict=True)] *)
Definition slot_rows (i : EnergyInputs) : list (Z * Z * Z) :=
  zip (zip (solarEnergyWh (forecast i)) (loadEnergyWh (forecast i)))
      (importPriceMicrosPerKwh (tariff i)).

Section planner.
(** SHA-256 of the inputs' JSON, and of the plan payload cut to 32 digits. *)
Variable sha256_inputs : EnergyInputs -> string.
Variable sha256_plan : string -> override_status -> string.
Variable resolve_authority : string -> resolved EnergyAuthority.
Variable resolve_inputs : string -> resolved EnergyInputs.

(** [_authority] up to the permission checks, which the planner and the
    command manager make differently. *)
Definition current_authority (presented : raw EnergyAuthority) : res EnergyAuthority :=
  p ← except_any (
        a ← model_validate presented;
        c ← validate_optional (resolve_authority (ea_accountId a));
        Ok (a, c)) (ApiError "forbidden" 403);
  current ← require_some p.2 (ApiError "forbidden" 403);
  _ ← raise_if (current <> p.1) (ApiError "revision_conflict" 409);
  Ok p.1.

Definition authority_ (presented : raw EnergyAuthority) : res EnergyAuthority :=
  a ← current_authority presented;
  _ ← raise_if (ea_active a = false \/ ea_canPlan a = false) (ApiError "forbidden" 403);
  Ok a.

Definition plan (now : Z) (presented : raw EnergyAuthority) (raw_inputs : raw EnergyInputs)
  : res EnergyPlan :=
  a ← authority_ presented;
  i ← except_any (model_validate raw_inputs) (ApiError "invalid_request" 400);
  c ← except_any (validate_optional (resolve_inputs (bt_resourceId (battery i))))
        (ApiError "server_unavailable" 503);
  current ← require_some c (ApiError "not_found" 404);
  _ ← raise_if (current <> i \/
                (ei_coreId i, ei_homeId i, ei_homeRevision i)
                <> (ea_coreId a, ea_homeId a, ea_homeRevision a)) (ApiError "revision_conflict" 409);
  let status := active_override now i in
  let digest := sha256_inputs i in
  slots ← plan_slots i status 0 (stateOfChargeWh (battery i)) (slot_rows i);
  model_validate (Shaped
    {| pl_planId := sha256_plan digest status; pl_coreId := ei_coreId i;
       pl_homeId := ei_homeId i; pl_homeRevision := ei_homeRevision i;
       pl_batteryId := bt_resourceId (battery i); pl_batteryRevision := bt_revision (battery i);
       pl_batteryProviderRevision := bt_providerRevision (battery i);
       pl_meterRevision := mi_revision (meter i); pl_forecastRevision := sf_revision (forecast i);
       pl_forecastProviderRevision := sf_providerRevision (forecast i);
       pl_tariffRevision := tf_revision (tariff i); pl_reserveRevision := rv_revision (reserve i);
       pl_overrideRevision := mo_revision <$> manualOverride i; pl_inputDigest := digest;
       pl_overrideStatus := status;
       pl_overrideExpiresAtMs := mo_expiresAtMs <$> manualOverride i; pl_slots := slots |}).
End planner.

(** ** What a slot may do *)

Lemma power_bound amount p s :
  0 < s -> 0 <= amount <= p * s / 3600 ->
  0 <= amount * 3600 / s <= p /\ amount * 3600 / s * s <= amount * 3600.
Proof.
  intros Hs [H0 H1]. split; [split|].
  - apply Z.div_pos; lia.
  - apply Z.div_le_upper_bound; [done|]. pose proof (Z.mul_div_le (p * s) 3600). lia.
  - pose proof (Z.mul_div_le (amount * 3600) s Hs). lia.
Qed.

(** The safety and policy contract of one slot, from the charge before it. *)
Definition slot_safe (i : EnergyInputs) (status : override_status) (soc : Z) (x : Z * Z * Z)
    (s : EnergyPlanSlot) : Prop :=
  let '(solar, load, price) := x in
  let moved := Z.abs (sl_projectedSocWh s - soc) in
  sl_powerW s * sf_slotDurationSeconds (forecast i) <= moved * 3600 /\
  match sl_action s with
  | Charge =>
      soc < sl_projectedSocWh s <= maximumSocWh (battery i) /\
      0 <= sl_powerW s <= maxChargePowerW (battery i) /\
      (status <> OverrideActive -> moved <= solar - load)
  | Discharge =>
      reserve_of i <= sl_projectedSocWh s < soc /\
      0 <= sl_powerW s <= maxDischargePowerW (battery i) /\
      (status <> OverrideActive -> moved <= load - solar /\
         price = py_max (importPriceMicrosPerKwh (tariff i)) /\
         py_min (importPriceMicrosPerKwh (tariff i)) < price)
  | Hold => sl_projectedSocWh s = soc /\ sl_powerW s = 0
  end.

Fixpoint slots_safe (i : EnergyInputs) (status : override_status) (soc : Z)
    (rows : list (Z * Z * Z)) (slots : list EnergyPlanSlot) : Prop :=
  match rows, slots with
  | [], [] => True
  | x :: rows', s :: slots' =>
      slot_safe i status soc x s /\ slots_safe i status (sl_projectedSocWh s) rows' slots'
  | _, _ => False
  end.

Definition slot_of (i : EnergyInputs) (index : Z) (c : battery_action * Z * slot_reason * Z)
  : EnergyPlanSlot :=
  let '(action, power, reason, soc') := c in
  {| sl_index := index;
     sl_startsAtMs := sf_startsAtMs (forecast i) + index * ms_per_slot (sf_slotDurationSeconds (forecast i));
     sl_action := action; sl_powerW := power; sl_projectedSocWh := soc'; sl_reason := reason |}.

Lemma hold_safe i status soc x index r : slot_safe i status soc x (slot_of i index (Hold, 0, r, soc)).
Proof. destruct x as [[solar load] price]. unfold slot_safe, slot_of. cbn. lia. Qed.

Lemma charge_safe i status soc solar load price index r am :
  0 < sf_slotDurationSeconds (forecast i) ->
  0 < am <= maxChargePowerW (battery i) * sf_slotDurationSeconds (forecast i) / 3600 ->
  am <= maximumSocWh (battery i) - soc -> (status <> OverrideActive -> am <= solar - load) ->
  slot_safe i status soc (solar, load, price)
    (slot_of i index (Charge, am * 3600 / sf_slotDurationSeconds (forecast i), r, soc + am)).
Proof.
  intros Hs Ham Hm Hd. destruct (power_bound am _ _ Hs ltac:(by split; [lia|apply Ham])) as [? ?].
  unfold slot_safe, slot_of. cbn [sl_powerW sl_action sl_projectedSocWh].
  replace (Z.abs (soc + am - soc)) with am by lia. split_and!; try lia; auto.
Qed.

Lemma discharge_safe i status soc solar load price index r am :
  0 < sf_slotDurationSeconds (forecast i) ->
  0 < am <= maxDischargePowerW (battery i) * sf_slotDurationSeconds (forecast i) / 3600 ->
  am <= soc - reserve_of i -> (status <> OverrideActive -> am <= load - solar /\
    price = py_max (importPriceMicrosPerKwh (tariff i)) /\
    py_min (importPriceMicrosPerKwh (tariff i)) < price) ->
  slot_safe i status soc (solar, load, price)
    (slot_of i index (Discharge, am * 3600 / sf_slotDurationSeconds (forecast i), r, soc - am)).
Proof.
  intros Hs Ham Hm Hd. destruct (power_bound am _ _ Hs ltac:(by split; [lia|apply Ham])) as [? ?].
  unfold slot_safe, slot_of. cbn [sl_powerW sl_action sl_projectedSocWh].
  replace (Z.abs (soc - am - soc)) with am by lia. split_and!; try lia; auto.
Qed.

Lemma choose_safe i status soc x index :
  EnergyInputs_valid i -> slot_safe i status soc x (slot_of i index (choose i status soc x)).
Proof.
  intros (_ & _ & _ & _ & Hf & _ & Hb & _).
  assert (0 < sf_slotDurationSeconds (forecast i)) as Hs by (destruct Hf as (_ & _ & _ & _ & _ & ? & _); lia).
  unfold choose, slot_choice. destruct x as [[solar load] price]. cbn [fst snd].
  destruct (if decide (status = OverrideActive) then manualOverride i else None) as [o|] eqn:Eo.
  - assert (status = OverrideActive) as -> by (destruct (decide (status = OverrideActive)); done).
    destruct (mo_mode o); [..|by apply hold_safe];
      match goal with |- context [?a >? 0] => set (am := a); destruct (Z.gtb_spec am 0) end;
      try (by apply hold_safe).
    + apply charge_safe; unfold am; [done|lia|lia|done].
    + apply discharge_safe; unfold am; [done|lia|lia|done].
  - destruct (Z.eqb_spec (Z.max (solar - load) 0) 0); cbn [negb].
    + destruct (Z.eqb_spec (Z.max (load - solar) 0) 0); cbn [negb andb]; [by apply hold_safe|].
      destruct (Z.eqb_spec price (py_max (importPriceMicrosPerKwh (tariff i)))); cbn [andb];
        [|by apply hold_safe].
      destruct (Z.gtb_spec (py_max (importPriceMicrosPerKwh (tariff i)))
                  (py_min (importPriceMicrosPerKwh (tariff i)))); [|by apply hold_safe].
      match goal with |- context [?a >? 0] => set (am := a); destruct (Z.gtb_spec am 0) end;
        [|by apply hold_safe].
      apply discharge_safe; unfold am; [done|lia|lia|intros; split_and!; [lia|done|lia]].
    + match goal with |- context [?a >? 0] => set (am := a); destruct (Z.gtb_spec am 0) end;
        [|by apply hold_safe].
      apply charge_safe; unfold am; [done|lia|lia|intros; lia].
Qed.

Lemma plan_slots_cons i status index soc x rows :
  plan_slots i status index soc (x :: rows) =
  (s ← model_validate (Shaped (slot_of i index (choose i status soc x)));
   l ← plan_slots i status (index + 1) (sl_projectedSocWh s) rows; Ok (s :: l)).
Proof.
  cbn [plan_slots]. unfold slot_of.
  destruct (choose i status soc x) as [[[action power] reason] soc'].
  unfold model_validate. case_decide; done.
Qed.

Lemma plan_slots_safe i status index soc rows slots :
  EnergyInputs_valid i -> plan_slots i status index soc rows = Ok slots ->
  slots_safe i status soc rows slots.
Proof.
  intros Hi. revert index soc slots. induction rows as [|x rows IH]; intros index soc slots Hp.
  - cbn in Hp. by inv_ok.
  - rewrite plan_slots_cons in Hp. inv_ok.
    match goal with H : model_validate _ = Ok _ |- _ => apply model_validate_ok in H as [[= <-] _] end.
    split; [by apply choose_safe|]. by eapply IH.
Qed.

Lemma slots_safe_range i status soc rows slots :
  slots_safe i status soc rows slots -> soc <= maximumSocWh (battery i) ->
  Forall (fun s => Z.min soc (reserve_of i) <= sl_projectedSocWh s <= maximumSocWh (battery i)) slots.
Proof.
  revert soc slots. induction rows as [|x rows IH]; intros soc [|s slots] Hs Hm; cbn in Hs; try done.
  destruct Hs as [Hx Hs]. destruct x as [[solar load] price]. cbn in Hx. destruct Hx as [_ Hx].
  assert (Z.min soc (reserve_of i) <= sl_projectedSocWh s <= maximumSocWh (battery i)) as Hr
    by (destruct (sl_action s); lia).
  constructor; [done|]. eapply Forall_impl; [apply IH; [exact Hs|lia]|]. cbn. lia.
Qed.

Lemma choose_valid i status soc x index :
  EnergyInputs_valid i -> 0 <= soc <= maximumSocWh (battery i) -> 0 <= index <= 95 ->
  sf_startsAtMs (forecast i) + 96 * 3600 * 1000 <= 2 ^ 63 - 1 ->
  EnergyPlanSlot_valid (slot_of i index (choose i status soc x)) /\
  sl_projectedSocWh (slot_of i index (choose i status soc x)) <= maximumSocWh (battery i).
Proof.
  intros Hi Hsoc Hix Hst.
  pose proof (choose_safe i status soc x index Hi) as Hsafe.
  destruct Hi as (_ & _ & _ & _ & Hf & _ & Hb & Hr & _).
  destruct Hf as (_ & _ & _ & _ & Hst0 & Hs & _).
  destruct Hb as (_ & _ & _ & _ & Hc & _ & Hmin & Hmax & Hpc & Hpd & ? & ? & ? & _ & _).
  destruct Hr as [_ Hrp].
  assert (0 <= reserve_of i) as Hres.
  { unfold reserve_of. unfold EnergyWh in Hmin. lia. }
  destruct x as [[solar load] price]. destruct Hsafe as [_ Hsafe].
  assert (sl_index (slot_of i index (choose i status soc (solar, load, price))) = index /\
    sl_startsAtMs (slot_of i index (choose i status soc (solar, load, price)))
    = sf_startsAtMs (forecast i) + index * ms_per_slot (sf_slotDurationSeconds (forecast i))) as [E1 E2].
  { unfold slot_of. by destruct (choose _ _ _ _) as [[[] ?] ?]. }
  unfold EnergyPlanSlot_valid. rewrite E1, E2. unfold ms_per_slot, TimestampMs, PowerW, EnergyWh in *.
  set (sl := slot_of _ _ _) in *. clearbody sl.
  assert (index * (sf_slotDurationSeconds (forecast i) * 1000) <= 95 * 3600 * 1000) by nia.
  destruct (sl_action sl); split_and!; try lia; nia.
Qed.

Lemma plan_slots_total i status index soc rows :
  EnergyInputs_valid i -> sf_startsAtMs (forecast i) + 96 * 3600 * 1000 <= 2 ^ 63 - 1 ->
  0 <= soc <= maximumSocWh (battery i) -> 0 <= index -> index + Z.of_nat (length rows) <= 96 ->
  exists slots, plan_slots i status index soc rows = Ok slots /\ Forall EnergyPlanSlot_valid slots /\
    length slots = length rows /\
    forall k s, slots !! k = Some s ->
      sl_index s = index + Z.of_nat k /\
      sl_startsAtMs s = sf_startsAtMs (forecast i)
        + (index + Z.of_nat k) * ms_per_slot (sf_slotDurationSeconds (forecast i)).
Proof.
  intros Hi Hst. revert index soc. induction rows as [|x rows IH]; intros index soc Hsoc H0 Hl.
  - exists []. by split_and!.
  - cbn [length] in Hl. rewrite plan_slots_cons.
    destruct (choose_valid i status soc x index Hi Hsoc) as [Hv Hm]; [lia|done|].
    set (s := slot_of i index (choose i status soc x)) in *.
    assert (model_validate (Shaped s) = Ok s) as ->
      by (by apply model_validate_ok). cbn [mbind res_bind].
    destruct (IH (index + 1) (sl_projectedSocWh s)) as (slots & -> & Hvs & Hlen & Hix); [|lia..|].
    { destruct Hv as (_ & _ & _ & ?). unfold EnergyWh in *. lia. }
    exists (s :: slots). split_and!; [done|by constructor|cbn; lia|].
    intros [|k] s' Hk; cbn in Hk.
    + injection Hk as <-. unfold s, slot_of. destruct (choose _ _ _ _) as [[[] ?] ?]. cbn. split; [lia|]. f_equal. lia.
    + apply Hix in Hk as [-> ->]. split; [lia|]. do 2 f_equal. lia.
Qed.

Section plans.
Variable sha256_inputs : EnergyInputs -> string.
Variable sha256_plan : string -> override_status -> string.
Variable resolve_authority : string -> resolved EnergyAuthority.
Variable resolve_inputs : string -> resolved EnergyInputs.

Lemma current_authority_ok presented a : current_authority resolve_authority presented = Ok a ->
  presented = Shaped a /\ EnergyAuthority_valid a /\
  resolve_authority (ea_accountId a) = Resolved (Shaped a).
Proof.
  unfold current_authority. intros Hc. apply bind_ok in Hc as ([p c] & Hp & Hc).
  apply except_any_ok in Hp. inv_ok. cbn in *. subst.
  match goal with H : model_validate _ = Ok _ |- _ => apply model_validate_ok in H as [-> Hv] end.
  match goal with H : validate_optional _ = Ok _ |- _ => apply validate_optional_some in H as [Hr _] end.
  match goal with H : ~ _ <> _ |- _ => apply dec_stable in H; subst end. done.
Qed.

Lemma authority_ok presented a : authority_ resolve_authority presented = Ok a ->
  presented = Shaped a /\ EnergyAuthority_valid a /\
  resolve_authority (ea_accountId a) = Resolved (Shaped a) /\ ea_active a = true /\ ea_canPlan a = true.
Proof.
  unfold authority_. intros Ha. apply bind_ok in Ha as (b & Hb & Ha). inv_ok.
  apply current_authority_ok in Hb as (? & ? & ?).
  split_and!; try done; destruct (ea_active a), (ea_canPlan a); intuition.
Qed.

Lemma plan_ok now ra ri p : plan sha256_inputs sha256_plan resolve_authority resolve_inputs now ra ri = Ok p ->
  exists i, ri = Shaped i /\ EnergyInputs_valid i /\
    plan_slots i (active_override now i) 0 (stateOfChargeWh (battery i)) (slot_rows i) = Ok (pl_slots p) /\
    pl_overrideStatus p = active_override now i.
Proof.
  unfold plan. intros Hp. inv_ok.
  match goal with H : model_validate _ = Ok ?i |- _ => apply model_validate_ok in H as [-> Hv]; exists i end.
  apply model_validate_ok in Hp as [[= <-] _]. done.
Qed.

(** C13 Every plan the planner returns is safe, for all inputs: the projected
    charge stays at or below the maximum and never goes below the reserve
    unless it started there; charging and discharging stay within the
    battery's power limits and command no more power than the slot's energy
    step; without an active override the battery charges only from that slot's
    solar surplus and discharges only into its deficit, in a dearest slot of a
    tariff that is not flat; a held slot moves nothing. *)
Theorem energy_plan_safe now ra ri p :
  plan sha256_inputs sha256_plan resolve_authority resolve_inputs now ra ri = Ok p ->
  exists i, ri = Shaped i /\
    slots_safe i (pl_overrideStatus p) (stateOfChargeWh (battery i)) (slot_rows i) (pl_slots p) /\
    Forall (fun s => Z.min (stateOfChargeWh (battery i)) (reserve_of i) <= sl_projectedSocWh s
                     <= maximumSocWh (battery i)) (pl_slots p).
Proof.
  intros (i & -> & Hv & Hs & Ho)%plan_ok. exists i. split; [done|]. rewrite Ho.
  apply plan_slots_safe in Hs; [|done]. split; [done|].
  eapply slots_safe_range; [exact Hs|]. destruct Hv as (_ & _ & _ & _ & _ & _ & Hb & _).
  destruct Hb as (_ & _ & _ & _ & _ & _ & _ & _ & _ & _ & _ & ? & _). lia.
Qed.

Hypothesis inputs_hex : forall i, Snapshot (sha256_inputs i).
Hypothesis plan_hex : forall d s, Identity (sha256_plan d s).

Lemma slot_rows_length i : EnergyInputs_valid i ->
  length (slot_rows i) = length (solarEnergyWh (forecast i)).
Proof.
  intros (_ & _ & _ & _ & (_ & _ & _ & _ & _ & _ & _ & _ & Hl) & _ & _ & _ & _ & (Hc & _)).
  unfold slot_rows. rewrite !length_zip. lia.
Qed.

(** C39 A member who may plan always gets a plan: for valid inputs that are
    the current ones of the member's home, and start times that fit 63 bits,
    [plan] returns one slot per forecast slot, numbered and spaced without a
    gap.  In particular no slot it computes violates the slot model. *)
Theorem energy_plan_total now a i :
  EnergyAuthority_valid a -> resolve_authority (ea_accountId a) = Resolved (Shaped a) ->
  ea_active a = true -> ea_canPlan a = true -> EnergyInputs_valid i ->
  resolve_inputs (bt_resourceId (battery i)) = Resolved (Shaped i) ->
  (ei_coreId i, ei_homeId i, ei_homeRevision i) = (ea_coreId a, ea_homeId a, ea_homeRevision a) ->
  sf_startsAtMs (forecast i) + 96 * 3600 * 1000 <= 2 ^ 63 - 1 ->
  exists p, plan sha256_inputs sha256_plan resolve_authority resolve_inputs now (Shaped a) (Shaped i) = Ok p /\
    length (pl_slots p) = length (solarEnergyWh (forecast i)) /\
    forall k s, pl_slots p !! k = Some s -> sl_index s = Z.of_nat k /\
      sl_startsAtMs s = sf_startsAtMs (forecast i)
                        + Z.of_nat k * ms_per_slot (sf_slotDurationSeconds (forecast i)).
Proof.
  intros Ha Hra Hact Hcan Hi Hri Hsc Hst. unfold plan, authority_, current_authority.
  assert (model_validate (Shaped a) = Ok a) as -> by (by apply model_validate_ok).
  assert (model_validate (Shaped i) = Ok i) as -> by (by apply model_validate_ok).
  cbn [mbind res_bind]. rewrite Hra.
  assert (validate_optional (Resolved (Shaped a)) = Ok (Some a)) as -> by (by apply validate_optional_some).
  cbn [mbind res_bind except_any require_some snd fst].
  rewrite (raise_if_no (a <> a)) by tauto. cbn [mbind res_bind].
  rewrite Hact, Hcan, raise_if_no by (by intros [?|?]). cbn [mbind res_bind]. rewrite Hri.
  assert (validate_optional (Resolved (Shaped i)) = Ok (Some i)) as -> by (by apply validate_optional_some).
  cbn [mbind res_bind except_any require_some snd fst].
  rewrite raise_if_no by (intros [?|?]; done). cbn [mbind res_bind].
  pose proof (slot_rows_length i Hi) as Hlen.
  pose proof Hi as (Hcore & Hhome & Hrev & Hmeter & Hf & Htar & Hb & Hres & Hov & _).
  assert ((1 <= length (solarEnergyWh (forecast i)) <= 96)%nat) as Hn by apply Hf.
  destruct (plan_slots_total i (active_override now i) 0 (stateOfChargeWh (battery i)) (slot_rows i))
    as (slots & -> & Hvs & Hsl & Hix); [done..| |lia|lia|].
  { destruct Hb as (_ & _ & _ & _ & _ & ? & _ & _ & _ & _ & _ & ? & _). unfold EnergyWh in *. lia. }
  cbn [mbind res_bind]. eexists. split.
  - apply model_validate_ok. split; [done|].
    destruct Hb as (? & ? & ? & _), Hmeter as (_ & ? & _), Hf as (_ & ? & ? & _), Htar as (_ & ? & _), Hres as [? _].
    cbn. unfold EnergyPlan_valid. cbn [pl_planId pl_coreId pl_homeId pl_homeRevision pl_batteryId
      pl_batteryRevision pl_batteryProviderRevision pl_meterRevision pl_forecastRevision
      pl_forecastProviderRevision pl_tariffRevision pl_reserveRevision pl_overrideRevision
      pl_inputDigest pl_overrideExpiresAtMs pl_slots].
    destruct (manualOverride i) as [o|]; cbn [fmap option_fmap option_map];
      [destruct Hov as (? & _ & ? & _)|]; split_and!; try done; try lia; auto.
  - cbn [pl_slots]. split; [lia|]. intros k s Hk. apply Hix in Hk as [-> ->]. split; lia.
Qed.
End plans.

(** ** A worked plan *)

Module EnergyExample.
Definition id32 (c : string) : string := String.concat "" (repeat c 32).
Definition id64 (c : string) : string := String.concat "" (repeat c 64).
Definition member : EnergyAuthority :=
  {| ea_coreId := id32 "a"; ea_homeId := id32 "b"; ea_homeRevision := 1; ea_accountId := id32 "c";
     ea_accountRevision := 1; ea_memberRevision := 1; ea_sessionFamilyId := id32 "d";
     ea_role := RoleAdmin; ea_active := true; ea_canPlan := true; ea_canControl := true |}.
Definition inputs : EnergyInputs :=
  {| ei_coreId := id32 "a"; ei_homeId := id32 "b"; ei_homeRevision := 1;
     meter := {| mi_resourceId := id32 "1"; mi_revision := 1; mi_providerRevision := 1;
                 mi_capturedAtMs := 0; mi_gridImportPowerW := 0; mi_gridExportPowerW := 500 |};
     forecast := {| sf_resourceId := id32 "2"; sf_revision := 1; sf_providerRevision := 1;
                    sf_generatedAtMs := 0; sf_startsAtMs := 1000; sf_slotDurationSeconds := 900;
                    solarEnergyWh := [900; 100; 0]; loadEnergyWh := [200; 100; 2000] |};
     tariff := {| tf_resourceId := id32 "3"; tf_revision := 1; tf_startsAtMs := 1000;
                  tf_slotDurationSeconds := 900; importPriceMicrosPerKwh := [100; 100; 300];
                  exportPriceMicrosPerKwh := [0; 0; 0] |};
     battery := {| bt_resourceId := id32 "4"; bt_revision := 1; bt_providerRevision := 1;
                   bt_capturedAtMs := 0; capacityWh := 10000; stateOfChargeWh := 5000;
                   minimumSocWh := 1000; maximumSocWh := 9500; maxChargePowerW := 2000;
                   maxDischargePowerW := 4000 |};
     reserve := {| rv_revision := 1; backupReservePercent := 50 |}; manualOverride := None |}.
Definition sha_i (i : EnergyInputs) : string := id64 "e".
Definition sha_p (d : string) (s : override_status) : string := id32 "f".
Definition who (i : string) : resolved EnergyAuthority :=
  if decide (i = id32 "c") then Resolved (Shaped member) else ResolvedNone.
Definition what (i : string) : resolved EnergyInputs :=
  if decide (i = id32 "4") then Resolved (Shaped inputs) else ResolvedNone.
Definition the_plan : res EnergyPlan := plan sha_i sha_p who what 0 (Shaped member) (Shaped inputs).
Definition some_plan : EnergyPlan :=
  {| pl_planId := id32 "f"; pl_coreId := id32 "a"; pl_homeId := id32 "b"; pl_homeRevision := 1;
     pl_batteryId := id32 "4"; pl_batteryRevision := 1; pl_batteryProviderRevision := 1;
     pl_meterRevision := 1; pl_forecastRevision := 1; pl_forecastProviderRevision := 1;
     pl_tariffRevision := 1; pl_reserveRevision := 1; pl_overrideRevision := None;
     pl_inputDigest := id64 "e"; pl_overrideStatus := NoOverride; pl_overrideExpiresAtMs := None;
     pl_slots := [
       {| sl_index := 0; sl_startsAtMs := 1000; sl_action := Charge; sl_powerW := 2000;
          sl_projectedSocWh := 5500; sl_reason := solar_surplus |};
       {| sl_index := 1; sl_startsAtMs := 901000; sl_action := Hold; sl_powerW := 0;
          sl_projectedSocWh := 5500; sl_reason := balanced |};
       {| sl_index := 2; sl_startsAtMs := 1801000; sl_action := Discharge; sl_powerW := 2000;
          sl_projectedSocWh := 5000; sl_reason := high_tariff_deficit |}] |}.
Example the_plan_is : the_plan = Ok some_plan.
Proof. vm_compute. reflexivity. Qed.
End EnergyExample.

Lemma energy_plan_safe_witness :
  exists i, Shaped EnergyExample.inputs = Shaped i /\
    slots_safe i NoOverride 5000 (slot_rows i) (pl_slots EnergyExample.some_plan).
Proof.
  destruct (energy_plan_safe EnergyExample.sha_i EnergyExample.sha_p EnergyExample.who
    EnergyExample.what 0 (Shaped EnergyExample.member) (Shaped EnergyExample.inputs)
    EnergyExample.some_plan EnergyExample.the_plan_is) as (i & E & Hs & _).
  exists i. split; [exact E|]. injection E as <-. exact Hs.
Defined.

Lemma energy_plan_total_witness :
  exists p, EnergyExample.the_plan = Ok p /\ length (pl_slots p) = 3%nat.
Proof.
  destruct (energy_plan_total EnergyExample.sha_i EnergyExample.sha_p EnergyExample.who
    EnergyExample.what ltac:(intros; apply (bool_decide_unpack _); vm_compute; exact I)
    ltac:(intros; apply (bool_decide_unpack _); vm_compute; exact I)
    0 EnergyExample.member EnergyExample.inputs) as (p & Hp & Hl & _).
  - apply (bool_decide_unpack _). vm_compute. exact I.
  - vm_compute. reflexivity.
  - reflexivity.
  - reflexivity.
  - apply (bool_decide_unpack _). vm_compute. exact I.
  - vm_compute. reflexivity.
  - reflexivity.
  - apply Z.leb_le. reflexivity.
  - exists p. split; [exact Hp|exact Hl].
Defined.
