(* ===== verification/EnergyCommands.v ===== *)
(** * Energy priorities: inverter commands

    [server/larenor_server/energy_priorities/commands.py]: a command is
    previewed, confirmed with the preview's token, sent to the worker once and
    recorded as confirmed only when the worker reads back exactly what was
    asked.  Every transition is chained into an audit log.  The manager lives
    in memory behind a lock; [sent] records the calls made to the worker. *)

From S2P Require Import Prelude Energy.

Definition MAX_COMMANDS : Z := 1000.
Definition MAX_AUDIT : Z := 10000.
Definition ZERO_HASH : string := String.concat "" (repeat "0"%string 64).

Definition TargetW (n : Z) : Prop := - 10 ^ 9 <= n <= 10 ^ 9.
#[export] Instance TargetW_dec n : Decision (TargetW n).
Proof. unfold TargetW. apply _. Defined.

Record InverterCommandPreview := {
  pv_requestId : string;
  pv_planId : string;
  pv_coreId : string;
  pv_homeId : string;
  pv_accountId : string;
  pv_accountRevision : Z;
  pv_memberRevision : Z;
  pv_sessionFamilyId : string;
  pv_inverterId : string;
  pv_expectedInverterRevision : Z;
  pv_batteryId : string;
  pv_expectedBatteryRevision : Z;
  pv_inputDigest : string;
  pv_targetPowerW : Z;
  pv_expiresAtMs : Z;
  pv_confirmationToken : string;
}.
#[export] Instance InverterCommandPreview_eq_dec : EqDecision InverterCommandPreview.
Proof. solve_decision. Defined.
Definition Preview_valid (p : InverterCommandPreview) : Prop :=
  Identity (pv_requestId p) /\ Identity (pv_planId p) /\ Identity (pv_coreId p) /\
  Identity (pv_homeId p) /\ Identity (pv_accountId p) /\ Revision (pv_accountRevision p) /\
  Revision (pv_memberRevision p) /\ Identity (pv_sessionFamilyId p) /\
  Identity (pv_inverterId p) /\ Revision (pv_expectedInverterRevision p) /\
  Identity (pv_batteryId p) /\ Revision (pv_expectedBatteryRevision p) /\
  Snapshot (pv_inputDigest p) /\ TargetW (pv_targetPowerW p) /\
  TimestampMs (pv_expiresAtMs p) /\ Snapshot (pv_confirmationToken p).
#[export] Instance Preview_valid_dec a : Decision (Preview_valid a).
Proof. unfold Preview_valid. solve_dec. Defined.
#[export] Instance Preview_model : Model InverterCommandPreview := {| model_valid := Preview_valid |}.

Record InverterCommand := {
  ic_requestId : string;
  ic_planId : string;
  ic_coreId : string;
  ic_homeId : string;
  ic_accountId : string;
  ic_accountRevision : Z;
  ic_memberRevision : Z;
  ic_sessionFamilyId : string;
  ic_inverterId : string;
  ic_expectedInverterRevision : Z;
  ic_batteryId : string;
  ic_expectedBatteryRevision : Z;
  ic_inputDigest : string;
  ic_targetPowerW : Z;
}.

Record InverterReadback := {
  rb_requestId : string;
  rb_coreId : string;
  rb_homeId : string;
  rb_inverterId : string;
  rb_inverterRevision : Z;
  rb_batteryId : string;
  rb_batteryRevision : Z;
  rb_inputDigest : string;
  rb_targetPowerW : Z;
  rb_observedPowerW : Z;
}.
#[export] Instance InverterReadback_eq_dec : EqDecision InverterReadback.
Proof. solve_decision. Defined.
Definition Readback_valid (r : InverterReadback) : Prop :=
  Identity (rb_requestId r) /\ Identity (rb_coreId r) /\ Identity (rb_homeId r) /\
  Identity (rb_inverterId r) /\ Revision (rb_inverterRevision r) /\ Identity (rb_batteryId r) /\
  Revision (rb_batteryRevision r) /\ Snapshot (rb_inputDigest r) /\ TargetW (rb_targetPowerW r) /\
  TargetW (rb_observedPowerW r).
#[export] Instance Readback_valid_dec a : Decision (Readback_valid a).
Proof. unfold Readback_valid. solve_dec. Defined.
#[export] Instance Readback_model : Model InverterReadback := {| model_valid := Readback_valid |}.

Inductive uncertain_reason := lost_ack | readback_mismatch.

(** [status], [reason], [readbackVerified] and [readback] of the result model;
    [coherent_result] leaves these two shapes. *)
Inductive command_outcome :=
  | Confirmed (readback : InverterReadback)
  | Uncertain (reason : uncertain_reason).
Record InverterCommandResult := { cr_requestId : string; cr_outcome : command_outcome }.

Inductive audit_action := Previewed | ActConfirmed | ActUncertain.

Record EnergyCommandAuditEntry := {
  ae_sequence : Z;
  ae_action : audit_action;
  ae_requestId : string;
  ae_planId : string;
  ae_coreId : string;
  ae_homeId : string;
  ae_accountId : string;
  ae_sessionFamilyId : string;
  ae_inverterId : string;
  ae_inputDigest : string;
  ae_targetPowerW : Z;
  ae_createdAtMs : Z;
  ae_previousHash : string;
  ae_entryHash : string;
}.

Record CommandState := {
  cs_preview : InverterCommandPreview;
  cs_plan : EnergyPlan;
  cs_result : option InverterCommandResult;
}.

Record InverterCommandManager := {
  cm_commands : list (string * CommandState);
  cm_audit : list EnergyCommandAuditEntry;
  cm_sent : list InverterCommand;
}.

(** What the callbacks and the clock answer during one call. *)
Record CommandEnv := {
  authority_of : string -> resolved EnergyAuthority;
  plan_of : string -> resolved EnergyPlan;
  worker_ : InverterCommand -> resolved InverterReadback;
  now_plan : Z;
  now_ms : Z;
  now_audit : Z;
}.

(** [except ApiError: raise; except Exception: raise e] *)
Definition except_other {A} (r : res A) (e : exn) : res A :=
  match r with
  | Raise (ApiError c s) => Raise (ApiError c s)
  | Raise _ => Raise e
  | Ok a => Ok a
  end.

Section commands.
(** HMAC-SHA-256 under the audit key, with the two domain prefixes. *)
Variable hmac_audit : jval -> string.
Variable hmac_confirm : jval -> string.

Definition control_authority (e : CommandEnv) (presented : raw EnergyAuthority) : res EnergyAuthority :=
  a ← current_authority (authority_of e) presented;
  _ ← raise_if (ea_active a = false \/ ea_canControl a = false \/ ea_role a <> RoleAdmin)
        (ApiError "forbidden" 403);
  Ok a.

Definition action_name (a : audit_action) : string :=
  match a with Previewed => "previewed" | ActConfirmed => "confirmed" | ActUncertain => "uncertain" end.

Definition entry_values (x : EnergyCommandAuditEntry) : jval := JList
  [JInt (ae_sequence x); JStr (action_name (ae_action x)); JStr (ae_requestId x);
   JStr (ae_planId x); JStr (ae_coreId x); JStr (ae_homeId x); JStr (ae_accountId x);
   JStr (ae_sessionFamilyId x); JStr (ae_inverterId x); JStr (ae_inputDigest x);
   JInt (ae_targetPowerW x); JInt (ae_createdAtMs x); JStr (ae_previousHash x)].

Fixpoint validate_entries (sequence : Z) (previous : string) (l : list EnergyCommandAuditEntry)
  : res unit :=
  match l with
  | [] => Ok tt
  | x :: l' =>
      _ ← raise_if (ae_sequence x <> sequence \/ ae_previousHash x <> previous \/
                    ae_entryHash x <> hmac_audit (entry_values x))
            (ApiError "energy_command_integrity_failed" 503);
      validate_entries (sequence + 1) (ae_entryHash x) l'
  end.

Definition validate_audit (m : InverterCommandManager) : res unit :=
  _ ← raise_if (Z.of_nat (length (cm_audit m)) > MAX_AUDIT)
        (ApiError "energy_command_integrity_failed" 503);
  validate_entries 1 ZERO_HASH (cm_audit m).

Definition audit_head (l : list EnergyCommandAuditEntry) : string :=
  match last l with Some x => ae_entryHash x | None => ZERO_HASH end.

Definition new_entry (action : audit_action) (p : InverterCommandPreview) (created : Z)
    (l : list EnergyCommandAuditEntry) : EnergyCommandAuditEntry :=
  let x h := {| ae_sequence := Z.of_nat (length l) + 1; ae_action := action;
       ae_requestId := pv_requestId p; ae_planId := pv_planId p; ae_coreId := pv_coreId p;
       ae_homeId := pv_homeId p; ae_accountId := pv_accountId p;
       ae_sessionFamilyId := pv_sessionFamilyId p; ae_inverterId := pv_inverterId p;
       ae_inputDigest := pv_inputDigest p; ae_targetPowerW := pv_targetPowerW p;
       ae_createdAtMs := created; ae_previousHash := audit_head l; ae_entryHash := h |} in
  x (hmac_audit (entry_values (x EmptyString))).

Definition append_audit (e : CommandEnv) (action : audit_action) (p : InverterCommandPreview)
  : M InverterCommandManager unit :=
  m ← get_state;
  _ ← lift (validate_audit m);
  _ ← lift (raise_if (Z.of_nat (length (cm_audit m)) >= MAX_AUDIT)
              (ApiError "energy_command_integrity_failed" 503));
  put_state {| cm_commands := cm_commands m;
               cm_audit := cm_audit m ++ [new_entry action p (now_audit e) (cm_audit m)];
               cm_sent := cm_sent m |}.

Definition preview_values (p : InverterCommandPreview) : jval := JList
  [JStr (pv_requestId p); JStr (pv_planId p); JStr (pv_coreId p); JStr (pv_homeId p);
   JStr (pv_accountId p); JInt (pv_accountRevision p); JInt (pv_memberRevision p);
   JStr (pv_sessionFamilyId p); JStr (pv_inverterId p); JInt (pv_expectedInverterRevision p);
   JStr (pv_batteryId p); JInt (pv_expectedBatteryRevision p); JStr (pv_inputDigest p);
   JInt (pv_targetPowerW p); JInt (pv_expiresAtMs p)].

Definition token_ (p : InverterCommandPreview) : string := hmac_confirm (preview_values p).

Definition with_token (t : string) (p : InverterCommandPreview) : InverterCommandPreview :=
  {| pv_requestId := pv_requestId p; pv_planId := pv_planId p; pv_coreId := pv_coreId p;
     pv_homeId := pv_homeId p; pv_accountId := pv_accountId p;
     pv_accountRevision := pv_accountRevision p; pv_memberRevision := pv_memberRevision p;
     pv_sessionFamilyId := pv_sessionFamilyId p; pv_inverterId := pv_inverterId p;
     pv_expectedInverterRevision := pv_expectedInverterRevision p; pv_batteryId := pv_batteryId p;
     pv_expectedBatteryRevision := pv_expectedBatteryRevision p; pv_inputDigest := pv_inputDigest p;
     pv_targetPowerW := pv_targetPowerW p; pv_expiresAtMs := pv_expiresAtMs p;
     pv_confirmationToken := t |}.

(** The plan followed an override that has run out since. *)
Definition override_over (e : CommandEnv) (p : EnergyPlan) : Prop :=
  pl_overrideStatus p = OverrideActive /\
  match pl_overrideExpiresAtMs p with Some t => now_plan e >= t | None => False end.
#[export] Instance override_over_dec e p : Decision (override_over e p).
Proof. unfold override_over. solve_dec. Defined.

Definition current_plan (e : CommandEnv) (p : EnergyPlan) : res unit :=
  c ← except_any (validate_optional (plan_of e (pl_planId p))) (ApiError "revision_conflict" 409);
  _ ← raise_if (c <> Some p) (ApiError "revision_conflict" 409);
  raise_if (override_over e p) (ApiError "revision_conflict" 409).

Definition draft (e : CommandEnv) (a : EnergyAuthority) (raw_plan : raw EnergyPlan) (slot_index : Z)
    (request_id inverter_id : string) (expected_inverter_revision : Z)
  : res (EnergyPlan * InverterCommandPreview) :=
  p ← model_validate raw_plan;
  _ ← raise_if (~ 0 <= slot_index < Z.of_nat (length (pl_slots p))) (ValueError "");
  _ ← raise_if (pl_coreId p <> ea_coreId a \/ pl_homeId p <> ea_homeId a) (ValueError "");
  _ ← current_plan e p;
  s ← require_some (pl_slots p !! Z.to_nat slot_index) (ValueError "IndexError");
  let signed_power :=
    match sl_action s with Charge => sl_powerW s | _ => - sl_powerW s end in
  d ← model_validate (Shaped
    {| pv_requestId := request_id; pv_planId := pl_planId p; pv_coreId := pl_coreId p;
       pv_homeId := pl_homeId p; pv_accountId := ea_accountId a;
       pv_accountRevision := ea_accountRevision a; pv_memberRevision := ea_memberRevision a;
       pv_sessionFamilyId := ea_sessionFamilyId a; pv_inverterId := inverter_id;
       pv_expectedInverterRevision := expected_inverter_revision; pv_batteryId := pl_batteryId p;
       pv_expectedBatteryRevision := pl_batteryRevision p; pv_inputDigest := pl_inputDigest p;
       pv_targetPowerW := signed_power; pv_expiresAtMs := now_ms e + 60000;
       pv_confirmationToken := ZERO_HASH |});
  Ok (p, with_token (token_ d) d).

Definition store_command (k : string) (st : CommandState) (m : InverterCommandManager)
  : InverterCommandManager :=
  {| cm_commands := dict_set (cm_commands m) k st; cm_audit := cm_audit m; cm_sent := cm_sent m |}.

Definition preview (e : CommandEnv) (presented : raw EnergyAuthority) (raw_plan : raw EnergyPlan)
    (slot_index : Z) (request_id inverter_id : string) (expected_inverter_revision : Z)
  : M InverterCommandManager InverterCommandPreview :=
  a ← lift (control_authority e presented);
  pp ← lift (except_other
         (draft e a raw_plan slot_index request_id inverter_id expected_inverter_revision)
         (ApiError "invalid_request" 400));
  m ← get_state;
  _ ← lift (validate_audit m);
  match dict_get (cm_commands m) (pv_requestId pp.2) with
  | Some prior =>
      _ ← lift (raise_if (cs_preview prior <> pp.2) (ApiError "invalid_request" 400));
      mret (cs_preview prior)
  | None =>
      _ ← lift (raise_if (Z.of_nat (length (cm_commands m)) >= MAX_COMMANDS)
                  (ApiError "revision_conflict" 409));
      _ ← put_state (store_command (pv_requestId pp.2)
            {| cs_preview := pp.2; cs_plan := pp.1; cs_result := None |} m);
      _ ← append_audit e Previewed pp.2;
      mret pp.2
  end.

Definition command_of (p : InverterCommandPreview) : InverterCommand :=
  {| ic_requestId := pv_requestId p; ic_planId := pv_planId p; ic_coreId := pv_coreId p;
     ic_homeId := pv_homeId p; ic_accountId := pv_accountId p;
     ic_accountRevision := pv_accountRevision p; ic_memberRevision := pv_memberRevision p;
     ic_sessionFamilyId := pv_sessionFamilyId p; ic_inverterId := pv_inverterId p;
     ic_expectedInverterRevision := pv_expectedInverterRevision p; ic_batteryId := pv_batteryId p;
     ic_expectedBatteryRevision := pv_expectedBatteryRevision p; ic_inputDigest := pv_inputDigest p;
     ic_targetPowerW := pv_targetPowerW p |}.

Definition expected_readback (c : InverterCommand) : InverterReadback :=
  {| rb_requestId := ic_requestId c; rb_coreId := ic_coreId c; rb_homeId := ic_homeId c;
     rb_inverterId := ic_inverterId c; rb_inverterRevision := ic_expectedInverterRevision c;
     rb_batteryId := ic_batteryId c; rb_batteryRevision := ic_expectedBatteryRevision c;
     rb_inputDigest := ic_inputDigest c; rb_targetPowerW := ic_targetPowerW c;
     rb_observedPowerW := ic_targetPowerW c |}.

(** The worker's answer, [None] when it raised or was not a readback. *)
Definition call_worker (e : CommandEnv) (c : InverterCommand)
  : M InverterCommandManager (option InverterReadback) :=
  _ ← modify (fun m => {| cm_commands := cm_commands m; cm_audit := cm_audit m;
                          cm_sent := cm_sent m ++ [c] |});
  mret (match validate_resolved (worker_ e c) with Ok r => Some r | Raise _ => None end).

Definition outcome_of (c : InverterCommand) (r : option InverterReadback) : command_outcome :=
  match r with
  | None => Uncertain lost_ack
  | Some r => if decide (r = expected_readback c) then Confirmed r else Uncertain readback_mismatch
  end.

Definition same_session (p : InverterCommandPreview) (a : EnergyAuthority) : Prop :=
  (pv_coreId p, pv_homeId p, pv_accountId p, pv_accountRevision p, pv_memberRevision p,
   pv_sessionFamilyId p)
  = (ea_coreId a, ea_homeId a, ea_accountId a, ea_accountRevision a, ea_memberRevision a,
     ea_sessionFamilyId a).
#[export] Instance same_session_dec p a : Decision (same_session p a).
Proof. unfold same_session. apply _. Defined.

Definition confirm (e : CommandEnv) (presented : raw EnergyAuthority)
    (raw_preview : raw InverterCommandPreview) (confirmation_token : string)
  : M InverterCommandManager InverterCommandResult :=
  a ← lift (control_authority e presented);
  p ← lift (except_value_error (model_validate raw_preview) (ApiError "invalid_request" 400));
  m ← get_state;
  _ ← lift (validate_audit m);
  st ← lift (require_some (dict_get (cm_commands m) (pv_requestId p)) (ApiError "invalid_request" 400));
  _ ← lift (raise_if (cs_preview st <> p \/ ~ same_session p a \/ confirmation_token <> token_ p)
              (ApiError "invalid_request" 400));
  match cs_result st with
  | Some r => mret r
  | None =>
      _ ← lift (raise_if (now_ms e >= pv_expiresAtMs p) (ApiError "invalid_request" 400));
      _ ← lift (current_plan e (cs_plan st));
      readback ← call_worker e (command_of p);
      let outcome := outcome_of (command_of p) readback in
      let result := {| cr_requestId := pv_requestId p; cr_outcome := outcome |} in
      _ ← modify (store_command (pv_requestId p)
            {| cs_preview := cs_preview st; cs_plan := cs_plan st; cs_result := Some result |});
      _ ← append_audit e (match outcome with Confirmed _ => ActConfirmed | _ => ActUncertain end) p;
      mret result
  end.

Definition result (e : CommandEnv) (presented : raw EnergyAuthority) (request_id : string)
    (m : InverterCommandManager) : res InverterCommandResult :=
  a ← control_authority e presented;
  _ ← validate_audit m;
  st ← require_some (dict_get (cm_commands m) request_id) (ApiError "not_found" 404);
  let p := cs_preview st in
  _ ← raise_if ((pv_accountId p, pv_accountRevision p, pv_memberRevision p, pv_sessionFamilyId p)
                <> (ea_accountId a, ea_accountRevision a, ea_memberRevision a, ea_sessionFamilyId a))
        (ApiError "revision_conflict" 409);
  require_some (cs_result st) (ApiError "revision_conflict" 409).
End commands.

(** ** Reachable managers *)

Section managers.
Variable hmac_audit : jval -> string.
Variable hmac_confirm : jval -> string.

Definition init_manager : InverterCommandManager :=
  {| cm_commands := []; cm_audit := []; cm_sent := [] |}.

Inductive command_call :=
  | CallPreview (a : raw EnergyAuthority) (p : raw EnergyPlan) (slot : Z) (request inverter : string) (rev : Z)
  | CallConfirm (a : raw EnergyAuthority) (p : raw InverterCommandPreview) (token : string).

Definition run_command (e : CommandEnv) (c : command_call) (m : InverterCommandManager)
  : InverterCommandManager :=
  match c with
  | CallPreview a p slot request inverter rev =>
      (preview hmac_audit hmac_confirm e a p slot request inverter rev m).2
  | CallConfirm a p token => (confirm hmac_audit hmac_confirm e a p token m).2
  end.
Definition command_step (m m' : InverterCommandManager) : Prop :=
  exists e c, m' = run_command e c m.
Definition manager_reachable (m : InverterCommandManager) : Prop := rtc command_step init_manager m.

Definition entries_ok (l : list EnergyCommandAuditEntry) : Prop :=
  validate_entries hmac_audit 1 ZERO_HASH l = Ok tt.

Lemma validate_entries_snoc n prev l x :
  validate_entries hmac_audit n prev l = Ok tt ->
  ae_sequence x = n + Z.of_nat (length l) ->
  ae_previousHash x = match last l with Some y => ae_entryHash y | None => prev end ->
  ae_entryHash x = hmac_audit (entry_values x) ->
  validate_entries hmac_audit n prev (l ++ [x]) = Ok tt.
Proof.
  revert n prev. induction l as [|y l IH]; intros n prev Hv Hs Hp Hh; cbn in *.
  - rewrite raise_if_no; [done|]. intros [?|[?|?]]; [lia|done..].
  - apply bind_ok in Hv as ([] & Hy & Hv). rewrite Hy. cbn.
    apply IH; [done|lia| |done]. rewrite Hp. destruct l; [done|]. cbn.
    destruct (last _) eqn:E; [done|]. by apply last_None in E.
Qed.

Lemma new_entry_ok action p t l : entries_ok l -> entries_ok (l ++ [new_entry hmac_audit action p t l]).
Proof.
  intros Hl. apply validate_entries_snoc; [exact Hl| |done|done]. cbn. lia.
Qed.

(** How many audit entries a command has left. *)
Definition entries_of (st : CommandState) : Z := match cs_result st with Some _ => 2 | None => 1 end.

Definition result_ok (st : CommandState) : Prop :=
  match cs_result st with
  | Some r => cr_requestId r = pv_requestId (cs_preview st) /\
      match cr_outcome r with
      | Confirmed b => b = expected_readback (command_of (cs_preview st))
      | Uncertain _ => True
      end
  | None => True
  end.

Record manager_inv (m : InverterCommandManager) : Prop := {
  mv_keys : NoDup (dict_keys (cm_commands m));
  mv_request : forall k st, dict_get (cm_commands m) k = Some st ->
                 pv_requestId (cs_preview st) = k /\ result_ok st;
  mv_capacity : Z.of_nat (length (cm_commands m)) <= MAX_COMMANDS;
  mv_audit : entries_ok (cm_audit m);
  mv_count : Z.of_nat (length (cm_audit m)) = zsum (entries_of <$> dict_values (cm_commands m));
  mv_sent : NoDup (ic_requestId <$> cm_sent m);
  mv_sent_done : Forall (fun c => exists st r, dict_get (cm_commands m) (ic_requestId c) = Some st /\
                   cs_result st = Some r /\ c = command_of (cs_preview st)) (cm_sent m);
}.

Lemma entries_bound (d : list (string * CommandState)) :
  zsum (entries_of <$> dict_values d) <= 2 * Z.of_nat (length d).
Proof.
  unfold dict_values. induction d as [|[k st] d IH]; [done|].
  cbn [fmap list_fmap length]. rewrite zsum_cons. unfold entries_of at 1. destruct (cs_result _); lia.
Qed.

Lemma inv_audit_room m : manager_inv m ->
  validate_audit hmac_audit m = Ok tt /\ Z.of_nat (length (cm_audit m)) <= 2000.
Proof.
  intros []. pose proof (entries_bound (cm_commands m)). unfold MAX_COMMANDS in *.
  split; [|lia]. unfold validate_audit, MAX_AUDIT. by rewrite raise_if_no by lia.
Qed.

Lemma append_audit_run e action p m :
  entries_ok (cm_audit m) -> Z.of_nat (length (cm_audit m)) < MAX_AUDIT ->
  append_audit hmac_audit e action p m =
  (Ok tt, {| cm_commands := cm_commands m;
             cm_audit := cm_audit m ++ [new_entry hmac_audit action p (now_audit e) (cm_audit m)];
             cm_sent := cm_sent m |}).
Proof.
  intros Hv Hl. unfold append_audit, mbind, M_bind, get_state, lift, put_state, validate_audit.
  unfold MAX_AUDIT in *. rewrite raise_if_no by lia. unfold mbind, res_bind. rewrite Hv.
  by rewrite raise_if_no by lia.
Qed.

Lemma init_manager_inv : manager_inv init_manager.
Proof.
  constructor; cbn; try apply NoDup_nil_2; try done.
Qed.

Definition previewed (e : CommandEnv) (pp : EnergyPlan * InverterCommandPreview)
    (m : InverterCommandManager) : InverterCommandManager :=
  {| cm_commands := dict_set (cm_commands m) (pv_requestId pp.2)
       {| cs_preview := pp.2; cs_plan := pp.1; cs_result := None |};
     cm_audit := cm_audit m ++ [new_entry hmac_audit Previewed pp.2 (now_audit e) (cm_audit m)];
     cm_sent := cm_sent m |}.

Lemma preview_run e a rp slot rid inv rev m : manager_inv m ->
  let m' := (preview hmac_audit hmac_confirm e a rp slot rid inv rev m).2 in
  m' = m \/ exists pp, dict_get (cm_commands m) (pv_requestId pp.2) = None /\
    Z.of_nat (length (cm_commands m)) < MAX_COMMANDS /\ m' = previewed e pp m.
Proof.
  intros Hi. destruct (inv_audit_room m Hi) as [Hva Hlen].
  unfold preview, mbind, M_bind, get_state, lift, put_state, mret, M_ret.
  destruct (control_authority e a) as [au|]; [|by left].
  destruct (except_other _ _) as [pp|]; [|by left]. rewrite Hva.
  destruct (dict_get _ _) as [prior|] eqn:Ek; [destruct (raise_if _ _); by left|].
  destruct (raise_if _ _) as [[]|] eqn:Ec; [|by left]. apply raise_if_ok in Ec.
  right. exists pp. split; [done|]. split; [lia|].
  rewrite append_audit_run; [done|apply Hi|]. unfold MAX_AUDIT. cbn. lia.
Qed.

Definition finished_command (e : CommandEnv) (p : InverterCommandPreview) (st : CommandState)
    (o : command_outcome) (m : InverterCommandManager) : InverterCommandManager :=
  {| cm_commands := dict_set (cm_commands m) (pv_requestId p)
       {| cs_preview := cs_preview st; cs_plan := cs_plan st;
          cs_result := Some {| cr_requestId := pv_requestId p; cr_outcome := o |} |};
     cm_audit := cm_audit m ++
       [new_entry hmac_audit (match o with Confirmed _ => ActConfirmed | _ => ActUncertain end) p
          (now_audit e) (cm_audit m)];
     cm_sent := cm_sent m ++ [command_of p] |}.

Lemma control_authority_ok e ra a : control_authority e ra = Ok a ->
  ra = Shaped a /\ authority_of e (ea_accountId a) = Resolved (Shaped a) /\
  ea_active a = true /\ ea_canControl a = true /\ ea_role a = RoleAdmin.
Proof.
  unfold control_authority. intros Ha. apply bind_ok in Ha as (b & Hb & Ha). inv_ok.
  apply current_authority_ok in Hb as (-> & _ & ?).
  destruct (ea_active a), (ea_canControl a), (ea_role a); intuition congruence.
Qed.

Lemma current_plan_ok e p u : current_plan e p = Ok u ->
  plan_of e (pl_planId p) = Resolved (Shaped p) /\ ~ override_over e p.
Proof.
  unfold current_plan. intros Hc. apply bind_ok in Hc as (c & Hc & Hr).
  apply bind_ok in Hr as (v & Hr & Ho). apply raise_if_ok in Hr, Ho.
  apply dec_stable in Hr. subst c. apply except_any_ok, validate_optional_some in Hc as [-> _]. done.
Qed.

(** The command a confirmation refers to, and what it says of itself. *)
Definition confirming (e : CommandEnv) a rp tok m (au : EnergyAuthority)
    (p : InverterCommandPreview) (st : CommandState) : Prop :=
  control_authority e a = Ok au /\ rp = Shaped p /\ Preview_valid p /\
  dict_get (cm_commands m) (pv_requestId p) = Some st /\ cs_preview st = p /\
  same_session p au /\ tok = token_ hmac_confirm p.

Lemma confirm_again e a rp tok m au p st r : manager_inv m ->
  confirming e a rp tok m au p st -> cs_result st = Some r ->
  confirm hmac_audit hmac_confirm e a rp tok m = (Ok r, m).
Proof.
  intros Hi (Ha & -> & Hv & Hk & Hp & Hss & Ht) Hr.
  destruct (inv_audit_room m Hi) as [Hva _].
  unfold confirm, mbind, M_bind, get_state, lift. rewrite Ha.
  assert (model_validate (Shaped p) = Ok p) as -> by (by apply model_validate_ok).
  cbn [except_value_error]. rewrite Hva, Hk. cbn [require_some].
  rewrite raise_if_no by tauto. by rewrite Hr.
Qed.

(** A confirmation either changes nothing or sends the command. *)
Lemma confirm_run e a rp tok m : manager_inv m ->
  let run := confirm hmac_audit hmac_confirm e a rp tok m in
  (exists ex, run = (Raise ex, m)) \/
  (exists au p st, confirming e a rp tok m au p st /\
    ((exists r, cs_result st = Some r /\ run = (Ok r, m)) \/
     (cs_result st = None /\ now_ms e < pv_expiresAtMs p /\ current_plan e (cs_plan st) = Ok tt /\
      let o := outcome_of (command_of p)
               (match validate_resolved (worker_ e (command_of p)) with Ok r => Some r | _ => None end) in
      run = (Ok {| cr_requestId := pv_requestId p; cr_outcome := o |}, finished_command e p st o m)))).
Proof.
  intros Hi. destruct (inv_audit_room m Hi) as [Hva Hlen].
  unfold confirming, confirm, mbind, M_bind, get_state, lift, modify, mret, M_ret, call_worker.
  destruct (control_authority e a) as [au|]; [|left; by eexists].
  destruct (except_value_error _ _) as [p|] eqn:Ep; [|left; by eexists].
  apply except_value_error_ok, model_validate_ok in Ep as [-> Hv]. rewrite Hva.
  destruct (dict_get _ _) as [st|] eqn:Ek; cbn [require_some]; [|left; by eexists].
  destruct (raise_if _ _) as [[]|] eqn:Ec; [|left; by eexists]. apply raise_if_ok in Ec.
  assert (cs_preview st = p /\ same_session p au /\ tok = token_ hmac_confirm p) as (? & ? & ?).
  { destruct (decide (cs_preview st = p)), (decide (same_session p au)),
      (decide (tok = token_ hmac_confirm p)); tauto. }
  destruct (cs_result st) as [r|] eqn:Er.
  { right. exists au, p, st. split; [done|]. left. by exists r. }
  destruct (raise_if (now_ms e >= _) _) as [[]|] eqn:Ex; [|left; by eexists]. apply raise_if_ok in Ex.
  destruct (current_plan e (cs_plan st)) as [[]|] eqn:Epl; [|left; by eexists].
  right. exists au, p, st. split; [done|]. right. split_and!; [done|lia|done|].
  unfold modify, mbind, M_bind, mret, M_ret, store_command. cbn [cm_commands cm_audit cm_sent].
  rewrite append_audit_run; [done|apply Hi|]. unfold MAX_AUDIT. cbn. lia.
Qed.

Lemma dict_get_grow {V} (d : list (string * V)) k v k' w :
  dict_get d k = None -> dict_get d k' = Some w -> dict_get (dict_set d k v) k' = Some w.
Proof. intros Hn Hg. rewrite dict_get_set_ne; [done|]. intros ->. congruence. Qed.

Lemma previewed_inv e pp m : manager_inv m ->
  dict_get (cm_commands m) (pv_requestId pp.2) = None ->
  Z.of_nat (length (cm_commands m)) < MAX_COMMANDS -> manager_inv (previewed e pp m).
Proof.
  intros Hi Hk Hc. pose proof Hi as []. constructor; cbn [cm_commands cm_audit cm_sent previewed]; try done.
  - by apply dict_set_nodup.
  - intros k st. rewrite dict_get_set. case_decide; intros; simplify_eq; [done|auto].
  - rewrite dict_set_fresh by done. rewrite length_app. cbn. lia.
  - by apply new_entry_ok.
  - rewrite zsum_dict_set, Hk, length_app. cbn. lia.
  - eapply Forall_impl; [exact mv_sent_done0|]. intros c (st & r & Hg & ? & ?).
    exists st, r. split; [by apply dict_get_grow|done].
Qed.

Lemma finished_inv e p st o m : manager_inv m ->
  dict_get (cm_commands m) (pv_requestId p) = Some st -> cs_preview st = p -> cs_result st = None ->
  match o with Confirmed b => b = expected_readback (command_of p) | _ => True end ->
  manager_inv (finished_command e p st o m).
Proof.
  intros Hi Hk Hp Hn Ho. pose proof Hi as [].
  constructor; cbn [cm_commands cm_audit cm_sent finished_command]; try done.
  - by apply dict_set_nodup.
  - intros k st'. rewrite dict_get_set. case_decide; intros; simplify_eq; [|auto].
    by destruct o.
  - rewrite dict_set_length, Hk, Nat.add_0_r. done.
  - by apply new_entry_ok.
  - rewrite zsum_dict_set, Hk, length_app. cbn. unfold entries_of at 2. rewrite Hn. cbn. lia.
  - apply snoc_column; [done|]. eapply Forall_impl; [exact mv_sent_done0|].
    intros c (st' & r & Hg & Hr & _) E. cbn in E. congruence.
  - apply Forall_app. split.
    + eapply Forall_impl; [exact mv_sent_done0|]. intros c (st' & r & Hg & Hr & ?).
      exists st', r. split_and!; try done. rewrite dict_get_set_ne; [done|]. intros E. congruence.
    + constructor; [|constructor]. do 2 eexists. cbn [ic_requestId command_of].
      rewrite dict_get_set_eq. split_and!; [done|done|]. cbn. by subst p.
Qed.

Lemma command_step_inv m m' : manager_inv m -> command_step m m' -> manager_inv m'.
Proof.
  intros Hi (e & [a rp slot rid inv rev|a rp tok] & ->); cbn.
  - destruct (preview_run e a rp slot rid inv rev m Hi) as [->|(pp & ? & ? & ->)]; [done|].
    by apply previewed_inv.
  - destruct (confirm_run e a rp tok m Hi) as [[ex ->]|(au & p & st & Hc & Hrun)]; [done|].
    destruct Hc as (_ & _ & _ & Hk & Hp & _), Hrun as [(r & _ & ->)|(Hn & _ & _ & ->)]; [done|].
    cbn. apply finished_inv; try done. unfold outcome_of.
    destruct (match validate_resolved _ with Ok r => _ | _ => _ end); [|done]. by case_decide.
Qed.

Lemma manager_reachable_inv m : manager_reachable m -> manager_inv m.
Proof.
  unfold manager_reachable. intros Hr. assert (manager_inv init_manager) as H0 by apply init_manager_inv.
  revert H0. induction Hr; [done|]. intros. eauto using command_step_inv.
Qed.

(** C11 The inverter worker is called at most once per request.  In every
    reachable manager the requests sent are distinct, each was sent exactly as
    previewed and has a recorded result, and a result is [confirmed] only with
    a readback equal, field for field, to what the command asked. *)
Theorem energy_command_sent_once m :
  manager_reachable m ->
  NoDup (ic_requestId <$> cm_sent m) /\
  Forall (fun c => exists st r, dict_get (cm_commands m) (ic_requestId c) = Some st /\
            cs_result st = Some r /\ c = command_of (cs_preview st)) (cm_sent m) /\
  forall k st r b, dict_get (cm_commands m) k = Some st -> cs_result st = Some r ->
    cr_outcome r = Confirmed b -> b = expected_readback (command_of (cs_preview st)).
Proof.
  intros []%manager_reachable_inv. split_and!; [done..|].
  intros k st r b Hk Hr Ho. apply mv_request0 in Hk as [_ Hok]. unfold result_ok in Hok.
  rewrite Hr, Ho in Hok. apply Hok.
Qed.

(** A command is sent only on authority.  When a call makes the manager
    send something, it was a confirmation, presented by the current, active
    administrator with control permission and with the session of the preview,
    carrying the preview's token, before the preview expired, while the plan
    it was made from is still the current one. *)
Theorem energy_command_authorized m e c :
  manager_reachable m -> cm_sent (run_command e c m) <> cm_sent m ->
  exists ra rp tok a p st, c = CallConfirm ra rp tok /\ ra = Shaped a /\ rp = Shaped p /\
    authority_of e (ea_accountId a) = Resolved (Shaped a) /\
    ea_active a = true /\ ea_canControl a = true /\ ea_role a = RoleAdmin /\
    same_session p a /\ tok = token_ hmac_confirm p /\ now_ms e < pv_expiresAtMs p /\
    dict_get (cm_commands m) (pv_requestId p) = Some st /\ cs_preview st = p /\
    plan_of e (pl_planId (cs_plan st)) = Resolved (Shaped (cs_plan st)) /\
    cm_sent (run_command e c m) = cm_sent m ++ [command_of p].
Proof.
  intros Hi%manager_reachable_inv Hs. destruct c as [a rp slot rid inv rev|ra rp tok]; cbn in Hs |- *.
  - destruct (preview_run e a rp slot rid inv rev m Hi) as [E|(pp & _ & _ & E)]; by rewrite E in Hs.
  - destruct (confirm_run e ra rp tok m Hi) as [[ex E]|(au & p & st & Hc & Hrun)]; [by rewrite E in Hs|].
    destruct Hc as (Ha & -> & _ & Hk & Hp & Hss & Ht).
    destruct Hrun as [(r & _ & E)|(Hn & Hx & Hpl & E)]; [by rewrite E in Hs|].
    apply control_authority_ok in Ha as (-> & ? & ? & ? & ?).
    apply current_plan_ok in Hpl as [? _].
    exists (Shaped au), (Shaped p), tok, au, p, st. rewrite E. by split_and!.
Qed.

(** The audit log verifies after every call and never fills up, so a
    command is never sent without its entry: it holds one entry per preview
    and one more per result, 2,000 at most of the 10,000 it may hold. *)
Theorem energy_audit_complete m :
  manager_reachable m ->
  validate_audit hmac_audit m = Ok tt /\ Z.of_nat (length (cm_audit m)) <= 2000 /\
  Z.of_nat (length (cm_audit m)) = zsum (entries_of <$> dict_values (cm_commands m)).
Proof.
  intros Hi%manager_reachable_inv. destruct (inv_audit_room m Hi). split_and!; [done..|].
  apply (mv_count _ Hi).
Qed.

(** Confirming twice is answered twice but sent once: the second answer
    is the recorded one, whatever the worker would say now. *)
Theorem energy_confirm_idempotent m e e2 ra rp tok r m' :
  manager_reachable m -> confirm hmac_audit hmac_confirm e ra rp tok m = (Ok r, m') ->
  control_authority e2 ra = control_authority e ra ->
  confirm hmac_audit hmac_confirm e2 ra rp tok m' = (Ok r, m').
Proof.
  intros Hi%manager_reachable_inv Hop Hsame.
  assert (manager_inv m') as Hi'.
  { apply (command_step_inv m); [done|]. exists e, (CallConfirm ra rp tok). cbn. by rewrite Hop. }
  destruct (inv_audit_room m' Hi') as [Hva' _]. destruct (inv_audit_room m Hi) as [Hva _].
  destruct (confirm_run e ra rp tok m Hi) as [[ex E]|(au & p & st & Hc & Hrun)]; [congruence|].
  pose proof Hc as (Ha & -> & Hv & Hk & Hp & Hss & Ht).
  destruct Hrun as [(r0 & Hr & E)|(Hn & Hx & Hpl & E)]; rewrite Hop in E; injection E as -> ->.
  - eapply confirm_again; [done| |exact Hr]. unfold confirming. rewrite Hsame. by split_and!.
  - eapply (confirm_again _ _ _ _ _ au p {| cs_preview := cs_preview st; cs_plan := cs_plan st;
      cs_result := Some _ |}); [done| |done].
    unfold confirming. rewrite Hsame. split_and!; try done. cbn. apply dict_get_set_eq.
Qed.
End managers.

(** ** A worked command *)

Module CommandExample.
Definition hm (j : jval) : string := EnergyExample.id64 "7".
Definition env (w : InverterCommand -> resolved InverterReadback) : CommandEnv :=
  {| authority_of := EnergyExample.who;
     plan_of i := if decide (i = EnergyExample.id32 "f") then Resolved (Shaped EnergyExample.some_plan)
                  else ResolvedNone;
     worker_ := w; now_plan := 0; now_ms := 500; now_audit := 501 |}.
Definition echo (c : InverterCommand) : resolved InverterReadback := Resolved (Shaped (expected_readback c)).
Definition silent (c : InverterCommand) : resolved InverterReadback := ResolvedNone.
Definition ask : command_call :=
  CallPreview (Shaped EnergyExample.member) (Shaped EnergyExample.some_plan) 0
    (EnergyExample.id32 "8") (EnergyExample.id32 "9") 1.
Definition m1 : InverterCommandManager := run_command hm hm (env echo) ask init_manager.
Definition seen : InverterCommandPreview :=
  match cm_commands m1 with (_, st) :: _ => cs_preview st | [] =>
    with_token EmptyString {| pv_requestId := ""; pv_planId := ""; pv_coreId := ""; pv_homeId := "";
      pv_accountId := ""; pv_accountRevision := 0; pv_memberRevision := 0; pv_sessionFamilyId := "";
      pv_inverterId := ""; pv_expectedInverterRevision := 0; pv_batteryId := "";
      pv_expectedBatteryRevision := 0; pv_inputDigest := ""; pv_targetPowerW := 0;
      pv_expiresAtMs := 0; pv_confirmationToken := "" |} end.
Definition ok : command_call :=
  CallConfirm (Shaped EnergyExample.member) (Shaped seen) (EnergyExample.id64 "7").
Definition m2 : InverterCommandManager := run_command hm hm (env echo) ok m1.
Lemma command_reach1 : manager_reachable hm hm m1.
Proof. eapply rtc_l; [|apply rtc_refl]. by exists (env echo), ask. Qed.
Lemma command_reach2 : manager_reachable hm hm m2.
Proof. eapply rtc_r; [exact command_reach1|]. by exists (env echo), ok. Qed.
End CommandExample.

Lemma energy_command_sent_once_witness :
  length (cm_sent CommandExample.m2) = 1%nat /\ NoDup (ic_requestId <$> cm_sent CommandExample.m2).
Proof.
  split; [vm_compute; reflexivity|].
  apply (energy_command_sent_once CommandExample.hm CommandExample.hm CommandExample.m2).
  exact CommandExample.command_reach2.
Defined.

Lemma energy_command_authorized_witness :
  exists p, cm_sent CommandExample.m2 = cm_sent CommandExample.m1 ++ [command_of p] /\ 500 < pv_expiresAtMs p.
Proof.
  destruct (energy_command_authorized CommandExample.hm CommandExample.hm CommandExample.m1
    (CommandExample.env CommandExample.echo) CommandExample.ok)
    as (ra & rp & tok & a & p & st & _ & _ & _ & _ & _ & _ & _ & _ & _ & Hx & _ & _ & _ & Hs).
  - exact CommandExample.command_reach1.
  - vm_compute. discriminate.
  - exists p. split; [exact Hs|exact Hx].
Defined.

Lemma energy_audit_complete_witness :
  length (cm_audit CommandExample.m2) = 2%nat /\
  validate_audit CommandExample.hm CommandExample.m2 = Ok tt.
Proof.
  split; [vm_compute; reflexivity|].
  apply (energy_audit_complete CommandExample.hm CommandExample.hm CommandExample.m2).
  exact CommandExample.command_reach2.
Defined.

Lemma energy_confirm_idempotent_witness :
  exists r, confirm CommandExample.hm CommandExample.hm (CommandExample.env CommandExample.silent)
    (Shaped EnergyExample.member) (Shaped CommandExample.seen) (EnergyExample.id64 "7") CommandExample.m2
  = (Ok r, CommandExample.m2).
Proof.
  eexists. eapply (energy_confirm_idempotent CommandExample.hm CommandExample.hm CommandExample.m1
    (CommandExample.env CommandExample.echo)).
  - exact CommandExample.command_reach1.
  - vm_compute. reflexivity.
  - reflexivity.
Defined.
