(* ===== verification/Irrigation.v ===== *)
(** * Garden irrigation: the planner

    [server/larenor_server/garden_irrigation/models.py] and [planner.py]: from
    fresh soil readings, a safety snapshot, an advisory rain forecast and a
    daily water budget the planner decides, zone by zone in the order of their
    identities, how long each valve may open.  SHA-256 is a parameter; what is
    hashed is the record of everything the plan was made from. *)

From stdpp Require Import gmap.
From S2P Require Import Prelude Energy.

Record IrrigationAuthority := {
  ia_coreId : string;
  ia_homeId : string;
  ia_homeRevision : Z;
  ia_accountId : string;
  ia_accountRevision : Z;
  ia_sessionFamilyId : string;
  ia_role : home_role;
  ia_active : bool;
  ia_canManageIrrigation : bool;
}.
#[export] Instance IrrigationAuthority_eq_dec : EqDecision IrrigationAuthority.
Proof. solve_decision. Defined.
Definition IrrigationAuthority_valid (a : IrrigationAuthority) : Prop :=
  Identity (ia_coreId a) /\ Identity (ia_homeId a) /\ Revision (ia_homeRevision a) /\
  Identity (ia_accountId a) /\ Revision (ia_accountRevision a) /\ Identity (ia_sessionFamilyId a).
#[export] Instance IrrigationAuthority_valid_dec a : Decision (IrrigationAuthority_valid a).
Proof. unfold IrrigationAuthority_valid. solve_dec. Defined.
#[export] Instance IrrigationAuthority_model : Model IrrigationAuthority :=
  {| model_valid := IrrigationAuthority_valid |}.

Record IrrigationZone := {
  zn_coreId : string;
  zn_homeId : string;
  zn_zoneId : string;
  zn_zoneRevision : Z;
  zn_areaId : string;
  zn_areaRevision : Z;
  zn_valveServiceId : string;
  zn_valveServiceRevision : Z;
  zn_valveBindingId : string;
  zn_valveBindingRevision : Z;
  zn_flowMlPerMinute : Z;
  zn_maxDurationSeconds : Z;
}.
#[export] Instance IrrigationZone_eq_dec : EqDecision IrrigationZone.
Proof. solve_decision. Defined.
Definition IrrigationZone_valid (z : IrrigationZone) : Prop :=
  Identity (zn_coreId z) /\ Identity (zn_homeId z) /\ Identity (zn_zoneId z) /\
  Revision (zn_zoneRevision z) /\ Identity (zn_areaId z) /\ Revision (zn_areaRevision z) /\
  Identity (zn_valveServiceId z) /\ Revision (zn_valveServiceRevision z) /\
  Identity (zn_valveBindingId z) /\ Revision (zn_valveBindingRevision z) /\
  1 <= zn_flowMlPerMinute z <= 1000000 /\ 1 <= zn_maxDurationSeconds z <= 7200.
#[export] Instance IrrigationZone_valid_dec a : Decision (IrrigationZone_valid a).
Proof. unfold IrrigationZone_valid. solve_dec. Defined.

Record IrrigationPolicy := {
  ip_coreId : string;
  ip_homeId : string;
  ip_policyId : string;
  ip_policyRevision : Z;
  ip_zones : list IrrigationZone;
  ip_targetMoisturePermille : Z;
  ip_soilMaxAgeMs : Z;
  ip_safetyMaxAgeMs : Z;
  ip_forecastMaxAgeMs : Z;
  ip_rainDeferralMilliMm : Z;
  ip_freezeThresholdMilliC : Z;
  ip_windLimitMilliMps : Z;
  ip_previewTtlMs : Z;
  ip_active : bool;
}.
#[export] Instance IrrigationPolicy_eq_dec : EqDecision IrrigationPolicy.
Proof. solve_decision. Defined.
Definition HOUR_MS : Z := 60 * 60 * 1000.
Definition unique_zones (p : IrrigationPolicy) : Prop :=
  NoDup (zn_zoneId <$> ip_zones p) /\ NoDup (zn_valveBindingId <$> ip_zones p) /\
  Forall (fun z => (zn_coreId z, zn_homeId z) = (ip_coreId p, ip_homeId p)) (ip_zones p).
Definition IrrigationPolicy_valid (p : IrrigationPolicy) : Prop :=
  Identity (ip_coreId p) /\ Identity (ip_homeId p) /\ Identity (ip_policyId p) /\
  Revision (ip_policyRevision p) /\ (1 <= length (ip_zones p) <= 32)%nat /\
  Forall IrrigationZone_valid (ip_zones p) /\ 1 <= ip_targetMoisturePermille p <= 1000 /\
  1000 <= ip_soilMaxAgeMs p <= 24 * HOUR_MS /\ 1000 <= ip_safetyMaxAgeMs p <= HOUR_MS /\
  60000 <= ip_forecastMaxAgeMs p <= 48 * HOUR_MS /\ 0 <= ip_rainDeferralMilliMm p <= 1000000 /\
  -50000 <= ip_freezeThresholdMilliC p <= 20000 /\ 0 <= ip_windLimitMilliMps p <= 100000 /\
  1000 <= ip_previewTtlMs p <= 60000 /\ unique_zones p.
#[export] Instance IrrigationPolicy_valid_dec a : Decision (IrrigationPolicy_valid a).
Proof. unfold IrrigationPolicy_valid, unique_zones. solve_dec. Defined.
#[export] Instance IrrigationPolicy_model : Model IrrigationPolicy :=
  {| model_valid := IrrigationPolicy_valid |}.

Record SoilMoistureReading := {
  sm_coreId : string;
  sm_homeId : string;
  sm_zoneId : string;
  sm_zoneRevision : Z;
  sm_sensorId : string;
  sm_sensorRevision : Z;
  sm_readingRevision : Z;
  sm_moisturePermille : Z;
  sm_observedAtMs : Z;
}.
Definition SoilMoistureReading_valid (r : SoilMoistureReading) : Prop :=
  Identity (sm_coreId r) /\ Identity (sm_homeId r) /\ Identity (sm_zoneId r) /\
  Revision (sm_zoneRevision r) /\ Identity (sm_sensorId r) /\ Revision (sm_sensorRevision r) /\
  Revision (sm_readingRevision r) /\ 0 <= sm_moisturePermille r <= 1000 /\
  TimestampMs (sm_observedAtMs r).
#[export] Instance SoilMoistureReading_valid_dec a : Decision (SoilMoistureReading_valid a).
Proof. unfold SoilMoistureReading_valid. solve_dec. Defined.
#[export] Instance SoilMoistureReading_model : Model SoilMoistureReading :=
  {| model_valid := SoilMoistureReading_valid |}.

Record IrrigationSafetySnapshot := {
  ss_coreId : string;
  ss_homeId : string;
  ss_safetyRevision : Z;
  ss_leakDetected : bool;
  ss_temperatureMilliC : Z;
  ss_windMilliMps : Z;
  ss_observedAtMs : Z;
}.
Definition SafetySnapshot_valid (r : IrrigationSafetySnapshot) : Prop :=
  Identity (ss_coreId r) /\ Identity (ss_homeId r) /\ Revision (ss_safetyRevision r) /\
  -100000 <= ss_temperatureMilliC r <= 100000 /\ 0 <= ss_windMilliMps r <= 200000 /\
  TimestampMs (ss_observedAtMs r).
#[export] Instance SafetySnapshot_valid_dec a : Decision (SafetySnapshot_valid a).
Proof. unfold SafetySnapshot_valid. solve_dec. Defined.
#[export] Instance SafetySnapshot_model : Model IrrigationSafetySnapshot :=
  {| model_valid := SafetySnapshot_valid |}.

Record RainForecast := {
  rf_coreId : string;
  rf_homeId : string;
  rf_sourceId : string;
  rf_sourceRevision : Z;
  rf_forecastRevision : Z;
  rf_generatedAtMs : Z;
  rf_validUntilMs : Z;
  rf_rainMilliMm : Z;
}.
Definition RainForecast_valid (r : RainForecast) : Prop :=
  Identity (rf_coreId r) /\ Identity (rf_homeId r) /\ Identity (rf_sourceId r) /\
  Revision (rf_sourceRevision r) /\ Revision (rf_forecastRevision r) /\
  TimestampMs (rf_generatedAtMs r) /\ TimestampMs (rf_validUntilMs r) /\
  0 <= rf_rainMilliMm r <= 10000000 /\ rf_generatedAtMs r < rf_validUntilMs r.
#[export] Instance RainForecast_valid_dec a : Decision (RainForecast_valid a).
Proof. unfold RainForecast_valid. solve_dec. Defined.
#[export] Instance RainForecast_model : Model RainForecast := {| model_valid := RainForecast_valid |}.

Record WaterBudget := {
  wb_coreId : string;
  wb_homeId : string;
  wb_budgetRevision : Z;
  wb_dayStartMs : Z;
  wb_dailyLimitMl : Z;
  wb_usedMl : Z;
  wb_priceMicrosPerLiter : Z;
}.
Definition WaterBudget_valid (b : WaterBudget) : Prop :=
  Identity (wb_coreId b) /\ Identity (wb_homeId b) /\ Revision (wb_budgetRevision b) /\
  TimestampMs (wb_dayStartMs b) /\ 0 <= wb_dailyLimitMl b <= 10 ^ 10 /\
  0 <= wb_usedMl b <= 10 ^ 10 /\ 0 <= wb_priceMicrosPerLiter b <= 10 ^ 9 /\
  wb_usedMl b <= wb_dailyLimitMl b.
#[export] Instance WaterBudget_valid_dec a : Decision (WaterBudget_valid a).
Proof. unfold WaterBudget_valid. solve_dec. Defined.
#[export] Instance WaterBudget_model : Model WaterBudget := {| model_valid := WaterBudget_valid |}.

Record ManualWaterOverride := {
  mw_overrideId : string;
  mw_coreId : string;
  mw_homeId : string;
  mw_policyId : string;
  mw_expectedPolicyRevision : Z;
  mw_zoneId : string;
  mw_expectedZoneRevision : Z;
  mw_actorAccountId : string;
  mw_durationSeconds : Z;
  mw_createdAtMs : Z;
  mw_expiresAtMs : Z;
}.
Definition ManualWaterOverride_valid (o : ManualWaterOverride) : Prop :=
  Identity (mw_overrideId o) /\ Identity (mw_coreId o) /\ Identity (mw_homeId o) /\
  Identity (mw_policyId o) /\ Revision (mw_expectedPolicyRevision o) /\ Identity (mw_zoneId o) /\
  Revision (mw_expectedZoneRevision o) /\ Identity (mw_actorAccountId o) /\
  1 <= mw_durationSeconds o <= 7200 /\ TimestampMs (mw_createdAtMs o) /\
  TimestampMs (mw_expiresAtMs o) /\ mw_createdAtMs o < mw_expiresAtMs o /\
  mw_expiresAtMs o - mw_createdAtMs o <= 24 * HOUR_MS.
#[export] Instance ManualWaterOverride_valid_dec a : Decision (ManualWaterOverride_valid a).
Proof. unfold ManualWaterOverride_valid. solve_dec. Defined.
#[export] Instance ManualWaterOverride_model : Model ManualWaterOverride :=
  {| model_valid := ManualWaterOverride_valid |}.

Record IrrigationInputRevisions := {
  ir_policyRevision : Z;
  ir_safetyRevision : Z;
  ir_forecastRevision : Z;
  ir_budgetRevision : Z;
  ir_forecastSourceId : string;
  ir_forecastSourceRevision : Z;
  ir_soilSensorIds : list (string * string);
  ir_soilSensorRevisions : list (string * Z);
  ir_soilReadingRevisions : list (string * Z);
}.
#[export] Instance IrrigationInputRevisions_eq_dec : EqDecision IrrigationInputRevisions.
Proof. solve_decision. Defined.
Definition keyed_by_identity {V} (P : V -> Prop) (l : list (string * V)) : Prop :=
  (1 <= length l <= 32)%nat /\ Forall (fun e => Identity e.1 /\ P e.2) l.
#[export] Instance keyed_by_identity_dec {V} (P : V -> Prop) `{!forall x, Decision (P x)} l :
  Decision (keyed_by_identity P l).
Proof. unfold keyed_by_identity. solve_dec. Defined.
Definition InputRevisions_valid (r : IrrigationInputRevisions) : Prop :=
  Revision (ir_policyRevision r) /\ Revision (ir_safetyRevision r) /\
  Revision (ir_forecastRevision r) /\ Revision (ir_budgetRevision r) /\
  Identity (ir_forecastSourceId r) /\ Revision (ir_forecastSourceRevision r) /\
  keyed_by_identity Identity (ir_soilSensorIds r) /\
  keyed_by_identity Revision (ir_soilSensorRevisions r) /\
  keyed_by_identity Revision (ir_soilReadingRevisions r).
#[export] Instance InputRevisions_valid_dec a : Decision (InputRevisions_valid a).
Proof. unfold InputRevisions_valid. solve_dec. Defined.
#[export] Instance InputRevisions_model : Model IrrigationInputRevisions :=
  {| model_valid := InputRevisions_valid |}.

Inductive item_status := Planned | Deferred | Skipped | Blocked.
Inductive item_reason :=
  | moisture_deficit | by_override | rain_forecast | moisture_sufficient | budget_exhausted
  | leak_detected | freeze_risk | wind_risk | safety_stale | soil_sensor_stale.
#[export] Instance item_status_eq_dec : EqDecision item_status.
Proof. solve_decision. Defined.
#[export] Instance item_reason_eq_dec : EqDecision item_reason.
Proof. solve_decision. Defined.

Record IrrigationPlanItem := {
  it_zone : IrrigationZone;
  it_status : item_status;
  it_reason : item_reason;
  it_durationSeconds : Z;
  it_estimatedWaterMl : Z;
}.
#[export] Instance IrrigationPlanItem_eq_dec : EqDecision IrrigationPlanItem.
Proof. solve_decision. Defined.
Definition IrrigationPlanItem_valid (i : IrrigationPlanItem) : Prop :=
  IrrigationZone_valid (it_zone i) /\ 0 <= it_durationSeconds i <= 7200 /\
  0 <= it_estimatedWaterMl i <= 10 ^ 10.
#[export] Instance IrrigationPlanItem_valid_dec a : Decision (IrrigationPlanItem_valid a).
Proof. unfold IrrigationPlanItem_valid. solve_dec. Defined.
#[export] Instance IrrigationPlanItem_model : Model IrrigationPlanItem :=
  {| model_valid := IrrigationPlanItem_valid |}.

Record IrrigationPlan := {
  ipl_planId : string;
  ipl_coreId : string;
  ipl_homeId : string;
  ipl_homeRevision : Z;
  ipl_policyId : string;
  ipl_policyRevision : Z;
  ipl_policyHash : string;
  ipl_actorAccountId : string;
  ipl_accountRevision : Z;
  ipl_sessionFamilyId : string;
  ipl_generatedAtMs : Z;
  ipl_forecastAvailable : bool;
  ipl_inputRevisions : IrrigationInputRevisions;
  ipl_items : list IrrigationPlanItem;
  ipl_totalWaterMl : Z;
  ipl_estimatedCostMicros : Z;
}.
#[export] Instance IrrigationPlan_eq_dec : EqDecision IrrigationPlan.
Proof. solve_decision. Defined.
Definition IrrigationPlan_valid (p : IrrigationPlan) : Prop :=
  Identity (ipl_planId p) /\ Identity (ipl_coreId p) /\ Identity (ipl_homeId p) /\
  Revision (ipl_homeRevision p) /\ Identity (ipl_policyId p) /\ Revision (ipl_policyRevision p) /\
  Snapshot (ipl_policyHash p) /\ Identity (ipl_actorAccountId p) /\
  Revision (ipl_accountRevision p) /\ Identity (ipl_sessionFamilyId p) /\
  TimestampMs (ipl_generatedAtMs p) /\ InputRevisions_valid (ipl_inputRevisions p) /\
  (1 <= length (ipl_items p) <= 32)%nat /\ Forall IrrigationPlanItem_valid (ipl_items p) /\
  0 <= ipl_totalWaterMl p <= 10 ^ 10 /\ 0 <= ipl_estimatedCostMicros p <= 2 ^ 63 - 1.
#[export] Instance IrrigationPlan_valid_dec a : Decision (IrrigationPlan_valid a).
Proof. unfold IrrigationPlan_valid. solve_dec. Defined.
#[export] Instance IrrigationPlan_model : Model IrrigationPlan := {| model_valid := IrrigationPlan_valid |}.

(** ** The planner *)

Definition DAY_MS : Z := 24 * HOUR_MS.

Definition zone_le (a b : IrrigationZone) : Prop := str_le (zn_zoneId a) (zn_zoneId b).
#[export] Instance zone_le_dec a b : Decision (zone_le a b).
Proof. unfold zone_le. apply _. Defined.

(** The reason for which no valve may open at all. *)
Definition safety_reason (now : Z) (p : IrrigationPolicy) (s : IrrigationSafetySnapshot)
  : option item_reason :=
  if decide (ss_observedAtMs s > now \/ now - ss_observedAtMs s > ip_safetyMaxAgeMs p)
  then Some safety_stale
  else if ss_leakDetected s then Some leak_detected
  else if decide (ss_temperatureMilliC s <= ip_freezeThresholdMilliC p) then Some freeze_risk
  else if decide (ss_windMilliMps s >= ip_windLimitMilliMps p) then Some wind_risk
  else None.

Definition forecast_available (now : Z) (p : IrrigationPolicy) (f : RainForecast) : Prop :=
  rf_generatedAtMs f <= now <= rf_validUntilMs f /\ now - rf_generatedAtMs f <= ip_forecastMaxAgeMs p.
#[export] Instance forecast_available_dec now p f : Decision (forecast_available now p f).
Proof. unfold forecast_available. apply _. Defined.

Definition soil_stale (now : Z) (p : IrrigationPolicy) (r : SoilMoistureReading) : Prop :=
  sm_observedAtMs r > now \/ now - sm_observedAtMs r > ip_soilMaxAgeMs p.
#[export] Instance soil_stale_dec now p r : Decision (soil_stale now p r).
Proof. unfold soil_stale. apply _. Defined.

(** What is wanted for a zone before the budget is looked at. *)
Definition wanted (now : Z) (p : IrrigationPolicy) (safety : option item_reason) (f : RainForecast)
    (override : option ManualWaterOverride) (z : IrrigationZone) (r : SoilMoistureReading)
  : item_reason * item_status * Z :=
  match safety with
  | Some reason => (reason, Blocked, 0)
  | None =>
      if decide (soil_stale now p r) then (soil_sensor_stale, Blocked, 0)
      else match override with
      | Some o => (by_override, Planned, mw_durationSeconds o)
      | None =>
          if decide (sm_moisturePermille r >= ip_targetMoisturePermille p)
          then (moisture_sufficient, Skipped, 0)
          else if decide (forecast_available now p f /\ rf_rainMilliMm f >= ip_rainDeferralMilliMm p)
          then (rain_forecast, Deferred, 0)
          else (moisture_deficit, Planned,
                Z.max 1 ((ip_targetMoisturePermille p - sm_moisturePermille r)
                         * zn_maxDurationSeconds z / ip_targetMoisturePermille p))
      end
  end.

Definition water_of (duration flow : Z) : Z := Z.max 1 (duration * flow / 60).

(** The rest of the loop body: fit the zone into the remaining budget. *)
Definition fit_budget (remaining : Z) (z : IrrigationZone) (w : item_reason * item_status * Z)
  : IrrigationPlanItem :=
  let '(reason, status, duration) := w in
  let water := if decide (duration = 0) then 0 else water_of duration (zn_flowMlPerMinute z) in
  let '(reason, status, duration, water) :=
    if decide (status = Planned /\ water > remaining) then
      let affordable_seconds := remaining * 60 / zn_flowMlPerMinute z in
      if decide (affordable_seconds < 1) then (budget_exhausted, Skipped, 0, 0)
      else let duration := Z.min duration affordable_seconds in
           (reason, status, duration, water_of duration (zn_flowMlPerMinute z))
    else (reason, status, duration, water) in
  let '(duration, water) := if decide (status <> Planned) then (0, 0) else (duration, water) in
  {| it_zone := z; it_status := status; it_reason := reason; it_durationSeconds := duration;
     it_estimatedWaterMl := water |}.

(** Everything a plan's identity is hashed from. *)
Record PlanIdentity := {
  pi_policyHash : string;
  pi_core : string;
  pi_home : string;
  pi_actor : string;
  pi_accountRevision : Z;
  pi_at : Z;
  pi_inputs : IrrigationInputRevisions;
  pi_soil : list SoilMoistureReading;
  pi_safety : IrrigationSafetySnapshot;
  pi_forecast : RainForecast;
  pi_budget : WaterBudget;
  pi_overrides : list ManualWaterOverride;
  pi_items : list IrrigationPlanItem;
}.

Section planner.
Variable hash_policy : IrrigationPolicy -> string.
Variable hash_identity : PlanIdentity -> string.
Variable resolve_authority : string -> resolved IrrigationAuthority.
Variable resolve_policy : string -> resolved IrrigationPolicy.

Definition irrigation_authority (ra : raw IrrigationAuthority) : res IrrigationAuthority :=
  a ← except_value_error (model_validate ra) (ApiError "invalid_request" 400);
  current ← except_any (validate_resolved (resolve_authority (ia_accountId a))) (ApiError "forbidden" 403);
  _ ← raise_if (current <> a) (ApiError "revision_conflict" 409);
  _ ← raise_if (ia_active a = false \/ ia_role a <> RoleAdmin \/ ia_canManageIrrigation a = false)
        (ApiError "forbidden" 403);
  Ok a.

Definition irrigation_policy (rp : raw IrrigationPolicy) : res IrrigationPolicy :=
  p ← except_value_error (model_validate rp) (ApiError "invalid_request" 400);
  current ← except_any (validate_resolved (resolve_policy (ip_policyId p)))
              (ApiError "revision_conflict" 409);
  _ ← raise_if (current <> p) (ApiError "revision_conflict" 409);
  _ ← raise_if (ip_active p = false) (ApiError "forbidden" 403);
  Ok p.

(** [readings[zone_id]]: the lists were checked to name the same zones. *)
Definition reading_of (soil : list SoilMoistureReading) (z : IrrigationZone)
  : option SoilMoistureReading :=
  dict_get (dict_of sm_zoneId id soil) (zn_zoneId z).

Definition check_reading (p : IrrigationPolicy) (zones : list (string * IrrigationZone))
    (e : string * SoilMoistureReading) : res unit :=
  z ← require_some (dict_get zones e.1) KeyError;
  raise_if ((sm_coreId e.2, sm_homeId e.2, sm_zoneRevision e.2)
            <> (ip_coreId p, ip_homeId p, zn_zoneRevision z)) (ApiError "revision_conflict" 409).

(** One iteration of the override loop. *)
Definition take_override (now : Z) (p : IrrigationPolicy) (a : IrrigationAuthority)
    (zones : list (string * IrrigationZone)) (active : list (string * ManualWaterOverride))
    (o : ManualWaterOverride) : res (list (string * ManualWaterOverride)) :=
  z ← require_some (dict_get zones (mw_zoneId o)) (ApiError "revision_conflict" 409);
  _ ← raise_if ((mw_coreId o, mw_homeId o, mw_policyId o, mw_expectedPolicyRevision o,
                 mw_expectedZoneRevision o, mw_actorAccountId o)
                <> (ip_coreId p, ip_homeId p, ip_policyId p, ip_policyRevision p,
                    zn_zoneRevision z, ia_accountId a)) (ApiError "revision_conflict" 409);
  _ ← raise_if (mw_createdAtMs o > now) (ApiError "invalid_request" 400);
  _ ← raise_if (mw_durationSeconds o > zn_maxDurationSeconds z) (ApiError "invalid_request" 400);
  _ ← raise_if (is_Some (dict_get active (mw_zoneId o))) (ApiError "invalid_request" 400);
  Ok (if decide (now < mw_expiresAtMs o) then dict_set active (mw_zoneId o) o else active).

(** The planning loop over the zones in identity order. *)
Fixpoint plan_items (now : Z) (p : IrrigationPolicy) (safety : option item_reason) (f : RainForecast)
    (active : list (string * ManualWaterOverride)) (soil : list SoilMoistureReading)
    (remaining : Z) (zones : list IrrigationZone) : res (list IrrigationPlanItem) :=
  match zones with
  | [] => Ok []
  | z :: zones' =>
      r ← require_some (reading_of soil z) KeyError;
      let item := fit_budget remaining z (wanted now p safety f (dict_get active (zn_zoneId z)) z r) in
      i ← model_validate (Shaped item);
      l ← plan_items now p safety f active soil (remaining - it_estimatedWaterMl item) zones';
      Ok (i :: l)
  end.

Definition sorted_zones (p : IrrigationPolicy) : list IrrigationZone := py_sorted zone_le (ip_zones p).

Definition override_le (a b : ManualWaterOverride) : Prop := str_le (mw_zoneId a) (mw_zoneId b).
#[export] Instance override_le_dec a b : Decision (override_le a b).
Proof. unfold override_le. apply _. Defined.
Definition reading_le (a b : SoilMoistureReading) : Prop := str_le (sm_zoneId a) (sm_zoneId b).
#[export] Instance reading_le_dec a b : Decision (reading_le a b).
Proof. unfold reading_le. apply _. Defined.

(** The plan made from the items: the revisions it binds, its totals and the
    digest that names it. *)
Definition finish_plan (now : Z) (a : IrrigationAuthority) (p : IrrigationPolicy)
    (safety : IrrigationSafetySnapshot) (f : RainForecast) (b : WaterBudget)
    (readings : list (string * SoilMoistureReading)) (active : list (string * ManualWaterOverride))
    (items : list IrrigationPlanItem) : res IrrigationPlan :=
  let by_zone := py_sorted reading_le (dict_values readings) in
  revisions ← model_validate (Shaped
    {| ir_policyRevision := ip_policyRevision p; ir_safetyRevision := ss_safetyRevision safety;
       ir_forecastRevision := rf_forecastRevision f; ir_budgetRevision := wb_budgetRevision b;
       ir_forecastSourceId := rf_sourceId f; ir_forecastSourceRevision := rf_sourceRevision f;
       ir_soilSensorIds := (fun r => (sm_zoneId r, sm_sensorId r)) <$> by_zone;
       ir_soilSensorRevisions := (fun r => (sm_zoneId r, sm_sensorRevision r)) <$> by_zone;
       ir_soilReadingRevisions := (fun r => (sm_zoneId r, sm_readingRevision r)) <$> by_zone |});
  let total := zsum (it_estimatedWaterMl <$> items) in
  let policy_hash := hash_policy p in
  let identity := {| pi_policyHash := policy_hash; pi_core := ip_coreId p; pi_home := ip_homeId p;
       pi_actor := ia_accountId a; pi_accountRevision := ia_accountRevision a; pi_at := now;
       pi_inputs := revisions; pi_soil := by_zone; pi_safety := safety; pi_forecast := f;
       pi_budget := b; pi_overrides := py_sorted override_le (dict_values active);
       pi_items := items |} in
  model_validate (Shaped
    {| ipl_planId := hash_identity identity; ipl_coreId := ip_coreId p; ipl_homeId := ip_homeId p;
       ipl_homeRevision := ia_homeRevision a; ipl_policyId := ip_policyId p;
       ipl_policyRevision := ip_policyRevision p; ipl_policyHash := policy_hash;
       ipl_actorAccountId := ia_accountId a; ipl_accountRevision := ia_accountRevision a;
       ipl_sessionFamilyId := ia_sessionFamilyId a; ipl_generatedAtMs := now;
       ipl_forecastAvailable := bool_decide (forecast_available now p f);
       ipl_inputRevisions := revisions; ipl_items := items; ipl_totalWaterMl := total;
       ipl_estimatedCostMicros := total * wb_priceMicrosPerLiter b / 1000 |}).

Definition irrigation_plan (ra : raw IrrigationAuthority) (rp : raw IrrigationPolicy)
    (rsoil : list (raw SoilMoistureReading)) (rsafety : raw IrrigationSafetySnapshot)
    (rforecast : raw RainForecast) (rbudget : raw WaterBudget) (now : Z)
    (roverrides : list (raw ManualWaterOverride)) : res IrrigationPlan :=
  a ← irrigation_authority ra;
  p ← irrigation_policy rp;
  inputs ← except_value_error (
    soil ← model_validate_all rsoil;
    safety ← model_validate rsafety;
    f ← model_validate rforecast;
    b ← model_validate rbudget;
    overrides ← model_validate_all roverrides;
    _ ← raise_if (now < 0) (ValueError "");
    Ok (soil, safety, f, b, overrides)) (ApiError "invalid_request" 400);
  let '(soil, safety, f, b, overrides) := inputs in
  _ ← raise_if ((ip_coreId p, ip_homeId p) <> (ia_coreId a, ia_homeId a)) (ApiError "not_found" 404);
  _ ← raise_if ((ss_coreId safety, ss_homeId safety) <> (ip_coreId p, ip_homeId p) \/
                (rf_coreId f, rf_homeId f) <> (ip_coreId p, ip_homeId p) \/
                (wb_coreId b, wb_homeId b) <> (ip_coreId p, ip_homeId p)) (ApiError "not_found" 404);
  _ ← raise_if (~ wb_dayStartMs b <= now < wb_dayStartMs b + DAY_MS) (ApiError "revision_conflict" 409);
  let zones := dict_of zn_zoneId id (ip_zones p) in
  let readings := dict_of sm_zoneId id soil in
  _ ← raise_if (length readings <> length soil \/
                (list_to_set (dict_keys readings) : gset string) <> list_to_set (dict_keys zones))
        (ApiError "revision_conflict" 409);
  _ ← for_each (check_reading p zones) readings;
  active ← fold_res (take_override now p a zones) [] overrides;
  let reason := safety_reason now p safety in
  items ← plan_items now p reason f active soil (wb_dailyLimitMl b - wb_usedMl b) (sorted_zones p);
  finish_plan now a p safety f b readings active items.
End planner.

(** ** Lemmas on one zone *)

Definition wanted_ok (z : IrrigationZone) (w : item_reason * item_status * Z) : Prop :=
  match w.1.2 with
  | Planned => 1 <= w.2 <= zn_maxDurationSeconds z
  | _ => w.2 = 0
  end.

Lemma wanted_duration now p safety f o z r :
  IrrigationPolicy_valid p -> IrrigationZone_valid z -> SoilMoistureReading_valid r ->
  match o with Some o => 1 <= mw_durationSeconds o <= zn_maxDurationSeconds z | None => True end ->
  wanted_ok z (wanted now p safety f o z r).
Proof.
  intros Hp Hz Hr Ho. unfold wanted, wanted_ok. destruct safety; [done|].
  case_decide; [done|]. destruct o as [o|]; [done|].
  case_decide as Hm; [done|]. case_decide; [done|]. cbn.
  destruct Hp as (_ & _ & _ & _ & _ & _ & Ht & _).
  destruct Hr as (_ & _ & _ & _ & _ & _ & _ & Hmo & _).
  destruct Hz as (_ & _ & _ & _ & _ & _ & _ & _ & _ & _ & _ & Hd).
  set (t := ip_targetMoisturePermille p) in *. set (m := sm_moisturePermille r) in *.
  set (d := zn_maxDurationSeconds z) in *.
  assert ((t - m) * d / t <= d); [|lia].
  apply Z.div_le_upper_bound; [lia|]. nia.
Qed.

Record item_ok (remaining : Z) (z : IrrigationZone) (w : item_reason * item_status * Z)
    (i : IrrigationPlanItem) : Prop := {
  io_zone : it_zone i = z;
  io_water : 0 <= it_estimatedWaterMl i <= remaining;
  io_duration : 0 <= it_durationSeconds i <= zn_maxDurationSeconds z;
  io_status : (it_status i, it_reason i) = (w.1.2, w.1.1) \/
              (w.1.2 = Planned /\ (it_status i, it_reason i) = (Skipped, budget_exhausted));
  io_planned : match it_status i with
               | Planned => 1 <= it_durationSeconds i <= w.2 /\
                   it_estimatedWaterMl i = water_of (it_durationSeconds i) (zn_flowMlPerMinute z)
               | _ => it_durationSeconds i = 0 /\ it_estimatedWaterMl i = 0
               end;
}.

Lemma water_affordable remaining flow : 0 < flow -> 1 <= remaining * 60 / flow ->
  forall d, 1 <= d <= remaining * 60 / flow -> water_of d flow <= remaining.
Proof.
  intros Hf Ha d Hd. unfold water_of.
  pose proof (Z.mul_div_le (remaining * 60) flow Hf) as Hm.
  assert (d * flow <= remaining * 60) by nia.
  assert (d * flow / 60 <= remaining) by (apply Z.div_le_upper_bound; lia).
  assert (1 <= remaining); [|lia].
  destruct (Z_lt_le_dec remaining 1); [|lia]. exfalso.
  assert (remaining * 60 / flow <= 0) by (apply Z.div_le_upper_bound; nia). lia.
Qed.

Local Ltac item_tac :=
  constructor; cbn; try done; try lia; try (unfold water_of in *; lia); try (by left); try (by right);
  try (split; [lia|done]).

Lemma fit_budget_ok remaining z w : 0 <= remaining -> 0 < zn_flowMlPerMinute z ->
  0 <= zn_maxDurationSeconds z -> wanted_ok z w -> item_ok remaining z w (fit_budget remaining z w).
Proof.
  intros Hr Hf Hmax Hw. destruct w as [[reason status] duration]. unfold wanted_ok in Hw. cbn in Hw.
  unfold fit_budget.
  destruct (decide (status = Planned)) as [->|Hs].
  - rewrite (decide_False (P := duration = 0)) by lia.
    case_decide as Hb.
    + case_decide as Ha; cbn [fst snd].
      * rewrite decide_True by done. item_tac.
      * rewrite decide_False by tauto.
        pose proof (water_affordable remaining (zn_flowMlPerMinute z) Hf ltac:(lia)
          (Z.min duration (remaining * 60 / zn_flowMlPerMinute z)) ltac:(lia)) as Hwat.
        item_tac.
    + assert (~ water_of duration (zn_flowMlPerMinute z) > remaining) by tauto.
      rewrite decide_False by tauto. item_tac.
  - assert (duration = 0) as -> by (by destruct status).
    rewrite (decide_True (P := 0 = 0)) by done. rewrite decide_False by tauto.
    rewrite decide_True by done.
    item_tac. by destruct status.
Qed.

(** ** The loop *)

(** Every item fits what the items before it left. *)
Fixpoint items_ok (want : IrrigationZone -> option (item_reason * item_status * Z)) (remaining : Z)
    (zones : list IrrigationZone) (items : list IrrigationPlanItem) : Prop :=
  match zones, items with
  | [], [] => True
  | z :: zones', i :: items' =>
      (exists w, want z = Some w /\ item_ok remaining z w i) /\
      items_ok want (remaining - it_estimatedWaterMl i) zones' items'
  | _, _ => False
  end.

Lemma items_ok_zones want remaining zones items :
  items_ok want remaining zones items -> it_zone <$> items = zones.
Proof.
  revert remaining items. induction zones as [|z zones IH]; intros remaining [|i items] Hok;
    cbn in Hok; try done.
  destruct Hok as [(w & _ & Hi) Hok]. cbn. f_equal; [apply Hi|by eapply IH].
Qed.

Lemma items_ok_each want remaining zones items i :
  items_ok want remaining zones items -> i ∈ items ->
  exists w rem, want (it_zone i) = Some w /\ item_ok rem (it_zone i) w i /\ it_zone i ∈ zones.
Proof.
  revert remaining items. induction zones as [|z zones IH]; intros remaining [|j items] Hok Hi;
    cbn in Hok; try done; [by inversion Hi|].
  destruct Hok as [(w & Hw & Hj) Hok]. apply elem_of_cons in Hi as [->|Hi].
  - exists w, remaining. rewrite (io_zone _ _ _ _ Hj). split_and!; [done|done|left].
  - destruct (IH _ _ Hok Hi) as (w' & r' & ? & ? & ?). exists w', r'. split_and!; [done..|by right].
Qed.

Lemma items_ok_total want remaining zones items :
  0 <= remaining -> items_ok want remaining zones items ->
  0 <= zsum (it_estimatedWaterMl <$> items) <= remaining.
Proof.
  revert remaining items. induction zones as [|z zones IH]; intros remaining [|i items] Hr Hok;
    cbn in Hok; try done.
  destruct Hok as [(w & _ & Hi) Hok]. pose proof (io_water _ _ _ _ Hi).
  cbn. rewrite zsum_cons. apply IH in Hok; lia.
Qed.

Section loop.
Context (now : Z) (p : IrrigationPolicy) (safety : option item_reason) (f : RainForecast).
Context (active : list (string * ManualWaterOverride)) (soil : list SoilMoistureReading).

(** What each zone of the policy wants. *)
Definition want (z : IrrigationZone) : option (item_reason * item_status * Z) :=
  r ← reading_of soil z; Some (wanted now p safety f (dict_get active (zn_zoneId z)) z r).

Hypothesis policy_ok : IrrigationPolicy_valid p.
Hypothesis soil_ok : Forall SoilMoistureReading_valid soil.
Hypothesis active_ok : forall z o, z ∈ ip_zones p -> dict_get active (zn_zoneId z) = Some o ->
  1 <= mw_durationSeconds o <= zn_maxDurationSeconds z.

Lemma zone_valid z : z ∈ ip_zones p -> IrrigationZone_valid z.
Proof.
  intros Hz. destruct policy_ok as (_ & _ & _ & _ & _ & Hv & _). rewrite Forall_forall in Hv. by apply Hv.
Qed.

Lemma reading_of_elem z r : reading_of soil z = Some r -> r ∈ soil /\ sm_zoneId r = zn_zoneId z.
Proof. unfold reading_of. intros (x & ? & ? & <-)%dict_of_get_elem. done. Qed.

Lemma want_ok z r : z ∈ ip_zones p -> reading_of soil z = Some r ->
  wanted_ok z (wanted now p safety f (dict_get active (zn_zoneId z)) z r).
Proof.
  intros Hz Hr. apply wanted_duration; [done|by apply zone_valid| |].
  - apply reading_of_elem in Hr as [Hr _]. rewrite Forall_forall in soil_ok. by apply soil_ok.
  - destruct (dict_get active _) as [o|] eqn:Eo; [by eapply active_ok|done].
Qed.

Lemma item_of_ok z r remaining : z ∈ ip_zones p -> reading_of soil z = Some r -> 0 <= remaining ->
  item_ok remaining z (wanted now p safety f (dict_get active (zn_zoneId z)) z r)
    (fit_budget remaining z (wanted now p safety f (dict_get active (zn_zoneId z)) z r)).
Proof.
  intros Hz Hr H0. pose proof (zone_valid z Hz) as Hv.
  destruct Hv as (_ & _ & _ & _ & _ & _ & _ & _ & _ & _ & ? & ?).
  apply fit_budget_ok; [done|lia|lia|by apply want_ok].
Qed.

Lemma plan_items_ok remaining zones items : 0 <= remaining -> Forall (fun z => z ∈ ip_zones p) zones ->
  plan_items now p safety f active soil remaining zones = Ok items ->
  items_ok want remaining zones items.
Proof.
  intros H0 Hz. revert remaining items H0.
  induction Hz as [|z zones Hz _ IH]; intros remaining items H0 Hp; cbn in Hp; [by inv_ok|].
  apply bind_ok in Hp as (r & Hr & Hp). apply require_some_ok in Hr.
  apply bind_ok in Hp as (i & Hi & Hp). apply bind_ok in Hp as (l & Hl & Hp). inv_ok.
  pose proof (item_of_ok z r remaining Hz Hr H0) as Hok.
  assert (i = fit_budget remaining z (wanted now p safety f (dict_get active (zn_zoneId z)) z r)) as ->.
  { unfold model_validate in Hi. case_decide; by inv_ok. }
  split; [|apply IH; [|done]; pose proof (io_water _ _ _ _ Hok); lia].
  eexists. split; [|exact Hok]. unfold want. by rewrite Hr.
Qed.

Lemma plan_items_total remaining zones : 0 <= remaining <= 10 ^ 10 ->
  Forall (fun z => z ∈ ip_zones p) zones -> Forall (fun z => is_Some (reading_of soil z)) zones ->
  exists items, plan_items now p safety f active soil remaining zones = Ok items /\
    Forall IrrigationPlanItem_valid items.
Proof.
  intros H0 Hz Hr. revert remaining H0. induction zones as [|z zones IH]; intros remaining H0.
  - exists []. by split.
  - apply Forall_cons in Hz as [Hz Hzs]. apply Forall_cons in Hr as [[r Hr] Hrs].
    pose proof (item_of_ok z r remaining Hz Hr ltac:(lia)) as Hok.
    cbn [plan_items]. rewrite Hr. cbn [require_some mbind res_bind].
    set (i := fit_budget _ _ _) in *.
    pose proof (io_water _ _ _ _ Hok). pose proof (io_duration _ _ _ _ Hok).
    pose proof (zone_valid z Hz) as Hv.
    assert (IrrigationPlanItem_valid i) as Hvi.
    { unfold IrrigationPlanItem_valid. rewrite (io_zone _ _ _ _ Hok). split; [done|].
      destruct Hv as (_ & _ & _ & _ & _ & _ & _ & _ & _ & _ & ? & ?). lia. }
    assert (model_validate (Shaped i) = Ok i) as -> by (by apply model_validate_ok).
    cbn [mbind res_bind].
    destruct (IH Hzs Hrs (remaining - it_estimatedWaterMl i)) as (items & -> & Hvs); [lia|].
    cbn [mbind res_bind]. exists (i :: items). by split; [|constructor].
Qed.
End loop.

Section plans.
Variable hash_policy : IrrigationPolicy -> string.
Variable hash_identity : PlanIdentity -> string.
Variable resolve_authority : string -> resolved IrrigationAuthority.
Variable resolve_policy : string -> resolved IrrigationPolicy.

Local Notation plan_of := (irrigation_plan hash_policy hash_identity resolve_authority resolve_policy).

(** The override a zone has, with what was checked of it. *)
Definition overrides_ok (now : Z) (p : IrrigationPolicy) (a : IrrigationAuthority)
    (overrides : list ManualWaterOverride) (active : list (string * ManualWaterOverride)) : Prop :=
  forall k o, dict_get active k = Some o ->
    o ∈ overrides /\ mw_zoneId o = k /\ mw_createdAtMs o <= now < mw_expiresAtMs o /\
    (mw_coreId o, mw_homeId o, mw_policyId o, mw_expectedPolicyRevision o, mw_actorAccountId o)
    = (ip_coreId p, ip_homeId p, ip_policyId p, ip_policyRevision p, ia_accountId a) /\
    exists z, dict_get (dict_of zn_zoneId id (ip_zones p)) k = Some z /\
              mw_expectedZoneRevision o = zn_zoneRevision z /\ mw_durationSeconds o <= zn_maxDurationSeconds z.

Lemma take_overrides_ok now p a overrides active :
  fold_res (take_override now p a (dict_of zn_zoneId id (ip_zones p))) [] overrides = Ok active ->
  overrides_ok now p a overrides active.
Proof.
  apply (fold_res_invariant (overrides_ok now p a overrides)); [|by intros k o Hk].
  intros o act act' Ho Hact Hstep. unfold take_override in Hstep.
  apply bind_ok in Hstep as (z & Hz & Hstep). apply require_some_ok in Hz.
  apply bind_ok in Hstep as (? & Hs & Hstep). apply raise_if_ok, dec_stable in Hs.
  injection Hs as Hcore Hhome Hpol Hrev Hzrev Hactor.
  apply bind_ok in Hstep as (? & Hc & Hstep). apply raise_if_ok in Hc.
  apply bind_ok in Hstep as (? & Hd & Hstep). apply raise_if_ok in Hd.
  apply bind_ok in Hstep as (? & _ & Hstep). inv_ok.
  case_decide as Hx; [|done]. intros k o'. rewrite dict_get_set.
  case_decide as Hk; intros Hg; [|by apply Hact]. injection Hg as <-. subst k.
  split_and!; try done; try lia; [congruence|]. exists z. split_and!; [done|done|lia].
Qed.

(** Everything a successful plan was made from. *)
Record made_from rsoil rsafety rforecast rbudget now roverrides (pl : IrrigationPlan)
    (a : IrrigationAuthority) (p : IrrigationPolicy) (soil : list SoilMoistureReading)
    (s : IrrigationSafetySnapshot) (f : RainForecast) (b : WaterBudget)
    (active : list (string * ManualWaterOverride)) : Prop := {
  mf_policy : IrrigationPolicy_valid p /\ resolve_policy (ip_policyId p) = Resolved (Shaped p) /\
              ip_active p = true;
  mf_soil : rsoil = Shaped <$> soil /\ Forall SoilMoistureReading_valid soil;
  mf_safety : rsafety = Shaped s /\ SafetySnapshot_valid s;
  mf_forecast : rforecast = Shaped f;
  mf_budget : rbudget = Shaped b /\ WaterBudget_valid b;
  mf_overrides : exists overrides, roverrides = Shaped <$> overrides /\
    Forall ManualWaterOverride_valid overrides /\ overrides_ok now p a overrides active;
  mf_items : plan_items now p (safety_reason now p s) f active soil
               (wb_dailyLimitMl b - wb_usedMl b) (sorted_zones p) = Ok (ipl_items pl);
  mf_scope : (ip_coreId p, ip_homeId p) = (ia_coreId a, ia_homeId a) /\
    (ss_coreId s, ss_homeId s) = (ip_coreId p, ip_homeId p) /\ (rf_coreId f, rf_homeId f) = (ip_coreId p, ip_homeId p);
  mf_readings : Forall (fun e => check_reading p (dict_of zn_zoneId id (ip_zones p)) e = Ok tt) (dict_of sm_zoneId id soil);
  mf_total : ipl_totalWaterMl pl = zsum (it_estimatedWaterMl <$> ipl_items pl);
}.

Lemma irrigation_policy_ok rp p : irrigation_policy resolve_policy rp = Ok p ->
  rp = Shaped p /\ IrrigationPolicy_valid p /\
  resolve_policy (ip_policyId p) = Resolved (Shaped p) /\ ip_active p = true.
Proof.
  unfold irrigation_policy. intros Hp. apply bind_ok in Hp as (q & Hq & Hp).
  apply except_value_error_ok, model_validate_ok in Hq as [-> Hv].
  apply bind_ok in Hp as (c & Hc & Hp). apply except_any_ok, validate_resolved_ok in Hc as [Hc _].
  apply bind_ok in Hp as (? & He & Hp). apply raise_if_ok, dec_stable in He. subst c.
  apply bind_ok in Hp as (? & Ha & Hp). apply raise_if_ok in Ha. inv_ok.
  split_and!; try done. by destruct (ip_active p).
Qed.

Lemma irrigation_plan_ok ra rp rsoil rsafety rforecast rbudget now roverrides pl :
  plan_of ra rp rsoil rsafety rforecast rbudget now roverrides = Ok pl ->
  exists a p soil s f b active, (rp = Shaped p /\ irrigation_authority resolve_authority ra = Ok a) /\
    made_from rsoil rsafety rforecast rbudget now roverrides pl a p soil s f b active.
Proof.
  unfold irrigation_plan. intros Hp.
  apply bind_ok in Hp as (a & Hauth & Hp). apply bind_ok in Hp as (p & Hpol & Hp).
  apply irrigation_policy_ok in Hpol as (-> & Hpv & Hres & Hact).
  apply bind_ok in Hp as ([[[[soil s] f] b] ov] & Hin & Hp).
  apply except_value_error_ok in Hin.
  apply bind_ok in Hin as (soil' & Hsoil & Hin). apply bind_ok in Hin as (s' & Hs & Hin).
  apply bind_ok in Hin as (f' & Hf & Hin). apply bind_ok in Hin as (b' & Hb & Hin).
  apply bind_ok in Hin as (ov' & Hov & Hin). apply bind_ok in Hin as (? & _ & Hin).
  injection Hin as -> -> -> -> ->.
  apply model_validate_all_ok in Hsoil, Hov. apply model_validate_ok in Hs, Hf, Hb.
  apply bind_ok in Hp as (? & Hscope%raise_if_ok & Hp). apply bind_ok in Hp as (? & Hhomes%raise_if_ok & Hp).
  do 2 (apply bind_ok in Hp as (? & _ & Hp)). apply bind_ok in Hp as ([] & Hread%for_each_ok & Hp). passed.
  apply bind_ok in Hp as (active & Hactive & Hp). apply bind_ok in Hp as (items & Hitems & Hp).
  unfold finish_plan in Hp. apply bind_ok in Hp as (rev & _ & Hp). apply model_validate_ok in Hp as [[= <-] _].
  exists a, p, soil, s, f, b, active. split; [done|]. constructor; cbn; try done.
  - by destruct Hf.
  - exists ov. destruct Hov. split_and!; try done. by apply take_overrides_ok.
Qed.

Lemma zones_unique p : IrrigationPolicy_valid p -> NoDup (zn_zoneId <$> ip_zones p).
Proof. intros (_ & _ & _ & _ & _ & _ & _ & _ & _ & _ & _ & _ & _ & _ & (? & _ & _)). done. Qed.

Lemma active_durations now a p ov active z o :
  IrrigationPolicy_valid p -> Forall ManualWaterOverride_valid ov -> overrides_ok now p a ov active ->
  z ∈ ip_zones p -> dict_get active (zn_zoneId z) = Some o ->
  1 <= mw_durationSeconds o <= zn_maxDurationSeconds z.
Proof.
  intros Hp Hv Hok Hz Ho.
  apply Hok in Ho as (Hin & Hk & _ & _ & z' & Hz' & _ & Hd).
  rewrite (dict_of_get zn_zoneId id) in Hz' by (done || by apply zones_unique). injection Hz' as <-.
  rewrite Forall_forall in Hv. apply Hv in Hin as (_ & _ & _ & _ & _ & _ & _ & _ & ? & _).
  cbn in Hd. lia.
Qed.

Lemma sorted_zones_in p : Forall (fun z => z ∈ ip_zones p) (sorted_zones p).
Proof. apply Forall_forall. intros z. unfold sorted_zones. by rewrite py_sorted_elem. Qed.

Lemma made_items_ok rsoil rsafety rforecast rbudget now roverrides pl a p soil s f b active :
  made_from rsoil rsafety rforecast rbudget now roverrides pl a p soil s f b active ->
  0 <= wb_dailyLimitMl b - wb_usedMl b /\
  items_ok (want now p (safety_reason now p s) f active soil) (wb_dailyLimitMl b - wb_usedMl b)
    (sorted_zones p) (ipl_items pl).
Proof.
  intros Hm. pose proof Hm as [[Hp _] [_ Hsv] _ _ [_ Hb] (ov & _ & Hov & Hok) Hi _].
  assert (0 <= wb_dailyLimitMl b - wb_usedMl b) as H0
    by (destruct Hb as (_ & _ & _ & _ & _ & _ & _ & ?); lia).
  split; [done|]. eapply plan_items_ok; try done; [|apply sorted_zones_in].
  intros z o Hz Ho. by eapply active_durations.
Qed.

(** What the valve component relies on: a planned item can be commanded. *)
Definition commandable (pl : IrrigationPlan) : Prop :=
  Forall (fun i => it_status i = Planned ->
    1 <= it_durationSeconds i /\ 1 <= it_estimatedWaterMl i) (ipl_items pl).

Lemma irrigation_plan_commandable ra rp rsoil rsafety rforecast rbudget now roverrides pl :
  plan_of ra rp rsoil rsafety rforecast rbudget now roverrides = Ok pl -> commandable pl.
Proof.
  intros (a & p & soil & s & f & b & active & [-> _] & Hm)%irrigation_plan_ok.
  destruct (made_items_ok _ _ _ _ _ _ _ _ _ _ _ _ _ _ Hm) as [_ Hok].
  apply Forall_forall. intros i Hi Hst.
  destruct (items_ok_each _ _ _ _ _ Hok Hi) as (w & rem & _ & [_ _ _ _ Hp] & _).
  rewrite Hst in Hp. unfold water_of in Hp. lia.
Qed.

(** C20 A plan never spends more than the day's budget has left.  It has one
    item per zone of the policy, in the order of their identities; the water
    of its items adds up to its total and to no more than the limit less what
    was used; no valve opens longer than its zone allows; and an item that is
    not planned opens nothing. *)
Theorem irrigation_within_budget ra rp rsoil rsafety rforecast rbudget now roverrides pl :
  plan_of ra rp rsoil rsafety rforecast rbudget now roverrides = Ok pl ->
  exists p b, rp = Shaped p /\ rbudget = Shaped b /\
    it_zone <$> ipl_items pl = sorted_zones p /\
    ipl_totalWaterMl pl = zsum (it_estimatedWaterMl <$> ipl_items pl) /\
    0 <= ipl_totalWaterMl pl <= wb_dailyLimitMl b - wb_usedMl b /\
    Forall (fun i => 0 <= it_durationSeconds i <= zn_maxDurationSeconds (it_zone i) /\
      (it_status i <> Planned -> it_durationSeconds i = 0 /\ it_estimatedWaterMl i = 0) /\
      (it_status i = Planned -> it_estimatedWaterMl i
         = water_of (it_durationSeconds i) (zn_flowMlPerMinute (it_zone i)))) (ipl_items pl).
Proof.
  intros (a & p & soil & s & f & b & active & [-> _] & Hm)%irrigation_plan_ok.
  exists p, b. destruct (made_items_ok _ _ _ _ _ _ _ _ _ _ _ _ _ _ Hm) as [H0 Hok].
  rewrite (mf_total _ _ _ _ _ _ _ _ _ _ _ _ _ _ Hm).
  split_and!; try done; try (by eapply items_ok_total); try (by eapply items_ok_zones).
  - apply Hm.
  - apply Forall_forall. intros i Hi.
    destruct (items_ok_each _ _ _ _ _ Hok Hi) as (w & rem & _ & [] & _).
    split; [lia|]. destruct (it_status i); split; try done; naive_solver.
Qed.

(** The reading of a zone is of this home and of the zone as it is now. *)
Lemma planned_reading p soil z r : IrrigationPolicy_valid p ->
  Forall (fun e => check_reading p (dict_of zn_zoneId id (ip_zones p)) e = Ok tt) (dict_of sm_zoneId id soil) ->
  z ∈ ip_zones p -> reading_of soil z = Some r ->
  (sm_coreId r, sm_homeId r, sm_zoneId r, sm_zoneRevision r) = (ip_coreId p, ip_homeId p, zn_zoneId z, zn_zoneRevision z).
Proof.
  intros Hp Hf Hz Hr. pose proof (reading_of_elem _ _ _ Hr) as [_ Hid].
  unfold reading_of in Hr. apply dict_get_elem in Hr. rewrite Forall_forall in Hf. apply Hf in Hr.
  unfold check_reading in Hr. apply bind_ok in Hr as (z' & Hz'%require_some_ok & Hc%raise_if_ok). cbn in Hz', Hc.
  rewrite (dict_of_get zn_zoneId id) in Hz' by (done || by apply zones_unique). injection Hz' as <-.
  apply dec_stable in Hc. injection Hc as ? ? ?. unfold id in *. congruence.
Qed.

Lemma irrigation_authority_ok ra a : irrigation_authority resolve_authority ra = Ok a ->
  ra = Shaped a /\ resolve_authority (ia_accountId a) = Resolved (Shaped a) /\ ia_active a = true /\
  ia_role a = RoleAdmin /\ ia_canManageIrrigation a = true.
Proof.
  unfold irrigation_authority. intros Ha. apply bind_ok in Ha as (b & Hb & Ha).
  apply except_value_error_ok, model_validate_ok in Hb as [-> Hv].
  apply bind_ok in Ha as (c & Hc & Ha). apply except_any_ok, validate_resolved_ok in Hc as [Hc _].
  apply bind_ok in Ha as (? & He & Ha). apply raise_if_ok, dec_stable in He. subst c.
  apply bind_ok in Ha as (? & Hm & Ha). apply raise_if_ok in Hm. passed. inv_ok.
  split_and!; try done; by apply not_false_is_true.
Qed.

(** C25 Water flows only when everything allows it, by the word of a current
    administrator who may manage irrigation.  Every planned item is of a zone
    of the policy and rests on a safety snapshot of this home that is fresh and
    shows no leak, no freezing and wind under the limit, and on a fresh reading
    of its own zone at the zone's present revision; and either the presenting
    administrator has an override in force for that zone, made for this policy
    and zone at their present revisions, and the item is no longer than it; or
    its soil is below target and no fresh forecast promises enough rain. *)
Theorem irrigation_safety_gates ra rp rsoil rsafety rforecast rbudget now roverrides pl i :
  plan_of ra rp rsoil rsafety rforecast rbudget now roverrides = Ok pl ->
  i ∈ ipl_items pl -> it_status i = Planned ->
  exists a p s f r, ra = Shaped a /\ rp = Shaped p /\ rsafety = Shaped s /\ rforecast = Shaped f /\
    resolve_authority (ia_accountId a) = Resolved (Shaped a) /\ ia_active a = true /\ ia_role a = RoleAdmin /\
    ia_canManageIrrigation a = true /\ (ip_coreId p, ip_homeId p) = (ia_coreId a, ia_homeId a) /\
    (ss_coreId s, ss_homeId s) = (ip_coreId p, ip_homeId p) /\
    Shaped r ∈ rsoil /\ it_zone i ∈ ip_zones p /\
    (sm_coreId r, sm_homeId r, sm_zoneId r, sm_zoneRevision r)
    = (ip_coreId p, ip_homeId p, zn_zoneId (it_zone i), zn_zoneRevision (it_zone i)) /\
    now - ip_safetyMaxAgeMs p <= ss_observedAtMs s <= now /\ ss_leakDetected s = false /\
    ip_freezeThresholdMilliC p < ss_temperatureMilliC s /\
    ss_windMilliMps s < ip_windLimitMilliMps p /\
    now - ip_soilMaxAgeMs p <= sm_observedAtMs r <= now /\
    ((it_reason i = by_override /\ exists o, Shaped o ∈ roverrides /\ mw_actorAccountId o = ia_accountId a /\
        (mw_coreId o, mw_homeId o, mw_policyId o, mw_expectedPolicyRevision o)
        = (ip_coreId p, ip_homeId p, ip_policyId p, ip_policyRevision p) /\
        (mw_zoneId o, mw_expectedZoneRevision o) = (zn_zoneId (it_zone i), zn_zoneRevision (it_zone i)) /\
        mw_createdAtMs o <= now < mw_expiresAtMs o /\ it_durationSeconds i <= mw_durationSeconds o) \/
     (it_reason i = moisture_deficit /\ sm_moisturePermille r < ip_targetMoisturePermille p /\
      ~ (forecast_available now p f /\ ip_rainDeferralMilliMm p <= rf_rainMilliMm f))).
Proof.
  intros (a & p & soil & s & f & b & active & [-> Hauth] & Hm)%irrigation_plan_ok Hi Hst.
  apply irrigation_authority_ok in Hauth as (-> & Hau).
  destruct (made_items_ok _ _ _ _ _ _ _ _ _ _ _ _ _ _ Hm) as [H0 Hok].
  destruct (items_ok_each _ _ _ _ _ Hok Hi) as (w & rem & Hw & Hio & Hz).
  unfold sorted_zones in Hz. rewrite py_sorted_elem in Hz.
  unfold want in Hw. apply bind_Some in Hw as (r & Hr & Hw). injection Hw as <-.
  pose proof Hm as [(Hpv & _) [-> _] [-> _] -> _ (ov & -> & _ & Hov) _ (Hhome & Hsafe & _) Hread _].
  pose proof (planned_reading _ _ _ _ Hpv Hread Hz Hr) as Hsm. apply reading_of_elem in Hr as [Hr _].
  pose proof (io_status _ _ _ _ Hio) as Hs. pose proof (io_planned _ _ _ _ Hio) as Hdur. rewrite Hst in Hs, Hdur.
  destruct Hs as [Hs|[_ Hs]]; [|done]. injection Hs as Hs Hreason.
  unfold wanted in Hs, Hreason, Hdur. unfold safety_reason in Hs, Hreason, Hdur.
  case_decide as Hfresh; [done|]. destruct (ss_leakDetected s) eqn:Hleak; [done|].
  case_decide as Hfreeze; [done|]. case_decide as Hwind; [done|].
  case_decide as Hsoil; [done|]. unfold soil_stale in Hsoil.
  exists a, p, s, f, r. split_and!; try done; try apply Hau; try lia.
  - by apply list_elem_of_fmap_2.
  - destruct (dict_get active _) as [o|] eqn:Eo.
    + left. split; [done|]. apply Hov in Eo as (Hin & Hk & Ht & Hids & z' & Hz' & Hzr & _). exists o.
      rewrite (dict_of_get zn_zoneId id) in Hz' by (done || by apply zones_unique). injection Hz' as <-.
      injection Hids as ? ? ? ? ?. cbn in Hdur.
      split_and!; try done; try lia; [by apply list_elem_of_fmap_2|congruence..].
    + case_decide as Hmoist; [done|]. case_decide as Hrain; [done|]. right.
      split_and!; [done|lia|]. intros [? ?]. apply Hrain. split; [done|lia].
Qed.

(** *** The planner's own data is always valid *)

Hypothesis hash_policy_hex : forall p, Snapshot (hash_policy p).
Hypothesis hash_identity_hex : forall i, Identity (hash_identity i).

Section checked.
Context (now : Z) (a : IrrigationAuthority) (p : IrrigationPolicy).
Context (soil : list SoilMoistureReading) (s : IrrigationSafetySnapshot) (f : RainForecast).
Context (b : WaterBudget) (overrides : list ManualWaterOverride).
Context (active : list (string * ManualWaterOverride)).
Hypothesis policy_ok : IrrigationPolicy_valid p.
Hypothesis soil_ok : Forall SoilMoistureReading_valid soil.
Hypothesis same_zones :
  (list_to_set (dict_keys (dict_of sm_zoneId id soil)) : gset string)
  = list_to_set (dict_keys (dict_of zn_zoneId id (ip_zones p))).

Lemma zone_has_reading z : z ∈ ip_zones p -> is_Some (reading_of soil z).
Proof.
  intros Hz. unfold reading_of. destruct (dict_get _ _) as [r|] eqn:E; [by eexists|].
  exfalso. apply dict_get_None in E. apply E.
  apply (elem_of_list_to_set (C := gset string)). rewrite same_zones.
  apply elem_of_list_to_set, dict_of_keys. by apply list_elem_of_fmap_2.
Qed.

Lemma reading_has_zone k r : (k, r) ∈ dict_of sm_zoneId id soil ->
  is_Some (dict_get (dict_of zn_zoneId id (ip_zones p)) k) /\ SoilMoistureReading_valid r /\ sm_zoneId r = k.
Proof.
  intros Hk. assert (dict_get (dict_of sm_zoneId id soil) k = Some r) as Hg
    by (apply dict_elem_get; [apply dict_of_nodup|done]).
  apply dict_of_get_elem in Hg as (r' & Hr & Hid & Hr'). cbn in Hr'. subst r'.
  rewrite Forall_forall in soil_ok. split_and!; [|by apply soil_ok|done].
  destruct (dict_get (dict_of zn_zoneId id _) _) as [z|] eqn:E; [by eexists|].
  exfalso. apply dict_get_None in E. apply E.
  apply (elem_of_list_to_set (C := gset string)). rewrite <- same_zones.
  apply elem_of_list_to_set, dict_of_keys. rewrite <- Hid. by apply list_elem_of_fmap_2.
Qed.

Lemma readings_count : length (dict_of sm_zoneId id soil) = length (ip_zones p).
Proof.
  transitivity (length (dict_of zn_zoneId id (ip_zones p))).
  - rewrite <- (length_fmap fst (dict_of sm_zoneId id soil)), <- (length_fmap fst (dict_of zn_zoneId id (ip_zones p))).
    fold (dict_keys (dict_of sm_zoneId id soil)). fold (dict_keys (dict_of zn_zoneId id (ip_zones p))).
    rewrite <- (size_list_to_set (C := gset string) (dict_keys (dict_of sm_zoneId id soil))) by apply dict_of_nodup.
    rewrite <- (size_list_to_set (C := gset string) (dict_keys (dict_of zn_zoneId id (ip_zones p)))) by apply dict_of_nodup.
    by rewrite same_zones.
  - rewrite <- (length_fmap fst (dict_of zn_zoneId id (ip_zones p))). fold (dict_keys (dict_of zn_zoneId id (ip_zones p))).
    rewrite <- (length_fmap zn_zoneId (ip_zones p)). apply Permutation_length.
    apply NoDup_Permutation; [apply dict_of_nodup|by apply zones_unique|]. intros k. apply dict_of_keys.
Qed.

Lemma revisions_valid : SafetySnapshot_valid s -> RainForecast_valid f -> WaterBudget_valid b ->
  InputRevisions_valid
    {| ir_policyRevision := ip_policyRevision p; ir_safetyRevision := ss_safetyRevision s;
       ir_forecastRevision := rf_forecastRevision f; ir_budgetRevision := wb_budgetRevision b;
       ir_forecastSourceId := rf_sourceId f; ir_forecastSourceRevision := rf_sourceRevision f;
       ir_soilSensorIds := (fun r => (sm_zoneId r, sm_sensorId r)) <$> py_sorted reading_le (dict_values (dict_of sm_zoneId id soil));
       ir_soilSensorRevisions := (fun r => (sm_zoneId r, sm_sensorRevision r)) <$> py_sorted reading_le (dict_values (dict_of sm_zoneId id soil));
       ir_soilReadingRevisions := (fun r => (sm_zoneId r, sm_readingRevision r)) <$> py_sorted reading_le (dict_values (dict_of sm_zoneId id soil)) |}.
Proof.
  intros (_ & _ & ? & _) (_ & _ & ? & ? & ? & _) (_ & _ & ? & _).
  pose proof policy_ok as (_ & _ & _ & ? & Hn & _).
  assert (forall V (g : SoilMoistureReading -> V) (P : V -> Prop),
    (forall r, SoilMoistureReading_valid r -> P (g r)) ->
    keyed_by_identity P ((fun r => (sm_zoneId r, g r)) <$> py_sorted reading_le (dict_values (dict_of sm_zoneId id soil)))) as Hkey.
  { intros V g P Hg. split.
    - rewrite length_fmap, py_sorted_length. unfold dict_values. rewrite length_fmap, readings_count. done.
    - apply Forall_fmap, Forall_forall. intros r Hr. rewrite py_sorted_elem in Hr.
      apply list_elem_of_fmap in Hr as ([k r'] & -> & Hr). apply reading_has_zone in Hr as (_ & Hv & _).
      cbn. split; [apply Hv|by apply Hg]. }
  unfold InputRevisions_valid. cbn [ir_policyRevision ir_safetyRevision ir_forecastRevision
    ir_budgetRevision ir_forecastSourceId ir_forecastSourceRevision ir_soilSensorIds
    ir_soilSensorRevisions ir_soilReadingRevisions].
  split_and!; try done; apply Hkey; intros r Hr; apply Hr.
Qed.
End checked.

Lemma irrigation_authority_valid ra a :
  irrigation_authority resolve_authority ra = Ok a -> IrrigationAuthority_valid a.
Proof.
  unfold irrigation_authority. intros Ha. apply bind_ok in Ha as (a' & Hv & Ha).
  apply except_value_error_ok, model_validate_ok in Hv as [_ Hv].
  do 3 (apply bind_ok in Ha as (? & _ & Ha)). by inv_ok.
Qed.

Lemma plan_valid now a p rev items price :
  IrrigationAuthority_valid a -> IrrigationPolicy_valid p -> InputRevisions_valid rev ->
  0 <= now <= 2 ^ 63 - 1 -> Forall IrrigationPlanItem_valid items ->
  length items = length (ip_zones p) -> 0 <= zsum (it_estimatedWaterMl <$> items) <= 10 ^ 10 ->
  0 <= price <= 10 ^ 9 -> forall id av, Identity id ->
  IrrigationPlan_valid
    {| ipl_planId := id; ipl_coreId := ip_coreId p; ipl_homeId := ip_homeId p;
       ipl_homeRevision := ia_homeRevision a; ipl_policyId := ip_policyId p;
       ipl_policyRevision := ip_policyRevision p; ipl_policyHash := hash_policy p;
       ipl_actorAccountId := ia_accountId a; ipl_accountRevision := ia_accountRevision a;
       ipl_sessionFamilyId := ia_sessionFamilyId a; ipl_generatedAtMs := now;
       ipl_forecastAvailable := av; ipl_inputRevisions := rev; ipl_items := items;
       ipl_totalWaterMl := zsum (it_estimatedWaterMl <$> items);
       ipl_estimatedCostMicros := zsum (it_estimatedWaterMl <$> items) * price / 1000 |}.
Proof.
  intros (_ & _ & ? & ? & ? & ?) (? & ? & ? & ? & ? & _) Hrev Hnow Hitems Hlen Htot Hprice id av Hid.
  unfold IrrigationPlan_valid.
  cbn [ipl_planId ipl_coreId ipl_homeId ipl_homeRevision ipl_policyId ipl_policyRevision
    ipl_policyHash ipl_actorAccountId ipl_accountRevision ipl_sessionFamilyId ipl_generatedAtMs
    ipl_inputRevisions ipl_items ipl_totalWaterMl ipl_estimatedCostMicros].
  set (t := zsum _) in *.
  assert (0 <= t * price / 1000 <= 2 ^ 63 - 1).
  { assert (0 <= t * price <= 10 ^ 10 * 10 ^ 9) by nia.
    split; [by apply Z.div_pos; lia|]. apply Z.div_le_upper_bound; lia. }
  split_and!; try done; try lia.
Qed.

(** Once every check has passed, planning the zones and finishing the plan
    raises nothing. *)
Lemma planned_and_finished a now p s f b soil ov active :
  IrrigationAuthority_valid a -> IrrigationPolicy_valid p -> SafetySnapshot_valid s ->
  RainForecast_valid f -> WaterBudget_valid b -> Forall SoilMoistureReading_valid soil ->
  Forall ManualWaterOverride_valid ov -> overrides_ok now p a ov active -> 0 <= now <= 2 ^ 63 - 1 ->
  (list_to_set (dict_keys (dict_of sm_zoneId id soil)) : gset string)
    = list_to_set (dict_keys (dict_of zn_zoneId id (ip_zones p))) ->
  api_only (items ← plan_items now p (safety_reason now p s) f active soil
                      (wb_dailyLimitMl b - wb_usedMl b) (sorted_zones p);
            finish_plan hash_policy hash_identity now a p s f b (dict_of sm_zoneId id soil) active items).
Proof.
  intros Ha Hpv Hs Hf Hb Hsoil Hov Hact Hnow Hsame.
  pose proof (fun z o => active_durations now a p ov active z o Hpv Hov Hact) as Hdur.
  set (remaining := wb_dailyLimitMl b - wb_usedMl b).
  assert (0 <= remaining <= 10 ^ 10) as Hrem.
  { unfold remaining. destruct Hb as (_ & _ & _ & _ & ? & ? & _ & ?). lia. }
  destruct (plan_items_total now p (safety_reason now p s) f active soil Hpv Hsoil Hdur remaining
    (sorted_zones p) Hrem (sorted_zones_in p)) as (items & Hitems & Hvi).
  { apply Forall_forall. intros z Hz. unfold sorted_zones in Hz. rewrite py_sorted_elem in Hz.
    by apply (zone_has_reading p). }
  rewrite Hitems. cbn [mbind res_bind]. unfold finish_plan.
  pose proof (plan_items_ok now p (safety_reason now p s) f active soil Hpv Hsoil Hdur remaining
    (sorted_zones p) items (proj1 Hrem) (sorted_zones_in p) Hitems) as Hok.
  pose proof (items_ok_total _ _ _ _ (proj1 Hrem) Hok) as Htot.
  match goal with |- context [model_validate (Shaped ?r) ≫= _] =>
    assert (model_validate (Shaped r) = Ok r) as -> end.
  { apply model_validate_ok. split; [done|]. by eapply revisions_valid. }
  cbn [mbind res_bind]. cbv zeta.
  match goal with |- api_only (model_validate (Shaped ?r)) =>
    assert (model_validate (Shaped r) = Ok r) as -> end; [|apply api_only_ok].
  apply model_validate_ok. split; [done|]. apply plan_valid; try done; try lia.
  - by eapply revisions_valid.
  - rewrite <- (length_fmap it_zone), (items_ok_zones _ _ _ _ Hok). apply py_sorted_length.
  - destruct Hb as (_ & _ & _ & _ & _ & _ & ? & _). done.
Qed.

(** The planner fails closed.  Whatever it is given and whatever the
    resolvers answer, a call at a time that fits 63 bits either returns a plan
    or raises an [ApiError]: no lookup it makes misses and no object it builds
    violates its own model. *)
Theorem irrigation_errors_closed ra rp rsoil rsafety rforecast rbudget now roverrides :
  now <= 2 ^ 63 - 1 ->
  api_only (irrigation_plan hash_policy hash_identity resolve_authority resolve_policy
              ra rp rsoil rsafety rforecast rbudget now roverrides).
Proof.
  intros Hnow. unfold irrigation_plan.
  apply api_only_bind; [|intros a Ha].
  { unfold irrigation_authority. repeat (apply api_only_bind; [auto with closed_errors|intros]).
    auto with closed_errors. }
  apply api_only_bind; [|intros p Hp].
  { unfold irrigation_policy. repeat (apply api_only_bind; [auto with closed_errors|intros]).
    auto with closed_errors. }
  apply irrigation_policy_ok in Hp as (-> & Hpv & _ & _).
  apply irrigation_authority_valid in Ha.
  apply api_only_bind; [|intros [[[[soil s] f] b] ov] Hin].
  { apply api_only_except_value.
    repeat (apply value_only_bind; [auto with closed_errors|intros]). auto with closed_errors. }
  apply except_value_error_ok in Hin.
  apply bind_ok in Hin as (soil' & Hsoil & Hin). apply bind_ok in Hin as (s' & Hs & Hin).
  apply bind_ok in Hin as (f' & Hf & Hin). apply bind_ok in Hin as (b' & Hb & Hin).
  apply bind_ok in Hin as (ov' & Hov & Hin). apply bind_ok in Hin as (? & Hn0 & Hin).
  injection Hin as -> -> -> -> ->. apply raise_if_ok in Hn0.
  apply model_validate_all_ok in Hsoil as [_ Hsoil], Hov as [_ Hov].
  apply model_validate_ok in Hs as [_ Hs], Hf as [_ Hf], Hb as [_ Hb].
  do 3 (apply api_only_bind; [auto with closed_errors|intros ? _]).
  apply api_only_bind; [auto with closed_errors|intros ? Hz].
  apply raise_if_ok in Hz.
  assert ((list_to_set (dict_keys (dict_of sm_zoneId id soil)) : gset string)
          = list_to_set (dict_keys (dict_of zn_zoneId id (ip_zones p)))) as Hsame.
  { apply dec_stable. tauto. }
  clear Hz. apply api_only_bind; [|intros ? _].
  { apply api_only_for_each. intros [k r] Hk. unfold check_reading. apply api_only_bind.
    - apply api_only_some. by eapply reading_has_zone.
    - auto with closed_errors. }
  apply api_only_bind; [|intros active Hact].
  { apply api_only_fold. intros ? ?. unfold take_override.
    repeat (apply api_only_bind; [auto with closed_errors|intros]). auto with closed_errors. }
  apply take_overrides_ok in Hact.
  eapply planned_and_finished; try done. lia.
Qed.
End plans.

(** ** A worked plan *)

Module IrrigationExample.
Import EnergyExample.
Definition gardener : IrrigationAuthority :=
  {| ia_coreId := id32 "a"; ia_homeId := id32 "b"; ia_homeRevision := 1; ia_accountId := id32 "c";
     ia_accountRevision := 1; ia_sessionFamilyId := id32 "d"; ia_role := RoleAdmin;
     ia_active := true; ia_canManageIrrigation := true |}.
Definition zone (n : string) (flow : Z) : IrrigationZone :=
  {| zn_coreId := id32 "a"; zn_homeId := id32 "b"; zn_zoneId := id32 n; zn_zoneRevision := 1;
     zn_areaId := id32 "e"; zn_areaRevision := 1; zn_valveServiceId := id32 "f";
     zn_valveServiceRevision := 1; zn_valveBindingId := id32 n; zn_valveBindingRevision := 1;
     zn_flowMlPerMinute := flow; zn_maxDurationSeconds := 600 |}.
Definition policy : IrrigationPolicy :=
  {| ip_coreId := id32 "a"; ip_homeId := id32 "b"; ip_policyId := id32 "7"; ip_policyRevision := 1;
     ip_zones := [zone "2" 3000; zone "1" 6000]; ip_targetMoisturePermille := 400;
     ip_soilMaxAgeMs := 3600000; ip_safetyMaxAgeMs := 60000; ip_forecastMaxAgeMs := 3600000;
     ip_rainDeferralMilliMm := 5000; ip_freezeThresholdMilliC := 3000; ip_windLimitMilliMps := 12000;
     ip_previewTtlMs := 60000; ip_active := true |}.
Definition soil (n : string) (m : Z) : SoilMoistureReading :=
  {| sm_coreId := id32 "a"; sm_homeId := id32 "b"; sm_zoneId := id32 n; sm_zoneRevision := 1;
     sm_sensorId := id32 "8"; sm_sensorRevision := 1; sm_readingRevision := 1;
     sm_moisturePermille := m; sm_observedAtMs := 1000000 |}.
Definition calm : IrrigationSafetySnapshot :=
  {| ss_coreId := id32 "a"; ss_homeId := id32 "b"; ss_safetyRevision := 1; ss_leakDetected := false;
     ss_temperatureMilliC := 21000; ss_windMilliMps := 2000; ss_observedAtMs := 1000000 |}.
Definition dry : RainForecast :=
  {| rf_coreId := id32 "a"; rf_homeId := id32 "b"; rf_sourceId := id32 "9"; rf_sourceRevision := 1;
     rf_forecastRevision := 1; rf_generatedAtMs := 900000; rf_validUntilMs := 2000000;
     rf_rainMilliMm := 100 |}.
Definition budget : WaterBudget :=
  {| wb_coreId := id32 "a"; wb_homeId := id32 "b"; wb_budgetRevision := 1; wb_dayStartMs := 0;
     wb_dailyLimitMl := 40000; wb_usedMl := 5000; wb_priceMicrosPerLiter := 2500 |}.
Definition who (i : string) : resolved IrrigationAuthority := Resolved (Shaped gardener).
Definition what (i : string) : resolved IrrigationPolicy := Resolved (Shaped policy).
Definition h64 (p : IrrigationPolicy) : string := id64 "e".
Definition h32 (p : PlanIdentity) : string := id32 "e".
Definition the_plan : res IrrigationPlan :=
  irrigation_plan h64 h32 who what (Shaped gardener) (Shaped policy)
    [Shaped (soil "1" 200); Shaped (soil "2" 100)] (Shaped calm) (Shaped dry) (Shaped budget)
    1000500 [].
Definition planned : IrrigationPlan :=
  match the_plan with Ok p => p | Raise _ =>
    {| ipl_planId := ""; ipl_coreId := ""; ipl_homeId := ""; ipl_homeRevision := 0;
       ipl_policyId := ""; ipl_policyRevision := 0; ipl_policyHash := ""; ipl_actorAccountId := "";
       ipl_accountRevision := 0; ipl_sessionFamilyId := ""; ipl_generatedAtMs := 0;
       ipl_forecastAvailable := false;
       ipl_inputRevisions := {| ir_policyRevision := 0; ir_safetyRevision := 0;
         ir_forecastRevision := 0; ir_budgetRevision := 0; ir_forecastSourceId := "";
         ir_forecastSourceRevision := 0; ir_soilSensorIds := []; ir_soilSensorRevisions := [];
         ir_soilReadingRevisions := [] |};
       ipl_items := []; ipl_totalWaterMl := 0; ipl_estimatedCostMicros := 0 |} end.
(** 300 s and 30 l for the first zone, then the 5 l that are left. *)
Example planned_is :
  (fun i => (it_status i, it_durationSeconds i, it_estimatedWaterMl i)) <$> ipl_items planned
  = [(Planned, 300, 30000); (Planned, 100, 5000)].
Proof. vm_compute. reflexivity. Qed.
Lemma the_plan_ok : the_plan = Ok planned.
Proof. vm_compute. reflexivity. Qed.
End IrrigationExample.

Lemma irrigation_within_budget_witness :
  ipl_totalWaterMl IrrigationExample.planned <= 35000.
Proof.
  destruct (irrigation_within_budget IrrigationExample.h64 IrrigationExample.h32
    IrrigationExample.who IrrigationExample.what _ _ _ _ _ _ _ _ IrrigationExample.planned
    IrrigationExample.the_plan_ok) as (p & b & _ & Hb & _ & _ & [_ Ht] & _).
  injection Hb as <-. exact Ht.
Defined.

Lemma irrigation_safety_gates_witness :
  exists i s, i ∈ ipl_items IrrigationExample.planned /\ Shaped IrrigationExample.calm = Shaped s /\
    ss_leakDetected s = false.
Proof.
  destruct (ipl_items IrrigationExample.planned) as [|i l] eqn:E; [vm_compute in E; discriminate|].
  assert (i ∈ ipl_items IrrigationExample.planned) as Hi by (rewrite E; left).
  destruct (irrigation_safety_gates IrrigationExample.h64 IrrigationExample.h32
    IrrigationExample.who IrrigationExample.what _ _ _ _ _ _ _ _ IrrigationExample.planned i
    IrrigationExample.the_plan_ok Hi) as (a & p & s & f & r & _ & _ & Hs & _ & _ & _ & _ & _ & _ & _ & _ & _ & _ & _ & Hl & _).
  - vm_compute in E. injection E as <- _. reflexivity.
  - exists i, s. split; [rewrite <- E; exact Hi|]. split; [exact Hs|exact Hl].
Defined.

Lemma irrigation_errors_closed_witness : api_only (irrigation_plan IrrigationExample.h64
  IrrigationExample.h32 IrrigationExample.who IrrigationExample.what Malformed Malformed [] Malformed
  Malformed Malformed 0 []).
Proof.
  apply (irrigation_errors_closed IrrigationExample.h64 IrrigationExample.h32 IrrigationExample.who
    IrrigationExample.what).
  - intros p. apply (bool_decide_unpack _). vm_compute. exact I.
  - intros i. apply (bool_decide_unpack _). vm_compute. exact I.
  - apply Z.leb_le. reflexivity.
Defined.
