(* ===== verification/IrrigationAudit.v ===== *)
(** * The irrigation audit chain

    [server/larenor_server/garden_irrigation/audit.py]: a bounded in-memory
    log.  Every event holds the digest of the preceding one; an export is
    sealed with an authentication tag over the log's identity, length and
    head, and [restore] accepts only what [export] could have produced.
    SHA-256 of an event's body and HMAC-SHA-256 of the state are parameters.
    A log that fails leaves its state as it was. *)

From S2P Require Import Prelude.

Definition MAX_IRRIGATION_EVENTS : Z := 16384.
Definition ZERO : string := String.concat "" (repeat "0"%string 64).

Inductive audit_kind := KindPlan | KindPreview | KindResult.
#[export] Instance audit_kind_eq_dec : EqDecision audit_kind.
Proof. solve_decision. Defined.

(** The body that is hashed: an event without its [entryHash]. *)
Record AuditBody := {
  ab_sequence : Z;
  ab_kind : audit_kind;
  ab_coreId : string;
  ab_homeId : string;
  ab_policyId : string;
  ab_policyRevision : Z;
  ab_actorAccountId : string;
  ab_requestId : string;
  ab_status : string;
  ab_payloadHash : string;
  ab_atMs : Z;
  ab_previousHash : string;
}.
#[export] Instance AuditBody_eq_dec : EqDecision AuditBody.
Proof. solve_decision. Defined.

Record IrrigationAuditEvent := { ie_body : AuditBody; ie_entryHash : string }.
#[export] Instance IrrigationAuditEvent_eq_dec : EqDecision IrrigationAuditEvent.
Proof. solve_decision. Defined.

(** [^[a-z_]+$] *)
Fixpoint status_chars (s : string) : bool :=
  match s with
  | EmptyString => true
  | String c s' =>
      let z := Z.of_N (Ascii.N_of_ascii c) in
      (((97 <=? z) && (z <=? 122)) || (z =? 95)) && status_chars s'
  end.
Definition status_text (s : string) : Prop := (1 <= String.length s <= 40)%nat /\ status_chars s = true.
#[export] Instance status_text_dec s : Decision (status_text s).
Proof. unfold status_text. apply _. Defined.

Definition AuditBody_valid (b : AuditBody) : Prop :=
  1 <= ab_sequence b <= MAX_IRRIGATION_EVENTS /\ Identity (ab_coreId b) /\ Identity (ab_homeId b) /\
  Identity (ab_policyId b) /\ Revision (ab_policyRevision b) /\ Identity (ab_actorAccountId b) /\
  Identity (ab_requestId b) /\ status_text (ab_status b) /\ Snapshot (ab_payloadHash b) /\
  TimestampMs (ab_atMs b) /\ Snapshot (ab_previousHash b).
#[export] Instance AuditBody_valid_dec b : Decision (AuditBody_valid b).
Proof. unfold AuditBody_valid. solve_dec. Defined.

Definition IrrigationAuditEvent_valid (e : IrrigationAuditEvent) : Prop :=
  AuditBody_valid (ie_body e) /\ Snapshot (ie_entryHash e).
#[export] Instance IrrigationAuditEvent_valid_dec e : Decision (IrrigationAuditEvent_valid e).
Proof. unfold IrrigationAuditEvent_valid. solve_dec. Defined.
#[export] Instance IrrigationAuditEvent_model : Model IrrigationAuditEvent :=
  {| model_valid := IrrigationAuditEvent_valid |}.

Record IrrigationAudit := {
  ta_core : string;
  ta_home : string;
  ta_limit : Z;
  ta_chain : string;
  ta_events : list IrrigationAuditEvent;
  ta_head : string;
}.

(** What the tag authenticates. *)
Record AuditState := {
  as_core : string; as_home : string; as_chain : string; as_count : Z; as_head : string;
}.

Record AuditExport := {
  ax_chainId : string;
  ax_events : list (raw IrrigationAuditEvent);
  ax_headHash : string;
  ax_headTag : string;
}.

(** The arguments of [append]. *)
Record AuditFacts := {
  af_kind : audit_kind;
  af_policyId : string;
  af_policyRevision : Z;
  af_actorAccountId : string;
  af_requestId : string;
  af_status : string;
  af_payloadHash : string;
  af_atMs : Z;
}.

(** [TamperEvidentIrrigationAudit(...)] with a key of at least 32 bytes. *)
Definition audit_new (coreId homeId : string) (maxEvents : Z) (chainId : string) : res IrrigationAudit :=
  _ ← raise_if (~ (1 <= maxEvents <= MAX_IRRIGATION_EVENTS) \/ ~ Identity coreId \/ ~ Identity homeId)
        (ValueError "invalid_audit_settings");
  Ok {| ta_core := coreId; ta_home := homeId; ta_limit := maxEvents; ta_chain := chainId;
        ta_events := []; ta_head := ZERO |}.

Definition ensure_capacity (count : Z) (a : IrrigationAudit) : res unit :=
  raise_if (count < 0 \/ Z.of_nat (length (ta_events a)) + count > ta_limit a)
    (ApiError "irrigation_audit_limit" 429).

Section audit.
Variable hash_body : AuditBody -> string.
Variable hmac_state : AuditState -> string.

Definition tag_ (a : IrrigationAudit) : string :=
  hmac_state {| as_core := ta_core a; as_home := ta_home a; as_chain := ta_chain a;
                as_count := Z.of_nat (length (ta_events a)); as_head := ta_head a |}.

Definition body_of (f : AuditFacts) (a : IrrigationAudit) : AuditBody :=
  {| ab_sequence := Z.of_nat (length (ta_events a)) + 1; ab_kind := af_kind f;
     ab_coreId := ta_core a; ab_homeId := ta_home a; ab_policyId := af_policyId f;
     ab_policyRevision := af_policyRevision f; ab_actorAccountId := af_actorAccountId f;
     ab_requestId := af_requestId f; ab_status := af_status f;
     ab_payloadHash := af_payloadHash f; ab_atMs := af_atMs f; ab_previousHash := ta_head a |}.

Definition push_event (e : IrrigationAuditEvent) (a : IrrigationAudit) : IrrigationAudit :=
  {| ta_core := ta_core a; ta_home := ta_home a; ta_limit := ta_limit a; ta_chain := ta_chain a;
     ta_events := ta_events a ++ [e]; ta_head := ie_entryHash e |}.

Definition audit_append (f : AuditFacts) (a : IrrigationAudit) : res IrrigationAudit :=
  _ ← ensure_capacity 1 a;
  let body := body_of f a in
  e ← model_validate (Shaped {| ie_body := body; ie_entryHash := hash_body body |});
  Ok (push_event e a).

Definition audit_export (a : IrrigationAudit) : AuditExport :=
  {| ax_chainId := ta_chain a; ax_events := Shaped <$> ta_events a; ax_headHash := ta_head a;
     ax_headTag := tag_ a |}.

(** One iteration of the loop of [restore]. *)
Definition restore_event (a : IrrigationAudit) (e : IrrigationAuditEvent) : res IrrigationAudit :=
  let b := ie_body e in
  _ ← raise_if (ab_sequence b <> Z.of_nat (length (ta_events a)) + 1 \/
                ab_coreId b <> ta_core a \/ ab_homeId b <> ta_home a \/
                ab_previousHash b <> ta_head a \/ ie_entryHash e <> hash_body b) (ValueError "");
  Ok (push_event e a).

Definition audit_restore (r : raw AuditExport) (coreId homeId : string) (maxEvents : Z)
  : res IrrigationAudit :=
  except_value_error
    (x ← match r with Shaped x => Ok x | Malformed => Raise (ValueError "") end;
     _ ← raise_if (~ Identity (ax_chainId x)) (ValueError "");
     events ← model_validate_all (ax_events x);
     _ ← raise_if (Z.of_nat (length events) > maxEvents) (ValueError "");
     a ← audit_new coreId homeId maxEvents (ax_chainId x);
     a ← fold_res restore_event a events;
     _ ← raise_if (ax_headHash x <> ta_head a \/ ax_headTag x <> tag_ a) (ValueError "");
     Ok a)
    (StartupError "irrigation_audit_invalid").
End audit.

(** ** What a genuine log is *)

Section audit_theory.
Variable hash_body : AuditBody -> string.
Variable hmac_state : AuditState -> string.

#[local] Instance audit_chain : ChainRow IrrigationAuditEvent string := {|
  row_previous e := ab_previousHash (ie_body e);
  row_stored := ie_entryHash;
  row_computed e := hash_body (ie_body e);
|}.

Record audit_ok (a : IrrigationAudit) : Prop := {
  ak_limit : 1 <= ta_limit a <= MAX_IRRIGATION_EVENTS;
  ak_core : Identity (ta_core a);
  ak_home : Identity (ta_home a);
  ak_chain : Identity (ta_chain a);
  ak_length : Z.of_nat (length (ta_events a)) <= ta_limit a;
  ak_head : ta_head a = chain_head ZERO (ta_events a);
  ak_chained : chained ZERO (ta_events a);
  ak_valid : Forall IrrigationAuditEvent_valid (ta_events a);
  ak_scope : forall i e, ta_events a !! i = Some e ->
    ab_sequence (ie_body e) = Z.of_nat i + 1 /\ ab_coreId (ie_body e) = ta_core a /\
    ab_homeId (ie_body e) = ta_home a;
}.

Lemma ZERO_hex : Snapshot ZERO.
Proof. by vm_compute. Qed.

Lemma audit_head_hex a : audit_ok a -> Snapshot (ta_head a).
Proof.
  intros Ha. rewrite (ak_head a Ha). unfold chain_head.
  destruct (last (ta_events a)) as [e|] eqn:E; [|apply ZERO_hex].
  apply last_Some_elem_of in E. pose proof (ak_valid a Ha) as Hv.
  eapply Forall_forall in Hv; [|exact E]. apply Hv.
Qed.

Lemma audit_new_ok core home limit chain a :
  audit_new core home limit chain = Ok a -> Identity chain -> audit_ok a /\ ta_events a = [].
Proof.
  intros ([] & Hg%raise_if_ok & E)%bind_ok Hc. injection E as <-. passed.
  split; [split; cbn|]; try done; lia.
Qed.

Lemma push_event_ok e a :
  audit_ok a -> IrrigationAuditEvent_valid e ->
  Z.of_nat (length (ta_events a)) < ta_limit a ->
  ab_sequence (ie_body e) = Z.of_nat (length (ta_events a)) + 1 ->
  ab_coreId (ie_body e) = ta_core a -> ab_homeId (ie_body e) = ta_home a ->
  ab_previousHash (ie_body e) = ta_head a -> ie_entryHash e = hash_body (ie_body e) ->
  audit_ok (push_event e a).
Proof.
  intros [? ? ? ? ? Hh Hc Hv Hs] He Hn H1 H2 H3 H4 H5.
  split; cbn [push_event ta_limit ta_core ta_home ta_chain ta_events ta_head]; try done.
  - rewrite length_app. cbn. lia.
  - by rewrite chain_head_snoc.
  - apply chained_snoc; [done|]. split; [|done].
    change (ab_previousHash (ie_body e) = chain_head ZERO (ta_events a)). congruence.
  - apply Forall_app. split; [done|]. by apply Forall_singleton.
  - intros i x [Hi|[Hi E]]%lookup_app_Some; [by apply Hs|].
    apply list_lookup_singleton_Some in E as [Ei <-]. split_and!; try done. lia.
Qed.

(** Facts that fit the event model. *)
Definition facts_ok (f : AuditFacts) : Prop :=
  Identity (af_policyId f) /\ Revision (af_policyRevision f) /\ Identity (af_actorAccountId f) /\
  Identity (af_requestId f) /\ status_text (af_status f) /\ Snapshot (af_payloadHash f) /\
  TimestampMs (af_atMs f).

Lemma audit_append_ok f a a' :
  audit_ok a -> audit_append hash_body f a = Ok a' ->
  audit_ok a' /\ a' = push_event {| ie_body := body_of f a; ie_entryHash := hash_body (body_of f a) |} a.
Proof.
  intros Ha ([] & Hc%raise_if_ok & (e & He%model_validate_ok & E)%bind_ok)%bind_ok.
  injection E as <-. destruct He as [E Hv]. injection E as <-. passed.
  split; [|done]. apply push_event_ok; try done. cbn in *. lia.
Qed.

Lemma audit_append_total f a :
  (forall b, Snapshot (hash_body b)) -> audit_ok a -> facts_ok f ->
  Z.of_nat (length (ta_events a)) < ta_limit a ->
  exists a', audit_append hash_body f a = Ok a'.
Proof.
  intros Hhash Ha (? & ? & ? & ? & ? & ? & ?) Hn. unfold audit_append, ensure_capacity.
  rewrite raise_if_no by lia. cbn [mbind res_bind].
  pose proof (ak_limit a Ha). pose proof (ak_core a Ha). pose proof (ak_home a Ha).
  pose proof (audit_head_hex a Ha). eexists. apply bind_ok. eexists. split; [|reflexivity].
  apply model_validate_ok. split; [done|]. split; [|apply Hhash].
  split_and!; cbn; try done; lia.
Qed.

Lemma restore_event_ok a e a' :
  restore_event hash_body a e = Ok a' <->
  a' = push_event e a /\ ab_sequence (ie_body e) = Z.of_nat (length (ta_events a)) + 1 /\
  ab_coreId (ie_body e) = ta_core a /\ ab_homeId (ie_body e) = ta_home a /\
  ab_previousHash (ie_body e) = ta_head a /\ ie_entryHash e = hash_body (ie_body e).
Proof.
  unfold restore_event. rewrite bind_ok. split.
  - intros ([] & Hg%raise_if_ok & E). injection E as <-. passed. done.
  - intros (-> & ? & ? & ? & ? & ?). exists tt. split; [|done]. apply raise_if_ok. intuition.
Qed.

Lemma restore_events_ok l a a' :
  fold_res (restore_event hash_body) a l = Ok a' ->
  ta_events a' = ta_events a ++ l /\ ta_core a' = ta_core a /\ ta_home a' = ta_home a /\
  ta_limit a' = ta_limit a /\ ta_chain a' = ta_chain a.
Proof.
  revert a. induction l as [|e l IH]; intros a; cbn [fold_res].
  - intros E. injection E as <-. by rewrite app_nil_r.
  - intros (a1 & (-> & _)%restore_event_ok & Hl)%bind_ok.
    apply IH in Hl as (-> & -> & -> & -> & ->). cbn. by rewrite <- app_assoc.
Qed.

Lemma restore_events_keep l a a' :
  audit_ok a -> Forall IrrigationAuditEvent_valid l ->
  Z.of_nat (length (ta_events a) + length l) <= ta_limit a ->
  fold_res (restore_event hash_body) a l = Ok a' -> audit_ok a'.
Proof.
  revert a. induction l as [|e l IH]; intros a Ha Hv Hn; cbn [fold_res].
  - intros E. by injection E as <-.
  - apply Forall_cons in Hv as [He Hv]. cbn [length] in Hn.
    intros (a1 & (-> & H1 & H2 & H3 & H4 & H5)%restore_event_ok & Hl)%bind_ok.
    eapply IH, Hl; [apply push_event_ok; try done; lia|done|].
    cbn [push_event ta_events ta_limit]. rewrite length_app. cbn. lia.
Qed.

(** The events of a genuine log pass the loop again, from any prefix. *)
Lemma restore_prefix a l1 l2 :
  audit_ok a -> ta_events a = l1 ++ l2 ->
  fold_res (restore_event hash_body)
    {| ta_core := ta_core a; ta_home := ta_home a; ta_limit := ta_limit a; ta_chain := ta_chain a;
       ta_events := l1; ta_head := chain_head ZERO l1 |} l2 = Ok a.
Proof.
  intros Ha. revert l1. induction l2 as [|e l2 IH]; intros l1 E; cbn [fold_res].
  - rewrite app_nil_r in E. pose proof (ak_head a Ha) as Hh. destruct a. cbn in *. by subst.
  - assert (ta_events a !! length l1 = Some e) as Hi by (by rewrite E, list_lookup_middle).
    destruct (ak_scope a Ha _ _ Hi) as (H1 & H2 & H3).
    pose proof (ak_chained a Ha) as Hc. rewrite E in Hc.
    apply chained_app in Hc as [_ [[H4 H5] _]].
    apply bind_ok. eexists. split; [apply restore_event_ok; split_and!; [reflexivity|done..]|].
    assert (ta_events a = (l1 ++ [e]) ++ l2) as E' by (by rewrite <- app_assoc).
    specialize (IH _ E'). rewrite chain_head_snoc in IH. exact IH.
Qed.

Lemma audit_new_value_only core home limit chain : value_only (audit_new core home limit chain).
Proof. apply value_only_bind; auto with closed_errors. Qed.

Lemma restore_event_value_only a e : value_only (restore_event hash_body a e).
Proof. apply value_only_bind; auto with closed_errors. Qed.

(** The logs a process makes: a new one with a chain id from
    [secrets.token_hex(16)], and whatever [append] leaves. *)
Inductive audit_made : IrrigationAudit -> Prop :=
  | made_new core home limit chain a :
      Identity chain -> audit_new core home limit chain = Ok a -> audit_made a
  | made_append f a a' : audit_made a -> audit_append hash_body f a = Ok a' -> audit_made a'.

Lemma audit_made_ok a : audit_made a -> audit_ok a.
Proof.
  induction 1 as [core home limit chain a Hc Ha|f a a' _ IH Ha].
  - by apply audit_new_ok in Ha as [? _].
  - by apply audit_append_ok in Ha as [? _].
Qed.

(** ** Properties *)

(** C32 An exported audit log is restored as it was: for every log that any
    appends made, [restore] accepts what [export] wrote and gives back the very
    same log. *)
Theorem audit_export_restores a :
  audit_made a ->
  audit_restore hash_body hmac_state (Shaped (audit_export hmac_state a)) (ta_core a) (ta_home a)
    (ta_limit a) = Ok a.
Proof.
  intros Ha%audit_made_ok. apply except_value_error_ok. apply bind_ok. eexists. split; [reflexivity|].
  unfold audit_export. cbn [ax_chainId ax_events ax_headHash ax_headTag].
  rewrite raise_if_no by (pose proof (ak_chain a Ha); tauto). cbn [mbind res_bind].
  rewrite (proj2 (model_validate_all_ok _ (ta_events a)))
    by (split; [done|apply (ak_valid a Ha)]). cbn [mbind res_bind].
  pose proof (ak_length a Ha). pose proof (ak_limit a Ha).
  rewrite raise_if_no by lia. cbn [mbind res_bind].
  unfold audit_new. rewrite raise_if_no by (pose proof (ak_core a Ha); pose proof (ak_home a Ha); tauto).
  cbn [mbind res_bind].
  apply bind_ok. exists a. split; [exact (restore_prefix a [] (ta_events a) Ha eq_refl)|].
  by rewrite raise_if_no by tauto.
Qed.

(** Only a genuine log is restored.  Whatever bytes are presented, a log
    that [restore] returns is within its limit, numbered from 1 without a gap,
    linked from the zero digest to the head, of the home that was asked for,
    and its tag authenticates exactly this state; everything else raises
    [StartupError]. *)
Theorem audit_restore_sound r core home limit :
  match audit_restore hash_body hmac_state r core home limit with
  | Ok a => audit_ok a /\ ta_core a = core /\ ta_home a = home /\ ta_limit a = limit /\
      exists x, r = Shaped x /\ ax_events x = Shaped <$> ta_events a /\
        ax_headHash x = ta_head a /\ ax_headTag x = tag_ hmac_state a
  | Raise e => e = StartupError "irrigation_audit_invalid"
  end.
Proof.
  destruct (audit_restore _ _ _ _ _ _) as [a|e] eqn:E.
  - apply except_value_error_ok in E.
    apply bind_ok in E as (x & Hx & ([] & Hc%raise_if_ok & (l & Hl & E)%bind_ok)%bind_ok).
    apply bind_ok in E as ([] & Hn%raise_if_ok & (a0 & H0 & (a1 & H1 & E)%bind_ok)%bind_ok).
    apply bind_ok in E as ([] & Hh%raise_if_ok & E). injection E as ->. passed.
    destruct r as [x'|]; [|done]. injection Hx as ->.
    apply model_validate_all_ok in Hl as [Hl Hv].
    destruct (audit_new_ok _ _ _ _ _ H0 Hc) as [Hok Hnil].
    apply bind_ok in H0 as ([] & _ & E0). injection E0 as <-.
    pose proof (restore_events_ok _ _ _ H1) as (Hev & ? & ? & ? & ?).
    split_and!; try done.
    + eapply restore_events_keep, H1; [done|done|]. cbn. lia.
    + exists x. split_and!; try done. by rewrite Hev, Hl.
  - eapply except_value_error_raises, E. clear e E.
    apply value_only_bind; [destruct r; auto with closed_errors|intros].
    repeat (apply value_only_bind; [|intros]);
      auto using audit_new_value_only, restore_event_value_only with closed_errors.
Qed.
End audit_theory.

(** ** A worked log *)

Module AuditExample.
Definition hex (n : nat) (c : string) : string := String.concat "" (repeat c n).
Definition hash (b : AuditBody) : string := if decide (ab_sequence b = 1) then hex 64 "a" else hex 64 "b".
Definition tag (s : AuditState) : string := hex 64 "f".
Definition facts (k : audit_kind) (status : string) : AuditFacts :=
  {| af_kind := k; af_policyId := hex 32 "1"; af_policyRevision := 1;
     af_actorAccountId := hex 32 "2"; af_requestId := hex 32 "3"; af_status := status;
     af_payloadHash := hex 64 "4"; af_atMs := 1000 |}.
Definition log : res IrrigationAudit :=
  a ← audit_new (hex 32 "c") (hex 32 "d") 8 (hex 32 "e");
  a ← audit_append hash (facts KindPreview "accepted") a;
  audit_append hash (facts KindResult "applied") a.
Definition kept : IrrigationAudit :=
  match log with Ok a => a | Raise _ =>
    {| ta_core := ""; ta_home := ""; ta_limit := 0; ta_chain := ""; ta_events := []; ta_head := "" |} end.
Lemma kept_made : audit_made hash kept.
Proof.
  assert (log = Ok kept) as E by (vm_compute; reflexivity). revert E. unfold log.
  intros (a0 & H0 & (a1 & H1 & H2)%bind_ok)%bind_ok.
  eapply made_append, H2. eapply made_append, H1. eapply made_new, H0. by vm_compute.
Qed.
End AuditExample.

Lemma audit_export_restores_witness :
  length (ta_events AuditExample.kept) = 2%nat /\
  audit_restore AuditExample.hash AuditExample.tag
    (Shaped (audit_export AuditExample.tag AuditExample.kept))
    (ta_core AuditExample.kept) (ta_home AuditExample.kept) (ta_limit AuditExample.kept)
  = Ok AuditExample.kept.
Proof.
  split; [vm_compute; reflexivity|].
  apply (audit_export_restores AuditExample.hash AuditExample.tag AuditExample.kept),
    AuditExample.kept_made.
Defined.
