(* ===== verification/IrrigationEffects.v ===== *)
(** * Irrigation: opening valves

    [server/larenor_server/garden_irrigation/effects.py] and the effect
    contracts of [models.py]: a plan is previewed against the valves' state,
    confirmed once with the preview's token, and every planned zone is sent to
    the valve worker once, in the order of the zone identities.  A zone counts
    as applied only when the worker reads back a closed valve and a flow close
    to the plan.  The coordinator lives in memory behind a lock; what an
    operation assigned before an exception stays assigned.  [vc_sent] records
    the calls made to the worker, with what the worker answered. *)

From S2P Require Import Prelude Energy Irrigation IrrigationAudit.

(** ** Contracts *)

Record ValveReadback := {
  vr_coreId : string;
  vr_homeId : string;
  vr_zone : IrrigationZone;
  vr_stateRevision : Z;
  vr_valveOpen : bool;
  vr_observedAtMs : Z;
}.
#[export] Instance ValveReadback_eq_dec : EqDecision ValveReadback.
Proof. solve_decision. Defined.
Definition ValveReadback_valid (r : ValveReadback) : Prop :=
  Identity (vr_coreId r) /\ Identity (vr_homeId r) /\ IrrigationZone_valid (vr_zone r) /\
  Revision (vr_stateRevision r) /\ TimestampMs (vr_observedAtMs r).
#[export] Instance ValveReadback_valid_dec r : Decision (ValveReadback_valid r).
Proof. unfold ValveReadback_valid. solve_dec. Defined.
#[export] Instance ValveReadback_model : Model ValveReadback := {| model_valid := ValveReadback_valid |}.

Record ValveWorkerCommand := {
  wc_commandId : string;
  wc_requestId : string;
  wc_planId : string;
  wc_policyRevision : Z;
  wc_actorAccountId : string;
  wc_zone : IrrigationZone;
  wc_expectedStateRevision : Z;
  wc_durationSeconds : Z;
  wc_expectedWaterMl : Z;
}.
Definition ValveWorkerCommand_valid (c : ValveWorkerCommand) : Prop :=
  Identity (wc_commandId c) /\ Identity (wc_requestId c) /\ Identity (wc_planId c) /\
  Revision (wc_policyRevision c) /\ Identity (wc_actorAccountId c) /\
  IrrigationZone_valid (wc_zone c) /\ Revision (wc_expectedStateRevision c) /\
  1 <= wc_durationSeconds c <= 7200 /\ 1 <= wc_expectedWaterMl c <= 10 ^ 10.
#[export] Instance ValveWorkerCommand_valid_dec c : Decision (ValveWorkerCommand_valid c).
Proof. unfold ValveWorkerCommand_valid. solve_dec. Defined.
#[export] Instance ValveWorkerCommand_model : Model ValveWorkerCommand :=
  {| model_valid := ValveWorkerCommand_valid |}.

Record WorkerValveReadback := {
  wr_commandId : string;
  wr_zone : IrrigationZone;
  wr_stateRevision : Z;
  wr_valveOpen : bool;
  wr_deliveredMl : Z;
  wr_flowVerified : bool;
  wr_observedAtMs : Z;
}.
Definition WorkerValveReadback_valid (r : WorkerValveReadback) : Prop :=
  Identity (wr_commandId r) /\ IrrigationZone_valid (wr_zone r) /\ Revision (wr_stateRevision r) /\
  0 <= wr_deliveredMl r <= 10 ^ 10 /\ TimestampMs (wr_observedAtMs r).
#[export] Instance WorkerValveReadback_valid_dec r : Decision (WorkerValveReadback_valid r).
Proof. unfold WorkerValveReadback_valid. solve_dec. Defined.
#[export] Instance WorkerValveReadback_model : Model WorkerValveReadback :=
  {| model_valid := WorkerValveReadback_valid |}.

(** [^[A-Za-z0-9_-]{43}$] *)
Fixpoint urlsafe (s : string) : bool :=
  match s with
  | EmptyString => true
  | String c s' =>
      let z := Z.of_N (Ascii.N_of_ascii c) in
      (((65 <=? z) && (z <=? 90)) || ((97 <=? z) && (z <=? 122)) || ((48 <=? z) && (z <=? 57))
       || (z =? 95) || (z =? 45)) && urlsafe s'
  end.
Definition confirm_token (s : string) : Prop := String.length s = 43%nat /\ urlsafe s = true.
#[export] Instance confirm_token_dec s : Decision (confirm_token s).
Proof. unfold confirm_token. apply _. Defined.

Record IrrigationPreview := {
  ipv_previewId : string;
  ipv_confirmToken : string;
  ipv_requestId : string;
  ipv_planId : string;
  ipv_policyRevision : Z;
  ipv_expiresAtMs : Z;
  ipv_commandCount : Z;
}.
Definition IrrigationPreview_valid (p : IrrigationPreview) : Prop :=
  Identity (ipv_previewId p) /\ confirm_token (ipv_confirmToken p) /\ Identity (ipv_requestId p) /\
  Identity (ipv_planId p) /\ Revision (ipv_policyRevision p) /\ TimestampMs (ipv_expiresAtMs p) /\
  1 <= ipv_commandCount p <= 32.
#[export] Instance IrrigationPreview_valid_dec p : Decision (IrrigationPreview_valid p).
Proof. unfold IrrigationPreview_valid. solve_dec. Defined.
#[export] Instance IrrigationPreview_model : Model IrrigationPreview :=
  {| model_valid := IrrigationPreview_valid |}.

Inductive result_status := StApplied | StFailed | StUnknown.
Inductive result_code :=
  | CodeApplied | flow_not_verified | flow_out_of_bounds | CodeMismatch | worker_ack_unknown.
#[export] Instance result_status_eq_dec : EqDecision result_status.
Proof. solve_decision. Defined.
#[export] Instance result_code_eq_dec : EqDecision result_code.
Proof. solve_decision. Defined.

Record ValveCommandResult := {
  vcr_commandId : string;
  vcr_zoneId : string;
  vcr_status : result_status;
  vcr_code : result_code;
  vcr_readback : option WorkerValveReadback;
}.
Definition ValveCommandResult_valid (r : ValveCommandResult) : Prop :=
  Identity (vcr_commandId r) /\ Identity (vcr_zoneId r) /\
  match vcr_readback r with Some b => WorkerValveReadback_valid b | None => True end.
#[export] Instance ValveCommandResult_valid_dec r : Decision (ValveCommandResult_valid r).
Proof. unfold ValveCommandResult_valid. solve_dec. Defined.
#[export] Instance ValveCommandResult_model : Model ValveCommandResult :=
  {| model_valid := ValveCommandResult_valid |}.

Inductive receipt_status := RcApplied | RcPartial | RcFailed | RcUnknown.
#[export] Instance receipt_status_eq_dec : EqDecision receipt_status.
Proof. solve_decision. Defined.
Record IrrigationReceipt := {
  irc_requestId : string;
  irc_planId : string;
  irc_status : receipt_status;
  irc_results : list ValveCommandResult;
  irc_completedAtMs : Z;
}.
Definition IrrigationReceipt_valid (r : IrrigationReceipt) : Prop :=
  Identity (irc_requestId r) /\ Identity (irc_planId r) /\
  (1 <= length (irc_results r) <= 32)%nat /\ Forall ValveCommandResult_valid (irc_results r) /\
  TimestampMs (irc_completedAtMs r).
#[export] Instance IrrigationReceipt_valid_dec r : Decision (IrrigationReceipt_valid r).
Proof. unfold IrrigationReceipt_valid. solve_dec. Defined.
#[export] Instance IrrigationReceipt_model : Model IrrigationReceipt :=
  {| model_valid := IrrigationReceipt_valid |}.

(** ** The coordinator *)

(** [_StoredPreview] *)
Record StoredPreview := {
  sp_authority : IrrigationAuthority;
  sp_plan : IrrigationPlan;
  sp_readbacks : list ValveReadback;
  sp_request_id : string;
  sp_token : string;
  sp_expires_at : Z;
}.

(** A call to the worker: the command, the state of its valve at the preview,
    and what the worker answered. *)
Record ValveCall := {
  cl_command : ValveWorkerCommand;
  cl_before : ValveReadback;
  cl_answer : resolved WorkerValveReadback;
}.

Record IrrigationCoordinator := {
  vc_previews : list (string * StoredPreview);
  vc_request_previews : list (string * string);
  vc_receipts : list (string * IrrigationReceipt);
  vc_audit : IrrigationAudit;
  vc_sent : list ValveCall;
}.

Definition set_audit (a : IrrigationAudit) (m : IrrigationCoordinator) : IrrigationCoordinator :=
  {| vc_previews := vc_previews m; vc_request_previews := vc_request_previews m;
     vc_receipts := vc_receipts m; vc_audit := a; vc_sent := vc_sent m |}.
Definition add_preview (id : string) (s : StoredPreview) (m : IrrigationCoordinator)
  : IrrigationCoordinator :=
  {| vc_previews := dict_set (vc_previews m) id s;
     vc_request_previews := dict_set (vc_request_previews m) (sp_request_id s) id;
     vc_receipts := vc_receipts m; vc_audit := vc_audit m; vc_sent := vc_sent m |}.
Definition add_receipt (r : IrrigationReceipt) (m : IrrigationCoordinator) : IrrigationCoordinator :=
  {| vc_previews := vc_previews m; vc_request_previews := vc_request_previews m;
     vc_receipts := dict_set (vc_receipts m) (irc_requestId r) r; vc_audit := vc_audit m;
     vc_sent := vc_sent m |}.
Definition add_sent (c : ValveCall) (m : IrrigationCoordinator) : IrrigationCoordinator :=
  {| vc_previews := vc_previews m; vc_request_previews := vc_request_previews m;
     vc_receipts := vc_receipts m; vc_audit := vc_audit m; vc_sent := vc_sent m ++ [c] |}.

(** What the resolvers, the worker, the clock and [secrets] answer during one
    call. *)
Record IrrigationEnv := {
  en_authority : string -> resolved IrrigationAuthority;
  en_policy : string -> resolved IrrigationPolicy;
  en_plan : string -> resolved IrrigationPlan;
  en_worker : ValveWorkerCommand -> resolved WorkerValveReadback;
  en_now : Z;
  en_preview_id : string;
  en_token : string;
}.

(** [{item.zone.zoneId: item for item in plan.items if item.status == "planned"}] *)
Definition planned_of (p : IrrigationPlan) : list (string * IrrigationPlanItem) :=
  dict_of (fun i => zn_zoneId (it_zone i)) id (filter (fun i => it_status i = Planned) (ipl_items p)).
Definition observed_of (l : list ValveReadback) : list (string * ValveReadback) :=
  dict_of (fun r => zn_zoneId (vr_zone r)) id l.

(** [set(a) != set(b)] *)
Definition same_key_set {A B} (a : list (string * A)) (b : list (string * B)) : Prop :=
  Forall (fun k => k ∈ dict_keys b) (dict_keys a) /\ Forall (fun k => k ∈ dict_keys a) (dict_keys b).
#[export] Instance same_key_set_dec {A B} (a : list (string * A)) (b : list (string * B)) :
  Decision (same_key_set a b).
Proof. unfold same_key_set. apply _. Defined.

Section coordinator.
Variable hash_policy : IrrigationPolicy -> string.
Variable hash_plan : IrrigationPlan -> string.
Variable hash_receipt : IrrigationReceipt -> string.
(** [hashlib.sha256(text.encode("ascii")).hexdigest()[:32]] *)
Variable hash_command : string -> string.
Variable hash_body : AuditBody -> string.
Variable limit : Z.

Definition live_ (e : IrrigationEnv) (ra : raw IrrigationAuthority) (rp : raw IrrigationPlan)
  : res (IrrigationAuthority * IrrigationPlan * IrrigationPolicy) :=
  ap ← except_value_error (a ← model_validate ra; p ← model_validate rp; Ok (a, p))
         (ApiError "invalid_request" 400);
  let '(authority, plan) := ap in
  cur ← except_any
    (a ← validate_resolved (en_authority e (ia_accountId authority));
     p ← validate_resolved (en_policy e (ipl_policyId plan));
     Ok (a, p)) (ApiError "forbidden" 403);
  let '(current_authority, current_policy) := cur in
  current_plan ← except_any (validate_resolved (en_plan e (ipl_planId plan)))
    (ApiError "revision_conflict" 409);
  _ ← raise_if (current_authority <> authority) (ApiError "revision_conflict" 409);
  _ ← raise_if (ia_active authority = false \/ ia_role authority <> RoleAdmin \/
                ia_canManageIrrigation authority = false) (ApiError "forbidden" 403);
  _ ← raise_if ((ipl_coreId plan, ipl_homeId plan, ipl_homeRevision plan, ipl_actorAccountId plan,
                 ipl_accountRevision plan, ipl_sessionFamilyId plan)
                <> (ia_coreId authority, ia_homeId authority, ia_homeRevision authority,
                    ia_accountId authority, ia_accountRevision authority,
                    ia_sessionFamilyId authority) \/
                hash_policy current_policy <> ipl_policyHash plan \/ current_plan <> plan)
        (ApiError "revision_conflict" 409);
  Ok (authority, plan, current_policy).

Definition append_irrigation_audit (f : AuditFacts) : M IrrigationCoordinator unit :=
  m ← get_state;
  a ← lift (audit_append hash_body f (vc_audit m));
  put_state (set_audit a m).

(** The checks of [preview] on one observed valve. *)
Definition check_observed (now : Z) (plan : IrrigationPlan) (planned : list (string * IrrigationPlanItem))
    (x : string * ValveReadback) : res unit :=
  let r := x.2 in
  item ← require_some (dict_get planned x.1) KeyError;
  raise_if ((vr_coreId r, vr_homeId r, vr_zone r)
            <> (ipl_coreId plan, ipl_homeId plan, it_zone item) \/
            vr_observedAtMs r > now \/ vr_valveOpen r = true) (ApiError "revision_conflict" 409).

Definition irrigation_preview (e : IrrigationEnv) (ra : raw IrrigationAuthority) (rp : raw IrrigationPlan)
    (rreadbacks : list (raw ValveReadback)) (requestId : string)
  : M IrrigationCoordinator IrrigationPreview :=
  '(authority, plan, policy) ← lift (live_ e ra rp);
  readbacks ← lift (except_value_error
    (l ← model_validate_all rreadbacks;
     _ ← raise_if (~ Identity requestId \/ en_now e < ipl_generatedAtMs plan) (ValueError "");
     Ok l) (ApiError "invalid_request" 400));
  let planned := planned_of plan in
  let observed := observed_of readbacks in
  _ ← lift (raise_if (planned = [] \/ length observed <> length readbacks \/
                      ~ same_key_set observed planned) (ApiError "revision_conflict" 409));
  _ ← lift (for_each (check_observed (en_now e) plan planned) observed);
  m ← get_state;
  match dict_get (vc_request_previews m) requestId with
  | Some old_id =>
      old ← lift (require_some (dict_get (vc_previews m) old_id) KeyError);
      _ ← lift (raise_if ((sp_authority old, sp_plan old, sp_readbacks old)
                          <> (authority, plan, readbacks)) (ApiError "idempotency_conflict" 409));
      lift (model_validate (Shaped
        {| ipv_previewId := old_id; ipv_confirmToken := sp_token old;
           ipv_requestId := sp_request_id old; ipv_planId := ipl_planId (sp_plan old);
           ipv_policyRevision := ipl_policyRevision (sp_plan old);
           ipv_expiresAtMs := sp_expires_at old;
           ipv_commandCount :=
             Z.of_nat (length (filter (fun i => it_status i = Planned) (ipl_items (sp_plan old)))) |}))
  | None =>
      _ ← lift (raise_if (Z.of_nat (length (vc_previews m)) >= limit) (ApiError "invalid_request" 429));
      let expires := en_now e + ip_previewTtlMs policy in
      let stored := {| sp_authority := authority; sp_plan := plan; sp_readbacks := readbacks;
                       sp_request_id := requestId; sp_token := en_token e; sp_expires_at := expires |} in
      _ ← append_irrigation_audit {| af_kind := KindPreview; af_policyId := ipl_policyId plan;
             af_policyRevision := ipl_policyRevision plan;
             af_actorAccountId := ia_accountId authority; af_requestId := requestId;
             af_status := "accepted"; af_payloadHash := hash_plan plan; af_atMs := en_now e |};
      _ ← modify (add_preview (en_preview_id e) stored);
      lift (model_validate (Shaped
        {| ipv_previewId := en_preview_id e; ipv_confirmToken := en_token e;
           ipv_requestId := requestId; ipv_planId := ipl_planId plan;
           ipv_policyRevision := ipl_policyRevision plan; ipv_expiresAtMs := expires;
           ipv_commandCount := Z.of_nat (length planned) |}))
  end.
(** The verdict on the worker's readback. *)
Definition verdict (command : ValveWorkerCommand) (before : ValveReadback) (result : WorkerValveReadback)
  : result_code :=
  let exact := wr_commandId result = wc_commandId command /\ wr_zone result = wc_zone command /\
               wr_stateRevision result > vr_stateRevision before /\
               wr_observedAtMs result >= vr_observedAtMs before /\ wr_valveOpen result = false in
  let flow := wr_flowVerified result = true /\ wr_deliveredMl result > 0 in
  let bounded_flow := wc_expectedWaterMl command * 80 / 100 <= wr_deliveredMl result
                      <= wc_expectedWaterMl command * 110 / 100 in
  if decide (exact /\ flow /\ bounded_flow) then CodeApplied
  else if decide (~ exact) then CodeMismatch
  else if decide (~ flow) then flow_not_verified
  else flow_out_of_bounds.

Definition result_of (command : ValveWorkerCommand) (before : ValveReadback)
    (answer : resolved WorkerValveReadback) : ValveCommandResult :=
  let make status code readback :=
    {| vcr_commandId := wc_commandId command; vcr_zoneId := zn_zoneId (wc_zone command);
       vcr_status := status; vcr_code := code; vcr_readback := readback |} in
  match answer with
  | ResolverRaised _ => make StUnknown worker_ack_unknown None
  | _ =>
      match validate_resolved answer with
      | Raise _ => make StFailed CodeMismatch None
      | Ok result =>
          let code := verdict command before result in
          make (if decide (code = CodeApplied) then StApplied else StFailed) code (Some result)
      end
  end.

Definition command_for (stored : StoredPreview) (zone_id : string) (item : IrrigationPlanItem)
    (before : ValveReadback) : ValveWorkerCommand :=
  let plan := sp_plan stored in
  {| wc_commandId := hash_command (sp_request_id stored +:+ zone_id +:+ ipl_planId plan);
     wc_requestId := sp_request_id stored; wc_planId := ipl_planId plan;
     wc_policyRevision := ipl_policyRevision plan;
     wc_actorAccountId := ia_accountId (sp_authority stored); wc_zone := it_zone item;
     wc_expectedStateRevision := vr_stateRevision before;
     wc_durationSeconds := it_durationSeconds item; wc_expectedWaterMl := it_estimatedWaterMl item |}.

(** One iteration of the command loop. *)
Definition command_zone (e : IrrigationEnv) (stored : StoredPreview)
    (planned : list (string * IrrigationPlanItem)) (observed : list (string * ValveReadback))
    (zone_id : string) : M IrrigationCoordinator ValveCommandResult :=
  item ← lift (require_some (dict_get planned zone_id) KeyError);
  before ← lift (require_some (dict_get observed zone_id) KeyError);
  command ← lift (model_validate (Shaped (command_for stored zone_id item before)));
  let answer := en_worker e command in
  _ ← modify (add_sent {| cl_command := command; cl_before := before; cl_answer := answer |});
  lift (model_validate (Shaped (result_of command before answer))).

Fixpoint command_zones (e : IrrigationEnv) (stored : StoredPreview)
    (planned : list (string * IrrigationPlanItem)) (observed : list (string * ValveReadback))
    (zone_ids : list string) : M IrrigationCoordinator (list ValveCommandResult) :=
  match zone_ids with
  | [] => mret []
  | z :: l =>
      r ← command_zone e stored planned observed z;
      rs ← command_zones e stored planned observed l;
      mret (r :: rs)
  end.

(** [next(iter(states))] of an empty set raises [StopIteration]. *)
Definition overall_status (all_states : list result_status) : res receipt_status :=
  let states := remove_dups all_states in
  if decide (states = [StApplied]) then Ok RcApplied
  else if decide ((1 < length states)%nat) then Ok RcPartial
  else match states with
       | StApplied :: _ => Ok RcApplied
       | StFailed :: _ => Ok RcFailed
       | StUnknown :: _ => Ok RcUnknown
       | [] => Raise (PyError "StopIteration")
       end.
Definition valve_status (results : list ValveCommandResult) : res receipt_status :=
  overall_status (vcr_status <$> results).

Definition status_name (s : receipt_status) : string :=
  match s with
  | RcApplied => "applied" | RcPartial => "partial" | RcFailed => "failed" | RcUnknown => "unknown"
  end.

(** [confirmToken] is ASCII; on other text [compare_digest] raises. *)
Definition irrigation_confirm (e : IrrigationEnv) (ra : raw IrrigationAuthority) (previewId confirmToken : string)
  : M IrrigationCoordinator IrrigationReceipt :=
  m ← get_state;
  stored ← lift (require_some (dict_get (vc_previews m) previewId) (ApiError "invalid_request" 400));
  _ ← lift (raise_if (sp_token stored <> confirmToken) (ApiError "invalid_request" 400));
  '(authority, plan, _) ← lift (live_ e ra (Shaped (sp_plan stored)));
  match dict_get (vc_receipts m) (sp_request_id stored) with
  | Some old => mret old
  | None =>
      _ ← lift (raise_if (en_now e > sp_expires_at stored \/ en_now e < ipl_generatedAtMs plan)
                  (ApiError "invalid_request" 400));
      _ ← lift (ensure_capacity 1 (vc_audit m));
      let planned := planned_of plan in
      let observed := observed_of (sp_readbacks stored) in
      results ← command_zones e
        {| sp_authority := authority; sp_plan := plan; sp_readbacks := sp_readbacks stored;
           sp_request_id := sp_request_id stored; sp_token := sp_token stored;
           sp_expires_at := sp_expires_at stored |}
        planned observed (py_sorted str_le (dict_keys planned));
      status ← lift (valve_status results);
      receipt ← lift (model_validate (Shaped
        {| irc_requestId := sp_request_id stored; irc_planId := ipl_planId plan;
           irc_status := status; irc_results := results; irc_completedAtMs := en_now e |}));
      _ ← append_irrigation_audit {| af_kind := KindResult; af_policyId := ipl_policyId plan;
             af_policyRevision := ipl_policyRevision plan;
             af_actorAccountId := ia_accountId authority; af_requestId := sp_request_id stored;
             af_status := status_name status; af_payloadHash := hash_receipt receipt;
             af_atMs := en_now e |};
      _ ← modify (add_receipt receipt);
      mret receipt
  end.
End coordinator.

(** ** Reachable coordinators *)

Section effects.
Variable hash_policy : IrrigationPolicy -> string.
Variable hash_plan : IrrigationPlan -> string.
Variable hash_receipt : IrrigationReceipt -> string.
Variable hash_command : string -> string.
Variable hash_body : AuditBody -> string.
Variable limit : Z.
Local Notation live_of := (live_ hash_policy).
Local Notation preview_of := (irrigation_preview hash_policy hash_plan hash_body limit).
Local Notation confirm_of := (irrigation_confirm hash_policy hash_receipt hash_command hash_body).
Local Notation zone_run := (command_zone hash_command).
Local Notation zones_run := (command_zones hash_command).
Implicit Types m : IrrigationCoordinator.

Definition new_coordinator (a : IrrigationAudit) : IrrigationCoordinator :=
  {| vc_previews := []; vc_request_previews := []; vc_receipts := []; vc_audit := a; vc_sent := [] |}.

(** What the coordinator relies on: the clock fits 63 bits and the plans that
    the resolver answers come from the planner. *)
Definition env_ok (e : IrrigationEnv) : Prop :=
  en_now e <= 2 ^ 63 - 1 /\
  forall id p, en_plan e id = Resolved (Shaped p) -> commandable p.

Inductive effect_step m : IrrigationCoordinator -> Prop :=
  | step_preview e ra rp readbacks request :
      env_ok e -> effect_step m (preview_of e ra rp readbacks request m).2
  | step_confirm e ra id token :
      env_ok e -> effect_step m (confirm_of e ra id token m).2.

Definition coordinator_reachable m : Prop :=
  exists a, audit_made hash_body a /\ rtc effect_step (new_coordinator a) m.

(** ** What a live call has checked *)

Record live_facts (e : IrrigationEnv) (ra : raw IrrigationAuthority) (rp : raw IrrigationPlan)
    (a : IrrigationAuthority) (p : IrrigationPlan) (pol : IrrigationPolicy) : Prop := {
  lf_authority : ra = Shaped a /\ IrrigationAuthority_valid a;
  lf_plan : rp = Shaped p /\ IrrigationPlan_valid p;
  lf_resolved : en_authority e (ia_accountId a) = Resolved (Shaped a);
  lf_policy : en_policy e (ipl_policyId p) = Resolved (Shaped pol) /\
              hash_policy pol = ipl_policyHash p;
  lf_current : en_plan e (ipl_planId p) = Resolved (Shaped p);
  lf_may : ia_active a = true /\ ia_role a = RoleAdmin /\ ia_canManageIrrigation a = true;
  lf_same : (ipl_coreId p, ipl_homeId p, ipl_homeRevision p, ipl_actorAccountId p,
             ipl_accountRevision p, ipl_sessionFamilyId p)
            = (ia_coreId a, ia_homeId a, ia_homeRevision a, ia_accountId a,
               ia_accountRevision a, ia_sessionFamilyId a);
}.

Lemma live_ok e ra rp a p pol :
  live_of e ra rp = Ok (a, p, pol) -> live_facts e ra rp a p pol.
Proof.
  unfold live_. intros ([a0 p0] & Hv%except_value_error_ok & Hl)%bind_ok.
  apply bind_ok in Hv as (a1 & [-> Ha]%model_validate_ok & (p1 & [-> Hp]%model_validate_ok & E)%bind_ok).
  injection E as -> ->. apply bind_ok in Hl as ([a2 pol2] & Hc%except_any_ok & Hl).
  apply bind_ok in Hc as (a3 & [Hra _]%validate_resolved_ok & (pol3 & [Hrp _]%validate_resolved_ok & E)%bind_ok).
  injection E as -> ->.
  apply bind_ok in Hl as (p4 & [Hcur _]%except_any_ok%validate_resolved_ok & Hl).
  apply bind_ok in Hl as ([] & H1%raise_if_ok & (? & H2%raise_if_ok & (? & H3%raise_if_ok & E)%bind_ok)%bind_ok).
  passed. injection E as -> -> ->. subst. split; try done.
  repeat match goal with H : ?b <> false |- _ => apply not_false_is_true in H end. done.
Qed.

Lemma live_api e ra rp : api_only (live_of e ra rp).
Proof.
  unfold live_. apply api_only_bind; [|intros [a p] _].
  { apply api_only_except_value. repeat (apply value_only_bind; [auto with closed_errors|intros]).
    auto with closed_errors. }
  apply api_only_bind; [auto with closed_errors|intros [a1 pol] _].
  repeat (apply api_only_bind; [auto with closed_errors|intros]). auto with closed_errors.
Qed.

(** ** Stored previews *)

Record stored_ok (s : StoredPreview) : Prop := {
  sk_plan : IrrigationPlan_valid (sp_plan s);
  sk_commandable : commandable (sp_plan s);
  sk_readbacks : Forall ValveReadback_valid (sp_readbacks s);
  sk_request : Identity (sp_request_id s);
  sk_some : planned_of (sp_plan s) <> [];
  sk_keys : same_key_set (observed_of (sp_readbacks s)) (planned_of (sp_plan s));
}.

Lemma planned_of_elem p k i :
  dict_get (planned_of p) k = Some i ->
  i ∈ ipl_items p /\ it_status i = Planned /\ zn_zoneId (it_zone i) = k.
Proof.
  intros (x & [Hs Hx]%list_elem_of_filter & <- & <-)%dict_of_get_elem. done.
Qed.

Lemma observed_of_elem l k r :
  dict_get (observed_of l) k = Some r -> r ∈ l /\ zn_zoneId (vr_zone r) = k.
Proof. intros (x & Hx & <- & <-)%dict_of_get_elem. done. Qed.

Lemma dict_of_length {A K V} `{EqDecision K} (f : A -> K) (g : A -> V) (l : list A) :
  (length (dict_of f g l) <= length l)%nat.
Proof.
  unfold dict_of. induction l as [|x l IH] using rev_ind; [done|].
  rewrite foldl_snoc, dict_set_length, length_app. cbn [length].
  set (d := foldl _ _ _) in *. destruct (dict_get d (f x)); lia.
Qed.

Lemma planned_of_length p : IrrigationPlan_valid p -> (length (planned_of p) <= 32)%nat.
Proof.
  intros Hp. etrans; [apply dict_of_length|]. etrans; [apply length_filter|].
  destruct Hp as (_ & _ & _ & _ & _ & _ & _ & _ & _ & _ & _ & _ & Hl & _). lia.
Qed.

(** ** The command loop *)

Section loop.
Hypothesis hash_command_hex : forall s, Identity (hash_command s).

(** The commands of a preview and the valve states they start from. *)
Definition commands_of (s : StoredPreview) (zone_ids : list string)
  : list (ValveWorkerCommand * ValveReadback) :=
  omap (fun z => i ← dict_get (planned_of (sp_plan s)) z;
                 b ← dict_get (observed_of (sp_readbacks s)) z;
                 Some (command_for hash_command s z i b, b)) zone_ids.

Definition zone_order (s : StoredPreview) : list string :=
  py_sorted str_le (dict_keys (planned_of (sp_plan s))).

Definition results_of (e : IrrigationEnv) (l : list (ValveWorkerCommand * ValveReadback))
  : list ValveCommandResult :=
  (fun cb => result_of cb.1 cb.2 (en_worker e cb.1)) <$> l.

(** The calls that send them. *)
Definition call_of (e : IrrigationEnv) (cb : ValveWorkerCommand * ValveReadback) : ValveCall :=
  {| cl_command := cb.1; cl_before := cb.2; cl_answer := en_worker e cb.1 |}.

Definition sent_all (l : list ValveCall) m : IrrigationCoordinator :=
  {| vc_previews := vc_previews m; vc_request_previews := vc_request_previews m;
     vc_receipts := vc_receipts m; vc_audit := vc_audit m; vc_sent := vc_sent m ++ l |}.

Lemma command_valid s z i b :
  stored_ok s -> Identity (ia_accountId (sp_authority s)) ->
  dict_get (planned_of (sp_plan s)) z = Some i ->
  dict_get (observed_of (sp_readbacks s)) z = Some b ->
  ValveWorkerCommand_valid (command_for hash_command s z i b).
Proof.
  intros Hs Ha (Hi & Hst & Hz)%planned_of_elem (Hb & _)%observed_of_elem.
  pose proof (sk_commandable s Hs) as Hc. unfold commandable in Hc.
  eapply Forall_forall in Hc; [|exact Hi]. specialize (Hc Hst).
  pose proof (sk_readbacks s Hs) as Hr. eapply Forall_forall in Hr as (_ & _ & _ & ? & _); [|exact Hb].
  destruct (sk_plan s Hs) as (? & _ & _ & _ & _ & ? & _ & _ & _ & _ & _ & _ & _ & Hv & _).
  eapply Forall_forall in Hv as (? & ? & ?); [|exact Hi].
  pose proof (sk_request s Hs).
  split_and!; cbn; try done; try lia; apply hash_command_hex.
Qed.

Lemma result_valid c b answer :
  ValveWorkerCommand_valid c -> ValveCommandResult_valid (result_of c b answer).
Proof.
  intros (Hid & _ & _ & _ & _ & Hz & _). destruct Hz as (_ & _ & Hz & _).
  destruct answer as [e| |r]; [by split_and!|by split_and!|]. unfold result_of.
  destruct (validate_resolved (Resolved r)) as [w|] eqn:E; [|by split_and!].
  apply validate_resolved_ok in E as [_ Hw]. by split_and!.
Qed.

Lemma command_zone_ok e s z i b m :
  stored_ok s -> Identity (ia_accountId (sp_authority s)) ->
  dict_get (planned_of (sp_plan s)) z = Some i ->
  dict_get (observed_of (sp_readbacks s)) z = Some b ->
  let c := command_for hash_command s z i b in
  zone_run e s (planned_of (sp_plan s)) (observed_of (sp_readbacks s)) z m
  = (Ok (result_of c b (en_worker e c)), add_sent (call_of e (c, b)) m).
Proof.
  intros Hs Ha Hi Hb. pose proof (command_valid s z i b Hs Ha Hi Hb) as Hv. cbv zeta.
  unfold command_zone, mbind, M_bind, lift, modify. rewrite Hi, Hb. cbn [require_some].
  rewrite (@model_validate_valid _ ValveWorkerCommand_model _ Hv).
  by rewrite (@model_validate_valid _ ValveCommandResult_model _ (result_valid _ _ _ Hv)).
Qed.

Lemma zones_run_ok e s l m :
  stored_ok s -> Identity (ia_accountId (sp_authority s)) ->
  Forall (fun z => z ∈ dict_keys (planned_of (sp_plan s))) l ->
  zones_run e s (planned_of (sp_plan s)) (observed_of (sp_readbacks s)) l m
  = (Ok (results_of e (commands_of s l)), sent_all (call_of e <$> commands_of s l) m).
Proof.
  intros Hs Ha Hl. revert m. induction Hl as [|z l Hz _ IH]; intros m; cbn [command_zones].
  - unfold sent_all. cbn. rewrite app_nil_r. by destruct m.
  - destruct (dict_get (planned_of (sp_plan s)) z) as [i|] eqn:Hi.
    2:{ by apply dict_get_None in Hi. }
    destruct (dict_get (observed_of (sp_readbacks s)) z) as [b|] eqn:Hb.
    2:{ apply dict_get_None in Hb. destruct (sk_keys s Hs) as [_ Hk].
        eapply Forall_forall in Hk; [|exact Hz]. done. }
    assert (commands_of s (z :: l) = (command_for hash_command s z i b, b) :: commands_of s l) as ->.
    { unfold commands_of. cbn [omap list_omap]. by rewrite Hi; cbn; rewrite Hb. }
    unfold mbind, M_bind. rewrite (command_zone_ok e s z i b m Hs Ha Hi Hb), IH.
    unfold mret, M_ret, sent_all. cbn. by rewrite <- app_assoc.
Qed.

Lemma zone_order_keys s :
  Forall (fun z => z ∈ dict_keys (planned_of (sp_plan s))) (zone_order s).
Proof. apply Forall_forall. intros z. unfold zone_order. by rewrite py_sorted_elem. Qed.

Lemma zone_order_nodup s : NoDup (zone_order s).
Proof. unfold zone_order. rewrite py_sorted_perm. apply dict_of_nodup. Qed.

(** One command per planned zone, in the order of the identities. *)
Lemma commands_zones s l :
  stored_ok s -> Forall (fun z => z ∈ dict_keys (planned_of (sp_plan s))) l ->
  (fun cb => zn_zoneId (wc_zone cb.1)) <$> commands_of s l = l.
Proof.
  intros Hs. induction 1 as [|z l Hz _ IH]; [done|].
  destruct (dict_get (planned_of (sp_plan s)) z) as [i|] eqn:Hi.
  2:{ by apply dict_get_None in Hi. }
  destruct (dict_get (observed_of (sp_readbacks s)) z) as [b|] eqn:Hb.
  2:{ apply dict_get_None in Hb. destruct (sk_keys s Hs) as [_ Hk].
      eapply Forall_forall in Hk; [|exact Hz]. done. }
  unfold commands_of in *. cbn [omap list_omap]. rewrite Hi. cbn. rewrite Hb. cbn.
  f_equal; [|exact IH]. by apply planned_of_elem in Hi as (_ & _ & ?).
Qed.

Lemma commands_length s l :
  stored_ok s -> Forall (fun z => z ∈ dict_keys (planned_of (sp_plan s))) l ->
  length (commands_of s l) = length l.
Proof. intros Hs Hl. rewrite <- (commands_zones s l Hs Hl) at 2. by rewrite length_fmap. Qed.

Lemma commands_from s l c b :
  (c, b) ∈ commands_of s l -> exists z i, c = command_for hash_command s z i b /\
    i ∈ ipl_items (sp_plan s) /\ it_status i = Planned /\ b ∈ sp_readbacks s.
Proof.
  intros (z & _ & (i & Hi & (b' & Hb & E)%bind_Some)%bind_Some)%list_elem_of_omap.
  injection E as <- <-. apply planned_of_elem in Hi as (? & ? & _).
  apply observed_of_elem in Hb as (? & _). by exists z, i.
Qed.
End loop.

Lemma overall_status_total states : states <> [] -> exists st, overall_status states = Ok st.
Proof.
  intros Hr. unfold overall_status. repeat (case_decide; [by eexists|]).
  destruct (remove_dups states) as [|[] l] eqn:E; try by eexists.
  destruct states as [|x states]; [done|]. exfalso.
  apply (not_elem_of_nil x). rewrite <- E. apply elem_of_remove_dups. left.
Qed.

Lemma overall_status_applied states :
  overall_status states = Ok RcApplied -> Forall (fun x => x = StApplied) states.
Proof.
  intros Hs. apply Forall_forall. intros x Hx.
  assert (x ∈ remove_dups states) as Hin by by apply elem_of_remove_dups.
  unfold overall_status in Hs. case_decide as Hd.
  - rewrite Hd in Hin. by apply list_elem_of_singleton in Hin.
  - case_decide; [done|]. destruct (remove_dups states) as [|[] [|]]; cbn in *; try done; lia.
Qed.

Lemma status_of_total results : results <> [] -> exists st, valve_status results = Ok st.
Proof. intros Hr. apply overall_status_total. by destruct results. Qed.

Lemma status_applied results : valve_status results = Ok RcApplied ->
  Forall (fun r => vcr_status r = StApplied) results.
Proof. intros Hs%overall_status_applied. by apply Forall_fmap in Hs. Qed.

Lemma status_name_text st : status_text (status_name st).
Proof. destruct st; (split; [cbn; lia|reflexivity]). Qed.

(** ** The invariant *)

Section invariant.
Hypothesis hash_command_hex : forall s, Identity (hash_command s).
Hypothesis hash_receipt_hex : forall r, Snapshot (hash_receipt r).
Hypothesis hash_body_hex : forall b, Snapshot (hash_body b).

Definition request_of (c : ValveCall) : string := wc_requestId (cl_command c).
Definition command_key (c : ValveCall) : string * string := (request_of c, zn_zoneId (wc_zone (cl_command c))).

(** The readback that the worker answered, if it was one. *)
Definition read_back (answer : resolved WorkerValveReadback) : option WorkerValveReadback :=
  match answer with
  | Resolved (Shaped w) => if decide (WorkerValveReadback_valid w) then Some w else None
  | _ => None
  end.
(** The valve was opened for the command and gave the planned water: a readback
    of this command and zone, later than the one of the preview, with the valve
    closed again and a verified flow of 80 to 110 percent. *)
Definition watered (c : ValveCall) (w : WorkerValveReadback) : Prop :=
  wr_commandId w = wc_commandId (cl_command c) /\ wr_zone w = wc_zone (cl_command c) /\
  vr_stateRevision (cl_before c) < wr_stateRevision w /\ vr_observedAtMs (cl_before c) <= wr_observedAtMs w /\
  wr_valveOpen w = false /\ wr_flowVerified w = true /\ 0 < wr_deliveredMl w /\
  wc_expectedWaterMl (cl_command c) * 80 / 100 <= wr_deliveredMl w <= wc_expectedWaterMl (cl_command c) * 110 / 100.
(** A result says what the worker answered: it is uncertain exactly when the
    worker did not answer, and applied exactly when it answered that the water
    flowed. *)
Record says (c : ValveCall) (r : ValveCommandResult) : Prop := {
  sy_command : vcr_commandId r = wc_commandId (cl_command c) /\ vcr_zoneId r = zn_zoneId (wc_zone (cl_command c));
  sy_readback : vcr_readback r = read_back (cl_answer c);
  sy_unknown : vcr_status r = StUnknown <-> exists ex, cl_answer c = ResolverRaised ex;
  sy_applied : vcr_status r = StApplied <-> exists w, read_back (cl_answer c) = Some w /\ watered c w;
}.
(** The calls made for a request. *)
Definition calls_for (k : string) m : list ValveCall := filter (fun c => request_of c = k) (vc_sent m).

Lemma result_says c : says c (result_of (cl_command c) (cl_before c) (cl_answer c)).
Proof.
  unfold result_of. destruct (cl_answer c) as [ex| |[w|]] eqn:Ha; cbn [validate_resolved model_validate].
  - split; cbn; rewrite ?Ha; naive_solver.
  - split; cbn; rewrite ?Ha; naive_solver.
  - destruct (decide (model_valid w)) as [Hw|Hw]; cbn [vcr_status vcr_readback].
    + split; cbn; rewrite ?Ha; cbn [read_back]; rewrite ?decide_True by done; [done|done|case_decide; naive_solver|].
      unfold verdict, watered. repeat case_decide; naive_solver lia.
    + split; cbn; rewrite ?Ha; cbn [read_back]; rewrite ?decide_False by done; naive_solver.
  - split; cbn; rewrite ?Ha; naive_solver.
Qed.

Record coordinator_inv m : Prop := {
  ci_audit : audit_ok hash_body (vc_audit m);
  ci_previews : forall k s, dict_get (vc_previews m) k = Some s -> stored_ok s;
  ci_known : forall r k, dict_get (vc_request_previews m) r = Some k ->
    is_Some (dict_get (vc_previews m) k);
  ci_unique : NoDup (command_key <$> vc_sent m);
  ci_sent : Forall (fun c => is_Some (dict_get (vc_receipts m) (request_of c))) (vc_sent m);
  ci_receipts : forall k rc, dict_get (vc_receipts m) k = Some rc ->
    irc_requestId rc = k /\ valve_status (irc_results rc) = Ok (irc_status rc) /\
    Forall2 says (calls_for k m) (irc_results rc);
}.

Lemma new_coordinator_inv a : audit_made hash_body a -> coordinator_inv (new_coordinator a).
Proof.
  intros Ha%audit_made_ok. split; cbn; try done; constructor.
Qed.

(** *** Preview *)

(** What [preview] stores when it stores anything. *)
Lemma preview_stored e ra rp rreadbacks request a p pol l :
  env_ok e -> live_facts e ra rp a p pol ->
  model_validate_all rreadbacks = Ok l -> Identity request ->
  planned_of p <> [] -> same_key_set (observed_of l) (planned_of p) ->
  stored_ok {| sp_authority := a; sp_plan := p; sp_readbacks := l; sp_request_id := request;
               sp_token := en_token e; sp_expires_at := en_now e + ip_previewTtlMs pol |}.
Proof.
  intros [_ He] Hl [_ Hv]%model_validate_all_ok Hr Hp Hk.
  split; cbn; try done; [apply Hl|]. eapply He. apply Hl.
Qed.

Lemma preview_outcome e ra rp rreadbacks request m r m' :
  coordinator_inv m -> env_ok e -> preview_of e ra rp rreadbacks request m = (r, m') ->
  m' = m \/
  (exists s a, stored_ok s /\ sp_request_id s = request /\ audit_ok hash_body a /\
     dict_get (vc_request_previews m) request = None /\
     m' = add_preview (en_preview_id e) s (set_audit a m)).
Proof.
  intros Hm He. unfold irrigation_preview, append_irrigation_audit, get_state, put_state, modify, lift.
  destruct (live_of e ra rp) as [[[a p] pol]|] eqn:Hl; [|intros E; injection E as _ <-; by left].
  apply live_ok in Hl. unfold mbind, M_bind.
  destruct (except_value_error _ _) as [l|] eqn:Hv; [|intros E; injection E as _ <-; by left].
  apply except_value_error_ok, bind_ok in Hv as (l' & Hl' & ([] & Hg%raise_if_ok & E')%bind_ok).
  injection E' as ->. passed.
  destruct (raise_if (planned_of p = [] \/ _) _) as [|] eqn:Hr; [|intros E; injection E as _ <-; by left].
  apply raise_if_ok in Hr. passed.
  destruct (for_each _ _); [|intros E; injection E as _ <-; by left].
  destruct (dict_get (vc_request_previews m) request) as [old_id|] eqn:Hold.
  - destruct (require_some _ _); [|intros E; injection E as _ <-; by left].
    destruct (raise_if _ _); intros E; injection E as _ <-; by left.
  - destruct (raise_if _ _); [|intros E; injection E as _ <-; by left].
    destruct (audit_append hash_body _ _) as [au|] eqn:Hau; [|intros E; injection E as _ <-; by left].
    intros E. injection E as _ <-. right. eexists _, au. split_and!; [by eapply preview_stored| |..]; try done.
    by apply audit_append_ok in Hau as [? _]; [|apply Hm].
Qed.

Lemma add_preview_inv id s a m :
  coordinator_inv m -> stored_ok s -> audit_ok hash_body a ->
  coordinator_inv (add_preview id s (set_audit a m)).
Proof.
  intros [Hau Hp Hk Hu Hs Hr] Hst Ha. split; cbn; try done.
  - intros k s'. rewrite dict_get_set. case_decide; [|apply Hp]. intros E. by injection E as <-.
  - intros r k. rewrite !dict_get_set. case_decide; [|case_decide; [by eexists|apply Hk]].
    intros E. injection E as <-. rewrite decide_True by done. by eexists.
Qed.

(** *** Confirm *)

Definition with_authority (a : IrrigationAuthority) (s : StoredPreview) : StoredPreview :=
  {| sp_authority := a; sp_plan := sp_plan s; sp_readbacks := sp_readbacks s;
     sp_request_id := sp_request_id s; sp_token := sp_token s; sp_expires_at := sp_expires_at s |}.

Lemma with_authority_ok a s : stored_ok s -> stored_ok (with_authority a s).
Proof. by intros []. Qed.

(** The first answer to a confirmation. *)
Record confirmed (e : IrrigationEnv) (ra : raw IrrigationAuthority) (id token : string)
    (m m' : IrrigationCoordinator) (rc : IrrigationReceipt) (s : StoredPreview)
    (a : IrrigationAuthority) (pol : IrrigationPolicy)
    (sent : list (ValveWorkerCommand * ValveReadback)) : Prop := {
  cf_preview : dict_get (vc_previews m) id = Some s;
  cf_token : sp_token s = token;
  cf_live : live_facts e ra (Shaped (sp_plan s)) a (sp_plan s) pol;
  cf_first : dict_get (vc_receipts m) (sp_request_id s) = None;
  cf_time : ipl_generatedAtMs (sp_plan s) <= en_now e <= sp_expires_at s;
  cf_commands : sent = commands_of (with_authority a s) (zone_order s);
  cf_receipt : irc_requestId rc = sp_request_id s /\ irc_planId rc = ipl_planId (sp_plan s) /\
    irc_results rc = results_of e sent /\ valve_status (irc_results rc) = Ok (irc_status rc) /\
    irc_completedAtMs rc = en_now e;
  cf_state : exists au, audit_ok hash_body au /\
    m' = add_receipt rc (set_audit au (sent_all (call_of e <$> sent) m));
}.

Lemma receipt_valid e s a st :
  stored_ok s -> env_ok e -> IrrigationAuthority_valid a ->
  ipl_generatedAtMs (sp_plan s) <= en_now e ->
  IrrigationReceipt_valid
    {| irc_requestId := sp_request_id s; irc_planId := ipl_planId (sp_plan s); irc_status := st;
       irc_results := results_of e (commands_of (with_authority a s) (zone_order s));
       irc_completedAtMs := en_now e |}.
Proof.
  intros Hs [Hnow _] Ha Hg. pose proof (with_authority_ok a s Hs) as Hw.
  destruct (sk_plan s Hs) as (Hid & _ & _ & _ & _ & _ & _ & _ & _ & _ & Ht & _).
  assert (Identity (ia_accountId a)) as Hacc by (apply Ha).
  assert (length (zone_order s) = length (planned_of (sp_plan s))) as Hlen.
  { unfold zone_order. rewrite py_sorted_length. apply length_fmap. }
  split_and!; cbn [irc_requestId irc_planId irc_results irc_completedAtMs]; try done.
  - apply Hs.
  - unfold results_of. rewrite length_fmap, (commands_length (with_authority a s) (zone_order s) Hw (zone_order_keys s)).
    rewrite Hlen. pose proof (sk_some s Hs). destruct (planned_of (sp_plan s)); [done|cbn; lia].
  - unfold results_of. rewrite length_fmap, (commands_length (with_authority a s) (zone_order s) Hw (zone_order_keys s)).
    rewrite Hlen. apply planned_of_length, Hs.
  - apply Forall_fmap, Forall_forall. intros [c b] Hc. cbn. apply result_valid.
    apply list_elem_of_omap in Hc as (z & _ & (i & Hi & (b' & Hb & E)%bind_Some)%bind_Some).
    injection E as <- <-. by apply command_valid.
  - unfold TimestampMs in *. lia.
Qed.

Lemma confirm_first e ra id token m s a pol :
  coordinator_inv m -> env_ok e ->
  dict_get (vc_previews m) id = Some s -> sp_token s = token ->
  live_of e ra (Shaped (sp_plan s)) = Ok (a, sp_plan s, pol) ->
  dict_get (vc_receipts m) (sp_request_id s) = None ->
  ipl_generatedAtMs (sp_plan s) <= en_now e <= sp_expires_at s ->
  ensure_capacity 1 (vc_audit m) = Ok tt ->
  exists rc m' sent, confirm_of e ra id token m = (Ok rc, m') /\
    confirmed e ra id token m m' rc s a pol sent.
Proof.
  intros Hm He Hs Ht Hl Hrc Htime Hcap. pose proof (live_ok _ _ _ _ _ _ Hl) as Hlf.
  destruct (lf_authority _ _ _ _ _ _ Hlf) as [_ Hav].
  assert (Identity (ia_accountId a)) as Hacc by (apply Hav).
  pose proof (ci_previews m Hm _ _ Hs) as Hok. pose proof (with_authority_ok a s Hok) as Hw.
  set (sent := commands_of (with_authority a s) (zone_order s)).
  destruct (status_of_total (results_of e sent)) as [st Hst].
  { intros Hn. apply (f_equal length) in Hn. unfold results_of in Hn. rewrite length_fmap in Hn.
    unfold sent in Hn. rewrite (commands_length (with_authority a s) (zone_order s) Hw (zone_order_keys s)) in Hn.
    unfold zone_order in Hn. rewrite py_sorted_length in Hn. unfold dict_keys in Hn.
    rewrite length_fmap in Hn. apply (sk_some s Hok). by apply nil_length_inv. }
  pose proof (receipt_valid e s a st Hok He Hav (proj1 Htime)) as Hrv.
  set (rc := {| irc_requestId := _ |}) in Hrv.
  pose proof (ci_audit m Hm) as Hau.
  destruct (audit_append_total hash_body {| af_kind := KindResult;
      af_policyId := ipl_policyId (sp_plan s); af_policyRevision := ipl_policyRevision (sp_plan s);
      af_actorAccountId := ia_accountId a; af_requestId := sp_request_id s;
      af_status := status_name st; af_payloadHash := hash_receipt rc; af_atMs := en_now e |}
    (vc_audit m) hash_body_hex Hau) as [au Hap].
  { destruct (sk_plan s Hok) as (_ & _ & _ & _ & ? & ? & _). destruct Hrv as (? & _ & _ & _ & ?).
    split_and!; cbn; try done. apply status_name_text. }
  { unfold ensure_capacity in Hcap. apply raise_if_ok in Hcap. lia. }
  exists rc, (add_receipt rc (set_audit au (sent_all (call_of e <$> sent) m))), sent. split.
  2:{ split; try done. exists au. split; [|done]. by apply audit_append_ok in Hap as [? _]. }
  unfold irrigation_confirm, append_irrigation_audit, get_state, put_state, modify, lift, mret, M_ret, mbind, M_bind.
  rewrite Hs. cbn [require_some]. rewrite raise_if_no by (intros Hn; by apply Hn).
  rewrite Hl, Hrc, raise_if_no by lia. rewrite Hcap.
  pose proof (zones_run_ok hash_command_hex e (with_authority a s) (zone_order s) m Hw Hacc
    (zone_order_keys s)) as Hrun. unfold with_authority in Hrun at 1. cbn [sp_plan sp_readbacks with_authority] in Hrun.
  unfold zone_order in Hrun at 1. rewrite Hrun. fold sent. rewrite Hst.
  match goal with |- context [model_validate (Shaped ?x)] => change x with rc end.
  rewrite (@model_validate_valid _ IrrigationReceipt_model _ Hrv). cbn [sent_all vc_audit].
  by rewrite Hap.
Qed.

Lemma confirm_outcome e ra id token m r m' :
  coordinator_inv m -> env_ok e -> confirm_of e ra id token m = (r, m') ->
  (m' = m /\ (exists c st, r = Raise (ApiError c st))) \/
  (m' = m /\ exists s rc, dict_get (vc_previews m) id = Some s /\ sp_token s = token /\
     dict_get (vc_receipts m) (sp_request_id s) = Some rc /\ r = Ok rc) \/
  (exists rc s a pol sent, r = Ok rc /\ confirmed e ra id token m m' rc s a pol sent).
Proof.
  intros Hm He Hc.
  destruct (dict_get (vc_previews m) id) as [s|] eqn:Hs.
  2:{ left. unfold irrigation_confirm, get_state, lift, mbind, M_bind in Hc. rewrite Hs in Hc. naive_solver. }
  destruct (decide (sp_token s = token)) as [Ht|Ht].
  2:{ left. unfold irrigation_confirm, get_state, lift, mbind, M_bind in Hc. rewrite Hs in Hc.
      cbn [require_some] in Hc. rewrite raise_if_yes in Hc by done. naive_solver. }
  destruct (live_of e ra (Shaped (sp_plan s))) as [[[a p] pol]|x] eqn:Hl.
  2:{ left. destruct (live_api e ra (Shaped (sp_plan s)) x Hl) as (c & st & ->).
      unfold irrigation_confirm, get_state, lift, mbind, M_bind in Hc. rewrite Hs in Hc.
      cbn [require_some] in Hc. rewrite raise_if_no in Hc by (intros Hn; by apply Hn).
      rewrite Hl in Hc. naive_solver. }
  assert (p = sp_plan s) as -> by (apply live_ok in Hl as [_ [E _]]; by injection E).
  destruct (dict_get (vc_receipts m) (sp_request_id s)) as [rc|] eqn:Hrc.
  { right; left. unfold irrigation_confirm, get_state, lift, mbind, M_bind in Hc. rewrite Hs in Hc.
    cbn [require_some] in Hc. rewrite raise_if_no in Hc by (intros Hn; by apply Hn).
    rewrite Hl, Hrc in Hc. injection Hc as <- <-. split; [done|]. by exists s, rc. }
  destruct (decide (en_now e > sp_expires_at s \/ en_now e < ipl_generatedAtMs (sp_plan s))) as [Hn|Hn].
  { left. unfold irrigation_confirm, get_state, lift, mbind, M_bind in Hc. rewrite Hs in Hc.
    cbn [require_some] in Hc. rewrite raise_if_no in Hc by (intros Hn'; by apply Hn').
    rewrite Hl, Hrc, raise_if_yes in Hc by done. naive_solver. }
  destruct (ensure_capacity 1 (vc_audit m)) as [[]|x] eqn:Hcap.
  - right; right.
    destruct (confirm_first e ra id token m s a pol Hm He Hs Ht Hl Hrc ltac:(lia) Hcap)
      as (rc & m1 & sent & E & Hcf).
    rewrite E in Hc. injection Hc as <- <-. by exists rc, s, a, pol, sent.
  - left. pose proof Hcap as Hx. apply raise_if_raise in Hx as [_ <-].
    unfold irrigation_confirm, get_state, lift, mbind, M_bind in Hc. rewrite Hs in Hc.
    cbn [require_some] in Hc. rewrite raise_if_no in Hc by (intros Hn'; by apply Hn').
    rewrite Hl, Hrc, raise_if_no, Hcap in Hc by done. naive_solver.
Qed.

(** No call was made for a request without a receipt. *)
Lemma calls_none k m : coordinator_inv m -> dict_get (vc_receipts m) k = None -> calls_for k m = [].
Proof.
  intros Hm Hk. apply filter_none. intros c Hc E. pose proof (ci_sent m Hm) as Hs. rewrite Forall_forall in Hs.
  destruct (Hs c Hc) as [rc Hrc]. rewrite E, Hk in Hrc. done.
Qed.

Lemma confirmed_inv e ra id token m m' rc s a pol sent :
  coordinator_inv m -> confirmed e ra id token m m' rc s a pol sent -> coordinator_inv m'.
Proof.
  intros Hm [Hs _ _ Hf _ Hsent (Hr1 & _ & Hr3 & Hr4 & _) (au & Hau & ->)].
  pose proof (with_authority_ok a s (ci_previews m Hm _ _ Hs)) as Hw.
  assert (forall c, c ∈ call_of e <$> sent -> request_of c = sp_request_id s) as Hreq.
  { intros c ([c' b] & -> & Hc)%list_elem_of_fmap. rewrite Hsent in Hc.
    apply commands_from in Hc as (z & i & -> & _). done. }
  split; cbn [add_receipt set_audit sent_all vc_audit vc_previews vc_request_previews vc_sent vc_receipts]; try apply Hm; try done.
  - rewrite fmap_app. apply NoDup_app. split_and!; [apply Hm| |].
    + intros k (c & -> & Hc)%list_elem_of_fmap (c' & E & Hc')%list_elem_of_fmap. injection E as E _.
      assert (c ∈ calls_for (sp_request_id s) m) as Hin by (apply list_elem_of_filter; split; [by rewrite E, Hreq|done]).
      rewrite (calls_none _ _ Hm Hf) in Hin. by apply elem_of_nil in Hin.
    + rewrite <- list_fmap_compose, Hsent.
      apply (NoDup_fmap_1 snd). rewrite <- list_fmap_compose.
      change (NoDup ((fun cb => zn_zoneId (wc_zone cb.1)) <$> commands_of (with_authority a s) (zone_order s))).
      rewrite (commands_zones (with_authority a s) (zone_order s) Hw (zone_order_keys s)).
      apply zone_order_nodup.
  - apply Forall_app. split.
    + eapply Forall_impl; [apply (ci_sent m Hm)|]. intros c Hc. rewrite dict_get_set. by case_decide.
    + apply Forall_forall. intros c Hc. rewrite (Hreq c Hc), <- Hr1, dict_get_set_eq. done.
  - intros k rc'. rewrite dict_get_set. unfold calls_for. cbn [vc_sent add_receipt set_audit sent_all]. rewrite filter_app.
    case_decide as Hk; intros E.
    + injection E as <-. subst k. split_and!; [done..|]. fold (calls_for (irc_requestId rc) m).
      rewrite Hr1, (calls_none _ _ Hm Hf), (filter_all _ (call_of e <$> sent)) by done.
      rewrite Hr3. unfold results_of. cbn. apply Forall2_fmap, Forall_Forall2_diag, Forall_forall.
      intros [c b] _. apply (result_says (call_of e (c, b))).
    + destruct (ci_receipts m Hm _ _ E) as (? & ? & ?). split_and!; [done..|].
      rewrite (filter_none _ (call_of e <$> sent)); [by rewrite app_nil_r|].
      intros c Hc Hn. apply Hk. rewrite Hr1, <- Hn. symmetry. by apply Hreq.
Qed.

Lemma effect_step_inv m m' : effect_step m m' -> coordinator_inv m -> coordinator_inv m'.
Proof.
  intros [e ra rp rb request He|e ra id token He] Hm.
  - destruct (preview_of e ra rp rb request m) as [r m1] eqn:E.
    apply preview_outcome in E as [->|(s & au & Hs & _ & Ha & _ & ->)]; try done.
    by apply add_preview_inv.
  - destruct (confirm_of e ra id token m) as [r m1] eqn:E.
    apply confirm_outcome in E as [[-> _]|[[-> _]|(rc & s & a & pol & sent & _ & Hc)]]; try done.
    by eapply confirmed_inv.
Qed.

Lemma coordinator_reachable_inv m : coordinator_reachable m -> coordinator_inv m.
Proof.
  intros (a & Ha & Hs). pose proof (new_coordinator_inv a Ha) as Hi. revert Hi. clear Ha.
  induction Hs as [|m1 m2 m3 H1 _ IH]; [done|]. intros Hi. apply IH. by eapply effect_step_inv.
Qed.

Lemma step_receipts m m' k rc :
  effect_step m m' -> coordinator_inv m ->
  dict_get (vc_receipts m) k = Some rc -> dict_get (vc_receipts m') k = Some rc.
Proof.
  intros [e ra rp rb request He|e ra id token He] Hm Hk.
  - destruct (preview_of e ra rp rb request m) as [r m1] eqn:E.
    by apply preview_outcome in E as [->|(s & au & _ & _ & _ & _ & ->)].
  - destruct (confirm_of e ra id token m) as [r m1] eqn:E.
    apply confirm_outcome in E as [[-> _]|[[-> _]|(rc' & s & a & pol & sent & _ & Hc)]]; try done.
    destruct Hc as [_ _ _ Hf _ _ (Hr & _) (au & _ & ->)]. cbn.
    rewrite dict_get_set, decide_False; [done|]. intros E. rewrite <- Hr, E in Hf. congruence.
Qed.

Lemma later_receipts m m' k rc :
  rtc effect_step m m' -> coordinator_inv m ->
  dict_get (vc_receipts m) k = Some rc ->
  coordinator_inv m' /\ dict_get (vc_receipts m') k = Some rc.
Proof.
  induction 1 as [|m1 m2 m3 H1 _ IH]; intros Hi Hk; [done|].
  apply IH; [by eapply effect_step_inv|by eapply step_receipts].
Qed.

(** ** Properties *)

(** C14 No valve is commanded twice.  In every reachable coordinator, whatever
    was previewed, confirmed, retried or answered by the worker, at most one
    command was ever sent for a request and a zone; a request for which a
    command was sent has a receipt; and the results of a receipt are, one for
    one and in order, what the worker answered to the commands of its request:
    its readback, uncertain exactly when it did not answer, and applied exactly
    when it read back the closed valve of that command and zone, later than
    the preview, with a verified flow of 80 to 110 percent of the plan's. *)
Theorem irrigation_valves_once m :
  coordinator_reachable m ->
  NoDup (command_key <$> vc_sent m) /\
  (forall c, c ∈ vc_sent m -> is_Some (dict_get (vc_receipts m) (request_of c))) /\
  forall k rc, dict_get (vc_receipts m) k = Some rc -> Forall2 says (calls_for k m) (irc_results rc).
Proof.
  intros Hm%coordinator_reachable_inv. split_and!; [apply Hm|apply Forall_forall, Hm|].
  intros k rc Hk. by apply (ci_receipts m Hm).
Qed.

(** A confirmation is closed: it is refused with an [ApiError] and leaves
    everything as it was, or it answers with the receipt the request already
    has and sends nothing, or it is the first: then the preview's token was
    given in time, the account is the current one and may water, the plan is
    still the current one, and exactly one command was sent for each of its
    planned zones, in the order of their identities, with the duration and
    the water the plan gives that zone, and the worker's answer was taken. *)
Theorem irrigation_confirm_closed e ra id token m r m' :
  coordinator_reachable m -> env_ok e -> confirm_of e ra id token m = (r, m') ->
  (m' = m /\ exists c st, r = Raise (ApiError c st)) \/
  (m' = m /\ exists rc, r = Ok rc /\ dict_get (vc_receipts m) (irc_requestId rc) = Some rc) \/
  (exists rc s a sent, r = Ok rc /\ vc_sent m' = vc_sent m ++ sent /\
     dict_get (vc_previews m) id = Some s /\ sp_token s = token /\
     ipl_generatedAtMs (sp_plan s) <= en_now e <= sp_expires_at s /\
     en_authority e (ia_accountId a) = Resolved (Shaped a) /\ ia_active a = true /\
     ia_role a = RoleAdmin /\ ia_canManageIrrigation a = true /\
     en_plan e (ipl_planId (sp_plan s)) = Resolved (Shaped (sp_plan s)) /\
     ((fun c => zn_zoneId (wc_zone (cl_command c))) <$> sent) = zone_order s /\
     Forall (fun c => exists i, i ∈ ipl_items (sp_plan s) /\ it_status i = Planned /\
       wc_zone (cl_command c) = it_zone i /\ wc_durationSeconds (cl_command c) = it_durationSeconds i /\
       wc_expectedWaterMl (cl_command c) = it_estimatedWaterMl i /\ cl_before c ∈ sp_readbacks s /\
       cl_answer c = en_worker e (cl_command c)) sent).
Proof.
  intros Hm%coordinator_reachable_inv He Hc.
  apply confirm_outcome in Hc as [[-> Hr]|[[-> (s & rc & _ & _ & Hrc & ->)]|(rc & s & a & pol & sent & -> & Hc)]];
    try done; [by left|right; left; split; [done|]|right; right].
  { exists rc. destruct (ci_receipts m Hm _ _ Hrc) as [-> _]. done. }
  destruct Hc as [Hs Ht Hl _ Htime Hsent _ (au & _ & ->)].
  pose proof (with_authority_ok a s (ci_previews m Hm _ _ Hs)) as Hw.
  exists rc, s, a, (call_of e <$> sent). split_and!; try done; try apply Hl; try apply Htime.
  - rewrite Hsent, <- list_fmap_compose.
    apply (commands_zones (with_authority a s) (zone_order s) Hw (zone_order_keys s)).
  - apply Forall_fmap, Forall_forall. intros [c b] Hc. rewrite Hsent in Hc.
    apply commands_from in Hc as (z & i & -> & Hi & Hp & Hb). by exists i.
Qed.

(** A request is answered once.  Whenever two confirmations, by whomever
    and however far apart, both succeed for the same request, they return the
    same receipt, and the later one changes nothing. *)
Theorem irrigation_receipt_replayed e e' ra ra' id id' token token' m m1 m2 m3 rc rc' :
  coordinator_reachable m -> env_ok e -> env_ok e' ->
  confirm_of e ra id token m = (Ok rc, m1) -> rtc effect_step m1 m2 ->
  confirm_of e' ra' id' token' m2 = (Ok rc', m3) -> irc_requestId rc' = irc_requestId rc ->
  rc' = rc /\ m3 = m2.
Proof.
  intros Hm%coordinator_reachable_inv He He' H1 Hs H2 Hid.
  assert (coordinator_inv m1 /\ dict_get (vc_receipts m1) (irc_requestId rc) = Some rc) as [Hi1 Hr1].
  { apply confirm_outcome in H1 as [[_ (? & ? & ?)]|[[-> (s & rc0 & _ & _ & Hrc & E)]|
      (rc0 & s & a & pol & sent & E & Hc)]]; try done; injection E as ->.
    - by destruct (ci_receipts m Hm _ _ Hrc) as [-> _].
    - split; [by eapply confirmed_inv|]. destruct Hc as [_ _ _ _ _ _ _ (au & _ & ->)]. apply dict_get_set_eq. }
  destruct (later_receipts _ _ _ _ Hs Hi1 Hr1) as [Hi2 Hr2].
  apply confirm_outcome in H2 as [[_ (? & ? & ?)]|[[-> (s & rc0 & _ & _ & Hrc & E)]|
      (rc0 & s & a & pol & sent & E & Hc)]]; try done; injection E as ->.
  - destruct (ci_receipts m2 Hi2 _ _ Hrc) as [E _]. split; [|done]. congruence.
  - destruct Hc as [_ _ _ Hf _ _ (E & _) _]. congruence.
Qed.

(** A receipt says applied only for water that was seen to flow.  In every
    reachable coordinator, if a request's receipt has status applied, each
    valve commanded for it read back closed, in its own zone, with verified
    flow between 80 and 110 percent of what the plan estimates. *)
Theorem irrigation_applied_verified m rc c :
  coordinator_reachable m ->
  dict_get (vc_receipts m) (request_of c) = Some rc -> irc_status rc = RcApplied ->
  c ∈ vc_sent m ->
  exists r w, r ∈ irc_results rc /\ vcr_commandId r = wc_commandId (cl_command c) /\ vcr_readback r = Some w /\
    read_back (cl_answer c) = Some w /\ watered c w.
Proof.
  intros Hm%coordinator_reachable_inv Hrc Hst Hc. destruct (ci_receipts m Hm _ _ Hrc) as (_ & Hso & Hf).
  rewrite Hst in Hso. apply status_applied in Hso.
  assert (c ∈ calls_for (request_of c) m) as [i Hi]%list_elem_of_lookup by (by apply list_elem_of_filter).
  destruct (Forall2_lookup_l _ _ _ _ _ Hf Hi) as (r & Hr%list_elem_of_lookup_2 & [[Hid _] Hrb _ Happ]).
  rewrite Forall_forall in Hso. destruct (proj1 Happ (Hso r Hr)) as (w & Hw & Hwat).
  exists r, w. split; [done|]. split; [done|]. split; [congruence|]. by split.
Qed.
End invariant.
End effects.

(** ** A worked confirmation *)

Module EffectExample.
Import EnergyExample IrrigationExample.
Definition log : IrrigationAudit :=
  {| ta_core := id32 "a"; ta_home := id32 "b"; ta_limit := 16; ta_chain := id32 "c";
     ta_events := []; ta_head := ZERO |}.
Definition hp (p : IrrigationPlan) : string := id64 "1".
Definition hr (r : IrrigationReceipt) : string := id64 "2".
Definition hc (s : string) : string := id32 "3".
Definition hb (b : AuditBody) : string := id64 "4".
Definition readback (z : IrrigationZone) : raw ValveReadback :=
  Shaped {| vr_coreId := id32 "a"; vr_homeId := id32 "b"; vr_zone := z; vr_stateRevision := 5;
            vr_valveOpen := false; vr_observedAtMs := 1000400 |}.
(** A worker whose valves give 95 percent of the expected water. *)
Definition worker (c : ValveWorkerCommand) : resolved WorkerValveReadback :=
  Resolved (Shaped {| wr_commandId := wc_commandId c; wr_zone := wc_zone c;
    wr_stateRevision := wc_expectedStateRevision c + 2; wr_valveOpen := false;
    wr_deliveredMl := wc_expectedWaterMl c * 95 / 100; wr_flowVerified := true;
    wr_observedAtMs := 1001000 |}).
Definition env (t : Z) : IrrigationEnv :=
  {| en_authority := who; en_policy := what; en_plan := fun _ => Resolved (Shaped planned);
     en_worker := worker; en_now := t; en_preview_id := id32 "8";
     en_token := String.concat "" (repeat "T"%string 43) |}.
Definition m0 := new_coordinator log.
Definition m1 := (irrigation_preview h64 hp hb 16 (env 1000600) (Shaped gardener) (Shaped planned)
  [readback (zone "1" 6000); readback (zone "2" 3000)] (id32 "9") m0).2.
Definition run m t := irrigation_confirm h64 hr hc hb (env t) (Shaped gardener) (id32 "8") (en_token (env t)) m.
Definition m2 := (run m1 1000700).2.

Example both_applied :
  match (run m1 1000700).1 with
  | Ok rc => (irc_status rc, vcr_code <$> irc_results rc) | Raise _ => (RcFailed, []) end
  = (RcApplied, [CodeApplied; CodeApplied]).
Proof. vm_compute. reflexivity. Qed.
Lemma planned_commandable : commandable planned.
Proof. exact (irrigation_plan_commandable _ _ _ _ _ _ _ _ _ _ _ _ _ the_plan_ok). Qed.
Lemma env_is_ok t : t <= 2 ^ 63 - 1 -> env_ok (env t).
Proof.
  intros Ht. split; [done|]. intros i p E. cbn [env en_plan] in E.
  generalize planned_commandable. generalize planned E. congruence.
Qed.
Lemma log_made : audit_made hb log.
Proof. eapply (made_new _ (id32 "a") (id32 "b") 16 (id32 "c")); by vm_compute. Qed.
Lemma m1_reached : coordinator_reachable h64 hp hr hc hb 16 m1.
Proof.
  exists log. split; [apply log_made|]. apply rtc_once. apply step_preview, env_is_ok. by vm_compute.
Qed.
Lemma m2_reached : coordinator_reachable h64 hp hr hc hb 16 m2.
Proof.
  destruct m1_reached as (a & Ha & Hs). exists a. split; [done|]. eapply rtc_r; [exact Hs|].
  refine (step_confirm h64 hp hr hc hb 16 m1 (env 1000700) (Shaped gardener) (id32 "8")
    (en_token (env 1000700)) (env_is_ok 1000700 _)). by vm_compute.
Qed.
Lemma run_is : irrigation_confirm h64 hr hc hb (env 1000700) (Shaped gardener) (id32 "8") (en_token (env 1000700)) m1
  = ((run m1 1000700).1, m2).
Proof. unfold m2, run. match goal with |- ?x = _ => generalize x end. by intros []. Qed.
Lemma sends : length (vc_sent m2) <> length (vc_sent m1).
Proof. by vm_compute. Qed.
Lemma m1_not_m2 : m2 <> m1.
Proof. exact (fun E => sends (f_equal (fun m => length (vc_sent m)) E)). Qed.
Lemma hc_hex s : is_hex 32 (hc s).
Proof. by vm_compute. Qed.
Lemma hr_hex r : is_hex 64 (hr r).
Proof. by vm_compute. Qed.
Lemma hb_hex b : is_hex 64 (hb b).
Proof. by vm_compute. Qed.
End EffectExample.
Import EnergyExample EffectExample.

Lemma irrigation_valves_once_witness :
  length (vc_sent m2) = 2%nat /\ NoDup (command_key <$> vc_sent m2).
Proof.
  split; [vm_compute; reflexivity|].
  apply (irrigation_valves_once IrrigationExample.h64 hp hr hc hb 16 hc_hex hr_hex hb_hex m2), m2_reached.
Defined.

Lemma irrigation_confirm_closed_witness :
  exists rc sent, (run m1 1000700).1 = Ok rc /\ vc_sent m2 = vc_sent m1 ++ sent.
Proof.
  destruct (irrigation_confirm_closed IrrigationExample.h64 hp hr hc hb 16 hc_hex hr_hex hb_hex
    (env 1000700) (Shaped IrrigationExample.gardener) (id32 "8") (en_token (env 1000700)) m1
    (run m1 1000700).1 m2) as [[E _]|[[E _]|(rc & s & a & sent & Hr & E & _)]].
  - apply m1_reached.
  - apply env_is_ok. by vm_compute.
  - apply run_is.
  - destruct (m1_not_m2 E).
  - destruct (m1_not_m2 E).
  - exists rc, sent. split; [exact Hr|exact E].
Defined.

Lemma irrigation_receipt_replayed_witness :
  exists rc, run m1 1000700 = (Ok rc, m2) /\ run m2 1000900 = (Ok rc, m2).
Proof.
  eexists. split; [vm_compute; reflexivity|].
  edestruct (irrigation_receipt_replayed IrrigationExample.h64 hp hr hc hb 16 hc_hex hr_hex hb_hex
    (env 1000700) (env 1000900) (Shaped IrrigationExample.gardener) (Shaped IrrigationExample.gardener)
    (id32 "8") (id32 "8") (en_token (env 1000700)) (en_token (env 1000900)) m1 m2 m2
    (run m2 1000900).2) as [E _].
  - apply m1_reached.
  - apply env_is_ok. by vm_compute.
  - apply env_is_ok. by vm_compute.
  - vm_compute. reflexivity.
  - apply rtc_refl.
  - vm_compute. reflexivity.
  - vm_compute. reflexivity.
  - vm_compute. reflexivity.
Defined.

Lemma irrigation_applied_verified_witness :
  exists c r w, c ∈ vc_sent m2 /\ vcr_readback r = Some w /\ wr_valveOpen w = false /\
    wc_expectedWaterMl (cl_command c) * 80 / 100 <= wr_deliveredMl w.
Proof.
  destruct (vc_sent m2) as [|c l] eqn:E; [vm_compute in E; discriminate|].
  destruct (dict_get (vc_receipts m2) (request_of c)) as [rc|] eqn:Hr.
  - destruct (irrigation_applied_verified IrrigationExample.h64 hp hr hc hb 16 hc_hex hr_hex hb_hex
      m2 rc c) as (r & w & _ & _ & Hb & _ & (_ & _ & _ & _ & Ho & _ & _ & Hw)).
    + apply m2_reached.
    + exact Hr.
    + vm_compute in E. injection E as <- _. vm_compute in Hr. by injection Hr as <-.
    + rewrite E. left.
    + exists c, r, w. split_and!; [left|done..|apply Hw].
  - vm_compute in E. injection E as <- _. vm_compute in Hr. discriminate.
Defined.
