(* ===== verification/Expenses.v ===== *)
(** * The shared expense ledger

    [server/larenor_server/shared_expenses]: an append-only ledger of the
    household's shared expenses.  An expense is split over its participants to
    the minor unit, stored encrypted, and recorded as an event that is linked
    to the preceding one; the head of the chain, the number of events and the
    revision are sealed in a state row.  Every operation verifies the whole
    history of its scope first.  SHA-256, HMAC-SHA-256 and AES-GCM are
    parameters; the bytes that are hashed or encrypted are canonical JSON
    texts and are represented by the JSON value.  The clock and the [uuid4]
    readings of a call are its environment. *)

From S2P Require Import Prelude Auth.

Definition MAX_ACCOUNTS : Z := 32.
Definition MAX_HOUSEHOLD_MEMBERS : Z := 256.
Definition MAX_EXPENSES : Z := 1000.
Definition MAX_TITLE_LENGTH : Z := 200.
Definition MAX_TOTAL_MINOR : Z := 10 ^ 12.
Definition CURRENCY_SCALES : list (string * Z) :=
  [("EUR", 2); ("GBP", 2); ("JPY", 0); ("TRY", 2); ("USD", 2)]%string.

Record HouseholdAccounts := { ha_revision : Z; ha_ids : list ustr }.

Record ExpenseShare := { account_id : ustr; amount_minor : Z }.

(** The part of a record that is encrypted, without [created_at]. *)
Record ExpenseValue := {
  xv_title : ustr;
  xv_currency : string;
  xv_currency_scale : Z;
  xv_total_minor : Z;
  xv_payer_id : ustr;
  xv_shares : list ExpenseShare;
  xv_members_revision : Z;
}.

Record ExpenseRecord := {
  xr_id : ustr;
  xr_revision : Z;
  xr_value : ExpenseValue;
  xr_created_at : Z;
}.

Record ExpenseReceipt := {
  rc_event_id : ustr;
  rc_command_id : ustr;
  rc_ledger_revision : Z;
  rc_expense : ExpenseRecord;
}.

Record ExpenseEvent := {
  xe_event_id : ustr;
  xe_actor_id : ustr;
  xe_record_id : ustr;
  xe_ledger_revision : Z;
  xe_occurred_at : Z;
}.

Record ExportedExpense := {
  xp_id : ustr;
  xp_revision : Z;
  xp_title : ustr;
  xp_currency : string;
  xp_currencyScale : Z;
  xp_totalMinor : Z;
  xp_payerId : ustr;
  xp_shares : list ExpenseShare;
  xp_createdAt : Z;
}.

Record ExpenseExport := {
  ex_coreId : ustr;
  ex_homeId : ustr;
  ex_ledgerRevision : Z;
  ex_expenses : list ExportedExpense;
}.

(** The arguments of [create] that [_request] reads. *)
Record ExpenseRequest := {
  rq_expected_ledger_revision : Z;
  rq_title : ustr;
  rq_currency : string;
  rq_total_minor : Z;
  rq_payer_id : ustr;
  rq_participant_ids : list ustr;
}.

(** ** Tables *)

Record event_row := {
  ev_sequence : Z;
  ev_event_id : ustr;
  ev_core_id : ustr;
  ev_home_id : ustr;
  ev_command_id : ustr;
  ev_actor_id : ustr;
  ev_record_id : ustr;
  ev_ledger_revision : Z;
  ev_occurred_at : Z;
  ev_request_hash : string;
  ev_previous_hash : string;
  ev_event_hash : string;
}.

Record state_row := {
  st_core_id : ustr;
  st_home_id : ustr;
  st_revision : Z;
  st_event_count : Z;
  st_last_hash : string;
  st_state_hash : string;
}.

Record record_row (Cipher : Type) := {
  er_id : ustr;
  er_core_id : ustr;
  er_home_id : ustr;
  er_revision : Z;
  er_nonce : string;
  er_ciphertext : Cipher;
  er_payload_hash : string;
  er_created_at : Z;
}.
Arguments er_id {Cipher} _.
Arguments er_core_id {Cipher} _.
Arguments er_home_id {Cipher} _.
Arguments er_revision {Cipher} _.
Arguments er_nonce {Cipher} _.
Arguments er_ciphertext {Cipher} _.
Arguments er_payload_hash {Cipher} _.
Arguments er_created_at {Cipher} _.

Record expense_db (Cipher : Type) := {
  xd_records : list (record_row Cipher);
  xd_events : list event_row;
  xd_state : list state_row;
}.
Arguments xd_records {Cipher} _.
Arguments xd_events {Cipher} _.
Arguments xd_state {Cipher} _.
Arguments Build_expense_db {Cipher} _ _ _.

(** What one call reads from the clock and from [uuid4]. *)
Record expense_env := {
  xe_now : Z;
  xe_new_record_id : ustr;
  xe_new_event_id : ustr;
  xe_new_nonce : string;
}.

(** ** Payloads

    [ExpenseRecord( **value )] refuses a missing and an unexpected key;
    [sum] refuses an amount that is no number.  A payload whose other fields
    have foreign types is refused here, where Python would build the record;
    only the holder of the encryption key can write one. *)

Definition share_json (s : ExpenseShare) : jval :=
  JObj [("account_id", JText (account_id s)); ("amount_minor", JInt (amount_minor s))]%string.

Definition share_of_json (v : jval) : option ExpenseShare :=
  match v with
  | JObj l =>
      match dict_get l "account_id"%string, dict_get l "amount_minor"%string with
      | Some (JText a), Some (JInt n) =>
          if decide (length l = 2%nat) then Some {| account_id := a; amount_minor := n |} else None
      | _, _ => None
      end
  | _ => None
  end.

(** [self._canonical(record_value)] *)
Definition record_json (v : ExpenseValue) (created_at : Z) : jval :=
  JObj [("created_at", JTime created_at); ("currency", JStr (xv_currency v));
        ("currency_scale", JInt (xv_currency_scale v));
        ("members_revision", JInt (xv_members_revision v)); ("payer_id", JText (xv_payer_id v));
        ("shares", JList (share_json <$> xv_shares v)); ("title", JText (xv_title v));
        ("total_minor", JInt (xv_total_minor v))]%string.

Definition record_of_json (v : jval) : option (ExpenseValue * Z) :=
  match v with
  | JObj l =>
      match dict_get l "created_at"%string, dict_get l "currency"%string,
            dict_get l "currency_scale"%string, dict_get l "members_revision"%string,
            dict_get l "payer_id"%string, dict_get l "shares"%string, dict_get l "title"%string,
            dict_get l "total_minor"%string with
      | Some (JTime created), Some (JStr currency), Some (JInt scale), Some (JInt members),
        Some (JText payer), Some (JList shares), Some (JText title), Some (JInt total) =>
          shares ← mapM share_of_json shares;
          if decide (length l = 8%nat) then
            Some ({| xv_title := title; xv_currency := currency; xv_currency_scale := scale;
                     xv_total_minor := total; xv_payer_id := payer; xv_shares := shares;
                     xv_members_revision := members |}, created)
          else None
      | _, _, _, _, _, _, _, _ => None
      end
  | _ => None
  end.

(** The request as it is hashed. *)
Definition request_json (expected : Z) (v : ExpenseValue) : jval :=
  JObj [("currency", JStr (xv_currency v)); ("currency_scale", JInt (xv_currency_scale v));
        ("expected_ledger_revision", JInt expected);
        ("members_revision", JInt (xv_members_revision v)); ("payer_id", JText (xv_payer_id v));
        ("shares", JList (share_json <$> xv_shares v)); ("title", JText (xv_title v));
        ("total_minor", JInt (xv_total_minor v))]%string.

(** ** Requests *)

(** [HouseholdAccounts.__post_init__] *)
Definition HouseholdAccounts_new `{UnicodeData} (revision : Z) (ids : list ustr)
  : res HouseholdAccounts :=
  _ ← raise_if (revision < 1 \/ ~ (1 <= Z.of_nat (length ids) <= MAX_HOUSEHOLD_MEMBERS) \/
                ~ NoDup ids \/ ~ Forall _identifier ids)
        (ValueError "invalid_household_accounts");
  Ok {| ha_revision := revision; ha_ids := ids |}.

Definition scope_ `{UnicodeData} (core_id home_id : ustr) : res unit :=
  raise_if (~ _identifier core_id \/ ~ _identifier home_id) (ApiError "invalid_request" 400).

Definition authorize (actor : Principal) (members : HouseholdAccounts) : res unit :=
  raise_if (p_role actor <> Admin /\ u (p_id actor) ∉ ha_ids members) (ApiError "forbidden" 403).

(** [[{..., "amount_minor": base + (index < remainder)} for index, identifier in enumerate(participants)]] *)
Definition split_shares (total : Z) (participants : list ustr) : list ExpenseShare :=
  let n := Z.of_nat (length participants) in
  let base := total / n in
  let remainder := total mod n in
  imap (fun index identifier =>
          {| account_id := identifier;
             amount_minor := base + if decide (Z.of_nat index < remainder) then 1 else 0 |})
       participants.

Section requests.
Context `{UnicodeData}.
(** [hashlib.sha256(self._canonical(value)).hexdigest()] *)
Variable sha256_hex : jval -> string.

(** Encoding a title that holds a lone surrogate raises
    [UnicodeEncodeError]; identifiers are alphanumeric and hold none. *)
Definition request_ (rq : ExpenseRequest) (members : HouseholdAccounts)
  : res (ExpenseValue * string) :=
  _ ← raise_if (rq_expected_ledger_revision rq < 1 \/
                ~ (1 <= Z.of_nat (length (str_strip (rq_title rq))) <= MAX_TITLE_LENGTH) \/
                dict_get CURRENCY_SCALES (rq_currency rq) = None \/
                ~ (1 <= rq_total_minor rq <= MAX_TOTAL_MINOR) \/
                ~ _identifier (rq_payer_id rq) \/
                ~ (1 <= Z.of_nat (length (rq_participant_ids rq)) <= MAX_ACCOUNTS) \/
                ~ NoDup (rq_participant_ids rq) \/
                ~ Forall (fun i => i ∈ ha_ids members) (rq_participant_ids rq) \/
                rq_payer_id rq ∉ ha_ids members)
        (ApiError "invalid_request" 400);
  let participants := py_sorted ustr_le (rq_participant_ids rq) in
  let shares := split_shares (rq_total_minor rq) participants in
  let title := str_strip (rq_title rq) in
  scale ← require_some (dict_get CURRENCY_SCALES (rq_currency rq)) KeyError;
  let value :=
    {| xv_title := title; xv_currency := rq_currency rq; xv_currency_scale := scale;
       xv_total_minor := rq_total_minor rq; xv_payer_id := rq_payer_id rq; xv_shares := shares;
       xv_members_revision := ha_revision members |} in
  _ ← raise_if (existsb is_surrogate title = true) (ValueError "surrogates_not_allowed");
  Ok (value, sha256_hex (request_json (rq_expected_ledger_revision rq) value)).
End requests.

(** ** The store *)

Section store.
Context `{UnicodeData}.
Variable sha256_hex : jval -> string.
(** [hmac.new(audit_key, tag + canonical, sha256).hexdigest()] *)
Variable hmac_hex : string -> jval -> string.
Variable Cipher : Type.
(** [AESGCM(key).encrypt(nonce, raw, aad)] and [decrypt], [None] for [InvalidTag] *)
Variable gcm_encrypt : string -> jval -> ustr -> Cipher.
Variable gcm_decrypt : string -> Cipher -> ustr -> option jval.
Local Notation db := (expense_db Cipher).
Local Notation record_row := (record_row Cipher).
Implicit Types d : db.

Definition aad_of (core_id home_id record_id : ustr) : ustr :=
  core_id ++ [0] ++ home_id ++ [0] ++ record_id.

Definition state_hash (core_id home_id : ustr) (revision event_count : Z) (last_hash : string)
  : string :=
  hmac_hex "larenor-shared-expense-state-v1"
    (JList [JText core_id; JText home_id; JInt revision; JInt event_count; JStr last_hash]).

(** The tuple of a row's columns but the last. *)
Definition event_json (e : event_row) : jval :=
  JList [JInt (ev_sequence e); JText (ev_event_id e); JText (ev_core_id e);
         JText (ev_home_id e); JText (ev_command_id e); JStr "created";
         JText (ev_actor_id e); JText (ev_record_id e); JInt (ev_ledger_revision e);
         JTime (ev_occurred_at e); JStr (ev_request_hash e); JStr (ev_previous_hash e)].

Definition event_hash (e : event_row) : string :=
  hmac_hex "larenor-shared-expense-event-v1" (event_json e).

#[local] Instance event_chain : ChainRow event_row string := {|
  row_previous := ev_previous_hash; row_stored := ev_event_hash; row_computed := event_hash;
|}.

Definition in_scope (core_id home_id : ustr) (e : event_row) : Prop :=
  ev_core_id e = core_id /\ ev_home_id e = home_id.
#[local] Instance in_scope_dec c h e : Decision (in_scope c h e).
Proof. unfold in_scope. apply _. Defined.

Definition record_in_scope (core_id home_id : ustr) (r : record_row) : Prop :=
  er_core_id r = core_id /\ er_home_id r = home_id.
#[local] Instance record_in_scope_dec c h r : Decision (record_in_scope c h r).
Proof. unfold record_in_scope. apply _. Defined.

Definition state_in_scope (core_id home_id : ustr) (s : state_row) : Prop :=
  st_core_id s = core_id /\ st_home_id s = home_id.
#[local] Instance state_in_scope_dec c h s : Decision (state_in_scope c h s).
Proof. unfold state_in_scope. apply _. Defined.

Definition sequence_le (a b : event_row) : Prop := ev_sequence a <= ev_sequence b.
#[local] Instance sequence_le_dec a b : Decision (sequence_le a b).
Proof. unfold sequence_le. apply _. Defined.

(** [SELECT * FROM shared_expense_events WHERE core_id=? AND home_id=? ORDER BY sequence] *)
Definition scope_events d (core_id home_id : ustr) : list event_row :=
  py_sorted sequence_le (filter (in_scope core_id home_id) (xd_events d)).

Definition state_ d (core_id home_id : ustr) : res (option state_row) :=
  match sql_one (state_in_scope core_id home_id) (xd_state d) with
  | None => Ok None
  | Some row =>
      _ ← raise_if (st_state_hash row <>
                    state_hash core_id home_id (st_revision row) (st_event_count row)
                      (st_last_hash row))
            (StartupError "shared_expense_history_invalid");
      Ok (Some row)
  end.

Definition decrypt_ (row : record_row) : res ExpenseRecord :=
  let invalid := StartupError "shared_expense_storage_invalid" in
  raw ← require_some
          (gcm_decrypt (er_nonce row) (er_ciphertext row)
             (aad_of (er_core_id row) (er_home_id row) (er_id row))) invalid;
  _ ← raise_if (sha256_hex raw <> er_payload_hash row) invalid;
  '(value, created_at) ← require_some (record_of_json raw) invalid;
  _ ← raise_if (zsum (amount_minor <$> xv_shares value) <> xv_total_minor value) invalid;
  Ok {| xr_id := er_id row; xr_revision := er_revision row; xr_value := value;
        xr_created_at := created_at |}.

Definition record_ d (record_id : ustr) : res ExpenseRecord :=
  row ← require_some (sql_one (fun r => er_id r = record_id) (xd_records d))
          (StartupError "shared_expense_history_invalid");
  decrypt_ row.

Definition event_of (row : event_row) : ExpenseEvent :=
  {| xe_event_id := ev_event_id row; xe_actor_id := ev_actor_id row;
     xe_record_id := ev_record_id row; xe_ledger_revision := ev_ledger_revision row;
     xe_occurred_at := ev_occurred_at row |}.

(** [seen.add(x)] *)
Definition set_add (x : ustr) (seen : list ustr) : list ustr :=
  if decide (x ∈ seen) then seen else x :: seen.

(** The body of the verification loop: [previous], [seen] and [events]. *)
Definition verify_row d (acc : string * list ustr * list ExpenseEvent) (row : event_row)
  : res (string * list ustr * list ExpenseEvent) :=
  let '(previous, seen, events) := acc in
  let invalid := StartupError "shared_expense_history_invalid" in
  _ ← raise_if (ev_previous_hash row <> previous \/ ev_event_hash row <> event_hash row) invalid;
  record ← record_ d (ev_record_id row);
  _ ← raise_if (sha256_hex (request_json (ev_ledger_revision row - 1) (xr_value record))
                <> ev_request_hash row) invalid;
  Ok (ev_event_hash row, set_add (ev_record_id row) seen, events ++ [event_of row]).

Definition verified_history d (core_id home_id : ustr) : res (list ExpenseEvent) :=
  let invalid := StartupError "shared_expense_history_invalid" in
  state ← state_ d core_id home_id;
  let rows := scope_events d core_id home_id in
  match state with
  | None => _ ← raise_if (rows <> []) invalid; Ok []
  | Some state =>
      '(previous, seen, events) ← fold_res (verify_row d) (""%string, [], []) rows;
      let record_count := length (filter (record_in_scope core_id home_id) (xd_records d)) in
      _ ← raise_if (Z.of_nat (length rows) <> st_event_count state \/
                    st_revision state <> Z.of_nat (length rows) + 1 \/
                    st_last_hash state <> previous \/
                    record_count <> length seen) invalid;
      Ok events
  end.

(** ** Writing *)

Definition record_clash (a b : record_row) : Prop := er_id a = er_id b.
#[local] Instance record_clash_dec a b : Decision (record_clash a b).
Proof. unfold record_clash. apply _. Defined.

Definition insert_record (row : record_row) d : res db :=
  _ ← raise_if (er_revision row <= 0) IntegrityError;
  records ← sql_insert record_clash row (xd_records d);
  Ok (Build_expense_db records (xd_events d) (xd_state d)).

Definition event_clash (a b : event_row) : Prop :=
  ev_sequence a = ev_sequence b \/ ev_event_id a = ev_event_id b \/
  (in_scope (ev_core_id b) (ev_home_id b) a /\ ev_command_id a = ev_command_id b).
#[local] Instance event_clash_dec a b : Decision (event_clash a b).
Proof. unfold event_clash. apply _. Defined.

Definition insert_event (row : event_row) d : res db :=
  _ ← raise_if (ev_ledger_revision row <= 1) IntegrityError;
  _ ← raise_if (ev_record_id row ∉ er_id <$> xd_records d) IntegrityError;
  events ← sql_insert event_clash row (xd_events d);
  Ok (Build_expense_db (xd_records d) events (xd_state d)).

(** [INSERT ... ON CONFLICT(core_id,home_id) DO UPDATE] *)
Definition upsert_state (row : state_row) d : res db :=
  _ ← raise_if (st_revision row <= 1 \/ st_event_count row <= 0) IntegrityError;
  let same := state_in_scope (st_core_id row) (st_home_id row) in
  let states :=
    match sql_one same (xd_state d) with
    | Some _ => sql_update same (fun _ => row) (xd_state d)
    | None => xd_state d ++ [row]
    end in
  Ok (Build_expense_db (xd_records d) (xd_events d) states).

Definition next_sequence d : Z := next_key (ev_sequence <$> xd_events d).

Definition find_command d (core_id home_id command_id : ustr) : option event_row :=
  sql_one (fun e => in_scope core_id home_id e /\ ev_command_id e = command_id) (xd_events d).

Definition receipt_of d (row : event_row) : res ExpenseReceipt :=
  record ← record_ d (ev_record_id row);
  Ok {| rc_event_id := ev_event_id row; rc_command_id := ev_command_id row;
        rc_ledger_revision := ev_ledger_revision row; rc_expense := record |}.

(** The rows that a new expense adds. *)
Definition new_record (env : expense_env) (core_id home_id : ustr) (request : ExpenseValue)
  : record_row :=
  let raw := record_json request (xe_now env) in
  {| er_id := xe_new_record_id env; er_core_id := core_id; er_home_id := home_id;
     er_revision := 1; er_nonce := xe_new_nonce env;
     er_ciphertext := gcm_encrypt (xe_new_nonce env) raw
                        (aad_of core_id home_id (xe_new_record_id env));
     er_payload_hash := sha256_hex raw; er_created_at := xe_now env |}.

Definition new_event (env : expense_env) (actor : Principal) (core_id home_id command_id : ustr)
    (request_hash : string) (sequence ledger_revision : Z) (previous : string) : event_row :=
  let row hash :=
    {| ev_sequence := sequence; ev_event_id := xe_new_event_id env; ev_core_id := core_id;
       ev_home_id := home_id; ev_command_id := command_id; ev_actor_id := u (p_id actor);
       ev_record_id := xe_new_record_id env; ev_ledger_revision := ledger_revision;
       ev_occurred_at := xe_now env; ev_request_hash := request_hash;
       ev_previous_hash := previous; ev_event_hash := hash |} in
  row (event_hash (row ""%string)).

(** The transaction of [create]. *)
Definition create_tx (env : expense_env) (actor : Principal) (core_id home_id command_id : ustr)
    (expected : Z) (request : ExpenseValue) (request_hash : string) : M db ExpenseReceipt :=
  d ← get_state;
  _ ← lift (verified_history d core_id home_id);
  match find_command d core_id home_id command_id with
  | Some replay =>
      _ ← lift (raise_if (ev_actor_id replay <> u (p_id actor) \/
                          ev_request_hash replay <> request_hash)
                  (ApiError "idempotency_conflict" 409));
      record ← lift (record_ d (ev_record_id replay));
      mret {| rc_event_id := ev_event_id replay; rc_command_id := command_id;
              rc_ledger_revision := ev_ledger_revision replay; rc_expense := record |}
  | None =>
      state ← lift (state_ d core_id home_id);
      let current_revision := match state with None => 1 | Some s => st_revision s end in
      _ ← lift (raise_if (expected <> current_revision) (ApiError "revision_conflict" 409));
      let count := match state with None => 0 | Some s => st_event_count s end in
      _ ← lift (raise_if (count >= MAX_EXPENSES) (ApiError "shared_expense_limit_reached" 413));
      d ← lift (insert_record (new_record env core_id home_id request) d);
      let ledger_revision := current_revision + 1 in
      let previous := match state with None => ""%string | Some s => st_last_hash s end in
      let event := new_event env actor core_id home_id command_id request_hash
                     (next_sequence d) ledger_revision previous in
      d ← lift (insert_event event d);
      d ← lift (upsert_state
            {| st_core_id := core_id; st_home_id := home_id; st_revision := ledger_revision;
               st_event_count := count + 1; st_last_hash := ev_event_hash event;
               st_state_hash := state_hash core_id home_id ledger_revision (count + 1)
                                  (ev_event_hash event) |} d);
      _ ← put_state d;
      record ← lift (record_ d (xe_new_record_id env));
      mret {| rc_event_id := xe_new_event_id env; rc_command_id := command_id;
              rc_ledger_revision := ledger_revision; rc_expense := record |}
  end.

Definition create (env : expense_env) (actor : Principal) (core_id home_id command_id : ustr)
    (rq : ExpenseRequest) (members : HouseholdAccounts) : M db ExpenseReceipt :=
  _ ← lift (scope_ core_id home_id);
  _ ← lift (authorize actor members);
  _ ← lift (raise_if (~ _identifier command_id) (ApiError "invalid_request" 400));
  _ ← lift (raise_if (p_role actor <> Admin /\ u (p_id actor) <> rq_payer_id rq)
              (ApiError "forbidden" 403));
  '(request, request_hash) ← lift (request_ sha256_hex rq members);
  transaction (create_tx env actor core_id home_id command_id (rq_expected_ledger_revision rq)
                 request request_hash).

(** ** Reading *)

Definition history d (actor : Principal) (core_id home_id : ustr) (members : HouseholdAccounts)
  : res (list ExpenseEvent) :=
  _ ← scope_ core_id home_id;
  _ ← authorize actor members;
  verified_history d core_id home_id.

Definition receipt d (actor : Principal) (command_id core_id home_id : ustr)
    (members : HouseholdAccounts) : res (option ExpenseReceipt) :=
  _ ← scope_ core_id home_id;
  _ ← authorize actor members;
  _ ← raise_if (~ _identifier command_id) (ApiError "invalid_request" 400);
  _ ← verified_history d core_id home_id;
  match find_command d core_id home_id command_id with
  | None => Ok None
  | Some row =>
      _ ← raise_if (ev_actor_id row <> u (p_id actor) /\ p_role actor <> Admin)
            (ApiError "forbidden" 403);
      r ← receipt_of d row;
      Ok (Some r)
  end.

Definition created_le (a b : record_row) : Prop :=
  er_created_at a < er_created_at b \/
  (er_created_at a = er_created_at b /\ ustr_le (er_id a) (er_id b)).
#[local] Instance created_le_dec a b : Decision (created_le a b).
Proof. unfold created_le. apply _. Defined.

Definition visible (actor : Principal) (r : ExpenseRecord) : Prop :=
  p_role actor = Admin \/ u (p_id actor) = xv_payer_id (xr_value r) \/
  Exists (fun s => account_id s = u (p_id actor)) (xv_shares (xr_value r)).
#[local] Instance visible_dec actor r : Decision (visible actor r).
Proof. unfold visible. apply _. Defined.

(** The exported document. *)
Definition exported (r : ExpenseRecord) : ExportedExpense :=
  let v := xr_value r in
  {| xp_id := xr_id r; xp_revision := xr_revision r; xp_title := xv_title v;
     xp_currency := xv_currency v; xp_currencyScale := xv_currency_scale v;
     xp_totalMinor := xv_total_minor v; xp_payerId := xv_payer_id v; xp_shares := xv_shares v;
     xp_createdAt := xr_created_at r |}.

Definition export d (actor : Principal) (core_id home_id : ustr) (members : HouseholdAccounts)
  : res ExpenseExport :=
  _ ← scope_ core_id home_id;
  _ ← authorize actor members;
  _ ← verified_history d core_id home_id;
  state ← state_ d core_id home_id;
  let rows := take (Z.to_nat (MAX_EXPENSES + 1))
                (py_sorted created_le (filter (record_in_scope core_id home_id) (xd_records d))) in
  _ ← raise_if (Z.of_nat (length rows) > MAX_EXPENSES)
        (StartupError "shared_expense_storage_invalid");
  records ← fold_res (fun acc row => r ← decrypt_ row; Ok (acc ++ [r])) [] rows;
  let shown := filter (visible actor) records in
  Ok {| ex_coreId := core_id; ex_homeId := home_id;
        ex_ledgerRevision := match state with None => 1 | Some s => st_revision s end;
        ex_expenses := exported <$> shown |}.
End store.

(** ** Splitting *)

Lemma split_shares_participants total l : account_id <$> split_shares total l = l.
Proof.
  unfold split_shares. apply list_eq. intros i.
  rewrite list_lookup_fmap, list_lookup_imap. by destruct (l !! i).
Qed.

Lemma split_shares_length total l : length (split_shares total l) = length l.
Proof. by rewrite <- (split_shares_participants total l) at 2; rewrite length_fmap. Qed.

(** The first [r] of [n] indices carry one unit more. *)
Lemma zsum_imap_extra {A} (base r : Z) (l : list A) (k : Z) :
  zsum (imap (fun i _ => base + if decide (Z.of_nat i + k < r) then 1 else 0) l)
  = base * Z.of_nat (length l) + Z.max 0 (Z.min (r - k) (Z.of_nat (length l))).
Proof.
  revert k. induction l as [|x l IH]; intros k; cbn [imap length]; [rewrite zsum_nil; lia|].
  rewrite zsum_cons.
  assert (imap ((fun i _ => base + if decide (Z.of_nat i + k < r) then 1 else 0) ∘ S) l
          = imap (fun i _ => base + if decide (Z.of_nat i + (k + 1) < r) then 1 else 0) l) as ->.
  { apply imap_ext. intros i y _. cbn [compose]. repeat case_decide; lia. }
  rewrite IH. case_decide; lia.
Qed.

Lemma split_shares_sum total l :
  l <> [] -> 0 <= total -> zsum (amount_minor <$> split_shares total l) = total.
Proof.
  intros Hl Ht. assert (0 < Z.of_nat (length l)) by (destruct l; [done|cbn [length]; lia]).
  unfold split_shares. rewrite fmap_imap.
  transitivity (zsum (imap (fun i _ => total / Z.of_nat (length l)
     + if decide (Z.of_nat i + 0 < total mod Z.of_nat (length l)) then 1 else 0) l)).
  { f_equal. apply imap_ext. intros i y _. cbn. by rewrite Z.add_0_r. }
  rewrite zsum_imap_extra.
  pose proof (Z.mod_pos_bound total (Z.of_nat (length l))).
  pose proof (Z.div_mod total (Z.of_nat (length l))). lia.
Qed.

Lemma split_shares_lookup total l i s :
  split_shares total l !! i = Some s ->
  amount_minor s = total / Z.of_nat (length l)
    + if decide (Z.of_nat i < total mod Z.of_nat (length l)) then 1 else 0.
Proof.
  unfold split_shares. rewrite list_lookup_imap. by intros (x & _ & ->)%fmap_Some.
Qed.

(** ** Payload round trip *)

Lemma share_of_json_json s : share_of_json (share_json s) = Some s.
Proof. by destruct s. Qed.

Lemma shares_of_json l : mapM share_of_json (share_json <$> l) = Some l.
Proof.
  apply mapM_Some. apply Forall2_fmap_l. apply Forall_Forall2_diag.
  apply Forall_forall. intros. apply share_of_json_json.
Qed.

Lemma record_of_json_json v t : record_of_json (record_json v t) = Some (v, t).
Proof.
  transitivity (shares ← mapM share_of_json (share_json <$> xv_shares v);
    Some ({| xv_title := xv_title v; xv_currency := xv_currency v;
             xv_currency_scale := xv_currency_scale v; xv_total_minor := xv_total_minor v;
             xv_payer_id := xv_payer_id v; xv_shares := shares;
             xv_members_revision := xv_members_revision v |}, t)); [reflexivity|].
  rewrite shares_of_json. cbn. by destruct v.
Qed.

(** ** Lists *)

Lemma set_add_fold_length (l seen : list ustr) :
  NoDup l -> (forall x, x ∈ l -> x ∉ seen) ->
  length (foldl (fun s x => set_add x s) seen l) = (length seen + length l)%nat.
Proof.
  revert seen. induction l as [|x l IH]; intros seen; cbn; [lia|].
  intros [Hx Hn]%NoDup_cons Hd. unfold set_add at 2.
  rewrite decide_False by (apply Hd; left). rewrite IH; [cbn; lia|done|].
  intros y Hy [->|Hs]%elem_of_cons; [done|]. apply (Hd y); [by right|done].
Qed.

(** ** What verification means *)

Section verification.
Context `{UnicodeData}.
Variable sha256_hex : jval -> string.
Variable hmac_hex : string -> jval -> string.
Variable Cipher : Type.
Variable gcm_decrypt : string -> Cipher -> ustr -> option jval.
Local Notation db := (expense_db Cipher).
Local Notation rec_of := (record_ sha256_hex Cipher gcm_decrypt).
Local Notation vrow := (verify_row sha256_hex hmac_hex Cipher gcm_decrypt).
Local Notation vhist := (verified_history sha256_hex hmac_hex Cipher gcm_decrypt).
#[local] Existing Instance in_scope_dec.
#[local] Existing Instance record_in_scope_dec.
#[local] Existing Instance state_in_scope_dec.
#[local] Existing Instance sequence_le_dec.
#[local] Existing Instance event_clash_dec.
#[local] Existing Instance record_clash_dec.
#[local] Instance chain_of_events : ChainRow event_row string := event_chain hmac_hex.
Implicit Types d : db.

(** An event whose record decrypts to the request it was made from. *)
Definition genuine d (e : event_row) : Prop :=
  exists r, rec_of d (ev_record_id e) = Ok r /\
    sha256_hex (request_json (ev_ledger_revision e - 1) (xr_value r)) = ev_request_hash e.

Lemma verify_row_ok d p seen evs e acc :
  vrow d (p, seen, evs) e = Ok acc <->
  link_ok p e /\ genuine d e /\
  acc = (ev_event_hash e, set_add (ev_record_id e) seen, evs ++ [event_of e]).
Proof.
  unfold verify_row, link_ok, genuine. cbn [row_previous row_stored row_computed
    chain_of_events event_chain]. split.
  - intros Hv. inv_ok. passed.
    split_and!; try done. by eexists.
  - intros ([Hp Hh] & (r & Hr & Hq) & ->).
    rewrite raise_if_no by (intros [?|?]; congruence). cbn. rewrite Hr. cbn.
    by rewrite raise_if_no by (intros ?; congruence).
Qed.

Lemma verify_rows d rows p seen evs acc :
  fold_res (vrow d) (p, seen, evs) rows = Ok acc <->
  chained p rows /\ Forall (genuine d) rows /\
  acc = (chain_head p rows, foldl (fun s x => set_add x s) seen (ev_record_id <$> rows),
         evs ++ (event_of <$> rows)).
Proof.
  revert p seen evs. induction rows as [|e rows IH]; intros p seen evs; cbn [fold_res].
  - cbn. rewrite app_nil_r. unfold chain_head. cbn. naive_solver.
  - rewrite bind_ok, Forall_cons, chain_head_cons. cbn [chained fmap list_fmap foldl]. split.
    + intros ([[p' seen'] evs'] & (Hl & Hg & E)%verify_row_ok & Hr). injection E as -> -> ->.
      apply IH in Hr as (? & ? & ->). by rewrite <- app_assoc.
    + intros ((Hl & Hc) & (Hg & Hr) & ->). eexists. split; [by apply verify_row_ok|].
      apply IH. by rewrite <- app_assoc.
Qed.

(** A state row as it is sealed. *)
Definition sealed (c h : ustr) (s : state_row) : Prop :=
  st_state_hash s = state_hash hmac_hex c h (st_revision s) (st_event_count s) (st_last_hash s).

Lemma state_some d c h s :
  state_ hmac_hex Cipher d c h = Ok (Some s) <->
  sql_one (state_in_scope c h) (xd_state d) = Some s /\ sealed c h s.
Proof.
  unfold state_, sealed. destruct (sql_one _ _) as [row|]; [|naive_solver].
  rewrite bind_ok. split.
  - intros (? & Hn%raise_if_ok & E). apply dec_stable in Hn. naive_solver.
  - intros [E Hs]. simplify_eq. exists tt. split; [|done]. apply raise_if_ok. naive_solver.
Qed.

Lemma state_none d c h :
  state_ hmac_hex Cipher d c h = Ok None <-> sql_one (state_in_scope c h) (xd_state d) = None.
Proof.
  unfold state_. destruct (sql_one _ _) as [row|]; [|done]. split; [|done].
  intros (? & _ & Hs)%bind_ok. done.
Qed.

(** The history of a scope verifies exactly when its rows are a chain of
    genuine events, sealed by the state row. *)
Lemma verified_history_ok d c h evs :
  vhist d c h = Ok evs <->
  (sql_one (state_in_scope c h) (xd_state d) = None /\ scope_events Cipher d c h = [] /\ evs = []) \/
  (exists s, sql_one (state_in_scope c h) (xd_state d) = Some s /\ sealed c h s /\
    let rows := scope_events Cipher d c h in
    chained ""%string rows /\ Forall (genuine d) rows /\ evs = event_of <$> rows /\
    st_event_count s = Z.of_nat (length rows) /\ st_revision s = Z.of_nat (length rows) + 1 /\
    st_last_hash s = chain_head ""%string rows /\
    length (filter (record_in_scope Cipher c h) (xd_records d))
    = length (foldl (fun s x => set_add x s) [] (ev_record_id <$> rows))).
Proof.
  unfold verified_history. cbv zeta.
  set (rows := scope_events Cipher d c h). rewrite bind_ok. split.
  - intros ([s|] & Hs & Hv).
    + apply state_some in Hs as [Hs Hse]. right. exists s. split; [done|]. split; [done|]. cbv zeta.
      apply bind_ok in Hv as ([[p seen] evs'] & Hf & Hv).
      apply verify_rows in Hf as (Hc & Hg & E). injection E as -> -> ->.
      apply bind_ok in Hv as ([] & Hn%raise_if_ok & E). injection E as <-.
      passed.
      split_and!; try done; congruence.
    + apply state_none in Hs. left. apply bind_ok in Hv as ([] & Hn%raise_if_ok & E).
      injection E as <-. apply dec_stable in Hn. done.
  - intros [(Hs & Hr & ->)|(s & Hs & Hse & Hc & Hg & -> & H1 & H2 & H3 & H4)].
    + exists None. split; [by apply state_none|]. fold rows in Hr. rewrite Hr.
      by rewrite raise_if_no by (intros Hn; by apply Hn).
    + exists (Some s). split; [by apply state_some|].
      apply bind_ok. eexists. split; [by apply verify_rows|]. cbn beta iota.
      rewrite raise_if_no; [done|]. intros [?|[?|[?|?]]]; congruence.
Qed.
End verification.

(** ** Reachable ledgers *)

Section ledgers.
Context `{UnicodeData}.
Variable sha256_hex : jval -> string.
Variable hmac_hex : string -> jval -> string.
Variable Cipher : Type.
Variable gcm_encrypt : string -> jval -> ustr -> Cipher.
Variable gcm_decrypt : string -> Cipher -> ustr -> option jval.
Local Notation db := (expense_db Cipher).
Local Notation rec_of := (record_ sha256_hex Cipher gcm_decrypt).
Local Notation vhist := (verified_history sha256_hex hmac_hex Cipher gcm_decrypt).
Local Notation create_of := (create sha256_hex hmac_hex Cipher gcm_encrypt gcm_decrypt).
Local Notation create_in := (create_tx sha256_hex hmac_hex Cipher gcm_encrypt gcm_decrypt).
Local Notation genuine_in := (genuine sha256_hex Cipher gcm_decrypt).
Local Notation in_home := (record_in_scope Cipher).
#[local] Existing Instance in_scope_dec.
#[local] Existing Instance record_in_scope_dec.
#[local] Existing Instance state_in_scope_dec.
#[local] Existing Instance sequence_le_dec.
#[local] Existing Instance event_clash_dec.
#[local] Existing Instance record_clash_dec.
#[local] Instance chain_here : ChainRow event_row string := event_chain hmac_hex.
Implicit Types d : db.

Definition empty_ledger : db := Build_expense_db [] [] [].

(** The ledgers that [create] makes, whatever it is called with and whatever
    it answers. *)
Inductive expense_reachable : db -> Prop :=
  | expense_new : expense_reachable empty_ledger
  | expense_step env actor core_id home_id command_id rq members d r d' :
      expense_reachable d ->
      create_of env actor core_id home_id command_id rq members d = (r, d') ->
      expense_reachable d'.

Definition scope_rows d (c h : ustr) : list event_row := filter (in_scope c h) (xd_events d).

(** One household's part of a ledger. *)
Record scope_ok d (c h : ustr) : Prop := {
  so_chain : chained ""%string (scope_rows d c h);
  so_records : ev_record_id <$> scope_rows d c h = er_id <$> filter (in_home c h) (xd_records d);
  so_limit : Z.of_nat (length (scope_rows d c h)) <= MAX_EXPENSES;
  so_state : match sql_one (state_in_scope c h) (xd_state d) with
             | None => scope_rows d c h = []
             | Some s => sealed hmac_hex c h s /\
                 st_event_count s = Z.of_nat (length (scope_rows d c h)) /\
                 st_revision s = Z.of_nat (length (scope_rows d c h)) + 1 /\
                 st_last_hash s = chain_head ""%string (scope_rows d c h)
             end;
  so_numbered : forall i e, scope_rows d c h !! i = Some e ->
    ev_ledger_revision e = Z.of_nat i + 2;
}.

Record ledger_ok d : Prop := {
  lo_sorted : StronglySorted (fun a b => ev_sequence a < ev_sequence b) (xd_events d);
  lo_ids : NoDup (er_id <$> xd_records d);
  lo_commands : forall a b, a ∈ xd_events d -> b ∈ xd_events d ->
    in_scope (ev_core_id b) (ev_home_id b) a -> ev_command_id a = ev_command_id b -> a = b;
  lo_genuine : Forall (genuine_in d) (xd_events d);
  lo_scope : forall c h, scope_ok d c h;
}.

Lemma scope_events_rows d c h : ledger_ok d -> scope_events Cipher d c h = scope_rows d c h.
Proof.
  intros Hd. apply py_sorted_id, StronglySorted_filter_le.
  pose proof (lo_sorted _ Hd) as Hs. clear -Hs. induction Hs as [|x l Hl IH Hx]; constructor; [done|].
  eapply Forall_impl; [exact Hx|]. unfold sequence_le. cbn. lia.
Qed.

Lemma ledger_verifies d c h :
  ledger_ok d -> vhist d c h = Ok (event_of <$> scope_rows d c h).
Proof.
  intros Hd. apply verified_history_ok. rewrite (scope_events_rows d c h Hd). cbv zeta.
  destruct (lo_scope _ Hd c h) as [Hc Hr _ Hs _].
  destruct (sql_one _ (xd_state d)) as [s|] eqn:Es.
  - right. exists s. destruct Hs as (? & ? & ? & ?). split_and!; try done.
    + apply Forall_forall. intros e [_ He]%list_elem_of_filter.
      pose proof (lo_genuine _ Hd) as Hg. by eapply Forall_forall in Hg.
    + rewrite set_add_fold_length; [by rewrite Hr, length_fmap| |set_solver].
      rewrite Hr. eapply sublist_NoDup; [exact (lo_ids _ Hd)|].
      apply fmap_sublist, sublist_filter.
  - left. by rewrite Hs.
Qed.

Lemma ledger_state d c h :
  ledger_ok d ->
  exists o, state_ hmac_hex Cipher d c h = Ok o /\
    match o with None => 1 | Some s => st_revision s end
      = Z.of_nat (length (scope_rows d c h)) + 1 /\
    match o with None => 0 | Some s => st_event_count s end
      = Z.of_nat (length (scope_rows d c h)) /\
    match o with None => ""%string | Some s => st_last_hash s end
      = chain_head ""%string (scope_rows d c h).
Proof.
  intros Hd. destruct (lo_scope _ Hd c h) as [_ _ _ Hs _].
  destruct (sql_one _ (xd_state d)) as [s|] eqn:Es.
  - destruct Hs as (? & ? & ? & ?). exists (Some s). split_and!; try done.
    apply state_some. done.
  - exists None. rewrite Hs. split_and!; try done. by apply state_none.
Qed.

Lemma empty_ledger_ok : ledger_ok empty_ledger.
Proof.
  split; cbn; [constructor|constructor|set_solver|constructor|].
  intros c h. split; [done|done|cbn; unfold MAX_EXPENSES; lia|done|done].
Qed.

(** *** What a successful [create] appends *)

Definition created_event (env : expense_env) (actor : Principal) (c h cmd : ustr) (hash : string) d
  : event_row :=
  new_event hmac_hex env actor c h cmd hash (next_sequence Cipher d)
    (Z.of_nat (length (scope_rows d c h)) + 2) (chain_head ""%string (scope_rows d c h)).

Definition created_record (env : expense_env) (v : ExpenseValue) : ExpenseRecord :=
  {| xr_id := xe_new_record_id env; xr_revision := 1; xr_value := v; xr_created_at := xe_now env |}.

Definition sealed_state (c h : ustr) (n : Z) (last : string) : state_row :=
  {| st_core_id := c; st_home_id := h; st_revision := n + 2; st_event_count := n + 1;
     st_last_hash := last; st_state_hash := state_hash hmac_hex c h (n + 2) (n + 1) last |}.

Record appended env actor c h cmd expected v hash d d' : Prop := {
  ap_fresh_command : find_command Cipher d c h cmd = None;
  ap_revision : expected = Z.of_nat (length (scope_rows d c h)) + 1;
  ap_room : Z.of_nat (length (scope_rows d c h)) < MAX_EXPENSES;
  ap_fresh_record : xe_new_record_id env ∉ er_id <$> xd_records d;
  ap_records : xd_records d'
    = xd_records d ++ [new_record sha256_hex Cipher gcm_encrypt env c h v];
  ap_events : xd_events d' = xd_events d ++ [created_event env actor c h cmd hash d];
  ap_state : forall c' h', sql_one (state_in_scope c' h') (xd_state d')
    = if decide (c' = c /\ h' = h)
      then Some (sealed_state c h (Z.of_nat (length (scope_rows d c h)))
                   (ev_event_hash (created_event env actor c h cmd hash d)))
      else sql_one (state_in_scope c' h') (xd_state d);
}.

Lemma upsert_state_spec row d d' :
  upsert_state Cipher row d = Ok d' ->
  xd_records d' = xd_records d /\ xd_events d' = xd_events d /\
  forall c h, sql_one (state_in_scope c h) (xd_state d')
    = if decide (c = st_core_id row /\ h = st_home_id row) then Some row
      else sql_one (state_in_scope c h) (xd_state d).
Proof.
  unfold upsert_state. intros (? & _ & E)%bind_ok. injection E as <-. cbn.
  split_and!; [done..|]. intros c h.
  assert (state_in_scope (st_core_id row) (st_home_id row) row) as Hrow by done.
  destruct (sql_one (state_in_scope (st_core_id row) (st_home_id row)) (xd_state d)) as [s|] eqn:Es.
  - case_decide as Hc.
    + destruct Hc as [-> ->]. by eapply sql_one_update_same.
    + apply sql_one_update_other; unfold state_in_scope; [|naive_solver].
      intros y [??] [??]. apply Hc. split; congruence.
  - rewrite sql_one_app, sql_one_single.
    destruct (decide (c = st_core_id row /\ h = st_home_id row)) as [[-> ->]|Hc].
    + by rewrite Es, decide_True.
    + rewrite decide_False by (unfold state_in_scope; naive_solver).
      match goal with |- context [match ?m with _ => _ end] => destruct m end; reflexivity.
Qed.

Lemma next_sequence_fresh d e : e ∈ xd_events d -> ev_sequence e < next_sequence Cipher d.
Proof. intros He. apply next_key_above. by apply list_elem_of_fmap_2. Qed.

Lemma find_command_none d c h cmd :
  find_command Cipher d c h cmd = None ->
  forall e, e ∈ xd_events d -> in_scope c h e -> ev_command_id e <> cmd.
Proof.
  intros Hf%sql_one_none e He Hs Hc. eapply Forall_forall in Hf; [|exact He]. by apply Hf.
Qed.

Lemma record_grows d d' i r new :
  xd_records d' = xd_records d ++ new -> rec_of d i = Ok r -> rec_of d' i = Ok r.
Proof.
  unfold record_. intros -> (row & Hrow%require_some_ok & Hr)%bind_ok.
  rewrite sql_one_app, Hrow. exact Hr.
Qed.

Lemma genuine_grows d d' e new :
  xd_records d' = xd_records d ++ new -> genuine_in d e -> genuine_in d' e.
Proof.
  intros Hn (r & Hr & Hq). exists r. split; [by eapply record_grows|done].
Qed.

Section growing.
Hypothesis gcm_roundtrip : forall nonce raw aad,
  gcm_decrypt nonce (gcm_encrypt nonce raw aad) aad = Some raw.

Lemma new_record_decrypts env c h v :
  zsum (amount_minor <$> xv_shares v) = xv_total_minor v ->
  decrypt_ sha256_hex Cipher gcm_decrypt (new_record sha256_hex Cipher gcm_encrypt env c h v)
  = Ok (created_record env v).
Proof.
  intros Hs. unfold decrypt_, new_record.
  cbn [er_nonce er_ciphertext er_core_id er_home_id er_id er_payload_hash er_revision].
  rewrite gcm_roundtrip. cbn [require_some mbind res_bind].
  rewrite raise_if_no by (intros Hn; by apply Hn). cbn [mbind res_bind].
  rewrite record_of_json_json. cbn [require_some mbind res_bind].
  by rewrite raise_if_no by (intros Hn; by apply Hn).
Qed.

Lemma appended_record env actor c h cmd expected v hash d d' :
  appended env actor c h cmd expected v hash d d' ->
  zsum (amount_minor <$> xv_shares v) = xv_total_minor v ->
  rec_of d' (xe_new_record_id env) = Ok (created_record env v).
Proof.
  intros Ha Hs. unfold record_. rewrite (ap_records _ _ _ _ _ _ _ _ _ _ Ha), sql_one_app.
  destruct (sql_one _ (xd_records d)) as [row|] eqn:E.
  { apply sql_one_some in E as [Hin Heq].
    destruct (ap_fresh_record _ _ _ _ _ _ _ _ _ _ Ha). rewrite <- Heq. by apply list_elem_of_fmap_2. }
  rewrite sql_one_single, decide_True by done. cbn [require_some mbind res_bind].
  by apply new_record_decrypts.
Qed.

Lemma scope_rows_appended env actor c h cmd expected v hash d d' c' h' :
  appended env actor c h cmd expected v hash d d' ->
  scope_rows d' c' h' = scope_rows d c' h' ++
    if decide (c' = c /\ h' = h) then [created_event env actor c h cmd hash d] else [].
Proof.
  intros Ha. unfold scope_rows. rewrite (ap_events _ _ _ _ _ _ _ _ _ _ Ha), filter_app.
  f_equal. rewrite filter_cons, filter_nil. unfold in_scope. cbn [created_event new_event ev_core_id ev_home_id].
  repeat case_decide; naive_solver.
Qed.

Lemma created_event_link env actor c h cmd hash d :
  link_ok (chain_head ""%string (scope_rows d c h)) (created_event env actor c h cmd hash d).
Proof. by split. Qed.

Lemma appended_scope env actor c h cmd expected v hash d d' c' h' :
  ledger_ok d -> appended env actor c h cmd expected v hash d d' -> scope_ok d' c' h'.
Proof.
  intros Hd Ha. pose proof (scope_rows_appended _ _ _ _ _ _ _ _ _ _ c' h' Ha) as Hrows.
  destruct (lo_scope _ Hd c' h') as [Hc Hr Hl Hs Hn].
  pose proof (ap_state _ _ _ _ _ _ _ _ _ _ Ha c' h') as Hst.
  destruct (decide (c' = c /\ h' = h)) as [[-> ->]|Hne].
  - split.
    + rewrite Hrows. apply chained_snoc; [done|]. apply created_event_link.
    + rewrite Hrows, (ap_records _ _ _ _ _ _ _ _ _ _ Ha), filter_app, !fmap_app, Hr.
      f_equal. rewrite filter_cons, decide_True by done. by rewrite filter_nil.
    + rewrite Hrows, length_app. cbn. pose proof (ap_room _ _ _ _ _ _ _ _ _ _ Ha). lia.
    + rewrite Hst, Hrows, length_app, chain_head_snoc. cbn [sealed_state st_event_count st_revision st_last_hash length].
      split_and!; [done|lia|lia|done].
    + rewrite Hrows. intros i e [Hi|[Hi E]]%lookup_app_Some; [by apply Hn|].
      apply list_lookup_singleton_Some in E as [Ei <-].
      change (Z.of_nat (length (scope_rows d c h)) + 2 = Z.of_nat i + 2). lia.
  - rewrite app_nil_r in Hrows. split.
    + by rewrite Hrows.
    + rewrite Hrows, (ap_records _ _ _ _ _ _ _ _ _ _ Ha), filter_app, fmap_app, Hr.
      rewrite filter_cons, decide_False by (unfold record_in_scope; naive_solver).
      by rewrite filter_nil, app_nil_r.
    + by rewrite Hrows.
    + by rewrite Hst, Hrows.
    + by rewrite Hrows.
Qed.

Lemma appended_ok env actor c h cmd expected v hash d d' :
  ledger_ok d -> appended env actor c h cmd expected v hash d d' ->
  zsum (amount_minor <$> xv_shares v) = xv_total_minor v ->
  hash = sha256_hex (request_json expected v) ->
  ledger_ok d'.
Proof.
  intros Hd Ha Hsum ->. pose proof (ap_events _ _ _ _ _ _ _ _ _ _ Ha) as He.
  pose proof (ap_records _ _ _ _ _ _ _ _ _ _ Ha) as Hr.
  split.
  - rewrite He. apply StronglySorted_snoc; [apply (lo_sorted _ Hd)|].
    apply Forall_forall. intros e. apply next_sequence_fresh.
  - rewrite Hr. apply snoc_column; [apply (lo_ids _ Hd)|]. apply Forall_forall. intros r Hin E.
    destruct (ap_fresh_record _ _ _ _ _ _ _ _ _ _ Ha). apply list_elem_of_fmap. by exists r.
  - pose proof (find_command_none _ _ _ _ (ap_fresh_command _ _ _ _ _ _ _ _ _ _ Ha)) as Hf.
    rewrite He. intros a b [Hina| ->%list_elem_of_singleton]%elem_of_app
      [Hinb| ->%list_elem_of_singleton]%elem_of_app Hs Hc.
    + by apply (lo_commands _ Hd).
    + exfalso. by apply (Hf a).
    + exfalso. destruct Hs as [Hs1 Hs2]. by apply (Hf b).
    + done.
  - rewrite He. apply Forall_app. split.
    + eapply Forall_impl; [apply (lo_genuine _ Hd)|]. intros e. by apply genuine_grows with (1 := Hr).
    + repeat constructor. exists (created_record env v). split; [by eapply appended_record|].
      cbn [created_event new_event ev_ledger_revision ev_request_hash created_record xr_value].
      rewrite (ap_revision _ _ _ _ _ _ _ _ _ _ Ha). f_equal. f_equal. lia.
  - intros c' h'. by eapply appended_scope.
Qed.
End growing.

(** *** The transaction of [create], branch by branch *)

Definition receipt_for (env : expense_env) (cmd : ustr) (expected : Z) (v : ExpenseValue)
  : ExpenseReceipt :=
  {| rc_event_id := xe_new_event_id env; rc_command_id := cmd; rc_ledger_revision := expected + 1;
     rc_expense := created_record env v |}.

Definition fresh_ids (env : expense_env) d : Prop :=
  xe_new_record_id env ∉ er_id <$> xd_records d /\
  xe_new_event_id env ∉ ev_event_id <$> xd_events d.

Lemma create_tx_replay env actor c h cmd expected v hash d e :
  ledger_ok d -> find_command Cipher d c h cmd = Some e ->
  exists r, rec_of d (ev_record_id e) = Ok r /\
  create_in env actor c h cmd expected v hash d =
  (if decide (ev_actor_id e <> u (p_id actor) \/ ev_request_hash e <> hash)
   then Raise (ApiError "idempotency_conflict" 409)
   else Ok {| rc_event_id := ev_event_id e; rc_command_id := cmd;
              rc_ledger_revision := ev_ledger_revision e; rc_expense := r |}, d).
Proof.
  intros Hd Hf. pose proof (sql_one_some _ _ _ Hf) as [He _].
  pose proof (lo_genuine _ Hd) as Hg. eapply Forall_forall in Hg as (r & Hr & _); [|exact He].
  exists r. split; [done|]. unfold create_tx, get_state, lift, mret, M_ret, mbind, M_bind.
  rewrite (ledger_verifies d c h Hd), Hf. unfold raise_if. case_decide; [done|].
  by rewrite Hr.
Qed.

Lemma create_tx_new env actor c h cmd expected v hash d :
  ledger_ok d -> find_command Cipher d c h cmd = None ->
  create_in env actor c h cmd expected v hash d =
  let n := Z.of_nat (length (scope_rows d c h)) in
  if decide (expected <> n + 1) then (Raise (ApiError "revision_conflict" 409), d)
  else if decide (n >= MAX_EXPENSES) then (Raise (ApiError "shared_expense_limit_reached" 413), d)
  else
    match (d1 ← insert_record Cipher (new_record sha256_hex Cipher gcm_encrypt env c h v) d;
           d2 ← insert_event Cipher (created_event env actor c h cmd hash d) d1;
           upsert_state Cipher (sealed_state c h n
             (ev_event_hash (created_event env actor c h cmd hash d))) d2) with
    | Raise e => (Raise e, d)
    | Ok d' => match rec_of d' (xe_new_record_id env) with
               | Raise e => (Raise e, d')
               | Ok r => (Ok {| rc_event_id := xe_new_event_id env; rc_command_id := cmd;
                                rc_ledger_revision := n + 2; rc_expense := r |}, d')
               end
    end.
Proof.
  intros Hd Hf. destruct (ledger_state d c h Hd) as (o & Ho & H1 & H2 & H3).
  unfold create_tx, get_state, lift, mret, M_ret, mbind, M_bind, res_bind.
  rewrite (ledger_verifies d c h Hd), Hf, Ho, H1, H2, H3. cbv zeta.
  unfold raise_if. repeat case_decide; try done.
  replace (Z.of_nat (length (scope_rows d c h)) + 1 + 1)
    with (Z.of_nat (length (scope_rows d c h)) + 2) by lia.
  unfold created_event. destruct (insert_record _ _ d) as [d1|] eqn:E1; [|done].
  assert (next_sequence Cipher d1 = next_sequence Cipher d) as ->.
  { apply bind_ok in E1 as (? & _ & (? & _ & E)%bind_ok). by injection E as <-. }
  destruct (insert_event _ _ d1) as [d2|]; [|done].
  unfold sealed_state, put_state. destruct (upsert_state _ _ d2) as [d3|]; [|done].
  by destruct (record_ _ _ _ d3 _).
Qed.

Section outcome.
Hypothesis gcm_roundtrip : forall nonce raw aad,
  gcm_decrypt nonce (gcm_encrypt nonce raw aad) aad = Some raw.

Lemma inserts_append env actor c h cmd v hash d d' :
  let n := Z.of_nat (length (scope_rows d c h)) in
  find_command Cipher d c h cmd = None -> n < MAX_EXPENSES ->
  (d1 ← insert_record Cipher (new_record sha256_hex Cipher gcm_encrypt env c h v) d;
   d2 ← insert_event Cipher (created_event env actor c h cmd hash d) d1;
   upsert_state Cipher (sealed_state c h n
     (ev_event_hash (created_event env actor c h cmd hash d))) d2) = Ok d' ->
  appended env actor c h cmd (n + 1) v hash d d' /\ fresh_ids env d.
Proof.
  cbv zeta. intros Hf Hn (d1 & H1 & (d2 & H2 & H3)%bind_ok)%bind_ok.
  apply bind_ok in H1 as (? & _ & (recs & Hr & E)%bind_ok). injection E as <-.
  apply sql_insert_ok in Hr as [-> Hr].
  apply bind_ok in H2 as (? & _ & (? & _ & (evs & He & E)%bind_ok)%bind_ok). injection E as <-.
  apply sql_insert_ok in He as [-> He].
  apply upsert_state_spec in H3 as (H3 & H4 & H5). cbn in H3, H4, H5.
  assert (fresh_ids env d) as [Hfr Hfe].
  { split; intros (y & E & Hx)%list_elem_of_fmap.
    - eapply Forall_forall in Hr; [|exact Hx]. by apply Hr.
    - eapply Forall_forall in He; [|exact Hx]. apply He. right. by left. }
  split; [by split|done].
Qed.

Lemma inserts_succeed env actor c h cmd v hash d :
  let n := Z.of_nat (length (scope_rows d c h)) in
  find_command Cipher d c h cmd = None -> fresh_ids env d ->
  exists d', (d1 ← insert_record Cipher (new_record sha256_hex Cipher gcm_encrypt env c h v) d;
   d2 ← insert_event Cipher (created_event env actor c h cmd hash d) d1;
   upsert_state Cipher (sealed_state c h n
     (ev_event_hash (created_event env actor c h cmd hash d))) d2) = Ok d'.
Proof.
  cbv zeta. intros Hf [Hfr Hfe]. set (n := Z.of_nat (length (scope_rows d c h))).
  assert (0 <= n) as Hn by (unfold n; lia).
  unfold insert_record at 1. rewrite raise_if_no by (cbn [new_record er_revision]; lia). cbn [mbind res_bind].
  rewrite sql_insert_total.
  2:{ apply Forall_forall. intros r Hr E. apply Hfr. apply list_elem_of_fmap. by exists r. }
  cbn [mbind res_bind]. unfold insert_event. rewrite (raise_if_no (ev_ledger_revision _ <= 1)) by (change (~ n + 2 <= 1); lia). cbn [mbind res_bind].
  rewrite raise_if_no.
  2:{ cbn [xd_records]. intros Hn'. apply Hn'. rewrite fmap_app. apply elem_of_app. right.
      cbn. by left. }
  cbn [mbind res_bind xd_events]. rewrite sql_insert_total.
  2:{ apply Forall_forall. intros e He [E|[E|[E1 E2]]].
      - pose proof (next_sequence_fresh d e He). cbn in E. lia.
      - apply Hfe. apply list_elem_of_fmap. by exists e.
      - destruct E1 as [E1 E1']. by apply (find_command_none _ _ _ _ Hf e He). }
  cbn [mbind res_bind]. unfold upsert_state. rewrite raise_if_no by (change (~ (n + 2 <= 1 \/ n + 1 <= 0)); lia).
  cbn [mbind res_bind]. by eexists.
Qed.

(** The outcome of [create] once its arguments were accepted. *)
Lemma create_tx_outcome env actor c h cmd expected v hash d r d' :
  ledger_ok d -> zsum (amount_minor <$> xv_shares v) = xv_total_minor v ->
  transaction (create_in env actor c h cmd expected v hash) d = (r, d') ->
  (d' = d /\ (find_command Cipher d c h cmd = None -> exists e, r = Raise e)) \/
  (appended env actor c h cmd expected v hash d d' /\ r = Ok (receipt_for env cmd expected v)).
Proof.
  intros Hd Hs Ht. unfold transaction in Ht.
  destruct (find_command Cipher d c h cmd) as [e|] eqn:Hf.
  - left. destruct (create_tx_replay env actor c h cmd expected v hash d e Hd Hf) as (y & _ & E).
    rewrite E in Ht. split; [|done]. case_decide; naive_solver.
  - rewrite (create_tx_new env actor c h cmd expected v hash d Hd Hf) in Ht. cbv zeta in Ht.
    case_decide as He; [left; naive_solver|].
    case_decide; [left; naive_solver|].
    destruct (insert_record _ _ d ≫= _) as [d3|] eqn:E; [|left; naive_solver].
    right. apply inserts_append in E as [Ha _]; [|done|lia]. rewrite <- He in Ha.
    rewrite (appended_record gcm_roundtrip _ _ _ _ _ _ _ _ _ _ Ha Hs) in Ht.
    injection Ht as <- <-. split; [done|]. unfold receipt_for. do 2 f_equal. lia.
Qed.

(** A request that was accepted. *)
Lemma request_accepted rq members v hash :
  request_ sha256_hex rq members = Ok (v, hash) ->
  let l := py_sorted ustr_le (rq_participant_ids rq) in
  xv_shares v = split_shares (rq_total_minor rq) l /\ xv_total_minor v = rq_total_minor rq /\
  xv_payer_id v = rq_payer_id rq /\ xv_members_revision v = ha_revision members /\
  hash = sha256_hex (request_json (rq_expected_ledger_revision rq) v) /\
  1 <= rq_total_minor rq <= MAX_TOTAL_MINOR /\ l <> [] /\ NoDup (rq_participant_ids rq) /\
  zsum (amount_minor <$> xv_shares v) = xv_total_minor v.
Proof.
  cbv zeta. unfold request_. intros ([] & Hg%raise_if_ok & (scale & _ & ([] & _ & E)%bind_ok)%bind_ok)%bind_ok.
  injection E as <- <-. passed. cbn [xv_shares xv_total_minor xv_payer_id xv_members_revision].
  assert (py_sorted ustr_le (rq_participant_ids rq) <> []) as Hl.
  { intros E. pose proof (py_sorted_length ustr_le (rq_participant_ids rq)) as Hlen.
    rewrite E in Hlen. cbn [length] in Hlen. lia. }
  split_and!; try done; try lia. apply split_shares_sum; [done|lia].
Qed.

Lemma create_outcome env actor c h cmd rq members d r d' :
  ledger_ok d -> create_of env actor c h cmd rq members d = (r, d') ->
  (d' = d) \/
  (exists v hash, request_ sha256_hex rq members = Ok (v, hash) /\
    appended env actor c h cmd (rq_expected_ledger_revision rq) v hash d d' /\
    r = Ok (receipt_for env cmd (rq_expected_ledger_revision rq) v)).
Proof.
  intros Hd. unfold create, lift. unfold mbind at 1 2 3 4 5, M_bind.
  destruct (scope_ c h); [|naive_solver]. destruct (authorize actor members); [|naive_solver].
  repeat (destruct (raise_if _ _); [|naive_solver]).
  destruct (request_ sha256_hex rq members) as [[v hash]|] eqn:Hr; [|naive_solver].
  intros Ht. apply request_accepted in Hr as Hq. cbv zeta in Hq.
  apply create_tx_outcome in Ht as [[-> _]|[Ha ->]]; [by left| |done|tauto].
  right. by exists v, hash.
Qed.

Lemma expense_reachable_ok d : expense_reachable d -> ledger_ok d.
Proof.
  induction 1 as [|env actor c h cmd rq members d r d' _ IH Hc]; [apply empty_ledger_ok|].
  apply create_outcome in Hc as [->|(v & hash & Hr & Ha & _)]; [done| |done].
  apply request_accepted in Hr. cbv zeta in Hr.
  eapply appended_ok; [done..|tauto|tauto].
Qed.
End outcome.

(** *** What a household sees *)

Lemma scope_row_record d c h e :
  ledger_ok d -> e ∈ scope_rows d c h ->
  exists row r, row ∈ filter (in_home c h) (xd_records d) /\ er_id row = ev_record_id e /\
    rec_of d (ev_record_id e) = Ok r /\ decrypt_ sha256_hex Cipher gcm_decrypt row = Ok r.
Proof.
  intros Hd He. assert (e ∈ xd_events d) as Hin by (by apply list_elem_of_filter in He as [_ ?]).
  pose proof (lo_genuine _ Hd) as Hg. eapply Forall_forall in Hg as (r & Hr & _); [|exact Hin].
  assert (ev_record_id e ∈ er_id <$> filter (in_home c h) (xd_records d)) as Hi.
  { rewrite <- (so_records _ _ _ (lo_scope _ Hd c h)). by apply list_elem_of_fmap_2. }
  apply list_elem_of_fmap in Hi as (row & Hid & Hrow). exists row, r. split_and!; try done.
  apply bind_ok in Hr as (row' & [Hin' Hid']%require_some_ok%sql_one_some & Hr).
  apply list_elem_of_filter in Hrow as [_ Hrow].
  by rewrite (nodup_column_inj er_id _ row row' (lo_ids _ Hd)) by (try done; congruence).
Qed.

Lemma record_row_event d c h row :
  ledger_ok d -> row ∈ filter (in_home c h) (xd_records d) ->
  exists e r, e ∈ scope_rows d c h /\ rec_of d (ev_record_id e) = Ok r /\
    decrypt_ sha256_hex Cipher gcm_decrypt row = Ok r.
Proof.
  intros Hd Hrow.
  assert (er_id row ∈ ev_record_id <$> scope_rows d c h) as Hi.
  { rewrite (so_records _ _ _ (lo_scope _ Hd c h)). by apply list_elem_of_fmap_2. }
  apply list_elem_of_fmap in Hi as (e & Hid & He).
  destruct (scope_row_record d c h e Hd He) as (row' & r & Hrow' & Hid' & Hr & Hdec).
  apply list_elem_of_filter in Hrow as [_ Hrow], Hrow' as [_ Hrow'].
  assert (row = row') as -> by
    (apply (nodup_column_inj er_id _ row row' (lo_ids _ Hd)); [done..|congruence]).
  by exists e, r.
Qed.

Lemma fold_snoc_ok {A B} (f : A -> res B) l acc :
  Forall (fun x => exists y, f x = Ok y) l ->
  exists ys, fold_res (fun acc x => y ← f x; Ok (acc ++ [y])) acc l = Ok (acc ++ ys) /\
    Forall2 (fun x y => f x = Ok y) l ys.
Proof.
  intros Hl. revert acc. induction Hl as [|x l (y & Hy) _ IH]; intros acc; cbn.
  - exists []. by rewrite app_nil_r.
  - rewrite Hy. cbn. destruct (IH (acc ++ [y])) as (ys & E & Hys). exists (y :: ys).
    rewrite E, <- app_assoc. split; [done|by constructor].
Qed.

(** A command that was answered with [rc]. *)
Definition answered d (c h cmd actor : ustr) (hash : string) (rc : ExpenseReceipt) : Prop :=
  exists e, find_command Cipher d c h cmd = Some e /\ ev_actor_id e = actor /\
    ev_request_hash e = hash /\ rec_of d (ev_record_id e) = Ok (rc_expense rc) /\
    rc_event_id rc = ev_event_id e /\ rc_command_id rc = cmd /\
    rc_ledger_revision rc = ev_ledger_revision e.

Lemma answered_again env actor c h cmd expected v hash d rc :
  ledger_ok d -> answered d c h cmd (u (p_id actor)) hash rc ->
  create_in env actor c h cmd expected v hash d = (Ok rc, d).
Proof.
  intros Hd (e & Hf & Ha & Hh & Hr & E1 & E2 & E3).
  destruct (create_tx_replay env actor c h cmd expected v hash d e Hd Hf) as (r & Hr' & ->).
  rewrite decide_False by naive_solver. rewrite Hr in Hr'. injection Hr' as <-.
  destruct rc; cbn in *; subst; done.
Qed.

Lemma answered_grows d d' c h cmd actor hash rc new new' :
  xd_records d' = xd_records d ++ new -> xd_events d' = xd_events d ++ new' ->
  answered d c h cmd actor hash rc -> answered d' c h cmd actor hash rc.
Proof.
  intros Hr He (e & Hf & Ha & Hh & Hrec & Hrc). exists e. split_and!; try tauto.
  - unfold find_command in *. by rewrite He, sql_one_app, Hf.
  - by eapply record_grows.
Qed.

(** One call of [create], whatever its arguments and its answer. *)
Definition expense_change d d' : Prop :=
  exists env actor c h cmd rq members r, create_of env actor c h cmd rq members d = (r, d').

Section answers.
Hypothesis gcm_roundtrip : forall nonce raw aad,
  gcm_decrypt nonce (gcm_encrypt nonce raw aad) aad = Some raw.

Lemma change_ok d d' : ledger_ok d -> expense_change d d' ->
  ledger_ok d' /\ exists new new', xd_records d' = xd_records d ++ new /\ xd_events d' = xd_events d ++ new'.
Proof.
  intros Hd (env & actor & c & h & cmd & rq & members & r & Hc).
  apply create_outcome in Hc as [->|(v & hash & Hr & Ha & _)]; [|  |done..].
  - split; [done|]. exists [], []. by rewrite !app_nil_r.
  - apply request_accepted in Hr. cbv zeta in Hr. split.
    + eapply appended_ok; [done..|tauto|tauto].
    + rewrite (ap_records _ _ _ _ _ _ _ _ _ _ Ha), (ap_events _ _ _ _ _ _ _ _ _ _ Ha). eauto.
Qed.

Lemma answered_later d d' c h cmd actor hash rc :
  rtc expense_change d d' -> ledger_ok d -> answered d c h cmd actor hash rc ->
  ledger_ok d' /\ answered d' c h cmd actor hash rc.
Proof.
  induction 1 as [d|d d1 d' Hs _ IH]; intros Hd Ha; [done|].
  destruct (change_ok _ _ Hd Hs) as (Hd1 & new & new' & Hr & He).
  apply IH; [done|]. by eapply answered_grows.
Qed.

Lemma create_answers env actor c h cmd rq members d rc d' :
  ledger_ok d -> create_of env actor c h cmd rq members d = (Ok rc, d') ->
  exists v hash, request_ sha256_hex rq members = Ok (v, hash) /\ ledger_ok d' /\
    answered d' c h cmd (u (p_id actor)) hash rc /\
    forall env' d'', create_of env' actor c h cmd rq members d''
      = transaction (create_in env' actor c h cmd (rq_expected_ledger_revision rq) v hash) d''.
Proof.
  intros Hd. unfold create, lift. unfold mbind at 1 2 3 4 5, M_bind.
  destruct (scope_ c h) as [[]|] eqn:E1; [|done]. destruct (authorize actor members) as [[]|] eqn:E2; [|done].
  destruct (raise_if (~ _identifier cmd) _) as [[]|] eqn:E3; [|done].
  destruct (raise_if (p_role actor <> _ /\ _) _) as [[]|] eqn:E4; [|done].
  destruct (request_ sha256_hex rq members) as [[v hash]|] eqn:Hr; [|done].
  intros Ht. change (transaction (create_in env actor c h cmd (rq_expected_ledger_revision rq) v hash) d
    = (Ok rc, d')) in Ht.
  exists v, hash. split; [done|]. pose proof (request_accepted _ _ _ _ Hr) as Hq. cbv zeta in Hq.
  enough (ledger_ok d' /\ answered d' c h cmd (u (p_id actor)) hash rc) as [? ?].
  { split_and!; [done..|]. intros env' d''. reflexivity. }
  destruct (find_command Cipher d c h cmd) as [e|] eqn:Hf.
  - destruct (create_tx_replay env actor c h cmd (rq_expected_ledger_revision rq) v hash d e Hd Hf)
      as (r & Hrec & E). apply (proj1 (transaction_ok _ _ _ _)) in Ht. rewrite E in Ht. case_decide as Hn; [done|].
    injection Ht as <- <-. passed. split; [done|]. exists e. split_and!; done.
  - apply create_tx_outcome in Ht as [[_ Hn]|[Ha E]]; [|  |done|done|tauto].
    + by destruct (Hn Hf).
    + injection E as ->. split; [eapply appended_ok; [done..|tauto|tauto]|].
      pose proof (ap_events _ _ _ _ _ _ _ _ _ _ Ha) as He.
      exists (created_event env actor c h cmd hash d). split_and!; try done.
      * unfold find_command in *. rewrite He, sql_one_app, Hf, sql_one_single. by rewrite decide_True.
      * eapply appended_record; [done..|tauto].
      * cbn. rewrite (ap_revision _ _ _ _ _ _ _ _ _ _ Ha). lia.
Qed.

Lemma request_json_inj n v v' : request_json n v = request_json n v' -> v = v'.
Proof.
  destruct v, v'. cbn. intros E. injection E as -> -> -> -> Es -> ->. f_equal.
  assert (Inj (=) (=) share_json) by (intros [] [] Hs; injection Hs; congruence).
  by apply (inj (fmap share_json)).
Qed.

(** ** Properties *)

(** C36 An expense is split to the last minor unit.  Whenever a request is
    accepted, its shares belong to exactly the participants, in the order of
    their identifiers, add up to the total, and differ by at most one unit, the
    larger ones first. *)
Theorem expense_split_exact rq members v hash :
  request_ sha256_hex rq members = Ok (v, hash) ->
  account_id <$> xv_shares v ≡ₚ rq_participant_ids rq /\
  StronglySorted ustr_le (account_id <$> xv_shares v) /\
  zsum (amount_minor <$> xv_shares v) = rq_total_minor rq /\
  forall i j s t, xv_shares v !! i = Some s -> xv_shares v !! j = Some t -> (i <= j)%nat ->
    amount_minor t <= amount_minor s <= amount_minor t + 1 /\ 0 <= amount_minor t.
Proof.
  intros (Hs & Ht & _ & _ & _ & Hb & Hl & _ & Hsum)%request_accepted.
  rewrite <- Ht, Hs, split_shares_participants in *. split_and!; [apply py_sorted_perm| |done|].
  { apply py_sorted_strong; apply _. }
  intros i j s t Hi%split_shares_lookup Hj%split_shares_lookup Hij. rewrite Hi, Hj.
  pose proof (Z.div_pos (xv_total_minor v) (Z.of_nat (length (py_sorted ustr_le (rq_participant_ids rq))))).
  destruct (py_sorted ustr_le (rq_participant_ids rq)); [done|]. cbn [length] in *.
  repeat case_decide; lia.
Qed.

(** The ledger never locks itself out.  In every ledger that any sequence
    of [create] calls makes, for every household, the whole verification of
    [history] succeeds and returns that household's events in order, numbered
    without a gap from revision 2, and the record of each event decrypts to
    shares that add up to its total. *)
Theorem expense_history_verifies d c h :
  expense_reachable d ->
  vhist d c h = Ok (event_of <$> scope_rows d c h) /\
  forall i e, scope_rows d c h !! i = Some e ->
    ev_ledger_revision e = Z.of_nat i + 2 /\
    exists r, rec_of d (ev_record_id e) = Ok r /\
      zsum (amount_minor <$> xv_shares (xr_value r)) = xv_total_minor (xr_value r).
Proof.
  intros Hd%(expense_reachable_ok gcm_roundtrip). split; [by apply ledger_verifies|].
  intros i e He. split; [by apply (so_numbered _ _ _ (lo_scope _ Hd c h))|].
  destruct (scope_row_record d c h e Hd) as (row & r & _ & _ & Hr & Hdec).
  { by eapply list_elem_of_lookup_2. }
  exists r. split; [done|]. unfold decrypt_ in Hdec.
  apply bind_ok in Hdec as (raw & _ & (? & _ & Hdec)%bind_ok).
  apply bind_ok in Hdec as ([v t] & _ & (? & Hs%raise_if_ok & E)%bind_ok). injection E as <-.
  by passed.
Qed.

(** A command that was accepted is answered once and for all.  Repeating it
    any number of other calls later, from anywhere in the household, returns
    the very same receipt and changes nothing. *)
Theorem expense_retry_idempotent env env' actor c h cmd rq members d d1 d2 rc :
  expense_reachable d ->
  create_of env actor c h cmd rq members d = (Ok rc, d1) ->
  rtc expense_change d1 d2 ->
  create_of env' actor c h cmd rq members d2 = (Ok rc, d2).
Proof.
  intros Hd%(expense_reachable_ok gcm_roundtrip) Hc Hl.
  destruct (create_answers _ _ _ _ _ _ _ _ _ _ Hd Hc) as (v & hash & _ & Hd1 & Ha & Hrun).
  destruct (answered_later _ _ _ _ _ _ _ _ Hl Hd1 Ha) as [Hd2 Ha2].
  rewrite Hrun. unfold transaction. by rewrite (answered_again _ _ _ _ _ _ _ _ _ _ Hd2 Ha2).
Qed.

(** An export shows a member exactly the expenses that concern them.  In
    every reachable ledger an authorised export succeeds, carries the current
    ledger revision, and holds an expense exactly when it is one of the
    household's recorded expenses and the reader is an administrator, its
    payer or one of its participants. *)
Theorem expense_export_exact d actor c h members :
  expense_reachable d ->
  scope_ c h = Ok tt -> authorize actor members = Ok tt ->
  exists out, export sha256_hex hmac_hex Cipher gcm_decrypt d actor c h members = Ok out /\
    ex_ledgerRevision out = Z.of_nat (length (scope_rows d c h)) + 1 /\
    forall x, x ∈ ex_expenses out <->
      exists e r, e ∈ scope_rows d c h /\ rec_of d (ev_record_id e) = Ok r /\
        visible actor r /\ x = exported r.
Proof.
  intros Hd%(expense_reachable_ok gcm_roundtrip) Hs Ha. unfold export. rewrite Hs, Ha.
  cbn [mbind res_bind]. rewrite (ledger_verifies d c h Hd). cbn [mbind res_bind].
  destruct (ledger_state d c h Hd) as (o & -> & Ho & _). cbn [mbind res_bind]. cbv zeta.
  set (rows := filter (in_home c h) (xd_records d)).
  assert (length rows = length (scope_rows d c h)) as Hlen.
  { rewrite <- (length_fmap ev_record_id), (so_records _ _ _ (lo_scope _ Hd c h)).
    by rewrite length_fmap. }
  pose proof (so_limit _ _ _ (lo_scope _ Hd c h)) as Hlim.
  rewrite take_ge by (rewrite py_sorted_length; unfold MAX_EXPENSES in *; lia).
  rewrite raise_if_no by (rewrite py_sorted_length; lia). cbn [mbind res_bind].
  destruct (fold_snoc_ok (decrypt_ sha256_hex Cipher gcm_decrypt)
              (@py_sorted _ (created_le Cipher) (created_le_dec Cipher) rows) []) as (rs & -> & Hrs).
  { apply Forall_forall. intros row Hrow%py_sorted_elem.
    destruct (record_row_event d c h row Hd Hrow) as (e & r & _ & _ & Hdec). by exists r. }
  cbn [mbind res_bind app]. eexists. split; [reflexivity|]. split; [exact Ho|].
  intros x. cbn [ex_expenses]. rewrite list_elem_of_fmap. split.
  - intros (r & -> & [Hv Hr]%list_elem_of_filter).
    apply list_elem_of_lookup in Hr as (i & Hi).
    destruct (Forall2_lookup_r _ _ _ _ _ Hrs Hi) as (row & Hrow & Hdec).
    apply list_elem_of_lookup_2, py_sorted_elem in Hrow.
    destruct (record_row_event d c h row Hd Hrow) as (e & r' & He & Hr' & Hdec').
    exists e, r'. split_and!; try done; congruence.
  - intros (e & r & He & Hr & Hv & ->). exists r. split; [done|].
    apply list_elem_of_filter. split; [done|].
    destruct (scope_row_record d c h e Hd He) as (row & r' & Hrow & _ & Hr' & Hdec).
    assert (r' = r) as -> by congruence.
    apply (py_sorted_elem (created_le Cipher)), list_elem_of_lookup in Hrow as (i & Hi).
    destruct (Forall2_lookup_l _ _ _ _ _ Hrs Hi) as (y & Hy & Hdy).
    assert (y = r) as -> by congruence. by eapply list_elem_of_lookup_2.
Qed.
End answers.

(** A sealed history cannot be rewritten.  Of any two stores whose state row
    for a household is the same, if both verify and no two different inputs
    that they hash collide, then both hold the same events of that household
    with the same titles, currencies, totals, payers and shares: deleting,
    reordering, inserting or editing an expense is detected. *)
Theorem expense_history_tamper_evident d d' c h evs evs' :
  vhist d c h = Ok evs -> vhist d' c h = Ok evs' ->
  sql_one (state_in_scope c h) (xd_state d) = sql_one (state_in_scope c h) (xd_state d') ->
  (forall a b, a ∈ scope_events Cipher d c h -> b ∈ scope_events Cipher d' c h ->
     event_hash hmac_hex a = event_hash hmac_hex b -> event_json a = event_json b) ->
  (forall e r r', e ∈ scope_events Cipher d c h ->
     rec_of d (ev_record_id e) = Ok r -> rec_of d' (ev_record_id e) = Ok r' ->
     let q x := request_json (ev_ledger_revision e - 1) (xr_value x) in
     sha256_hex (q r) = sha256_hex (q r') -> q r = q r') ->
  scope_events Cipher d c h = scope_events Cipher d' c h /\ evs = evs' /\
  forall e, e ∈ scope_events Cipher d c h -> exists r r',
    rec_of d (ev_record_id e) = Ok r /\ rec_of d' (ev_record_id e) = Ok r' /\
    xr_value r = xr_value r'.
Proof.
  intros H1%verified_history_ok H2%verified_history_ok Est Hmac Hsha.
  assert (scope_events Cipher d c h = scope_events Cipher d' c h /\ evs = evs' /\
    Forall (genuine_in d) (scope_events Cipher d c h) /\
    Forall (genuine_in d') (scope_events Cipher d' c h)) as (Erows & -> & Hg & Hg').
  { destruct H1 as [(E1 & R1 & ->)|(s & E1 & _ & C1 & G1 & -> & N1 & _ & L1 & _)],
             H2 as [(E2 & R2 & ->)|(s' & E2 & _ & C2 & G2 & -> & N2 & _ & L2 & _)]; try congruence.
    - rewrite R1, R2. done.
    - assert (s' = s) as -> by congruence.
      assert (scope_events Cipher d c h = scope_events Cipher d' c h) as E; [|by split_and!; [|rewrite E|..]].
      apply (chained_unique_in ""%string); [|exact C1|exact C2|lia|by etrans; [symmetry; exact L1|exact L2]].
      intros a b Ha Hb Hab Hst. pose proof (Hmac a b Ha Hb Hab) as Hj.
      change (ev_event_hash a = ev_event_hash b) in Hst. destruct a, b.
      unfold event_json in Hj. cbn in Hj, Hst. injection Hj. intros. by subst. }
  split_and!; [done..|]. intros e He.
  pose proof He as He'. rewrite Erows in He'.
  eapply Forall_forall in Hg as (r & Hr & Hq); [|exact He].
  eapply Forall_forall in Hg' as (r' & Hr' & Hq'); [|exact He'].
  exists r, r'. split_and!; [done..|]. apply request_json_inj with (1 := Hsha e r r' He Hr Hr' (eq_trans Hq (eq_sym Hq'))).
Qed.
End ledgers.

(** ** A worked ledger *)

Module ExpenseExample.
Definition sha (v : jval) : string := "digest".
(** Tells events apart by their number. *)
Definition mac (tag : string) (v : jval) : string :=
  match v with JList (JInt 1 :: _) => "first" | JList (JInt _ :: _) => "later" | _ => "state" end.
Definition encrypt (nonce : string) (raw : jval) (aad : ustr) : jval * ustr := (raw, aad).
Definition decrypt (nonce : string) (c : jval * ustr) (aad : ustr) : option jval :=
  if decide (c.2 = aad) then Some c.1 else None.
Lemma cipher_roundtrip nonce raw aad : decrypt nonce (encrypt nonce raw aad) aad = Some raw.
Proof. unfold decrypt. by rewrite decide_True. Qed.

Definition house : HouseholdAccounts := {| ha_revision := 3; ha_ids := [u "ada"; u "bob"; u "cy"] |}.
Definition ada : Principal :=
  {| p_id := "ada"; p_username := "ada"; p_role := Member; p_must_change_password := false;
     p_family_id := "f"; p_token_id := "t" |}.
Definition dinner : ExpenseRequest :=
  {| rq_expected_ledger_revision := 1; rq_title := u " dinner "; rq_currency := "EUR";
     rq_total_minor := 1000; rq_payer_id := u "ada"; rq_participant_ids := [u "cy"; u "ada"; u "bob"] |}.
Definition taxi : ExpenseRequest :=
  {| rq_expected_ledger_revision := 2; rq_title := u "taxi"; rq_currency := "EUR";
     rq_total_minor := 7; rq_payer_id := u "ada"; rq_participant_ids := [u "bob"; u "ada"] |}.
Definition at_time (n : Z) (rec evt : string) : expense_env :=
  {| xe_now := n; xe_new_record_id := u rec; xe_new_event_id := u evt; xe_new_nonce := "n" |}.
Definition step (env : expense_env) (cmd : string) (rq : ExpenseRequest) :=
  create sha mac (jval * ustr) encrypt decrypt env ada (u "core") (u "home") (u cmd) rq house.
Definition d0 : expense_db (jval * ustr) := empty_ledger _.
Definition d1 := (step (at_time 100 "r1" "e1") "c1" dinner d0).2.
Definition d2 := (step (at_time 200 "r2" "e2") "c2" taxi d1).2.
(** Another household of the same server adds an expense of its own. *)
Definition d3 := (create sha mac _ encrypt decrypt (at_time 300 "r3" "e3") ada (u "core") (u "flat")
                    (u "c1") dinner house d2).2.
Definition dinner_receipt : res ExpenseReceipt := (step (at_time 100 "r1" "e1") "c1" dinner d0).1.

(** 10 euro over three people. *)
Example dinner_shares :
  (r ← dinner_receipt; Ok (amount_minor <$> xv_shares (xr_value (rc_expense r)))) = Ok [334; 333; 333].
Proof. vm_compute. reflexivity. Qed.
Example two_events :
  match verified_history sha mac _ decrypt d2 (u "core") (u "home") with
  | Ok l => xe_ledger_revision <$> l | Raise _ => [] end = [2; 3].
Proof. vm_compute. reflexivity. Qed.

Lemma d1_reached : expense_reachable sha mac _ encrypt decrypt d1.
Proof.
  eapply (expense_step _ _ _ _ _ (at_time 100 "r1" "e1") ada (u "core") (u "home") (u "c1") dinner house d0);
    [apply expense_new|apply surjective_pairing].
Qed.
Lemma d2_reached : expense_reachable sha mac _ encrypt decrypt d2.
Proof.
  eapply (expense_step _ _ _ _ _ (at_time 200 "r2" "e2") ada (u "core") (u "home") (u "c2") taxi house d1);
    [apply d1_reached|apply surjective_pairing].
Qed.
Lemma d1_d2 : rtc (expense_change sha mac _ encrypt decrypt) d1 d2.
Proof. apply rtc_once. do 8 eexists. apply (surjective_pairing (step (at_time 200 "r2" "e2") "c2" taxi d1)). Qed.
End ExpenseExample.
Import ExpenseExample.

Lemma expense_split_exact_witness :
  exists v, request_ sha dinner house = Ok (v, "digest"%string) /\
    zsum (amount_minor <$> xv_shares v) = 1000.
Proof.
  eexists. split; [vm_compute; reflexivity|].
  refine (proj1 (proj2 (proj2 (expense_split_exact sha dinner house _ _ _)))).
  vm_compute. reflexivity.
Defined.

Lemma expense_history_verifies_witness :
  verified_history sha mac _ decrypt d2 (u "core") (u "home")
  = Ok (event_of <$> scope_rows _ d2 (u "core") (u "home")).
Proof.
  apply (expense_history_verifies sha mac _ encrypt decrypt cipher_roundtrip), d2_reached.
Defined.

Lemma expense_retry_idempotent_witness :
  exists rc, step (at_time 100 "r1" "e1") "c1" dinner d0 = (Ok rc, d1) /\
    step (at_time 900 "r9" "e9") "c1" dinner d2 = (Ok rc, d2).
Proof.
  eexists. split; [vm_compute; reflexivity|].
  eapply (expense_retry_idempotent sha mac _ encrypt decrypt cipher_roundtrip
            (at_time 100 "r1" "e1") _ _ _ _ _ _ _ d0 d1 d2).
  - apply expense_new.
  - vm_compute. reflexivity.
  - apply d1_d2.
Defined.

Lemma expense_export_exact_witness :
  exists out, export sha mac _ decrypt d2 ada (u "core") (u "home") house = Ok out /\
    ex_ledgerRevision out = 3.
Proof.
  destruct (expense_export_exact sha mac _ encrypt decrypt cipher_roundtrip d2 ada (u "core")
              (u "home") house) as (out & Ho & Hr & _).
  - apply d2_reached.
  - vm_compute. reflexivity.
  - vm_compute. reflexivity.
  - exists out. split; [exact Ho|]. rewrite Hr. vm_compute. reflexivity.
Defined.

Lemma expense_history_tamper_evident_witness :
  scope_events _ d2 (u "core") (u "home") = scope_events _ d3 (u "core") (u "home").
Proof.
  assert (scope_events _ d2 (u "core") (u "home") = xd_events d2) as E2 by (vm_compute; reflexivity).
  eapply (expense_history_tamper_evident sha mac _ decrypt d2 d3 (u "core") (u "home")).
  - vm_compute. reflexivity.
  - vm_compute. reflexivity.
  - vm_compute. reflexivity.
  - rewrite E2. intros a b Ha Hb. vm_compute in Ha, Hb.
    apply elem_of_cons in Ha as [->|Ha%list_elem_of_singleton];
      apply elem_of_cons in Hb as [->|Hb%list_elem_of_singleton]; subst;
      vm_compute; try reflexivity; discriminate.
  - rewrite E2. intros e r r' He. vm_compute in He.
    apply elem_of_cons in He as [->|He%list_elem_of_singleton]; subst;
      vm_compute; intros [= <-] [= <-] _; reflexivity.
Defined.
