(* ===== verification/Vault.v ===== *)
(** * The settings vault

    [server/larenor_server/vault.py]: one encrypted settings document per
    account, replaced under optimistic concurrency.  A document comes from the
    network, so its size is bounded by an explicit stack before its shape is
    looked at.  AES-GCM, [datetime.fromisoformat] and the length of the JSON
    text are parameters; the encrypted text is represented by the document it
    encodes. *)

From S2P Require Import Prelude Auth.

(** ** JSON documents

    What [json.loads] makes, and values of any other type.  A dictionary has
    no key twice. *)

Inductive pykey := KStr (s : ustr) | KOther (n : Z).
#[export] Instance pykey_eq_dec : EqDecision pykey.
Proof. solve_decision. Defined.

Inductive pyval :=
  | PNone
  | PBool (b : bool)
  | PInt (z : Z)
  | PFloat (finite : bool) (bits : Z)
  | PStr (s : ustr)
  | PList (l : list pyval)
  | PDict (l : list (pykey * pyval))
  | POther.

Definition MAX_JSON_BYTES : Z := 2 * 1024 * 1024.
Definition invalid_request : exn := ApiError "invalid_request" 400.

Definition surrogate (c : Z) : bool := (0xD800 <=? c) && (c <=? 0xDFFF).

Definition utf8_width (c : Z) : Z :=
  if c <? 0x80 then 1 else if c <? 0x800 then 2 else if c <? 0x10000 then 3 else 4.

(** [len(text.encode("utf-8"))]; a lone surrogate raises [UnicodeEncodeError],
    a [ValueError]. *)
Definition utf8_length (s : ustr) : res Z :=
  _ ← raise_if (existsb surrogate s = true) (ValueError "surrogates_not_allowed");
  Ok (zsum (utf8_width <$> s)).

Definition check_text (s : ustr) : res unit :=
  n ← utf8_length s;
  raise_if (n > 65536) invalid_request.

(** The loop over the entries of a dictionary, in order, pushing its children
    on the stack (whose top is the head of the list). *)
Fixpoint push_entries (depth : Z) (entries : list (pykey * pyval)) (stack : list (pyval * Z))
  : res (list (pyval * Z)) :=
  match entries with
  | [] => Ok stack
  | (key, child) :: l =>
      match key with
      | KOther _ => Raise invalid_request
      | KStr s => _ ← check_text s; push_entries depth l ((child, depth + 1) :: stack)
      end
  end.

(** One iteration of [while stack]: what it adds to [keys] and pushes. *)
Definition visit (item : pyval) (depth keys : Z) (stack : list (pyval * Z))
  : res (Z * list (pyval * Z)) :=
  match item with
  | PDict entries =>
      let keys := keys + Z.of_nat (length entries) in
      _ ← raise_if (keys > 10000) invalid_request;
      stack ← push_entries depth entries stack;
      Ok (keys, stack)
  | PList l =>
      _ ← raise_if (Z.of_nat (length l) > 10000) invalid_request;
      Ok (keys, foldl (fun st child => (child, depth + 1) :: st) stack l)
  | PStr s => _ ← check_text s; Ok (keys, stack)
  | PFloat finite _ => _ ← raise_if (finite = false) invalid_request; Ok (keys, stack)
  | PNone | PBool _ | PInt _ => Ok (keys, stack)
  | POther => Raise invalid_request
  end.

(** [None] when the fuel runs out. *)
Fixpoint bounds_loop (fuel : nat) (stack : list (pyval * Z)) (keys nodes : Z) : option (res unit) :=
  match stack with
  | [] => Some (Ok tt)
  | (item, depth) :: stack =>
      match fuel with
      | O => None
      | S fuel =>
          let nodes := nodes + 1 in
          if decide (depth > 16 \/ nodes > 40000) then Some (Raise invalid_request)
          else match visit item depth keys stack with
               | Raise e => Some (Raise e)
               | Ok (keys, stack) => bounds_loop fuel stack keys nodes
               end
      end
  end.

(** The node count stops the loop, so this fuel is never used up. *)
Definition NODE_FUEL : nat := Z.to_nat 40001.
Definition validate_json_bounds (value : pyval) : res unit :=
  match bounds_loop NODE_FUEL [(value, 1)] 0 0 with
  | Some r => r
  | None => Raise KeyError
  end.

(** ** The document's shape *)

Definition as_dict (v : pyval) : res (list (pykey * pyval)) :=
  match v with PDict l => Ok l | _ => Raise invalid_request end.

(** [set(d) == {...}] for dictionaries, whose keys are distinct. *)
Definition keys_are (d : list (pykey * pyval)) (names : list string) : Prop :=
  length d = length names /\ Forall (fun n => KStr (u n) ∈ dict_keys d) names.
#[export] Instance keys_are_dec d names : Decision (keys_are d names).
Proof. unfold keys_are. apply _. Defined.

Definition field (d : list (pykey * pyval)) (name : string) : res pyval :=
  require_some (dict_get d (KStr (u name))) KeyError.

Definition is_int (v : pyval) (allowed : list Z) : Prop :=
  match v with PInt z => z ∈ allowed | _ => False end.
#[export] Instance is_int_dec v allowed : Decision (is_int v allowed).
Proof. destruct v; cbn; apply _. Defined.

Definition is_bool (v : pyval) : bool := match v with PBool _ => true | _ => false end.

(** [re.fullmatch(r"sensor\.[a-z0-9_]+", item)] *)
Definition sensor_char (c : Z) : bool :=
  ((97 <=? c) && (c <=? 122)) || ((48 <=? c) && (c <=? 57)) || (c =? 95).
Definition sensor_id (s : ustr) : Prop :=
  take 7 s = u "sensor." /\ drop 7 s <> [] /\ forallb sensor_char (drop 7 s) = true.
#[export] Instance sensor_id_dec s : Decision (sensor_id s).
Proof. unfold sensor_id. apply _. Defined.

Definition entity_id (v : pyval) : option ustr :=
  match v with
  | PStr s => if decide (Z.of_nat (length s) <= 255 /\ sensor_id s) then Some s else None
  | _ => None
  end.

(** [re.fullmatch(r"[0-9a-f]{32}", text)] *)
Definition hex_text (v : pyval) : Prop :=
  match v with
  | PStr s => length s = 32%nat /\
      forallb (fun c => ((48 <=? c) && (c <=? 57)) || ((97 <=? c) && (c <=? 102))) s = true
  | _ => False
  end.
#[export] Instance hex_text_dec v : Decision (hex_text v).
Proof. destruct v; cbn; apply _. Defined.

Definition utf16_width (c : Z) : Z := if c <? 0x10000 then 1 else 2.

Definition validate_dashboard_owner (owner : list (pykey * pyval)) : res unit :=
  match dict_get owner (KStr (u "source")) with
  | Some (PStr source) =>
      if decide (source = u "directLocal") then raise_if (~ keys_are owner ["source"]) invalid_request
      else
        _ ← raise_if (source <> u "verifiedCore" \/ ~ keys_are owner ["source"; "scope"]) invalid_request;
        scope ← field owner "scope";
        scope ← as_dict scope;
        _ ← raise_if (~ keys_are scope ["coreId"; "homeId"; "userId"]) invalid_request;
        core ← field scope "coreId"; home ← field scope "homeId";
        _ ← raise_if (~ hex_text core \/ ~ hex_text home) invalid_request;
        user ← field scope "userId";
        match user with
        | PStr user_id =>
            _ ← raise_if (user_id = [] \/ Exists is_control user_id) invalid_request;
            _ ← raise_if (existsb surrogate user_id = true) invalid_request;
            raise_if (zsum (utf16_width <$> user_id) > 128) invalid_request
        | _ => Raise invalid_request
        end
  | _ => Raise invalid_request
  end.

Definition validate_privacy (privacy : list (pykey * pyval)) : res unit :=
  _ ← raise_if (~ keys_are privacy ["version"; "entityIds"; "reviewRequired"]) invalid_request;
  version ← field privacy "version"; review ← field privacy "reviewRequired";
  ids ← field privacy "entityIds";
  _ ← raise_if (~ is_int version [1] \/ is_bool review = false) invalid_request;
  match ids with
  | PList ids =>
      _ ← raise_if (Z.of_nat (length ids) > 256) invalid_request;
      texts ← require_some (mapM entity_id ids) invalid_request;
      raise_if (~ NoDup texts) invalid_request
  | _ => Raise invalid_request
  end.

Definition has_key (d : list (pykey * pyval)) (name : string) : Prop := KStr (u name) ∈ dict_keys d.
#[export] Instance has_key_dec d name : Decision (has_key d name).
Proof. unfold has_key. apply _. Defined.

Definition validate_groups (version3 : bool) (groups : list (pykey * pyval)) : res unit :=
  let names := ["privacy"; "settings"; "dashboard"; "connections"]%string
               ++ if version3 then ["dashboardOwner"%string] else [] in
  _ ← raise_if (~ Forall (fun k => k ∈ (fun n => KStr (u n)) <$> names) (dict_keys groups) \/
                ~ has_key groups "privacy" \/
                Forall (fun k => k = KStr (u "privacy") \/ k = KStr (u "dashboardOwner")) (dict_keys groups))
        invalid_request;
  _ ← for_each (fun g => _ ← as_dict g; Ok tt) (dict_values groups);
  _ ← (if version3 then
         _ ← raise_if (~ (has_key groups "dashboard" <-> has_key groups "dashboardOwner")) invalid_request;
         match dict_get groups (KStr (u "dashboardOwner")) with
         | Some owner => owner ← as_dict owner; validate_dashboard_owner owner
         | None => Ok tt
         end
       else Ok tt);
  privacy ← field groups "privacy";
  privacy ← as_dict privacy;
  validate_privacy privacy.

Section documents.
(** [datetime.datetime.fromisoformat(text.replace("Z", "+00:00"))] returns *)
Variable iso_datetime : ustr -> bool.
(** [len(json.dumps(document, ...).encode())], [None] when it raises *)
Variable json_length : pyval -> option Z.

Definition validate_snapshot (snapshot : list (pykey * pyval)) : res unit :=
  _ ← raise_if (~ keys_are snapshot ["version"; "createdAt"; "groups"]) invalid_request;
  version ← field snapshot "version";
  created ← field snapshot "createdAt";
  _ ← raise_if (~ is_int version [2; 3]) invalid_request;
  match created with
  | PStr text =>
      _ ← raise_if (Z.of_nat (length text) > 40) invalid_request;
      _ ← raise_if (iso_datetime text = false) invalid_request;
      groups ← field snapshot "groups";
      groups ← as_dict groups;
      validate_groups (bool_decide (is_int version [3])) groups
  | _ => Raise invalid_request
  end.

(** The encoded text is the document itself. *)
Definition validate_document (document : pyval) : res pyval :=
  _ ← validate_json_bounds document;
  d ← as_dict document;
  _ ← raise_if (~ keys_are d ["version"; "snapshot"]) invalid_request;
  version ← field d "version";
  _ ← raise_if (~ is_int version [1]) invalid_request;
  snapshot ← field d "snapshot";
  snapshot ← as_dict snapshot;
  _ ← validate_snapshot snapshot;
  n ← require_some (json_length document) invalid_request;
  _ ← raise_if (n > MAX_JSON_BYTES) (ApiError "payload_too_large" 413);
  Ok document.
End documents.

(** ** The service *)

Record vault_row (Cipher : Type) := {
  va_user_id : string;
  va_revision : Z;
  va_nonce : string;
  va_ciphertext : Cipher;
  va_updated_at : Z;
}.
Arguments va_user_id {Cipher} _.
Arguments va_revision {Cipher} _.
Arguments va_nonce {Cipher} _.
Arguments va_ciphertext {Cipher} _.
Arguments va_updated_at {Cipher} _.

Record vault_db (Cipher : Type) := { vd_auth : auth_db; vd_vaults : list (vault_row Cipher) }.
Arguments vd_auth {Cipher} _.
Arguments vd_vaults {Cipher} _.

Record VaultDocument := { vl_revision : Z; vl_document : option pyval }.

(** The two clock readings and the nonce of one call. *)
Record vault_env := { vn_now : Z; vn_updated : Z; vn_nonce : string }.

Section vault.
Variable iso_datetime : ustr -> bool.
Variable json_length : pyval -> option Z.
Variable Cipher : Type.
(** AES-GCM under the vault key; the additional data is the user and the
    revision. *)
Variable gcm_encrypt : string -> pyval -> string * Z -> Cipher.
Variable gcm_decrypt : string -> Cipher -> string * Z -> option pyval.
Local Notation db := (vault_db Cipher).
Implicit Types d : db.

Definition aad_ (user_id : string) (revision : Z) : string * Z := (user_id, revision).

Definition vault_of d (user_id : string) : option (vault_row Cipher) :=
  sql_one (fun r => va_user_id r = user_id) (vd_vaults d).

(** [except (InvalidTag, ValueError, UnicodeError, ApiError)] *)
Definition vault_get (e : vault_env) d (principal : Principal) : res VaultDocument :=
  _ ← assert_current (vn_now e) (vd_auth d) principal;
  match vault_of d (p_id principal) with
  | None => Ok {| vl_revision := 0; vl_document := None |}
  | Some row =>
      document ← except_any
        (document ← require_some
           (gcm_decrypt (va_nonce row) (va_ciphertext row) (aad_ (p_id principal) (va_revision row)))
           (ValueError "InvalidTag");
         validate_document iso_datetime json_length document)
        (ApiError "vault_unavailable" 503);
      Ok {| vl_revision := va_revision row; vl_document := Some document |}
  end.

(** [INSERT ... ON CONFLICT(user_id) DO UPDATE] *)
Definition upsert_vault (row : vault_row Cipher) d : db :=
  {| vd_auth := vd_auth d;
     vd_vaults := match vault_of d (va_user_id row) with
                  | Some _ => sql_update (fun r => va_user_id r = va_user_id row) (fun _ => row) (vd_vaults d)
                  | None => vd_vaults d ++ [row]
                  end |}.

Definition vault_put (e : vault_env) (principal : Principal) (expected_revision : Z)
    (document : pyval) : M db VaultDocument :=
  plaintext ← lift (validate_document iso_datetime json_length document);
  transaction (
    d ← get_state;
    _ ← lift (assert_current (vn_now e) (vd_auth d) principal);
    let current := match vault_of d (p_id principal) with Some r => va_revision r | None => 0 end in
    _ ← lift (raise_if (expected_revision <> current) (ApiError "revision_conflict" 409));
    let revision := current + 1 in
    _ ← lift (raise_if (revision <= 0) IntegrityError);
    _ ← put_state (upsert_vault
          {| va_user_id := p_id principal; va_revision := revision; va_nonce := vn_nonce e;
             va_ciphertext := gcm_encrypt (vn_nonce e) plaintext (aad_ (p_id principal) revision);
             va_updated_at := vn_updated e |} d);
    mret {| vl_revision := revision; vl_document := Some plaintext |}).
End vault.

(** ** The stack and the tree *)

(** The reference: a document is within bounds when it is at most 16 deep,
    has at most 40,000 nodes and 10,000 keys in all, and each node passes on
    its own: a list of at most 10,000 items, texts of at most 65,536 bytes. *)
Section reference.
Fixpoint size (v : pyval) : Z :=
  match v with
  | PList l => 1 + zsum (size <$> l)
  | PDict l => 1 + zsum ((fun e => size e.2) <$> l)
  | _ => 1
  end.
Fixpoint key_count (v : pyval) : Z :=
  match v with
  | PList l => zsum (key_count <$> l)
  | PDict l => Z.of_nat (length l) + zsum ((fun e => key_count e.2) <$> l)
  | _ => 0
  end.
Definition text_ok (s : ustr) : Prop :=
  existsb surrogate s = false /\ zsum (utf8_width <$> s) <= 65536.
Definition key_ok (k : pykey) : Prop := match k with KStr s => text_ok s | KOther _ => False end.

(** Every node passes on its own, and none is deeper than allowed. *)
Fixpoint nodes_ok (v : pyval) (depth : Z) : Prop :=
  depth <= 16 /\
  match v with
  | PNone | PBool _ | PInt _ => True
  | PFloat finite _ => finite = true
  | PStr s => text_ok s
  | PList l => Z.of_nat (length l) <= 10000 /\
      foldr (fun c P => nodes_ok c (depth + 1) /\ P) True l
  | PDict l => foldr (fun e P => (key_ok e.1 /\ nodes_ok e.2 (depth + 1)) /\ P) True l
  | POther => False
  end.
Definition within_bounds (v : pyval) : Prop :=
  size v <= 40000 /\ key_count v <= 10000 /\ nodes_ok v 1.
End reference.

Definition children (v : pyval) : list pyval :=
  match v with PList l => l | PDict l => snd <$> l | _ => [] end.
Definition own_keys (v : pyval) : Z :=
  match v with PDict l => Z.of_nat (length l) | _ => 0 end.
(** What a node is checked for apart from the totals. *)
Definition node_ok (v : pyval) : Prop :=
  match v with
  | PNone | PBool _ | PInt _ => True
  | PFloat finite _ => finite = true
  | PStr s => text_ok s
  | PList l => Z.of_nat (length l) <= 10000
  | PDict l => Forall (fun e => key_ok e.1) l
  | POther => False
  end.

Lemma pyval_children_ind (P : pyval -> Prop) :
  (forall v, Forall P (children v) -> P v) -> forall v, P v.
Proof.
  intros HP. fix go 1. intros [|b|z|f b|s|l|l|]; apply HP; cbn; try apply Forall_nil_2.
  - induction l as [|x l IH]; [apply Forall_nil_2|apply Forall_cons_2; [apply go|exact IH]].
  - induction l as [|[k x] l IH]; [apply Forall_nil_2|apply Forall_cons_2; [apply go|exact IH]].
Qed.

Lemma size_children v : size v = 1 + zsum (size <$> children v).
Proof. destruct v; cbn; try done. by rewrite <- list_fmap_compose. Qed.

Lemma key_count_children v : key_count v = own_keys v + zsum (key_count <$> children v).
Proof. destruct v; cbn; try done. by rewrite <- list_fmap_compose. Qed.

Lemma nodes_ok_children v depth :
  nodes_ok v depth <-> depth <= 16 /\ node_ok v /\ Forall (fun c => nodes_ok c (depth + 1)) (children v).
Proof.
  destruct v as [|b|z|f b|s|l|l|]; cbn [nodes_ok node_ok children]; try (rewrite Forall_nil; tauto).
  - assert (foldr (fun c P => nodes_ok c (depth + 1) /\ P) True l
      <-> Forall (fun c => nodes_ok c (depth + 1)) l) as ->; [|tauto].
    induction l as [|x l IH]; [done|]. cbn [foldr]. rewrite Forall_cons, IH. done.
  - assert (foldr (fun e P => (key_ok e.1 /\ nodes_ok e.2 (depth + 1)) /\ P) True l
      <-> Forall (fun e => key_ok e.1) l /\ Forall (fun c => nodes_ok c (depth + 1)) (snd <$> l)) as ->;
      [|tauto].
    induction l as [|x l IH]; [done|]. cbn [foldr fmap list_fmap]. rewrite !Forall_cons, IH. tauto.
Qed.

Lemma size_pos v : 1 <= size v.
Proof.
  induction v as [v IH] using pyval_children_ind. rewrite size_children.
  assert (0 <= zsum (size <$> children v)); [|lia].
  apply zsum_nonneg, Forall_fmap. eapply Forall_impl; [exact IH|]. cbn. lia.
Qed.

Lemma key_count_nonneg v : 0 <= key_count v.
Proof.
  induction v as [v IH] using pyval_children_ind. rewrite key_count_children.
  assert (0 <= zsum (key_count <$> children v)); [by apply zsum_nonneg, Forall_fmap|].
  destruct v; cbn [own_keys]; lia.
Qed.

(** ** The loop *)

Definition push_all (depth : Z) (l : list pyval) (stack : list (pyval * Z)) : list (pyval * Z) :=
  foldl (fun st child => (child, depth + 1) :: st) stack l.

Lemma check_text_ok s : check_text s = Ok tt <-> text_ok s.
Proof.
  unfold check_text, utf8_length, text_ok. split.
  - intros (n & ([] & Hs%raise_if_ok & E)%bind_ok & Hn%raise_if_ok)%bind_ok. injection E as <-.
    destruct (existsb surrogate s); [done|]. split; [done|lia].
  - intros [Hs Hn]. rewrite raise_if_no by congruence. cbn. by rewrite raise_if_no by lia.
Qed.

Lemma push_entries_ok depth l stack stack' :
  push_entries depth l stack = Ok stack' <->
  Forall (fun e => key_ok e.1) l /\ stack' = push_all depth (snd <$> l) stack.
Proof.
  revert stack. induction l as [|[k c] l IH]; intros stack; cbn [push_entries].
  - split; [intros E; by injection E as <-|intros [_ ->]; done].
  - rewrite Forall_cons. destruct k as [s|n]; [|cbn; naive_solver].
    rewrite bind_ok. setoid_rewrite IH. cbn [fst key_ok]. split.
    + intros ([] & Hs%check_text_ok & Hl & ->). done.
    + intros [[Hs Hl] ->]. exists tt. split; [by apply check_text_ok|done].
Qed.

Lemma visit_ok item depth keys stack keys' stack' :
  keys <= 10000 ->
  visit item depth keys stack = Ok (keys', stack') <->
  node_ok item /\ keys + own_keys item <= 10000 /\
  keys' = keys + own_keys item /\ stack' = push_all depth (children item) stack.
Proof.
  intros Hkeys. destruct item as [|b|z|f b|s|l|l|]; cbn [visit node_ok own_keys children].
  1-3: rewrite Z.add_0_r; cbn; naive_solver.
  - rewrite bind_ok, Z.add_0_r. setoid_rewrite raise_if_ok. destruct f; cbn; naive_solver.
  - rewrite bind_ok, Z.add_0_r. split.
    + intros ([] & Hs%check_text_ok & E). injection E as <- <-. cbn. tauto.
    + intros (Hs & _ & -> & ->). exists tt. split; [by apply check_text_ok|done].
  - rewrite bind_ok, Z.add_0_r. split.
    + intros ([] & Hs%raise_if_ok & E). injection E as <- <-. split_and!; [lia|done..].
    + intros (Hs & _ & -> & ->). exists tt. split; [apply raise_if_ok; lia|done].
  - rewrite bind_ok. split.
    + intros ([] & Hs%raise_if_ok & (st & [Hl ->]%push_entries_ok & E)%bind_ok). injection E as <- <-.
      split_and!; [done|lia|done|done].
    + intros (Hl & Hk & -> & ->). exists tt. split; [apply raise_if_ok; lia|].
      apply bind_ok. eexists. split; [by apply push_entries_ok|done].
  - naive_solver.
Qed.

(** The totals of what is still on the stack. *)
Definition stack_size (st : list (pyval * Z)) : Z := zsum ((fun x => size x.1) <$> st).
Definition stack_keys (st : list (pyval * Z)) : Z := zsum ((fun x => key_count x.1) <$> st).
Definition stack_ok (st : list (pyval * Z)) : Prop := Forall (fun x => nodes_ok x.1 x.2) st.

Lemma push_all_facts depth l st :
  stack_size (push_all depth l st) = zsum (size <$> l) + stack_size st /\
  stack_keys (push_all depth l st) = zsum (key_count <$> l) + stack_keys st /\
  (stack_ok (push_all depth l st) <-> Forall (fun c => nodes_ok c (depth + 1)) l /\ stack_ok st).
Proof.
  unfold push_all. revert st. induction l as [|x l IH]; intros st; cbn [foldl].
  - rewrite Forall_nil. split_and!; [done|done|tauto].
  - destruct (IH ((x, depth + 1) :: st)) as (-> & -> & ->).
    unfold stack_size, stack_keys, stack_ok. rewrite !fmap_cons, !zsum_cons, !Forall_cons.
    cbn [fst snd]. split_and!; [lia|lia|tauto].
Qed.

Lemma stack_nonneg st : 0 <= stack_size st /\ 0 <= stack_keys st.
Proof.
  split; apply zsum_nonneg, Forall_fmap, Forall_forall; intros x _; cbn;
    [pose proof (size_pos x.1)|pose proof (key_count_nonneg x.1)]; lia.
Qed.

Lemma empty_stack keys nodes : keys <= 10000 -> nodes <= 40000 ->
  nodes + stack_size [] <= 40000 /\ keys + stack_keys [] <= 10000 /\ stack_ok [].
Proof.
  intros. unfold stack_size, stack_keys, stack_ok. rewrite !fmap_nil, !zsum_nil, Forall_nil. lia.
Qed.

(** A loop that accepts has seen every node and every key. *)
Lemma bounds_loop_sound fuel st keys nodes :
  keys <= 10000 -> nodes <= 40000 -> bounds_loop fuel st keys nodes = Some (Ok tt) ->
  nodes + stack_size st <= 40000 /\ keys + stack_keys st <= 10000 /\ stack_ok st.
Proof.
  revert st keys nodes. induction fuel as [|fuel IH]; intros [|[item depth] st] keys nodes Hk Hn;
    cbn [bounds_loop]; intros Hb; [apply empty_stack; done|done
      |apply empty_stack; done|].
  revert Hb.
  case_decide as Hd; [done|]. destruct (visit item depth keys st) as [[keys' st']|] eqn:Hv; [|done].
  apply visit_ok in Hv as (Hnode & Hkeys & -> & ->); [|done]. intros Hl.
  destruct (push_all_facts depth (children item) st) as (Hs1 & Hs2 & Hs3).
  apply IH in Hl as (H1 & H2 & H3); [|lia|lia]. rewrite Hs1 in H1. rewrite Hs2 in H2.
  apply Hs3 in H3 as [H3 H4].
  unfold stack_size, stack_keys, stack_ok in *. rewrite !fmap_cons, !zsum_cons, Forall_cons.
  cbn [fst snd]. rewrite size_children, key_count_children, nodes_ok_children.
  split_and!; try done; lia.
Qed.

(** Everything within bounds is accepted, in one iteration per node. *)
Lemma bounds_loop_complete fuel st keys nodes :
  stack_size st <= Z.of_nat fuel -> nodes + stack_size st <= 40000 ->
  keys + stack_keys st <= 10000 -> stack_ok st ->
  bounds_loop fuel st keys nodes = Some (Ok tt).
Proof.
  revert st keys nodes. induction fuel as [|fuel IH]; intros [|[item depth] st] keys nodes Hf Hn Hk Hok;
    cbn [bounds_loop]; try done;
    unfold stack_size, stack_keys, stack_ok in *; rewrite !fmap_cons, !zsum_cons in *;
    apply Forall_cons in Hok as [Hi Hok]; cbn [fst snd] in *;
    pose proof (stack_nonneg st) as [Hs1 Hs2]; unfold stack_size, stack_keys in Hs1, Hs2;
    pose proof (size_pos item); pose proof (key_count_nonneg item); [lia|].
  apply nodes_ok_children in Hi as (Hd & Hnode & Hc).
  rewrite decide_False by lia.
  destruct (push_all_facts depth (children item) st) as (E1 & E2 & E3).
  rewrite size_children, key_count_children in *.
  assert (0 <= zsum (key_count <$> children item)).
  { apply zsum_nonneg, Forall_fmap, Forall_forall. intros c _. apply key_count_nonneg. }
  destruct (visit item depth keys st) as [[keys' st']|e] eqn:Hv.
  - apply visit_ok in Hv as (_ & _ & -> & ->); [|destruct item; cbn [own_keys] in *; lia].
    unfold stack_size, stack_keys, stack_ok in E1, E2, E3. apply IH; [lia..|by apply E3].
  - exfalso. assert (visit item depth keys st = Ok (keys + own_keys item, push_all depth (children item) st)) as E.
    { apply visit_ok; [destruct item; cbn [own_keys] in *; lia|]. split_and!; try done. lia. }
    congruence.
Qed.

(** The node count stops the loop whatever is on the stack. *)
Lemma bounds_loop_ends fuel st keys nodes :
  nodes <= 40000 -> 40001 <= Z.of_nat fuel + nodes -> bounds_loop fuel st keys nodes <> None.
Proof.
  revert st keys nodes. induction fuel as [|fuel IH]; intros [|[item depth] st] keys nodes Hn Hf;
    cbn [bounds_loop]; [done|lia|done|].
  case_decide; [done|]. destruct (visit item depth keys st) as [[keys' st']|]; [|done].
  apply IH; lia.
Qed.

(** ** Properties *)

(** C38 The explicit stack decides exactly the recursive bounds.  On every
    value the loop ends within its fuel, and it accepts exactly the documents
    that are at most 16 deep, with at most 40,000 nodes and at most 10,000 keys in
    all, in which no list has more than 10,000 items, every text and every key is a
    string that encodes to at most 65,536 bytes of UTF-8, every float is finite and
    every other node is a dictionary, a null, a boolean or an integer. *)
Theorem vault_bounds_exact v :
  (exists r, bounds_loop NODE_FUEL [(v, 1)] 0 0 = Some r) /\
  (validate_json_bounds v = Ok tt <-> within_bounds v).
Proof.
  unfold validate_json_bounds, within_bounds.
  assert (Z.of_nat NODE_FUEL = 40001) as Hfuel by (unfold NODE_FUEL; lia).
  revert Hfuel. generalize NODE_FUEL as fuel. intros fuel Hfuel.
  assert (bounds_loop fuel [(v, 1)] 0 0 <> None) as Hends by (apply bounds_loop_ends; lia).
  split; [destruct (bounds_loop _ _ _ _); [by eexists|done]|].
  assert (stack_size [(v, 1)] = size v /\ stack_keys [(v, 1)] = key_count v) as [Es Ek].
  { unfold stack_size, stack_keys. rewrite !fmap_cons, !fmap_nil, !zsum_cons, !zsum_nil. cbn. lia. }
  split.
  - intros Hv. destruct (bounds_loop fuel [(v, 1)] 0 0) as [r|] eqn:E; [|done]. subst r.
    apply bounds_loop_sound in E as (H1 & H2 & H3); [|lia|lia]. rewrite Es in H1. rewrite Ek in H2.
    apply (proj1 (Forall_singleton _ _)) in H3. split_and!; [lia|lia|exact H3].
  - intros (H1 & H2 & H3). rewrite bounds_loop_complete; [done|lia..|by apply Forall_singleton].
Qed.

Section vaults.
Variable iso_datetime : ustr -> bool.
Variable json_length : pyval -> option Z.
Variable Cipher : Type.
Variable gcm_encrypt : string -> pyval -> string * Z -> Cipher.
Variable gcm_decrypt : string -> Cipher -> string * Z -> option pyval.
Local Notation put := (vault_put iso_datetime json_length Cipher gcm_encrypt).
Implicit Types d : vault_db Cipher.

Lemma validate_document_id doc x :
  validate_document iso_datetime json_length doc = Ok x -> x = doc.
Proof.
  unfold validate_document. intros E.
  repeat apply bind_ok in E as (? & _ & E). by injection E.
Qed.

Lemma vault_of_upsert row d i :
  vault_of Cipher (upsert_vault Cipher row d) i
  = if decide (i = va_user_id row) then Some row else vault_of Cipher d i.
Proof.
  unfold upsert_vault, vault_of. cbn [vd_vaults].
  destruct (sql_one _ (vd_vaults d)) as [r0|] eqn:E.
  - case_decide as Hi; [subst i; by eapply sql_one_update_same|].
    apply sql_one_update_other; congruence.
  - rewrite sql_one_app, sql_one_single.
    destruct (decide (i = va_user_id row)) as [->|Hi]; [by rewrite E, decide_True|].
    rewrite decide_False by congruence.
    by match goal with |- context [match ?m with _ => _ end] => destruct m end.
Qed.

(** What a successful [put] did. *)
Lemma put_ok e p rev doc d out d' :
  put e p rev doc d = (Ok out, d') ->
  validate_document iso_datetime json_length doc = Ok doc /\
  out = {| vl_revision := rev + 1; vl_document := Some doc |} /\ vd_auth d' = vd_auth d /\
  exists row, d' = upsert_vault Cipher row d /\ va_user_id row = p_id p /\
    va_revision row = rev + 1 /\
    va_ciphertext row = gcm_encrypt (va_nonce row) doc (p_id p, rev + 1).
Proof.
  unfold vault_put. intros Hp. inv_M. passed. subst.
  match goal with H : validate_document _ _ _ = Ok _ |- _ => pose proof (validate_document_id _ _ H); subst end.
  split_and!; try done. eexists. split; [reflexivity|]. done.
Qed.

(** What was put is what is got.  After a successful put, a reader of the
    same account with a current session gets exactly that document at the next
    revision, and a reader of any other account gets what they would have got
    before. *)
Theorem vault_put_get e e' p p' rev doc d out d' :
  (forall n x a, gcm_decrypt n (gcm_encrypt n x a) a = Some x) ->
  vault_put iso_datetime json_length Cipher gcm_encrypt e p rev doc d = (Ok out, d') ->
  assert_current (vn_now e') (vd_auth d) p' = Ok tt ->
  out = {| vl_revision := rev + 1; vl_document := Some doc |} /\
  vault_get iso_datetime json_length Cipher gcm_decrypt e' d' p'
  = if decide (p_id p' = p_id p) then Ok out
    else vault_get iso_datetime json_length Cipher gcm_decrypt e' d p'.
Proof.
  intros Hgcm (Hdoc & -> & Hauth & row & -> & Hid & Hrev & Hc)%put_ok Ha. split; [done|].
  unfold vault_get. rewrite Hauth, Ha. cbn [mbind res_bind]. rewrite vault_of_upsert, Hid.
  case_decide as Hp; [|done]. rewrite Hc, Hrev. unfold aad_. rewrite Hp, Hgcm.
  cbn [require_some mbind res_bind]. by rewrite Hdoc.
Qed.

(** No update is lost.  Of two writers that read the same revision only one
    succeeds: after a put at some revision, every further put of that account
    made against the same revision is refused and leaves the vault as it is. *)
Theorem vault_no_lost_update e e' p p' rev doc doc' d out d' :
  vault_put iso_datetime json_length Cipher gcm_encrypt e p rev doc d = (Ok out, d') ->
  p_id p' = p_id p ->
  exists x, vault_put iso_datetime json_length Cipher gcm_encrypt e' p' rev doc' d' = (Raise x, d').
Proof.
  intros (_ & _ & _ & row & -> & Hid & Hrev & _)%put_ok Hp.
  set (d1 := upsert_vault Cipher row d).
  destruct (put e' p' rev doc' d1) as [r d2] eqn:E.
  assert (forall y, r <> Ok y) as Hr.
  { intros y ->. unfold vault_put in E. inv_M. passed.
    unfold d1 in *. rewrite vault_of_upsert, decide_True in * by congruence. lia. }
  destruct r as [y|x]; [by destruct (Hr y)|]. exists x. f_equal.
  unfold vault_put in E. apply M_bind_raise in E as [E|(y & d3 & E1 & E)].
  - by apply lift_raise in E as [_ ->].
  - apply lift_ok in E1 as [_ ->]. by apply transaction_raise in E.
Qed.
End vaults.

(** ** A worked vault *)

Module VaultExample.
Definition iso (s : ustr) : bool := true.
Definition len (v : pyval) : option Z := Some 100.
Definition enc (n : string) (x : pyval) (a : string * Z) : pyval * (string * Z) := (x, a).
Definition dec (n : string) (c : pyval * (string * Z)) (a : string * Z) : option pyval :=
  if decide (c.2 = a) then Some c.1 else None.
Lemma dec_enc n x a : dec n (enc n x a) a = Some x.
Proof. unfold dec. by rewrite decide_True. Qed.
Definition key (s : string) (v : pyval) : pykey * pyval := (KStr (u s), v).
Definition text (s : string) : pyval := PStr (u s).
Definition backup (theme : string) : pyval :=
  PDict [key "version" (PInt 1);
    key "snapshot" (PDict [key "version" (PInt 2); key "createdAt" (text "2026-01-01T00:00:00Z");
      key "groups" (PDict [
        key "privacy" (PDict [key "version" (PInt 1); key "entityIds" (PList [text "sensor.attic_1"]);
                              key "reviewRequired" (PBool true)]);
        key "settings" (PDict [key "theme" (text theme)])])])].
Example backup_valid : validate_document iso len (backup "dark") = Ok (backup "dark").
Proof. vm_compute. reflexivity. Qed.
(** Seventeen levels are one too many. *)
Example too_deep :
  validate_json_bounds (Nat.iter 16 (fun v => PList [v]) PNone) = Raise invalid_request.
Proof. vm_compute. reflexivity. Qed.
End VaultExample.

Lemma vault_put_get_witness :
  exists d' out,
    vault_put VaultExample.iso VaultExample.len _ VaultExample.enc
      {| vn_now := seconds 1010; vn_updated := 0; vn_nonce := "n" |} AuthExample.me 0
      (VaultExample.backup "dark") {| vd_auth := AuthExample.d1; vd_vaults := [] |} = (Ok out, d') /\
    vault_get VaultExample.iso VaultExample.len _ VaultExample.dec
      {| vn_now := seconds 1020; vn_updated := 0; vn_nonce := "" |} d' AuthExample.me = Ok out /\
    vl_document out = Some (VaultExample.backup "dark").
Proof.
  do 2 eexists. split; [vm_compute; reflexivity|]. split; [|reflexivity].
  etransitivity.
  { refine (proj2 (vault_put_get VaultExample.iso VaultExample.len _ VaultExample.enc VaultExample.dec
      {| vn_now := seconds 1010; vn_updated := 0; vn_nonce := "n" |}
      {| vn_now := seconds 1020; vn_updated := 0; vn_nonce := "" |} AuthExample.me AuthExample.me 0
      (VaultExample.backup "dark") {| vd_auth := AuthExample.d1; vd_vaults := [] |} _ _
      VaultExample.dec_enc _ _)); vm_compute; reflexivity. }
  vm_compute. reflexivity.
Defined.

Lemma vault_no_lost_update_witness :
  exists x d', vault_put VaultExample.iso VaultExample.len _ VaultExample.enc
      {| vn_now := seconds 1020; vn_updated := 0; vn_nonce := "m" |} AuthExample.me 0
      (VaultExample.backup "light") d' = (Raise x, d') /\ length (vd_vaults d') = 1%nat.
Proof.
  edestruct (vault_no_lost_update VaultExample.iso VaultExample.len _ VaultExample.enc
      {| vn_now := seconds 1010; vn_updated := 0; vn_nonce := "n" |}
      {| vn_now := seconds 1020; vn_updated := 0; vn_nonce := "m" |} AuthExample.me AuthExample.me 0
      (VaultExample.backup "dark") (VaultExample.backup "light")
      {| vd_auth := AuthExample.d1; vd_vaults := [] |}) as [x E].
  - vm_compute. reflexivity.
  - reflexivity.
  - do 2 eexists. split; [exact E|reflexivity].
Defined.
