(* ===== verification/Comfort.v ===== *)
(** * Room comfort planning

    [server/larenor_server/room_comfort/planner.py] and the contracts of
    [models.py] it reads and returns.  For each room of a policy, in the order
    of their identities, the planner recommends a heating mode and a window
    state from the room's climate, the weather and the administrator's
    overrides.  SHA-256 of the canonical JSON of a policy and of a plan's
    inputs are parameters, and so are the two resolvers. *)

From S2P Require Import Prelude Energy.

Definition DAY_MILLIS : Z := 24 * 60 * 60 * 1000.

Record ComfortAuthority := {
  ca_coreId : string;
  ca_homeId : string;
  ca_homeRevision : Z;
  ca_accountId : string;
  ca_accountRevision : Z;
  ca_sessionFamilyId : string;
  ca_role : home_role;
  ca_active : bool;
  ca_canManageComfort : bool;
}.
#[export] Instance ComfortAuthority_eq_dec : EqDecision ComfortAuthority.
Proof. solve_decision. Defined.
Definition ComfortAuthority_valid (a : ComfortAuthority) : Prop :=
  Identity (ca_coreId a) /\ Identity (ca_homeId a) /\ Revision (ca_homeRevision a) /\
  Identity (ca_accountId a) /\ Revision (ca_accountRevision a) /\ Identity (ca_sessionFamilyId a).
#[export] Instance ComfortAuthority_valid_dec a : Decision (ComfortAuthority_valid a).
Proof. unfold ComfortAuthority_valid. solve_dec. Defined.
#[export] Instance ComfortAuthority_model : Model ComfortAuthority :=
  {| model_valid := ComfortAuthority_valid |}.

Inductive device_kind := KindHvac | KindWindow.
#[export] Instance device_kind_eq_dec : EqDecision device_kind.
Proof. solve_decision. Defined.

Record ComfortDevice := {
  cd_kind : device_kind;
  cd_deviceId : string;
  cd_deviceRevision : Z;
  cd_serviceId : string;
  cd_serviceRevision : Z;
  cd_bindingId : string;
  cd_bindingRevision : Z;
}.
#[export] Instance ComfortDevice_eq_dec : EqDecision ComfortDevice.
Proof. solve_decision. Defined.
Definition ComfortDevice_valid (d : ComfortDevice) : Prop :=
  Identity (cd_deviceId d) /\ Revision (cd_deviceRevision d) /\ Identity (cd_serviceId d) /\
  Revision (cd_serviceRevision d) /\ Identity (cd_bindingId d) /\ Revision (cd_bindingRevision d).

Record RoomComfortScope := {
  rs_coreId : string;
  rs_homeId : string;
  rs_roomId : string;
  rs_roomRevision : Z;
  rs_areaId : string;
  rs_areaRevision : Z;
  rs_hvac : ComfortDevice;
  rs_window : ComfortDevice;
}.
#[export] Instance RoomComfortScope_eq_dec : EqDecision RoomComfortScope.
Proof. solve_decision. Defined.
Definition correct_devices (r : RoomComfortScope) : Prop :=
  cd_kind (rs_hvac r) = KindHvac /\ cd_kind (rs_window r) = KindWindow /\
  cd_deviceId (rs_hvac r) <> cd_deviceId (rs_window r) /\
  cd_bindingId (rs_hvac r) <> cd_bindingId (rs_window r).
Definition RoomComfortScope_valid (r : RoomComfortScope) : Prop :=
  Identity (rs_coreId r) /\ Identity (rs_homeId r) /\ Identity (rs_roomId r) /\
  Revision (rs_roomRevision r) /\ Identity (rs_areaId r) /\ Revision (rs_areaRevision r) /\
  ComfortDevice_valid (rs_hvac r) /\ ComfortDevice_valid (rs_window r) /\ correct_devices r.
#[export] Instance RoomComfortScope_valid_dec r : Decision (RoomComfortScope_valid r).
Proof. unfold RoomComfortScope_valid, ComfortDevice_valid, correct_devices. solve_dec. Defined.

Record ComfortPolicy := {
  cp_coreId : string;
  cp_homeId : string;
  cp_policyId : string;
  cp_policyRevision : Z;
  cp_rooms : list RoomComfortScope;
  cp_targetTemperatureMilliC : Z;
  cp_temperatureToleranceMilliC : Z;
  cp_humidityHighPermille : Z;
  cp_co2HighPpm : Z;
  cp_vocHighPpb : Z;
  cp_outdoorAqiLimit : Z;
  cp_freezeThresholdMilliC : Z;
  cp_indoorMaxAgeMs : Z;
  cp_outdoorMaxAgeMs : Z;
  cp_occupancyMaxAgeMs : Z;
  cp_previewTtlMs : Z;
  cp_active : bool;
}.
#[export] Instance ComfortPolicy_eq_dec : EqDecision ComfortPolicy.
Proof. solve_decision. Defined.
Definition unique_rooms (p : ComfortPolicy) : Prop :=
  NoDup (rs_roomId <$> cp_rooms p) /\
  NoDup (cp_rooms p ≫= fun r => [cd_deviceId (rs_hvac r); cd_deviceId (rs_window r)]) /\
  Forall (fun r => (rs_coreId r, rs_homeId r) = (cp_coreId p, cp_homeId p)) (cp_rooms p).
Definition ComfortPolicy_valid (p : ComfortPolicy) : Prop :=
  Identity (cp_coreId p) /\ Identity (cp_homeId p) /\ Identity (cp_policyId p) /\
  Revision (cp_policyRevision p) /\ (1 <= length (cp_rooms p) <= 32)%nat /\
  Forall RoomComfortScope_valid (cp_rooms p) /\
  5000 <= cp_targetTemperatureMilliC p <= 35000 /\ 100 <= cp_temperatureToleranceMilliC p <= 10000 /\
  1 <= cp_humidityHighPermille p <= 1000 /\ 400 <= cp_co2HighPpm p <= 10000 /\
  1 <= cp_vocHighPpb p <= 100000 /\ 1 <= cp_outdoorAqiLimit p <= 500 /\
  -50000 <= cp_freezeThresholdMilliC p <= 15000 /\ 1000 <= cp_indoorMaxAgeMs p <= DAY_MILLIS /\
  1000 <= cp_outdoorMaxAgeMs p <= DAY_MILLIS /\ 1000 <= cp_occupancyMaxAgeMs p <= DAY_MILLIS /\
  1000 <= cp_previewTtlMs p <= 60000 /\ unique_rooms p.
#[export] Instance ComfortPolicy_valid_dec p : Decision (ComfortPolicy_valid p).
Proof. unfold ComfortPolicy_valid, unique_rooms. solve_dec. Defined.
#[export] Instance ComfortPolicy_model : Model ComfortPolicy := {| model_valid := ComfortPolicy_valid |}.

Inductive metric_kind := Temperature_millic | Humidity_permille | Co2_ppm | Voc_ppb.
#[export] Instance metric_kind_eq_dec : EqDecision metric_kind.
Proof. solve_decision. Defined.

Record MetricReading := {
  me_kind : metric_kind;
  me_sensorId : string;
  me_sensorRevision : Z;
  me_readingRevision : Z;
  me_value : Z;
  me_observedAtMs : Z;
}.
#[export] Instance MetricReading_eq_dec : EqDecision MetricReading.
Proof. solve_decision. Defined.
Definition MetricReading_valid (m : MetricReading) : Prop :=
  Identity (me_sensorId m) /\ Revision (me_sensorRevision m) /\ Revision (me_readingRevision m) /\
  -100000 <= me_value m <= 1000000 /\ TimestampMs (me_observedAtMs m).

Record RoomClimateSnapshot := {
  rc_coreId : string;
  rc_homeId : string;
  rc_roomId : string;
  rc_roomRevision : Z;
  rc_snapshotRevision : Z;
  rc_temperature : MetricReading;
  rc_humidity : MetricReading;
  rc_co2 : MetricReading;
  rc_voc : MetricReading;
  rc_smokeDetected : bool;
  rc_smokeSensorId : string;
  rc_smokeSensorRevision : Z;
  rc_smokeReadingRevision : Z;
  rc_smokeObservedAtMs : Z;
}.
Definition metrics (c : RoomClimateSnapshot) : list MetricReading :=
  [rc_temperature c; rc_humidity c; rc_co2 c; rc_voc c].
Definition valid_metrics (c : RoomClimateSnapshot) : Prop :=
  me_kind <$> metrics c = [Temperature_millic; Humidity_permille; Co2_ppm; Voc_ppb] /\
  -50000 <= me_value (rc_temperature c) <= 80000 /\ 0 <= me_value (rc_humidity c) <= 1000 /\
  0 <= me_value (rc_co2 c) <= 100000 /\ 0 <= me_value (rc_voc c) <= 1000000 /\
  NoDup (me_sensorId <$> metrics c) /\ rc_smokeSensorId c ∉ me_sensorId <$> metrics c.
Definition RoomClimateSnapshot_valid (c : RoomClimateSnapshot) : Prop :=
  Identity (rc_coreId c) /\ Identity (rc_homeId c) /\ Identity (rc_roomId c) /\
  Revision (rc_roomRevision c) /\ Revision (rc_snapshotRevision c) /\
  Forall MetricReading_valid (metrics c) /\ Identity (rc_smokeSensorId c) /\
  Revision (rc_smokeSensorRevision c) /\ Revision (rc_smokeReadingRevision c) /\
  TimestampMs (rc_smokeObservedAtMs c) /\ valid_metrics c.
#[export] Instance RoomClimateSnapshot_valid_dec c : Decision (RoomClimateSnapshot_valid c).
Proof.
  unfold RoomClimateSnapshot_valid, valid_metrics.
  assert (forall m, Decision (MetricReading_valid m)) by (intros; unfold MetricReading_valid; solve_dec).
  solve_dec.
Defined.
#[export] Instance RoomClimateSnapshot_model : Model RoomClimateSnapshot :=
  {| model_valid := RoomClimateSnapshot_valid |}.

Record OutdoorWeatherSnapshot := {
  ow_coreId : string;
  ow_homeId : string;
  ow_sourceId : string;
  ow_sourceRevision : Z;
  ow_weatherRevision : Z;
  ow_temperatureMilliC : Z;
  ow_raining : bool;
  ow_airQualityIndex : Z;
  ow_observedAtMs : Z;
}.
Definition OutdoorWeather_valid (w : OutdoorWeatherSnapshot) : Prop :=
  Identity (ow_coreId w) /\ Identity (ow_homeId w) /\ Identity (ow_sourceId w) /\
  Revision (ow_sourceRevision w) /\ Revision (ow_weatherRevision w) /\
  -100000 <= ow_temperatureMilliC w <= 100000 /\ 0 <= ow_airQualityIndex w <= 500 /\
  TimestampMs (ow_observedAtMs w).
#[export] Instance OutdoorWeather_valid_dec w : Decision (OutdoorWeather_valid w).
Proof. unfold OutdoorWeather_valid. solve_dec. Defined.
#[export] Instance OutdoorWeather_model : Model OutdoorWeatherSnapshot :=
  {| model_valid := OutdoorWeather_valid |}.

Record OccupancySnapshot := {
  oc_coreId : string;
  oc_homeId : string;
  oc_roomId : string;
  oc_roomRevision : Z;
  oc_sourceId : string;
  oc_sourceRevision : Z;
  oc_occupancyRevision : Z;
  oc_occupied : bool;
  oc_observedAtMs : Z;
}.
Definition Occupancy_valid (o : OccupancySnapshot) : Prop :=
  Identity (oc_coreId o) /\ Identity (oc_homeId o) /\ Identity (oc_roomId o) /\
  Revision (oc_roomRevision o) /\ Identity (oc_sourceId o) /\ Revision (oc_sourceRevision o) /\
  Revision (oc_occupancyRevision o) /\ TimestampMs (oc_observedAtMs o).
#[export] Instance Occupancy_valid_dec o : Decision (Occupancy_valid o).
Proof. unfold Occupancy_valid. solve_dec. Defined.
#[export] Instance Occupancy_model : Model OccupancySnapshot := {| model_valid := Occupancy_valid |}.

Inductive hvac_mode := HvacOff | Heat | Cool | Ventilate.
Inductive window_state := Closed | Opened.
#[export] Instance hvac_mode_eq_dec : EqDecision hvac_mode.
Proof. solve_decision. Defined.
#[export] Instance window_state_eq_dec : EqDecision window_state.
Proof. solve_decision. Defined.

Record ManualComfortOverride := {
  mo_overrideId : string;
  mo_coreId : string;
  mo_homeId : string;
  mo_policyId : string;
  mo_expectedPolicyRevision : Z;
  mo_roomId : string;
  mo_expectedRoomRevision : Z;
  mo_actorAccountId : string;
  mo_hvacMode : hvac_mode;
  mo_windowState : window_state;
  mo_createdAtMs : Z;
  mo_expiresAtMs : Z;
}.
Definition ManualComfortOverride_valid (o : ManualComfortOverride) : Prop :=
  Identity (mo_overrideId o) /\ Identity (mo_coreId o) /\ Identity (mo_homeId o) /\
  Identity (mo_policyId o) /\ Revision (mo_expectedPolicyRevision o) /\ Identity (mo_roomId o) /\
  Revision (mo_expectedRoomRevision o) /\ Identity (mo_actorAccountId o) /\
  TimestampMs (mo_createdAtMs o) /\ TimestampMs (mo_expiresAtMs o) /\
  mo_createdAtMs o < mo_expiresAtMs o /\ mo_expiresAtMs o - mo_createdAtMs o <= DAY_MILLIS /\
  (mo_windowState o = Opened -> mo_hvacMode o = HvacOff).
#[export] Instance ManualComfortOverride_valid_dec o : Decision (ManualComfortOverride_valid o).
Proof. unfold ManualComfortOverride_valid. solve_dec. Defined.
#[export] Instance ManualComfortOverride_model : Model ManualComfortOverride :=
  {| model_valid := ManualComfortOverride_valid |}.

(** ** Plans *)

Inductive comfort_status := CPlanned | CSkipped | CBlocked.
Inductive comfort_reason :=
  | air_refresh | temperature_low | temperature_high | comfortable | manual_override
  | sensor_stale | smoke_detected | freezing | rain_window_block | outdoor_air_unsafe.
#[export] Instance comfort_status_eq_dec : EqDecision comfort_status.
Proof. solve_decision. Defined.
#[export] Instance comfort_reason_eq_dec : EqDecision comfort_reason.
Proof. solve_decision. Defined.

Record ComfortPlanItem := {
  ci_room : RoomComfortScope;
  ci_status : comfort_status;
  ci_reason : comfort_reason;
  ci_hvacMode : hvac_mode;
  ci_windowState : window_state;
}.
Definition ComfortPlanItem_valid (i : ComfortPlanItem) : Prop := RoomComfortScope_valid (ci_room i).
#[export] Instance ComfortPlanItem_valid_dec i : Decision (ComfortPlanItem_valid i).
Proof. unfold ComfortPlanItem_valid. apply _. Defined.
#[export] Instance ComfortPlanItem_model : Model ComfortPlanItem := {| model_valid := ComfortPlanItem_valid |}.

Definition room_dict {V} (P : V -> Prop) (l : list (string * V)) : Prop :=
  (1 <= length l <= 32)%nat /\ Forall (fun e => Identity e.1 /\ P e.2) l.
#[export] Instance room_dict_dec {V} (P : V -> Prop) `{!forall x, Decision (P x)} l :
  Decision (room_dict P l).
Proof. unfold room_dict. solve_dec. Defined.

Record ComfortInputRevisions := {
  cr_policyRevision : Z;
  cr_weatherRevision : Z;
  cr_weatherSourceId : string;
  cr_weatherSourceRevision : Z;
  cr_roomSnapshotRevisions : list (string * Z);
  cr_occupancyRevisions : list (string * Z);
  cr_occupancySourceIds : list (string * string);
  cr_occupancySourceRevisions : list (string * Z);
  cr_metricSensorRevisions : list (string * list Z);
  cr_metricReadingRevisions : list (string * list Z);
  cr_smokeSensorRevisions : list (string * Z);
  cr_smokeReadingRevisions : list (string * Z);
}.
Definition ComfortInputRevisions_valid (r : ComfortInputRevisions) : Prop :=
  Revision (cr_policyRevision r) /\ Revision (cr_weatherRevision r) /\
  Identity (cr_weatherSourceId r) /\ Revision (cr_weatherSourceRevision r) /\
  room_dict Revision (cr_roomSnapshotRevisions r) /\ room_dict Revision (cr_occupancyRevisions r) /\
  room_dict Identity (cr_occupancySourceIds r) /\ room_dict Revision (cr_occupancySourceRevisions r) /\
  room_dict (Forall Revision) (cr_metricSensorRevisions r) /\
  room_dict (Forall Revision) (cr_metricReadingRevisions r) /\
  room_dict Revision (cr_smokeSensorRevisions r) /\ room_dict Revision (cr_smokeReadingRevisions r).
#[export] Instance ComfortInputRevisions_valid_dec r : Decision (ComfortInputRevisions_valid r).
Proof. unfold ComfortInputRevisions_valid. solve_dec. Defined.
#[export] Instance ComfortInputRevisions_model : Model ComfortInputRevisions :=
  {| model_valid := ComfortInputRevisions_valid |}.

Inductive occupancy_advice := AdviceOccupied | AdviceUnoccupied | AdviceStale.

Record ComfortPlan := {
  cpl_planId : string;
  cpl_coreId : string;
  cpl_homeId : string;
  cpl_homeRevision : Z;
  cpl_policyId : string;
  cpl_policyRevision : Z;
  cpl_policyHash : string;
  cpl_actorAccountId : string;
  cpl_accountRevision : Z;
  cpl_sessionFamilyId : string;
  cpl_generatedAtMs : Z;
  cpl_inputRevisions : ComfortInputRevisions;
  cpl_occupancyAdvisory : list (string * occupancy_advice);
  cpl_items : list ComfortPlanItem;
}.
Definition ComfortPlan_valid (p : ComfortPlan) : Prop :=
  Identity (cpl_planId p) /\ Identity (cpl_coreId p) /\ Identity (cpl_homeId p) /\
  Revision (cpl_homeRevision p) /\ Identity (cpl_policyId p) /\ Revision (cpl_policyRevision p) /\
  Snapshot (cpl_policyHash p) /\ Identity (cpl_actorAccountId p) /\
  Revision (cpl_accountRevision p) /\ Identity (cpl_sessionFamilyId p) /\
  TimestampMs (cpl_generatedAtMs p) /\ ComfortInputRevisions_valid (cpl_inputRevisions p) /\
  Forall (fun e => Identity e.1) (cpl_occupancyAdvisory p) /\
  (1 <= length (cpl_items p) <= 32)%nat /\ Forall ComfortPlanItem_valid (cpl_items p).
#[export] Instance ComfortPlan_valid_dec p : Decision (ComfortPlan_valid p).
Proof. unfold ComfortPlan_valid. solve_dec. Defined.
#[export] Instance ComfortPlan_model : Model ComfortPlan := {| model_valid := ComfortPlan_valid |}.

(** ** The planner *)

Definition stale (now max_age observed : Z) : Prop := observed > now \/ now - observed > max_age.
#[export] Instance stale_dec now a o : Decision (stale now a o).
Proof. unfold stale. apply _. Defined.

Definition indoor_stale (now : Z) (p : ComfortPolicy) (c : RoomClimateSnapshot) : Prop :=
  Exists (fun m => stale now (cp_indoorMaxAgeMs p) (me_observedAtMs m)) (metrics c) \/
  stale now (cp_indoorMaxAgeMs p) (rc_smokeObservedAtMs c).
#[export] Instance indoor_stale_dec now p c : Decision (indoor_stale now p c).
Proof. unfold indoor_stale. apply _. Defined.

Definition advice (now : Z) (p : ComfortPolicy) (o : OccupancySnapshot) : occupancy_advice :=
  if decide (stale now (cp_occupancyMaxAgeMs p) (oc_observedAtMs o)) then AdviceStale
  else if oc_occupied o then AdviceOccupied else AdviceUnoccupied.

Definition needs_air (p : ComfortPolicy) (c : RoomClimateSnapshot) : Prop :=
  me_value (rc_humidity c) >= cp_humidityHighPermille p \/
  me_value (rc_co2 c) >= cp_co2HighPpm p \/ me_value (rc_voc c) >= cp_vocHighPpb p.
#[export] Instance needs_air_dec p c : Decision (needs_air p c).
Proof. unfold needs_air. apply _. Defined.

Definition too_cold (p : ComfortPolicy) (c : RoomClimateSnapshot) : Prop :=
  me_value (rc_temperature c) < cp_targetTemperatureMilliC p - cp_temperatureToleranceMilliC p.
Definition too_warm (p : ComfortPolicy) (c : RoomClimateSnapshot) : Prop :=
  me_value (rc_temperature c) > cp_targetTemperatureMilliC p + cp_temperatureToleranceMilliC p.
#[export] Instance too_cold_dec p c : Decision (too_cold p c).
Proof. unfold too_cold. apply _. Defined.
#[export] Instance too_warm_dec p c : Decision (too_warm p c).
Proof. unfold too_warm. apply _. Defined.

(** The recommendation for one room. *)
Definition recommend (now : Z) (p : ComfortPolicy) (w : OutdoorWeatherSnapshot)
    (override : option ManualComfortOverride) (scope : RoomComfortScope) (inside : RoomClimateSnapshot)
  : ComfortPlanItem :=
  let item status reason hvac window :=
    {| ci_room := scope; ci_status := status; ci_reason := reason; ci_hvacMode := hvac;
       ci_windowState := window |} in
  if decide (indoor_stale now p inside \/ stale now (cp_outdoorMaxAgeMs p) (ow_observedAtMs w))
  then item CBlocked sensor_stale HvacOff Closed
  else if rc_smokeDetected inside then item CBlocked smoke_detected HvacOff Closed
  else if decide (ow_temperatureMilliC w <= cp_freezeThresholdMilliC p)
  then item CBlocked freezing (if decide (too_cold p inside) then Heat else HvacOff) Closed
  else if decide (needs_air p inside /\ ow_raining w = true)
  then item CBlocked rain_window_block HvacOff Closed
  else if decide (needs_air p inside /\ ow_airQualityIndex w >= cp_outdoorAqiLimit p)
  then item CBlocked outdoor_air_unsafe HvacOff Closed
  else match override with
  | Some o => item CPlanned manual_override (mo_hvacMode o) (mo_windowState o)
  | None =>
      if decide (needs_air p inside) then item CPlanned air_refresh HvacOff Opened
      else if decide (too_cold p inside) then item CPlanned temperature_low Heat Closed
      else if decide (too_warm p inside) then item CPlanned temperature_high Cool Closed
      else item CSkipped comfortable HvacOff Closed
  end.

(** What a plan's identity is hashed from. *)
Record ComfortIdentity := {
  cid_policy : ComfortPolicy;
  cid_climate : list RoomClimateSnapshot;
  cid_weather : OutdoorWeatherSnapshot;
  cid_occupancy : list OccupancySnapshot;
  cid_overrides : list ManualComfortOverride;
  cid_actor : string;
  cid_accountRevision : Z;
  cid_generatedAtMs : Z;
  cid_items : list ComfortPlanItem;
}.

(** The dictionaries of the call, keyed by room. *)
Definition rooms_of (p : ComfortPolicy) := dict_of rs_roomId id (cp_rooms p).
Definition climates_of (l : list RoomClimateSnapshot) := dict_of rc_roomId id l.
Definition occupancies_of (l : list OccupancySnapshot) := dict_of oc_roomId id l.

(** [set(a) == set(b)] *)
Definition same_rooms {A B} (a : list (string * A)) (b : list (string * B)) : Prop :=
  Forall (fun k => k ∈ dict_keys b) (dict_keys a) /\ Forall (fun k => k ∈ dict_keys a) (dict_keys b).
#[export] Instance same_rooms_dec {A B} (a : list (string * A)) (b : list (string * B)) :
  Decision (same_rooms a b).
Proof. unfold same_rooms. apply _. Defined.

(** [sorted(d)] over a dictionary *)
Definition sorted_keys {A} (d : list (string * A)) : list string := py_sorted str_le (dict_keys d).

(** [[d[key] for key in sorted(d)]] and [{key: f(d[key]) for key in sorted(d)}] *)
Definition by_room {A} (d : list (string * A)) : res (list (string * A)) :=
  fold_res (fun acc k => v ← require_some (dict_get d k) KeyError; Ok (acc ++ [(k, v)])) []
    (sorted_keys d).
Definition map_rooms {A B} (f : A -> B) (l : list (string * A)) : list (string * B) :=
  (fun e => (e.1, f e.2)) <$> l.

Section comfort.
Variable hash_policy : ComfortPolicy -> string.
Variable hash_identity : ComfortIdentity -> string.
Variable resolve_authority : string -> resolved ComfortAuthority.
Variable resolve_policy : string -> resolved ComfortPolicy.

Definition comfort_authority (ra : raw ComfortAuthority) : res ComfortAuthority :=
  a ← except_value_error (model_validate ra) (ApiError "invalid_request" 400);
  current ← except_any (validate_resolved (resolve_authority (ca_accountId a))) (ApiError "forbidden" 403);
  _ ← raise_if (current <> a) (ApiError "revision_conflict" 409);
  _ ← raise_if (ca_active a = false \/ ca_role a <> RoleAdmin \/ ca_canManageComfort a = false)
        (ApiError "forbidden" 403);
  Ok a.

Definition comfort_policy (rp : raw ComfortPolicy) : res ComfortPolicy :=
  p ← except_value_error (model_validate rp) (ApiError "invalid_request" 400);
  current ← except_any (validate_resolved (resolve_policy (cp_policyId p)))
              (ApiError "revision_conflict" 409);
  _ ← raise_if (current <> p) (ApiError "revision_conflict" 409);
  _ ← raise_if (cp_active p = false) (ApiError "forbidden" 403);
  Ok p.

(** The scope check of one room. *)
Definition check_room (p : ComfortPolicy) (climates : list (string * RoomClimateSnapshot))
    (occupancies : list (string * OccupancySnapshot)) (e : string * RoomComfortScope) : res unit :=
  inside ← require_some (dict_get climates e.1) KeyError;
  occupied ← require_some (dict_get occupancies e.1) KeyError;
  raise_if ((rc_coreId inside, rc_homeId inside, rc_roomRevision inside)
            <> (cp_coreId p, cp_homeId p, rs_roomRevision e.2) \/
            (oc_coreId occupied, oc_homeId occupied, oc_roomRevision occupied)
            <> (cp_coreId p, cp_homeId p, rs_roomRevision e.2)) (ApiError "revision_conflict" 409).

(** One iteration of the override loop. *)
Definition take_comfort_override (now : Z) (p : ComfortPolicy) (a : ComfortAuthority)
    (rooms : list (string * RoomComfortScope)) (active : list (string * ManualComfortOverride))
    (o : ManualComfortOverride) : res (list (string * ManualComfortOverride)) :=
  scope ← require_some (dict_get rooms (mo_roomId o)) (ApiError "revision_conflict" 409);
  _ ← raise_if ((mo_coreId o, mo_homeId o, mo_policyId o, mo_expectedPolicyRevision o,
                 mo_expectedRoomRevision o, mo_actorAccountId o)
                <> (cp_coreId p, cp_homeId p, cp_policyId p, cp_policyRevision p,
                    rs_roomRevision scope, ca_accountId a)) (ApiError "revision_conflict" 409);
  _ ← raise_if (mo_createdAtMs o > now \/ is_Some (dict_get active (mo_roomId o)))
        (ApiError "invalid_request" 400);
  Ok (if decide (now < mo_expiresAtMs o) then dict_set active (mo_roomId o) o else active).

(** One iteration of the planning loop: the room's item and its advice. *)
Definition plan_room (now : Z) (p : ComfortPolicy) (w : OutdoorWeatherSnapshot)
    (rooms : list (string * RoomComfortScope)) (climates : list (string * RoomClimateSnapshot))
    (occupancies : list (string * OccupancySnapshot)) (active : list (string * ManualComfortOverride))
    (acc : list ComfortPlanItem * list (string * occupancy_advice)) (room_id : string)
  : res (list ComfortPlanItem * list (string * occupancy_advice)) :=
  scope ← require_some (dict_get rooms room_id) KeyError;
  inside ← require_some (dict_get climates room_id) KeyError;
  occupied ← require_some (dict_get occupancies room_id) KeyError;
  item ← model_validate (Shaped (recommend now p w (dict_get active room_id) scope inside));
  Ok (acc.1 ++ [item], dict_set acc.2 room_id (advice now p occupied)).

Definition metric_revisions (f : MetricReading -> Z) (c : RoomClimateSnapshot) : list Z :=
  f <$> metrics c.

Definition input_revisions (p : ComfortPolicy) (w : OutdoorWeatherSnapshot)
    (climates : list (string * RoomClimateSnapshot)) (occupancies : list (string * OccupancySnapshot))
  : ComfortInputRevisions :=
  {| cr_policyRevision := cp_policyRevision p; cr_weatherRevision := ow_weatherRevision w;
     cr_weatherSourceId := ow_sourceId w; cr_weatherSourceRevision := ow_sourceRevision w;
     cr_roomSnapshotRevisions := map_rooms rc_snapshotRevision climates;
     cr_occupancyRevisions := map_rooms oc_occupancyRevision occupancies;
     cr_occupancySourceIds := map_rooms oc_sourceId occupancies;
     cr_occupancySourceRevisions := map_rooms oc_sourceRevision occupancies;
     cr_metricSensorRevisions := map_rooms (metric_revisions me_sensorRevision) climates;
     cr_metricReadingRevisions := map_rooms (metric_revisions me_readingRevision) climates;
     cr_smokeSensorRevisions := map_rooms rc_smokeSensorRevision climates;
     cr_smokeReadingRevisions := map_rooms rc_smokeReadingRevision climates |}.

Definition comfort_plan (ra : raw ComfortAuthority) (rp : raw ComfortPolicy)
    (rclimate : list (raw RoomClimateSnapshot)) (rweather : raw OutdoorWeatherSnapshot)
    (roccupancy : list (raw OccupancySnapshot)) (now : Z)
    (roverrides : list (raw ManualComfortOverride)) : res ComfortPlan :=
  a ← comfort_authority ra;
  p ← comfort_policy rp;
  inputs ← except_value_error (
    climate ← model_validate_all rclimate;
    w ← model_validate rweather;
    occupancy ← model_validate_all roccupancy;
    overrides ← model_validate_all roverrides;
    _ ← raise_if (now < 0) (ValueError "");
    Ok (climate, w, occupancy, overrides)) (ApiError "invalid_request" 400);
  let '(climate, w, occupancy, overrides) := inputs in
  _ ← raise_if ((cp_coreId p, cp_homeId p) <> (ca_coreId a, ca_homeId a)) (ApiError "not_found" 404);
  _ ← raise_if ((ow_coreId w, ow_homeId w) <> (cp_coreId p, cp_homeId p)) (ApiError "not_found" 404);
  let rooms := rooms_of p in
  let climates := climates_of climate in
  let occupancies := occupancies_of occupancy in
  _ ← raise_if (length climates <> length climate \/ length occupancies <> length occupancy \/
                ~ same_rooms climates rooms \/ ~ same_rooms occupancies rooms)
        (ApiError "revision_conflict" 409);
  _ ← for_each (check_room p climates occupancies) rooms;
  active ← fold_res (take_comfort_override now p a rooms) [] overrides;
  out ← fold_res (plan_room now p w rooms climates occupancies active) ([], []) (sorted_keys rooms);
  climates' ← by_room climates;
  occupancies' ← by_room occupancies;
  active' ← by_room active;
  revisions ← model_validate (Shaped (input_revisions p w climates' occupancies'));
  let identity :=
    {| cid_policy := p; cid_climate := climates'.*2; cid_weather := w; cid_occupancy := occupancies'.*2;
       cid_overrides := active'.*2; cid_actor := ca_accountId a;
       cid_accountRevision := ca_accountRevision a; cid_generatedAtMs := now; cid_items := out.1 |} in
  model_validate (Shaped
    {| cpl_planId := hash_identity identity; cpl_coreId := cp_coreId p; cpl_homeId := cp_homeId p;
       cpl_homeRevision := ca_homeRevision a; cpl_policyId := cp_policyId p;
       cpl_policyRevision := cp_policyRevision p; cpl_policyHash := hash_policy p;
       cpl_actorAccountId := ca_accountId a; cpl_accountRevision := ca_accountRevision a;
       cpl_sessionFamilyId := ca_sessionFamilyId a; cpl_generatedAtMs := now;
       cpl_inputRevisions := revisions; cpl_occupancyAdvisory := out.2; cpl_items := out.1 |}).
End comfort.

(** ** What a plan rests on *)

Section comfort_theory.
Variable hash_policy : ComfortPolicy -> string.
Variable hash_identity : ComfortIdentity -> string.
Variable resolve_authority : string -> resolved ComfortAuthority.
Variable resolve_policy : string -> resolved ComfortPolicy.
Local Notation plan_of :=
  (comfort_plan hash_policy hash_identity resolve_authority resolve_policy).

Definition comfort_override_ok (now : Z) (p : ComfortPolicy) (a : ComfortAuthority)
    (overrides : list ManualComfortOverride) (active : list (string * ManualComfortOverride)) : Prop :=
  forall k o, dict_get active k = Some o ->
    o ∈ overrides /\ mo_roomId o = k /\ mo_createdAtMs o <= now < mo_expiresAtMs o /\
    mo_actorAccountId o = ca_accountId a /\ mo_policyId o = cp_policyId p.

Lemma take_comfort_overrides_ok now p a overrides active :
  fold_res (take_comfort_override now p a (rooms_of p)) [] overrides = Ok active ->
  comfort_override_ok now p a overrides active.
Proof.
  intros Hf. eapply (fold_res_invariant (comfort_override_ok now p a overrides)), Hf; [|done].
  intros o t t' Ho Ht (scope & Hs & ([] & He%raise_if_ok & ([] & Hc%raise_if_ok & E)%bind_ok)%bind_ok)%bind_ok.
  injection E as <-. passed. injection He as ? ? ? ? ? ?. case_decide; [|done].
  intros k o'. rewrite dict_get_set. case_decide as Hk; [|apply Ht].
  intros E. injection E as <-. split_and!; try done; lia.
Qed.

(** The room loop adds one recommendation per room. *)
Definition recommended (now : Z) (p : ComfortPolicy) (w : OutdoorWeatherSnapshot)
    (climate : list RoomClimateSnapshot) (active : list (string * ManualComfortOverride))
    (room_id : string) (i : ComfortPlanItem) : Prop :=
  exists scope inside, scope ∈ cp_rooms p /\ rs_roomId scope = room_id /\
    inside ∈ climate /\ rc_roomId inside = room_id /\
    i = recommend now p w (dict_get active room_id) scope inside.

Lemma plan_rooms_ok now p w climate occupancies active ids acc out :
  fold_res (plan_room now p w (rooms_of p) (climates_of climate) occupancies active) acc ids = Ok out ->
  exists items, out.1 = acc.1 ++ items /\
    Forall2 (recommended now p w climate active) ids items.
Proof.
  revert acc. induction ids as [|k ids IH]; intros acc; cbn [fold_res].
  - intros E. injection E as <-. exists []. by rewrite app_nil_r.
  - intros (acc' & (scope & Hs%require_some_ok & (inside & Hi%require_some_ok & Hr)%bind_ok)%bind_ok & Hl)%bind_ok.
    apply bind_ok in Hr as (occupied & _ & (item & [E _]%model_validate_ok & E')%bind_ok).
    injection E as <-. injection E' as <-.
    apply IH in Hl as (items & Ho & Hf). cbn [fst] in Ho. eexists (_ :: items).
    rewrite Ho, <- app_assoc. split; [reflexivity|]. constructor; [|exact Hf].
    apply dict_of_get_elem in Hs as (x & ? & ? & <-), Hi as (y & ? & ? & <-).
    by exists x, y.
Qed.

Lemma recommend_room now p w o scope inside : ci_room (recommend now p w o scope inside) = scope.
Proof. unfold recommend. repeat case_decide; try done; destruct (rc_smokeDetected inside), o; try done;
  repeat case_decide; done. Qed.

Lemma recommend_opened now p w o s c :
  (forall x, o = Some x -> ManualComfortOverride_valid x) ->
  let i := recommend now p w o s c in
  ci_windowState i = Opened -> ci_status i = CPlanned /\ ci_hvacMode i = HvacOff /\
    ((ci_reason i = air_refresh /\ needs_air p c /\ ow_raining w = false /\
      ow_airQualityIndex w < cp_outdoorAqiLimit p) \/
     (ci_reason i = manual_override /\ exists x, o = Some x)).
Proof.
  intros Hov. cbv zeta. unfold recommend. case_decide as Hst; [done|].
  destruct (rc_smokeDetected c); [done|]. case_decide; [done|].
  case_decide as Hrain; [done|]. case_decide as Haqi; [done|].
  destruct o as [x|]; cbn.
  - intros Hw. destruct (Hov x eq_refl) as (_ & _ & _ & _ & _ & _ & _ & _ & _ & _ & _ & _ & Hoff).
    split_and!; [done|by apply Hoff|]. right. by split; [|exists x].
  - case_decide as Hair; cbn; [|repeat case_decide; done]. intros _. split_and!; [done..|]. left.
    split_and!; try done; [|apply Znot_ge_lt; intros ?; by apply Haqi].
    destruct (ow_raining w); [|done]. by destruct Hrain.
Qed.

Lemma recommend_planned now p w o s c :
  ci_status (recommend now p w o s c) = CPlanned ->
  ~ indoor_stale now p c /\ ~ stale now (cp_outdoorMaxAgeMs p) (ow_observedAtMs w) /\
  rc_smokeDetected c = false /\ cp_freezeThresholdMilliC p < ow_temperatureMilliC w.
Proof.
  unfold recommend. case_decide as Hst; [done|]. apply neither in Hst as [? ?].
  destruct (rc_smokeDetected c); [done|]. case_decide; [done|]. intros _. split_and!; try done; lia.
Qed.

Lemma recommend_modes now p w o s c :
  let i := recommend now p w o s c in
  ci_reason i <> manual_override ->
  (ci_hvacMode i = Heat -> too_cold p c) /\ (ci_hvacMode i = Cool -> too_warm p c).
Proof.
  cbv zeta. unfold recommend. case_decide; [by split|]. destruct (rc_smokeDetected c); [by split|].
  case_decide; [intros _; cbn; case_decide; by split|].
  repeat (case_decide; [by split|]). destruct o; cbn; [done|]. repeat (case_decide; [by split|]). by split.
Qed.

Lemma comfort_plan_ok ra rp rclimate rweather roccupancy now roverrides pl :
  plan_of ra rp rclimate rweather roccupancy now roverrides = Ok pl ->
  exists a p climate w overrides active,
    rp = Shaped p /\ ComfortPolicy_valid p /\ rclimate = Shaped <$> climate /\
    rweather = Shaped w /\ roverrides = Shaped <$> overrides /\
    Forall ManualComfortOverride_valid overrides /\
    comfort_override_ok now p a overrides active /\
    Forall2 (recommended now p w climate active) (sorted_keys (rooms_of p)) (cpl_items pl).
Proof.
  unfold comfort_plan. intros (a & _ & (p & Hp & Hpl)%bind_ok)%bind_ok.
  apply bind_ok in Hp as (p' & [-> Hv]%except_value_error_ok%model_validate_ok & Hp).
  repeat apply bind_ok in Hp as (? & _ & Hp). injection Hp as ->.
  apply bind_ok in Hpl as ([[[climate w] occupancy] overrides] & Hin%except_value_error_ok & Hpl).
  apply bind_ok in Hin as (cl & [-> _]%model_validate_all_ok & Hin).
  apply bind_ok in Hin as (w' & [-> _]%model_validate_ok & Hin).
  apply bind_ok in Hin as (oc & _ & (ov & [-> Hov]%model_validate_all_ok & (? & _ & E)%bind_ok)%bind_ok).
  injection E as -> -> -> ->.
  do 4 apply bind_ok in Hpl as (? & _ & Hpl).
  apply bind_ok in Hpl as (active & Hact & Hpl). apply bind_ok in Hpl as (out & Hout & Hpl).
  do 4 apply bind_ok in Hpl as (? & _ & Hpl). apply model_validate_ok in Hpl as [E _].
  injection E as <-. apply plan_rooms_ok in Hout as (items & Ho & Hf). cbn [fst app] in Ho.
  exists a, p, climate, w, overrides, active. split_and!; try done; [by eapply take_comfort_overrides_ok|].
  cbn [cpl_items]. by rewrite Ho.
Qed.

(** ** Properties *)

(** A comfort plan has one item per room, in the order of their identities,
    and opens a window only when that is safe.  A window that opens is planned
    with the heating off, on fresh indoor and outdoor readings, without smoke,
    above the freeze limit, and either for fresh air in dry weather with clean
    outdoor air or on the administrator's own current override of that room.
    Nothing is planned on stale readings, in smoke or in frost, and nothing
    heats or cools for its own reasons within the tolerance. *)
Theorem comfort_safety_gates ra rp rclimate rweather roccupancy now roverrides pl :
  plan_of ra rp rclimate rweather roccupancy now roverrides = Ok pl ->
  exists p w, rp = Shaped p /\ rweather = Shaped w /\
    (fun i => rs_roomId (ci_room i)) <$> cpl_items pl = sorted_keys (rooms_of p) /\
    forall i, i ∈ cpl_items pl -> exists c, Shaped c ∈ rclimate /\
      rc_roomId c = rs_roomId (ci_room i) /\ ci_room i ∈ cp_rooms p /\
      (ci_windowState i = Opened -> ci_status i = CPlanned /\ ci_hvacMode i = HvacOff /\
         ((ci_reason i = air_refresh /\ needs_air p c /\ ow_raining w = false /\
           ow_airQualityIndex w < cp_outdoorAqiLimit p) \/
          (ci_reason i = manual_override /\ exists o, Shaped o ∈ roverrides /\
           mo_roomId o = rs_roomId (ci_room i) /\ mo_createdAtMs o <= now < mo_expiresAtMs o))) /\
      (ci_status i = CPlanned -> ~ indoor_stale now p c /\
         ~ stale now (cp_outdoorMaxAgeMs p) (ow_observedAtMs w) /\ rc_smokeDetected c = false /\
         cp_freezeThresholdMilliC p < ow_temperatureMilliC w) /\
      (ci_reason i <> manual_override ->
         (ci_hvacMode i = Heat -> too_cold p c) /\ (ci_hvacMode i = Cool -> too_warm p c)).
Proof.
  intros (a & p & climate & w & overrides & active & -> & Hp & -> & -> & -> & Hov & Hact & Hf)%comfort_plan_ok.
  exists p, w. split_and!; [done|done| |].
  { clear -Hf. induction Hf as [|k i ids items (s & c & _ & <- & _ & _ & ->) _ IH]; [done|].
    rewrite fmap_cons, recommend_room, IH. done. }
  intros i Hi. apply list_elem_of_lookup in Hi as (n & Hn).
  destruct (Forall2_lookup_r _ _ _ _ _ Hf Hn) as (k & _ & s & c & Hs & Hk & Hc & Hck & ->).
  exists c. rewrite recommend_room.
  assert (forall x, dict_get active k = Some x -> Shaped x ∈ Shaped <$> overrides /\
    mo_roomId x = k /\ mo_createdAtMs x <= now < mo_expiresAtMs x /\
    ManualComfortOverride_valid x) as Hx.
  { intros x (Hin & Hr & Ht & _)%Hact. split_and!; try done; try apply Ht; [by apply list_elem_of_fmap_2|].
    by eapply Forall_forall in Hov. }
  split_and!; [by apply list_elem_of_fmap_2|congruence|done| |by apply recommend_planned
    |by apply recommend_modes].
  intros Hw. apply recommend_opened in Hw as (H1 & H2 & [H3|[H3 (x & Ho)]]); [| |intros; by apply Hx].
  - split_and!; [done..|]. by left.
  - split_and!; [done..|]. right. split; [done|]. exists x. destruct (Hx x Ho) as (? & ? & ? & _).
    split_and!; try done; try lia. congruence.
Qed.
End comfort_theory.

(** ** A worked plan *)

Module ComfortExample.
Import EnergyExample.
Definition carer : ComfortAuthority :=
  {| ca_coreId := id32 "a"; ca_homeId := id32 "b"; ca_homeRevision := 1; ca_accountId := id32 "c";
     ca_accountRevision := 1; ca_sessionFamilyId := id32 "d"; ca_role := RoleAdmin;
     ca_active := true; ca_canManageComfort := true |}.
Definition device (k : device_kind) (n : string) : ComfortDevice :=
  {| cd_kind := k; cd_deviceId := id32 n; cd_deviceRevision := 1; cd_serviceId := id32 "e";
     cd_serviceRevision := 1; cd_bindingId := id32 n; cd_bindingRevision := 1 |}.
Definition room : RoomComfortScope :=
  {| rs_coreId := id32 "a"; rs_homeId := id32 "b"; rs_roomId := id32 "1"; rs_roomRevision := 1;
     rs_areaId := id32 "f"; rs_areaRevision := 1; rs_hvac := device KindHvac "2";
     rs_window := device KindWindow "3" |}.
Definition rules : ComfortPolicy :=
  {| cp_coreId := id32 "a"; cp_homeId := id32 "b"; cp_policyId := id32 "7"; cp_policyRevision := 1;
     cp_rooms := [room]; cp_targetTemperatureMilliC := 21000; cp_temperatureToleranceMilliC := 1000;
     cp_humidityHighPermille := 650; cp_co2HighPpm := 1200; cp_vocHighPpb := 500;
     cp_outdoorAqiLimit := 100; cp_freezeThresholdMilliC := 3000; cp_indoorMaxAgeMs := 60000;
     cp_outdoorMaxAgeMs := 60000; cp_occupancyMaxAgeMs := 60000; cp_previewTtlMs := 30000;
     cp_active := true |}.
Definition metric (k : metric_kind) (n : string) (v : Z) : MetricReading :=
  {| me_kind := k; me_sensorId := id32 n; me_sensorRevision := 1; me_readingRevision := 1;
     me_value := v; me_observedAtMs := 1000000 |}.
Definition air (co2 : Z) : raw RoomClimateSnapshot := Shaped
  {| rc_coreId := id32 "a"; rc_homeId := id32 "b"; rc_roomId := id32 "1"; rc_roomRevision := 1;
     rc_snapshotRevision := 1; rc_temperature := metric Temperature_millic "4" 21000;
     rc_humidity := metric Humidity_permille "5" 400; rc_co2 := metric Co2_ppm "6" co2;
     rc_voc := metric Voc_ppb "7" 100; rc_smokeDetected := false; rc_smokeSensorId := id32 "8";
     rc_smokeSensorRevision := 1; rc_smokeReadingRevision := 1; rc_smokeObservedAtMs := 1000000 |}.
Definition outside (rain : bool) (aqi : Z) : raw OutdoorWeatherSnapshot := Shaped
  {| ow_coreId := id32 "a"; ow_homeId := id32 "b"; ow_sourceId := id32 "9"; ow_sourceRevision := 1;
     ow_weatherRevision := 1; ow_temperatureMilliC := 12000; ow_raining := rain;
     ow_airQualityIndex := aqi; ow_observedAtMs := 1000000 |}.
Definition someone : raw OccupancySnapshot := Shaped
  {| oc_coreId := id32 "a"; oc_homeId := id32 "b"; oc_roomId := id32 "1"; oc_roomRevision := 1;
     oc_sourceId := id32 "9"; oc_sourceRevision := 1; oc_occupancyRevision := 1;
     oc_occupied := true; oc_observedAtMs := 1000000 |}.
Definition open_window : raw ManualComfortOverride := Shaped
  {| mo_overrideId := id32 "0"; mo_coreId := id32 "a"; mo_homeId := id32 "b"; mo_policyId := id32 "7";
     mo_expectedPolicyRevision := 1; mo_roomId := id32 "1"; mo_expectedRoomRevision := 1;
     mo_actorAccountId := id32 "c"; mo_hvacMode := HvacOff; mo_windowState := Opened;
     mo_createdAtMs := 1000000; mo_expiresAtMs := 1100000 |}.
Definition plan_at (co2 : Z) (rain : bool) (aqi : Z) (overrides : list (raw ManualComfortOverride)) :=
  comfort_plan (fun _ => id64 "e") (fun _ => id32 "e") (fun _ => Resolved (Shaped carer))
    (fun _ => Resolved (Shaped rules)) (Shaped carer) (Shaped rules) [air co2] (outside rain aqi)
    [someone] 1000500 overrides.
Definition outcome (r : res ComfortPlan) : list (comfort_reason * window_state) :=
  match r with Ok p => (fun i => (ci_reason i, ci_windowState i)) <$> cpl_items p | Raise _ => [] end.
Example stuffy : outcome (plan_at 1400 false 20 []) = [(air_refresh, Opened)].
Proof. vm_compute. reflexivity. Qed.
Example stuffy_and_raining : outcome (plan_at 1400 true 20 [open_window]) = [(rain_window_block, Closed)].
Proof. vm_compute. reflexivity. Qed.
End ComfortExample.

(** The rain and outdoor air gates are only looked at when the room needs
    fresh air: an override opens the window in rain and in the worst outdoor
    air otherwise. *)
Lemma override_opens_to_unsafe_air :
  ComfortExample.outcome (ComfortExample.plan_at 600 true 500 [ComfortExample.open_window])
  = [(manual_override, Opened)].
Proof. vm_compute. reflexivity. Qed.

Lemma comfort_safety_gates_witness :
  exists pl, ComfortExample.plan_at 1400 false 20 [] = Ok pl /\
    (fun i => rs_roomId (ci_room i)) <$> cpl_items pl = [EnergyExample.id32 "1"].
Proof.
  destruct (ComfortExample.plan_at 1400 false 20 []) as [pl|e] eqn:E.
  - exists pl. split; [reflexivity|]. unfold ComfortExample.plan_at in E.
    destruct (comfort_safety_gates _ _ _ _ _ _ _ _ _ _ _ _ E) as (p & w & Hp & _ & Hi & _).
    injection Hp as <-. rewrite Hi. vm_compute. reflexivity.
  - exfalso. vm_compute in E. discriminate.
Defined.
