(* ===== verification/ComfortEffects.v ===== *)
(** * Room comfort: switching heating and moving windows

    [server/larenor_server/room_comfort/effects.py], [audit.py] and the effect
    contracts of [models.py]: a plan is previewed against what the devices
    read back, confirmed once with the preview's token, and every device whose
    state differs from the plan is sent to the worker once, in the order of the
    rooms and, in a room, the heating before the window.

    The records of the audit have the fields and the bounds of the irrigation's
    ([IrrigationAudit]); the errors and the digests are this module's own.  A
    plan's dictionaries are compared without their order and dumped with sorted
    keys, so they are represented by their items sorted by key. *)

From S2P Require Import Prelude Energy Comfort IrrigationAudit IrrigationEffects.

(** ** The audit *)

Definition comfort_capacity (count : Z) (a : IrrigationAudit) : res unit :=
  raise_if (count < 0 \/ Z.of_nat (length (ta_events a)) + count > ta_limit a)
    (ApiError "comfort_audit_limit" 429).

Section comfort_audit.
Variable hash_body : AuditBody -> string.
Variable hmac_state : AuditState -> string.

Definition comfort_append (f : AuditFacts) (a : IrrigationAudit) : res IrrigationAudit :=
  _ ← comfort_capacity 1 a;
  let body := body_of f a in
  e ← model_validate (Shaped {| ie_body := body; ie_entryHash := hash_body body |});
  Ok (push_event e a).

Definition comfort_export (a : IrrigationAudit) : AuditExport :=
  {| ax_chainId := ta_chain a; ax_events := Shaped <$> ta_events a; ax_headHash := ta_head a;
     ax_headTag := tag_ hmac_state a |}.

Definition comfort_restore (r : raw AuditExport) (coreId homeId : string) (maxEvents : Z)
  : res IrrigationAudit :=
  except_value_error
    (x ← match r with Shaped x => Ok x | Malformed => Raise (ValueError "") end;
     _ ← raise_if (~ Identity (ax_chainId x)) (ValueError "");
     events ← model_validate_all (ax_events x);
     _ ← raise_if (Z.of_nat (length events) > maxEvents) (ValueError "");
     a ← audit_new coreId homeId maxEvents (ax_chainId x);
     a ← fold_res (restore_event hash_body) a events;
     _ ← raise_if (ax_headHash x <> ta_head a \/ ax_headTag x <> tag_ hmac_state a) (ValueError "");
     Ok a)
    (StartupError "comfort_audit_invalid").
End comfort_audit.

(** ** Contracts *)

Inductive device_state := SOff | SHeat | SCool | SVentilate | SClosed | SOpen.
#[export] Instance device_state_eq_dec : EqDecision device_state.
Proof. solve_decision. Defined.
Definition hvac_state (m : hvac_mode) : device_state :=
  match m with HvacOff => SOff | Heat => SHeat | Cool => SCool | Ventilate => SVentilate end.
Definition window_position (w : window_state) : device_state :=
  match w with Closed => SClosed | Opened => SOpen end.
(** The states of a kind of device. *)
Definition state_matches (k : device_kind) (s : device_state) : Prop :=
  match k with KindHvac => s <> SOpen /\ s <> SClosed | KindWindow => s = SOpen \/ s = SClosed end.
#[export] Instance state_matches_dec k s : Decision (state_matches k s).
Proof. unfold state_matches. destruct k; apply _. Defined.
#[export] Instance ComfortDevice_valid_dec d : Decision (ComfortDevice_valid d).
Proof. unfold ComfortDevice_valid. solve_dec. Defined.

Record ComfortDeviceReadback := {
  dr_coreId : string;
  dr_homeId : string;
  dr_roomId : string;
  dr_device : ComfortDevice;
  dr_stateRevision : Z;
  dr_state : device_state;
  dr_observedAtMs : Z;
}.
#[export] Instance ComfortDeviceReadback_eq_dec : EqDecision ComfortDeviceReadback.
Proof. solve_decision. Defined.
Definition ComfortDeviceReadback_valid (r : ComfortDeviceReadback) : Prop :=
  Identity (dr_coreId r) /\ Identity (dr_homeId r) /\ Identity (dr_roomId r) /\
  ComfortDevice_valid (dr_device r) /\ Revision (dr_stateRevision r) /\
  TimestampMs (dr_observedAtMs r) /\ state_matches (cd_kind (dr_device r)) (dr_state r).
#[export] Instance ComfortDeviceReadback_valid_dec r : Decision (ComfortDeviceReadback_valid r).
Proof. unfold ComfortDeviceReadback_valid. solve_dec. Defined.
#[export] Instance ComfortDeviceReadback_model : Model ComfortDeviceReadback :=
  {| model_valid := ComfortDeviceReadback_valid |}.

Record ComfortWorkerCommand := {
  cw_commandId : string;
  cw_requestId : string;
  cw_planId : string;
  cw_policyRevision : Z;
  cw_actorAccountId : string;
  cw_roomId : string;
  cw_targetKind : device_kind;
  cw_device : ComfortDevice;
  cw_expectedStateRevision : Z;
  cw_desiredState : device_state;
}.
Definition ComfortWorkerCommand_valid (c : ComfortWorkerCommand) : Prop :=
  Identity (cw_commandId c) /\ Identity (cw_requestId c) /\ Identity (cw_planId c) /\
  Revision (cw_policyRevision c) /\ Identity (cw_actorAccountId c) /\ Identity (cw_roomId c) /\
  ComfortDevice_valid (cw_device c) /\ Revision (cw_expectedStateRevision c).
#[export] Instance ComfortWorkerCommand_valid_dec c : Decision (ComfortWorkerCommand_valid c).
Proof. unfold ComfortWorkerCommand_valid. solve_dec. Defined.
#[export] Instance ComfortWorkerCommand_model : Model ComfortWorkerCommand :=
  {| model_valid := ComfortWorkerCommand_valid |}.

Record WorkerComfortReadback := {
  wb_commandId : string;
  wb_roomId : string;
  wb_device : ComfortDevice;
  wb_stateRevision : Z;
  wb_state : device_state;
  wb_observedAtMs : Z;
}.
#[export] Instance WorkerComfortReadback_eq_dec : EqDecision WorkerComfortReadback.
Proof. solve_decision. Defined.
Definition WorkerComfortReadback_valid (r : WorkerComfortReadback) : Prop :=
  Identity (wb_commandId r) /\ Identity (wb_roomId r) /\ ComfortDevice_valid (wb_device r) /\
  Revision (wb_stateRevision r) /\ TimestampMs (wb_observedAtMs r).
#[export] Instance WorkerComfortReadback_valid_dec r : Decision (WorkerComfortReadback_valid r).
Proof. unfold WorkerComfortReadback_valid. solve_dec. Defined.
#[export] Instance WorkerComfortReadback_model : Model WorkerComfortReadback :=
  {| model_valid := WorkerComfortReadback_valid |}.

Record ComfortPreview := {
  cv_previewId : string;
  cv_confirmToken : string;
  cv_requestId : string;
  cv_planId : string;
  cv_expiresAtMs : Z;
  cv_commandCount : Z;
}.
Definition ComfortPreview_valid (p : ComfortPreview) : Prop :=
  Identity (cv_previewId p) /\ confirm_token (cv_confirmToken p) /\ Identity (cv_requestId p) /\
  Identity (cv_planId p) /\ TimestampMs (cv_expiresAtMs p) /\ 1 <= cv_commandCount p <= 64.
#[export] Instance ComfortPreview_valid_dec p : Decision (ComfortPreview_valid p).
Proof. unfold ComfortPreview_valid. solve_dec. Defined.
#[export] Instance ComfortPreview_model : Model ComfortPreview := {| model_valid := ComfortPreview_valid |}.

Inductive comfort_code := CoApplied | readback_mismatch | comfort_ack_unknown.
#[export] Instance comfort_code_eq_dec : EqDecision comfort_code.
Proof. solve_decision. Defined.
Record ComfortCommandResult := {
  cs_commandId : string;
  cs_roomId : string;
  cs_targetKind : device_kind;
  cs_status : result_status;
  cs_code : comfort_code;
  cs_readback : option WorkerComfortReadback;
}.
#[export] Instance ComfortCommandResult_eq_dec : EqDecision ComfortCommandResult.
Proof. solve_decision. Defined.
Definition ComfortCommandResult_valid (r : ComfortCommandResult) : Prop :=
  Identity (cs_commandId r) /\ Identity (cs_roomId r) /\
  match cs_readback r with Some b => WorkerComfortReadback_valid b | None => True end.
#[export] Instance ComfortCommandResult_valid_dec r : Decision (ComfortCommandResult_valid r).
Proof. unfold ComfortCommandResult_valid. solve_dec. Defined.
#[export] Instance ComfortCommandResult_model : Model ComfortCommandResult :=
  {| model_valid := ComfortCommandResult_valid |}.

Record ComfortReceipt := {
  ct_requestId : string;
  ct_planId : string;
  ct_status : receipt_status;
  ct_results : list ComfortCommandResult;
  ct_completedAtMs : Z;
}.
#[export] Instance ComfortReceipt_eq_dec : EqDecision ComfortReceipt.
Proof. solve_decision. Defined.
Definition ComfortReceipt_valid (r : ComfortReceipt) : Prop :=
  Identity (ct_requestId r) /\ Identity (ct_planId r) /\
  (1 <= length (ct_results r) <= 64)%nat /\ Forall ComfortCommandResult_valid (ct_results r) /\
  TimestampMs (ct_completedAtMs r).
#[export] Instance ComfortReceipt_valid_dec r : Decision (ComfortReceipt_valid r).
Proof. unfold ComfortReceipt_valid. solve_dec. Defined.
#[export] Instance ComfortReceipt_model : Model ComfortReceipt := {| model_valid := ComfortReceipt_valid |}.

#[export] Instance ComfortPlanItem_eq_dec : EqDecision ComfortPlanItem.
Proof. solve_decision. Defined.
#[export] Instance ComfortInputRevisions_eq_dec : EqDecision ComfortInputRevisions.
Proof. solve_decision. Defined.
#[export] Instance occupancy_advice_eq_dec : EqDecision occupancy_advice.
Proof. solve_decision. Defined.
#[export] Instance ComfortPlan_eq_dec : EqDecision ComfortPlan.
Proof. solve_decision. Defined.

(** ** The devices to change *)

(** The key of a device: its room and its kind, "hvac" before "window". *)
Definition device_key : Type := string * device_kind.
Definition device_key_le (a b : device_key) : Prop :=
  if decide (a.1 = b.1) then (match a.2, b.2 with KindWindow, KindHvac => False | _, _ => True end)
  else str_le a.1 b.1.
#[export] Instance device_key_le_dec a b : Decision (device_key_le a b).
Proof. unfold device_key_le. case_decide; [destruct a.2, b.2|]; apply _. Defined.

Definition desired_of (plan : ComfortPlan) : list (device_key * (ComfortDevice * device_state)) :=
  dict_of fst snd (cpl_items plan ≫= fun i =>
    [((rs_roomId (ci_room i), KindHvac), (rs_hvac (ci_room i), hvac_state (ci_hvacMode i)));
     ((rs_roomId (ci_room i), KindWindow), (rs_window (ci_room i), window_position (ci_windowState i)))]).
Definition seen_of (readbacks : list ComfortDeviceReadback) : list (device_key * ComfortDeviceReadback) :=
  dict_of (fun r => (dr_roomId r, cd_kind (dr_device r))) id readbacks.

(** [set(a) == set(b)] *)
Definition same_devices {A B} (a : list (device_key * A)) (b : list (device_key * B)) : Prop :=
  Forall (fun k => k ∈ dict_keys b) (dict_keys a) /\ Forall (fun k => k ∈ dict_keys a) (dict_keys b).
#[export] Instance same_devices_dec {A B} (a : list (device_key * A)) (b : list (device_key * B)) :
  Decision (same_devices a b).
Proof. unfold same_devices. apply _. Defined.

(** An element of [_commands]. *)
Definition device_change : Type := device_key * (ComfortDevice * device_state) * ComfortDeviceReadback.

(** [[(key, desired[key], observed[key]) for key in sorted(desired) if ...]] *)
Definition changes (desired : list (device_key * (ComfortDevice * device_state)))
    (observed : list (device_key * ComfortDeviceReadback)) : list device_change :=
  omap (fun k => d ← dict_get desired k; o ← dict_get observed k;
                 if decide (d.2 <> dr_state o) then Some (k, d, o) else None)
    (py_sorted device_key_le (dict_keys desired)).

Definition conflict : exn := ApiError "revision_conflict" 409.
Definition check_device (plan : ComfortPlan) (desired : list (device_key * (ComfortDevice * device_state)))
    (x : device_key * ComfortDeviceReadback) : res unit :=
  d ← require_some (dict_get desired x.1) KeyError;
  raise_if ((dr_coreId x.2, dr_homeId x.2, dr_roomId x.2, dr_device x.2)
            <> (cpl_coreId plan, cpl_homeId plan, x.1.1, d.1)) conflict.
(** [_commands] *)
Definition comfort_commands (plan : ComfortPlan) (readbacks : list ComfortDeviceReadback)
  : res (list device_change) :=
  let desired := desired_of plan in
  let observed := seen_of readbacks in
  _ ← raise_if (length observed <> length readbacks \/ ~ same_devices observed desired) conflict;
  _ ← for_each (check_device plan desired) observed;
  Ok (changes desired observed).

(** ** The coordinator *)

(** [_StoredPreview] *)
Record ComfortStored := {
  so_authority : ComfortAuthority;
  so_plan : ComfortPlan;
  so_readbacks : list ComfortDeviceReadback;
  so_request_id : string;
  so_token : string;
  so_expires_at : Z;
}.

Record ComfortCoordinator := {
  cc_previews : list (string * ComfortStored);
  cc_request_previews : list (string * string);
  cc_receipts : list (string * ComfortReceipt);
  cc_audit : IrrigationAudit;
  cc_sent : list ComfortWorkerCommand;
}.
Definition comfort_set_audit (a : IrrigationAudit) (m : ComfortCoordinator) : ComfortCoordinator :=
  {| cc_previews := cc_previews m; cc_request_previews := cc_request_previews m;
     cc_receipts := cc_receipts m; cc_audit := a; cc_sent := cc_sent m |}.
Definition comfort_store (id : string) (s : ComfortStored) (m : ComfortCoordinator) : ComfortCoordinator :=
  {| cc_previews := dict_set (cc_previews m) id s;
     cc_request_previews := dict_set (cc_request_previews m) (so_request_id s) id;
     cc_receipts := cc_receipts m; cc_audit := cc_audit m; cc_sent := cc_sent m |}.
Definition comfort_finish (r : ComfortReceipt) (m : ComfortCoordinator) : ComfortCoordinator :=
  {| cc_previews := cc_previews m; cc_request_previews := cc_request_previews m;
     cc_receipts := dict_set (cc_receipts m) (ct_requestId r) r; cc_audit := cc_audit m;
     cc_sent := cc_sent m |}.
Definition comfort_send (c : ComfortWorkerCommand) (m : ComfortCoordinator) : ComfortCoordinator :=
  {| cc_previews := cc_previews m; cc_request_previews := cc_request_previews m;
     cc_receipts := cc_receipts m; cc_audit := cc_audit m; cc_sent := cc_sent m ++ [c] |}.

(** What the resolvers, the worker, the clock and [secrets] answer during one
    call. *)
Record ComfortEnv := {
  ce_authority : string -> resolved ComfortAuthority;
  ce_policy : string -> resolved ComfortPolicy;
  ce_plan : string -> resolved ComfortPlan;
  ce_worker : ComfortWorkerCommand -> resolved WorkerComfortReadback;
  ce_now : Z;
  ce_preview_id : string;
  ce_token : string;
}.

Section comfort_coordinator.
Variable hash_policy : ComfortPolicy -> string.
Variable hash_plan : ComfortPlan -> string.
Variable hash_receipt : ComfortReceipt -> string.
(** [hashlib.sha256(text.encode("ascii")).hexdigest()[:32]] *)
Variable hash_command : string -> string.
Variable hash_body : AuditBody -> string.
Variable limit : Z.

(** [_live] *)
Definition comfort_live (e : ComfortEnv) (ra : raw ComfortAuthority) (rp : raw ComfortPlan)
  : res (ComfortAuthority * ComfortPlan * ComfortPolicy) :=
  '(authority, plan) ← except_value_error (a ← model_validate ra; p ← model_validate rp; Ok (a, p))
                         (ApiError "invalid_request" 400);
  '(current_authority, policy, stored_plan) ← except_any
    (a ← validate_resolved (ce_authority e (ca_accountId authority));
     p ← validate_resolved (ce_policy e (cpl_policyId plan));
     q ← validate_resolved (ce_plan e (cpl_planId plan));
     Ok (a, p, q)) (ApiError "forbidden" 403);
  _ ← raise_if (current_authority <> authority \/ stored_plan <> plan) conflict;
  _ ← raise_if (ca_active authority = false \/ ca_role authority <> RoleAdmin \/
                ca_canManageComfort authority = false) (ApiError "forbidden" 403);
  _ ← raise_if ((cpl_coreId plan, cpl_homeId plan, cpl_homeRevision plan, cpl_actorAccountId plan,
                 cpl_accountRevision plan, cpl_sessionFamilyId plan)
                <> (ca_coreId authority, ca_homeId authority, ca_homeRevision authority,
                    ca_accountId authority, ca_accountRevision authority,
                    ca_sessionFamilyId authority) \/
                hash_policy policy <> cpl_policyHash plan) conflict;
  Ok (authority, plan, policy).

Definition comfort_log (f : AuditFacts) : M ComfortCoordinator unit :=
  m ← get_state;
  a ← lift (comfort_append hash_body f (cc_audit m));
  put_state (comfort_set_audit a m).

(** [preview] *)
Definition comfort_preview (e : ComfortEnv) (ra : raw ComfortAuthority) (rp : raw ComfortPlan)
    (rreadbacks : list (raw ComfortDeviceReadback)) (requestId : string)
  : M ComfortCoordinator ComfortPreview :=
  '(authority, plan, policy) ← lift (comfort_live e ra rp);
  readbacks ← lift (except_value_error
    (l ← model_validate_all rreadbacks;
     _ ← raise_if (~ Identity requestId \/ ce_now e < cpl_generatedAtMs plan \/
                   Exists (fun r => dr_observedAtMs r > ce_now e) l) (ValueError "");
     Ok l) (ApiError "invalid_request" 400));
  commands ← lift (comfort_commands plan readbacks);
  _ ← lift (raise_if (commands = []) (ApiError "invalid_request" 400));
  m ← get_state;
  match dict_get (cc_request_previews m) requestId with
  | Some old_id =>
      old ← lift (require_some (dict_get (cc_previews m) old_id) KeyError);
      _ ← lift (raise_if ((so_authority old, so_plan old, so_readbacks old)
                          <> (authority, plan, readbacks)) (ApiError "idempotency_conflict" 409));
      lift (model_validate (Shaped
        {| cv_previewId := old_id; cv_confirmToken := so_token old; cv_requestId := requestId;
           cv_planId := cpl_planId plan; cv_expiresAtMs := so_expires_at old;
           cv_commandCount := Z.of_nat (length commands) |}))
  | None =>
      _ ← lift (raise_if (Z.of_nat (length (cc_previews m)) >= limit) (ApiError "invalid_request" 429));
      let stored := {| so_authority := authority; so_plan := plan; so_readbacks := readbacks;
                       so_request_id := requestId; so_token := ce_token e;
                       so_expires_at := ce_now e + cp_previewTtlMs policy |} in
      _ ← comfort_log {| af_kind := KindPreview; af_policyId := cpl_policyId plan;
             af_policyRevision := cpl_policyRevision plan; af_actorAccountId := ca_accountId authority;
             af_requestId := requestId; af_status := "accepted"; af_payloadHash := hash_plan plan;
             af_atMs := ce_now e |};
      _ ← modify (comfort_store (ce_preview_id e) stored);
      lift (model_validate (Shaped
        {| cv_previewId := ce_preview_id e; cv_confirmToken := ce_token e; cv_requestId := requestId;
           cv_planId := cpl_planId plan; cv_expiresAtMs := so_expires_at stored;
           cv_commandCount := Z.of_nat (length commands) |}))
  end.

Definition change_command (stored : ComfortStored) (plan : ComfortPlan) (account : string)
    (x : device_change) : ComfortWorkerCommand :=
  let '((room_id, kind), (device, desired_state), before) := x in
  {| cw_commandId := hash_command (so_request_id stored +:+ room_id +:+
                       (match kind with KindHvac => "hvac" | KindWindow => "window" end) +:+ cpl_planId plan);
     cw_requestId := so_request_id stored; cw_planId := cpl_planId plan;
     cw_policyRevision := cpl_policyRevision plan; cw_actorAccountId := account; cw_roomId := room_id;
     cw_targetKind := kind; cw_device := device; cw_expectedStateRevision := dr_stateRevision before;
     cw_desiredState := desired_state |}.

(** The result of a command, given the worker's answer. *)
Definition change_result (c : ComfortWorkerCommand) (before : ComfortDeviceReadback)
    (answer : resolved WorkerComfortReadback) : ComfortCommandResult :=
  let make status code readback :=
    {| cs_commandId := cw_commandId c; cs_roomId := cw_roomId c; cs_targetKind := cw_targetKind c;
       cs_status := status; cs_code := code; cs_readback := readback |} in
  match answer with
  | ResolverRaised _ => make StUnknown comfort_ack_unknown None
  | _ =>
      match validate_resolved answer with
      | Raise _ => make StFailed readback_mismatch None
      | Ok value =>
          if decide (wb_commandId value = cw_commandId c /\ wb_roomId value = cw_roomId c /\
                     wb_device value = cw_device c /\ wb_stateRevision value > dr_stateRevision before /\
                     wb_state value = cw_desiredState c /\ wb_observedAtMs value >= dr_observedAtMs before)
          then make StApplied CoApplied (Some value)
          else make StFailed readback_mismatch (Some value)
      end
  end.

(** The loop over the commands. *)
Fixpoint run_changes (e : ComfortEnv) (stored : ComfortStored) (plan : ComfortPlan) (account : string)
    (l : list device_change) : M ComfortCoordinator (list ComfortCommandResult) :=
  match l with
  | [] => mret []
  | x :: l' =>
      command ← lift (model_validate (Shaped (change_command stored plan account x)));
      _ ← modify (comfort_send command);
      r ← lift (model_validate (Shaped (change_result command x.2 (ce_worker e command))));
      rs ← run_changes e stored plan account l';
      mret (r :: rs)
  end.

(** [confirm]; [confirmToken] is ASCII. *)
Definition comfort_confirm (e : ComfortEnv) (ra : raw ComfortAuthority) (previewId confirmToken : string)
  : M ComfortCoordinator ComfortReceipt :=
  m ← get_state;
  stored ← lift (require_some (dict_get (cc_previews m) previewId) (ApiError "invalid_request" 400));
  _ ← lift (raise_if (so_token stored <> confirmToken) (ApiError "invalid_request" 400));
  '(authority, plan, _) ← lift (comfort_live e ra (Shaped (so_plan stored)));
  match dict_get (cc_receipts m) (so_request_id stored) with
  | Some old => mret old
  | None =>
      _ ← lift (raise_if (ce_now e < cpl_generatedAtMs plan \/ ce_now e > so_expires_at stored)
                  (ApiError "invalid_request" 400));
      commands ← lift (comfort_commands plan (so_readbacks stored));
      _ ← lift (comfort_capacity 1 (cc_audit m));
      results ← run_changes e stored plan (ca_accountId authority) commands;
      status ← lift (overall_status (cs_status <$> results));
      receipt ← lift (model_validate (Shaped
        {| ct_requestId := so_request_id stored; ct_planId := cpl_planId plan; ct_status := status;
           ct_results := results; ct_completedAtMs := ce_now e |}));
      _ ← comfort_log {| af_kind := KindResult; af_policyId := cpl_policyId plan;
             af_policyRevision := cpl_policyRevision plan; af_actorAccountId := ca_accountId authority;
             af_requestId := so_request_id stored; af_status := status_name status;
             af_payloadHash := hash_receipt receipt; af_atMs := ce_now e |};
      _ ← modify (comfort_finish receipt);
      mret receipt
  end.
End comfort_coordinator.

(** ** The audit is the irrigation's but for its errors *)

Lemma comfort_append_same hash_body f a a' :
  comfort_append hash_body f a = Ok a' <-> audit_append hash_body f a = Ok a'.
Proof.
  unfold comfort_append, audit_append.
  split; intros (v & Hc & Ha)%bind_ok; apply bind_ok; exists v; (split; [|exact Ha]);
    apply raise_if_ok in Hc; by apply raise_if_ok.
Qed.

Lemma comfort_restore_same hash_body hmac_state r core home limit a :
  comfort_restore hash_body hmac_state r core home limit = Ok a <->
  audit_restore hash_body hmac_state r core home limit = Ok a.
Proof. unfold comfort_restore, audit_restore. by rewrite !except_value_error_ok. Qed.

(** ** The devices that change *)

#[export] Instance device_key_le_total : Total device_key_le.
Proof.
  intros [r k] [r' k']. unfold device_key_le. cbn.
  destruct (decide (r = r')) as [->|Hne].
  - rewrite decide_True by done. destruct k, k'; auto.
  - rewrite decide_False by congruence. apply (total str_le).
Qed.
#[export] Instance device_key_le_trans : Transitive device_key_le.
Proof.
  intros [r1 k1] [r2 k2] [r3 k3]. unfold device_key_le. cbn. repeat case_decide; subst; try done.
  - destruct k1, k2, k3; done.
  - intros H12 H23. destruct (str_le_antisym r3 r2) as []; done.
  - by etrans.
Qed.

Lemma omap_keys {A B} (f : A -> option B) (g : B -> A) l :
  (forall a b, f a = Some b -> g b = a) -> g <$> omap f l `sublist_of` l.
Proof.
  intros Hg. induction l as [|a l IH]; [done|]. cbn [omap list_omap].
  destruct (f a) as [b|] eqn:Hb; [|by apply sublist_cons].
  cbn. rewrite (Hg a b Hb). by apply sublist_skip.
Qed.

Lemma sublist_sorted {A} (R : A -> A -> Prop) (l k : list A) :
  l `sublist_of` k -> StronglySorted R k -> StronglySorted R l.
Proof.
  induction 1 as [|x l k Hs IH|x l k Hs IH]; intros Hk; [done| |].
  - apply StronglySorted_inv in Hk as [Hk Hx]. constructor; [by apply IH|].
    eapply Forall_forall. intros y Hy. eapply Forall_forall in Hx; [exact Hx|]. by eapply elem_of_sublist.
  - apply StronglySorted_inv in Hk as [Hk _]. by apply IH.
Qed.

Lemma changes_keys desired observed :
  (fun x : device_change => x.1.1) <$> changes desired observed
    `sublist_of` py_sorted device_key_le (dict_keys desired).
Proof.
  apply omap_keys. intros k x Hx. apply bind_Some in Hx as (d & _ & Hx).
  apply bind_Some in Hx as (o & _ & Hx). case_decide; [|done]. by injection Hx as <-.
Qed.

Lemma changes_sorted desired observed :
  StronglySorted device_key_le ((fun x : device_change => x.1.1) <$> changes desired observed).
Proof.
  eapply sublist_sorted; [apply changes_keys|]. apply py_sorted_strong; apply _.
Qed.

Lemma changes_nodup desired observed :
  NoDup (dict_keys desired) -> NoDup ((fun x : device_change => x.1.1) <$> changes desired observed).
Proof.
  intros Hd. eapply sublist_NoDup; [|apply changes_keys]. by rewrite py_sorted_perm.
Qed.

Lemma changes_elem desired observed k d o :
  (k, d, o) ∈ changes desired observed <->
  dict_get desired k = Some d /\ dict_get observed k = Some o /\ d.2 <> dr_state o.
Proof.
  unfold changes. rewrite list_elem_of_omap. split.
  - intros (k' & _ & Hx). apply bind_Some in Hx as (d' & Hd & Hx).
    apply bind_Some in Hx as (o' & Ho & Hx). case_decide; [|done]. injection Hx as -> -> ->. done.
  - intros (Hd & Ho & Hne). exists k. split.
    + rewrite py_sorted_elem. apply dict_get_elem in Hd. by apply (list_elem_of_fmap_2 fst) in Hd.
    + rewrite Hd. cbn. rewrite Ho. cbn. by rewrite decide_True.
Qed.

(** What a plan asks of a device. *)
Definition asks (plan : ComfortPlan) (k : device_key) (d : ComfortDevice) (s : device_state) : Prop :=
  exists i, i ∈ cpl_items plan /\ rs_roomId (ci_room i) = k.1 /\
    match k.2 with
    | KindHvac => d = rs_hvac (ci_room i) /\ s = hvac_state (ci_hvacMode i)
    | KindWindow => d = rs_window (ci_room i) /\ s = window_position (ci_windowState i)
    end.

Lemma desired_asks plan k d : dict_get (desired_of plan) k = Some d -> asks plan k d.1 d.2.
Proof.
  intros (x & Hx & <- & <-)%dict_of_get_elem. apply list_elem_of_bind in Hx as (i & Hx & Hi).
  exists i. apply elem_of_cons in Hx as [->|Hx]; [done|].
  apply list_elem_of_singleton in Hx as ->. done.
Qed.

(** [len({f(x): ...}) == len(l)]: the keys are distinct. *)
Lemma dict_of_full {A K V} `{EqDecision K} (f : A -> K) (g : A -> V) (l : list A) :
  length (dict_of f g l) = length l -> NoDup (f <$> l).
Proof.
  intros Hl. eapply NoDup_Permutation_proper; [|apply (dict_of_nodup f g l)].
  symmetry. apply submseteq_length_Permutation.
  - apply NoDup_submseteq; [apply dict_of_nodup|]. intros k Hk. by apply dict_of_keys in Hk.
  - unfold dict_keys. rewrite !length_fmap. lia.
Qed.

Lemma changes_length plan observed :
  ComfortPlan_valid plan -> (length (changes (desired_of plan) observed) <= 64)%nat.
Proof.
  intros Hp. pose proof (sublist_length _ _ (changes_keys (desired_of plan) observed)) as Hl.
  rewrite length_fmap, py_sorted_length in Hl. unfold dict_keys in Hl. rewrite length_fmap in Hl.
  etrans; [exact Hl|]. etrans; [apply dict_of_length|].
  destruct Hp as (_ & _ & _ & _ & _ & _ & _ & _ & _ & _ & _ & _ & _ & [_ Hn] & _).
  clear Hl. revert Hn. generalize (cpl_items plan). intros l Hn.
  enough (forall l : list ComfortPlanItem, length (l ≫= fun i =>
    [((rs_roomId (ci_room i), KindHvac), (rs_hvac (ci_room i), hvac_state (ci_hvacMode i)));
     ((rs_roomId (ci_room i), KindWindow), (rs_window (ci_room i), window_position (ci_windowState i)))])
    = (2 * length l)%nat) as -> by lia.
  clear. induction l as [|i l IH]; [done|]. rewrite bind_cons, length_app, IH. cbn. lia.
Qed.

(** ** Reachable coordinators *)

Section comfort_effects.
Variable hash_policy : ComfortPolicy -> string.
Variable hash_plan : ComfortPlan -> string.
Variable hash_receipt : ComfortReceipt -> string.
Variable hash_command : string -> string.
Variable hash_body : AuditBody -> string.
Variable limit : Z.
Local Notation live_of := (comfort_live hash_policy).
Local Notation preview_of := (comfort_preview hash_policy hash_plan hash_body limit).
Local Notation confirm_of := (comfort_confirm hash_policy hash_receipt hash_command hash_body).
Local Notation command_of := (change_command hash_command).
Implicit Types m : ComfortCoordinator.

Definition new_comfort (a : IrrigationAudit) : ComfortCoordinator :=
  {| cc_previews := []; cc_request_previews := []; cc_receipts := []; cc_audit := a; cc_sent := [] |}.

(** The clock fits 63 bits. *)
Definition comfort_clock (e : ComfortEnv) : Prop := ce_now e <= 2 ^ 63 - 1.

Inductive comfort_step m : ComfortCoordinator -> Prop :=
  | step_comfort_preview e ra rp readbacks request :
      comfort_clock e -> comfort_step m (preview_of e ra rp readbacks request m).2
  | step_comfort_confirm e ra id token :
      comfort_clock e -> comfort_step m (confirm_of e ra id token m).2.
Definition comfort_reachable m : Prop :=
  exists a, audit_made hash_body a /\ rtc comfort_step (new_comfort a) m.

(** *** What a live call has checked *)

Record comfort_facts (e : ComfortEnv) (ra : raw ComfortAuthority) (rp : raw ComfortPlan)
    (a : ComfortAuthority) (p : ComfortPlan) (pol : ComfortPolicy) : Prop := {
  lc_authority : ra = Shaped a /\ ComfortAuthority_valid a;
  lc_plan : rp = Shaped p /\ ComfortPlan_valid p;
  lc_resolved : ce_authority e (ca_accountId a) = Resolved (Shaped a);
  lc_policy : ce_policy e (cpl_policyId p) = Resolved (Shaped pol) /\ hash_policy pol = cpl_policyHash p;
  lc_current : ce_plan e (cpl_planId p) = Resolved (Shaped p);
  lc_may : ca_active a = true /\ ca_role a = RoleAdmin /\ ca_canManageComfort a = true;
  lc_same : (cpl_coreId p, cpl_homeId p, cpl_homeRevision p, cpl_actorAccountId p,
             cpl_accountRevision p, cpl_sessionFamilyId p)
            = (ca_coreId a, ca_homeId a, ca_homeRevision a, ca_accountId a,
               ca_accountRevision a, ca_sessionFamilyId a);
}.

Lemma comfort_live_ok e ra rp a p pol :
  live_of e ra rp = Ok (a, p, pol) -> comfort_facts e ra rp a p pol.
Proof.
  unfold comfort_live. intros ([a0 p0] & Hv%except_value_error_ok & Hl)%bind_ok.
  apply bind_ok in Hv as (a1 & [-> Ha]%model_validate_ok & (p1 & [-> Hp]%model_validate_ok & E)%bind_ok).
  injection E as -> ->. apply bind_ok in Hl as ([[a2 pol2] q2] & Hc%except_any_ok & Hl).
  apply bind_ok in Hc as (a3 & [Hra _]%validate_resolved_ok & Hc).
  apply bind_ok in Hc as (pol3 & [Hrp _]%validate_resolved_ok & Hc).
  apply bind_ok in Hc as (q3 & [Hrq _]%validate_resolved_ok & E). injection E as -> -> ->.
  apply bind_ok in Hl as ([] & H1%raise_if_ok & (? & H2%raise_if_ok & (? & H3%raise_if_ok & E)%bind_ok)%bind_ok).
  passed. injection E as -> -> ->. subst. split; try done.
  repeat match goal with H : ?b <> false |- _ => apply not_false_is_true in H end. done.
Qed.

Lemma comfort_live_api e ra rp : api_only (live_of e ra rp).
Proof.
  unfold comfort_live, conflict. apply api_only_bind; [|intros [a p] _].
  { apply api_only_except_value. repeat (apply value_only_bind; [auto with closed_errors|intros]).
    auto with closed_errors. }
  apply api_only_bind; [auto with closed_errors|intros [[a1 pol] q] _].
  repeat (apply api_only_bind; [auto with closed_errors|intros]). auto with closed_errors.
Qed.

(** *** The commands *)

Lemma commands_ok plan readbacks l :
  comfort_commands plan readbacks = Ok l -> l = changes (desired_of plan) (seen_of readbacks).
Proof. unfold comfort_commands. intros Hc. apply bind_ok in Hc as (? & _ & (? & _ & E)%bind_ok). by injection E. Qed.

(** What a command says. *)
Lemma commands_elem plan readbacks l x :
  comfort_commands plan readbacks = Ok l -> x ∈ l ->
  asks plan x.1.1 x.1.2.1 x.1.2.2 /\ x.2 ∈ readbacks /\ dr_device x.2 = x.1.2.1 /\
  dr_roomId x.2 = x.1.1.1 /\ x.1.2.2 <> dr_state x.2.
Proof.
  intros Hc Hx. pose proof (commands_ok _ _ _ Hc) as ->. destruct x as [[k d] o].
  apply changes_elem in Hx as (Hd & Ho & Hne). cbn. split; [by apply desired_asks|].
  unfold comfort_commands in Hc. apply bind_ok in Hc as (? & _ & ([] & Hf%for_each_ok & _)%bind_ok).
  pose proof (dict_get_elem _ _ _ Ho) as Hin. eapply Forall_forall in Hf; [|exact Hin].
  apply bind_ok in Hf as (d' & Hd'%require_some_ok & Hs%raise_if_ok). cbn in Hd', Hs.
  rewrite Hd in Hd'. injection Hd' as <-. passed. injection Hs as _ _ Hr Hdev.
  apply dict_of_get_elem in Ho as (r & Hr' & _ & <-). done.
Qed.

Lemma commands_keys plan readbacks l :
  comfort_commands plan readbacks = Ok l ->
  NoDup ((fun x : device_change => x.1.1) <$> l) /\
  StronglySorted device_key_le ((fun x : device_change => x.1.1) <$> l).
Proof.
  intros ->%commands_ok. split; [apply changes_nodup, dict_of_nodup|apply changes_sorted].
Qed.

(** The state a device is known to have. *)
Lemma seen_get plan readbacks l r :
  comfort_commands plan readbacks = Ok l -> r ∈ readbacks ->
  dict_get (seen_of readbacks) (dr_roomId r, cd_kind (dr_device r)) = Some r.
Proof.
  unfold comfort_commands. intros Hc Hr. apply bind_ok in Hc as (? & Hg%raise_if_ok & _). passed.
  by apply (dict_of_get (fun r => (dr_roomId r, cd_kind (dr_device r))) id); [apply (dict_of_full _ id)|].
Qed.

(** The devices to change are all those whose state is not the planned one. *)
Lemma commands_complete plan readbacks l r d :
  comfort_commands plan readbacks = Ok l -> r ∈ readbacks ->
  dict_get (desired_of plan) (dr_roomId r, cd_kind (dr_device r)) = Some d -> d.2 <> dr_state r ->
  ((dr_roomId r, cd_kind (dr_device r)), d, r) ∈ l.
Proof.
  intros Hc Hr Hd Hne. pose proof (seen_get _ _ _ _ Hc Hr). rewrite (commands_ok _ _ _ Hc).
  by apply changes_elem.
Qed.

Record comfort_stored_ok (s : ComfortStored) : Prop := {
  sc_plan : ComfortPlan_valid (so_plan s);
  sc_readbacks : Forall ComfortDeviceReadback_valid (so_readbacks s);
  sc_request : Identity (so_request_id s);
  sc_commands : exists l, comfort_commands (so_plan s) (so_readbacks s) = Ok l /\ l <> [];
}.

Section run.
Hypothesis hash_command_hex : forall s, Identity (hash_command s).

Definition comfort_sent_all (l : list ComfortWorkerCommand) m : ComfortCoordinator :=
  {| cc_previews := cc_previews m; cc_request_previews := cc_request_previews m;
     cc_receipts := cc_receipts m; cc_audit := cc_audit m; cc_sent := cc_sent m ++ l |}.

(** The commands of the changes, each with the state it starts from. *)
Definition orders (s : ComfortStored) (account : string) (l : list device_change)
  : list (ComfortWorkerCommand * ComfortDeviceReadback) :=
  (fun x => (command_of s (so_plan s) account x, x.2)) <$> l.
Definition answers (e : ComfortEnv) (l : list (ComfortWorkerCommand * ComfortDeviceReadback))
  : list ComfortCommandResult := (fun cb => change_result cb.1 cb.2 (ce_worker e cb.1)) <$> l.

Lemma order_valid s account l x :
  comfort_stored_ok s -> Identity account ->
  comfort_commands (so_plan s) (so_readbacks s) = Ok l -> x ∈ l ->
  ComfortWorkerCommand_valid (command_of s (so_plan s) account x).
Proof.
  intros Hs Ha Hl Hx. destruct (commands_elem _ _ _ _ Hl Hx) as (_ & Hr & Hdev & Hroom & _).
  pose proof (sc_readbacks s Hs) as Hrs. eapply Forall_forall in Hrs; [|exact Hr].
  destruct Hrs as (_ & _ & Hroom' & Hdev' & Hrev & _).
  destruct (sc_plan s Hs) as (? & _ & _ & _ & _ & ? & _). pose proof (sc_request s Hs).
  destruct x as [[[room k] [d st]] o]. cbn in *. subst. split_and!; cbn; try done; apply hash_command_hex.
Qed.

Lemma answer_valid c b answer :
  ComfortWorkerCommand_valid c -> ComfortCommandResult_valid (change_result c b answer).
Proof.
  intros (Hid & _ & _ & _ & _ & Hroom & _).
  destruct answer as [e| |r]; [by split_and!|by split_and!|]. unfold change_result.
  destruct (validate_resolved (Resolved r)) as [w|] eqn:E; [|by split_and!].
  apply validate_resolved_ok in E as [_ Hw]. case_decide; by split_and!.
Qed.

Lemma run_changes_ok e s account l m :
  Forall (fun x => ComfortWorkerCommand_valid (command_of s (so_plan s) account x)) l ->
  run_changes hash_command e s (so_plan s) account l m
  = (Ok (answers e (orders s account l)), comfort_sent_all (orders s account l).*1 m).
Proof.
  intros Hl. revert m. induction Hl as [|x l Hx _ IH]; intros m; cbn [run_changes].
  - unfold comfort_sent_all. cbn. rewrite app_nil_r. by destruct m.
  - unfold mbind, M_bind, lift, modify.
    rewrite (@model_validate_valid _ ComfortWorkerCommand_model _ Hx).
    rewrite (@model_validate_valid _ ComfortCommandResult_model _ (answer_valid _ _ _ Hx)), IH.
    unfold mret, M_ret, comfort_sent_all. cbn. by rewrite <- app_assoc.
Qed.

(** *** The invariant *)

Hypothesis hash_receipt_hex : forall r, Snapshot (hash_receipt r).
Hypothesis hash_body_hex : forall b, Snapshot (hash_body b).

Definition order_key (c : ComfortWorkerCommand) : string * device_key :=
  (cw_requestId c, (cw_roomId c, cw_targetKind c)).

(** A command whose answer is recorded in its request's receipt. *)
Definition answered m (c : ComfortWorkerCommand) : Prop :=
  exists rc b answer, dict_get (cc_receipts m) (cw_requestId c) = Some rc /\
    change_result c b answer ∈ ct_results rc.

Record comfort_inv m : Prop := {
  cn_audit : audit_ok hash_body (cc_audit m);
  cn_previews : forall k s, dict_get (cc_previews m) k = Some s -> comfort_stored_ok s;
  cn_unique : NoDup (order_key <$> cc_sent m);
  cn_sent : Forall (answered m) (cc_sent m);
  cn_receipts : forall k rc, dict_get (cc_receipts m) k = Some rc ->
    ct_requestId rc = k /\ overall_status (cs_status <$> ct_results rc) = Ok (ct_status rc);
}.

Lemma new_comfort_inv a : audit_made hash_body a -> comfort_inv (new_comfort a).
Proof. intros Ha%audit_made_ok. split; cbn; try done; constructor. Qed.

Lemma comfort_preview_outcome e ra rp rreadbacks request m r m' :
  comfort_inv m -> preview_of e ra rp rreadbacks request m = (r, m') ->
  m' = m \/
  (exists s a, comfort_stored_ok s /\ audit_ok hash_body a /\
     m' = comfort_store (ce_preview_id e) s (comfort_set_audit a m)).
Proof.
  intros Hm. unfold comfort_preview. rewrite lift_bind.
  destruct (live_of e ra rp) as [[[a p] pol]|] eqn:Hl; [cbv beta iota|intros [= _ <-]; by left].
  apply comfort_live_ok in Hl. rewrite lift_bind.
  destruct (except_value_error _ _) as [l|] eqn:Hv; [cbv beta iota|intros [= _ <-]; by left].
  apply except_value_error_ok, bind_ok in Hv as (l' & [_ Hl']%model_validate_all_ok & Hv).
  apply bind_ok in Hv as ([] & Hg%raise_if_ok & [= ->]). passed. rewrite lift_bind.
  destruct (comfort_commands p l) as [cmds|] eqn:Hc; [cbv beta iota|intros [= _ <-]; by left].
  rewrite lift_bind. destruct (raise_if _ _) as [|] eqn:Hr; [cbv beta iota|intros [= _ <-]; by left].
  apply raise_if_ok in Hr. unfold comfort_log, get_state, put_state, modify, lift, mbind, M_bind.
  destruct (dict_get (cc_request_previews m) request) as [old_id|].
  - destruct (require_some _ _); [|intros [= _ <-]; by left].
    destruct (raise_if _ _); intros [= _ <-]; by left.
  - destruct (raise_if _ _); [|intros [= _ <-]; by left].
    destruct (comfort_append hash_body _ _) as [au|] eqn:Hau; [|intros [= _ <-]; by left].
    intros [= _ <-]. right. eexists _, au. split_and!; [| |reflexivity].
    + split; cbn; [apply Hl|done|done|by exists cmds].
    + apply comfort_append_same, audit_append_ok in Hau as [? _]; [done|apply Hm].
Qed.

Lemma comfort_store_inv id s a m :
  comfort_inv m -> comfort_stored_ok s -> audit_ok hash_body a ->
  comfort_inv (comfort_store id s (comfort_set_audit a m)).
Proof.
  intros [Hau Hp Hu Hs Hr] Hst Ha. split; cbn; try done.
  intros k s'. rewrite dict_get_set. case_decide; [|apply Hp]. intros E. by injection E as <-.
Qed.

(** The first answer to a confirmation. *)
Record comfort_confirmed (e : ComfortEnv) (ra : raw ComfortAuthority) (id token : string)
    (m m' : ComfortCoordinator) (rc : ComfortReceipt) (s : ComfortStored) (a : ComfortAuthority)
    (pol : ComfortPolicy) (l : list device_change) : Prop := {
  cg_preview : dict_get (cc_previews m) id = Some s;
  cg_token : so_token s = token;
  cg_live : comfort_facts e ra (Shaped (so_plan s)) a (so_plan s) pol;
  cg_first : dict_get (cc_receipts m) (so_request_id s) = None;
  cg_time : cpl_generatedAtMs (so_plan s) <= ce_now e <= so_expires_at s;
  cg_commands : comfort_commands (so_plan s) (so_readbacks s) = Ok l;
  cg_receipt : ct_requestId rc = so_request_id s /\ ct_planId rc = cpl_planId (so_plan s) /\
    ct_results rc = answers e (orders s (ca_accountId a) l) /\
    overall_status (cs_status <$> ct_results rc) = Ok (ct_status rc) /\ ct_completedAtMs rc = ce_now e;
  cg_state : exists au, audit_ok hash_body au /\
    m' = comfort_finish rc (comfort_set_audit au (comfort_sent_all (orders s (ca_accountId a) l).*1 m));
}.

Lemma comfort_receipt_valid e s account l st :
  comfort_stored_ok s -> comfort_clock e -> Identity account ->
  comfort_commands (so_plan s) (so_readbacks s) = Ok l -> l <> [] ->
  cpl_generatedAtMs (so_plan s) <= ce_now e ->
  ComfortReceipt_valid
    {| ct_requestId := so_request_id s; ct_planId := cpl_planId (so_plan s); ct_status := st;
       ct_results := answers e (orders s account l); ct_completedAtMs := ce_now e |}.
Proof.
  intros Hs Hnow Ha Hl Hne Hg. pose proof (sc_plan s Hs) as Hp.
  pose proof Hp as (Hid & _ & _ & _ & _ & _ & _ & _ & _ & _ & Ht & _).
  assert (length (answers e (orders s account l)) = length l) as Hlen
    by (unfold answers, orders; by rewrite !length_fmap).
  split_and!; cbn [ct_requestId ct_planId ct_results ct_completedAtMs]; try done.
  - apply Hs.
  - rewrite Hlen. destruct l; [done|cbn; lia].
  - rewrite Hlen, (commands_ok _ _ _ Hl). by apply changes_length.
  - unfold answers, orders. rewrite <- list_fmap_compose. apply Forall_fmap, Forall_forall. intros x Hx.
    cbn. apply answer_valid. by eapply order_valid.
  - unfold TimestampMs, comfort_clock in *. lia.
Qed.

Lemma comfort_confirm_first e ra id token m s a pol :
  comfort_inv m -> comfort_clock e ->
  dict_get (cc_previews m) id = Some s -> so_token s = token ->
  live_of e ra (Shaped (so_plan s)) = Ok (a, so_plan s, pol) ->
  dict_get (cc_receipts m) (so_request_id s) = None ->
  cpl_generatedAtMs (so_plan s) <= ce_now e <= so_expires_at s ->
  comfort_capacity 1 (cc_audit m) = Ok tt ->
  exists rc m' l, confirm_of e ra id token m = (Ok rc, m') /\
    comfort_confirmed e ra id token m m' rc s a pol l.
Proof.
  intros Hm He Hs Ht Hl Hrc Htime Hcap. pose proof (comfort_live_ok _ _ _ _ _ _ Hl) as Hlf.
  destruct (lc_authority _ _ _ _ _ _ Hlf) as [_ Hav].
  assert (Identity (ca_accountId a)) as Hacc by (apply Hav).
  pose proof (cn_previews m Hm _ _ Hs) as Hok. destruct (sc_commands s Hok) as (l & Hcmd & Hne).
  destruct (overall_status_total (cs_status <$> answers e (orders s (ca_accountId a) l))) as [st Hst].
  { unfold answers, orders. by destruct l. }
  pose proof (comfort_receipt_valid e s (ca_accountId a) l st Hok He Hacc Hcmd Hne (proj1 Htime)) as Hrv.
  set (rc := {| ct_requestId := _ |}) in Hrv.
  pose proof (cn_audit m Hm) as Hau.
  destruct (audit_append_total hash_body {| af_kind := KindResult;
      af_policyId := cpl_policyId (so_plan s); af_policyRevision := cpl_policyRevision (so_plan s);
      af_actorAccountId := ca_accountId a; af_requestId := so_request_id s;
      af_status := status_name st; af_payloadHash := hash_receipt rc; af_atMs := ce_now e |}
    (cc_audit m) hash_body_hex Hau) as [au Hap].
  { destruct (sc_plan s Hok) as (_ & _ & _ & _ & ? & ? & _). destruct Hrv as (? & _ & _ & _ & ?).
    split_and!; cbn; try done. apply status_name_text. }
  { unfold comfort_capacity in Hcap. apply raise_if_ok in Hcap. lia. }
  exists rc, (comfort_finish rc (comfort_set_audit au (comfort_sent_all (orders s (ca_accountId a) l).*1 m))), l.
  split.
  2:{ split; try done. exists au. split; [|done]. by apply audit_append_ok in Hap as [? _]. }
  apply comfort_append_same in Hap.
  unfold comfort_confirm, comfort_log, get_state, put_state, modify, lift, mret, M_ret, mbind, M_bind.
  rewrite Hs. cbn [require_some]. rewrite raise_if_no by (intros Hn; by apply Hn).
  rewrite Hl, Hrc, raise_if_no by lia. rewrite Hcmd, Hcap.
  rewrite run_changes_ok.
  2:{ apply Forall_forall. intros x Hx. by eapply order_valid. }
  rewrite Hst. match goal with |- context [model_validate (Shaped ?x)] => change x with rc end.
  rewrite (@model_validate_valid _ ComfortReceipt_model _ Hrv). cbn [comfort_sent_all cc_audit].
  by rewrite Hap.
Qed.

Lemma comfort_confirm_outcome e ra id token m r m' :
  comfort_inv m -> comfort_clock e -> confirm_of e ra id token m = (r, m') ->
  (m' = m /\ (exists c st, r = Raise (ApiError c st))) \/
  (m' = m /\ exists s rc a pol, dict_get (cc_previews m) id = Some s /\ so_token s = token /\
     comfort_facts e ra (Shaped (so_plan s)) a (so_plan s) pol /\
     dict_get (cc_receipts m) (so_request_id s) = Some rc /\ r = Ok rc) \/
  (exists rc s a pol l, r = Ok rc /\ comfort_confirmed e ra id token m m' rc s a pol l).
Proof.
  intros Hm He Hc. pose proof Hc as Hc'.
  unfold comfort_confirm in Hc'. unfold get_state, mbind at 1, M_bind at 1 in Hc'. rewrite lift_bind in Hc'.
  destruct (dict_get (cc_previews m) id) as [s|] eqn:Hs; cbn [require_some] in Hc';
    [cbv beta iota in Hc'|left; naive_solver].
  rewrite lift_bind in Hc'. destruct (decide (so_token s = token)) as [Ht|Ht].
  2:{ rewrite raise_if_yes in Hc' by done. left; naive_solver. }
  rewrite raise_if_no in Hc' by (intros Hn; by apply Hn). cbv beta iota in Hc'. rewrite lift_bind in Hc'.
  destruct (live_of e ra (Shaped (so_plan s))) as [[[a p] pol]|x] eqn:Hl.
  2:{ left. destruct (comfort_live_api e ra (Shaped (so_plan s)) x Hl) as (c & st & ->). naive_solver. }
  assert (p = so_plan s) as -> by (apply comfort_live_ok in Hl as [_ [E _]]; by injection E).
  cbv beta iota in Hc'. pose proof (cn_previews m Hm _ _ Hs) as Hok.
  destruct (dict_get (cc_receipts m) (so_request_id s)) as [rc|] eqn:Hrc.
  { right; left. injection Hc' as <- <-. split; [done|].
    exists s, rc, a, pol. by split_and!; [| |eapply comfort_live_ok| |]. }
  rewrite lift_bind in Hc'.
  destruct (decide (ce_now e < cpl_generatedAtMs (so_plan s) \/ ce_now e > so_expires_at s)) as [Hn|Hn].
  { left. rewrite raise_if_yes in Hc' by done. naive_solver. }
  rewrite raise_if_no in Hc' by done. cbv beta iota in Hc'. rewrite lift_bind in Hc'.
  destruct (sc_commands s Hok) as (l & Hcmd & _). rewrite Hcmd in Hc'. cbv beta iota in Hc'.
  rewrite lift_bind in Hc'. destruct (comfort_capacity 1 (cc_audit m)) as [[]|x] eqn:Hcap.
  - right; right.
    destruct (comfort_confirm_first e ra id token m s a pol Hm He Hs Ht Hl Hrc ltac:(lia) Hcap)
      as (rc & m1 & l' & E & Hcf).
    rewrite E in Hc. injection Hc as <- <-. by exists rc, s, a, pol, l'.
  - left. apply raise_if_raise in Hcap as [_ <-]. naive_solver.
Qed.

Lemma comfort_answered_later m c rc au sent :
  dict_get (cc_receipts m) (ct_requestId rc) = None -> answered m c ->
  answered (comfort_finish rc (comfort_set_audit au (comfort_sent_all sent m))) c.
Proof.
  intros Hn (rc' & b & ans & Hg & Hr). exists rc', b, ans. split; [|done]. cbn.
  rewrite dict_get_set, decide_False; [done|]. intros E. rewrite E in Hn. congruence.
Qed.

Lemma order_keys s account l :
  order_key <$> (orders s account l).*1 = (fun x : device_change => (so_request_id s, x.1.1)) <$> l.
Proof.
  unfold orders. rewrite <- !list_fmap_compose. apply list_fmap_ext. intros i [[[room k] [d st]] o] _. done.
Qed.

Lemma order_request s account l c : c ∈ (orders s account l).*1 -> cw_requestId c = so_request_id s.
Proof.
  unfold orders. rewrite <- list_fmap_compose. intros (x & -> & _)%list_elem_of_fmap.
  by destruct x as [[[room k] [d st]] o].
Qed.

Lemma comfort_confirmed_inv e ra id token m m' rc s a pol l :
  comfort_inv m -> comfort_confirmed e ra id token m m' rc s a pol l -> comfort_inv m'.
Proof.
  intros Hm [Hs _ _ Hf _ Hcmd (Hr1 & _ & Hr3 & Hr4 & _) (au & Hau & ->)].
  set (sent := (orders s (ca_accountId a) l).*1).
  assert (forall c, c ∈ sent -> cw_requestId c = so_request_id s) as Hreq by (intros c; apply order_request).
  split; cbn [comfort_finish comfort_set_audit comfort_sent_all cc_audit cc_previews cc_sent];
    try apply Hm; try done.
  - rewrite fmap_app. apply NoDup_app. split_and!; [apply Hm| |].
    + intros k Hk Hk'. apply list_elem_of_fmap in Hk as (c & -> & Hc).
      pose proof (cn_sent m Hm) as Hacc. eapply Forall_forall in Hacc as (rc' & _ & _ & Hg & _); [|exact Hc].
      apply list_elem_of_fmap in Hk' as (c' & Hk' & Hc').
      injection Hk' as Hk' _ _. rewrite Hk', (Hreq _ Hc') in Hg. congruence.
    + unfold sent. rewrite order_keys. apply (NoDup_fmap_1 snd). rewrite <- list_fmap_compose.
      exact (proj1 (commands_keys _ _ _ Hcmd)).
  - apply Forall_app. split.
    + eapply Forall_impl; [apply (cn_sent m Hm)|]. intros c. apply comfort_answered_later. by rewrite Hr1.
    + apply Forall_forall. intros c Hc. apply list_elem_of_fmap in Hc as ([c' b] & -> & Hc).
      exists rc, b, (ce_worker e c'). cbn [fst].
      rewrite (order_request s (ca_accountId a) l c'), <- Hr1 by by apply (list_elem_of_fmap_2 fst) in Hc.
      split; [apply dict_get_set_eq|]. rewrite Hr3. unfold answers. apply list_elem_of_fmap. by exists (c', b).
  - intros k rc'. cbn [comfort_finish cc_receipts comfort_set_audit comfort_sent_all].
    rewrite dict_get_set. case_decide as Hk; [|apply Hm]. intros E. injection E as <-. by subst k.
Qed.

Lemma comfort_step_inv m m' : comfort_step m m' -> comfort_inv m -> comfort_inv m'.
Proof.
  intros [e ra rp rb request He|e ra id token He] Hm.
  - destruct (preview_of e ra rp rb request m) as [r m1] eqn:E.
    apply comfort_preview_outcome in E as [->|(s & au & Hs & Ha & ->)]; try done.
    by apply comfort_store_inv.
  - destruct (confirm_of e ra id token m) as [r m1] eqn:E.
    apply comfort_confirm_outcome in E as [[-> _]|[[-> _]|(rc & s & a & pol & l & _ & Hc)]]; try done.
    by eapply comfort_confirmed_inv.
Qed.

Lemma comfort_reachable_inv m : comfort_reachable m -> comfort_inv m.
Proof.
  intros (a & Ha & Hs). pose proof (new_comfort_inv a Ha) as Hi. revert Hi. clear Ha.
  induction Hs as [|m1 m2 m3 H1 _ IH]; [done|]. intros Hi. apply IH. by eapply comfort_step_inv.
Qed.

Lemma comfort_step_receipts m m' k rc :
  comfort_step m m' -> comfort_inv m ->
  dict_get (cc_receipts m) k = Some rc -> dict_get (cc_receipts m') k = Some rc.
Proof.
  intros [e ra rp rb request He|e ra id token He] Hm Hk.
  - destruct (preview_of e ra rp rb request m) as [r m1] eqn:E.
    by apply comfort_preview_outcome in E as [->|(s & au & _ & _ & ->)].
  - destruct (confirm_of e ra id token m) as [r m1] eqn:E.
    apply comfort_confirm_outcome in E as [[-> _]|[[-> _]|(rc' & s & a & pol & l & _ & Hc)]]; try done.
    destruct Hc as [_ _ _ Hf _ _ (Hr & _) (au & _ & ->)]. cbn.
    rewrite dict_get_set, decide_False; [done|]. intros E. rewrite <- Hr, E in Hf. congruence.
Qed.

Lemma comfort_later_receipts m m' k rc :
  rtc comfort_step m m' -> comfort_inv m -> dict_get (cc_receipts m) k = Some rc ->
  comfort_inv m' /\ dict_get (cc_receipts m') k = Some rc.
Proof.
  induction 1 as [|m1 m2 m3 H1 _ IH]; intros Hi Hk; [done|].
  apply IH; [by eapply comfort_step_inv|by eapply comfort_step_receipts].
Qed.

(** *** Properties *)

(** No device is switched twice for a request: in every reachable coordinator,
    whatever was previewed, confirmed, retried or answered by the worker, at
    most one command was ever sent for a request, a room and a kind of device,
    and the answer to each is recorded in the receipt of its request. *)
Theorem comfort_devices_once m :
  comfort_reachable m ->
  NoDup (order_key <$> cc_sent m) /\ Forall (answered m) (cc_sent m).
Proof. intros Hm%comfort_reachable_inv. split; apply Hm. Qed.

(** The device of a command. *)
Definition room_device (c : ComfortWorkerCommand) : device_key := (cw_roomId c, cw_targetKind c).
(** The presented account is the current one and may manage comfort, and the
    plan is its own and still the current one, under the current policy. *)
Definition may_confirm (e : ComfortEnv) (plan : ComfortPlan) (a : ComfortAuthority) : Prop :=
  ce_authority e (ca_accountId a) = Resolved (Shaped a) /\ ca_active a = true /\ ca_role a = RoleAdmin /\
  ca_canManageComfort a = true /\ ce_plan e (cpl_planId plan) = Resolved (Shaped plan) /\
  (cpl_actorAccountId plan, cpl_accountRevision plan, cpl_sessionFamilyId plan)
  = (ca_accountId a, ca_accountRevision a, ca_sessionFamilyId a) /\
  exists pol, ce_policy e (cpl_policyId plan) = Resolved (Shaped pol) /\ hash_policy pol = cpl_policyHash plan.
(** A command for the plan of a preview: what it asks of a device, for the
    request and the account, from the state that the device was seen in. *)
Definition ordered (s : ComfortStored) (a : ComfortAuthority) (c : ComfortWorkerCommand) : Prop :=
  asks (so_plan s) (room_device c) (cw_device c) (cw_desiredState c) /\
  cw_requestId c = so_request_id s /\ cw_planId c = cpl_planId (so_plan s) /\
  cw_policyRevision c = cpl_policyRevision (so_plan s) /\ cw_actorAccountId c = ca_accountId a /\
  exists o, o ∈ so_readbacks s /\ dr_roomId o = cw_roomId c /\ dr_device o = cw_device c /\
    cw_expectedStateRevision c = dr_stateRevision o.

Lemma change_result_device c b answer :
  (cs_roomId (change_result c b answer), cs_targetKind (change_result c b answer)) = (cw_roomId c, cw_targetKind c).
Proof.
  unfold change_result. destruct answer as [| |w]; [done|done|]. destruct (validate_resolved _); [by case_decide|done].
Qed.
Lemma facts_may e ra plan a pol : comfort_facts e ra (Shaped plan) a plan pol -> ra = Shaped a /\ may_confirm e plan a.
Proof.
  intros [[-> _] _ Hr Hp Hc (? & ? & ?) Hs]. split; [done|]. injection Hs as _ _ _ E1 E2 E3.
  unfold may_confirm. rewrite E1, E2, E3. by split_and!; [..|exists pol].
Qed.

(** C15 A confirmation is closed: it is refused with an [ApiError] and leaves
    everything as it was, or it answers a preview whose token was given, for
    the presented account, which is the current one and may manage comfort, and
    for its plan, which is still the current one.  The answer is the receipt
    of the preview's request, which is kept.  When the request already had one,
    that is the answer and nothing changes; otherwise the preview is still in
    time, and exactly the devices that did not read back what the plan asks of
    them were sent one command each, no device twice, with the state that the
    plan asks, room by room and the heating before the window, and the receipt
    has a result for each in that order. *)
Theorem comfort_confirm_exact e ra id token m r m' :
  comfort_reachable m -> comfort_clock e -> confirm_of e ra id token m = (r, m') ->
  (m' = m /\ exists c st, r = Raise (ApiError c st)) \/
  exists s a rc, dict_get (cc_previews m) id = Some s /\ so_token s = token /\
    ra = Shaped a /\ may_confirm e (so_plan s) a /\
    r = Ok rc /\ ct_requestId rc = so_request_id s /\ dict_get (cc_receipts m') (so_request_id s) = Some rc /\
    ((m' = m) \/
     (dict_get (cc_receipts m) (so_request_id s) = None /\
      cpl_generatedAtMs (so_plan s) <= ce_now e <= so_expires_at s /\
      exists sent, cc_sent m' = cc_sent m ++ sent /\
        NoDup (room_device <$> sent) /\ StronglySorted device_key_le (room_device <$> sent) /\
        Forall (ordered s a) sent /\
        (fun x => (cs_roomId x, cs_targetKind x)) <$> ct_results rc = room_device <$> sent /\
        forall o d, o ∈ so_readbacks s ->
          dict_get (desired_of (so_plan s)) (dr_roomId o, cd_kind (dr_device o)) = Some d ->
          ((dr_roomId o, cd_kind (dr_device o)) ∈ room_device <$> sent <-> d.2 <> dr_state o))).
Proof.
  intros Hm%comfort_reachable_inv He Hc.
  apply comfort_confirm_outcome in Hc as [[-> Hr]|[[-> (s & rc & a & pol & Hs & Ht & Hl & Hrc & ->)]|(rc & s & a & pol & l & -> & Hc)]];
    try done; [by left|right..].
  { apply facts_may in Hl as [Hra Hmay]. destruct (cn_receipts m Hm _ _ Hrc) as [Hid _].
    exists s, a, rc. split_and!; try done. by left. }
  destruct Hc as [Hs Ht Hl Hf Htime Hcmd (Hid & _ & Hres & _) (au & _ & ->)].
  apply facts_may in Hl as [Hra Hmay]. exists s, a, rc. split_and!; try done.
  { cbn. rewrite <- Hid. apply dict_get_set_eq. }
  right. split; [done|]. split; [done|]. exists (orders s (ca_accountId a) l).*1.
  assert (room_device <$> (orders s (ca_accountId a) l).*1 = (fun x : device_change => x.1.1) <$> l) as Hkeys.
  { pose proof (order_keys s (ca_accountId a) l) as Hk. apply (f_equal (fmap snd)) in Hk. rewrite <- !list_fmap_compose in Hk.
    rewrite <- list_fmap_compose. exact Hk. }
  rewrite Hkeys. split; [done|]. split; [apply (commands_keys _ _ _ Hcmd)|]. split; [apply (commands_keys _ _ _ Hcmd)|].
  split_and!.
  - unfold orders. rewrite <- list_fmap_compose. apply Forall_fmap, Forall_forall. intros x Hx.
    destruct (commands_elem _ _ _ _ Hcmd Hx) as (Ha & Ho & Hd & Hro & _). destruct x as [[[room k] [d st]] o].
    unfold ordered. cbn in *. split_and!; try done. by exists o.
  - rewrite Hres, <- Hkeys. unfold answers, orders. rewrite <- !list_fmap_compose. apply list_fmap_ext.
    intros i x _. cbn. unfold room_device. by apply change_result_device.
  - intros o d Ho Hd. rewrite list_elem_of_fmap. split.
    + intros ([[k dd] o'] & E & Hx). cbn in E. subst k.
      pose proof (commands_ok _ _ _ Hcmd) as ->. apply changes_elem in Hx as (Hd' & Ho' & Hne).
      pose proof (seen_get _ _ _ _ Hcmd Ho). congruence.
    + intros Hne. pose proof (commands_complete _ _ _ _ _ Hcmd Ho Hd Hne) as Hx. eexists. split; [|exact Hx]. done.
Qed.

(** A receipt says applied only for devices that were seen in the state that the
    plan asks.  In every reachable coordinator, if a request's receipt has
    status applied, every device commanded for it read back, for that very
    command, the desired state at a later revision than it was previewed at. *)
Theorem comfort_applied_verified m rc c :
  comfort_reachable m ->
  dict_get (cc_receipts m) (cw_requestId c) = Some rc -> ct_status rc = RcApplied -> c ∈ cc_sent m ->
  exists r b, r ∈ ct_results rc /\ cs_commandId r = cw_commandId c /\ cs_readback r = Some b /\
    wb_commandId b = cw_commandId c /\ wb_roomId b = cw_roomId c /\ wb_device b = cw_device c /\
    wb_state b = cw_desiredState c.
Proof.
  intros Hm%comfort_reachable_inv Hrc Hst Hc. pose proof (cn_sent m Hm) as Hs.
  eapply Forall_forall in Hs as (rc' & b & ans & Hg & Hr); [|exact Hc].
  assert (rc' = rc) as -> by congruence.
  destruct (cn_receipts m Hm _ _ Hrc) as [_ Hso]. rewrite Hst in Hso.
  apply overall_status_applied, Forall_fmap in Hso. eapply Forall_forall in Hso; [|exact Hr]. cbn in Hso.
  destruct ans as [x| |rw]; [done|done|]. exists (change_result c b (Resolved rw)).
  unfold change_result in Hso, Hr |- *.
  destruct (validate_resolved (Resolved rw)) as [w|]; [|done].
  case_decide as Hv; [|done]. exists w. naive_solver.
Qed.

(** A request is answered once.  Whenever two confirmations, by whomever and
    however far apart, both succeed for the same request, they return the same
    receipt, and the later one changes nothing. *)
Theorem comfort_receipt_replayed e e' ra ra' id id' token token' m m1 m2 m3 rc rc' :
  comfort_reachable m -> comfort_clock e -> comfort_clock e' ->
  confirm_of e ra id token m = (Ok rc, m1) -> rtc comfort_step m1 m2 ->
  confirm_of e' ra' id' token' m2 = (Ok rc', m3) -> ct_requestId rc' = ct_requestId rc ->
  rc' = rc /\ m3 = m2.
Proof.
  intros Hm%comfort_reachable_inv He He' H1 Hs H2 Hid.
  assert (comfort_inv m1 /\ dict_get (cc_receipts m1) (ct_requestId rc) = Some rc) as [Hi1 Hr1].
  { apply comfort_confirm_outcome in H1 as [[_ (? & ? & ?)]|[[-> (s & rc0 & _ & _ & _ & _ & _ & Hrc & E)]|
      (rc0 & s & a & pol & l & E & Hc)]]; try done; injection E as ->.
    - by destruct (cn_receipts m Hm _ _ Hrc) as [-> _].
    - split; [by eapply comfort_confirmed_inv|]. destruct Hc as [_ _ _ _ _ _ _ (au & _ & ->)].
      apply dict_get_set_eq. }
  destruct (comfort_later_receipts _ _ _ _ Hs Hi1 Hr1) as [Hi2 Hr2].
  apply comfort_confirm_outcome in H2 as [[_ (? & ? & ?)]|[[-> (s & rc0 & _ & _ & _ & _ & _ & Hrc & E)]|
      (rc0 & s & a & pol & l & E & Hc)]]; try done; injection E as ->.
  - destruct (cn_receipts m2 Hi2 _ _ Hrc) as [E _]. split; [|done]. congruence.
  - destruct Hc as [_ _ _ Hf _ _ (E & _) _]. congruence.
Qed.
End run.
End comfort_effects.

(** ** A worked confirmation *)

Module ComfortEffectExample.
Import EnergyExample ComfortExample.
Definition log : IrrigationAudit :=
  {| ta_core := id32 "a"; ta_home := id32 "b"; ta_limit := 16; ta_chain := id32 "c";
     ta_events := []; ta_head := ZERO |}.
Definition hpol (p : ComfortPolicy) : string := id64 "e".
Definition hplan (p : ComfortPlan) : string := id64 "1".
Definition hr (r : ComfortReceipt) : string := id64 "2".
Definition hc (s : string) : string := id32 "3".
Definition hb (b : AuditBody) : string := id64 "4".
(** A stuffy room whose window the plan opens, and whose heating is on. *)
Definition airing : raw ComfortPlan :=
  match plan_at 1400 false 20 [] with Ok p => Shaped p | Raise _ => Malformed end.
Definition seen (k : device_kind) (n : string) (s : device_state) : raw ComfortDeviceReadback :=
  Shaped {| dr_coreId := id32 "a"; dr_homeId := id32 "b"; dr_roomId := id32 "1"; dr_device := device k n;
            dr_stateRevision := 5; dr_state := s; dr_observedAtMs := 1000400 |}.
Definition worker (c : ComfortWorkerCommand) : resolved WorkerComfortReadback :=
  Resolved (Shaped {| wb_commandId := cw_commandId c; wb_roomId := cw_roomId c; wb_device := cw_device c;
    wb_stateRevision := cw_expectedStateRevision c + 1; wb_state := cw_desiredState c;
    wb_observedAtMs := 1001000 |}).
Definition env (t : Z) : ComfortEnv :=
  {| ce_authority := fun _ => Resolved (Shaped carer); ce_policy := fun _ => Resolved (Shaped rules);
     ce_plan := fun _ => Resolved airing; ce_worker := worker; ce_now := t; ce_preview_id := id32 "8";
     ce_token := String.concat "" (repeat "T"%string 43) |}.
Definition m0 := new_comfort log.
Definition m1 := (comfort_preview hpol hplan hb 16 (env 1000600) (Shaped carer) airing
  [seen KindHvac "2" SHeat; seen KindWindow "3" SClosed] (id32 "9") m0).2.
Definition run m t := comfort_confirm hpol hr hc hb (env t) (Shaped carer) (id32 "8") (ce_token (env t)) m.
Definition m2 := (run m1 1000700).2.

Example heating_off_then_window :
  ((fun c => (cw_targetKind c, cw_desiredState c)) <$> cc_sent m2,
   match (run m1 1000700).1 with Ok rc => Some (ct_status rc) | Raise _ => None end)
  = ([(KindHvac, SOff); (KindWindow, SOpen)], Some RcApplied).
Proof. vm_compute. reflexivity. Qed.

Lemma comfort_log_made : audit_made hb log.
Proof. eapply (made_new _ (id32 "a") (id32 "b") 16 (id32 "c")); by vm_compute. Qed.
Lemma previewed_reached : comfort_reachable hpol hplan hr hc hb 16 m1.
Proof. exists log. split; [apply comfort_log_made|]. apply rtc_once, step_comfort_preview. by vm_compute. Qed.
Lemma confirmed_reached : comfort_reachable hpol hplan hr hc hb 16 m2.
Proof.
  destruct previewed_reached as (a & Ha & Hs). exists a. split; [done|]. eapply rtc_r; [exact Hs|].
  refine (step_comfort_confirm hpol hplan hr hc hb 16 m1 (env 1000700) (Shaped carer) (id32 "8")
    (ce_token (env 1000700)) _). by vm_compute.
Qed.
Lemma comfort_run_is : run m1 1000700 = ((run m1 1000700).1, m2).
Proof. apply surjective_pairing. Qed.
Lemma comfort_hc_hex s : is_hex 32 (hc s).
Proof. by vm_compute. Qed.
Lemma comfort_hr_hex r : is_hex 64 (hr r).
Proof. by vm_compute. Qed.
Lemma comfort_hb_hex b : is_hex 64 (hb b).
Proof. by vm_compute. Qed.

Lemma comfort_devices_once_witness : length (cc_sent m2) = 2%nat /\ NoDup (order_key <$> cc_sent m2).
Proof.
  split; [vm_compute; reflexivity|].
  apply (comfort_devices_once hpol hplan hr hc hb 16 comfort_hc_hex comfort_hr_hex comfort_hb_hex m2).
  exact confirmed_reached.
Defined.

Lemma comfort_confirm_exact_witness :
  exists rc sent, (run m1 1000700).1 = Ok rc /\ cc_sent m2 = cc_sent m1 ++ sent /\ NoDup (room_device <$> sent) /\
    length sent = 2%nat.
Proof.
  assert (length (cc_sent m2) <> length (cc_sent m1)) as Hne by (vm_compute; discriminate).
  destruct (comfort_confirm_exact hpol hplan hr hc hb 16 comfort_hc_hex comfort_hr_hex comfort_hb_hex
    (env 1000700) (Shaped carer) (id32 "8") (ce_token (env 1000700)) m1 (run m1 1000700).1 m2)
    as [[E _]|(s & a & rc & _ & _ & _ & _ & Hr & _ & _ & [E|(_ & _ & sent & E & Hn & _)])].
  - exact previewed_reached.
  - vm_compute. discriminate.
  - exact comfort_run_is.
  - destruct (Hne (f_equal (fun m => length (cc_sent m)) E)).
  - destruct (Hne (f_equal (fun m => length (cc_sent m)) E)).
  - exists rc, sent. split; [exact Hr|]. split; [exact E|]. split; [exact Hn|].
    apply (f_equal length) in E. rewrite length_app in E. vm_compute in E. exact (eq_sym E).
Defined.

Lemma comfort_applied_verified_witness :
  exists c r b, c ∈ cc_sent m2 /\ cs_readback r = Some b /\ wb_state b = cw_desiredState c.
Proof.
  assert (exists c l rc, cc_sent m2 = c :: l /\ dict_get (cc_receipts m2) (cw_requestId c) = Some rc /\
    ct_status rc = RcApplied) as (c & l & rc & E & Hrc & Hst).
  { do 3 eexists. split; [vm_compute; reflexivity|]. split; vm_compute; reflexivity. }
  assert (c ∈ cc_sent m2) as Hc by (rewrite E; left).
  destruct (comfort_applied_verified hpol hplan hr hc hb 16 comfort_hc_hex comfort_hr_hex comfort_hb_hex
    m2 rc c confirmed_reached Hrc Hst Hc) as (r & b & _ & _ & Hb & _ & _ & _ & Hw).
  exists c, r, b. split; [exact Hc|]. split; [exact Hb|exact Hw].
Defined.

Lemma comfort_receipt_replayed_witness :
  exists rc, run m1 1000700 = (Ok rc, m2) /\ run m2 1000900 = (Ok rc, m2).
Proof.
  eexists. split; [vm_compute; reflexivity|].
  edestruct (comfort_receipt_replayed hpol hplan hr hc hb 16 comfort_hc_hex comfort_hr_hex comfort_hb_hex
    (env 1000700) (env 1000900) (Shaped carer) (Shaped carer)
    (id32 "8") (id32 "8") (ce_token (env 1000700)) (ce_token (env 1000900)) m1 m2 m2
    (run m2 1000900).2) as [E _].
  - exact previewed_reached.
  - vm_compute. discriminate.
  - vm_compute. discriminate.
  - vm_compute. reflexivity.
  - apply rtc_refl.
  - vm_compute. reflexivity.
  - vm_compute. reflexivity.
  - vm_compute. reflexivity.
Defined.
End ComfortEffectExample.
