(* ===== verification/ComfortService.v ===== *)
(** * Room comfort: the stored plans

    [RoomComfortService] of [server/larenor_server/room_comfort/service.py], with
    the tables of [schema.py] and the bodies of [api_models.py]: an administrator
    publishes a plan, previews the devices that it would change, and confirms
    the preview; the service stores the plan and the receipt but sends nothing,
    so every device of a receipt is unknown.

    A JSON column holds the value that was dumped into it, and is validated when
    it is read.  Times are clock ticks; [created_at] is kept in the milliseconds
    that the source divides by 1000. *)

From S2P Require Import Prelude Auth Energy Comfort IrrigationEffects ComfortEffects.

Definition MAX_PLANS : Z := 64.
Definition MAX_PREVIEWS : Z := 128.

(** ** Bodies *)

Record PublishComfortPlan := {
  pb_expectedHomeRevision : Z;
  pb_policy : ComfortPolicy;
  pb_climate : list RoomClimateSnapshot;
  pb_weather : OutdoorWeatherSnapshot;
  pb_occupancy : list OccupancySnapshot;
  pb_overrides : list ManualComfortOverride;
  pb_readbacks : list ComfortDeviceReadback;
}.
Definition PublishComfortPlan_valid (b : PublishComfortPlan) : Prop :=
  Revision (pb_expectedHomeRevision b) /\ ComfortPolicy_valid (pb_policy b) /\
  (1 <= length (pb_climate b) <= 32)%nat /\ Forall RoomClimateSnapshot_valid (pb_climate b) /\
  OutdoorWeather_valid (pb_weather b) /\
  (1 <= length (pb_occupancy b) <= 32)%nat /\ Forall Occupancy_valid (pb_occupancy b) /\
  (length (pb_overrides b) <= 32)%nat /\ Forall ManualComfortOverride_valid (pb_overrides b) /\
  (2 <= length (pb_readbacks b) <= 64)%nat /\ Forall ComfortDeviceReadback_valid (pb_readbacks b).
#[export] Instance PublishComfortPlan_valid_dec b : Decision (PublishComfortPlan_valid b).
Proof. unfold PublishComfortPlan_valid. solve_dec. Defined.
#[export] Instance PublishComfortPlan_model : Model PublishComfortPlan :=
  {| model_valid := PublishComfortPlan_valid |}.

Record PreviewComfortPlan := {
  vb_requestId : string;
  vb_expectedPlanId : string;
  vb_expectedHomeRevision : Z;
  vb_expectedPolicyRevision : Z;
}.
Definition PreviewComfortPlan_valid (b : PreviewComfortPlan) : Prop :=
  Identity (vb_requestId b) /\ Identity (vb_expectedPlanId b) /\ Revision (vb_expectedHomeRevision b) /\
  Revision (vb_expectedPolicyRevision b).
#[export] Instance PreviewComfortPlan_valid_dec b : Decision (PreviewComfortPlan_valid b).
Proof. unfold PreviewComfortPlan_valid. solve_dec. Defined.
#[export] Instance PreviewComfortPlan_model : Model PreviewComfortPlan :=
  {| model_valid := PreviewComfortPlan_valid |}.

Record ConfirmComfortPlan := {
  nb_expectedPlanId : string;
  nb_expectedPolicyRevision : Z;
  nb_confirmToken : string;
}.
Definition ConfirmComfortPlan_valid (b : ConfirmComfortPlan) : Prop :=
  Identity (nb_expectedPlanId b) /\ Revision (nb_expectedPolicyRevision b) /\
  confirm_token (nb_confirmToken b).
#[export] Instance ConfirmComfortPlan_valid_dec b : Decision (ConfirmComfortPlan_valid b).
Proof. unfold ConfirmComfortPlan_valid. solve_dec. Defined.
#[export] Instance ConfirmComfortPlan_model : Model ConfirmComfortPlan :=
  {| model_valid := ConfirmComfortPlan_valid |}.

(** ** Tables *)

#[export] Instance raw_eq_dec {A} `{EqDecision A} : EqDecision (raw A).
Proof. solve_decision. Defined.

(** [_plan_values] and the row with its tag. *)
Record plan_values := {
  pw_id : string;
  pw_policy : raw ComfortPolicy;
  pw_plan : raw ComfortPlan;
  pw_readbacks : option (list (raw ComfortDeviceReadback));
  pw_actor_id : string;
  pw_family_id : string;
  pw_created_at : Z;
}.
#[export] Instance plan_values_eq_dec : EqDecision plan_values.
Proof. solve_decision. Defined.
Record plan_row := { pw_values : plan_values; pw_envelope_tag : string }.

(** [_preview_values] and the row with its tag. *)
Record preview_values := {
  vw_id : string;
  vw_request_id : string;
  vw_plan_id : string;
  vw_actor_id : string;
  vw_family_id : string;
  vw_token_hash : string;
  vw_expires_at : Z;
  vw_receipt : option (raw ComfortReceipt);
}.
Record preview_row := { vw_values : preview_values; vw_envelope_tag : string }.

(** The tables; [cb_state] is the singleton row's plan. *)
Record comfort_db := {
  cb_plans : list plan_row;
  cb_state : option (option string);
  cb_previews : list preview_row;
}.
(** [migrate_room_comfort] on an empty database. *)
Definition new_comfort_db : comfort_db := {| cb_plans := []; cb_state := Some None; cb_previews := [] |}.

Record comfort_world := { wc_auth : auth_db; wc_comfort : comfort_db }.
Definition set_comfort (d : comfort_db) (w : comfort_world) : comfort_world :=
  {| wc_auth := wc_auth w; wc_comfort := d |}.

(** The clock readings and fresh identities of one request. *)
Record comfort_call := {
  cx_now : Z;
  cx_auth_now : Z;
  cx_preview_id : string;
  cx_token : string;
}.

(** [int(clock() * 1000)]: from 2^30 s to 2^31 s the product of a clock reading
    with 1000 is rounded to a multiple of 2^-12. *)
Definition tick_ms (t : Z) : Z := ((t * 125 + 2 ^ 6) / 2 ^ 7) / 2 ^ 12.
(** [ms / 1000] added to a clock reading: the nearest tick. *)
Definition ms_ticks (ms : Z) : Z := (2 * ms * TICK + 1000) / 2000.

Definition unavailable : exn := ApiError "comfort_storage_unavailable" 503.
(** [except ApiError: raise; except (sqlite3.Error, ValueError): raise unavailable] *)
Definition storage_errors {S A} (m : M S A) : M S A := fun s =>
  match m s with
  | (Raise (ValueError _), s') | (Raise IntegrityError, s') => (Raise unavailable, s')
  | x => x
  end.

Section comfort_service.
Variable hash_policy : ComfortPolicy -> string.
Variable hash_identity : ComfortIdentity -> string.
(** [_tag] of a plan's and of a preview's values. *)
Variable plan_tag : plan_values -> string.
Variable preview_tag : preview_values -> string.
(** SHA-256 of the confirmation token, and the first half of SHA-256 of a
    command's text. *)
Variable hash_token : string -> string.
Variable hash_command : string -> string.
(** The home of the context. *)
Variable scope : string * string.

(** [_scope] *)
Definition comfort_scope (core_id home_id : string) : res unit :=
  raise_if ((core_id, home_id) <> scope) (ApiError "not_found" 404).

(** [_actor] *)
Definition comfort_actor (now : Z) (d : auth_db) (actor : Principal) : res Z :=
  _ ← assert_current now d actor;
  row ← require_some (sql_one (fun x => u_id x = p_id actor) (users d)) (ApiError "forbidden" 403);
  _ ← raise_if (u_disabled row = true \/ u_must_change row = true \/ u_role row <> Admin)
        (ApiError "forbidden" 403);
  Ok (u_revision row).

(** [_plan_row]: the row, the policy, the plan and the readbacks. *)
Definition read_plan (d : comfort_db) (plan_id : string)
  : res (plan_row * ComfortPolicy * ComfortPlan * list ComfortDeviceReadback) :=
  row ← require_some (sql_one (fun r => pw_id (pw_values r) = plan_id) (cb_plans d)) unavailable;
  _ ← raise_if (pw_envelope_tag row <> plan_tag (pw_values row)) unavailable;
  '(policy, plan, readbacks) ← except_value_error
    (p ← model_validate (pw_policy (pw_values row));
     q ← model_validate (pw_plan (pw_values row));
     l ← require_some (pw_readbacks (pw_values row)) (ValueError "");
     rs ← model_validate_all l;
     Ok (p, q, rs)) unavailable;
  _ ← raise_if (cpl_planId plan <> pw_id (pw_values row) \/ cp_policyId policy <> cpl_policyId plan)
        unavailable;
  Ok (row, policy, plan, readbacks).

(** [_preview_row] *)
Definition read_preview (d : comfort_db) (preview_id : string) : res preview_row :=
  row ← require_some (sql_one (fun r => vw_id (vw_values r) = preview_id) (cb_previews d))
          (ApiError "not_found" 404);
  _ ← raise_if (vw_envelope_tag row <> preview_tag (vw_values row)) unavailable;
  Ok row.

(** [validate_storage] *)
Definition validate_comfort (d : comfort_db) : res unit :=
  except_any
    (state ← require_some (cb_state d) (ValueError "");
     let rows := cb_plans d in
     let previews := cb_previews d in
     _ ← raise_if (Z.of_nat (length rows) > MAX_PLANS \/ Z.of_nat (length previews) > MAX_PREVIEWS)
           (ValueError "");
     let plan_ids := (fun r => pw_id (pw_values r)) <$> rows in
     _ ← raise_if (~ optional (fun id => id ∈ plan_ids) state) (ValueError "");
     _ ← for_each (fun r => _ ← read_plan d (pw_id (pw_values r)); Ok tt) rows;
     for_each (fun r => _ ← raise_if (vw_plan_id (vw_values r) ∉ plan_ids) (ValueError "");
                        _ ← read_preview d (vw_id (vw_values r)); Ok tt) previews)
    (StartupError "invalid_room_comfort_storage").

(** The devices that a plan names and those that were read back, by room and
    kind. *)
Definition plan_devices (plan : ComfortPlan) : list (device_key * ComfortDevice) :=
  dict_of fst snd (cpl_items plan ≫= fun i =>
    [((rs_roomId (ci_room i), cd_kind (rs_hvac (ci_room i))), rs_hvac (ci_room i));
     ((rs_roomId (ci_room i), cd_kind (rs_window (ci_room i))), rs_window (ci_room i))]).
Definition read_devices (readbacks : list ComfortDeviceReadback) : list (device_key * ComfortDevice) :=
  dict_of (fun r => (dr_roomId r, cd_kind (dr_device r))) dr_device readbacks.
(** Equality of dictionaries. *)
Definition same_dict (a b : list (device_key * ComfortDevice)) : Prop :=
  length a = length b /\ Forall (fun kv => dict_get b kv.1 = Some kv.2) a.
#[local] Instance same_dict_dec a b : Decision (same_dict a b).
Proof. unfold same_dict. apply _. Defined.

Definition plan_clash (r s : plan_row) : Prop := pw_id (pw_values r) = pw_id (pw_values s).
Definition preview_clash (r s : preview_row) : Prop :=
  vw_id (vw_values r) = vw_id (vw_values s) \/
  vw_request_id (vw_values r) = vw_request_id (vw_values s).
#[local] Instance plan_clash_dec r s : Decision (plan_clash r s).
Proof. unfold plan_clash. apply _. Defined.
#[local] Instance preview_clash_dec r s : Decision (preview_clash r s).
Proof. unfold preview_clash. apply _. Defined.

(** The part of [publish] that stores the plan: the row, and the state. *)
Definition keep_plan (values : plan_values) (d : comfort_db) : res comfort_db :=
  let tag := plan_tag values in
  plans ← match sql_one (fun r => pw_id (pw_values r) = pw_id values) (cb_plans d) with
    | None =>
        _ ← raise_if (Z.of_nat (length (cb_plans d)) >= MAX_PLANS) (ApiError "comfort_limit_reached" 429);
        sql_insert plan_clash {| pw_values := values; pw_envelope_tag := tag |} (cb_plans d)
    | Some old =>
        _ ← raise_if (pw_values old <> values \/ pw_envelope_tag old <> tag)
              (ApiError "idempotency_conflict" 409);
        Ok (cb_plans d)
    end;
  Ok {| cb_plans := plans; cb_state := (fun _ => Some (pw_id values)) <$> cb_state d;
        cb_previews := cb_previews d |}.

(** [publish] *)
Definition publish (c : comfort_call) (actor : Principal) (core_id home_id : string)
    (value : raw PublishComfortPlan) : M comfort_world ComfortPlan :=
  body ← lift (model_validate value);
  _ ← lift (comfort_scope core_id home_id);
  storage_errors (transaction (
    w ← get_state;
    revision ← lift (comfort_actor (cx_auth_now c) (wc_auth w) actor);
    _ ← lift (raise_if (pb_expectedHomeRevision body <> 1) conflict);
    authority ← lift (model_validate (Shaped
      {| ca_coreId := core_id; ca_homeId := home_id; ca_homeRevision := 1; ca_accountId := p_id actor;
         ca_accountRevision := revision; ca_sessionFamilyId := p_family_id actor; ca_role := RoleAdmin;
         ca_active := true; ca_canManageComfort := true |}));
    plan ← lift (comfort_plan hash_policy hash_identity (fun _ => Resolved (Shaped authority))
      (fun _ => Resolved (Shaped (pb_policy body))) (Shaped authority) (Shaped (pb_policy body))
      (Shaped <$> pb_climate body) (Shaped (pb_weather body)) (Shaped <$> pb_occupancy body)
      (tick_ms (cx_now c)) (Shaped <$> pb_overrides body));
    let observed := read_devices (pb_readbacks body) in
    _ ← lift (raise_if (length observed <> length (pb_readbacks body) \/
                        ~ same_dict (plan_devices plan) observed) conflict);
    d ← lift (keep_plan
      {| pw_id := cpl_planId plan; pw_policy := Shaped (pb_policy body); pw_plan := Shaped plan;
         pw_readbacks := Some (Shaped <$> pb_readbacks body); pw_actor_id := p_id actor;
         pw_family_id := p_family_id actor; pw_created_at := cpl_generatedAtMs plan |} (wc_comfort w));
    _ ← put_state (set_comfort d w);
    mret plan)).

(** The plan of the singleton row: [None] without a row or without a plan. *)
Definition current_id (d : comfort_db) : option string := mjoin (cb_state d).

(** [current] *)
Definition current_plan (c : comfort_call) (actor : Principal) (core_id home_id : string) (w : comfort_world)
  : res ComfortPlan :=
  _ ← comfort_scope core_id home_id;
  _ ← comfort_actor (cx_auth_now c) (wc_auth w) actor;
  id ← require_some (current_id (wc_comfort w)) (ApiError "not_found" 404);
  '(_, _, plan, _) ← read_plan (wc_comfort w) id;
  _ ← raise_if (cpl_actorAccountId plan <> p_id actor \/ cpl_sessionFamilyId plan <> p_family_id actor)
        conflict;
  Ok plan.

(** [_commands] *)
Definition service_commands (plan : ComfortPlan) (readbacks : list ComfortDeviceReadback)
  : res (list device_change) :=
  let desired := desired_of plan in
  let observed := seen_of readbacks in
  _ ← raise_if (length observed <> length readbacks \/ ~ same_devices desired observed) conflict;
  Ok (changes desired observed).

Definition set_previews (l : list preview_row) (d : comfort_db) : comfort_db :=
  {| cb_plans := cb_plans d; cb_state := cb_state d; cb_previews := l |}.
Definition tagged (v : preview_values) : preview_row :=
  {| vw_values := v; vw_envelope_tag := preview_tag v |}.

(** [preview] *)
Definition preview_plan (c : comfort_call) (actor : Principal) (core_id home_id : string)
    (value : raw PreviewComfortPlan) : M comfort_world ComfortPreview :=
  body ← lift (model_validate value);
  _ ← lift (comfort_scope core_id home_id);
  storage_errors (transaction (
    w ← get_state;
    let d := wc_comfort w in
    revision ← lift (comfort_actor (cx_auth_now c) (wc_auth w) actor);
    _ ← lift (raise_if (current_id d <> Some (vb_expectedPlanId body)) conflict);
    '(_, policy, plan, readbacks) ← lift (read_plan d (vb_expectedPlanId body));
    _ ← lift (raise_if ((vb_expectedHomeRevision body, vb_expectedPolicyRevision body)
                        <> (cpl_homeRevision plan, cpl_policyRevision plan)) conflict);
    _ ← lift (raise_if ((cpl_actorAccountId plan, cpl_accountRevision plan, cpl_sessionFamilyId plan)
                        <> (p_id actor, revision, p_family_id actor)) conflict);
    commands ← lift (service_commands plan readbacks);
    _ ← lift (raise_if (commands = []) (ApiError "invalid_request" 400));
    match sql_one (fun r => vw_request_id (vw_values r) = vb_requestId body) (cb_previews d) with
    | Some old =>
        _ ← lift (read_preview d (vw_id (vw_values old)));
        _ ← lift (raise_if ((vw_plan_id (vw_values old), vw_actor_id (vw_values old),
                             vw_family_id (vw_values old)) <> (cpl_planId plan, p_id actor, p_family_id actor))
                    (ApiError "idempotency_conflict" 409));
        lift (Raise (ApiError "preview_already_created" 409))
    | None =>
        _ ← lift (raise_if (Z.of_nat (length (cb_previews d)) >= MAX_PREVIEWS)
                    (ApiError "comfort_limit_reached" 429));
        let expires := cx_now c + ms_ticks (cp_previewTtlMs policy) in
        rows ← lift (sql_insert preview_clash (tagged
          {| vw_id := cx_preview_id c; vw_request_id := vb_requestId body; vw_plan_id := cpl_planId plan;
             vw_actor_id := p_id actor; vw_family_id := p_family_id actor;
             vw_token_hash := hash_token (cx_token c); vw_expires_at := expires; vw_receipt := None |})
          (cb_previews d));
        _ ← put_state (set_comfort (set_previews rows d) w);
        lift (model_validate (Shaped
          {| cv_previewId := cx_preview_id c; cv_confirmToken := cx_token c; cv_requestId := vb_requestId body;
             cv_planId := cpl_planId plan; cv_expiresAtMs := tick_ms expires;
             cv_commandCount := Z.of_nat (length commands) |}))
    end)).

(** The result that [confirm] records for a device. *)
Definition unknown_result (request_id plan_id : string) (x : device_change) : ComfortCommandResult :=
  let '((room_id, kind), _, _) := x in
  {| cs_commandId := hash_command (request_id +:+ room_id +:+
       (match kind with KindHvac => "hvac" | KindWindow => "window" end) +:+ plan_id);
     cs_roomId := room_id; cs_targetKind := kind; cs_status := StUnknown; cs_code := comfort_ack_unknown;
     cs_readback := None |}.

Definition with_receipt (rc : ComfortReceipt) (v : preview_values) : preview_values :=
  {| vw_id := vw_id v; vw_request_id := vw_request_id v; vw_plan_id := vw_plan_id v;
     vw_actor_id := vw_actor_id v; vw_family_id := vw_family_id v; vw_token_hash := vw_token_hash v;
     vw_expires_at := vw_expires_at v; vw_receipt := Some (Shaped rc) |}.

(** [confirm] *)
Definition confirm_plan (c : comfort_call) (actor : Principal) (core_id home_id preview_id : string)
    (value : raw ConfirmComfortPlan) : M comfort_world ComfortReceipt :=
  body ← lift (model_validate value);
  _ ← lift (comfort_scope core_id home_id);
  storage_errors (transaction (
    w ← get_state;
    let d := wc_comfort w in
    revision ← lift (comfort_actor (cx_auth_now c) (wc_auth w) actor);
    row ← lift (read_preview d preview_id);
    let v := vw_values row in
    _ ← lift (raise_if ((vw_plan_id v, vw_actor_id v, vw_family_id v)
                        <> (nb_expectedPlanId body, p_id actor, p_family_id actor)) conflict);
    _ ← lift (raise_if (vw_token_hash v <> hash_token (nb_confirmToken body)) (ApiError "invalid_request" 400));
    '(_, _, plan, readbacks) ← lift (read_plan d (vw_plan_id v));
    _ ← lift (raise_if (current_id d <> Some (cpl_planId plan) \/
                        cpl_policyRevision plan <> nb_expectedPolicyRevision body \/
                        (cpl_accountRevision plan, cpl_sessionFamilyId plan)
                        <> (revision, p_family_id actor)) conflict);
    match vw_receipt v with
    | Some rc => lift (model_validate rc)
    | None =>
        _ ← lift (raise_if (cx_now c > vw_expires_at v) (ApiError "preview_expired" 409));
        commands ← lift (service_commands plan readbacks);
        results ← lift (model_validate_all
          (Shaped <$> (unknown_result (vw_request_id v) (cpl_planId plan) <$> commands)));
        receipt ← lift (model_validate (Shaped
          {| ct_requestId := vw_request_id v; ct_planId := cpl_planId plan; ct_status := RcUnknown;
             ct_results := results; ct_completedAtMs := tick_ms (cx_now c) |}));
        _ ← put_state (set_comfort (set_previews
          (sql_update (fun r => vw_id (vw_values r) = preview_id) (fun _ => tagged (with_receipt receipt v))
             (cb_previews d)) d) w);
        mret receipt
    end)).
End comfort_service.

(** ** What a stored database satisfies *)

Section comfort_service_theory.
Variable hash_policy : ComfortPolicy -> string.
Variable hash_identity : ComfortIdentity -> string.
Variable plan_tag : plan_values -> string.
Variable preview_tag : preview_values -> string.
Variable hash_token : string -> string.
Variable hash_command : string -> string.
Variable scope : string * string.
Local Notation publish_of := (publish hash_policy hash_identity plan_tag scope).
Local Notation current_of := (current_plan plan_tag scope).
Local Notation preview_of := (preview_plan plan_tag preview_tag hash_token scope).
Local Notation confirm_of := (confirm_plan plan_tag preview_tag hash_token hash_command scope).
Local Notation read_plan := (read_plan plan_tag).
Local Notation read_preview := (read_preview preview_tag).
Local Notation validate_of := (validate_comfort plan_tag preview_tag).
Implicit Types (d : comfort_db) (w : comfort_world).
#[local] Existing Instances same_dict_dec plan_clash_dec preview_clash_dec.

Definition plan_ids d : list string := (fun r => pw_id (pw_values r)) <$> cb_plans d.
Definition preview_ids d : list string := (fun r => vw_id (vw_values r)) <$> cb_previews d.
Definition preview_requests d : list string := (fun r => vw_request_id (vw_values r)) <$> cb_previews d.

(** The values of a row, and what they are read as. *)
Record plan_stored (v : plan_values) (policy : ComfortPolicy) (plan : ComfortPlan)
    (readbacks : list ComfortDeviceReadback) : Prop := {
  ps_id : pw_id v = cpl_planId plan;
  ps_columns : pw_policy v = Shaped policy /\ pw_plan v = Shaped plan /\
    pw_readbacks v = Some (Shaped <$> readbacks);
  ps_valid : ComfortPolicy_valid policy /\ ComfortPlan_valid plan /\
    Forall ComfortDeviceReadback_valid readbacks;
  ps_policy : cp_policyId policy = cpl_policyId plan;
  ps_actor : cpl_actorAccountId plan = pw_actor_id v /\ cpl_sessionFamilyId plan = pw_family_id v;
  ps_commands : service_commands plan readbacks = Ok (changes (desired_of plan) (seen_of readbacks));
}.
Definition plan_row_ok (r : plan_row) : Prop :=
  pw_envelope_tag r = plan_tag (pw_values r) /\
  exists policy plan readbacks, plan_stored (pw_values r) policy plan readbacks.

#[local] Instance Shaped_inj {A} : Inj (=) (=) (@Shaped A).
Proof. by intros x y [= ->]. Qed.

(** A receipt that reports nothing. *)
Definition unknown_receipt (v : preview_values) (rc : ComfortReceipt) : Prop :=
  ComfortReceipt_valid rc /\ ct_requestId rc = vw_request_id v /\ ct_planId rc = vw_plan_id v /\
  ct_status rc = RcUnknown /\
  Forall (fun r => cs_status r = StUnknown /\ cs_readback r = None) (ct_results rc).
Definition preview_row_ok d (r : preview_row) : Prop :=
  vw_envelope_tag r = preview_tag (vw_values r) /\ vw_plan_id (vw_values r) ∈ plan_ids d /\
  Identity (vw_request_id (vw_values r)) /\
  optional (fun x => exists rc, x = Shaped rc /\ unknown_receipt (vw_values r) rc) (vw_receipt (vw_values r)).

Record comfort_db_inv d : Prop := {
  db_plans : Forall plan_row_ok (cb_plans d);
  db_ids : NoDup (plan_ids d);
  db_count : Z.of_nat (length (cb_plans d)) <= MAX_PLANS;
  db_state : exists o, cb_state d = Some o /\ optional (fun id => id ∈ plan_ids d) o;
  db_previews : Forall (preview_row_ok d) (cb_previews d);
  db_preview_ids : NoDup (preview_ids d);
  db_requests : NoDup (preview_requests d);
  db_preview_count : Z.of_nat (length (cb_previews d)) <= MAX_PREVIEWS;
}.

Lemma new_comfort_db_inv : comfort_db_inv new_comfort_db.
Proof. split; cbn; try constructor; try done. by exists None. Qed.

Lemma read_plan_stored d r policy plan readbacks :
  comfort_db_inv d -> r ∈ cb_plans d -> plan_stored (pw_values r) policy plan readbacks ->
  read_plan d (pw_id (pw_values r)) = Ok (r, policy, plan, readbacks).
Proof.
  intros Hd Hr Hs. destruct (ps_columns _ _ _ _ Hs) as (E1 & E2 & E3).
  destruct (ps_valid _ _ _ _ Hs) as (V1 & V2 & V3).
  pose proof (db_plans d Hd) as Hp. eapply Forall_forall in Hp as [Ht _]; [|exact Hr].
  unfold ComfortService.read_plan.
  rewrite (sql_one_unique (fun r => pw_id (pw_values r)) _ r) by (done || apply Hd).
  cbn [require_some mbind res_bind]. rewrite raise_if_no by (intros Hn; by apply Hn). cbn [mbind res_bind].
  rewrite E1, E2, E3. rewrite (@model_validate_valid _ ComfortPolicy_model _ V1). cbn [mbind res_bind].
  rewrite (@model_validate_valid _ ComfortPlan_model _ V2). cbn [mbind res_bind require_some].
  rewrite (proj2 (model_validate_all_ok _ readbacks)) by done. cbn [mbind res_bind except_value_error].
  rewrite raise_if_no; [done|]. rewrite (ps_id _ _ _ _ Hs), (ps_policy _ _ _ _ Hs). naive_solver.
Qed.

Lemma read_plan_ok d id r policy plan readbacks :
  comfort_db_inv d -> read_plan d id = Ok (r, policy, plan, readbacks) ->
  r ∈ cb_plans d /\ pw_id (pw_values r) = id /\ plan_stored (pw_values r) policy plan readbacks.
Proof.
  intros Hd Hr. pose proof Hr as Hr'. unfold ComfortService.read_plan in Hr'.
  apply bind_ok in Hr' as (r' & Hs%require_some_ok & _).
  apply (sql_one_some (fun r => pw_id (pw_values r) = id)) in Hs as [Hin <-].
  pose proof (db_plans d Hd) as Hp. eapply Forall_forall in Hp as (_ & p & q & l & Hst); [|exact Hin].
  rewrite (read_plan_stored d r' p q l Hd Hin Hst) in Hr. by injection Hr as -> -> -> ->.
Qed.

Lemma read_preview_stored d r :
  comfort_db_inv d -> r ∈ cb_previews d -> read_preview d (vw_id (vw_values r)) = Ok r.
Proof.
  intros Hd Hr. pose proof (db_previews d Hd) as Hp. eapply Forall_forall in Hp as [Ht _]; [|exact Hr].
  unfold ComfortService.read_preview.
  rewrite (sql_one_unique (fun r => vw_id (vw_values r)) _ r) by (done || apply Hd).
  cbn [require_some mbind res_bind]. by rewrite raise_if_no by (intros Hn; by apply Hn).
Qed.

Lemma read_preview_ok d id r :
  read_preview d id = Ok r -> r ∈ cb_previews d /\ vw_id (vw_values r) = id.
Proof.
  unfold ComfortService.read_preview. intros Hr. apply bind_ok in Hr as (r' & Hs%require_some_ok & Hr).
  apply (sql_one_some (fun r => vw_id (vw_values r) = id)) in Hs.
  apply bind_ok in Hr as (? & _ & [= <-]). done.
Qed.

(** *** The requests *)

Lemma stored_cases {A} (m : M comfort_world A) w x w' :
  storage_errors (transaction m) w = (x, w') ->
  (w' = w /\ forall a, x <> Ok a) \/ (exists a, x = Ok a /\ m w = (Ok a, w')).
Proof.
  unfold storage_errors. destruct (transaction m w) as [y w1] eqn:E.
  apply transaction_cases in E as [[-> Hy]|(a & -> & Hm)].
  - intros H. left. destruct y as [a|[]]; [by destruct (Hy a)|..]; by injection H as <- <-.
  - intros [= <- <-]. right. by exists a.
Qed.

(** What the planner copies into a plan. *)
Lemma comfort_plan_fields hp hi ga gp a policy climate weather occupancy now overrides plan :
  comfort_plan hp hi ga gp (Shaped a) (Shaped policy) climate weather occupancy now overrides = Ok plan ->
  ComfortPolicy_valid policy /\ ComfortPlan_valid plan /\ cpl_policyId plan = cp_policyId policy /\
  cpl_actorAccountId plan = ca_accountId a /\ cpl_sessionFamilyId plan = ca_sessionFamilyId a /\
  cpl_accountRevision plan = ca_accountRevision a /\ cpl_generatedAtMs plan = now /\
  cpl_homeRevision plan = ca_homeRevision a /\ cpl_policyRevision plan = cp_policyRevision policy.
Proof.
  unfold comfort_plan. intros H. apply bind_ok in H as (a' & Ha & H).
  assert (a' = a) as ->.
  { unfold comfort_authority in Ha. apply bind_ok in Ha as (x & Hx%except_value_error_ok%model_validate_ok & Ha).
    destruct Hx as [Ex _]. injection Ex as <-. apply bind_ok in Ha as (? & _ & (? & _ & (? & _ & E)%bind_ok)%bind_ok).
    by injection E. }
  apply bind_ok in H as (p' & Hp & H).
  assert (p' = policy /\ ComfortPolicy_valid policy) as [-> Hv].
  { unfold comfort_policy in Hp. apply bind_ok in Hp as (x & Hx%except_value_error_ok%model_validate_ok & Hp).
    destruct Hx as [Ex Hv]. injection Ex as <-. apply bind_ok in Hp as (? & _ & (? & _ & (? & _ & E)%bind_ok)%bind_ok).
    by injection E as <-. }
  apply bind_ok in H as ([[[cl we] oc] ov] & _ & H). repeat (apply bind_ok in H as (? & _ & H)).
  apply model_validate_ok in H as [E Hpl]. injection E as <-. by split_and!.
Qed.

(** The check of [publish] on the readbacks is the one of [_commands]. *)
Lemma dict_of_length_nodup {A K V} `{EqDecision K} (f : A -> K) (g : A -> V) (l : list A) :
  NoDup (f <$> l) -> length (dict_of f g l) = length l.
Proof.
  intros Hn. assert (dict_keys (dict_of f g l) ≡ₚ f <$> l) as Hp.
  { apply NoDup_Permutation; [apply dict_of_nodup|done|]. intros k. apply dict_of_keys. }
  apply Permutation_length in Hp. unfold dict_keys in Hp. by rewrite !length_fmap in Hp.
Qed.

Lemma same_dict_keys a b :
  NoDup (dict_keys a) -> NoDup (dict_keys b) -> same_dict a b ->
  forall k, k ∈ dict_keys a <-> k ∈ dict_keys b.
Proof.
  intros Ha Hb [Hl Hf]. assert (dict_keys a ⊆ dict_keys b) as Hsub.
  { intros k ([k' v] & -> & Hk)%list_elem_of_fmap. eapply Forall_forall in Hf; [|exact Hk].
    apply dict_get_elem in Hf. by apply (list_elem_of_fmap_2 fst) in Hf. }
  assert (dict_keys a ≡ₚ dict_keys b) as Hp.
  { apply submseteq_length_Permutation; [by apply NoDup_submseteq|].
    unfold dict_keys. rewrite !length_fmap. lia. }
  intros k. by rewrite Hp.
Qed.

Lemma plan_device_keys plan k :
  ComfortPlan_valid plan -> k ∈ dict_keys (plan_devices plan) <-> k ∈ dict_keys (desired_of plan).
Proof.
  intros (_ & _ & _ & _ & _ & _ & _ & _ & _ & _ & _ & _ & _ & _ & Hi).
  unfold plan_devices, desired_of. rewrite !dict_of_keys.
  match goal with |- _ ∈ fst <$> (_ ≫= ?f) <-> _ ∈ fst <$> (_ ≫= ?g) =>
    enough (forall l, Forall ComfortPlanItem_valid l -> fst <$> (l ≫= f) = fst <$> (l ≫= g)) as He
      by (specialize (He _ Hi); by setoid_rewrite He) end.
  clear. induction 1 as [|i l Hv _ IH]; [done|]. rewrite !bind_cons, !fmap_app, IH.
  destruct Hv as (_ & _ & _ & _ & _ & _ & _ & _ & E1 & E2 & _). cbn. by rewrite E1, E2.
Qed.

Lemma published_commands plan readbacks :
  ComfortPlan_valid plan -> length (read_devices readbacks) = length readbacks ->
  same_dict (plan_devices plan) (read_devices readbacks) ->
  service_commands plan readbacks = Ok (changes (desired_of plan) (seen_of readbacks)).
Proof.
  intros Hp Hl Hs. unfold service_commands. rewrite raise_if_no; [done|].
  intros [Hn|Hn]; apply Hn.
  - apply dict_of_length_nodup. by eapply dict_of_full.
  - pose proof (same_dict_keys _ _ (dict_of_nodup _ _ _) (dict_of_nodup _ _ _) Hs) as Hk.
    assert (forall k, k ∈ dict_keys (desired_of plan) <-> k ∈ dict_keys (seen_of readbacks)) as Hk'.
    { intros k. rewrite <- plan_device_keys, Hk by done. unfold read_devices, seen_of. by rewrite !dict_of_keys. }
    split; apply Forall_forall; intros k; apply Hk'.
Qed.

(** What a publication stores. *)
Lemma publish_outcome c actor core home value w x w' :
  publish_of c actor core home value w = (x, w') ->
  (w' = w /\ forall p, x <> Ok p) \/
  exists plan policy readbacks values d revision, x = Ok plan /\ w' = set_comfort d w /\
    keep_plan plan_tag values (wc_comfort w) = Ok d /\ plan_stored values policy plan readbacks /\
    comfort_scope scope core home = Ok tt /\
    comfort_actor (cx_auth_now c) (wc_auth w) actor = Ok revision /\
    cpl_accountRevision plan = revision /\ pw_actor_id values = p_id actor /\
    pw_family_id values = p_family_id actor.
Proof.
  unfold publish. rewrite lift_bind.
  destruct (model_validate value) as [body|] eqn:Hb; [cbv beta iota|intros [= <- <-]; by left].
  apply model_validate_ok in Hb as [-> Hb]. rewrite lift_bind.
  destruct (comfort_scope scope core home) as [[]|] eqn:Hsc; [cbv beta iota|intros [= <- <-]; by left].
  intros [[-> Hno]|(plan & -> & Hm)]%stored_cases; [by left|right].
  unfold get_state in Hm. unfold mbind at 1, M_bind at 1 in Hm.
  rewrite lift_bind in Hm. destruct (comfort_actor _ _ _) as [revision|] eqn:Hact; [cbv beta iota in Hm|done].
  rewrite lift_bind in Hm. destruct (raise_if _ _); [cbv beta iota in Hm|done].
  rewrite lift_bind in Hm. destruct (model_validate _) as [au|] eqn:Ha; [cbv beta iota in Hm|done].
  apply model_validate_ok in Ha as [Ea _]. injection Ea as <-.
  rewrite lift_bind in Hm. destruct (comfort_plan _ _ _ _ _ _ _ _ _ _ _) as [pl|] eqn:Hpl; [cbv beta iota in Hm|done].
  rewrite lift_bind in Hm. destruct (raise_if _ _) as [[]|] eqn:Hr in Hm; [cbv beta iota in Hm|done].
  apply raise_if_ok in Hr. passed.
  rewrite lift_bind in Hm. destruct (keep_plan _ _ _) as [d|] eqn:Hk; [cbv beta iota in Hm|done].
  injection Hm as <- <-.
  apply comfort_plan_fields in Hpl as (V1 & V2 & E1 & E2 & E3 & E4 & _).
  do 6 eexists. split_and!; [reflexivity|reflexivity|exact Hk| |done|reflexivity|done|done|done].
  split; cbn; try done; [|by apply published_commands].
  split_and!; [done|done|]. apply Hb.
Qed.

(** A list of rows that only grows. *)
Lemma previews_keep d d' :
  comfort_db_inv d -> plan_ids d ⊆ plan_ids d' -> cb_previews d' = cb_previews d ->
  Forall (preview_row_ok d') (cb_previews d').
Proof.
  intros Hd Hs ->. eapply Forall_impl; [apply (db_previews d Hd)|].
  intros r (? & ? & ? & ?). split_and!; auto.
Qed.

Lemma keep_plan_outcome values policy plan readbacks d d' :
  comfort_db_inv d -> plan_stored values policy plan readbacks -> keep_plan plan_tag values d = Ok d' ->
  comfort_db_inv d' /\ cb_state d' = Some (Some (pw_id values)) /\ cb_previews d' = cb_previews d /\
  exists r, r ∈ cb_plans d' /\ pw_values r = values /\
    (cb_plans d' = cb_plans d \/
     cb_plans d' = cb_plans d ++ [r] /\ Z.of_nat (length (cb_plans d)) < MAX_PLANS).
Proof.
  intros Hd Hst Hk. unfold keep_plan in Hk. apply bind_ok in Hk as (plans & Hp & [= <-]).
  destruct (db_state d Hd) as (o & Ho & _). cbn [cb_state cb_previews cb_plans]. rewrite Ho. cbn.
  destruct (sql_one _ (cb_plans d)) as [old|] eqn:Hold.
  - apply bind_ok in Hp as ([] & Hg%raise_if_ok & [= <-]). passed.
    apply (sql_one_some (fun r => pw_id (pw_values r) = pw_id values)) in Hold as [Hin Hid].
    split; [|split_and!; [done|done|]; exists old; split_and!; auto].
    split; cbn; try apply Hd.
    exists (Some (pw_id values)). split; [done|]. cbn. rewrite <- Hid.
    by apply (list_elem_of_fmap_2 (fun r => pw_id (pw_values r))).
  - apply bind_ok in Hp as ([] & Hg%raise_if_ok & Hp). apply sql_insert_ok in Hp as [-> Hcl].
    set (row := {| pw_values := values; pw_envelope_tag := _ |}) in *.
    split.
    2:{ split_and!; [done|done|]. exists row. split_and!; [apply elem_of_app; right; by left|done|right].
        split; [done|lia]. }
    split; cbn; try apply Hd.
    + apply Forall_app. split; [apply Hd|]. apply Forall_singleton. split; [done|].
      by exists policy, plan, readbacks.
    + apply (snoc_column (fun r => pw_id (pw_values r))); [apply Hd|exact Hcl].
    + rewrite length_app. cbn. lia.
    + exists (Some (pw_id values)). split; [done|]. cbn. unfold plan_ids. cbn. rewrite fmap_app.
      apply elem_of_app. right. by left.
    + match goal with |- Forall (preview_row_ok ?x) _ => apply (previews_keep d x) end; [done| |done].
      unfold plan_ids. cbn. rewrite fmap_app. set_solver.
Qed.

Lemma stored_preview_outcome c actor core home value w x w' :
  comfort_db_inv (wc_comfort w) -> preview_of c actor core home value w = (x, w') ->
  (w' = w /\ forall p, x <> Ok p) \/
  exists pv v, x = Ok pv /\
    w' = set_comfort (set_previews (cb_previews (wc_comfort w) ++ [tagged preview_tag v]) (wc_comfort w)) w /\
    comfort_db_inv (wc_comfort w') /\ Z.of_nat (length (cb_previews (wc_comfort w))) < MAX_PREVIEWS /\
    cv_requestId pv = vw_request_id v /\ cv_previewId pv = vw_id v.
Proof.
  intros Hd. unfold preview_plan. rewrite lift_bind.
  destruct (model_validate value) as [body|] eqn:Hb; [cbv beta iota|intros [= <- <-]; by left].
  apply model_validate_ok in Hb as [-> (Hreq & _)]. rewrite lift_bind.
  destruct (comfort_scope scope core home) as [[]|] eqn:Hsc; [cbv beta iota|intros [= <- <-]; by left].
  intros [[-> Hno]|(pv & -> & Hm)]%stored_cases; [by left|right].
  unfold get_state in Hm. unfold mbind at 1, M_bind at 1 in Hm.
  rewrite lift_bind in Hm. destruct (comfort_actor _ _ _) as [revision|]; [cbv beta iota in Hm|done].
  rewrite lift_bind in Hm. destruct (raise_if _ _) eqn:Hcur in Hm; [cbv beta iota in Hm|done].
  apply raise_if_ok, dec_stable in Hcur.
  rewrite lift_bind in Hm. destruct (read_plan _ _) as [[[[prow policy] plan] readbacks]|] eqn:Hrp;
    [cbv beta iota in Hm|done].
  apply (read_plan_ok _ _ _ _ _ _ Hd) in Hrp as (Hin & Hid & Hst).
  do 2 (rewrite lift_bind in Hm; destruct (raise_if _ _) in Hm; [cbv beta iota in Hm|done]).
  rewrite lift_bind in Hm. destruct (service_commands _ _) as [cmds|]; [cbv beta iota in Hm|done].
  rewrite lift_bind in Hm. destruct (raise_if _ _) in Hm; [cbv beta iota in Hm|done].
  destruct (sql_one _ (cb_previews _)) as [old|] eqn:Hold.
  { rewrite lift_bind in Hm. destruct (read_preview _ _); [cbv beta iota in Hm|done].
    rewrite lift_bind in Hm. destruct (raise_if _ _) in Hm; done. }
  rewrite lift_bind in Hm. destruct (raise_if _ _) eqn:Hlen in Hm; [cbv beta iota in Hm|done].
  apply raise_if_ok in Hlen.
  rewrite lift_bind in Hm. destruct (sql_insert _ _ _) as [rows|] eqn:Hins; [cbv beta iota in Hm|done].
  apply sql_insert_ok in Hins as [-> Hcl].
  unfold put_state in Hm. unfold mbind, M_bind, lift in Hm.
  destruct (model_validate _) as [pv'|] eqn:Hpv; [|done]. injection Hm as <- <-.
  apply model_validate_ok in Hpv as [Epv _]. injection Epv as <-.
  eexists _, _. split_and!; [reflexivity|reflexivity| |lia|reflexivity|reflexivity].
  cbn. split; cbn; try apply Hd.
  - apply Forall_app. split; [apply Hd|]. apply Forall_singleton.
    split_and!; [done| |done|done]. cbn. rewrite <- (ps_id _ _ _ _ Hst).
    by apply (list_elem_of_fmap_2 (fun r => pw_id (pw_values r))).
  - apply (snoc_column (fun r => vw_id (vw_values r))); [apply Hd|].
    eapply Forall_impl; [exact Hcl|]. intros r Hn E. apply Hn. by left.
  - apply (snoc_column (fun r => vw_request_id (vw_values r))); [apply Hd|].
    eapply Forall_impl; [exact Hcl|]. intros r Hn E. apply Hn. by right.
  - rewrite length_app. cbn. lia.
Qed.

(** What a confirmation found, and the receipt it gave. *)
Record comfort_accepted (c : comfort_call) (actor : Principal) (preview_id : string)
    (body : ConfirmComfortPlan) w w' (r : preview_row) (plan : ComfortPlan)
    (readbacks : list ComfortDeviceReadback) (rc : ComfortReceipt) : Prop := {
  ka_row : r ∈ cb_previews (wc_comfort w) /\ vw_id (vw_values r) = preview_id;
  ka_session : vw_actor_id (vw_values r) = p_id actor /\ vw_family_id (vw_values r) = p_family_id actor;
  ka_actor : comfort_actor (cx_auth_now c) (wc_auth w) actor = Ok (cpl_accountRevision plan) /\
    cpl_sessionFamilyId plan = p_family_id actor;
  ka_token : vw_token_hash (vw_values r) = hash_token (nb_confirmToken body);
  ka_current : current_id (wc_comfort w) = Some (vw_plan_id (vw_values r)) /\
    cpl_planId plan = vw_plan_id (vw_values r) /\ nb_expectedPlanId body = vw_plan_id (vw_values r) /\
    cpl_policyRevision plan = nb_expectedPolicyRevision body;
  ka_plan : exists prow policy, prow ∈ cb_plans (wc_comfort w) /\
    plan_stored (pw_values prow) policy plan readbacks;
  ka_receipt : (w' = w /\ vw_receipt (vw_values r) = Some (Shaped rc)) \/
    (vw_receipt (vw_values r) = None /\ cx_now c <= vw_expires_at (vw_values r) /\
     ct_results rc = unknown_result hash_command (vw_request_id (vw_values r)) (cpl_planId plan)
       <$> changes (desired_of plan) (seen_of readbacks) /\
     w' = set_comfort (set_previews (sql_update (fun x => vw_id (vw_values x) = preview_id)
            (fun _ => tagged preview_tag (with_receipt rc (vw_values r))) (cb_previews (wc_comfort w)))
            (wc_comfort w)) w);
  ka_unknown : unknown_receipt (vw_values r) rc;
}.

Lemma stored_confirm_outcome c actor core home preview_id value w x w' :
  comfort_db_inv (wc_comfort w) -> confirm_of c actor core home preview_id value w = (x, w') ->
  (w' = w /\ forall rc, x <> Ok rc) \/
  exists body r plan readbacks rc, value = Shaped body /\ x = Ok rc /\
    comfort_accepted c actor preview_id body w w' r plan readbacks rc.
Proof.
  intros Hd. unfold confirm_plan. rewrite lift_bind.
  destruct (model_validate value) as [body|] eqn:Hb; [cbv beta iota|intros [= <- <-]; by left].
  apply model_validate_ok in Hb as [-> _]. rewrite lift_bind.
  destruct (comfort_scope scope core home) as [[]|]; [cbv beta iota|intros [= <- <-]; by left].
  intros [[-> Hno]|(rc & -> & Hm)]%stored_cases; [by left|right].
  unfold get_state in Hm. unfold mbind at 1, M_bind at 1 in Hm.
  rewrite lift_bind in Hm. destruct (comfort_actor _ _ _) as [revision|] eqn:Hact; [cbv beta iota in Hm|done].
  rewrite lift_bind in Hm. destruct (read_preview _ _) as [r|] eqn:Hr; [cbv beta iota in Hm|done].
  apply read_preview_ok in Hr as [Hr Hrid].
  rewrite lift_bind in Hm. destruct (raise_if _ _) eqn:H1 in Hm; [cbv beta iota in Hm|done].
  rewrite lift_bind in Hm. destruct (raise_if _ _) eqn:H2 in Hm; [cbv beta iota in Hm|done].
  apply raise_if_ok, dec_stable in H1. apply raise_if_ok, dec_stable in H2. injection H1 as E1 E2 E3.
  rewrite lift_bind in Hm. destruct (read_plan _ _) as [[[[prow policy] plan] readbacks]|] eqn:Hrp;
    [cbv beta iota in Hm|done].
  apply (read_plan_ok _ _ _ _ _ _ Hd) in Hrp as (Hin & Hid & Hst).
  rewrite lift_bind in Hm. destruct (raise_if _ _) eqn:H3 in Hm; [cbv beta iota in Hm|done].
  apply raise_if_ok in H3. passed. match goal with H : (_, _) = (_, _) |- _ => injection H as E4 E5 end.
  assert (cpl_planId plan = vw_plan_id (vw_values r)) as Eid by (rewrite <- (ps_id _ _ _ _ Hst); congruence).
  pose proof (db_previews _ Hd) as Hps. eapply Forall_forall in Hps as (_ & _ & Hreq & Hopt); [|exact Hr].
  exists body, r, plan, readbacks, rc. split_and!; [done|done|].
  destruct (vw_receipt (vw_values r)) as [x|] eqn:Hrec.
  - destruct Hopt as (rc' & -> & Hun). apply lift_ok in Hm as [Hv ->].
    apply model_validate_ok in Hv as [Ev _]. injection Ev as <-.
    split; try done; [by rewrite <- E4 in Hact|split_and!; congruence|by exists prow, policy|by left].
  - rewrite lift_bind in Hm. destruct (raise_if _ _) eqn:H4 in Hm; [cbv beta iota in Hm|done].
    apply raise_if_ok in H4. rewrite lift_bind, (ps_commands _ _ _ _ Hst) in Hm. cbv beta iota in Hm.
    rewrite lift_bind in Hm. destruct (model_validate_all _) as [results|] eqn:Hres; [cbv beta iota in Hm|done].
    apply model_validate_all_ok in Hres as [Hres _].
    rewrite lift_bind in Hm. destruct (model_validate _) as [rc'|] eqn:Hv; [cbv beta iota in Hm|done].
    apply model_validate_ok in Hv as [Ev Hval]. injection Ev as Ev. injection Hm as -> <-.
    assert (results = unknown_result hash_command (vw_request_id (vw_values r)) (cpl_planId plan)
       <$> changes (desired_of plan) (seen_of readbacks)) as ->.
    { apply (inj (fmap (M := list) Shaped)) in Hres. done. }
    split; try done; [by rewrite <- E4 in Hact|split_and!; congruence|by exists prow, policy| |].
    + right. rewrite <- Ev. by split_and!.
    + split; [exact Hval|]. rewrite <- Ev. split_and!; [done|done|done|]. cbn.
      apply Forall_fmap, Forall_forall. intros [[[room k] d] o] _. done.
Qed.

Lemma accepted_inv c actor preview_id body w w' r plan readbacks rc :
  comfort_db_inv (wc_comfort w) -> comfort_accepted c actor preview_id body w w' r plan readbacks rc ->
  comfort_db_inv (wc_comfort w').
Proof.
  intros Hd [[Hr Hid] _ _ _ _ _ [[-> _]|(_ & _ & _ & ->)] Hun]; [done|]. subst preview_id.
  set (f := fun _ : preview_row => tagged preview_tag (with_receipt rc (vw_values r))).
  assert (forall x, x ∈ cb_previews (wc_comfort w) -> vw_id (vw_values x) = vw_id (vw_values r) -> x = r) as Hone.
  { intros x Hx E. by eapply (nodup_column_inj (fun r => vw_id (vw_values r))); [apply Hd|..]. }
  assert (forall {K} (g : preview_row -> K), g (f r) = g r ->
    g <$> sql_update (fun x => vw_id (vw_values x) = vw_id (vw_values r)) f (cb_previews (wc_comfort w))
    = g <$> cb_previews (wc_comfort w)) as Hcol.
  { intros K g Hg. unfold sql_update. rewrite <- list_fmap_compose. apply list_fmap_ext.
    intros i x Hx. cbn. case_decide as Hdx; [|done]. apply list_elem_of_lookup_2 in Hx.
    rewrite (Hone x Hx Hdx). exact Hg. }
  split; cbn; try apply Hd.
  - apply Forall_forall. intros y (x & Hx & ->)%sql_update_elem.
    pose proof (db_previews _ Hd) as Hps. eapply Forall_forall in Hps; [|exact Hx].
    case_decide as Hdx; [|exact Hps]. rewrite (Hone x Hx Hdx) in Hps. destruct Hps as (_ & Hp & Hq & _).
    split_and!; [done|exact Hp|exact Hq|]. exists rc. split; [done|exact Hun].
  - unfold preview_ids. cbn. rewrite Hcol by done. apply Hd.
  - unfold preview_requests. cbn. rewrite Hcol by done. apply Hd.
  - rewrite sql_update_length. apply Hd.
Qed.

(** ** Reachable databases *)

Inductive comfort_service_step w : comfort_world -> Prop :=
| step_comfort_accounts a : comfort_service_step w {| wc_auth := a; wc_comfort := wc_comfort w |}
| step_publish c actor core home value :
    comfort_service_step w (publish_of c actor core home value w).2
| step_preview_plan c actor core home value :
    comfort_service_step w (preview_of c actor core home value w).2
| step_confirm_plan c actor core home preview_id value :
    comfort_service_step w (confirm_of c actor core home preview_id value w).2.
Definition comfort_service_reachable w : Prop :=
  exists a, rtc comfort_service_step {| wc_auth := a; wc_comfort := new_comfort_db |} w.

(** Plans are never changed or deleted, nor is a preview that has a receipt. *)
Record comfort_grows d d' : Prop := {
  gr_plans : cb_plans d `prefix_of` cb_plans d';
  gr_previews : (length (cb_previews d) <= length (cb_previews d'))%nat;
  gr_receipts : forall r, r ∈ cb_previews d -> vw_receipt (vw_values r) <> None -> r ∈ cb_previews d';
}.
#[local] Instance comfort_grows_preorder : PreOrder comfort_grows.
Proof.
  split; [split; auto|]. intros d1 d2 d3 [P1 L1 R1] [P2 L2 R2]. split; [by etrans|lia|auto].
Qed.

Lemma comfort_service_step_inv w w' :
  comfort_db_inv (wc_comfort w) -> comfort_service_step w w' ->
  comfort_db_inv (wc_comfort w') /\ comfort_grows (wc_comfort w) (wc_comfort w').
Proof.
  intros Hd [a|c actor core home value|c actor core home value|c actor core home preview_id value].
  - done.
  - destruct (publish_of c actor core home value w) as [x w1] eqn:E.
    apply publish_outcome in E as [[-> _]|(plan & policy & rb & v & d & rev & _ & -> & Hk & Hst & _)]; [done|].
    destruct (keep_plan_outcome _ _ _ _ _ _ Hd Hst Hk) as (Hd' & _ & Ep & r & _ & _ & Hpl). cbn.
    split; [done|]. split; [|by rewrite Ep|by rewrite Ep]. destruct Hpl as [->|[-> _]]; [done|by eexists].
  - destruct (preview_of c actor core home value w) as [x w1] eqn:E.
    apply (stored_preview_outcome _ _ _ _ _ _ _ _ Hd) in E as [[-> _]|(pv & v & _ & -> & Hd' & _)]; [done|]. cbn in *.
    split; [done|]. split; cbn; [done|rewrite length_app; lia|]. intros r Hr _. apply elem_of_app. by left.
  - destruct (confirm_of c actor core home preview_id value w) as [x w1] eqn:E.
    apply (stored_confirm_outcome _ _ _ _ _ _ _ _ _ Hd) in E as [[-> _]|(body & r & plan & rb & rc & _ & _ & Ha)]; [done|].
    cbn. split; [by eapply accepted_inv|].
    destruct Ha as [[Hr Hid] _ _ _ _ _ [[-> _]|(Hn & _ & _ & ->)] _]; [done|].
    split; cbn; [done|by rewrite sql_update_length|]. intros y Hy Hyr.
    pose proof (sql_update_elem_2 (fun x => vw_id (vw_values x) = preview_id)
      (fun _ => tagged preview_tag (with_receipt rc (vw_values r))) _ _ Hy) as Hin.
    cbn in Hin. case_decide as Hdy; [|done]. destruct Hyr.
    assert (y = r) as -> by (eapply (nodup_column_inj (fun r => vw_id (vw_values r))); [apply Hd|..]; congruence).
    done.
Qed.

Lemma comfort_service_steps_inv w w' :
  comfort_db_inv (wc_comfort w) -> rtc comfort_service_step w w' ->
  comfort_db_inv (wc_comfort w') /\ comfort_grows (wc_comfort w) (wc_comfort w').
Proof.
  intros Hd Hs. induction Hs as [|w1 w2 w3 H1 _ IH]; [done|].
  destruct (comfort_service_step_inv _ _ Hd H1) as [Hd2 Hg]. destruct (IH Hd2) as [Hd3 Hg']. split; [done|by etrans].
Qed.

Lemma comfort_service_reachable_inv w : comfort_service_reachable w -> comfort_db_inv (wc_comfort w).
Proof. intros (a & Hs). eapply comfort_service_steps_inv; [|exact Hs]. apply new_comfort_db_inv. Qed.

(** *** Properties *)

(** Whatever is requested, the stored plans, previews and receipts pass the
    check of the next start, within their limits. *)
Theorem comfort_storage_valid w :
  comfort_service_reachable w -> validate_of (wc_comfort w) = Ok tt.
Proof.
  intros Hd%comfort_service_reachable_inv. apply except_any_ok. destruct (db_state _ Hd) as (o & -> & Ho).
  cbn [require_some mbind res_bind].
  apply bind_ok. exists tt. split.
  { apply raise_if_ok. pose proof (db_count _ Hd). pose proof (db_preview_count _ Hd). lia. }
  apply bind_ok. exists tt. split; [apply raise_if_ok; intros Hn; by apply Hn|].
  apply bind_ok. exists tt. split; apply for_each_ok, Forall_forall; intros r Hr.
  - pose proof (db_plans _ Hd) as Hp. eapply Forall_forall in Hp as (_ & p & q & l & Hst); [|exact Hr].
    by rewrite (read_plan_stored _ _ _ _ _ Hd Hr Hst).
  - pose proof (db_previews _ Hd) as Hp. eapply Forall_forall in Hp as (_ & Hin & _); [|exact Hr].
    rewrite raise_if_no by (intros Hn; by apply Hn). cbn [mbind res_bind].
    by rewrite (read_preview_stored _ _ Hd Hr).
Qed.

(** A published plan is the current one, and its publisher reads it back as it
    is, in whatever request follows while the session is current. *)
Theorem comfort_publish_reads_back c c' actor core home value w plan w' revision :
  comfort_service_reachable w -> publish_of c actor core home value w = (Ok plan, w') ->
  comfort_actor (cx_auth_now c') (wc_auth w') actor = Ok revision ->
  current_of c' actor core home w' = Ok plan.
Proof.
  intros Hd%comfort_service_reachable_inv Hp Hact.
  apply publish_outcome in Hp as [[_ Hno]|(pl & policy & rb & v & d & rev & E & -> & Hk & Hst & Hsc & _ & _ & Ea & Ef)];
    [by destruct (Hno plan)|]. injection E as <-.
  destruct (keep_plan_outcome _ _ _ _ _ _ Hd Hst Hk) as (Hd' & Hcur & _ & r & Hr & Hv & _).
  unfold current_plan. rewrite Hsc. cbn [mbind res_bind]. cbn in Hact |- *. rewrite Hact. cbn [mbind res_bind].
  unfold current_id. rewrite Hcur. cbn [mjoin option_join require_some mbind res_bind]. subst v.
  rewrite (read_plan_stored _ _ _ _ _ Hd' Hr Hst). cbn [mbind res_bind].
  destruct (ps_actor _ _ _ _ Hst) as [-> ->]. by rewrite raise_if_no by naive_solver.
Qed.

(** A receipt is given to the session that previewed, for the current plan of
    that session and account, in time and for the preview's token, and it claims
    nothing: every device that differs is listed as unknown. *)
Theorem comfort_confirm_claims_nothing c actor core home preview_id value w rc w' :
  comfort_service_reachable w -> confirm_of c actor core home preview_id value w = (Ok rc, w') ->
  exists body r plan readbacks, value = Shaped body /\
    r ∈ cb_previews (wc_comfort w) /\ vw_id (vw_values r) = preview_id /\
    vw_actor_id (vw_values r) = p_id actor /\ vw_family_id (vw_values r) = p_family_id actor /\
    vw_token_hash (vw_values r) = hash_token (nb_confirmToken body) /\
    assert_current (cx_auth_now c) (wc_auth w) actor = Ok tt /\
    current_id (wc_comfort w) = Some (cpl_planId plan) /\
    cpl_sessionFamilyId plan = p_family_id actor /\ cpl_policyRevision plan = nb_expectedPolicyRevision body /\
    ct_requestId rc = vw_request_id (vw_values r) /\ ct_planId rc = cpl_planId plan /\
    ct_status rc = RcUnknown /\
    Forall (fun x => cs_status x = StUnknown /\ cs_readback x = None) (ct_results rc) /\
    (w' <> w -> cx_now c <= vw_expires_at (vw_values r) /\
       (fun x => (cs_roomId x, cs_targetKind x)) <$> ct_results rc
       = (fun x : device_change => x.1.1) <$> changes (desired_of plan) (seen_of readbacks)).
Proof.
  intros Hd%comfort_service_reachable_inv Hc.
  apply (stored_confirm_outcome _ _ _ _ _ _ _ _ _ Hd) in Hc as [[_ Hno]|(body & r & plan & rb & rc' & -> & E & Ha)];
    [by destruct (Hno rc)|]. injection E as <-.
  destruct Ha as [[Hr Hid] [Hs1 Hs2] [Hact Hfam] Ht (Hc1 & Hc2 & _ & Hc4) _ Hrc (_ & Hu1 & Hu2 & Hu3 & Hu4)].
  unfold comfort_actor in Hact. apply bind_ok in Hact as ([] & Hcur & _).
  exists body, r, plan, rb. split_and!; try done; try congruence.
  intros Hne. destruct Hrc as [[-> _]|(_ & Hexp & -> & _)]; [done|]. split; [done|].
  rewrite <- list_fmap_compose. apply list_fmap_ext. intros i [[[room k] d] o] _. done.
Qed.

(** A confirmation is repeated: every later confirmation of the preview that is
    answered gives the same receipt and changes nothing. *)
Theorem comfort_confirm_repeats c c' actor actor' core core' home home' preview_id value value' w rc w1 w2 rc' w3 :
  comfort_service_reachable w -> confirm_of c actor core home preview_id value w = (Ok rc, w1) ->
  rtc comfort_service_step w1 w2 ->
  confirm_of c' actor' core' home' preview_id value' w2 = (Ok rc', w3) -> rc' = rc /\ w3 = w2.
Proof.
  intros Hd%comfort_service_reachable_inv Hc Hs Hc'.
  apply (stored_confirm_outcome _ _ _ _ _ _ _ _ _ Hd) in Hc as [[_ Hno]|(body & r & plan & rb & x & _ & E & Ha)];
    [by destruct (Hno rc)|]. injection E as <-.
  pose proof (accepted_inv _ _ _ _ _ _ _ _ _ _ Hd Ha) as Hd1.
  assert (exists r1, r1 ∈ cb_previews (wc_comfort w1) /\ vw_id (vw_values r1) = preview_id /\
    vw_receipt (vw_values r1) = Some (Shaped rc)) as (r1 & Hr1 & Hid1 & Hrc1).
  { destruct Ha as [[Hr Hid] _ _ _ _ _ [[-> Hrc]|(_ & _ & _ & ->)] _]; [by exists r|].
    exists (tagged preview_tag (with_receipt rc (vw_values r))). split; [|done]. cbn.
    pose proof (sql_update_elem_2 (fun x => vw_id (vw_values x) = preview_id)
      (fun _ => tagged preview_tag (with_receipt rc (vw_values r))) _ _ Hr) as Hin.
    cbn in Hin. by rewrite decide_True in Hin. }
  destruct (comfort_service_steps_inv _ _ Hd1 Hs) as [Hd2 Hg].
  pose proof (gr_receipts _ _ Hg r1 Hr1 ltac:(congruence)) as Hr2.
  apply (stored_confirm_outcome _ _ _ _ _ _ _ _ _ Hd2) in Hc' as [[_ Hno]|(body' & r' & plan' & rb' & x' & _ & E & Ha')];
    [by destruct (Hno rc')|]. injection E as <-.
  destruct Ha' as [[Hr' Hid'] _ _ _ _ _ Hrec _].
  assert (r' = r1) as -> by (eapply (nodup_column_inj (fun r => vw_id (vw_values r))); [apply Hd2|..]; congruence).
  destruct Hrec as [[-> Hx]|(Hn & _)]; [split; [congruence|done]|congruence].
Qed.

(** The limits are never lifted: once 64 plans are stored, every publication
    that is answered, now or ever later, is of a plan that is stored already,
    and once 128 previews are stored no request is ever previewed again. *)
Theorem comfort_limits_are_final w w' :
  comfort_service_reachable w -> rtc comfort_service_step w w' ->
  (Z.of_nat (length (cb_plans (wc_comfort w))) = MAX_PLANS ->
   forall c actor core home value plan w'', publish_of c actor core home value w' = (Ok plan, w'') ->
     exists r, r ∈ cb_plans (wc_comfort w) /\ pw_plan (pw_values r) = Shaped plan) /\
  (Z.of_nat (length (cb_previews (wc_comfort w))) = MAX_PREVIEWS ->
   forall c actor core home value pv, (preview_of c actor core home value w').1 <> Ok pv).
Proof.
  intros Hd%comfort_service_reachable_inv Hs. destruct (comfort_service_steps_inv _ _ Hd Hs) as [Hd' Hg].
  pose proof (db_count _ Hd'). pose proof (db_preview_count _ Hd'). pose proof (gr_previews _ _ Hg).
  destruct (gr_plans _ _ Hg) as [l Hl]. split.
  - intros Hn c actor core home value plan w'' Hp.
    apply publish_outcome in Hp as [[_ Hno]|(pl & policy & rb & v & d & rev & E & -> & Hk & Hst & _)];
      [by destruct (Hno plan)|]. injection E as <-.
    destruct (keep_plan_outcome _ _ _ _ _ _ Hd' Hst Hk) as (_ & _ & _ & r & Hr & Hv & [E|[_ Hlt]]).
    + exists r. rewrite E, Hl in Hr. assert (l = []) as ->.
      { apply nil_length_inv. apply (f_equal length) in Hl. rewrite length_app in Hl. lia. }
      rewrite app_nil_r in Hr. split; [done|]. subst v. apply Hst.
    + exfalso. apply (f_equal length) in Hl. rewrite length_app in Hl. lia.
  - intros Hn c actor core home value pv Hp.
    destruct (preview_of c actor core home value w') as [x w''] eqn:E. cbn in Hp. subst x.
    apply (stored_preview_outcome _ _ _ _ _ _ _ _ Hd') in E as [[_ Hno]|(? & ? & _ & _ & _ & Hlt & _)];
      [by destruct (Hno pv)|lia].
Qed.
End comfort_service_theory.

(** ** A worked home *)

Module ComfortServiceExample.
Import EnergyExample ComfortExample.
Definition accounts : auth_db :=
  {| users := [{| u_id := id32 "c"; u_username := "carer"; u_role := Admin; u_password_hash := "";
                  u_must_change := false; u_created_at := 0; u_disabled := false; u_revision := 1 |}];
     families := [{| f_id := id32 "d"; f_user_id := id32 "c"; f_device_name := []; f_created_at := 0;
                     f_expires_at := seconds 10 ^ 6; f_revoked_at := None |}];
     tokens := [{| t_id := "t"; t_family_id := id32 "d"; t_access_hash := "a"; t_refresh_hash := "r";
                   t_access_expires_at := seconds 10 ^ 6; t_refresh_expires_at := seconds 10 ^ 6;
                   t_created_at := 0; t_rotated_at := None |}];
     rate_limits := []; admin_audit := []; au_next := 1 |}.
Definition carer_login : Principal :=
  {| p_id := id32 "c"; p_username := "carer"; p_role := Admin; p_must_change_password := false;
     p_family_id := id32 "d"; p_token_id := "t" |}.

(** Identities that tell the times of publication apart. *)
Fixpoint digits (n : nat) (z : Z) : string :=
  match n with
  | O => ""
  | S n' => digits n' (z / 10) +:+ String (Ascii.ascii_of_N (Z.to_N (48 + z mod 10))) ""
  end.
Definition hpol (p : ComfortPolicy) : string := id64 "e".
Definition hident (i : ComfortIdentity) : string := digits 32 (cid_generatedAtMs i).
Definition ptag (v : plan_values) : string := pw_id v.
Definition vtag (v : preview_values) : string := vw_id v.
Definition htoken (s : string) : string := s.
Definition hcommand (s : string) : string := id32 "3".
Definition here : string * string := (id32 "a", id32 "b").
Definition call_at (t : Z) : comfort_call :=
  {| cx_now := seconds t; cx_auth_now := seconds t; cx_preview_id := id32 "8";
     cx_token := String.concat "" (repeat "T"%string 43) |}.

Definition to_publish : option PublishComfortPlan :=
  match air 1400, outside false 20, someone with
  | Shaped c, Shaped o, Shaped s => Some
      {| pb_expectedHomeRevision := 1; pb_policy := rules; pb_climate := [c]; pb_weather := o;
         pb_occupancy := [s]; pb_overrides := [];
         pb_readbacks :=
           [{| dr_coreId := id32 "a"; dr_homeId := id32 "b"; dr_roomId := id32 "1";
               dr_device := device KindHvac "2"; dr_stateRevision := 5; dr_state := SHeat;
               dr_observedAtMs := 1000400 |};
            {| dr_coreId := id32 "a"; dr_homeId := id32 "b"; dr_roomId := id32 "1";
               dr_device := device KindWindow "3"; dr_stateRevision := 5; dr_state := SClosed;
               dr_observedAtMs := 1000400 |}] |}
  | _, _, _ => None
  end.
Definition publish_body : raw PublishComfortPlan :=
  match to_publish with Some b => Shaped b | None => Malformed end.
Definition publish_at (t : Z) :=
  publish hpol hident ptag here (call_at t) carer_login (id32 "a") (id32 "b") publish_body.
Definition plan_id_at (t : Z) : string := digits 32 (1000 * t).
Definition preview_at (t : Z) (published : Z) :=
  preview_plan ptag vtag htoken here (call_at t) carer_login (id32 "a") (id32 "b")
    (Shaped {| vb_requestId := id32 "9"; vb_expectedPlanId := plan_id_at published; vb_expectedHomeRevision := 1;
               vb_expectedPolicyRevision := 1 |}).
Definition confirm_at (t : Z) (published : Z) :=
  confirm_plan ptag vtag htoken hcommand here (call_at t) carer_login (id32 "a") (id32 "b") (id32 "8")
    (Shaped {| nb_expectedPlanId := plan_id_at published; nb_expectedPolicyRevision := 1;
               nb_confirmToken := String.concat "" (repeat "T"%string 43) |}).
Definition w0 : comfort_world := {| wc_auth := accounts; wc_comfort := new_comfort_db |}.
Definition w1 := (publish_at 1001 w0).2.
Definition w2 := (preview_at 1002 1001 w1).2.
Definition w3 := (confirm_at 1003 1001 w2).2.

Example devices_unknown :
  match (confirm_at 1003 1001 w2).1 with
  | Ok rc => (ct_status rc, cs_targetKind <$> ct_results rc) | Raise _ => (RcApplied, []) end
  = (RcUnknown, [KindHvac; KindWindow]).
Proof. vm_compute. reflexivity. Qed.
Example previewed_once :
  (preview_at 1002 1001 w2).1 = Raise (ApiError "preview_already_created" 409).
Proof. vm_compute. reflexivity. Qed.

Local Notation reached := (comfort_service_reachable hpol hident ptag vtag htoken hcommand here).
Local Notation step := (comfort_service_step hpol hident ptag vtag htoken hcommand here).
Lemma published_reached : reached w1.
Proof. exists accounts. apply rtc_once, step_publish. Qed.
Lemma stored_preview_reached : reached w2.
Proof.
  destruct published_reached as [a Ha]. exists a. eapply rtc_r; [exact Ha|]. apply step_preview_plan.
Qed.

(** One publication a second. *)
Fixpoint publications (n : nat) (w : comfort_world) : comfort_world :=
  match n with O => w | S n' => (publish_at (1001 + Z.of_nat n') (publications n' w)).2 end.
Definition w64 : comfort_world := publications 64 w0.
Lemma publications_reached n : reached (publications n w0).
Proof.
  exists accounts. induction n as [|n IH]; [apply rtc_refl|]. eapply rtc_r; [exact IH|]. apply step_publish.
Qed.

(** After 64 publications, there is never another one. *)
Lemma sixty_fifth_refused :
  (publish_at 1100 w64).1 = Raise (ApiError "comfort_limit_reached" 429).
Proof. vm_compute. reflexivity. Qed.

Lemma comfort_storage_valid_witness :
  length (cb_previews (wc_comfort w2)) = 1%nat /\ validate_comfort ptag vtag (wc_comfort w2) = Ok tt.
Proof.
  split; [vm_compute; reflexivity|].
  exact (comfort_storage_valid hpol hident ptag vtag htoken hcommand here w2 stored_preview_reached).
Defined.

Lemma comfort_publish_reads_back_witness :
  exists plan, publish_at 1001 w0 = (Ok plan, w1) /\
    current_plan ptag here (call_at 1005) carer_login (id32 "a") (id32 "b") w1 = Ok plan.
Proof.
  assert (exists plan, publish_at 1001 w0 = (Ok plan, w1)) as [plan Hp] by (eexists; vm_compute; reflexivity).
  exists plan. split; [exact Hp|].
  apply (comfort_publish_reads_back hpol hident ptag vtag htoken hcommand here (call_at 1001) (call_at 1005)
    carer_login (id32 "a") (id32 "b") publish_body w0 plan w1 1).
  - exists accounts. apply rtc_refl.
  - exact Hp.
  - vm_compute. reflexivity.
Defined.

Lemma comfort_confirm_claims_nothing_witness :
  exists rc, confirm_at 1003 1001 w2 = (Ok rc, w3) /\ ct_status rc = RcUnknown.
Proof.
  assert (exists rc, confirm_at 1003 1001 w2 = (Ok rc, w3)) as [rc Hc] by (eexists; vm_compute; reflexivity).
  exists rc. split; [exact Hc|].
  destruct (comfort_confirm_claims_nothing hpol hident ptag vtag htoken hcommand here (call_at 1003) carer_login
    (id32 "a") (id32 "b") (id32 "8") _ w2 rc w3 stored_preview_reached Hc)
    as (body & r & plan & rb & _ & _ & _ & _ & _ & _ & _ & _ & _ & _ & _ & _ & Hst & _). exact Hst.
Defined.

Lemma comfort_confirm_repeats_witness :
  exists rc, confirm_at 1003 1001 w2 = (Ok rc, w3) /\ confirm_at 5000 1001 w3 = (Ok rc, w3).
Proof.
  assert (exists rc, confirm_at 1003 1001 w2 = (Ok rc, w3)) as [rc Hc] by (eexists; vm_compute; reflexivity).
  assert (exists rc' w4, confirm_at 5000 1001 w3 = (Ok rc', w4)) as (rc' & w4 & Hc')
    by (do 2 eexists; vm_compute; reflexivity).
  exists rc. split; [exact Hc|].
  destruct (comfort_confirm_repeats hpol hident ptag vtag htoken hcommand here (call_at 1003) (call_at 5000)
    carer_login carer_login (id32 "a") (id32 "a") (id32 "b") (id32 "b") (id32 "8") _ _ w2 rc w3 w3 rc' w4
    stored_preview_reached Hc (rtc_refl _ _) Hc') as [-> ->]. exact Hc'.
Defined.

Lemma comfort_limits_are_final_witness :
  Z.of_nat (length (cb_plans (wc_comfort w64))) = MAX_PLANS /\
  forall c actor core home value plan w'',
    publish hpol hident ptag here c actor core home value w64 = (Ok plan, w'') ->
    exists r, r ∈ cb_plans (wc_comfort w64) /\ pw_plan (pw_values r) = Shaped plan.
Proof.
  assert (Z.of_nat (length (cb_plans (wc_comfort w64))) = MAX_PLANS) as Hn by (vm_compute; reflexivity).
  split; [exact Hn|].
  destruct (comfort_limits_are_final hpol hident ptag vtag htoken hcommand here w64 w64
    (publications_reached 64) (rtc_refl _ _)) as [H _]. exact (H Hn).
Defined.
End ComfortServiceExample.
