(* ===== verification/Chores.v ===== *)
(** * Fair chores: the rotation store

    [server/larenor_server/fair_chores/service.py] on the tables of
    [schema.py]: recurring chores that rotate over the members of a household.
    Every change of a task appends an event that holds the new task and is
    linked to the preceding event of that task; a task is only served when the
    whole chain verifies and ends in it. *)

From S2P Require Import Prelude Auth.

Definition MAX_MEMBERS : Z := 32.
Definition MAX_CHORE_TITLE : Z := 200.
Definition MAX_HISTORY : Z := 10000.

Record HouseholdMembers := { hm_revision : Z; hm_ids : list ustr }.

(** [HouseholdMembers.__post_init__] *)
Definition HouseholdMembers_new `{UnicodeData} (revision : Z) (ids : list ustr)
  : res HouseholdMembers :=
  _ ← raise_if (revision < 1 \/ ~ 1 <= Z.of_nat (length ids) <= MAX_MEMBERS \/
                ~ NoDup ids \/ ~ Forall _identifier ids)
        (ValueError "invalid_household_members");
  Ok {| hm_revision := revision; hm_ids := ids |}.

(** A finite double is an integer multiple of the least positive double; a
    time in seconds is that integer. *)
Record ChoreTask := {
  ct_id : ustr;
  ct_core_id : ustr;
  ct_home_id : ustr;
  ct_title : ustr;
  ct_revision : Z;
  ct_assignee_id : ustr;
  ct_members_revision : Z;
  ct_member_order : list ustr;
  ct_timezone_name : ustr;
  ct_interval_days : Z;
  ct_due_at : Z;
}.
#[export] Instance ChoreTask_eq_dec : EqDecision ChoreTask.
Proof. solve_decision. Defined.

Inductive chore_action := Created | Completed | Deferred.
#[export] Instance chore_action_eq_dec : EqDecision chore_action.
Proof. solve_decision. Defined.
Definition chore_action_name (a : chore_action) : string :=
  match a with Created => "created" | Completed => "completed" | Deferred => "deferred" end.
Definition chore_action_of (s : string) : option chore_action :=
  if decide (s = "created"%string) then Some Created
  else if decide (s = "completed"%string) then Some Completed
  else if decide (s = "deferred"%string) then Some Deferred else None.

Record ChoreReceipt := {
  cr_event_id : ustr;
  cr_command_id : ustr;
  cr_action : chore_action;
  cr_task : ChoreTask;
}.

Record ChoreEvent := {
  ce_event_id : ustr;
  ce_action : chore_action;
  ce_actor_id : ustr;
  ce_revision : Z;
  ce_occurred_at : Z;
}.

(** ** Tables *)

(** A JSON column holds the value its text denotes. *)
Record chore_row := {
  cw_id : ustr;
  cw_core_id : ustr;
  cw_home_id : ustr;
  cw_title : ustr;
  cw_revision : Z;
  cw_assignee_id : ustr;
  cw_members_revision : Z;
  cw_member_order_json : jval;
  cw_timezone_name : ustr;
  cw_interval_days : Z;
  cw_due_at : Z;
  cw_created_at : Z;
  cw_updated_at : Z;
}.

Record chore_event_row := {
  cv_sequence : Z;
  cv_event_id : ustr;
  cv_task_id : ustr;
  cv_command_id : ustr;
  cv_action : chore_action;
  cv_actor_id : ustr;
  cv_revision : Z;
  cv_occurred_at : Z;
  cv_receipt_json : jval;
  cv_previous_hash : string;
  cv_event_hash : string;
}.

Record chore_db := { cd_tasks : list chore_row; cd_events : list chore_event_row }.

(** What one call reads from the clock and from [uuid4]. *)
Record chore_env := {
  ch_now : Z;
  ch_new_task_id : ustr;
  ch_new_event_id : ustr;
}.

(** ** Receipts *)

Definition order_json (ids : list ustr) : jval := JList (JText <$> ids).

Definition text_of_json (v : jval) : option ustr :=
  match v with JText s => Some s | _ => None end.

Definition order_of_json (v : jval) : option (list ustr) :=
  match v with JList l => mapM text_of_json l | _ => None end.

(** [asdict(receipt.task)] *)
Definition task_json (t : ChoreTask) : jval :=
  JObj [("assignee_id", JText (ct_assignee_id t)); ("core_id", JText (ct_core_id t));
        ("due_at", JTime (ct_due_at t)); ("home_id", JText (ct_home_id t)); ("id", JText (ct_id t));
        ("interval_days", JInt (ct_interval_days t)); ("member_order", order_json (ct_member_order t));
        ("members_revision", JInt (ct_members_revision t)); ("revision", JInt (ct_revision t));
        ("timezone_name", JText (ct_timezone_name t)); ("title", JText (ct_title t))]%string.

(** [_receipt_json] *)
Definition receipt_json (r : ChoreReceipt) : jval :=
  JObj [("action", JStr (chore_action_name (cr_action r))); ("command_id", JText (cr_command_id r));
        ("event_id", JText (cr_event_id r)); ("task", task_json (cr_task r))]%string.

(** [ChoreTask( **task )] refuses a missing and an unexpected key.  A field of
    a foreign type is refused here too; only the holder of the audit key could
    have written one. *)
Definition task_of_json (v : jval) : option ChoreTask :=
  match v with
  | JObj l =>
      match dict_get l "assignee_id"%string, dict_get l "core_id"%string, dict_get l "due_at"%string,
            dict_get l "home_id"%string, dict_get l "id"%string, dict_get l "interval_days"%string,
            dict_get l "member_order"%string, dict_get l "members_revision"%string,
            dict_get l "revision"%string, dict_get l "timezone_name"%string,
            dict_get l "title"%string with
      | Some (JText assignee), Some (JText core), Some (JTime due), Some (JText home),
        Some (JText id), Some (JInt interval), Some order, Some (JInt members),
        Some (JInt revision), Some (JText zone), Some (JText title) =>
          order ← order_of_json order;
          if decide (length l = 11%nat) then
            Some {| ct_id := id; ct_core_id := core; ct_home_id := home; ct_title := title;
                    ct_revision := revision; ct_assignee_id := assignee;
                    ct_members_revision := members; ct_member_order := order;
                    ct_timezone_name := zone; ct_interval_days := interval; ct_due_at := due |}
          else None
      | _, _, _, _, _, _, _, _, _, _, _ => None
      end
  | _ => None
  end.

Definition receipt_of_json (v : jval) : option ChoreReceipt :=
  match v with
  | JObj l =>
      match dict_get l "action"%string, dict_get l "command_id"%string,
            dict_get l "event_id"%string, dict_get l "task"%string with
      | Some (JStr action), Some (JText command), Some (JText event), Some task =>
          action ← chore_action_of action;
          task ← task_of_json task;
          Some {| cr_event_id := event; cr_command_id := command; cr_action := action;
                  cr_task := task |}
      | _, _, _, _ => None
      end
  | _ => None
  end.

(** [_receipt] *)
Definition receipt_ (v : jval) : res ChoreReceipt :=
  require_some (receipt_of_json v) (StartupError "fair_chore_history_invalid").

(** ** Rotation *)

(** The member after the assignee in the task's order, then the others in
    turn, then those who joined since: the first who is still a member. *)
Definition next_assignee (t : ChoreTask) (members : HouseholdMembers) : res ustr :=
  match list_find (fun i => i = ct_assignee_id t) (ct_member_order t) with
  | None => Raise (ValueError "tuple.index")
  | Some (current_index, _) =>
      let candidates :=
        drop (S current_index) (ct_member_order t) ++ take (S current_index) (ct_member_order t)
        ++ filter (fun i => i ∉ ct_member_order t) (hm_ids members) in
      require_some (head (filter (fun i => i ∈ hm_ids members) candidates)) (PyError "StopIteration")
  end.

(** ** Calendar

    A wall clock reads microseconds since 0001-01-01; [datetime] ends with the
    year 9999. *)

Definition DAY_MICROS : Z := 24 * 60 * 60 * 10 ^ 6.
Definition MAX_WALL : Z := 3652059 * DAY_MICROS.

(** [wall + timedelta(days=n)] *)
Definition plus_days (wall n : Z) : res Z :=
  let sum := wall + n * DAY_MICROS in
  _ ← raise_if (~ 0 <= sum < MAX_WALL) (PyError "OverflowError");
  Ok sum.

(** [ZoneInfo(name)] finds the zone, does not find it, or refuses a name that
    is no relative path with a [ValueError]. *)
Inductive zone_lookup := ZoneFound | ZoneNotFound | ZoneBadKey.
#[export] Instance zone_lookup_eq_dec : EqDecision zone_lookup.
Proof. solve_decision. Defined.

(** ** The store *)

Section store.
Context `{UnicodeData}.
(** [hmac.new(audit_key, tag + dumps(values), sha256).hexdigest()] *)
Variable hmac_hex : jval -> string.
(** The time zone database. *)
Variable zone_info : ustr -> zone_lookup.
(** [datetime.fromtimestamp(t, zone)], which refuses a time outside of the
    calendar, and [wall.timestamp()] in that zone *)
Variable from_timestamp : ustr -> Z -> res Z.
Variable timestamp : ustr -> Z -> Z.
Implicit Types d : chore_db.

Definition days_later (zone : ustr) (t days : Z) : res Z :=
  wall ← from_timestamp zone t;
  wall ← plus_days wall days;
  Ok (timestamp zone wall).

(** [_task] *)
Definition task_of (row : chore_row) : res ChoreTask :=
  let invalid := StartupError "fair_chore_storage_invalid" in
  order ← require_some (order_of_json (cw_member_order_json row)) invalid;
  _ ← raise_if (order = [] \/ ~ Forall _identifier order) invalid;
  _ ← raise_if (zone_info (cw_timezone_name row) <> ZoneFound) invalid;
  _ ← raise_if (cw_assignee_id row ∉ order) invalid;
  Ok {| ct_id := cw_id row; ct_core_id := cw_core_id row; ct_home_id := cw_home_id row;
        ct_title := cw_title row; ct_revision := cw_revision row;
        ct_assignee_id := cw_assignee_id row; ct_members_revision := cw_members_revision row;
        ct_member_order := order; ct_timezone_name := cw_timezone_name row;
        ct_interval_days := cw_interval_days row; ct_due_at := cw_due_at row |}.

(** The tuple of a row's columns but the last. *)
Definition chore_event_json (e : chore_event_row) : jval :=
  JList [JInt (cv_sequence e); JText (cv_event_id e); JText (cv_task_id e);
         JText (cv_command_id e); JStr (chore_action_name (cv_action e)); JText (cv_actor_id e);
         JInt (cv_revision e); JTime (cv_occurred_at e); cv_receipt_json e;
         JStr (cv_previous_hash e)].

Definition chore_event_hash (e : chore_event_row) : string := hmac_hex (chore_event_json e).

#[local] Instance chore_chain : ChainRow chore_event_row string := {|
  row_previous := cv_previous_hash; row_stored := cv_event_hash; row_computed := chore_event_hash;
|}.

Definition chore_sequence_le (a b : chore_event_row) : Prop := cv_sequence a <= cv_sequence b.
#[local] Instance chore_sequence_le_dec a b : Decision (chore_sequence_le a b).
Proof. unfold chore_sequence_le. apply _. Defined.

(** [SELECT * FROM fair_chore_events WHERE task_id=? ORDER BY sequence] *)
Definition task_events d (task_id : ustr) : list chore_event_row :=
  py_sorted chore_sequence_le (filter (fun e => cv_task_id e = task_id) (cd_events d)).

Definition chore_event_of (row : chore_event_row) : ChoreEvent :=
  {| ce_event_id := cv_event_id row; ce_action := cv_action row; ce_actor_id := cv_actor_id row;
     ce_revision := cv_revision row; ce_occurred_at := cv_occurred_at row |}.

(** One iteration of the verification loop: [previous] and [events]. *)
Definition verify_event (task_id : ustr) (acc : string * list ChoreEvent) (row : chore_event_row)
  : res (string * list ChoreEvent) :=
  let '(previous, events) := acc in
  let invalid := StartupError "fair_chore_history_invalid" in
  _ ← raise_if (cv_previous_hash row <> previous \/ cv_event_hash row <> chore_event_hash row) invalid;
  receipt ← receipt_ (cv_receipt_json row);
  _ ← raise_if (cr_event_id receipt <> cv_event_id row \/
                cr_command_id receipt <> cv_command_id row \/
                cr_action receipt <> cv_action row \/ ct_id (cr_task receipt) <> task_id \/
                ct_revision (cr_task receipt) <> cv_revision row) invalid;
  Ok (cv_event_hash row, events ++ [chore_event_of row]).

Definition verified_history d (task_id : ustr) : res (list ChoreEvent) :=
  '(_, events) ← fold_res (verify_event task_id) (""%string, []) (task_events d task_id);
  Ok events.

Definition assert_task_current d (t : ChoreTask) : res unit :=
  let invalid := StartupError "fair_chore_history_invalid" in
  _ ← verified_history d (ct_id t);
  row ← require_some (last (task_events d (ct_id t))) invalid;
  receipt ← receipt_ (cv_receipt_json row);
  raise_if (cr_task receipt <> t) invalid.

Definition validate_scope (core_id home_id : ustr) : res unit :=
  raise_if (~ _identifier core_id \/ ~ _identifier home_id) (ApiError "invalid_request" 400).

Definition load d (task_id core_id home_id : ustr) : res ChoreTask :=
  _ ← validate_scope core_id home_id;
  _ ← raise_if (~ _identifier task_id) (ApiError "not_found" 404);
  row ← require_some
          (sql_one (fun r => cw_id r = task_id /\ cw_core_id r = core_id /\ cw_home_id r = home_id)
             (cd_tasks d))
          (ApiError "not_found" 404);
  task_of row.

Definition replay d (t : ChoreTask) (command_id : ustr) (actor : Principal)
    (expected_action : chore_action) : res (option ChoreReceipt) :=
  match sql_one (fun e => cv_task_id e = ct_id t /\ cv_command_id e = command_id) (cd_events d) with
  | None => Ok None
  | Some row =>
      _ ← raise_if (cv_actor_id row <> u (p_id actor) /\ p_role actor <> Admin)
            (ApiError "forbidden" 403);
      _ ← verified_history d (ct_id t);
      receipt ← receipt_ (cv_receipt_json row);
      _ ← raise_if (cr_action receipt <> expected_action) (ApiError "idempotency_conflict" 409);
      Ok (Some receipt)
  end.

(** ** Writing

    SQLite binds integers of 64 bits and text that has a UTF-8 form. *)

Definition chore_row_clash (a b : chore_row) : Prop := cw_id a = cw_id b.
#[local] Instance chore_row_clash_dec a b : Decision (chore_row_clash a b).
Proof. unfold chore_row_clash. apply _. Defined.

Definition insert_task (row : chore_row) d : res chore_db :=
  _ ← raise_if (cw_members_revision row > MAX_REVISION) (PyError "OverflowError");
  _ ← raise_if (existsb is_surrogate (cw_title row) = true) (ValueError "UnicodeEncodeError");
  _ ← raise_if (cw_revision row <= 0 \/ cw_members_revision row <= 0 \/
                ~ 1 <= cw_interval_days row <= 365) IntegrityError;
  tasks ← sql_insert chore_row_clash row (cd_tasks d);
  Ok {| cd_tasks := tasks; cd_events := cd_events d |}.

Definition chore_event_clash (a b : chore_event_row) : Prop :=
  cv_sequence a = cv_sequence b \/ cv_event_id a = cv_event_id b \/
  cv_command_id a = cv_command_id b.
#[local] Instance chore_event_clash_dec a b : Decision (chore_event_clash a b).
Proof. unfold chore_event_clash. apply _. Defined.

Definition insert_chore_event (row : chore_event_row) d : res chore_db :=
  _ ← raise_if (cv_revision row <= 0) IntegrityError;
  _ ← raise_if (cv_task_id row ∉ cw_id <$> cd_tasks d) IntegrityError;
  events ← sql_insert chore_event_clash row (cd_events d);
  Ok {| cd_tasks := cd_tasks d; cd_events := events |}.

(** The row that [_append] inserts. *)
Definition new_chore_event (event_id : ustr) (t : ChoreTask) (command_id : ustr)
    (action : chore_action) (actor_id : ustr) (occurred_at : Z) d : chore_event_row :=
  let receipt := {| cr_event_id := event_id; cr_command_id := command_id; cr_action := action;
                    cr_task := t |} in
  let row hash :=
    {| cv_sequence := next_key (cv_sequence <$> cd_events d); cv_event_id := event_id;
       cv_task_id := ct_id t; cv_command_id := command_id; cv_action := action;
       cv_actor_id := actor_id; cv_revision := ct_revision t; cv_occurred_at := occurred_at;
       cv_receipt_json := receipt_json receipt;
       cv_previous_hash :=
         match last (task_events d (ct_id t)) with
         | None => ""%string | Some previous => cv_event_hash previous
         end;
       cv_event_hash := hash |} in
  row (chore_event_hash (row ""%string)).

Definition append (e : chore_env) (t : ChoreTask) (command_id : ustr) (action : chore_action)
    (actor_id : ustr) (occurred_at : Z) : M chore_db ChoreReceipt :=
  d ← get_state;
  _ ← lift (raise_if (Z.of_nat (length (cd_events d)) >= MAX_HISTORY)
              (ApiError "fair_chore_history_limit_reached" 413));
  d ← lift (insert_chore_event
              (new_chore_event (ch_new_event_id e) t command_id action actor_id occurred_at d) d);
  _ ← put_state d;
  mret {| cr_event_id := ch_new_event_id e; cr_command_id := command_id; cr_action := action;
          cr_task := t |}.

(** [UPDATE fair_chore_tasks SET ... WHERE id=? AND revision=?]; the number of
    changed rows is the answer. *)
Definition update_task (task_id : ustr) (revision : Z) (f : chore_row -> chore_row) d
  : chore_db * nat :=
  let hit r := cw_id r = task_id /\ cw_revision r = revision in
  ({| cd_tasks := sql_update hit f (cd_tasks d); cd_events := cd_events d |},
   length (filter hit (cd_tasks d))).

(** ** Commands *)

Definition row_of (e : chore_env) (t : ChoreTask) : chore_row :=
  {| cw_id := ct_id t; cw_core_id := ct_core_id t; cw_home_id := ct_home_id t;
     cw_title := ct_title t; cw_revision := 1; cw_assignee_id := ct_assignee_id t;
     cw_members_revision := ct_members_revision t;
     cw_member_order_json := order_json (ct_member_order t);
     cw_timezone_name := ct_timezone_name t; cw_interval_days := ct_interval_days t;
     cw_due_at := ct_due_at t; cw_created_at := ch_now e; cw_updated_at := ch_now e |}.

(** The transaction of [create]. *)
Definition create_task_tx (e : chore_env) (actor : Principal) (t : ChoreTask) (command_id : ustr)
  : M chore_db ChoreTask :=
  d ← get_state;
  match sql_one (fun x => cv_command_id x = command_id) (cd_events d) with
  | Some previous =>
      stored ← lift (load d (cv_task_id previous) (ct_core_id t) (ct_home_id t));
      _ ← lift (assert_task_current d stored);
      receipt ← lift (receipt_ (cv_receipt_json previous));
      _ ← lift (raise_if (cv_actor_id previous <> u (p_id actor) /\ p_role actor <> Admin)
                  (ApiError "forbidden" 403));
      _ ← lift (raise_if (cr_action receipt <> Created \/ ct_title stored <> ct_title t \/
                          ct_members_revision stored <> ct_members_revision t \/
                          ct_member_order stored <> ct_member_order t \/
                          ct_timezone_name stored <> ct_timezone_name t \/
                          ct_interval_days stored <> ct_interval_days t \/
                          ct_due_at stored <> ct_due_at t)
                  (ApiError "idempotency_conflict" 409));
      mret stored
  | None =>
      d ← lift (insert_task (row_of e t) d);
      _ ← put_state d;
      _ ← append e t command_id Created (u (p_id actor)) (ch_now e);
      mret t
  end.

(** [command_id is None or _identifier(command_id)] *)
Definition command_ok (command_id : option ustr) : Prop :=
  match command_id with Some i => _identifier i | None => True end.
#[local] Instance command_ok_dec o : Decision (command_ok o).
Proof. destruct o; cbn; apply _. Defined.

(** [due_at] is [None] when it is not finite. *)
Definition create_task (e : chore_env) (actor : Principal) (core_id home_id title : ustr)
    (members : HouseholdMembers) (timezone_name : ustr) (interval_days : Z) (due_at : option Z)
    (command_id : option ustr) : M chore_db ChoreTask :=
  _ ← lift (validate_scope core_id home_id);
  _ ← lift (raise_if (p_role actor <> Admin) (ApiError "forbidden" 403));
  _ ← lift (raise_if (zone_info timezone_name = ZoneNotFound) (ApiError "invalid_request" 400));
  _ ← lift (raise_if (zone_info timezone_name = ZoneBadKey) (ValueError "ZoneInfo"));
  _ ← lift (raise_if (~ 1 <= Z.of_nat (length (str_strip title)) <= MAX_CHORE_TITLE \/
                      ~ 1 <= interval_days <= 365 \/ due_at = None \/
                      ~ command_ok command_id)
              (ApiError "invalid_request" 400));
  due_at ← lift (require_some due_at (ApiError "invalid_request" 400));
  _ ← lift (from_timestamp timezone_name due_at);
  assignee ← lift (require_some (head (hm_ids members)) (PyError "IndexError"));
  let t :=
    {| ct_id := ch_new_task_id e; ct_core_id := core_id; ct_home_id := home_id;
       ct_title := str_strip title; ct_revision := 1; ct_assignee_id := assignee;
       ct_members_revision := hm_revision members; ct_member_order := hm_ids members;
       ct_timezone_name := timezone_name; ct_interval_days := interval_days;
       ct_due_at := due_at |} in
  transaction (create_task_tx e actor t (default (u "create:" ++ ch_new_task_id e) command_id)).

Definition completed_task (t : ChoreTask) (assignee : ustr) (members : HouseholdMembers) (due : Z)
  : ChoreTask :=
  {| ct_id := ct_id t; ct_core_id := ct_core_id t; ct_home_id := ct_home_id t;
     ct_title := ct_title t; ct_revision := ct_revision t + 1; ct_assignee_id := assignee;
     ct_members_revision := hm_revision members; ct_member_order := hm_ids members;
     ct_timezone_name := ct_timezone_name t; ct_interval_days := ct_interval_days t;
     ct_due_at := due |}.

(** The columns that [complete] sets. *)
Definition set_completed (t : ChoreTask) (at_ : Z) (r : chore_row) : chore_row :=
  {| cw_id := cw_id r; cw_core_id := cw_core_id r; cw_home_id := cw_home_id r;
     cw_title := cw_title r; cw_revision := ct_revision t; cw_assignee_id := ct_assignee_id t;
     cw_members_revision := ct_members_revision t;
     cw_member_order_json := order_json (ct_member_order t);
     cw_timezone_name := cw_timezone_name r; cw_interval_days := cw_interval_days r;
     cw_due_at := ct_due_at t; cw_created_at := cw_created_at r; cw_updated_at := at_ |}.

(** The transaction of [complete]. *)
Definition complete_tx (e : chore_env) (actor : Principal) (task_id core_id home_id : ustr)
    (expected_revision : Z) (command_id : ustr) (completed_at : Z) (members : HouseholdMembers)
  : M chore_db ChoreReceipt :=
  d ← get_state;
  t ← lift (load d task_id core_id home_id);
  _ ← lift (assert_task_current d t);
  found ← lift (replay d t command_id actor Completed);
  match found with
  | Some receipt => mret receipt
  | None =>
      _ ← lift (raise_if (ct_revision t <> expected_revision) (ApiError "revision_conflict" 409));
      _ ← lift (raise_if (p_role actor <> Admin /\
                          (u (p_id actor) <> ct_assignee_id t \/ u (p_id actor) ∉ hm_ids members))
                  (ApiError "forbidden" 403));
      _ ← lift (raise_if (hm_revision members < ct_members_revision t)
                  (ApiError "revision_conflict" 409));
      next_due ← lift (days_later (ct_timezone_name t) completed_at (ct_interval_days t));
      assignee ← lift (next_assignee t members);
      let updated := completed_task t assignee members next_due in
      _ ← lift (raise_if (ct_members_revision updated > MAX_REVISION) (PyError "OverflowError"));
      let '(d, changes) :=
        update_task (ct_id t) expected_revision (set_completed updated completed_at) d in
      _ ← put_state d;
      _ ← lift (raise_if (changes <> 1%nat) (ApiError "revision_conflict" 409));
      append e updated command_id Completed (u (p_id actor)) completed_at
  end.

Definition complete (e : chore_env) (actor : Principal) (task_id core_id home_id : ustr)
    (expected_revision : Z) (command_id : ustr) (completed_at : option Z)
    (members : HouseholdMembers) : M chore_db ChoreReceipt :=
  _ ← lift (raise_if (expected_revision < 1 \/ ~ _identifier command_id \/ completed_at = None)
              (ApiError "invalid_request" 400));
  completed_at ← lift (require_some completed_at (ApiError "invalid_request" 400));
  transaction (complete_tx e actor task_id core_id home_id expected_revision command_id
                 completed_at members).

Definition deferred_task (t : ChoreTask) (due : Z) : ChoreTask :=
  {| ct_id := ct_id t; ct_core_id := ct_core_id t; ct_home_id := ct_home_id t;
     ct_title := ct_title t; ct_revision := ct_revision t + 1;
     ct_assignee_id := ct_assignee_id t; ct_members_revision := ct_members_revision t;
     ct_member_order := ct_member_order t; ct_timezone_name := ct_timezone_name t;
     ct_interval_days := ct_interval_days t; ct_due_at := due |}.

Definition set_deferred (t : ChoreTask) (at_ : Z) (r : chore_row) : chore_row :=
  {| cw_id := cw_id r; cw_core_id := cw_core_id r; cw_home_id := cw_home_id r;
     cw_title := cw_title r; cw_revision := ct_revision t; cw_assignee_id := cw_assignee_id r;
     cw_members_revision := cw_members_revision r;
     cw_member_order_json := cw_member_order_json r;
     cw_timezone_name := cw_timezone_name r; cw_interval_days := cw_interval_days r;
     cw_due_at := ct_due_at t; cw_created_at := cw_created_at r; cw_updated_at := at_ |}.

(** The transaction of [defer]. *)
Definition defer_tx (e : chore_env) (actor : Principal) (task_id core_id home_id : ustr)
    (expected_revision : Z) (command_id : ustr) (days : Z) : M chore_db ChoreReceipt :=
  d ← get_state;
  t ← lift (load d task_id core_id home_id);
  _ ← lift (assert_task_current d t);
  found ← lift (replay d t command_id actor Deferred);
  match found with
  | Some receipt => mret receipt
  | None =>
      _ ← lift (raise_if (ct_revision t <> expected_revision) (ApiError "revision_conflict" 409));
      _ ← lift (raise_if (p_role actor <> Admin /\ u (p_id actor) <> ct_assignee_id t)
                  (ApiError "forbidden" 403));
      due_at ← lift (days_later (ct_timezone_name t) (ct_due_at t) days);
      let updated := deferred_task t due_at in
      _ ← put_state (update_task (ct_id t) expected_revision (set_deferred updated (ch_now e)) d).1;
      append e updated command_id Deferred (u (p_id actor)) (ch_now e)
  end.

Definition defer (e : chore_env) (actor : Principal) (task_id core_id home_id : ustr)
    (expected_revision : Z) (command_id : ustr) (days : Z) : M chore_db ChoreReceipt :=
  _ ← lift (raise_if (expected_revision < 1 \/ ~ _identifier command_id \/ ~ 1 <= days <= 30)
              (ApiError "invalid_request" 400));
  transaction (defer_tx e actor task_id core_id home_id expected_revision command_id days).

(** ** Reading *)

Definition authorize_read (actor : Principal) (t : ChoreTask) : res unit :=
  raise_if (p_role actor <> Admin /\ u (p_id actor) ∉ ct_member_order t) (ApiError "forbidden" 403).

Definition get_task d (actor : Principal) (task_id core_id home_id : ustr) : res ChoreTask :=
  t ← load d task_id core_id home_id;
  _ ← assert_task_current d t;
  _ ← authorize_read actor t;
  Ok t.

Definition chore_due_le (a b : chore_row) : Prop :=
  cw_due_at a < cw_due_at b \/ (cw_due_at a = cw_due_at b /\ ustr_le (cw_id a) (cw_id b)).
#[local] Instance chore_due_le_dec a b : Decision (chore_due_le a b).
Proof. unfold chore_due_le. apply _. Defined.

Definition list_tasks d (actor : Principal) (core_id home_id : ustr)
    (current_members : HouseholdMembers) (limit : Z) : res (list ChoreTask) :=
  _ ← validate_scope core_id home_id;
  _ ← raise_if (~ 1 <= limit <= 256) (ApiError "invalid_request" 400);
  let rows := take (Z.to_nat (limit + 1))
    (py_sorted chore_due_le
       (filter (fun r => cw_core_id r = core_id /\ cw_home_id r = home_id) (cd_tasks d))) in
  _ ← raise_if (Z.of_nat (length rows) > limit) (ApiError "fair_chore_limit_reached" 413);
  tasks ← fold_res (fun acc r => t ← task_of r; Ok (acc ++ [t])) [] rows;
  _ ← for_each (assert_task_current d) tasks;
  if decide (p_role actor = Admin) then Ok tasks
  else
    _ ← raise_if (u (p_id actor) ∉ hm_ids current_members) (ApiError "forbidden" 403);
    Ok (filter (fun t => u (p_id actor) ∈ ct_member_order t) tasks).

Definition chore_receipt d (actor : Principal) (command_id core_id home_id : ustr)
  : res (option ChoreReceipt) :=
  let invalid := StartupError "fair_chore_history_invalid" in
  _ ← validate_scope core_id home_id;
  _ ← raise_if (~ _identifier command_id) (ApiError "invalid_request" 400);
  let mine := cw_id <$> filter (fun r => cw_core_id r = core_id /\ cw_home_id r = home_id)
                          (cd_tasks d) in
  match filter (fun e => cv_command_id e = command_id /\ cv_task_id e ∈ mine) (cd_events d) with
  | [] => Ok None
  | [row] =>
      t ← load d (cv_task_id row) core_id home_id;
      _ ← assert_task_current d t;
      _ ← raise_if (cv_actor_id row <> u (p_id actor) /\ p_role actor <> Admin)
            (ApiError "forbidden" 403);
      receipt ← receipt_ (cv_receipt_json row);
      _ ← raise_if (cr_command_id receipt <> command_id) invalid;
      Ok (Some receipt)
  | _ => Raise invalid
  end.

Definition chore_history d (actor : Principal) (task_id core_id home_id : ustr)
  : res (list ChoreEvent) :=
  t ← load d task_id core_id home_id;
  events ← verified_history d (ct_id t);
  _ ← authorize_read actor t;
  Ok events.
End store.

(** ** Receipt round trip *)

Lemma chore_action_of_name a : chore_action_of (chore_action_name a) = Some a.
Proof. by destruct a. Qed.

Lemma order_of_json_json ids : order_of_json (order_json ids) = Some ids.
Proof.
  unfold order_of_json, order_json. apply mapM_Some, Forall2_fmap_l, Forall_Forall2_diag.
  by apply Forall_forall.
Qed.

Lemma order_json_of_json v ids : order_of_json v = Some ids -> v = order_json ids.
Proof.
  destruct v as [| | | | | |l|]; try done. cbn. intros Hl. unfold order_json. f_equal.
  apply mapM_Some in Hl. induction Hl as [|v i l ids Hv _ IH]; [done|]. cbn. f_equal; [|done].
  by destruct v; try discriminate Hv; injection Hv as <-.
Qed.

Lemma task_of_json_json t : task_of_json (task_json t) = Some t.
Proof.
  transitivity (order ← order_of_json (order_json (ct_member_order t));
    Some {| ct_id := ct_id t; ct_core_id := ct_core_id t; ct_home_id := ct_home_id t;
            ct_title := ct_title t; ct_revision := ct_revision t;
            ct_assignee_id := ct_assignee_id t; ct_members_revision := ct_members_revision t;
            ct_member_order := order; ct_timezone_name := ct_timezone_name t;
            ct_interval_days := ct_interval_days t; ct_due_at := ct_due_at t |}); [reflexivity|].
  rewrite order_of_json_json. by destruct t.
Qed.

Lemma receipt_of_json_json r : receipt_of_json (receipt_json r) = Some r.
Proof.
  transitivity (a ← chore_action_of (chore_action_name (cr_action r));
    t ← task_of_json (task_json (cr_task r));
    Some {| cr_event_id := cr_event_id r; cr_command_id := cr_command_id r; cr_action := a;
            cr_task := t |}); [reflexivity|].
  rewrite chore_action_of_name. cbn [mbind option_bind]. rewrite task_of_json_json. by destruct r.
Qed.

(** ** The rotation *)

Section rotation.
Context `{UnicodeData}.

Record members_ok (m : HouseholdMembers) : Prop := {
  mo_revision : 1 <= hm_revision m;
  mo_some : hm_ids m <> [];
  mo_nodup : NoDup (hm_ids m);
  mo_identifiers : Forall _identifier (hm_ids m);
}.

Lemma HouseholdMembers_new_ok revision ids m :
  HouseholdMembers_new revision ids = Ok m -> members_ok m.
Proof.
  unfold HouseholdMembers_new. intros Hn. inv_ok. passed. constructor; cbn; try done; [lia|].
  intros ->. cbn in *. lia.
Qed.

Lemma next_assignee_ok t m :
  ct_assignee_id t ∈ ct_member_order t -> members_ok m ->
  exists i, next_assignee t m = Ok i /\ i ∈ hm_ids m.
Proof.
  intros Ha Hm. unfold next_assignee.
  destruct (list_find _ _) as [[i x]|] eqn:Ef.
  2:{ apply list_find_None in Ef. rewrite Forall_forall in Ef. by destruct (Ef _ Ha). }
  set (candidates := _ ++ _ ++ _).
  destruct (filter (fun i => i ∈ hm_ids m) candidates) as [|y l] eqn:E.
  - exfalso. destruct Hm as [_ Hsome _ _]. destruct (hm_ids m) as [|z ids] eqn:Eids; [done|].
    assert (z ∈ candidates) as Hz.
    { unfold candidates. rewrite !elem_of_app.
      destruct (decide (z ∈ ct_member_order t)) as [Hin|Hin].
      - rewrite <- (take_drop (S i)) in Hin. apply elem_of_app in Hin as [?|?]; auto.
      - right. right. apply list_elem_of_filter. split; [done|left]. }
    assert (z ∈ filter (fun i => i ∈ z :: ids) candidates) as Hf.
    { apply list_elem_of_filter. split; [left|done]. }
    rewrite E in Hf. by apply elem_of_nil in Hf.
  - exists y. split; [done|].
    assert (y ∈ filter (fun i => i ∈ hm_ids m) candidates) as Hf by (rewrite E; left).
    by apply list_elem_of_filter in Hf as [? _].
Qed.

(** With the members unchanged, the turn goes to the next in the order. *)
Lemma next_assignee_same t m i a :
  hm_ids m = ct_member_order t -> NoDup (ct_member_order t) ->
  ct_member_order t !! i = Some (ct_assignee_id t) ->
  next_assignee t m = Ok a ->
  ct_member_order t !! (S i mod length (ct_member_order t))%nat = Some a.
Proof.
  intros Hm Hn Hi Ha. unfold next_assignee in Ha. rewrite Hm in Ha.
  set (ids := ct_member_order t) in *.
  assert (list_find (fun x => x = ct_assignee_id t) ids = Some (i, ct_assignee_id t)) as Ef.
  { apply list_find_Some. split_and!; [done|done|]. intros j y Hj Hlt ->.
    pose proof (NoDup_lookup _ _ _ _ Hn Hi Hj). lia. }
  rewrite Ef in Ha. rewrite (filter_none _ ids) in Ha by naive_solver. rewrite app_nil_r in Ha.
  rewrite (filter_all _ (drop _ _ ++ _)) in Ha.
  2:{ intros x [Hx|Hx]%elem_of_app; [by eapply subseteq_drop|by eapply subseteq_take]. }
  apply require_some_ok in Ha. pose proof (lookup_lt_Some _ _ _ Hi) as Hlt.
  destruct (decide (S i = length ids)) as [E|E].
  - rewrite E, Nat.Div0.mod_same. rewrite E, drop_all in Ha. rewrite firstn_all in Ha.
    by destruct ids.
  - rewrite Nat.mod_small by lia. rewrite <- Ha.
    destruct (drop (S i) ids) as [|y l] eqn:Ed.
    + apply (f_equal length) in Ed. rewrite length_drop in Ed. cbn in Ed. lia.
    + cbn. by rewrite <- (Nat.add_0_r (S i)), <- lookup_drop, Ed.
Qed.
End rotation.

(** ** What a verified history says *)

(** The event holds a receipt of itself for the task. *)
Definition tells (e : chore_event_row) (t : ChoreTask) : Prop :=
  receipt_of_json (cv_receipt_json e)
  = Some {| cr_event_id := cv_event_id e; cr_command_id := cv_command_id e;
            cr_action := cv_action e; cr_task := t |} /\
  ct_id t = cv_task_id e /\ ct_revision t = cv_revision e.

(** What a command may make of a task. *)
Inductive turn `{UnicodeData} : chore_action -> ChoreTask -> ChoreTask -> Prop :=
  | turn_completed t m a due :
      members_ok m -> ct_members_revision t <= hm_revision m -> next_assignee t m = Ok a ->
      turn Completed t (completed_task t a m due)
  | turn_deferred t due : turn Deferred t (deferred_task t due).

(** A task's events, from its creation to its present state. *)
Inductive history_of `{UnicodeData} : list chore_event_row -> ChoreTask -> Prop :=
  | history_created e t :
      tells e t -> cv_action e = Created -> head (ct_member_order t) = Some (ct_assignee_id t) ->
      NoDup (ct_member_order t) -> history_of [e] t
  | history_turn l e t t' :
      history_of l t -> tells e t' -> turn (cv_action e) t t' -> history_of (l ++ [e]) t'.

Section histories.
Context `{UnicodeData}.
Variable hmac_hex : jval -> string.
Variable zone_info : ustr -> zone_lookup.
Local Notation task_of := (task_of zone_info).
Local Notation verified := (verified_history hmac_hex).
#[local] Existing Instance chore_sequence_le_dec.
#[local] Existing Instance chore_row_clash_dec.
#[local] Existing Instance chore_event_clash_dec.
#[local] Existing Instance command_ok_dec.
#[local] Instance chain_of_chores : ChainRow chore_event_row string := chore_chain hmac_hex.
Implicit Types d : chore_db.

Definition events_of d (task_id : ustr) : list chore_event_row :=
  filter (fun e => cv_task_id e = task_id) (cd_events d).

Lemma history_last l t : history_of l t -> exists e, last l = Some e /\ tells e t.
Proof. destruct 1; [|rewrite last_snoc]; eauto. Qed.

Lemma history_tells l t : history_of l t -> Forall (fun e => exists t', tells e t') l.
Proof.
  induction 1 as [e t Ht|l e t t' Hl IH Ht _]; [repeat constructor; eauto|].
  apply Forall_app. split; [done|]. repeat constructor; eauto.
Qed.

Lemma verify_event_ok task_id p evs e acc :
  cv_task_id e = task_id ->
  verify_event hmac_hex task_id (p, evs) e = Ok acc <->
  link_ok p e /\ (exists t, tells e t) /\ acc = (cv_event_hash e, evs ++ [chore_event_of e]).
Proof.
  intros <-. unfold verify_event, link_ok, tells, receipt_.
  cbn [row_previous row_stored row_computed chain_of_chores chore_chain]. split.
  - intros Hv. inv_ok. passed. split_and!; try done.
    match goal with H : receipt_of_json _ = Some ?r |- _ => exists (cr_task r); rewrite H; destruct r end.
    cbn in *. subst. done.
  - intros ([Hp Hh] & (t & Hr & Hi & Hv) & ->).
    rewrite raise_if_no by naive_solver. cbn. rewrite Hr. cbn.
    by rewrite raise_if_no by naive_solver.
Qed.

Lemma verify_events task_id rows p evs acc :
  Forall (fun e => cv_task_id e = task_id) rows ->
  fold_res (verify_event hmac_hex task_id) (p, evs) rows = Ok acc <->
  chained p rows /\ Forall (fun e => exists t, tells e t) rows /\
  acc = (chain_head p rows, evs ++ (chore_event_of <$> rows)).
Proof.
  intros Hid. revert p evs. induction Hid as [|e rows He Hid IH]; intros p evs; cbn [fold_res].
  - cbn. rewrite app_nil_r. unfold chain_head. cbn. naive_solver.
  - rewrite bind_ok, Forall_cons, chain_head_cons. cbn [chained fmap list_fmap]. split.
    + intros ([p' evs'] & (Hl & Hg & E)%verify_event_ok & Hr); [|done]. injection E as -> ->.
      apply IH in Hr as (? & ? & ->). by rewrite <- app_assoc.
    + intros ((Hl & Hc) & (Hg & Hr) & ->). eexists. split; [by apply verify_event_ok|].
      apply IH. by rewrite <- app_assoc.
Qed.

(** ** The invariant *)

Record task_ok (t : ChoreTask) : Prop := {
  to_id : _identifier (ct_id t);
  to_scope : _identifier (ct_core_id t) /\ _identifier (ct_home_id t);
  to_zone : zone_info (ct_timezone_name t) = ZoneFound;
  to_nodup : NoDup (ct_member_order t);
  to_identifiers : Forall _identifier (ct_member_order t);
  to_assignee : ct_assignee_id t ∈ ct_member_order t;
}.

Record task_inv d (r : chore_row) (t : ChoreTask) : Prop := {
  ti_row : task_of r = Ok t;
  ti_ok : task_ok t;
  ti_history : history_of (events_of d (cw_id r)) t;
  ti_chain : chained ""%string (events_of d (cw_id r));
}.

Record chores_inv d : Prop := {
  ci_sorted : StronglySorted (fun a b => cv_sequence a < cv_sequence b) (cd_events d);
  ci_commands : NoDup (cv_command_id <$> cd_events d);
  ci_rows : NoDup (cw_id <$> cd_tasks d);
  ci_known : Forall (fun e => cv_task_id e ∈ cw_id <$> cd_tasks d) (cd_events d);
  ci_tasks : Forall (fun r => exists t, task_inv d r t) (cd_tasks d);
}.

Lemma task_events_of d task_id : chores_inv d -> task_events d task_id = events_of d task_id.
Proof.
  intros Hd. apply py_sorted_id, StronglySorted_filter_le.
  pose proof (ci_sorted _ Hd) as Hs. clear -Hs.
  induction Hs as [|x l Hl IH Hx]; constructor; [done|].
  eapply Forall_impl; [exact Hx|]. unfold chore_sequence_le. cbn. lia.
Qed.

Lemma task_of_ok r t : task_of r = Ok t ->
  ct_id t = cw_id r /\ ct_core_id t = cw_core_id r /\ ct_home_id t = cw_home_id r /\
  ct_revision t = cw_revision r /\ cw_member_order_json r = order_json (ct_member_order t).
Proof.
  unfold Chores.task_of. intros Ht. inv_ok. cbn. split_and!; try done.
  by apply order_json_of_json.
Qed.

(** A task that the invariant covers is served. *)
Lemma inv_verified d r t : chores_inv d -> task_inv d r t ->
  verified d (cw_id r) = Ok (chore_event_of <$> events_of d (cw_id r)).
Proof.
  intros Hd Ht. unfold verified_history. rewrite task_events_of by done.
  apply bind_ok. exists (chain_head ""%string (events_of d (cw_id r)), chore_event_of <$> events_of d (cw_id r)).
  split; [|reflexivity]. apply verify_events; [|split_and!; [apply Ht| |reflexivity]].
  - apply Forall_forall. by intros e [? _]%list_elem_of_filter.
  - eapply history_tells, Ht.
Qed.

Lemma inv_current d r t : chores_inv d -> task_inv d r t ->
  assert_task_current hmac_hex d t = Ok tt.
Proof.
  intros Hd Ht. destruct (task_of_ok _ _ (ti_row _ _ _ Ht)) as (Hid & _).
  unfold assert_task_current. rewrite Hid. apply bind_ok. eexists. split; [by eapply inv_verified|].
  rewrite task_events_of by done. destruct (history_last _ _ (ti_history _ _ _ Ht)) as (e & -> & Hr & _).
  cbn. unfold receipt_. rewrite Hr. cbn. apply raise_if_no. naive_solver.
Qed.

(** ** Appending an event *)

Lemma new_event_tells i t cmd a actor at_ d : tells (new_chore_event hmac_hex i t cmd a actor at_ d) t.
Proof.
  unfold tells, new_chore_event. split; [|done].
  cbn [cv_receipt_json cv_event_id cv_command_id cv_action]. apply receipt_of_json_json.
Qed.

Lemma new_event_linked i t cmd a actor at_ d :
  chores_inv d ->
  link_ok (chain_head ""%string (events_of d (ct_id t))) (new_chore_event hmac_hex i t cmd a actor at_ d).
Proof.
  intros Hd. unfold link_ok, new_chore_event, chain_head.
  cbn [row_previous row_stored row_computed chain_of_chores chore_chain cv_previous_hash cv_event_hash].
  by rewrite task_events_of.
Qed.

Lemma append_ok e t cmd a actor at_ d r d' :
  append hmac_hex e t cmd a actor at_ d = (Ok r, d') ->
  let ev := new_chore_event hmac_hex (ch_new_event_id e) t cmd a actor at_ d in
  d' = {| cd_tasks := cd_tasks d; cd_events := cd_events d ++ [ev] |} /\
  r = {| cr_event_id := ch_new_event_id e; cr_command_id := cmd; cr_action := a; cr_task := t |} /\
  Forall (fun x => ~ chore_event_clash ev x) (cd_events d).
Proof.
  intros Ha ev. unfold append in Ha. inv_M. subst ev.
  match goal with H : insert_chore_event _ _ = Ok _ |- _ => unfold insert_chore_event in H; inv_ok end.
  match goal with H : sql_insert _ _ _ = Ok _ |- _ => apply sql_insert_ok in H as [-> Hc] end.
  done.
Qed.

Lemma events_of_snoc d ev ts task_id :
  events_of {| cd_tasks := ts; cd_events := cd_events d ++ [ev] |} task_id
  = events_of d task_id ++ if decide (cv_task_id ev = task_id) then [ev] else [].
Proof. unfold events_of. cbn [cd_events]. rewrite filter_app, filter_cons, filter_nil. by case_decide. Qed.

(** One task, new or updated, and one event that tells it. *)
Lemma inv_extend d ts t i cmd a actor at_ :
  let ev := new_chore_event hmac_hex i t cmd a actor at_ d in
  chores_inv d -> NoDup (cw_id <$> ts) ->
  (forall k, k ∈ cw_id <$> cd_tasks d \/ k = ct_id t -> k ∈ cw_id <$> ts) ->
  (forall r, r ∈ ts -> cw_id r <> ct_id t /\ r ∈ cd_tasks d \/ cw_id r = ct_id t /\ task_of r = Ok t) ->
  task_ok t -> Forall (fun x => ~ chore_event_clash ev x) (cd_events d) ->
  history_of (events_of d (ct_id t) ++ [ev]) t -> chained ""%string (events_of d (ct_id t)) ->
  chores_inv {| cd_tasks := ts; cd_events := cd_events d ++ [ev] |}.
Proof.
  intros ev Hd Hn Hk Hr Ht Hc Hh Hl. constructor; cbn [cd_tasks cd_events].
  - apply StronglySorted_snoc; [apply Hd|]. apply Forall_forall. intros x Hx. cbn.
    apply next_key_above. by apply list_elem_of_fmap_2.
  - apply snoc_column; [apply Hd|]. eapply Forall_impl; [exact Hc|]. unfold chore_event_clash. naive_solver.
  - done.
  - apply Forall_app. split; [|constructor; [by apply Hk; right|constructor]].
    eapply Forall_impl; [exact (ci_known _ Hd)|]. intros x Hx. apply Hk. by left.
  - apply Forall_forall. intros r Hin. apply Hr in Hin as [[Hne Hin]|[Hid Hrow]].
    + pose proof (ci_tasks _ Hd) as Hts. rewrite Forall_forall in Hts.
      destruct (Hts r Hin) as (t' & []). exists t'.
      assert (events_of {| cd_tasks := ts; cd_events := cd_events d ++ [ev] |} (cw_id r)
              = events_of d (cw_id r)) as E.
      { rewrite events_of_snoc, decide_False by (cbn; congruence). by rewrite app_nil_r. }
      constructor; rewrite ?E; done.
    + exists t.
      assert (events_of {| cd_tasks := ts; cd_events := cd_events d ++ [ev] |} (cw_id r)
              = events_of d (ct_id t) ++ [ev]) as E.
      { rewrite events_of_snoc, Hid, decide_True by done. done. }
      constructor; rewrite ?E; try done. apply chained_snoc; [done|]. by apply new_event_linked.
Qed.
End histories.

(** ** Commands keep the invariant *)

Section commands.
Context `{UnicodeData}.
Variable hmac_hex : jval -> string.
Variable zone_info : ustr -> zone_lookup.
Variable from_timestamp : ustr -> Z -> res Z.
Variable timestamp : ustr -> Z -> Z.
Local Notation inv := (chores_inv hmac_hex zone_info).
Local Notation task_of := (task_of zone_info).
#[local] Existing Instance chore_sequence_le_dec.
#[local] Existing Instance chore_row_clash_dec.
#[local] Existing Instance chore_event_clash_dec.
#[local] Existing Instance command_ok_dec.
#[local] Instance chain_in_commands : ChainRow chore_event_row string := chore_chain hmac_hex.
Implicit Types d : chore_db.

Lemma load_ok d task_id c h t : load zone_info d task_id c h = Ok t ->
  exists r, r ∈ cd_tasks d /\ cw_id r = task_id /\ task_of r = Ok t /\ ct_id t = task_id /\
            ct_core_id t = c /\ ct_home_id t = h.
Proof.
  unfold load. intros Hl. inv_ok.
  match goal with E : sql_one _ _ = Some ?r |- _ => apply sql_one_some in E as [Hin (Hi & Hc & Hh)]; exists r end.
  match goal with E : task_of _ = _ |- _ => destruct (task_of_ok _ _ _ E) as (E1 & E2 & E3 & _) end.
  split_and!; congruence.
Qed.

Lemma inv_row d r t : inv d -> r ∈ cd_tasks d -> task_of r = Ok t ->
  task_inv hmac_hex zone_info d r t.
Proof.
  intros Hd Hr Ht. pose proof (ci_tasks _ _ _ Hd) as Hts. rewrite Forall_forall in Hts.
  destruct (Hts r Hr) as (t' & Hi). pose proof (ti_row _ _ _ _ _ Hi).
  by assert (t = t') as -> by congruence.
Qed.

Definition chore_key (r : chore_row) : ustr * ustr * ustr := (cw_id r, cw_core_id r, cw_home_id r).

(** The one row of a task is the one an update at its revision hits. *)
Lemma updated_rows d r t f :
  inv d -> r ∈ cd_tasks d -> task_of r = Ok t -> (forall x, chore_key (f x) = chore_key x) ->
  let ts := cd_tasks (update_task (ct_id t) (ct_revision t) f d).1 in
  chore_key <$> ts = chore_key <$> cd_tasks d /\
  forall x, x ∈ ts -> cw_id x <> ct_id t /\ x ∈ cd_tasks d \/ x = f r.
Proof.
  intros Hd Hr Ht Hf. destruct (task_of_ok _ _ _ Ht) as (Hid & _ & _ & Hrev & _). cbn zeta.
  unfold update_task. cbn [fst cd_tasks]. split; [by apply sql_update_column|].
  intros x (y & Hy & ->)%sql_update_elem. case_decide as E.
  - right. f_equal. eapply nodup_column_inj; [exact (ci_rows _ _ _ Hd)|done|done|]. destruct E; congruence.
  - left. split; [|done]. intros Hxy. apply E.
    assert (y = r) as ->; [|done]. eapply nodup_column_inj; [exact (ci_rows _ _ _ Hd)|done|done|congruence].
Qed.

Lemma chore_keys_ids (l l' : list chore_row) :
  chore_key <$> l = chore_key <$> l' -> cw_id <$> l = cw_id <$> l'.
Proof.
  intros E. apply (f_equal (fmap (fun k : ustr * ustr * ustr => k.1.1))) in E.
  by rewrite <- !list_fmap_compose in E.
Qed.

(** A command on a stored task: its row is updated and an event appended. *)
Lemma inv_command d r t t' f i cmd a actor at_ :
  let ev := new_chore_event hmac_hex i t' cmd a actor at_ d in
  inv d -> r ∈ cd_tasks d -> task_of r = Ok t -> (forall x, chore_key (f x) = chore_key x) ->
  ct_id t' = ct_id t -> task_of (f r) = Ok t' -> task_ok zone_info t' -> turn a t t' ->
  Forall (fun x => ~ chore_event_clash ev x) (cd_events d) ->
  inv {| cd_tasks := cd_tasks (update_task (ct_id t) (ct_revision t) f d).1;
         cd_events := cd_events d ++ [ev] |}.
Proof.
  intros ev Hd Hr Ht Hf Hid Hrow Hok Hturn Hc.
  destruct (updated_rows d r t f Hd Hr Ht Hf) as [Hkey Hts].
  pose proof (chore_keys_ids _ _ Hkey) as Hcol.
  pose proof (inv_row _ _ _ Hd Hr Ht) as Hi. destruct (task_of_ok _ _ _ Ht) as (Hrid & _).
  apply inv_extend; try done.
  - rewrite Hcol. apply Hd.
  - intros k [Hk| ->]; rewrite Hcol; [done|]. rewrite Hid, Hrid. by apply list_elem_of_fmap_2.
  - intros x Hx. destruct (Hts x Hx) as [[Hne Hin]| ->]; [left; by rewrite Hid|right].
    split; [|done]. pose proof (Hf r) as Hkr. unfold chore_key in Hkr. congruence.
  - rewrite Hid, Hrid. eapply history_turn; [apply Hi|apply new_event_tells|done].
  - rewrite Hid, Hrid. apply Hi.
Qed.

Lemma task_of_intro r order :
  order_of_json (cw_member_order_json r) = Some order -> order <> [] -> Forall _identifier order ->
  zone_info (cw_timezone_name r) = ZoneFound -> cw_assignee_id r ∈ order ->
  task_of r = Ok {| ct_id := cw_id r; ct_core_id := cw_core_id r; ct_home_id := cw_home_id r;
        ct_title := cw_title r; ct_revision := cw_revision r;
        ct_assignee_id := cw_assignee_id r; ct_members_revision := cw_members_revision r;
        ct_member_order := order; ct_timezone_name := cw_timezone_name r;
        ct_interval_days := cw_interval_days r; ct_due_at := cw_due_at r |}.
Proof.
  intros Ho ????. unfold Chores.task_of. rewrite Ho. cbn [require_some mbind res_bind].
  rewrite !raise_if_no; naive_solver.
Qed.

Lemma completed_row r t a m due at_ :
  task_of r = Ok t -> members_ok m -> zone_info (ct_timezone_name t) = ZoneFound -> a ∈ hm_ids m ->
  task_of (set_completed (completed_task t a m due) at_ r) = Ok (completed_task t a m due).
Proof.
  intros Ht [_ Hsome _ Hid] Hz Ha. unfold Chores.task_of in Ht. inv_ok.
  by apply (task_of_intro (set_completed (completed_task _ a m due) at_ r)); [apply order_of_json_json|..].
Qed.

Lemma deferred_row r t due at_ :
  task_of r = Ok t -> task_of (set_deferred (deferred_task t due) at_ r) = Ok (deferred_task t due).
Proof.
  intros Ht. unfold Chores.task_of in Ht. inv_ok. passed.
  apply (task_of_intro (set_deferred (deferred_task _ due) at_ r)); naive_solver.
Qed.

(** What a command that returns a receipt did: it found the receipt, or it
    updated the row and appended the event. *)
Record carried_out (d : chore_db) (t t' : ChoreTask) (a : chore_action) (cmd : ustr)
    (actor : Principal) (rc : ChoreReceipt) (d' : chore_db) : Prop := {
  co_receipt : rc = {| cr_event_id := cr_event_id rc; cr_command_id := cmd; cr_action := a;
                       cr_task := t' |};
  co_turn : turn a t t';
  co_events : exists at_, cd_events d' = cd_events d ++
    [new_chore_event hmac_hex (cr_event_id rc) t' cmd a (u (p_id actor)) at_ d];
  co_rows : chore_key <$> cd_tasks d' = chore_key <$> cd_tasks d;
  co_inv : inv d';
}.

Definition found (d : chore_db) (task_id cmd : ustr) (actor : Principal) (a : chore_action)
    (rc : ChoreReceipt) : Prop :=
  exists row, sql_one (fun e => cv_task_id e = task_id /\ cv_command_id e = cmd) (cd_events d) = Some row /\
    receipt_of_json (cv_receipt_json row) = Some rc /\ cr_action rc = a /\
    ~ (cv_actor_id row <> u (p_id actor) /\ p_role actor <> Admin).

Lemma replay_ok d t cmd actor a o : replay hmac_hex d t cmd actor a = Ok o ->
  match o with
  | Some rc => found d (ct_id t) cmd actor a rc
  | None => sql_one (fun e => cv_task_id e = ct_id t /\ cv_command_id e = cmd) (cd_events d) = None
  end.
Proof.
  unfold replay, found. destruct (sql_one _ _) as [row|]; intros Hr; inv_ok; [|done].
  unfold receipt_ in *. inv_ok. exists row. split_and!; try done. by apply dec_stable.
Qed.

Lemma complete_ok e actor tid c h rev cmd at_ m d rc d' :
  inv d -> members_ok m ->
  complete hmac_hex zone_info from_timestamp timestamp e actor tid c h rev cmd at_ m d = (Ok rc, d') ->
  exists r t, r ∈ cd_tasks d /\ task_of r = Ok t /\ ct_id t = tid /\
    ct_core_id t = c /\ ct_home_id t = h /\ 1 <= rev /\ _identifier cmd /\ is_Some at_ /\
    (d' = d /\ found d tid cmd actor Completed rc \/
     exists t', carried_out d t t' Completed cmd actor rc d' /\ ct_revision t = rev /\
       (p_role actor = Admin \/ u (p_id actor) = ct_assignee_id t /\ u (p_id actor) ∈ hm_ids m) /\
       ct_member_order t' = hm_ids m /\ ct_assignee_id t' ∈ hm_ids m /\
       ct_members_revision t <= hm_revision m /\
       exists at', at_ = Some at' /\
         days_later from_timestamp timestamp (ct_timezone_name t) at' (ct_interval_days t)
         = Ok (ct_due_at t')).
Proof.
  intros Hd Hm. unfold complete, complete_tx. intros Hc. inv_M. passed. destruct at_ as [at_|]; [|done].
  simplify_eq. rename select chore_db into d.
  match goal with E : load _ _ _ _ _ = Ok _ |- _ => apply load_ok in E as (r & Hr & Hri & Ht & Hti & <- & <-) end.
  match goal with E : replay _ _ _ _ _ _ = Ok ?o |- _ => apply replay_ok in E; destruct o as [rc'|] end.
  - inv_M. exists r. eexists. split_and!; try done; [by lia|]. left. split; [done|]. congruence.
  - inv_M. passed.
    match goal with E : next_assignee ?t _ = Ok _ |- _ => rename E into Hnext; rename t into t0 end.
    pose proof (inv_row _ _ _ Hd Hr Ht) as Hi. pose proof (ti_ok _ _ _ _ _ Hi) as Hok.
    destruct (next_assignee_ok t0 m (to_assignee _ _ Hok) Hm) as (a & Ha & Hin).
    rewrite Hnext in Ha. injection Ha as ->.
    unfold update_task in Hc. cbn beta iota zeta in Hc. inv_M.
    match goal with E : append _ _ _ _ _ _ _ _ = _ |- _ => apply append_ok in E as (-> & -> & Hcl) end.
    match goal with E : days_later _ _ _ _ _ = Ok ?n |- _ => rename n into due end.
    assert (task_ok zone_info (completed_task t0 a m due)) as Hok'.
    { destruct Hok. constructor; cbn; try done; apply Hm. }
    exists r, t0. split_and!; try done; [by lia|]. right. exists (completed_task t0 a m due).
    split; [|split_and!; try done; [|lia|by eexists]].
    2:{ destruct (p_role actor); [by left|right]. split; apply dec_stable; naive_solver. }
    assert (turn Completed t0 (completed_task t0 a m due)) as Hturn by (constructor; [done|lia|done]).
    constructor; [done|done|by eexists| |].
    + by apply (updated_rows d r t0).
    + eapply (inv_command d r t0); try done. apply completed_row; try done; apply Hok.
Qed.

Lemma defer_ok e actor tid c h rev cmd days d rc d' :
  inv d ->
  defer hmac_hex zone_info from_timestamp timestamp e actor tid c h rev cmd days d = (Ok rc, d') ->
  exists r t, r ∈ cd_tasks d /\ task_of r = Ok t /\ ct_id t = tid /\
    ct_core_id t = c /\ ct_home_id t = h /\ 1 <= rev /\ _identifier cmd /\ 1 <= days <= 30 /\
    (d' = d /\ found d tid cmd actor Deferred rc \/
     exists t', carried_out d t t' Deferred cmd actor rc d' /\ ct_revision t = rev /\
       (p_role actor = Admin \/ u (p_id actor) = ct_assignee_id t)).
Proof.
  intros Hd. unfold defer, defer_tx. intros Hc. inv_M. passed. rename select chore_db into d.
  match goal with E : load _ _ _ _ _ = Ok _ |- _ => apply load_ok in E as (r & Hr & Hri & Ht & Hti & <- & <-) end.
  match goal with E : replay _ _ _ _ _ _ = Ok ?o |- _ => apply replay_ok in E; destruct o as [rc'|] end.
  - inv_M. exists r. eexists. split_and!; try done; try lia. left. split; [done|]. congruence.
  - inv_M. passed. subst rev.
    match goal with E : days_later _ _ (ct_timezone_name ?t) _ _ = Ok ?n |- _ => rename n into due; rename t into t0 end.
    pose proof (inv_row _ _ _ Hd Hr Ht) as Hi. pose proof (ti_ok _ _ _ _ _ Hi) as Hok.
    match goal with E : append _ _ _ _ _ _ _ _ = _ |- _ => apply append_ok in E as (-> & -> & Hcl) end.
    assert (task_ok zone_info (deferred_task t0 due)) as Hok' by (destruct Hok; by constructor).
    assert (turn Deferred t0 (deferred_task t0 due)) as Hturn by constructor.
    exists r, t0. split_and!; try done; try lia. right. exists (deferred_task t0 due).
    split; [|split; [done|]].
    2:{ destruct (p_role actor); [by left|right]. apply dec_stable; naive_solver. }
    constructor; [done|done|by eexists| |].
    + by apply (updated_rows d r t0).
    + eapply (inv_command d r t0); try done. by apply deferred_row.
Qed.

Lemma create_ok e actor c h title m zone n due cmd d t d' :
  inv d -> members_ok m -> _identifier (ch_new_task_id e) ->
  create_task hmac_hex zone_info from_timestamp e actor c h title m zone n due cmd d = (Ok t, d') ->
  (d' = d /\ exists r, r ∈ cd_tasks d /\ task_of r = Ok t) \/
  inv d' /\ ct_id t ∉ cw_id <$> cd_tasks d /\
  (exists r, cd_tasks d' = cd_tasks d ++ [r] /\ task_of r = Ok t) /\
  exists i cmd at_, cd_events d' = cd_events d ++
    [new_chore_event hmac_hex i t cmd Created (u (p_id actor)) at_ d].
Proof.
  intros Hd Hm He. unfold create_task, create_task_tx, validate_scope. intros Hc. inv_M. passed.
  rename select chore_db into d. destruct (sql_one _ _) as [previous|] eqn:Ep.
  - inv_M. left. split; [done|].
    match goal with E : load _ _ _ _ _ = Ok _ |- _ => apply load_ok in E as (r & Hr & _ & Ht & _) end.
    by exists r.
  - inv_M. right.
    match goal with E : append _ _ _ _ _ _ _ _ = _ |- _ => apply append_ok in E as (-> & -> & Hcl) end.
    unfold insert_task in *. inv_M.
    match goal with E : sql_insert _ _ _ = Ok _ |- _ => apply sql_insert_ok in E as [-> Hfresh] end.
    match goal with E : head (hm_ids m) = Some ?x |- _ => rename x into a; rename E into Ha end.
    assert (a ∈ hm_ids m) as Hin by (destruct (hm_ids m); [done|injection Ha as ->; left]).
    assert (ch_new_task_id e ∉ cw_id <$> cd_tasks d) as Hnew.
    { intros (y & Hx & Hin')%list_elem_of_fmap. rewrite Forall_forall in Hfresh.
      by apply (Hfresh y Hin'). }
    match goal with |- context [append _ _ ?x] => idtac | |- context [new_chore_event _ _ ?x] => set (t := x) in * end.
    assert (task_of (row_of e t) = Ok t) as Hrow.
    { apply (task_of_intro (row_of e t) (hm_ids m)); cbn -[order_json order_of_json]; try done;
        [apply order_of_json_json|apply Hm..|]. by destruct (zone_info _). }
    assert (task_ok zone_info t) as Hok.
    { constructor; cbn; try done; try apply Hm. by destruct (zone_info _). }
    split; [|split; [done|split; [by eexists|by do 3 eexists]]].
    assert (events_of d (ct_id t) = []) as Hnone.
    { apply filter_none. intros y Hx E. apply Hnew. change (cv_task_id y = ch_new_task_id e) in E. rewrite <- E.
      pose proof (ci_known _ _ _ Hd) as Hk. rewrite Forall_forall in Hk. by apply Hk. }
    eapply (inv_extend hmac_hex zone_info d (cd_tasks d ++ [row_of e t]) t); try done; rewrite ?Hnone.
    + apply snoc_column; [apply Hd|]. apply Forall_forall. intros y Hx E. apply Hnew.
      change (ch_new_task_id e = cw_id y) in E. rewrite E. by apply list_elem_of_fmap_2.
    + intros k. rewrite fmap_app, elem_of_app. cbn. rewrite list_elem_of_singleton. done.
    + intros y [Hx| ->%list_elem_of_singleton]%elem_of_app; [left|right; done].
      split; [|done]. intros E. apply Hnew.
      change (cw_id y = ch_new_task_id e) in E. rewrite <- E. by apply list_elem_of_fmap_2.
    + apply history_created; [apply new_event_tells|done|done|apply Hm].
    + done.
Qed.
End commands.

(** ** Fairness *)

Section fairness.
Context `{UnicodeData}.

(** The task that an event's receipt holds. *)
Definition task_at (e : chore_event_row) : option ChoreTask :=
  cr_task <$> receipt_of_json (cv_receipt_json e).

(** Who was given the turn by the completions among some events. *)
Definition turns_given (l : list chore_event_row) : list ustr :=
  omap (fun e => ct_assignee_id <$> task_at e) (filter (fun e => cv_action e = Completed) l).

Lemma tells_at e t : tells e t -> task_at e = Some t.
Proof. intros (E & _). unfold task_at. by rewrite E. Qed.

Lemma history_snoc l e t : l <> [] -> history_of (l ++ [e]) t ->
  exists t', history_of l t' /\ tells e t /\ turn (cv_action e) t' t.
Proof.
  intros Hl Hh. inversion Hh as [e' t' ? ? ? ? E|l' e' t' ? ? ? ? E]; subst.
  - destruct l; [done|]. destruct l; discriminate.
  - apply app_inj_tail in E as [-> ->]. eauto.
Qed.

Lemma rotate_step {A} (ids : list A) i k :
  (i < length ids)%nat -> (k < length ids)%nat ->
  rotate (S i) ids !! k = ids !! (S ((i + k) mod length ids) mod length ids)%nat.
Proof.
  intros Hi Hk. rewrite lookup_rotate_r by done. f_equal. unfold rotate_nat_add.
  rewrite <- Nat2Z.inj_add, <- Nat2Z.inj_mod, Nat2Z.id.
  rewrite <- (Nat.add_1_l ((i + k) mod length ids)), Nat.Div0.add_mod_idemp_r. done.
Qed.

Lemma rotate_perm {A} n (ids : list A) : rotate n ids ≡ₚ ids.
Proof. unfold rotate. rewrite Permutation_app_comm. by rewrite take_drop. Qed.

(** While the order stays the same, the completions give the turns in the
    order's rotation. *)
Lemma turns_rotate pre e0 win t ids :
  NoDup ids -> history_of (pre ++ e0 :: win) t ->
  Forall (fun e => ct_member_order <$> task_at e = Some ids) (e0 :: win) ->
  (forall e t', e ∈ e0 :: win -> task_at e = Some t' -> ct_assignee_id t' ∈ ids) ->
  let k := length (filter (fun e => cv_action e = Completed) win) in
  (k <= length ids)%nat ->
  exists i t0, task_at e0 = Some t0 /\ ids !! i = Some (ct_assignee_id t0) /\
    turns_given win = take k (rotate (S i) ids) /\
    ids !! ((i + k) mod length ids)%nat = Some (ct_assignee_id t) /\ ct_member_order t = ids.
Proof.
  intros Hn. revert t. induction win as [|e win IH] using rev_ind; intros t Hh Hids Hin; cbn zeta; intros Hk.
  - destruct (history_last _ _ Hh) as (e & He & Ht). rewrite last_snoc in He. injection He as <-.
    apply Forall_cons in Hids as [Ho _]. apply tells_at in Ht. rewrite Ht in Ho. injection Ho as Ho.
    destruct (list_elem_of_lookup_1 ids (ct_assignee_id t)) as [i Hi]; [by eapply (Hin e0); [left|]|].
    exists i, t. split_and!; try done. rewrite Nat.add_0_r, Nat.mod_small; [done|].
    by eapply lookup_lt_Some.
  - assert (pre ++ e0 :: win ++ [e] = (pre ++ e0 :: win) ++ [e]) as E by by rewrite <- app_assoc.
    rewrite E in Hh. apply history_snoc in Hh as (t' & Hh & Ht & Hturn); [|by destruct pre].
    rewrite app_comm_cons, Forall_app in Hids. destruct Hids as [Hids He].
    apply Forall_cons in He as [He _]. rewrite (tells_at _ _ Ht) in He. injection He as He.
    rewrite filter_app, length_app in Hk.
    destruct (IH t' Hh Hids) as (i & t0 & H0 & Hi & Hg & Ha & Hm).
    { intros x y Hx. apply Hin. rewrite app_comm_cons. apply elem_of_app. by left. }
    { cbn zeta. lia. }
    exists i, t0. split; [done|]. split; [done|].
    unfold turns_given in *. rewrite filter_app, omap_app, filter_cons, filter_nil, Hg.
    rewrite filter_cons, filter_nil in Hk.
    set (k0 := length (filter (fun e => cv_action e = Completed) win)) in *.
    pose proof (lookup_lt_Some _ _ _ Hi) as Hlt.
    destruct Hturn as [t' m a due Hmo _ Hnext|t' due]; cbn [ct_member_order completed_task deferred_task] in Hm, He.
    + rewrite decide_True in * by done. cbn [length app] in Hk. cbn [omap list_omap].
      rewrite (tells_at _ _ Ht), length_app. cbn [fmap option_fmap option_map length ct_assignee_id completed_task].
      assert (ids !! (S ((i + k0) mod length ids) mod length ids)%nat = Some a) as Hnew.
      { rewrite <- Hm. apply (next_assignee_same t' m); rewrite ?Hm; try done. }
      split_and!; try done.
      * rewrite Nat.add_1_r. symmetry. apply take_S_r. rewrite rotate_step by lia. exact Hnew.
      * rewrite <- Hnew. f_equal. rewrite <- (Nat.add_1_l ((i + k0) mod length ids)).
        rewrite Nat.Div0.add_mod_idemp_r. f_equal. fold k0. lia.
    + rewrite decide_False in * by done. cbn [omap list_omap]. rewrite !app_nil_r. done.
Qed.

Lemma history_prefix l1 l2 t : l1 <> [] -> history_of (l1 ++ l2) t -> exists t', history_of l1 t'.
Proof.
  intros Hl. revert t. induction l2 as [|e l2 IH] using rev_ind; intros t.
  - rewrite app_nil_r. eauto.
  - rewrite app_assoc. intros (t' & Hh & _)%history_snoc; [eauto|]. by destruct l1.
Qed.

(** Every task of a history has its assignee in its order, without repetition. *)
Lemma history_orders l t : history_of l t ->
  Forall (fun e => forall t', task_at e = Some t' ->
    ct_assignee_id t' ∈ ct_member_order t' /\ NoDup (ct_member_order t')) l /\
  ct_assignee_id t ∈ ct_member_order t /\ NoDup (ct_member_order t).
Proof.
  assert (forall e t, tells e t -> ct_assignee_id t ∈ ct_member_order t /\ NoDup (ct_member_order t) ->
    forall t', task_at e = Some t' -> ct_assignee_id t' ∈ ct_member_order t' /\ NoDup (ct_member_order t')) as Hone.
  { intros e t' He%tells_at ? t'' E. congruence. }
  induction 1 as [e t He _ Hhd Hn|l e t t' Hh [IH [Ha Hn]] He Hturn].
  - assert (ct_assignee_id t ∈ ct_member_order t) by (destruct (ct_member_order t); [done|injection Hhd as ->; left]).
    split; [|done]. constructor; [|constructor]. by eapply Hone.
  - assert (ct_assignee_id t' ∈ ct_member_order t' /\ NoDup (ct_member_order t')) as Ht'.
    { destruct Hturn as [t m a due Hm _ Hnext|t due]; cbn; [|done]. split; [|apply Hm].
      destruct (next_assignee_ok t m Ha Hm) as (a' & E & ?). congruence. }
    split; [|done]. apply Forall_app. split; [done|]. constructor; [|constructor]. by eapply Hone.
Qed.
End fairness.

(** ** Reachable stores *)

Section reachable.
Context `{UnicodeData}.
Variable hmac_hex : jval -> string.
Variable zone_info : ustr -> zone_lookup.
Variable from_timestamp : ustr -> Z -> res Z.
Variable timestamp : ustr -> Z -> Z.
Local Notation inv := (chores_inv hmac_hex zone_info).
Implicit Types d : chore_db.

(** Any command of anyone, whatever it answers; [uuid4().hex] is an
    identifier. *)
Inductive chore_step d d' : Prop :=
  | step_create e actor c h title m zone n due cmd r :
      _identifier (ch_new_task_id e) -> members_ok m ->
      create_task hmac_hex zone_info from_timestamp e actor c h title m zone n due cmd d = (r, d') ->
      chore_step d d'
  | step_complete e actor tid c h rev cmd at_ m r :
      members_ok m ->
      complete hmac_hex zone_info from_timestamp timestamp e actor tid c h rev cmd at_ m d = (r, d') ->
      chore_step d d'
  | step_defer e actor tid c h rev cmd days r :
      defer hmac_hex zone_info from_timestamp timestamp e actor tid c h rev cmd days d = (r, d') ->
      chore_step d d'.

Definition no_chores : chore_db := {| cd_tasks := []; cd_events := [] |}.
Definition chores_reachable d : Prop := rtc chore_step no_chores d.

(** What a step keeps: the events, and every task in its household. *)
Definition grows d d' : Prop :=
  (exists l, cd_events d' = cd_events d ++ l) /\
  chore_key <$> cd_tasks d `prefix_of` chore_key <$> cd_tasks d'.

Lemma grows_refl d : grows d d.
Proof. split; [exists []; by rewrite app_nil_r|done]. Qed.

Lemma command_grows d t t' a cmd actor rc d' :
  carried_out hmac_hex zone_info d t t' a cmd actor rc d' -> grows d d'.
Proof. intros []. split; [destruct co_events0 as [? ->]; eauto|]. by rewrite co_rows0. Qed.

Lemma step_keeps d d' : inv d -> chore_step d d' -> inv d' /\ grows d d'.
Proof.
  intros Hd [e actor c h title m zone n due cmd r He Hm E|e actor tid c h rev cmd at_ m r Hm E
            |e actor tid c h rev cmd days r E]; destruct r as [x|x].
  - apply create_ok in E as [[-> _]|(Hd' & _ & (row & Hr & _) & (i & ? & ? & He'))]; [by split; [|apply grows_refl]| |done..].
    split; [done|]. split; [eauto|]. rewrite Hr, fmap_app. by apply prefix_app_r.
  - assert (rolls_back (create_task hmac_hex zone_info from_timestamp e actor c h title m zone n due cmd)) as Hrb.
    { unfold create_task. repeat (apply rolls_back_lift; intros). apply rolls_back_transaction. }
    apply Hrb in E as ->. split; [done|apply grows_refl].
  - apply complete_ok in E as (? & ? & _ & _ & _ & _ & _ & _ & _ & _ & [[-> _]|(t' & Hc & _)]); [by split; [|apply grows_refl]| |done..].
    split; [apply Hc|by eapply command_grows].
  - assert (rolls_back (complete hmac_hex zone_info from_timestamp timestamp e actor tid c h rev cmd at_ m)) as Hrb.
    { unfold complete. repeat (apply rolls_back_lift; intros). apply rolls_back_transaction. }
    apply Hrb in E as ->. split; [done|apply grows_refl].
  - apply defer_ok in E as (? & ? & _ & _ & _ & _ & _ & _ & _ & _ & [[-> _]|(t' & Hc & _)]); [by split; [|apply grows_refl]| |done].
    split; [apply Hc|by eapply command_grows].
  - assert (rolls_back (defer hmac_hex zone_info from_timestamp timestamp e actor tid c h rev cmd days)) as Hrb.
    { unfold defer. repeat (apply rolls_back_lift; intros). apply rolls_back_transaction. }
    apply Hrb in E as ->. split; [done|apply grows_refl].
Qed.

Lemma no_chores_inv : inv no_chores.
Proof. constructor; cbn; constructor. Qed.

Lemma steps_keep d d' : inv d -> rtc chore_step d d' -> inv d' /\ grows d d'.
Proof.
  intros Hd Hs. revert Hd. induction Hs as [d|d d1 d2 Hs _ IH]; intros Hd; [by split; [|apply grows_refl]|].
  destruct (step_keeps _ _ Hd Hs) as [Hd1 [[l1 E1] P1]]. destruct (IH Hd1) as [Hd2 [[l2 E2] P2]].
  split; [done|]. split; [exists (l1 ++ l2); by rewrite E2, E1, app_assoc|by etrans].
Qed.

Lemma chores_reachable_inv d : chores_reachable d -> inv d.
Proof. intros Hr. by apply (steps_keep no_chores); [apply no_chores_inv|]. Qed.
End reachable.

(** ** Properties *)

Section properties.
Context `{UnicodeData}.
Variable hmac_hex : jval -> string.
Variable zone_info : ustr -> zone_lookup.
Variable from_timestamp : ustr -> Z -> res Z.
Variable timestamp : ustr -> Z -> Z.
Implicit Types d : chore_db.

Lemma load_stored d r t : chores_inv hmac_hex zone_info d -> r ∈ cd_tasks d ->
  task_of zone_info r = Ok t -> load zone_info d (cw_id r) (cw_core_id r) (cw_home_id r) = Ok t.
Proof.
  intros Hd Hr Ht. pose proof (ti_ok _ _ _ _ _ (inv_row _ _ _ _ _ Hd Hr Ht)) as [Hi [Hc Hh] _ _ _ _].
  destruct (task_of_ok _ _ _ Ht) as (E1 & E2 & E3 & _). rewrite E1 in Hi. rewrite E2 in Hc. rewrite E3 in Hh.
  unfold load, validate_scope. rewrite !raise_if_no by naive_solver. cbn [mbind res_bind].
  assert (sql_one (fun x => cw_id x = cw_id r /\ cw_core_id x = cw_core_id r /\ cw_home_id x = cw_home_id r)
            (cd_tasks d) = Some r) as ->; [|done].
  destruct (sql_one_exists (fun x => cw_id x = cw_id r /\ cw_core_id x = cw_core_id r /\ cw_home_id x = cw_home_id r)
              (cd_tasks d) r Hr) as (r' & E); [done|]. rewrite E. f_equal.
  apply sql_one_some in E as [Hr' (E & _)]. eapply nodup_column_inj; [exact (ci_rows _ _ _ Hd)|done..].
Qed.

(** C31 The store never locks itself out.  Whatever anyone called before and
    however it was answered, every stored task is served to every
    administrator and to every member of its order, with its whole verified
    history, and its turn belongs to one of its members. *)
Theorem chores_always_served d r :
  chores_reachable hmac_hex zone_info from_timestamp timestamp d -> r ∈ cd_tasks d ->
  exists t, task_of zone_info r = Ok t /\ ct_assignee_id t ∈ ct_member_order t /\
    NoDup (ct_member_order t) /\
    forall actor, p_role actor = Admin \/ u (p_id actor) ∈ ct_member_order t ->
      get_task hmac_hex zone_info d actor (cw_id r) (cw_core_id r) (cw_home_id r) = Ok t /\
      chore_history hmac_hex zone_info d actor (cw_id r) (cw_core_id r) (cw_home_id r)
      = Ok (chore_event_of <$> events_of d (cw_id r)).
Proof.
  intros Hd%chores_reachable_inv Hr. pose proof (ci_tasks _ _ _ Hd) as Hts. rewrite Forall_forall in Hts.
  destruct (Hts r Hr) as (t & Hi). exists t. pose proof (ti_row _ _ _ _ _ Hi) as Ht.
  split; [done|]. split; [apply Hi|]. split; [apply Hi|]. intros actor Ha.
  unfold get_task, chore_history. rewrite (load_stored d r t) by done. cbn [mbind res_bind].
  rewrite (inv_current _ _ d r t) by done. cbn [mbind res_bind].
  destruct (task_of_ok _ _ _ Ht) as (-> & _). rewrite (inv_verified _ _ d r t) by done. cbn [mbind res_bind].
  unfold authorize_read. rewrite raise_if_no by naive_solver. done.
Qed.

(** C10 The rotation is fair.  In any stretch of a task's history during which
    the member order stays the same, as many completions as there are members
    give every member the turn exactly once, however many times the task is
    deferred in between and whatever happens to other tasks. *)
Theorem chore_rotation_fair d r pre e0 win post ids :
  chores_reachable hmac_hex zone_info from_timestamp timestamp d -> r ∈ cd_tasks d ->
  events_of d (cw_id r) = pre ++ e0 :: win ++ post ->
  Forall (fun e => ct_member_order <$> task_at e = Some ids) (e0 :: win) ->
  length (filter (fun e => cv_action e = Completed) win) = length ids ->
  turns_given win ≡ₚ ids.
Proof.
  intros Hd%chores_reachable_inv Hr He Hids Hk. pose proof (ci_tasks _ _ _ Hd) as Hts.
  rewrite Forall_forall in Hts. destruct (Hts r Hr) as (t & Hi). pose proof (ti_history _ _ _ _ _ Hi) as Hh.
  rewrite He in Hh. replace (pre ++ e0 :: win ++ post) with ((pre ++ e0 :: win) ++ post) in Hh
    by by rewrite <- app_assoc.
  apply history_prefix in Hh as (t' & Hh); [|by destruct pre].
  destruct (history_orders _ _ Hh) as [Ho _]. apply Forall_app in Ho as [_ Ho].
  rewrite Forall_forall in Ho, Hids.
  assert (forall e x, e ∈ e0 :: win -> task_at e = Some x -> ct_assignee_id x ∈ ids /\ NoDup ids) as Hin.
  { intros e x Hx Ex. specialize (Hids e Hx). rewrite Ex in Hids. injection Hids as <-. by eapply Ho. }
  destruct (turns_rotate pre e0 win t' ids) as (i & t0 & _ & _ & -> & _); try done.
  - destruct (task_at e0) as [x|] eqn:Ex; [eapply (Hin e0 x); [left|done]|].
    specialize (Hids e0 ltac:(left)). by rewrite Ex in Hids.
  - by apply Forall_forall.
  - intros e x ??. by eapply Hin.
  - cbn zeta. lia.
  - rewrite Hk, take_ge by (by rewrite length_rotate). apply rotate_perm.
Qed.

(** A completion is made with authority and once.  A completion that is
    accepted was either made before with this very command, and then changes
    nothing, or it was made at the task's current revision by an administrator
    or by the member whose turn it is; the turn then goes to a current member,
    the order becomes the current members', the task is due its interval of
    days later by the wall clock of its time zone, and the event is the task's
    last. *)
Theorem chore_completion_sound d e actor tid c h rev cmd at_ m rc d' :
  chores_reachable hmac_hex zone_info from_timestamp timestamp d -> members_ok m ->
  complete hmac_hex zone_info from_timestamp timestamp e actor tid c h rev cmd at_ m d = (Ok rc, d') ->
  cr_action rc = Completed /\
  exists r t, r ∈ cd_tasks d /\ task_of zone_info r = Ok t /\ ct_id t = tid /\
  (d' = d /\ (exists ev, ev ∈ events_of d tid /\ cv_command_id ev = cmd /\ cr_event_id rc = cv_event_id ev) \/
   ct_revision t = rev /\ turn Completed t (cr_task rc) /\
   (p_role actor = Admin \/ u (p_id actor) = ct_assignee_id t /\ u (p_id actor) ∈ hm_ids m) /\
   ct_assignee_id (cr_task rc) ∈ hm_ids m /\ ct_member_order (cr_task rc) = hm_ids m /\
   (exists now wall, at_ = Some now /\ from_timestamp (ct_timezone_name t) now = Ok wall /\
      ct_due_at (cr_task rc) = timestamp (ct_timezone_name t) (wall + ct_interval_days t * DAY_MICROS)) /\
   exists ev, events_of d' tid = events_of d tid ++ [ev] /\ tells ev (cr_task rc) /\
     cv_command_id ev = cmd /\ cv_actor_id ev = u (p_id actor)).
Proof.
  intros Hd%chores_reachable_inv Hm Hc. pose proof Hc as Hcopy.
  apply complete_ok in Hc as (r & t & Hr & Ht & Hti & _ & _ & _ & _ & _ & Hc); [|done..].
  destruct Hc as [[-> (row & Hrow & Hj & Ha & _)]|(t' & Hco & Hrev & Hauth & Hord & Hass & _ & at' & Hat & Hdue)].
  - split; [done|]. exists r, t. split_and!; try done. left. split; [done|].
    apply sql_one_some in Hrow as [Hin [Hid Hcmd]]. exists row. split; [by apply list_elem_of_filter|].
    split; [done|].
    pose proof (ti_history _ _ _ _ _ (inv_row _ _ _ _ _ Hd Hr Ht)) as Hh.
    destruct (task_of_ok _ _ _ Ht) as (E & _).
    assert (row ∈ events_of d (cw_id r)) as Hev by (apply list_elem_of_filter; split; [congruence|done]).
    apply history_tells in Hh. rewrite Forall_forall in Hh. destruct (Hh row Hev) as (x & Ex & _).
    rewrite Hj in Ex. injection Ex as ->. done.
  - destruct Hco as [Hrc Hturn [at'' Hev] _ _]. assert (cr_task rc = t' /\ cr_action rc = Completed) as [-> ->].
    { by rewrite Hrc. }
    split; [done|]. exists r, t. split_and!; try done. right. split_and!; try done.
    { unfold days_later, plus_days in Hdue. inv_ok. by do 2 eexists. }
    eexists. split; [|split; [apply new_event_tells|done]].
    unfold events_of. rewrite Hev, filter_app, filter_cons, filter_nil, decide_True; [done|].
    cbn. destruct Hturn; exact Hti.
Qed.

(** The receipt of a command is found wherever its event is. *)
Lemma found_of d ev tid cmd actor a rc :
  chores_inv hmac_hex zone_info d -> ev ∈ cd_events d -> cv_task_id ev = tid -> cv_command_id ev = cmd ->
  receipt_of_json (cv_receipt_json ev) = Some rc -> cr_action rc = a ->
  ~ (cv_actor_id ev <> u (p_id actor) /\ p_role actor <> Admin) -> found d tid cmd actor a rc.
Proof.
  intros Hd Hin <- <- Hj Ha Hact. exists ev. split_and!; try done.
  destruct (sql_one_exists (fun e => cv_task_id e = cv_task_id ev /\ cv_command_id e = cv_command_id ev)
              (cd_events d) ev Hin) as (y & E); [done|].
  rewrite E. f_equal. apply sql_one_some in E as [Hy [_ Hc]].
  eapply nodup_column_inj; [exact (ci_commands _ _ _ Hd)|done..].
Qed.

Lemma found_event d tid cmd actor a rc : found d tid cmd actor a rc ->
  exists ev, ev ∈ cd_events d /\ cv_task_id ev = tid /\ cv_command_id ev = cmd /\
    receipt_of_json (cv_receipt_json ev) = Some rc /\ cr_action rc = a /\
    ~ (cv_actor_id ev <> u (p_id actor) /\ p_role actor <> Admin).
Proof. intros (ev & (Hin & Ht & Hc)%sql_one_some & ? & ? & ?). by exists ev. Qed.

(** After a completion its receipt is found, now and ever after. *)
Lemma completed_found d e actor tid c h rev cmd at_ m rc d1 :
  chores_inv hmac_hex zone_info d -> members_ok m ->
  complete hmac_hex zone_info from_timestamp timestamp e actor tid c h rev cmd at_ m d = (Ok rc, d1) ->
  chores_inv hmac_hex zone_info d1 /\ found d1 tid cmd actor Completed rc /\
  (tid, c, h) ∈ chore_key <$> cd_tasks d1 /\ 1 <= rev /\ _identifier cmd.
Proof.
  intros Hd Hm Hc. apply complete_ok in Hc as (r & t & Hr & Ht & Hti & Hcc & Hhh & Hrev & Hcmd & _ & Hc); [|done..].
  assert ((tid, c, h) ∈ chore_key <$> cd_tasks d) as Hkey.
  { destruct (task_of_ok _ _ _ Ht) as (E1 & E2 & E3 & _). subst. rewrite E1, E2, E3.
    by apply (list_elem_of_fmap_2 chore_key). }
  destruct Hc as [[-> Hf]|(t' & Hco & _)]; [done|].
  destruct Hco as [Hrc Hturn [at' Hev] Hrows Hinv]. split; [done|]. rewrite Hrows. split_and!; try done.
  eapply found_of; [done|rewrite Hev; apply elem_of_app; right; by left|..]; try done.
  - destruct Hturn; exact Hti.
  - etransitivity; [apply receipt_of_json_json|]. f_equal. by symmetry.
  - by rewrite Hrc.
  - by intros [? _].
Qed.

(** A command that was accepted is answered once and for all.  Repeating a
    completion at any later time, with the same command, returns the very same
    receipt and changes nothing, although the task has moved on. *)
Theorem chore_retry_idempotent d e e' actor tid c h rev cmd at_ at' m m' rc d1 d2 :
  chores_reachable hmac_hex zone_info from_timestamp timestamp d -> members_ok m ->
  complete hmac_hex zone_info from_timestamp timestamp e actor tid c h rev cmd at_ m d = (Ok rc, d1) ->
  rtc (chore_step hmac_hex zone_info from_timestamp timestamp) d1 d2 -> is_Some at' ->
  complete hmac_hex zone_info from_timestamp timestamp e' actor tid c h rev cmd at' m' d2 = (Ok rc, d2).
Proof.
  intros Hd%chores_reachable_inv Hm Hc Hs [a' ->].
  apply completed_found in Hc as (Hd1 & Hf & Hkey & Hrev & Hcmd); [|done..].
  destruct (steps_keep _ _ _ _ _ _ Hd1 Hs) as (Hd2 & [l Hl] & Hpre).
  assert (found d2 tid cmd actor Completed rc) as Hf2.
  { apply found_event in Hf as (ev & Hin & ? & ? & ? & ? & ?).
    eapply found_of; [done|rewrite Hl; apply elem_of_app; by left|done..]. }
  eapply elem_of_prefix in Hkey; [|exact Hpre]. apply list_elem_of_fmap in Hkey as (r & Hk & Hr).
  injection Hk as -> -> ->. pose proof (ci_tasks _ _ _ Hd2) as Hts. rewrite Forall_forall in Hts.
  destruct (Hts r Hr) as (t & Hi). pose proof (ti_row _ _ _ _ _ Hi) as Ht.
  unfold complete. rewrite raise_if_no by naive_solver lia.
  unfold transaction, complete_tx, mbind, M_bind, lift, get_state, mret, M_ret. cbn [require_some].
  rewrite (load_stored d2 r t), (inv_current _ _ d2 r t) by done.
  destruct Hf2 as (row & Hrow & Hj & Ha & Hact). unfold replay.
  destruct (task_of_ok _ _ _ Ht) as (-> & _). rewrite Hrow, raise_if_no by done. cbn [mbind res_bind].
  rewrite (inv_verified _ _ d2 r t) by done. cbn [mbind res_bind]. unfold receipt_. rewrite Hj.
  cbn [require_some mbind res_bind]. by rewrite raise_if_no by naive_solver.
Qed.

(** A completion needs a member revision that is not older than the task's.
    While the current members' revision is smaller than the one the task
    records, nobody completes the task: every attempt that is no repetition is
    refused and changes nothing. *)
Theorem chore_needs_newer_members d r e actor tid c h rev cmd at_ m :
  chores_reachable hmac_hex zone_info from_timestamp timestamp d -> members_ok m ->
  r ∈ cd_tasks d -> cw_id r = tid -> hm_revision m < cw_members_revision r ->
  (forall ev, ev ∈ events_of d tid -> cv_command_id ev <> cmd) ->
  exists x, complete hmac_hex zone_info from_timestamp timestamp e actor tid c h rev cmd at_ m d = (Raise x, d).
Proof.
  intros Hr Hm Hin Hid Hlt Hfresh. pose proof (chores_reachable_inv _ _ _ _ _ Hr) as Hd.
  destruct (complete _ _ _ _ e actor tid c h rev cmd at_ m d) as [[rc|x] d'] eqn:E.
  - exfalso. apply complete_ok in E as (r' & t & Hr' & Ht & Hti & _ & _ & _ & _ & _ & Hc); [|done..].
    destruct (task_of_ok _ _ _ Ht) as (E1 & _).
    assert (r' = r) as -> by (eapply nodup_column_inj; [exact (ci_rows _ _ _ Hd)|done|done|congruence]).
    destruct Hc as [[_ (ev & (Hev & Hti' & Hcmd)%sql_one_some & _)]|(t' & Hc)].
    + by eapply (Hfresh ev); [apply list_elem_of_filter|].
    + destruct Hc as (_ & _ & _ & _ & _ & Hge & _). unfold task_of in Ht. inv_ok. cbn in Hge. lia.
  - exists x. f_equal.
    assert (rolls_back (complete hmac_hex zone_info from_timestamp timestamp e actor tid c h rev cmd at_ m)) as Hrb.
    { unfold complete. repeat (apply rolls_back_lift; intros). apply rolls_back_transaction. }
    by apply Hrb in E.
Qed.
End properties.

(** ** A worked household *)

Module ChoreExample.
Definition zone (z : ustr) : zone_lookup := ZoneFound.
Definition wall (z : ustr) (t : Z) : res Z := Ok t.
Definition stamp (z : ustr) (t : Z) : Z := t.
Definition tag (j : jval) : string := "tag".
Definition actor (n : string) (r : Role) : Principal :=
  {| p_id := n; p_username := n; p_role := r; p_must_change_password := false; p_family_id := "f";
     p_token_id := "t" |}.
Definition family : HouseholdMembers :=
  {| hm_revision := 5; hm_ids := [u "ann"; u "bob"; u "cid"] |}.
Definition env (n : string) : chore_env :=
  {| ch_now := 0; ch_new_task_id := u "dishes"; ch_new_event_id := u n |}.
Definition start : M chore_db ChoreTask :=
  create_task tag zone wall (env "e1") (actor "ann" Admin) (u "core") (u "home") (u " Dishes ") family
    (u "Europe/Berlin") 7 (Some 1000) (Some (u "c1")).
Definition finish (ev who cmd : string) (rev t : Z) (m : HouseholdMembers) : M chore_db ChoreReceipt :=
  complete tag zone wall stamp (env ev) (actor who Member) (u "dishes") (u "core") (u "home") rev
    (u cmd) (Some t) m.
Definition later (ev who cmd : string) (rev : Z) : M chore_db ChoreReceipt :=
  defer tag zone wall stamp (env ev) (actor who Member) (u "dishes") (u "core") (u "home") rev
    (u cmd) 2.
Definition d1 : chore_db := (start no_chores).2.
Definition d2 : chore_db := (finish "e2" "ann" "c2" 1 2000 family d1).2.
Definition d3 : chore_db := (later "e3" "bob" "c3" 2 d2).2.
Definition d4 : chore_db := (finish "e4" "bob" "c4" 3 3000 family d3).2.
Definition d5 : chore_db := (finish "e5" "cid" "c5" 4 4000 family d4).2.
Definition whose (d : chore_db) : list ustr := cw_assignee_id <$> cd_tasks d.
Example turns : whose <$> [d1; d2; d3; d4; d5] =
  [[u "ann"]; [u "bob"]; [u "bob"]; [u "cid"]; [u "ann"]].
Proof. vm_compute. reflexivity. Qed.
(** It is not Bob's turn. *)
Example out_of_turn : (finish "e2" "bob" "c2" 1 2000 family d1).1 = Raise (ApiError "forbidden" 403).
Proof. vm_compute. reflexivity. Qed.
Lemma family_ok : members_ok family.
Proof.
  apply (HouseholdMembers_new_ok 5 (hm_ids family)). vm_compute. reflexivity.
Qed.
Lemma reach1 : chores_reachable tag zone wall stamp d1.
Proof.
  eapply rtc_r; [apply rtc_refl|]. eapply (step_create _ _ _ _ _ _ (env "e1")); [|exact family_ok|apply surjective_pairing].
  vm_compute. split; [split; intros Hx; discriminate Hx|reflexivity].
Qed.
Lemma finish_step ev who cmd rev t d : chore_step tag zone wall stamp d (finish ev who cmd rev t family d).2.
Proof.
  apply (step_complete tag zone wall stamp d _ (env ev) (actor who Member) (u "dishes") (u "core") (u "home")
    rev (u cmd) (Some t) family (finish ev who cmd rev t family d).1 family_ok).
  exact (surjective_pairing _).
Qed.
Lemma later_step ev who cmd rev d : chore_step tag zone wall stamp d (later ev who cmd rev d).2.
Proof.
  apply (step_defer tag zone wall stamp d _ (env ev) (actor who Member) (u "dishes") (u "core") (u "home")
    rev (u cmd) 2 (later ev who cmd rev d).1).
  exact (surjective_pairing _).
Qed.
Lemma reach2 : chores_reachable tag zone wall stamp d2.
Proof. exact (rtc_r _ _ _ reach1 (finish_step _ _ _ _ _ _)). Qed.
Lemma reach3 : chores_reachable tag zone wall stamp d3.
Proof. exact (rtc_r _ _ _ reach2 (later_step _ _ _ _ _)). Qed.
Lemma reach4 : chores_reachable tag zone wall stamp d4.
Proof. exact (rtc_r _ _ _ reach3 (finish_step _ _ _ _ _ _)). Qed.
Lemma reach5 : chores_reachable tag zone wall stamp d5.
Proof. exact (rtc_r _ _ _ reach4 (finish_step _ _ _ _ _ _)). Qed.
Definition couple : HouseholdMembers := {| hm_revision := 4; hm_ids := [u "ann"; u "bob"] |}.
Lemma couple_ok : members_ok couple.
Proof. apply (HouseholdMembers_new_ok 4 (hm_ids couple)). vm_compute. reflexivity. Qed.
Lemma fresh_command : Forall (fun ev => cv_command_id ev <> u "c6") (events_of d5 (u "dishes")).
Proof. apply (bool_decide_unpack _). vm_compute. exact I. Qed.
Lemma from2 : rtc (chore_step tag zone wall stamp) d2 d5.
Proof.
  transitivity d3; [exact (rtc_once _ _ (later_step "e3" "bob" "c3" 2 d2))|].
  transitivity d4; [exact (rtc_once _ _ (finish_step "e4" "bob" "c4" 3 3000 d3))|].
  exact (rtc_once _ _ (finish_step "e5" "cid" "c5" 4 4000 d4)).
Qed.
End ChoreExample.

Lemma chores_always_served_witness :
  exists r t, head (cd_tasks ChoreExample.d5) = Some r /\ task_of ChoreExample.zone r = Ok t /\
    get_task ChoreExample.tag ChoreExample.zone ChoreExample.d5 (ChoreExample.actor "cid" Member)
      (cw_id r) (cw_core_id r) (cw_home_id r) = Ok t.
Proof.
  destruct (head (cd_tasks ChoreExample.d5)) as [r|] eqn:E; [|vm_compute in E; discriminate].
  assert (r ∈ cd_tasks ChoreExample.d5) as Hr by (by apply head_Some_elem_of).
  destruct (chores_always_served _ _ _ _ ChoreExample.d5 r ChoreExample.reach5 Hr) as (t & Ht & _ & _ & Hs).
  exists r, t. split; [done|]. split; [exact Ht|]. apply Hs. right.
  vm_compute in E. injection E as <-. vm_compute in Ht. injection Ht as <-. vm_compute. right. right. left.
Defined.

Lemma chore_rotation_fair_witness :
  exists pre e0 win, events_of ChoreExample.d5 (u "dishes") = pre ++ e0 :: win ++ [] /\
    turns_given win ≡ₚ [u "ann"; u "bob"; u "cid"].
Proof.
  destruct (cd_events ChoreExample.d5) as [|e0 win] eqn:E; [vm_compute in E; discriminate|].
  destruct (head (cd_tasks ChoreExample.d5)) as [r|] eqn:Er; [|vm_compute in Er; discriminate].
  assert (r ∈ cd_tasks ChoreExample.d5) as Hr by (by apply head_Some_elem_of).
  exists [], e0, win.
  assert (events_of ChoreExample.d5 (u "dishes") = [] ++ e0 :: win ++ []) as Hev.
  { rewrite app_nil_r. unfold events_of. rewrite E. vm_compute in E. injection E as <- <-. vm_compute. reflexivity. }
  split; [exact Hev|].
  apply (chore_rotation_fair _ _ _ _ ChoreExample.d5 r [] e0 win [] _ ChoreExample.reach5 Hr).
  - vm_compute in Er. injection Er as <-. exact Hev.
  - vm_compute in E. injection E as <- <-. repeat constructor.
  - vm_compute in E. injection E as <- <-. vm_compute. reflexivity.
Defined.

Lemma chore_completion_sound_witness :
  exists rc d', ChoreExample.finish "e5" "cid" "c5" 4 4000 ChoreExample.family ChoreExample.d4 = (Ok rc, d') /\
    cr_action rc = Completed.
Proof.
  destruct (ChoreExample.finish "e5" "cid" "c5" 4 4000 ChoreExample.family ChoreExample.d4)
    as [[rc|x] d'] eqn:E; [|vm_compute in E; discriminate].
  exists rc, d'. split; [done|].
  exact (proj1 (chore_completion_sound _ _ _ _ ChoreExample.d4 _ _ _ _ _ _ _ _ _ _ _
    ChoreExample.reach4 ChoreExample.family_ok E)).
Defined.

Lemma chore_retry_idempotent_witness :
  exists rc, ChoreExample.finish "e9" "ann" "c2" 1 9000 ChoreExample.family ChoreExample.d5
    = (Ok rc, ChoreExample.d5) /\ cr_event_id rc = u "e2".
Proof.
  destruct (ChoreExample.finish "e2" "ann" "c2" 1 2000 ChoreExample.family ChoreExample.d1)
    as [[rc|x] d'] eqn:E; [|vm_compute in E; discriminate].
  exists rc. split.
  - unfold ChoreExample.finish in *.
    apply (chore_retry_idempotent _ _ _ _ ChoreExample.d1 _ _ _ _ _ _ _ _ _ _ _ _ rc d' _
      ChoreExample.reach1 ChoreExample.family_ok E); [|by eexists].
    assert (d' = ChoreExample.d2) as -> by (change ChoreExample.d2 with
      (ChoreExample.finish "e2" "ann" "c2" 1 2000 ChoreExample.family ChoreExample.d1).2;
      unfold ChoreExample.finish; by rewrite E).
    exact ChoreExample.from2.
  - vm_compute in E. injection E as <- _. reflexivity.
Defined.

Lemma chore_needs_newer_members_witness :
  exists x, complete ChoreExample.tag ChoreExample.zone ChoreExample.wall ChoreExample.stamp
    (ChoreExample.env "e6") (ChoreExample.actor "ann" Admin) (u "dishes") (u "core") (u "home") 5
    (u "c6") (Some 5000) ChoreExample.couple ChoreExample.d5
  = (Raise x, ChoreExample.d5).
Proof.
  destruct (head (cd_tasks ChoreExample.d5)) as [r|] eqn:Er; [|vm_compute in Er; discriminate].
  assert (r ∈ cd_tasks ChoreExample.d5) as Hr by (by apply head_Some_elem_of).
  apply (chore_needs_newer_members _ _ _ _ ChoreExample.d5 r); [exact ChoreExample.reach5| |exact Hr|..].
  - exact ChoreExample.couple_ok.
  - vm_compute in Er. injection Er as <-. reflexivity.
  - vm_compute in Er. injection Er as <-. vm_compute. reflexivity.
  - apply Forall_forall. exact ChoreExample.fresh_command.
Defined.
