(* ===== verification/ChoreService.v ===== *)
(** * Fair chores: the household boundary

    [server/larenor_server/fair_chores/integration.py]: every request is
    counted, re-checks the caller's session and reads the household from the
    account tables; the store of [Chores] then runs under its own transaction.
    The revision of the household is a digest of its accounts. *)

From S2P Require Import Prelude Auth Admin Chores.

(** The account tables and the chore tables of one database. *)
Record core_db := { co_auth : auth_db; co_chores : chore_db }.

Definition on_auth {A} (m : M auth_db A) : M core_db A := fun d =>
  let '(r, a) := m (co_auth d) in (r, {| co_auth := a; co_chores := co_chores d |}).
Definition on_chores {A} (m : M chore_db A) : M core_db A := fun d =>
  let '(r, c) := m (co_chores d) in (r, {| co_auth := co_auth d; co_chores := c |}).

Record CoreContext := { cx_core_id : ustr; cx_home_id : ustr }.

(** The bodies of the requests ([models.py]). *)
Record CreateChore := {
  bc_commandId : ustr;
  bc_title : ustr;
  bc_timezone : ustr;
  bc_intervalDays : Z;
  bc_dueAt : Z;
}.

Record CompleteChore := { bm_commandId : ustr; bm_expectedRevision : Z }.
Record DeferChore := { bd_commandId : ustr; bd_expectedRevision : Z; bd_days : Z }.

(** The fields that [_authority] and [_task] return. *)
Record ChoreAuthority := {
  va_coreId : ustr;
  va_homeId : ustr;
  va_accountId : string;
  va_sessionId : string;
  va_membersRevision : Z;
}.

Record ChoreView := {
  vt_id : ustr;
  vt_title : ustr;
  vt_revision : Z;
  vt_assigneeId : ustr;
  vt_assigneeLabel : ustr;
  vt_dueAt : Z;
}.

Record ReceiptView := {
  vr_authority : ChoreAuthority;
  vr_eventId : ustr;
  vr_commandId : ustr;
  vr_action : chore_action;
  vr_task : ChoreView;
}.

Record CreatedView := {
  vn_authority : ChoreAuthority;
  vn_members : list (ustr * ustr);
  vn_task : ChoreView;
}.

Record ListView := {
  vl_authority : ChoreAuthority;
  vl_members : list (ustr * ustr);
  vl_tasks : list ChoreView;
}.

(** A clock tick in units of the least positive double. *)
Definition tick_time (t : Z) : Z := t * 2 ^ 1052.

Definition role_text (r : Role) : string := match r with Admin => "admin" | Member => "member" end.

(** [ORDER BY created_at,id] *)
Definition member_le (a b : user_row) : Prop :=
  u_created_at a < u_created_at b \/ (u_created_at a = u_created_at b /\ str_le (u_id a) (u_id b)).
#[export] Instance member_le_dec a b : Decision (member_le a b).
Proof. unfold member_le. apply _. Defined.

Section service.
Context `{UnicodeData}.
Variable rate_key : string -> list Z -> string.
Variable hmac_hex : jval -> string.
(** The first 64 bits of the members' HMAC, a non-negative integer. *)
Variable members_mac : jval -> Z.
Variable zone_info : ustr -> zone_lookup.
Variable from_timestamp : ustr -> Z -> res Z.
Variable timestamp : ustr -> Z -> Z.
Variable context : CoreContext.

Definition home_scope (core_id home_id : ustr) : res unit :=
  raise_if ((core_id, home_id) <> (cx_core_id context, cx_home_id context)) (ApiError "not_found" 404).

(** [SELECT ... FROM users WHERE disabled=0 AND must_change_password=0] *)
Definition eligible (d : auth_db) : list user_row :=
  py_sorted member_le (filter (fun x => u_disabled x = false /\ u_must_change x = false) (users d)).

(** The digest of the household, cut to a positive 63-bit integer. *)
Definition members_revision (rows : list user_row) : Z :=
  let payload := JList ((fun x => JList [JStr (u_id x); JStr (u_username x);
                                         JStr (role_text (u_role x)); JInt (u_revision x)]) <$> rows) in
  Z.max 1 (Z.land (members_mac payload) (2 ^ 63 - 1)).

Definition members (e : AuthEnv) (actor : Principal) (write : bool)
  : M core_db (HouseholdMembers * list (ustr * ustr)) :=
  _ ← on_auth (rate_limit rate_key e
        [((if write then "fair_chore_write" else "fair_chore_read")%string, u (p_id actor), 240)]);
  d ← get_state;
  _ ← lift (assert_current (clock e 1) (co_auth d) actor);
  let rows := eligible (co_auth d) in
  _ ← lift (raise_if (rows = [] \/ p_id actor ∉ u_id <$> rows) (ApiError "invalid_session" 401));
  m ← lift (HouseholdMembers_new (members_revision rows) ((fun x => u (u_id x)) <$> rows));
  mret (m, dict_of (fun x => u (u_id x)) (fun x => u (u_username x)) rows).

Definition authority (actor : Principal) (m : HouseholdMembers) : ChoreAuthority :=
  {| va_coreId := cx_core_id context; va_homeId := cx_home_id context; va_accountId := p_id actor;
     va_sessionId := p_family_id actor; va_membersRevision := hm_revision m |}.

Definition view_task (t : ChoreTask) (labels : list (ustr * ustr)) : ChoreView :=
  {| vt_id := ct_id t; vt_title := ct_title t; vt_revision := ct_revision t;
     vt_assigneeId := ct_assignee_id t;
     vt_assigneeLabel := default (ct_assignee_id t) (dict_get labels (ct_assignee_id t));
     vt_dueAt := ct_due_at t |}.

Definition view_receipt (actor : Principal) (m : HouseholdMembers) (r : ChoreReceipt)
    (labels : list (ustr * ustr)) : ReceiptView :=
  {| vr_authority := authority actor m; vr_eventId := cr_event_id r;
     vr_commandId := cr_command_id r; vr_action := cr_action r;
     vr_task := view_task (cr_task r) labels |}.

Definition service_list (e : AuthEnv) (actor : Principal) (core_id home_id : ustr) : M core_db ListView :=
  _ ← lift (home_scope core_id home_id);
  '(m, labels) ← members e actor false;
  d ← get_state;
  tasks ← lift (list_tasks hmac_hex zone_info (co_chores d) actor core_id home_id m 256);
  shown ← lift (fold_res (fun acc i =>
    label ← require_some (dict_get labels i) KeyError; Ok (acc ++ [(i, label)])) [] (hm_ids m));
  mret {| vl_authority := authority actor m; vl_members := shown;
          vl_tasks := (fun t => view_task t labels) <$> tasks |}.

Definition service_create (e : AuthEnv) (ce : chore_env) (actor : Principal) (core_id home_id : ustr)
    (body : CreateChore) : M core_db CreatedView :=
  _ ← lift (home_scope core_id home_id);
  '(m, labels) ← members e actor true;
  _ ← lift (raise_if (p_role actor <> Admin) (ApiError "forbidden" 403));
  t ← on_chores (create_task hmac_hex zone_info from_timestamp ce actor core_id home_id
        (bc_title body) m (bc_timezone body) (bc_intervalDays body) (Some (bc_dueAt body))
        (Some (bc_commandId body)));
  mret {| vn_authority := authority actor m; vn_members := labels; vn_task := view_task t labels |}.

(** The completion is timed by the server's clock. *)
Definition service_complete (e : AuthEnv) (ce : chore_env) (actor : Principal)
    (core_id home_id task_id : ustr) (body : CompleteChore) : M core_db ReceiptView :=
  _ ← lift (home_scope core_id home_id);
  '(m, labels) ← members e actor true;
  r ← on_chores (complete hmac_hex zone_info from_timestamp timestamp ce actor task_id core_id home_id
        (bm_expectedRevision body) (bm_commandId body) (Some (tick_time (clock e 2))) m);
  mret (view_receipt actor m r labels).

Definition service_defer (e : AuthEnv) (ce : chore_env) (actor : Principal)
    (core_id home_id task_id : ustr) (body : DeferChore) : M core_db ReceiptView :=
  _ ← lift (home_scope core_id home_id);
  '(m, labels) ← members e actor true;
  r ← on_chores (defer hmac_hex zone_info from_timestamp timestamp ce actor task_id core_id home_id
        (bd_expectedRevision body) (bd_commandId body) (bd_days body));
  mret (view_receipt actor m r labels).

Definition service_receipt (e : AuthEnv) (actor : Principal) (core_id home_id command_id : ustr)
  : M core_db (option ReceiptView) :=
  _ ← lift (home_scope core_id home_id);
  '(m, labels) ← members e actor false;
  d ← get_state;
  r ← lift (chore_receipt hmac_hex zone_info (co_chores d) actor command_id core_id home_id);
  mret ((fun r => view_receipt actor m r labels) <$> r).
End service.

(** ** The boundary on top of its parts *)

Section composition.
Context `{UnicodeData}.
Variable sha256_hex : list Z -> string.
Variable rate_key : string -> list Z -> string.
Variable settings : Settings.
Variable hmac_hex : jval -> string.
Variable members_mac : jval -> Z.
Variable zone_info : ustr -> zone_lookup.
Variable from_timestamp : ustr -> Z -> res Z.
Variable timestamp : ustr -> Z -> Z.
Variable context : CoreContext.
Local Notation account_step := (server_step sha256_hex rate_key settings).
Local Notation store_step := (chore_step hmac_hex zone_info from_timestamp timestamp).

(** A request of a session or of an administrator on the accounts, or a chore
    request of anyone, whatever it answers. *)
Inductive core_step (d d' : core_db) : Prop :=
  | core_account a : account_step (co_auth d) a -> d' = {| co_auth := a; co_chores := co_chores d |} ->
      core_step d d'
  | core_list e actor c h r : service_list rate_key hmac_hex members_mac zone_info context e actor c h d
      = (r, d') -> core_step d d'
  | core_create e ce actor c h body r : _identifier (ch_new_task_id ce) ->
      service_create rate_key hmac_hex members_mac zone_info from_timestamp context e ce actor c h body d
      = (r, d') -> core_step d d'
  | core_complete e ce actor c h tid body r :
      service_complete rate_key hmac_hex members_mac zone_info from_timestamp timestamp context
        e ce actor c h tid body d = (r, d') -> core_step d d'
  | core_defer e ce actor c h tid body r :
      service_defer rate_key hmac_hex members_mac zone_info from_timestamp timestamp context
        e ce actor c h tid body d = (r, d') -> core_step d d'
  | core_receipt e actor c h cmd r : service_receipt rate_key hmac_hex members_mac zone_info context
      e actor c h cmd d = (r, d') -> core_step d d'.

Definition core_reachable (d : core_db) : Prop :=
  exists x, active_admin x /\
    rtc core_step {| co_auth := fresh_server x; co_chores := no_chores |} d.

(** What a request does: steps of the accounts and steps of the store. *)
Definition parts (d d' : core_db) : Prop :=
  rtc account_step (co_auth d) (co_auth d') /\ rtc store_step (co_chores d) (co_chores d').

#[local] Instance parts_refl : Reflexive parts.
Proof. by split. Qed.
#[local] Instance parts_trans : Transitive parts.
Proof. intros d1 d2 d3 [??] [??]. split; by etrans. Qed.

(** A computation whose every run is made of parts. *)
Definition made_of_parts {A} (P : A -> Prop) (m : M core_db A) : Prop :=
  forall d r d', m d = (r, d') -> parts d d' /\ (forall a, r = Ok a -> P a).

Lemma parts_bind {A B} (P : A -> Prop) (Q : B -> Prop) (m : M core_db A) (f : A -> M core_db B) :
  made_of_parts P m -> (forall a, P a -> made_of_parts Q (f a)) -> made_of_parts Q (m ≫= f).
Proof.
  intros Hm Hf d r d' E. unfold mbind, M_bind in E. destruct (m d) as [[a|x] d1] eqn:E1.
  - apply Hm in E1 as [H1 HP]. apply (Hf a (HP a eq_refl)) in E as [H2 HQ]. split; [by etrans|done].
  - apply Hm in E1 as [H1 _]. injection E as <- <-. split; [done|done].
Qed.

Lemma parts_lift {A} (P : A -> Prop) (r : res A) :
  (forall a, r = Ok a -> P a) -> made_of_parts P (lift r).
Proof. intros HP d r' d' [= <- <-]. by split. Qed.

Lemma parts_ret {A} (P : A -> Prop) (a : A) : P a -> made_of_parts P (mret a).
Proof. intros HP d r d' [= <- <-]. split; [done|]. by intros ? [= <-]. Qed.

Lemma parts_get : made_of_parts (fun _ => True) get_state.
Proof. intros d r d' [= <- <-]. by split. Qed.

Lemma parts_chores {A} (m : M chore_db A) :
  (forall d r d', m d = (r, d') -> store_step d d') -> made_of_parts (fun _ => True) (on_chores m).
Proof.
  intros Hm d r d' E. unfold on_chores in E. destruct (m (co_chores d)) as [r1 c] eqn:E1.
  injection E as <- <-. apply Hm in E1. split; [|done]. split; [done|]. by apply rtc_once.
Qed.

Lemma parts_members e actor w : made_of_parts (fun ml => members_ok ml.1)
  (members rate_key members_mac e actor w).
Proof.
  unfold members. apply (parts_bind (fun _ => True)).
  { intros d r d' E. unfold on_auth in E. destruct (rate_limit _ _ _ (co_auth d)) as [r1 a] eqn:E1.
    injection E as <- <-. split; [|done]. split; [|done]. apply rtc_once. eexists. by eapply StepRateLimit. }
  intros _ _. apply (parts_bind (fun _ => True)); [apply parts_get|]. intros d _.
  do 2 (apply (parts_bind (fun _ => True)); [by apply parts_lift|]; intros _ _).
  apply (parts_bind members_ok).
  - apply parts_lift. intros m Hm. by eapply HouseholdMembers_new_ok.
  - intros m Hm. by apply parts_ret.
Qed.

Ltac parts_tac :=
  first
    [ apply (parts_bind (fun ml : HouseholdMembers * list (ustr * ustr) => members_ok ml.1));
        [apply parts_members|intros [m labels] Hm; cbn [fst] in Hm; parts_tac]
    | apply (parts_bind (fun _ => True)); [by apply parts_lift|intros ? _; parts_tac]
    | apply (parts_bind (fun _ => True)); [apply parts_get|intros ? _; parts_tac]
    | apply (parts_bind (fun _ => True)); [apply parts_chores; intros; econstructor; eassumption|intros ? _; parts_tac]
    | by apply parts_ret ].

Lemma core_step_parts d d' : core_step d d' -> parts d d'.
Proof.
  intros [a Ha ->|e actor c h r E|e ce actor c h body r He E|e ce actor c h tid body r E
         |e ce actor c h tid body r E|e actor c h cmd r E].
  - split; [by apply rtc_once|done].
  - refine (proj1 ((_ : made_of_parts (fun _ => True) _) _ _ _ E)). unfold service_list. parts_tac.
  - refine (proj1 ((_ : made_of_parts (fun _ => True) _) _ _ _ E)). unfold service_create. parts_tac.
  - refine (proj1 ((_ : made_of_parts (fun _ => True) _) _ _ _ E)). unfold service_complete. parts_tac.
  - refine (proj1 ((_ : made_of_parts (fun _ => True) _) _ _ _ E)). unfold service_defer. parts_tac.
  - refine (proj1 ((_ : made_of_parts (fun _ => True) _) _ _ _ E)). unfold service_receipt. parts_tac.
Qed.

(** The boundary refines its parts.  In every state that account requests
    and chore requests of anyone produce, in any order and failing ones
    included, the account tables are in a state of the account server and the
    chore tables in a state of the chore store: every theorem about either
    holds of the whole, and at least one administrator can log in. *)
Theorem chore_service_refines d :
  core_reachable d ->
  server_reachable sha256_hex rate_key settings (co_auth d) /\
  chores_reachable hmac_hex zone_info from_timestamp timestamp (co_chores d).
Proof.
  intros (x & Hx & Hs).
  assert (parts {| co_auth := fresh_server x; co_chores := no_chores |} d) as [Ha Hc].
  { induction Hs as [d|d1 d2 d3 H1 _ IH]; [done|]. etrans; [by apply core_step_parts|done]. }
  split; [by exists x|exact Hc].
Qed.

Lemma rate_limit_users e cats d r d' : rate_limit rate_key e cats d = (r, d') -> users d' = users d.
Proof.
  unfold rate_limit, transaction, mbind, M_bind, get_state, put_state, mret, M_ret, lift.
  cbn. by intros [= _ <-].
Qed.

(** A household of more than 32 active accounts has no chores: every request
    of anyone fails with a [ValueError] of [HouseholdMembers] or before. *)
Lemma large_household_fails e actor w d :
  (32 < length (eligible (co_auth d)))%nat ->
  forall ml d', members rate_key members_mac e actor w d <> (Ok ml, d').
Proof.
  intros Hlen ml d' E. unfold members in E. inv_M.
  match goal with E : on_auth _ _ = _ |- _ => unfold on_auth in E; rename E into Hrate end.
  destruct (rate_limit _ _ _ (co_auth d)) as [r1 a] eqn:E1. injection Hrate as _ <-.
  apply rate_limit_users in E1. cbn [co_auth] in *.
  match goal with E : HouseholdMembers_new _ _ = Ok _ |- _ => unfold HouseholdMembers_new in E; inv_ok end.
  passed. rewrite length_fmap in *. unfold eligible in *. rewrite E1 in *. unfold MAX_MEMBERS in *. lia.
Qed.
End composition.

(** ** A worked household *)

Module ChoreServiceExample.
(** A digest that happens to shrink when the household changes. *)
Definition mac (j : jval) : Z :=
  match j with JList [JList [_; _; _; JInt n]] => 100 - n | _ => 7 end.
Definition ctx : CoreContext := {| cx_core_id := u "core"; cx_home_id := u "home" |}.
(** Microseconds since the epoch, in a zone without offset. *)
Definition wall (z : ustr) (t : Z) : res Z := Ok (t * 10 ^ 6 / 2 ^ 1074).
Definition stamp (z : ustr) (w : Z) : Z := w * 2 ^ 1074 / 10 ^ 6.
Definition env (k : Z) (tag : string) : AuthEnv := AuthExample.env k tag.
Definition uuids (n : string) : chore_env :=
  {| ch_now := 0; ch_new_task_id := u "dishes"; ch_new_event_id := u n |}.
Definition before : core_db := {| co_auth := AuthExample.d1; co_chores := no_chores |}.
Definition make (d : core_db) : res CreatedView * core_db :=
  service_create AuthExample.key ChoreExample.tag mac ChoreExample.zone wall ctx
    (env 1010 "c") (uuids "e1") AuthExample.me (u "core") (u "home")
    {| bc_commandId := u "c1"; bc_title := u "Dishes"; bc_timezone := u "Europe/Berlin";
       bc_intervalDays := 7; bc_dueAt := 1000 |} d.
Definition done_by (cmd : string) (rev : Z) (d : core_db) : res ReceiptView * core_db :=
  service_complete AuthExample.key ChoreExample.tag mac ChoreExample.zone wall
    stamp ctx (env 1020 "d") (uuids cmd) AuthExample.me (u "core") (u "home")
    (u "dishes") {| bm_commandId := u cmd; bm_expectedRevision := rev |} d.
Definition after : core_db := (make before).2.
Example completed : is_ok (done_by "c2" 1 after).1 = true.
Proof. vm_compute. reflexivity. Qed.
(** The administrator's account changes in any way, so its revision grows; the
    digest of the household shrinks and the chore is stuck. *)
Definition changed : core_db :=
  {| co_auth := set_users (sql_update (fun x => u_id x = p_id AuthExample.me)
       (fun x => set_password (u_password_hash x) (u_must_change x) (u_revision x + 1) x)
       (users (co_auth after))) (co_auth after);
     co_chores := co_chores after |}.
Example stuck : (done_by "c2" 1 changed).1 = Raise (ApiError "revision_conflict" 409).
Proof. vm_compute. reflexivity. Qed.
Definition reached := core_reachable AuthExample.text AuthExample.key AuthExample.cfg ChoreExample.tag mac
  ChoreExample.zone wall stamp ctx.
Lemma reach : reached after.
Proof.
  exists AuthExample.alice. split; [done|].
  apply (rtc_r _ before); [|eapply core_create with (e := env 1010 "c") (ce := uuids "e1"); [|exact (surjective_pairing _)]].
  - apply (rtc_l _ _ {| co_auth := (rate_limit AuthExample.key (AuthExample.env 1000 "a")
      [("login_ip", u "10.0.0.2", 5); ("login_account", u "alice", 10); ("login_global", u "all", 30)]%string
      (fresh_server AuthExample.alice)).2; co_chores := no_chores |}).
    + eapply core_account; [|reflexivity]. eexists. eapply StepRateLimit. apply surjective_pairing.
    + apply rtc_once. eapply (core_account _ _ _ _ _ _ _ _ _ _ _ AuthExample.d1); [|reflexivity].
      exists (AuthExample.env 1000 "a"). eapply (StepLogin _ _ _ _ "1" "argon2:secret" None (u "tablet")).
      vm_compute. reflexivity.
  - vm_compute. split; [split; intros Hx; discriminate Hx|reflexivity].
Qed.
End ChoreServiceExample.

Lemma chore_service_refines_witness :
  exists t, get_task ChoreExample.tag ChoreExample.zone (co_chores ChoreServiceExample.after)
    AuthExample.me (u "dishes") (u "core") (u "home") = Ok t /\
  chores_reachable ChoreExample.tag ChoreExample.zone ChoreServiceExample.wall ChoreServiceExample.stamp
    (co_chores ChoreServiceExample.after).
Proof.
  eexists. split; [vm_compute; reflexivity|].
  exact (proj2 (chore_service_refines _ _ _ _ _ _ _ _ _ _ ChoreServiceExample.reach)).
Defined.
