(* ===== verification/Presence.v ===== *)
(** * Room presence: fusion of private signals

    [server/larenor_server/room_presence/fusion.py] and the contracts of
    [models.py]: batches of signals about one device are reduced, with
    hysteresis, to the room the device is in.  The engine keeps counters and
    one replay checkpoint per source, and no raw identifier.
    [PresenceAutomationHandoff] passes a present room on to an automation
    worker, once per request.  The resolvers, the worker and SHA-256 of the
    canonical JSON ([_digest]) are parameters.  Both objects live in memory;
    what an operation assigned before an exception stays assigned. *)

From S2P Require Import Prelude.

(** ** Contracts *)

Definition Confidence (n : Z) : Prop := 0 <= n <= 1000.
#[export] Instance Confidence_dec n : Decision (Confidence n).
Proof. unfold Confidence. apply _. Defined.

Record PresenceAuthority := {
  pa_coreId : string;
  pa_homeId : string;
  pa_homeRevision : Z;
  pa_accountId : string;
  pa_accountRevision : Z;
  pa_sessionFamilyId : string;
  pa_active : bool;
  pa_canReadPresence : bool;
  pa_canManagePresence : bool;
}.
#[export] Instance PresenceAuthority_eq_dec : EqDecision PresenceAuthority.
Proof. solve_decision. Defined.
Definition PresenceAuthority_valid (a : PresenceAuthority) : Prop :=
  Identity (pa_coreId a) /\ Identity (pa_homeId a) /\ Revision (pa_homeRevision a) /\
  Identity (pa_accountId a) /\ Revision (pa_accountRevision a) /\ Identity (pa_sessionFamilyId a).
#[export] Instance PresenceAuthority_valid_dec a : Decision (PresenceAuthority_valid a).
Proof. unfold PresenceAuthority_valid. solve_dec. Defined.
#[export] Instance PresenceAuthority_model : Model PresenceAuthority :=
  {| model_valid := PresenceAuthority_valid |}.

Record PresenceRoom := {
  pr_coreId : string;
  pr_homeId : string;
  pr_roomId : string;
  pr_roomRevision : Z;
}.
#[export] Instance PresenceRoom_eq_dec : EqDecision PresenceRoom.
Proof. solve_decision. Defined.
Definition PresenceRoom_valid (r : PresenceRoom) : Prop :=
  Identity (pr_coreId r) /\ Identity (pr_homeId r) /\ Identity (pr_roomId r) /\
  Revision (pr_roomRevision r).
#[export] Instance PresenceRoom_valid_dec r : Decision (PresenceRoom_valid r).
Proof. unfold PresenceRoom_valid. solve_dec. Defined.

Record PresenceDevice := {
  pd_coreId : string;
  pd_homeId : string;
  pd_deviceId : string;
  pd_deviceRevision : Z;
  pd_modelId : string;
  pd_modelRevision : Z;
  pd_consentId : string;
  pd_consentRevision : Z;
  pd_consentActive : bool;
  pd_allowAutomationHandoff : bool;
}.
#[export] Instance PresenceDevice_eq_dec : EqDecision PresenceDevice.
Proof. solve_decision. Defined.
Definition PresenceDevice_valid (d : PresenceDevice) : Prop :=
  Identity (pd_coreId d) /\ Identity (pd_homeId d) /\ Identity (pd_deviceId d) /\
  Revision (pd_deviceRevision d) /\ Identity (pd_modelId d) /\ Revision (pd_modelRevision d) /\
  Identity (pd_consentId d) /\ Revision (pd_consentRevision d).
#[export] Instance PresenceDevice_valid_dec d : Decision (PresenceDevice_valid d).
Proof. unfold PresenceDevice_valid. solve_dec. Defined.

Inductive source_kind := ha_person | ha_device_tracker | ble | uwb.
#[export] Instance source_kind_eq_dec : EqDecision source_kind.
Proof. solve_decision. Defined.
Definition source_kind_name (k : source_kind) : string :=
  match k with
  | ha_person => "ha_person" | ha_device_tracker => "ha_device_tracker"
  | ble => "ble" | uwb => "uwb"
  end.

Record PresenceSource := {
  pc_sourceId : string;
  pc_sourceKind : source_kind;
  pc_sourceRevision : Z;
}.
#[export] Instance PresenceSource_eq_dec : EqDecision PresenceSource.
Proof. solve_decision. Defined.
Definition PresenceSource_valid (s : PresenceSource) : Prop :=
  Identity (pc_sourceId s) /\ Revision (pc_sourceRevision s).
#[export] Instance PresenceSource_valid_dec s : Decision (PresenceSource_valid s).
Proof. unfold PresenceSource_valid. solve_dec. Defined.

Record PresencePolicy := {
  pp_coreId : string;
  pp_homeId : string;
  pp_homeRevision : Z;
  pp_policyId : string;
  pp_policyRevision : Z;
  pp_device : PresenceDevice;
  pp_sources : list PresenceSource;
  pp_rooms : list PresenceRoom;
  pp_enterConfidencePermille : Z;
  pp_exitConfidencePermille : Z;
  pp_enterObservations : Z;
  pp_exitObservations : Z;
  pp_maxSignalAgeMs : Z;
  pp_active : bool;
}.
#[export] Instance PresencePolicy_eq_dec : EqDecision PresencePolicy.
Proof. solve_decision. Defined.
Definition exact_scope_and_hysteresis (p : PresencePolicy) : Prop :=
  pp_exitConfidencePermille p < pp_enterConfidencePermille p /\
  (pd_coreId (pp_device p), pd_homeId (pp_device p)) = (pp_coreId p, pp_homeId p) /\
  NoDup (pr_roomId <$> pp_rooms p) /\ NoDup (pc_sourceId <$> pp_sources p) /\
  Forall (fun r => (pr_coreId r, pr_homeId r) = (pp_coreId p, pp_homeId p)) (pp_rooms p).
Definition PresencePolicy_valid (p : PresencePolicy) : Prop :=
  Identity (pp_coreId p) /\ Identity (pp_homeId p) /\ Revision (pp_homeRevision p) /\
  Identity (pp_policyId p) /\ Revision (pp_policyRevision p) /\ PresenceDevice_valid (pp_device p) /\
  (1 <= length (pp_sources p) <= 16)%nat /\ Forall PresenceSource_valid (pp_sources p) /\
  (1 <= length (pp_rooms p) <= 32)%nat /\ Forall PresenceRoom_valid (pp_rooms p) /\
  Confidence (pp_enterConfidencePermille p) /\ Confidence (pp_exitConfidencePermille p) /\
  1 <= pp_enterObservations p <= 10 /\ 1 <= pp_exitObservations p <= 10 /\
  1000 <= pp_maxSignalAgeMs p <= 15 * 60 * 1000 /\ exact_scope_and_hysteresis p.
#[export] Instance PresencePolicy_valid_dec p : Decision (PresencePolicy_valid p).
Proof. unfold PresencePolicy_valid, exact_scope_and_hysteresis. solve_dec. Defined.
#[export] Instance PresencePolicy_model : Model PresencePolicy :=
  {| model_valid := PresencePolicy_valid |}.

Record PrivatePresenceSignal := {
  sg_coreId : string;
  sg_homeId : string;
  sg_homeRevision : Z;
  sg_roomId : string;
  sg_roomRevision : Z;
  sg_deviceId : string;
  sg_deviceRevision : Z;
  sg_modelId : string;
  sg_modelRevision : Z;
  sg_policyId : string;
  sg_policyRevision : Z;
  sg_consentId : string;
  sg_consentRevision : Z;
  sg_sourceId : string;
  sg_sourceKind : source_kind;
  sg_sourceRevision : Z;
  sg_observationRevision : Z;
  sg_rawIdentifier : ustr;
  sg_confidencePermille : Z;
  sg_observedAtMs : Z;
}.
Definition safe_raw_identity (s : PrivatePresenceSignal) : Prop :=
  Forall (fun c => ~ is_control c) (sg_rawIdentifier s).
Definition PrivatePresenceSignal_valid (s : PrivatePresenceSignal) : Prop :=
  Identity (sg_coreId s) /\ Identity (sg_homeId s) /\ Revision (sg_homeRevision s) /\
  Identity (sg_roomId s) /\ Revision (sg_roomRevision s) /\ Identity (sg_deviceId s) /\
  Revision (sg_deviceRevision s) /\ Identity (sg_modelId s) /\ Revision (sg_modelRevision s) /\
  Identity (sg_policyId s) /\ Revision (sg_policyRevision s) /\ Identity (sg_consentId s) /\
  Revision (sg_consentRevision s) /\ Identity (sg_sourceId s) /\ Revision (sg_sourceRevision s) /\
  Revision (sg_observationRevision s) /\ 1 <= Z.of_nat (length (sg_rawIdentifier s)) <= 160 /\
  Confidence (sg_confidencePermille s) /\ TimestampMs (sg_observedAtMs s) /\ safe_raw_identity s.
#[export] Instance PrivatePresenceSignal_valid_dec s : Decision (PrivatePresenceSignal_valid s).
Proof. unfold PrivatePresenceSignal_valid, safe_raw_identity. solve_dec. Defined.
#[export] Instance PrivatePresenceSignal_model : Model PrivatePresenceSignal :=
  {| model_valid := PrivatePresenceSignal_valid |}.

Inductive presence_status := PUnknown | PCandidate | PUncertain | PPresent.
#[export] Instance presence_status_eq_dec : EqDecision presence_status.
Proof. solve_decision. Defined.
Definition presence_status_name (s : presence_status) : string :=
  match s with
  | PUnknown => "unknown" | PCandidate => "candidate" | PUncertain => "uncertain"
  | PPresent => "present"
  end.

Record PresenceEstimate := {
  pe_estimateId : string;
  pe_coreId : string;
  pe_homeId : string;
  pe_homeRevision : Z;
  pe_deviceId : string;
  pe_deviceRevision : Z;
  pe_modelId : string;
  pe_modelRevision : Z;
  pe_policyId : string;
  pe_policyRevision : Z;
  pe_consentId : string;
  pe_consentRevision : Z;
  pe_status : presence_status;
  pe_roomId : option string;
  pe_roomRevision : option Z;
  pe_confidencePermille : Z;
  pe_observedAtMs : Z;
  pe_sampleCount : Z;
  pe_transitionRevision : Z;
}.
#[export] Instance PresenceEstimate_eq_dec : EqDecision PresenceEstimate.
Proof. solve_decision. Defined.

Definition room_matches_status (e : PresenceEstimate) : Prop :=
  (if decide (pe_status e = PPresent \/ pe_status e = PUncertain)
   then pe_roomId e <> None /\ pe_roomRevision e <> None
   else pe_roomId e = None /\ pe_roomRevision e = None) /\
  (pe_status e = PUnknown -> pe_confidencePermille e = 0 /\ pe_sampleCount e = 0).
#[export] Instance room_matches_status_dec e : Decision (room_matches_status e).
Proof. unfold room_matches_status. solve_dec. Defined.

Definition PresenceEstimate_valid (e : PresenceEstimate) : Prop :=
  Identity (pe_estimateId e) /\ Identity (pe_coreId e) /\ Identity (pe_homeId e) /\
  Revision (pe_homeRevision e) /\ Identity (pe_deviceId e) /\ Revision (pe_deviceRevision e) /\
  Identity (pe_modelId e) /\ Revision (pe_modelRevision e) /\ Identity (pe_policyId e) /\
  Revision (pe_policyRevision e) /\ Identity (pe_consentId e) /\ Revision (pe_consentRevision e) /\
  optional (is_hex 32) (pe_roomId e) /\ optional Revision (pe_roomRevision e) /\
  Confidence (pe_confidencePermille e) /\ TimestampMs (pe_observedAtMs e) /\
  0 <= pe_sampleCount e <= 64 /\ 0 <= pe_transitionRevision e <= MAX_REVISION /\
  room_matches_status e.
#[export] Instance PresenceEstimate_valid_dec e : Decision (PresenceEstimate_valid e).
Proof. unfold PresenceEstimate_valid. solve_dec. Defined.
#[export] Instance PresenceEstimate_model : Model PresenceEstimate :=
  {| model_valid := PresenceEstimate_valid |}.

(** ** The engine's state *)

(** An item of the bound scope: text or a number ([True] is the number 1). *)
Inductive scope_item := SText (s : ustr) | SInt (z : Z).
#[export] Instance scope_item_eq_dec : EqDecision scope_item.
Proof. solve_decision. Defined.

Record RoomPresenceFusion := {
  pf_bound_scope : option (list scope_item);
  pf_current_room : option string;
  pf_candidate_room : option string;
  pf_candidate_count : Z;
  pf_exit_count : Z;
  pf_transition_revision : Z;
  pf_last_observations : list (string * Z);
}.
#[export] Instance RoomPresenceFusion_eq_dec : EqDecision RoomPresenceFusion.
Proof. solve_decision. Defined.

Definition no_presence : RoomPresenceFusion :=
  {| pf_bound_scope := None; pf_current_room := None; pf_candidate_room := None;
     pf_candidate_count := 0; pf_exit_count := 0; pf_transition_revision := 0;
     pf_last_observations := [] |}.

(** [RoomPresenceFusion( ..., maxSourceCheckpoints=limit)] *)
Definition presence_init (limit : Z) : res RoomPresenceFusion :=
  _ ← raise_if (~ (1 <= limit <= 4096)) (ValueError "invalid_source_checkpoint_limit");
  Ok no_presence.

(** [_advance_candidate] *)
Definition advance_candidate (room_id : string) (s : RoomPresenceFusion) : RoomPresenceFusion :=
  {| pf_bound_scope := pf_bound_scope s; pf_current_room := pf_current_room s;
     pf_candidate_room := Some room_id;
     pf_candidate_count :=
       if decide (pf_candidate_room s = Some room_id) then pf_candidate_count s + 1 else 1;
     pf_exit_count := pf_exit_count s; pf_transition_revision := pf_transition_revision s;
     pf_last_observations := pf_last_observations s |}.

(** [self._candidate_room, self._candidate_count = None, 0] *)
Definition no_candidate (s : RoomPresenceFusion) : RoomPresenceFusion :=
  {| pf_bound_scope := pf_bound_scope s; pf_current_room := pf_current_room s;
     pf_candidate_room := None; pf_candidate_count := 0;
     pf_exit_count := pf_exit_count s; pf_transition_revision := pf_transition_revision s;
     pf_last_observations := pf_last_observations s |}.

Definition set_exit_count (n : Z) (s : RoomPresenceFusion) : RoomPresenceFusion :=
  {| pf_bound_scope := pf_bound_scope s; pf_current_room := pf_current_room s;
     pf_candidate_room := pf_candidate_room s; pf_candidate_count := pf_candidate_count s;
     pf_exit_count := n; pf_transition_revision := pf_transition_revision s;
     pf_last_observations := pf_last_observations s |}.

(** [_clear_presence] *)
Definition clear_presence (s : RoomPresenceFusion) : RoomPresenceFusion :=
  {| pf_bound_scope := pf_bound_scope s; pf_current_room := None; pf_candidate_room := None;
     pf_candidate_count := 0; pf_exit_count := 0;
     pf_transition_revision := pf_transition_revision s;
     pf_last_observations := pf_last_observations s |}.

(** The assignments on entering a room. *)
Definition enter_room (room_id : string) (s : RoomPresenceFusion) : RoomPresenceFusion :=
  {| pf_bound_scope := pf_bound_scope s; pf_current_room := Some room_id;
     pf_candidate_room := None; pf_candidate_count := 0; pf_exit_count := 0;
     pf_transition_revision := pf_transition_revision s + 1;
     pf_last_observations := pf_last_observations s |}.

(** The assignments once a batch is accepted. *)
Definition accept_batch (scope : list scope_item) (checkpoints : list (string * Z))
    (s : RoomPresenceFusion) : RoomPresenceFusion :=
  {| pf_bound_scope := Some scope; pf_current_room := pf_current_room s;
     pf_candidate_room := pf_candidate_room s; pf_candidate_count := pf_candidate_count s;
     pf_exit_count := pf_exit_count s; pf_transition_revision := pf_transition_revision s;
     pf_last_observations := dict_update (pf_last_observations s) checkpoints |}.

(** ** Persisted fusion state *)

Definition optional_json (o : option string) : jval :=
  match o with Some s => JStr s | None => JNull end.
Definition scope_item_json (i : scope_item) : jval :=
  match i with SText s => JText s | SInt z => JInt z end.

(** [snapshot_state] *)
Definition snapshot_state (s : RoomPresenceFusion) : jval :=
  JObj [("schemaVersion", JInt 1);
        ("boundScope", match pf_bound_scope s with
                       | Some ((_ :: _) as scope) => JList (scope_item_json <$> scope)
                       | _ => JNull
                       end);
        ("currentRoom", optional_json (pf_current_room s));
        ("candidateRoom", optional_json (pf_candidate_room s));
        ("candidateCount", JInt (pf_candidate_count s));
        ("exitCount", JInt (pf_exit_count s));
        ("transitionRevision", JInt (pf_transition_revision s));
        ("observationCheckpoints",
          JObj ((fun kv => (kv.1, JInt kv.2)) <$> pf_last_observations s))]%string.

Definition fusion_keys : list string :=
  ["schemaVersion"; "boundScope"; "currentRoom"; "candidateRoom"; "candidateCount"; "exitCount";
   "transitionRevision"; "observationCheckpoints"]%string.

(** [isinstance(item, (str, int))] *)
Definition scope_item_of (v : jval) : option scope_item :=
  match v with
  | JText s => Some (SText s)
  | JStr s => Some (SText (u s))
  | JInt z => Some (SInt z)
  | JBool b => Some (SInt (if b then 1 else 0))
  | _ => None
  end.

Definition room_of_json (v : jval) : option (option string) :=
  match v with
  | JNull => Some None
  | JStr s => if decide (Identity s) then Some (Some s) else None
  | _ => None
  end.

(** [type(value) is int and 0 <= value <= _MAX_REVISION] *)
Definition counter_of_json (v : jval) : option Z :=
  match v with
  | JInt n => if decide (0 <= n <= MAX_REVISION) then Some n else None
  | _ => None
  end.

Definition checkpoint_of_json (kv : string * jval) : option (string * Z) :=
  match kv.2 with
  | JInt n => if decide (is_hex 64 kv.1 /\ 1 <= n <= MAX_REVISION) then Some (kv.1, n) else None
  | _ => None
  end.

(** [raw["schemaVersion"] == 1] *)
Definition equals_one (v : jval) : Prop := v = JInt 1 \/ v = JBool true \/ v = JTime TICK.
#[export] Instance equals_one_dec v : Decision (equals_one v).
Proof. unfold equals_one. apply _. Defined.

Definition scope_of_json (v : jval) : option (option (list scope_item)) :=
  match v with
  | JNull => Some None
  | JList l => if decide (length l = 11%nat) then Some <$> mapM scope_item_of l else None
  | _ => None
  end.

(** The checks of [restore_state] and the state they let through. *)
Definition fusion_of_json (limit : Z) (raw : jval) : res RoomPresenceFusion :=
  let invalid := ValueError "invalid_presence_fusion_state" in
  fields ← match raw with JObj l => Ok l | _ => Raise invalid end;
  _ ← raise_if (~ (dict_keys fields ⊆ fusion_keys /\ fusion_keys ⊆ dict_keys fields)) invalid;
  let field {A} (k : string) (read : jval -> option A) : res A :=
    v ← require_some (dict_get fields k) KeyError; require_some (read v) invalid in
  version ← field "schemaVersion"%string Some;
  _ ← raise_if (~ equals_one version) invalid;
  scope ← field "boundScope"%string scope_of_json;
  current ← field "currentRoom"%string room_of_json;
  candidate ← field "candidateRoom"%string room_of_json;
  count ← field "candidateCount"%string counter_of_json;
  exit ← field "exitCount"%string counter_of_json;
  transition ← field "transitionRevision"%string counter_of_json;
  items ← field "observationCheckpoints"%string
            (fun v => match v with JObj l => Some l | _ => None end);
  _ ← raise_if (Z.of_nat (length items) > limit) invalid;
  checkpoints ← require_some (mapM checkpoint_of_json items) invalid;
  Ok {| pf_bound_scope := scope; pf_current_room := current; pf_candidate_room := candidate;
        pf_candidate_count := count; pf_exit_count := exit;
        pf_transition_revision := transition; pf_last_observations := checkpoints |}.

(** [restore_state]; the assignments come after every check. *)
Definition restore_state (limit : Z) (raw : jval) : M RoomPresenceFusion unit :=
  s ← lift (fusion_of_json limit raw); put_state s.

(** ** Fusing a batch *)

(** The part of a source's digest input that is public to the engine. *)
Definition source_json (s : PrivatePresenceSignal) : jval :=
  JObj [("sourceId", JStr (sg_sourceId s));
        ("sourceKind", JStr (source_kind_name (sg_sourceKind s)));
        ("rawIdentifier", JText (sg_rawIdentifier s))]%string.

(** [exact_scope] *)
Definition exact_scope (p : PresencePolicy) : list scope_item :=
  let d := pp_device p in
  [SText (u (pp_coreId p)); SText (u (pp_homeId p)); SInt (pp_homeRevision p);
   SText (u (pp_policyId p)); SInt (pp_policyRevision p);
   SText (u (pd_deviceId d)); SInt (pd_deviceRevision d);
   SText (u (pd_modelId d)); SInt (pd_modelRevision d);
   SText (u (pd_consentId d)); SInt (pd_consentRevision d)].

(** The tuples [exact] and [expected] of a signal, its room apart. *)
Definition signal_scope (s : PrivatePresenceSignal) :=
  (sg_coreId s, sg_homeId s, sg_homeRevision s, sg_roomRevision s, sg_deviceId s,
   sg_deviceRevision s, sg_modelId s, sg_modelRevision s, sg_policyId s, sg_policyRevision s,
   sg_consentId s, sg_consentRevision s).
Definition policy_scope (p : PresencePolicy) (room : PresenceRoom) :=
  let d := pp_device p in
  (pp_coreId p, pp_homeId p, pp_homeRevision p, pr_roomRevision room, pd_deviceId d,
   pd_deviceRevision d, pd_modelId d, pd_modelRevision d, pp_policyId p, pp_policyRevision p,
   pd_consentId d, pd_consentRevision d).

Definition rooms_of (p : PresencePolicy) : list (string * PresenceRoom) :=
  dict_of pr_roomId id (pp_rooms p).
Definition sources_of (p : PresencePolicy) : list (string * PresenceSource) :=
  dict_of pc_sourceId id (pp_sources p).

(** Lexicographic order of three integers. *)
Definition lex3_lt (a b : Z * Z * Z) : Prop :=
  let '(a1, a2, a3) := a in let '(b1, b2, b3) := b in
  a1 < b1 \/ (a1 = b1 /\ (a2 < b2 \/ (a2 = b2 /\ a3 < b3))).
#[export] Instance lex3_lt_dec a b : Decision (lex3_lt a b).
Proof. destruct a as [[??]?], b as [[??]?]. cbn. apply _. Defined.

(** [signal] replaces its room's signal when it is stronger, later or newer. *)
Definition signal_key (s : PrivatePresenceSignal) : Z * Z * Z :=
  (sg_confidencePermille s, sg_observedAtMs s, sg_observationRevision s).

Definition keep_strongest (d : list (string * PrivatePresenceSignal)) (s : PrivatePresenceSignal)
  : list (string * PrivatePresenceSignal) :=
  match dict_get d (sg_roomId s) with
  | Some current =>
      if decide (lex3_lt (signal_key current) (signal_key s)) then dict_set d (sg_roomId s) s else d
  | None => dict_set d (sg_roomId s) s
  end.
Definition by_room (fresh : list PrivatePresenceSignal) : list (string * PrivatePresenceSignal) :=
  foldl keep_strongest [] fresh.

(** [key(a) < key(b)] for the key of [max]: confidence, time and room. *)
Definition best_lt (a b : PrivatePresenceSignal) : Prop :=
  sg_confidencePermille a < sg_confidencePermille b \/
  (sg_confidencePermille a = sg_confidencePermille b /\
   (sg_observedAtMs a < sg_observedAtMs b \/
    (sg_observedAtMs a = sg_observedAtMs b /\ ~ str_le (sg_roomId b) (sg_roomId a)))).
#[export] Instance best_lt_dec a b : Decision (best_lt a b).
Proof. unfold best_lt. apply _. Defined.

(** [max(l, key=...)]: the first of the greatest. *)
Definition py_max (l : list PrivatePresenceSignal) : option PrivatePresenceSignal :=
  match l with
  | [] => None
  | x :: l' => Some (foldl (fun m y => if decide (best_lt m y) then y else m) x l')
  end.

(** The signals that are young enough. *)
Definition is_fresh (p : PresencePolicy) (now : Z) (s : PrivatePresenceSignal) : Prop :=
  sg_observedAtMs s <= now /\ now - sg_observedAtMs s <= pp_maxSignalAgeMs p.
#[export] Instance is_fresh_dec p now s : Decision (is_fresh p now s).
Proof. unfold is_fresh. apply _. Defined.
Definition fresh_of (p : PresencePolicy) (now : Z) (l : list PrivatePresenceSignal) :=
  filter (is_fresh p now) l.
Definition latest (l : list PrivatePresenceSignal) : Z := foldr Z.max 0 (sg_observedAtMs <$> l).

Section fusion.
(** [hashlib.sha256] of the canonical JSON, in hexadecimal. *)
Variable _digest : jval -> string.
Variable resolve_authority : string -> resolved PresenceAuthority.
Variable resolve_policy : string -> resolved PresencePolicy.
Variable max_source_checkpoints : Z.
Implicit Types s : RoomPresenceFusion.
Implicit Types p : PresencePolicy.

(** [_authority] *)
Definition presence_authority (r : raw PresenceAuthority) : res PresenceAuthority :=
  vc ← except_any
    (value ← model_validate r;
     current ← validate_resolved (resolve_authority (pa_accountId value));
     Ok (value, current)) (ApiError "forbidden" 403);
  let '(value, current) := vc in
  _ ← raise_if (current <> value) (ApiError "revision_conflict" 409);
  _ ← raise_if (pa_active value = false \/ pa_canReadPresence value = false)
        (ApiError "forbidden" 403);
  Ok value.

(** [_policy] *)
Definition presence_policy (r : raw PresencePolicy) : res PresencePolicy :=
  vc ← match (value ← model_validate r;
              current ← validate_resolved (resolve_policy (pp_policyId value));
              Ok (value, current)) with
       | Ok vc => Ok vc
       | Raise (ValueError _) => Raise (ApiError "invalid_request" 400)
       | Raise _ => Raise (ApiError "revision_conflict" 409)
       end;
  let '(value, current) := (vc : PresencePolicy * PresencePolicy) in
  _ ← raise_if (current <> value) (ApiError "revision_conflict" 409);
  _ ← raise_if (pp_active value = false) (ApiError "forbidden" 403);
  _ ← raise_if (pd_consentActive (pp_device value) = false) (ApiError "consent_required" 403);
  Ok value.

Definition source_key (g : PrivatePresenceSignal) : string := _digest (source_json g).

(** One signal of the validation loop; [seen] are the keys of the earlier ones. *)
Definition check_signal p (last_observations : list (string * Z)) (seen : list string)
    (g : PrivatePresenceSignal) : res (list string) :=
  room ← require_some (dict_get (rooms_of p) (sg_roomId g)) (ApiError "not_found" 404);
  source ← require_some (dict_get (sources_of p) (sg_sourceId g)) (ApiError "not_found" 404);
  _ ← raise_if (signal_scope g <> policy_scope p room) (ApiError "revision_conflict" 409);
  _ ← raise_if ((sg_sourceKind g, sg_sourceRevision g)
                <> (pc_sourceKind source, pc_sourceRevision source))
        (ApiError "revision_conflict" 409);
  _ ← raise_if (source_key g ∈ seen) (ApiError "invalid_request" 400);
  _ ← raise_if (sg_observationRevision g
                <= default 0 (dict_get last_observations (source_key g)))
        (ApiError "revision_conflict" 409);
  Ok (seen ++ [source_key g]).

(** [fuse] up to the assignments: every refusal of a batch. *)
Definition check_batch s (ra : raw PresenceAuthority) (rp : raw PresencePolicy)
    (rl : list (raw PrivatePresenceSignal)) (now : Z)
  : res (PresencePolicy * list PrivatePresenceSignal) :=
  authority ← presence_authority ra;
  p ← presence_policy rp;
  _ ← raise_if ((pa_coreId authority, pa_homeId authority, pa_homeRevision authority)
                <> (pp_coreId p, pp_homeId p, pp_homeRevision p)) (ApiError "not_found" 404);
  _ ← raise_if (now < 0) (ApiError "invalid_request" 400);
  _ ← raise_if (~ (1 <= length rl <= 64)%nat) (ApiError "invalid_request" 400);
  signals ← except_value_error (model_validate_all rl) (ApiError "invalid_request" 400);
  _ ← raise_if (pf_bound_scope s <> None /\ pf_bound_scope s <> Some (exact_scope p))
        (ApiError "scope_mismatch" 409);
  seen ← fold_res (check_signal p (pf_last_observations s)) [] signals;
  _ ← raise_if (Z.of_nat (length (pf_last_observations s)) +
                Z.of_nat (length (filter (fun k => k ∉ dict_keys (pf_last_observations s)) seen))
                > max_source_checkpoints) (ApiError "source_checkpoint_limit" 409);
  Ok (p, signals).

(** [_estimate]; the room is a [PresenceRoom], a signal or [None]. *)
Definition make_estimate p (status : presence_status) (room : option (string * Z))
    (confidence samples observed_at transition : Z) : PresenceEstimate :=
  let d := pp_device p in
  let int_or_null o := match o with Some n => JInt n | None => JNull end in
  let identity := JObj
    [("home", JStr (pp_homeId p)); ("device", JStr (pd_deviceId d));
     ("policyRevision", JInt (pp_policyRevision p));
     ("consentRevision", JInt (pd_consentRevision d));
     ("status", JStr (presence_status_name status));
     ("roomId", optional_json (fst <$> room)); ("roomRevision", int_or_null (snd <$> room));
     ("confidence", JInt confidence); ("observedAt", JInt observed_at);
     ("samples", JInt samples); ("transition", JInt transition)]%string in
  {| pe_estimateId := String.substring 0 32 (_digest identity); pe_coreId := pp_coreId p;
     pe_homeId := pp_homeId p; pe_homeRevision := pp_homeRevision p;
     pe_deviceId := pd_deviceId d; pe_deviceRevision := pd_deviceRevision d;
     pe_modelId := pd_modelId d; pe_modelRevision := pd_modelRevision d;
     pe_policyId := pp_policyId p; pe_policyRevision := pp_policyRevision p;
     pe_consentId := pd_consentId d; pe_consentRevision := pd_consentRevision d;
     pe_status := status; pe_roomId := fst <$> room; pe_roomRevision := snd <$> room;
     pe_confidencePermille := confidence; pe_observedAtMs := observed_at;
     pe_sampleCount := samples; pe_transitionRevision := transition |}.

Definition estimate p (status : presence_status) (room : option (string * Z))
    (confidence samples observed_at : Z) : M RoomPresenceFusion PresenceEstimate :=
  s ← get_state;
  lift (model_validate (Shaped
    (make_estimate p status room confidence samples observed_at (pf_transition_revision s)))).

Definition room_ref (r : PresenceRoom) : string * Z := (pr_roomId r, pr_roomRevision r).
Definition signal_ref (g : PrivatePresenceSignal) : string * Z := (sg_roomId g, sg_roomRevision g).

(** [rooms[self._current_room]] *)
Definition known_room p (room_id : string) : res (string * Z) :=
  room_ref <$> require_some (dict_get (rooms_of p) room_id) KeyError.

(** The branch of [fuse] for a device that is nowhere. *)
Definition observe_absent p (best : PrivatePresenceSignal) (samples observed_at : Z)
  : M RoomPresenceFusion PresenceEstimate :=
  if decide (sg_confidencePermille best < pp_enterConfidencePermille p) then
    _ ← modify no_candidate;
    estimate p PUnknown None 0 0 observed_at
  else
    _ ← modify (advance_candidate (sg_roomId best));
    s ← get_state;
    if decide (pf_candidate_count s < pp_enterObservations p) then
      estimate p PCandidate None (sg_confidencePermille best) samples observed_at
    else
      _ ← modify (enter_room (sg_roomId best));
      estimate p PPresent (Some (signal_ref best)) (sg_confidencePermille best) samples observed_at.

(** The branch for a device that is in room [here]. *)
Definition observe_present p (here : string) (current : option PrivatePresenceSignal)
    (best : PrivatePresenceSignal) (samples observed_at : Z)
  : M RoomPresenceFusion PresenceEstimate :=
  let current_confidence := from_option sg_confidencePermille 0 current in
  if decide (sg_roomId best <> here /\
             sg_confidencePermille best >= pp_enterConfidencePermille p) then
    _ ← modify (advance_candidate (sg_roomId best));
    s ← get_state;
    if decide (pf_candidate_count s >= pp_enterObservations p) then
      _ ← modify (enter_room (sg_roomId best));
      estimate p PPresent (Some (signal_ref best)) (sg_confidencePermille best) samples observed_at
    else
      room ← lift (known_room p here);
      estimate p PUncertain (Some room) current_confidence samples observed_at
  else
    _ ← modify no_candidate;
    if decide (current_confidence < pp_exitConfidencePermille p) then
      _ ← modify (fun s => set_exit_count (pf_exit_count s + 1) s);
      s ← get_state;
      if decide (pf_exit_count s >= pp_exitObservations p) then
        _ ← modify clear_presence;
        estimate p PUnknown None 0 0 observed_at
      else
        room ← lift (known_room p here);
        estimate p PUncertain (Some room) current_confidence samples observed_at
    else
      _ ← modify (set_exit_count 0);
      estimate p PPresent (signal_ref <$> current) current_confidence samples observed_at.

(** [fuse] from the assignments on. *)
Definition observe p (signals : list PrivatePresenceSignal) (now : Z)
  : M RoomPresenceFusion PresenceEstimate :=
  let fresh := fresh_of p now signals in
  match py_max (dict_values (by_room fresh)) with
  | None =>
      _ ← modify clear_presence;
      estimate p PUnknown None 0 0 now
  | Some best =>
      s ← get_state;
      let samples := Z.of_nat (length fresh) in
      match pf_current_room s with
      | None => observe_absent p best samples (latest fresh)
      | Some here =>
          observe_present p here (dict_get (by_room fresh) here) best samples (latest fresh)
      end
  end.

Definition fuse (ra : raw PresenceAuthority) (rp : raw PresencePolicy)
    (rl : list (raw PrivatePresenceSignal)) (now : Z) : M RoomPresenceFusion PresenceEstimate :=
  s ← get_state;
  '(p, signals) ← lift (check_batch s ra rp rl now);
  _ ← modify (accept_batch (exact_scope p)
                ((fun g => (source_key g, sg_observationRevision g)) <$> signals));
  observe p signals now.
End fusion.

(** ** The automation handoff *)

Record PresenceAutomationCommand := {
  pm_commandId : string;
  pm_requestId : string;
  pm_automationId : string;
  pm_automationRevision : Z;
  pm_estimateId : string;
  pm_transitionRevision : Z;
  pm_deviceId : string;
  pm_deviceRevision : Z;
  pm_modelRevision : Z;
  pm_policyRevision : Z;
  pm_consentRevision : Z;
  pm_roomId : string;
  pm_roomRevision : Z;
}.
#[export] Instance PresenceAutomationCommand_eq_dec : EqDecision PresenceAutomationCommand.
Proof. solve_decision. Defined.
Definition PresenceAutomationCommand_valid (c : PresenceAutomationCommand) : Prop :=
  Identity (pm_commandId c) /\ Identity (pm_requestId c) /\ Identity (pm_automationId c) /\
  Revision (pm_automationRevision c) /\ Identity (pm_estimateId c) /\
  Revision (pm_transitionRevision c) /\ Identity (pm_deviceId c) /\ Revision (pm_deviceRevision c) /\
  Revision (pm_modelRevision c) /\ Revision (pm_policyRevision c) /\
  Revision (pm_consentRevision c) /\ Identity (pm_roomId c) /\ Revision (pm_roomRevision c).
#[export] Instance PresenceAutomationCommand_valid_dec c : Decision (PresenceAutomationCommand_valid c).
Proof. unfold PresenceAutomationCommand_valid. solve_dec. Defined.
#[export] Instance PresenceAutomationCommand_model : Model PresenceAutomationCommand :=
  {| model_valid := PresenceAutomationCommand_valid |}.

Inductive observed_state := ObservedPresent | ObservedRejected | ObservedUnknown.
#[export] Instance observed_state_eq_dec : EqDecision observed_state.
Proof. solve_decision. Defined.

Record WorkerPresenceReceipt := {
  pw_commandId : string;
  pw_requestId : string;
  pw_automationId : string;
  pw_automationRevision : Z;
  pw_estimateId : string;
  pw_transitionRevision : Z;
  pw_deviceId : string;
  pw_roomId : string;
  pw_accepted : bool;
  pw_observedState : observed_state;
  pw_readbackRevision : Z;
}.
Definition WorkerPresenceReceipt_valid (r : WorkerPresenceReceipt) : Prop :=
  Identity (pw_commandId r) /\ Identity (pw_requestId r) /\ Identity (pw_automationId r) /\
  Revision (pw_automationRevision r) /\ Identity (pw_estimateId r) /\
  Revision (pw_transitionRevision r) /\ Identity (pw_deviceId r) /\ Identity (pw_roomId r) /\
  Revision (pw_readbackRevision r).
#[export] Instance WorkerPresenceReceipt_valid_dec r : Decision (WorkerPresenceReceipt_valid r).
Proof. unfold WorkerPresenceReceipt_valid. solve_dec. Defined.
#[export] Instance WorkerPresenceReceipt_model : Model WorkerPresenceReceipt :=
  {| model_valid := WorkerPresenceReceipt_valid |}.

Inductive handoff_status := HandoffVerified | HandoffRejected | HandoffUnknown.
#[export] Instance handoff_status_eq_dec : EqDecision handoff_status.
Proof. solve_decision. Defined.

Record PresenceHandoffReceipt := {
  ph_requestId : string;
  ph_commandId : string;
  ph_automationId : string;
  ph_automationRevision : Z;
  ph_estimateId : string;
  ph_transitionRevision : Z;
  ph_status : handoff_status;
  ph_verified : bool;
  ph_readbackRevision : option Z;
}.
Definition PresenceHandoffReceipt_valid (r : PresenceHandoffReceipt) : Prop :=
  Identity (ph_requestId r) /\ Identity (ph_commandId r) /\ Identity (ph_automationId r) /\
  Revision (ph_automationRevision r) /\ Identity (ph_estimateId r) /\
  Revision (ph_transitionRevision r) /\ optional Revision (ph_readbackRevision r) /\
  (ph_verified r = true <-> ph_status r = HandoffVerified) /\
  (ph_status r = HandoffUnknown <-> ph_readbackRevision r = None).
#[export] Instance PresenceHandoffReceipt_valid_dec r : Decision (PresenceHandoffReceipt_valid r).
Proof. unfold PresenceHandoffReceipt_valid. solve_dec. Defined.
#[export] Instance PresenceHandoffReceipt_model : Model PresenceHandoffReceipt :=
  {| model_valid := PresenceHandoffReceipt_valid |}.

(** [_receipts], and the calls made to workers with their answers. *)
Record PresenceAutomationHandoff := {
  hf_receipts : list (string * (string * PresenceHandoffReceipt));
  hf_sent : list (PresenceAutomationCommand * resolved WorkerPresenceReceipt);
}.
Definition no_handoffs : PresenceAutomationHandoff := {| hf_receipts := []; hf_sent := [] |}.

(** The tuples that must agree between an estimate and the policy. *)
Definition estimate_scope (e : PresenceEstimate) :=
  (pe_homeRevision e, pe_deviceId e, pe_deviceRevision e, pe_modelId e, pe_modelRevision e,
   pe_policyId e, pe_policyRevision e, pe_consentId e, pe_consentRevision e).
Definition policy_estimate_scope (p : PresencePolicy) :=
  let d := pp_device p in
  (pp_homeRevision p, pd_deviceId d, pd_deviceRevision d, pd_modelId d, pd_modelRevision d,
   pp_policyId p, pp_policyRevision p, pd_consentId d, pd_consentRevision d).

(** [command.model_dump(mode="json")] *)
Definition command_json (c : PresenceAutomationCommand) : jval :=
  JObj [("schemaVersion", JInt 1); ("commandId", JStr (pm_commandId c));
        ("requestId", JStr (pm_requestId c)); ("automationId", JStr (pm_automationId c));
        ("automationRevision", JInt (pm_automationRevision c));
        ("estimateId", JStr (pm_estimateId c));
        ("transitionRevision", JInt (pm_transitionRevision c));
        ("deviceId", JStr (pm_deviceId c)); ("deviceRevision", JInt (pm_deviceRevision c));
        ("modelRevision", JInt (pm_modelRevision c));
        ("policyRevision", JInt (pm_policyRevision c));
        ("consentRevision", JInt (pm_consentRevision c)); ("roomId", JStr (pm_roomId c));
        ("roomRevision", JInt (pm_roomRevision c)); ("advisoryOnly", JBool true);
        ("grantsAccess", JBool false)]%string.

(** [exact]: the readback is about this command. *)
Definition echoes (r : WorkerPresenceReceipt) (c : PresenceAutomationCommand) : Prop :=
  (pw_commandId r, pw_requestId r, pw_automationId r, pw_automationRevision r, pw_estimateId r,
   pw_transitionRevision r, pw_deviceId r, pw_roomId r)
  = (pm_commandId c, pm_requestId c, pm_automationId c, pm_automationRevision c, pm_estimateId c,
     pm_transitionRevision c, pm_deviceId c, pm_roomId c).
#[export] Instance echoes_dec r c : Decision (echoes r c).
Proof. unfold echoes. apply _. Defined.

(** Status, [verified] and revision of a worker's answer. *)
Definition handoff_verdict (c : PresenceAutomationCommand) (answer : resolved WorkerPresenceReceipt)
  : handoff_status * bool * option Z :=
  match validate_resolved answer with
  | Raise _ => (HandoffUnknown, false, None)
  | Ok r =>
      if decide (~ echoes r c) then (HandoffUnknown, false, None)
      else if decide (pw_accepted r = true /\ pw_observedState r = ObservedPresent)
      then (HandoffVerified, true, Some (pw_readbackRevision r))
      else if decide (pw_accepted r = false /\ pw_observedState r = ObservedRejected)
      then (HandoffRejected, false, Some (pw_readbackRevision r))
      else (HandoffUnknown, false, None)
  end.

Section handoff.
Variable _digest : jval -> string.
Variable max_receipts : Z.

(** What the resolvers and the worker answer during one call. *)
Record handoff_env := {
  he_authority : string -> resolved PresenceAuthority;
  he_policy : string -> resolved PresencePolicy;
  he_estimate : string -> resolved PresenceEstimate;
  he_worker : PresenceAutomationCommand -> resolved WorkerPresenceReceipt;
}.

(** [dispatch] up to the identifiers: every check of authority, policy and
    estimate; the estimate's room comes back. *)
Definition check_handoff (en : handoff_env) (ra : raw PresenceAuthority) (rp : raw PresencePolicy)
    (re : raw PresenceEstimate) : res (PresenceEstimate * string * Z) :=
  six ← except_any
    (authority ← model_validate ra;
     policy ← model_validate rp;
     estimate ← model_validate re;
     current_authority ← validate_resolved (he_authority en (pa_accountId authority));
     current_policy ← validate_resolved (he_policy en (pp_policyId policy));
     current_estimate ← validate_resolved (he_estimate en (pe_estimateId estimate));
     Ok (authority, policy, estimate, (current_authority, current_policy, current_estimate)))
    (ApiError "revision_conflict" 409);
  let '(authority, policy, estimate, (ca, cp, ce)) := six in
  _ ← raise_if (authority <> ca \/ policy <> cp \/ estimate <> ce) (ApiError "revision_conflict" 409);
  _ ← raise_if (pa_active authority = false \/ pa_canManagePresence authority = false)
        (ApiError "forbidden" 403);
  _ ← raise_if ((pa_coreId authority, pa_homeId authority, pa_homeRevision authority)
                <> (pp_coreId policy, pp_homeId policy, pp_homeRevision policy) \/
                (pe_coreId estimate, pe_homeId estimate) <> (pp_coreId policy, pp_homeId policy))
        (ApiError "not_found" 404);
  let forbidden := ApiError "forbidden" 403 in
  _ ← raise_if (pp_active policy = false \/ pd_consentActive (pp_device policy) = false \/
                pd_allowAutomationHandoff (pp_device policy) = false \/
                pe_status estimate <> PPresent) forbidden;
  room_id ← require_some (pe_roomId estimate) forbidden;
  room_revision ← require_some (pe_roomRevision estimate) forbidden;
  room ← require_some (dict_get (rooms_of policy) room_id) (ApiError "revision_conflict" 409);
  _ ← raise_if ((estimate_scope estimate, room_revision)
                <> (policy_estimate_scope policy, pr_roomRevision room))
        (ApiError "revision_conflict" 409);
  Ok (estimate, room_id, room_revision).

Definition handoff_command (requestId automationId : string) (automationRevision : Z)
    (e : PresenceEstimate) (room_id : string) (room_revision : Z) : PresenceAutomationCommand :=
  {| pm_commandId := String.substring 0 32 (_digest (JObj
       [("requestId", JStr requestId); ("estimateId", JStr (pe_estimateId e));
        ("automationId", JStr automationId);
        ("automationRevision", JInt automationRevision)]%string));
     pm_requestId := requestId; pm_automationId := automationId;
     pm_automationRevision := automationRevision; pm_estimateId := pe_estimateId e;
     pm_transitionRevision := pe_transitionRevision e; pm_deviceId := pe_deviceId e;
     pm_deviceRevision := pe_deviceRevision e; pm_modelRevision := pe_modelRevision e;
     pm_policyRevision := pe_policyRevision e; pm_consentRevision := pe_consentRevision e;
     pm_roomId := room_id; pm_roomRevision := room_revision |}.

Definition handoff_receipt (c : PresenceAutomationCommand) (answer : resolved WorkerPresenceReceipt)
  : PresenceHandoffReceipt :=
  let '(status, verified, revision) := handoff_verdict c answer in
  {| ph_requestId := pm_requestId c; ph_commandId := pm_commandId c;
     ph_automationId := pm_automationId c; ph_automationRevision := pm_automationRevision c;
     ph_estimateId := pm_estimateId c; ph_transitionRevision := pm_transitionRevision c;
     ph_status := status; ph_verified := verified; ph_readbackRevision := revision |}.

(** [dispatch] *)
Definition dispatch (en : handoff_env) (ra : raw PresenceAuthority) (rp : raw PresencePolicy)
    (re : raw PresenceEstimate) (automationId : string) (automationRevision : Z)
    (requestId : string) : M PresenceAutomationHandoff PresenceHandoffReceipt :=
  '(estimate, room_id, room_revision) ← lift (check_handoff en ra rp re);
  _ ← lift (raise_if (~ (Identity requestId /\ Identity automationId /\
                         Revision automationRevision)) (ApiError "invalid_request" 400));
  command ← lift (except_value_error (model_validate (Shaped
    (handoff_command requestId automationId automationRevision estimate room_id room_revision)))
    (ApiError "invalid_request" 400));
  let fingerprint := _digest (command_json command) in
  m ← get_state;
  match dict_get (hf_receipts m) requestId with
  | Some stored =>
      _ ← lift (raise_if (stored.1 <> fingerprint) (ApiError "idempotency_conflict" 409));
      mret stored.2
  | None =>
      _ ← lift (raise_if (Z.of_nat (length (hf_receipts m)) >= max_receipts)
                  (ApiError "receipt_limit" 409));
      _ ← modify (fun m => {| hf_receipts := hf_receipts m;
                              hf_sent := hf_sent m ++ [(command, he_worker en command)] |});
      receipt ← lift (model_validate (Shaped (handoff_receipt command (he_worker en command))));
      _ ← modify (fun m => {| hf_receipts := dict_set (hf_receipts m) requestId (fingerprint, receipt);
                              hf_sent := hf_sent m |});
      mret receipt
  end.
End handoff.

(** ** The reduction of a batch *)

Lemma by_room_snoc l g : by_room (l ++ [g]) = keep_strongest (by_room l) g.
Proof. unfold by_room. by rewrite foldl_app. Qed.

Lemma by_room_spec l :
  NoDup (dict_keys (by_room l)) /\
  (forall k g, dict_get (by_room l) k = Some g -> g ∈ l /\ sg_roomId g = k) /\
  (forall g, g ∈ l -> exists h, dict_get (by_room l) (sg_roomId g) = Some h /\
     sg_confidencePermille g <= sg_confidencePermille h).
Proof.
  induction l as [|g l IH] using rev_ind.
  { split; [apply NoDup_nil_2|]. split; [by intros ?? [=]|]. set_solver. }
  rewrite by_room_snoc. destruct IH as (Hnd & Hin & Hge).
  assert (Hset : forall d, d = dict_set (by_room l) (sg_roomId g) g ->
    (forall h, dict_get (by_room l) (sg_roomId g) = Some h ->
       sg_confidencePermille h <= sg_confidencePermille g) ->
    NoDup (dict_keys d) /\
    (forall k h, dict_get d k = Some h -> h ∈ l ++ [g] /\ sg_roomId h = k) /\
    (forall h, h ∈ l ++ [g] -> exists m, dict_get d (sg_roomId h) = Some m /\
       sg_confidencePermille h <= sg_confidencePermille m)).
  { intros d -> Hold. split; [by apply dict_set_nodup|]. split.
    - intros k h. rewrite dict_get_set. case_decide; [intros [= <-]; set_solver|].
      intros [??]%Hin. set_solver.
    - intros h Hh. rewrite dict_get_set. apply elem_of_app in Hh as [Hh| ->%list_elem_of_singleton].
      + destruct (Hge h Hh) as (m & Hm & ?). case_decide as E; [|eauto].
        rewrite <- E in Hm. apply Hold in Hm. exists g. split; [done|lia].
      + rewrite decide_True by done. exists g. split; [done|lia]. }
  unfold keep_strongest. destruct (dict_get _ _) as [m|] eqn:Hm; [case_decide as Hlt|].
  - apply Hset; [done|]. intros h [= <-]. unfold lex3_lt, signal_key in Hlt. lia.
  - split; [done|]. split; [intros k h [??]%Hin; set_solver|].
    intros h [Hh| ->%list_elem_of_singleton]%elem_of_app; [by apply Hge|].
    exists m. split; [done|]. unfold lex3_lt, signal_key in Hlt. lia.
  - by apply Hset.
Qed.

Lemma room_signal_some l r g :
  dict_get (by_room l) r = Some g ->
  g ∈ l /\ sg_roomId g = r /\
  (forall h, h ∈ l -> sg_roomId h = r -> sg_confidencePermille h <= sg_confidencePermille g).
Proof.
  destruct (by_room_spec l) as (_ & Hin & Hge). intros Hg. destruct (Hin _ _ Hg) as [? <-].
  split; [done|]. split; [done|]. intros h (m & Hm & ?)%Hge Hr. rewrite Hr in Hm. naive_solver.
Qed.

Lemma room_signal_none l r h :
  dict_get (by_room l) r = None -> h ∈ l -> sg_roomId h <> r.
Proof.
  destruct (by_room_spec l) as (_ & _ & Hge). intros Hg (m & Hm & ?)%Hge <-. congruence.
Qed.

Lemma py_max_spec l m :
  py_max l = Some m ->
  m ∈ l /\ forall x, x ∈ l -> sg_confidencePermille x <= sg_confidencePermille m.
Proof.
  destruct l as [|x l]; [done|]. intros [= Hm]. revert x m Hm.
  induction l as [|y l IH]; intros x m Hm; cbn in Hm.
  - subst. split; [set_solver|]. intros y ->%list_elem_of_singleton. lia.
  - apply IH in Hm as [Hin Hmax]. split; [case_decide; set_solver|].
    intros z Hz. pose proof (Hmax _ (list_elem_of_here _ _)) as Hhead.
    case_decide as Hlt; unfold best_lt in Hlt;
      repeat apply elem_of_cons in Hz as [->|Hz]; try lia; apply Hmax; by right.
Qed.

Lemma py_max_none l : py_max l = None -> l = [].
Proof. by destruct l. Qed.

Lemma best_spec l b :
  py_max (dict_values (by_room l)) = Some b ->
  b ∈ l /\ forall g, g ∈ l -> sg_confidencePermille g <= sg_confidencePermille b.
Proof.
  destruct (by_room_spec l) as (Hnd & Hin & Hge).
  intros [Hb Hmax]%py_max_spec. split.
  - apply list_elem_of_fmap in Hb as ([k v] & -> & Hkv). by eapply Hin, dict_elem_get.
  - intros g (h & Hh & ?)%Hge. etrans; [done|]. apply Hmax.
    apply dict_get_elem in Hh. by apply (list_elem_of_fmap_2 snd) in Hh.
Qed.

Lemma best_none l : py_max (dict_values (by_room l)) = None -> l = [].
Proof.
  intros H%py_max_none. destruct l as [|g l]; [done|].
  destruct (by_room_spec (g :: l)) as (_ & _ & Hge).
  destruct (Hge g) as (h & Hh%dict_get_elem & _); [by left|].
  apply (list_elem_of_fmap_2 snd) in Hh. unfold dict_values in H. rewrite H in Hh. set_solver.
Qed.

(** ** What a batch does to the counters *)

(** The state after a batch with these fresh signals was fused. *)
Definition presence_next (p : PresencePolicy) (fresh : list PrivatePresenceSignal)
    (s : RoomPresenceFusion) : RoomPresenceFusion :=
  match py_max (dict_values (by_room fresh)) with
  | None => clear_presence s
  | Some best =>
      let advanced := advance_candidate (sg_roomId best) s in
      let entered := if decide (pf_candidate_count advanced < pp_enterObservations p)
                     then advanced else enter_room (sg_roomId best) advanced in
      match pf_current_room s with
      | None => if decide (sg_confidencePermille best < pp_enterConfidencePermille p)
                then no_candidate s else entered
      | Some here =>
          if decide (sg_roomId best <> here /\
                     sg_confidencePermille best >= pp_enterConfidencePermille p)
          then entered
          else if decide (from_option sg_confidencePermille 0 (dict_get (by_room fresh) here)
                          < pp_exitConfidencePermille p)
          then let s1 := no_candidate s in
               let s2 := set_exit_count (pf_exit_count s1 + 1) s1 in
               if decide (pf_exit_count s2 >= pp_exitObservations p) then clear_presence s2 else s2
          else set_exit_count 0 (no_candidate s)
      end
  end.

Section runs.
Variable _digest : jval -> string.
Variable max_source_checkpoints : Z.
Implicit Types s t : RoomPresenceFusion.
Implicit Types p q : PresencePolicy.

Lemma estimate_state p st room c n o s : (estimate _digest p st room c n o s).2 = s.
Proof. done. Qed.

Lemma observe_absent_state p best n o s :
  pf_current_room s = None ->
  (observe_absent _digest p best n o s).2 =
  if decide (sg_confidencePermille best < pp_enterConfidencePermille p) then no_candidate s
  else let advanced := advance_candidate (sg_roomId best) s in
       if decide (pf_candidate_count advanced < pp_enterObservations p) then advanced
       else enter_room (sg_roomId best) advanced.
Proof.
  intros _. unfold observe_absent. case_decide; [done|].
  cbv beta iota delta [mbind M_bind modify get_state]. by case_decide.
Qed.

Lemma observe_present_state p here current best n o s :
  (observe_present _digest p here current best n o s).2 =
  if decide (sg_roomId best <> here /\ sg_confidencePermille best >= pp_enterConfidencePermille p)
  then let advanced := advance_candidate (sg_roomId best) s in
       if decide (pf_candidate_count advanced < pp_enterObservations p) then advanced
       else enter_room (sg_roomId best) advanced
  else if decide (from_option sg_confidencePermille 0 current < pp_exitConfidencePermille p)
  then let s1 := no_candidate s in
       let s2 := set_exit_count (pf_exit_count s1 + 1) s1 in
       if decide (pf_exit_count s2 >= pp_exitObservations p) then clear_presence s2 else s2
  else set_exit_count 0 (no_candidate s).
Proof.
  unfold observe_present. cbv zeta.
  case_decide; cbv beta iota delta [mbind M_bind modify get_state lift].
  - case_decide; case_decide; try lia; [done|]. by destruct (known_room p here).
  - case_decide; [|done]. case_decide; [done|]. by destruct (known_room p here).
Qed.

Lemma observe_state p gs now s :
  (observe _digest p gs now s).2 = presence_next p (fresh_of p now gs) s.
Proof.
  unfold observe, presence_next. destruct (py_max _) as [best|]; [|done].
  cbv beta iota delta [mbind M_bind get_state].
  destruct (pf_current_room s) eqn:?.
  - apply observe_present_state.
  - by apply observe_absent_state.
Qed.

(** A call of [fuse] is refused and changes nothing, or its batch is accepted. *)
Lemma fuse_cases fa fp ra rp rl now s :
  (exists e, check_batch _digest fa fp max_source_checkpoints s ra rp rl now = Raise e /\
             fuse _digest fa fp max_source_checkpoints ra rp rl now s = (Raise e, s)) \/
  (exists p gs,
     check_batch _digest fa fp max_source_checkpoints s ra rp rl now = Ok (p, gs) /\
     let s1 := accept_batch (exact_scope p)
                 ((fun g => (source_key _digest g, sg_observationRevision g)) <$> gs) s in
     fuse _digest fa fp max_source_checkpoints ra rp rl now s = observe _digest p gs now s1 /\
     (fuse _digest fa fp max_source_checkpoints ra rp rl now s).2
       = presence_next p (fresh_of p now gs) s1).
Proof.
  unfold fuse. cbv beta iota delta [mbind M_bind get_state lift modify].
  destruct (check_batch _ _ _ _ _ _ _ _) as [[p gs]|e]; [right|left; eauto].
  exists p, gs. split; [done|]. split; [done|]. apply observe_state.
Qed.

Lemma presence_next_accept p fresh sc ck s :
  let f := presence_next p fresh in
  f (accept_batch sc ck s) = accept_batch sc ck (f s).
Proof.
  cbv zeta. unfold presence_next. destruct (py_max _) as [best|]; [|done].
  cbn [pf_current_room accept_batch].
  change (advance_candidate (sg_roomId best) (accept_batch sc ck s))
    with (accept_batch sc ck (advance_candidate (sg_roomId best) s)).
  cbn [pf_candidate_count accept_batch].
  destruct (pf_current_room s); repeat case_decide; done.
Qed.

(** [fuse_run p s h t]: from [s], calls of [fuse] that were accepted, if at
    all, under policy [p] led to [t]; [h] holds the fresh signals of each
    accepted batch. *)
Inductive fuse_run p s : list (list PrivatePresenceSignal) -> RoomPresenceFusion -> Prop :=
  | run_start : fuse_run p s [] s
  | run_refused h t fa fp ra rp rl now e :
      fuse_run p s h t ->
      check_batch _digest fa fp max_source_checkpoints t ra rp rl now = Raise e ->
      fuse_run p s h (fuse _digest fa fp max_source_checkpoints ra rp rl now t).2
  | run_accepted h t fa fp ra rp rl now gs :
      fuse_run p s h t ->
      check_batch _digest fa fp max_source_checkpoints t ra rp rl now = Ok (p, gs) ->
      fuse_run p s (h ++ [fresh_of p now gs])
        (fuse _digest fa fp max_source_checkpoints ra rp rl now t).2.

Lemma presence_policy_ok fp rp p : presence_policy fp rp = Ok p -> PresencePolicy_valid p.
Proof.
  unfold presence_policy. intros H. apply bind_ok in H as ([v c] & H & Hv).
  destruct (model_validate rp) as [q|[]] eqn:Hq; cbn in H; try done.
  apply model_validate_ok in Hq as [_ Hq].
  destruct (validate_resolved _) as [?|[]]; cbn in H; try done. injection H as -> ->.
  by inv_ok.
Qed.

(** A signal that passed the checks that do not depend on the others. *)
Definition acceptable p (last_observations : list (string * Z)) (g : PrivatePresenceSignal) : Prop :=
  is_Some (dict_get (rooms_of p) (sg_roomId g)) /\
  default 0 (dict_get last_observations (source_key _digest g)) < sg_observationRevision g.

Lemma check_signals_ok p last gs seen seen' :
  fold_res (check_signal _digest p last) seen gs = Ok seen' ->
  Forall (acceptable p last) gs /\ seen' = seen ++ (source_key _digest <$> gs) /\
  (NoDup seen -> NoDup seen').
Proof.
  revert seen. induction gs as [|g gs IH]; intros seen; cbn.
  - intros [= ->]. by rewrite app_nil_r.
  - intros H. apply bind_ok in H as (mid & Hg & H). apply IH in H as (Ha & -> & Hnd).
    unfold check_signal in Hg. inv_ok. split; [|split].
    + constructor; [|done]. split; [by eexists|lia].
    + by rewrite <- app_assoc.
    + intros Hs. apply Hnd, NoDup_app. split; [done|]. split; [set_solver|apply NoDup_singleton].
Qed.

Lemma check_batch_ok fa fp s ra rp rl now p gs :
  check_batch _digest fa fp max_source_checkpoints s ra rp rl now = Ok (p, gs) ->
  PresencePolicy_valid p /\ 0 <= now /\ (1 <= length gs <= 64)%nat /\
  Forall PrivatePresenceSignal_valid gs /\
  (pf_bound_scope s = None \/ pf_bound_scope s = Some (exact_scope p)) /\
  Forall (acceptable p (pf_last_observations s)) gs /\ NoDup (source_key _digest <$> gs) /\
  Z.of_nat (length (pf_last_observations s)) +
  Z.of_nat (length (filter (fun k => k ∉ dict_keys (pf_last_observations s))
                      (source_key _digest <$> gs))) <= max_source_checkpoints.
Proof.
  unfold check_batch. intros H. inv_ok. passed.
  match goal with H : presence_policy _ _ = Ok _ |- _ => apply presence_policy_ok in H end.
  match goal with H : model_validate_all _ = Ok _ |- _ => apply model_validate_all_ok in H as [-> ?] end.
  match goal with H : fold_res _ _ _ = Ok _ |- _ => apply check_signals_ok in H as (? & -> & Hnd) end.
  rewrite length_fmap in *. split_and!; try done; try lia.
  - destruct (pf_bound_scope s) as [sc|]; [right|by left]. apply dec_stable. naive_solver.
  - apply Hnd, NoDup_nil_2.
Qed.

Lemma check_batch_signals fa fp s ra rp rl now p gs :
  check_batch _digest fa fp max_source_checkpoints s ra rp rl now = Ok (p, gs) -> rl = Shaped <$> gs.
Proof.
  unfold check_batch. intros H. inv_ok.
  by match goal with H : model_validate_all _ = Ok _ |- _ => apply model_validate_all_ok in H as [-> _] end.
Qed.

(** Rule induction with the effect of an accepted batch on the counters
    spelled out: any property that checkpoints do not matter to. *)
Lemma fuse_run_ind' p s (P : list (list PrivatePresenceSignal) -> RoomPresenceFusion -> Prop) :
  P [] s ->
  (forall h t fresh, PresencePolicy_valid p -> Forall PrivatePresenceSignal_valid fresh ->
     Forall (fun g => is_Some (dict_get (rooms_of p) (sg_roomId g))) fresh ->
     P h t -> P (h ++ [fresh]) (presence_next p fresh t)) ->
  (forall h t sc ck, P h t -> P h (accept_batch sc ck t)) ->
  forall h t, fuse_run p s h t -> P h t.
Proof.
  intros H0 Hs Ha. induction 1 as [|h t fa fp ra rp rl now e _ IH He|h t fa fp ra rp rl now gs _ IH He];
    [done|destruct (fuse_cases fa fp ra rp rl now t) as [(? & _ & ->)|(? & ? & ? & _)];
      [done|congruence]|].
  destruct (fuse_cases fa fp ra rp rl now t) as [(? & ? & _)|(q & gs' & Hq & _ & ->)]; [congruence|].
  rewrite He in Hq. injection Hq as <- <-. rewrite presence_next_accept.
  apply check_batch_ok in He as (? & _ & _ & Hv & _ & Hg & _). rewrite Forall_forall in Hv, Hg.
  apply Ha, Hs; [done|..|done]; rewrite Forall_forall; intros g [_ ?]%list_elem_of_filter;
    [auto|by apply Hg].
Qed.

(** ** Hysteresis *)

(** No room is more probable than [r] in the batch, and [r] is probable enough
    to be entered. *)
Definition favours p (r : string) (fresh : list PrivatePresenceSignal) : Prop :=
  exists g, g ∈ fresh /\ sg_roomId g = r /\
    pp_enterConfidencePermille p <= sg_confidencePermille g /\
    forall h, h ∈ fresh -> sg_confidencePermille h <= sg_confidencePermille g.

(** No signal from [r] in the batch is strong enough to stay there. *)
Definition faint p (r : string) (fresh : list PrivatePresenceSignal) : Prop :=
  forall g, g ∈ fresh -> sg_roomId g = r -> sg_confidencePermille g < pp_exitConfidencePermille p.

Definition doubtful p (r : string) (fresh : list PrivatePresenceSignal) : Prop :=
  faint p r fresh \/ exists r', r' <> r /\ favours p r' fresh.

Lemma best_favours p fresh best :
  py_max (dict_values (by_room fresh)) = Some best ->
  pp_enterConfidencePermille p <= sg_confidencePermille best ->
  favours p (sg_roomId best) fresh.
Proof. intros [??]%best_spec ?. by exists best. Qed.

Lemma weak_faint p fresh here :
  from_option sg_confidencePermille 0 (dict_get (by_room fresh) here) < pp_exitConfidencePermille p ->
  faint p here fresh.
Proof.
  intros Hc g Hg Hr. destruct (dict_get _ _) as [c|] eqn:E; cbn in Hc.
  - apply room_signal_some in E as (_ & _ & E). specialize (E g Hg Hr). lia.
  - by eapply room_signal_none in E.
Qed.

(** The last [n] batches satisfy [P]. *)
Definition ends_with (P : list PrivatePresenceSignal -> Prop) (n : Z)
    (h : list (list PrivatePresenceSignal)) : Prop :=
  exists h0 w, h = h0 ++ w /\ Z.of_nat (length w) = n /\ Forall P w.

(** [n] faint batches, with only doubtful ones between and after them. *)
Definition fades p (r : string) (n : Z) (h : list (list PrivatePresenceSignal)) : Prop :=
  exists h0 h1 w, h = h0 ++ h1 /\ Forall (doubtful p r) h1 /\
    w `sublist_of` h1 /\ Z.of_nat (length w) = n /\ Forall (faint p r) w.

Lemma ends_with_0 P h : ends_with P 0 h.
Proof. exists h, []. by rewrite app_nil_r. Qed.

Lemma ends_with_snoc (P : list PrivatePresenceSignal -> Prop) n h x :
  P x -> ends_with P n h -> ends_with P (n + 1) (h ++ [x]).
Proof.
  intros Hx (h0 & w & -> & <- & Hw). exists h0, (w ++ [x]). rewrite <- app_assoc.
  split; [done|]. split; [rewrite length_app; cbn; lia|]. by apply Forall_app_2; [|constructor].
Qed.

Lemma fades_0 p r h : fades p r 0 h.
Proof. exists h, [], []. rewrite app_nil_r. repeat split; by try constructor. Qed.

Lemma fades_skip p r n h x : doubtful p r x -> fades p r n h -> fades p r n (h ++ [x]).
Proof.
  intros Hx (h0 & h1 & w & -> & Hd & Hw & Hn & Hf). exists h0, (h1 ++ [x]), w.
  rewrite <- app_assoc. split; [done|]. split; [by apply Forall_app_2; [|constructor]|].
  split; [by apply sublist_inserts_r|done].
Qed.

Lemma fades_snoc p r n h x : faint p r x -> fades p r n h -> fades p r (n + 1) (h ++ [x]).
Proof.
  intros Hx (h0 & h1 & w & -> & Hd & Hw & <- & Hf). exists h0, (h1 ++ [x]), (w ++ [x]).
  rewrite <- app_assoc. split; [done|].
  split; [apply Forall_app_2; [done|constructor; [by left|done]]|].
  split; [by apply sublist_app|]. split; [rewrite length_app; cbn; lia|].
  by apply Forall_app_2; [|constructor].
Qed.

(** What the counters count. *)
Definition hysteresis p (h : list (list PrivatePresenceSignal)) s : Prop :=
  match pf_candidate_room s with
  | None => pf_candidate_count s = 0
  | Some r => pf_current_room s <> Some r /\
      0 < pf_candidate_count s < pp_enterObservations p /\
      ends_with (favours p r) (pf_candidate_count s) h
  end /\
  match pf_current_room s with
  | None => True
  | Some here => 0 <= pf_exit_count s < pp_exitObservations p /\ fades p here (pf_exit_count s) h
  end.

Lemma hysteresis_advance p h s fresh best :
  hysteresis p h s -> favours p (sg_roomId best) fresh ->
  let s' := advance_candidate (sg_roomId best) s in
  0 < pf_candidate_count s' /\ ends_with (favours p (sg_roomId best)) (pf_candidate_count s') (h ++ [fresh]).
Proof.
  intros [Hc _] Hf. cbn. case_decide as E.
  - rewrite E in Hc. destruct Hc as (_ & ? & ?). split; [lia|]. by apply ends_with_snoc.
  - split; [lia|]. apply (ends_with_snoc _ 0); [done|apply ends_with_0].
Qed.

Lemma hysteresis_next p h s fresh :
  PresencePolicy_valid p -> hysteresis p h s ->
  hysteresis p (h ++ [fresh]) (presence_next p fresh s).
Proof.
  intros Hp Hs. assert (1 <= pp_exitObservations p) by (apply Hp).
  unfold presence_next. destruct (py_max _) as [best|] eqn:Hbest; [|by split].
  assert (Hent : pp_enterConfidencePermille p <= sg_confidencePermille best ->
    pf_current_room s <> Some (sg_roomId best) ->
    let advanced := advance_candidate (sg_roomId best) s in
    hysteresis p (h ++ [fresh]) (if decide (pf_candidate_count advanced < pp_enterObservations p)
                     then advanced else enter_room (sg_roomId best) advanced)).
  { intros Hconf Hne. apply (best_favours p) in Hbest as Hf; [|done].
    destruct (hysteresis_advance p h s fresh best) as [??]; [done..|]. cbv zeta. case_decide.
    - split; [by split_and!|]. cbn. destruct Hs as [_ Hs].
      destruct (pf_current_room s) as [here|]; [|done]. destruct Hs. split; [done|].
      apply fades_skip; [|done]. right. exists (sg_roomId best). split; [congruence|done].
    - split; [done|]. cbn. split; [lia|apply fades_0]. }
  destruct (pf_current_room s) as [here|] eqn:Hcur.
  - case_decide as Hcomp; [apply Hent; [lia|naive_solver]|].
    destruct Hs as [_ Hs]. rewrite Hcur in Hs. destruct Hs as [? Hfade].
    case_decide as Hw; [|].
    + apply weak_faint in Hw. cbn. case_decide; [by split|].
      split; [done|]. cbn. rewrite Hcur. split; [lia|]. by apply fades_snoc.
    + split; [done|]. cbn. rewrite Hcur. split; [lia|apply fades_0].
  - case_decide; [split; [done|]; cbn; by rewrite Hcur|]. apply Hent; [lia|done].
Qed.

Lemma hysteresis_run p h s : fuse_run p no_presence h s -> hysteresis p h s.
Proof.
  apply fuse_run_ind'; [by split| |done]. intros. by apply hysteresis_next.
Qed.

(** What one batch may change: a room is entered only after enough batches in
    a row favoured it, and left for nowhere only when nothing was heard or
    after enough faint batches with only doubtful ones around them. *)
Lemma next_confirmed p h s fresh o :
  PresencePolicy_valid p -> hysteresis p h s ->
  pf_current_room (presence_next p fresh s) = o -> pf_current_room s <> o ->
  match o with
  | Some r => ends_with (favours p r) (pp_enterObservations p) (h ++ [fresh])
  | None => fresh = [] \/ exists here, pf_current_room s = Some here /\
              fades p here (pp_exitObservations p) (h ++ [fresh])
  end.
Proof.
  intros Hp Hs. unfold presence_next.
  destruct (py_max _) as [best|] eqn:Hbest; [|intros <- _; left; by apply best_none].
  assert (Hent : pp_enterConfidencePermille p <= sg_confidencePermille best ->
    let advanced := advance_candidate (sg_roomId best) s in
    pf_current_room (if decide (pf_candidate_count advanced < pp_enterObservations p)
                     then advanced else enter_room (sg_roomId best) advanced) = o ->
    pf_current_room s <> o ->
    exists r, o = Some r /\ ends_with (favours p r) (pp_enterObservations p) (h ++ [fresh])).
  { intros Hconf. apply (best_favours p) in Hbest as Hf; [|done].
    destruct (hysteresis_advance p h s fresh best) as [Hpos Hends]; [done..|]. cbv zeta.
    case_decide as Hn; [intros <- []; done|]. cbn [pf_current_room enter_room]. intros <- _.
    exists (sg_roomId best). split; [done|].
    enough (pp_enterObservations p = pf_candidate_count (advance_candidate (sg_roomId best) s)) as -> by done.
    destruct Hs as [Hc _]. destruct Hp as (_&_&_&_&_&_&_&_&_&_&_&_&?&_). cbn in *.
    case_decide as E; [rewrite E in Hc; lia|lia]. }
  destruct (pf_current_room s) as [here|] eqn:Hcur.
  - case_decide as Hcomp; [intros H1 H2; destruct Hent as (r & -> & ?); [lia|done..]|].
    case_decide as Hw; [cbn; case_decide as Hx|]; cbn.
    + intros <- _. right. exists here. split; [done|]. apply weak_faint in Hw.
      destruct Hs as [_ Hs]. rewrite Hcur in Hs. destruct Hs as [? Hfade].
      enough (pp_exitObservations p = pf_exit_count s + 1) as -> by (by apply fades_snoc).
      lia.
    + rewrite Hcur. by intros <-.
    + rewrite Hcur. by intros <-.
  - case_decide; [cbn; rewrite Hcur; by intros <-|].
    intros H1 H2. destruct Hent as (r & -> & ?); [lia|done..].
Qed.

(** Every signal of the batch from another room than [r] is less probable than
    one from [r], which is probable enough to enter. *)
Definition singles_out p (r : string) (fresh : list PrivatePresenceSignal) : Prop :=
  exists g, g ∈ fresh /\ sg_roomId g = r /\
    pp_enterConfidencePermille p <= sg_confidencePermille g /\
    forall h, h ∈ fresh -> sg_roomId h <> r -> sg_confidencePermille h < sg_confidencePermille g.

(** Something was heard, but nothing strong enough to stay anywhere. *)
Definition only_noise p (fresh : list PrivatePresenceSignal) : Prop :=
  fresh <> [] /\ forall g, g ∈ fresh -> sg_confidencePermille g < pp_exitConfidencePermille p.

Lemma singled_out_best p r fresh :
  singles_out p r fresh ->
  exists best, py_max (dict_values (by_room fresh)) = Some best /\ sg_roomId best = r /\
    pp_enterConfidencePermille p <= sg_confidencePermille best /\
    sg_confidencePermille best <= from_option sg_confidencePermille 0 (dict_get (by_room fresh) r).
Proof.
  intros (g & Hg & Hr & Hc & Hlt). destruct (py_max _) as [best|] eqn:Hb.
  - exists best. split; [done|]. apply best_spec in Hb as [Hin Hmax].
    assert (Hbr : sg_roomId best = r).
    { destruct (decide (sg_roomId best = r)) as [|Hne]; [done|].
      specialize (Hlt _ Hin Hne). specialize (Hmax _ Hg). lia. }
    split; [done|]. split; [etrans; [done|by apply Hmax]|].
    destruct (dict_get _ r) as [m|] eqn:Hm; cbn.
    + apply room_signal_some in Hm as (_ & _ & Hm). by apply Hm.
    + by eapply room_signal_none in Hm.
  - apply best_none in Hb as ->. set_solver.
Qed.

Lemma settles_next p r h s fresh k :
  PresencePolicy_valid p -> singles_out p r fresh -> hysteresis p h s ->
  (k = 0 \/ pf_current_room s = Some r \/
   (pf_candidate_room s = Some r /\ k <= pf_candidate_count s)) ->
  let s' := presence_next p fresh s in
  pf_current_room s' = Some r \/ (pf_candidate_room s' = Some r /\ k + 1 <= pf_candidate_count s').
Proof.
  intros Hp Hr Hs Hk. apply singled_out_best in Hr as (best & Hb & <- & Hconf & Hhere).
  assert (pp_exitConfidencePermille p < pp_enterConfidencePermille p) by apply Hp.
  assert (Hent : pf_current_room s <> Some (sg_roomId best) ->
    let advanced := advance_candidate (sg_roomId best) s in
    let s' := if decide (pf_candidate_count advanced < pp_enterObservations p)
              then advanced else enter_room (sg_roomId best) advanced in
    pf_current_room s' = Some (sg_roomId best) \/
    (pf_candidate_room s' = Some (sg_roomId best) /\ k + 1 <= pf_candidate_count s')).
  { intros Hne. pose proof (best_favours p _ _ Hb Hconf) as Hf.
    destruct (hysteresis_advance p h s fresh best Hs Hf) as [Hpos _].
    cbv zeta. case_decide; [right|by left]. split; [done|].
    destruct Hk as [->|[|[Hc ?]]]; [lia|done|]. cbn. rewrite decide_True by done. lia. }
  cbv zeta. unfold presence_next. rewrite Hb. destruct (pf_current_room s) as [here|] eqn:Hcur.
  - case_decide as Hcomp; [apply Hent; naive_solver|].
    assert (here = sg_roomId best) as ->.
    { apply dec_stable. intros ?. apply Hcomp. split; [done|lia]. }
    rewrite decide_False by lia. left. cbn. done.
  - rewrite decide_False by lia. by apply Hent.
Qed.

Lemma empties_next p s fresh k :
  PresencePolicy_valid p -> Forall PrivatePresenceSignal_valid fresh -> only_noise p fresh ->
  0 <= k -> (k = 0 /\ (pf_current_room s <> None -> 0 <= pf_exit_count s) \/
   pf_current_room s = None \/ k <= pf_exit_count s) ->
  let s' := presence_next p fresh s in
  pf_current_room s' = None \/ k + 1 <= pf_exit_count s'.
Proof.
  intros Hp Hv [Hne Hnoise] Hk0 Hk. cbv zeta. unfold presence_next.
  destruct (py_max _) as [best|] eqn:Hb; [|by apply best_none in Hb].
  assert (pp_exitConfidencePermille p < pp_enterConfidencePermille p) by apply Hp.
  apply best_spec in Hb as [Hin Hmax]. pose proof (Hnoise _ Hin) as Hlow.
  assert (0 <= sg_confidencePermille best).
  { rewrite Forall_forall in Hv. by apply Hv in Hin as (_&_&_&_&_&_&_&_&_&_&_&_&_&_&_&_&_&[]&_). }
  destruct (pf_current_room s) as [here|] eqn:Hcur.
  - rewrite decide_False by lia. rewrite decide_True.
    + case_decide; [by left|right]. cbn. destruct Hk as [[-> Hk]|[|]]; [|done|lia].
      specialize (Hk ltac:(done)). lia.
    + destruct (dict_get _ here) as [m|] eqn:Hm; cbn; [|lia].
      apply room_signal_some in Hm as (Hm & _). by apply Hnoise.
  - rewrite decide_True by lia. left. done.
Qed.

(** The last batches of a run, when each of them satisfies [B]: [Q k] is what
    [k] of them in a row establish. *)
Lemma fuse_run_suffix p (B : list PrivatePresenceSignal -> Prop) (Q : Z -> RoomPresenceFusion -> Prop) :
  (forall h t fresh k, PresencePolicy_valid p -> Forall PrivatePresenceSignal_valid fresh ->
     B fresh -> hysteresis p h t -> 0 <= k -> k = 0 \/ Q k t -> Q (k + 1) (presence_next p fresh t)) ->
  (forall k t sc ck, Q k t -> Q k (accept_batch sc ck t)) ->
  forall h bs s, fuse_run p no_presence (h ++ bs) s -> Forall B bs ->
    bs = [] \/ Q (Z.of_nat (length bs)) s.
Proof.
  intros Hnext Hacc h bs s Hrun. remember (h ++ bs) as full eqn:Hfull. revert h bs Hfull.
  cut (hysteresis p full s /\ forall h bs, full = h ++ bs -> Forall B bs ->
      bs = [] \/ Q (Z.of_nat (length bs)) s); [intros [_ H]; exact H|].
  revert full s Hrun. apply fuse_run_ind'.
  - split; [by split|]. intros h [|] ?; [by left|by destruct h].
  - intros h' t fresh Hp Hv _ [Hh IH]. split; [by apply hysteresis_next|].
    intros h bs Hfull Hall. induction bs as [|x bs _] using rev_ind; [by left|right].
    rewrite app_assoc in Hfull. apply app_inj_tail in Hfull as [-> <-].
    apply Forall_app in Hall as [Hall [Hx _]%Forall_cons_1].
    rewrite length_app. cbn [length]. rewrite Nat2Z.inj_add.
    eapply Hnext; [done|done|done|eassumption|lia|]. destruct (IH h bs) as [->|]; [done..|by left|by right].
  - intros h t sc ck [Hh IH]. split; [done|]. intros h' bs Hfull Hall.
    destruct (IH h' bs) as [|]; [done..|by left|right; by apply Hacc].
Qed.

(** C19 A room is entered, or replaced by another, only after the policy's
    [enterObservations] accepted batches in a row each had a signal from the
    new room that was strong enough to enter and that nothing in the batch
    exceeded.  A room is left for nowhere only when a batch held no fresh
    signal, or after [exitObservations] batches without a signal of the room
    strong enough to stay, during which no batch confirmed the room. *)
Theorem presence_changes_confirmed p h s fa fp ra rp rl now gs :
  fuse_run p no_presence h s ->
  check_batch _digest fa fp max_source_checkpoints s ra rp rl now = Ok (p, gs) ->
  let s' := (fuse _digest fa fp max_source_checkpoints ra rp rl now s).2 in
  let h' := h ++ [fresh_of p now gs] in
  pf_current_room s' <> pf_current_room s ->
  match pf_current_room s' with
  | Some r => ends_with (favours p r) (pp_enterObservations p) h'
  | None => fresh_of p now gs = [] \/
      exists here, pf_current_room s = Some here /\ fades p here (pp_exitObservations p) h'
  end.
Proof.
  cbv zeta. intros Hrun Hchk Hne.
  destruct (fuse_cases fa fp ra rp rl now s) as [(? & ? & _)|(q & gs' & Hq & _ & Hs')]; [congruence|].
  rewrite Hchk in Hq. injection Hq as <- <-. rewrite presence_next_accept in Hs'.
  rewrite Hs' in Hne |- *. apply check_batch_ok in Hchk as [Hp _].
  apply next_confirmed; [done|by apply hysteresis_run|done|]. intros E. by apply Hne.
Qed.

(** Enough evidence decides: when the last [enterObservations] accepted
    batches (or more) all single out one room, the device is in that room,
    wherever it was before and whatever was being counted; and when the last
    [exitObservations] batches (or more) held nothing but signals too weak to
    stay anywhere, the device is nowhere. *)
Theorem presence_settles p h bs s :
  fuse_run p no_presence (h ++ bs) s ->
  (forall r, Forall (singles_out p r) bs -> pp_enterObservations p <= Z.of_nat (length bs) ->
     bs <> [] -> pf_current_room s = Some r) /\
  (Forall (only_noise p) bs -> pp_exitObservations p <= Z.of_nat (length bs) ->
     bs <> [] -> pf_current_room s = None).
Proof.
  intros Hrun. pose proof (hysteresis_run _ _ _ Hrun) as [Hcand Hexit]. split.
  - intros r Hall Hlen Hne.
    destruct (fuse_run_suffix p (singles_out p r) (fun k s => pf_current_room s = Some r \/
      (pf_candidate_room s = Some r /\ k <= pf_candidate_count s))) with h bs s
      as [|[|[Hr ?]]]; try done; [|rewrite Hr in Hcand; lia].
    intros h' t fresh k ?????. by apply (settles_next p r h').
  - intros Hall Hlen Hne.
    destruct (fuse_run_suffix p (only_noise p) (fun k s => pf_current_room s = None \/
      k <= pf_exit_count s)) with h bs s as [|[|]]; try done;
      [|destruct (pf_current_room s); [lia|done]].
    intros h' t fresh k ??? [_ Hh] ? Hk. apply empties_next; [done..|].
    destruct Hk as [->|]; [|by right]. left. split; [done|].
    destruct (pf_current_room t); [lia|done].
Qed.

(** ** Answers *)

(** What [hexdigest] returns. *)
Hypothesis digest_hex : forall v, is_hex 64 (_digest v).

Lemma fresh_elem p now gs g : g ∈ fresh_of p now gs -> g ∈ gs.
Proof. by intros [_ ?]%list_elem_of_filter. Qed.

Lemma latest_bounds l :
  Forall PrivatePresenceSignal_valid l -> 0 <= latest l <= 2 ^ 63 - 1.
Proof.
  induction 1 as [|g l Hg _ IH]; cbn; [lia|].
  destruct Hg as (_&_&_&_&_&_&_&_&_&_&_&_&_&_&_&_&_&_&[]&_). unfold latest in IH. lia.
Qed.

Lemma rooms_of_valid p k room :
  PresencePolicy_valid p -> dict_get (rooms_of p) k = Some room ->
  pr_roomId room = k /\ Identity k /\ Revision (pr_roomRevision room).
Proof.
  intros Hp Hr. unfold rooms_of in Hr. apply dict_of_get_elem in Hr as (r & Hin & <- & <-).
  destruct Hp as (_&_&_&_&_&_&_&_&_&Hrooms&_). rewrite Forall_forall in Hrooms.
  by apply Hrooms in Hin as (_&_&?&?).
Qed.

Lemma estimate_ok p st room c n o s :
  PresencePolicy_valid p -> Confidence c -> 0 <= n <= 64 -> TimestampMs o ->
  0 <= pf_transition_revision s <= MAX_REVISION ->
  match st with
  | PPresent | PUncertain => exists r, room = Some r /\ Identity r.1 /\ Revision r.2
  | PCandidate => room = None
  | PUnknown => room = None /\ c = 0 /\ n = 0
  end ->
  estimate _digest p st room c n o s
    = (Ok (make_estimate _digest p st room c n o (pf_transition_revision s)), s).
Proof.
  intros Hp Hc Hn Ho Ht Hst. unfold estimate. cbv beta iota delta [mbind M_bind get_state lift].
  rewrite model_validate_valid; [done|].
  destruct Hp as (?&?&?&?&?&(_&_&?&?&?&?&?&?)&_).
  unfold model_valid, PresenceEstimate_model, PresenceEstimate_valid, room_matches_status. cbn.
  assert (Hid : forall v, is_hex 32 (String.substring 0 32 (_digest v))).
  { intros v. apply (hex_prefix _ 64); [apply digest_hex|lia]. }
  destruct st; cbn in Hst;
    [destruct Hst as (->&->&->)|subst room|destruct Hst as ([r n'] & -> & ? & ?)..]; cbn in *;
    split_and!; try done; try lia.
Qed.

Definition room_known p (o : option string) : Prop :=
  forall r, o = Some r -> is_Some (dict_get (rooms_of p) r).

Lemma room_known_next p fresh s :
  Forall (fun g => is_Some (dict_get (rooms_of p) (sg_roomId g))) fresh ->
  room_known p (pf_current_room s) -> room_known p (pf_current_room (presence_next p fresh s)).
Proof.
  intros Hf Hs. unfold presence_next. destruct (py_max _) as [best|] eqn:Hb; [|done].
  apply best_spec in Hb as [Hin _]. rewrite Forall_forall in Hf. apply Hf in Hin.
  destruct (pf_current_room s) eqn:E; repeat case_decide; cbn; try rewrite E; try done;
    by intros ? [= <-].
Qed.

Lemma room_known_run p h s : fuse_run p no_presence h s -> room_known p (pf_current_room s).
Proof.
  apply (fuse_run_ind' p no_presence (fun _ t => room_known p (pf_current_room t))); [done| |done].
  intros. by apply room_known_next.
Qed.

(** The estimate tells the room the engine has settled on. *)
Definition faithful_estimate (r : res PresenceEstimate) s : Prop :=
  exists e, r = Ok e /\ pe_roomId e = pf_current_room s /\
    pe_transitionRevision e = pf_transition_revision s /\
    (pe_status e = PPresent \/ pe_status e = PUncertain <-> is_Some (pf_current_room s)).

Lemma estimate_faithful p st room c n o s :
  PresencePolicy_valid p -> Confidence c -> 0 <= n <= 64 -> TimestampMs o ->
  0 <= pf_transition_revision s <= MAX_REVISION ->
  match st with
  | PPresent | PUncertain => exists r, room = Some r /\ Identity r.1 /\ Revision r.2
  | PCandidate => room = None
  | PUnknown => room = None /\ c = 0 /\ n = 0
  end -> fst <$> room = pf_current_room s ->
  let '(r, s') := estimate _digest p st room c n o s in faithful_estimate r s'.
Proof.
  intros Hp Hc Hn Ho Ht Hst Hroom. rewrite estimate_ok by done. eexists. split; [done|].
  cbn. split; [done|]. split; [done|]. rewrite <- Hroom.
  destruct st; cbn in Hst;
    [destruct Hst as (->&->&->)|subst room|destruct Hst as ([r n'] & -> & ? & ?)..]; cbn;
    split; try (by intros [?|?]); try (by intros [? [=]]); by eauto.
Qed.

(** Every signal of the batch carries a valid room. *)
Lemma signal_ref_valid g : PrivatePresenceSignal_valid g ->
  Identity (signal_ref g).1 /\ Revision (signal_ref g).2 /\ Confidence (sg_confidencePermille g).
Proof. intros (_&_&_&?&?&_&_&_&_&_&_&_&_&_&_&_&_&?&_). done. Qed.

Lemma known_room_ok p here :
  PresencePolicy_valid p -> room_known p (Some here) ->
  exists n, known_room p here = Ok (here, n) /\ Identity here /\ Revision n.
Proof.
  intros Hp Hk. destruct (Hk here eq_refl) as [room Hr]. apply rooms_of_valid in Hr as Hv; [|done].
  destruct Hv as (<- & ? & ?). exists (pr_roomRevision room). unfold known_room. by rewrite Hr.
Qed.

Section observing.
Variables (p : PresencePolicy) (fresh : list PrivatePresenceSignal) (best : PrivatePresenceSignal).
Variables (n o : Z).
Hypothesis p_valid : PresencePolicy_valid p.
Hypothesis fresh_valid : Forall PrivatePresenceSignal_valid fresh.
Hypothesis is_best : py_max (dict_values (by_room fresh)) = Some best.
Hypothesis n_bounds : 0 <= n <= 64.
Hypothesis o_bounds : TimestampMs o.

Lemma best_valid : PrivatePresenceSignal_valid best.
Proof. apply best_spec in is_best as [Hin _]. rewrite Forall_forall in fresh_valid. auto. Qed.

Lemma current_confidence_valid here :
  Confidence (from_option sg_confidencePermille 0 (dict_get (by_room fresh) here)).
Proof.
  destruct (dict_get _ _) as [g|] eqn:Hg; cbn; [|done].
  apply room_signal_some in Hg as (Hin & _). rewrite Forall_forall in fresh_valid.
  apply signal_ref_valid. auto.
Qed.

Lemma observe_absent_answers s :
  pf_current_room s = None -> 0 <= pf_transition_revision s < MAX_REVISION ->
  let '(r, s') := observe_absent _digest p best n o s in faithful_estimate r s'.
Proof.
  intros Hcur Ht. destruct (signal_ref_valid _ best_valid) as (? & ? & ?).
  unfold observe_absent. case_decide; cbv beta iota delta [mbind M_bind modify get_state].
  - by apply estimate_faithful; try done; cbn; lia.
  - case_decide; apply estimate_faithful; try done; cbn; try lia. by eexists.
Qed.

Lemma observe_present_answers s here :
  pf_current_room s = Some here -> room_known p (Some here) ->
  0 <= pf_transition_revision s < MAX_REVISION -> 0 < pp_exitConfidencePermille p ->
  let '(r, s') :=
    observe_present _digest p here (dict_get (by_room fresh) here) best n o s in
  faithful_estimate r s'.
Proof.
  intros Hcur Hknown Ht Hexit. destruct (signal_ref_valid _ best_valid) as (? & ? & ?).
  destruct (known_room_ok p here) as (rev & Hroom & ? & ?); [done..|].
  pose proof (current_confidence_valid here) as Hconf.
  unfold observe_present. cbv zeta. rewrite Hroom.
  case_decide; cbv beta iota delta [mbind M_bind modify get_state lift].
  - case_decide; apply estimate_faithful; try done; cbn; try lia; by eexists.
  - case_decide as Hweak; [case_decide|]; apply estimate_faithful; try done; cbn; try lia.
    + by eexists.
    + destruct (dict_get _ here) as [g|] eqn:Hg; cbn in Hweak |- *; [|lia].
      apply room_signal_some in Hg as (Hin & _). rewrite Forall_forall in fresh_valid.
      eexists. split; [done|]. by destruct (signal_ref_valid g (fresh_valid g Hin)) as (? & ? & _).
    + destruct (dict_get _ here) as [g|] eqn:Hg; cbn in Hweak |- *; [|lia].
      apply room_signal_some in Hg as (_ & -> & _). done.
Qed.
End observing.

(** C40 A batch that is accepted is answered: while [exitConfidencePermille]
    is positive no exception leaves [fuse] once the batch has advanced the
    checkpoints, and the estimate names exactly the room the engine has
    settled on, as present or uncertain, or no room. *)
Theorem presence_fuse_answers p h s fa fp ra rp rl now gs :
  fuse_run p no_presence h s ->
  check_batch _digest fa fp max_source_checkpoints s ra rp rl now = Ok (p, gs) ->
  0 < pp_exitConfidencePermille p -> 0 <= pf_transition_revision s < MAX_REVISION ->
  now <= 2 ^ 63 - 1 ->
  let '(r, s') := fuse _digest fa fp max_source_checkpoints ra rp rl now s in
  faithful_estimate r s'.
Proof.
  intros Hrun Hchk Hexit Ht Hnow.
  destruct (fuse_cases fa fp ra rp rl now s) as [(? & ? & _)|(q & gs' & Hq & Hs' & _)]; [congruence|].
  rewrite Hchk in Hq. injection Hq as <- <-. rewrite Hs'.
  apply check_batch_ok in Hchk as (Hp & Hnow0 & Hlen & Hv & _).
  assert (Hfv : Forall PrivatePresenceSignal_valid (fresh_of p now gs)).
  { rewrite Forall_forall in *. eauto using fresh_elem. }
  assert (length (fresh_of p now gs) <= length gs)%nat by apply length_filter.
  unfold observe. destruct (py_max _) as [best|] eqn:Hb.
  - cbv beta iota delta [mbind M_bind get_state]. pose proof (latest_bounds _ Hfv).
    destruct (pf_current_room _) as [here|] eqn:Hcur; cbn in Hcur.
    + apply observe_present_answers; try done; [lia|].
      rewrite <- Hcur. by eapply room_known_run.
    + eapply observe_absent_answers; try done. lia.
  - cbv beta iota delta [mbind M_bind modify]. apply estimate_faithful; try done; cbn; lia.
Qed.

(** ** Replays *)

(** Any calls of [fuse], under any policies and resolvers. *)
Inductive fused_to s : RoomPresenceFusion -> Prop :=
  | fused_refl : fused_to s s
  | fused_step t fa fp ra rp rl now :
      fused_to s t -> fused_to s (fuse _digest fa fp max_source_checkpoints ra rp rl now t).2.

Definition checkpoint s (key : string) : Z := default 0 (dict_get (pf_last_observations s) key).

Definition batch_checkpoints (gs : list PrivatePresenceSignal) : list (string * Z) :=
  (fun g => (source_key _digest g, sg_observationRevision g)) <$> gs.

Lemma batch_checkpoints_keys gs : dict_keys (batch_checkpoints gs) = source_key _digest <$> gs.
Proof. unfold dict_keys, batch_checkpoints. by rewrite <- list_fmap_compose. Qed.

Lemma next_keeps p fresh s :
  pf_last_observations (presence_next p fresh s) = pf_last_observations s /\
  pf_bound_scope (presence_next p fresh s) = pf_bound_scope s.
Proof.
  unfold presence_next. destruct (py_max _); [|done].
  destruct (pf_current_room s); repeat case_decide; done.
Qed.

(** What a call leaves of the checkpoints. *)
Lemma fuse_checkpoints fa fp ra rp rl now s :
  let s' := (fuse _digest fa fp max_source_checkpoints ra rp rl now s).2 in
  s' = s \/ exists p gs,
    check_batch _digest fa fp max_source_checkpoints s ra rp rl now = Ok (p, gs) /\
    pf_bound_scope s' = Some (exact_scope p) /\
    pf_last_observations s' = dict_update (pf_last_observations s) (batch_checkpoints gs).
Proof.
  cbv zeta. destruct (fuse_cases fa fp ra rp rl now s) as [(e & _ & ->)|(p & gs & Hc & _ & ->)];
    [by left|right]. exists p, gs. split; [done|].
  destruct (next_keeps p (fresh_of p now gs) (accept_batch (exact_scope p)
    ((fun g => (source_key _digest g, sg_observationRevision g)) <$> gs) s)) as [-> ->]. done.
Qed.

Lemma batch_checkpoints_get gs g :
  NoDup (source_key _digest <$> gs) -> g ∈ gs ->
  dict_get (batch_checkpoints gs) (source_key _digest g) = Some (sg_observationRevision g).
Proof.
  intros Hnd Hg. apply dict_elem_get; [by rewrite batch_checkpoints_keys|].
  by apply (list_elem_of_fmap_2 (fun g => (source_key _digest g, sg_observationRevision g))).
Qed.

Lemma fuse_checkpoint_grows fa fp ra rp rl now s key :
  checkpoint s key
  <= checkpoint (fuse _digest fa fp max_source_checkpoints ra rp rl now s).2 key.
Proof.
  destruct (fuse_checkpoints fa fp ra rp rl now s) as [->|(p & gs & Hc & _ & Hl)]; [done|].
  apply check_batch_ok in Hc as (_ & _ & _ & _ & _ & Hacc & Hnd & _).
  unfold checkpoint. rewrite Hl, dict_update_get by (by rewrite batch_checkpoints_keys).
  destruct (dict_get (batch_checkpoints gs) key) as [v|] eqn:Hv; [|done].
  apply dict_get_elem, list_elem_of_fmap in Hv as (g & [= -> ->] & Hg).
  rewrite Forall_forall in Hacc. apply Hacc in Hg as [_ ?]. cbn. lia.
Qed.

Lemma fused_checkpoint_grows s t key : fused_to s t -> checkpoint s key <= checkpoint t key.
Proof.
  induction 1 as [|t fa fp ra rp rl now _ IH]; [done|].
  etrans; [exact IH|apply fuse_checkpoint_grows].
Qed.

Lemma accepted_checkpoint fa fp ra rp rl now s p gs g :
  check_batch _digest fa fp max_source_checkpoints s ra rp rl now = Ok (p, gs) -> g ∈ gs ->
  checkpoint (fuse _digest fa fp max_source_checkpoints ra rp rl now s).2 (source_key _digest g)
  = sg_observationRevision g.
Proof.
  intros Hc Hg. destruct (fuse_cases fa fp ra rp rl now s) as [(? & ? & _)|(q & gs' & Hq & _ & ->)];
    [congruence|]. rewrite Hc in Hq. injection Hq as <- <-.
  apply check_batch_ok in Hc as (_ & _ & _ & _ & _ & _ & Hnd & _). unfold checkpoint.
  destruct (next_keeps p (fresh_of p now gs) (accept_batch (exact_scope p) (batch_checkpoints gs) s))
    as [Hl _]. unfold batch_checkpoints in Hl at 1. rewrite Hl. cbn.
  rewrite dict_update_get by (by rewrite batch_checkpoints_keys).
  by rewrite batch_checkpoints_get.
Qed.

Lemma presence_authority_api fa ra : api_only (presence_authority fa ra).
Proof.
  unfold presence_authority. apply api_only_bind; [apply api_only_except_any|].
  intros [v c] _. repeat (apply api_only_bind; [|intros]); auto with closed_errors.
Qed.

Lemma presence_policy_api fp rp : api_only (presence_policy fp rp).
Proof.
  unfold presence_policy. apply api_only_bind.
  - intros e He. destruct (model_validate rp ≫= _) as [|[]]; cbn in He; try done; injection He as <-; eauto.
  - intros [v c] _. repeat (apply api_only_bind; [|intros]); auto with closed_errors.
Qed.

Lemma check_signal_api p last seen g : api_only (check_signal _digest p last seen g).
Proof. unfold check_signal. repeat (apply api_only_bind; [|intros]); auto with closed_errors. Qed.

Lemma check_batch_api fa fp s ra rp rl now :
  api_only (check_batch _digest fa fp max_source_checkpoints s ra rp rl now).
Proof.
  unfold check_batch. apply api_only_bind; [apply presence_authority_api|intros authority _].
  apply api_only_bind; [apply presence_policy_api|intros p _].
  repeat (apply api_only_bind; [|intros]);
    auto using check_signal_api, value_only_validate_all with closed_errors.
Qed.

(** No observation counts twice and a refusal changes nothing: after a
    batch with signal [g] was accepted, whatever was fused in between, a later
    batch that holds a signal of the same source with an observation revision
    not above [g]'s is refused as a whole with an API error, and the engine's
    state stays what it was. *)
Theorem presence_no_replay s fa fp ra rp rl now p gs g t fb fq rb rq rm later g' :
  check_batch _digest fa fp max_source_checkpoints s ra rp rl now = Ok (p, gs) -> g ∈ gs ->
  fused_to (fuse _digest fa fp max_source_checkpoints ra rp rl now s).2 t ->
  Shaped g' ∈ rm -> source_key _digest g' = source_key _digest g ->
  sg_observationRevision g' <= sg_observationRevision g ->
  exists code status,
    fuse _digest fb fq max_source_checkpoints rb rq rm later t = (Raise (ApiError code status), t).
Proof.
  intros Hc Hg Ht Hin Hkey Hle.
  destruct (fuse_cases fb fq rb rq rm later t) as [(e & He & ->)|(q & gm & Hq & _)].
  - destruct (check_batch_api _ _ _ _ _ _ _ _ He) as (c & st & ->). eauto.
  - exfalso. apply fused_checkpoint_grows with (key := source_key _digest g) in Ht.
    rewrite (accepted_checkpoint _ _ _ _ _ _ _ _ _ _ Hc Hg) in Ht.
    apply check_batch_signals in Hq as Hraw. apply check_batch_ok in Hq as (_&_&_&_&_&Hacc&_).
    rewrite Hraw in Hin. apply list_elem_of_fmap in Hin as (g0 & [= <-] & Hin).
    rewrite Forall_forall in Hacc. apply Hacc in Hin as [_ Hnew]. rewrite Hkey in Hnew.
    unfold checkpoint in Ht. lia.
Qed.

(** ** Persistence *)

Definition engine_sound s : Prop :=
  match pf_bound_scope s with Some sc => length sc = 11%nat | None => True end /\
  optional (is_hex 32) (pf_current_room s) /\ optional (is_hex 32) (pf_candidate_room s) /\
  0 <= pf_candidate_count s < 10 /\ 0 <= pf_exit_count s < 10 /\ 0 <= pf_transition_revision s /\
  NoDup (dict_keys (pf_last_observations s)) /\
  Forall (fun kv => is_hex 64 kv.1 /\ Revision kv.2) (pf_last_observations s) /\
  Z.of_nat (length (pf_last_observations s)) <= max_source_checkpoints.

Lemma engine_sound_start : 1 <= max_source_checkpoints -> engine_sound no_presence.
Proof.
  intros. unfold engine_sound. cbn. split_and!; try done; try lia; by constructor.
Qed.

Lemma engine_sound_next p fresh s :
  PresencePolicy_valid p -> Forall PrivatePresenceSignal_valid fresh ->
  engine_sound s -> engine_sound (presence_next p fresh s).
Proof.
  intros Hp Hv (Hsc & Hcur & Hcand & Hcc & Hec & Ht & Hrest).
  assert (Hbounds : pp_enterObservations p <= 10 /\ pp_exitObservations p <= 10)
    by (split; apply Hp).
  destruct (next_keeps p fresh s) as [Hl Hs]. unfold engine_sound. rewrite Hl, Hs.
  split; [done|]. clear Hl Hs. unfold presence_next.
  destruct (py_max _) as [best|] eqn:Hb; [|cbn; split_and!; try done; try lia; apply Hrest].
  assert (is_hex 32 (sg_roomId best)).
  { apply best_spec in Hb as [Hin _]. rewrite Forall_forall in Hv. by apply Hv in Hin as (_&_&_&?&_). }
  destruct (pf_current_room s) as [here|] eqn:E;
    rewrite ?E in Hcur; repeat (case_decide; cbn in *; try rewrite E);
    split_and!; try done; try lia; apply Hrest.
Qed.

Lemma engine_sound_accept s p gs :
  engine_sound s -> Forall PrivatePresenceSignal_valid gs -> NoDup (source_key _digest <$> gs) ->
  Z.of_nat (length (pf_last_observations s)) +
  Z.of_nat (length (filter (fun k => k ∉ dict_keys (pf_last_observations s))
                      (source_key _digest <$> gs))) <= max_source_checkpoints ->
  engine_sound (accept_batch (exact_scope p) (batch_checkpoints gs) s).
Proof.
  intros (Hsc & Hcur & Hcand & Hcc & Hec & Ht & Hnd & Hall & Hlen) Hv Hkeys Hlim.
  split; [done|]. cbn. split_and!; try done; try lia.
  - by apply dict_update_nodup.
  - rewrite Forall_forall in Hv. rewrite Forall_forall in Hall. rewrite Forall_forall.
    intros [k v] Hkv. apply dict_elem_get in Hkv; [|by apply dict_update_nodup].
    rewrite dict_update_get in Hkv by (by rewrite batch_checkpoints_keys).
    destruct (dict_get (batch_checkpoints gs) k) eqn:E.
    + injection Hkv as ->. apply dict_get_elem, list_elem_of_fmap in E as (g & [= -> ->] & Hg).
      split; [apply digest_hex|]. by apply Hv in Hg as (_&_&_&_&_&_&_&_&_&_&_&_&_&_&_&?&_).
    + by apply dict_get_elem, Hall in Hkv.
  - rewrite dict_update_length, batch_checkpoints_keys by (by rewrite batch_checkpoints_keys). lia.
Qed.

Lemma engine_sound_fused s t : engine_sound s -> fused_to s t -> engine_sound t.
Proof.
  intros Hs. induction 1 as [|t fa fp ra rp rl now _ IH]; [done|].
  destruct (fuse_cases fa fp ra rp rl now t) as [(e & _ & ->)|(p & gs & Hc & _ & ->)]; [done|].
  apply check_batch_ok in Hc as (Hp & _ & _ & Hv & _ & _ & Hnd & Hlim).
  apply engine_sound_next; [done| |by apply engine_sound_accept].
  rewrite Forall_forall in *. eauto using fresh_elem.
Qed.

Lemma scope_items_restored sc : mapM scope_item_of (scope_item_json <$> sc) = Some sc.
Proof. induction sc as [|[x|x] sc IH]; cbn; [done|by rewrite IH..]. Qed.

Lemma scope_restored o :
  match o with Some sc => length sc = 11%nat | None => True end ->
  scope_of_json (match o with
                 | Some ((_ :: _) as scope) => JList (scope_item_json <$> scope)
                 | _ => JNull
                 end) = Some o.
Proof.
  destruct o as [[|i sc]|]; intros Hsc; [done| |done].
  assert (Hl : length (scope_item_json <$> i :: sc) = 11%nat) by (rewrite length_fmap; exact Hsc).
  unfold scope_of_json. rewrite decide_True by exact Hl. by rewrite scope_items_restored.
Qed.

Lemma room_restored o : optional (is_hex 32) o -> room_of_json (optional_json o) = Some o.
Proof. destruct o; cbn; intros; [by rewrite decide_True|done]. Qed.

Lemma counter_restored n : 0 <= n <= MAX_REVISION -> counter_of_json (JInt n) = Some n.
Proof. intros. cbn. by rewrite decide_True. Qed.

Lemma checkpoints_restored l :
  Forall (fun kv => is_hex 64 kv.1 /\ Revision kv.2) l ->
  mapM checkpoint_of_json ((fun kv => (kv.1, JInt kv.2)) <$> l) = Some l.
Proof.
  induction 1 as [|[k v] l [Hk Hv] _ IH]; [done|].
  assert (checkpoint_of_json (k, JInt v) = Some (k, v)) as Hkv.
  { unfold checkpoint_of_json. cbn [fst snd]. by rewrite decide_True. }
  cbn -[checkpoint_of_json]. rewrite Hkv. cbn. by rewrite IH.
Qed.

Lemma snapshot_restored s :
  engine_sound s -> pf_transition_revision s <= MAX_REVISION ->
  fusion_of_json max_source_checkpoints (snapshot_state s) = Ok s.
Proof.
  clear digest_hex. intros (Hsc & Hcur & Hcand & Hcc & Hec & Htr & _ & Hall & Hlen) Ht.
  unfold fusion_of_json, snapshot_state.
  apply bind_ok; eexists; split; [reflexivity|].
  apply bind_ok; eexists; split.
  { apply raise_if_no. intros H; apply H; split; vm_compute; set_solver. }
  repeat (apply bind_ok; eexists; split;
    [first [by apply raise_if_no; (done || lia || (intros Hv; apply Hv; by left))
           |apply bind_ok; eexists; split; [reflexivity|apply require_some_ok]]|]).
  - done.
  - by apply scope_restored.
  - by apply room_restored.
  - by apply room_restored.
  - apply counter_restored. unfold MAX_REVISION. lia.
  - apply counter_restored. unfold MAX_REVISION. lia.
  - by apply counter_restored.
  - done.
  - rewrite raise_if_no by (rewrite length_fmap; lia).
    cbv beta iota delta [mbind res_bind]. rewrite checkpoints_restored by done. by destruct s.
Qed.

(** What is written down brings the engine back: every state that calls
    of [fuse] lead to, under whatever policies, is accepted by [restore_state]
    when it was serialised by [snapshot_state], and restoring it into any
    engine gives exactly that state. *)
Theorem presence_snapshot_restores s t :
  1 <= max_source_checkpoints -> fused_to no_presence s ->
  pf_transition_revision s <= MAX_REVISION ->
  restore_state max_source_checkpoints (snapshot_state s) t = (Ok tt, s).
Proof.
  intros Hmax Hs Ht. apply engine_sound_fused in Hs; [|by apply engine_sound_start].
  unfold restore_state. cbv beta iota delta [mbind M_bind lift put_state]. by rewrite snapshot_restored.
Qed.

(** With [exitConfidencePermille = 0], which the policy model admits, a
    device that is in a room and is heard, however faintly, from other rooms
    only is neither kept nor let go: [fuse] takes the branch for a confirmed
    room, builds a "present" estimate without a room and raises [ValueError],
    with the batch's checkpoints already advanced and the room and a zero exit
    count left standing. *)
Theorem presence_zero_exit_raises s fa fp ra rp rl now p gs here :
  check_batch _digest fa fp max_source_checkpoints s ra rp rl now = Ok (p, gs) ->
  pp_exitConfidencePermille p = 0 -> pf_current_room s = Some here ->
  fresh_of p now gs <> [] ->
  (forall g, g ∈ fresh_of p now gs ->
     sg_roomId g <> here /\ sg_confidencePermille g < pp_enterConfidencePermille p) ->
  exists s', fuse _digest fa fp max_source_checkpoints ra rp rl now s
             = (Raise (ValueError "validation_error"), s') /\
    pf_current_room s' = Some here /\ pf_exit_count s' = 0 /\
    (forall g, g ∈ gs -> checkpoint s' (source_key _digest g) = sg_observationRevision g).
Proof.
  intros Hc Hexit Hcur Hne Hweak.
  destruct (fuse_cases fa fp ra rp rl now s) as [(? & ? & _)|(q & gs' & Hq & Hs' & _)]; [congruence|].
  rewrite Hc in Hq. injection Hq as <- <-.
  assert (Hck := accepted_checkpoint fa fp ra rp rl now s p gs).
  rewrite Hs' in Hck |- *. clear Hs'. unfold observe in Hck |- *.
  destruct (py_max _) as [best|] eqn:Hb; [|by apply best_none in Hb].
  apply best_spec in Hb as [Hin _]. destruct (Hweak _ Hin) as [Hroom Hlow].
  cbv beta iota delta [mbind M_bind get_state] in Hck |- *. cbn [pf_current_room accept_batch] in *.
  rewrite Hcur in Hck |- *. unfold observe_present in Hck |- *. cbv zeta in Hck |- *.
  assert (dict_get (by_room (fresh_of p now gs)) here = None) as Hnone.
  { destruct (dict_get _ here) as [g|] eqn:Hg; [|done].
    apply room_signal_some in Hg as (Hg & Hr & _). by destruct (Hweak g Hg). }
  rewrite Hnone in Hck |- *. cbn [from_option] in Hck |- *.
  rewrite decide_False in Hck by lia. rewrite decide_False by lia.
  rewrite Hexit in Hck |- *.
  cbv beta iota delta [mbind M_bind modify] in Hck |- *.
  rewrite decide_False in Hck by lia. rewrite decide_False by lia.
  eexists. split; [|split; [|split; [|intros g Hg; by apply Hck]]]; [|done|done].
  unfold estimate. cbv beta iota delta [mbind M_bind get_state lift model_validate].
  rewrite decide_False; [done|].
  intros (_&_&_&_&_&_&_&_&_&_&_&_&_&_&_&_&_&_&[Hm _]). cbn in Hm. case_decide; naive_solver.
Qed.
End runs.

(** ** Handoffs *)

Section handoffs.
Variable _digest : jval -> string.
Variable max_receipts : Z.
Implicit Types m : PresenceAutomationHandoff.
Local Notation dispatched := (dispatch _digest max_receipts).

Inductive handoff_reachable : PresenceAutomationHandoff -> Prop :=
  | handoff_start : handoff_reachable no_handoffs
  | handoff_step m en ra rp re a ar q :
      handoff_reachable m -> handoff_reachable (dispatched en ra rp re a ar q m).2.

(** The administrator and the policy behind a command are the current ones,
    and the estimate says that the device is in the room. *)
Definition handoff_authorised (en : handoff_env) (ra : raw PresenceAuthority)
    (rp : raw PresencePolicy) (re : raw PresenceEstimate) (c : PresenceAutomationCommand) : Prop :=
  exists a p e, ra = Shaped a /\ rp = Shaped p /\ re = Shaped e /\
    he_authority en (pa_accountId a) = Resolved (Shaped a) /\
    he_policy en (pp_policyId p) = Resolved (Shaped p) /\
    he_estimate en (pe_estimateId e) = Resolved (Shaped e) /\
    pa_active a = true /\ pa_canManagePresence a = true /\ pp_active p = true /\
    pd_consentActive (pp_device p) = true /\ pd_allowAutomationHandoff (pp_device p) = true /\
    pe_status e = PPresent /\ estimate_scope e = policy_estimate_scope p /\
    pe_roomId e = Some (pm_roomId c) /\
    (exists room, room ∈ pp_rooms p /\ pr_roomId room = pm_roomId c /\
       pr_roomRevision room = pm_roomRevision c) /\
    pm_estimateId c = pe_estimateId e /\ pm_deviceId c = pd_deviceId (pp_device p).

(** The worker said that it did exactly this. *)
Definition worker_confirms (answer : resolved WorkerPresenceReceipt) (c : PresenceAutomationCommand)
  : Prop :=
  exists r, answer = Resolved (Shaped r) /\ WorkerPresenceReceipt_valid r /\ echoes r c /\
    pw_accepted r = true /\ pw_observedState r = ObservedPresent.

Lemma check_handoff_ok en ra rp re e room_id rev :
  check_handoff en ra rp re = Ok (e, room_id, rev) ->
  forall q a ar, handoff_authorised en ra rp re (handoff_command _digest q a ar e room_id rev).
Proof.
  unfold check_handoff. intros H q a ar. apply bind_ok in H as ([[[A P] E] [[CA CP] CE]] & H6 & H).
  inv_ok. passed. subst.
  repeat match goal with
  | H : model_validate _ = Ok _ |- _ => apply model_validate_ok in H as [-> _]
  | H : validate_resolved _ = Ok _ |- _ => apply validate_resolved_ok in H as [? _]
  end.
  match goal with H : dict_get (rooms_of _) _ = Some _ |- _ =>
    apply dict_of_get_elem in H as (room & Hin & Hid & <-) end.
  exists CA, CP, CE. unfold handoff_command. cbn.
  match goal with H : (estimate_scope CE, _) = _ |- _ =>
    assert (Hscope := f_equal fst H); assert (Hrev := f_equal snd H); clear H end.
  cbn in Hscope, Hrev. split_and!; try done; try by apply not_false_is_true.
  - by exists room.
  - unfold estimate_scope, policy_estimate_scope in Hscope. congruence.
Qed.

Lemma handoff_verdict_verified c answer :
  (handoff_verdict c answer).1.2 = true <-> worker_confirms answer c.
Proof.
  unfold handoff_verdict, worker_confirms. split.
  - destruct (validate_resolved answer) as [r|] eqn:Hr; [|done].
    apply validate_resolved_ok in Hr as [-> ?]. repeat case_decide; cbn; try done.
    intros _. exists r. split_and!; try done; tauto.
  - intros (r & -> & Hv & He & Ha & Ho).
    assert (validate_resolved (Resolved (Shaped r)) = Ok r) as -> by (by apply validate_resolved_ok).
    rewrite decide_False by tauto. by rewrite decide_True.
Qed.

Lemma handoff_receipt_valid c answer :
  PresenceAutomationCommand_valid c -> PresenceHandoffReceipt_valid (handoff_receipt c answer).
Proof.
  intros Hc. unfold handoff_receipt.
  assert (Hv : let '(st, v, rev) := handoff_verdict c answer in
    optional Revision rev /\ (v = true <-> st = HandoffVerified) /\
    (st = HandoffUnknown <-> rev = None)).
  { unfold handoff_verdict. destruct (validate_resolved answer) as [r|] eqn:Hr; [|done].
    apply validate_resolved_ok in Hr as [_ (_&_&_&_&_&_&_&_&?)]. by repeat case_decide. }
  destruct (handoff_verdict c answer) as [[st v] rev].
  destruct Hc as (?&?&?&?&?&?&_). unfold PresenceHandoffReceipt_valid. cbn. tauto.
Qed.

(** The three outcomes of a call. *)
Lemma dispatch_cases en ra rp re a ar q m r m' :
  dispatched en ra rp re a ar q m = (r, m') ->
  (exists e, r = Raise e /\ m' = m) \/
  (exists receipt f, dict_get (hf_receipts m) q = Some (f, receipt) /\ r = Ok receipt /\ m' = m) \/
  (exists c f, pm_requestId c = q /\ dict_get (hf_receipts m) q = None /\
     Z.of_nat (length (hf_receipts m)) < max_receipts /\ handoff_authorised en ra rp re c /\
     r = Ok (handoff_receipt c (he_worker en c)) /\
     m' = {| hf_receipts := hf_receipts m ++ [(q, (f, handoff_receipt c (he_worker en c)))];
             hf_sent := hf_sent m ++ [(c, he_worker en c)] |}).
Proof.
  unfold dispatch. cbv beta iota zeta delta [mbind M_bind lift modify get_state].
  destruct (check_handoff en ra rp re) as [[[e room_id] rev]|] eqn:Hchk;
    [|intros [= <- <-]; eauto].
  destruct (raise_if _ _) as [|]; [|intros [= <- <-]; eauto].
  destruct (except_value_error _ _) as [c|] eqn:Hc; [|intros [= <- <-]; eauto].
  apply except_value_error_ok, model_validate_ok in Hc as [[= <-] Hc].
  destruct (dict_get (hf_receipts m) q) as [[f receipt]|] eqn:Hq.
  { destruct (raise_if _ _) as [|]; [|intros [= <- <-]; eauto].
    cbv beta iota delta [mret M_ret]. intros [= <- <-]. right. left. eauto. }
  destruct (raise_if _ _) as [|] eqn:Hlim; [|intros [= <- <-]; eauto].
  apply raise_if_ok in Hlim.
  rewrite model_validate_valid by (by apply handoff_receipt_valid).
  cbv beta iota delta [mret M_ret]. intros [= <- <-]. right. right. cbn [hf_receipts hf_sent].
  rewrite dict_set_fresh by done. eexists _, _. split_and!; [| done | lia | | done | done]; [done|].
  by eapply check_handoff_ok.
Qed.

(** The receipts are the verdicts on what was sent, one for each request. *)
Definition handoff_sound m : Prop :=
  dict_keys (hf_receipts m) = (fun s => pm_requestId s.1) <$> hf_sent m /\
  (fun kv => kv.2.2) <$> hf_receipts m = (fun s => handoff_receipt s.1 s.2) <$> hf_sent m /\
  NoDup (dict_keys (hf_receipts m)) /\
  (1 <= max_receipts -> Z.of_nat (length (hf_sent m)) <= max_receipts).

Lemma handoff_sound_reachable m : handoff_reachable m -> handoff_sound m.
Proof.
  induction 1 as [|m en ra rp re a ar q _ IH]; [split_and!; try done; [constructor|cbn; lia]|].
  destruct (dispatched en ra rp re a ar q m) as [r m'] eqn:Hd.
  apply dispatch_cases in Hd as [(e & _ & ->)|[(receipt & f & _ & _ & ->)|(c & f & <- & Hnone & Hlim & _ & _ & ->)]];
    [done..|].
  destruct IH as (Hk & Hr & Hnd & Hlen). unfold handoff_sound, dict_keys in *. cbn [hf_receipts hf_sent snd].
  rewrite !fmap_app. cbn. rewrite Hk, Hr. split_and!; try done.
  - rewrite <- Hk. apply NoDup_app. split_and!; [done| |apply NoDup_singleton].
    intros k Hin ->%list_elem_of_singleton. by apply dict_get_None in Hnone.
  - intros _. rewrite length_app. cbn.
    apply (f_equal length) in Hk. rewrite !length_fmap in Hk. lia.
Qed.

(** The worker of a request is called at most once, whatever is dispatched
    and however the worker fails, and at most [maxReceipts] times in all; it is
    called only for an active administrator and the current policy with
    consent and handoff allowed, about the room of the current estimate; the
    receipt is verified exactly when the worker's answer echoes the command,
    accepts it and observed presence; and what was answered once is the answer
    from then on. *)
Theorem presence_handoff_once m en ra rp re a ar q r m' :
  handoff_reachable m -> 1 <= max_receipts -> dispatched en ra rp re a ar q m = (r, m') ->
  NoDup ((fun s => pm_requestId s.1) <$> hf_sent m') /\
  Z.of_nat (length (hf_sent m')) <= max_receipts /\
  (forall k x, dict_get (hf_receipts m) k = Some x -> dict_get (hf_receipts m') k = Some x) /\
  ((hf_sent m' = hf_sent m /\
    forall receipt, r = Ok receipt -> exists f, dict_get (hf_receipts m) q = Some (f, receipt)) \/
   (exists c receipt, hf_sent m' = hf_sent m ++ [(c, he_worker en c)] /\ pm_requestId c = q /\
      handoff_authorised en ra rp re c /\ r = Ok receipt /\ ph_commandId receipt = pm_commandId c /\
      (ph_verified receipt = true <-> worker_confirms (he_worker en c) c))).
Proof.
  intros Hm Hmax Hd. assert (Hm' : handoff_sound m').
  { apply handoff_sound_reachable. replace m' with (dispatched en ra rp re a ar q m).2 by (by rewrite Hd).
    by constructor. }
  destruct Hm' as (Hk & _ & Hnd & Hlen). rewrite <- Hk. split; [done|]. split; [by apply Hlen|].
  apply dispatch_cases in Hd as [(e & -> & ->)|[(receipt & f & Hq & -> & ->)|(c & f & <- & Hnone & _ & Hau & -> & ->)]].
  - split; [done|]. by left.
  - split; [done|]. left. split; [done|]. intros ? [= <-]. eauto.
  - cbn [hf_receipts hf_sent]. split.
    + intros k x Hx. rewrite <- dict_set_fresh by done. rewrite dict_get_set.
      case_decide; [subst; congruence|done].
    + right. eexists _, _. split_and!; try done.
      * unfold handoff_receipt. by destruct (handoff_verdict _ _) as [[??]?].
      * rewrite <- handoff_verdict_verified. unfold handoff_receipt.
        by destruct (handoff_verdict _ _) as [[??]?].
Qed.
End handoffs.

(** ** Example: a device enters the kitchen and leaves *)

Module PresenceExample.
Definition i32 (c : string) : string := String.concat "" (repeat c 32).
(** A digest that tells raw identifiers apart by their length. *)
Definition dg (v : jval) : string :=
  match v with
  | JObj [_; _; (_, JText s)] => if decide (length s = 1%nat) then i32 "a" +:+ i32 "1" else i32 "b" +:+ i32 "2"
  | _ => i32 "c" +:+ i32 "3"
  end.
Lemma dg_hex v : is_hex 64 (dg v).
Proof.
  assert (is_hex 64 (i32 "a" +:+ i32 "1") /\ is_hex 64 (i32 "b" +:+ i32 "2") /\
          is_hex 64 (i32 "c" +:+ i32 "3")) as (? & ? & ?) by (split_and!; by vm_compute).
  unfold dg. destruct v as [| | | | | | |[|? [|? [|[? []] [|]]]]]; by try case_decide.
Qed.

Definition admin : PresenceAuthority :=
  {| pa_coreId := i32 "c"; pa_homeId := i32 "d"; pa_homeRevision := 1; pa_accountId := i32 "e";
     pa_accountRevision := 1; pa_sessionFamilyId := i32 "f"; pa_active := true;
     pa_canReadPresence := true; pa_canManagePresence := true |}.
Definition kitchen := i32 "1".
Definition hall := i32 "2".
Definition room (id : string) : PresenceRoom :=
  {| pr_coreId := i32 "c"; pr_homeId := i32 "d"; pr_roomId := id; pr_roomRevision := 3 |}.
Definition policy_with (exit : Z) : PresencePolicy :=
  {| pp_coreId := i32 "c"; pp_homeId := i32 "d"; pp_homeRevision := 1; pp_policyId := i32 "3";
     pp_policyRevision := 2;
     pp_device := {| pd_coreId := i32 "c"; pd_homeId := i32 "d"; pd_deviceId := i32 "4";
                     pd_deviceRevision := 1; pd_modelId := i32 "5"; pd_modelRevision := 1;
                     pd_consentId := i32 "6"; pd_consentRevision := 1; pd_consentActive := true;
                     pd_allowAutomationHandoff := true |};
     pp_sources := [{| pc_sourceId := i32 "7"; pc_sourceKind := ble; pc_sourceRevision := 1 |}];
     pp_rooms := [room kitchen; room hall]; pp_enterConfidencePermille := 600;
     pp_exitConfidencePermille := exit; pp_enterObservations := 2; pp_exitObservations := 2;
     pp_maxSignalAgeMs := 5000; pp_active := true |}.
Definition signal (id : string) (rev conf : Z) : PrivatePresenceSignal :=
  {| sg_coreId := i32 "c"; sg_homeId := i32 "d"; sg_homeRevision := 1; sg_roomId := id;
     sg_roomRevision := 3; sg_deviceId := i32 "4"; sg_deviceRevision := 1; sg_modelId := i32 "5";
     sg_modelRevision := 1; sg_policyId := i32 "3"; sg_policyRevision := 2; sg_consentId := i32 "6";
     sg_consentRevision := 1; sg_sourceId := i32 "7"; sg_sourceKind := ble; sg_sourceRevision := 1;
     sg_observationRevision := rev; sg_rawIdentifier := u "x"; sg_confidencePermille := conf;
     sg_observedAtMs := 1000 * rev |}.
Definition fa (_ : string) : resolved PresenceAuthority := Resolved (Shaped admin).
Definition fp (exit : Z) (_ : string) : resolved PresencePolicy := Resolved (Shaped (policy_with exit)).
Definition go (exit : Z) (g : PrivatePresenceSignal) : M RoomPresenceFusion PresenceEstimate :=
  fuse dg fa (fp exit) 8 (Shaped admin) (Shaped (policy_with exit)) [Shaped g] (sg_observedAtMs g).
Definition checked (exit : Z) (g : PrivatePresenceSignal) (s : RoomPresenceFusion) :=
  check_batch dg fa (fp exit) 8 s (Shaped admin) (Shaped (policy_with exit)) [Shaped g] (sg_observedAtMs g).

Definition s1 exit := (go exit (signal kitchen 1 700) no_presence).2.
Definition s2 exit := (go exit (signal kitchen 2 800) (s1 exit)).2.
Definition s3 := (go 300 (signal hall 3 200) (s2 300)).2.
Definition s4 := (go 300 (signal hall 4 100) s3).2.

Example enters : pf_current_room (s2 300) = Some kitchen.
Proof. vm_compute. reflexivity. Qed.
Example leaves : pf_current_room s3 = Some kitchen /\ pf_current_room s4 = None.
Proof. vm_compute. split; reflexivity. Qed.

Lemma run1 exit h s g : fuse_run dg 8 (policy_with exit) no_presence h s ->
  checked exit g s = Ok (policy_with exit, [g]) ->
  fuse_run dg 8 (policy_with exit) no_presence (h ++ [[g]]) (go exit g s).2.
Proof.
  intros Hr Hc.
  pose proof (run_accepted _ _ _ _ h s fa (fp exit) (Shaped admin) (Shaped (policy_with exit))
    [Shaped g] (sg_observedAtMs g) [g] Hr Hc) as Hrun.
  assert (fresh_of (policy_with exit) (sg_observedAtMs g) [g] = [g]) as Hf.
  { unfold fresh_of. rewrite filter_cons, decide_True; [done|]. split; cbn; lia. }
  rewrite Hf in Hrun. exact Hrun.
Qed.

Lemma runs2 : fuse_run dg 8 (policy_with 300) no_presence
  [[signal kitchen 1 700]; [signal kitchen 2 800]] (s2 300).
Proof.
  apply (run1 300 [_] (s1 300) (signal kitchen 2 800)); [|vm_compute; reflexivity].
  apply (run1 300 [] no_presence (signal kitchen 1 700)); [constructor|vm_compute; reflexivity].
Qed.
Lemma runs4 : fuse_run dg 8 (policy_with 300) no_presence
  [[signal kitchen 1 700]; [signal kitchen 2 800]; [signal hall 3 200]; [signal hall 4 100]] s4.
Proof.
  apply (run1 300 [_; _; _] s3 (signal hall 4 100)); [|vm_compute; reflexivity].
  apply (run1 300 [_; _] (s2 300) (signal hall 3 200)); [apply runs2|vm_compute; reflexivity].
Qed.

Lemma fused2 : fused_to dg 8 no_presence (s2 300).
Proof.
  apply (fused_step dg 8 no_presence (s1 300) fa (fp 300) (Shaped admin) (Shaped (policy_with 300))
    [Shaped (signal kitchen 2 800)] 2000).
  apply (fused_step dg 8 no_presence no_presence fa (fp 300) (Shaped admin)
    (Shaped (policy_with 300)) [Shaped (signal kitchen 1 700)] 1000).
  constructor.
Qed.

(** The handoff of the kitchen to an automation. *)
Definition in_kitchen : PresenceEstimate :=
  make_estimate dg (policy_with 300) PPresent (Some (kitchen, 3)) 800 1 2000 1.
Definition echo (c : PresenceAutomationCommand) : resolved WorkerPresenceReceipt :=
  Resolved (Shaped {| pw_commandId := pm_commandId c; pw_requestId := pm_requestId c;
    pw_automationId := pm_automationId c; pw_automationRevision := pm_automationRevision c;
    pw_estimateId := pm_estimateId c; pw_transitionRevision := pm_transitionRevision c;
    pw_deviceId := pm_deviceId c; pw_roomId := pm_roomId c; pw_accepted := true;
    pw_observedState := ObservedPresent; pw_readbackRevision := 9 |}).
Definition handoff_answers : handoff_env :=
  {| he_authority := fa; he_policy := fp 300;
     he_estimate := fun _ => Resolved (Shaped in_kitchen); he_worker := echo |}.
Definition hand_over : M PresenceAutomationHandoff PresenceHandoffReceipt :=
  dispatch dg 4 handoff_answers (Shaped admin) (Shaped (policy_with 300)) (Shaped in_kitchen)
    (i32 "8") 1 (i32 "9").
Example handed_over : ph_status <$> (hand_over no_handoffs).1 = Ok HandoffVerified.
Proof. vm_compute. reflexivity. Qed.
End PresenceExample.
Import PresenceExample.

Lemma presence_changes_confirmed_witness :
  pf_current_room s4 = None /\
  match pf_current_room s4 with
  | Some r => False
  | None => fresh_of (policy_with 300) 4000 [signal hall 4 100] = [] \/
      exists here, pf_current_room s3 = Some here /\ fades (policy_with 300) here 2
        [[signal kitchen 1 700]; [signal kitchen 2 800]; [signal hall 3 200]; [signal hall 4 100]]
  end.
Proof.
  split; [vm_compute; reflexivity|].
  apply (presence_changes_confirmed dg 8 (policy_with 300)
    [[signal kitchen 1 700]; [signal kitchen 2 800]; [signal hall 3 200]] s3 fa (fp 300) (Shaped admin)
    (Shaped (policy_with 300)) [Shaped (signal hall 4 100)] 4000 [signal hall 4 100]).
  - apply (run1 300 [_; _] (s2 300) (signal hall 3 200)); [apply runs2|vm_compute; reflexivity].
  - vm_compute. reflexivity.
  - vm_compute. discriminate.
Defined.

Lemma presence_settles_witness : pf_current_room (s2 300) = Some kitchen.
Proof.
  apply (presence_settles dg 8 (policy_with 300) [] _ _ runs2).
  - repeat constructor; eexists; (split; [left|split; [reflexivity|split; [vm_compute; discriminate|]]]);
      intros h [->|[]%not_elem_of_nil]%elem_of_cons Hne; by destruct Hne.
  - cbn. lia.
  - discriminate.
Defined.

Lemma presence_fuse_answers_witness :
  let '(r, s') := go 300 (signal hall 3 200) (s2 300) in faithful_estimate r s'.
Proof.
  apply (presence_fuse_answers dg 8 dg_hex (policy_with 300) _ (s2 300) fa (fp 300) (Shaped admin)
    (Shaped (policy_with 300)) [Shaped (signal hall 3 200)] 3000 [signal hall 3 200] runs2).
  - vm_compute. reflexivity.
  - vm_compute. reflexivity.
  - vm_compute. split; [discriminate|reflexivity].
  - lia.
Defined.

Lemma presence_no_replay_witness :
  exists code status,
    go 300 (signal kitchen 1 900) (s1 300) = (Raise (ApiError code status), s1 300).
Proof.
  apply (presence_no_replay dg 8 no_presence fa (fp 300) (Shaped admin) (Shaped (policy_with 300))
    [Shaped (signal kitchen 1 700)] 1000 (policy_with 300) [signal kitchen 1 700]
    (signal kitchen 1 700) (s1 300) fa (fp 300) (Shaped admin) (Shaped (policy_with 300))
    [Shaped (signal kitchen 1 900)] 1000 (signal kitchen 1 900)).
  - vm_compute. reflexivity.
  - left.
  - constructor.
  - left.
  - reflexivity.
  - cbn. lia.
Defined.

Lemma presence_snapshot_restores_witness :
  restore_state 8 (snapshot_state (s2 300)) no_presence = (Ok tt, s2 300).
Proof.
  apply (presence_snapshot_restores dg 8 dg_hex (s2 300) no_presence);
    [lia|apply fused2|vm_compute; discriminate].
Defined.

Lemma presence_zero_exit_raises_witness :
  exists s', go 0 (signal hall 3 200) (s2 0) = (Raise (ValueError "validation_error"), s') /\
    pf_current_room s' = Some kitchen /\ pf_exit_count s' = 0 /\
    (forall g, g ∈ [signal hall 3 200] -> checkpoint s' (source_key dg g) = sg_observationRevision g).
Proof.
  apply (presence_zero_exit_raises dg 8 (s2 0) fa (fp 0) (Shaped admin) (Shaped (policy_with 0))
    [Shaped (signal hall 3 200)] 3000 (policy_with 0) [signal hall 3 200] kitchen).
  - vm_compute. reflexivity.
  - reflexivity.
  - vm_compute. reflexivity.
  - vm_compute. discriminate.
  - intros g [_ [->|[]%not_elem_of_nil]%elem_of_cons]%list_elem_of_filter.
    split; [vm_compute; discriminate|cbn; lia].
Defined.

Lemma presence_handoff_once_witness :
  Z.of_nat (length (hf_sent (hand_over no_handoffs).2)) <= 4 /\
  exists c receipt, hf_sent (hand_over no_handoffs).2 = [(c, echo c)] /\
    ph_verified receipt = true /\ worker_confirms (echo c) c.
Proof.
  destruct (presence_handoff_once dg 4 no_handoffs handoff_answers (Shaped admin)
    (Shaped (policy_with 300)) (Shaped in_kitchen) (i32 "8") 1 (i32 "9")
    (hand_over no_handoffs).1 (hand_over no_handoffs).2) as (_ & Hlen & _ & Hcase).
  - constructor.
  - lia.
  - apply surjective_pairing.
  - split; [exact Hlen|]. destruct Hcase as [[Hno _]|(c & receipt & Hs & _ & _ & Hr & _ & Hv)].
    + exfalso. vm_compute in Hno. discriminate Hno.
    + exists c, receipt. split; [exact Hs|].
      assert (ph_verified receipt = true) as Hver.
      { assert (ph_verified <$> (hand_over no_handoffs).1 = Ok true) as Hb by (vm_compute; reflexivity).
        rewrite Hr in Hb. by injection Hb. }
      split; [exact Hver|]. by apply Hv.
Defined.
