(* ===== verification/CommandJournal.v ===== *)
(** * Signed command journals

    The store that [server/larenor_server/power_budget/service.py] and
    [ev_charging/service.py] share in structure: previews, commands and audit
    events of one device scope, every row signed with an HMAC, the events of a
    scope chained, and a signed state row with the length and the head of the
    chain.  A command is reserved in one transaction, handed to the hardware
    outside of any transaction, settled in a second transaction and read back
    later; between these steps anything may happen, a crash included.  The
    class [Journal] is what the two services give: their HMAC, their error
    codes and whether a preview is good for one command only.  The lines named
    by the manifest are those of the power budget service; [PowerBudget.v] and
    [EvCharge.v] instantiate the class. *)

From S2P Require Import Prelude.

(** ** Tables *)

(** Core, home and device. *)
Definition journal_scope : Type := ustr * ustr * ustr.

Inductive journal_action :=
  | ActPreviewed | ActReserved | ActUncertain | ActAwaiting | ActMismatch | ActVerified.
#[export] Instance journal_action_eq_dec : EqDecision journal_action.
Proof. solve_decision. Defined.
Definition journal_action_name (a : journal_action) : string :=
  match a with
  | ActPreviewed => "previewed" | ActReserved => "dispatch_reserved"
  | ActUncertain => "confirm_uncertain" | ActAwaiting => "awaiting_readback"
  | ActMismatch => "readback_mismatch" | ActVerified => "verified"
  end.

Record preview_row := {
  jp_id : ustr;
  jp_scope : journal_scope;
  jp_account_id : ustr;
  jp_revision : Z;
  jp_plan_hash : string;
  jp_request_hash : string;
  jp_payload : jval;
  jp_created_at : Z;
  jp_record_hash : string;
}.
Record command_row := {
  jc_command_id : ustr;
  jc_scope : journal_scope;
  jc_account_id : ustr;
  jc_preview_id : ustr;
  jc_plan_hash : string;
  jc_request_hash : string;
  jc_created_at : Z;
  jc_record_hash : string;
}.
Record journal_event := {
  je_sequence : Z;
  je_audit_id : string;
  je_scope : journal_scope;
  je_action : journal_action;
  je_actor_id : ustr;
  je_object_id : ustr;
  je_plan_hash : string;
  je_occurred_at : Z;
  je_request_hash : string;
  je_previous_hash : string;
  je_event_hash : string;
}.
Record audit_state := {
  js_scope : journal_scope;
  js_event_count : Z;
  js_last_hash : string;
  js_state_hash : string;
}.
Record journal_db := {
  jd_previews : list preview_row;
  jd_commands : list command_row;
  jd_events : list journal_event;
  jd_states : list audit_state;
}.
Definition empty_journal : journal_db :=
  {| jd_previews := []; jd_commands := []; jd_events := []; jd_states := [] |}.

#[export] Instance preview_row_eq_dec : EqDecision preview_row.
Proof. solve_decision. Defined.
#[export] Instance command_row_eq_dec : EqDecision command_row.
Proof. solve_decision. Defined.
#[export] Instance journal_event_eq_dec : EqDecision journal_event.
Proof. solve_decision. Defined.

Inductive command_state := CmdUncertain | CmdAwaiting | CmdVerified.
#[export] Instance command_state_eq_dec : EqDecision command_state.
Proof. solve_decision. Defined.

(** [apply_count] is always 1. *)
Record CommandReceipt := {
  rc_command_id : ustr;
  rc_preview_id : ustr;
  rc_plan_hash : string;
  rc_status : command_state;
}.
#[export] Instance CommandReceipt_eq_dec : EqDecision CommandReceipt.
Proof. solve_decision. Defined.

Definition MAX_PREVIEWS : Z := 256.
Definition MAX_JOURNAL_HISTORY : Z := 1024.

(** ** What a service gives *)

Class Journal := {
  (** [_fingerprint(domain, _canonical(value))] *)
  jn_fingerprint : string -> jval -> string;
  jn_audit_invalid : exn;
  jn_history_full : exn;
  jn_preview_conflict : exn;
  jn_preview_full : exn;
  jn_preview_invalid : exn;
  jn_preview_changed : exn;
  jn_command_conflict : exn;
  jn_command_invalid : exn;
  jn_authority_changed : exn;
  (** A second command for a preview is refused. *)
  jn_single_use : bool;
}.

Section journal.
Context {J : Journal}.
Implicit Types d : journal_db.

(** The values of a row, in the order that is signed. *)
Definition scope_json (s : journal_scope) : list jval := [JText s.1.1; JText s.1.2; JText s.2].

Definition preview_hash (r : preview_row) : string :=
  jn_fingerprint "preview-record" (JList ([JText (jp_id r)] ++ scope_json (jp_scope r) ++
    [JText (jp_account_id r); JInt (jp_revision r); JStr (jp_plan_hash r);
     JStr (jp_request_hash r); jp_payload r; JTime (jp_created_at r)])).
Definition command_hash (r : command_row) : string :=
  jn_fingerprint "command-record" (JList ([JText (jc_command_id r)] ++ scope_json (jc_scope r) ++
    [JText (jc_account_id r); JText (jc_preview_id r); JStr (jc_plan_hash r);
     JStr (jc_request_hash r); JTime (jc_created_at r)])).
Definition event_hash (e : journal_event) : string :=
  jn_fingerprint "event" (JList ([JInt (je_sequence e); JStr (je_audit_id e)] ++
    scope_json (je_scope e) ++
    [JStr (journal_action_name (je_action e)); JText (je_actor_id e); JText (je_object_id e);
     JStr (je_plan_hash e); JTime (je_occurred_at e); JStr (je_request_hash e);
     JStr (je_previous_hash e)])).
Definition state_hash (s : journal_scope) (count : Z) (last_hash : string) : string :=
  jn_fingerprint "state" (JList (scope_json s ++ [JInt count; JStr last_hash])).

#[local] Instance journal_chain : ChainRow journal_event string := {|
  row_previous := je_previous_hash; row_stored := je_event_hash; row_computed := event_hash;
|}.

(** ** Reading *)

Definition event_sequence_le (a b : journal_event) : Prop := je_sequence a <= je_sequence b.
#[local] Instance event_sequence_le_dec a b : Decision (event_sequence_le a b).
Proof. unfold event_sequence_le. apply _. Defined.

(** [SELECT * FROM ..._events WHERE core_id=? AND home_id=? AND ..._id=? ORDER BY sequence] *)
Definition scope_events d (s : journal_scope) : list journal_event :=
  py_sorted event_sequence_le (filter (fun e => je_scope e = s) (jd_events d)).

(** One iteration of the chain check. *)
Definition verify_link (previous : string) (e : journal_event) : res string :=
  _ ← raise_if (je_previous_hash e <> previous \/ je_event_hash e <> event_hash e) jn_audit_invalid;
  Ok (je_event_hash e).

(** [_verified_history] *)
Definition journal_history (s : journal_scope) d : res (list journal_event) :=
  let rows := scope_events d s in
  match sql_one (fun r => js_scope r = s) (jd_states d) with
  | None => _ ← raise_if (rows <> []) jn_audit_invalid; Ok rows
  | Some state =>
      _ ← raise_if (js_state_hash state <> state_hash s (js_event_count state) (js_last_hash state))
            jn_audit_invalid;
      previous ← fold_res verify_link ""%string rows;
      _ ← raise_if (Z.of_nat (length rows) <> js_event_count state \/
                    previous <> js_last_hash state) jn_audit_invalid;
      _ ← for_each (fun r => raise_if (jp_record_hash r <> preview_hash r) jn_audit_invalid)
            (filter (fun r => jp_scope r = s) (jd_previews d));
      _ ← for_each (fun r => raise_if (jc_record_hash r <> command_hash r) jn_audit_invalid)
            (filter (fun r => jc_scope r = s) (jd_commands d));
      Ok rows
  end.

(** [validate_storage] *)
Definition validate_storage d : res unit :=
  for_each (fun s => _ ← journal_history s d; Ok tt)
    (remove_dups ((jp_scope <$> jd_previews d) ++ (jc_scope <$> jd_commands d) ++
                  (je_scope <$> jd_events d))).

(** [_command_status] *)
Definition command_status (s : journal_scope) (command_id : ustr) d : res command_state :=
  last_event ← require_some (last (filter (fun e => je_object_id e = command_id) (scope_events d s)))
                 jn_audit_invalid;
  Ok (match je_action last_event with
      | ActAwaiting => CmdAwaiting
      | ActVerified => CmdVerified
      | _ => CmdUncertain
      end).

(** [_receipt] *)
Definition command_receipt (row : command_row) (s : journal_scope) d : res CommandReceipt :=
  _ ← raise_if (jc_record_hash row <> command_hash row) jn_command_invalid;
  status ← command_status s (jc_command_id row) d;
  Ok {| rc_command_id := jc_command_id row; rc_preview_id := jc_preview_id row;
        rc_plan_hash := jc_plan_hash row; rc_status := status |}.

(** [history]: the last [limit] events, as audit identity, action, object and
    time. *)
Definition history_page (s : journal_scope) (limit : Z) d
  : res (list (string * journal_action * ustr * Z)) :=
  _ ← raise_if (~ (1 <= limit <= MAX_JOURNAL_HISTORY)) (ApiError "invalid_request" 400);
  rows ← journal_history s d;
  Ok ((fun e => (je_audit_id e, je_action e, je_object_id e, je_occurred_at e)) <$>
      drop (length rows - Z.to_nat limit) rows).

(** ** Writing *)

(** Clock, [uuid] and hardware during one transaction. *)
Definition event_clash (a b : journal_event) : Prop :=
  je_sequence a = je_sequence b \/ je_audit_id a = je_audit_id b.
#[local] Instance event_clash_dec a b : Decision (event_clash a b).
Proof. unfold event_clash. apply _. Defined.
Definition preview_clash (a b : preview_row) : Prop := jp_id a = jp_id b.
#[local] Instance preview_clash_dec a b : Decision (preview_clash a b).
Proof. unfold preview_clash. apply _. Defined.
Definition command_clash (a b : command_row) : Prop := jc_command_id a = jc_command_id b.
#[local] Instance command_clash_dec a b : Decision (command_clash a b).
Proof. unfold command_clash. apply _. Defined.

(** What an event says, the columns that the journal computes apart. *)
Record event_facts := {
  ef_scope : journal_scope;
  ef_action : journal_action;
  ef_actor_id : ustr;
  ef_object_id : ustr;
  ef_plan_hash : string;
  ef_request_hash : string;
  ef_occurred_at : Z;
  ef_audit_id : string;
}.

Definition new_event (f : event_facts) (rows : list journal_event) d : journal_event :=
  let row hash :=
    {| je_sequence := next_key (je_sequence <$> jd_events d); je_audit_id := ef_audit_id f;
       je_scope := ef_scope f; je_action := ef_action f; je_actor_id := ef_actor_id f;
       je_object_id := ef_object_id f; je_plan_hash := ef_plan_hash f;
       je_occurred_at := ef_occurred_at f; je_request_hash := ef_request_hash f;
       je_previous_hash := from_option je_event_hash ""%string (last rows);
       je_event_hash := hash |} in
  row (event_hash (row ""%string)).

(** [INSERT INTO ..._audit_state ... ON CONFLICT(scope) DO UPDATE]: every column
    that is not part of the key is set. *)
Definition upsert_audit_state (st : audit_state) (l : list audit_state) : list audit_state :=
  if decide (js_scope st ∈ js_scope <$> l) then
    sql_update (fun r => js_scope r = js_scope st) (fun _ => st) l
  else l ++ [st].

(** [_event] *)
Definition journal_append (f : event_facts) : M journal_db unit :=
  d ← get_state;
  rows ← lift (journal_history (ef_scope f) d);
  _ ← lift (raise_if (Z.of_nat (length rows) >= MAX_JOURNAL_HISTORY) jn_history_full);
  let e := new_event f rows d in
  events ← lift (sql_insert event_clash e (jd_events d));
  let count := Z.of_nat (length rows) + 1 in
  put_state
    {| jd_previews := jd_previews d; jd_commands := jd_commands d; jd_events := events;
       jd_states := upsert_audit_state {| js_scope := ef_scope f; js_event_count := count;
                                    js_last_hash := je_event_hash e;
                                    js_state_hash := state_hash (ef_scope f) count (je_event_hash e) |}
                      (jd_states d) |}.

(** The inserts; the schema checks that a revision is positive and that a
    command's preview exists. *)
Definition insert_preview (r : preview_row) : M journal_db unit :=
  d ← get_state;
  _ ← lift (raise_if (jp_revision r <= 0) IntegrityError);
  l ← lift (sql_insert preview_clash r (jd_previews d));
  put_state {| jd_previews := l; jd_commands := jd_commands d; jd_events := jd_events d;
               jd_states := jd_states d |}.
Definition insert_command (r : command_row) : M journal_db unit :=
  d ← get_state;
  _ ← lift (raise_if (jc_preview_id r ∉ jp_id <$> jd_previews d) IntegrityError);
  l ← lift (sql_insert command_clash r (jd_commands d));
  put_state {| jd_previews := jd_previews d; jd_commands := l; jd_events := jd_events d;
               jd_states := jd_states d |}.

Definition signed_preview (r : preview_row) : preview_row :=
  {| jp_id := jp_id r; jp_scope := jp_scope r; jp_account_id := jp_account_id r;
     jp_revision := jp_revision r; jp_plan_hash := jp_plan_hash r;
     jp_request_hash := jp_request_hash r; jp_payload := jp_payload r;
     jp_created_at := jp_created_at r; jp_record_hash := preview_hash r |}.
Definition signed_command (r : command_row) : command_row :=
  {| jc_command_id := jc_command_id r; jc_scope := jc_scope r; jc_account_id := jc_account_id r;
     jc_preview_id := jc_preview_id r; jc_plan_hash := jc_plan_hash r;
     jc_request_hash := jc_request_hash r; jc_created_at := jc_created_at r;
     jc_record_hash := command_hash r |}.

Definition find_preview (id : ustr) d : option preview_row :=
  sql_one (fun r => jp_id r = id) (jd_previews d).
Definition find_command (id : ustr) d : option command_row :=
  sql_one (fun r => jc_command_id r = id) (jd_commands d).

(** The transaction of [preview]: [r] is the unsigned row. *)
Section reading.
Context {P : Type}.
(** [_preview_from_row], which a service gives. *)
Variable read_preview : preview_row -> res P.

Definition put_preview (r : preview_row) (audit_id : string) : M journal_db P :=
  transaction (
    d ← get_state;
    _ ← lift (journal_history (jp_scope r) d);
    match find_preview (jp_id r) d with
    | Some old =>
        _ ← lift (raise_if (jp_account_id old <> jp_account_id r \/
                            jp_request_hash old <> jp_request_hash r) jn_preview_conflict);
        lift (read_preview old)
    | None =>
        _ ← lift (raise_if (Z.of_nat (length (filter (fun x => jp_scope x = jp_scope r)
                                                 (jd_previews d))) >= MAX_PREVIEWS) jn_preview_full);
        _ ← insert_preview (signed_preview r);
        _ ← journal_append
              {| ef_scope := jp_scope r; ef_action := ActPreviewed; ef_actor_id := jp_account_id r;
                 ef_object_id := jp_id r; ef_plan_hash := jp_plan_hash r;
                 ef_request_hash := jp_request_hash r; ef_occurred_at := jp_created_at r;
                 ef_audit_id := audit_id |};
        d ← get_state;
        row ← lift (require_some (find_preview (jp_id r) d) (PyError "TypeError"));
        lift (read_preview row)
    end).

(** A command that was reserved and is on its way to the hardware. *)
Record reserved := {
  rv_scope : journal_scope;
  rv_actor_id : ustr;
  rv_command_id : ustr;
  rv_preview_id : ustr;
  rv_plan_hash : string;
  rv_request_hash : string;
}.

(** The first transaction of [confirm]; [r] is the command asked for, and
    [fits] the service's comparison of the stored preview with the request.
    The receipt of the same command made earlier comes back, or the plan to
    hand to the hardware. *)
Definition reserve (r : reserved) (fits : preview_row -> P -> Prop)
    `{!forall row p, Decision (fits row p)} (plan_hash_of : P -> string) (now : Z) (audit_id : string)
  : M journal_db (CommandReceipt + reserved * P) :=
  transaction (
    d ← get_state;
    _ ← lift (journal_history (rv_scope r) d);
    match find_command (rv_command_id r) d with
    | Some old =>
        _ ← lift (raise_if (jc_account_id old <> rv_actor_id r \/
                            jc_request_hash old <> rv_request_hash r) jn_command_conflict);
        receipt ← lift (command_receipt old (rv_scope r) d);
        mret (inl receipt)
    | None =>
        row ← lift (require_some (find_preview (rv_preview_id r) d) (ApiError "not_found" 404));
        p ← lift (read_preview row);
        _ ← lift (raise_if (jp_scope row <> rv_scope r \/ jp_account_id row <> rv_actor_id r \/
                            ~ fits row p \/ plan_hash_of p <> rv_plan_hash r) jn_preview_changed);
        _ ← lift (raise_if (jn_single_use = true /\
                            rv_preview_id r ∈ jc_preview_id <$> jd_commands d) jn_command_conflict);
        _ ← insert_command (signed_command
              {| jc_command_id := rv_command_id r; jc_scope := rv_scope r;
                 jc_account_id := rv_actor_id r; jc_preview_id := rv_preview_id r;
                 jc_plan_hash := plan_hash_of p; jc_request_hash := rv_request_hash r;
                 jc_created_at := now; jc_record_hash := "" |});
        _ ← journal_append
              {| ef_scope := rv_scope r; ef_action := ActReserved; ef_actor_id := rv_actor_id r;
                 ef_object_id := rv_command_id r; ef_plan_hash := plan_hash_of p;
                 ef_request_hash := rv_request_hash r; ef_occurred_at := now;
                 ef_audit_id := audit_id |};
        mret (inr (r, p))
    end).
End reading.

(** The second transaction of [confirm]; [action] tells whether the hardware
    call returned or raised. *)
Definition settle (r : reserved) (action : journal_action) (now : Z) (audit_id : string)
  : M journal_db CommandReceipt :=
  transaction (
    d ← get_state;
    _ ← lift (journal_history (rv_scope r) d);
    _ ← journal_append
          {| ef_scope := rv_scope r; ef_action := action; ef_actor_id := rv_actor_id r;
             ef_object_id := rv_command_id r; ef_plan_hash := rv_plan_hash r;
             ef_request_hash := rv_request_hash r; ef_occurred_at := now; ef_audit_id := audit_id |};
    d ← get_state;
    row ← lift (require_some (find_command (rv_command_id r) d) (PyError "TypeError"));
    lift (command_receipt row (rv_scope r) d)).

Definition observed_json (o : option string) : jval :=
  match o with Some h => JStr h | None => JNull end.

(** [readback]; [expected_hash] is the request hash that [confirm] would
    compute from the command's row, [observed] what the hardware answers. *)
Definition journal_readback (s : journal_scope) (actor_id command_id : ustr)
    (expected_hash : command_row -> string) (observed : res (option string)) (now : Z)
    (audit_id : string) : M journal_db CommandReceipt :=
  transaction (
    d ← get_state;
    _ ← lift (journal_history s d);
    row ← lift (require_some (find_command command_id d) (ApiError "not_found" 404));
    _ ← lift (raise_if (jc_account_id row <> actor_id \/ jc_scope row <> s)
                (ApiError "not_found" 404));
    _ ← lift (raise_if (jc_request_hash row <> expected_hash row) jn_authority_changed);
    current ← lift (command_status s command_id d);
    if decide (current = CmdVerified) then lift (command_receipt row s d) else
    hash ← lift observed;
    _ ← journal_append
          {| ef_scope := s;
             ef_action := if decide (hash = Some (jc_plan_hash row)) then ActVerified else ActMismatch;
             ef_actor_id := actor_id; ef_object_id := command_id;
             ef_plan_hash := jc_plan_hash row;
             ef_request_hash :=
               jn_fingerprint "readback" (JList [JText command_id; observed_json hash]);
             ef_occurred_at := now; ef_audit_id := audit_id |};
    d ← get_state;
    lift (command_receipt row s d)).
End journal.

(** ** The invariant *)

Section invariant.
Context {J : Journal}.
#[local] Existing Instance event_sequence_le_dec.
#[local] Existing Instance event_clash_dec.
#[local] Existing Instance preview_clash_dec.
#[local] Existing Instance command_clash_dec.
#[local] Existing Instance journal_chain.
Implicit Types d : journal_db.
Implicit Types s : journal_scope.

Definition events_in s d : list journal_event := filter (fun e => je_scope e = s) (jd_events d).

(** The signed state row of a scope agrees with its events. *)
Definition scope_inv d s : Prop :=
  chained ""%string (events_in s d) /\
  match sql_one (fun r => js_scope r = s) (jd_states d) with
  | None => events_in s d = []
  | Some st =>
      js_state_hash st = state_hash s (js_event_count st) (js_last_hash st) /\
      js_event_count st = Z.of_nat (length (events_in s d)) /\
      js_last_hash st = chain_head ""%string (events_in s d)
  end.

Record journal_inv d : Prop := {
  ji_sorted : StronglySorted (fun a b => je_sequence a < je_sequence b) (jd_events d);
  ji_states : NoDup (js_scope <$> jd_states d);
  ji_preview_ids : NoDup (jp_id <$> jd_previews d);
  ji_previews : Forall (fun r => jp_record_hash r = preview_hash r) (jd_previews d);
  ji_command_ids : NoDup (jc_command_id <$> jd_commands d);
  ji_commands : Forall (fun r => jc_record_hash r = command_hash r) (jd_commands d);
  ji_scopes : forall s, scope_inv d s;
}.

(** Every command has events. *)
Definition commands_reserved d : Prop :=
  Forall (fun c => exists e, e ∈ jd_events d /\ je_scope e = jc_scope c /\
            je_object_id e = jc_command_id c) (jd_commands d).

Lemma scope_events_in s d : journal_inv d -> scope_events d s = events_in s d.
Proof.
  intros Hd. apply py_sorted_id, StronglySorted_filter_le.
  pose proof (ji_sorted _ Hd) as Hs. clear -Hs.
  induction Hs as [|x l Hl IH Hx]; constructor; [done|].
  eapply Forall_impl; [exact Hx|]. unfold event_sequence_le. cbn. lia.
Qed.

Lemma verify_links p rows :
  chained p rows -> fold_res verify_link p rows = Ok (chain_head p rows).
Proof.
  revert p. induction rows as [|e rows IH]; intros p; cbn; [done|].
  intros [[Hp Hh] Hc]. unfold verify_link. cbn in Hp, Hh. rewrite raise_if_no by naive_solver.
  rewrite chain_head_cons. by apply IH.
Qed.

Lemma history_ok s d : journal_inv d -> journal_history s d = Ok (events_in s d).
Proof.
  intros Hd. unfold journal_history. rewrite scope_events_in by done.
  destruct (ji_scopes _ Hd s) as [Hc Hst].
  destruct (sql_one _ (jd_states d)) as [st|]; [|rewrite Hst; by rewrite raise_if_no by naive_solver].
  destruct Hst as (Hh & Hn & Hl). rewrite raise_if_no by (by intros []). cbn.
  rewrite verify_links by done. cbn. rewrite raise_if_no by (intros [E|E]; apply E; congruence). cbn.
  apply bind_ok. exists tt. split.
  { apply for_each_ok, Forall_forall. intros r [_ Hr]%list_elem_of_filter. apply raise_if_no.
    pose proof (ji_previews _ Hd) as Hp. rewrite Forall_forall in Hp. intros E. by apply E, Hp. }
  apply bind_ok. exists tt. split; [|done].
  apply for_each_ok, Forall_forall. intros r [_ Hr]%list_elem_of_filter. apply raise_if_no.
  pose proof (ji_commands _ Hd) as Hp. rewrite Forall_forall in Hp. intros E. by apply E, Hp.
Qed.

Lemma empty_inv : journal_inv empty_journal.
Proof. constructor; cbn; try constructor; done. Qed.

(** ** Appending *)

Definition appended (f : event_facts) d d' : Prop :=
  exists e, je_scope e = ef_scope f /\ je_action e = ef_action f /\ je_object_id e = ef_object_id f /\
    je_plan_hash e = ef_plan_hash f /\
    jd_events d' = jd_events d ++ [e] /\ jd_previews d' = jd_previews d /\
    jd_commands d' = jd_commands d.

Lemma upsert_one st l s :
  NoDup (js_scope <$> l) ->
  sql_one (fun r => js_scope r = s) (upsert_audit_state st l)
  = if decide (js_scope st = s) then Some st else sql_one (fun r => js_scope r = s) l.
Proof.
  intros Hn. unfold upsert_audit_state. destruct (decide (js_scope st ∈ _)) as [Hin|Hout].
  - destruct (decide (js_scope st = s)) as [<-|Hne].
    + apply list_elem_of_fmap in Hin as (x & Hx & Hin).
      assert (sql_one (fun r => js_scope r = js_scope st) l = Some x) as E.
      { apply (sql_one_unique js_scope); done. }
      by rewrite (sql_one_update_same _ _ _ x).
    + apply sql_one_update_other; [naive_solver|done].
  - rewrite sql_one_app. destruct (decide (js_scope st = s)) as [<-|Hne].
    + assert (sql_one (fun r => js_scope r = js_scope st) l = None) as ->.
      { apply sql_one_none, Forall_forall. intros x Hx E. apply Hout. rewrite <- E. by apply list_elem_of_fmap_2. }
      by rewrite sql_one_single, decide_True.
    + destruct (sql_one _ l); [done|]. unfold sql_one. cbn. by rewrite decide_False.
Qed.

Lemma upsert_scopes st l :
  NoDup (js_scope <$> l) -> NoDup (js_scope <$> upsert_audit_state st l).
Proof.
  intros Hn. unfold upsert_audit_state. case_decide as Hin.
  - assert (js_scope <$> sql_update (fun r => js_scope r = js_scope st) (fun _ => st) l
            = js_scope <$> l) as ->; [|done].
    unfold sql_update. rewrite <- list_fmap_compose. apply list_fmap_ext.
    intros _ x _. cbn. by case_decide.
  - apply snoc_column; [done|]. apply Forall_forall. intros y Hy E. apply Hin. rewrite E.
    by apply list_elem_of_fmap_2.
Qed.

(** Rows whose events the journal does not speak about. *)
Lemma journal_append_ok f d u d' :
  journal_inv d -> journal_append f d = (Ok u, d') ->
  journal_inv d' /\ appended f d d' /\
  Z.of_nat (length (events_in (ef_scope f) d)) < MAX_JOURNAL_HISTORY.
Proof.
  intros Hd. unfold journal_append. cbv beta iota zeta delta [mbind M_bind get_state lift put_state].
  rewrite history_ok by done. destruct (raise_if _ _) as [|] eqn:Hfull; [|done].
  apply raise_if_ok in Hfull. destruct (sql_insert _ _ _) as [events|] eqn:Hi; [|done].
  apply sql_insert_ok in Hi as [-> Hc]. intros [= <- <-].
  set (e := new_event f (events_in (ef_scope f) d) d) in *.
  assert (He : forall s, events_in s {| jd_previews := jd_previews d; jd_commands := jd_commands d;
      jd_events := jd_events d ++ [e]; jd_states := jd_states d |}
      = events_in s d ++ if decide (ef_scope f = s) then [e] else []).
  { intros s. unfold events_in. cbn [jd_events]. by rewrite filter_app, filter_cons, filter_nil. }
  assert (Hlink : link_ok (chain_head ""%string (events_in (ef_scope f) d)) e) by done.
  split; [|split; [by exists e|lia]].
  constructor; cbn [jd_events jd_states jd_previews jd_commands]; try by apply Hd.
  - apply StronglySorted_snoc; [apply Hd|]. apply Forall_forall. intros x Hx. cbn.
    apply next_key_above. by apply list_elem_of_fmap_2.
  - apply upsert_scopes, Hd.
  - intros s. unfold scope_inv. cbn [jd_states]. rewrite upsert_one by apply Hd. cbn [js_scope].
    change (events_in s _) with (events_in s {| jd_previews := jd_previews d;
      jd_commands := jd_commands d; jd_events := jd_events d ++ [e]; jd_states := jd_states d |}).
    rewrite He. destruct (ji_scopes _ Hd s) as [Hch Hst]. case_decide as Es.
    + subst s. split; [by apply chained_snoc|]. cbn [js_state_hash js_event_count js_last_hash].
      rewrite length_app, chain_head_snoc. cbn [length]. split_and!; [done|lia|done].
    + rewrite app_nil_r. done.
Qed.

(** ** Inserting previews and commands *)

Lemma insert_preview_ok r d u d' :
  journal_inv d -> jp_record_hash r = preview_hash r -> insert_preview r d = (Ok u, d') ->
  journal_inv d' /\ jp_id r ∉ jp_id <$> jd_previews d /\
  d' = {| jd_previews := jd_previews d ++ [r]; jd_commands := jd_commands d;
          jd_events := jd_events d; jd_states := jd_states d |}.
Proof.
  intros Hd Hr Hi. unfold insert_preview in Hi.
  cbv beta iota delta [mbind M_bind get_state lift put_state] in Hi.
  destruct (raise_if _ _) as [|]; [|done]. destruct (sql_insert _ _ _) as [l|] eqn:Hs; [|done].
  apply sql_insert_ok in Hs as [-> Hc]. injection Hi as <- <-.
  split_and!; [|intros (x & E & Hx)%list_elem_of_fmap; rewrite Forall_forall in Hc;
    by apply (Hc x)|done].
  constructor; cbn [jd_events jd_states jd_previews jd_commands]; try by apply Hd.
  - apply snoc_column; [apply Hd|done].
  - apply Forall_app. split; [apply Hd|by constructor].
Qed.

Lemma insert_command_ok r d u d' :
  journal_inv d -> jc_record_hash r = command_hash r -> insert_command r d = (Ok u, d') ->
  journal_inv d' /\ jc_command_id r ∉ jc_command_id <$> jd_commands d /\
  d' = {| jd_previews := jd_previews d; jd_commands := jd_commands d ++ [r];
          jd_events := jd_events d; jd_states := jd_states d |}.
Proof.
  intros Hd Hr Hi. unfold insert_command in Hi.
  cbv beta iota delta [mbind M_bind get_state lift put_state] in Hi.
  destruct (raise_if _ _) as [|]; [|done]. destruct (sql_insert _ _ _) as [l|] eqn:Hs; [|done].
  apply sql_insert_ok in Hs as [-> Hc]. injection Hi as <- <-.
  split_and!; [|intros (x & E & Hx)%list_elem_of_fmap; rewrite Forall_forall in Hc;
    by apply (Hc x)|done].
  constructor; cbn [jd_events jd_states jd_previews jd_commands]; try by apply Hd.
  - apply snoc_column; [apply Hd|done].
  - apply Forall_app. split; [apply Hd|by constructor].
Qed.
End invariant.

(** ** What the transactions do *)

Section transactions.
Context {J : Journal}.
#[local] Existing Instance event_sequence_le_dec.
#[local] Existing Instance event_clash_dec.
#[local] Existing Instance preview_clash_dec.
#[local] Existing Instance command_clash_dec.
#[local] Existing Instance journal_chain.
Context {P : Type}.
Variable read_preview : preview_row -> res P.
Variable plan_hash_of : P -> string.
Implicit Types d : journal_db.

Definition journal_ok d : Prop := journal_inv d /\ commands_reserved d.

(** One more event, and what it says. *)
Definition logged d d' (action : journal_action) (object : ustr) (plan_hash : string) : Prop :=
  exists e, jd_events d' = jd_events d ++ [e] /\ je_action e = action /\ je_object_id e = object /\
    je_plan_hash e = plan_hash.

Lemma reserved_grow d d' :
  commands_reserved d -> jd_commands d' = jd_commands d ->
  (exists e, jd_events d' = jd_events d ++ [e]) -> commands_reserved d'.
Proof.
  intros Hr Hc (e & He). unfold commands_reserved. rewrite Hc, He.
  eapply Forall_impl; [exact Hr|]. intros c (x & ? & ?). exists x. set_solver.
Qed.

Lemma put_preview_cases r audit d x d' :
  journal_ok d -> put_preview read_preview r audit d = (x, d') ->
  d' = d \/
  (journal_ok d' /\ jd_commands d' = jd_commands d /\
   jd_previews d' = jd_previews d ++ [signed_preview r] /\ jp_id r ∉ jp_id <$> jd_previews d /\
   logged d d' ActPreviewed (jp_id r) (jp_plan_hash r) /\
   Z.of_nat (length (filter (fun x => jp_scope x = jp_scope r) (jd_previews d))) < MAX_PREVIEWS /\
   x = read_preview (signed_preview r)).
Proof.
  intros [Hd Hr] [[-> _]|(v & -> & Hm)]%transaction_cases; [by left|].
  cbv beta iota delta [mbind M_bind get_state lift] in Hm. rewrite history_ok in Hm by done.
  destruct (find_preview (jp_id r) d) as [old|] eqn:Hf.
  { destruct (raise_if _ _) in Hm; [|done]. left. by destruct (read_preview old); injection Hm. }
  destruct (raise_if _ _) eqn:Hfull in Hm; [|done]. apply raise_if_ok in Hfull.
  destruct (insert_preview _ d) as [[u1|] d2] eqn:Hi; [|done].
  apply insert_preview_ok in Hi as (Hd2 & Hnew & Ed2); [|done..].
  destruct (journal_append _ d2) as [[u2|] d3] eqn:Ha; [|done].
  apply journal_append_ok in Ha as (Hd3 & (ev & _ & Ea & Eo & Ep & Eev & Epr & Ecm) & _); [|done].
  subst d2. cbn [jd_events jd_previews jd_commands] in *.
  assert (Hrow : find_preview (jp_id r) d3 = Some (signed_preview r)).
  { unfold find_preview in *. rewrite Epr, sql_one_app, Hf, sql_one_single.
    by rewrite decide_True. }
  rewrite Hrow in Hm. cbn in Hm. injection Hm as <- <-. right.
  split_and!; try done; try lia.
  - split; [done|]. eapply reserved_grow; [exact Hr|done|eauto].
  - by exists ev.
Qed.

Lemma reserve_cases r fits `{!forall row p, Decision (fits row p)} now audit d x d' :
  journal_ok d -> reserve read_preview r fits plan_hash_of now audit d = (x, d') ->
  (d' = d /\ forall y, x = Ok y -> exists receipt old, y = inl receipt /\
     find_command (rv_command_id r) d = Some old /\ jc_account_id old = rv_actor_id r /\
     jc_request_hash old = rv_request_hash r /\
     command_receipt old (rv_scope r) d = Ok receipt) \/
  (exists p row c, x = Ok (inr (r, p)) /\ journal_ok d' /\
     find_preview (rv_preview_id r) d = Some row /\ read_preview row = Ok p /\
     jp_scope row = rv_scope r /\ jp_account_id row = rv_actor_id r /\ fits row p /\
     plan_hash_of p = rv_plan_hash r /\
     jd_previews d' = jd_previews d /\ jd_commands d' = jd_commands d ++ [c] /\
     jc_command_id c = rv_command_id r /\ jc_scope c = rv_scope r /\
     jc_account_id c = rv_actor_id r /\ jc_preview_id c = rv_preview_id r /\
     jc_plan_hash c = rv_plan_hash r /\ jc_request_hash c = rv_request_hash r /\
     rv_command_id r ∉ jc_command_id <$> jd_commands d /\
     (jn_single_use = true -> rv_preview_id r ∉ jc_preview_id <$> jd_commands d) /\
     logged d d' ActReserved (rv_command_id r) (rv_plan_hash r)).
Proof.
  intros [Hd Hr] [[-> He]|(v & -> & Hm)]%transaction_cases;
    [left; split; [done|]; intros y Hy; by destruct (He y)|].
  cbv beta iota zeta delta [mbind M_bind get_state lift mret M_ret] in Hm.
  rewrite history_ok in Hm by done.
  destruct (find_command (rv_command_id r) d) as [old|] eqn:Hf.
  { destruct (raise_if _ _) eqn:Hq in Hm; [|done]. apply raise_if_ok in Hq. passed. left.
    destruct (command_receipt old _ d) as [rc|] eqn:Hrc; [|done]. injection Hm as <- <-.
    split; [done|]. intros y [= <-]. exists rc, old. done. }
  destruct (require_some _ _) as [row|] eqn:Hrow in Hm; [|done]. apply require_some_ok in Hrow.
  destruct (read_preview row) as [p|] eqn:Hp; [|done].
  destruct (raise_if _ _) eqn:Hfit in Hm; [|done]. apply raise_if_ok in Hfit. passed.
  destruct (raise_if _ _) eqn:Huse in Hm; [|done]. apply raise_if_ok in Huse.
  destruct (insert_command _ d) as [[u1|] d2] eqn:Hi; [|done].
  apply insert_command_ok in Hi as (Hd2 & Hnew & Ed2); [|done..].
  destruct (journal_append _ d2) as [[u2|] d3] eqn:Ha; [|done].
  apply journal_append_ok in Ha as (Hd3 & (ev & Es & Ea & Eo & Ep & Eev & Epr & Ecm) & _); [|done].
  subst d2. cbn [jd_events jd_previews jd_commands ef_scope ef_action ef_object_id ef_plan_hash] in *.
  injection Hm as <- <-. right. eexists p, row, _. split_and!; try done.
  - split; [done|]. unfold commands_reserved. rewrite Ecm, Eev. apply Forall_app. split.
    + eapply Forall_impl; [exact Hr|]. intros c (y & ? & ?). exists y. set_solver.
    + constructor; [|constructor]. exists ev. cbn. split; [set_solver|done].
  - intros E Hin. by apply Huse.
  - exists ev. split_and!; try done. congruence.
Qed.

Lemma settle_cases r action now audit d x d' :
  journal_ok d -> settle r action now audit d = (x, d') ->
  (d' = d /\ forall y, x <> Ok y) \/
  (journal_ok d' /\ jd_previews d' = jd_previews d /\ jd_commands d' = jd_commands d /\
   logged d d' action (rv_command_id r) (rv_plan_hash r)).
Proof.
  intros [Hd Hr] [[-> He]|(v & -> & Hm)]%transaction_cases; [by left|].
  cbv beta iota zeta delta [mbind M_bind get_state lift] in Hm. rewrite history_ok in Hm by done.
  destruct (journal_append _ d) as [[u2|] d3] eqn:Ha; [|done].
  apply journal_append_ok in Ha as (Hd3 & (ev & _ & Ea & Eo & Ep & Eev & Epr & Ecm) & _); [|done].
  destruct (require_some _ _) in Hm; [|done].
  destruct (command_receipt _ _ _) in Hm; [|done]. injection Hm as <- <-.
  right. split_and!; try done; [|by exists ev].
  split; [done|]. eapply reserved_grow; [exact Hr|done|eauto].
Qed.

Lemma readback_cases s actor cmd expected observed now audit d x d' :
  journal_ok d -> journal_readback s actor cmd expected observed now audit d = (x, d') ->
  d' = d \/
  (exists h row, observed = Ok h /\ find_command cmd d = Some row /\ jc_scope row = s /\
   jc_account_id row = actor /\ jc_request_hash row = expected row /\
   command_status s cmd d <> Ok CmdVerified /\
   journal_ok d' /\ jd_previews d' = jd_previews d /\ jd_commands d' = jd_commands d /\
   logged d d' (if decide (h = Some (jc_plan_hash row)) then ActVerified else ActMismatch) cmd
     (jc_plan_hash row)).
Proof.
  intros [Hd Hr] [[-> _]|(v & -> & Hm)]%transaction_cases; [by left|].
  cbv beta iota zeta delta [mbind M_bind get_state lift] in Hm. rewrite history_ok in Hm by done.
  destruct (require_some _ _) as [row|] eqn:Hrow in Hm; [|done]. apply require_some_ok in Hrow.
  destruct (raise_if _ _) eqn:Hq in Hm; [|done]. apply raise_if_ok in Hq. passed.
  destruct (raise_if _ _) eqn:Hx in Hm; [|done]. apply raise_if_ok in Hx. passed.
  destruct (command_status s cmd d) as [current|] eqn:Hst; [|done].
  destruct (decide (current = CmdVerified)) as [->|Hnv].
  { left. by destruct (command_receipt _ _ _); injection Hm. }
  destruct observed as [h|]; [|done].
  destruct (journal_append _ d) as [[u2|] d3] eqn:Ha; [|done].
  apply journal_append_ok in Ha as (Hd3 & (ev & _ & Ea & Eo & Ep & Eev & Epr & Ecm) & _); [|done].
  destruct (command_receipt _ _ _) in Hm; [|done]. injection Hm as <- <-.
  right. exists h, row. split_and!; try done; [congruence| |by exists ev].
  split; [done|]. eapply reserved_grow; [exact Hr|done|eauto].
Qed.
End transactions.

(** ** Devices, interleavings and crashes *)

Section worlds.
Context {J : Journal}.
#[local] Existing Instance event_sequence_le_dec.
#[local] Existing Instance event_clash_dec.
#[local] Existing Instance preview_clash_dec.
#[local] Existing Instance command_clash_dec.
#[local] Existing Instance journal_chain.
Context {P : Type}.
Variable read_preview : preview_row -> res P.
Variable plan_hash_of : P -> string.
(** The previews that the service computes. *)
Variable planned_row : preview_row -> Prop.
(** The previews that the service confirms. *)
Variable sendable : P -> Prop.

(** The database, the calls of [confirm] that are between their two
    transactions (with the outcome of the hardware call once it was made), the
    plans handed to the hardware and the plans it read back. *)
Record world := {
  w_db : journal_db;
  w_inflight : list (reserved * P * option journal_action);
  w_sent : list (reserved * P);
  w_observed : list (ustr * string);
}.
Definition new_world : world :=
  {| w_db := empty_journal; w_inflight := []; w_sent := []; w_observed := [] |}.
Implicit Types w : world.

Definition set_db d w : world :=
  {| w_db := d; w_inflight := w_inflight w; w_sent := w_sent w; w_observed := w_observed w |}.
Definition set_inflight l w : world :=
  {| w_db := w_db w; w_inflight := l; w_sent := w_sent w; w_observed := w_observed w |}.
Definition send (x : reserved * P) w : world :=
  {| w_db := w_db w; w_inflight := w_inflight w; w_sent := w_sent w ++ [x];
     w_observed := w_observed w |}.
Definition observe_plan (o : ustr * string) w : world :=
  {| w_db := w_db w; w_inflight := w_inflight w; w_sent := w_sent w;
     w_observed := w_observed w ++ [o] |}.

(** What follows the [try] around the hardware call. *)
Definition outcome_of (raised : bool) : journal_action := if raised then ActUncertain else ActAwaiting.

(** [confirm] from its first transaction on, when nothing comes between. *)
Definition confirm_command (r : reserved) (fits : preview_row -> P -> Prop)
    `{!forall row p, Decision (fits row p)} (reserved_at : Z) (reserved_audit : string)
    (hardware_raises : bool) (settled_at : Z) (settled_audit : string) : M world CommandReceipt :=
  fun w =>
  match reserve read_preview r fits plan_hash_of reserved_at reserved_audit (w_db w) with
  | (Raise e, d) => (Raise e, set_db d w)
  | (Ok (inl receipt), d) => (Ok receipt, set_db d w)
  | (Ok (inr (r', p)), d) =>
      let '(x, d') := settle r' (outcome_of hardware_raises) settled_at settled_audit d in
      (x, set_db d' (send (r', p) w))
  end.

(** The transaction of [preview]. *)
Definition preview_command (r : preview_row) (audit : string) : M world P := fun w =>
  let '(x, d) := put_preview read_preview r audit (w_db w) in (x, set_db d w).

(** [readback] *)
Definition readback_command (s : journal_scope) (actor cmd : ustr) (expected : command_row -> string)
    (observed : res (option string)) (now : Z) (audit : string) : M world CommandReceipt :=
  fun w =>
  let '(x, d) := journal_readback s actor cmd expected observed now audit (w_db w) in
  (x, match observed with
      | Ok (Some h) => observe_plan (cmd, h) (set_db d w)
      | _ => set_db d w
      end).

(** Everything that can happen, one transaction or hardware call at a time. *)
Inductive world_step : world -> world -> Prop :=
  | step_preview w r audit x d :
      planned_row r -> put_preview read_preview r audit (w_db w) = (x, d) -> world_step w (set_db d w)
  | step_reserve w r fits (dec : forall row p, Decision (fits row p)) now audit r' p d :
      (forall row p, fits row p -> sendable p) ->
      reserve read_preview r fits plan_hash_of now audit (w_db w) = (Ok (inr (r', p)), d) ->
      world_step w (set_inflight (w_inflight w ++ [(r', p, None)]) (set_db d w))
  | step_send w l1 r p l2 raised :
      w_inflight w = l1 ++ (r, p, None) :: l2 ->
      world_step w (set_inflight (l1 ++ (r, p, Some (outcome_of raised)) :: l2) (send (r, p) w))
  | step_settle w l1 r p a l2 now audit x d :
      w_inflight w = l1 ++ (r, p, Some a) :: l2 -> settle r a now audit (w_db w) = (x, d) ->
      world_step w (set_inflight (l1 ++ l2) (set_db d w))
  | step_readback w s actor cmd expected observed now audit :
      world_step w (readback_command s actor cmd expected observed now audit w).2
  | step_crash w : world_step w (set_inflight [] w).

Definition world_reachable w : Prop := rtc world_step new_world w.

(** ** The invariant of a world *)

(** What is on its way or was sent is what its command and preview say. *)
Definition genuine d (x : reserved * P) : Prop :=
  (exists c, c ∈ jd_commands d /\ jc_command_id c = rv_command_id x.1 /\ jc_scope c = rv_scope x.1 /\
     jc_account_id c = rv_actor_id x.1 /\ jc_preview_id c = rv_preview_id x.1 /\
     jc_plan_hash c = rv_plan_hash x.1 /\ jc_request_hash c = rv_request_hash x.1) /\
  (exists row, row ∈ jd_previews d /\ jp_id row = rv_preview_id x.1 /\ jp_scope row = rv_scope x.1 /\
     jp_account_id row = rv_actor_id x.1 /\ read_preview row = Ok x.2 /\
     plan_hash_of x.2 = rv_plan_hash x.1) /\
  sendable x.2.

Definition command_of (x : reserved * P) : ustr := rv_command_id x.1.
Definition preview_of (x : reserved * P) : ustr := rv_preview_id x.1.

(** Sent, or still to be sent. *)
Definition committed w : list (reserved * P) :=
  w_sent w ++ ((fun x => x.1) <$> filter (fun x => x.2 = None) (w_inflight w)).

Record world_inv w : Prop := {
  wi_db : journal_ok (w_db w);
  wi_genuine : Forall (genuine (w_db w)) (committed w);
  wi_once : NoDup (command_of <$> committed w);
  wi_single : jn_single_use = true -> NoDup (jc_preview_id <$> jd_commands (w_db w));
  wi_verified : Forall (fun e => je_action e = ActVerified ->
                          (je_object_id e, je_plan_hash e) ∈ w_observed w) (jd_events (w_db w));
  wi_settling : Forall (fun x => x.2 <> Some ActVerified) (w_inflight w);
  wi_planned : Forall (fun row => exists r, planned_row r /\ row = signed_preview r)
                 (jd_previews (w_db w));
}.

Lemma handed_genuine_grows d d' x :
  jd_previews d ⊆ jd_previews d' -> jd_commands d ⊆ jd_commands d' -> genuine d x -> genuine d' x.
Proof.
  intros Hp Hc ((c & ? & ?) & (r & ? & ?) & ?). split_and!; [exists c|exists r|done]; split; auto.
Qed.

Lemma verified_grows d d' action object plan (l l' : list (ustr * string)) :
  logged d d' action object plan -> l ⊆ l' ->
  (action = ActVerified -> (object, plan) ∈ l') ->
  Forall (fun e => je_action e = ActVerified -> (je_object_id e, je_plan_hash e) ∈ l) (jd_events d) ->
  Forall (fun e => je_action e = ActVerified -> (je_object_id e, je_plan_hash e) ∈ l') (jd_events d').
Proof.
  intros (e & -> & Ha & <- & <-) Hl Hv Hf. apply Forall_app. split.
  - eapply Forall_impl; [exact Hf|]. cbn. auto.
  - constructor; [|constructor]. rewrite Ha. auto.
Qed.

Lemma new_world_inv : world_inv new_world.
Proof.
  constructor.
  - split; [apply empty_inv|apply Forall_nil_2].
  - apply Forall_nil_2.
  - apply NoDup_nil_2.
  - intros _. apply NoDup_nil_2.
  - apply Forall_nil_2.
  - apply Forall_nil_2.
  - apply Forall_nil_2.
Qed.

(** A transaction that keeps the commands in flight and the ones sent. *)
Lemma world_inv_db w d action object plan :
  world_inv w -> journal_ok d -> jd_previews (w_db w) ⊆ jd_previews d ->
  Forall (fun row => exists r, planned_row r /\ row = signed_preview r) (jd_previews d) ->
  jd_commands d = jd_commands (w_db w) -> logged (w_db w) d action object plan ->
  (action = ActVerified -> (object, plan) ∈ w_observed w) -> world_inv (set_db d w).
Proof.
  intros Hw Hd Hp Hpl Hc Hl Hv. constructor; cbn; try done; try by apply Hw.
  - eapply Forall_impl; [apply Hw|]. intros x. apply handed_genuine_grows; [done|by rewrite Hc].
  - intros E. rewrite Hc. by apply (wi_single _ Hw).
  - eapply verified_grows; [exact Hl|done|done|apply Hw].
Qed.

Lemma committed_middle l1 l2 (x : reserved * P) (o : option journal_action) :
  (fun x => x.1) <$> filter (fun x => x.2 = None) (l1 ++ (x, o) :: l2)
  ≡ₚ (if decide (o = None) then [x] else []) ++
     ((fun x => x.1) <$> filter (fun x => x.2 = None) (l1 ++ l2)).
Proof.
  rewrite !filter_app, filter_cons, !fmap_app. cbn [snd]. case_decide; cbn; [|done].
  by rewrite <- Permutation_middle.
Qed.

(** The commands in flight or sent are permuted or forgotten. *)
Lemma world_inv_committed w w' :
  world_inv w -> w_db w' = w_db w -> w_observed w' = w_observed w ->
  (exists l, committed w ≡ₚ committed w' ++ l) ->
  Forall (fun x => x.2 <> Some ActVerified) (w_inflight w') -> world_inv w'.
Proof.
  intros Hw Hd Ho (l & Hl) Hf. constructor; rewrite ?Hd, ?Ho; try by apply Hw; try done.
  - pose proof (wi_genuine _ Hw) as Hg. rewrite Hl in Hg. by apply Forall_app in Hg as [? _].
  - pose proof (wi_once _ Hw) as Hn. rewrite Hl, fmap_app in Hn. by apply NoDup_app in Hn as [? _].
  - done.
Qed.

Lemma reserve_step_inv w r fits `{!forall row p, Decision (fits row p)} now audit r' p d :
  world_inv w -> (forall row p, fits row p -> sendable p) ->
  reserve read_preview r fits plan_hash_of now audit (w_db w) = (Ok (inr (r', p)), d) ->
  world_inv (set_inflight (w_inflight w ++ [(r', p, None)]) (set_db d w)).
Proof.
  intros Hw Hfs Hr. apply reserve_cases in Hr as [[_ Hno]|(p' & row & c & E & Hd & Hrow & Hread & Hsc & Hac
    & Hfit & Hph & Hpv & Hcm & Hci & Hcs & Hca & Hcp & Hch & Hcr & Hnew & Huse & Hl)]; [|..|apply Hw].
  { by destruct (Hno _ eq_refl) as (? & ? & [=] & _). }
  injection E as -> ->. apply sql_one_some in Hrow as [Hrow Hid].
  assert (Hcommit : committed (set_inflight (w_inflight w ++ [(r, p', None)]) (set_db d w))
                    = committed w ++ [(r, p')]).
  { unfold committed. cbn. by rewrite filter_app, fmap_app, app_assoc. }
  assert (Hg : Forall (genuine d) (committed w)).
  { eapply Forall_impl; [apply Hw|]. intros x. apply handed_genuine_grows; [by rewrite Hpv|rewrite Hcm; set_solver]. }
  constructor; rewrite ?Hcommit; cbn [w_db w_inflight w_observed set_inflight set_db].
  - done.
  - apply Forall_app. split; [done|]. constructor; [|constructor]. split_and!.
    + exists c. rewrite Hcm. split; [set_solver|done].
    + exists row. rewrite Hpv. done.
    + by eapply Hfs.
  - rewrite fmap_app. apply NoDup_app. split; [apply Hw|]. split; [|apply NoDup_singleton].
    intros k (x & -> & Hx)%list_elem_of_fmap Hk%list_elem_of_singleton.
    pose proof (wi_genuine _ Hw) as Hold. rewrite Forall_forall in Hold.
    destruct (Hold x Hx) as ((c0 & Hc0 & Hk0 & _) & _). apply Hnew.
    apply list_elem_of_fmap. exists c0. split; [|done]. unfold command_of in Hk. cbn in Hk. congruence.
  - intros Eu. rewrite Hcm, fmap_app. apply NoDup_app. split; [by apply (wi_single _ Hw)|].
    split; [|apply NoDup_singleton]. intros k Hk Hk1%list_elem_of_singleton. cbn in Hk1.
    apply (Huse Eu). by rewrite <- Hcp, <- Hk1.
  - eapply verified_grows; [exact Hl|done|done|apply Hw].
  - apply Forall_app. split; [apply Hw|by repeat constructor].
  - rewrite Hpv. apply Hw.
Qed.

Lemma readback_step_inv w s actor cmd expected observed now audit :
  world_inv w -> world_inv (readback_command s actor cmd expected observed now audit w).2.
Proof.
  intros Hw. unfold readback_command.
  destruct (journal_readback _ _ _ _ _ _ _ _) as [x d] eqn:Hr. cbn [snd].
  assert (Hobs : forall o, world_inv (observe_plan o w)).
  { intros o. constructor; cbn; try by apply Hw.
    eapply Forall_impl; [apply Hw|]. cbn. set_solver. }
  apply readback_cases in Hr as [->|(h & row & -> & Hf & _ & _ & _ & _ & Hd & Hp & Hc & Hl)];
    [|..|apply Hw].
  - destruct observed as [[h|]|]; [|by destruct w..]. specialize (Hobs (cmd, h)). by destruct w.
  - destruct h as [h|].
    + change (observe_plan (cmd, h) (set_db d w)) with (set_db d (observe_plan (cmd, h) w)).
      eapply (world_inv_db (observe_plan (cmd, h) w));
        [done|done|by rewrite Hp|rewrite Hp; apply Hw|done|exact Hl|].
      cbn. case_decide as E; [|done]. injection E as ->. set_solver.
    + eapply world_inv_db; [done|done|by rewrite Hp|rewrite Hp; apply Hw|done|exact Hl|].
      by case_decide.
Qed.

Lemma world_inv_step w w' : world_inv w -> world_step w w' -> world_inv w'.
Proof.
  intros Hw Hs. destruct Hs as [w r audit x d Hpl Hp|w r fits dec now audit r' p d Hfs Hr
    |w l1 r p l2 raised Hin|w l1 r p a l2 now audit x d Hin Hse|w s actor cmd expected observed now audit
    |w].
  - apply put_preview_cases in Hp as [->|(Hd & Hc & Hp & _ & Hl & _)];
      [by destruct w|eapply world_inv_db; try done; rewrite Hp; [set_solver|]|apply Hw].
    apply Forall_app. split; [apply Hw|]. constructor; [by exists r|constructor].
  - by eapply reserve_step_inv.
  - pose proof (wi_settling _ Hw) as Hf. rewrite Hin in Hf. apply Forall_app in Hf as [Hf1 Hf2].
    apply Forall_cons in Hf2 as [_ Hf2].
    apply (world_inv_committed w); [done..| |].
    + exists []. rewrite app_nil_r. unfold committed. cbn [w_sent w_inflight set_inflight send].
      rewrite Hin, !committed_middle. rewrite decide_True, decide_False by done. cbn.
      by rewrite <- app_assoc.
    + apply Forall_app. split; [done|]. constructor; [|done]. by destruct raised.
  - pose proof (wi_settling _ Hw) as Hf. rewrite Hin in Hf. apply Forall_app in Hf as [Hf1 Hf2].
    apply Forall_cons in Hf2 as [Ha Hf2].
    assert (Hw' : world_inv (set_inflight (l1 ++ l2) w)).
    { apply (world_inv_committed w); [done..| |by apply Forall_app].
      exists []. rewrite app_nil_r. unfold committed. cbn [w_sent w_inflight set_inflight].
      rewrite Hin, committed_middle. by rewrite decide_False. }
    apply settle_cases in Hse as [[-> _]|(Hd & Hp & Hc & Hl)]; [|..|apply Hw].
    + by destruct w.
    + change (world_inv (set_db d (set_inflight (l1 ++ l2) w))).
      eapply world_inv_db; [done|done|by rewrite Hp|rewrite Hp; apply Hw|done|exact Hl|]. intros ->. by destruct Ha.
  - by apply readback_step_inv.
  - apply (world_inv_committed w); [done..| |constructor].
    exists ((fun x => x.1) <$> filter (fun x => x.2 = None) (w_inflight w)).
    unfold committed. cbn. by rewrite app_nil_r.
Qed.

Lemma world_reachable_inv w : world_reachable w -> world_inv w.
Proof.
  intros Hw. unfold world_reachable in Hw. revert Hw.
  apply (rtc_ind_r (fun w => world_inv w)); [apply new_world_inv|].
  intros y z _ Hs Hy. by eapply world_inv_step.
Qed.

(** ** A sequential call is a run of steps *)

Lemma confirm_command_steps r fits (dec : forall row p, Decision (fits row p)) now audit raised now' audit' w :
  world_inv w -> (forall row p, fits row p -> sendable p) ->
  rtc world_step w (confirm_command r fits now audit raised now' audit' w).2.
Proof.
  intros Hw Hfs. unfold confirm_command.
  destruct (reserve _ _ _ _ _ _ _) as [x d] eqn:Hr. pose proof Hr as Hcases.
  apply reserve_cases in Hcases as [[-> Hx]|(p & row & c & -> & _)]; [..|apply Hw].
  - destruct x as [[receipt|[r' p]]|e]; [by destruct w| |by destruct w].
    by destruct (Hx _ eq_refl) as (? & ? & [=] & _).
  - destruct (settle _ _ _ _ d) as [x d'] eqn:Hs. cbn [snd].
    eapply rtc_l; [by eapply (step_reserve w r fits dec now audit r p d Hfs)|].
    eapply rtc_l; [apply (step_send _ (w_inflight w) r p [] raised); done|].
    eapply rtc_l; [eapply (step_settle _ (w_inflight w) r p (outcome_of raised) []); [done|exact Hs]|].
    rewrite app_nil_r. by destruct w.
Qed.

(** What one call hands over. *)
Lemma confirm_command_sends r fits (dec : forall row p, Decision (fits row p)) now audit raised now' audit' w :
  world_inv w ->
  let w' := (confirm_command r fits now audit raised now' audit' w).2 in
  w_sent w' = w_sent w \/
  exists row p, w_sent w' = w_sent w ++ [(r, p)] /\ fits row p /\ plan_hash_of p = rv_plan_hash r.
Proof.
  intros Hw. unfold confirm_command.
  destruct (reserve _ _ _ _ _ _ _) as [x d] eqn:Hr.
  apply reserve_cases in Hr as [[-> Hx]|(p & row & c & -> & _ & _ & _ & _ & _ & ? & ? & _)]; [..|apply Hw].
  - left. destruct x as [[receipt|[r' p]]|e]; [done| |done].
    by destruct (Hx _ eq_refl) as (? & ? & [=] & _).
  - right. destruct (settle _ _ _ _ d) as [x d'] eqn:Hs. by exists row, p.
Qed.

Lemma preview_command_steps r audit w :
  planned_row r -> rtc world_step w (preview_command r audit w).2.
Proof.
  intros Hr. unfold preview_command. destruct (put_preview _ _ _ _) as [x d] eqn:Hp. cbn.
  apply rtc_once. by eapply step_preview.
Qed.

Lemma scopes_history d s :
  journal_ok d -> journal_history s d = Ok (events_in s d).
Proof. intros [Hd _]. by apply history_ok. Qed.

(** Every journal that the operations, crashes and interleavings lead to
    passes its own verification: [validate_storage] accepts it, and every scope
    has the history of its events. *)
Theorem journal_always_verifies w :
  world_reachable w ->
  validate_storage (w_db w) = Ok tt /\
  forall s, journal_history s (w_db w) = Ok (events_in s (w_db w)).
Proof.
  intros Hw%world_reachable_inv. split; [|intros s; apply scopes_history, Hw].
  apply for_each_ok, Forall_forall. intros s _. rewrite scopes_history by apply Hw. done.
Qed.

(** C6 The hardware gets each command at most once, and only the plan that is
    stored, under the identity the command asked for, for the account that
    previewed it; where a preview is good for one command, at most one plan is
    handed over for it. *)
Theorem journal_sent_once w :
  world_reachable w ->
  NoDup (command_of <$> w_sent w) /\ Forall (genuine (w_db w)) (w_sent w) /\
  (jn_single_use = true -> NoDup (preview_of <$> w_sent w)).
Proof.
  intros Hw%world_reachable_inv.
  pose proof (wi_once _ Hw) as Hn. pose proof (wi_genuine _ Hw) as Hg. unfold committed in Hn, Hg.
  rewrite fmap_app in Hn. apply NoDup_app in Hn as (Hn & _ & _). apply Forall_app in Hg as [Hg _].
  split_and!; [done..|]. intros Huse. specialize (wi_single _ Hw Huse) as Hs. clear Huse.
  induction (w_sent w) as [|x l IH]; [apply NoDup_nil_2|].
  apply NoDup_cons in Hn as [Hx Hn]. apply Forall_cons in Hg as [Hgx Hg].
  apply NoDup_cons. split; [|by apply IH].
  intros (y & E & Hy)%list_elem_of_fmap. apply Hx. apply list_elem_of_fmap. exists y. split; [|done].
  rewrite Forall_forall in Hg. destruct (Hg y Hy) as ((cy & Hcy & Hyi & _ & _ & Hyp & _) & _).
  destruct Hgx as ((cx & Hcx & Hxi & _ & _ & Hxp & _) & _). unfold command_of, preview_of in *.
  rewrite <- Hxi, <- Hyi. f_equal. apply (nodup_column_inj jc_preview_id _ _ _ Hs Hcx Hcy). congruence.
Qed.

(** What is sent was computed by the service. *)
Lemma sent_planned w x :
  world_reachable w -> x ∈ w_sent w ->
  exists r, planned_row r /\ read_preview (signed_preview r) = Ok x.2 /\ jp_id r = preview_of x /\
    jp_scope r = rv_scope x.1 /\ jp_account_id r = rv_actor_id x.1 /\ sendable x.2.
Proof.
  intros Hw%world_reachable_inv Hx. pose proof (wi_genuine _ Hw) as Hg. unfold committed in Hg.
  apply Forall_app in Hg as [Hg _]. rewrite Forall_forall in Hg.
  destruct (Hg x Hx) as (_ & (row & Hrow & Hid & Hsc & Hac & Hread & _) & Hs).
  pose proof (wi_planned _ Hw) as Hp. rewrite Forall_forall in Hp.
  destruct (Hp row Hrow) as (r & ? & ->). by exists r.
Qed.

(** A command is reported as verified only when the hardware was asked and
    answered with the hash of exactly the command's plan. *)
Theorem journal_verified_read_back w s c receipt :
  world_reachable w -> c ∈ jd_commands (w_db w) ->
  command_receipt c s (w_db w) = Ok receipt -> rc_status receipt = CmdVerified ->
  exists h, (jc_command_id c, h) ∈ w_observed w /\
    exists e, e ∈ jd_events (w_db w) /\ je_object_id e = jc_command_id c /\
      je_action e = ActVerified /\ je_plan_hash e = h.
Proof.
  intros Hw%world_reachable_inv Hc Hr Hv. unfold command_receipt in Hr. inv_ok. cbn in Hv.
  match goal with H : command_status _ _ _ = Ok ?st |- _ => unfold command_status in H; subst st end.
  inv_ok.
  match goal with H : last _ = Some ?e |- _ => rename H into Hl; rename e into e0 end.
  apply last_Some_elem_of, list_elem_of_filter in Hl as [Ho Hin].
  unfold scope_events in Hin. apply py_sorted_elem, list_elem_of_filter in Hin as [_ Hin].
  pose proof (wi_verified _ Hw) as Hf. rewrite Forall_forall in Hf.
  assert (je_action e0 = ActVerified) as Ha by (by destruct (je_action e0)).
  exists (je_plan_hash e0). rewrite <- Ho. split; [by apply Hf|]. by exists e0.
Qed.

(** ** Retries, recovery and exhaustion *)

Lemma command_found w c :
  world_inv w -> c ∈ jd_commands (w_db w) -> find_command (jc_command_id c) (w_db w) = Some c.
Proof. intros Hw Hc. apply sql_one_unique; [apply Hw|done|done]. Qed.

Lemma command_status_some w c :
  world_inv w -> c ∈ jd_commands (w_db w) ->
  exists st, command_status (jc_scope c) (jc_command_id c) (w_db w) = Ok st.
Proof.
  intros Hw Hc. destruct (wi_db _ Hw) as [Hd Hr]. unfold commands_reserved in Hr.
  rewrite Forall_forall in Hr. destruct (Hr c Hc) as (e & He & Hs & Ho).
  unfold command_status. rewrite scope_events_in by done. unfold events_in.
  destruct (last _) as [x|] eqn:Hl; [by eexists|]. exfalso. apply last_None in Hl.
  assert (e ∈ filter (fun e => je_object_id e = jc_command_id c)
                (filter (fun e => je_scope e = jc_scope c) (jd_events (w_db w)))) as Hin.
  { apply list_elem_of_filter. split; [done|]. by apply list_elem_of_filter. }
  rewrite Hl in Hin. by apply elem_of_nil in Hin.
Qed.

Lemma command_receipt_some w c :
  world_inv w -> c ∈ jd_commands (w_db w) ->
  exists receipt, command_receipt c (jc_scope c) (w_db w) = Ok receipt /\
    rc_command_id receipt = jc_command_id c /\ rc_preview_id receipt = jc_preview_id c /\
    rc_plan_hash receipt = jc_plan_hash c.
Proof.
  intros Hw Hc. destruct (command_status_some w c Hw Hc) as [st Hst]. unfold command_receipt.
  rewrite raise_if_no.
  - cbn. rewrite Hst. cbn. by eexists.
  - intros E. apply E. pose proof (ji_commands _ (proj1 (wi_db _ Hw))) as Hh.
    rewrite Forall_forall in Hh. by apply Hh.
Qed.

(** Asking again for a command that was reserved, with the same request and
    from the same account, answers with its present state: nothing is sent to
    the hardware and nothing is written, whatever became of the first call. *)
Theorem journal_retry_answers w c r fits (dec : forall row p, Decision (fits row p)) now audit
    raised now' audit' :
  world_reachable w -> c ∈ jd_commands (w_db w) -> rv_command_id r = jc_command_id c ->
  rv_actor_id r = jc_account_id c -> rv_request_hash r = jc_request_hash c ->
  rv_scope r = jc_scope c ->
  exists receipt,
    confirm_command r fits now audit raised now' audit' w = (Ok receipt, w) /\
    rc_command_id receipt = rv_command_id r /\ rc_preview_id receipt = jc_preview_id c /\
    rc_plan_hash receipt = jc_plan_hash c.
Proof.
  intros Hw%world_reachable_inv Hc Hid Hac Hrq Hsc.
  destruct (command_receipt_some w c Hw Hc) as (receipt & Hrc & E1 & E2 & E3).
  exists receipt. split; [|by rewrite Hid].
  unfold confirm_command, reserve, transaction.
  cbv beta iota zeta delta [mbind M_bind get_state lift mret M_ret].
  rewrite scopes_history by apply Hw. rewrite Hid, command_found by done.
  rewrite raise_if_no by (rewrite Hac, Hrq; by intros [[]|[]]).
  rewrite Hsc, Hrc. by destruct w.
Qed.

(** C16 A crash loses nothing that a readback cannot settle.  Take any reserved
    command, whatever happened to it since, whose scope has room for an event.
    When its owner reads it back under the authority it was confirmed under, so
    that the confirmation's hash of the session, the grants and the revisions
    is the stored one, with an audit identity that was not used, and the
    hardware answers the plan's hash, the command is verified.  A readback by
    its owner under any other authority is refused, with the journal's
    authority error, and leaves the journal as it was. *)
Theorem journal_recovers w c expected now audit :
  world_reachable w -> c ∈ jd_commands (w_db w) ->
  Z.of_nat (length (events_in (jc_scope c) (w_db w))) < MAX_JOURNAL_HISTORY ->
  audit ∉ je_audit_id <$> jd_events (w_db w) ->
  if decide (expected c = jc_request_hash c) then
    exists receipt w',
      readback_command (jc_scope c) (jc_account_id c) (jc_command_id c) expected
        (Ok (Some (jc_plan_hash c))) now audit w = (Ok receipt, w') /\
      rc_command_id receipt = jc_command_id c /\ rc_status receipt = CmdVerified /\
      command_status (jc_scope c) (jc_command_id c) (w_db w') = Ok CmdVerified
  else
    forall observed, exists w',
      readback_command (jc_scope c) (jc_account_id c) (jc_command_id c) expected observed now audit w
      = (Raise jn_authority_changed, w') /\ w_db w' = w_db w.
Proof.
  intros Hw%world_reachable_inv Hc Hroom Haudit. destruct (wi_db _ Hw) as [Hd Hr].
  destruct (decide (expected c = jc_request_hash c)) as [He|He].
  2: { intros observed. unfold readback_command, journal_readback, transaction.
    cbv beta iota zeta delta [mbind M_bind get_state lift].
    rewrite history_ok, command_found by done. cbn [require_some].
    rewrite raise_if_no by (by intros [[]|[]]). rewrite raise_if_yes by (intros E; by apply He).
    eexists. split; [reflexivity|]. by destruct observed as [[]|]. }
  destruct (command_status_some w c Hw Hc) as [st Hst].
  destruct (command_receipt_some w c Hw Hc) as (receipt & Hrc & _).
  unfold readback_command, journal_readback, transaction.
  cbv beta iota zeta delta [mbind M_bind get_state lift].
  rewrite history_ok, command_found by done. cbn [require_some].
  rewrite raise_if_no by (by intros [[]|[]]). rewrite raise_if_no by (by rewrite He; intros []).
  rewrite Hst. destruct (decide (st = CmdVerified)) as [->|Hne].
  { rewrite Hrc. do 2 eexists. split; [done|]. unfold command_receipt in Hrc. inv_ok.
    cbn. split_and!; [done|congruence|done]. }
  rewrite decide_True by done.
  destruct (journal_append _ (w_db w)) as [[u2|e] d'] eqn:Ha.
  - apply journal_append_ok in Ha as (Hd' & (ev & Es & Ea & Eo & Ep & Eev & Epr & Ecm) & _); [|done].
    assert (Hst' : command_status (jc_scope c) (jc_command_id c) d' = Ok CmdVerified).
    { unfold command_status. rewrite scope_events_in by done. unfold events_in.
      rewrite Eev, !filter_app, !filter_cons, !filter_nil. cbn in Es, Ea, Eo.
      rewrite (decide_True _ _ Es), filter_cons, filter_nil, (decide_True _ _ Eo), last_snoc.
      cbn. by rewrite Ea. }
    unfold command_receipt. rewrite raise_if_no.
    + cbn. rewrite Hst'. do 2 eexists. split; [reflexivity|]. by split_and!.
    + intros E. apply E. pose proof (ji_commands _ Hd) as Hh. rewrite Forall_forall in Hh. by apply Hh.
  - exfalso. revert Ha. unfold journal_append.
    cbv beta iota zeta delta [mbind M_bind get_state lift put_state ef_scope].
    rewrite history_ok, raise_if_no by (done || lia).
    rewrite sql_insert_total; [done|]. apply Forall_forall. intros x Hx [E|E].
    + cbn in E. pose proof (next_key_above (je_sequence <$> jd_events (w_db w)) (je_sequence x)).
      apply (list_elem_of_fmap_2 je_sequence) in Hx. specialize (H Hx). lia.
    + cbn in E. apply Haudit. rewrite E. by apply list_elem_of_fmap_2.
Qed.

(** Previews are only ever added. *)
Lemma step_keeps_previews w w' :
  world_inv w -> world_step w w' -> jd_previews (w_db w) `prefix_of` jd_previews (w_db w').
Proof.
  intros Hw Hs. destruct Hs as [w r audit x d Hpl Hp|w r fits dec now audit r' p d Hfs Hr
    |w l1 r p l2 raised Hin|w l1 r p a l2 now audit x d Hin Hse|w s actor cmd expected observed now audit
    |w]; cbn; try done.
  - apply put_preview_cases in Hp as [->|(_ & _ & -> & _)]; [done|by eexists|apply Hw].
  - apply reserve_cases in Hr as [[-> _]|(? & ? & ? & _ & _ & _ & _ & _ & _ & _ & _ & -> & _)];
      [done..|apply Hw].
  - apply settle_cases in Hse as [[-> _]|(_ & -> & _)]; [done..|apply Hw].
  - unfold readback_command. destruct (journal_readback _ _ _ _ _ _ _ _) as [x d] eqn:Hr. cbn.
    apply readback_cases in Hr as [->|(h & row & -> & _ & _ & _ & _ & _ & _ & Hp & _)];
      [..|apply Hw].
    + by destruct observed as [[]|].
    + by destruct h; cbn; rewrite Hp.
Qed.

(** No preview is ever removed: once a scope holds [MAX_PREVIEWS] of them,
    every preview under a new identity is refused, then and forever. *)
Theorem journal_previews_run_out w w' r audit :
  world_reachable w ->
  MAX_PREVIEWS <= Z.of_nat (length (filter (fun x => jp_scope x = jp_scope r) (jd_previews (w_db w)))) ->
  rtc world_step w w' -> jp_id r ∉ jp_id <$> jd_previews (w_db w') ->
  put_preview read_preview r audit (w_db w') = (Raise jn_preview_full, w_db w').
Proof.
  intros Hw%world_reachable_inv Hfull Hs Hnew.
  assert (world_inv w' /\ jd_previews (w_db w) `prefix_of` jd_previews (w_db w')) as [Hw' [l Hl]].
  { clear Hnew Hfull. induction Hs as [w|w w1 w2 Hs _ IH]; [done|].
    destruct IH as [? IH]; [by eapply world_inv_step|]. split; [done|].
    etrans; [by eapply step_keeps_previews|exact IH]. }
  unfold put_preview, transaction. cbv beta iota zeta delta [mbind M_bind get_state lift].
  rewrite scopes_history by apply Hw'.
  assert (find_preview (jp_id r) (w_db w') = None) as ->.
  { apply sql_one_none, Forall_forall. intros x Hx E. apply Hnew. rewrite <- E.
    by apply list_elem_of_fmap_2. }
  rewrite raise_if_yes; [done|]. rewrite Hl, filter_app, length_app. lia.
Qed.
End worlds.

(** ** A command on its way *)

Module JournalExample.
#[local] Instance J : Journal := {|
  jn_fingerprint := fun domain _ => domain;
  jn_audit_invalid := StartupError "audit_invalid";
  jn_history_full := ApiError "history_limit_reached" 413;
  jn_preview_conflict := ApiError "preview_conflict" 409;
  jn_preview_full := ApiError "preview_limit_reached" 413;
  jn_preview_invalid := StartupError "preview_invalid";
  jn_preview_changed := ApiError "preview_changed" 409;
  jn_command_conflict := ApiError "command_conflict" 409;
  jn_command_invalid := StartupError "command_invalid";
  jn_authority_changed := ApiError "authority_changed" 409;
  jn_single_use := false;
|}.
(** Plans are their hashes. *)
Definition read (row : preview_row) : res string :=
  _ ← raise_if (jp_record_hash row <> preview_hash row) jn_preview_invalid; Ok (jp_plan_hash row).
Definition row_planned (r : preview_row) : Prop := jp_revision r = 1.
Definition any_plan (_ : string) : Prop := True.
Definition fits_all (_ : preview_row) (_ : string) : Prop := True.
#[local] Instance fits_all_dec row p : Decision (fits_all row p).
Proof. left. done. Defined.
Local Notation step := (world_step read id row_planned any_plan).
Local Notation reachable := (world_reachable read id row_planned any_plan).

Definition home : journal_scope := (u "core", u "home", u "meter").
Definition row (id : string) : preview_row :=
  {| jp_id := u id; jp_scope := home; jp_account_id := u "ada"; jp_revision := 1;
     jp_plan_hash := "plan"; jp_request_hash := "asked"; jp_payload := JNull; jp_created_at := 5;
     jp_record_hash := "" |}.
Definition call (cmd : string) : reserved :=
  {| rv_scope := home; rv_actor_id := u "ada"; rv_command_id := u cmd; rv_preview_id := u "p1";
     rv_plan_hash := "plan"; rv_request_hash := "confirm" |}.

Definition w1 : world := (preview_command read (row "p1") "a1" new_world).2.
(** The hardware call raises. *)
Definition w2 : world :=
  (confirm_command read id (call "c1") fits_all 6 "a2" true 7 "a3" w1).2.
Definition w3 : world :=
  (readback_command home (u "ada") (u "c1") jc_request_hash (Ok (Some "plan"%string)) 8 "a4" w2).2.
Definition c1 : command_row :=
  {| jc_command_id := u "c1"; jc_scope := home; jc_account_id := u "ada"; jc_preview_id := u "p1";
     jc_plan_hash := "plan"; jc_request_hash := "confirm"; jc_created_at := 6;
     jc_record_hash := "command-record" |}.

Lemma previewed_reachable : reachable w1.
Proof. by apply preview_command_steps. Qed.
Lemma unsettled_reachable : reachable w2.
Proof.
  unfold world_reachable. transitivity w1; [apply previewed_reachable|].
  apply confirm_command_steps; [apply (world_reachable_inv _ _ _ _ _ previewed_reachable)|done].
Qed.
Lemma verified_reachable : reachable w3.
Proof. apply (rtc_r _ w2); [apply unsettled_reachable|]. apply step_readback. Qed.

Lemma journal_always_verifies_witness :
  validate_storage (w_db w3) = Ok tt /\ journal_history home (w_db w3) = Ok (jd_events (w_db w3)) /\
  length (jd_events (w_db w3)) = 4%nat.
Proof.
  destruct (journal_always_verifies _ _ _ _ w3 verified_reachable) as [H1 H2].
  split_and!; [exact H1|exact (H2 home)|vm_compute; reflexivity].
Defined.

Lemma journal_sent_once_witness :
  NoDup (command_of <$> w_sent w3) /\ w_sent w3 = [(call "c1", "plan"%string)].
Proof.
  split; [apply (journal_sent_once _ _ _ _ w3 verified_reachable)|vm_compute; reflexivity].
Defined.

Lemma journal_verified_read_back_witness :
  exists h, (u "c1", h) ∈ w_observed w3.
Proof.
  destruct (journal_verified_read_back _ _ _ _ w3 home c1
    {| rc_command_id := u "c1"; rc_preview_id := u "p1"; rc_plan_hash := "plan";
       rc_status := CmdVerified |} verified_reachable) as (h & Hh & _).
  - vm_compute. left.
  - vm_compute. reflexivity.
  - reflexivity.
  - exists h. exact Hh.
Defined.

Lemma journal_retry_answers_witness :
  exists receipt, confirm_command read id (call "c1") fits_all 9 "b1" false 10 "b2" w3 = (Ok receipt, w3) /\
    rc_status receipt = CmdVerified.
Proof.
  destruct (journal_retry_answers read id row_planned any_plan w3 c1 (call "c1") fits_all _ 9 "b1" false 10 "b2")
    as (receipt & Hr & _);
    [exact verified_reachable|vm_compute; left|reflexivity..|].
  exists receipt. split; [exact Hr|].
  assert ((confirm_command read id (call "c1") fits_all 9 "b1" false 10 "b2" w3).1
    = Ok {| rc_command_id := u "c1"; rc_preview_id := u "p1"; rc_plan_hash := "plan";
            rc_status := CmdVerified |}) as E by (vm_compute; reflexivity).
  rewrite Hr in E. cbn in E. injection E as ->. reflexivity.
Defined.

Lemma journal_recovers_witness :
  (exists receipt w', readback_command home (u "ada") (u "c1") jc_request_hash (Ok (Some "plan"%string)) 8
    "a4" w2 = (Ok receipt, w') /\ rc_status receipt = CmdVerified) /\
  exists w', readback_command home (u "ada") (u "c1") (fun _ => "other"%string) (Ok None) 8 "a4" w2
    = (Raise (ApiError "authority_changed" 409), w') /\ w_db w' = w_db w2.
Proof.
  split.
  - destruct (journal_recovers read id row_planned any_plan w2 c1 jc_request_hash 8 "a4" unsettled_reachable)
      as (receipt & w' & E & _ & Hs & _).
    + vm_compute. left.
    + vm_compute. reflexivity.
    + apply (bool_decide_unpack _). vm_compute. reflexivity.
    + exists receipt, w'. split; [exact E|exact Hs].
  - apply (journal_recovers read id row_planned any_plan w2 c1 (fun _ => "other"%string) 8 "a4" unsettled_reachable).
    + vm_compute. left.
    + vm_compute. reflexivity.
    + apply (bool_decide_unpack _). vm_compute. reflexivity.
Defined.

(** A readback that comes between the hardware call and the transaction that
    settles it verifies the command, and settling it takes that back. *)
Definition race1 : world :=
  set_inflight [(call "c1", "plan"%string, Some ActAwaiting)]
    (send (call "c1", "plan"%string)
       (set_db (reserve read (call "c1") fits_all id 6 "a2" (w_db w1)).2 w1)).
Definition race2 : world :=
  (readback_command home (u "ada") (u "c1") jc_request_hash (Ok (Some "plan"%string)) 7 "a3" race1).2.
Definition race3 : world :=
  set_inflight [] (set_db (settle (call "c1") ActAwaiting 8 "a4" (w_db race2)).2 race2).

Lemma race_reachable : reachable race2.
Proof.
  apply (rtc_r _ race1); [|apply step_readback].
  set (w0 := set_inflight [(call "c1", "plan"%string, None)]
    (set_db (reserve read (call "c1") fits_all id 6 "a2" (w_db w1)).2 w1)).
  apply (rtc_r _ w0).
  - apply (rtc_r _ w1); [apply previewed_reachable|].
    apply (step_reserve read id row_planned any_plan w1 (call "c1") fits_all _ 6 "a2" (call "c1")
      "plan"%string _); [done|vm_compute; reflexivity].
  - apply (step_send read id row_planned any_plan w0 [] (call "c1") "plan"%string [] false). done.
Qed.

Lemma settling_takes_back :
  reachable race2 /\ step race2 race3 /\
  command_status home (u "c1") (w_db race2) = Ok CmdVerified /\
  command_status home (u "c1") (w_db race3) = Ok CmdAwaiting.
Proof.
  split_and!; [apply race_reachable| |vm_compute; reflexivity..].
  apply (step_settle read id row_planned any_plan race2 [] (call "c1") "plan"%string ActAwaiting [] 8 "a4"
    (settle (call "c1") ActAwaiting 8 "a4" (w_db race2)).1); [done|by destruct (settle _ _ _ _ _)].
Qed.
End JournalExample.
