(* ===== verification/PowerBudget.v ===== *)
(** * Household power budget

    [server/larenor_server/power_budget/service.py]: when the grid import of a
    home exceeds its limit, [preview] plans which loads to reduce and stores
    the plan; [confirm] hands it to the load controller once and [readback]
    compares what the controller reports with the plan's hash.  The store is
    the signed journal of [CommandJournal.v].  SHA-256 and HMAC-SHA-256 of
    canonical JSON are parameters.  A time is a finite double on the grid of
    [Prelude.v]. *)

From S2P Require Import Prelude Auth CommandJournal.

Definition MAX_LOADS : Z := 192.
Definition MAX_PROVIDER_AGE_SECONDS : Z := seconds 300.
Definition PROVIDERS : list string := ["meter"; "tariff"]%string.

(** ** Contracts *)

Definition positive_revision (n : Z) : Prop := 0 < n.
#[export] Instance positive_revision_dec n : Decision (positive_revision n).
Proof. unfold positive_revision. apply _. Defined.

Record BudgetAuthority := {
  ba_core_id : ustr;
  ba_home_id : ustr;
  ba_account_id : ustr;
  ba_session_id : ustr;
  ba_core_revision : Z;
  ba_home_revision : Z;
  ba_account_revision : Z;
  ba_meter_id : ustr;
  ba_meter_revision : Z;
  ba_tariff_revision : Z;
  ba_load_registry_revision : Z;
  ba_grid_limit_revision : Z;
  ba_override_revision : Z;
  ba_plan_revision : Z;
  ba_max_grid_w : Z;
  ba_max_shed_w : Z;
  ba_can_control : bool;
}.

(** [__post_init__] *)
Definition BudgetAuthority_valid `{UnicodeData} (a : BudgetAuthority) : Prop :=
  Forall _identifier [ba_core_id a; ba_home_id a; ba_account_id a; ba_session_id a; ba_meter_id a] /\
  Forall positive_revision
    [ba_core_revision a; ba_home_revision a; ba_account_revision a; ba_meter_revision a;
     ba_tariff_revision a; ba_load_registry_revision a; ba_grid_limit_revision a;
     ba_override_revision a; ba_plan_revision a] /\
  1 <= ba_max_grid_w a <= 1000000 /\ 1 <= ba_max_shed_w a <= ba_max_grid_w a.
#[export] Instance BudgetAuthority_valid_dec `{UnicodeData} a : Decision (BudgetAuthority_valid a).
Proof. unfold BudgetAuthority_valid. apply _. Defined.
Definition BudgetAuthority_new `{UnicodeData} (a : BudgetAuthority) : res BudgetAuthority :=
  _ ← raise_if (~ BudgetAuthority_valid a) (ValueError "invalid_power_authority"); Ok a.

Record ProviderState := {
  ps_name : string;
  ps_revision : Z;
  ps_status : string;
  ps_observed_at : Z;
}.
Record LoadState := {
  ls_load_id : ustr;
  ls_revision : Z;
  ls_priority : Z;
  ls_current_w : Z;
  ls_critical : bool;
  ls_controllable : bool;
  ls_hold_until : Z;
}.
Record ManualOverride := {
  mv_expires_at : Z;
  mv_reason : ustr;
}.
Record BudgetInputs := {
  bi_meter_revision : Z;
  bi_tariff_revision : Z;
  bi_load_registry_revision : Z;
  bi_grid_limit_revision : Z;
  bi_override_revision : Z;
  bi_grid_limit_w : Z;
  bi_grid_import_w : Z;
  bi_tariff_micros_per_kwh : Z;
  bi_provider_states : list ProviderState;
  bi_loads : list LoadState;
  bi_manual_override : option ManualOverride;
}.
Record SheddingAction := {
  sa_load_id : ustr;
  sa_load_revision : Z;
  sa_reduction_w : Z;
  sa_target_w : Z;
  sa_priority : Z;
}.
#[export] Instance SheddingAction_eq_dec : EqDecision SheddingAction.
Proof. solve_decision. Defined.

Inductive plan_status := PlanReady | PlanOverridden.
#[export] Instance plan_status_eq_dec : EqDecision plan_status.
Proof. solve_decision. Defined.
Definition plan_status_name (s : plan_status) : string :=
  match s with PlanReady => "ready" | PlanOverridden => "manual_override_active" end.

Record BudgetPreview := {
  bp_id : ustr;
  bp_status : plan_status;
  bp_plan_hash : string;
  bp_plan_revision : Z;
  bp_required_reduction_w : Z;
  bp_actions : list SheddingAction;
  bp_provider_status : list (string * string);
  bp_override_expires_at : option Z;
}.

(** ** JSON *)

Definition time_or_null (o : option Z) : jval := match o with Some t => JTime t | None => JNull end.

(** [asdict(authority)], its keys sorted *)
Definition budget_authority_json (a : BudgetAuthority) : jval :=
  JObj [("account_id", JText (ba_account_id a)); ("account_revision", JInt (ba_account_revision a));
        ("can_control", JBool (ba_can_control a)); ("core_id", JText (ba_core_id a));
        ("core_revision", JInt (ba_core_revision a));
        ("grid_limit_revision", JInt (ba_grid_limit_revision a));
        ("home_id", JText (ba_home_id a)); ("home_revision", JInt (ba_home_revision a));
        ("load_registry_revision", JInt (ba_load_registry_revision a));
        ("max_grid_w", JInt (ba_max_grid_w a)); ("max_shed_w", JInt (ba_max_shed_w a));
        ("meter_id", JText (ba_meter_id a)); ("meter_revision", JInt (ba_meter_revision a));
        ("override_revision", JInt (ba_override_revision a));
        ("plan_revision", JInt (ba_plan_revision a)); ("session_id", JText (ba_session_id a));
        ("tariff_revision", JInt (ba_tariff_revision a))]%string.
Definition provider_json (p : ProviderState) : jval :=
  JObj [("name", JStr (ps_name p)); ("observed_at", JTime (ps_observed_at p));
        ("revision", JInt (ps_revision p)); ("status", JStr (ps_status p))]%string.
Definition load_json (l : LoadState) : jval :=
  JObj [("controllable", JBool (ls_controllable l)); ("critical", JBool (ls_critical l));
        ("current_w", JInt (ls_current_w l)); ("hold_until", JTime (ls_hold_until l));
        ("load_id", JText (ls_load_id l)); ("priority", JInt (ls_priority l));
        ("revision", JInt (ls_revision l))]%string.
Definition override_json (o : option ManualOverride) : jval :=
  match o with
  | Some v => JObj [("expires_at", JTime (mv_expires_at v)); ("reason", JText (mv_reason v))]%string
  | None => JNull
  end.
Definition budget_inputs_json (i : BudgetInputs) : jval :=
  JObj [("grid_import_w", JInt (bi_grid_import_w i));
        ("grid_limit_revision", JInt (bi_grid_limit_revision i));
        ("grid_limit_w", JInt (bi_grid_limit_w i));
        ("load_registry_revision", JInt (bi_load_registry_revision i));
        ("loads", JList (load_json <$> bi_loads i));
        ("manual_override", override_json (bi_manual_override i));
        ("meter_revision", JInt (bi_meter_revision i));
        ("override_revision", JInt (bi_override_revision i));
        ("provider_states", JList (provider_json <$> bi_provider_states i));
        ("tariff_micros_per_kwh", JInt (bi_tariff_micros_per_kwh i));
        ("tariff_revision", JInt (bi_tariff_revision i))]%string.
Definition action_json (a : SheddingAction) : jval :=
  JObj [("load_id", JText (sa_load_id a)); ("load_revision", JInt (sa_load_revision a));
        ("priority", JInt (sa_priority a)); ("reduction_w", JInt (sa_reduction_w a));
        ("target_w", JInt (sa_target_w a))]%string.
Definition statuses_json (l : list (string * string)) : jval :=
  JObj ((fun kv => (kv.1, JStr kv.2)) <$> l).

(** The payload of a plan; its identity and hash are columns. *)
Definition budget_payload (status : plan_status) (plan_revision required : Z)
    (actions : list SheddingAction) (statuses : list (string * string)) (expires : option Z) : jval :=
  JObj [("actions", JList (action_json <$> actions)); ("override_expires_at", time_or_null expires);
        ("plan_revision", JInt plan_revision); ("provider_status", statuses_json statuses);
        ("required_reduction_w", JInt required);
        ("status", JStr (plan_status_name status))]%string.

Definition action_of_json (v : jval) : option SheddingAction :=
  match v with
  | JObj [("load_id", JText l); ("load_revision", JInt r); ("priority", JInt p);
          ("reduction_w", JInt d); ("target_w", JInt t)]%string =>
      Some {| sa_load_id := l; sa_load_revision := r; sa_reduction_w := d; sa_target_w := t;
              sa_priority := p |}
  | _ => None
  end.
Definition status_of_json (kv : string * jval) : option (string * string) :=
  match kv.2 with JStr s => Some (kv.1, s) | _ => None end.
Definition plan_status_of (s : string) : option plan_status :=
  if decide (s = "ready"%string) then Some PlanReady
  else if decide (s = "manual_override_active"%string) then Some PlanOverridden else None.
Definition time_of_json (v : jval) : option (option Z) :=
  match v with JTime t => Some (Some t) | JNull => Some None | _ => None end.

(** [BudgetPreview(id=..., plan_hash=..., actions=..., **value)].  A field of
    a foreign type is refused here too; only the holder of the audit key could
    have written one. *)
Definition budget_preview_of (id : ustr) (plan_hash : string) (v : jval) : option BudgetPreview :=
  match v with
  | JObj [("actions", JList actions); ("override_expires_at", expires);
          ("plan_revision", JInt revision); ("provider_status", JObj statuses);
          ("required_reduction_w", JInt required); ("status", JStr status)]%string =>
      actions ← mapM action_of_json actions;
      expires ← time_of_json expires;
      statuses ← mapM status_of_json statuses;
      status ← plan_status_of status;
      Some {| bp_id := id; bp_status := status; bp_plan_hash := plan_hash;
              bp_plan_revision := revision; bp_required_reduction_w := required;
              bp_actions := actions; bp_provider_status := statuses;
              bp_override_expires_at := expires |}
  | _ => None
  end.

(** ** Validation *)

Section service.
Context `{UnicodeData}.
(** [hashlib.sha256(_canonical(value)).hexdigest()] *)
Variable sha256 : jval -> string.

(** [_authorize] *)
Definition budget_authorize (actor : Principal) (a : BudgetAuthority) : res unit :=
  _ ← raise_if (u (p_id actor) <> ba_account_id a \/ u (p_family_id actor) <> ba_session_id a)
        (ApiError "power_authority_changed" 409);
  raise_if (p_role actor <> Admin /\ ba_can_control a = false) (ApiError "forbidden" 403).

(** [_scope] *)
Definition budget_scope (a : BudgetAuthority) : journal_scope :=
  (ba_core_id a, ba_home_id a, ba_meter_id a).

(** A provider's state is usable. *)
Definition provider_verified (now expected : Z) (p : ProviderState) : Prop :=
  ps_status p = "verified"%string /\ ps_revision p = expected /\ ps_observed_at p <= now /\
  now - ps_observed_at p <= MAX_PROVIDER_AGE_SECONDS.
#[export] Instance provider_verified_dec now e p : Decision (provider_verified now e p).
Proof. unfold provider_verified. apply _. Defined.

Definition expected_revision (a : BudgetAuthority) (name : string) : Z :=
  if decide (name = "meter"%string) then ba_meter_revision a else ba_tariff_revision a.

(** The checks of one load; [identifiers] are the loads before it. *)
Definition check_load (a : BudgetAuthority) (identifiers : list ustr) (l : LoadState)
  : res (list ustr) :=
  _ ← raise_if (~ _identifier (ls_load_id l) \/ ls_load_id l ∈ identifiers \/
                ~ positive_revision (ls_revision l) \/ ~ (0 <= ls_priority l <= 100) \/
                ~ (0 <= ls_current_w l <= ba_max_grid_w a) \/ ls_hold_until l < 0)
        (ApiError "power_inputs_unverified" 409);
  Ok (identifiers ++ [ls_load_id l]).

(** [_validate_inputs] *)
Definition budget_validate (a : BudgetAuthority) (i : BudgetInputs) (now : Z)
  : res (list (string * string)) :=
  _ ← raise_if (bi_meter_revision i <> ba_meter_revision a \/
                bi_tariff_revision i <> ba_tariff_revision a \/
                bi_load_registry_revision i <> ba_load_registry_revision a \/
                bi_grid_limit_revision i <> ba_grid_limit_revision a \/
                bi_override_revision i <> ba_override_revision a)
        (ApiError "power_authority_changed" 409);
  let states := dict_of ps_name id (bi_provider_states i) in
  _ ← raise_if (length (bi_provider_states i) <> length PROVIDERS \/
                ~ (dict_keys states ⊆ PROVIDERS /\ PROVIDERS ⊆ dict_keys states) \/
                ~ Forall (fun kv => provider_verified now (expected_revision a kv.1) kv.2) states)
        (ApiError "power_inputs_unverified" 409);
  _ ← raise_if (~ (1 <= bi_grid_limit_w i <= ba_max_grid_w a) \/
                ~ (0 <= bi_grid_import_w i <= 1000000) \/
                ~ (0 <= bi_tariff_micros_per_kwh i <= 10000000))
        (ApiError "power_safety_limit" 400);
  _ ← raise_if (~ (1 <= Z.of_nat (length (bi_loads i)) <= MAX_LOADS))
        (ApiError "power_inputs_unverified" 409);
  _ ← fold_res (check_load a) [] (bi_loads i);
  Ok ((fun kv => (kv.1, ps_status kv.2)) <$>
      py_sorted (fun x y => str_le x.1 y.1) states).

(** ** Planning *)

Definition can_shed (now : Z) (l : LoadState) : Prop :=
  ls_critical l = false /\ ls_controllable l = true /\ ls_hold_until l <= now /\ ls_current_w l > 0.
#[export] Instance can_shed_dec now l : Decision (can_shed now l).
Proof. unfold can_shed. apply _. Defined.

(** [key=lambda load: (load.priority, load.load_id)] *)
Definition shed_le (a b : LoadState) : Prop :=
  ls_priority a < ls_priority b \/
  (ls_priority a = ls_priority b /\ ustr_le (ls_load_id a) (ls_load_id b)).
#[export] Instance shed_le_dec a b : Decision (shed_le a b).
Proof. unfold shed_le. apply _. Defined.

Definition shed_order (now : Z) (loads : list LoadState) : list LoadState :=
  py_sorted shed_le (filter (can_shed now) loads).

Definition shed_action (reduction : Z) (l : LoadState) : SheddingAction :=
  {| sa_load_id := ls_load_id l; sa_load_revision := ls_revision l; sa_reduction_w := reduction;
     sa_target_w := ls_current_w l - reduction; sa_priority := ls_priority l |}.

(** The loop over the ordered loads: the actions and what remains. *)
Fixpoint shed (remaining : Z) (ordered : list LoadState) : list SheddingAction * Z :=
  match ordered with
  | [] => ([], remaining)
  | l :: rest =>
      let reduction := Z.min remaining (ls_current_w l) in
      let remaining := remaining - reduction in
      if decide (remaining = 0) then ([shed_action reduction l], 0)
      else let '(actions, unmet) := shed remaining rest in (shed_action reduction l :: actions, unmet)
  end.

Definition override_valid (o : ManualOverride) : Prop :=
  1 <= Z.of_nat (length (mv_reason o)) <= 200.
#[export] Instance override_valid_dec o : Decision (override_valid o).
Proof. unfold override_valid. apply _. Defined.

Definition override_active (now : Z) (o : option ManualOverride) : bool :=
  match o with Some v => now <? mv_expires_at v | None => false end.

Definition required_reduction (i : BudgetInputs) : Z :=
  Z.max 0 (bi_grid_import_w i - bi_grid_limit_w i).

(** [preview] up to the transaction: the payload of the plan. *)
Definition budget_plan (a : BudgetAuthority) (i : BudgetInputs) (validated_at now : Z) : res jval :=
  statuses ← budget_validate a i validated_at;
  _ ← raise_if (~ optional override_valid (bi_manual_override i))
        (ApiError "power_safety_limit" 400);
  let required := required_reduction i in
  _ ← raise_if (required > ba_max_shed_w a) (ApiError "power_safety_limit" 400);
  if override_active now (bi_manual_override i) then
    Ok (budget_payload PlanOverridden (ba_plan_revision a) required [] statuses
          (mv_expires_at <$> bi_manual_override i))
  else
    let '(actions, remaining) := shed required (shed_order now (bi_loads i)) in
    _ ← raise_if (remaining <> 0) (ApiError "critical_load_protection" 409);
    Ok (budget_payload PlanReady (ba_plan_revision a) required actions statuses None).

(** ** The service *)

Context {J : Journal}.

(** [_preview_from_row] *)
Definition budget_preview_from_row (row : preview_row) : res BudgetPreview :=
  _ ← raise_if (jp_record_hash row <> preview_hash row) jn_preview_invalid;
  require_some (budget_preview_of (jp_id row) (jp_plan_hash row) (jp_payload row)) jn_preview_invalid.

(** The row that [preview] stores. *)
Definition budget_row (actor : Principal) (a : BudgetAuthority) (i : BudgetInputs)
    (preview_id : ustr) (payload : jval) (now : Z) : preview_row :=
  let inputs := [("authority", budget_authority_json a); ("inputs", budget_inputs_json i)]%string in
  {| jp_id := preview_id; jp_scope := budget_scope a; jp_account_id := u (p_id actor);
     jp_revision := ba_plan_revision a;
     jp_plan_hash := sha256 (JObj (inputs ++ [("result"%string, payload)]));
     jp_request_hash := jn_fingerprint "preview" (JObj inputs);
     jp_payload := payload; jp_created_at := now; jp_record_hash := "" |}.

(** The rows that [preview] may store. *)
Definition budget_planned (r : preview_row) : Prop :=
  exists actor a i id payload validated_at now,
    budget_plan a i validated_at now = Ok payload /\ r = budget_row actor a i id payload now.

Local Notation world := (world (P := BudgetPreview)).

(** [preview]; the clock is read once for the validation and once after it. *)
Definition budget_preview (actor : Principal) (a : BudgetAuthority) (i : BudgetInputs)
    (preview_id : ustr) (validated_at now : Z) (audit : string) : M world BudgetPreview :=
  _ ← lift (budget_authorize actor a);
  _ ← lift (raise_if (~ _identifier preview_id) (ApiError "invalid_request" 400));
  payload ← lift (budget_plan a i validated_at now);
  preview_command budget_preview_from_row (budget_row actor a i preview_id payload now) audit.

(** The fingerprint of a confirmation. *)
Definition budget_confirm_hash (a : BudgetAuthority) (preview_id command_id : ustr)
    (plan_hash : string) : string :=
  jn_fingerprint "confirm"
    (JList [budget_authority_json a; JText preview_id; JText command_id; JStr plan_hash]).

(** The comparison of a stored preview with the authority. *)
Definition budget_fits (a : BudgetAuthority) (row : preview_row) (p : BudgetPreview) : Prop :=
  bp_plan_revision p = ba_plan_revision a /\ bp_status p = PlanReady.
#[export] Instance budget_fits_dec a row p : Decision (budget_fits a row p).
Proof. unfold budget_fits. apply _. Defined.

Definition budget_request (actor : Principal) (a : BudgetAuthority) (preview_id command_id : ustr)
    (expected_plan_hash : string) : reserved :=
  {| rv_scope := budget_scope a; rv_actor_id := u (p_id actor); rv_command_id := command_id;
     rv_preview_id := preview_id; rv_plan_hash := expected_plan_hash;
     rv_request_hash := budget_confirm_hash a preview_id command_id expected_plan_hash |}.

(** [confirm] *)
Definition budget_confirm (actor : Principal) (a : BudgetAuthority) (preview_id command_id : ustr)
    (expected_plan_hash : string) (reserved_at : Z) (reserved_audit : string)
    (hardware_raises : bool) (settled_at : Z) (settled_audit : string) : M world CommandReceipt :=
  _ ← lift (budget_authorize actor a);
  _ ← lift (raise_if (~ _identifier preview_id \/ ~ _identifier command_id)
              (ApiError "invalid_request" 400));
  confirm_command budget_preview_from_row bp_plan_hash
    (budget_request actor a preview_id command_id expected_plan_hash) (budget_fits a)
    reserved_at reserved_audit hardware_raises settled_at settled_audit.

(** [readback] *)
Definition budget_readback (actor : Principal) (a : BudgetAuthority) (command_id : ustr)
    (observed : res (option string)) (now : Z) (audit : string) : M world CommandReceipt :=
  _ ← lift (budget_authorize actor a);
  readback_command (budget_scope a) (u (p_id actor)) command_id
    (fun row => budget_confirm_hash a (jc_preview_id row) command_id (jc_plan_hash row))
    observed now audit.

(** [history] *)
Definition budget_history (actor : Principal) (a : BudgetAuthority) (limit : Z) (w : world)
  : res (list (string * journal_action * ustr * Z)) :=
  _ ← budget_authorize actor a;
  history_page (budget_scope a) limit (w_db w).
End service.

(** The service's journal: HMAC under its own domain, and its error codes. *)
Definition power_journal (fingerprint : string -> jval -> string) : Journal := {|
  jn_fingerprint := fingerprint;
  jn_audit_invalid := StartupError "power_budget_audit_invalid";
  jn_history_full := ApiError "power_budget_history_limit_reached" 413;
  jn_preview_conflict := ApiError "power_budget_preview_conflict" 409;
  jn_preview_full := ApiError "power_budget_preview_limit_reached" 413;
  jn_preview_invalid := StartupError "power_budget_preview_invalid";
  jn_preview_changed := ApiError "power_budget_preview_changed" 409;
  jn_command_conflict := ApiError "power_budget_command_conflict" 409;
  jn_command_invalid := StartupError "power_budget_command_invalid";
  jn_authority_changed := ApiError "power_authority_changed" 409;
  jn_single_use := false;
|}.

(** ** What the planner plans *)

Definition full_action (l : LoadState) : SheddingAction := shed_action (ls_current_w l) l.

(** The loads before the last one are switched off completely. *)
Lemma shed_spec remaining ordered actions unmet :
  0 <= remaining -> Forall (fun l => 0 < ls_current_w l) ordered ->
  shed remaining ordered = (actions, unmet) ->
  (exists pre x post r, ordered = pre ++ x :: post /\
     actions = (full_action <$> pre) ++ [shed_action r x] /\ 0 <= r <= ls_current_w x /\
     unmet = 0 /\ remaining = zsum (ls_current_w <$> pre) + r) \/
  (actions = full_action <$> ordered /\ remaining = zsum (ls_current_w <$> ordered) + unmet /\
   (ordered <> [] -> 0 < unmet) /\ 0 <= unmet).
Proof.
  revert remaining actions unmet. induction ordered as [|l rest IH]; intros remaining actions unmet Hr Hpos Hs.
  - cbn in Hs. injection Hs as <- <-. right. cbn. rewrite zsum_nil. split_and!; [done|lia|done|lia].
  - apply Forall_cons in Hpos as [Hl Hpos]. cbn in Hs. case_decide as Hd.
    + injection Hs as <- <-. left. exists [], l, rest, (Z.min remaining (ls_current_w l)).
      cbn. rewrite zsum_nil. split_and!; try done; lia.
    + destruct (shed _ rest) as [acts un] eqn:Hrest. injection Hs as <- <-.
      assert (Z.min remaining (ls_current_w l) = ls_current_w l) as E by lia. rewrite E in Hrest |- *.
      apply IH in Hrest; [|lia|done].
      destruct Hrest as [(pre & x & post & r & -> & -> & Hr' & -> & Hsum)|(-> & Hsum & Hun & Hun')].
      * left. exists (l :: pre), x, post, r. cbn. rewrite zsum_cons. split_and!; try done; lia.
      * right. cbn. rewrite zsum_cons. split_and!; [done|lia| |done]. intros _.
        destruct rest; [cbn in Hsum; rewrite zsum_nil in Hsum; lia|by apply Hun].
Qed.

Lemma shed_order_elem now loads l : l ∈ shed_order now loads <-> l ∈ loads /\ can_shed now l.
Proof. unfold shed_order. rewrite py_sorted_elem, list_elem_of_filter. tauto. Qed.

Lemma shed_order_pos now loads : Forall (fun l => 0 < ls_current_w l) (shed_order now loads).
Proof.
  apply Forall_forall. intros l [_ (_ & _ & _ & ?)]%shed_order_elem. lia.
Qed.

#[local] Instance shed_le_total : Total shed_le.
Proof.
  intros a b. unfold shed_le. destruct (Z.lt_trichotomy (ls_priority a) (ls_priority b)) as [?|[E|?]];
    [by left; left| |by right; left]. destruct (ustr_le_total (ls_load_id a) (ls_load_id b)); auto.
Qed.
#[local] Instance shed_le_trans : Transitive shed_le.
Proof.
  intros a b c [?|[E1 ?]] [?|[E2 ?]]; unfold shed_le; [left; lia..|].
  right. split; [lia|by etrans].
Qed.

Lemma shed_order_sorted now loads : StronglySorted shed_le (shed_order now loads).
Proof. apply py_sorted_strong; apply _. Qed.

(** What makes a plan of reductions safe for these inputs at this time. *)
Record shed_safe (i : BudgetInputs) (now : Z) (actions : list SheddingAction) : Prop := {
  ss_sum : zsum (sa_reduction_w <$> actions) = required_reduction i;
  ss_limit : bi_grid_import_w i - zsum (sa_reduction_w <$> actions) <= bi_grid_limit_w i;
  ss_loads : Forall (fun x => exists l, l ∈ bi_loads i /\ can_shed now l /\
    0 <= sa_reduction_w x <= ls_current_w l /\ x = shed_action (sa_reduction_w x) l) actions;
  ss_once : NoDup (sa_load_id <$> actions);
  ss_order : forall x l, x ∈ actions -> l ∈ bi_loads i -> can_shed now l ->
    ls_priority l < sa_priority x -> full_action l ∈ actions;
}.

Lemma checked_loads `{UnicodeData} a ids loads ids' :
  fold_res (check_load a) ids loads = Ok ids' ->
  ids' = ids ++ (ls_load_id <$> loads) /\ (NoDup ids -> NoDup ids').
Proof.
  revert ids. induction loads as [|l loads IH]; intros ids; cbn [fold_res].
  - intros [= ->]. by rewrite app_nil_r.
  - intros Hf. apply bind_ok in Hf as (mid & Hl & Hf). unfold check_load in Hl. inv_ok. passed.
    apply IH in Hf as [-> Hn]. split; [by rewrite <- app_assoc|]. intros Hids. apply Hn.
    apply NoDup_app. split_and!; [done| |apply NoDup_singleton].
    intros k Hk ->%list_elem_of_singleton. done.
Qed.

Lemma validated_loads `{UnicodeData} a i now statuses :
  budget_validate a i now = Ok statuses ->
  NoDup (ls_load_id <$> bi_loads i) /\ 0 <= bi_grid_import_w i <= 1000000.
Proof.
  unfold budget_validate. intros Hv. inv_ok. passed.
  match goal with Hc : fold_res _ _ _ = Ok _ |- _ => apply checked_loads in Hc as [-> Hn] end.
  split; [apply Hn, NoDup_nil_2|]. lia.
Qed.

Lemma reductions_full pre : zsum (sa_reduction_w <$> (full_action <$> pre)) = zsum (ls_current_w <$> pre).
Proof. by rewrite <- list_fmap_compose. Qed.

Lemma shed_order_ids now loads :
  NoDup (ls_load_id <$> loads) -> NoDup (ls_load_id <$> shed_order now loads).
Proof.
  intros Hn. eapply NoDup_Permutation_proper; [apply fmap_Permutation, py_sorted_perm|].
  eapply sublist_NoDup; [exact Hn|]. apply fmap_sublist, sublist_filter.
Qed.

Lemma shed_prefix_safe i now pre x post r :
  NoDup (ls_load_id <$> bi_loads i) -> shed_order now (bi_loads i) = pre ++ x :: post ->
  0 <= r <= ls_current_w x -> required_reduction i = zsum (ls_current_w <$> pre) + r ->
  shed_safe i now ((full_action <$> pre) ++ [shed_action r x]).
Proof.
  intros Hn Ho Hr Hreq.
  assert (Hsum : zsum (sa_reduction_w <$> (full_action <$> pre) ++ [shed_action r x])
                 = required_reduction i).
  { rewrite fmap_app, zsum_app, reductions_full. cbn. rewrite zsum_cons, zsum_nil. lia. }
  assert (Hin : forall l, l ∈ pre ++ x :: post -> l ∈ bi_loads i /\ can_shed now l).
  { intros l. rewrite <- Ho. apply shed_order_elem. }
  constructor; [done|rewrite Hsum; unfold required_reduction; lia|..].
  - apply Forall_app. split.
    + apply Forall_fmap, Forall_forall. intros l Hl. exists l.
      destruct (Hin l) as [? Hc]; [set_solver|]. destruct Hc as (? & ? & ? & ?). cbn. unfold can_shed. split_and!; try done; lia.
    + constructor; [|constructor]. exists x. destruct (Hin x) as [? ?]; [set_solver|]. done.
  - pose proof (shed_order_ids now _ Hn) as Hids. rewrite Ho, fmap_app, fmap_cons in Hids.
    rewrite fmap_app, <- list_fmap_compose. cbn.
    apply NoDup_app in Hids as (H1 & H2 & [H3 _]%NoDup_cons).
    apply NoDup_app. split_and!; [done| |apply NoDup_singleton].
    intros k Hk ->%list_elem_of_singleton. apply (H2 _ Hk). left.
  - intros y l Hy Hl Hc Hlt.
    assert (l ∈ pre ++ x :: post) as Hlo by (rewrite <- Ho; by apply shed_order_elem).
    apply elem_of_app in Hlo as [Hlo|Hlo]; [apply elem_of_app; left; by apply list_elem_of_fmap_2|].
    exfalso. pose proof (shed_order_sorted now (bi_loads i)) as Hs. rewrite Ho in Hs.
    assert (Hle : forall z, z ∈ pre ++ [x] -> ls_priority z <= ls_priority l).
    { intros z [Hz|Hz]%elem_of_app.
      - eapply StronglySorted_app_1_elem_of in Hs; [|exact Hz|exact Hlo]. unfold shed_le in Hs. lia.
      - apply list_elem_of_singleton in Hz as ->.
        apply StronglySorted_app_1_r in Hs. apply StronglySorted_inv in Hs as [_ Hs].
        apply elem_of_cons in Hlo as [->|Hlo]; [lia|].
        rewrite Forall_forall in Hs. specialize (Hs l Hlo). unfold shed_le in Hs. lia. }
    apply elem_of_app in Hy as [Hy|Hy].
    + apply list_elem_of_fmap in Hy as (z & -> & Hz). specialize (Hle z). cbn in Hlt.
      enough (ls_priority z <= ls_priority l) by lia. apply Hle. set_solver.
    + apply list_elem_of_singleton in Hy as ->. cbn in Hlt. specialize (Hle x). 
      enough (ls_priority x <= ls_priority l) by lia. apply Hle. set_solver.
Qed.

Lemma shed_all_safe i now :
  NoDup (ls_load_id <$> bi_loads i) ->
  required_reduction i = zsum (ls_current_w <$> shed_order now (bi_loads i)) ->
  shed_safe i now (full_action <$> shed_order now (bi_loads i)).
Proof.
  intros Hn Hreq. constructor; rewrite ?reductions_full; [done|unfold required_reduction in Hreq; lia|..].
  - apply Forall_fmap, Forall_forall. intros l Hl. exists l. apply shed_order_elem in Hl as [? Hc].
    destruct Hc as (? & ? & ? & ?). cbn. unfold can_shed. split_and!; try done; lia.
  - rewrite <- list_fmap_compose. by apply shed_order_ids.
  - intros x l _ Hl Hc _. apply list_elem_of_fmap_2. by apply shed_order_elem.
Qed.

(** ** Stored previews *)

Lemma actions_restored actions : mapM action_of_json (action_json <$> actions) = Some actions.
Proof. induction actions as [|[] l IH]; cbn; [done|]. by rewrite IH. Qed.

Lemma statuses_restored (l : list (string * string)) :
  mapM status_of_json ((fun kv => (kv.1, JStr kv.2)) <$> l) = Some l.
Proof. induction l as [|[k v] l IH]; cbn; [done|]. by rewrite IH. Qed.

Lemma budget_preview_restored id hash status rev required actions statuses expires :
  budget_preview_of id hash (budget_payload status rev required actions statuses expires)
  = Some {| bp_id := id; bp_status := status; bp_plan_hash := hash; bp_plan_revision := rev;
            bp_required_reduction_w := required; bp_actions := actions;
            bp_provider_status := statuses; bp_override_expires_at := expires |}.
Proof.
  unfold budget_preview_of, budget_payload, statuses_json. rewrite actions_restored.
  cbn [mbind option_bind].
  assert (time_of_json (time_or_null expires) = Some expires) as -> by (by destruct expires).
  cbn [mbind option_bind]. rewrite statuses_restored. cbn [mbind option_bind].
  assert (plan_status_of (plan_status_name status) = Some status) as -> by (by destruct status).
  done.
Qed.

Section theorems.
Context `{UnicodeData}.
Variable sha256 : jval -> string.
Context {J : Journal}.
Local Notation world := (world (P := BudgetPreview)).
Implicit Types w : world.

Definition plan_ready (p : BudgetPreview) : Prop := bp_status p = PlanReady.
Local Notation step := (world_step (J := J) budget_preview_from_row bp_plan_hash
  (budget_planned sha256) plan_ready).
Local Notation reachable := (world_reachable (J := J) budget_preview_from_row bp_plan_hash
  (budget_planned sha256) plan_ready).

(** What [preview] computes when it succeeds. *)
Lemma budget_plan_ok a i validated_at now payload :
  budget_plan a i validated_at now = Ok payload ->
  NoDup (ls_load_id <$> bi_loads i) /\ required_reduction i <= ba_max_shed_w a /\
  exists statuses,
    (override_active now (bi_manual_override i) = true /\
     payload = budget_payload PlanOverridden (ba_plan_revision a) (required_reduction i) [] statuses
                 (mv_expires_at <$> bi_manual_override i)) \/
    (override_active now (bi_manual_override i) = false /\ exists actions,
     payload = budget_payload PlanReady (ba_plan_revision a) (required_reduction i) actions statuses None /\
     shed (required_reduction i) (shed_order now (bi_loads i)) = (actions, 0)).
Proof.
  unfold budget_plan. intros Hp. apply bind_ok in Hp as (statuses & Hv & Hp).
  apply validated_loads in Hv as [Hn _]. inv_ok.
  split; [done|]. split; [lia|]. exists statuses.
  destruct (override_active now (bi_manual_override i)).
  - left. by injection Hp as <-.
  - right. split; [done|]. destruct (shed _ _) as [actions remaining]. inv_ok. passed. subst.
    by exists actions.
Qed.

Lemma shed_is_safe i now actions :
  NoDup (ls_load_id <$> bi_loads i) ->
  shed (required_reduction i) (shed_order now (bi_loads i)) = (actions, 0) -> shed_safe i now actions.
Proof.
  intros Hn Hs. apply shed_spec in Hs; [|unfold required_reduction; lia|apply shed_order_pos].
  destruct Hs as [(pre & x & post & r & Ho & -> & Hr & _ & Hreq)|(-> & Hreq & _ & _)].
  - by eapply shed_prefix_safe.
  - apply shed_all_safe; [done|lia].
Qed.

(** C22 A plan that is ready is exact and safe: the reductions add up to what the
    import exceeds the limit by, so that the import meets the limit; every
    reduction is of a load of the inputs that is neither critical, nor
    uncontrollable, nor held, by no more than it draws, each load at most
    once; and a load is touched only after every load that may be shed and
    has a smaller priority number was switched off completely. *)
Theorem power_shed_exact a i validated_at now payload id hash p :
  budget_plan a i validated_at now = Ok payload -> budget_preview_of id hash payload = Some p ->
  bp_status p = PlanReady ->
  shed_safe i now (bp_actions p) /\ bp_required_reduction_w p = required_reduction i /\
  required_reduction i <= ba_max_shed_w a /\ override_active now (bi_manual_override i) = false.
Proof.
  intros Hp Hr Hst. apply budget_plan_ok in Hp as (Hn & Hmax & statuses & [[_ ->]|(Ho & actions & -> & Hs)]);
    rewrite budget_preview_restored in Hr; injection Hr as <-; [done|].
  cbn. split_and!; try done. by apply shed_is_safe.
Qed.

(** The protection of critical loads is the only reason why inputs that are
    valid get no plan: without an active override there is a plan exactly when
    the loads that may be shed draw at least the required reduction, and with
    one there is always a plan that sheds nothing. *)
Theorem power_plan_exists a i validated_at now statuses :
  budget_validate a i validated_at = Ok statuses ->
  optional override_valid (bi_manual_override i) ->
  required_reduction i <= ba_max_shed_w a ->
  if override_active now (bi_manual_override i) then
    exists payload, budget_plan a i validated_at now = Ok payload /\
      forall id hash p, budget_preview_of id hash payload = Some p ->
        bp_status p = PlanOverridden /\ bp_actions p = []
  else if decide (required_reduction i <=
                  zsum (ls_current_w <$> filter (can_shed now) (bi_loads i)))
  then exists payload, budget_plan a i validated_at now = Ok payload
  else budget_plan a i validated_at now = Raise (ApiError "critical_load_protection" 409).
Proof.
  intros Hv Ho Hmax. unfold budget_plan. rewrite Hv. cbn [mbind res_bind].
  rewrite (raise_if_no (~ optional _ _)) by (intros Hno; by apply Hno).
  rewrite (raise_if_no (_ > _)) by lia. cbn [mbind res_bind].
  destruct (override_active now _).
  { eexists. split; [reflexivity|]. intros id hash p Hp. rewrite budget_preview_restored in Hp.
    by injection Hp as <-. }
  assert (Hperm : zsum (ls_current_w <$> shed_order now (bi_loads i))
                  = zsum (ls_current_w <$> filter (can_shed now) (bi_loads i))).
  { unfold shed_order. by rewrite py_sorted_perm. }
  destruct (shed _ _) as [actions remaining] eqn:Hs.
  apply shed_spec in Hs; [|unfold required_reduction; lia|apply shed_order_pos].
  destruct Hs as [(pre & x & post & r & Hor & -> & Hr & -> & Hreq)|(-> & Hreq & Hun & Hun')].
  - assert (Hle : required_reduction i <= zsum (ls_current_w <$> filter (can_shed now) (bi_loads i))).
    { rewrite <- Hperm, Hor, fmap_app, zsum_app, fmap_cons, zsum_cons.
      pose proof (shed_order_pos now (bi_loads i)) as Hpos. rewrite Hor in Hpos.
      apply Forall_app in Hpos as [_ [_ Hpos]%Forall_cons].
      enough (0 <= zsum (ls_current_w <$> post)) by lia. apply zsum_nonneg, Forall_fmap.
      eapply Forall_impl; [exact Hpos|]. cbn. lia. }
    rewrite decide_True by exact Hle. rewrite raise_if_no by lia. by eexists.
  - rewrite Hperm in Hreq. case_decide as Hd.
    + assert (remaining = 0) as -> by lia. rewrite raise_if_no by lia. by eexists.
    + by rewrite raise_if_yes by lia.
Qed.

(** When the import is within its limit there is nothing to shed, and yet the
    plan is not empty as soon as any load may be shed: its one action tells the
    least important load to keep drawing what it draws. *)
Theorem power_zero_reduction_acts a i validated_at now payload id hash p :
  budget_plan a i validated_at now = Ok payload -> budget_preview_of id hash payload = Some p ->
  bp_status p = PlanReady -> bi_grid_import_w i <= bi_grid_limit_w i ->
  match shed_order now (bi_loads i) with
  | [] => bp_actions p = []
  | l :: _ => bp_actions p = [shed_action 0 l] /\ sa_target_w (shed_action 0 l) = ls_current_w l
  end.
Proof.
  intros Hp Hr Hst Hle. apply budget_plan_ok in Hp as (Hn & Hmax & statuses & [[_ ->]|(Ho & actions & -> & Hs)]);
    rewrite budget_preview_restored in Hr; injection Hr as <-; [done|]. cbn [bp_actions].
  assert (required_reduction i = 0) as E by (unfold required_reduction; lia). rewrite E in Hs.
  pose proof (shed_order_pos now (bi_loads i)) as Hpos.
  destruct (shed_order now (bi_loads i)) as [|l rest]; [by injection Hs as <-|].
  apply Forall_cons in Hpos as [Hl _]. cbn [shed] in Hs. rewrite Z.min_l in Hs by lia.
  rewrite decide_True in Hs by lia. injection Hs as <-. split; [done|]. cbn. lia.
Qed.

(** ** The service on its journal *)

Lemma budget_preview_steps actor a i id t1 t2 audit w :
  rtc step w (budget_preview sha256 actor a i id t1 t2 audit w).2.
Proof.
  unfold budget_preview. rewrite lift_bind. destruct (budget_authorize actor a); [|done].
  rewrite lift_bind. destruct (raise_if _ _); [|done].
  rewrite lift_bind. destruct (budget_plan a i t1 t2) as [payload|] eqn:Hp; [|done].
  apply preview_command_steps. by exists actor, a, i, id, payload, t1, t2.
Qed.

Lemma budget_confirm_steps actor a id cmd hash t1 a1 raises t2 a2 w :
  reachable w -> rtc step w (budget_confirm actor a id cmd hash t1 a1 raises t2 a2 w).2.
Proof.
  intros Hw%world_reachable_inv.
  unfold budget_confirm. rewrite lift_bind. destruct (budget_authorize actor a); [|done].
  rewrite lift_bind. destruct (raise_if _ _); [|done].
  apply confirm_command_steps; [done|]. by intros row p [_ ?].
Qed.

Lemma budget_readback_steps actor a cmd observed t audit w :
  rtc step w (budget_readback actor a cmd observed t audit w).2.
Proof.
  unfold budget_readback. rewrite lift_bind. destruct (budget_authorize actor a); [|done].
  apply rtc_once. constructor.
Qed.

(** Every call of the service, whatever it answers, is a run of the journal's
    steps: no call has an effect on the journal or on the hardware that the
    step relation, with its crashes and interleavings, does not allow. *)
Theorem power_service_refines actor a i id cmd hash t1 t2 a1 a2 raises observed w :
  reachable w ->
  rtc step w (budget_preview sha256 actor a i id t1 t2 a1 w).2 /\
  rtc step w (budget_confirm actor a id cmd hash t1 a1 raises t2 a2 w).2 /\
  rtc step w (budget_readback actor a cmd observed t1 a1 w).2.
Proof.
  intros Hw. split_and!; [apply budget_preview_steps|by apply budget_confirm_steps|apply budget_readback_steps].
Qed.

(** The load controller gets every command at most once, and whatever it gets
    is a plan that [preview] computed for that account from inputs that it had
    validated: ready, within the shedding limit of the authority and safe. *)
Theorem power_sent_plans_safe w :
  reachable w ->
  NoDup (command_of <$> w_sent w) /\
  Forall (fun x => exists a i validated_at now statuses,
    budget_validate a i validated_at = Ok statuses /\
    rv_scope x.1 = budget_scope a /\ bp_status x.2 = PlanReady /\
    required_reduction i <= ba_max_shed_w a /\ shed_safe i now (bp_actions x.2)) (w_sent w).
Proof.
  intros Hw. split; [by apply journal_sent_once in Hw as [? _]|].
  apply Forall_forall. intros x Hx.
  destruct (sent_planned _ _ _ _ w x Hw Hx) as (r & Hr & Hread & _ & Hsc & _ & Hready).
  destruct Hr as (actor & a & i & id & payload & validated_at & now & Hplan & ->).
  exists a, i, validated_at, now.
  pose proof Hplan as Hv. unfold budget_plan in Hv. apply bind_ok in Hv as (statuses & Hv & _).
  exists statuses. unfold budget_preview_from_row in Hread. inv_ok.
  match goal with E : budget_preview_of _ _ _ = Some _ |- _ => cbn in E;
    pose proof (budget_plan_ok _ _ _ _ _ Hplan) as (Hn & Hmax & sts & Hcases) end.
  destruct Hcases as [[_ ->]|(Ho & actions & -> & Hs)];
    match goal with E : budget_preview_of _ _ _ = Some _ |- _ =>
      rewrite budget_preview_restored in E; injection E as E; rewrite <- E in Hready |- * end; [done|].
  split_and!; try done. by apply shed_is_safe.
Qed.
End theorems.

(** ** The read-only gateway

    [power_budget/http.py]; the provider's four answers are arguments. *)

Section gateway.
Context `{UnicodeData} {J : Journal}.
Variable sha256 : jval -> string.
Local Notation world := (world (P := BudgetPreview)).

Definition gateway_preview_id (a : BudgetAuthority) (i : BudgetInputs) : ustr :=
  u ("view-" +:+ sha256 (JObj [("authority", budget_authority_json a);
                               ("inputs", budget_inputs_json i)]%string)).

(** What the provider raises when it fails. *)
Definition provider_call {A} (r : res A) : res A :=
  match r with
  | Raise (ApiError c n) => Raise (ApiError c n)
  | Raise _ => Raise (ApiError "power_provider_unavailable" 503)
  | Ok x => Ok x
  end.

Definition label_ok (l : ustr) : Prop := 1 <= Z.of_nat (length l) <= 120 /\ l = str_strip l.
#[export] Instance label_ok_dec l : Decision (label_ok l).
Proof. unfold label_ok. apply _. Defined.

Record power_snapshot := {
  pw_authority : BudgetAuthority;
  pw_grid_import_w : Z;
  pw_grid_limit_w : Z;
  pw_tariff_micros_per_kwh : Z;
  pw_plan : BudgetPreview;
  pw_actions : list (SheddingAction * ustr);
  pw_capability : string;
}.

(** [snapshot]; [labels] is a [dict] in its order. *)
Definition power_gateway_snapshot (actor : Principal) (authority : res BudgetAuthority)
    (inputs : res BudgetInputs) (labels : res (list (ustr * ustr))) (capability : res string)
    (validated_at now : Z) (audit : string) : M world power_snapshot :=
  a ← lift (provider_call authority);
  i ← lift (provider_call inputs);
  labels ← lift (provider_call labels);
  capability ← lift (provider_call capability);
  let loads := ls_load_id <$> bi_loads i in
  _ ← lift (raise_if (~ (labels.*1 ⊆ loads /\ loads ⊆ labels.*1))
              (ApiError "power_inputs_unverified" 409));
  _ ← lift (raise_if (~ Forall (fun kv => label_ok kv.2) labels)
              (ApiError "power_inputs_unverified" 409));
  _ ← lift (raise_if (capability ∉ ["read_only"; "manual_required"]%string)
              (ApiError "power_capability_unverified" 409));
  p ← budget_preview sha256 actor a i (gateway_preview_id a i) validated_at now audit;
  actions ← lift (require_some
    (mapM (fun x => label ← dict_get labels (sa_load_id x); Some (x, label)) (bp_actions p)) KeyError);
  mret {| pw_authority := a; pw_grid_import_w := bi_grid_import_w i;
          pw_grid_limit_w := bi_grid_limit_w i;
          pw_tariff_micros_per_kwh := bi_tariff_micros_per_kwh i; pw_plan := p;
          pw_actions := actions; pw_capability := capability |}.

Local Notation step := (world_step (J := J) budget_preview_from_row bp_plan_hash
  (budget_planned sha256) plan_ready).

Lemma preview_sends_nothing actor a i id t1 t2 audit w :
  let w' := (budget_preview sha256 actor a i id t1 t2 audit w).2 in
  w_sent w' = w_sent w /\ w_inflight w' = w_inflight w.
Proof.
  unfold budget_preview. rewrite lift_bind. destruct (budget_authorize _ _); [|done].
  rewrite lift_bind. destruct (raise_if _ _); [|done].
  rewrite lift_bind. destruct (budget_plan _ _ _ _); [|done].
  unfold preview_command. by destruct (put_preview _ _ _ _).
Qed.

(** Reading through the gateway is safe: whatever the provider answers or
    raises, the journal makes only the steps of a preview and nothing is
    handed to the load controller. *)
Theorem power_gateway_read_only actor a i labels capability t1 t2 audit w :
  let w' := (power_gateway_snapshot actor a i labels capability t1 t2 audit w).2 in
  rtc step w w' /\ w_sent w' = w_sent w /\ w_inflight w' = w_inflight w.
Proof.
  cbn zeta. unfold power_gateway_snapshot.
  do 4 (rewrite lift_bind; match goal with |- context [provider_call ?r] =>
    destruct (provider_call r); [|done] end).
  do 3 (rewrite lift_bind; destruct (raise_if _ _); [|done]).
  cbv beta iota delta [mbind M_bind].
  match goal with |- context [budget_preview ?s ?x ?y ?z ?i ?t ?t' ?au w] =>
    pose proof (budget_preview_steps s x y z i t t' au w) as Hs;
    pose proof (preview_sends_nothing x y z i t t' au w) as Hn;
    destruct (budget_preview s x y z i t t' au w) as [[p|e] w'] end; [|done].
  unfold lift. by destruct (require_some _ _).
Qed.
End gateway.

(** ** A house with three loads *)

Module PowerExample.
#[local] Instance J : Journal := power_journal (fun domain _ => domain).
Definition plan_digest (_ : jval) : string := "plan".
Definition authority : BudgetAuthority :=
  {| ba_core_id := u "core"; ba_home_id := u "home"; ba_account_id := u "ada";
     ba_session_id := u "tablet"; ba_core_revision := 1; ba_home_revision := 1;
     ba_account_revision := 1; ba_meter_id := u "meter"; ba_meter_revision := 4;
     ba_tariff_revision := 5; ba_load_registry_revision := 6; ba_grid_limit_revision := 7;
     ba_override_revision := 8; ba_plan_revision := 9; ba_max_grid_w := 10000;
     ba_max_shed_w := 5000; ba_can_control := true |}.
Definition ada : Principal :=
  {| p_id := "ada"; p_username := "ada"; p_role := Member; p_must_change_password := false;
     p_family_id := "tablet"; p_token_id := "t" |}.
Definition load (id : string) (priority current : Z) (critical : bool) : LoadState :=
  {| ls_load_id := u id; ls_revision := 2; ls_priority := priority; ls_current_w := current;
     ls_critical := critical; ls_controllable := true; ls_hold_until := 0 |}.
Definition inputs (import : Z) (override : option ManualOverride) : BudgetInputs :=
  {| bi_meter_revision := 4; bi_tariff_revision := 5; bi_load_registry_revision := 6;
     bi_grid_limit_revision := 7; bi_override_revision := 8; bi_grid_limit_w := 4000;
     bi_grid_import_w := import; bi_tariff_micros_per_kwh := 300000;
     bi_provider_states :=
       [{| ps_name := "tariff"; ps_revision := 5; ps_status := "verified"; ps_observed_at := seconds 90 |};
        {| ps_name := "meter"; ps_revision := 4; ps_status := "verified"; ps_observed_at := seconds 99 |}];
     bi_loads := [load "fridge" 0 200 true; load "oven" 20 2500 false; load "pool" 10 800 false];
     bi_manual_override := override |}.
Definition now : Z := seconds 100.

Definition plan_for (import : Z) (override : option ManualOverride) : res jval :=
  budget_plan authority (inputs import override) now now.
Definition payload_for (import : Z) : jval :=
  match plan_for import None with Ok v => v | Raise _ => JNull end.
Definition preview_for (import : Z) : BudgetPreview :=
  {| bp_id := u "p1"; bp_status := PlanReady; bp_plan_hash := "plan"; bp_plan_revision := 9;
     bp_required_reduction_w := Z.max 0 (import - 4000);
     bp_actions := (shed (Z.max 0 (import - 4000))
                      [load "pool" 10 800 false; load "oven" 20 2500 false]).1;
     bp_provider_status := [("meter", "verified"); ("tariff", "verified")]%string;
     bp_override_expires_at := None |}.

(** 1100 W too many: the pool pump goes off, the oven is reduced by 300 W. *)
Lemma power_shed_exact_witness :
  shed_safe (inputs 5100 None) now
    [shed_action 800 (load "pool" 10 800 false); shed_action 300 (load "oven" 20 2500 false)].
Proof.
  apply (power_shed_exact authority (inputs 5100 None) now now (payload_for 5100) (u "p1") "plan"
    (preview_for 5100)); [vm_compute; reflexivity..|reflexivity].
Defined.

Lemma power_plan_exists_witness :
  (exists payload, plan_for 5100 None = Ok payload) /\
  plan_for 7400 None = Raise (ApiError "critical_load_protection" 409).
Proof.
  split.
  - apply (power_plan_exists authority (inputs 5100 None) now now
      [("meter", "verified"); ("tariff", "verified")]%string); [vm_compute; reflexivity|done|].
    vm_compute. done.
  - apply (power_plan_exists authority (inputs 7400 None) now now
      [("meter", "verified"); ("tariff", "verified")]%string); [vm_compute; reflexivity|done|].
    vm_compute. done.
Defined.

Lemma power_zero_reduction_acts_witness :
  bp_actions (preview_for 4000) = [shed_action 0 (load "pool" 10 800 false)].
Proof.
  apply (power_zero_reduction_acts authority (inputs 4000 None) now now (payload_for 4000) (u "p1") "plan"
    (preview_for 4000)); [vm_compute; reflexivity..|vm_compute; discriminate].
Defined.

Local Notation world := (world (P := BudgetPreview)).
Local Notation step := (world_step (J := J) budget_preview_from_row bp_plan_hash
  (budget_planned plan_digest) plan_ready).
Local Notation reachable := (world_reachable (J := J) budget_preview_from_row bp_plan_hash
  (budget_planned plan_digest) plan_ready).
Definition w1 : world :=
  (budget_preview plan_digest ada authority (inputs 5100 None) (u "p1") now now "a1" new_world).2.
Definition confirmed (cmd a1 a2 : string) : M world CommandReceipt :=
  budget_confirm ada authority (u "p1") (u cmd) "plan" (seconds 101) a1 false (seconds 102) a2.
Definition w2 : world := (confirmed "c1" "a2" "a3" w1).2.

Lemma power_previewed_reachable : reachable w1.
Proof. apply budget_preview_steps. Qed.
Lemma power_confirmed_reachable : reachable w2.
Proof.
  unfold world_reachable. transitivity w1; [apply power_previewed_reachable|].
  apply budget_confirm_steps, power_previewed_reachable.
Qed.

Lemma power_service_refines_witness : rtc step w1 w2 /\ length (w_sent w2) = 1%nat.
Proof.
  split; [|vm_compute; reflexivity].
  apply (power_service_refines plan_digest ada authority (inputs 5100 None) (u "p1") (u "c1") "plan"
    (seconds 101) (seconds 102) "a2" "a3" false (Ok None) w1 power_previewed_reachable).
Defined.

Lemma power_sent_plans_safe_witness :
  NoDup (command_of <$> w_sent w2) /\ fmap snd (w_sent w2) = [preview_for 5100].
Proof.
  split; [apply (power_sent_plans_safe plan_digest w2 power_confirmed_reachable)|vm_compute; reflexivity].
Defined.

Definition labels : list (ustr * ustr) :=
  [(u "fridge", u "Fridge"); (u "oven", u "Oven"); (u "pool", u "Pool pump")].
Example gateway_answers :
  is_ok (power_gateway_snapshot plan_digest ada (Ok authority) (Ok (inputs 5100 None)) (Ok labels)
           (Ok "read_only"%string) now now "a1" new_world).1 = true.
Proof. vm_compute. reflexivity. Qed.

(** A preview is good for any number of commands: under another identity the
    same plan is handed over again. *)
Example same_plan_twice :
  fmap snd (w_sent (confirmed "c2" "b2" "b3" w2).2) = [preview_for 5100; preview_for 5100].
Proof. vm_compute. reflexivity. Qed.

(** Previews and commands share one column of the audit events: a preview
    under the identity of a verified command turns its status to uncertain. *)
Definition w3 : world :=
  (budget_readback ada authority (u "c1") (Ok (Some "plan"%string)) (seconds 103) "a4" w2).2.
Definition w4 : world :=
  (budget_preview plan_digest ada authority (inputs 5100 None) (u "c1") now now "a5" w3).2.
Example preview_hides_verification :
  command_status (budget_scope authority) (u "c1") (w_db w3) = Ok CmdVerified /\
  command_status (budget_scope authority) (u "c1") (w_db w4) = Ok CmdUncertain.
Proof. vm_compute. split; reflexivity. Qed.
End PowerExample.
