(* ===== verification/EvCharge.v ===== *)
(** * Electric vehicle charging

    [server/larenor_server/ev_charging/service.py]: [preview] plans at which
    current a car charges in which tariff slots until it leaves; [confirm]
    hands the plan to the charger once and [readback] compares what the
    charger reports with the plan's hash.  [ev_charging/runtime.py] puts the
    session checks of [Auth.v] and the provider's facts before it.  The store
    is the signed journal of [CommandJournal.v], with at most one command for a
    preview; provider states and plan statuses are those of [PowerBudget.v].

    Times are on the grid of [Prelude.v].  On it the duration of a slot is
    exact, its product with a power below 2^16 W has at most 50 bits, and a
    quotient by 3600 that is not an integer is more than 2^-34 away from one,
    so the floors of the source's doubles are the floors of the exact values;
    the other two quotients are of integers below 2^26. *)

From S2P Require Import Prelude Auth CommandJournal PowerBudget.

Definition MAX_SLOTS : Z := 192.
Definition PROVIDERS : list string := ["tariff"; "solar"; "power_budget"]%string.

(** ** Contracts *)

Record ChargeAuthority := {
  ca_core_id : ustr;
  ca_home_id : ustr;
  ca_account_id : ustr;
  ca_session_id : ustr;
  ca_core_revision : Z;
  ca_home_revision : Z;
  ca_account_revision : Z;
  ca_charger_id : ustr;
  ca_charger_revision : Z;
  ca_tariff_revision : Z;
  ca_solar_revision : Z;
  ca_power_budget_revision : Z;
  ca_override_revision : Z;
  ca_schedule_revision : Z;
  ca_max_current_amp : Z;
  ca_voltage : Z;
  ca_max_session_wh : Z;
  ca_can_control : bool;
}.

(** [__post_init__] *)
Definition ChargeAuthority_valid `{UnicodeData} (a : ChargeAuthority) : Prop :=
  Forall _identifier
    [ca_core_id a; ca_home_id a; ca_account_id a; ca_session_id a; ca_charger_id a] /\
  Forall positive_revision
    [ca_core_revision a; ca_home_revision a; ca_account_revision a; ca_charger_revision a;
     ca_tariff_revision a; ca_solar_revision a; ca_power_budget_revision a;
     ca_override_revision a; ca_schedule_revision a] /\
  1 <= ca_max_current_amp a <= 80 /\ 100 <= ca_voltage a <= 500 /\
  1 <= ca_max_session_wh a <= 500000.
#[export] Instance ChargeAuthority_valid_dec `{UnicodeData} a : Decision (ChargeAuthority_valid a).
Proof. unfold ChargeAuthority_valid. apply _. Defined.

Record EnergySlot := {
  es_start_at : Z;
  es_end_at : Z;
  es_tariff_micros_per_kwh : Z;
  es_solar_surplus_w : Z;
  es_home_budget_w : Z;
}.
#[export] Instance EnergySlot_eq_dec : EqDecision EnergySlot.
Proof. solve_decision. Defined.
Record ManualOverride := {
  co_expires_at : Z;
  co_max_current_amp : Z;
  co_reason : ustr;
}.
Record EnergyInputs := {
  ci_tariff_revision : Z;
  ci_solar_revision : Z;
  ci_power_budget_revision : Z;
  ci_override_revision : Z;
  ci_provider_states : list ProviderState;
  ci_slots : list EnergySlot;
  ci_manual_override : option ManualOverride;
}.
Record ChargeGoal := {
  cg_departure_at : Z;
  cg_current_soc : Z;
  cg_minimum_soc : Z;
  cg_target_soc : Z;
  cg_battery_capacity_wh : Z;
  cg_max_current_amp : Z;
}.
Record PlannedChargeSlot := {
  pc_start_at : Z;
  pc_end_at : Z;
  pc_current_amp : Z;
  pc_energy_wh : Z;
  pc_tariff_micros_per_kwh : Z;
  pc_solar_surplus_w : Z;
}.
#[export] Instance PlannedChargeSlot_eq_dec : EqDecision PlannedChargeSlot.
Proof. solve_decision. Defined.
Record ChargePreview := {
  cp_id : ustr;
  cp_status : plan_status;
  cp_plan_hash : string;
  cp_authority_hash : string;
  cp_charger_revision : Z;
  cp_schedule_revision : Z;
  cp_tariff_revision : Z;
  cp_power_budget_revision : Z;
  cp_required_wh : Z;
  cp_slots : list PlannedChargeSlot;
  cp_provider_status : list (string * string);
  cp_override_expires_at : option Z;
}.

(** ** JSON *)

(** [asdict(authority)], its keys sorted *)
Definition charge_authority_json (a : ChargeAuthority) : jval :=
  JObj [("account_id", JText (ca_account_id a)); ("account_revision", JInt (ca_account_revision a));
        ("can_control", JBool (ca_can_control a)); ("charger_id", JText (ca_charger_id a));
        ("charger_revision", JInt (ca_charger_revision a)); ("core_id", JText (ca_core_id a));
        ("core_revision", JInt (ca_core_revision a)); ("home_id", JText (ca_home_id a));
        ("home_revision", JInt (ca_home_revision a));
        ("max_current_amp", JInt (ca_max_current_amp a));
        ("max_session_wh", JInt (ca_max_session_wh a));
        ("override_revision", JInt (ca_override_revision a));
        ("power_budget_revision", JInt (ca_power_budget_revision a));
        ("schedule_revision", JInt (ca_schedule_revision a));
        ("session_id", JText (ca_session_id a)); ("solar_revision", JInt (ca_solar_revision a));
        ("tariff_revision", JInt (ca_tariff_revision a)); ("voltage", JInt (ca_voltage a))]%string.
Definition goal_json (g : ChargeGoal) : jval :=
  JObj [("battery_capacity_wh", JInt (cg_battery_capacity_wh g));
        ("current_soc", JInt (cg_current_soc g)); ("departure_at", JTime (cg_departure_at g));
        ("max_current_amp", JInt (cg_max_current_amp g));
        ("minimum_soc", JInt (cg_minimum_soc g)); ("target_soc", JInt (cg_target_soc g))]%string.
Definition slot_json (s : EnergySlot) : jval :=
  JObj [("end_at", JTime (es_end_at s)); ("home_budget_w", JInt (es_home_budget_w s));
        ("solar_surplus_w", JInt (es_solar_surplus_w s)); ("start_at", JTime (es_start_at s));
        ("tariff_micros_per_kwh", JInt (es_tariff_micros_per_kwh s))]%string.
Definition charge_override_json (o : option ManualOverride) : jval :=
  match o with
  | Some v => JObj [("expires_at", JTime (co_expires_at v));
                    ("max_current_amp", JInt (co_max_current_amp v));
                    ("reason", JText (co_reason v))]%string
  | None => JNull
  end.
Definition charge_inputs_json (i : EnergyInputs) : jval :=
  JObj [("manual_override", charge_override_json (ci_manual_override i));
        ("override_revision", JInt (ci_override_revision i));
        ("power_budget_revision", JInt (ci_power_budget_revision i));
        ("provider_states", JList (provider_json <$> ci_provider_states i));
        ("slots", JList (slot_json <$> ci_slots i));
        ("solar_revision", JInt (ci_solar_revision i));
        ("tariff_revision", JInt (ci_tariff_revision i))]%string.
Definition planned_json (s : PlannedChargeSlot) : jval :=
  JObj [("current_amp", JInt (pc_current_amp s)); ("end_at", JTime (pc_end_at s));
        ("energy_wh", JInt (pc_energy_wh s)); ("solar_surplus_w", JInt (pc_solar_surplus_w s));
        ("start_at", JTime (pc_start_at s));
        ("tariff_micros_per_kwh", JInt (pc_tariff_micros_per_kwh s))]%string.

(** The payload of a plan. *)
Definition charge_payload (a : ChargeAuthority) (authority_hash : string) (status : plan_status)
    (required : Z) (slots : list PlannedChargeSlot) (statuses : list (string * string))
    (expires : option Z) : jval :=
  JObj [("authority_hash", JStr authority_hash);
        ("charger_revision", JInt (ca_charger_revision a));
        ("override_expires_at", time_or_null expires);
        ("power_budget_revision", JInt (ca_power_budget_revision a));
        ("provider_status", statuses_json statuses); ("required_wh", JInt required);
        ("schedule_revision", JInt (ca_schedule_revision a));
        ("slots", JList (planned_json <$> slots)); ("status", JStr (plan_status_name status));
        ("tariff_revision", JInt (ca_tariff_revision a))]%string.

Definition planned_of_json (v : jval) : option PlannedChargeSlot :=
  match v with
  | JObj [("current_amp", JInt amp); ("end_at", JTime stop); ("energy_wh", JInt energy);
          ("solar_surplus_w", JInt solar); ("start_at", JTime start);
          ("tariff_micros_per_kwh", JInt tariff)]%string =>
      Some {| pc_start_at := start; pc_end_at := stop; pc_current_amp := amp; pc_energy_wh := energy;
              pc_tariff_micros_per_kwh := tariff; pc_solar_surplus_w := solar |}
  | _ => None
  end.

(** [ChargePreview(id=..., plan_hash=..., slots=..., **value)]; as for the power
    budget, a field of a foreign type is refused here. *)
Definition charge_preview_of (id : ustr) (plan_hash : string) (v : jval) : option ChargePreview :=
  match v with
  | JObj [("authority_hash", JStr authority_hash); ("charger_revision", JInt charger);
          ("override_expires_at", expires); ("power_budget_revision", JInt budget);
          ("provider_status", JObj statuses); ("required_wh", JInt required);
          ("schedule_revision", JInt schedule); ("slots", JList slots); ("status", JStr status);
          ("tariff_revision", JInt tariff)]%string =>
      slots ← mapM planned_of_json slots;
      expires ← time_of_json expires;
      statuses ← mapM status_of_json statuses;
      status ← plan_status_of status;
      Some {| cp_id := id; cp_status := status; cp_plan_hash := plan_hash;
              cp_authority_hash := authority_hash; cp_charger_revision := charger;
              cp_schedule_revision := schedule; cp_tariff_revision := tariff;
              cp_power_budget_revision := budget; cp_required_wh := required; cp_slots := slots;
              cp_provider_status := statuses; cp_override_expires_at := expires |}
  | _ => None
  end.

(** ** Validation *)

(** [_authorize] *)
Definition charge_authorize (actor : Principal) (a : ChargeAuthority) : res unit :=
  _ ← raise_if (u (p_id actor) <> ca_account_id a \/ u (p_family_id actor) <> ca_session_id a)
        (ApiError "energy_authority_changed" 409);
  raise_if (p_role actor <> Admin /\ ca_can_control a = false) (ApiError "forbidden" 403).

(** [_scope] *)
Definition charge_scope (a : ChargeAuthority) : journal_scope :=
  (ca_core_id a, ca_home_id a, ca_charger_id a).

Definition charge_expected_revision (a : ChargeAuthority) (name : string) : Z :=
  if decide (name = "tariff"%string) then ca_tariff_revision a
  else if decide (name = "solar"%string) then ca_solar_revision a else ca_power_budget_revision a.

(** [_verified_providers] *)
Definition verified_providers (a : ChargeAuthority) (i : EnergyInputs) (now : Z)
  : res (list (string * string)) :=
  _ ← raise_if (ci_tariff_revision i <> ca_tariff_revision a \/
                ci_solar_revision i <> ca_solar_revision a \/
                ci_power_budget_revision i <> ca_power_budget_revision a \/
                ci_override_revision i <> ca_override_revision a)
        (ApiError "energy_authority_changed" 409);
  let states := dict_of ps_name id (ci_provider_states i) in
  _ ← raise_if (length (ci_provider_states i) <> length PROVIDERS \/
                ~ (dict_keys states ⊆ PROVIDERS /\ PROVIDERS ⊆ dict_keys states) \/
                ~ Forall (fun kv => provider_verified now (charge_expected_revision a kv.1) kv.2) states)
        (ApiError "energy_inputs_unverified" 409);
  Ok ((fun kv => (kv.1, ps_status kv.2)) <$> py_sorted (fun x y => str_le x.1 y.1) states).

Definition goal_ok (a : ChargeAuthority) (g : ChargeGoal) (now : Z) : Prop :=
  0 <= cg_current_soc g <= cg_minimum_soc g /\ cg_minimum_soc g <= cg_target_soc g <= 100 /\
  1 <= cg_battery_capacity_wh g <= 500000 /\
  1 <= cg_max_current_amp g <= ca_max_current_amp a /\ now < cg_departure_at g.
#[export] Instance goal_ok_dec a g now : Decision (goal_ok a g now).
Proof. unfold goal_ok. apply _. Defined.

Definition slot_ok (g : ChargeGoal) (now previous_end : Z) (s : EnergySlot) : Prop :=
  0 <= es_tariff_micros_per_kwh s <= 10000000 /\ 0 <= es_solar_surplus_w s <= 100000 /\
  0 <= es_home_budget_w s <= 100000 /\ now <= es_start_at s /\ previous_end <= es_start_at s /\
  es_start_at s < es_end_at s /\ es_end_at s - es_start_at s <= seconds 3600 /\
  es_end_at s <= cg_departure_at g.
#[export] Instance slot_ok_dec g now e s : Decision (slot_ok g now e s).
Proof. unfold slot_ok. apply _. Defined.

(** One iteration over the slots. *)
Definition check_slot (g : ChargeGoal) (now previous_end : Z) (s : EnergySlot) : res Z :=
  _ ← raise_if (~ slot_ok g now previous_end s) (ApiError "energy_inputs_unverified" 409);
  Ok (es_end_at s).

(** [_validate_inputs]; the clock is read for the providers and again. *)
Definition charge_validate (a : ChargeAuthority) (i : EnergyInputs) (g : ChargeGoal)
    (providers_at now : Z) : res (list (string * string)) :=
  statuses ← verified_providers a i providers_at;
  _ ← raise_if (~ goal_ok a g now) (ApiError "charge_safety_limit" 400);
  _ ← raise_if (~ (1 <= Z.of_nat (length (ci_slots i)) <= MAX_SLOTS))
        (ApiError "energy_inputs_unverified" 409);
  _ ← fold_res (check_slot g now) now (ci_slots i);
  Ok statuses.

(** ** Planning *)

(** [key=lambda slot: (slot.tariff_micros_per_kwh, -slot.solar_surplus_w, slot.start_at)] *)
Definition slot_le (a b : EnergySlot) : Prop :=
  es_tariff_micros_per_kwh a < es_tariff_micros_per_kwh b \/
  (es_tariff_micros_per_kwh a = es_tariff_micros_per_kwh b /\
   (es_solar_surplus_w b < es_solar_surplus_w a \/
    (es_solar_surplus_w a = es_solar_surplus_w b /\ es_start_at a <= es_start_at b))).
#[export] Instance slot_le_dec a b : Decision (slot_le a b).
Proof. unfold slot_le. apply _. Defined.

(** [current_amp] *)
Definition slot_amp (a : ChargeAuthority) (g : ChargeGoal) (s : EnergySlot) : Z :=
  let max_power := cg_max_current_amp g * ca_voltage a in
  let available_power := Z.min max_power (es_home_budget_w s + es_solar_surplus_w s) in
  Z.min (cg_max_current_amp g) (available_power / ca_voltage a).

(** [capacity_wh], for a slot that charges at [amp]. *)
Definition slot_capacity (a : ChargeAuthority) (amp : Z) (s : EnergySlot) : Z :=
  amp * ca_voltage a * (es_end_at s - es_start_at s) / seconds 3600.

Definition planned_slot (amp energy : Z) (s : EnergySlot) : PlannedChargeSlot :=
  {| pc_start_at := es_start_at s; pc_end_at := es_end_at s; pc_current_amp := amp;
     pc_energy_wh := energy; pc_tariff_micros_per_kwh := es_tariff_micros_per_kwh s;
     pc_solar_surplus_w := es_solar_surplus_w s |}.

(** The loop over the ordered slots: the planned slots and what remains. *)
Fixpoint charge_slots (a : ChargeAuthority) (g : ChargeGoal) (remaining : Z) (ordered : list EnergySlot)
  : list PlannedChargeSlot * Z :=
  match ordered with
  | [] => ([], remaining)
  | s :: rest =>
      let amp := slot_amp a g s in
      if decide (amp <= 0) then charge_slots a g remaining rest else
      let energy := Z.min remaining (slot_capacity a amp s) in
      if decide (energy <= 0) then charge_slots a g remaining rest else
      let remaining := remaining - energy in
      if decide (remaining = 0) then ([planned_slot amp energy s], 0)
      else let '(slots, unmet) := charge_slots a g remaining rest in
           (planned_slot amp energy s :: slots, unmet)
  end.

Definition charge_override_valid (a : ChargeAuthority) (o : ManualOverride) : Prop :=
  1 <= co_max_current_amp o <= ca_max_current_amp a /\
  1 <= Z.of_nat (length (co_reason o)) <= 200.
#[export] Instance charge_override_valid_dec a o : Decision (charge_override_valid a o).
Proof. unfold charge_override_valid. apply _. Defined.

Definition charge_overridden (now : Z) (o : option ManualOverride) : bool :=
  match o with Some v => now <? co_expires_at v | None => false end.

(** [math.ceil(capacity * (target - current) / 100)] *)
Definition required_energy (g : ChargeGoal) : Z :=
  - (- (cg_battery_capacity_wh g * (cg_target_soc g - cg_current_soc g)) / 100).

(** [preview] up to the transaction: the payload of the plan. *)
Definition charge_plan (a : ChargeAuthority) (authority_hash : string) (i : EnergyInputs)
    (g : ChargeGoal) (providers_at validated_at now : Z) : res jval :=
  statuses ← charge_validate a i g providers_at validated_at;
  _ ← raise_if (~ optional (charge_override_valid a) (ci_manual_override i))
        (ApiError "charge_safety_limit" 400);
  let required := required_energy g in
  _ ← raise_if (required > ca_max_session_wh a) (ApiError "charge_safety_limit" 400);
  if charge_overridden now (ci_manual_override i) then
    Ok (charge_payload a authority_hash PlanOverridden required [] statuses
          (co_expires_at <$> ci_manual_override i))
  else
    let '(slots, remaining) := charge_slots a g required (py_sorted slot_le (ci_slots i)) in
    _ ← raise_if (remaining <> 0) (ApiError "charge_target_unreachable" 409);
    Ok (charge_payload a authority_hash PlanReady required slots statuses None).

(** ** What the planner plans *)

(** What a slot can take: at whole amperes within the home's budget, and in
    whole watt hours. *)
Definition usable (a : ChargeAuthority) (g : ChargeGoal) (s : EnergySlot) : Z :=
  if decide (slot_amp a g s <= 0) then 0 else Z.max 0 (slot_capacity a (slot_amp a g s) s).

Definition chosen_slots (a : ChargeAuthority) (g : ChargeGoal) (chosen : list (EnergySlot * Z))
  : list PlannedChargeSlot :=
  (fun x => planned_slot (slot_amp a g x.1) x.2 x.1) <$> chosen.

Lemma charge_slots_spec a g ordered : forall r ps unmet,
  0 <= r -> charge_slots a g r ordered = (ps, unmet) ->
  exists chosen, ps = chosen_slots a g chosen /\ chosen.*1 `sublist_of` ordered /\
    Forall (fun x => 0 < slot_amp a g x.1 /\ 0 < x.2 <= slot_capacity a (slot_amp a g x.1) x.1) chosen /\
    zsum (chosen.*2) + unmet = r /\ 0 <= unmet.
Proof.
  induction ordered as [|s rest IH]; intros r ps unmet Hr Hs; cbn in Hs.
  { injection Hs as <- <-. exists []. split_and!; try done; constructor. }
  assert (Hskip : charge_slots a g r rest = (ps, unmet) -> exists chosen,
    ps = chosen_slots a g chosen /\ chosen.*1 `sublist_of` s :: rest /\
    Forall (fun x => 0 < slot_amp a g x.1 /\ 0 < x.2 <= slot_capacity a (slot_amp a g x.1) x.1) chosen /\
    zsum (chosen.*2) + unmet = r /\ 0 <= unmet).
  { intros H. apply IH in H as (ch & ? & ? & ?); [|done]. exists ch. split_and!; try done; try tauto. by constructor. }
  case_decide as Ha; [by apply Hskip|]. case_decide as He; [by apply Hskip|]. clear Hskip.
  case_decide as Hd.
  - injection Hs as <- <-. exists [(s, Z.min r (slot_capacity a (slot_amp a g s) s))]. cbn.
    split_and!; [done|by repeat constructor; apply sublist_nil_l| | |done].
    + constructor; [|constructor]. cbn. lia.
    + rewrite zsum_cons, zsum_nil. lia.
  - destruct (charge_slots a g _ rest) as [ps' u'] eqn:E. injection Hs as <- <-.
    apply IH in E as (ch & -> & Hsub & Hf & Hsum & Hu); [|lia].
    exists ((s, Z.min r (slot_capacity a (slot_amp a g s) s)) :: ch). cbn [fmap list_fmap fst snd].
    split_and!; [done|by constructor| |rewrite zsum_cons; lia|done].
    constructor; [|done]. cbn. lia.
Qed.

Definition slot_cost (alloc : EnergySlot -> Z) (s : EnergySlot) : Z :=
  es_tariff_micros_per_kwh s * alloc s.
Definition plan_cost (ps : list PlannedChargeSlot) : Z :=
  zsum ((fun p => pc_tariff_micros_per_kwh p * pc_energy_wh p) <$> ps).

Lemma cost_above alloc t l :
  Forall (fun s => t <= es_tariff_micros_per_kwh s) l -> Forall (fun s => 0 <= alloc s) l ->
  t * zsum (alloc <$> l) <= zsum (slot_cost alloc <$> l).
Proof.
  induction l as [|s l IH]; [cbn; rewrite zsum_nil; lia|]. intros [Ht1 Ht2]%Forall_cons [H1 H2]%Forall_cons.
  cbn. rewrite !zsum_cons. specialize (IH Ht2 H2). unfold slot_cost at 1. nia.
Qed.

(** The cheapest slots first is the cheapest choice: filling the slots in their
    order costs no more than any other way to get at least as much. *)
Lemma greedy_cheapest a g alloc ordered : forall r t ps unmet,
  StronglySorted slot_le ordered -> Forall (fun s => 0 <= alloc s <= usable a g s) ordered ->
  Forall (fun s => t <= es_tariff_micros_per_kwh s) ordered -> 0 <= r ->
  r <= zsum (alloc <$> ordered) -> charge_slots a g r ordered = (ps, unmet) ->
  unmet = 0 /\ plan_cost ps + t * (zsum (alloc <$> ordered) - r) <= zsum (slot_cost alloc <$> ordered).
Proof.
  induction ordered as [|s rest IH]; intros r t ps unmet Hs Ha Ht Hr Hle Hps.
  { cbn in Hps. injection Hps as <- <-. cbn in *. rewrite zsum_nil in *. unfold plan_cost. cbn.
    rewrite zsum_nil. assert (r = 0) as -> by lia. lia. }
  apply StronglySorted_inv in Hs as [Hs Hsle].
  apply Forall_cons in Ha as [Hx Ha]. apply Forall_cons in Ht as [Ht1 Ht].
  assert (Hts : Forall (fun y => es_tariff_micros_per_kwh s <= es_tariff_micros_per_kwh y) rest).
  { eapply Forall_impl; [exact Hsle|]. unfold slot_le. intros; lia. }
  assert (H0 : Forall (fun s => 0 <= alloc s) rest) by (eapply Forall_impl; [exact Ha|]; cbn; lia).
  pose proof (cost_above alloc _ rest Hts H0) as Hlow.
  assert (Hpos : 0 <= zsum (alloc <$> rest)) by (by apply zsum_nonneg, Forall_fmap).
  cbn in Hle, Hps |- *. rewrite !zsum_cons in *. unfold slot_cost at 1.
  unfold usable in Hx. case_decide as Hamp.
  { destruct (IH r t ps unmet Hs Ha Ht Hr ltac:(lia) Hps) as [? Hc]. split; [done|]. nia. }
  case_decide as He.
  { assert (r <= zsum (alloc <$> rest)) by lia.
    destruct (IH r t ps unmet Hs Ha Ht Hr ltac:(lia) Hps) as [? Hc]. split; [done|]. nia. }
  case_decide as Hd.
  - injection Hps as <- <-. split; [done|]. unfold plan_cost. cbn. rewrite zsum_cons, zsum_nil. nia.
  - destruct (charge_slots a g _ rest) as [ps' u'] eqn:E. injection Hps as <- <-.
    destruct (fun Hr' Hle' => IH _ (es_tariff_micros_per_kwh s) ps' u' Hs Ha Hts Hr' Hle' E) as [? Hc];
      [lia..|]. split; [done|].
    unfold plan_cost in *. cbn. rewrite zsum_cons. nia.
Qed.

(** A plan the installation can carry out: every planned slot is one of the
    inputs' slots, each at most once, charges at a whole current that neither
    the goal nor the home's budget and solar surplus forbid, and takes no more
    energy than that current gives in its time. *)
Definition realises (a : ChargeAuthority) (g : ChargeGoal) (p : PlannedChargeSlot) (s : EnergySlot)
  : Prop :=
  pc_start_at p = es_start_at s /\ pc_end_at p = es_end_at s /\
  pc_tariff_micros_per_kwh p = es_tariff_micros_per_kwh s /\
  0 <= pc_current_amp p <= cg_max_current_amp g /\
  pc_current_amp p * ca_voltage a <= es_home_budget_w s + es_solar_surplus_w s /\
  0 <= pc_energy_wh p /\
  pc_energy_wh p * seconds 3600 <= pc_current_amp p * ca_voltage a * (es_end_at s - es_start_at s).
Definition charge_safe (a : ChargeAuthority) (g : ChargeGoal) (slots : list EnergySlot)
    (ps : list PlannedChargeSlot) : Prop :=
  Forall (fun p => exists s, s ∈ slots /\ realises a g p s) ps /\ NoDup (pc_start_at <$> ps).

(** Slots as [_validate_inputs] leaves them: in the order of time. *)
Definition slots_ordered (slots : list EnergySlot) : Prop :=
  StronglySorted (fun x y => es_end_at x <= es_start_at y) slots /\
  Forall (fun s => es_start_at s < es_end_at s) slots.

Lemma checked_slots g now slots : forall from until,
  fold_res (check_slot g now) from slots = Ok until ->
  slots_ordered slots /\ Forall (fun s => from <= es_start_at s) slots /\
  Forall (fun s => slot_ok g now (es_start_at s) s) slots.
Proof.
  induction slots as [|s slots IH]; intros from until Hf.
  { repeat split; constructor. }
  cbn in Hf. apply bind_ok in Hf as (e & Hs & Hf). unfold check_slot in Hs. inv_ok. passed.
  apply IH in Hf as ([Hss Hpos] & Hfrom & Hok).
  match goal with H : slot_ok _ _ _ _ |- _ => destruct H as (? & ? & ? & ? & ? & ? & ? & ?) end.
  split; [split; by constructor|split].
  - constructor; [done|]. eapply Forall_impl; [exact Hfrom|]. cbn. lia.
  - constructor; [|done]. unfold slot_ok. lia.
Qed.

Lemma ordered_starts slots : slots_ordered slots -> NoDup (es_start_at <$> slots).
Proof.
  intros [Hs Hpos]. induction Hs as [|s l Hs IH Hl]; [apply NoDup_nil_2|].
  apply Forall_cons in Hpos as [Hp Hpos]. cbn. apply NoDup_cons. split; [|by apply IH].
  intros (y & E & Hy)%list_elem_of_fmap. rewrite Forall_forall in Hl. specialize (Hl y Hy). lia.
Qed.

Lemma start_inj slots x y :
  slots_ordered slots -> x ∈ slots -> y ∈ slots -> es_start_at x = es_start_at y -> x = y.
Proof. intros Hs Hx Hy. by apply (nodup_column_inj es_start_at _ _ _ (ordered_starts _ Hs)). Qed.

(** What a plan takes in a slot. *)
Definition taken (ps : list PlannedChargeSlot) (s : EnergySlot) : Z :=
  zsum (pc_energy_wh <$> filter (fun p => pc_start_at p = es_start_at s) ps).

Lemma amp_bound a g s amp :
  100 <= ca_voltage a -> 0 <= amp <= cg_max_current_amp g ->
  amp * ca_voltage a <= es_home_budget_w s + es_solar_surplus_w s -> amp <= slot_amp a g s.
Proof.
  intros Hv Ha Hb. unfold slot_amp. apply Z.min_glb; [lia|]. apply Z.div_le_lower_bound; [lia|]. nia.
Qed.

Lemma realises_usable a g p s :
  100 <= ca_voltage a -> es_start_at s < es_end_at s -> realises a g p s ->
  0 <= pc_energy_wh p <= usable a g s.
Proof.
  intros Hv Ht (_ & _ & _ & Ha & Hb & He & Hcap). split; [done|].
  pose proof (amp_bound a g s _ Hv Ha Hb) as Hle. unfold usable.
  assert (0 < seconds 3600) as Hsec by done.
  case_decide as Hneg.
  - assert (pc_current_amp p = 0) as E by lia. rewrite E, !Z.mul_0_l in Hcap.
    apply (Z.mul_le_mono_pos_r _ _ (seconds 3600)); lia.
  - etrans; [|apply Z.le_max_r]. unfold slot_capacity. apply Z.div_le_lower_bound; [lia|].
    assert (pc_current_amp p * ca_voltage a * (es_end_at s - es_start_at s)
            <= slot_amp a g s * ca_voltage a * (es_end_at s - es_start_at s))
      by (repeat apply Z.mul_le_mono_nonneg_r; lia).
    lia.
Qed.

(** One key, at most one row. *)
Lemma filter_unique {A} (k : A -> Z) (c : Z) (l : list A) :
  NoDup (k <$> l) ->
  filter (fun x => k x = c) l = [] \/ exists x, x ∈ l /\ k x = c /\ filter (fun x => k x = c) l = [x].
Proof.
  induction l as [|x l IH]; [by left|]. rewrite fmap_cons, filter_cons. intros [Hx Hn]%NoDup_cons.
  case_decide as E.
  - right. exists x. split_and!; [set_solver|done|]. destruct (IH Hn) as [->|(y & Hy & Ey & _)]; [done|].
    exfalso. apply Hx. rewrite E, <- Ey. by apply list_elem_of_fmap_2.
  - destruct (IH Hn) as [->|(y & Hy & Ey & ->)]; [by left|]. right. exists y. set_solver.
Qed.

Section plans.
Variables (a : ChargeAuthority) (g : ChargeGoal) (slots : list EnergySlot).
Hypothesis Hv : 100 <= ca_voltage a.
Hypothesis Hslots : slots_ordered slots.

Lemma taken_usable ps s :
  charge_safe a g slots ps -> s ∈ slots -> 0 <= taken ps s <= usable a g s.
Proof.
  intros [Hf Hn] Hs. unfold taken. rewrite Forall_forall in Hf.
  destruct (filter_unique pc_start_at (es_start_at s) ps Hn) as [->|(p & Hp & Ep & ->)].
  - cbn. rewrite zsum_nil. unfold usable. case_decide; lia.
  - cbn. rewrite zsum_cons, zsum_nil, Z.add_0_r. destruct (Hf p Hp) as (s' & Hs' & Hr).
    assert (s' = s) as ->.
    { apply (start_inj slots); try done. destruct Hr as [E _]. congruence. }
    apply realises_usable; [done| |done]. destruct Hslots as [_ Hpos].
    rewrite Forall_forall in Hpos. by apply Hpos.
Qed.

Lemma safe_starts ps :
  charge_safe a g slots ps -> Forall (fun p => pc_start_at p ∈ es_start_at <$> slots) ps.
Proof.
  intros [Hf _]. eapply Forall_impl; [exact Hf|]. intros p (s & Hs & -> & _).
  by apply list_elem_of_fmap_2.
Qed.

Lemma taken_sum ps : charge_safe a g slots ps -> zsum (taken ps <$> slots) = zsum (pc_energy_wh <$> ps).
Proof. intros Hp. apply zsum_fibers; [by apply ordered_starts|by apply safe_starts]. Qed.

Lemma taken_cost ps : charge_safe a g slots ps -> zsum (slot_cost (taken ps) <$> slots) = plan_cost ps.
Proof.
  intros Hp. unfold plan_cost.
  rewrite <- (zsum_fibers es_start_at pc_start_at _ slots ps);
    [|by apply ordered_starts|by apply safe_starts].
  f_equal. apply Forall_fmap_ext, Forall_forall. intros s Hs. unfold slot_cost, taken.
  destruct Hp as [Hf Hn]. rewrite Forall_forall in Hf.
  destruct (filter_unique pc_start_at (es_start_at s) ps Hn) as [->|(p & Hp & Ep & ->)];
    cbn; rewrite ?zsum_cons, !zsum_nil; [lia|].
  destruct (Hf p Hp) as (s' & Hs' & E & _ & Et & _).
  assert (s' = s) as -> by (apply (start_inj slots); congruence). rewrite Et. lia.
Qed.

Lemma chosen_safe chosen :
  0 <= cg_max_current_amp g -> Forall (fun s => 0 <= es_home_budget_w s + es_solar_surplus_w s) slots ->
  chosen.*1 ⊆+ slots ->
  Forall (fun x => 0 < slot_amp a g x.1 /\ 0 < x.2 <= slot_capacity a (slot_amp a g x.1) x.1) chosen ->
  charge_safe a g slots (chosen_slots a g chosen).
Proof.
  intros Hg Hb Hsub Hf. split.
  - apply Forall_fmap, Forall_forall. intros x Hx. exists x.1. rewrite Forall_forall in Hf.
    destruct (Hf x Hx) as (Hamp & He & Hcap).
    split; [eapply elem_of_submseteq; [|exact Hsub]; by apply list_elem_of_fmap_2|].
    unfold realises. cbn. split_and!; try done; try lia.
    + unfold slot_amp. lia.
    + unfold slot_amp in *.
      set (w := Z.min (_ * _) (_ + _)) in *.
      assert (ca_voltage a * (w / ca_voltage a) <= w) by (apply Z.mul_div_le; lia).
      assert (w <= es_home_budget_w x.1 + es_solar_surplus_w x.1) by lia.
      etrans; [apply Z.mul_le_mono_nonneg_r; [lia|apply Z.le_min_r]|]. lia.
    + unfold slot_capacity in Hcap. assert (0 < seconds 3600) as Hsec by done.
      pose proof (Z.mul_div_le (slot_amp a g x.1 * ca_voltage a * (es_end_at x.1 - es_start_at x.1))
                    (seconds 3600) Hsec).
      etrans; [apply Z.mul_le_mono_nonneg_r; [lia|exact Hcap]|]. lia.
  - unfold chosen_slots. rewrite <- list_fmap_compose.
    assert ((pc_start_at ∘ (fun x : EnergySlot * Z => planned_slot (slot_amp a g x.1) x.2 x.1)) <$> chosen
            = es_start_at <$> chosen.*1) as -> by by rewrite <- list_fmap_compose.
    pose proof (ordered_starts _ Hslots) as Hn.
    destruct (submseteq_Permutation _ _ Hsub) as [rest Hperm]. rewrite Hperm, fmap_app in Hn.
    by apply NoDup_app in Hn as [? _].
Qed.
End plans.

Lemma planned_restored slots : mapM planned_of_json (planned_json <$> slots) = Some slots.
Proof. induction slots as [|[] l IH]; cbn; [done|]. by rewrite IH. Qed.

Lemma charge_preview_restored id hash a ah status required slots statuses expires :
  charge_preview_of id hash (charge_payload a ah status required slots statuses expires)
  = Some {| cp_id := id; cp_status := status; cp_plan_hash := hash; cp_authority_hash := ah;
            cp_charger_revision := ca_charger_revision a;
            cp_schedule_revision := ca_schedule_revision a;
            cp_tariff_revision := ca_tariff_revision a;
            cp_power_budget_revision := ca_power_budget_revision a; cp_required_wh := required;
            cp_slots := slots; cp_provider_status := statuses;
            cp_override_expires_at := expires |}.
Proof.
  unfold charge_preview_of, charge_payload, statuses_json. rewrite planned_restored.
  cbn [mbind option_bind].
  assert (time_of_json (time_or_null expires) = Some expires) as -> by (by destruct expires).
  cbn [mbind option_bind]. rewrite statuses_restored. cbn [mbind option_bind].
  assert (plan_status_of (plan_status_name status) = Some status) as -> by (by destruct status).
  done.
Qed.

Lemma required_energy_spec g :
  100 * (required_energy g - 1) < cg_battery_capacity_wh g * (cg_target_soc g - cg_current_soc g)
  <= 100 * required_energy g.
Proof.
  unfold required_energy. set (x := cg_battery_capacity_wh g * (cg_target_soc g - cg_current_soc g)).
  pose proof (Z.mul_div_le (- x) 100 ltac:(lia)).
  pose proof (Z.mul_succ_div_gt (- x) 100 ltac:(lia)). lia.
Qed.

Lemma validated_charge a i g t1 t2 statuses :
  charge_validate a i g t1 t2 = Ok statuses ->
  goal_ok a g t2 /\ slots_ordered (ci_slots i) /\
  Forall (fun s => slot_ok g t2 (es_start_at s) s) (ci_slots i).
Proof.
  unfold charge_validate. intros Hv. inv_ok. passed.
  match goal with Hc : fold_res _ _ _ = Ok _ |- _ => apply checked_slots in Hc as (? & _ & ?) end.
  done.
Qed.

#[local] Instance slot_le_total : Total slot_le.
Proof. intros x y. unfold slot_le. lia. Qed.
#[local] Instance slot_le_trans : Transitive slot_le.
Proof. intros x y z. unfold slot_le. lia. Qed.

Definition ends_before_next (x y : PlannedChargeSlot) : Prop :=
  pc_end_at x <= pc_start_at y \/ pc_end_at y <= pc_start_at x.

Section planning.
Context `{UnicodeData}.
Variables (a : ChargeAuthority) (i : EnergyInputs) (g : ChargeGoal) (t1 t2 : Z).
Variable statuses : list (string * string).
Hypothesis Ha : ChargeAuthority_valid a.
Hypothesis Hvalid : charge_validate a i g t1 t2 = Ok statuses.

Lemma budgets_nonneg : Forall (fun s => 0 <= es_home_budget_w s + es_solar_surplus_w s) (ci_slots i).
Proof.
  apply validated_charge in Hvalid as (_ & _ & Hok). eapply Forall_impl; [exact Hok|].
  unfold slot_ok. lia.
Qed.

Lemma required_nonneg : 0 <= required_energy g.
Proof.
  apply validated_charge in Hvalid as (Hg & _ & _). pose proof (required_energy_spec g).
  unfold goal_ok in Hg. nia.
Qed.

(** Any plan the installation can carry out for at least the required energy
    shows that the planner finds one, and costs no less than the planner's. *)
Lemma planner_cheapest ps ps' unmet :
  charge_slots a g (required_energy g) (py_sorted slot_le (ci_slots i)) = (ps, unmet) ->
  charge_safe a g (ci_slots i) ps' -> required_energy g <= zsum (pc_energy_wh <$> ps') ->
  unmet = 0 /\ plan_cost ps <= plan_cost ps'.
Proof.
  intros Hps Hps' Hle. pose proof (validated_charge _ _ _ _ _ _ Hvalid) as (_ & Hord & Hok).
  assert (Hvolt : 100 <= ca_voltage a) by (destruct Ha as (_ & _ & _ & ? & _); lia).
  pose proof (greedy_cheapest a g (taken ps') (py_sorted slot_le (ci_slots i)) (required_energy g) 0 ps unmet)
    as Hgreedy.
  destruct Hgreedy as [Hu Hc]; [..|split; [done|]].
  - apply py_sorted_strong; apply _.
  - apply Forall_forall. intros s Hs%py_sorted_elem. by apply (taken_usable a g (ci_slots i)).
  - apply Forall_forall. intros s Hs%py_sorted_elem. rewrite Forall_forall in Hok.
    specialize (Hok s Hs). unfold slot_ok in Hok. lia.
  - apply required_nonneg.
  - rewrite py_sorted_perm. by rewrite (taken_sum a g).
  - done.
  - rewrite py_sorted_perm, (taken_cost a g) in Hc by done. lia.
Qed.

Lemma planner_safe ps :
  charge_slots a g (required_energy g) (py_sorted slot_le (ci_slots i)) = (ps, 0) ->
  charge_safe a g (ci_slots i) ps /\ zsum (pc_energy_wh <$> ps) = required_energy g /\
  Forall (fun p => 0 < pc_current_amp p /\ 0 < pc_energy_wh p) ps.
Proof.
  intros Hps. pose proof (validated_charge _ _ _ _ _ _ Hvalid) as (Hg & Hord & Hok).
  assert (Hvolt : 100 <= ca_voltage a) by (destruct Ha as (_ & _ & _ & ? & _); lia).
  apply charge_slots_spec in Hps as (chosen & -> & Hsub & Hf & Hsum & _); [|apply required_nonneg].
  split_and!.
  - apply chosen_safe; [done|done|unfold goal_ok in Hg; lia|apply budgets_nonneg| |done].
    rewrite <- (py_sorted_perm slot_le (ci_slots i)). by apply sublist_submseteq.
  - unfold chosen_slots. rewrite <- list_fmap_compose. cbn.
    change (zsum (chosen.*2) = required_energy g). lia.
  - apply Forall_fmap. eapply Forall_impl; [exact Hf|]. cbn. lia.
Qed.

(** The planned slots lie between the check and the departure and do not
    overlap. *)
Lemma safe_timing ps :
  charge_safe a g (ci_slots i) ps ->
  Forall (fun p => t2 <= pc_start_at p /\ pc_end_at p <= cg_departure_at g) ps /\
  forall x y, x ∈ ps -> y ∈ ps -> x = y \/ ends_before_next x y.
Proof.
  intros [Hf Hn]. pose proof (validated_charge _ _ _ _ _ _ Hvalid) as (_ & Hord & Hok).
  rewrite Forall_forall in Hf. rewrite Forall_forall in Hok. split.
  - apply Forall_forall. intros p Hp. destruct (Hf p Hp) as (s & Hs & -> & -> & _).
    specialize (Hok s Hs). unfold slot_ok in Hok. lia.
  - intros x y Hx Hy. destruct (decide (pc_start_at x = pc_start_at y)) as [E|E].
    { left. by apply (nodup_column_inj pc_start_at _ _ _ Hn). }
    right. destruct (Hf x Hx) as (s & Hs & E1 & E2 & _), (Hf y Hy) as (s' & Hs' & E3 & E4 & _).
    unfold ends_before_next. rewrite E1, E2, E3, E4 in *.
    destruct Hord as [Hord _]. clear - Hord Hs Hs' E.
    induction Hord as [|z l _ IH Hz]; [by apply elem_of_nil in Hs|].
    rewrite Forall_forall in Hz.
    apply elem_of_cons in Hs as [->|Hs], Hs' as [->|Hs'];
      [congruence|left; by apply Hz|right; by apply Hz|by apply IH].
Qed.
End planning.

(** ** The service *)

Section service.
Context `{UnicodeData} {J : Journal}.
(** [hashlib.sha256(_canonical(value)).hexdigest()] *)
Variable sha256 : jval -> string.

Definition authority_hash (a : ChargeAuthority) : string :=
  jn_fingerprint "authority" (charge_authority_json a).

(** [_preview_from_row] *)
Definition charge_preview_from_row (row : preview_row) : res ChargePreview :=
  _ ← raise_if (jp_record_hash row <> preview_hash row) jn_preview_invalid;
  require_some (charge_preview_of (jp_id row) (jp_plan_hash row) (jp_payload row)) jn_preview_invalid.

(** The row that [preview] stores. *)
Definition charge_row (actor : Principal) (a : ChargeAuthority) (i : EnergyInputs) (g : ChargeGoal)
    (preview_id : ustr) (payload : jval) (now : Z) : preview_row :=
  let inputs := [("authority", charge_authority_json a); ("goal", goal_json g);
                 ("inputs", charge_inputs_json i)]%string in
  {| jp_id := preview_id; jp_scope := charge_scope a; jp_account_id := u (p_id actor);
     jp_revision := ca_schedule_revision a;
     jp_plan_hash := sha256 (JObj (inputs ++ [("result"%string, payload)]));
     jp_request_hash := jn_fingerprint "preview" (JObj inputs);
     jp_payload := payload; jp_created_at := now; jp_record_hash := "" |}.

(** The rows that [preview] may store. *)
Definition charge_planned (r : preview_row) : Prop :=
  exists actor a i g id payload t1 t2 now, ChargeAuthority_valid a /\
    charge_plan a (authority_hash a) i g t1 t2 now = Ok payload /\
    r = charge_row actor a i g id payload now.

Local Notation world := (world (P := ChargePreview)).

(** [preview]; the clock is read for the providers, for the goal and slots and
    once after the validation. *)
Definition charge_preview (actor : Principal) (a : ChargeAuthority) (i : EnergyInputs) (g : ChargeGoal)
    (preview_id : ustr) (providers_at validated_at now : Z) (audit : string) : M world ChargePreview :=
  _ ← lift (charge_authorize actor a);
  _ ← lift (raise_if (~ _identifier preview_id) (ApiError "invalid_request" 400));
  payload ← lift (charge_plan a (authority_hash a) i g providers_at validated_at now);
  preview_command charge_preview_from_row (charge_row actor a i g preview_id payload now) audit.

(** The fingerprint of a confirmation. *)
Definition charge_confirm_hash (a : ChargeAuthority) (preview_id command_id : ustr)
    (plan_hash : string) : string :=
  jn_fingerprint "confirm"
    (JList [charge_authority_json a; JText preview_id; JText command_id; JStr plan_hash]).

(** The comparison of a stored preview with the authority. *)
Definition charge_fits (a : ChargeAuthority) (row : preview_row) (p : ChargePreview) : Prop :=
  cp_charger_revision p = ca_charger_revision a /\ cp_schedule_revision p = ca_schedule_revision a /\
  cp_tariff_revision p = ca_tariff_revision a /\
  cp_power_budget_revision p = ca_power_budget_revision a /\ cp_status p = PlanReady /\
  cp_authority_hash p = authority_hash a.
#[export] Instance charge_fits_dec a row p : Decision (charge_fits a row p).
Proof. unfold charge_fits. apply _. Defined.

Definition charge_request (actor : Principal) (a : ChargeAuthority) (preview_id command_id : ustr)
    (expected_plan_hash : string) : reserved :=
  {| rv_scope := charge_scope a; rv_actor_id := u (p_id actor); rv_command_id := command_id;
     rv_preview_id := preview_id; rv_plan_hash := expected_plan_hash;
     rv_request_hash := charge_confirm_hash a preview_id command_id expected_plan_hash |}.

(** [confirm] before its first transaction. *)
Definition confirm_checks (actor : Principal) (a : ChargeAuthority) (i : EnergyInputs)
    (preview_id command_id : ustr) (providers_at now : Z) : res unit :=
  _ ← charge_authorize actor a;
  _ ← raise_if (ca_can_control a = false) (ApiError "forbidden" 403);
  _ ← raise_if (~ _identifier preview_id \/ ~ _identifier command_id) (ApiError "invalid_request" 400);
  _ ← verified_providers a i providers_at;
  match ci_manual_override i with
  | Some o =>
      _ ← raise_if (~ charge_override_valid a o) (ApiError "charge_safety_limit" 400);
      raise_if (now < co_expires_at o) (ApiError "charge_preview_changed" 409)
  | None => Ok tt
  end.

(** [confirm] *)
Definition charge_confirm (actor : Principal) (a : ChargeAuthority) (i : EnergyInputs)
    (preview_id command_id : ustr) (expected_plan_hash : string) (providers_at now reserved_at : Z)
    (reserved_audit : string) (charger_raises : bool) (settled_at : Z) (settled_audit : string)
  : M world CommandReceipt :=
  _ ← lift (confirm_checks actor a i preview_id command_id providers_at now);
  confirm_command charge_preview_from_row cp_plan_hash
    (charge_request actor a preview_id command_id expected_plan_hash) (charge_fits a)
    reserved_at reserved_audit charger_raises settled_at settled_audit.

(** [readback] *)
Definition charge_readback (actor : Principal) (a : ChargeAuthority) (command_id : ustr)
    (observed : res (option string)) (now : Z) (audit : string) : M world CommandReceipt :=
  _ ← lift (charge_authorize actor a);
  readback_command (charge_scope a) (u (p_id actor)) command_id
    (fun row => charge_confirm_hash a (jc_preview_id row) command_id (jc_plan_hash row))
    observed now audit.

(** [history] *)
Definition charge_history (actor : Principal) (a : ChargeAuthority) (limit : Z) (w : world)
  : res (list (string * journal_action * ustr * Z)) :=
  _ ← charge_authorize actor a;
  history_page (charge_scope a) limit (w_db w).

(** ** The runtime *)

(** What the provider says a charger is and can. *)
Record ChargeDeviceCapability := {
  cd_charger_id : ustr;
  cd_label : ustr;
  cd_charger_revision : Z;
  cd_schedule_revision : Z;
  cd_tariff_revision : Z;
  cd_power_budget_revision : Z;
  cd_current_soc : Z;
  cd_battery_capacity_wh : Z;
  cd_max_current_amp : Z;
}.
Record ChargeProviderCapability := {
  cc_state : string;
  cc_provider_kind : string;
  cc_can_plan : bool;
  cc_can_control : bool;
  cc_reason : string;
  cc_chargers : list ChargeDeviceCapability;
}.
Definition ChargeProviderSnapshot : Type := ChargeAuthority * EnergyInputs.

Definition is_hex_code (c : Z) : Prop := 48 <= c <= 57 \/ 97 <= c <= 102.
#[export] Instance is_hex_code_dec c : Decision (is_hex_code c).
Proof. unfold is_hex_code. apply _. Defined.

(** [__post_init__] *)
Definition ChargeDeviceCapability_valid (d : ChargeDeviceCapability) : Prop :=
  length (cd_charger_id d) = 32%nat /\ Forall is_hex_code (cd_charger_id d) /\
  cd_label d <> [] /\ cd_label d = str_strip (cd_label d) /\ (length (cd_label d) <= 80)%nat /\
  Forall (fun c => 32 <= c /\ c <> 127) (cd_label d) /\
  Forall positive_revision [cd_charger_revision d; cd_schedule_revision d; cd_tariff_revision d;
                            cd_power_budget_revision d] /\
  0 <= cd_current_soc d <= 100 /\ 1 <= cd_battery_capacity_wh d <= 500000 /\
  1 <= cd_max_current_amp d <= 80.
#[export] Instance ChargeDeviceCapability_valid_dec d : Decision (ChargeDeviceCapability_valid d).
Proof. unfold ChargeDeviceCapability_valid. apply _. Defined.
Definition ChargeProviderCapability_valid (c : ChargeProviderCapability) : Prop :=
  cc_state c ∈ ["ready"; "degraded"; "unavailable"]%string /\
  cc_provider_kind c ∈ ["ocpp"; "vehicle_api"; "manual"; "none"]%string /\
  cc_reason c ∈ ["ready"; "provider_not_configured"; "provider_unreachable"; "charger_read_only"]%string /\
  ~ (cc_state c <> "ready"%string /\ (cc_can_plan c = true \/ cc_can_control c = true)) /\
  ~ (cc_state c = "ready"%string /\ cc_can_plan c = false) /\
  ~ (cc_can_control c = true /\ cc_can_plan c = false) /\
  ~ (cc_can_plan c = true /\ cc_chargers c = []) /\
  (length (cc_chargers c) <= 16)%nat /\ NoDup (cd_charger_id <$> cc_chargers c) /\
  ~ (cc_state c <> "ready"%string /\ cc_chargers c <> []).
#[export] Instance ChargeProviderCapability_valid_dec c : Decision (ChargeProviderCapability_valid c).
Proof. unfold ChargeProviderCapability_valid. apply _. Defined.

Record PreviewCharge := {
  pq_previewId : ustr;
  pq_expectedChargerRevision : Z;
  pq_expectedScheduleRevision : Z;
  pq_expectedTariffRevision : Z;
  pq_expectedPowerBudgetRevision : Z;
  pq_departureAtMs : Z;
  pq_targetSoc : Z;
}.
Record ConfirmCharge := {
  cq_previewId : ustr;
  cq_commandId : ustr;
  cq_expectedPlanHash : string;
  cq_expectedChargerRevision : Z;
  cq_expectedScheduleRevision : Z;
}.

(** [ms / 1000], the nearest point of the grid; from 2^30 s to 2^31 s (January
    2038) this is the double. *)
Definition ms_seconds (ms : Z) : Z := (2 * ms * TICK + 1000) / 2000.

(** What an adapter knows during one request: its identity, whether it has a
    charger, the provider's answers, and the accounts and the clock at its two
    checks of the session. *)
Record EvChargeRuntime := {
  er_core_id : ustr;
  er_home_id : ustr;
  er_control_available : bool;
  er_provider : option (res (raw ChargeProviderCapability) * res (raw ChargeProviderSnapshot));
  er_before : Z * auth_db;
  er_after : Z * auth_db;
}.
Implicit Types rt : EvChargeRuntime.

(** [_scope] *)
Definition runtime_scope rt (core_id home_id : ustr) : res unit :=
  raise_if ((core_id, home_id) <> (er_core_id rt, er_home_id rt)) (ApiError "not_found" 404).

(** [_actor] *)
Definition runtime_actor (at_ : Z * auth_db) (actor : Principal) : res unit :=
  _ ← assert_current at_.1 at_.2 actor;
  row ← require_some (sql_one (fun x => u_id x = p_id actor) (users at_.2)) (ApiError "forbidden" 403);
  raise_if (u_disabled row = true \/ u_must_change row = true) (ApiError "forbidden" 403).

Definition unavailable (reason : string) : ChargeProviderCapability :=
  {| cc_state := "unavailable"; cc_provider_kind := "none"; cc_can_plan := false;
     cc_can_control := false; cc_reason := reason; cc_chargers := [] |}.

Definition read_only (c : ChargeProviderCapability) : ChargeProviderCapability :=
  {| cc_state := cc_state c; cc_provider_kind := cc_provider_kind c; cc_can_plan := cc_can_plan c;
     cc_can_control := false; cc_reason := "charger_read_only"; cc_chargers := cc_chargers c |}.

(** [capability] *)
Definition runtime_capability rt (actor : Principal) (core_id home_id : ustr)
  : res ChargeProviderCapability :=
  _ ← runtime_scope rt core_id home_id;
  _ ← runtime_actor (er_before rt) actor;
  value ← match er_provider rt with
          | None => Ok (unavailable "provider_not_configured")
          | Some (Raise _, _) => Ok (unavailable "provider_unreachable")
          | Some (Ok (Shaped c), _) => Ok c
          | Some (Ok Malformed, _) => Raise (ApiError "ev_charge_provider_invalid" 503)
          end;
  let value := if cc_can_control value && negb (er_control_available rt) then read_only value
               else value in
  _ ← runtime_actor (er_after rt) actor;
  Ok value.

(** What the [try] around the provider's calls lets through. *)
Definition charge_provider_call {A} (r : res A) : res A :=
  match r with
  | Raise (ApiError c n) => Raise (ApiError c n)
  | Raise _ => Raise (ApiError "ev_charge_provider_unavailable" 503)
  | Ok x => Ok x
  end.

(** The authority is this core's, this actor's and this device's. *)
Definition authority_matches rt (actor : Principal) (charger_id : ustr) (a : ChargeAuthority)
    (d : ChargeDeviceCapability) : Prop :=
  ca_core_id a = er_core_id rt /\ ca_home_id a = er_home_id rt /\ ca_charger_id a = charger_id /\
  ca_account_id a = u (p_id actor) /\ ca_session_id a = u (p_family_id actor) /\
  ca_charger_revision a = cd_charger_revision d /\ ca_schedule_revision a = cd_schedule_revision d /\
  ca_tariff_revision a = cd_tariff_revision d /\
  ca_power_budget_revision a = cd_power_budget_revision d /\
  ca_max_current_amp a = cd_max_current_amp d.
#[export] Instance authority_matches_dec rt actor c a d : Decision (authority_matches rt actor c a d).
Proof. unfold authority_matches. apply _. Defined.

(** [_snapshot] *)
Definition runtime_snapshot rt (actor : Principal) (core_id home_id charger_id : ustr) (control : bool)
  : res (ChargeProviderSnapshot * ChargeDeviceCapability) :=
  let unavailable := ApiError "ev_charge_provider_unavailable" 503 in
  _ ← runtime_scope rt core_id home_id;
  _ ← runtime_actor (er_before rt) actor;
  provider ← require_some (er_provider rt) unavailable;
  capability ← charge_provider_call provider.1;
  snapshot ← charge_provider_call provider.2;
  match capability, snapshot with
  | Shaped c, Shaped (a, i) =>
      _ ← raise_if (cc_state c <> "ready"%string \/ cc_can_plan c = false \/
                    (control = true /\ er_control_available rt = false) \/
                    (control = true /\ cc_can_control c = false)) unavailable;
      match filter (fun d => cd_charger_id d = charger_id) (cc_chargers c) with
      | [device] =>
          _ ← raise_if (~ authority_matches rt actor charger_id a device)
                (ApiError "energy_authority_changed" 409);
          _ ← raise_if (control = true /\ ca_can_control a = false) (ApiError "forbidden" 403);
          _ ← runtime_actor (er_after rt) actor;
          Ok ((a, i), device)
      | _ => Raise unavailable
      end
  | _, _ => Raise unavailable
  end.

(** [preview]; the answer repeats the authority beside the preview. *)
Definition runtime_preview rt (actor : Principal) (core_id home_id charger_id : ustr)
    (body : PreviewCharge) (providers_at validated_at now : Z) (audit : string)
  : M world (ChargeAuthority * ChargePreview) :=
  '((a, i), device) ← lift (runtime_snapshot rt actor core_id home_id charger_id false);
  _ ← lift (raise_if
        ((pq_expectedChargerRevision body, pq_expectedScheduleRevision body,
          pq_expectedTariffRevision body, pq_expectedPowerBudgetRevision body) <>
         (ca_charger_revision a, ca_schedule_revision a, ca_tariff_revision a,
          ca_power_budget_revision a)) (ApiError "energy_authority_changed" 409));
  let goal :=
    {| cg_departure_at := ms_seconds (pq_departureAtMs body); cg_current_soc := cd_current_soc device;
       cg_minimum_soc := cd_current_soc device; cg_target_soc := pq_targetSoc body;
       cg_battery_capacity_wh := cd_battery_capacity_wh device;
       cg_max_current_amp := cd_max_current_amp device |} in
  value ← charge_preview actor a i goal (pq_previewId body) providers_at validated_at now audit;
  mret (a, value).

(** [confirm] *)
Definition runtime_confirm rt (actor : Principal) (core_id home_id charger_id : ustr)
    (body : ConfirmCharge) (providers_at now reserved_at : Z) (reserved_audit : string)
    (charger_raises : bool) (settled_at : Z) (settled_audit : string)
  : M world (ChargeAuthority * CommandReceipt) :=
  '((a, i), _) ← lift (runtime_snapshot rt actor core_id home_id charger_id true);
  _ ← lift (raise_if (cq_expectedChargerRevision body <> ca_charger_revision a \/
                      cq_expectedScheduleRevision body <> ca_schedule_revision a)
        (ApiError "energy_authority_changed" 409));
  value ← charge_confirm actor a i (cq_previewId body) (cq_commandId body) (cq_expectedPlanHash body)
            providers_at now reserved_at reserved_audit charger_raises settled_at settled_audit;
  mret (a, value).
End service.

(** The service's journal: HMAC under its own domain, its error codes, and at
    most one command for a preview. *)
Definition charge_journal (fingerprint : string -> jval -> string) : Journal := {|
  jn_fingerprint := fingerprint;
  jn_audit_invalid := StartupError "ev_charge_audit_invalid";
  jn_history_full := ApiError "ev_charge_history_limit_reached" 413;
  jn_preview_conflict := ApiError "charge_preview_conflict" 409;
  jn_preview_full := ApiError "charge_preview_limit_reached" 413;
  jn_preview_invalid := StartupError "ev_charge_preview_invalid";
  jn_preview_changed := ApiError "charge_preview_changed" 409;
  jn_command_conflict := ApiError "charge_command_conflict" 409;
  jn_command_invalid := StartupError "ev_charge_command_invalid";
  jn_authority_changed := ApiError "energy_authority_changed" 409;
  jn_single_use := true;
|}.

(** ** Theorems *)

(** What [preview] computes when it succeeds. *)
Lemma charge_plan_ok a ah i g t1 t2 now payload :
  charge_plan a ah i g t1 t2 now = Ok payload ->
  exists statuses, charge_validate a i g t1 t2 = Ok statuses /\
    required_energy g <= ca_max_session_wh a /\
    ((charge_overridden now (ci_manual_override i) = true /\
      payload = charge_payload a ah PlanOverridden (required_energy g) [] statuses
                  (co_expires_at <$> ci_manual_override i)) \/
     (charge_overridden now (ci_manual_override i) = false /\ exists slots,
      payload = charge_payload a ah PlanReady (required_energy g) slots statuses None /\
      charge_slots a g (required_energy g) (py_sorted slot_le (ci_slots i)) = (slots, 0))).
Proof.
  unfold charge_plan. intros Hp. apply bind_ok in Hp as (statuses & Hv & Hp). inv_ok.
  exists statuses. split; [done|]. split; [lia|].
  destruct (charge_overridden now (ci_manual_override i)).
  - left. by injection Hp as <-.
  - right. split; [done|]. destruct (charge_slots _ _ _ _) as [slots remaining]. inv_ok. passed. subst.
    by exists slots.
Qed.

(** C8 A plan that is ready is exact, possible and the cheapest: it takes the
    energy that lifts the battery to its target, to the watt hour; each slot is
    one of the inputs' slots, starts after the check, ends before the departure
    and overlaps no other; its current is a positive whole number of amperes
    within the goal and within the home's budget and solar surplus; and no
    plan that the installation could carry out for at least that energy costs
    less. *)
Theorem charge_plan_optimal `{UnicodeData} a ah i g t1 t2 now payload id hash p :
  ChargeAuthority_valid a -> charge_plan a ah i g t1 t2 now = Ok payload ->
  charge_preview_of id hash payload = Some p -> cp_status p = PlanReady ->
  charge_safe a g (ci_slots i) (cp_slots p) /\
  zsum (pc_energy_wh <$> cp_slots p) = cp_required_wh p /\
  100 * (cp_required_wh p - 1) < cg_battery_capacity_wh g * (cg_target_soc g - cg_current_soc g)
    <= 100 * cp_required_wh p /\
  Forall (fun x => 0 < pc_current_amp x /\ 0 < pc_energy_wh x) (cp_slots p) /\
  Forall (fun x => t2 <= pc_start_at x /\ pc_end_at x <= cg_departure_at g) (cp_slots p) /\
  (forall x y, x ∈ cp_slots p -> y ∈ cp_slots p -> x = y \/ ends_before_next x y) /\
  forall ps', charge_safe a g (ci_slots i) ps' ->
    cp_required_wh p <= zsum (pc_energy_wh <$> ps') -> plan_cost (cp_slots p) <= plan_cost ps'.
Proof.
  intros Ha Hp Hr Hst.
  apply charge_plan_ok in Hp as (statuses & Hv & Hmax & [[_ ->]|(Ho & slots & -> & Hs)]);
    rewrite charge_preview_restored in Hr; injection Hr as <-; [done|]. cbn.
  destruct (planner_safe a i g t1 t2 statuses Ha Hv slots Hs) as (Hsafe & Hsum & Hpos).
  destruct (safe_timing a i g t1 t2 statuses Hv slots Hsafe) as [Htime Hdis].
  split; [done|]. split; [done|]. split; [apply required_energy_spec|]. split; [done|].
  split; [done|]. split; [done|]. intros ps' Hps' Hle.
  by apply (planner_cheapest a i g t1 t2 statuses Ha Hv slots ps' 0 Hs).
Qed.

(** C28 The answer that the target cannot be reached is given exactly when that is
    so: inputs that pass the checks, with no active override, get a plan if and
    only if there is one that the installation could carry out. *)
Theorem charge_plan_complete `{UnicodeData} a ah i g t1 t2 now statuses :
  ChargeAuthority_valid a -> charge_validate a i g t1 t2 = Ok statuses ->
  optional (charge_override_valid a) (ci_manual_override i) ->
  charge_overridden now (ci_manual_override i) = false -> required_energy g <= ca_max_session_wh a ->
  match charge_plan a ah i g t1 t2 now with
  | Ok _ => exists ps, charge_safe a g (ci_slots i) ps /\
              zsum (pc_energy_wh <$> ps) = required_energy g
  | Raise e => e = ApiError "charge_target_unreachable" 409 /\
      forall ps, charge_safe a g (ci_slots i) ps -> zsum (pc_energy_wh <$> ps) < required_energy g
  end.
Proof.
  intros Ha Hv Ho Hact Hmax. unfold charge_plan. rewrite Hv. cbn [mbind res_bind].
  rewrite (raise_if_no (~ optional _ _)) by (intros Hno; by apply Hno).
  rewrite (raise_if_no (_ > _)) by lia. cbn [mbind res_bind]. rewrite Hact.
  destruct (charge_slots _ _ _ _) as [slots remaining] eqn:Hs.
  destruct (decide (remaining = 0)) as [->|Hne].
  - rewrite raise_if_no by lia. cbn. exists slots.
    by destruct (planner_safe a i g t1 t2 statuses Ha Hv slots Hs) as (? & ? & _).
  - rewrite raise_if_yes by done. cbn. split; [done|]. intros ps Hps.
    destruct (decide (required_energy g <= zsum (pc_energy_wh <$> ps))) as [Hle|]; [|lia].
    by destruct (planner_cheapest a i g t1 t2 statuses Ha Hv slots ps remaining Hs Hps Hle).
Qed.

Section theorems.
Context `{UnicodeData}.
Variable sha256 : jval -> string.
Variable fingerprint : string -> jval -> string.
#[local] Instance ev_journal : Journal := charge_journal fingerprint.
Local Notation world := (world (P := ChargePreview)).
Implicit Types w : world.

Definition charge_ready (p : ChargePreview) : Prop := cp_status p = PlanReady.
Local Notation step := (world_step charge_preview_from_row cp_plan_hash
  (charge_planned sha256) charge_ready).
Local Notation reachable := (world_reachable charge_preview_from_row cp_plan_hash
  (charge_planned sha256) charge_ready).

Lemma charge_preview_steps actor a i g id t1 t2 t3 audit w :
  ChargeAuthority_valid a -> rtc step w (charge_preview sha256 actor a i g id t1 t2 t3 audit w).2.
Proof.
  intros Ha. unfold charge_preview. rewrite lift_bind. destruct (charge_authorize actor a); [|done].
  rewrite lift_bind. destruct (raise_if _ _); [|done].
  rewrite lift_bind. destruct (charge_plan _ _ _ _ _ _ _) as [payload|] eqn:Hp; [|done].
  apply preview_command_steps. by exists actor, a, i, g, id, payload, t1, t2, t3.
Qed.

Lemma charge_confirm_steps actor a i id cmd hash t1 t2 t3 a1 raises t4 a2 w :
  reachable w -> rtc step w (charge_confirm actor a i id cmd hash t1 t2 t3 a1 raises t4 a2 w).2.
Proof.
  intros Hw%world_reachable_inv.
  unfold charge_confirm. rewrite lift_bind. destruct (confirm_checks _ _ _ _ _ _ _); [|done].
  apply confirm_command_steps; [done|]. by intros row p (_ & _ & _ & _ & ? & _).
Qed.

Lemma charge_readback_steps actor a cmd observed t audit w :
  rtc step w (charge_readback actor a cmd observed t audit w).2.
Proof.
  unfold charge_readback. rewrite lift_bind. destruct (charge_authorize actor a); [|done].
  apply rtc_once. constructor.
Qed.

(** Every call of the planner's service, whatever it answers, is a run of the
    journal's steps. *)
Theorem charge_service_refines actor a i g id cmd hash t1 t2 t3 t4 a1 a2 raises observed w :
  reachable w -> ChargeAuthority_valid a ->
  rtc step w (charge_preview sha256 actor a i g id t1 t2 t3 a1 w).2 /\
  rtc step w (charge_confirm actor a i id cmd hash t1 t2 t3 a1 raises t4 a2 w).2 /\
  rtc step w (charge_readback actor a cmd observed t1 a1 w).2.
Proof.
  intros Hw Ha. split_and!;
    [by apply charge_preview_steps|by apply charge_confirm_steps|apply charge_readback_steps].
Qed.

(** Through crashes, retries and concurrent calls, the charger gets every
    preview at most once, and only a plan that [preview] computed for that
    account from checked inputs and that the installation can carry out. *)
Theorem charge_sent_once_and_safe w :
  reachable w ->
  NoDup (preview_of <$> w_sent w) /\ NoDup (command_of <$> w_sent w) /\
  Forall (fun x => exists a i g t1 t2 statuses,
    charge_validate a i g t1 t2 = Ok statuses /\ rv_scope x.1 = charge_scope a /\
    cp_status x.2 = PlanReady /\ charge_safe a g (ci_slots i) (cp_slots x.2) /\
    zsum (pc_energy_wh <$> cp_slots x.2) = required_energy g /\
    required_energy g <= ca_max_session_wh a) (w_sent w).
Proof.
  intros Hw. pose proof (journal_sent_once _ _ _ _ w Hw) as (Hc & _ & Hp).
  split_and!; [by apply Hp|done|].
  apply Forall_forall. intros x Hx.
  destruct (sent_planned _ _ _ _ w x Hw Hx) as (r & Hr & Hread & _ & Hsc & _ & Hready).
  destruct Hr as (actor & a & i & g & id & payload & t1 & t2 & now & Ha & Hplan & ->).
  unfold charge_preview_from_row in Hread. inv_ok.
  match goal with E : charge_preview_of _ _ _ = Some _ |- _ => cbn in E; rename E into Hof end.
  apply charge_plan_ok in Hplan as (statuses & Hv & Hmax & [[_ ->]|(Ho & slots & -> & Hs)]);
    rewrite charge_preview_restored in Hof; injection Hof as Hof; rewrite <- Hof in Hready |- *; [done|].
  exists a, i, g, t1, t2, statuses.
  destruct (planner_safe a i g t1 t2 statuses Ha Hv slots Hs) as (Hsafe & Hsum & _). done.
Qed.
Lemma charge_provider_ok {A} (r : res A) x : charge_provider_call r = Ok x -> r = Ok x.
Proof. destruct r as [|[]]; cbn; naive_solver. Qed.

Lemma runtime_snapshot_ok rt actor core_id home_id charger_id control a i d :
  runtime_snapshot rt actor core_id home_id charger_id control = Ok ((a, i), d) ->
  (core_id, home_id) = (er_core_id rt, er_home_id rt) /\
  runtime_actor (er_before rt) actor = Ok tt /\ runtime_actor (er_after rt) actor = Ok tt /\
  exists c, er_provider rt = Some (Ok (Shaped c), Ok (Shaped (a, i))) /\
    cc_state c = "ready"%string /\ cc_can_plan c = true /\ d ∈ cc_chargers c /\
    authority_matches rt actor charger_id a d /\
    (control = true -> er_control_available rt = true /\ cc_can_control c = true /\
                       ca_can_control a = true).
Proof.
  unfold runtime_snapshot, runtime_scope. intros Hs.
  apply bind_ok in Hs as ([] & Hscope%raise_if_ok & Hs).
  apply bind_ok in Hs as ([] & Hbefore & Hs).
  apply bind_ok in Hs as ([c1 c2] & Hp%require_some_ok & Hs).
  apply bind_ok in Hs as (x1 & Hx1%charge_provider_ok & Hs). cbn in Hx1. subst c1.
  apply bind_ok in Hs as (x2 & Hx2%charge_provider_ok & Hs). cbn in Hx2. subst c2.
  destruct x1 as [c|], x2 as [[a' i']|]; try done.
  apply bind_ok in Hs as ([] & Hcap%raise_if_ok & Hs).
  destruct (filter _ _) as [|d' [|]] eqn:Hd; try done.
  assert (Hin : d' ∈ cc_chargers c).
  { assert (Hin : d' ∈ [d']) by left. rewrite <- Hd in Hin. by apply list_elem_of_filter in Hin as [_ ?]. }
  apply bind_ok in Hs as ([] & Hm%raise_if_ok & Hs).
  apply bind_ok in Hs as ([] & Hc%raise_if_ok & Hs).
  apply bind_ok in Hs as ([] & Hafter & Hs). injection Hs as <- <- <-.
  apply dec_stable in Hscope. apply dec_stable in Hm. split_and!; try done.
  exists c. split_and!; try done.
  - destruct (decide (cc_state c = "ready"%string)); [done|]. exfalso. tauto.
  - destruct (cc_can_plan c); [done|]. exfalso. tauto.
  - intros ->. destruct (er_control_available rt), (cc_can_control c), (ca_can_control a'); try done;
      exfalso; tauto.
Qed.

Lemma confirm_not_overridden actor a i id cmd t1 t2 :
  confirm_checks actor a i id cmd t1 t2 = Ok tt -> charge_overridden t2 (ci_manual_override i) = false.
Proof.
  unfold confirm_checks. intros Hc. inv_ok. destruct (ci_manual_override i) as [o|]; [|done].
  apply bind_ok in Hc as (? & _ & Hc%raise_if_ok). cbn. apply Z.ltb_ge. lia.
Qed.

(** C12 Control of the charger is never taken on stale rights: a call that hands a
    plan over was made with a session that was live before and after the
    provider was asked, by an account that is enabled and owes no password
    change; the provider is ready and lets this account control this charger; no
    manual override is active; and the plan handed over was previewed under
    exactly the authority that the provider reports now. *)
Theorem charge_control_authorised rt actor core_id home_id charger_id body t1 t2 t3 a1 raises t4 a2 w :
  reachable w ->
  let w' := (runtime_confirm rt actor core_id home_id charger_id body t1 t2 t3 a1 raises t4 a2 w).2 in
  w_sent w' <> w_sent w ->
  (core_id, home_id) = (er_core_id rt, er_home_id rt) /\
  runtime_actor (er_before rt) actor = Ok tt /\ runtime_actor (er_after rt) actor = Ok tt /\
  er_control_available rt = true /\
  exists c a i d r p, er_provider rt = Some (Ok (Shaped c), Ok (Shaped (a, i))) /\
    cc_state c = "ready"%string /\ cc_can_control c = true /\ d ∈ cc_chargers c /\
    authority_matches rt actor charger_id a d /\ ca_can_control a = true /\
    charge_overridden t2 (ci_manual_override i) = false /\
    w_sent w' = w_sent w ++ [(r, p)] /\ cp_authority_hash p = authority_hash a /\
    cp_plan_hash p = cq_expectedPlanHash body /\ cp_status p = PlanReady.
Proof.
  cbv zeta. intros Hw%world_reachable_inv. unfold runtime_confirm. rewrite lift_bind.
  destruct (runtime_snapshot _ _ _ _ _ _) as [[[a i] d]|] eqn:Hsnap; [|done].
  rewrite lift_bind. destruct (raise_if _ _); [|done].
  cbv beta iota delta [mbind M_bind]. unfold charge_confirm. rewrite lift_bind.
  destruct (confirm_checks _ _ _ _ _ _ _) as [[]|] eqn:Hcheck; [|done].
  pose proof (confirm_command_sends charge_preview_from_row cp_plan_hash (charge_planned sha256)
    charge_ready (charge_request actor a (cq_previewId body) (cq_commandId body) (cq_expectedPlanHash body))
    (charge_fits a) _ t3 a1 raises t4 a2 w Hw) as Hsend.
  apply runtime_snapshot_ok in Hsnap as (Hscope & Hb & Haf & c & Hp & Hst & _ & Hd & Hm & Hctl).
  destruct (Hctl eq_refl) as (Hav & Hcc & Hcan). apply confirm_not_overridden in Hcheck.
  intros Hne. split_and!; try done.
  destruct (confirm_command _ _ _ _ _ _ _ _ _ w) as [[receipt|e] w']; cbn in Hsend, Hne |- *;
    (destruct Hsend as [|(row & p & Hs & Hfit & Hhash)]; [done|]);
    destruct Hfit as (_ & _ & _ & _ & Hready & Hah);
    exists c, a, i, d; eexists _, p; split_and!; eassumption || done.
Qed.
End theorems.

(** ** A car that leaves in three hours *)

Module ChargeExample.
Definition fp (domain : string) (_ : jval) : string := domain.
#[local] Instance J : Journal := charge_journal fp.
Definition plan_digest (_ : jval) : string := "plan".
Definition carport : ustr := u "0123456789abcdef0123456789abcdef".
Definition authority : ChargeAuthority :=
  {| ca_core_id := u "core"; ca_home_id := u "home"; ca_account_id := u "1";
     ca_session_id := u "family-a"; ca_core_revision := 1; ca_home_revision := 1;
     ca_account_revision := 1; ca_charger_id := carport; ca_charger_revision := 2;
     ca_tariff_revision := 3; ca_solar_revision := 4; ca_power_budget_revision := 5;
     ca_override_revision := 6; ca_schedule_revision := 7; ca_max_current_amp := 16;
     ca_voltage := 230; ca_max_session_wh := 20000; ca_can_control := true |}.
Definition now : Z := seconds 1200.
Definition slot (start tariff solar budget : Z) : EnergySlot :=
  {| es_start_at := seconds start; es_end_at := seconds (start + 3600);
     es_tariff_micros_per_kwh := tariff; es_solar_surplus_w := solar; es_home_budget_w := budget |}.
Definition s1 := slot 1260 300000 0 4000.
Definition s2 := slot 4860 200000 0 4000.
Definition s3 := slot 8460 250000 1000 1000.
Definition state (name : string) (revision : Z) : ProviderState :=
  {| ps_name := name; ps_revision := revision; ps_status := "verified"; ps_observed_at := seconds 1190 |}.
Definition inputs : EnergyInputs :=
  {| ci_tariff_revision := 3; ci_solar_revision := 4; ci_power_budget_revision := 5;
     ci_override_revision := 6;
     ci_provider_states := [state "tariff" 3; state "solar" 4; state "power_budget" 5];
     ci_slots := [s1; s2; s3]; ci_manual_override := None |}.
Definition goal (target : Z) : ChargeGoal :=
  {| cg_departure_at := seconds 12060; cg_current_soc := 50; cg_minimum_soc := 50;
     cg_target_soc := target; cg_battery_capacity_wh := 50000; cg_max_current_amp := 16 |}.

Definition plan_for (target : Z) : res jval :=
  charge_plan authority (authority_hash authority) inputs (goal target) now now now.
Definition payload_for (target : Z) : jval :=
  match plan_for target with Ok v => v | Raise _ => JNull end.
(** 5 kWh: the cheapest slot in full, then the one in the sun. *)
Definition preview_10 : ChargePreview :=
  {| cp_id := u "p1"; cp_status := PlanReady; cp_plan_hash := "plan"; cp_authority_hash := "authority";
     cp_charger_revision := 2; cp_schedule_revision := 7; cp_tariff_revision := 3;
     cp_power_budget_revision := 5; cp_required_wh := 5000;
     cp_slots := [planned_slot 16 3680 s2; planned_slot 8 1320 s3];
     cp_provider_status := [("power_budget", "verified"); ("solar", "verified");
                            ("tariff", "verified")]%string;
     cp_override_expires_at := None |}.
Lemma authority_valid : ChargeAuthority_valid authority.
Proof. apply (bool_decide_unpack _). vm_compute. done. Qed.

Lemma charge_plan_optimal_witness :
  zsum (pc_energy_wh <$> cp_slots preview_10) = 5000 /\
  plan_cost (cp_slots preview_10) <= plan_cost [planned_slot 16 3680 s1; planned_slot 8 1320 s3].
Proof.
  destruct (charge_plan_optimal authority (authority_hash authority) inputs (goal 60) now now now
    (payload_for 60) (u "p1") "plan" preview_10 authority_valid)
    as (_ & Hsum & _ & _ & _ & _ & Hbest); [vm_compute; reflexivity..|reflexivity|].
  split; [exact Hsum|]. apply Hbest; [|vm_compute; discriminate].
  split.
  - constructor; [exists s1|constructor; [exists s3|constructor]];
      (split; [cbn; set_solver|]); vm_compute; split_and!; done.
  - apply (bool_decide_unpack _). vm_compute. done.
Defined.

Lemma plan_60 : plan_for 60 = Ok (payload_for 60).
Proof. vm_compute. reflexivity. Qed.
Lemma plan_80 : plan_for 80 = Raise (ApiError "charge_target_unreachable" 409).
Proof. vm_compute. reflexivity. Qed.

Lemma charge_plan_complete_witness :
  (exists ps, charge_safe authority (goal 60) (ci_slots inputs) ps /\
     zsum (pc_energy_wh <$> ps) = required_energy (goal 60)) /\
  forall ps, charge_safe authority (goal 80) (ci_slots inputs) ps ->
    zsum (pc_energy_wh <$> ps) < required_energy (goal 80).
Proof.
  pose proof (charge_plan_complete authority (authority_hash authority) inputs (goal 60) now now now
      (cp_provider_status preview_10) authority_valid) as H6.
  pose proof (charge_plan_complete authority (authority_hash authority) inputs (goal 80) now now now
      (cp_provider_status preview_10) authority_valid) as H8.
  fold (plan_for 60) in H6. fold (plan_for 80) in H8. rewrite plan_60 in H6. rewrite plan_80 in H8.
  split.
  - apply H6; [vm_compute; reflexivity|exact I|vm_compute; reflexivity|vm_compute; discriminate].
  - apply H8; [vm_compute; reflexivity|exact I|vm_compute; reflexivity|vm_compute; discriminate].
Defined.

Local Notation world := (world (P := ChargePreview)).
Local Notation step := (world_step charge_preview_from_row cp_plan_hash
  (charge_planned plan_digest) charge_ready).
Local Notation reachable := (world_reachable charge_preview_from_row cp_plan_hash
  (charge_planned plan_digest) charge_ready).
Definition w1 : world :=
  (charge_preview plan_digest AuthExample.me authority inputs (goal 60) (u "p1") now now now "a1"
     new_world).2.
Definition confirmed (cmd a1 a2 : string) : M world CommandReceipt :=
  charge_confirm AuthExample.me authority inputs (u "p1") (u cmd) "plan" now now (seconds 1201) a1 false
    (seconds 1202) a2.
Definition w2 : world := (confirmed "c1" "a2" "a3" w1).2.

Lemma charge_previewed_reachable : reachable w1.
Proof. apply (charge_preview_steps plan_digest fp), authority_valid. Qed.
Lemma charge_confirmed_reachable : reachable w2.
Proof.
  unfold world_reachable. transitivity w1; [apply charge_previewed_reachable|].
  apply (charge_confirm_steps plan_digest fp), charge_previewed_reachable.
Qed.

Lemma charge_service_refines_witness : rtc step w1 w2 /\ length (w_sent w2) = 1%nat.
Proof.
  split; [|vm_compute; reflexivity].
  apply (charge_service_refines plan_digest fp AuthExample.me authority inputs (goal 60) (u "p1") (u "c1")
    "plan" now now (seconds 1201) (seconds 1202) "a2" "a3" false (Ok None) w1 charge_previewed_reachable authority_valid).
Defined.

Lemma charge_sent_once_and_safe_witness :
  NoDup (preview_of <$> w_sent w2) /\ fmap snd (w_sent w2) = [preview_10].
Proof.
  split; [apply (charge_sent_once_and_safe plan_digest fp w2 charge_confirmed_reachable)|vm_compute; reflexivity].
Defined.

(** A second command for the preview is refused. *)
Example used_up : (confirmed "c2" "b2" "b3" w2).1 = Raise (ApiError "charge_command_conflict" 409).
Proof. vm_compute. reflexivity. Qed.

Definition device : ChargeDeviceCapability :=
  {| cd_charger_id := carport; cd_label := u "Carport"; cd_charger_revision := 2;
     cd_schedule_revision := 7; cd_tariff_revision := 3; cd_power_budget_revision := 5;
     cd_current_soc := 50; cd_battery_capacity_wh := 50000; cd_max_current_amp := 16 |}.
Definition capability : ChargeProviderCapability :=
  {| cc_state := "ready"; cc_provider_kind := "ocpp"; cc_can_plan := true; cc_can_control := true;
     cc_reason := "ready"; cc_chargers := [device] |}.
Example capability_is_valid : ChargeProviderCapability_valid capability.
Proof. apply (bool_decide_unpack _). vm_compute. done. Qed.
Definition rt : EvChargeRuntime :=
  {| er_core_id := u "core"; er_home_id := u "home"; er_control_available := true;
     er_provider := Some (Ok (Shaped capability), Ok (Shaped (authority, inputs)));
     er_before := (now, AuthExample.d1); er_after := (now, AuthExample.d1) |}.
Definition body : ConfirmCharge :=
  {| cq_previewId := u "p1"; cq_commandId := u "c1"; cq_expectedPlanHash := "plan";
     cq_expectedChargerRevision := 2; cq_expectedScheduleRevision := 7 |}.

Lemma charge_control_authorised_witness :
  runtime_actor (now, AuthExample.d1) AuthExample.me = Ok tt /\ ca_can_control authority = true.
Proof.
  destruct (charge_control_authorised plan_digest fp rt AuthExample.me (u "core") (u "home") carport body
    now now (seconds 1201) "a2" false (seconds 1202) "a3" w1 charge_previewed_reachable)
    as (_ & Hb & _ & _ & c & a & i & d & r & p & Hp & _ & _ & _ & _ & Hc & _);
    [vm_compute; discriminate|].
  split; [exact Hb|]. cbn in Hp. injection Hp as _ <- _. exact Hc.
Defined.
End ChargeExample.
