(* ===== verification/UtcText.v ===== *)
(** * UTC texts

    [ReservationStore._utc_text] and [_utc_value] of
    [server/larenor_server/resource_reservations/service.py]: an instant to the
    second as the text [YYYY-MM-DDTHH:MM:SSZ].  An instant is its number of
    seconds since 1970-01-01T00:00:00Z; [datetime] covers the years 1 to 9999
    of the proleptic Gregorian calendar. *)

From S2P Require Import Prelude.

(** [lia] knows quotients by constants. *)
#[local] Ltac Zify.zify_post_hook ::= Z.to_euclidean_division_equations.

Definition DAY_SECONDS : Z := 86400.
Definition MIN_UTC : Z := -62135596800.
Definition MAX_UTC : Z := 253402300800.
Definition utc_instant (t : Z) : Prop := MIN_UTC <= t < MAX_UTC.
#[export] Instance utc_instant_dec t : Decision (utc_instant t).
Proof. unfold utc_instant. apply _. Defined.

(** ** The calendar

    A year starts in March here, so that the leap day is its last; an era has
    400 years. *)

Definition ERA_DAYS : Z := 146097.
(** From 0000-03-01 to 1970-01-01. *)
Definition EPOCH_DAYS : Z := 719468.

Definition year_of_era (day_of_era : Z) : Z :=
  (day_of_era - day_of_era / 1460 + day_of_era / 36524 - day_of_era / 146096) / 365.
(** The first day of a year of an era. *)
Definition year_start (year_of_era : Z) : Z :=
  365 * year_of_era + year_of_era / 4 - year_of_era / 100.
(** Month and day of a day of the year. *)
Definition month_day (day_of_year : Z) : Z * Z :=
  let mp := (5 * day_of_year + 2) / 153 in
  (if decide (mp < 10) then mp + 3 else mp - 9, day_of_year - (153 * mp + 2) / 5 + 1).
Definition day_of_year (month day : Z) : Z :=
  (153 * (if decide (2 < month) then month - 3 else month + 9) + 2) / 5 + day - 1.

(** The date of a day, counted from 1970-01-01, and back. *)
Definition civil_of_days (n : Z) : Z * Z * Z :=
  let z := n + EPOCH_DAYS in
  let era := z / ERA_DAYS in
  let doe := z mod ERA_DAYS in
  let yoe := year_of_era doe in
  let '(month, day) := month_day (doe - year_start yoe) in
  (yoe + 400 * era + (if decide (2 < month) then 0 else 1), month, day).
Definition days_of_civil (year month day : Z) : Z :=
  let y := if decide (2 < month) then year else year - 1 in
  let era := y / 400 in
  let yoe := y mod 400 in
  era * ERA_DAYS + year_start yoe + day_of_year month day - EPOCH_DAYS.

(** ** Texts *)

Definition digit (n : Z) : Z := 48 + n.
Definition pad2 (n : Z) : ustr := [digit (n / 10); digit (n mod 10)].
Definition pad4 (n : Z) : ustr := pad2 (n / 100) ++ pad2 (n mod 100).

(** [_utc_text] *)
Definition utc_text (t : Z) : ustr :=
  let '(year, month, day) := civil_of_days (t / DAY_SECONDS) in
  let s := t mod DAY_SECONDS in
  pad4 year ++ u "-" ++ pad2 month ++ u "-" ++ pad2 day ++ u "T" ++
  pad2 (s / 3600) ++ u ":" ++ pad2 (s / 60 mod 60) ++ u ":" ++ pad2 (s mod 60) ++ u "Z".

(** The number that digits denote. *)
Definition number (digits : ustr) : Z := foldl (fun acc c => 10 * acc + (c - 48)) 0 digits.

(** The instant that a text of twenty characters denotes, if it is one. *)
Definition read_utc (s : ustr) : Z :=
  let field from len := number (take len (drop from s)) in
  days_of_civil (field 0%nat 4%nat) (field 5%nat 2%nat) (field 8%nat 2%nat) * DAY_SECONDS +
  field 11%nat 2%nat * 3600 + field 14%nat 2%nat * 60 + field 17%nat 2%nat.

(** [_utc_value]: [datetime.fromisoformat] reads the text and [isoformat] has to
    give it back, so that exactly the texts of [_utc_text] pass. *)
Definition utc_value (s : ustr) : res Z :=
  let t := read_utc s in
  _ ← raise_if (~ (utc_instant t /\ utc_text t = s)) (ApiError "invalid_request" 400);
  Ok t.

(** ** Correctness of the calendar *)

Definition year_ok (y : nat) : bool :=
  let y := Z.of_nat y in
  bool_decide (year_of_era (year_start y) = y /\
               year_of_era ((if decide (y = 399) then ERA_DAYS else year_start (y + 1)) - 1) = y).
Definition day_ok (d : nat) : bool :=
  let d := Z.of_nat d in
  let '(month, day) := month_day d in
  bool_decide (day_of_year month day = d /\ 1 <= month <= 12 /\ 1 <= day <= 31).

Lemma years_ok : forallb year_ok (seq 0 400) = true.
Proof. vm_compute. reflexivity. Qed.
Lemma days_ok : forallb day_ok (seq 0 366) = true.
Proof. vm_compute. reflexivity. Qed.

Lemma forallb_seq (f : nat -> bool) n k : forallb f (seq 0 n) = true -> (k < n)%nat -> f k = true.
Proof. rewrite forallb_forall. intros H Hk. apply H, in_seq. lia. Qed.

Lemma year_of_era_mono a b : 0 <= a <= b -> b < ERA_DAYS -> year_of_era a <= year_of_era b.
Proof.
  intros Hab Hb. unfold year_of_era, ERA_DAYS in *. apply Z.div_le_mono; [lia|].
  assert (Hstep : forall n : nat, a + Z.of_nat n < 146097 ->
    a - a / 1460 + a / 36524 - a / 146096 <=
    a + Z.of_nat n - (a + Z.of_nat n) / 1460 + (a + Z.of_nat n) / 36524 - (a + Z.of_nat n) / 146096).
  { induction n as [|n IH]; intros Hn; [rewrite Z.add_0_r; lia|]. specialize (IH ltac:(lia)).
    replace (a + Z.of_nat (S n)) with (a + Z.of_nat n + 1) in * by lia.
    assert (0 <= a + Z.of_nat n) as Hx by lia. revert Hx Hn IH. generalize (a + Z.of_nat n).
    intros x Hx Hn IH. etrans; [exact IH|]. clear IH Hab. 
    assert ((x + 1) / 1460 <= x / 1460 + 1) by lia.
    destruct (decide ((x + 1) / 146096 = x / 146096)) as [E|E].
    - rewrite E. assert (x / 36524 <= (x + 1) / 36524) by (apply Z.div_le_mono; lia). lia.
    - assert (x = 146095) as -> by lia. by vm_compute. }
  specialize (Hstep (Z.to_nat (b - a))). rewrite Z2Nat.id in Hstep by lia.
  replace (a + (b - a)) with b in Hstep by lia. by apply Hstep.
Qed.

Lemma year_of_era_range doe :
  0 <= doe < ERA_DAYS ->
  0 <= year_of_era doe < 400 /\ 0 <= doe - year_start (year_of_era doe) < 366.
Proof.
  intros Hdoe.
  assert (Hy : forall y, 0 <= y < 400 -> year_of_era (year_start y) = y /\
    year_of_era ((if decide (y = 399) then ERA_DAYS else year_start (y + 1)) - 1) = y).
  { intros y Hy. pose proof (forallb_seq _ _ (Z.to_nat y) years_ok ltac:(lia)) as H.
    unfold year_ok in H. rewrite Z2Nat.id in H by lia. by apply bool_decide_eq_true in H. }
  assert (H0 : year_of_era 0 = 0) by done.
  assert (H399 : year_of_era (ERA_DAYS - 1) = 399) by done.
  assert (Hr : 0 <= year_of_era doe < 400).
  { pose proof (year_of_era_mono 0 doe ltac:(lia) ltac:(lia)).
    pose proof (year_of_era_mono doe (ERA_DAYS - 1) ltac:(lia) ltac:(lia)). lia. }
  split; [done|].
  remember (year_of_era doe) as y eqn:Hyd. destruct (Hy y Hr) as [Hfirst Hlast].
  assert (Hlow : year_start y <= doe).
  { destruct (decide (year_start y <= doe)) as [|Hn]; [done|exfalso].
    destruct (decide (y = 0)) as [E|Hne]; [rewrite E in Hn; apply Hn; change (0 <= doe); lia|].
    destruct (Hy (y - 1) ltac:(lia)) as [_ Hprev]. rewrite decide_False in Hprev by lia.
    replace (y - 1 + 1) with y in Hprev by lia.
    assert (year_start y <= ERA_DAYS) by (unfold year_start, ERA_DAYS; lia).
    pose proof (year_of_era_mono doe (year_start y - 1) ltac:(lia) ltac:(lia)). lia. }
  assert (Hhigh : doe < if decide (y = 399) then ERA_DAYS else year_start (y + 1)).
  { case_decide as E; [lia|]. destruct (decide (doe < year_start (y + 1))) as [|Hn]; [done|exfalso].
    destruct (Hy (y + 1) ltac:(lia)) as [Hnext _].
    assert (0 <= year_start (y + 1)) by (unfold year_start; lia).
    pose proof (year_of_era_mono (year_start (y + 1)) doe ltac:(lia) ltac:(lia)). lia. }
  split; [lia|]. unfold year_start in *. case_decide; [subst; unfold ERA_DAYS in *; lia|lia].
Qed.

Lemma month_day_inverse d :
  0 <= d < 366 ->
  let '(month, day) := month_day d in
  day_of_year month day = d /\ 1 <= month <= 12 /\ 1 <= day <= 31.
Proof.
  intros Hd. pose proof (forallb_seq _ _ (Z.to_nat d) days_ok ltac:(lia)) as H.
  unfold day_ok in H. rewrite Z2Nat.id in H by lia. destruct (month_day d).
  by apply bool_decide_eq_true in H.
Qed.

(** Every day has exactly one date. *)
Lemma days_of_civil_of_days n :
  let '(year, month, day) := civil_of_days n in
  days_of_civil year month day = n /\ 1 <= month <= 12 /\ 1 <= day <= 31.
Proof.
  unfold civil_of_days.
  pose proof (Z.mod_pos_bound (n + EPOCH_DAYS) ERA_DAYS ltac:(done)) as Hdoe.
  pose proof (Z.div_mod (n + EPOCH_DAYS) ERA_DAYS ltac:(done)) as Hz.
  set (doe := (n + EPOCH_DAYS) mod ERA_DAYS) in *. set (era := (n + EPOCH_DAYS) / ERA_DAYS) in *.
  destruct (year_of_era_range doe Hdoe) as [Hyoe Hdoy].
  pose proof (month_day_inverse _ Hdoy) as Hmd.
  destruct (month_day (doe - year_start (year_of_era doe))) as [month day].
  destruct Hmd as (Hd & Hm & Hday). split; [|done]. unfold days_of_civil.
  set (yoe := year_of_era doe) in *.
  assert ((if decide (2 < month) then yoe + 400 * era + (if decide (2 < month) then 0 else 1)
           else yoe + 400 * era + (if decide (2 < month) then 0 else 1) - 1) = yoe + 400 * era) as ->
    by (case_decide; lia).
  replace ((yoe + 400 * era) / 400) with era by lia.
  replace ((yoe + 400 * era) mod 400) with yoe by lia. rewrite Hd. lia.
Qed.

(** ** Texts and instants *)

Lemma number_pad2 n : number (pad2 n) = n.
Proof. unfold number, pad2, digit. cbn. lia. Qed.
Lemma number_pad4 n : number (pad4 n) = n.
Proof. unfold number, pad4, pad2, digit. cbn. lia. Qed.

Lemma read_utc_text t : read_utc (utc_text t) = t.
Proof.
  pose proof (days_of_civil_of_days (t / DAY_SECONDS)) as Hd. unfold read_utc, utc_text.
  destruct (civil_of_days (t / DAY_SECONDS)) as [[year month] day]. destruct Hd as [Hd _].
  set (s := t mod DAY_SECONDS).
  change (days_of_civil (number (pad4 year)) (number (pad2 month)) (number (pad2 day)) * DAY_SECONDS +
    number (pad2 (s / 3600)) * 3600 + number (pad2 (s / 60 mod 60)) * 60 + number (pad2 (s mod 60)) = t).
  rewrite number_pad4, !number_pad2, Hd. subst s. unfold DAY_SECONDS. lia.
Qed.

(** Texts and instants correspond: the text of an instant reads as that instant,
    and a text that reads as an instant is its text. *)
Theorem utc_value_text s t : utc_value s = Ok t <-> utc_instant t /\ utc_text t = s.
Proof.
  unfold utc_value. split.
  - intros Hv. inv_ok. passed. done.
  - intros [Ht <-]. rewrite read_utc_text, raise_if_no by naive_solver. done.
Qed.

Lemma utc_text_inj t t' : utc_text t = utc_text t' -> t = t'.
Proof. intros E. by rewrite <- (read_utc_text t), E, read_utc_text. Qed.

Module UtcExample.
Example leap_day : utc_text 1709210096 = u "2024-02-29T12:34:56Z".
Proof. vm_compute. reflexivity. Qed.
Example first_instant : utc_text MIN_UTC = u "0001-01-01T00:00:00Z".
Proof. vm_compute. reflexivity. Qed.
Example last_instant : utc_text (MAX_UTC - 1) = u "9999-12-31T23:59:59Z".
Proof. vm_compute. reflexivity. Qed.
Example reads : utc_value (u "2024-02-29T12:34:56Z") = Ok 1709210096.
Proof. vm_compute. reflexivity. Qed.
Example no_leap_day : utc_value (u "2023-02-29T12:34:56Z") = Raise (ApiError "invalid_request" 400).
Proof. vm_compute. reflexivity. Qed.
Example no_offset : utc_value (u "2024-02-29T12:34:56+00:00") = Raise (ApiError "invalid_request" 400).
Proof. vm_compute. reflexivity. Qed.
End UtcExample.
