(* ===== verification/Reservations.v ===== *)
(** * Shared resource reservations

    [ReservationStore] of [server/larenor_server/resource_reservations/service.py]
    on the tables of [schema.py]: a calendar for each resource of a home, with a
    capacity that overlapping reservations share.  A reservation recurs at a
    local time of the resource's time zone; it is stored encrypted, and every
    creation and cancellation appends an event to the keyed chain of the
    resource's calendar.

    HMAC-SHA-256, AES-GCM, the JSON decoder, [datetime.fromisoformat] and the
    time zone database are parameters; a canonical JSON text that is signed or
    encrypted is the value it denotes.  Local times are wall clocks in seconds
    since 1970-01-01T00:00:00. *)

From S2P Require Import Prelude Auth UtcText.

Definition MAX_COMMAND_BYTES : Z := 16384.
Definition MAX_OCCURRENCES : Z := 64.
Definition MAX_RECURRENCE_DAYS : Z := 366.
Definition MAX_RESERVATIONS : Z := 1000.
Definition MAX_WINDOW_DAYS : Z := 93.
Definition MAX_READ_LIMIT : Z := 256.
Definition MAX_CAPACITY : Z := 64.
Definition MAX_DURATION_SECONDS : Z := 86400.

(** ** Contracts *)

Definition _positive_revision (n : Z) : Prop := 0 < n.
#[export] Instance _positive_revision_dec n : Decision (_positive_revision n).
Proof. unfold _positive_revision. apply _. Defined.

Record ResourceRule := {
  rr_id : ustr;
  rr_revision : Z;
  rr_capacity : Z;
  rr_timezone : ustr;
  rr_member_ids : list ustr;
}.
Record ReservationAuthority := {
  ra_core_id : ustr;
  ra_home_id : ustr;
  ra_account_id : ustr;
  ra_core_revision : Z;
  ra_home_revision : Z;
  ra_account_revision : Z;
  ra_members_revision : Z;
  ra_calendar_revision : Z;
  ra_member_ids : list ustr;
  ra_resource : ResourceRule;
}.

(** [__post_init__]; [zone_known] tells whether [ZoneInfo] knows a name. *)
Definition member_list (ids : list ustr) `{UnicodeData} : Prop :=
  1 <= Z.of_nat (length ids) <= 128 /\ NoDup ids /\ Forall _identifier ids.
#[export] Instance member_list_dec ids `{UnicodeData} : Decision (member_list ids).
Proof. unfold member_list. apply _. Defined.
Definition ResourceRule_valid `{UnicodeData} (zone_known : ustr -> bool) (r : ResourceRule) : Prop :=
  zone_known (rr_timezone r) = true /\ _identifier (rr_id r) /\ (length (rr_timezone r) <= 128)%nat /\
  _positive_revision (rr_revision r) /\ 1 <= rr_capacity r <= MAX_CAPACITY /\
  member_list (rr_member_ids r).
#[export] Instance ResourceRule_valid_dec `{UnicodeData} k r : Decision (ResourceRule_valid k r).
Proof. unfold ResourceRule_valid. apply _. Defined.
Definition ReservationAuthority_valid `{UnicodeData} (a : ReservationAuthority) : Prop :=
  Forall _identifier [ra_core_id a; ra_home_id a; ra_account_id a] /\
  Forall _positive_revision [ra_core_revision a; ra_home_revision a; ra_account_revision a;
                             ra_members_revision a; ra_calendar_revision a] /\
  member_list (ra_member_ids a) /\
  Forall (fun i => i ∈ ra_member_ids a) (rr_member_ids (ra_resource a)).
#[export] Instance ReservationAuthority_valid_dec `{UnicodeData} a :
  Decision (ReservationAuthority_valid a).
Proof. unfold ReservationAuthority_valid. apply _. Defined.

Record Occurrence := { oc_start_utc : ustr; oc_end_utc : ustr }.
#[export] Instance Occurrence_eq_dec : EqDecision Occurrence.
Proof. solve_decision. Defined.
Record Reservation := {
  rs_id : ustr;
  rs_revision : Z;
  rs_owner_id : ustr;
  rs_resource_id : ustr;
  rs_timezone : ustr;
  rs_local_start : ustr;
  rs_duration_seconds : Z;
  rs_units : Z;
  rs_occurrences : list Occurrence;
  rs_created_at : Z;
  rs_cancelled_at : option Z;
}.
#[export] Instance Reservation_eq_dec : EqDecision Reservation.
Proof. solve_decision. Defined.

Inductive reservation_action := Created | Cancelled.
#[export] Instance reservation_action_eq_dec : EqDecision reservation_action.
Proof. solve_decision. Defined.
Definition reservation_action_name (a : reservation_action) : string :=
  match a with Created => "created" | Cancelled => "cancelled" end.

Record ReservationReceipt := {
  rp_event_id : ustr;
  rp_command_id : ustr;
  rp_action : reservation_action;
  rp_calendar_revision : Z;
  rp_reservation : Reservation;
}.
Record ReservationEvent := {
  re_event_id : ustr;
  re_action : reservation_action;
  re_actor_id : ustr;
  re_reservation_id : ustr;
  re_calendar_revision : Z;
  re_occurred_at : Z;
}.

(** ** Tables *)

(** Core, home and resource. *)
Definition calendar : Type := ustr * ustr * ustr.
Definition calendar_of (a : ReservationAuthority) : calendar :=
  (ra_core_id a, ra_home_id a, rr_id (ra_resource a)).

Record reservation_row {Cipher : Type} := {
  rw_id : ustr;
  rw_calendar : calendar;
  rw_revision : Z;
  rw_nonce : string;
  rw_ciphertext : Cipher;
  rw_payload_hash : string;
  rw_request_hash : string;
  rw_created_at : Z;
}.
#[global] Arguments reservation_row : clear implicits.
Record reservation_event_row := {
  rv_sequence : Z;
  rv_event_id : ustr;
  rv_calendar : calendar;
  rv_command_id : ustr;
  rv_action : reservation_action;
  rv_actor_id : ustr;
  rv_reservation_id : ustr;
  rv_calendar_revision : Z;
  rv_occurred_at : Z;
  rv_request_hash : string;
  rv_previous_hash : string;
  rv_event_hash : string;
}.
Record reservation_state_row := {
  rt_calendar : calendar;
  rt_base_revision : Z;
  rt_revision : Z;
  rt_event_count : Z;
  rt_last_hash : string;
  rt_state_hash : string;
}.
Record reservation_db {Cipher : Type} := {
  rd_records : list (reservation_row Cipher);
  rd_events : list reservation_event_row;
  rd_states : list reservation_state_row;
}.
#[global] Arguments reservation_db : clear implicits.

(** What one call reads from the clock, [uuid4] and [urandom]. *)
Record reservation_env := {
  rn_now : Z;
  rn_reservation_id : ustr;
  rn_event_id : ustr;
  rn_nonce : string;
}.

(** What [datetime.fromisoformat] reads. *)
Record iso_datetime := { iso_aware : bool; iso_microsecond : Z; iso_wall : Z }.

(** ** JSON *)

Definition occurrence_json (o : Occurrence) : jval :=
  JObj [("end_utc", JText (oc_end_utc o)); ("start_utc", JText (oc_start_utc o))]%string.
Definition occurrence_of_json (v : jval) : option Occurrence :=
  match v with
  | JObj [("end_utc", JText stop); ("start_utc", JText start)]%string =>
      Some {| oc_start_utc := start; oc_end_utc := stop |}
  | _ => None
  end.

(** The payload of a reservation, its keys sorted. *)
Definition payload_json (r : Reservation) : jval :=
  JObj [("created_at", JTime (rs_created_at r)); ("duration_seconds", JInt (rs_duration_seconds r));
        ("local_start", JText (rs_local_start r));
        ("occurrences", JList (occurrence_json <$> rs_occurrences r));
        ("owner_id", JText (rs_owner_id r)); ("resource_id", JText (rs_resource_id r));
        ("timezone", JText (rs_timezone r)); ("units", JInt (rs_units r))]%string.
(** The payload as a dictionary of keyword arguments; a field of a foreign type
    is refused here, only the holder of the keys could have written one. *)
Record reservation_payload := {
  py_owner_id : ustr;
  py_resource_id : ustr;
  py_timezone : ustr;
  py_local_start : ustr;
  py_duration_seconds : Z;
  py_units : Z;
  py_occurrences : list Occurrence;
  py_created_at : Z;
}.
Definition payload_of_json (v : jval) : option reservation_payload :=
  match v with
  | JObj [("created_at", JTime created); ("duration_seconds", JInt duration);
          ("local_start", JText local); ("occurrences", JList occurrences);
          ("owner_id", JText owner); ("resource_id", JText resource);
          ("timezone", JText zone); ("units", JInt units)]%string =>
      occurrences ← mapM occurrence_of_json occurrences;
      Some {| py_owner_id := owner; py_resource_id := resource; py_timezone := zone;
              py_local_start := local; py_duration_seconds := duration; py_units := units;
              py_occurrences := occurrences; py_created_at := created |}
  | _ => None
  end.
(** [Reservation(id=..., revision=..., occurrences=..., cancelled_at=..., **value)] *)
Definition reservation_of (id : ustr) (revision : Z) (cancelled_at : option Z) (p : reservation_payload)
  : Reservation :=
  {| rs_id := id; rs_revision := revision; rs_owner_id := py_owner_id p;
     rs_resource_id := py_resource_id p; rs_timezone := py_timezone p;
     rs_local_start := py_local_start p; rs_duration_seconds := py_duration_seconds p;
     rs_units := py_units p; rs_occurrences := py_occurrences p; rs_created_at := py_created_at p;
     rs_cancelled_at := cancelled_at |}.

(** ** Commands *)

Section commands.
Context `{UnicodeData}.
(** [json.loads(command_bytes.decode("utf-8"), object_pairs_hook=unique)] *)
Variable json_loads : list Z -> res jval.
Variable fromisoformat : ustr -> option iso_datetime.
(** [wall.replace(tzinfo=ZoneInfo(zone), fold=fold).utcoffset()] in seconds, and
    [instant.astimezone(ZoneInfo(zone))] with its [fold]. *)
Variable utcoffset : ustr -> Z -> bool -> Z.
Variable astimezone : ustr -> Z -> Z * bool.

Definition invalid_request : exn := ApiError "invalid_request" 400.

(** [_authorize] *)
Definition reservation_authorize (actor : Principal) (a : ReservationAuthority) : res unit :=
  _ ← raise_if (u (p_id actor) <> ra_account_id a) (ApiError "authority_changed" 409);
  raise_if (p_role actor <> Admin /\
            (u (p_id actor) ∉ ra_member_ids a \/ u (p_id actor) ∉ rr_member_ids (ra_resource a)))
    (ApiError "forbidden" 403).

(** [_parse] *)
Definition parse_command (command_bytes : list Z) (expected_fields : list string)
  : res (list (string * jval)) :=
  _ ← raise_if (~ (1 <= Z.of_nat (length command_bytes) <= MAX_COMMAND_BYTES)) invalid_request;
  value ← except_value_error (json_loads command_bytes) invalid_request;
  match value with
  | JObj l =>
      _ ← raise_if (~ (dict_keys l ⊆ expected_fields /\ expected_fields ⊆ dict_keys l)) invalid_request;
      Ok l
  | _ => Raise invalid_request
  end.

(** [_check_scope] *)
Definition scope_fields (a : ReservationAuthority) : list (string * jval) :=
  [("coreId", JText (ra_core_id a)); ("homeId", JText (ra_home_id a));
   ("accountId", JText (ra_account_id a)); ("coreRevision", JInt (ra_core_revision a));
   ("homeRevision", JInt (ra_home_revision a)); ("accountRevision", JInt (ra_account_revision a));
   ("membersRevision", JInt (ra_members_revision a)); ("resourceId", JText (rr_id (ra_resource a)));
   ("resourceRevision", JInt (rr_revision (ra_resource a)));
   ("expectedCalendarRevision", JInt (ra_calendar_revision a))]%string.
Definition check_scope (value : list (string * jval)) (a : ReservationAuthority) : res unit :=
  raise_if (Exists (fun kv => dict_get value kv.1 <> Some kv.2) (scope_fields a))
    (ApiError "authority_changed" 409).

Definition common_fields : list string :=
  ["action"; "commandId"; "coreId"; "homeId"; "accountId"; "coreRevision"; "homeRevision";
   "accountRevision"; "membersRevision"; "resourceId"; "resourceRevision";
   "expectedCalendarRevision"]%string.
Definition create_fields : list string :=
  common_fields ++ ["timezone"; "localStart"; "fold"; "durationSeconds"; "units"; "recurrence"]%string.
Definition cancel_fields : list string := common_fields ++ ["reservationId"]%string.

(** An identifier among the fields. *)
Definition identifier_field (value : list (string * jval)) (key : string) : option ustr :=
  match dict_get value key with
  | Some (JText s) => if decide (_identifier s) then Some s else None
  | _ => None
  end.
Definition int_field (value : list (string * jval)) (key : string) : option Z :=
  match dict_get value key with Some (JInt n) => Some n | _ => None end.

(** What a create command asks for. *)
Record recurrence_request := {
  rq_duration : Z;
  rq_units : Z;
  rq_step_days : Z;
  rq_count : Z;
  rq_local_start : ustr;
  rq_wall : Z;
  rq_fold : option Z;
}.

Definition step_days (frequency : jval) : option Z :=
  if decide (frequency = JText (u "none")) then Some 0
  else if decide (frequency = JText (u "daily")) then Some 1
  else if decide (frequency = JText (u "weekly")) then Some 7 else None.

(** 2101-01-01 *)
Definition MAX_LOCAL_START : Z := 4133980800.

(** [_local_occurrences] up to its loop. *)
Definition read_recurrence (value : list (string * jval)) (rule : ResourceRule)
  : res recurrence_request :=
  _ ← raise_if (dict_get value "timezone"%string <> Some (JText (rr_timezone rule))) invalid_request;
  duration ← require_some (int_field value "durationSeconds") invalid_request;
  _ ← raise_if (~ (60 <= duration <= MAX_DURATION_SECONDS)) invalid_request;
  units ← require_some (int_field value "units") invalid_request;
  _ ← raise_if (~ (1 <= units <= rr_capacity rule)) invalid_request;
  recurrence ← match dict_get value "recurrence"%string with
               | Some (JObj l) => Ok l
               | _ => Raise invalid_request
               end;
  _ ← raise_if (~ (dict_keys recurrence ⊆ ["frequency"; "count"]%string /\
                   ["frequency"; "count"]%string ⊆ dict_keys recurrence)) invalid_request;
  step ← require_some (f ← dict_get recurrence "frequency"%string; step_days f) invalid_request;
  count ← require_some (int_field recurrence "count") invalid_request;
  _ ← raise_if (~ (1 <= count <= MAX_OCCURRENCES) \/ (step = 0 /\ count <> 1)) invalid_request;
  local_start ← match dict_get value "localStart"%string with
                | Some (JText s) => Ok s
                | _ => Raise invalid_request
                end;
  local ← require_some (fromisoformat local_start) invalid_request;
  _ ← raise_if (iso_aware local = true \/ iso_microsecond local <> 0 \/
                ~ (0 <= iso_wall local < MAX_LOCAL_START)) invalid_request;
  _ ← raise_if (count > 1 /\ step * (count - 1) > MAX_RECURRENCE_DAYS) invalid_request;
  fold ← match dict_get value "fold"%string with
         | Some (JInt n) => Ok (Some n)
         | Some JNull | None => Ok None
         | _ => Raise invalid_request
         end;
  Ok {| rq_duration := duration; rq_units := units; rq_step_days := step; rq_count := count;
        rq_local_start := local_start; rq_wall := iso_wall local; rq_fold := fold |}.

(** One iteration of its loop: the instant of a local time, which has to exist
    and, where the clock is set back, to be told apart by [fold]. *)
Definition local_instant (zone : ustr) (wall : Z) (fold : option Z) : res Z :=
  let invalid := ApiError "invalid_local_time" 400 in
  let ambiguous := bool_decide (utcoffset zone wall false <> utcoffset zone wall true) in
  candidate_fold ←
    (if ambiguous then
       _ ← raise_if (fold ∉ [Some 0; Some 1]) invalid; Ok (bool_decide (fold = Some 1))
     else _ ← raise_if (fold ∉ [None; Some 0]) invalid; Ok false);
  let start := wall - utcoffset zone wall candidate_fold in
  let '(back_wall, back_fold) := astimezone zone start in
  _ ← raise_if (back_wall <> wall \/ (ambiguous = true /\ back_fold <> candidate_fold)) invalid;
  Ok start.

Definition occurrence_of (start duration : Z) : Occurrence :=
  {| oc_start_utc := utc_text start; oc_end_utc := utc_text (start + duration) |}.

(** The [index]-th occurrence. *)
Definition occurrence_at (zone : ustr) (q : recurrence_request) (index : Z) : res Occurrence :=
  start ← local_instant zone (rq_wall q + rq_step_days q * DAY_SECONDS * index) (rq_fold q);
  Ok (occurrence_of start (rq_duration q)).

(** [_local_occurrences] *)
Definition local_occurrences (zone : ustr) (q : recurrence_request) : res (list Occurrence) :=
  fold_res (fun acc index => o ← occurrence_at zone q index; Ok (acc ++ [o])) []
    (Z.of_nat <$> seq 0 (Z.to_nat (rq_count q))).
End commands.

(** ** The store *)

Section store.
Context `{UnicodeData}.
Variable json_loads : list Z -> res jval.
Variable fromisoformat : ustr -> option iso_datetime.
Variable utcoffset : ustr -> Z -> bool -> Z.
Variable astimezone : ustr -> Z -> Z * bool.
(** [_fingerprint], [_state_hash] and [_event_hash]: HMAC under a domain, of a
    canonical JSON and of bytes. *)
Variable hmac_hex : string -> jval -> string.
Variable hmac_bytes : string -> list Z -> string.
Variable Cipher : Type.
(** [AESGCM(key).encrypt(nonce, raw, aad)] and [decrypt], [None] for [InvalidTag] *)
Variable gcm_encrypt : string -> jval -> ustr -> Cipher.
Variable gcm_decrypt : string -> Cipher -> ustr -> option jval.
Local Notation db := (reservation_db Cipher).
Local Notation row := (reservation_row Cipher).
Implicit Types d : db.
Implicit Types c : calendar.

Definition history_invalid : exn := StartupError "resource_reservation_history_invalid".

Definition calendar_json c : list jval := [JText c.1.1; JText c.1.2; JText c.2].
Definition reservation_state_hash c (base revision count : Z) (last_hash : string) : string :=
  hmac_hex "state" (JList (calendar_json c ++ [JInt base; JInt revision; JInt count; JStr last_hash])).
Definition reservation_event_hash (e : reservation_event_row) : string :=
  hmac_hex "event" (JList ([JInt (rv_sequence e); JText (rv_event_id e)] ++
    calendar_json (rv_calendar e) ++
    [JText (rv_command_id e); JStr (reservation_action_name (rv_action e)); JText (rv_actor_id e);
     JText (rv_reservation_id e); JInt (rv_calendar_revision e); JTime (rv_occurred_at e);
     JStr (rv_request_hash e); JStr (rv_previous_hash e)])).

#[local] Instance reservation_chain : ChainRow reservation_event_row string := {|
  row_previous := rv_previous_hash; row_stored := rv_event_hash;
  row_computed := reservation_event_hash;
|}.

(** [_state] *)
Definition calendar_state d c : res (option reservation_state_row) :=
  match sql_one (fun r => rt_calendar r = c) (rd_states d) with
  | None => Ok None
  | Some r =>
      _ ← raise_if (rt_state_hash r <> reservation_state_hash c (rt_base_revision r) (rt_revision r)
                      (rt_event_count r) (rt_last_hash r)) history_invalid;
      Ok (Some r)
  end.

Definition payload_aad c (id : ustr) : ustr := c.1.1 ++ [0] ++ c.1.2 ++ [0] ++ c.2 ++ [0] ++ id.

(** [_decrypt] *)
Definition decrypt_reservation (r : row) (cancelled_at : option Z) : res Reservation :=
  let invalid := StartupError "resource_reservation_storage_invalid" in
  raw ← require_some (gcm_decrypt (rw_nonce r) (rw_ciphertext r) (payload_aad (rw_calendar r) (rw_id r)))
          invalid;
  _ ← raise_if (hmac_hex "payload" raw <> rw_payload_hash r) invalid;
  payload ← require_some (payload_of_json raw) invalid;
  let result := reservation_of (rw_id r) (rw_revision r) cancelled_at payload in
  _ ← raise_if (rs_occurrences result = [] \/ rs_resource_id result <> (rw_calendar r).2) invalid;
  Ok result.

Definition event_order (a b : reservation_event_row) : Prop := rv_sequence a <= rv_sequence b.
#[local] Instance event_order_dec a b : Decision (event_order a b).
Proof. unfold event_order. apply _. Defined.
Definition record_order (a b : row) : Prop :=
  rw_created_at a < rw_created_at b \/
  (rw_created_at a = rw_created_at b /\ ustr_le (rw_id a) (rw_id b)).
#[local] Instance record_order_dec a b : Decision (record_order a b).
Proof. unfold record_order. apply _. Defined.

(** The two [SELECT]s of [_verified]. *)
Definition calendar_events d c : list reservation_event_row :=
  py_sorted event_order (filter (fun e => rv_calendar e = c) (rd_events d)).
Definition calendar_records d c : list row :=
  py_sorted record_order (filter (fun r => rw_calendar r = c) (rd_records d)).

Definition public_event (e : reservation_event_row) : ReservationEvent :=
  {| re_event_id := rv_event_id e; re_action := rv_action e; re_actor_id := rv_actor_id e;
     re_reservation_id := rv_reservation_id e; re_calendar_revision := rv_calendar_revision e;
     re_occurred_at := rv_occurred_at e |}.

(** What one event does to [creates] and [cancellations]. *)
Definition life_step (acc : list ustr * list (ustr * Z)) (e : reservation_event_row)
  : res (list ustr * list (ustr * Z)) :=
  let '(creates, cancellations) := acc in
  match rv_action e with
  | Created =>
      _ ← raise_if (rv_reservation_id e ∈ creates) history_invalid;
      Ok (creates ++ [rv_reservation_id e], cancellations)
  | Cancelled =>
      _ ← raise_if (rv_reservation_id e ∉ creates \/ rv_reservation_id e ∈ dict_keys cancellations)
            history_invalid;
      Ok (creates, dict_set cancellations (rv_reservation_id e) (rv_occurred_at e))
  end.

(** One iteration of the loop over the events. *)
Definition verify_event (acc : string * (list ustr * list (ustr * Z))) (e : reservation_event_row)
  : res (string * (list ustr * list (ustr * Z))) :=
  _ ← raise_if (rv_previous_hash e <> acc.1 \/ rv_event_hash e <> reservation_event_hash e)
        history_invalid;
  lives ← life_step acc.2 e;
  Ok (rv_event_hash e, lives).

(** [{row["id"]: self._decrypt(row, cancellations.get(row["id"])) for row in records}] *)
Definition open_records (cancellations : list (ustr * Z)) (records : list row)
  : res (list (ustr * Reservation)) :=
  fold_res (fun acc r => v ← decrypt_reservation r (dict_get cancellations (rw_id r));
                         Ok (dict_set acc (rw_id r) v)) [] records.

(** The event that created a record, with the same request. *)
Definition create_matches (events : list reservation_event_row) (r : row) : Prop :=
  exists e, head (filter (fun e => rv_action e = Created /\ rv_reservation_id e = rw_id r) events)
              = Some e /\ rv_request_hash e = rw_request_hash r.
#[local] Instance create_matches_dec events r : Decision (create_matches events r).
Proof.
  unfold create_matches. destruct (head _) as [e|].
  - destruct (decide (rv_request_hash e = rw_request_hash r)); [left; by exists e|right; naive_solver].
  - right. naive_solver.
Defined.

(** [_verified] *)
Definition verified d c : res (list ReservationEvent * list (ustr * Reservation)) :=
  state ← calendar_state d c;
  let events := calendar_events d c in
  let records := calendar_records d c in
  match state with
  | None => _ ← raise_if (events <> [] \/ records <> []) history_invalid; Ok ([], [])
  | Some state =>
      '(previous, (creates, cancellations)) ← fold_res verify_event (""%string, ([], [])) events;
      reservations ← open_records cancellations records;
      _ ← raise_if (~ (dict_keys reservations ⊆ creates /\ creates ⊆ dict_keys reservations) \/
                    Z.of_nat (length events) <> rt_event_count state \/
                    rt_revision state <> rt_base_revision state + Z.of_nat (length events) \/
                    rt_last_hash state <> previous) history_invalid;
      _ ← for_each (fun r => raise_if (~ create_matches events r) history_invalid) records;
      Ok (public_event <$> events, reservations)
  end.

(** ** Writing *)

Definition reservation_event_clash (a b : reservation_event_row) : Prop :=
  rv_sequence a = rv_sequence b \/ rv_event_id a = rv_event_id b \/
  (rv_calendar a = rv_calendar b /\ rv_command_id a = rv_command_id b).
#[local] Instance reservation_event_clash_dec a b : Decision (reservation_event_clash a b).
Proof. unfold reservation_event_clash. apply _. Defined.
Definition reservation_row_clash (a b : row) : Prop := rw_id a = rw_id b.
#[local] Instance reservation_row_clash_dec a b : Decision (reservation_row_clash a b).
Proof. unfold reservation_row_clash. apply _. Defined.

(** [INSERT ... ON CONFLICT DO UPDATE] leaves the base revision. *)
Definition upsert_calendar (r : reservation_state_row) (l : list reservation_state_row)
  : list reservation_state_row :=
  if decide (rt_calendar r ∈ rt_calendar <$> l) then
    sql_update (fun x => rt_calendar x = rt_calendar r)
      (fun x => {| rt_calendar := rt_calendar x; rt_base_revision := rt_base_revision x;
                   rt_revision := rt_revision r; rt_event_count := rt_event_count r;
                   rt_last_hash := rt_last_hash r; rt_state_hash := rt_state_hash r |}) l
  else l ++ [r].

(** [_insert_event]; SQLite binds integers of 64 bits. *)
Definition insert_event (env : reservation_env) (a : ReservationAuthority)
    (state : option reservation_state_row) (command_id : ustr) (action : reservation_action)
    (actor_id reservation_id : ustr) (request_hash : string) : M db (ustr * Z) :=
  d ← get_state;
  let c := calendar_of a in
  let base_revision := match state with None => ra_calendar_revision a | Some s => rt_base_revision s end in
  let current_revision := match state with None => base_revision | Some s => rt_revision s end in
  let event_count := match state with None => 0 | Some s => rt_event_count s end in
  let previous_hash := match state with None => ""%string | Some s => rt_last_hash s end in
  let revision := current_revision + 1 in
  _ ← lift (raise_if (MAX_REVISION < revision) (PyError "OverflowError"));
  let e hash :=
    {| rv_sequence := next_key (rv_sequence <$> rd_events d); rv_event_id := rn_event_id env;
       rv_calendar := c; rv_command_id := command_id; rv_action := action; rv_actor_id := actor_id;
       rv_reservation_id := reservation_id; rv_calendar_revision := revision;
       rv_occurred_at := rn_now env; rv_request_hash := request_hash;
       rv_previous_hash := previous_hash; rv_event_hash := hash |} in
  let e := e (reservation_event_hash (e ""%string)) in
  _ ← lift (raise_if (reservation_id ∉ rw_id <$> rd_records d) IntegrityError);
  events ← lift (sql_insert reservation_event_clash e (rd_events d));
  let count := event_count + 1 in
  _ ← put_state
    {| rd_records := rd_records d; rd_events := events;
       rd_states := upsert_calendar
         {| rt_calendar := c; rt_base_revision := base_revision; rt_revision := revision;
            rt_event_count := count; rt_last_hash := rv_event_hash e;
            rt_state_hash := reservation_state_hash c base_revision revision count (rv_event_hash e) |}
         (rd_states d) |};
  mret (rn_event_id env, revision).

(** [_find_replay] *)
Definition find_replay d c (command_id : ustr) : option reservation_event_row :=
  sql_one (fun e => rv_calendar e = c /\ rv_command_id e = command_id) (rd_events d).

(** [_receipt] *)
Definition reservation_receipt (e : reservation_event_row) (r : Reservation) : ReservationReceipt :=
  {| rp_event_id := rv_event_id e; rp_command_id := rv_command_id e; rp_action := rv_action e;
     rp_calendar_revision := rv_calendar_revision e; rp_reservation := r |}.

(** ** Capacity *)

(** [start < old_end and old_start < end] *)
Definition overlaps (a b : Z * Z) : Prop := a.1 < b.2 /\ b.1 < a.2.
#[export] Instance overlaps_dec a b : Decision (overlaps a b).
Proof. unfold overlaps. apply _. Defined.

Definition span_of (o : Occurrence) : res (Z * Z) :=
  start ← utc_value (oc_start_utc o); stop ← utc_value (oc_end_utc o); Ok (start, stop).
Definition spans_of (l : list Occurrence) : res (list (Z * Z)) :=
  fold_res (fun acc o => s ← span_of o; Ok (acc ++ [s])) [] l.
(** [existing]: the occurrences of the reservations that are not cancelled. *)
Definition busy_spans (reservations : list Reservation) : res (list (Z * Z * Z)) :=
  fold_res (fun acc r => spans ← spans_of (rs_occurrences r);
                         Ok (acc ++ ((fun s => (s, rs_units r)) <$> spans))) []
    (filter (fun r => rs_cancelled_at r = None) reservations).

(** [used] for the [index]-th proposed occurrence. *)
Definition used_units (units : Z) (existing : list (Z * Z * Z)) (proposed : list (Z * Z))
    (index : nat) (span : Z * Z) : Z :=
  units + zsum (snd <$> filter (fun x => overlaps span x.1) existing) +
  zsum ((fun _ => units) <$> filter (fun x => x.1 <> index /\ overlaps span x.2)
                               (imap pair proposed)).

Definition check_capacity (capacity units : Z) (existing : list (Z * Z * Z)) (proposed : list (Z * Z))
  : res unit :=
  for_each (fun x => raise_if (used_units units existing proposed x.1 x.2 > capacity)
                       (ApiError "reservation_overlap" 409))
    (imap pair proposed).

Definition new_reservation (env : reservation_env) (actor : Principal) (rule : ResourceRule)
    (q : recurrence_request) (occurrences : list Occurrence) : Reservation :=
  {| rs_id := rn_reservation_id env; rs_revision := 1; rs_owner_id := u (p_id actor);
     rs_resource_id := rr_id rule; rs_timezone := rr_timezone rule;
     rs_local_start := rq_local_start q; rs_duration_seconds := rq_duration q;
     rs_units := rq_units q; rs_occurrences := occurrences; rs_created_at := rn_now env;
     rs_cancelled_at := None |}.
Definition new_row (env : reservation_env) c (r : Reservation) (request_hash : string) : row :=
  {| rw_id := rs_id r; rw_calendar := c; rw_revision := 1; rw_nonce := rn_nonce env;
     rw_ciphertext := gcm_encrypt (rn_nonce env) (payload_json r) (payload_aad c (rs_id r));
     rw_payload_hash := hmac_hex "payload" (payload_json r); rw_request_hash := request_hash;
     rw_created_at := rs_created_at r |}.
Definition insert_row (r : row) : M db unit :=
  d ← get_state;
  l ← lift (sql_insert reservation_row_clash r (rd_records d));
  put_state {| rd_records := l; rd_events := rd_events d; rd_states := rd_states d |}.

(** ** Operations *)

Definition current_revision (a : ReservationAuthority) (state : option reservation_state_row) : Z :=
  match state with None => ra_calendar_revision a | Some s => rt_revision s end.

(** The transaction of [create]. *)
Definition create_tx (env : reservation_env) (actor : Principal) (a : ReservationAuthority)
    (command_id : ustr) (q : recurrence_request) (occurrences : list Occurrence)
    (request_hash : string) : M db ReservationReceipt :=
  transaction (
    let c := calendar_of a in
    d ← get_state;
    '(_, reservations) ← lift (verified d c);
    match find_replay d c command_id with
    | Some replay =>
        _ ← lift (raise_if (rv_action replay <> Created \/ rv_actor_id replay <> u (p_id actor) \/
                            rv_request_hash replay <> request_hash)
                    (ApiError "idempotency_conflict" 409));
        r ← lift (require_some (dict_get reservations (rv_reservation_id replay)) KeyError);
        mret (reservation_receipt replay r)
    | None =>
        state ← lift (calendar_state d c);
        _ ← lift (raise_if (ra_calendar_revision a <> current_revision a state)
                    (ApiError "authority_changed" 409));
        _ ← lift (raise_if (Z.of_nat (length reservations) >= MAX_RESERVATIONS)
                    (ApiError "reservation_limit_reached" 413));
        proposed ← lift (spans_of occurrences);
        existing ← lift (busy_spans (dict_values reservations));
        _ ← lift (check_capacity (rr_capacity (ra_resource a)) (rq_units q) existing proposed);
        let r := new_reservation env actor (ra_resource a) q occurrences in
        _ ← lift (raise_if (existsb is_surrogate (rq_local_start q) = true)
                    (ValueError "UnicodeEncodeError"));
        _ ← insert_row (new_row env c r request_hash);
        '(event_id, revision) ← insert_event env a state command_id Created (u (p_id actor)) (rs_id r)
                                  request_hash;
        mret {| rp_event_id := event_id; rp_command_id := command_id; rp_action := Created;
                rp_calendar_revision := revision; rp_reservation := r |}
    end).

(** [create] *)
Definition create (env : reservation_env) (actor : Principal) (a : ReservationAuthority)
    (command_bytes : list Z) : M db ReservationReceipt :=
  _ ← lift (reservation_authorize actor a);
  value ← lift (parse_command json_loads command_bytes create_fields);
  _ ← lift (check_scope value a);
  _ ← lift (raise_if (dict_get value "action"%string <> Some (JText (u "create"))) invalid_request);
  command_id ← lift (require_some (identifier_field value "commandId") invalid_request);
  q ← lift (read_recurrence fromisoformat value (ra_resource a));
  occurrences ← lift (local_occurrences utcoffset astimezone (rr_timezone (ra_resource a)) q);
  create_tx env actor a command_id q occurrences (hmac_bytes "request" command_bytes).

Definition cancelled (now : Z) (r : Reservation) : Reservation :=
  {| rs_id := rs_id r; rs_revision := rs_revision r; rs_owner_id := rs_owner_id r;
     rs_resource_id := rs_resource_id r; rs_timezone := rs_timezone r;
     rs_local_start := rs_local_start r; rs_duration_seconds := rs_duration_seconds r;
     rs_units := rs_units r; rs_occurrences := rs_occurrences r; rs_created_at := rs_created_at r;
     rs_cancelled_at := Some now |}.

(** The transaction of [cancel]. *)
Definition cancel_tx (env : reservation_env) (actor : Principal) (a : ReservationAuthority)
    (command_id reservation_id : ustr) (request_hash : string) : M db ReservationReceipt :=
  transaction (
    let c := calendar_of a in
    d ← get_state;
    '(_, reservations) ← lift (verified d c);
    match find_replay d c command_id with
    | Some replay =>
        _ ← lift (raise_if (rv_action replay <> Cancelled \/ rv_actor_id replay <> u (p_id actor) \/
                            rv_reservation_id replay <> reservation_id \/
                            rv_request_hash replay <> request_hash)
                    (ApiError "idempotency_conflict" 409));
        r ← lift (require_some (dict_get reservations (rv_reservation_id replay)) KeyError);
        mret (reservation_receipt replay r)
    | None =>
        state ← lift (calendar_state d c);
        _ ← lift (raise_if (state = None \/ ra_calendar_revision a <> current_revision a state)
                    (ApiError "authority_changed" 409));
        r ← lift (require_some (dict_get reservations reservation_id) (ApiError "not_found" 404));
        _ ← lift (raise_if (rs_cancelled_at r <> None) (ApiError "reservation_already_cancelled" 409));
        _ ← lift (raise_if (p_role actor <> Admin /\ rs_owner_id r <> u (p_id actor))
                    (ApiError "forbidden" 403));
        '(event_id, revision) ← insert_event env a state command_id Cancelled (u (p_id actor)) (rs_id r)
                                  request_hash;
        mret {| rp_event_id := event_id; rp_command_id := command_id; rp_action := Cancelled;
                rp_calendar_revision := revision; rp_reservation := cancelled (rn_now env) r |}
    end).

(** [cancel] *)
Definition cancel (env : reservation_env) (actor : Principal) (a : ReservationAuthority)
    (command_bytes : list Z) : M db ReservationReceipt :=
  _ ← lift (reservation_authorize actor a);
  value ← lift (parse_command json_loads command_bytes cancel_fields);
  _ ← lift (check_scope value a);
  _ ← lift (raise_if (dict_get value "action"%string <> Some (JText (u "cancel"))) invalid_request);
  command_id ← lift (require_some (identifier_field value "commandId") invalid_request);
  reservation_id ← lift (require_some (identifier_field value "reservationId") invalid_request);
  cancel_tx env actor a command_id reservation_id (hmac_bytes "request" command_bytes).

(** [_read] *)
Definition read_calendar (actor : Principal) (a : ReservationAuthority) d
  : res (Z * list ReservationEvent * list (ustr * Reservation)) :=
  _ ← reservation_authorize actor a;
  '(events, reservations) ← verified d (calendar_of a);
  state ← calendar_state d (calendar_of a);
  let revision := current_revision a state in
  _ ← raise_if (revision <> ra_calendar_revision a) (ApiError "authority_changed" 409);
  Ok (revision, events, reservations).

(** [receipt] *)
Definition receipt (actor : Principal) (a : ReservationAuthority) (command_id : ustr) d
  : res (option ReservationReceipt) :=
  _ ← reservation_authorize actor a;
  _ ← raise_if (~ _identifier command_id) invalid_request;
  '(_, reservations) ← verified d (calendar_of a);
  state ← calendar_state d (calendar_of a);
  _ ← raise_if (current_revision a state <> ra_calendar_revision a) (ApiError "authority_changed" 409);
  match find_replay d (calendar_of a) command_id with
  | None => Ok None
  | Some replay =>
      _ ← raise_if (rv_actor_id replay <> u (p_id actor)) (ApiError "not_found" 404);
      r ← require_some (dict_get reservations (rv_reservation_id replay)) history_invalid;
      Ok (Some (reservation_receipt replay r))
  end.

Definition read_limit (limit : Z) : res unit :=
  raise_if (~ (1 <= limit <= MAX_READ_LIMIT)) invalid_request.

(** [history] *)
Definition history (actor : Principal) (a : ReservationAuthority) (limit : Z) d
  : res (list ReservationEvent) :=
  _ ← read_limit limit;
  '(_, events, _) ← read_calendar actor a d;
  Ok (drop (length events - Z.to_nat limit) events).

(** A busy time: start, end and units. *)
Definition busy_time : Type := Occurrence * Z.
Definition busy_le (x y : busy_time) : Prop :=
  let '(a, m) := x in
  let '(b, n) := y in
  if decide (oc_start_utc a = oc_start_utc b) then
    if decide (oc_end_utc a = oc_end_utc b) then m <= n else ustr_le (oc_end_utc a) (oc_end_utc b)
  else ustr_le (oc_start_utc a) (oc_start_utc b).
#[local] Instance busy_le_dec x y : Decision (busy_le x y).
Proof. unfold busy_le. destruct x, y. repeat case_decide; apply _. Defined.

(** The body of the inner loop of [availability]. *)
Definition add_busy (window : Z * Z) (units : Z) (busy : list busy_time) (o : Occurrence)
  : res (list busy_time) :=
  span ← span_of o;
  Ok (if decide (overlaps span window) then busy ++ [(o, units)] else busy).
Definition busy_in (window : Z * Z) (reservations : list Reservation) : res (list busy_time) :=
  fold_res (fun busy r => fold_res (add_busy window (rs_units r)) busy (rs_occurrences r)) []
    (filter (fun r => rs_cancelled_at r = None) reservations).

(** [availability] *)
Definition availability (actor : Principal) (a : ReservationAuthority) (start_utc end_utc : ustr)
    (limit : Z) d : res (Z * list busy_time) :=
  _ ← read_limit limit;
  start ← utc_value start_utc;
  stop ← utc_value end_utc;
  _ ← raise_if (start >= stop \/ stop - start > MAX_WINDOW_DAYS * DAY_SECONDS) invalid_request;
  '(revision, _, reservations) ← read_calendar actor a d;
  busy ← busy_in (start, stop) (dict_values reservations);
  let busy := py_sorted busy_le busy in
  _ ← raise_if (Z.of_nat (length busy) > limit) (ApiError "availability_limit_reached" 413);
  Ok (revision, busy).

Definition export_order (x y : Reservation) : Prop :=
  rs_created_at x < rs_created_at y \/
  (rs_created_at x = rs_created_at y /\ ustr_le (rs_id x) (rs_id y)).
#[local] Instance export_order_dec x y : Decision (export_order x y).
Proof. unfold export_order. apply _. Defined.

(** [export] *)
Definition export (actor : Principal) (a : ReservationAuthority) (limit : Z) d
  : res (Z * list Reservation) :=
  _ ← read_limit limit;
  '(revision, _, reservations) ← read_calendar actor a d;
  let rows := py_sorted export_order (dict_values reservations) in
  _ ← raise_if (Z.of_nat (length rows) > limit) (ApiError "reservation_export_limit_reached" 413);
  Ok (revision, rows).
End store.

(** ** Capacity at every instant *)

Definition covers (t : Z) (s : Z * Z) : Prop := s.1 <= t < s.2.
#[export] Instance covers_dec t s : Decision (covers t s).
Proof. unfold covers. apply _. Defined.
Definition span_at (o : Occurrence) : Z * Z := (read_utc (oc_start_utc o), read_utc (oc_end_utc o)).

(** The units that a reservation takes at an instant, and that many take. *)
Definition units_at (t : Z) (r : Reservation) : Z :=
  if decide (rs_cancelled_at r = None) then
    zsum ((fun _ => rs_units r) <$> filter (fun o => covers t (span_at o)) (rs_occurrences r))
  else 0.
Definition usage (t : Z) (l : list Reservation) : Z := zsum (units_at t <$> l).

Lemma zsum_filter_impl {A} (f : A -> Z) (P Q : A -> Prop) `{!forall x, Decision (P x), !forall x, Decision (Q x)} l :
  (forall x, x ∈ l -> P x -> Q x) -> Forall (fun x => 0 <= f x) l ->
  zsum (f <$> filter P l) <= zsum (f <$> filter Q l).
Proof.
  intros Hpq Hf. induction Hf as [|x l Hx Hf IH]; [done|].
  rewrite !filter_cons. specialize (IH ltac:(set_solver)).
  destruct (decide (P x)) as [Hp|]; [rewrite decide_True by (apply Hpq; [left|done])|case_decide];
    rewrite ?fmap_cons, ?zsum_cons; lia.
Qed.

Lemma overlapping t a b : covers t a -> covers t b -> overlaps a b.
Proof. unfold covers, overlaps. lia. Qed.

Lemma zsum_const {A} (n : Z) (l : list A) : zsum ((fun _ => n) <$> l) = n * Z.of_nat (length l).
Proof. induction l as [|x l IH]; cbn [fmap list_fmap]; [rewrite zsum_nil; cbn; lia|]. rewrite zsum_cons, IH. cbn. lia. Qed.

(** Among the spans of one recurrence, those that cover an instant are counted
    by the check of any one of them. *)
Lemma tagged_counted t units i sp (l : list (Z * Z)) : forall f : nat -> nat,
  0 <= units -> covers t sp -> (forall j, (j < length l)%nat -> f j <> i) ->
  zsum ((fun _ => units) <$> filter (covers t) l) <=
  zsum ((fun _ => units) <$>
    filter (fun x => x.1 <> i /\ overlaps sp x.2) (imap (fun j y => (f j, y)) l)).
Proof.
  induction l as [|y l IH]; intros f Hu Hs Hf; [done|].
  cbn [imap]. rewrite !filter_cons. cbn [fst snd].
  specialize (IH (f ∘ S) Hu Hs). cbn in IH.
  assert (Hrest : forall j, (j < length l)%nat -> f (S j) <> i) by (intros j Hj; apply Hf; cbn; lia).
  specialize (IH Hrest). change ((fun j y => (f j, y)) ∘ S) with (fun (j : nat) (y : Z * Z) => (f (S j), y)).
  destruct (decide (covers t y)) as [Hy|].
  - rewrite decide_True by (split; [apply Hf; cbn; lia|by apply (overlapping t)]).
    rewrite !fmap_cons, !zsum_cons. apply Z.add_le_mono_l. exact IH.
  - case_decide; [rewrite fmap_cons, zsum_cons|exact IH].
    etrans; [exact IH|]. etrans; [apply Z.eq_le_incl; symmetry; apply Z.add_0_l|].
    by apply Z.add_le_mono_r.
Qed.

Lemma others_counted t units (proposed : list (Z * Z)) i sp :
  0 <= units -> proposed !! i = Some sp -> covers t sp ->
  zsum ((fun _ => units) <$> filter (covers t) proposed) <=
  units + zsum ((fun _ => units) <$>
            filter (fun x => x.1 <> i /\ overlaps sp x.2) (imap pair proposed)).
Proof.
  intros Hu Hi Hs. pose proof (lookup_lt_Some _ _ _ Hi) as Hlt.
  rewrite <- (take_drop_middle _ _ _ Hi). rewrite imap_app. cbn [imap].
  rewrite !filter_app, !filter_cons, !fmap_app, !zsum_app.
  rewrite (decide_True (P := covers t sp)) by done. rewrite fmap_cons, zsum_cons.
  rewrite length_take_le by lia. rewrite Nat.add_0_r. cbn [fst snd].
  rewrite (decide_False (P := i <> i /\ overlaps sp sp)) by tauto.
  pose proof (tagged_counted t units i sp (take i proposed) id Hu Hs) as H1.
  pose proof (tagged_counted t units i sp (drop (S i) proposed) (fun j => (i + S j)%nat) Hu Hs) as H2.
  rewrite length_take_le in H1 by lia.
  specialize (H1 ltac:(intros; unfold id; lia)). specialize (H2 ltac:(intros; cbn; lia)).
  assert (Hsum : forall a1 a2 b1 b2 : Z, a1 <= b1 -> a2 <= b2 -> a1 + (units + a2) <= units + (b1 + b2))
    by lia.
  apply Hsum; [exact H1|exact H2].
Qed.

(** A recurrence that passes the check leaves every instant within the
    capacity, or as it was. *)
Lemma capacity_kept capacity units existing proposed t u0 :
  check_capacity capacity units existing proposed = Ok u0 -> 0 <= units ->
  Forall (fun x => 0 <= x.2) existing ->
  let before := zsum (snd <$> filter (fun x => covers t x.1) existing) in
  let added := zsum ((fun _ => units) <$> filter (covers t) proposed) in
  before + added <= capacity \/ added = 0.
Proof.
  intros Hc Hu Hex. cbv zeta. unfold check_capacity in Hc. apply for_each_ok in Hc.
  destruct (filter (covers t) proposed) as [|sp rest] eqn:Hf; [by right|]. left. rewrite <- Hf.
  assert (Hin : sp ∈ filter (covers t) proposed) by (rewrite Hf; left).
  apply list_elem_of_filter in Hin as [Hs [i Hi]%list_elem_of_lookup].
  rewrite Forall_forall in Hc. specialize (Hc (i, sp)).
  assert (Hi' : (i, sp) ∈ imap pair proposed).
  { apply list_elem_of_lookup. exists i. apply list_lookup_imap_Some. by exists sp. }
  specialize (Hc Hi'). apply raise_if_ok in Hc. unfold used_units in Hc. cbn [fst snd] in Hc.
  pose proof (others_counted t units proposed i sp Hu Hi Hs).
  pose proof (zsum_filter_impl snd (fun x => covers t x.1) (fun x => overlaps sp x.1) existing) as He.
  specialize (He ltac:(intros; by apply (overlapping t)) Hex). lia.
Qed.

Lemma span_of_ok o s : span_of o = Ok s -> s = span_at o.
Proof. unfold span_of, utc_value. intros. inv_ok. done. Qed.

Lemma spans_of_ok l s : spans_of l = Ok s -> s = span_at <$> l.
Proof.
  intros (ys & -> & Hys)%fold_res_snoc. cbn. induction Hys as [|o y l ys Ho _ IH]; [done|].
  by rewrite (span_of_ok _ _ Ho), IH.
Qed.

Definition uncancelled (l : list Reservation) : list Reservation :=
  filter (fun r => rs_cancelled_at r = None) l.
Definition busy_of (r : Reservation) : list (Z * Z * Z) :=
  (fun o => (span_at o, rs_units r)) <$> rs_occurrences r.

Lemma busy_spans_ok l : forall acc s,
  fold_res (fun acc r => spans ← spans_of (rs_occurrences r);
                         Ok (acc ++ ((fun s => (s, rs_units r)) <$> spans))) acc l = Ok s ->
  s = acc ++ concat (busy_of <$> l).
Proof.
  induction l as [|r l IH]; intros acc s Hs; cbn in *; inv_ok; [by rewrite app_nil_r|].
  match goal with E : spans_of _ = Ok _ |- _ => apply spans_of_ok in E; subst end.
  apply IH in Hs. rewrite Hs, <- app_assoc. f_equal. unfold busy_of at 2. cbn.
  by rewrite <- list_fmap_compose.
Qed.

Lemma usage_cons t r l : usage t (r :: l) = units_at t r + usage t l.
Proof. unfold usage. cbn [fmap list_fmap]. by rewrite zsum_cons. Qed.

Lemma busy_units t r :
  zsum (snd <$> filter (fun x => covers t x.1) (busy_of r)) =
  zsum ((fun _ => rs_units r) <$> filter (fun o => covers t (span_at o)) (rs_occurrences r)).
Proof.
  unfold busy_of. induction (rs_occurrences r) as [|o l IH]; [done|].
  cbn [fmap list_fmap]. rewrite !filter_cons. cbn [fst]. case_decide; [|done].
  rewrite !fmap_cons, !zsum_cons. f_equal. apply IH.
Qed.

(** What the busy spans of a calendar take at an instant. *)
Lemma busy_spans_usage t l s :
  busy_spans l = Ok s -> zsum (snd <$> filter (fun x => covers t x.1) s) = usage t l.
Proof.
  intros Hs. apply busy_spans_ok in Hs. subst s. rewrite app_nil_l.
  induction l as [|r l IH]; [done|]. rewrite usage_cons, filter_cons. unfold units_at.
  case_decide; [|rewrite IH; lia]. cbn [fmap list_fmap concat].
  rewrite filter_app, fmap_app, zsum_app, IH, busy_units. done.
Qed.

Lemma busy_spans_nonneg l s :
  busy_spans l = Ok s -> Forall (fun r => 0 <= rs_units r) l -> Forall (fun x => 0 <= x.2) s.
Proof.
  intros Hs Hl. apply busy_spans_ok in Hs. subst s. rewrite app_nil_l.
  induction Hl as [|r l Hr Hl IH]; [constructor|]. rewrite filter_cons. case_decide; [|done].
  rewrite fmap_cons. cbn [concat]. apply Forall_app. split; [|done].
  apply Forall_fmap, Forall_forall. intros o _. done.
Qed.

(** The busy times of a window. *)
Definition busy_times (window : Z * Z) (r : Reservation) : list busy_time :=
  (fun o => (o, rs_units r)) <$> filter (fun o => overlaps (span_at o) window) (rs_occurrences r).

#[local] Opaque utc_value.
Lemma Ok_inj {A} (x y : A) : Ok x = Ok y -> x = y.
Proof. by intros [= ->]. Qed.

Lemma add_busy_step window units acc o s :
  add_busy window units acc o = Ok s ->
  s = acc ++ ((fun o => (o, units)) <$> filter (fun o => overlaps (span_at o) window) [o]).
Proof.
  intros Hs. unfold add_busy in Hs. apply bind_ok in Hs as (sp & ->%span_of_ok & <-%Ok_inj).
  rewrite filter_cons, filter_nil. case_decide; [done|]. symmetry. apply app_nil_r.
Qed.

Lemma add_busy_ok window units l : forall acc s,
  fold_res (add_busy window units) acc l = Ok s ->
  s = acc ++ ((fun o => (o, units)) <$> filter (fun o => overlaps (span_at o) window) l).
Proof.
  induction l as [|o l IH]; intros acc s Hs.
  { apply Ok_inj in Hs as <-. symmetry. apply app_nil_r. }
  cbn [fold_res] in Hs. apply bind_ok in Hs as (t & ->%add_busy_step & ->%IH).
  rewrite <- app_assoc, <- fmap_app, <- filter_app. done.
Qed.

Lemma busy_in_ok window l : forall acc s,
  fold_res (fun busy r => fold_res (add_busy window (rs_units r)) busy (rs_occurrences r)) acc l = Ok s ->
  s = acc ++ concat (busy_times window <$> l).
Proof.
  induction l as [|r l IH]; intros acc s Hs; cbn [fold_res] in Hs; [injection Hs as <-; by rewrite app_nil_r|].
  apply bind_ok in Hs as (t & Ht & Hs). apply add_busy_ok in Ht. subst t. apply IH in Hs.
  by rewrite Hs, <- app_assoc.
Qed.

(** Inside the window the busy times take what the reservations take. *)
Lemma busy_times_usage t window l :
  window.1 <= t < window.2 ->
  zsum (snd <$> filter (fun b => covers t (span_at b.1)) (concat (busy_times window <$> uncancelled l))) =
  usage t l.
Proof.
  intros Ht. unfold uncancelled. induction l as [|r l IH]; [done|].
  rewrite usage_cons, filter_cons. unfold units_at. case_decide; [|rewrite IH; lia].
  rewrite fmap_cons. cbn [concat]. rewrite filter_app, fmap_app, zsum_app, IH. f_equal.
  unfold busy_times. clear IH. induction (rs_occurrences r) as [|o os IHo]; [done|].
  rewrite !filter_cons. destruct (decide (covers t (span_at o))) as [Hc|Hc].
  - rewrite decide_True by (unfold covers, overlaps in *; lia).
    rewrite fmap_cons, filter_cons, decide_True by done. rewrite !fmap_cons, !zsum_cons. cbn [snd]. lia.
  - case_decide; [|done]. rewrite fmap_cons, filter_cons, decide_False by done. done.
Qed.

(** ** Well-formed reservations *)

Definition occurrences_last (duration : Z) (l : list Occurrence) : Prop :=
  Forall (fun o => exists start, span_of o = Ok (start, start + duration)) l.
Record reservation_typed (r : Reservation) : Prop := {
  ty_revision : rs_revision r = 1;
  ty_units : 1 <= rs_units r;
  ty_duration : 60 <= rs_duration_seconds r <= MAX_DURATION_SECONDS;
  ty_count : 1 <= Z.of_nat (length (rs_occurrences r)) <= MAX_OCCURRENCES;
  ty_occurrences : occurrences_last (rs_duration_seconds r) (rs_occurrences r);
}.

Lemma spans_total duration l acc :
  occurrences_last duration l ->
  exists s, fold_res (fun acc o => s ← span_of o; Ok (acc ++ [s])) acc l = Ok s.
Proof.
  intros Hl. revert acc. induction Hl as [|o l [start Ho] _ IH]; intros acc; [by eexists|].
  cbn [fold_res]. rewrite Ho. apply IH.
Qed.

Lemma busy_spans_total l :
  Forall (fun r => occurrences_last (rs_duration_seconds r) (rs_occurrences r)) l ->
  exists s, busy_spans l = Ok s.
Proof.
  unfold busy_spans. generalize (@nil (Z * Z * Z)). intros acc Hl. revert acc.
  induction Hl as [|r l Hr _ IH]; intros acc; [by eexists|]. rewrite filter_cons. case_decide; [|apply IH].
  cbn [fold_res]. destruct (spans_total _ _ [] Hr) as [s Hs]. unfold spans_of. rewrite Hs. apply IH.
Qed.

(** What a parsed request asks for. *)
Definition asked (q : recurrence_request) (occurrences : list Occurrence) : Prop :=
  1 <= rq_units q /\ 60 <= rq_duration q <= MAX_DURATION_SECONDS /\
  1 <= Z.of_nat (length occurrences) <= MAX_OCCURRENCES /\
  Forall (fun o => exists start, o = occurrence_of start (rq_duration q)) occurrences.

Lemma span_of_occurrence o s start duration :
  span_of o = Ok s -> o = occurrence_of start duration -> s = (start, start + duration).
Proof.
  intros Hs%span_of_ok ->. rewrite Hs. unfold span_at, occurrence_of.
  cbn [oc_start_utc oc_end_utc]. by rewrite !read_utc_text.
Qed.

Lemma asked_typed env actor rule q occurrences spans :
  asked q occurrences -> spans_of occurrences = Ok spans ->
  reservation_typed (new_reservation env actor rule q occurrences).
Proof.
  intros (Hu & Hd & Hn & Ho) (ys & _ & Hys)%fold_res_snoc. constructor; try done.
  unfold occurrences_last. cbn. rewrite Forall_forall in Ho |- *. intros o Hin.
  destruct (Ho o Hin) as [start Eo]. apply list_elem_of_lookup in Hin as [i Hi].
  destruct (Forall2_lookup_l _ _ _ _ _ Hys Hi) as (s & _ & Hs). exists start. rewrite Hs. f_equal.
  by eapply span_of_occurrence.
Qed.

(** ** The invariant of the store *)

Section invariant.
Context `{UnicodeData}.
Variable hmac_hex : string -> jval -> string.
Variable Cipher : Type.
Variable gcm_encrypt : string -> jval -> ustr -> Cipher.
Variable gcm_decrypt : string -> Cipher -> ustr -> option jval.
(** What is encrypted decrypts, under the same nonce and associated data. *)
Hypothesis gcm_sound : forall nonce v aad, gcm_decrypt nonce (gcm_encrypt nonce v aad) aad = Some v.
Local Notation db := (reservation_db Cipher).
Local Notation row := (reservation_row Cipher).
Local Notation verified := (verified hmac_hex Cipher gcm_decrypt).
Local Notation calendar_state := (calendar_state hmac_hex Cipher).
Local Notation decrypt_reservation := (decrypt_reservation hmac_hex Cipher gcm_decrypt).
Implicit Types d : db.
Implicit Types c : calendar.
#[local] Existing Instance event_order_dec.
#[local] Existing Instance record_order_dec.
#[local] Existing Instance reservation_event_clash_dec.
#[local] Existing Instance reservation_row_clash_dec.
#[local] Existing Instance create_matches_dec.
#[local] Instance invariant_chain : ChainRow reservation_event_row string :=
  reservation_chain hmac_hex.

Definition events_at d c : list reservation_event_row := filter (fun e => rv_calendar e = c) (rd_events d).
Definition records_at d c : list row := filter (fun r => rw_calendar r = c) (rd_records d).

(** A record opens, to a well-formed reservation. *)
Definition opens (r : row) : Prop :=
  exists v, decrypt_reservation r None = Ok v /\ reservation_typed v.

Definition state_matches d c : Prop :=
  match sql_one (fun r => rt_calendar r = c) (rd_states d) with
  | None => events_at d c = []
  | Some st =>
      rt_state_hash st = reservation_state_hash hmac_hex c (rt_base_revision st) (rt_revision st)
                           (rt_event_count st) (rt_last_hash st) /\
      rt_event_count st = Z.of_nat (length (events_at d c)) /\
      rt_revision st = rt_base_revision st + Z.of_nat (length (events_at d c)) /\
      rt_last_hash st = chain_head ""%string (events_at d c)
  end.

(** The rows apart from each other. *)
Record rows_inv d : Prop := {
  ri_sorted : StronglySorted (fun a b => rv_sequence a < rv_sequence b) (rd_events d);
  ri_ids : NoDup (rw_id <$> rd_records d);
  ri_states : NoDup (rt_calendar <$> rd_states d);
  ri_opens : Forall opens (rd_records d);
  ri_chained : forall c, chained ""%string (events_at d c);
  ri_state : forall c, state_matches d c;
}.

(** The events of a calendar tell which of its records exist and which are
    cancelled. *)
Definition lives d c (creates : list ustr) (cancellations : list (ustr * Z)) : Prop :=
  fold_res life_step ([], []) (events_at d c) = Ok (creates, cancellations) /\
  rw_id <$> records_at d c ≡ₚ creates /\ Forall (create_matches Cipher (events_at d c)) (records_at d c).
Definition store_inv d : Prop := rows_inv d /\ forall c, exists creates cancels, lives d c creates cancels.

Definition empty_store : db := {| rd_records := []; rd_events := []; rd_states := [] |}.

Lemma empty_store_inv : store_inv empty_store.
Proof.
  split.
  - constructor; cbn; try constructor; intros c; done.
  - intros c. by exists [], [].
Qed.

(** ** Reading back *)

Lemma events_read d c : rows_inv d -> calendar_events Cipher d c = events_at d c.
Proof.
  intros Hd. apply py_sorted_id, StronglySorted_filter_le.
  pose proof (ri_sorted _ Hd) as Hs. clear -Hs.
  induction Hs as [|x l Hl IH Hx]; constructor; [done|].
  eapply Forall_impl; [exact Hx|]. unfold event_order. cbn. lia.
Qed.

Lemma records_read d c : calendar_records Cipher d c ≡ₚ records_at d c.
Proof. apply py_sorted_perm. Qed.

Lemma verify_all_events p lv lv' events :
  chained p events -> fold_res life_step lv events = Ok lv' ->
  fold_res (verify_event hmac_hex) (p, lv) events = Ok (chain_head p events, lv').
Proof.
  revert p lv. induction events as [|e events IH]; intros p lv Hc Hl; cbn in *; [by injection Hl as ->|].
  destruct Hc as [[Hp Hh] Hc]. apply bind_ok in Hl as (lv1 & He & Hl). cbn in Hp, Hh.
  unfold verify_event. rewrite raise_if_no by naive_solver. cbn [mbind res_bind snd]. rewrite He.
  cbn [mbind res_bind]. rewrite chain_head_cons. by apply IH.
Qed.

(** A reservation, cancelled or not. *)
Definition with_cancelled (o : option Z) (r : Reservation) : Reservation :=
  {| rs_id := rs_id r; rs_revision := rs_revision r; rs_owner_id := rs_owner_id r;
     rs_resource_id := rs_resource_id r; rs_timezone := rs_timezone r;
     rs_local_start := rs_local_start r; rs_duration_seconds := rs_duration_seconds r;
     rs_units := rs_units r; rs_occurrences := rs_occurrences r; rs_created_at := rs_created_at r;
     rs_cancelled_at := o |}.

Lemma opened_as r o v :
  decrypt_reservation r None = Ok v -> decrypt_reservation r o = Ok (with_cancelled o v).
Proof.
  unfold decrypt_reservation. intros Hd. inv_ok. passed.
  match goal with E : gcm_decrypt _ _ _ = Some _ |- _ => rewrite E end. cbn [require_some mbind res_bind].
  rewrite raise_if_no by naive_solver. cbn [mbind res_bind].
  match goal with E : payload_of_json _ = Some _ |- _ => rewrite E end. cbn [require_some mbind res_bind].
  by rewrite raise_if_no by naive_solver.
Qed.

(** The reservations of records, with their cancellations. *)
Definition opened (cancels : list (ustr * Z)) (r : row) : option Reservation :=
  match decrypt_reservation r (dict_get cancels (rw_id r)) with Ok v => Some v | Raise _ => None end.
Definition book (cancels : list (ustr * Z)) (records : list row) : list (ustr * Reservation) :=
  omap (fun r => pair (rw_id r) <$> opened cancels r) records.

Lemma opened_ok cancels r :
  opens r -> exists v, opened cancels r = Some (with_cancelled (dict_get cancels (rw_id r)) v) /\
    decrypt_reservation r None = Ok v /\ reservation_typed v.
Proof. intros (v & Hv & Hu). exists v. unfold opened. by rewrite (opened_as _ _ _ Hv). Qed.

Lemma book_cons cancels r records :
  opens r -> exists v, book cancels (r :: records) =
    (rw_id r, with_cancelled (dict_get cancels (rw_id r)) v) :: book cancels records /\
    decrypt_reservation r None = Ok v.
Proof.
  intros Ho. destruct (opened_ok cancels r Ho) as (v & Hv & Hd & _). exists v. split; [|done].
  unfold book. cbn. by rewrite Hv.
Qed.

Lemma book_keys cancels records :
  Forall opens records -> dict_keys (book cancels records) = rw_id <$> records.
Proof.
  induction 1 as [|r l Ho _ IH]; [done|]. destruct (book_cons cancels r l Ho) as (v & -> & _).
  cbn. by rewrite <- IH.
Qed.

Lemma records_opened cancels records :
  Forall opens records -> NoDup (rw_id <$> records) -> forall acc,
  (forall r, r ∈ records -> rw_id r ∉ dict_keys acc) ->
  fold_res (fun acc r => v ← decrypt_reservation r (dict_get cancels (rw_id r));
                         Ok (dict_set acc (rw_id r) v)) acc records = Ok (acc ++ book cancels records).
Proof.
  induction 1 as [|r l Ho _ IH]; intros Hn acc Hacc; [cbn; by rewrite app_nil_r|].
  cbn in Hn. apply NoDup_cons in Hn as [Hr Hn]. cbn [fold_res].
  destruct (book_cons cancels r l Ho) as (v & -> & Hd).
  rewrite (opened_as _ _ _ Hd). cbn [mbind res_bind].
  rewrite dict_set_fresh by (apply dict_get_None, Hacc; left).
  rewrite IH, <- app_assoc; [done..|]. intros x Hx. unfold dict_keys. rewrite fmap_app.
  intros [Hk|Hk]%elem_of_app; [apply (Hacc x); [by right|done]|].
  cbn in Hk. apply list_elem_of_singleton in Hk. apply Hr. rewrite <- Hk. by apply list_elem_of_fmap_2.
Qed.

Lemma at_opens d c : rows_inv d -> Forall opens (records_at d c).
Proof.
  intros Hd. pose proof (ri_opens _ Hd) as Ho. rewrite Forall_forall in Ho |- *.
  intros r [_ Hr]%list_elem_of_filter. by apply Ho.
Qed.

Lemma read_opens d c : rows_inv d -> Forall opens (calendar_records Cipher d c).
Proof. intros Hd. rewrite records_read. by apply at_opens. Qed.

Lemma at_ids d c : rows_inv d -> NoDup (rw_id <$> records_at d c).
Proof.
  intros Hd. eapply sublist_NoDup; [apply (ri_ids _ Hd)|]. apply fmap_sublist, sublist_filter.
Qed.

Lemma state_read d c :
  rows_inv d -> calendar_state d c = Ok (sql_one (fun r => rt_calendar r = c) (rd_states d)).
Proof.
  intros Hd. pose proof (ri_state _ Hd c) as Hs. unfold calendar_state, state_matches in *.
  destruct (sql_one _ (rd_states d)) as [st|]; [|done]. destruct Hs as [Hh _].
  by rewrite raise_if_no by naive_solver.
Qed.

Lemma lives_none d c creates cancels : events_at d c = [] -> lives d c creates cancels -> records_at d c = [].
Proof.
  intros He (Hl & Hp & _). rewrite He in Hl. cbn in Hl. injection Hl as <- <-.
  apply Permutation_nil_r in Hp. by apply fmap_nil_inv in Hp.
Qed.

(** A store with this invariant passes its own verification. *)
Lemma verified_ok d c creates cancels :
  rows_inv d -> lives d c creates cancels ->
  verified d c = Ok (public_event <$> events_at d c, book cancels (calendar_records Cipher d c)).
Proof.
  intros Hd Hl. unfold verified. rewrite state_read, events_read by done. cbn [mbind res_bind].
  pose proof (ri_state _ Hd c) as Hs. unfold state_matches in Hs.
  pose proof (records_read d c) as Hperm.
  destruct (sql_one _ (rd_states d)) as [st|].
  - destruct Hs as (_ & Hn & Hrev & Hlast). destruct Hl as (Hlf & Hids & Hcm).
    rewrite (verify_all_events _ _ _ _ (ri_chained _ Hd c) Hlf). cbn [mbind res_bind].
    unfold open_records. rewrite records_opened; cbn [app mbind res_bind].
    + rewrite raise_if_no.
      2:{ intros [E|[E|[E|E]]]; [|by apply E..]. apply E. rewrite book_keys by (rewrite Hperm; by apply at_opens).
          rewrite Hperm, Hids. done. }
      cbn [mbind res_bind]. assert (for_each (fun r => raise_if (~ create_matches Cipher (events_at d c) r) history_invalid)
        (calendar_records Cipher d c) = Ok tt) as ->; [|done].
      apply for_each_ok. rewrite Hperm. eapply Forall_impl; [exact Hcm|]. intros r Hr.
      apply raise_if_no. intros Hno. by apply Hno.
    + rewrite Hperm. by apply at_opens.
    + rewrite Hperm. by apply at_ids.
    + intros r _. apply not_elem_of_nil.
  - pose proof (lives_none _ _ _ _ Hs Hl) as Hr.
    assert (calendar_records Cipher d c = []) as -> by (rewrite Hr in Hperm; by apply Permutation_nil_r).
    rewrite Hs. by rewrite raise_if_no by naive_solver.
Qed.

(** ** Writing *)

Lemma row_inserted r d x d' :
  rows_inv d -> opens r -> insert_row Cipher r d = (Ok x, d') ->
  rows_inv d' /\ rw_id r ∉ rw_id <$> rd_records d /\
  d' = {| rd_records := rd_records d ++ [r]; rd_events := rd_events d; rd_states := rd_states d |}.
Proof.
  intros Hd Hr Hi. unfold insert_row in Hi.
  cbv beta iota delta [mbind M_bind get_state lift put_state] in Hi.
  destruct (sql_insert _ _ _) as [l|] eqn:Hs; [|done].
  apply sql_insert_ok in Hs as [-> Hc]. injection Hi as <- <-.
  split_and!; [|intros (y & E & Hy)%list_elem_of_fmap; rewrite Forall_forall in Hc;
    by apply (Hc y)|done].
  constructor; cbn [rd_records rd_events rd_states]; try by apply Hd.
  - apply snoc_column; [apply Hd|]. eapply Forall_impl; [exact Hc|]. unfold reservation_row_clash.
    intros y Hy E. by apply Hy.
  - apply Forall_app. split; [apply Hd|by constructor].
Qed.

Lemma upsert_calendar_one r l c :
  NoDup (rt_calendar <$> l) ->
  sql_one (fun x => rt_calendar x = c) (upsert_calendar r l) =
  if decide (rt_calendar r = c) then
    Some match sql_one (fun x => rt_calendar x = c) l with
         | Some x => {| rt_calendar := rt_calendar x; rt_base_revision := rt_base_revision x;
                        rt_revision := rt_revision r; rt_event_count := rt_event_count r;
                        rt_last_hash := rt_last_hash r; rt_state_hash := rt_state_hash r |}
         | None => r
         end
  else sql_one (fun x => rt_calendar x = c) l.
Proof.
  intros Hn. unfold upsert_calendar. destruct (decide (rt_calendar r ∈ _)) as [Hin|Hout].
  - destruct (decide (rt_calendar r = c)) as [<-|Hne].
    + apply list_elem_of_fmap in Hin as (x & Hx & Hin).
      assert (sql_one (fun y => rt_calendar y = rt_calendar r) l = Some x) as E
        by (by apply (sql_one_unique rt_calendar)).
      rewrite sql_one_update_map, E; [done|]. by intros y.
    + apply sql_one_update_away. cbn. intros x ->. done.
  - rewrite sql_one_app, sql_one_single. destruct (decide (rt_calendar r = c)) as [<-|Hne].
    + assert (sql_one (fun y => rt_calendar y = rt_calendar r) l = None) as ->; [|done].
      apply sql_one_none, Forall_forall. intros x Hx E. apply Hout. rewrite <- E.
      by apply list_elem_of_fmap_2.
    + by destruct (sql_one _ l).
Qed.

Lemma upsert_calendar_column r l :
  NoDup (rt_calendar <$> l) -> NoDup (rt_calendar <$> upsert_calendar r l).
Proof.
  intros Hn. unfold upsert_calendar. case_decide as Hin.
  - by rewrite sql_update_column.
  - apply snoc_column; [done|]. apply Forall_forall. intros y Hy E. apply Hin. rewrite E.
    by apply list_elem_of_fmap_2.
Qed.

(** What an appended event says. *)
Definition event_added d d' (env : reservation_env) c (action : reservation_action)
    (reservation_id : ustr) (request_hash : string) (e : reservation_event_row) : Prop :=
  rd_events d' = rd_events d ++ [e] /\ rd_records d' = rd_records d /\ rv_calendar e = c /\
  rv_action e = action /\ rv_reservation_id e = reservation_id /\ rv_request_hash e = request_hash /\
  rv_occurred_at e = rn_now env.

Definition revision_at d c : option Z :=
  rt_revision <$> sql_one (fun r => rt_calendar r = c) (rd_states d).

Lemma event_inserted env a cmd action actor rid rh d x d' :
  rows_inv d ->
  insert_event hmac_hex Cipher env a (sql_one (fun r => rt_calendar r = calendar_of a) (rd_states d))
    cmd action actor rid rh d = (Ok x, d') ->
  rows_inv d' /\ exists e, event_added d d' env (calendar_of a) action rid rh e /\
    rv_command_id e = cmd /\ rv_actor_id e = actor /\ x = (rv_event_id e, rv_calendar_revision e) /\
    rv_calendar_revision e =
      current_revision a (sql_one (fun r => rt_calendar r = calendar_of a) (rd_states d)) + 1 /\
    revision_at d' (calendar_of a) = Some (rv_calendar_revision e).
Proof.
  intros Hd Hi. unfold insert_event in Hi.
  cbv beta iota zeta delta [mbind M_bind get_state lift put_state mret M_ret] in Hi.
  destruct (raise_if _ _) as [|] in Hi; [|done]. destruct (raise_if _ _) as [|] in Hi; [|done].
  destruct (sql_insert _ _ _) as [events|] eqn:Hs; [|done].
  apply sql_insert_ok in Hs as [-> Hc]. injection Hi as <- <-.
  set (st := sql_one (fun r => rt_calendar r = calendar_of a) (rd_states d)) in *.
  match goal with |- context [rd_events d ++ [?ev]] => set (e := ev) in * end.
  split.
  2:{ exists e. split_and!; try done; [by destruct st|].
      unfold revision_at. cbn [rd_states]. rewrite upsert_calendar_one by apply Hd.
      cbn [rt_calendar rt_revision]. rewrite decide_True by done. by destruct (sql_one _ _). }
  assert (Hev : forall c recs sts, events_at {| rd_records := recs; rd_events := rd_events d ++ [e];
      rd_states := sts |} c = events_at d c ++ if decide (calendar_of a = c) then [e] else []).
  { intros c recs sts. unfold events_at. cbn [rd_events]. by rewrite filter_app, filter_cons, filter_nil. }
  assert (Hhead : match st with None => ""%string | Some s => rt_last_hash s end
                  = chain_head ""%string (events_at d (calendar_of a))).
  { pose proof (ri_state _ Hd (calendar_of a)) as Hst. unfold state_matches in Hst. fold st in Hst.
    destruct st as [s|]; [by destruct Hst as (_ & _ & _ & ?)|by rewrite Hst]. }
  constructor; cbn [rd_records rd_events rd_states]; try by apply Hd.
  - apply StronglySorted_snoc; [apply Hd|]. apply Forall_forall. intros y Hy. cbn.
    apply next_key_above. by apply list_elem_of_fmap_2.
  - apply upsert_calendar_column, Hd.
  - intros c. rewrite Hev. case_decide as Ec; [subst c|rewrite app_nil_r; apply Hd].
    apply chained_snoc; [apply Hd|]. split; [|done]. cbn. done.
  - intros c. unfold state_matches. cbn [rd_states].
    rewrite upsert_calendar_one by apply Hd. cbn [rt_calendar]. rewrite Hev.
    pose proof (ri_state _ Hd c) as Hst. unfold state_matches in Hst.
    case_decide as Ec; [subst c|by rewrite app_nil_r].
    fold st in Hst |- *. rewrite length_app, chain_head_snoc. cbn [length].
    destruct st as [s|] eqn:Est; cbn.
    + destruct Hst as (Hh & Hn & Hr & Hl).
      split_and!; try done; lia.
    + rewrite Hst. cbn. split_and!; try done; lia.
Qed.

(** ** Creations and cancellations *)

Definition created_ids (events : list reservation_event_row) : list ustr :=
  rv_reservation_id <$> filter (fun e => rv_action e = Created) events.

Lemma life_facts events : forall cs ks cs' ks',
  fold_res life_step (cs, ks) events = Ok (cs', ks') -> dict_keys ks ⊆ cs ->
  cs' = cs ++ created_ids events /\ dict_keys ks' ⊆ cs'.
Proof.
  induction events as [|e l IH]; intros cs ks cs' ks' Hf Hk.
  { cbn in Hf. injection Hf as <- <-. split; [cbn; by rewrite app_nil_r|done]. }
  cbn [fold_res] in Hf. apply bind_ok in Hf as ([cs1 ks1] & He & Hf). unfold life_step in He.
  unfold created_ids. rewrite filter_cons.
  destruct (rv_action e) eqn:Ea.
  - rewrite decide_True by done. inv_ok. passed. apply IH in Hf as [-> ?]; [|set_solver].
    split; [by rewrite <- app_assoc|done].
  - rewrite decide_False by done. inv_ok. passed. apply IH in Hf as [-> ?]; [done|].
    rewrite dict_set_fresh by (by apply dict_get_None). unfold dict_keys in *. rewrite fmap_app.
    cbn. set_solver.
Qed.

Lemma lives_facts d c creates cancels :
  lives d c creates cancels ->
  creates = created_ids (events_at d c) /\ dict_keys cancels ⊆ creates.
Proof. intros (Hl & _). by apply life_facts in Hl as [? ?]. Qed.

Lemma matches_more events e r :
  create_matches Cipher events r -> create_matches Cipher (events ++ [e]) r.
Proof.
  intros (x & Hx & Hr). exists x. split; [|done]. rewrite filter_app.
  by destruct (filter _ events).
Qed.

Lemma matches_new events e r :
  rw_id r ∉ created_ids events -> rv_action e = Created -> rv_reservation_id e = rw_id r ->
  rv_request_hash e = rw_request_hash r -> create_matches Cipher (events ++ [e]) r.
Proof.
  intros Hn Ha Hi Hh. exists e. split; [|done]. rewrite filter_app.
  assert (filter (fun e => rv_action e = Created /\ rv_reservation_id e = rw_id r) events = []) as ->.
  { destruct (filter _ events) as [|x l] eqn:E; [done|exfalso].
    assert (Hx : x ∈ x :: l) by left. rewrite <- E in Hx.
    apply list_elem_of_filter in Hx as [[Hxa Hxi] Hin]. apply Hn. rewrite <- Hxi.
    apply list_elem_of_fmap_2. by apply list_elem_of_filter. }
  by rewrite app_nil_l, filter_cons, decide_True.
Qed.

Section appended.
Context (d d' : db) (env : reservation_env) (c : calendar) (id : ustr) (rh : string).
Context (e : reservation_event_row) (creates : list ustr) (cancels : list (ustr * Z)).

Lemma events_grow c' :
  rd_events d' = rd_events d ++ [e] -> rv_calendar e = c ->
  events_at d' c' = events_at d c' ++ if decide (c = c') then [e] else [].
Proof. intros He <-. unfold events_at. by rewrite He, filter_app, filter_cons, filter_nil. Qed.

Lemma created_lives r :
  rd_events d' = rd_events d ++ [e] -> rv_calendar e = c -> rv_action e = Created ->
  rv_reservation_id e = rw_id r -> rv_request_hash e = rw_request_hash r ->
  rd_records d' = rd_records d ++ [r] -> rw_calendar r = c -> rw_id r ∉ rw_id <$> rd_records d ->
  lives d c creates cancels -> lives d' c (creates ++ [rw_id r]) cancels.
Proof.
  intros He Hc Ha Hi Hh Hr Hrc Hnew Hl. pose proof (lives_facts _ _ _ _ Hl) as [Hcr _].
  destruct Hl as (Hl & Hp & Hm).
  assert (Hn : rw_id r ∉ creates).
  { rewrite <- Hp. intros (y & E & Hy)%list_elem_of_fmap. apply Hnew. rewrite E.
    apply list_elem_of_fmap_2. by apply list_elem_of_filter in Hy as [_ ?]. }
  assert (Hrs : records_at d' c = records_at d c ++ [r]).
  { unfold records_at. by rewrite Hr, filter_app, filter_cons, decide_True, filter_nil. }
  split_and!; rewrite ?(events_grow c), ?Hrs, ?decide_True by done.
  - rewrite fold_res_app, Hl. cbn. rewrite Ha, Hi. by rewrite raise_if_no.
  - rewrite fmap_app, Hp. done.
  - apply Forall_app. split; [eapply Forall_impl; [exact Hm|]; intros; by apply matches_more|].
    constructor; [|done]. apply matches_new; [by rewrite <- Hcr|done..].
Qed.

Lemma cancelled_lives :
  rd_events d' = rd_events d ++ [e] -> rv_calendar e = c -> rv_action e = Cancelled ->
  rd_records d' = rd_records d -> rv_reservation_id e ∈ creates ->
  rv_reservation_id e ∉ dict_keys cancels -> lives d c creates cancels ->
  lives d' c creates (dict_set cancels (rv_reservation_id e) (rv_occurred_at e)).
Proof.
  intros He Hc Ha Hr Hin Hout (Hl & Hp & Hm).
  assert (Hrs : records_at d' c = records_at d c) by (unfold records_at; by rewrite Hr).
  split_and!; rewrite ?(events_grow c), ?Hrs, ?decide_True by done.
  - rewrite fold_res_app, Hl. cbn. rewrite Ha. rewrite raise_if_no by naive_solver. done.
  - done.
  - eapply Forall_impl; [exact Hm|]. intros. by apply matches_more.
Qed.

Lemma other_lives c' creates' cancels' :
  rd_events d' = rd_events d ++ [e] -> rv_calendar e = c -> c <> c' ->
  records_at d' c' = records_at d c' -> lives d c' creates' cancels' -> lives d' c' creates' cancels'.
Proof.
  intros He Hc Hne Hr (Hl & Hp & Hm).
  assert (events_at d' c' = events_at d c') as E
    by (rewrite (events_grow c') by done; by rewrite decide_False, app_nil_r).
  unfold lives. by rewrite E, Hr.
Qed.
End appended.

(** ** What the transactions do *)

Definition grown_by d d' c (r : row) : Prop :=
  rd_records d' = rd_records d ++ [r] /\ rw_calendar r = c.

Lemma payload_read r : payload_of_json (payload_json r) =
  Some {| py_owner_id := rs_owner_id r; py_resource_id := rs_resource_id r; py_timezone := rs_timezone r;
          py_local_start := rs_local_start r; py_duration_seconds := rs_duration_seconds r;
          py_units := rs_units r; py_occurrences := rs_occurrences r;
          py_created_at := rs_created_at r |}.
Proof.
  unfold payload_of_json, payload_json.
  assert (mapM occurrence_of_json (occurrence_json <$> rs_occurrences r) = Some (rs_occurrences r)) as ->;
    [|done]. induction (rs_occurrences r) as [|[] l IH]; cbn; [done|]. by rewrite IH.
Qed.

Lemma new_row_decrypts env actor a q occurrences rh :
  occurrences <> [] ->
  let r := new_reservation env actor (ra_resource a) q occurrences in
  decrypt_reservation (new_row hmac_hex Cipher gcm_encrypt env (calendar_of a) r rh) None = Ok r.
Proof.
  intros Hne r. unfold decrypt_reservation. cbn [rw_nonce rw_ciphertext rw_calendar rw_id rw_payload_hash new_row].
  rewrite gcm_sound. cbn [require_some mbind res_bind]. rewrite raise_if_no by naive_solver.
  cbn [mbind res_bind]. rewrite payload_read. cbn [require_some mbind res_bind].
  rewrite raise_if_no; [done|]. by intros [|[]].
Qed.

Local Notation create_tx := (create_tx hmac_hex Cipher gcm_encrypt gcm_decrypt).
Local Notation cancel_tx := (cancel_tx hmac_hex Cipher gcm_decrypt).

Lemma book_perm cancels : Proper ((≡ₚ) ==> (≡ₚ)) (book cancels).
Proof. intros l1 l2 Hl. unfold book. by rewrite Hl. Qed.

Lemma book_app cancels l1 l2 : book cancels (l1 ++ l2) = book cancels l1 ++ book cancels l2.
Proof. unfold book. by rewrite omap_app. Qed.

Lemma usage_perm t : Proper ((≡ₚ) ==> eq) (usage t).
Proof. intros l1 l2 Hl. unfold usage. by rewrite Hl. Qed.

Definition book_usage (t : Z) (cancels : list (ustr * Z)) (records : list row) : Z :=
  usage t (dict_values (book cancels records)).

Lemma book_usage_perm t cancels : Proper ((≡ₚ) ==> eq) (book_usage t cancels).
Proof.
  intros l1 l2 Hl. unfold book_usage. apply usage_perm. unfold dict_values.
  by rewrite (book_perm cancels _ _ Hl).
Qed.

Lemma book_usage_app t cancels l1 l2 :
  book_usage t cancels (l1 ++ l2) = book_usage t cancels l1 + book_usage t cancels l2.
Proof. unfold book_usage, dict_values, usage. by rewrite book_app, !fmap_app, zsum_app. Qed.

Lemma units_at_nonneg t r : 0 <= rs_units r -> 0 <= units_at t r.
Proof.
  intros Hr. unfold units_at. case_decide; [|done]. rewrite zsum_const. lia.
Qed.

(** Cancelling a reservation takes nothing more. *)
Lemma book_usage_cancel t cancels id now records :
  Forall opens records -> book_usage t (dict_set cancels id now) records <= book_usage t cancels records.
Proof.
  induction 1 as [|r l Ho _ IH]; [done|]. unfold book_usage, dict_values, usage in *.
  destruct (book_cons (dict_set cancels id now) r l Ho) as (v & -> & Hv).
  destruct (book_cons cancels r l Ho) as (v' & -> & Hv').
  assert (v' = v) as -> by congruence.
  cbn [fmap list_fmap snd]. rewrite !zsum_cons.
  enough (units_at t (with_cancelled (dict_get (dict_set cancels id now) (rw_id r)) v) <=
          units_at t (with_cancelled (dict_get cancels (rw_id r)) v)) by (unfold dict_values in *; lia).
  rewrite dict_get_set. case_decide; [|done]. destruct Ho as (v0 & Hv0 & Hu).
  assert (v0 = v) as -> by congruence. unfold units_at at 1. cbn. apply units_at_nonneg. cbn.
  pose proof (ty_units _ Hu). lia.
Qed.

(** The last event, of a call with a command. *)
Definition logged_last d d' (env : reservation_env) (actor : Principal) c (command_id : ustr)
    (action : reservation_action) (reservation_id : ustr) (rh : string) (r : Reservation) x : Prop :=
  exists e, rd_events d' = rd_events d ++ [e] /\ rv_calendar e = c /\ rv_action e = action /\
    rv_reservation_id e = reservation_id /\ rv_request_hash e = rh /\ rv_command_id e = command_id /\
    rv_actor_id e = u (p_id actor) /\ x = Ok (reservation_receipt e r).

(** Everything that the transaction of [create] does when it stores a
    reservation. *)
Record booked (env : reservation_env) (actor : Principal) (a : ReservationAuthority)
    (command_id : ustr) (q : recurrence_request) (occurrences : list Occurrence) (rh : string) d x d'
    (creates : list ustr) (cancels : list (ustr * Z)) (proposed : list (Z * Z))
    (existing : list (Z * Z * Z)) : Prop := {
  bk_event : logged_last d d' env actor (calendar_of a) command_id Created (rn_reservation_id env) rh
               (new_reservation env actor (ra_resource a) q occurrences) x;
  bk_revision : (forall rp, x = Ok rp -> rp_calendar_revision rp = ra_calendar_revision a + 1) /\
    revision_at d' (calendar_of a) = Some (ra_calendar_revision a + 1);
  bk_fresh : find_replay Cipher d (calendar_of a) command_id = None;
  bk_before : lives d (calendar_of a) creates cancels;
  bk_after : lives d' (calendar_of a) (creates ++ [rn_reservation_id env]) cancels;
  bk_rows : rows_inv d';
  bk_others : forall c cs ks, c <> calendar_of a -> lives d c cs ks ->
    lives d' c cs ks /\ records_at d' c = records_at d c;
  bk_record : rd_records d' = rd_records d ++
    [new_row hmac_hex Cipher gcm_encrypt env (calendar_of a)
       (new_reservation env actor (ra_resource a) q occurrences) rh];
  bk_spans : spans_of occurrences = Ok proposed;
  bk_busy : busy_spans (dict_values (book cancels (calendar_records Cipher d (calendar_of a))))
            = Ok existing;
  bk_check : check_capacity (rr_capacity (ra_resource a)) (rq_units q) existing proposed = Ok tt;
}.

Arguments bk_event {_ _ _ _ _ _ _ _ _ _ _ _ _ _} _.
Arguments bk_revision {_ _ _ _ _ _ _ _ _ _ _ _ _ _} _.
Arguments bk_fresh {_ _ _ _ _ _ _ _ _ _ _ _ _ _} _.
Arguments bk_before {_ _ _ _ _ _ _ _ _ _ _ _ _ _} _.
Arguments bk_after {_ _ _ _ _ _ _ _ _ _ _ _ _ _} _.
Arguments bk_rows {_ _ _ _ _ _ _ _ _ _ _ _ _ _} _.
Arguments bk_others {_ _ _ _ _ _ _ _ _ _ _ _ _ _} _.
Arguments bk_record {_ _ _ _ _ _ _ _ _ _ _ _ _ _} _.
Arguments bk_spans {_ _ _ _ _ _ _ _ _ _ _ _ _ _} _.
Arguments bk_busy {_ _ _ _ _ _ _ _ _ _ _ _ _ _} _.
Arguments bk_check {_ _ _ _ _ _ _ _ _ _ _ _ _ _} _.

(** The same authority at another revision of its calendar. *)
Definition at_revision (n : Z) (a : ReservationAuthority) : ReservationAuthority :=
  {| ra_core_id := ra_core_id a; ra_home_id := ra_home_id a; ra_account_id := ra_account_id a;
     ra_core_revision := ra_core_revision a; ra_home_revision := ra_home_revision a;
     ra_account_revision := ra_account_revision a; ra_members_revision := ra_members_revision a;
     ra_calendar_revision := n; ra_member_ids := ra_member_ids a; ra_resource := ra_resource a |}.

(** A receipt found in the history. *)
Definition replayed d (actor : Principal) c (command_id : ustr) (action : reservation_action)
    (rh : string) v : Prop :=
  exists e r creates cancels, find_replay Cipher d c command_id = Some e /\ rv_action e = action /\
    rv_actor_id e = u (p_id actor) /\ rv_request_hash e = rh /\ lives d c creates cancels /\
    dict_get (book cancels (calendar_records Cipher d c)) (rv_reservation_id e) = Some r /\
    v = reservation_receipt e r.

Lemma create_tx_cases env actor a cmd q occurrences rh d x d' :
  store_inv d -> asked q occurrences ->
  create_tx env actor a cmd q occurrences rh d = (x, d') ->
  (d' = d /\ forall v, x = Ok v -> replayed d actor (calendar_of a) cmd Created rh v) \/
  exists creates cancels proposed existing,
    booked env actor a cmd q occurrences rh d x d' creates cancels proposed existing.
Proof.
  intros [Hd Hl] Hask [[-> Hno]|(v & -> & Hm)]%transaction_cases;
    [left; split; [done|]; intros v Hv; by destruct (Hno v)|].
  destruct (Hl (calendar_of a)) as (creates & cancels & Hlc).
  cbv beta iota zeta delta [mbind M_bind get_state lift mret M_ret] in Hm.
  rewrite (verified_ok _ _ _ _ Hd Hlc) in Hm. cbv beta iota in Hm.
  destruct (find_replay _ _ _ _) as [e|] eqn:Hf.
  { destruct (raise_if _ _) eqn:Hq in Hm; [|done]. apply raise_if_ok in Hq. passed. left.
    destruct (require_some _ _) as [r|] eqn:Hr in Hm; [|done]. apply require_some_ok in Hr.
    injection Hm as <- <-. split; [done|]. intros v [= <-]. by exists e, r, creates, cancels. }
  rewrite state_read in Hm by done. cbv beta iota in Hm.
  destruct (raise_if _ _) eqn:Hcur in Hm; [|done]. apply raise_if_ok in Hcur. passed.
  destruct (raise_if _ _) in Hm; [|done].
  destruct (spans_of occurrences) as [proposed|] eqn:Hs; [|done].
  destruct (busy_spans _) as [existing|] eqn:Hb; [|done].
  destruct (check_capacity _ _ _ _) as [[]|] eqn:Hk; [|done].
  destruct (raise_if _ _) in Hm; [|done].
  set (r := new_row _ _ _ _ _ _ _) in Hm.
  assert (Ho : opens r).
  { eexists. split; [apply new_row_decrypts|by eapply asked_typed].
    intros ->. destruct Hask as (_ & _ & Hn & _). cbn in Hn. lia. }
  destruct (insert_row _ r d) as [[u1|] d2] eqn:Hi; [|done].
  apply row_inserted in Hi as (Hd2 & Hnew & Ed2); [|done..].
  assert (Est : rd_states d = rd_states d2) by (by rewrite Ed2). rewrite Est in Hm.
  destruct (insert_event _ _ _ _ _ _ _ _ _ _ d2) as [[[ev rev]|] d3] eqn:He; [|done].
  apply event_inserted in He as (Hd3 & e & (Ee & Er & Ec & Ea & Ei & Eh & En) & Em & Eact & Ex & Erev & Eat); [|done].
  injection Ex as -> ->. injection Hm as <- <-. right. exists creates, cancels, proposed, existing.
  assert (Ee' : rd_events d3 = rd_events d ++ [e]) by (by rewrite Ee, Ed2).
  assert (Er' : rd_records d3 = rd_records d ++ [r]) by (by rewrite Er, Ed2).
  constructor; try done.
  - exists e. split_and!; try done. by destruct e; cbn in *; subst.
  - rewrite <- Est, <- Hcur in Erev. rewrite <- Erev. split; [by intros rp [= <-]|done].
  - change (rn_reservation_id env) with (rw_id r). by eapply created_lives.
  - intros c cs ks Hc Hlc'.
    assert (records_at d3 c = records_at d c) as Erc.
    { unfold records_at. rewrite Er', filter_app, filter_cons, filter_nil.
      rewrite decide_False by (intros E; by apply Hc). apply app_nil_r. }
    split; [|done]. eapply other_lives; [exact Ee'|exact Ec|congruence|exact Erc|exact Hlc'].
Qed.

(** Everything that the transaction of [cancel] does when it cancels [r]. *)
Record unbooked (env : reservation_env) (actor : Principal) (a : ReservationAuthority)
    (command_id reservation_id : ustr) (rh : string) d x d' (creates : list ustr)
    (cancels : list (ustr * Z)) (r : Reservation) : Prop := {
  ub_event : logged_last d d' env actor (calendar_of a) command_id Cancelled reservation_id rh
               (cancelled (rn_now env) r) x;
  ub_fresh : find_replay Cipher d (calendar_of a) command_id = None;
  ub_before : lives d (calendar_of a) creates cancels;
  ub_after : lives d' (calendar_of a) creates (dict_set cancels reservation_id (rn_now env));
  ub_rows : rows_inv d';
  ub_others : forall c cs ks, c <> calendar_of a -> lives d c cs ks -> lives d' c cs ks;
  ub_records : rd_records d' = rd_records d;
  ub_found : dict_get (book cancels (calendar_records Cipher d (calendar_of a))) reservation_id = Some r;
  ub_open : rs_cancelled_at r = None;
  ub_right : p_role actor = Admin \/ rs_owner_id r = u (p_id actor);
}.

Arguments ub_event {_ _ _ _ _ _ _ _ _ _ _ _} _.
Arguments ub_fresh {_ _ _ _ _ _ _ _ _ _ _ _} _.
Arguments ub_before {_ _ _ _ _ _ _ _ _ _ _ _} _.
Arguments ub_after {_ _ _ _ _ _ _ _ _ _ _ _} _.
Arguments ub_rows {_ _ _ _ _ _ _ _ _ _ _ _} _.
Arguments ub_others {_ _ _ _ _ _ _ _ _ _ _ _} _.
Arguments ub_records {_ _ _ _ _ _ _ _ _ _ _ _} _.
Arguments ub_found {_ _ _ _ _ _ _ _ _ _ _ _} _.
Arguments ub_open {_ _ _ _ _ _ _ _ _ _ _ _} _.
Arguments ub_right {_ _ _ _ _ _ _ _ _ _ _ _} _.

Lemma book_get cancels records id r :
  Forall opens records -> dict_get (book cancels records) id = Some r ->
  rs_id r = id /\ rs_cancelled_at r = dict_get cancels id /\ id ∈ rw_id <$> records.
Proof.
  induction 1 as [|x l Ho _ IH]; [done|].
  destruct (book_cons cancels x l Ho) as (v & -> & Hv). cbn. case_decide as E.
  - intros [= <-]. subst id. cbn. split_and!; [|done|by left].
    unfold Reservations.decrypt_reservation in Hv. inv_ok. done.
  - intros (? & ? & ?)%IH. split_and!; try done. by right.
Qed.

Lemma cancel_tx_cases env actor a cmd rid rh d x d' :
  store_inv d -> cancel_tx env actor a cmd rid rh d = (x, d') ->
  (d' = d /\ forall v, x = Ok v -> replayed d actor (calendar_of a) cmd Cancelled rh v) \/
  exists creates cancels r, unbooked env actor a cmd rid rh d x d' creates cancels r.
Proof.
  intros [Hd Hl] [[-> Hno]|(v & -> & Hm)]%transaction_cases;
    [left; split; [done|]; intros v Hv; by destruct (Hno v)|].
  destruct (Hl (calendar_of a)) as (creates & cancels & Hlc).
  cbv beta iota zeta delta [mbind M_bind get_state lift mret M_ret] in Hm.
  rewrite (verified_ok _ _ _ _ Hd Hlc) in Hm. cbv beta iota in Hm.
  destruct (find_replay _ _ _ _) as [e|] eqn:Hf.
  { destruct (raise_if _ _) eqn:Hq in Hm; [|done]. apply raise_if_ok in Hq. passed. left.
    destruct (require_some _ _) as [r|] eqn:Hr in Hm; [|done]. apply require_some_ok in Hr.
    injection Hm as <- <-. split; [done|]. intros v [= <-]. by exists e, r, creates, cancels. }
  rewrite state_read in Hm by done. cbv beta iota in Hm.
  destruct (raise_if _ _) in Hm; [|done].
  destruct (require_some _ _) as [r|] eqn:Hr in Hm; [|done]. apply require_some_ok in Hr.
  destruct (raise_if _ _) eqn:Hopen in Hm; [|done]. apply raise_if_ok in Hopen. passed.
  destruct (raise_if _ _) eqn:Hown in Hm; [|done]. apply raise_if_ok in Hown.
  destruct (insert_event _ _ _ _ _ _ _ _ _ _ d) as [[[ev rev]|] d3] eqn:He; [|done].
  apply event_inserted in He as (Hd3 & e & (Ee & Er & Ec & Ea & Ei & Eh & En) & Em & Eact & Ex & Erev & Eat); [|done].
  injection Ex as -> ->. injection Hm as <- <-. right. exists creates, cancels, r.
  pose proof (book_get _ _ _ _ (read_opens d (calendar_of a) Hd) Hr) as (Eid & Ecan & Hin).
  rewrite records_read in Hin. subst rid.
  constructor; try done.
  - exists e. split_and!; try done. by destruct e; cbn in *; subst.
  - rewrite <- Ei, <- En. eapply cancelled_lives; try done.
    + rewrite Ei. destruct Hlc as (_ & Hp & _). by rewrite <- Hp.
    + rewrite Ei. apply dict_get_None. congruence.
  - intros c cs ks Hc Hlc'. eapply other_lives; [exact Ee|exact Ec|congruence| |exact Hlc'].
    unfold records_at. by rewrite Er.
  - destruct (decide (p_role actor = Admin)) as [|Hna]; [by left|right].
    destruct (decide (rs_owner_id r = u (p_id actor))) as [|Hno]; [done|]. by destruct Hown.
Qed.

Lemma booked_inv env actor a cmd q occurrences rh d x d' creates cancels proposed existing :
  store_inv d -> booked env actor a cmd q occurrences rh d x d' creates cancels proposed existing ->
  store_inv d'.
Proof.
  intros [_ Hl] Hb. split; [apply Hb|]. intros c.
  destruct (decide (c = calendar_of a)) as [->|Hc]; [do 2 eexists; apply Hb|].
  destruct (Hl c) as (cs & ks & Hlc). exists cs, ks. by apply (bk_others Hb).
Qed.

Lemma unbooked_inv env actor a cmd rid rh d x d' creates cancels r :
  store_inv d -> unbooked env actor a cmd rid rh d x d' creates cancels r -> store_inv d'.
Proof.
  intros [_ Hl] Hb. split; [apply Hb|]. intros c.
  destruct (decide (c = calendar_of a)) as [->|Hc]; [do 2 eexists; apply Hb|].
  destruct (Hl c) as (cs & ks & Hlc). exists cs, ks. by apply (ub_others Hb).
Qed.

(** ** Capacity *)

Lemma lives_det d c cs ks cs' ks' :
  lives d c cs ks -> lives d c cs' ks' -> cs = cs' /\ ks = ks'.
Proof. intros (H1 & _) (H2 & _). rewrite H1 in H2. by injection H2. Qed.

Lemma typed_cancelled o r : reservation_typed r -> reservation_typed (with_cancelled o r).
Proof. intros []. by constructor. Qed.

Lemma book_typed cancels records :
  Forall opens records -> Forall reservation_typed (dict_values (book cancels records)).
Proof.
  induction 1 as [|x l Ho _ IH]; [constructor|].
  destruct (opened_ok cancels x Ho) as (v & Hv & _ & Hu).
  unfold book, dict_values in *. cbn. rewrite Hv. constructor; [by apply typed_cancelled|done].
Qed.

Lemma book_units cancels records :
  Forall opens records -> Forall (fun r => 0 <= rs_units r) (dict_values (book cancels records)).
Proof.
  intros Ho. eapply Forall_impl; [by apply book_typed|]. intros r Hr. pose proof (ty_units _ Hr). lia.
Qed.

Lemma book_new cancels env actor a q occurrences rh :
  occurrences <> [] -> dict_get cancels (rn_reservation_id env) = None ->
  book cancels [new_row hmac_hex Cipher gcm_encrypt env (calendar_of a)
                  (new_reservation env actor (ra_resource a) q occurrences) rh] =
  [(rn_reservation_id env, new_reservation env actor (ra_resource a) q occurrences)].
Proof.
  intros Hne Hn. unfold book, opened. cbn. rewrite Hn. by rewrite new_row_decrypts.
Qed.

(** The book after a booking: what was there, and the new reservation. *)
Lemma booked_book env actor a cmd q occurrences rh d x d' creates cancels proposed existing :
  rows_inv d -> occurrences <> [] ->
  booked env actor a cmd q occurrences rh d x d' creates cancels proposed existing ->
  book cancels (records_at d' (calendar_of a)) =
  book cancels (records_at d (calendar_of a)) ++
  [(rn_reservation_id env, new_reservation env actor (ra_resource a) q occurrences)].
Proof.
  intros Hd Hne Hb. unfold records_at.
  rewrite (bk_record Hb), filter_app, filter_cons, decide_True, filter_nil by done.
  rewrite book_app, book_new; [done|done|].
  apply dict_get_None. intros Hk.
  pose proof (bk_before Hb) as Hl.
  apply (proj2 (lives_facts _ _ _ _ Hl)) in Hk. destruct Hl as (_ & Hp & _). rewrite <- Hp in Hk.
  pose proof (ri_ids _ (bk_rows Hb)) as Hn.
  rewrite (bk_record Hb), fmap_app in Hn.
  apply NoDup_app in Hn as (_ & Hn & _). apply (Hn (rn_reservation_id env)); [|by left].
  apply list_elem_of_fmap in Hk as (y & -> & [_ Hy]%list_elem_of_filter).
  by apply list_elem_of_fmap_2.
Qed.

Lemma units_at_new t env actor rule q occurrences :
  units_at t (new_reservation env actor rule q occurrences) =
  zsum ((fun _ => rq_units q) <$> filter (covers t) (span_at <$> occurrences)).
Proof.
  unfold units_at. cbn [rs_cancelled_at rs_units rs_occurrences new_reservation].
  rewrite decide_True by done. induction occurrences as [|o l IH]; [done|].
  rewrite fmap_cons, !filter_cons. case_decide; [|done].
  rewrite !fmap_cons, !zsum_cons. by rewrite IH.
Qed.

Lemma booked_usage t cap env actor a cmd q occurrences rh d x d' creates cancels proposed existing :
  rows_inv d -> occurrences <> [] -> 0 <= rq_units q -> rr_capacity (ra_resource a) <= cap ->
  booked env actor a cmd q occurrences rh d x d' creates cancels proposed existing ->
  book_usage t cancels (records_at d (calendar_of a)) <= cap ->
  book_usage t cancels (records_at d' (calendar_of a)) <= cap.
Proof.
  intros Hd Hne Hu Hcap Hb Hle. unfold book_usage, dict_values in *.
  rewrite (booked_book _ _ _ _ _ _ _ _ _ _ _ _ _ _ Hd Hne Hb).
  rewrite fmap_app. unfold usage in *. rewrite fmap_app, zsum_app. cbn [fmap list_fmap snd].
  rewrite zsum_cons, zsum_nil, Z.add_0_r, units_at_new.
  pose proof (bk_spans Hb) as Hs. apply spans_of_ok in Hs.
  pose proof (bk_busy Hb) as Hbs.
  pose proof (busy_spans_nonneg _ _ Hbs (book_units _ _ (read_opens _ _ Hd))) as Hnn.
  apply (busy_spans_usage t) in Hbs.
  pose proof (capacity_kept _ _ _ _ t _ (bk_check Hb) Hu Hnn) as Hk.
  cbv zeta in Hk. rewrite Hbs, Hs in Hk. clear Hbs Hs Hb.
  change (usage t (dict_values (book cancels (calendar_records Cipher d (calendar_of a)))))
    with (book_usage t cancels (calendar_records Cipher d (calendar_of a))) in Hk.
  rewrite (book_usage_perm t cancels _ _ (records_read d (calendar_of a))) in Hk.
  unfold book_usage, dict_values, usage in Hk. lia.
Qed.

(** ** Reachable stores *)

Section operations.
Variable json_loads : list Z -> res jval.
Variable fromisoformat : ustr -> option iso_datetime.
Variable utcoffset : ustr -> Z -> bool -> Z.
Variable astimezone : ustr -> Z -> Z * bool.
Variable hmac_bytes : string -> list Z -> string.
Local Notation create := (create json_loads fromisoformat utcoffset astimezone hmac_hex hmac_bytes
                            Cipher gcm_encrypt gcm_decrypt).
Local Notation cancel := (cancel json_loads hmac_hex hmac_bytes Cipher gcm_decrypt).
(** The capacity of each calendar's resource. *)
Variable capacity_at : calendar -> Z.

Inductive reservation_step d : db -> Prop :=
| step_create env actor a bytes :
    rr_capacity (ra_resource a) <= capacity_at (calendar_of a) ->
    reservation_step d (create env actor a bytes d).2
| step_cancel env actor a bytes :
    reservation_step d (cancel env actor a bytes d).2.
Definition store_reachable d : Prop := rtc reservation_step empty_store d.

Lemma step_days_ok f n : step_days f = Some n -> n ∈ [0; 1; 7].
Proof. unfold step_days. repeat case_decide; intros [= <-]; set_solver. Qed.

Lemma read_recurrence_ok value rule q :
  read_recurrence fromisoformat value rule = Ok q ->
  60 <= rq_duration q <= MAX_DURATION_SECONDS /\ 1 <= rq_units q <= rr_capacity rule /\
  1 <= rq_count q <= MAX_OCCURRENCES /\ rq_step_days q ∈ [0; 1; 7].
Proof.
  unfold read_recurrence, step_days. intros Hq. inv_ok. cbn. passed.
  repeat match goal with E : ~ ~ _ |- _ => apply dec_stable in E end.
  split_and!; try lia.
  match goal with E : _ ≫= _ = Some _ |- _ => apply bind_Some in E as (? & _ & E); by apply step_days_ok in E end.
Qed.

(** An occurrence keeps the local time: [index] steps after the first one, on
    the clock of the zone, and lasts as long as asked. *)
Definition occurs_locally zone (q : recurrence_request) (index : Z) (o : Occurrence) : Prop :=
  exists start fold, o = occurrence_of start (rq_duration q) /\
    start = rq_wall q + rq_step_days q * DAY_SECONDS * index
            - utcoffset zone (rq_wall q + rq_step_days q * DAY_SECONDS * index) fold /\
    (astimezone zone start).1 = rq_wall q + rq_step_days q * DAY_SECONDS * index.

Lemma occurrence_at_ok zone q index o :
  occurrence_at utcoffset astimezone zone q index = Ok o -> occurs_locally zone q index o.
Proof.
  unfold occurrence_at. intros Ho. apply bind_ok in Ho as (start & Hs & [= <-]).
  unfold local_instant in Hs. apply bind_ok in Hs as (fold & _ & Hs).
  destruct (astimezone zone _) as [wall back] eqn:Ha. inv_ok. passed. subst wall.
  eexists _, fold. split_and!; [done|done|by rewrite Ha].
Qed.

Lemma local_occurrences_ok zone q occurrences :
  local_occurrences utcoffset astimezone zone q = Ok occurrences ->
  length occurrences = Z.to_nat (rq_count q) /\
  forall i o, occurrences !! i = Some o -> occurs_locally zone q (Z.of_nat i) o.
Proof.
  intros (ys & -> & Hys)%fold_res_snoc. cbn. split.
  - apply Forall2_length in Hys. by rewrite <- Hys, length_fmap, length_seq.
  - intros i o Ho. destruct (Forall2_lookup_r _ _ _ _ _ Hys Ho) as (x & Hx & Ho').
    apply list_lookup_fmap_Some in Hx as (j & -> & Hj). apply lookup_seq in Hj as [-> _].
    by apply occurrence_at_ok.
Qed.

(** What [create] hands to its transaction. *)
Record create_request (actor : Principal) (a : ReservationAuthority) (bytes : list Z)
    (command_id : ustr) (q : recurrence_request) (occurrences : list Occurrence) : Prop := {
  cq_authorized : reservation_authorize actor a = Ok tt;
  cq_value : exists value, parse_command json_loads bytes create_fields = Ok value /\
    check_scope value a = Ok tt /\ identifier_field value "commandId" = Some command_id /\
    read_recurrence fromisoformat value (ra_resource a) = Ok q;
  cq_occurrences : local_occurrences utcoffset astimezone (rr_timezone (ra_resource a)) q = Ok occurrences;
  cq_asked : asked q occurrences;
  cq_nonempty : occurrences <> [];
  cq_units : 0 <= rq_units q;
}.

Lemma create_cases env actor a bytes d :
  (create env actor a bytes d).2 = d /\ (forall v, (create env actor a bytes d).1 <> Ok v) \/
  exists command_id q occurrences, create_request actor a bytes command_id q occurrences /\
    (forall env' d2, create env' actor a bytes d2 =
       create_tx env' actor a command_id q occurrences (hmac_bytes "request" bytes) d2) /\
    create env actor a bytes d =
    create_tx env actor a command_id q occurrences (hmac_bytes "request" bytes) d.
Proof.
  enough ((forall env' d2, exists x, create env' actor a bytes d2 = (x, d2) /\ forall v, x <> Ok v) \/
    exists command_id q occurrences, create_request actor a bytes command_id q occurrences /\
    forall env' d2, create env' actor a bytes d2 =
      create_tx env' actor a command_id q occurrences (hmac_bytes "request" bytes) d2)
    as [Hno|(cmd & q & occs & Hq & Hall)].
  { left. by destruct (Hno env d) as (x & -> & Hx). }
  { right. by exists cmd, q, occs. }
  unfold Reservations.create. setoid_rewrite lift_bind.
  destruct (reservation_authorize actor a) as [[]|] eqn:Hau; [cbv beta iota|left; eauto].
  setoid_rewrite lift_bind. destruct (parse_command _ _ _) as [value|] eqn:Hp; [cbv beta iota|left; eauto].
  setoid_rewrite lift_bind. destruct (check_scope value a) as [[]|] eqn:Hsc; [cbv beta iota|left; eauto].
  setoid_rewrite lift_bind. destruct (raise_if _ _); [cbv beta iota|left; eauto].
  setoid_rewrite lift_bind. destruct (require_some _ _) as [cmd|] eqn:Hc; [cbv beta iota|left; eauto].
  apply require_some_ok in Hc.
  setoid_rewrite lift_bind. destruct (read_recurrence _ _ _) as [q|] eqn:Hq; [cbv beta iota|left; eauto].
  setoid_rewrite lift_bind. destruct (local_occurrences _ _ _ _) as [occs|] eqn:Ho; [cbv beta iota|left; eauto].
  right. exists cmd, q, occs. split; [|done].
  pose proof (read_recurrence_ok _ _ _ Hq) as (Hdur & Hu & Hn & _).
  destruct (local_occurrences_ok _ _ _ Ho) as [Hlen Hloc].
  constructor; [done|by exists value|done| | |lia].
  - split_and!; try lia. apply Forall_forall. intros o [i Hi]%list_elem_of_lookup.
    destruct (Hloc i o Hi) as (start & _ & -> & _). by exists start.
  - intros ->. cbn in Hlen. lia.
Qed.

Lemma cancel_cases env actor a bytes d :
  (cancel env actor a bytes d).2 = d /\ (forall v, (cancel env actor a bytes d).1 <> Ok v) \/
  exists value command_id reservation_id,
    reservation_authorize actor a = Ok tt /\ parse_command json_loads bytes cancel_fields = Ok value /\
    check_scope value a = Ok tt /\ identifier_field value "commandId" = Some command_id /\
    identifier_field value "reservationId" = Some reservation_id /\
    cancel env actor a bytes d =
    cancel_tx env actor a command_id reservation_id (hmac_bytes "request" bytes) d.
Proof.
  unfold Reservations.cancel. rewrite lift_bind.
  destruct (reservation_authorize actor a) as [[]|] eqn:Hau; [cbv beta iota|by left].
  rewrite lift_bind. destruct (parse_command _ _ _) as [value|] eqn:Hp; [cbv beta iota|by left].
  rewrite lift_bind. destruct (check_scope value a) as [[]|] eqn:Hsc; [cbv beta iota|by left].
  rewrite lift_bind. destruct (raise_if _ _); [cbv beta iota|by left].
  rewrite lift_bind. destruct (require_some _ _) as [cmd|] eqn:Hc; [cbv beta iota|by left].
  rewrite lift_bind. destruct (require_some (identifier_field value "reservationId") _) as [rid|] eqn:Hr;
    [cbv beta iota|by left].
  apply require_some_ok in Hc, Hr. right. by exists value, cmd, rid.
Qed.

(** Every calendar stays within its capacity at every instant. *)
Definition within_capacity d : Prop := forall c creates cancels,
  0 <= capacity_at c -> lives d c creates cancels ->
  forall t, book_usage t cancels (records_at d c) <= capacity_at c.

Lemma step_within d d' :
  store_inv d -> within_capacity d -> reservation_step d d' -> store_inv d' /\ within_capacity d'.
Proof.
  intros Hi Hw [env actor a bytes Hcap|env actor a bytes].
  - destruct (create_cases env actor a bytes d) as [[-> _]|(cmd & q & occs & Hq & _ & ->)]; [done|].
    destruct (create_tx _ _ _ _ _ _ _ d) as [x d1] eqn:Htx.
    apply create_tx_cases in Htx as [[-> _]|(cs & ks & pr & ex & Hb)]; [done| |done|apply Hq..].
    split; [by eapply booked_inv|]. cbn. intros c cs' ks' Hc Hl t.
    destruct (decide (c = calendar_of a)) as [->|Hne].
    + destruct (lives_det _ _ _ _ _ _ Hl (bk_after Hb)) as [_ ->].
      eapply booked_usage; [apply Hi|apply Hq|apply Hq|exact Hcap|exact Hb|].
      eapply Hw; [done|apply Hb].
    + destruct Hi as [_ Hl']. destruct (Hl' c) as (cs0 & ks0 & Hl0).
      destruct (bk_others Hb c cs0 ks0 Hne Hl0) as [Hl1 ->].
      destruct (lives_det _ _ _ _ _ _ Hl Hl1) as [_ ->]. by eapply Hw.
  - destruct (cancel_cases env actor a bytes d) as [[-> _]|(v & cmd & rid & _ & _ & _ & _ & _ & ->)];
      [done|].
    destruct (cancel_tx _ _ _ _ _ _ d) as [x d1] eqn:Htx.
    apply cancel_tx_cases in Htx as [[-> _]|(cs & ks & r & Hb)]; [done| |done].
    split; [by eapply unbooked_inv|]. cbn. intros c cs' ks' Hc Hl t.
    assert (records_at d1 c = records_at d c) as ->.
    { unfold records_at. by rewrite (ub_records Hb). }
    destruct (decide (c = calendar_of a)) as [->|Hne].
    + destruct (lives_det _ _ _ _ _ _ Hl (ub_after Hb)) as [_ ->].
      etrans; [apply book_usage_cancel, at_opens, Hi|]. eapply Hw; [done|apply Hb].
    + destruct Hi as [_ Hl']. destruct (Hl' c) as (cs0 & ks0 & Hl0).
      pose proof (ub_others Hb c cs0 ks0 Hne Hl0) as Hl1.
      destruct (lives_det _ _ _ _ _ _ Hl Hl1) as [_ ->]. by eapply Hw.
Qed.

Lemma reachable_within d : store_reachable d -> store_inv d /\ within_capacity d.
Proof.
  unfold store_reachable. revert d. apply (rtc_ind_r (fun d => store_inv d /\ within_capacity d)).
  - split; [apply empty_store_inv|]. intros c cs ks Hc _ t. done.
  - intros d d' _ Hs [Hi Hw]. by eapply step_within.
Qed.

(** *** What later steps keep *)

Definition with_reservation (v : ReservationReceipt) (r : Reservation) : ReservationReceipt :=
  {| rp_event_id := rp_event_id v; rp_command_id := rp_command_id v; rp_action := rp_action v;
     rp_calendar_revision := rp_calendar_revision v; rp_reservation := r |}.

Definition grows d d' : Prop :=
  rd_events d `prefix_of` rd_events d' /\ rd_records d `prefix_of` rd_records d'.

Lemma step_grows d d' : store_inv d -> reservation_step d d' -> grows d d'.
Proof.
  intros Hi [env actor a bytes _|env actor a bytes].
  - destruct (create_cases env actor a bytes d) as [[-> _]|(cmd & q & occs & Hq & _ & ->)]; [done|].
    destruct (create_tx _ _ _ _ _ _ _ d) as [x d1] eqn:Htx.
    apply create_tx_cases in Htx as [[-> _]|(cs & ks & pr & ex & Hb)]; [done| |done|apply Hq..].
    destruct (bk_event Hb) as (e & He & _). split; cbn; [rewrite He|rewrite (bk_record Hb)];
      by apply prefix_app_r.
  - destruct (cancel_cases env actor a bytes d) as [[-> _]|(v & cmd & rid & _ & _ & _ & _ & _ & ->)];
      [done|].
    destruct (cancel_tx _ _ _ _ _ _ d) as [x d1] eqn:Htx.
    apply cancel_tx_cases in Htx as [[-> _]|(cs & ks & r & Hb)]; [done| |done].
    destruct (ub_event Hb) as (e & He & _). split; cbn; [rewrite He; by apply prefix_app_r|].
    by rewrite (ub_records Hb).
Qed.

Lemma later_grows d d' : store_inv d -> within_capacity d -> rtc reservation_step d d' ->
  store_inv d' /\ grows d d'.
Proof.
  intros Hi Hw Hs. induction Hs as [d|d d1 d' Hs _ IH]; [done|].
  destruct (step_within _ _ Hi Hw Hs) as [Hi1 Hw1]. destruct (IH Hi1 Hw1) as [? [He Hr]].
  destruct (step_grows _ _ Hi Hs) as [He0 Hr0]. split; [done|]. split; by etrans.
Qed.

Lemma find_replay_grows d d' c cmd e :
  grows d d' -> find_replay Cipher d c cmd = Some e -> find_replay Cipher d' c cmd = Some e.
Proof. intros [[l He] _] Hf. unfold find_replay in *. by rewrite He, sql_one_app, Hf. Qed.

Lemma book_found cancels records id r :
  Forall opens records -> dict_get (book cancels records) id = Some r ->
  exists x v, x ∈ records /\ rw_id x = id /\ decrypt_reservation x None = Ok v /\
    r = with_cancelled (dict_get cancels id) v.
Proof.
  induction 1 as [|y l Ho _ IH]; [done|].
  destruct (book_cons cancels y l Ho) as (v & -> & Hv). cbn. case_decide as E.
  - intros [= <-]. subst id. exists y, v. split_and!; [by left|done..].
  - intros (x & v' & ? & ? & ? & ?)%IH. exists x, v'. split_and!; [by right|done..].
Qed.

Lemma row_found cancels records x v :
  Forall opens records -> NoDup (rw_id <$> records) -> x ∈ records ->
  decrypt_reservation x None = Ok v ->
  dict_get (book cancels records) (rw_id x) = Some (with_cancelled (dict_get cancels (rw_id x)) v).
Proof.
  intros Ho Hn Hx Hv. revert Hn Hx. induction Ho as [|y l Ho _ IH]; intros Hn Hx; [set_solver|].
  destruct (book_cons cancels y l Ho) as (v' & -> & Hv'). cbn in Hn. apply NoDup_cons in Hn as [Hy Hn].
  apply elem_of_cons in Hx as [->|Hx]; cbn.
  - rewrite decide_True by done. assert (v' = v) as -> by congruence. done.
  - rewrite decide_False; [by apply IH|]. intros E. apply Hy. rewrite <- E. by apply list_elem_of_fmap_2.
Qed.

(** A reservation that was read is read again later, cancelled perhaps. *)
Lemma book_later d d' c cancels cancels' id r :
  rows_inv d -> rows_inv d' -> grows d d' ->
  dict_get (book cancels (calendar_records Cipher d c)) id = Some r ->
  dict_get (book cancels' (calendar_records Cipher d' c)) id =
  Some (with_cancelled (dict_get cancels' id) r).
Proof.
  intros Hd Hd' [_ [l Hl]] Hr.
  apply book_found in Hr as (x & v & Hx & <- & Hv & ->); [|by apply read_opens].
  rewrite records_read in Hx. apply list_elem_of_filter in Hx as [Hc Hx].
  rewrite (row_found _ _ x v); [done|by apply read_opens|rewrite records_read; by apply at_ids| |done].
  rewrite records_read. apply list_elem_of_filter. split; [done|]. rewrite Hl. by apply elem_of_app; left.
Qed.

Lemma create_tx_replays env actor a cmd q occurrences rh d v :
  store_inv d -> replayed d actor (calendar_of a) cmd Created rh v ->
  create_tx env actor a cmd q occurrences rh d = (Ok v, d).
Proof.
  intros [Hd _] (e & r & cs & ks & Hf & Ha & Hact & Hrh & Hl & Hr & ->).
  unfold Reservations.create_tx, transaction.
  cbv beta iota zeta delta [mbind M_bind get_state lift mret M_ret].
  rewrite (verified_ok _ _ _ _ Hd Hl). cbv beta iota. rewrite Hf.
  rewrite raise_if_no by naive_solver. rewrite Hr. done.
Qed.

(** The history answers the same later on. *)
Lemma replayed_later d d' actor c cmd action rh v :
  store_inv d -> store_inv d' -> grows d d' -> replayed d actor c cmd action rh v ->
  exists cancels, replayed d' actor c cmd action rh
    (with_reservation v (with_cancelled (dict_get cancels (rs_id (rp_reservation v))) (rp_reservation v))).
Proof.
  intros [Hd _] [Hd' Hl'] Hg (e & r & cs & ks & Hf & Ha & Hact & Hrh & Hl & Hr & ->).
  destruct (Hl' c) as (cs' & ks' & Hlc). exists ks', e. eexists. exists cs', ks'.
  pose proof (book_get _ _ _ _ (read_opens d c Hd) Hr) as (Eid & _ & _).
  split_and!; try done; [by eapply find_replay_grows|]. cbn. rewrite Eid.
  eapply book_later; [exact Hd|exact Hd'|done|exact Hr].
Qed.

Lemma booked_get env actor a cmd q occurrences rh d x d' creates cancels proposed existing :
  rows_inv d -> occurrences <> [] ->
  booked env actor a cmd q occurrences rh d x d' creates cancels proposed existing ->
  dict_get (book cancels (calendar_records Cipher d' (calendar_of a))) (rn_reservation_id env) =
  Some (new_reservation env actor (ra_resource a) q occurrences).
Proof.
  intros Hd Hne Hb. pose proof (booked_book _ _ _ _ _ _ _ _ _ _ _ _ _ _ Hd Hne Hb) as Hbook.
  apply dict_elem_get.
  - rewrite book_keys by apply read_opens, Hb. rewrite records_read. apply at_ids, Hb.
  - rewrite (book_perm cancels _ _ (records_read d' (calendar_of a))), Hbook.
    apply elem_of_app. right. by left.
Qed.

Lemma booked_replayed env actor a cmd q occurrences rh d rp d' creates cancels proposed existing :
  rows_inv d -> occurrences <> [] ->
  booked env actor a cmd q occurrences rh d (Ok rp) d' creates cancels proposed existing ->
  replayed d' actor (calendar_of a) cmd Created rh rp.
Proof.
  intros Hd Hne Hb. destruct (bk_event Hb) as (e & He & Hc & Ha & Hid & Hrh & Hcmd & Hact & [= ->]).
  exists e, (new_reservation env actor (ra_resource a) q occurrences), (creates ++ [rn_reservation_id env]), cancels.
  split_and!; try done; [|apply Hb|rewrite Hid; by eapply booked_get].
  pose proof (bk_fresh Hb) as Hf. unfold find_replay in *. rewrite He, sql_one_app, Hf, sql_one_single.
  by rewrite decide_True.
Qed.

Lemma create_replayed env actor a bytes d rp d' :
  store_inv d -> create env actor a bytes d = (Ok rp, d') ->
  exists cmd q occurrences, create_request actor a bytes cmd q occurrences /\
    (forall env' d2, create env' actor a bytes d2 =
       create_tx env' actor a cmd q occurrences (hmac_bytes "request" bytes) d2) /\
    replayed d' actor (calendar_of a) cmd Created (hmac_bytes "request" bytes) rp.
Proof.
  intros Hi Hc.
  destruct (create_cases env actor a bytes d) as [[_ Hno]|(cmd & q & occs & Hq & Htx & E)].
  { rewrite Hc in Hno. by destruct (Hno rp). }
  exists cmd, q, occs. split_and!; [done..|].
  rewrite Hc in E. symmetry in E.
  apply create_tx_cases in E as [[-> Hr]|(cs & ks & pr & ex & Hb)]; [by apply Hr| |done|apply Hq..].
  eapply booked_replayed; [apply Hi|apply Hq|exact Hb].
Qed.

Lemma book_opened cancels records :
  Forall opens records ->
  Forall (fun kv => exists x v, x ∈ records /\ kv.1 = rw_id x /\ decrypt_reservation x None = Ok v /\
            kv.2 = with_cancelled (dict_get cancels (rw_id x)) v /\ reservation_typed v)
    (book cancels records).
Proof.
  induction 1 as [|y l Ho _ IH]; [constructor|].
  destruct (opened_ok cancels y Ho) as (v & Hv & Hd & Hty). unfold book in *. cbn. rewrite Hv. cbn.
  constructor; [exists y, v; split_and!; [by left|done..]|].
  eapply Forall_impl; [exact IH|]. intros kv (x & w & Hx & ?). exists x, w. split; [by right|done].
Qed.

(** The history answers a reader whose authority is current. *)
Lemma receipt_replayed d actor a cmd action rh v :
  store_inv d -> replayed d actor (calendar_of a) cmd action rh v ->
  reservation_authorize actor a = Ok tt -> _identifier cmd ->
  revision_at d (calendar_of a) = Some (ra_calendar_revision a) ->
  receipt hmac_hex Cipher gcm_decrypt actor a cmd d = Ok (Some v).
Proof.
  intros [Hd _] (e & r & cs & ks & Hf & Ha & Hact & Hrh & Hl & Hr & ->) Hau Hid Hrev.
  unfold receipt. rewrite Hau. cbn [mbind res_bind]. rewrite raise_if_no by naive_solver.
  cbn [mbind res_bind]. rewrite (verified_ok _ _ _ _ Hd Hl). cbn [mbind res_bind].
  rewrite state_read by done. cbn [mbind res_bind].
  rewrite raise_if_no; cbn [mbind res_bind].
  - rewrite Hf. rewrite raise_if_no by naive_solver. cbn [mbind res_bind]. by rewrite Hr.
  - unfold revision_at in Hrev. destruct (sql_one _ _) as [st|]; [|done]. cbn in Hrev |- *. naive_solver.
Qed.

(** A reservation that was booked now, read back at the next revision. *)
Lemma booked_receipt env actor a bytes d rp d' :
  store_inv d -> create env actor a bytes d = (Ok rp, d') -> d' <> d ->
  rp_calendar_revision rp = ra_calendar_revision a + 1 /\
  revision_at d' (calendar_of a) = Some (ra_calendar_revision a + 1) /\
  exists cmd value, parse_command json_loads bytes create_fields = Ok value /\
    identifier_field value "commandId" = Some cmd /\
    receipt hmac_hex Cipher gcm_decrypt actor (at_revision (ra_calendar_revision a + 1) a) cmd d'
    = Ok (Some rp).
Proof.
  intros Hi Hc Hne.
  destruct (create_cases env actor a bytes d) as [[_ Hno]|(cmd & q & occs & Hq & _ & E)].
  { rewrite Hc in Hno. by destruct (Hno rp). }
  rewrite Hc in E. symmetry in E.
  apply create_tx_cases in E as [[-> _]|(cs & ks & pr & ex & Hb)]; [done| |done|apply Hq..].
  destruct (bk_revision Hb) as [Hrev Hat]. split_and!; [by apply Hrev|done|].
  destruct (cq_value _ _ _ _ _ _ Hq) as (value & Hp & _ & Hid & _). exists cmd, value.
  split_and!; [done|done|].
  eapply (receipt_replayed _ _ (at_revision (ra_calendar_revision a + 1) a)).
  - by eapply booked_inv.
  - exact (booked_replayed _ _ _ _ _ _ _ _ _ _ _ _ _ _ (proj1 Hi) (cq_nonempty _ _ _ _ _ _ Hq) Hb).
  - exact (cq_authorized _ _ _ _ _ _ Hq).
  - unfold identifier_field in Hid. destruct (dict_get _ _) as [[]|]; try done.
    case_decide; [congruence|done].
  - exact Hat.
Qed.

(** *** The properties *)

(** C3 In every reachable store each calendar verifies, and the reservations
    that it then holds never take more than the capacity of its resource, at
    any instant. *)
Theorem never_overbooked d c :
  store_reachable d -> 0 <= capacity_at c ->
  exists events reservations, verified d c = Ok (events, reservations) /\
    forall t, usage t (dict_values reservations) <= capacity_at c.
Proof.
  intros [[Hd Hl] Hw]%reachable_within Hc. destruct (Hl c) as (cs & ks & Hlc).
  eexists _, _. split; [by eapply verified_ok|]. intros t.
  change (book_usage t ks (calendar_records Cipher d c) <= capacity_at c).
  rewrite (book_usage_perm t ks _ _ (records_read d c)). by eapply Hw.
Qed.

(** C37 Whatever a reachable store reads back is well formed: each reservation
    stands under its own id, for the resource of its calendar, in its first
    revision, with units, a duration and between one and sixty-four occurrences
    of that duration, all of them instants that can be compared. *)
Theorem reservations_typed d c events reservations :
  store_reachable d -> verified d c = Ok (events, reservations) ->
  NoDup (dict_keys reservations) /\
  Forall (fun kv => rs_id kv.2 = kv.1 /\ rs_resource_id kv.2 = c.2 /\ reservation_typed kv.2) reservations /\
  exists spans, busy_spans (dict_values reservations) = Ok spans.
Proof.
  intros [[Hd Hl] _]%reachable_within Hv. destruct (Hl c) as (cs & ks & Hlc).
  rewrite (verified_ok _ _ _ _ Hd Hlc) in Hv. injection Hv as <- <-.
  pose proof (read_opens d c Hd) as Ho. split_and!.
  - rewrite book_keys by done. rewrite records_read. by apply at_ids.
  - pose proof (book_opened ks _ Ho) as Hb. eapply Forall_impl; [exact Hb|].
    intros [k v] (x & w & Hx & -> & Hw & -> & Hty). cbn.
    rewrite records_read in Hx. apply list_elem_of_filter in Hx as [Hc _].
    split_and!; [..|by apply typed_cancelled].
    + unfold Reservations.decrypt_reservation in Hw. by inv_ok.
    + unfold Reservations.decrypt_reservation in Hw. inv_ok. by passed.
  - apply busy_spans_total. eapply Forall_impl; [by apply book_typed|]. intros r Hr. apply Hr.
Qed.

(** A creation that was answered is answered again, whatever happened
    since: with the same event and revision, with its reservation as it stands
    then, and without a second booking. *)
Theorem create_retry env env' actor a bytes d rp d1 d2 :
  store_reachable d -> create env actor a bytes d = (Ok rp, d1) ->
  rr_capacity (ra_resource a) <= capacity_at (calendar_of a) ->
  rtc reservation_step d1 d2 ->
  exists cancelled_at, create env' actor a bytes d2 =
    (Ok (with_reservation rp (with_cancelled cancelled_at (rp_reservation rp))), d2).
Proof.
  intros Hd Hc Hcap Hs. pose proof (reachable_within _ Hd) as [Hi Hw].
  destruct (create_replayed _ _ _ _ _ _ _ Hi Hc) as (cmd & q & occs & _ & Htx & Hr).
  assert (reservation_step d d1) as H1.
  { pose proof (step_create d env actor a bytes Hcap) as H1. by rewrite Hc in H1. }
  destruct (step_within _ _ Hi Hw H1) as [Hi1 Hw1]. destruct (later_grows _ _ Hi1 Hw1 Hs) as [Hi2 Hg].
  destruct (replayed_later _ _ _ _ _ _ _ _ Hi1 Hi2 Hg Hr) as [ks Hr2].
  eexists. rewrite Htx. by apply create_tx_replays.
Qed.

Lemma calendar_records_at d d' c :
  records_at d' c = records_at d c -> calendar_records Cipher d' c = calendar_records Cipher d c.
Proof. unfold records_at, calendar_records. by intros ->. Qed.

(** A calendar that an operation does not name reads the same. *)
Lemma other_verified d d' e c c' :
  store_inv d -> rows_inv d' -> c' <> c -> rd_events d' = rd_events d ++ [e] -> rv_calendar e = c ->
  (forall cs ks, lives d c' cs ks -> lives d' c' cs ks) -> records_at d' c' = records_at d c' ->
  verified d' c' = verified d c'.
Proof.
  intros [Hd Hl] Hd' Hne He Hc Hlives Hrec. destruct (Hl c') as (cs & ks & Hlc).
  rewrite (verified_ok _ _ _ _ Hd Hlc), (verified_ok _ _ _ _ Hd' (Hlives _ _ Hlc)).
  rewrite (calendar_records_at _ _ _ Hrec). unfold events_at.
  by rewrite He, filter_app, filter_cons, filter_nil, decide_False, app_nil_r by congruence.
Qed.

Lemma spans_of_lookup l s i o : spans_of l = Ok s -> l !! i = Some o -> exists x, span_of o = Ok x.
Proof.
  intros (ys & _ & Hys)%fold_res_snoc Ho.
  by destruct (Forall2_lookup_l _ _ _ _ _ Hys Ho) as (x & _ & ?); exists x.
Qed.

(** C29 A creation that stores something stores one reservation of the actor's,
    under a fresh id, whose occurrences keep the requested local time and
    duration; it adds an event to the calendar and changes no other calendar. *)
Theorem create_books env actor a bytes d rp d' :
  store_reachable d -> create env actor a bytes d = (Ok rp, d') -> d' <> d ->
  let c := calendar_of a in
  let r := rp_reservation rp in
  exists value q events reservations event reservations',
    parse_command json_loads bytes create_fields = Ok value /\
    read_recurrence fromisoformat value (ra_resource a) = Ok q /\
    verified d c = Ok (events, reservations) /\
    verified d' c = Ok (events ++ [event], reservations') /\ re_reservation_id event = rs_id r /\
    reservations' ≡ₚ reservations ++ [(rs_id r, r)] /\ rs_id r ∉ dict_keys reservations /\
    rs_owner_id r = u (p_id actor) /\ rs_units r = rq_units q /\ rs_cancelled_at r = None /\
    length (rs_occurrences r) = Z.to_nat (rq_count q) /\
    (forall i o, rs_occurrences r !! i = Some o ->
       occurs_locally (rr_timezone (ra_resource a)) q (Z.of_nat i) o /\
       exists start, span_of o = Ok (start, start + rq_duration q)) /\
    forall c', c' <> c -> verified d' c' = verified d c'.
Proof.
  intros Hd Hc Hne c r. pose proof (reachable_within _ Hd) as [Hi _].
  destruct (create_cases env actor a bytes d) as [[_ Hno]|(cmd & q & occs & Hq & _ & E)].
  { rewrite Hc in Hno. by destruct (Hno rp). }
  rewrite Hc in E. symmetry in E.
  apply create_tx_cases in E as [[-> _]|(cs & ks & pr & ex & Hb)]; [done| |done|apply Hq..].
  destruct (bk_event Hb) as (e & He & Hec & Ha & Hid & _ & _ & _ & [= ->]).
  destruct (cq_value _ _ _ _ _ _ Hq) as (value & Hp & _ & _ & Hrec).
  destruct (local_occurrences_ok _ _ _ (cq_occurrences _ _ _ _ _ _ Hq)) as [Hlen Hocc].
  pose proof (verified_ok _ _ _ _ (proj1 Hi) (bk_before Hb)) as Hv.
  pose proof (verified_ok _ _ _ _ (bk_rows Hb) (bk_after Hb)) as Hv'.
  rewrite (events_grow _ _ _ _ _ He Hec), decide_True, fmap_app in Hv' by done.
  eexists value, q, _, _, _, _. split_and!; [done|done|exact Hv|exact Hv'|done| | |done..|exact Hlen| |].
  - rewrite (book_perm ks _ _ (records_read d' (calendar_of a))),
      (book_perm ks _ _ (records_read d (calendar_of a))).
    by rewrite (booked_book _ _ _ _ _ _ _ _ _ _ _ _ _ _ (proj1 Hi) (cq_nonempty _ _ _ _ _ _ Hq) Hb).
  - pose proof (ri_ids _ (bk_rows Hb)) as Hn. rewrite book_keys by apply read_opens, Hi.
    rewrite records_read. rewrite (bk_record Hb), fmap_app in Hn. apply NoDup_app in Hn as (_ & Hn & _).
    intros (y & Ey & [_ Hy]%list_elem_of_filter)%list_elem_of_fmap.
    apply (Hn (rs_id r)); [|by left]. rewrite Ey. by apply list_elem_of_fmap_2.
  - intros i o Ho. pose proof (Hocc i o Ho) as Hloc. split; [done|].
    destruct (spans_of_lookup _ _ _ _ (bk_spans Hb) Ho) as [s Hs]. destruct Hloc as (start & _ & Eo & _).
    exists start. rewrite Hs. f_equal. by eapply span_of_occurrence.
  - intros c' Hc'. destruct (proj2 Hi c') as (cs' & ks' & Hl').
    destruct (bk_others Hb c' cs' ks' Hc' Hl') as [_ Hr'].
    eapply other_verified; [done|apply Hb|exact Hc'|exact He|done| |done].
    intros cs0 ks0 Hl0. by apply (bk_others Hb).
Qed.

Lemma book_elsewhere cancels id now records :
  id ∉ rw_id <$> records -> book (dict_set cancels id now) records = book cancels records.
Proof.
  intros Hid. unfold book. apply list_omap_ext. apply Forall_Forall2_diag, Forall_forall.
  intros x Hx. unfold opened. rewrite dict_get_set_ne; [done|]. intros ->. apply Hid.
  by apply list_elem_of_fmap_2.
Qed.

Lemma usage_cancelled t cancels id now records r :
  NoDup (rw_id <$> records) -> Forall opens records ->
  dict_get (book cancels records) id = Some r -> rs_cancelled_at r = None ->
  usage t (dict_values (book (dict_set cancels id now) records)) =
  usage t (dict_values (book cancels records)) - units_at t r.
Proof.
  intros Hn Ho. revert Hn. induction Ho as [|x l Ho Hl IH]; intros Hn Hg Hopen; [done|].
  cbn in Hn. apply NoDup_cons in Hn as [Hx Hn].
  destruct (book_cons cancels x l Ho) as (v & E1 & Hv).
  destruct (book_cons (dict_set cancels id now) x l Ho) as (v' & E2 & Hv').
  assert (v' = v) as -> by congruence. rewrite E1 in Hg |- *. rewrite E2. cbn in Hg.
  unfold dict_values in *. cbn [fmap list_fmap snd]. rewrite !usage_cons, dict_get_set.
  destruct (decide (rw_id x = id)) as [E|E].
  - rewrite decide_True in Hg by done. injection Hg as <-. subst id.
    rewrite decide_True by done. rewrite book_elsewhere by done.
    unfold units_at at 1. cbn [rs_cancelled_at with_cancelled]. rewrite decide_False by done. lia.
  - rewrite decide_False in Hg by done. rewrite decide_False by congruence. specialize (IH Hn Hg Hopen). unfold dict_values in IH.
    rewrite IH. lia.
Qed.

Lemma get_cancelled cancels id now records r k :
  NoDup (rw_id <$> records) -> Forall opens records ->
  dict_get (book cancels records) id = Some r ->
  dict_get (book (dict_set cancels id now) records) k =
  if decide (k = id) then Some (cancelled now r) else dict_get (book cancels records) k.
Proof.
  intros Hn Ho Hg. destruct (book_found _ _ _ _ Ho Hg) as (x & v & Hx & <- & Hv & ->).
  case_decide as E; [subst k; rewrite (row_found _ _ x v), dict_get_set_eq; done|].
  destruct (dict_get (book cancels records) k) as [w|] eqn:Hk.
  - apply book_found in Hk as (y & w' & Hy & <- & Hw & ->); [|done].
    rewrite (row_found _ _ y w'), dict_get_set_ne by done. done.
  - apply dict_get_None in Hk. apply dict_get_None. by rewrite book_keys in Hk |- * by done.
Qed.

(** Only an administrator or the owner cancels a reservation, once; nothing
    else changes, and at every instant exactly its units are free again. *)
Theorem cancel_frees env actor a bytes d rp d' :
  store_reachable d -> cancel env actor a bytes d = (Ok rp, d') -> d' <> d ->
  let c := calendar_of a in
  exists events reservations event reservations' r,
    verified d c = Ok (events, reservations) /\ dict_get reservations (rs_id r) = Some r /\
    rs_cancelled_at r = None /\ (p_role actor = Admin \/ rs_owner_id r = u (p_id actor)) /\
    rp_reservation rp = cancelled (rn_now env) r /\
    verified d' c = Ok (events ++ [event], reservations') /\ re_reservation_id event = rs_id r /\
    (forall k, dict_get reservations' k =
       if decide (k = rs_id r) then Some (cancelled (rn_now env) r) else dict_get reservations k) /\
    (forall t, usage t (dict_values reservations') = usage t (dict_values reservations) - units_at t r) /\
    forall c', c' <> c -> verified d' c' = verified d c'.
Proof.
  intros Hd Hc Hne c. pose proof (reachable_within _ Hd) as [Hi _].
  destruct (cancel_cases env actor a bytes d) as [[_ Hno]|(value & cmd & rid & _ & _ & _ & _ & _ & E)].
  { rewrite Hc in Hno. by destruct (Hno rp). }
  rewrite Hc in E. symmetry in E.
  apply cancel_tx_cases in E as [[-> _]|(cs & ks & r & Hb)]; [done| |done].
  destruct (ub_event Hb) as (e & He & Hec & Ha & Hid & _ & _ & _ & [= ->]).
  pose proof (verified_ok _ _ _ _ (proj1 Hi) (ub_before Hb)) as Hv.
  pose proof (verified_ok _ _ _ _ (ub_rows Hb) (ub_after Hb)) as Hv'.
  rewrite (events_grow _ _ _ _ _ He Hec), decide_True, fmap_app in Hv' by done.
  assert (forall c', records_at d' c' = records_at d c') as Hrec
    by (intros c'; unfold records_at; by rewrite (ub_records Hb)).
  rewrite (calendar_records_at _ _ _ (Hrec _)) in Hv'.
  pose proof (read_opens d (calendar_of a) (proj1 Hi)) as Ho.
  destruct (book_get _ _ _ _ Ho (ub_found Hb)) as (Er & _ & _). rewrite <- Hid in Er.
  pose proof (ub_found Hb) as Hfound. rewrite <- Hid, <- Er in Hfound.
  rewrite <- Hid, <- Er in Hv'.
  assert (NoDup (rw_id <$> calendar_records Cipher d (calendar_of a))) as Hn
    by (rewrite records_read; apply at_ids, Hi).
  eexists _, _, _, _, r.
  split_and!; [exact Hv|exact Hfound|apply Hb|apply Hb|done|exact Hv'|done|..].
  - intros k. by apply get_cancelled.
  - intros t. apply usage_cancelled; [done|done|done|apply Hb].
  - intros c' Hc'. eapply other_verified; [done|apply Hb|exact Hc'|exact He|done| |done].
    intros cs0 ks0. by apply (ub_others Hb).
Qed.

Lemma read_calendar_ok actor a d revision events reservations :
  read_calendar hmac_hex Cipher gcm_decrypt actor a d = Ok (revision, events, reservations) ->
  reservation_authorize actor a = Ok tt /\ verified d (calendar_of a) = Ok (events, reservations).
Proof.
  unfold read_calendar. intros Hr. apply bind_ok in Hr as ([] & Ha & Hr).
  apply bind_ok in Hr as ([evs rs] & Hv & Hr). inv_ok. done.
Qed.

(** The availability of a window lists exactly the occurrences of the
    uncancelled reservations that meet it, so that at each of its instants the
    listed units are the units taken, within the capacity. *)
Theorem availability_exact actor a start_utc end_utc limit d revision busy :
  store_reachable d -> 0 <= capacity_at (calendar_of a) ->
  availability hmac_hex Cipher gcm_decrypt actor a start_utc end_utc limit d = Ok (revision, busy) ->
  exists window events reservations,
    utc_value start_utc = Ok window.1 /\ utc_value end_utc = Ok window.2 /\
    verified d (calendar_of a) = Ok (events, reservations) /\
    busy ≡ₚ concat (busy_times window <$> uncancelled (dict_values reservations)) /\
    Z.of_nat (length busy) <= limit <= MAX_READ_LIMIT /\
    forall t, window.1 <= t < window.2 ->
      zsum (snd <$> filter (fun b => covers t (span_at b.1)) busy) = usage t (dict_values reservations) /\
      usage t (dict_values reservations) <= capacity_at (calendar_of a).
Proof.
  intros Hd Hcap Ha. unfold availability, read_limit in Ha.
  apply bind_ok in Ha as (u1 & Hlim & Ha). apply bind_ok in Ha as (start & Hs & Ha).
  apply bind_ok in Ha as (stop & He & Ha). apply bind_ok in Ha as (u2 & _ & Ha).
  apply bind_ok in Ha as ([[rev events] reservations] & Hv & Ha). apply read_calendar_ok in Hv as [_ Hv].
  apply bind_ok in Ha as (b & Hb & Ha). apply bind_ok in Ha as (u3 & Hlen & [= <- <-]).
  apply busy_in_ok in Hb. rewrite app_nil_l in Hb. subst b. apply raise_if_ok in Hlim, Hlen. passed.
  destruct (never_overbooked d (calendar_of a) Hd Hcap) as (evs & rs & Hv' & Hcapt).
  rewrite Hv in Hv'. injection Hv' as <- <-.
  exists (start, stop), events, reservations. split_and!; try done; try lia.
  - apply py_sorted_perm.
  - intros t Ht. split; [|apply Hcapt]. rewrite <- (busy_times_usage t (start, stop)) by done.
    by rewrite py_sorted_perm.
Qed.
End operations.
End invariant.

(** ** A calendar in use *)

Module ReservationExample.
(** Central European time in 2024: an hour ahead, and two from the last Sunday
    of March to the last Sunday of October. *)
Definition spring : Z := 1711846800.
Definition autumn : Z := 1729990800.
Definition utcoffset (zone : ustr) (wall : Z) (fold : bool) : Z :=
  if decide (wall < spring + 3600) then 3600
  else if decide (wall < spring + 7200) then (if fold then 7200 else 3600)
  else if decide (wall < autumn + 3600) then 7200
  else if decide (wall < autumn + 7200) then (if fold then 3600 else 7200)
  else 3600.
Definition astimezone (zone : ustr) (t : Z) : Z * bool :=
  if decide (spring <= t < autumn) then (t + 7200, false)
  else (t + 3600, bool_decide (autumn <= t < autumn + 3600)).
Definition fromisoformat (s : ustr) : option iso_datetime :=
  match utc_value (s ++ u "Z") with
  | Ok t => Some {| iso_aware := false; iso_microsecond := 0; iso_wall := t |}
  | Raise _ => None
  end.

Definition hmac_hex (tag : string) (v : jval) : string :=
  match v with JList (JInt 1 :: _) => "first" | JList (JInt 2 :: _) => "second" | _ => tag end.
Definition hmac_bytes (tag : string) (b : list Z) : string :=
  match b with [1] => "request 1" | [2] => "request 2" | _ => tag end.
Definition cipher : Type := string * jval * ustr.
Definition encrypt (nonce : string) (v : jval) (aad : ustr) : cipher := (nonce, v, aad).
Definition decrypt (nonce : string) (c : cipher) (aad : ustr) : option jval :=
  if decide (c.1.1 = nonce /\ c.2 = aad) then Some c.1.2 else None.
Lemma cipher_sound nonce v aad : decrypt nonce (encrypt nonce v aad) aad = Some v.
Proof. unfold decrypt. by rewrite decide_True. Qed.

Definition people : list ustr := [u "ada"; u "bob"].
Definition sauna : ResourceRule :=
  {| rr_id := u "sauna"; rr_revision := 1; rr_capacity := 2; rr_timezone := u "Europe/Berlin";
     rr_member_ids := people |}.
Definition ada : Principal :=
  {| p_id := "ada"; p_username := "ada"; p_role := Member; p_must_change_password := false;
     p_family_id := "f"; p_token_id := "t" |}.
Definition authority (revision : Z) : ReservationAuthority :=
  {| ra_core_id := u "core"; ra_home_id := u "home"; ra_account_id := u "ada"; ra_core_revision := 1;
     ra_home_revision := 1; ra_account_revision := 3; ra_members_revision := 4;
     ra_calendar_revision := revision; ra_member_ids := people; ra_resource := sauna |}.

Definition common (action command : string) (revision : Z) : list (string * jval) :=
  [("action", JText (u action)); ("commandId", JText (u command))]%string ++
  scope_fields (authority revision).
(** Every day at ten, from the Saturday before the clock goes forward. *)
Definition book_command : jval :=
  JObj (common "create" "c1" 7 ++
    [("timezone", JText (u "Europe/Berlin")); ("localStart", JText (u "2024-03-30T10:00:00"));
     ("fold", JNull); ("durationSeconds", JInt 3600); ("units", JInt 2);
     ("recurrence", JObj [("frequency", JText (u "daily")); ("count", JInt 2)])]%string).
Definition cancel_command : jval :=
  JObj (common "cancel" "c2" 8 ++ [("reservationId", JText (u "r1"))]%string).
(** At an hour that the clock skips. *)
Definition skipped_command : jval :=
  JObj (common "create" "c3" 7 ++
    [("timezone", JText (u "Europe/Berlin")); ("localStart", JText (u "2024-03-31T02:30:00"));
     ("fold", JNull); ("durationSeconds", JInt 3600); ("units", JInt 1);
     ("recurrence", JObj [("frequency", JText (u "none")); ("count", JInt 1)])]%string).
Definition json_loads (b : list Z) : res jval :=
  match b with
  | [1] => Ok book_command
  | [2] => Ok cancel_command
  | [3] => Ok skipped_command
  | _ => Raise (ValueError "JSONDecodeError")
  end.

Definition at_time (n : Z) (reservation event : string) : reservation_env :=
  {| rn_now := n; rn_reservation_id := u reservation; rn_event_id := u event; rn_nonce := "n" |}.
Definition book_it (env : reservation_env) (b : list Z) (revision : Z) :=
  create json_loads fromisoformat utcoffset astimezone hmac_hex hmac_bytes cipher encrypt decrypt
    env ada (authority revision) b.
Definition cancel_it (env : reservation_env) (revision : Z) :=
  cancel json_loads hmac_hex hmac_bytes cipher decrypt env ada (authority revision) [2].
Definition d0 : reservation_db cipher := empty_store cipher.
Definition d1 := (book_it (at_time 100 "r1" "e1") [1] 7 d0).2.
Definition d2 := (cancel_it (at_time 200 "" "e2") 8 d1).2.
Definition c : calendar := (u "core", u "home", u "sauna").
Definition two (_ : calendar) : Z := 2.

(** The second day is an hour closer to the first one in UTC. *)
Example booked_times :
  (rc ← (book_it (at_time 100 "r1" "e1") [1] 7 d0).1; Ok (oc_start_utc <$> rs_occurrences (rp_reservation rc))) =
  Ok [u "2024-03-30T09:00:00Z"; u "2024-03-31T08:00:00Z"].
Proof. vm_compute. reflexivity. Qed.
Example skipped_hour :
  (book_it (at_time 100 "r1" "e1") [3] 7 d0).1 = Raise (ApiError "invalid_local_time" 400).
Proof. vm_compute. reflexivity. Qed.
Example cancelled_once :
  (cancel_it (at_time 300 "" "e3") 9 d2).1 = Raise (ApiError "authority_changed" 409).
Proof. vm_compute. reflexivity. Qed.

Lemma booked_reached : store_reachable hmac_hex cipher encrypt decrypt json_loads fromisoformat utcoffset
  astimezone hmac_bytes two d1.
Proof. apply rtc_once, step_create. done. Qed.
Lemma booked_then_cancelled : rtc (reservation_step hmac_hex cipher encrypt decrypt json_loads fromisoformat utcoffset
  astimezone hmac_bytes two) d1 d2.
Proof. apply rtc_once, step_cancel. Qed.

(** Two reservations that follow each other each overlap a third one; together
    the three never take more than two units, and the third is refused. *)
Definition following : list (Z * Z * Z) := [((0, 3600), 1); ((3600, 7200), 1)].
Lemma overlap_is_not_concurrency :
  check_capacity 2 1 following [(1800, 5400)] = Raise (ApiError "reservation_overlap" 409) /\
  forall t, zsum (snd <$> filter (fun x => covers t x.1) (following ++ [((1800, 5400), 1)])) <= 2.
Proof.
  split; [done|]. intros t. unfold following, covers. cbn [app].
  rewrite !filter_cons, filter_nil. cbn [fst snd].
  repeat case_decide; cbn; unfold zsum; cbn; lia.
Qed.
End ReservationExample.
Import ReservationExample.

Lemma never_overbooked_witness :
  exists events reservations,
    verified hmac_hex cipher decrypt d1 c = Ok (events, reservations) /\
    forall t, usage t (dict_values reservations) <= 2.
Proof.
  apply (never_overbooked hmac_hex cipher encrypt decrypt cipher_sound json_loads fromisoformat utcoffset
           astimezone hmac_bytes two d1 c); [apply booked_reached|done].
Defined.

Lemma reservations_typed_witness :
  exists events reservations, verified hmac_hex cipher decrypt d1 c = Ok (events, reservations) /\
    length reservations = 1%nat /\ NoDup (dict_keys reservations).
Proof.
  assert (exists events reservations, verified hmac_hex cipher decrypt d1 c = Ok (events, reservations) /\
    length reservations = 1%nat) as (es & rs & Hv & Hn) by (do 2 eexists; split; vm_compute; reflexivity).
  exists es, rs. split; [exact Hv|]. split; [exact Hn|].
  exact (proj1 (reservations_typed hmac_hex cipher encrypt decrypt cipher_sound json_loads fromisoformat
    utcoffset astimezone hmac_bytes two d1 c es rs booked_reached Hv)).
Defined.

Lemma create_retry_witness :
  exists rp cancelled_at, book_it (at_time 100 "r1" "e1") [1] 7 d0 = (Ok rp, d1) /\
    book_it (at_time 900 "r9" "e9") [1] 7 d2 =
    (Ok (with_reservation rp (with_cancelled cancelled_at (rp_reservation rp))), d2).
Proof.
  assert (exists rp, book_it (at_time 100 "r1" "e1") [1] 7 d0 = (Ok rp, d1)) as [rp Hrp]
    by (eexists; vm_compute; reflexivity).
  destruct (create_retry hmac_hex cipher encrypt decrypt cipher_sound json_loads fromisoformat utcoffset
    astimezone hmac_bytes two (at_time 100 "r1" "e1") (at_time 900 "r9" "e9") ada (authority 7) [1] d0 rp
    d1 d2) as [o Ho]; [apply rtc_refl|exact Hrp|done|apply booked_then_cancelled|].
  exists rp, o. split; [exact Hrp|exact Ho].
Defined.

Lemma create_books_witness :
  exists rp, book_it (at_time 100 "r1" "e1") [1] 7 d0 = (Ok rp, d1) /\
    rs_owner_id (rp_reservation rp) = u "ada" /\ rs_cancelled_at (rp_reservation rp) = None.
Proof.
  assert (exists rp, book_it (at_time 100 "r1" "e1") [1] 7 d0 = (Ok rp, d1)) as [rp Hrp]
    by (eexists; vm_compute; reflexivity).
  destruct (create_books hmac_hex cipher encrypt decrypt cipher_sound json_loads fromisoformat utcoffset
    astimezone hmac_bytes two (at_time 100 "r1" "e1") ada (authority 7) [1] d0 rp d1)
    as (v & q & es & rs & e & rs' & _ & _ & _ & _ & _ & _ & _ & Hown & _ & Hopen & _);
    [apply rtc_refl|exact Hrp|by vm_compute|].
  exists rp. split; [exact Hrp|]. split; [exact Hown|exact Hopen].
Defined.

Lemma cancel_frees_witness :
  exists rp r, cancel_it (at_time 200 "" "e2") 8 d1 = (Ok rp, d2) /\ rs_owner_id r = u "ada" /\
    rp_reservation rp = cancelled 200 r.
Proof.
  assert (exists rp, cancel_it (at_time 200 "" "e2") 8 d1 = (Ok rp, d2)) as [rp Hrp]
    by (eexists; vm_compute; reflexivity).
  destruct (cancel_frees hmac_hex cipher encrypt decrypt cipher_sound json_loads fromisoformat utcoffset
    astimezone hmac_bytes two (at_time 200 "" "e2") ada (authority 8) [2] d1 rp d2)
    as (es & rs & e & rs' & r & _ & _ & _ & [Hr|Hr] & Hc & _);
    [apply booked_reached|exact Hrp|by vm_compute|discriminate Hr|].
  exists rp, r. split; [exact Hrp|]. split; [exact Hr|exact Hc].
Defined.

Lemma availability_exact_witness :
  exists busy, availability hmac_hex cipher decrypt ada (authority 8) (u "2024-03-31T00:00:00Z")
      (u "2024-04-01T00:00:00Z") 10 d1 = Ok (8, busy) /\
    zsum (snd <$> filter (fun b => covers 1711873800 (span_at b.1)) busy) <= 2.
Proof.
  assert (exists busy, availability hmac_hex cipher decrypt ada (authority 8) (u "2024-03-31T00:00:00Z")
      (u "2024-04-01T00:00:00Z") 10 d1 = Ok (8, busy)) as [busy Hb]
    by (eexists; vm_compute; reflexivity).
  exists busy. split; [exact Hb|].
  destruct (availability_exact hmac_hex cipher encrypt decrypt cipher_sound json_loads fromisoformat
    utcoffset astimezone hmac_bytes two ada (authority 8) (u "2024-03-31T00:00:00Z")
    (u "2024-04-01T00:00:00Z") 10 d1 8 busy)
    as (window & es & rs & Hs & He & _ & _ & _ & Hw); [apply booked_reached|done|exact Hb|].
  assert (window.1 = 1711843200) as H1.
  { assert (utc_value (u "2024-03-31T00:00:00Z") = Ok 1711843200) as E by (vm_compute; reflexivity). congruence. }
  assert (window.2 = 1711929600) as H2.
  { assert (utc_value (u "2024-04-01T00:00:00Z") = Ok 1711929600) as E by (vm_compute; reflexivity). congruence. }
  destruct (Hw 1711873800) as [-> Hcap]; [lia|exact Hcap].
Defined.
