(* ===== verification/ResourceCatalog.v ===== *)
(** * The catalog of shared resources

    [ResourceCatalog] of [server/larenor_server/resource_reservations/catalog.py]
    on the catalog tables of [schema.py]: the resources of one home, each with a
    keyed hash of its row, under a catalog revision that every change advances,
    and a keyed chain of the changes.

    HMAC-SHA-256 of a canonical JSON and the time zone database are parameters. *)

From S2P Require Import Prelude Auth.

Definition MAX_RESOURCES : Z := 64.

Record ManagedResource := {
  mr_id : ustr;
  mr_revision : Z;
  mr_label : ustr;
  mr_timezone : ustr;
  mr_capacity : Z;
  mr_active : bool;
}.
#[export] Instance ManagedResource_eq_dec : EqDecision ManagedResource.
Proof. solve_decision. Defined.

Inductive catalog_action := RCreated | RUpdated | RDeactivated.
#[export] Instance catalog_action_eq_dec : EqDecision catalog_action.
Proof. solve_decision. Defined.
Definition catalog_action_name (a : catalog_action) : string :=
  match a with RCreated => "created" | RUpdated => "updated" | RDeactivated => "deactivated" end.

(** ** Tables *)

(** Core and home. *)
Definition home : Type := ustr * ustr.

Record resource_row := {
  wr_id : ustr;
  wr_home : home;
  wr_revision : Z;
  wr_label : ustr;
  wr_timezone : ustr;
  wr_capacity : Z;
  wr_active : bool;
  wr_payload_hash : string;
  wr_created_at : Z;
  wr_updated_at : Z;
}.
Record catalog_event_row := {
  we_sequence : Z;
  we_event_id : ustr;
  we_home : home;
  we_command_id : ustr;
  we_actor_id : ustr;
  we_action : catalog_action;
  we_resource_id : ustr;
  we_catalog_revision : Z;
  we_resource_revision : Z;
  we_request_hash : string;
  we_occurred_at : Z;
  we_previous_hash : string;
  we_event_hash : string;
}.
Record catalog_state_row := {
  ws_home : home;
  ws_revision : Z;
  ws_event_count : Z;
  ws_last_hash : string;
  ws_state_hash : string;
}.
Record catalog_db := {
  cd_resources : list resource_row;
  cd_events : list catalog_event_row;
  cd_states : list catalog_state_row;
}.

(** What one call reads from the clock and [uuid4]. *)
Record catalog_env := { cn_now : Z; cn_resource_id : ustr; cn_event_id : ustr }.

(** The keyword arguments of [mutate]. *)
Record catalog_command := {
  mc_command_id : ustr;
  mc_expected_catalog_revision : Z;
  mc_action : catalog_action;
  mc_resource_id : option ustr;
  mc_expected_resource_revision : option Z;
  mc_label : option ustr;
  mc_timezone : option ustr;
  mc_capacity : option Z;
}.

(** ** The catalog *)

Section catalog.
Context `{UnicodeData}.
Variable hmac_hex : string -> jval -> string.
(** Whether [ZoneInfo] knows a name. *)
Variable zone_known : ustr -> bool.
Variable scope : home.
Variable default_id : ustr.
Implicit Types d : catalog_db.

Definition catalog_invalid : exn := StartupError "resource_reservation_catalog_invalid".
Definition bad_request : exn := ApiError "invalid_request" 400.

Definition option_json {A} (f : A -> jval) (o : option A) : jval :=
  match o with Some x => f x | None => JNull end.

(** [_resource_hash], [_state_hash], [_event_hash] *)
Definition resource_hash (r : resource_row) : string :=
  hmac_hex "resource" (JList [JText (wr_id r); JText (wr_home r).1; JText (wr_home r).2;
    JInt (wr_revision r); JText (wr_label r); JText (wr_timezone r); JInt (wr_capacity r);
    JBool (wr_active r); JTime (wr_created_at r); JTime (wr_updated_at r)]).
Definition catalog_state_hash (revision count : Z) (last_hash : string) : string :=
  hmac_hex "state" (JList [JText scope.1; JText scope.2; JInt revision; JInt count; JStr last_hash]).
Definition catalog_event_hash (e : catalog_event_row) : string :=
  hmac_hex "event" (JList [JInt (we_sequence e); JText (we_event_id e); JText (we_home e).1;
    JText (we_home e).2; JText (we_command_id e); JText (we_actor_id e);
    JStr (catalog_action_name (we_action e)); JText (we_resource_id e); JInt (we_catalog_revision e);
    JInt (we_resource_revision e); JStr (we_request_hash e); JTime (we_occurred_at e);
    JStr (we_previous_hash e)]).
Definition command_hash (m : catalog_command) : string :=
  hmac_hex "request" (JObj [("action", JStr (catalog_action_name (mc_action m)));
    ("capacity", option_json JInt (mc_capacity m)); ("commandId", JText (mc_command_id m));
    ("expectedCatalogRevision", JInt (mc_expected_catalog_revision m));
    ("expectedResourceRevision", option_json JInt (mc_expected_resource_revision m));
    ("label", option_json JText (mc_label m)); ("resourceId", option_json JText (mc_resource_id m));
    ("timezone", option_json JText (mc_timezone m))]%string).

(** A row with the hash of its own fields. *)
Definition sealed (r : string -> resource_row) : resource_row := r (resource_hash (r ""%string)).
Definition sealed_event (e : string -> catalog_event_row) : catalog_event_row :=
  e (catalog_event_hash (e ""%string)).

(** [_validate_fields] *)
Definition fields_valid (label timezone : ustr) (capacity : Z) : Prop :=
  1 <= Z.of_nat (length (str_strip label)) <= 80 /\ label = str_strip label /\
  1 <= Z.of_nat (length timezone) <= 128 /\ zone_known timezone = true /\ 1 <= capacity <= 64.
#[export] Instance fields_valid_dec l t c : Decision (fields_valid l t c).
Proof. unfold fields_valid. apply _. Defined.
Definition validate_fields (label timezone : option ustr) (capacity : option Z) : res (ustr * ustr * Z) :=
  match label, timezone, capacity with
  | Some l, Some t, Some c => _ ← raise_if (~ fields_valid l t c) bad_request; Ok (l, t, c)
  | _, _, _ => Raise bad_request
  end.

(** [_resource] *)
Definition resource_of (r : resource_row) : ManagedResource :=
  {| mr_id := wr_id r; mr_revision := wr_revision r; mr_label := wr_label r;
     mr_timezone := wr_timezone r; mr_capacity := wr_capacity r; mr_active := wr_active r |}.
Definition read_resource (r : resource_row) : res ManagedResource :=
  _ ← raise_if (wr_payload_hash r <> resource_hash r) catalog_invalid;
  _ ← validate_fields (Some (wr_label r)) (Some (wr_timezone r)) (Some (wr_capacity r));
  Ok (resource_of r).

Definition row_order (a b : resource_row) : Prop :=
  if decide (wr_label a = wr_label b) then ustr_le (wr_id a) (wr_id b) else ustr_le (wr_label a) (wr_label b).
#[local] Instance row_order_dec a b : Decision (row_order a b).
Proof. unfold row_order. case_decide; apply _. Defined.
Definition resource_order (a b : ManagedResource) : Prop :=
  if decide (mr_label a = mr_label b) then ustr_le (mr_id a) (mr_id b) else ustr_le (mr_label a) (mr_label b).
#[local] Instance resource_order_dec a b : Decision (resource_order a b).
Proof. unfold resource_order. case_decide; apply _. Defined.
Definition sequence_order (a b : catalog_event_row) : Prop := we_sequence a <= we_sequence b.
#[local] Instance sequence_order_dec a b : Decision (sequence_order a b).
Proof. unfold sequence_order. apply _. Defined.

Definition home_rows d : list resource_row :=
  py_sorted row_order (filter (fun r => wr_home r = scope) (cd_resources d)).
Definition home_events d : list catalog_event_row :=
  py_sorted sequence_order (filter (fun e => we_home e = scope) (cd_events d)).

(** One iteration of the loop over the events; [index] counts from one. *)
Definition verify_change (resources : list ustr) (acc : Z * string) (e : catalog_event_row)
  : res (Z * string) :=
  let '(index, previous) := acc in
  _ ← raise_if (we_previous_hash e <> previous \/ we_event_hash e <> catalog_event_hash e \/
                we_catalog_revision e <> index + 1 \/ we_resource_id e ∉ resources) catalog_invalid;
  Ok (index + 1, we_event_hash e).

(** [_verified] *)
Definition catalog_verified d : res (catalog_state_row * list (ustr * ManagedResource)) :=
  state ← require_some (sql_one (fun s => ws_home s = scope) (cd_states d)) catalog_invalid;
  resources ← fold_res (fun acc r => v ← read_resource r; Ok (dict_set acc (wr_id r) v)) [] (home_rows d);
  _ ← raise_if (resources = [] \/ Z.of_nat (length resources) > MAX_RESOURCES) catalog_invalid;
  let events := home_events d in
  '(_, previous) ← fold_res (verify_change (dict_keys resources)) (1, ""%string) events;
  let n := Z.of_nat (length events) in
  _ ← raise_if (ws_event_count state <> n \/ ws_revision state <> n + 1 \/ ws_last_hash state <> previous \/
                ws_state_hash state <> catalog_state_hash (ws_revision state) n previous) catalog_invalid;
  Ok (state, resources).

(** [list] *)
Definition list_resources d : res (Z * list ManagedResource) :=
  '(state, resources) ← catalog_verified d;
  Ok (ws_revision state, py_sorted resource_order (dict_values resources)).

(** ** Changes *)

Definition resource_clash (a b : resource_row) : Prop := wr_id a = wr_id b.
#[local] Instance resource_clash_dec a b : Decision (resource_clash a b).
Proof. unfold resource_clash. apply _. Defined.
Definition change_clash (a b : catalog_event_row) : Prop :=
  we_sequence a = we_sequence b \/ we_event_id a = we_event_id b \/
  (we_home a = we_home b /\ we_command_id a = we_command_id b).
#[local] Instance change_clash_dec a b : Decision (change_clash a b).
Proof. unfold change_clash. apply _. Defined.
Definition catalog_state_clash (a b : catalog_state_row) : Prop := ws_home a = ws_home b.
#[local] Instance catalog_state_clash_dec a b : Decision (catalog_state_clash a b).
Proof. unfold catalog_state_clash. apply _. Defined.

Definition default_row (now : Z) : resource_row :=
  sealed (fun hash =>
    {| wr_id := default_id; wr_home := scope; wr_revision := 1; wr_label := u "Shared home resource";
       wr_timezone := u "UTC"; wr_capacity := 1; wr_active := true; wr_payload_hash := hash;
       wr_created_at := now; wr_updated_at := now |}).

(** [_ensure_default], which the constructor runs. *)
Definition ensure_default (now : Z) : M catalog_db unit :=
  transaction (
    d ← get_state;
    match sql_one (fun s => ws_home s = scope) (cd_states d) with
    | Some _ => _ ← lift (catalog_verified d); mret tt
    | None =>
        _ ← lift (raise_if (filter (fun r => wr_home r = scope) (cd_resources d) <> []) catalog_invalid);
        resources ← lift (sql_insert resource_clash (default_row now) (cd_resources d));
        states ← lift (sql_insert catalog_state_clash
          {| ws_home := scope; ws_revision := 1; ws_event_count := 0; ws_last_hash := ""%string;
             ws_state_hash := catalog_state_hash 1 0 "" |} (cd_states d));
        put_state {| cd_resources := resources; cd_events := cd_events d; cd_states := states |}
    end).

(** [action], up to the new fields of the row: what becomes of the resource. *)
Definition next_row (env : catalog_env) (m : catalog_command) (resources : list (ustr * ManagedResource)) d
  : res (string -> resource_row) :=
  match mc_action m with
  | RCreated =>
      '(label, timezone, capacity) ← validate_fields (mc_label m) (mc_timezone m) (mc_capacity m);
      _ ← raise_if (Z.of_nat (length resources) >= MAX_RESOURCES)
            (ApiError "resource_catalog_limit_reached" 413);
      Ok (fun hash =>
        {| wr_id := cn_resource_id env; wr_home := scope; wr_revision := 1; wr_label := label;
           wr_timezone := timezone; wr_capacity := capacity; wr_active := true; wr_payload_hash := hash;
           wr_created_at := cn_now env; wr_updated_at := cn_now env |})
  | RUpdated | RDeactivated =>
      current ← require_some (id ← mc_resource_id m; dict_get resources id) (ApiError "not_found" 404);
      _ ← raise_if (mc_expected_resource_revision m <> Some (mr_revision current) \/ mr_active current = false)
            (ApiError "authority_changed" 409);
      row ← require_some (sql_one (fun r => wr_id r = mr_id current) (cd_resources d))
              (PyError "TypeError");
      '(label, timezone, capacity) ←
        (if decide (mc_action m = RUpdated) then
           validate_fields (mc_label m) (mc_timezone m) (mc_capacity m)
         else
           _ ← raise_if (Z.of_nat (length (filter (fun r => mr_active r = true) (dict_values resources))) <= 1)
                 (ApiError "last_active_resource" 409);
           Ok (mr_label current, mr_timezone current, mr_capacity current));
      Ok (fun hash =>
        {| wr_id := mr_id current; wr_home := scope; wr_revision := mr_revision current + 1;
           wr_label := label; wr_timezone := timezone; wr_capacity := capacity;
           wr_active := bool_decide (mc_action m = RUpdated); wr_payload_hash := hash;
           wr_created_at := wr_created_at row; wr_updated_at := cn_now env |})
  end.

(** The [INSERT] or [UPDATE] of the resource. *)
Definition write_row (m : catalog_command) (row : resource_row) d : res (list resource_row) :=
  if decide (mc_action m = RCreated) then sql_insert resource_clash row (cd_resources d)
  else Ok (sql_update (fun r => wr_id r = wr_id row /\ wr_home r = scope)
             (fun r => {| wr_id := wr_id r; wr_home := wr_home r; wr_revision := wr_revision row;
                          wr_label := wr_label row; wr_timezone := wr_timezone row;
                          wr_capacity := wr_capacity row; wr_active := wr_active row;
                          wr_payload_hash := wr_payload_hash row; wr_created_at := wr_created_at r;
                          wr_updated_at := wr_updated_at row |}) (cd_resources d)).

Definition find_change d (command_id : ustr) : option catalog_event_row :=
  sql_one (fun e => we_home e = scope /\ we_command_id e = command_id) (cd_events d).

(** The transaction of [mutate]. *)
Definition mutate_tx (env : catalog_env) (actor : Principal) (m : catalog_command)
  : M catalog_db (Z * ManagedResource) :=
  transaction (
    let request_hash := command_hash m in
    d ← get_state;
    '(state, resources) ← lift (catalog_verified d);
    match find_change d (mc_command_id m) with
    | Some replay =>
        match dict_get resources (we_resource_id replay) with
        | Some current =>
            _ ← lift (raise_if (we_request_hash replay <> request_hash \/
                                we_actor_id replay <> u (p_id actor) \/
                                mr_revision current <> we_resource_revision replay)
                        (ApiError "idempotency_conflict" 409));
            mret (ws_revision state, current)
        | None => lift (Raise (ApiError "idempotency_conflict" 409))
        end
    | None =>
        _ ← lift (raise_if (mc_expected_catalog_revision m <> ws_revision state)
                    (ApiError "authority_changed" 409));
        row ← lift (next_row env m resources d);
        let row := sealed row in
        let catalog_revision := ws_revision state + 1 in
        _ ← lift (raise_if (MAX_REVISION < wr_revision row \/ MAX_REVISION < catalog_revision)
                    (PyError "OverflowError"));
        rows ← lift (write_row m row d);
        let e := sealed_event (fun hash =>
          {| we_sequence := ws_event_count state + 1; we_event_id := cn_event_id env; we_home := scope;
             we_command_id := mc_command_id m; we_actor_id := u (p_id actor); we_action := mc_action m;
             we_resource_id := wr_id row; we_catalog_revision := catalog_revision;
             we_resource_revision := wr_revision row; we_request_hash := request_hash;
             we_occurred_at := cn_now env; we_previous_hash := ws_last_hash state;
             we_event_hash := hash |}) in
        events ← lift (sql_insert change_clash e (cd_events d));
        _ ← put_state
          {| cd_resources := rows; cd_events := events;
             cd_states := sql_update (fun s => ws_home s = scope)
               (fun s => {| ws_home := ws_home s; ws_revision := catalog_revision;
                            ws_event_count := we_sequence e; ws_last_hash := we_event_hash e;
                            ws_state_hash := catalog_state_hash catalog_revision (we_sequence e)
                                               (we_event_hash e) |}) (cd_states d) |};
        mret (catalog_revision, resource_of row)
    end).

(** [mutate] *)
Definition mutate (env : catalog_env) (actor : Principal) (m : catalog_command)
  : M catalog_db (Z * ManagedResource) :=
  _ ← lift (raise_if (p_role actor <> Admin) (ApiError "forbidden" 403));
  _ ← lift (raise_if (existsb is_surrogate (default [] (mc_label m) ++ default [] (mc_timezone m)) = true)
              (ValueError "UnicodeEncodeError"));
  mutate_tx env actor m.
End catalog.

(** ** The invariant of the catalog *)

Section invariant.
Context `{UnicodeData}.
Variable hmac_hex : string -> jval -> string.
Variable zone_known : ustr -> bool.
Variable scope : home.
Variable default_id : ustr.
(** The time zone of the first resource exists. *)
Hypothesis utc_known : zone_known (u "UTC") = true.
Implicit Types d : catalog_db.
#[local] Existing Instance row_order_dec.
#[local] Existing Instance resource_order_dec.
#[local] Existing Instance sequence_order_dec.
#[local] Existing Instance resource_clash_dec.
#[local] Existing Instance change_clash_dec.
#[local] Existing Instance catalog_state_clash_dec.
Local Notation resource_hash := (resource_hash hmac_hex).
Local Notation sealed := (sealed hmac_hex).
Local Notation sealed_event := (sealed_event hmac_hex).
Local Notation fields_valid := (fields_valid zone_known).
Local Notation catalog_verified := (catalog_verified hmac_hex zone_known scope).
Local Notation list_resources := (list_resources hmac_hex zone_known scope).
Local Notation ensure_default := (ensure_default hmac_hex zone_known scope default_id).
Local Notation mutate := (mutate hmac_hex zone_known scope).
Local Notation mutate_tx := (mutate_tx hmac_hex zone_known scope).

#[local] Instance catalog_chain : ChainRow catalog_event_row string := {|
  row_previous := we_previous_hash; row_stored := we_event_hash;
  row_computed := catalog_event_hash hmac_hex;
|}.

Record row_ok (r : resource_row) : Prop := {
  ro_home : wr_home r = scope;
  ro_hash : wr_payload_hash r = resource_hash r;
  ro_fields : fields_valid (wr_label r) (wr_timezone r) (wr_capacity r);
}.
Record change_ok (ids : list ustr) (index : Z) (e : catalog_event_row) : Prop := {
  eo_home : we_home e = scope;
  eo_sequence : we_sequence e = index + 1;
  eo_revision : we_catalog_revision e = index + 2;
  eo_resource : we_resource_id e ∈ ids;
}.
Record opened d (st : catalog_state_row) : Prop := {
  co_states : cd_states d = [st];
  co_home : ws_home st = scope;
  co_count : ws_event_count st = Z.of_nat (length (cd_events d));
  co_revision : ws_revision st = Z.of_nat (length (cd_events d)) + 1;
  co_last : ws_last_hash st = chain_head ""%string (cd_events d);
  co_hash : ws_state_hash st =
    catalog_state_hash hmac_hex scope (ws_revision st) (ws_event_count st) (ws_last_hash st);
  co_rows : Forall row_ok (cd_resources d);
  co_ids : NoDup (wr_id <$> cd_resources d);
  co_bound : Z.of_nat (length (cd_resources d)) <= MAX_RESOURCES;
  co_active : Exists (fun r => wr_active r = true) (cd_resources d);
  co_chained : chained ""%string (cd_events d);
  co_events : forall i e, cd_events d !! i = Some e -> change_ok (wr_id <$> cd_resources d) (Z.of_nat i) e;
}.
Definition new_catalog : catalog_db := {| cd_resources := []; cd_events := []; cd_states := [] |}.

Lemma home_rows_perm d : Forall row_ok (cd_resources d) -> home_rows scope d ≡ₚ cd_resources d.
Proof.
  rewrite Forall_forall. intros Hr. unfold home_rows. rewrite py_sorted_perm, filter_all; [done|].
  intros r Hin. apply Hr, Hin.
Qed.

Lemma numbered_sorted (l : list catalog_event_row) k :
  (forall i e, l !! i = Some e -> we_sequence e = Z.of_nat i + k) -> StronglySorted sequence_order l.
Proof.
  revert k. induction l as [|e l IH]; intros k Hl; constructor.
  - apply (IH (k + 1)). intros i e' He. rewrite (Hl (S i) e' He). lia.
  - apply Forall_forall. intros e' [i Hi]%list_elem_of_lookup. unfold sequence_order.
    rewrite (Hl 0%nat e eq_refl), (Hl (S i) e' Hi). lia.
Qed.

Lemma home_events_all d st : opened d st -> home_events scope d = cd_events d.
Proof.
  intros Ho. pose proof (co_events _ _ Ho) as He. unfold home_events. rewrite filter_all.
  - apply py_sorted_id, (numbered_sorted _ 1). intros i e Hi. by apply He in Hi as [].
  - intros e [i Hi]%list_elem_of_lookup. by apply He in Hi as [].
Qed.

Definition book (rows : list resource_row) : list (ustr * ManagedResource) :=
  (fun r => (wr_id r, resource_of r)) <$> rows.

Lemma listed_keys rows : dict_keys (book rows) = wr_id <$> rows.
Proof. unfold dict_keys, book. by rewrite <- list_fmap_compose. Qed.

Lemma read_row r : row_ok r -> read_resource hmac_hex zone_known r = Ok (resource_of r).
Proof.
  intros [Hh Hs Hf]. unfold read_resource. rewrite raise_if_no by naive_solver. cbn [mbind res_bind].
  unfold validate_fields. by rewrite raise_if_no by naive_solver.
Qed.

Lemma rows_read rows : Forall row_ok rows -> NoDup (wr_id <$> rows) -> forall acc,
  (forall r, r ∈ rows -> wr_id r ∉ dict_keys acc) ->
  fold_res (fun acc r => v ← read_resource hmac_hex zone_known r; Ok (dict_set acc (wr_id r) v)) acc rows
  = Ok (acc ++ book rows).
Proof.
  induction 1 as [|r l Hok _ IH]; intros Hn acc Hacc; [cbn; by rewrite app_nil_r|].
  cbn in Hn. apply NoDup_cons in Hn as [Hr Hn]. cbn [fold_res]. rewrite (read_row r Hok).
  cbn [mbind res_bind]. rewrite dict_set_fresh by (apply dict_get_None, Hacc; left).
  rewrite IH, <- app_assoc; [done..|]. intros x Hx. unfold dict_keys. rewrite fmap_app.
  intros [Hk|Hk]%elem_of_app; [apply (Hacc x); [by right|done]|].
  cbn in Hk. apply list_elem_of_singleton in Hk. apply Hr. rewrite <- Hk. by apply list_elem_of_fmap_2.
Qed.

Lemma changes_verify ids events : forall index p,
  chained p events -> 0 <= index ->
  (forall i e, events !! i = Some e -> change_ok ids (Z.of_nat i + index) e) ->
  fold_res (verify_change hmac_hex ids) (index + 1, p) events =
  Ok (index + 1 + Z.of_nat (length events), chain_head p events).
Proof.
  induction events as [|e l IH]; intros index p Hc Hi He; cbn [fold_res length].
  { by rewrite Z.add_0_r. }
  destruct Hc as [[Hp Hh] Hc]. destruct (He 0%nat e eq_refl) as [_ _ Hr Hid]. cbn in Hp, Hh.
  cbn [verify_change]. rewrite raise_if_no; [|intros [E|[E|[E|E]]]; [by apply E..|lia|by apply E]].
  cbn [mbind res_bind]. rewrite chain_head_cons. rewrite (IH (index + 1) (we_event_hash e) Hc); [f_equal; f_equal; lia|lia|].
  intros i e' He'. replace (Z.of_nat i + (index + 1)) with (Z.of_nat (S i) + index) by lia. by apply He.
Qed.

Lemma sorted_ids d : Forall row_ok (cd_resources d) -> wr_id <$> home_rows scope d ≡ₚ wr_id <$> cd_resources d.
Proof. intros Hr. by rewrite (home_rows_perm d Hr). Qed.

(** A catalog with this invariant passes its own verification. *)
Lemma opened_verifies d st : opened d st -> catalog_verified d = Ok (st, book (home_rows scope d)).
Proof.
  intros Ho. unfold ResourceCatalog.catalog_verified.
  assert (sql_one (fun s => ws_home s = scope) (cd_states d) = Some st) as ->.
  { rewrite (co_states _ _ Ho), sql_one_single, decide_True; [done|apply Ho]. }
  cbn [require_some mbind res_bind]. pose proof (home_rows_perm d (co_rows _ _ Ho)) as Hp.
  rewrite rows_read; [|by rewrite Hp; apply Ho|by rewrite Hp; apply Ho|intros r _; apply not_elem_of_nil].
  cbn [app mbind res_bind].
  assert (Hlen : length (book (home_rows scope d)) = length (cd_resources d))
    by (unfold book; by rewrite length_fmap, Hp).
  rewrite raise_if_no.
  2:{ rewrite Hlen. pose proof (co_bound _ _ Ho). intros [E|E]; [|lia].
      rewrite E in Hlen. symmetry in Hlen. apply nil_length_inv in Hlen.
      pose proof (co_active _ _ Ho) as Ha. rewrite Hlen in Ha. by apply Exists_nil in Ha. }
  cbn [mbind res_bind]. rewrite (home_events_all _ _ Ho), listed_keys.
  rewrite (changes_verify _ _ 0); [|apply Ho|lia|].
  2:{ intros i e He. apply (co_events _ _ Ho) in He as []. constructor; try lia; [done|].
      by rewrite (sorted_ids d (co_rows _ _ Ho)). }
  cbn [mbind res_bind]. rewrite raise_if_no; [done|]. pose proof (co_hash _ _ Ho) as Hh.
  rewrite (co_count _ _ Ho) in Hh |- *. rewrite (co_revision _ _ Ho) in Hh |- *.
  rewrite (co_last _ _ Ho) in Hh |- *. naive_solver.
Qed.

(** ** What a change does *)

(** The new row of a resource and the old one. *)
Definition replaces (m : catalog_command) (old row : resource_row) : Prop :=
  wr_id row = wr_id old /\ mc_resource_id m = Some (wr_id old) /\ wr_active old = true /\
  mc_expected_resource_revision m = Some (wr_revision old) /\ wr_revision row = wr_revision old + 1 /\
  wr_created_at row = wr_created_at old /\
  (mc_action m = RDeactivated ->
     wr_label row = wr_label old /\ wr_timezone row = wr_timezone old /\ wr_capacity row = wr_capacity old).

(** The request that a new row fulfils. *)
Definition fulfils (m : catalog_command) (row : resource_row) : Prop :=
  mc_action m <> RDeactivated ->
  mc_label m = Some (wr_label row) /\ mc_timezone m = Some (wr_timezone row) /\
  mc_capacity m = Some (wr_capacity row).

Lemma validate_ok l t c x :
  validate_fields zone_known l t c = Ok x ->
  l = Some x.1.1 /\ t = Some x.1.2 /\ c = Some x.2 /\ fields_valid x.1.1 x.1.2 x.2.
Proof.
  unfold validate_fields. intros Hv. destruct l, t, c; try done. inv_ok. by passed.
Qed.

Lemma book_row d st id r :
  opened d st -> dict_get (book (home_rows scope d)) id = Some r ->
  exists row, row ∈ cd_resources d /\ wr_id row = id /\ r = resource_of row.
Proof.
  intros Ho Hg. apply dict_get_elem in Hg. unfold book in Hg.
  apply list_elem_of_fmap in Hg as (row & [= -> ->] & Hin).
  rewrite (home_rows_perm d (co_rows _ _ Ho)) in Hin. by exists row.
Qed.

Lemma listed_get d st row :
  opened d st -> row ∈ cd_resources d -> dict_get (book (home_rows scope d)) (wr_id row) = Some (resource_of row).
Proof.
  intros Ho Hin. apply dict_elem_get.
  - rewrite listed_keys, (sorted_ids d (co_rows _ _ Ho)). apply Ho.
  - apply list_elem_of_fmap. exists row. split; [done|]. by rewrite (home_rows_perm d (co_rows _ _ Ho)).
Qed.

Lemma active_count d st :
  opened d st ->
  length (filter (fun r => mr_active r = true) (dict_values (book (home_rows scope d)))) =
  length (filter (fun r => wr_active r = true) (cd_resources d)).
Proof.
  intros Ho. rewrite <- (home_rows_perm d (co_rows _ _ Ho)). unfold dict_values, book.
  rewrite <- list_fmap_compose. induction (home_rows scope d) as [|r l IH]; [done|].
  rewrite fmap_cons, !filter_cons. cbn [mr_active resource_of compose snd]. case_decide; cbn; by rewrite IH.
Qed.

Lemma next_row_ok env m d st f :
  opened d st -> next_row zone_known scope env m (book (home_rows scope d)) d = Ok f ->
  row_ok (sealed f) /\ fulfils m (sealed f) /\ wr_active (sealed f) = bool_decide (mc_action m <> RDeactivated) /\
  match mc_action m with
  | RCreated => wr_id (sealed f) = cn_resource_id env /\ wr_revision (sealed f) = 1 /\
                Z.of_nat (length (cd_resources d)) < MAX_RESOURCES
  | _ => exists old, old ∈ cd_resources d /\ replaces m old (sealed f) /\
           (mc_action m = RDeactivated ->
            1 < Z.of_nat (length (filter (fun r => wr_active r = true) (cd_resources d))))
  end.
Proof.
  intros Ho Hn. unfold next_row in Hn.
  assert (Hlen : length (book (home_rows scope d)) = length (cd_resources d))
    by (unfold book; by rewrite length_fmap, (home_rows_perm d (co_rows _ _ Ho))).
  destruct (mc_action m) eqn:Ha.
  - apply bind_ok in Hn as ([[l t] c] & Hv & Hn). apply validate_ok in Hv as (El & Et & Ec & Hf).
    apply bind_ok in Hn as (u1 & Hlim & [= <-]). apply raise_if_ok in Hlim. rewrite Hlen in Hlim.
    split_and!; try done; try lia.
  - apply bind_ok in Hn as (cur & Hc & Hn). apply require_some_ok in Hc. apply bind_Some in Hc as (id & Hid & Hc).
    apply (book_row _ _ _ _ Ho) in Hc as (old & Hin & <- & ->).
    apply bind_ok in Hn as (u1 & Hg & Hn). apply raise_if_ok in Hg. passed.
    apply bind_ok in Hn as (row & Hrow & Hn). apply require_some_ok, sql_one_some in Hrow as [Hrow Eid].
    assert (row = old) as -> by (eapply (nodup_column_inj wr_id); [apply Ho|done..]).
    rewrite decide_True in Hn by done.
    apply bind_ok in Hn as ([[l t] c] & Hv & [= <-]). apply validate_ok in Hv as (El & Et & Ec & Hf).
    split_and!; [by constructor|done|done|]. exists old.
    unfold replaces. cbn in * |-. split_and!; try done; [by destruct (wr_active old)|congruence].
  - apply bind_ok in Hn as (cur & Hc & Hn). apply require_some_ok in Hc. apply bind_Some in Hc as (id & Hid & Hc).
    apply (book_row _ _ _ _ Ho) in Hc as (old & Hin & <- & ->).
    apply bind_ok in Hn as (u1 & Hg & Hn). apply raise_if_ok in Hg. passed.
    apply bind_ok in Hn as (row & Hrow & Hn). apply require_some_ok, sql_one_some in Hrow as [Hrow Eid].
    assert (row = old) as -> by (eapply (nodup_column_inj wr_id); [apply Ho|done..]).
    rewrite decide_False in Hn by done.
    apply bind_ok in Hn as ([[l t] c] & Hv & [= <-]). apply bind_ok in Hv as (u2 & Hlast & [= <- <- <-]).
    apply raise_if_ok in Hlast. rewrite (active_count _ _ Ho) in Hlast.
    pose proof (co_rows _ _ Ho) as Hrows. rewrite Forall_forall in Hrows. destruct (Hrows _ Hin).
    split_and!; [by constructor|done|done|]. exists old.
    unfold replaces. cbn in * |-. split_and!; try done; [by destruct (wr_active old)|lia].
Qed.

Definition put_row (rows : list resource_row) (row : resource_row) : list resource_row :=
  (fun r => if decide (wr_id r = wr_id row) then row else r) <$> rows.

Lemma put_row_ids rows row : wr_id <$> put_row rows row = wr_id <$> rows.
Proof.
  unfold put_row. rewrite <- list_fmap_compose. apply list_fmap_ext. intros _ r _. cbn.
  by case_decide.
Qed.

Lemma put_row_elem rows row r :
  r ∈ put_row rows row <-> (r = row /\ wr_id row ∈ wr_id <$> rows) \/ (r ∈ rows /\ wr_id r <> wr_id row).
Proof.
  unfold put_row. rewrite list_elem_of_fmap. split.
  - intros (x & -> & Hx). case_decide as E; [left|by right]. split; [done|]. rewrite <- E.
    by apply list_elem_of_fmap_2.
  - intros [[-> (x & E & Hx)%list_elem_of_fmap]|[Hr Hne]].
    + exists x. by rewrite decide_True.
    + exists r. by rewrite decide_False.
Qed.

(** The rows after a change. *)
Definition rows_after (m : catalog_command) (row : resource_row) (rows : list resource_row) : list resource_row :=
  if decide (mc_action m = RCreated) then rows ++ [row] else put_row rows row.

Lemma write_row_ok env m d st f rows :
  opened d st -> next_row zone_known scope env m (book (home_rows scope d)) d = Ok f ->
  write_row scope m (sealed f) d = Ok rows ->
  rows = rows_after m (sealed f) (cd_resources d) /\
  (mc_action m = RCreated -> wr_id (sealed f) ∉ wr_id <$> cd_resources d).
Proof.
  intros Ho Hn Hw. destruct (next_row_ok _ _ _ _ _ Ho Hn) as (Hok & _ & _ & Hm).
  unfold write_row in Hw. unfold rows_after. case_decide as Ha.
  - apply sql_insert_ok in Hw as [-> Hc]. split; [done|]. intros _ (y & E & Hy)%list_elem_of_fmap.
    rewrite Forall_forall in Hc. by apply (Hc y).
  - split; [|done]. injection Hw as <-. unfold sql_update, put_row. apply list_fmap_ext.
    intros i r Hi%list_elem_of_lookup_2. pose proof (co_rows _ _ Ho) as Hrows.
    rewrite Forall_forall in Hrows. destruct (Hrows r Hi) as [Hh _ _].
    destruct (decide (wr_id r = wr_id (sealed f))) as [E|E]; [|by rewrite decide_False by tauto].
    rewrite decide_True by done.
    assert (exists old, old ∈ cd_resources d /\ replaces m old (sealed f)) as (old & Hin & Hr)
      by (destruct (mc_action m); [done|destruct Hm as (old & ? & ? & _); by exists old..]).
    destruct Hr as (Eid & _ & _ & _ & _ & Ec & _).
    assert (r = old) as -> by (eapply (nodup_column_inj wr_id); [apply Ho|done|done|congruence]).
    pose proof (ro_home _ Hok) as Eh. destruct (sealed f); cbn in *. f_equal; congruence.
Qed.

Lemma other_active rows old :
  NoDup (wr_id <$> rows) ->
  1 < Z.of_nat (length (filter (fun r => wr_active r = true) rows)) ->
  exists r, r ∈ rows /\ wr_active r = true /\ wr_id r <> wr_id old.
Proof.
  intros Hn Hl. assert (NoDup (wr_id <$> filter (fun r => wr_active r = true) rows)) as Hnf
    by (eapply sublist_NoDup; [exact Hn|]; apply fmap_sublist, sublist_filter).
  destruct (filter (fun r => wr_active r = true) rows) as [|x [|y l]] eqn:E; cbn in Hl; [lia..|].
  assert (forall z, z ∈ x :: y :: l -> z ∈ rows /\ wr_active z = true) as Hz.
  { intros z Hz. rewrite <- E in Hz. apply list_elem_of_filter in Hz. tauto. }
  destruct (decide (wr_id x = wr_id old)) as [Ex|Ex].
  - exists y. destruct (Hz y) as [Hy Ay]; [right; left|]. split_and!; [done..|]. intros Ey.
    cbn in Hnf. apply NoDup_cons in Hnf as [Hnx _]. apply Hnx. rewrite Ex, <- Ey. left.
  - exists x. destruct (Hz x) as [Hx Ax]; [left|]. done.
Qed.

(** Everything that the transaction of [mutate] does when it changes the catalog. *)
Record mutated (env : catalog_env) (actor : Principal) (m : catalog_command) d d'
    (st st' : catalog_state_row) (row : resource_row) : Prop := {
  mu_fresh : find_change scope d (mc_command_id m) = None;
  mu_expected : mc_expected_catalog_revision m = ws_revision st;
  mu_opened : opened d' st';
  mu_revision : ws_revision st' = ws_revision st + 1;
  mu_event : exists e, cd_events d' = cd_events d ++ [e] /\ we_home e = scope /\
    we_command_id e = mc_command_id m /\ we_actor_id e = u (p_id actor) /\
    we_request_hash e = command_hash hmac_hex m /\ we_resource_id e = wr_id row /\
    we_resource_revision e = wr_revision row;
  mu_rows : cd_resources d' = rows_after m row (cd_resources d);
  mu_row : fulfils m row /\ wr_active row = bool_decide (mc_action m <> RDeactivated);
  mu_old : match mc_action m with
           | RCreated => wr_id row ∉ wr_id <$> cd_resources d /\ wr_revision row = 1
           | _ => exists old, old ∈ cd_resources d /\ replaces m old row
           end;
}.
Arguments mu_fresh {_ _ _ _ _ _ _ _} _.
Arguments mu_expected {_ _ _ _ _ _ _ _} _.
Arguments mu_opened {_ _ _ _ _ _ _ _} _.
Arguments mu_revision {_ _ _ _ _ _ _ _} _.
Arguments mu_event {_ _ _ _ _ _ _ _} _.
Arguments mu_rows {_ _ _ _ _ _ _ _} _.
Arguments mu_row {_ _ _ _ _ _ _ _} _.
Arguments mu_old {_ _ _ _ _ _ _ _} _.

Lemma rows_after_ids m row rows :
  (mc_action m = RCreated -> wr_id row ∉ wr_id <$> rows) -> NoDup (wr_id <$> rows) ->
  NoDup (wr_id <$> rows_after m row rows) /\ wr_id <$> rows ⊆ wr_id <$> rows_after m row rows.
Proof.
  intros Hf Hn. unfold rows_after. case_decide; [|by rewrite put_row_ids].
  rewrite fmap_app. split; [|set_solver]. apply NoDup_app. split_and!; [done| |apply NoDup_singleton].
  intros x Hx ->%list_elem_of_singleton. by apply Hf.
Qed.

Lemma rows_after_ok m row rows :
  Forall row_ok rows -> row_ok row -> Forall row_ok (rows_after m row rows).
Proof.
  intros Hr Hok. unfold rows_after. case_decide; [apply Forall_app; split; [done|by constructor]|].
  rewrite Forall_forall in Hr |- *. intros r [[-> _]|[? _]]%put_row_elem; [done|by apply Hr].
Qed.

Lemma rows_after_active m row rows :
  NoDup (wr_id <$> rows) -> Exists (fun r => wr_active r = true) rows ->
  wr_active row = bool_decide (mc_action m <> RDeactivated) ->
  (mc_action m <> RCreated -> wr_id row ∈ wr_id <$> rows) ->
  (mc_action m = RDeactivated -> 1 < Z.of_nat (length (filter (fun r => wr_active r = true) rows))) ->
  Exists (fun r => wr_active r = true) (rows_after m row rows).
Proof.
  intros Hn He Ha Hin Hd. unfold rows_after. destruct (decide (mc_action m = RCreated)) as [Ec|Ec]; [apply Exists_app; by left|].
  apply Exists_exists. destruct (decide (mc_action m = RDeactivated)) as [E|E].
  - destruct (other_active rows row Hn (Hd E)) as (r & Hr & Hra & Hne). exists r. split; [|done].
    apply put_row_elem. by right.
  - exists row. rewrite bool_decide_eq_true_2 in Ha by done. split; [|done].
    apply put_row_elem. left. split; [done|by apply Hin].
Qed.

Lemma rows_after_bound m row rows :
  Z.of_nat (length rows) <= MAX_RESOURCES ->
  (mc_action m = RCreated -> Z.of_nat (length rows) < MAX_RESOURCES) ->
  Z.of_nat (length (rows_after m row rows)) <= MAX_RESOURCES.
Proof.
  intros Hb Hc. unfold rows_after. case_decide as E; [rewrite length_app; specialize (Hc E); cbn; lia|].
  unfold put_row. by rewrite length_fmap.
Qed.

Definition state_after (st : catalog_state_row) (e : catalog_event_row) : catalog_state_row :=
  {| ws_home := ws_home st; ws_revision := ws_revision st + 1; ws_event_count := we_sequence e;
     ws_last_hash := we_event_hash e;
     ws_state_hash := catalog_state_hash hmac_hex scope (ws_revision st + 1) (we_sequence e) (we_event_hash e) |}.

Lemma mutated_opened d st m row e :
  opened d st -> row_ok row ->
  (mc_action m = RCreated -> wr_id row ∉ wr_id <$> cd_resources d) ->
  wr_active row = bool_decide (mc_action m <> RDeactivated) ->
  match mc_action m with
  | RCreated => Z.of_nat (length (cd_resources d)) < MAX_RESOURCES
  | _ => exists old, old ∈ cd_resources d /\ replaces m old row /\
           (mc_action m = RDeactivated ->
            1 < Z.of_nat (length (filter (fun r => wr_active r = true) (cd_resources d))))
  end ->
  we_previous_hash e = ws_last_hash st -> we_event_hash e = catalog_event_hash hmac_hex e ->
  we_home e = scope -> we_sequence e = ws_event_count st + 1 ->
  we_catalog_revision e = ws_revision st + 1 -> we_resource_id e = wr_id row ->
  opened {| cd_resources := rows_after m row (cd_resources d); cd_events := cd_events d ++ [e];
            cd_states := sql_update (fun s => ws_home s = scope)
               (fun s => {| ws_home := ws_home s; ws_revision := ws_revision st + 1;
                            ws_event_count := we_sequence e; ws_last_hash := we_event_hash e;
                            ws_state_hash := catalog_state_hash hmac_hex scope (ws_revision st + 1)
                               (we_sequence e) (we_event_hash e) |}) (cd_states d) |}
    (state_after st e).
Proof.
  intros Ho Hok Hnew Hact Hm Hp Hh Hhome Hseq Hrev Hid.
  destruct (rows_after_ids m row (cd_resources d) Hnew (co_ids _ _ Ho)) as [Hn Hsub].
  assert (mc_action m <> RCreated -> wr_id row ∈ wr_id <$> cd_resources d) as Hold.
  { intros Hne. destruct (mc_action m); [done|..]; destruct Hm as (old & Hin & (-> & _) & _);
      by apply list_elem_of_fmap_2. }
  assert (wr_id row ∈ wr_id <$> rows_after m row (cd_resources d)) as Hrow.
  { unfold rows_after. destruct (decide (mc_action m = RCreated)) as [E|E]; [rewrite fmap_app; set_solver|]. rewrite put_row_ids. by apply Hold. }
  pose proof (co_count _ _ Ho) as Hc. pose proof (co_revision _ _ Ho) as Hr. pose proof (co_last _ _ Ho) as Hl.
  constructor; unfold state_after; cbn [cd_resources cd_events cd_states ws_home ws_revision ws_event_count ws_last_hash ws_state_hash];
    rewrite ?length_app; cbn [length]; try done; try lia.
  - rewrite (co_states _ _ Ho). unfold sql_update. cbn. by rewrite decide_True by apply Ho.
  - apply Ho.
  - by rewrite chain_head_snoc.
  - apply rows_after_ok; [apply Ho|done].
  - apply rows_after_bound; [apply Ho|]. intros E. by rewrite E in Hm.
  - apply rows_after_active; [apply Ho|apply Ho|done|done|]. intros E. rewrite E in Hm.
    destruct Hm as (_ & _ & _ & Hm). by apply Hm.
  - apply chained_snoc; [apply Ho|]. split; [cbn; congruence|done].
  - intros i x [Hi|[Hi [= <-]]]%lookup_snoc_Some; [|constructor; [done|lia|lia|by rewrite Hid]].
    destruct Hi as [_ Hi]. destruct (co_events _ _ Ho i x Hi). constructor; try done. by apply Hsub.
Qed.

Lemma mutate_tx_cases env actor m d st x d' :
  opened d st -> mutate_tx env actor m d = (x, d') ->
  (d' = d /\ forall v, x = Ok v -> exists e r, find_change scope d (mc_command_id m) = Some e /\
     we_actor_id e = u (p_id actor) /\ we_request_hash e = command_hash hmac_hex m /\
     dict_get (book (home_rows scope d)) (we_resource_id e) = Some r /\
     mr_revision r = we_resource_revision e /\ v = (ws_revision st, r)) \/
  exists st' row, mutated env actor m d d' st st' row /\ x = Ok (ws_revision st', resource_of row).
Proof.
  intros Ho [[-> Hno]|(v & -> & Hm)]%transaction_cases; [left; split; [done|]; intros v Hv; by destruct (Hno v)|].
  cbv beta iota zeta delta [mbind M_bind get_state lift mret M_ret] in Hm.
  rewrite (opened_verifies _ _ Ho) in Hm. cbv beta iota in Hm.
  destruct (find_change scope d (mc_command_id m)) as [e|] eqn:Hf.
  { destruct (dict_get _ _) as [r|] eqn:Hg; [|done]. destruct (raise_if _ _) eqn:Hq in Hm; [|done].
    apply raise_if_ok in Hq. passed. injection Hm as <- <-. left. split; [done|]. intros v [= <-].
    by exists e, r. }
  destruct (raise_if _ _) eqn:Hexp in Hm; [|done]. apply raise_if_ok in Hexp. passed.
  destruct (next_row _ _ _ _ _ _) as [f|] eqn:Hn; [|done].
  destruct (raise_if _ _) in Hm; [|done].
  destruct (write_row _ _ _ _) as [rows|] eqn:Hw; [|done].
  destruct (sql_insert _ _ _) as [events|] eqn:He; [|done]. apply sql_insert_ok in He as [-> _].
  destruct (next_row_ok _ _ _ _ _ Ho Hn) as (Hok & Hful & Hact & Hcase).
  destruct (write_row_ok _ _ _ _ _ _ Ho Hn Hw) as [-> Hnew].
  set (e := sealed_event _) in Hm. injection Hm as <- <-. right.
  exists (state_after st e), (sealed f). split; [|done]. constructor; try done.
  - apply mutated_opened; try done. destruct (mc_action m); [tauto|done..].
  - by exists e.
  - destruct (mc_action m) eqn:Ea; [split; [by apply Hnew|tauto]|..];
      destruct Hcase as (old & ? & ? & _); by exists old.
Qed.

Lemma mutate_cases env actor m d st x d' :
  opened d st -> mutate env actor m d = (x, d') ->
  (d' = d /\ forall v, x <> Ok v) \/ (p_role actor = Admin /\ mutate_tx env actor m d = (x, d') /\
     forall env' d2, mutate env' actor m d2 = mutate_tx env' actor m d2).
Proof.
  intros Ho. unfold ResourceCatalog.mutate. rewrite lift_bind.
  destruct (raise_if (p_role actor <> Admin) _) as [[]|] eqn:Ha; [|intros [= <- <-]; by left].
  apply raise_if_ok in Ha. passed. cbv beta iota. rewrite lift_bind.
  destruct (raise_if (existsb _ _ = true) _) as [[]|] eqn:Hs; [|intros [= <- <-]; by left].
  intros Hm. right. split_and!; [done|done|]. intros env' d2. by rewrite !lift_bind.
Qed.

(** ** Reachable catalogs *)

Inductive catalog_step d : catalog_db -> Prop :=
| step_open now : catalog_step d (ensure_default now d).2
| step_mutate env actor m : catalog_step d (mutate env actor m d).2.
(** A catalog that was opened once, on empty tables. *)
Definition catalog_reachable d : Prop :=
  exists now, rtc catalog_step (ensure_default now new_catalog).2 d.

Lemma default_row_ok now : row_ok (default_row hmac_hex scope default_id now).
Proof.
  constructor; [done|done|]. unfold ResourceCatalog.fields_valid. cbn [default_row ResourceCatalog.sealed
    wr_label wr_timezone wr_capacity]. split_and!; try done; vm_compute; done.
Qed.

Lemma default_opened now : exists st, opened (ensure_default now new_catalog).2 st.
Proof.
  unfold ResourceCatalog.ensure_default, transaction, new_catalog.
  cbv beta iota zeta delta [mbind M_bind get_state lift mret M_ret put_state].
  cbn [cd_states cd_resources cd_events sql_one filter list_filter head snd]. cbn.
  eexists. constructor; cbn; try done; try lia.
  - constructor; [apply (default_row_ok now)|constructor].
  - apply NoDup_singleton.
  - by left.
Qed.

Lemma step_opened d st d' :
  opened d st -> catalog_step d d' ->
  exists st', opened d' st' /\ cd_events d `prefix_of` cd_events d'.
Proof.
  intros Ho [now|env actor m].
  - exists st. unfold ResourceCatalog.ensure_default, transaction.
    cbv beta iota zeta delta [mbind M_bind get_state lift mret M_ret].
    assert (sql_one (fun s => ws_home s = scope) (cd_states d) = Some st) as ->
      by (rewrite (co_states _ _ Ho), sql_one_single, decide_True; [done|apply Ho]).
    by rewrite (opened_verifies _ _ Ho).
  - destruct (mutate env actor m d) as [x d1] eqn:Hm. cbn [snd].
    destruct (mutate_cases _ _ _ _ _ _ _ Ho Hm) as [[-> _]|(_ & Htx & _)]; [by exists st|].
    destruct (mutate_tx_cases _ _ _ _ _ _ _ Ho Htx) as [[-> _]|(st' & row & Hmu & _)]; [by exists st|].
    exists st'. split; [apply Hmu|]. destruct (mu_event Hmu) as (e & -> & _). by apply prefix_app_r.
Qed.

Lemma steps_opened d st d' :
  opened d st -> rtc catalog_step d d' ->
  exists st', opened d' st' /\ cd_events d `prefix_of` cd_events d'.
Proof.
  intros Ho Hs. revert st Ho. induction Hs as [d|d d1 d' H1 _ IH]; intros st Ho; [by exists st|].
  destruct (step_opened _ _ _ Ho H1) as (st1 & Ho1 & Hp1). destruct (IH _ Ho1) as (st' & Ho' & Hp').
  exists st'. split; [done|]. by etrans.
Qed.

Lemma reachable_opened d : catalog_reachable d -> exists st, opened d st.
Proof.
  intros [now Hs]. destruct (default_opened now) as [st Ho].
  destruct (steps_opened _ _ _ Ho Hs) as (st' & ? & _). by exists st'.
Qed.

Lemma opened_lists d st :
  opened d st -> list_resources d =
  Ok (ws_revision st, py_sorted resource_order (resource_of <$> home_rows scope d)).
Proof.
  intros Ho. unfold ResourceCatalog.list_resources. rewrite (opened_verifies _ _ Ho).
  cbn [mbind res_bind]. unfold dict_values, book. by rewrite <- list_fmap_compose.
Qed.

Lemma listed_elem d st x :
  opened d st ->
  x ∈ py_sorted resource_order (resource_of <$> home_rows scope d) <->
  exists r, r ∈ cd_resources d /\ x = resource_of r.
Proof.
  intros Ho. rewrite py_sorted_elem, list_elem_of_fmap.
  setoid_rewrite (home_rows_perm d (co_rows _ _ Ho)). split; intros (r & ? & ?); by exists r.
Qed.

(** *** The properties *)

(** An opened catalog can always be read: it lists between one and sixty-four
    resources with distinct ids, each with a label, a known time zone and a
    capacity within bounds, and at least one of them is active. *)
Theorem catalog_always_lists d :
  catalog_reachable d ->
  exists revision l, list_resources d = Ok (revision, l) /\
    1 <= Z.of_nat (length l) <= MAX_RESOURCES /\ NoDup (mr_id <$> l) /\
    Exists (fun r => mr_active r = true) l /\
    Forall (fun r => fields_valid (mr_label r) (mr_timezone r) (mr_capacity r)) l /\
    revision = 1 + Z.of_nat (length (cd_events d)).
Proof.
  intros [st Ho]%reachable_opened. do 2 eexists. split; [by eapply opened_lists|].
  pose proof (home_rows_perm d (co_rows _ _ Ho)) as Hp.
  pose proof (co_bound _ _ Ho) as Hb. pose proof (co_active _ _ Ho) as Ha.
  split_and!.
  - rewrite py_sorted_length, length_fmap, Hp. apply Exists_exists in Ha as (r & Hr & _).
    destruct (cd_resources d); [by apply elem_of_nil in Hr|cbn; lia].
  - by rewrite py_sorted_length, length_fmap, Hp.
  - rewrite py_sorted_perm, <- list_fmap_compose, Hp. apply Ho.
  - rewrite py_sorted_perm, Hp. apply Exists_fmap. done.
  - rewrite py_sorted_perm, Hp. apply Forall_fmap. eapply Forall_impl; [apply Ho|]. by intros r [].
  - rewrite (co_revision _ _ Ho). lia.
Qed.

(** Which resources are listed after a change: the changed one, and the others. *)
Lemma mutated_elem env actor m d d' st st' row x :
  opened d st -> mutated env actor m d d' st st' row ->
  (exists r, r ∈ cd_resources d' /\ x = resource_of r) <->
  x = resource_of row \/ (mr_id x <> wr_id row /\ exists r, r ∈ cd_resources d /\ x = resource_of r).
Proof.
  intros Ho Hm. rewrite (mu_rows Hm). pose proof (mu_old Hm) as Hold. unfold rows_after.
  destruct (decide (mc_action m = RCreated)) as [E|E].
  - rewrite E in Hold. destruct Hold as [Hnew _]. split.
    + intros (r & Hr & ->). apply elem_of_app in Hr as [Hr|Hr];
        [right|left; by apply list_elem_of_singleton in Hr as ->]. split; [|by exists r].
      intros Eid. apply Hnew. cbn in Eid. rewrite <- Eid. by apply list_elem_of_fmap_2.
    + intros [->|(_ & r & Hr & ->)]; [exists row|exists r]; split; try done; apply elem_of_app;
        [right; by left|by left].
  - assert (wr_id row ∈ wr_id <$> cd_resources d) as Hin.
    { destruct (mc_action m); [done|..]; destruct Hold as (old & ? & -> & _); by apply list_elem_of_fmap_2. }
    setoid_rewrite put_row_elem. split.
    + intros (r & [[-> _]|[Hr Hne]] & ->); [by left|right]. split; [done|]. by exists r.
    + intros [->|(Hne & r & Hr & ->)]; [exists row; split; [by left|done]|exists r]. split; [by right|done].
Qed.

(** A change that was made was asked for by an administrator who named the
    current revision of the catalog; it advances that revision by one, leaves
    every other resource as it was, and gives the named one its new fields:
    a created resource is new, an updated or deactivated one was active and has
    the revision that was named, and is never the last active one to go. *)
Theorem catalog_change env actor m d revision r d' :
  catalog_reachable d -> mutate env actor m d = (Ok (revision, r), d') -> d' <> d ->
  exists l l', list_resources d = Ok (mc_expected_catalog_revision m, l) /\
    list_resources d' = Ok (revision, l') /\ p_role actor = Admin /\
    revision = mc_expected_catalog_revision m + 1 /\
    (forall x, x ∈ l' <-> x = r \/ (mr_id x <> mr_id r /\ x ∈ l)) /\
    (mc_action m <> RDeactivated -> mc_label m = Some (mr_label r) /\
       mc_timezone m = Some (mr_timezone r) /\ mc_capacity m = Some (mr_capacity r)) /\
    mr_active r = bool_decide (mc_action m <> RDeactivated) /\
    Exists (fun x => mr_active x = true) l' /\
    match mc_action m with
    | RCreated => mr_revision r = 1 /\ forall x, x ∈ l -> mr_id x <> mr_id r
    | _ => exists old, old ∈ l /\ mr_id old = mr_id r /\ mr_active old = true /\
             mc_expected_resource_revision m = Some (mr_revision old) /\
             mr_revision r = mr_revision old + 1
    end.
Proof.
  intros [st Ho]%reachable_opened Hm Hne.
  destruct (mutate_cases _ _ _ _ _ _ _ Ho Hm) as [[_ Hno]|(Ha & Htx & _)]; [by destruct (Hno (revision, r))|].
  destruct (mutate_tx_cases _ _ _ _ _ _ _ Ho Htx) as [[-> _]|(st' & row & Hmu & [= -> ->])]; [done|].
  pose proof (mu_opened Hmu) as Ho'. pose proof (mu_row Hmu) as [Hful Hact].
  do 2 eexists. rewrite (mu_expected Hmu). split_and!; [by apply opened_lists..|done|apply Hmu| |done|done| |].
  - intros x. rewrite (listed_elem _ _ _ Ho'), (listed_elem _ _ _ Ho).
    rewrite (mutated_elem _ _ _ _ _ _ _ _ _ Ho Hmu). done.
  - rewrite py_sorted_perm, (home_rows_perm _ (co_rows _ _ Ho')). apply Exists_fmap. apply Ho'.
  - pose proof (mu_old Hmu) as Hold. destruct (mc_action m).
    + destruct Hold as [Hnew Hr]. split; [done|]. intros x (y & Hy & ->)%(listed_elem _ _ _ Ho) E.
      apply Hnew. cbn in E. rewrite <- E. by apply list_elem_of_fmap_2.
    + destruct Hold as (old & Hin & E1 & _ & E2 & E3 & E4 & _). exists (resource_of old).
      split_and!; try done. apply (listed_elem _ _ _ Ho). by exists old.
    + destruct Hold as (old & Hin & E1 & _ & E2 & E3 & E4 & _). exists (resource_of old).
      split_and!; try done. apply (listed_elem _ _ _ Ho). by exists old.
Qed.

Lemma find_change_grows d d' cmd e :
  cd_events d `prefix_of` cd_events d' -> find_change scope d cmd = Some e -> find_change scope d' cmd = Some e.
Proof. intros [l He] Hf. unfold find_change in *. by rewrite He, sql_one_app, Hf. Qed.

(** A change that was answered is never made again: whatever happened since,
    the same command leaves the catalog alone, and is answered with the same
    revision of the same resource or refused as a conflict. *)
Theorem catalog_retry env env' actor m d revision r d1 d2 :
  catalog_reachable d -> mutate env actor m d = (Ok (revision, r), d1) -> rtc catalog_step d1 d2 ->
  exists x, mutate env' actor m d2 = (x, d2) /\
    (x = Raise (ApiError "idempotency_conflict" 409) \/
     exists revision' r', x = Ok (revision', r') /\ mr_id r' = mr_id r /\ mr_revision r' = mr_revision r).
Proof.
  intros [st Ho]%reachable_opened Hm Hs.
  destruct (mutate_cases _ _ _ _ _ _ _ Ho Hm) as [[_ Hno]|(_ & Htx & Hall)]; [by destruct (Hno (revision, r))|].
  assert (exists st1 e, opened d1 st1 /\ find_change scope d1 (mc_command_id m) = Some e /\
    we_actor_id e = u (p_id actor) /\ we_request_hash e = command_hash hmac_hex m /\
    we_resource_id e = mr_id r /\ we_resource_revision e = mr_revision r) as
    (st1 & e & Ho1 & Hf & Hact & Hrh & Hid & Hrev).
  { destruct (mutate_tx_cases _ _ _ _ _ _ _ Ho Htx) as [[-> Hr]|(st' & row & Hmu & [= -> ->])].
    - destruct (Hr _ eq_refl) as (e & r' & Hf & Hact & Hrh & Hg & Hrev & [= -> ->]).
      exists st, e. destruct (book_row _ _ _ _ Ho Hg) as (row & _ & <- & ->). split_and!; try done.
    - destruct (mu_event Hmu) as (e & He & Hh & Hc & Hact & Hrh & Hid & Hrev). exists st', e.
      split_and!; try done; [apply Hmu|]. pose proof (mu_fresh Hmu) as Hf.
      unfold find_change in *. rewrite He, sql_one_app, Hf, sql_one_single. by rewrite decide_True. }
  destruct (steps_opened _ _ _ Ho1 Hs) as (st2 & Ho2 & Hp).
  apply (find_change_grows _ _ _ _ Hp) in Hf. rewrite Hall.
  unfold ResourceCatalog.mutate_tx, transaction.
  cbv beta iota zeta delta [mbind M_bind get_state lift mret M_ret].
  rewrite (opened_verifies _ _ Ho2). cbv beta iota. rewrite Hf.
  destruct (dict_get _ _) as [r'|] eqn:Hg; [|eexists; split; [done|by left]].
  destruct (book_row _ _ _ _ Ho2 Hg) as (row & _ & Erow & ->).
  destruct (raise_if _ _) as [|ex] eqn:Hq.
  - apply raise_if_ok in Hq. passed. eexists. split; [done|]. right. do 2 eexists. split; [done|].
    cbn in *; split; congruence.
  - apply raise_if_raise in Hq as [_ <-]. eexists. split; [done|by left].
Qed.
End invariant.
#[global] Arguments mu_fresh {_ _ _ _ _ _ _ _ _ _ _ _} _.
#[global] Arguments mu_expected {_ _ _ _ _ _ _ _ _ _ _ _} _.
#[global] Arguments mu_opened {_ _ _ _ _ _ _ _ _ _ _ _} _.
#[global] Arguments mu_revision {_ _ _ _ _ _ _ _ _ _ _ _} _.
#[global] Arguments mu_event {_ _ _ _ _ _ _ _ _ _ _ _} _.
#[global] Arguments mu_rows {_ _ _ _ _ _ _ _ _ _ _ _} _.
#[global] Arguments mu_row {_ _ _ _ _ _ _ _ _ _ _ _} _.
#[global] Arguments mu_old {_ _ _ _ _ _ _ _ _ _ _ _} _.

(** ** A catalog in use *)

Module CatalogExample.
Definition mac (tag : string) (v : jval) : string :=
  match v with JList (JInt 1 :: _) => "first" | JList (JInt 2 :: _) => "second" | _ => tag end.
Definition zones (z : ustr) : bool := bool_decide (z ∈ [u "UTC"; u "Europe/Berlin"]).
Definition home1 : home := (u "core", u "home").
Definition root : Principal :=
  {| p_id := "root"; p_username := "root"; p_role := Admin; p_must_change_password := false;
     p_family_id := "f"; p_token_id := "t" |}.
Definition at_time (n : Z) (r e : string) : catalog_env :=
  {| cn_now := n; cn_resource_id := u r; cn_event_id := u e |}.
Definition sauna (expected : Z) : catalog_command :=
  {| mc_command_id := u "c1"; mc_expected_catalog_revision := expected; mc_action := RCreated;
     mc_resource_id := None; mc_expected_resource_revision := None; mc_label := Some (u "Sauna");
     mc_timezone := Some (u "Europe/Berlin"); mc_capacity := Some 2 |}.
Definition smaller : catalog_command :=
  {| mc_command_id := u "c2"; mc_expected_catalog_revision := 2; mc_action := RUpdated;
     mc_resource_id := Some (u "r1"); mc_expected_resource_revision := Some 1; mc_label := Some (u "Sauna");
     mc_timezone := Some (u "Europe/Berlin"); mc_capacity := Some 1 |}.
Definition close (command : string) (expected : Z) (id : string) (revision : Z) : catalog_command :=
  {| mc_command_id := u command; mc_expected_catalog_revision := expected; mc_action := RDeactivated;
     mc_resource_id := Some (u id); mc_expected_resource_revision := Some revision; mc_label := None;
     mc_timezone := None; mc_capacity := None |}.
Definition change (env : catalog_env) (m : catalog_command) := mutate mac zones home1 env root m.
Definition d0 : catalog_db := (ensure_default mac zones home1 (u "r0") 50 new_catalog).2.
Definition d1 := (change (at_time 100 "r1" "e1") (sauna 1) d0).2.
Definition d2 := (change (at_time 200 "r2" "e2") smaller d1).2.
Definition d3 := (change (at_time 300 "" "e3") (close "c3" 3 "r0" 1) d2).2.

Example labels :
  match list_resources mac zones home1 d2 with
  | Ok (_, l) => (mr_label <$> l, mr_capacity <$> l)
  | Raise _ => ([], [])
  end = ([u "Sauna"; u "Shared home resource"], [1; 1]).
Proof. vm_compute. reflexivity. Qed.
Example last_one_stays :
  (change (at_time 400 "" "e4") (close "c4" 4 "r1" 2) d3).1 = Raise (ApiError "last_active_resource" 409).
Proof. vm_compute. reflexivity. Qed.
Example changed_since :
  (change (at_time 500 "r5" "e5") (sauna 1) d2).1 = Raise (ApiError "idempotency_conflict" 409).
Proof. vm_compute. reflexivity. Qed.

Lemma d0_reached : catalog_reachable mac zones home1 (u "r0") d0.
Proof. exists 50. apply rtc_refl. Qed.
Lemma added_reached : catalog_reachable mac zones home1 (u "r0") d1.
Proof. exists 50. apply rtc_once, step_mutate. Qed.
Lemma added_then_changed : rtc (catalog_step mac zones home1 (u "r0")) d1 d2.
Proof. apply rtc_once, step_mutate. Qed.
Lemma utc : zones (u "UTC") = true.
Proof. reflexivity. Qed.

Lemma catalog_always_lists_witness :
  exists revision l, list_resources mac zones home1 d1 = Ok (revision, l) /\
    Exists (fun r => mr_active r = true) l /\ revision = 2.
Proof.
  destruct (catalog_always_lists mac zones home1 (u "r0") utc d1 added_reached)
    as (revision & l & Hl & _ & _ & Ha & _ & Hr).
  exists revision, l. split; [exact Hl|]. split; [exact Ha|]. rewrite Hr. vm_compute. reflexivity.
Defined.

Lemma catalog_change_witness :
  exists r l, change (at_time 100 "r1" "e1") (sauna 1) d0 = (Ok (2, r), d1) /\
    list_resources mac zones home1 d1 = Ok (2, l) /\ mr_capacity r = 2.
Proof.
  assert (exists r, change (at_time 100 "r1" "e1") (sauna 1) d0 = (Ok (2, r), d1)) as [r Hm]
    by (eexists; vm_compute; reflexivity).
  assert (d1 <> d0) as Hne by (vm_compute; discriminate).
  destruct (catalog_change mac zones home1 (u "r0") utc (at_time 100 "r1" "e1") root (sauna 1) d0 2 r d1
    d0_reached Hm Hne) as (l & l' & _ & Hl & _ & _ & _ & Hf & _).
  exists r, l'. split; [exact Hm|]. split; [exact Hl|]. destruct Hf as (_ & _ & Hc); [discriminate|].
  injection Hc as Hc. symmetry. exact Hc.
Defined.

Lemma catalog_retry_witness :
  exists x, change (at_time 500 "r5" "e5") (sauna 1) d2 = (x, d2).
Proof.
  assert (exists r, change (at_time 100 "r1" "e1") (sauna 1) d0 = (Ok (2, r), d1)) as [r Hm]
    by (eexists; vm_compute; reflexivity).
  destruct (catalog_retry mac zones home1 (u "r0") utc (at_time 100 "r1" "e1") (at_time 500 "r5" "e5") root
    (sauna 1) d0 2 r d1 d2 d0_reached Hm added_then_changed) as (x & Hx & _).
  exists x. exact Hx.
Defined.
End CatalogExample.
