(* ===== verification/ReservationService.v ===== *)
(** * Shared resources at the boundary of the home

    [ResourceReservationService] of
    [server/larenor_server/resource_reservations/integration.py], with the
    request bodies of [api.py]: each request re-reads the account tables, the
    catalog and the calendar into an authority, compares it with the one that the
    request names, and then runs the catalog or the reservation store, each under
    its own transaction.

    The first 64 bits of the members' HMAC and SHA-256 are parameters, as are
    those of the two stores. *)

From S2P Require Import Prelude Auth UtcText Reservations ResourceCatalog.

(** ** Bodies *)

Record AuthorityRequest := {
  aq_coreId : ustr;
  aq_homeId : ustr;
  aq_accountId : ustr;
  aq_sessionId : ustr;
  aq_coreRevision : Z;
  aq_homeRevision : Z;
  aq_accountRevision : Z;
  aq_membersRevision : Z;
  aq_resourceId : ustr;
  aq_resourceRevision : Z;
  aq_expectedCalendarRevision : Z;
}.
Record CreateRequest := {
  bq_authority : AuthorityRequest;
  bq_commandId : ustr;
  bq_timezone : ustr;
  bq_localStart : ustr;
  bq_fold : Z;
  bq_durationSeconds : Z;
  bq_units : Z;
  bq_frequency : ustr;
  bq_count : Z;
}.
Record CancelRequest := { lq_authority : AuthorityRequest; lq_commandId : ustr; lq_reservationId : ustr }.
Record ExportRequest := { xq_authority : AuthorityRequest; xq_limit : Z }.
Record ResourceCreateRequest := {
  nq_commandId : ustr;
  nq_expectedCatalogRevision : Z;
  nq_label : ustr;
  nq_timezone : ustr;
  nq_capacity : Z;
}.
Record ResourceUpdateRequest := { uq_create : ResourceCreateRequest; uq_expectedResourceRevision : Z }.
Record ResourceDeactivateRequest := {
  dq_commandId : ustr;
  dq_expectedCatalogRevision : Z;
  dq_expectedResourceRevision : Z;
}.

(** [authority_fields], the expected calendar revision apart. *)
Definition authority_fields (b : AuthorityRequest) : list jval :=
  [JText (aq_coreId b); JText (aq_homeId b); JText (aq_accountId b); JText (aq_sessionId b);
   JInt (aq_coreRevision b); JInt (aq_homeRevision b); JInt (aq_accountRevision b);
   JInt (aq_membersRevision b); JText (aq_resourceId b); JInt (aq_resourceRevision b)].

(** [command], its keys sorted. *)
Definition create_json (b : CreateRequest) : jval :=
  let a := bq_authority b in
  JObj [("accountId", JText (aq_accountId a)); ("accountRevision", JInt (aq_accountRevision a));
        ("action", JText (u "create")); ("commandId", JText (bq_commandId b));
        ("coreId", JText (aq_coreId a)); ("coreRevision", JInt (aq_coreRevision a));
        ("durationSeconds", JInt (bq_durationSeconds b));
        ("expectedCalendarRevision", JInt (aq_expectedCalendarRevision a));
        ("fold", JInt (bq_fold b)); ("homeId", JText (aq_homeId a));
        ("homeRevision", JInt (aq_homeRevision a)); ("localStart", JText (bq_localStart b));
        ("membersRevision", JInt (aq_membersRevision a));
        ("recurrence", JObj [("count", JInt (bq_count b)); ("frequency", JText (bq_frequency b))]);
        ("resourceId", JText (aq_resourceId a)); ("resourceRevision", JInt (aq_resourceRevision a));
        ("timezone", JText (bq_timezone b)); ("units", JInt (bq_units b))]%string.
Definition cancel_json (b : CancelRequest) : jval :=
  let a := lq_authority b in
  JObj [("accountId", JText (aq_accountId a)); ("accountRevision", JInt (aq_accountRevision a));
        ("action", JText (u "cancel")); ("commandId", JText (lq_commandId b));
        ("coreId", JText (aq_coreId a)); ("coreRevision", JInt (aq_coreRevision a));
        ("expectedCalendarRevision", JInt (aq_expectedCalendarRevision a));
        ("homeId", JText (aq_homeId a)); ("homeRevision", JInt (aq_homeRevision a));
        ("membersRevision", JInt (aq_membersRevision a)); ("reservationId", JText (lq_reservationId b));
        ("resourceId", JText (aq_resourceId a)); ("resourceRevision", JInt (aq_resourceRevision a))]%string.

(** ** Answers *)

Record AuthorityView := {
  av_coreId : ustr;
  av_homeId : ustr;
  av_accountId : ustr;
  av_sessionId : ustr;
  av_coreRevision : Z;
  av_homeRevision : Z;
  av_accountRevision : Z;
  av_membersRevision : Z;
  av_resourceId : ustr;
  av_resourceRevision : Z;
}.
Record ReservationView := {
  iv_id : ustr;
  iv_ownerId : ustr;
  iv_resourceId : ustr;
  iv_timezone : ustr;
  iv_localStart : ustr;
  iv_fold : bool;
  iv_durationSeconds : Z;
  iv_units : Z;
  iv_recurrence : string * Z;
  iv_occurrences : list Occurrence;
  iv_canCancel : bool;
  iv_cancelled : bool;
}.
Record SnapshotView := {
  sv_authority : AuthorityView;
  sv_calendarRevision : Z;
  sv_resource : ManagedResource;
  sv_canCreate : bool;
  sv_reservations : list ReservationView;
  sv_history : list ReservationEvent;
  sv_busy : list (Occurrence * Z);
}.
Record ReceiptView := {
  pv_authority : AuthorityView;
  pv_eventId : ustr;
  pv_actorId : ustr;
  pv_commandId : ustr;
  pv_action : reservation_action;
  pv_expectedCalendarRevision : Z;
  pv_calendarRevision : Z;
  pv_reservation : ReservationView;
}.

Record CoreContext := { cx_core_id : ustr; cx_home_id : ustr }.

(** The account tables, the catalog tables and the calendar tables of one database. *)
Record core_db {Cipher : Type} := {
  sw_auth : auth_db;
  sw_catalog : catalog_db;
  sw_calendar : reservation_db Cipher;
}.
#[global] Arguments core_db : clear implicits.

Section service.
Context `{UnicodeData}.
Variable json_loads : list Z -> res jval.
(** [json.dumps(value, sort_keys=True, separators=(",", ":")).encode()] *)
Variable json_dumps : jval -> list Z.
Variable fromisoformat : ustr -> option iso_datetime.
Variable utcoffset : ustr -> Z -> bool -> Z.
Variable astimezone : ustr -> Z -> Z * bool.
Variable zone_known : ustr -> bool.
(** The HMACs under the keys of the calendar and of the catalog. *)
Variable hmac_hex : string -> jval -> string.
Variable hmac_bytes : string -> list Z -> string.
Variable catalog_hmac : string -> jval -> string.
(** The first eight bytes of the members' HMAC as an integer, and SHA-256 in
    hexadecimal. *)
Variable members_mac : jval -> Z.
Variable sha256_hex : ustr -> ustr.
Variable Cipher : Type.
Variable gcm_encrypt : string -> jval -> ustr -> Cipher.
Variable gcm_decrypt : string -> Cipher -> ustr -> option jval.
Variable context : CoreContext.
Local Notation world := (core_db Cipher).
Implicit Types w : world.

Definition on_catalog {A} (m : M catalog_db A) : M world A := fun w =>
  let '(r, d) := m (sw_catalog w) in
  (r, {| sw_auth := sw_auth w; sw_catalog := d; sw_calendar := sw_calendar w |}).
Definition on_calendar {A} (m : M (reservation_db Cipher) A) : M world A := fun w =>
  let '(r, d) := m (sw_calendar w) in
  (r, {| sw_auth := sw_auth w; sw_catalog := sw_catalog w; sw_calendar := d |}).

Definition the_home : home := (cx_core_id context, cx_home_id context).
Local Notation catalog_list := (list_resources catalog_hmac zone_known the_home).
Local Notation catalog_mutate := (mutate catalog_hmac zone_known the_home).

(** [_resource_id] *)
Definition resource_id_ : ustr :=
  take 32 (sha256_hex (u "larenor-shared-resource-v1:" ++ cx_core_id context ++ u ":" ++ cx_home_id context)).

(** [_scope] *)
Definition check_home (core_id home_id : ustr) : res unit :=
  raise_if ((core_id, home_id) <> (cx_core_id context, cx_home_id context)) (ApiError "not_found" 404).

Definition user_order (a b : user_row) : Prop := ustr_le (u (u_id a)) (u (u_id b)).
#[local] Instance user_order_dec a b : Decision (user_order a b).
Proof. unfold user_order. apply _. Defined.
Definition enabled_users (d : auth_db) : list user_row :=
  py_sorted user_order (filter (fun x => u_disabled x = false /\ u_must_change x = false) (users d)).

(** [_members_revision]; the rows come sorted by their id. *)
Definition members_revision (rows : list user_row) : Z :=
  let revision := Z.land (members_mac (JList ((fun x => JList [JStr (u_id x); JInt (u_revision x)]) <$> rows)))
                    (2 ^ 63 - 1) in
  if decide (revision = 0) then 1 else revision.

(** [_facts]: the account's revision, the members, their revision, the calendar's. *)
Definition facts (now : Z) (actor : Principal) (resource_id : ustr) w : res (Z * list ustr * Z * Z) :=
  _ ← assert_current now (sw_auth w) actor;
  let account := sql_one (fun x => u_id x = p_id actor) (users (sw_auth w)) in
  let members := enabled_users (sw_auth w) in
  let state := sql_one (fun r => rt_calendar r = (cx_core_id context, cx_home_id context, resource_id))
                 (rd_states (sw_calendar w)) in
  account ← require_some account (ApiError "invalid_session" 401);
  _ ← raise_if (u_disabled account = true \/ u_must_change account = true) (ApiError "invalid_session" 401);
  let member_ids := (fun x => u (u_id x)) <$> members in
  _ ← raise_if (u (p_id actor) ∉ member_ids) (ApiError "forbidden" 403);
  Ok (u_revision account, member_ids, members_revision members,
      match state with None => 1 | Some s => rt_revision s end).

(** [next((item ...), active[0] if ... else None)] *)
Definition select_resource (resource_id : option ustr) (resources : list ManagedResource)
  : option ManagedResource :=
  match resource_id with
  | Some id => head (filter (fun r => mr_id r = id) resources)
  | None => head (filter (fun r => mr_active r = true) resources)
  end.

(** [authority] *)
Definition service_authority (now : Z) (actor : Principal) (core_id home_id : ustr)
    (resource_id : option ustr) w : res ReservationAuthority :=
  _ ← check_home core_id home_id;
  '(_, resources) ← catalog_list (sw_catalog w);
  selected ← require_some (select_resource resource_id resources) (ApiError "not_found" 404);
  '(account_revision, members, members_revision, calendar_revision) ← facts now actor (mr_id selected) w;
  let rule := {| rr_id := mr_id selected; rr_revision := mr_revision selected;
                 rr_capacity := mr_capacity selected; rr_timezone := mr_timezone selected;
                 rr_member_ids := members |} in
  _ ← raise_if (~ ResourceRule_valid zone_known rule) (ValueError "invalid_resource_rule");
  let a := {| ra_core_id := cx_core_id context; ra_home_id := cx_home_id context;
              ra_account_id := u (p_id actor); ra_core_revision := 1; ra_home_revision := 1;
              ra_account_revision := account_revision; ra_members_revision := members_revision;
              ra_calendar_revision := calendar_revision; ra_member_ids := members;
              ra_resource := rule |} in
  _ ← raise_if (~ ReservationAuthority_valid a) (ValueError "invalid_reservation_authority");
  Ok a.

(** The dictionary [actual] of [_expected], the calendar revision apart. *)
Definition actual_fields (a : ReservationAuthority) (actor : Principal) : list jval :=
  [JText (ra_core_id a); JText (ra_home_id a); JText (ra_account_id a); JText (u (p_family_id actor));
   JInt (ra_core_revision a); JInt (ra_home_revision a); JInt (ra_account_revision a);
   JInt (ra_members_revision a); JText (rr_id (ra_resource a)); JInt (rr_revision (ra_resource a))].

(** The calendar revision: a reader of a receipt may be behind. *)
Definition calendar_fits (receipt : bool) (named current : Z) : Prop :=
  if receipt then named <= current else named = current.
#[local] Instance calendar_fits_dec receipt n m : Decision (calendar_fits receipt n m).
Proof. unfold calendar_fits. destruct receipt; apply _. Defined.

(** [_expected] *)
Definition expected (now : Z) (actor : Principal) (core_id home_id resource_id : ustr)
    (body : AuthorityRequest) (receipt : bool) w : res ReservationAuthority :=
  current ← service_authority now actor core_id home_id (Some resource_id) w;
  _ ← raise_if (authority_fields body <> actual_fields current actor \/
                ~ calendar_fits receipt (aq_expectedCalendarRevision body) (ra_calendar_revision current))
        (ApiError "authority_changed" 409);
  Ok current.

(** ** Views *)

(** [datetime.fromisoformat(text[:-1]).replace(tzinfo=UTC)] in seconds. *)
Definition instant_of (text : ustr) : res Z :=
  d ← require_some (fromisoformat (take (length text - 1) text)) (ValueError "Invalid isoformat string");
  Ok (iso_wall d).

Definition local_day (zone : ustr) (o : Occurrence) : res Z :=
  t ← instant_of (oc_start_utc o); Ok ((astimezone zone t).1 / DAY_SECONDS).

(** [_recurrence] *)
Definition recurrence_of (r : Reservation) : res (string * Z) :=
  match rs_occurrences r with
  | [_] => Ok ("none"%string, 1)
  | occurrences =>
      days ← fold_res (fun acc o => d ← local_day (rs_timezone r) o; Ok (acc ++ [d])) [] occurrences;
      match days with
      | first :: second :: _ =>
          let step := second - first in
          frequency ← (if decide (step = 1) then Ok "daily"%string
                       else if decide (step = 7) then Ok "weekly"%string
                       else Raise (ApiError "server_unavailable" 503));
          _ ← raise_if (Exists (fun p => p.2 - p.1 <> step) (combine days (tail days)))
                (ApiError "server_unavailable" 503);
          Ok (frequency, Z.of_nat (length occurrences))
      | _ => Raise (PyError "IndexError")
      end
  end.

(** [_reservation] *)
Definition view_reservation (actor : Principal) (r : Reservation) : res ReservationView :=
  first ← require_some (head (rs_occurrences r)) (PyError "IndexError");
  t ← instant_of (oc_start_utc first);
  recurrence ← recurrence_of r;
  let cancelled := negb (bool_decide (rs_cancelled_at r = None)) in
  Ok {| iv_id := rs_id r; iv_ownerId := rs_owner_id r; iv_resourceId := rs_resource_id r;
        iv_timezone := rs_timezone r; iv_localStart := rs_local_start r;
        iv_fold := (astimezone (rs_timezone r) t).2; iv_durationSeconds := rs_duration_seconds r;
        iv_units := rs_units r; iv_recurrence := recurrence; iv_occurrences := rs_occurrences r;
        iv_canCancel := negb cancelled && bool_decide (p_role actor = Admin \/ rs_owner_id r = u (p_id actor));
        iv_cancelled := cancelled |}.

(** [_authority_json] *)
Definition authority_view (a : ReservationAuthority) (actor : Principal) : AuthorityView :=
  {| av_coreId := ra_core_id a; av_homeId := ra_home_id a; av_accountId := ra_account_id a;
     av_sessionId := u (p_family_id actor); av_coreRevision := ra_core_revision a;
     av_homeRevision := ra_home_revision a; av_accountRevision := ra_account_revision a;
     av_membersRevision := ra_members_revision a; av_resourceId := rr_id (ra_resource a);
     av_resourceRevision := rr_revision (ra_resource a) |}.

(** [_receipt_json] *)
Definition view_receipt (rp : ReservationReceipt) (a : ReservationAuthority) (actor : Principal)
  : res ReceiptView :=
  r ← view_reservation actor (rp_reservation rp);
  Ok {| pv_authority := authority_view a actor; pv_eventId := rp_event_id rp;
        pv_actorId := u (p_id actor); pv_commandId := rp_command_id rp; pv_action := rp_action rp;
        pv_expectedCalendarRevision := rp_calendar_revision rp - 1;
        pv_calendarRevision := rp_calendar_revision rp; pv_reservation := r |}.

(** ** The catalog's requests *)

(** [resources] *)
Definition service_resources (now : Z) (actor : Principal) (core_id home_id : ustr) w
  : res (Z * bool * list ManagedResource) :=
  _ ← check_home core_id home_id;
  _ ← facts now actor resource_id_ w;
  '(revision, resources) ← catalog_list (sw_catalog w);
  Ok (revision, bool_decide (p_role actor = Admin), resources).

Definition create_command (b : ResourceCreateRequest) : catalog_command :=
  {| mc_command_id := nq_commandId b; mc_expected_catalog_revision := nq_expectedCatalogRevision b;
     mc_action := RCreated; mc_resource_id := None; mc_expected_resource_revision := None;
     mc_label := Some (nq_label b); mc_timezone := Some (nq_timezone b);
     mc_capacity := Some (nq_capacity b) |}.
Definition update_command (resource_id : ustr) (b : ResourceUpdateRequest) : catalog_command :=
  let c := uq_create b in
  {| mc_command_id := nq_commandId c; mc_expected_catalog_revision := nq_expectedCatalogRevision c;
     mc_action := RUpdated; mc_resource_id := Some resource_id;
     mc_expected_resource_revision := Some (uq_expectedResourceRevision b);
     mc_label := Some (nq_label c); mc_timezone := Some (nq_timezone c);
     mc_capacity := Some (nq_capacity c) |}.
Definition deactivate_command (resource_id : ustr) (b : ResourceDeactivateRequest) : catalog_command :=
  {| mc_command_id := dq_commandId b; mc_expected_catalog_revision := dq_expectedCatalogRevision b;
     mc_action := RDeactivated; mc_resource_id := Some resource_id;
     mc_expected_resource_revision := Some (dq_expectedResourceRevision b);
     mc_label := None; mc_timezone := None; mc_capacity := None |}.

(** [create_resource] *)
Definition create_resource (now : Z) (env : catalog_env) (actor : Principal) (core_id home_id : ustr)
    (b : ResourceCreateRequest) : M world (Z * ManagedResource) :=
  _ ← lift (check_home core_id home_id);
  w ← get_state;
  _ ← lift (facts now actor resource_id_ w);
  on_catalog (catalog_mutate env actor (create_command b)).

(** [_verified_records] *)
Definition verified_records (a : ReservationAuthority) w : res (list Reservation) :=
  '(_, records) ← verified hmac_hex Cipher gcm_decrypt (sw_calendar w) (calendar_of a);
  Ok (py_sorted export_order (dict_values records)).

(** What [update_resource] checks before it changes the catalog. *)
Definition update_checks (now : Z) (actor : Principal) (core_id home_id resource_id : ustr)
    (b : ResourceUpdateRequest) w : res unit :=
  current ← service_authority now actor core_id home_id (Some resource_id) w;
  resources ← verified_records current w;
  '(_, catalog) ← catalog_list (sw_catalog w);
  previous ← require_some (head (filter (fun r => mr_id r = resource_id) catalog)) (PyError "StopIteration");
  raise_if (resources <> [] /\ (nq_timezone (uq_create b) <> mr_timezone previous \/
                                nq_capacity (uq_create b) <> mr_capacity previous))
    (ApiError "resource_in_use" 409).
(** [update_resource] *)
Definition update_resource (now : Z) (env : catalog_env) (actor : Principal)
    (core_id home_id resource_id : ustr) (b : ResourceUpdateRequest) : M world (Z * ManagedResource) :=
  w ← get_state;
  _ ← lift (update_checks now actor core_id home_id resource_id b w);
  on_catalog (catalog_mutate env actor (update_command resource_id b)).

(** [deactivate_resource] *)
Definition deactivate_resource (now : Z) (env : catalog_env) (actor : Principal)
    (core_id home_id resource_id : ustr) (b : ResourceDeactivateRequest) : M world (Z * ManagedResource) :=
  w ← get_state;
  _ ← lift (service_authority now actor core_id home_id (Some resource_id) w);
  on_catalog (catalog_mutate env actor (deactivate_command resource_id b)).

(** ** The calendar's requests *)

(** [bootstrap] *)
Definition bootstrap (now : Z) (actor : Principal) (core_id home_id : ustr) (resource_id : option ustr) w
  : res (AuthorityView * Z * ManagedResource) :=
  a ← service_authority now actor core_id home_id resource_id w;
  '(_, resources) ← catalog_list (sw_catalog w);
  r ← require_some (head (filter (fun r => mr_id r = rr_id (ra_resource a)) resources)) (PyError "StopIteration");
  Ok (authority_view a actor, ra_calendar_revision a, r).

(** The sort key of [busy] in [snapshot]: starts, then ends. *)
Definition snapshot_order (x y : Occurrence * Z) : Prop :=
  if decide (oc_start_utc x.1 = oc_start_utc y.1) then ustr_le (oc_end_utc x.1) (oc_end_utc y.1)
  else ustr_le (oc_start_utc x.1) (oc_start_utc y.1).
#[local] Instance snapshot_order_dec x y : Decision (snapshot_order x y).
Proof. unfold snapshot_order. case_decide; apply _. Defined.

(** [snapshot] *)
Definition snapshot (now : Z) (actor : Principal) (core_id home_id resource_id : ustr)
    (body : AuthorityRequest) w : res SnapshotView :=
  a ← expected now actor core_id home_id resource_id body false w;
  '(revision, events, records) ← read_calendar hmac_hex Cipher gcm_decrypt actor a (sw_calendar w);
  _ ← raise_if (Z.of_nat (length records) > 256) (ApiError "reservation_export_limit_reached" 413);
  '(_, resources) ← catalog_list (sw_catalog w);
  let stale := ApiError "authority_changed" 409 in
  resource ← require_some (head (filter (fun r => mr_id r = rr_id (ra_resource a)) resources)) stale;
  _ ← raise_if (mr_revision resource <> rr_revision (ra_resource a) \/
                mr_timezone resource <> rr_timezone (ra_resource a) \/
                mr_capacity resource <> rr_capacity (ra_resource a)) stale;
  let ordered := py_sorted export_order (dict_values records) in
  reservations ← fold_res (fun acc r => v ← view_reservation actor r; Ok (acc ++ [v])) [] ordered;
  let busy := concat ((fun r => (fun o => (o, rs_units r)) <$> rs_occurrences r) <$>
                filter (fun r => rs_cancelled_at r = None) ordered) in
  _ ← raise_if (Z.of_nat (length busy) > 256) (ApiError "availability_limit_reached" 413);
  Ok {| sv_authority := authority_view a actor; sv_calendarRevision := revision; sv_resource := resource;
        sv_canCreate := mr_active resource; sv_reservations := reservations;
        sv_history := drop (length events - 256) events; sv_busy := py_sorted snapshot_order busy |}.

(** [create] from the authority on: the resource has to be active. *)
Definition create_with (env : reservation_env) (actor : Principal) (resource_id : ustr)
    (b : CreateRequest) (a : ReservationAuthority) : M world ReceiptView :=
  w ← get_state;
  '(_, resources) ← lift (catalog_list (sw_catalog w));
  resource ← lift (require_some (head (filter (fun r => mr_id r = resource_id) resources))
                     (PyError "StopIteration"));
  _ ← lift (raise_if (mr_active resource = false) (ApiError "resource_inactive" 409));
  rp ← on_calendar (create json_loads fromisoformat utcoffset astimezone hmac_hex hmac_bytes Cipher
                      gcm_encrypt gcm_decrypt env actor a (json_dumps (create_json b)));
  lift (view_receipt rp a actor).

(** [create] *)
Definition service_create (now : Z) (env : reservation_env) (actor : Principal)
    (core_id home_id resource_id : ustr) (b : CreateRequest) : M world ReceiptView :=
  w ← get_state;
  a ← lift (expected now actor core_id home_id resource_id (bq_authority b) false w);
  create_with env actor resource_id b a.

(** [cancel] *)
Definition service_cancel (now : Z) (env : reservation_env) (actor : Principal)
    (core_id home_id resource_id : ustr) (b : CancelRequest) : M world ReceiptView :=
  w ← get_state;
  a ← lift (expected now actor core_id home_id resource_id (lq_authority b) false w);
  rp ← on_calendar (cancel json_loads hmac_hex hmac_bytes Cipher gcm_decrypt env actor a
                      (json_dumps (cancel_json b)));
  lift (view_receipt rp a actor).

(** [receipt] *)
Definition service_receipt (now : Z) (actor : Principal) (core_id home_id resource_id command_id : ustr)
    (body : AuthorityRequest) w : res (option ReceiptView) :=
  a ← expected now actor core_id home_id resource_id body true w;
  rp ← receipt hmac_hex Cipher gcm_decrypt actor a command_id (sw_calendar w);
  match rp with
  | None => Ok None
  | Some rp =>
      _ ← raise_if (rp_calendar_revision rp <> aq_expectedCalendarRevision body + 1)
            (ApiError "authority_changed" 409);
      v ← view_receipt rp a actor;
      Ok (Some v)
  end.

(** [export] *)
Definition service_export (now : Z) (actor : Principal) (core_id home_id resource_id : ustr)
    (b : ExportRequest) w : res (AuthorityView * Z * list ReservationView) :=
  a ← expected now actor core_id home_id resource_id (xq_authority b) false w;
  '(revision, _, records) ← read_calendar hmac_hex Cipher gcm_decrypt actor a (sw_calendar w);
  _ ← raise_if (Z.of_nat (length records) > xq_limit b) (ApiError "reservation_export_limit_reached" 413);
  reservations ← fold_res (fun acc r => v ← view_reservation actor r; Ok (acc ++ [v])) []
                   (py_sorted export_order (dict_values records));
  Ok (authority_view a actor, revision, reservations).
End service.

(** ** Capacity across the catalog and the calendar *)

Section composition.
Context `{UnicodeData}.
Variable json_loads : list Z -> res jval.
Variable json_dumps : jval -> list Z.
Variable fromisoformat : ustr -> option iso_datetime.
Variable utcoffset : ustr -> Z -> bool -> Z.
Variable astimezone : ustr -> Z -> Z * bool.
Variable zone_known : ustr -> bool.
Variable hmac_hex : string -> jval -> string.
Variable hmac_bytes : string -> list Z -> string.
Variable catalog_hmac : string -> jval -> string.
Variable members_mac : jval -> Z.
Variable sha256_hex : ustr -> ustr.
Variable Cipher : Type.
Variable gcm_encrypt : string -> jval -> ustr -> Cipher.
Variable gcm_decrypt : string -> Cipher -> ustr -> option jval.
Variable context : CoreContext.
Hypothesis gcm_sound : forall nonce v aad, gcm_decrypt nonce (gcm_encrypt nonce v aad) aad = Some v.
Hypothesis utc_known : zone_known (u "UTC") = true.
#[local] Existing Instance calendar_fits_dec.
Local Notation world := (core_db Cipher).
Local Notation cal_db := (reservation_db Cipher).
Local Notation the_home := (the_home context).
Local Notation catalog_list := (list_resources catalog_hmac zone_known the_home).
Local Notation catalog_mutate := (mutate catalog_hmac zone_known the_home).
Local Notation opened := (opened catalog_hmac zone_known the_home).
Local Notation store_inv := (store_inv hmac_hex Cipher gcm_decrypt).
Local Notation within := (within_capacity hmac_hex Cipher gcm_decrypt).
Local Notation book_usage := (book_usage hmac_hex Cipher gcm_decrypt).
Local Notation lives := (lives Cipher).
Local Notation service_authority := (service_authority zone_known catalog_hmac members_mac Cipher context).
Local Notation expected := (expected zone_known catalog_hmac members_mac Cipher context).
Local Notation create_resource :=
  (create_resource zone_known catalog_hmac members_mac sha256_hex Cipher context).
Local Notation update_resource :=
  (update_resource zone_known hmac_hex catalog_hmac members_mac Cipher gcm_decrypt context).
Local Notation update_checks :=
  (update_checks zone_known hmac_hex catalog_hmac members_mac Cipher gcm_decrypt context).
Local Notation deactivate_resource :=
  (deactivate_resource zone_known catalog_hmac members_mac Cipher context).
Local Notation service_create :=
  (service_create json_loads json_dumps fromisoformat utcoffset astimezone zone_known hmac_hex hmac_bytes
     catalog_hmac members_mac Cipher gcm_encrypt gcm_decrypt context).
Local Notation create_with :=
  (create_with json_loads json_dumps fromisoformat utcoffset astimezone zone_known hmac_hex hmac_bytes
     catalog_hmac Cipher gcm_encrypt gcm_decrypt context).
Local Notation service_cancel :=
  (service_cancel json_loads json_dumps fromisoformat astimezone zone_known hmac_hex hmac_bytes catalog_hmac
     members_mac Cipher gcm_decrypt context).
Local Notation service_receipt :=
  (service_receipt fromisoformat astimezone zone_known hmac_hex catalog_hmac members_mac Cipher gcm_decrypt
     context).
Implicit Types w : world.

(** The capacity that the catalog gives to a calendar; none to a calendar that
    it does not list. *)
Definition capacity_in (d : catalog_db) (c : calendar) : Z :=
  if decide (c.1 = the_home) then
    match sql_one (fun r => wr_id r = c.2) (cd_resources d) with
    | Some r => wr_capacity r
    | None => 0
    end
  else 0.

Lemma capacity_of_row d st row :
  opened d st -> row ∈ cd_resources d -> capacity_in d (the_home, wr_id row) = wr_capacity row.
Proof.
  intros Ho Hr. unfold capacity_in. cbn. rewrite decide_True by done.
  by rewrite (sql_one_unique wr_id _ row) by (done || apply Ho).
Qed.

Lemma capacity_nonneg d st c : opened d st -> 0 <= capacity_in d c.
Proof.
  intros Ho. unfold capacity_in. case_decide; [|done]. destruct (sql_one _ _) as [r|] eqn:Hr; [|done].
  apply sql_one_some in Hr as [Hr _]. pose proof (co_rows _ _ _ _ _ Ho) as Hrows.
  rewrite Forall_forall in Hrows. destruct (Hrows r Hr) as [_ _ (_ & _ & _ & _ & ?)]. lia.
Qed.

(** A change of the catalog leaves the capacity of the other calendars alone. *)
Lemma capacity_elsewhere m row d d' c :
  cd_resources d' = rows_after m row (cd_resources d) -> c <> (the_home, wr_id row) ->
  capacity_in d' c = capacity_in d c.
Proof.
  intros Hr Hc. unfold capacity_in. rewrite Hr. case_decide as Eh; [|done].
  assert (c.2 <> wr_id row) as Hne by (intros E; apply Hc; destruct c; cbn in *; congruence).
  unfold rows_after. destruct (decide (mc_action m = RCreated)).
  - rewrite sql_one_app, sql_one_single. rewrite (decide_False (P := wr_id row = c.2)) by congruence.
    by destruct (sql_one _ _).
  - clear Hr. unfold put_row. induction (cd_resources d) as [|x l IH]; [done|].
    rewrite fmap_cons. unfold sql_one in *. rewrite !filter_cons.
    destruct (decide (wr_id x = wr_id row)) as [Ex|Ex].
    + rewrite (decide_False (P := wr_id row = c.2)) by congruence.
      rewrite (decide_False (P := wr_id x = c.2)) by congruence. apply IH.
    + repeat case_decide; [reflexivity|apply IH].
Qed.

(** No records, no units. *)
Lemma no_records_usage t cancels : book_usage t cancels [] = 0.
Proof. done. Qed.

Lemma mutate_within cat st env actor m x cat' (cal : cal_db) :
  opened cat st -> catalog_mutate env actor m cat = (x, cat') -> within (capacity_in cat) cal ->
  (mc_action m = RUpdated -> forall row, mc_resource_id m = Some (wr_id row) -> row ∈ cd_resources cat ->
     mc_capacity m = Some (wr_capacity row) \/ records_at Cipher cal (the_home, wr_id row) = []) ->
  (exists st', opened cat' st') /\ within (capacity_in cat') cal.
Proof.
  intros Ho Hm Hw Hsafe.
  destruct (mutate_cases _ _ _ _ _ _ _ _ _ _ Ho Hm) as [[-> _]|(_ & Htx & _)]; [by split; [exists st|]|].
  destruct (mutate_tx_cases _ _ _ utc_known _ _ _ _ _ _ _ Ho Htx) as [[-> _]|(st' & row & Hmu & _)];
    [by split; [exists st|]|].
  pose proof (mu_opened Hmu) as Ho'. split; [by exists st'|]. intros c cs ks Hc Hl t.
  destruct (decide (c = (the_home, wr_id row))) as [->|Hne].
  2:{ rewrite (capacity_elsewhere _ _ _ _ _ (mu_rows Hmu) Hne) in Hc |- *. by eapply Hw. }
  pose proof (mu_row Hmu) as [Hful _]. pose proof (mu_old Hmu) as Hold.
  assert (row ∈ cd_resources cat') as Hin'.
  { rewrite (mu_rows Hmu). unfold rows_after. case_decide as E; [apply elem_of_app; right; by left|].
    apply put_row_elem. left. split; [done|].
    destruct (mc_action m); [done|..]; destruct Hold as (old & ? & -> & _); by apply list_elem_of_fmap_2. }
  rewrite (capacity_of_row _ _ _ Ho' Hin') in Hc |- *.
  assert (forall old, old ∈ cd_resources cat -> wr_id row = wr_id old -> wr_capacity row = wr_capacity old ->
    book_usage t ks (records_at Cipher cal (the_home, wr_id row)) <= wr_capacity row) as Hkept.
  { intros old Hin Eid ->. rewrite Eid in Hl |- *.
    pose proof (capacity_of_row _ _ _ Ho Hin) as Ec.
    pose proof (Hw (the_home, wr_id old) cs ks) as Hwo. rewrite Ec in Hwo. apply Hwo; [|done].
    rewrite <- Ec. by eapply capacity_nonneg. }
  destruct (mc_action m) eqn:Ea.
  - destruct Hold as [Hnew _]. pose proof (Hw (the_home, wr_id row) cs ks) as Hwo.
    assert (capacity_in cat (the_home, wr_id row) = 0) as E0.
    { unfold capacity_in. cbn. rewrite decide_True by done.
      destruct (sql_one _ _) as [y|] eqn:Hy; [|done]. apply sql_one_some in Hy as [Hy Ey].
      destruct Hnew. rewrite <- Ey. by apply list_elem_of_fmap_2. }
    rewrite E0 in Hwo. specialize (Hwo ltac:(done) Hl t). lia.
  - destruct Hold as (old & Hin & Eid & Erid & _). destruct (Hful ltac:(congruence)) as (_ & _ & Hcap).
    destruct (Hsafe eq_refl old Erid Hin) as [E|E]; [by apply (Hkept old); [| |congruence]|].
    rewrite Eid, E, no_records_usage. done.
  - destruct Hold as (old & Hin & Eid & _ & _ & _ & _ & _ & Hsame).
    destruct (Hsame Ea) as (_ & _ & Ecap). by apply (Hkept old).
Qed.

(** What an authority says of the catalog and of the session. *)
Lemma service_authority_ok now actor core_id home_id rid w st a :
  opened (sw_catalog w) st -> service_authority now actor core_id home_id (Some rid) w = Ok a ->
  calendar_of a = (the_home, rid) /\ assert_current now (sw_auth w) actor = Ok tt /\
  ra_account_id a = u (p_id actor) /\
  exists row, row ∈ cd_resources (sw_catalog w) /\ wr_id row = rid /\
    rr_id (ra_resource a) = rid /\ rr_revision (ra_resource a) = wr_revision row /\
    rr_capacity (ra_resource a) = wr_capacity row /\ rr_timezone (ra_resource a) = wr_timezone row.
Proof.
  intros Ho Ha. unfold ReservationService.service_authority in Ha.
  rewrite (opened_lists _ _ _ _ _ Ho) in Ha. apply bind_ok in Ha as (u1 & _ & Ha).
  cbn [mbind res_bind] in Ha. apply bind_ok in Ha as (sel & Hsel & Ha). apply require_some_ok in Hsel.
  apply bind_ok in Ha as ([[[rev members] mrev] crev] & Hf & Ha). unfold facts in Hf.
  apply bind_ok in Hf as ([] & Hcur & _). inv_ok. cbn in Hsel.
  apply (sql_one_some (fun r => mr_id r = rid)) in Hsel as [Hin Hid].
  apply (listed_elem _ _ _ _ _ _ Ho) in Hin as (row & Hrow & ->). cbn in Hid. subst rid.
  split_and!; try done. by exists row.
Qed.

Lemma expected_authority now actor core_id home_id rid body receipt w a :
  expected now actor core_id home_id rid body receipt w = Ok a ->
  service_authority now actor core_id home_id (Some rid) w = Ok a /\
  authority_fields body = actual_fields a actor /\
  calendar_fits receipt (aq_expectedCalendarRevision body) (ra_calendar_revision a).
Proof. unfold ReservationService.expected. intros He. inv_ok. by passed. Qed.

Lemma no_records d c creates cancels :
  rows_inv hmac_hex Cipher gcm_decrypt d -> lives d c creates cancels ->
  verified hmac_hex Cipher gcm_decrypt d c = Ok (public_event <$> events_at Cipher d c, []) ->
  records_at Cipher d c = [].
Proof.
  intros Hd Hl Hv. rewrite (verified_ok _ _ _ _ _ _ _ Hd Hl) in Hv. injection Hv as Hb.
  pose proof (read_opens _ _ _ _ c Hd) as Ho.
  pose proof (book_keys hmac_hex Cipher gcm_decrypt cancels _ Ho) as Hk. rewrite Hb in Hk.
  cbn in Hk. symmetry in Hk. apply fmap_nil_inv in Hk. pose proof (records_read Cipher d c) as Hp.
  rewrite Hk in Hp. by apply Permutation_nil_l in Hp.
Qed.

Lemma update_checks_safe now actor core_id home_id rid b w st row :
  opened (sw_catalog w) st -> store_inv (sw_calendar w) ->
  update_checks now actor core_id home_id rid b w = Ok tt ->
  rid = wr_id row -> row ∈ cd_resources (sw_catalog w) ->
  nq_capacity (uq_create b) = wr_capacity row \/ records_at Cipher (sw_calendar w) (the_home, rid) = [].
Proof.
  intros Ho [Hd Hl] Hc Hid Hrow. unfold ReservationService.update_checks in Hc.
  apply bind_ok in Hc as (a & Ha & Hc). destruct (service_authority_ok _ _ _ _ _ _ _ _ Ho Ha) as (Ecal & _ & _ & _).
  apply bind_ok in Hc as (resources & Hr & Hc). unfold verified_records in Hr. rewrite Ecal in Hr.
  apply bind_ok in Hr as ([events records] & Hv & [= <-]).
  rewrite (opened_lists _ _ _ _ _ Ho) in Hc. cbn [mbind res_bind] in Hc.
  apply bind_ok in Hc as (previous & Hp & Hc). apply require_some_ok in Hp.
  apply (sql_one_some (fun r => mr_id r = rid)) in Hp as [Hin Epid]. apply (listed_elem _ _ _ _ _ _ Ho) in Hin as (row' & Hrow' & ->).
  assert (row' = row) as -> by (eapply (nodup_column_inj wr_id); [apply Ho|done..|cbn in Epid; congruence]).
  apply raise_if_ok in Hc. destruct (decide (records = [])) as [->|Hne].
  - right. destruct (Hl (the_home, rid)) as (cs & ks & Hlc). eapply no_records; [done|exact Hlc|].
    rewrite Hv. pose proof Hv as Hv'. rewrite (verified_ok _ _ _ _ _ _ _ Hd Hlc) in Hv'. by injection Hv' as <- _.
  - left. destruct (decide (nq_capacity (uq_create b) = wr_capacity row)) as [|Hcap]; [done|exfalso].
    apply Hc. split; [|by right]. intros E. apply Hne. apply (f_equal length) in E.
    rewrite py_sorted_length in E. unfold dict_values in E. rewrite length_fmap in E. by apply nil_length_inv.
Qed.

(** ** Worlds reached by whole requests *)

Inductive service_step w : world -> Prop :=
| step_accounts d :
    service_step w {| sw_auth := d; sw_catalog := sw_catalog w; sw_calendar := sw_calendar w |}
| step_create_resource now env actor core_id home_id b :
    service_step w (create_resource now env actor core_id home_id b w).2
| step_update_resource now env actor core_id home_id rid b :
    service_step w (update_resource now env actor core_id home_id rid b w).2
| step_deactivate_resource now env actor core_id home_id rid b :
    service_step w (deactivate_resource now env actor core_id home_id rid b w).2
| step_service_create now env actor core_id home_id rid b :
    service_step w (service_create now env actor core_id home_id rid b w).2
| step_service_cancel now env actor core_id home_id rid b :
    service_step w (service_cancel now env actor core_id home_id rid b w).2.
Definition first_world (d : auth_db) (default_id : ustr) (now : Z) : world :=
  {| sw_auth := d;
     sw_catalog := (ensure_default catalog_hmac zone_known the_home default_id now new_catalog).2;
     sw_calendar := empty_store Cipher |}.
Definition service_reachable w : Prop :=
  exists d default_id now, rtc service_step (first_world d default_id now) w.

Record world_ok w : Prop := {
  wo_catalog : exists st, opened (sw_catalog w) st;
  wo_calendar : store_inv (sw_calendar w);
  wo_within : within (capacity_in (sw_catalog w)) (sw_calendar w);
}.

Lemma first_world_ok d default_id now : world_ok (first_world d default_id now).
Proof.
  constructor; cbn; [by apply default_opened|apply empty_store_inv|]. intros c cs ks Hc _ t. done.
Qed.

Lemma catalog_changes env actor m w :
  world_ok w ->
  (mc_action m = RUpdated -> forall row, mc_resource_id m = Some (wr_id row) ->
     row ∈ cd_resources (sw_catalog w) ->
     mc_capacity m = Some (wr_capacity row) \/
     records_at Cipher (sw_calendar w) (the_home, wr_id row) = []) ->
  world_ok (on_catalog Cipher (catalog_mutate env actor m) w).2.
Proof.
  intros [[st Ho] Hs Hw] Hsafe. unfold on_catalog.
  destruct (catalog_mutate env actor m (sw_catalog w)) as [x cat'] eqn:Hm. cbn.
  destruct (mutate_within _ _ _ _ _ _ _ _ Ho Hm Hw Hsafe) as [Ho' Hw']. by constructor.
Qed.

Lemma calendar_changes {A} (m : M cal_db A) w :
  world_ok w ->
  (forall d', d' = (m (sw_calendar w)).2 -> store_inv d' /\ within (capacity_in (sw_catalog w)) d') ->
  world_ok (on_calendar Cipher m w).2.
Proof.
  intros [Hc Hs Hw] Hm. unfold on_calendar. destruct (m (sw_calendar w)) as [x d'] eqn:E. cbn.
  destruct (Hm d' eq_refl). by constructor.
Qed.

(** The last part of a request changes nothing. *)
Lemma view_bind {A B} (m : M world A) (f : A -> res B) w :
  ((rp ← m; lift (f rp)) w).2 = (m w).2.
Proof. unfold mbind, M_bind, lift. by destruct (m w) as [[]]. Qed.

Lemma get_bind {S A} (f : S -> M S A) s : (get_state ≫= f) s = f s s.
Proof. done. Qed.

Lemma step_world_ok w w' : world_ok w -> service_step w w' -> world_ok w'.
Proof.
  intros Hok Hs. destruct (wo_catalog _ Hok) as [st Ho]. inversion Hs; subst; clear Hs.
  - destruct Hok. by constructor.
  - unfold ReservationService.create_resource. rewrite lift_bind. destruct (check_home _ _ _); [|done].
    cbv beta iota delta [mbind M_bind get_state lift]. destruct (facts _ _ _ _ _ _ _) as [|]; [|done].
    by apply catalog_changes.
  - unfold ReservationService.update_resource. cbv beta iota delta [mbind M_bind get_state lift].
    destruct (update_checks _ _ _ _ _ _ _) as [[]|] eqn:Hc; [|done].
    apply catalog_changes; [done|]. intros _ row [= ->] Hrow. cbn.
    destruct (update_checks_safe _ _ _ _ _ _ _ _ row Ho (wo_calendar _ Hok) Hc eq_refl Hrow) as [->|];
      [by left|by right].
  - unfold ReservationService.deactivate_resource. cbv beta iota delta [mbind M_bind get_state lift].
    destruct (service_authority _ _ _ _ _ _) as [|]; [|done]. by apply catalog_changes.
  - unfold ReservationService.service_create. rewrite get_bind. cbv beta. rewrite lift_bind.
    destruct (expected _ _ _ _ _ _ _ _) as [a|] eqn:Ha; [cbv beta iota|done].
    apply expected_authority in Ha as (Ha & _).
    destruct (service_authority_ok _ _ _ _ _ _ _ _ Ho Ha) as (Ecal & _ & _ & row & Hrow & Hid & _ & _ & Hcap & _).
    unfold ReservationService.create_with. rewrite get_bind. cbv beta. rewrite lift_bind.
    destruct (catalog_list _) as [[rev l]|]; [cbv beta iota|done]. rewrite lift_bind.
    destruct (require_some _ _) as [r|]; [cbv beta iota|done]. rewrite lift_bind.
    destruct (raise_if _ _); [cbv beta iota|done]. rewrite view_bind.
    apply calendar_changes; [done|]. intros d' ->. destruct Hok as [_ Hsi Hwi].
    eapply step_within; [done|exact Hsi|exact Hwi|]. apply step_create.
    rewrite Ecal, Hcap, <- Hid, (capacity_of_row _ _ _ Ho Hrow). lia.
  - unfold ReservationService.service_cancel. rewrite get_bind. cbv beta. rewrite lift_bind.
    destruct (expected _ _ _ _ _ _ _ _) as [a|] eqn:Ha; [cbv beta iota|done]. rewrite view_bind.
    apply calendar_changes; [done|]. intros d' ->. destruct Hok as [_ Hsi Hwi].
    eapply (step_within _ _ _ _ gcm_sound json_loads fromisoformat utcoffset astimezone hmac_bytes);
      [exact Hsi|exact Hwi|]. apply step_cancel.
Qed.

Lemma reachable_world_ok w : service_reachable w -> world_ok w.
Proof.
  intros (d & id & now & Hs). pose proof (first_world_ok d id now) as Hok. revert Hok.
  induction Hs as [w|w w1 w2 H1 _ IH]; [done|]. intros Hok. apply IH. by eapply step_world_ok.
Qed.

(** What [service_create] does when it answers. *)
Lemma service_create_ok now env actor core_id home_id rid b w v w' :
  service_create now env actor core_id home_id rid b w = (Ok v, w') ->
  exists a rp,
    expected now actor core_id home_id rid (bq_authority b) false w = Ok a /\
    create json_loads fromisoformat utcoffset astimezone hmac_hex hmac_bytes Cipher gcm_encrypt gcm_decrypt
      env actor a (json_dumps (create_json b)) (sw_calendar w) = (Ok rp, sw_calendar w') /\
    view_receipt fromisoformat astimezone rp a actor = Ok v /\
    sw_auth w' = sw_auth w /\ sw_catalog w' = sw_catalog w.
Proof.
  intros Hc. unfold ReservationService.service_create in Hc.
  rewrite get_bind in Hc. cbv beta in Hc. rewrite lift_bind in Hc.
  destruct (expected _ _ _ _ _ _ _ _) as [a|] eqn:Ha; [cbv beta iota in Hc|done]. exists a.
  unfold ReservationService.create_with in Hc. rewrite get_bind in Hc. cbv beta in Hc. rewrite lift_bind in Hc.
  destruct (catalog_list _) as [[rev l]|]; [cbv beta iota in Hc|done]. rewrite lift_bind in Hc.
  destruct (require_some _ _) as [r|]; [cbv beta iota in Hc|done]. rewrite lift_bind in Hc.
  destruct (raise_if _ _); [cbv beta iota in Hc|done]. unfold on_calendar, mbind, M_bind, lift in Hc.
  destruct (create _ _ _ _ _ _ _ _ _ _ _ _ _ _) as [[rp|e] d'] eqn:E; [|done].
  exists rp. injection Hc as Hv <-. split_and!; try done.
Qed.

Lemma service_authority_valid now actor core_id home_id rid w a :
  service_authority now actor core_id home_id rid w = Ok a -> ReservationAuthority_valid a.
Proof.
  unfold ReservationService.service_authority. intros Ha. apply bind_ok in Ha as (u1 & _ & Ha).
  apply bind_ok in Ha as ([rev l] & _ & Ha). apply bind_ok in Ha as (sel & _ & Ha).
  apply bind_ok in Ha as ([[[arev members] mrev] crev] & _ & Ha). apply bind_ok in Ha as ([] & _ & Ha).
  apply bind_ok in Ha as ([] & Hval & [= <-]). by apply raise_if_ok, dec_stable in Hval.
Qed.

(** The authority after the calendar moved on. *)
Lemma authority_moved now now' actor core_id home_id rid n w w' a :
  service_authority now actor core_id home_id (Some rid) w = Ok a ->
  assert_current now' (sw_auth w) actor = Ok tt -> sw_auth w' = sw_auth w ->
  sw_catalog w' = sw_catalog w -> revision_at Cipher (sw_calendar w') (calendar_of a) = Some n -> 0 < n ->
  service_authority now' actor core_id home_id (Some rid) w' = Ok (at_revision n a).
Proof.
  unfold ReservationService.service_authority. intros Ha Hcur Eauth -> Hrev Hn.
  apply bind_ok in Ha as (u1 & -> & Ha). cbn [mbind res_bind].
  apply bind_ok in Ha as ([rev l] & -> & Ha). cbn [mbind res_bind].
  apply bind_ok in Ha as (sel & -> & Ha). cbn [mbind res_bind].
  apply bind_ok in Ha as ([[[arev members] mrev] crev] & Hf & Ha).
  apply bind_ok in Ha as ([] & Hrule & Ha). apply bind_ok in Ha as ([] & Hval & [= <-]).
  cbn in Hrev. unfold facts in Hf |- *. rewrite Eauth, Hcur. cbn [mbind res_bind].
  apply bind_ok in Hf as ([] & _ & Hf). apply bind_ok in Hf as (account & Hacc & Hf). rewrite Hacc.
  cbn [mbind res_bind]. apply bind_ok in Hf as ([] & Hen & Hf). rewrite Hen. cbn [mbind res_bind].
  apply bind_ok in Hf as ([] & Hmem & [= <- <- <- _]). rewrite Hmem. cbn [mbind res_bind].
  rewrite Hrule. cbn [mbind res_bind]. apply raise_if_ok, dec_stable in Hval.
  unfold revision_at in Hrev. change ((cx_core_id context, cx_home_id context, mr_id sel))
    with (cx_core_id context, cx_home_id context, mr_id sel) in *.
  destruct (sql_one _ (rd_states (sw_calendar w'))) as [st|]; [|done]. injection Hrev as Hrev.
  rewrite raise_if_no; [cbn [mbind res_bind]; unfold at_revision; cbn; by rewrite Hrev|].
  intros Hno. apply Hno. destruct Hval as (H1 & H2 & H3 & H4). split_and!; [exact H1| |exact H3|exact H4].
  cbn in H2 |- *. rewrite !Forall_cons in H2 |- *. unfold _positive_revision. naive_solver lia.
Qed.

(** *** The properties *)

(** C2 However accounts change and requests follow each other, each run as a whole:
    the calendar of every resource that the catalog lists verifies, and its
    reservations never take more than the capacity that the catalog gives the
    resource now, at any instant. *)
Theorem catalog_capacity_kept w revision resources r :
  service_reachable w -> catalog_list (sw_catalog w) = Ok (revision, resources) -> r ∈ resources ->
  exists events reservations,
    verified hmac_hex Cipher gcm_decrypt (sw_calendar w) (the_home, mr_id r) = Ok (events, reservations) /\
    forall t, usage t (dict_values reservations) <= mr_capacity r.
Proof.
  intros [[st Ho] [Hd Hl] Hw]%reachable_world_ok Hlist Hin.
  rewrite (opened_lists _ _ _ _ _ Ho) in Hlist. injection Hlist as _ <-.
  apply (listed_elem _ _ _ _ _ _ Ho) in Hin as (row & Hrow & ->). cbn.
  destruct (Hl (the_home, wr_id row)) as (cs & ks & Hlc).
  eexists _, _. split; [by eapply verified_ok|]. intros t.
  change (book_usage t ks (calendar_records Cipher (sw_calendar w) (the_home, wr_id row)) <= wr_capacity row).
  rewrite (book_usage_perm _ _ _ t ks _ _ (records_read _ _ _)), <- (capacity_of_row _ _ _ Ho Hrow).
  eapply Hw; [by eapply capacity_nonneg|done].
Qed.

(** A request to create is made by an account whose session is current and
    enabled, names the home, its own account and session and the resource's
    current revision, and the resource is active; it changes the calendar only. *)
Theorem create_authorised now env actor core_id home_id rid b w v w' :
  service_reachable w -> service_create now env actor core_id home_id rid b w = (Ok v, w') ->
  assert_current now (sw_auth w) actor = Ok tt /\ core_id = cx_core_id context /\
  home_id = cx_home_id context /\ aq_accountId (bq_authority b) = u (p_id actor) /\
  aq_sessionId (bq_authority b) = u (p_family_id actor) /\ aq_resourceId (bq_authority b) = rid /\
  (exists revision l r, catalog_list (sw_catalog w) = Ok (revision, l) /\ r ∈ l /\ mr_id r = rid /\
     mr_active r = true /\ mr_revision r = aq_resourceRevision (bq_authority b)) /\
  sw_auth w' = sw_auth w /\ sw_catalog w' = sw_catalog w.
Proof.
  intros [[st Ho] _ _]%reachable_world_ok Hc. unfold ReservationService.service_create in Hc.
  rewrite get_bind in Hc. cbv beta in Hc. rewrite lift_bind in Hc.
  destruct (expected _ _ _ _ _ _ _ _) as [a|] eqn:Ha; [cbv beta iota in Hc|done].
  apply expected_authority in Ha as (Ha & Hf & _).
  destruct (service_authority_ok _ _ _ _ _ _ _ _ Ho Ha) as (Ecal & Hcur & Hacc & row & Hrow & Hid & Erid & Erev & _ & _).
  assert (core_id = cx_core_id context /\ home_id = cx_home_id context) as [-> ->].
  { unfold ReservationService.service_authority in Ha. apply bind_ok in Ha as (u1 & Hh & _).
    unfold check_home in Hh. apply raise_if_ok, dec_stable in Hh. by injection Hh. }
  unfold authority_fields, actual_fields in Hf. injection Hf as _ _ Eacc Eses _ _ _ _ Eres Eresrev.
  unfold ReservationService.create_with in Hc. rewrite get_bind in Hc. cbv beta in Hc. rewrite lift_bind in Hc.
  rewrite (opened_lists _ _ _ _ _ Ho) in Hc. cbv beta iota in Hc. rewrite lift_bind in Hc.
  destruct (require_some _ _) as [r|] eqn:Hr in Hc; [cbv beta iota in Hc|done]. apply require_some_ok in Hr.
  apply (sql_one_some (fun r => mr_id r = rid)) in Hr as [Hin Er].
  rewrite lift_bind in Hc. destruct (raise_if _ _) eqn:Hact in Hc; [cbv beta iota in Hc|done].
  apply raise_if_ok in Hact.
  assert (w' = (on_calendar Cipher (create json_loads fromisoformat utcoffset astimezone hmac_hex hmac_bytes
    Cipher gcm_encrypt gcm_decrypt env actor a (json_dumps (create_json b))) w).2) as ->.
  { rewrite <- (view_bind _ (fun rp => view_receipt fromisoformat astimezone rp a actor)). by rewrite Hc. }
  pose proof Hin as Hin'. apply (listed_elem _ _ _ _ _ _ Ho) in Hin' as (row' & Hrow' & ->). cbn in Er.
  assert (row' = row) as -> by (eapply (nodup_column_inj wr_id); [apply Ho|done..|congruence]).
  split_and!; try congruence.
  - do 3 eexists. split_and!; [by eapply opened_lists|exact Hin|done| |cbn; congruence].
    cbn in Hact |- *. by destruct (wr_active row).
  - unfold on_calendar. by destruct (create _ _ _ _ _ _ _ _ _ _ _ _ _ _).
  - unfold on_calendar. by destruct (create _ _ _ _ _ _ _ _ _ _ _ _ _ _).
Qed.

(** C30 The answer to a create was lost: sending it again is refused and changes
    nothing, because the calendar moved on; asking for its receipt, under the
    authority that the request named, gives that very answer. *)
Theorem lost_answer_recovered now now' env env' actor core_id home_id rid b w v w' :
  json_loads (json_dumps (create_json b)) = Ok (create_json b) ->
  service_reachable w -> service_create now env actor core_id home_id rid b w = (Ok v, w') -> w' <> w ->
  assert_current now' (sw_auth w) actor = Ok tt ->
  service_receipt now' actor core_id home_id rid (bq_commandId b) (bq_authority b) w' = Ok (Some v) /\
  service_create now' env' actor core_id home_id rid b w' = (Raise (ApiError "authority_changed" 409), w').
Proof.
  intros Hjson [_ Hs _]%reachable_world_ok Hc Hne Hcur.
  apply service_create_ok in Hc as (a & rp & Ha & Hcr & Hv & Eauth & Ecat).
  apply expected_authority in Ha as (Ha & Hf & Hfit). cbn in Hfit.
  destruct (booked_receipt _ _ _ _ gcm_sound _ _ _ _ _ _ _ _ _ _ _ _ Hs Hcr)
    as (Hrp & Hrev & cmd & value & Hp & Hid & Hrc).
  { intros E. apply Hne. destruct w, w'. cbn in *. congruence. }
  assert (cmd = bq_commandId b) as ->.
  { unfold parse_command in Hp. apply bind_ok in Hp as ([] & _ & Hp). rewrite Hjson in Hp. cbn in Hp.
    apply bind_ok in Hp as ([] & _ & [= <-]).
    change ((if decide (_identifier (bq_commandId b)) then Some (bq_commandId b) else None) = Some cmd) in Hid.
    destruct (decide (_identifier _)) in Hid; [by injection Hid|done]. }
  assert (0 < ra_calendar_revision a + 1) as Hpos.
  { destruct (service_authority_valid _ _ _ _ _ _ _ Ha) as (_ & Hp' & _).
    rewrite !Forall_cons in Hp'. unfold _positive_revision in Hp'. lia. }
  pose proof (authority_moved _ now' _ _ _ _ _ _ w' _ Ha Hcur Eauth Ecat Hrev Hpos) as Ha'.
  set (a' := at_revision (ra_calendar_revision a + 1) a) in *.
  assert (authority_fields (bq_authority b) = actual_fields a' actor) as Hf' by exact Hf.
  split.
  - unfold ReservationService.service_receipt, ReservationService.expected. rewrite Ha'. cbn [mbind res_bind].
    rewrite raise_if_no by (cbn; intros [|]; [done|lia]). cbn [mbind res_bind]. rewrite Hrc. cbn [mbind res_bind].
    rewrite raise_if_no by lia. cbn [mbind res_bind].
    change (view_receipt fromisoformat astimezone rp a' actor) with
      (view_receipt fromisoformat astimezone rp a actor). by rewrite Hv.
  - unfold ReservationService.service_create, ReservationService.expected. rewrite get_bind. cbv beta.
    rewrite lift_bind, Ha'. cbn [mbind res_bind]. rewrite raise_if_yes; [done|]. right. cbn. lia.
Qed.
End composition.

Module ServiceExample.
Import ReservationExample(fromisoformat, utcoffset, astimezone, hmac_hex, hmac_bytes, cipher, encrypt, decrypt,
  cipher_sound).
Import CatalogExample(mac, zones, utc).
Definition home1 : CoreContext := {| cx_core_id := u "core"; cx_home_id := u "home" |}.
Definition members_mac (v : jval) : Z := 7.
Definition sha256_hex (t : ustr) : ustr := u "r0".
Definition alice : Principal := AuthExample.me.
Definition now : Z := seconds 1100.

Definition named (calendar_revision : Z) : AuthorityRequest :=
  {| aq_coreId := u "core"; aq_homeId := u "home"; aq_accountId := u "1"; aq_sessionId := u "family-a";
     aq_coreRevision := 1; aq_homeRevision := 1; aq_accountRevision := 1; aq_membersRevision := 7;
     aq_resourceId := u "r1"; aq_resourceRevision := 1;
     aq_expectedCalendarRevision := calendar_revision |}.
Definition evening : CreateRequest :=
  {| bq_authority := named 1; bq_commandId := u "b1"; bq_timezone := u "Europe/Berlin";
     bq_localStart := u "2024-03-30T18:00:00"; bq_fold := 0; bq_durationSeconds := 3600; bq_units := 2;
     bq_frequency := u "none"; bq_count := 1 |}.
Definition json_dumps (v : jval) : list Z := if decide (v = create_json evening) then [1] else [0].
Definition json_loads (b : list Z) : res jval :=
  if decide (b = [1]) then Ok (create_json evening) else Raise (ValueError "JSONDecodeError").

Definition sauna : ResourceCreateRequest :=
  {| nq_commandId := u "c1"; nq_expectedCatalogRevision := 1; nq_label := u "Sauna";
     nq_timezone := u "Europe/Berlin"; nq_capacity := 2 |}.
Definition smaller : ResourceUpdateRequest :=
  {| uq_create := {| nq_commandId := u "c2"; nq_expectedCatalogRevision := 2; nq_label := u "Sauna";
                     nq_timezone := u "Europe/Berlin"; nq_capacity := 1 |};
     uq_expectedResourceRevision := 1 |}.
Definition add := create_resource zones mac members_mac sha256_hex cipher home1
  now (CatalogExample.at_time 100 "r1" "e1") alice (u "core") (u "home") sauna.
Definition shrink := update_resource zones hmac_hex mac members_mac cipher
  decrypt home1 now (CatalogExample.at_time 200 "r2" "e2") alice (u "core") (u "home") (u "r1") smaller.
Definition book := service_create json_loads json_dumps fromisoformat utcoffset
  astimezone zones hmac_hex hmac_bytes
  mac members_mac cipher encrypt decrypt home1
  now (ReservationExample.at_time 300 "v1" "e3") alice (u "core") (u "home") (u "r1") evening.

(** The rest of [book], under an authority that was read earlier. *)
Definition stale (a : ReservationAuthority) := create_with json_loads json_dumps fromisoformat
  utcoffset astimezone zones hmac_hex
  hmac_bytes mac cipher encrypt decrypt
  home1 (ReservationExample.at_time 300 "v1" "e3") alice (u "r1") evening a.
Definition ask := service_receipt fromisoformat astimezone
  zones hmac_hex mac members_mac cipher
  decrypt home1 now alice (u "core") (u "home") (u "r1") (u "b1") (named 1).

Definition w0 := first_world zones mac cipher home1 AuthExample.d1 (u "r0") 50.
Definition w1 := (add w0).2.
Definition w2 := (book w1).2.
Definition no_authority : ReservationAuthority := ReservationExample.authority 0.
Definition read_authority : ReservationAuthority :=
  match expected zones mac members_mac cipher home1 now alice (u "core") (u "home")
          (u "r1") (named 1) false w1 with Ok a => a | Raise _ => no_authority end.
(** The catalog is changed between the two halves of [book]. *)
Definition w2' := (shrink w1).2.
Definition w3 := (stale read_authority w2').2.

Lemma w0_reached : service_reachable json_loads json_dumps fromisoformat utcoffset
  astimezone zones hmac_hex hmac_bytes
  mac members_mac sha256_hex cipher encrypt decrypt home1 w0.
Proof. do 3 eexists. apply rtc_refl. Qed.
Lemma w1_reached : service_reachable json_loads json_dumps fromisoformat utcoffset
  astimezone zones hmac_hex hmac_bytes
  mac members_mac sha256_hex cipher encrypt decrypt home1 w1.
Proof. do 3 eexists. apply rtc_once, step_create_resource. Qed.

Example in_use : (shrink w2).1 = Raise (ApiError "resource_in_use" 409).
Proof. vm_compute. reflexivity. Qed.

(** The authority is read, the administrator halves the capacity of a resource
    that has no reservation yet, and the reservation is then checked against the
    capacity that was read: two units are taken where the catalog has one. *)
Lemma stale_authority_overbooks :
  exists revision resources r events reservations,
    list_resources mac zones (the_home home1) (sw_catalog w3) = Ok (revision, resources) /\
    r ∈ resources /\
    verified hmac_hex cipher decrypt (sw_calendar w3) (the_home home1, mr_id r)
      = Ok (events, reservations) /\
    mr_capacity r = 1 /\ usage 1711818000 (dict_values reservations) = 2.
Proof.
  do 5 eexists. split_and!; [vm_compute; reflexivity|by left|vm_compute; reflexivity..].
Qed.

Lemma catalog_capacity_kept_witness :
  exists events reservations,
    verified hmac_hex cipher decrypt (sw_calendar w1) (the_home home1, u "r1") = Ok (events, reservations) /\
    forall t, usage t (dict_values reservations) <= 2.
Proof.
  assert (exists revision resources r,
    list_resources mac zones (the_home home1) (sw_catalog w1) = Ok (revision, resources) /\
    r ∈ resources /\ mr_id r = u "r1" /\ mr_capacity r = 2) as (revision & resources & r & Hl & Hr & <- & <-).
  { do 3 eexists. split_and!; [vm_compute; reflexivity|by left|reflexivity|reflexivity]. }
  exact (catalog_capacity_kept json_loads json_dumps fromisoformat utcoffset
    astimezone zones hmac_hex hmac_bytes
    mac members_mac sha256_hex cipher encrypt decrypt home1
    cipher_sound utc w1 revision resources r w1_reached Hl Hr).
Defined.

Lemma create_authorised_witness :
  exists v, book w1 = (Ok v, w2) /\ sw_catalog w2 = sw_catalog w1.
Proof.
  assert (exists v, book w1 = (Ok v, w2)) as [v Hv] by (eexists; vm_compute; reflexivity).
  exists v. split; [exact Hv|].
  destruct (create_authorised json_loads json_dumps fromisoformat utcoffset
    astimezone zones hmac_hex hmac_bytes
    mac members_mac sha256_hex cipher encrypt decrypt home1
    cipher_sound utc _ _ _ _ _ _ _ _ _ _ w1_reached Hv)
    as (_ & _ & _ & _ & _ & _ & _ & _ & Hc). exact Hc.
Defined.

Lemma lost_answer_recovered_witness :
  exists v, book w1 = (Ok v, w2) /\ ask w2 = Ok (Some v).
Proof.
  assert (exists v, book w1 = (Ok v, w2)) as [v Hv] by (eexists; vm_compute; reflexivity).
  exists v. split; [exact Hv|].
  apply (lost_answer_recovered json_loads json_dumps fromisoformat utcoffset
    astimezone zones hmac_hex hmac_bytes
    mac members_mac sha256_hex cipher encrypt decrypt home1
    cipher_sound utc now now (ReservationExample.at_time 300 "v1" "e3")
    (ReservationExample.at_time 300 "v1" "e3") alice (u "core") (u "home") (u "r1") evening w1 v w2).
  - unfold json_dumps. rewrite decide_True by reflexivity. reflexivity.
  - exact w1_reached.
  - exact Hv.
  - intros E. apply (f_equal (fun w => length (rd_records (sw_calendar w)))) in E. vm_compute in E. discriminate E.
  - vm_compute. reflexivity.
Defined.
End ServiceExample.
