(* ===== verification/HomeAccess.v ===== *)
(** * Household records: contracts and access decisions

    [server/larenor_server/home_resources/models.py], [authorization.py] and the
    bodies of [api_models.py], with their counterparts of [home_people]: what a
    room, a resource or a household profile is, who is granted what on it, and
    whether a set of current facts allows a reading or a writing.

    The two packages have the same contracts on different kinds of record;
    what differs between them is the class [Registry]. *)

From stdpp Require Import gmap.
From S2P Require Import Prelude Auth.

(** What distinguishes [home_resources] from [home_people]: the kinds of
    record, the bounds of [schema.py], the domains of the keys and rate
    limits, whether [StoredPerson] refuses a grant that shows nothing, and
    whether a list names the revision of its reader. *)
Class Registry := {
  rg_kinds : list string;
  MAX_RECORDS : Z;
  rg_read_category : string;
  rg_write_category : string;
  rg_record_domain : string;
  rg_state_domain : string;
  rg_snapshot_domain : string;
  rg_visible_grants : bool;
  rg_names_reader : bool;
}.
Definition MAX_GRANTS : Z := 128.
Definition MAX_TOTAL_GRANTS : Z := 4096.
Definition MAX_AUDIT : nat := 10000%nat.

Definition home_resources : Registry := {|
  rg_kinds := ["room"; "resource"]%string; MAX_RECORDS := 512;
  rg_read_category := "home_resource_read"; rg_write_category := "home_resource_write";
  rg_record_domain := "larenor-home-resource-v1"; rg_state_domain := "larenor-home-resource-state-v1";
  rg_snapshot_domain := "larenor:home-resource-visible-snapshot:v1";
  rg_visible_grants := false; rg_names_reader := true;
|}.
Definition home_people : Registry := {|
  rg_kinds := ["person"]%string; MAX_RECORDS := 128;
  rg_read_category := "home_people_read"; rg_write_category := "home_people_write";
  rg_record_domain := "larenor-home-person-v1"; rg_state_domain := "larenor-home-person-state-v1";
  rg_snapshot_domain := "larenor:home-person-visible-snapshot:v1";
  rg_visible_grants := true; rg_names_reader := false;
|}.

(** ** Contracts *)

Record HomeScope := { hs_coreId : string; hs_homeId : string }.
#[export] Instance HomeScope_eq_dec : EqDecision HomeScope.
Proof. solve_decision. Defined.
Record ResourceRef := { rf_scope : HomeScope; rf_kind : string; rf_id : string }.
#[export] Instance ResourceRef_eq_dec : EqDecision ResourceRef.
Proof. solve_decision. Defined.
Record Permissions := { pm_read : bool; pm_write : bool }.
#[export] Instance Permissions_eq_dec : EqDecision Permissions.
Proof. solve_decision. Defined.
Definition FULL : Permissions := {| pm_read := true; pm_write := true |}.
Definition NONE : Permissions := {| pm_read := false; pm_write := false |}.

Record GrantSnapshot := {
  gs_subjectId : string;
  gs_target : ResourceRef;
  gs_aclRevision : Z;
  gs_permissions : Permissions;
}.
Record ActorFacts := {
  af_userId : string;
  af_revision : Z;
  af_role : Role;
  af_disabled : bool;
  af_mustChangePassword : bool;
  af_sessionCurrent : bool;
}.
Record TargetFacts := {
  tf_ref : ResourceRef;
  tf_revision : Z;
  tf_aclRevision : Z;
  tf_active : bool;
}.
Record RegistryRecord := {
  rr_ref : ResourceRef;
  rr_revision : Z;
  rr_aclRevision : Z;
  rr_label : ustr;
  rr_order : Z;
  rr_permissions : Permissions;
}.

(** The payload that is encrypted: [StoredRecord] and [StoredPerson]. *)
Record StoredRecord := {
  sr_label : ustr;
  sr_order : Z;
  sr_grants : gmap string Permissions;
}.

Definition HomeScope_valid (s : HomeScope) : Prop := Identity (hs_coreId s) /\ Identity (hs_homeId s).
#[export] Instance HomeScope_valid_dec s : Decision (HomeScope_valid s).
Proof. unfold HomeScope_valid. apply _. Defined.
#[export] Instance HomeScope_model : Model HomeScope := {| model_valid := HomeScope_valid |}.

(** [write_needs_read] *)
Definition Permissions_valid (p : Permissions) : Prop := pm_write p = true -> pm_read p = true.
#[export] Instance Permissions_valid_dec p : Decision (Permissions_valid p).
Proof. unfold Permissions_valid. apply _. Defined.

Definition ActorFacts_valid (a : ActorFacts) : Prop := Identity (af_userId a) /\ Revision (af_revision a).
#[export] Instance ActorFacts_valid_dec a : Decision (ActorFacts_valid a).
Proof. unfold ActorFacts_valid. apply _. Defined.
#[export] Instance ActorFacts_model : Model ActorFacts := {| model_valid := ActorFacts_valid |}.

Section kinds.
Context `{Registry}.

Definition ResourceRef_valid (r : ResourceRef) : Prop :=
  HomeScope_valid (rf_scope r) /\ rf_kind r ∈ rg_kinds /\ Identity (rf_id r).
#[export] Instance ResourceRef_valid_dec r : Decision (ResourceRef_valid r).
Proof. unfold ResourceRef_valid. apply _. Defined.
#[export] Instance ResourceRef_model : Model ResourceRef := {| model_valid := ResourceRef_valid |}.

Definition GrantSnapshot_valid (g : GrantSnapshot) : Prop :=
  Identity (gs_subjectId g) /\ ResourceRef_valid (gs_target g) /\ Revision (gs_aclRevision g) /\
  Permissions_valid (gs_permissions g).
#[export] Instance GrantSnapshot_valid_dec g : Decision (GrantSnapshot_valid g).
Proof. unfold GrantSnapshot_valid. apply _. Defined.
#[export] Instance GrantSnapshot_model : Model GrantSnapshot := {| model_valid := GrantSnapshot_valid |}.

Definition TargetFacts_valid (t : TargetFacts) : Prop :=
  ResourceRef_valid (tf_ref t) /\ Revision (tf_revision t) /\ Revision (tf_aclRevision t).
#[export] Instance TargetFacts_valid_dec t : Decision (TargetFacts_valid t).
Proof. unfold TargetFacts_valid. apply _. Defined.
#[export] Instance TargetFacts_model : Model TargetFacts := {| model_valid := TargetFacts_valid |}.
End kinds.

(** ** Labels and payloads *)

Section labels.
Context `{UnicodeData}.

(** [LabelFields]: the bounds of the two fields, then [safe_label], which
    answers the label without its outer white space. *)
Definition LabelFields_validate (label : ustr) (order : Z) : res ustr :=
  _ ← raise_if (~ 1 <= Z.of_nat (length label) <= 80 \/ ~ 0 <= order <= 10000)
        (ValueError "validation_error");
  _ ← raise_if (Exists (fun c => is_control c \/ is_surrogate c = true) label) (ValueError "invalid_label");
  let value := str_strip label in
  _ ← raise_if (value = []) (ValueError "invalid_label");
  Ok value.

Context `{Registry}.
Definition grants_valid (g : gmap string Permissions) : Prop :=
  Z.of_nat (size g) <= MAX_GRANTS /\
  map_Forall (fun i p => Identity i /\ Permissions_valid p /\ (rg_visible_grants = true -> pm_read p = true)) g.
#[export] Instance grants_valid_dec g : Decision (grants_valid g).
Proof. unfold grants_valid. apply _. Defined.

Definition StoredRecord_validate (s : StoredRecord) : res StoredRecord :=
  label ← LabelFields_validate (sr_label s) (sr_order s);
  _ ← raise_if (~ grants_valid (sr_grants s)) (ValueError "validation_error");
  Ok {| sr_label := label; sr_order := sr_order s; sr_grants := sr_grants s |}.
End labels.

(** ** Bodies *)

Record CreateRecordRequest := { cb_label : ustr; cb_order : Z; cb_kind : string }.
Record UpdateRecordRequest := {
  ub_label : ustr;
  ub_order : Z;
  ub_expectedRevision : Z;
  ub_expectedAclRevision : Z;
}.
Record SetGrantRequest := { gb_expectedAclRevision : Z; gb_permissions : Permissions }.

Definition CreateRecord_validate `{UnicodeData, Registry} (b : CreateRecordRequest) : res CreateRecordRequest :=
  label ← LabelFields_validate (cb_label b) (cb_order b);
  _ ← raise_if (cb_kind b ∉ rg_kinds) (ValueError "validation_error");
  Ok {| cb_label := label; cb_order := cb_order b; cb_kind := cb_kind b |}.
Definition UpdateRecord_validate `{UnicodeData} (b : UpdateRecordRequest) : res UpdateRecordRequest :=
  label ← LabelFields_validate (ub_label b) (ub_order b);
  _ ← raise_if (~ Revision (ub_expectedRevision b) \/ ~ Revision (ub_expectedAclRevision b))
        (ValueError "validation_error");
  Ok {| ub_label := label; ub_order := ub_order b; ub_expectedRevision := ub_expectedRevision b;
        ub_expectedAclRevision := ub_expectedAclRevision b |}.
Definition SetGrant_validate (b : SetGrantRequest) : res SetGrantRequest :=
  _ ← raise_if (~ Revision (gb_expectedAclRevision b) \/ ~ Permissions_valid (gb_permissions b))
        (ValueError "validation_error");
  Ok b.

(** ** Decisions *)

Inductive access_code :=
  | Allowed
  | Cancelled
  | ScopeMismatch
  | ActorInvalid
  | TargetUnavailable
  | RevisionConflict
  | Forbidden.
#[export] Instance access_code_eq_dec : EqDecision access_code.
Proof. solve_decision. Defined.

(** What the caller expects of the facts it saw before. *)
Record expectations := {
  ex_user_revision : option Z;
  ex_revision : option Z;
  ex_acl_revision : option Z;
  ex_cancelled : bool;
}.
Definition nothing_expected : expectations :=
  {| ex_user_revision := None; ex_revision := None; ex_acl_revision := None; ex_cancelled := false |}.
(** The expectation, if any, is the current value. *)
Definition as_expected (expected : option Z) (actual : Z) : Prop :=
  match expected with None => True | Some n => n = actual end.
#[export] Instance as_expected_dec o n : Decision (as_expected o n).
Proof. destruct o; cbn; apply _. Defined.

(** [getattr(grant.permissions, action)] *)
Definition permits (action : string) (p : Permissions) : bool :=
  if decide (action = "read"%string) then pm_read p else pm_write p.

Section decisions.
Context `{Registry}.

(** [AccessDecision.code]; the decision is allowed when the code is. *)
Definition evaluate_access (scope : HomeScope) (actor : ActorFacts) (target : TargetFacts)
    (grant : option GrantSnapshot) (action : string) (ex : expectations) : res access_code :=
  scope ← model_validate (Shaped scope);
  actor ← model_validate (Shaped actor);
  target ← model_validate (Shaped target);
  grant ← match grant with
    | None => Ok None
    | Some g => Some <$> model_validate (Shaped g)
    end;
  _ ← raise_if (action ∉ ["read"; "write"]%string) (ValueError "invalid_access_request");
  _ ← raise_if (~ optional Revision (ex_user_revision ex) \/ ~ optional Revision (ex_revision ex) \/
                ~ optional Revision (ex_acl_revision ex)) (ValueError "invalid_revision");
  if decide ((hs_coreId scope, hs_homeId scope) <>
             (hs_coreId (rf_scope (tf_ref target)), hs_homeId (rf_scope (tf_ref target))))
  then Ok ScopeMismatch
  else if ex_cancelled ex then Ok Cancelled
  else if af_disabled actor || af_mustChangePassword actor || negb (af_sessionCurrent actor)
  then Ok ActorInvalid
  else if negb (tf_active target) then Ok TargetUnavailable
  else if decide (~ (as_expected (ex_user_revision ex) (af_revision actor) /\
                     as_expected (ex_revision ex) (tf_revision target) /\
                     as_expected (ex_acl_revision ex) (tf_aclRevision target)))
  then Ok RevisionConflict
  else if decide (af_role actor = Admin) then Ok Allowed
  else match grant with
    | None => Ok Forbidden
    | Some g =>
        if decide (gs_subjectId g <> af_userId actor \/ gs_target g <> tf_ref target \/
                   gs_aclRevision g <> tf_aclRevision target) then Ok Forbidden
        else Ok (if permits action (gs_permissions g) then Allowed else Forbidden)
    end.

(** Facts and expectations that [evaluate_access] accepts as such. *)
Definition access_request (scope : HomeScope) (actor : ActorFacts) (target : TargetFacts)
    (grant : option GrantSnapshot) (action : string) (ex : expectations) : Prop :=
  HomeScope_valid scope /\ ActorFacts_valid actor /\ TargetFacts_valid target /\
  optional GrantSnapshot_valid grant /\ action ∈ ["read"; "write"]%string /\
  optional Revision (ex_user_revision ex) /\ optional Revision (ex_revision ex) /\
  optional Revision (ex_acl_revision ex).
End decisions.

(** ** What a decision means *)

Section meaning.
Context `{Registry}.
Implicit Types (scope : HomeScope) (actor : ActorFacts) (target : TargetFacts).

(** The account may use its session. *)
Definition actor_live actor : Prop :=
  af_disabled actor = false /\ af_mustChangePassword actor = false /\ af_sessionCurrent actor = true.

(** The grant is the actor's, on this target, and not older than its list of
    grants; it permits the action. *)
Definition granted actor target (grant : option GrantSnapshot) (action : string) : Prop :=
  exists g, grant = Some g /\ gs_subjectId g = af_userId actor /\ gs_target g = tf_ref target /\
    gs_aclRevision g = tf_aclRevision target /\ permits action (gs_permissions g) = true.

Lemma evaluate_access_request scope actor target grant action ex code :
  evaluate_access scope actor target grant action ex = Ok code ->
  access_request scope actor target grant action ex.
Proof.
  intros E. unfold evaluate_access in E.
  repeat match type of E with (_ ≫= _) = Ok _ => apply bind_ok in E as (? & ? & E) end.
  clear E. repeat match goal with
  | E : model_validate (Shaped _) = Ok _ |- _ => apply model_validate_ok in E as [[= ->] ?]
  | E : raise_if _ _ = Ok _ |- _ => apply raise_if_ok in E
  end.
  unfold access_request. split_and!; try done; try (by apply dec_stable; tauto).
  destruct grant as [g|]; [|done].
  match goal with E : _ <$> model_validate _ = Ok _ |- _ => destruct (model_validate (Shaped g)) eqn:Eg in E end;
    [|done].
  by apply model_validate_ok in Eg as [[= ->] ?].
Qed.

(** The decision on arguments that are well formed. *)
Definition access_code_of scope actor target (grant : option GrantSnapshot) (action : string) (ex : expectations)
  : res access_code :=
  if decide ((hs_coreId scope, hs_homeId scope) <>
             (hs_coreId (rf_scope (tf_ref target)), hs_homeId (rf_scope (tf_ref target))))
  then Ok ScopeMismatch
  else if ex_cancelled ex then Ok Cancelled
  else if af_disabled actor || af_mustChangePassword actor || negb (af_sessionCurrent actor)
  then Ok ActorInvalid
  else if negb (tf_active target) then Ok TargetUnavailable
  else if decide (~ (as_expected (ex_user_revision ex) (af_revision actor) /\
                     as_expected (ex_revision ex) (tf_revision target) /\
                     as_expected (ex_acl_revision ex) (tf_aclRevision target)))
  then Ok RevisionConflict
  else if decide (af_role actor = Admin) then Ok Allowed
  else match grant with
    | None => Ok Forbidden
    | Some g =>
        if decide (gs_subjectId g <> af_userId actor \/ gs_target g <> tf_ref target \/
                   gs_aclRevision g <> tf_aclRevision target) then Ok Forbidden
        else Ok (if permits action (gs_permissions g) then Allowed else Forbidden)
    end.

Lemma evaluate_access_facts scope actor target grant action ex :
  HomeScope_valid scope -> ActorFacts_valid actor -> TargetFacts_valid target -> optional GrantSnapshot_valid grant ->
  evaluate_access scope actor target grant action ex =
  (_ ← raise_if (action ∉ ["read"; "write"]%string) (ValueError "invalid_access_request");
   _ ← raise_if (~ optional Revision (ex_user_revision ex) \/ ~ optional Revision (ex_revision ex) \/
                 ~ optional Revision (ex_acl_revision ex)) (ValueError "invalid_revision");
   access_code_of scope actor target grant action ex).
Proof.
  intros Hs Ha Ht Hg. unfold evaluate_access.
  assert (model_validate (Shaped scope) = Ok scope) as -> by (by apply model_validate_valid).
  assert (model_validate (Shaped actor) = Ok actor) as -> by (by apply model_validate_valid).
  assert (model_validate (Shaped target) = Ok target) as -> by (by apply model_validate_valid).
  cbn [mbind res_bind].
  assert (match grant with None => Ok None | Some g => Some <$> model_validate (Shaped g) end
          = Ok grant) as ->; [|done].
  destruct grant as [g|]; [|done].
  assert (model_validate (Shaped g) = Ok g) as -> by (by apply model_validate_valid). done.
Qed.

Lemma evaluate_access_checked scope actor target grant action ex :
  access_request scope actor target grant action ex ->
  evaluate_access scope actor target grant action ex = access_code_of scope actor target grant action ex.
Proof.
  intros (Hs & Ha & Ht & Hg & Hx & Hu & Hr & Hc). rewrite evaluate_access_facts by done.
  rewrite raise_if_no by (intros ?; tauto). cbn [mbind res_bind].
  by rewrite raise_if_no by tauto.
Qed.

Lemma evaluate_access_total scope actor target grant action ex :
  access_request scope actor target grant action ex ->
  exists code, evaluate_access scope actor target grant action ex = Ok code.
Proof.
  intros E. rewrite (evaluate_access_checked _ _ _ _ _ _ E). unfold access_code_of.
  repeat case_match; try (by eexists).
Qed.

Lemma scope_same scope target :
  (hs_coreId scope, hs_homeId scope) =
  (hs_coreId (rf_scope (tf_ref target)), hs_homeId (rf_scope (tf_ref target))) <->
  scope = rf_scope (tf_ref target).
Proof. destruct scope, (rf_scope (tf_ref target)). cbn. naive_solver. Qed.

(** What the facts must be for a decision to allow. *)
Definition allowing scope actor target grant (action : string) (ex : expectations) : Prop :=
  scope = rf_scope (tf_ref target) /\ ex_cancelled ex = false /\ actor_live actor /\
  tf_active target = true /\
  as_expected (ex_user_revision ex) (af_revision actor) /\
  as_expected (ex_revision ex) (tf_revision target) /\
  as_expected (ex_acl_revision ex) (tf_aclRevision target) /\
  (af_role actor = Admin \/ granted actor target grant action).

Lemma evaluate_access_allows scope actor target grant action ex :
  access_request scope actor target grant action ex ->
  evaluate_access scope actor target grant action ex = Ok Allowed <->
  allowing scope actor target grant action ex.
Proof.
  intros Hr. rewrite (evaluate_access_checked _ _ _ _ _ _ Hr).
  unfold access_code_of, allowing.
  rewrite <- scope_same. unfold actor_live, granted.
  case_decide as E1; [split; [done|tauto]|].
  destruct (ex_cancelled ex); [split; [done|naive_solver]|].
  destruct (af_disabled actor); cbn [orb]; [split; [done|naive_solver]|].
  destruct (af_mustChangePassword actor); cbn [orb]; [split; [done|naive_solver]|].
  destruct (af_sessionCurrent actor); cbn [negb]; [|split; [done|naive_solver]].
  destruct (tf_active target); cbn [negb]; [|split; [done|naive_solver]].
  case_decide as E2; [split; [done|tauto]|].
  case_decide as E3; [split; [tauto|done]|].
  destruct grant as [g|]; [|split; [done|naive_solver]].
  case_decide as E4; [split; [done|naive_solver]|].
  apply Decidable.not_or in E4 as [E41%dec_stable [E42%dec_stable E43%dec_stable]%Decidable.not_or].
  destruct (permits action (gs_permissions g)) eqn:E5.
  - split; [intros _|done]. destruct E2 as (? & ? & ?). split_and!; try done. right. by exists g.
  - split; [done|]. intros (_ & _ & _ & _ & _ & _ & _ & [?|(g' & [= <-] & _ & _ & _ & ?)]); congruence.
Qed.

(** An access is allowed only on current facts.  The decision is [allowed]
    exactly when the arguments are well formed, the home is the registry's,
    the request is not cancelled, the account is enabled, has its own password
    and a current session, the record is active, every revision that the caller
    names is the present one, and the account is an administrator's or holds a
    grant on this very record, of the present list of grants, that permits the
    action. *)
Theorem access_allowed_iff scope actor target grant action ex :
  evaluate_access scope actor target grant action ex = Ok Allowed <->
  access_request scope actor target grant action ex /\ allowing scope actor target grant action ex.
Proof.
  split.
  - intros E. pose proof (evaluate_access_request _ _ _ _ _ _ _ E) as Hr.
    split; [done|]. by apply evaluate_access_allows in E.
  - intros [Hr Ha]. by apply evaluate_access_allows.
Qed.

(** Whoever may write may read. *)
Lemma permits_read action p : Permissions_valid p -> permits action p = true -> pm_read p = true.
Proof. unfold permits. intros Hp. case_decide; [done|]. apply Hp. Qed.
End meaning.

(** ** Labels *)

Section label_facts.
Context `{UnicodeData}.

(** A label that was accepted is accepted again as it is. *)
Lemma LabelFields_again label order l :
  LabelFields_validate label order = Ok l -> LabelFields_validate l order = Ok l.
Proof.
  unfold LabelFields_validate. intros E. inv_ok.
  match goal with H1 : ~ (_ \/ _), H2 : ~ Exists _ _, H3 : str_strip _ <> [] |- _ =>
    rename H1 into Hb, H2 into Hc, H3 into Hne end.
  destruct (str_strip_sub label) as (a & b & Hs).
  rewrite str_strip_idem.
  apply bind_ok. exists tt. split.
  { apply raise_if_no. destruct (str_strip label) as [|c l'] eqn:El; [done|].
    rewrite Hs, !length_app in Hb. cbn [length] in *. lia. }
  apply bind_ok. exists tt. split.
  { apply raise_if_no. intros Hx. apply Hc. rewrite Hs, !Exists_app. tauto. }
  apply bind_ok. exists tt. split; [by apply raise_if_no|done].
Qed.

Context `{Registry}.
Lemma StoredRecord_again s t : StoredRecord_validate s = Ok t -> StoredRecord_validate t = Ok t.
Proof.
  unfold StoredRecord_validate. intros E. inv_ok. cbn.
  match goal with E : LabelFields_validate _ _ = Ok _ |- _ => rewrite (LabelFields_again _ _ _ E) end.
  cbn. rewrite raise_if_no by tauto. done.
Qed.
End label_facts.
