(* ===== verification/HomeRegistry.v ===== *)
(** * Household records: the encrypted registry

    [HomeResourceRegistry] of [server/larenor_server/home_resources/service.py] and
    [HomePeopleRegistry] of [home_people/service.py], with the tables of their
    [schema.py]: rooms, resources and household profiles, each with its label
    and the grants of accounts on it, encrypted in a row whose identity, kind
    and revisions are authenticated with it; one sealed row counts the records
    and grants, and every writing leaves an audit row whether it succeeds or
    not.

    The two classes run the same statements, so every operation is defined
    once over [Registry]; where one of them has an operation of its own, it is
    marked.  AES-GCM, the two HMACs and pydantic's JSON printer and parser are
    parameters; bytes are lists of integers.  A transaction sees the account
    tables and any other table of the database ([Rest]), since the other
    components run their own writing inside [perform_authorized]. *)

From stdpp Require Import gmap pretty.
From S2P Require Import Prelude Auth HomeAccess.

(** ** Tables *)

Record record_row := {
  hr_id : string;
  hr_kind : string;
  hr_revision : Z;
  hr_acl_revision : Z;
  hr_nonce : list Z;
  hr_ciphertext : list Z;
}.
Record state_row := {
  hs_revision : Z;
  hs_record_count : Z;
  hs_grant_count : Z;
  hs_authentication_tag : string;
}.
Record audit_row := {
  ha_sequence : Z;
  ha_action : string;
  ha_denied : bool;
  ha_actor_id : string;
  ha_target_id : string;
  ha_created_at : Z;
}.

(** The tables of the registry; the state table has [singleton] as its key, and
    [hd_sequence] is the last value that AUTOINCREMENT gave out. *)
Record registry_db := {
  hd_records : list record_row;
  hd_state : option state_row;
  hd_audit : list audit_row;
  hd_sequence : Z;
}.

(** [core_context] and the row of [metadata] for [schema_version]. *)
Record context_row := {
  cr_singleton : Z;
  cr_schema_version : Z;
  cr_core_id : string;
  cr_home_id : string;
  cr_authentication_tag : string;
}.
Record registry_world {Rest : Type} := {
  hw_auth : auth_db;
  hw_context : list context_row;
  hw_schema : option string;
  hw_registry : registry_db;
  hw_rest : Rest;
}.
Arguments registry_world : clear implicits.

(** What one call reads: the clock, an identity of [uuid4] and a nonce. *)
Record registry_env := {
  he_auth : AuthEnv;
  he_uuid : string;
  he_nonce : list Z;
}.

Record ListAnswer := {
  la_scope : HomeScope;
  la_userRevision : option Z;
  la_entries : list RegistryRecord;
  la_snapshot : string;
  la_nextAfter : option string;
}.
Record GrantsAnswer := { ga_aclRevision : Z; ga_grants : list GrantSnapshot }.

Definition server_unavailable : exn := ApiError "server_unavailable" 503.
Definition revision_conflict : exn := ApiError "revision_conflict" 409.
Definition not_found : exn := ApiError "not_found" 404.

(** [except (InvalidTag, ValueError, TypeError, sqlite3.Error, OverflowError)] *)
Definition storage_exn (e : exn) : bool :=
  match e with
  | ValueError _ | IntegrityError => true
  | PyError name => bool_decide (name ∈ ["InvalidTag"; "TypeError"; "OverflowError"]%string)
  | _ => false
  end.
Definition storage_guard {S A} (m : M S A) : M S A := fun s =>
  match m s with
  | (Raise e, s') => (Raise (if storage_exn e then server_unavailable else e), s')
  | x => x
  end.

(** Rows in the order of their identity. *)
Definition row_le (a b : record_row) : Prop := str_le (hr_id a) (hr_id b).
#[export] Instance row_le_dec a b : Decision (row_le a b).
Proof. unfold row_le. apply _. Defined.

(** [_id], [_revision] and [_next] *)
Definition id_ (value : string) : res unit := raise_if (~ Identity value) (ApiError "invalid_request" 400).
Definition revision_ (value : Z) : res unit := raise_if (~ Revision value) (ApiError "invalid_request" 400).
Definition next_ (value : Z) : res Z := _ ← raise_if (value >= MAX_REVISION) revision_conflict; Ok (value + 1).

(** A row with a key of its own, apart from the others. *)
Lemma split_unique {A K} (f : A -> K) (l : list A) x :
  NoDup (f <$> l) -> x ∈ l ->
  exists l1 l2, l = l1 ++ x :: l2 /\ Forall (fun y => f y <> f x) l1 /\ Forall (fun y => f y <> f x) l2.
Proof.
  intros Hn Hx. apply list_elem_of_split in Hx as (l1 & l2 & ->). exists l1, l2. split; [done|].
  rewrite fmap_app, fmap_cons in Hn. apply NoDup_app in Hn as (_ & H1 & [H2 _]%NoDup_cons).
  split; apply Forall_forall; intros y Hy E.
  - apply (H1 (f y)); [by apply list_elem_of_fmap_2|]. rewrite E. left.
  - apply H2. rewrite <- E. by apply list_elem_of_fmap_2.
Qed.

Lemma sql_update_none {A} (P : A -> Prop) `{!forall x, Decision (P x)} g (l : list A) :
  Forall (fun y => ~ P y) l -> sql_update P g l = l.
Proof.
  unfold sql_update. induction 1 as [|y l Hy _ IH]; cbn; [done|]. by rewrite decide_False, IH.
Qed.

Lemma sql_update_split {A} (P : A -> Prop) `{!forall x, Decision (P x)} g (l1 l2 : list A) x :
  Forall (fun y => ~ P y) l1 -> Forall (fun y => ~ P y) l2 -> P x ->
  sql_update P g (l1 ++ x :: l2) = l1 ++ g x :: l2.
Proof.
  intros H1 H2 Hx. pose proof (sql_update_none P g l1 H1) as E1. pose proof (sql_update_none P g l2 H2) as E2.
  unfold sql_update in *. rewrite fmap_app, fmap_cons, E1, E2. by rewrite decide_True.
Qed.

Lemma sql_delete_split {A} (P : A -> Prop) `{!forall x, Decision (P x)} (l1 l2 : list A) x :
  Forall (fun y => ~ P y) l1 -> Forall (fun y => ~ P y) l2 -> P x -> sql_delete P (l1 ++ x :: l2) = l1 ++ l2.
Proof.
  intros H1 H2 Hx. unfold sql_delete. rewrite filter_app, filter_cons, decide_False by tauto.
  rewrite !filter_all; [done|..]; by apply Forall_forall.
Qed.

Section registry.
Context `{UnicodeData, Registry}.
Variable rate_key : string -> list Z -> string.
(** [hmac.new(key, domain + b'\0' + json.dumps([...]), sha256)] of the state row,
    [_authentication_tag] of the home, and the HMAC over the texts that [list]
    binds, each after its length. *)
Variable state_hmac : string -> jval -> string.
Variable context_hmac : string -> string -> string.
Variable visible_hmac : string -> list jval -> string.
(** [AESGCM(key).encrypt(nonce, raw, aad)] and [decrypt], [None] for [InvalidTag]. *)
Variable gcm_encrypt : list Z -> list Z -> string -> list Z.
Variable gcm_decrypt : list Z -> list Z -> string -> option (list Z).
(** [model_dump_json().encode('utf-8')], and the reading of [model_validate_json]
    before the checks of the fields. *)
Variable dump_json : StoredRecord -> list Z.
Variable read_json : list Z -> raw StoredRecord.
(** [HomeScope.model_validate(context.model_dump())] *)
Variable scope : HomeScope.
Context {Rest : Type}.
Local Notation world := (registry_world Rest).
Implicit Types (w : world) (d : registry_db).

Definition set_registry d w : world :=
  {| hw_auth := hw_auth w; hw_context := hw_context w; hw_schema := hw_schema w;
     hw_registry := d; hw_rest := hw_rest w |}.
Definition set_records (l : list record_row) d : registry_db :=
  {| hd_records := l; hd_state := hd_state d; hd_audit := hd_audit d; hd_sequence := hd_sequence d |}.
Definition set_state (s : state_row) d : registry_db :=
  {| hd_records := hd_records d; hd_state := Some s; hd_audit := hd_audit d; hd_sequence := hd_sequence d |}.
Definition on_accounts {A} (m : M auth_db A) : M world A := fun w =>
  let '(r, a) := m (hw_auth w) in
  (r, {| hw_auth := a; hw_context := hw_context w; hw_schema := hw_schema w;
         hw_registry := hw_registry w; hw_rest := hw_rest w |}).
Definition on_tables {A} (m : M registry_db A) : M world A := fun w =>
  let '(r, d) := m (hw_registry w) in (r, set_registry d w).

(** [_check_context] *)
Definition check_context w (core_id home_id : string) : res unit :=
  _ ← id_ core_id;
  _ ← id_ home_id;
  _ ← raise_if ((core_id, home_id) <> (hs_coreId scope, hs_homeId scope)) not_found;
  match hw_context w with
  | [row] =>
      raise_if (hw_schema w <> Some "3"%string \/ cr_singleton row <> 1 \/ cr_schema_version row <> 1 \/
                (cr_core_id row, cr_home_id row) <> (core_id, home_id) \/
                cr_authentication_tag row <> context_hmac (hs_coreId scope) (hs_homeId scope))
        server_unavailable
  | _ => Raise server_unavailable
  end.

(** ** The sealed row *)

(** [state_tag] *)
Definition state_tag (revision records grants : Z) : string :=
  state_hmac rg_state_domain
    (JList [JStr (hs_coreId scope); JStr (hs_homeId scope); JInt revision; JInt records; JInt grants]).

(** [_state] *)
Definition state_ d : res state_row :=
  r ← require_some (hd_state d) (ValueError "invalid_state");
  _ ← raise_if (~ Revision (hs_revision r)) (ValueError "invalid_state");
  _ ← raise_if (~ 0 <= hs_record_count r <= MAX_RECORDS) (ValueError "invalid_state");
  _ ← raise_if (~ 0 <= hs_grant_count r <= MAX_TOTAL_GRANTS) (ValueError "invalid_state");
  _ ← raise_if (hs_authentication_tag r <> state_tag (hs_revision r) (hs_record_count r) (hs_grant_count r))
        (ValueError "invalid_state");
  Ok r.

(** [_bump] *)
Definition bump (records grants : Z) : M registry_db unit :=
  d ← get_state;
  old ← lift (state_ d);
  revision ← lift (next_ (hs_revision old));
  let nr := hs_record_count old + records in
  let ng := hs_grant_count old + grants in
  _ ← lift (raise_if (~ 0 <= nr <= MAX_RECORDS \/ ~ 0 <= ng <= MAX_TOTAL_GRANTS) revision_conflict);
  put_state (set_state {| hs_revision := revision; hs_record_count := nr; hs_grant_count := ng;
                          hs_authentication_tag := state_tag revision nr ng |} d).

(** ** The encrypted rows *)

(** [_aad] *)
Definition aad (id kind : string) (revision acl_revision : Z) : string :=
  (rg_record_domain +:+ ":" +:+ hs_coreId scope +:+ ":" +:+ hs_homeId scope +:+ ":" +:+ id +:+ ":" +:+ kind +:+
   ":" +:+ pretty revision +:+ ":" +:+ pretty acl_revision)%string.

Definition ref_of (id kind : string) : ResourceRef := {| rf_scope := scope; rf_kind := kind; rf_id := id |}.

(** [_decode] *)
Definition decode_row (row : record_row) : res (ResourceRef * StoredRecord) :=
  _ ← match (_ ← id_ (hr_id row); _ ← revision_ (hr_revision row); revision_ (hr_acl_revision row)) with
      | Raise _ => Raise (ValueError "invalid_storage")
      | Ok _ => Ok tt
      end;
  ref ← model_validate (Shaped (ref_of (hr_id row) (hr_kind row)));
  _ ← raise_if (length (hr_nonce row) <> 12%nat \/ ~ 16 <= Z.of_nat (length (hr_ciphertext row)) <= 32768)
        (ValueError "invalid_storage");
  plain ← require_some (gcm_decrypt (hr_nonce row) (hr_ciphertext row)
            (aad (hr_id row) (hr_kind row) (hr_revision row) (hr_acl_revision row))) (PyError "InvalidTag");
  data ← match read_json plain with
    | Shaped s => StoredRecord_validate s
    | Malformed => Raise (ValueError "validation_error")
    end;
  _ ← raise_if (Z.of_nat (size (sr_grants data)) > MAX_GRANTS \/
                ~ map_Forall (fun _ p => pm_read p = true) (sr_grants data)) (ValueError "invalid_grants");
  Ok (ref, data).

(** [INSERT ... ON CONFLICT(id) DO UPDATE]; the kind of a row never changes. *)
Definition upsert_row (row : record_row) (l : list record_row) : res (list record_row) :=
  _ ← raise_if (hr_kind row ∉ rg_kinds \/ hr_revision row <= 0 \/ hr_acl_revision row <= 0) IntegrityError;
  Ok (match sql_one (fun r => hr_id r = hr_id row) l with
      | Some _ => sql_update (fun r => hr_id r = hr_id row)
          (fun r => {| hr_id := hr_id r; hr_kind := hr_kind r; hr_revision := hr_revision row;
                       hr_acl_revision := hr_acl_revision row; hr_nonce := hr_nonce row;
                       hr_ciphertext := hr_ciphertext row |}) l
      | None => l ++ [row]
      end).

(** [_save] *)
Definition save (e : registry_env) (id kind : string) (revision acl_revision : Z) (data : StoredRecord)
  : M registry_db unit :=
  data ← lift (StoredRecord_validate data);
  let plain := dump_json data in
  _ ← lift (raise_if (Z.of_nat (length plain) > 32752) (ApiError "invalid_request" 400));
  d ← get_state;
  l ← lift (upsert_row {| hr_id := id; hr_kind := kind; hr_revision := revision;
                          hr_acl_revision := acl_revision; hr_nonce := he_nonce e;
                          hr_ciphertext := gcm_encrypt (he_nonce e) plain (aad id kind revision acl_revision) |}
               (hd_records d));
  put_state (set_records l d).

(** ** Transactions *)

Definition newest_first (a b : audit_row) : Prop := ha_sequence b <= ha_sequence a.
#[local] Instance newest_first_dec a b : Decision (newest_first a b).
Proof. unfold newest_first. apply _. Defined.

(** The audit row, and the rows beyond the newest [MAX_AUDIT] deleted. *)
Definition audit_action (action : string) (denied : bool) (actor_id target_id : string) (now : Z) d : registry_db :=
  let seq := hd_sequence d + 1 in
  let l := hd_audit d ++ [{| ha_sequence := seq; ha_action := action; ha_denied := denied;
                             ha_actor_id := actor_id; ha_target_id := target_id; ha_created_at := now |}] in
  let old := ha_sequence <$> drop MAX_AUDIT (py_sorted newest_first l) in
  {| hd_records := hd_records d; hd_state := hd_state d;
     hd_audit := sql_delete (fun r => ha_sequence r ∈ old) l; hd_sequence := seq |}.

Definition user_facts (x : user_row) : ActorFacts :=
  {| af_userId := u_id x; af_revision := u_revision x; af_role := u_role x; af_disabled := u_disabled x;
     af_mustChangePassword := u_must_change x; af_sessionCurrent := true |}.

(** The checks of [_transaction] before the savepoint. *)
Definition admission (now : Z) (actor : Principal) (core_id home_id : string) (admin : bool) w : res ActorFacts :=
  _ ← assert_current now (hw_auth w) actor;
  _ ← raise_if (p_must_change_password actor = true) (ApiError "password_change_required" 403);
  _ ← check_context w core_id home_id;
  row ← require_some (sql_one (fun x => u_id x = p_id actor) (users (hw_auth w))) (PyError "TypeError");
  facts ← model_validate (Shaped (user_facts row));
  _ ← raise_if (admin = true /\ af_role facts <> Admin) (ApiError "forbidden" 403);
  _ ← state_ (hw_registry w);
  Ok facts.

(** [_transaction]; [action] is the name and the target of a writing. *)
Definition registry_transaction (e : registry_env) (actor : Principal) (core_id home_id : string)
    (admin consume : bool) (action : option (string * string)) {A} (body : ActorFacts -> M world A)
  : M world A :=
  _ ← (if consume
       then on_accounts (rate_limit rate_key (he_auth e)
              [(match action with Some _ => rg_write_category | None => rg_read_category end,
                u (p_id actor), 120)])
       else mret tt);
  storage_guard (
    outcome ← transaction (
      w ← get_state;
      facts ← lift (admission (clock (he_auth e) 1) actor core_id home_id admin w);
      outcome ← savepoint (body facts);
      _ ← match action with
          | Some (name, target) =>
              on_tables (modify (audit_action name (negb (is_ok outcome)) (p_id actor) target
                                   (clock (he_auth e) 2)))
          | None => mret tt
          end;
      mret outcome);
    lift outcome).

(** [_target] *)
Definition target (record_id : string) d : res (record_row * ResourceRef * StoredRecord) :=
  _ ← id_ record_id;
  row ← require_some (sql_one (fun r => hr_id r = record_id) (hd_records d)) not_found;
  '(ref, data) ← decode_row row;
  Ok (row, ref, data).

(** [_decision] *)
Definition decision (actor : ActorFacts) (row : record_row) (ref : ResourceRef) (data : StoredRecord)
    (action : string) (ex : expectations) : res access_code :=
  grant ← match sr_grants data !! af_userId actor with
    | None => Ok None
    | Some p => Some <$> model_validate (Shaped
        {| gs_subjectId := af_userId actor; gs_target := ref; gs_aclRevision := hr_acl_revision row;
           gs_permissions := p |})
    end;
  evaluate_access scope actor
    {| tf_ref := ref; tf_revision := hr_revision row; tf_aclRevision := hr_acl_revision row; tf_active := true |}
    grant action ex.

(** [_require] *)
Definition require (actor : ActorFacts) (row : record_row) (ref : ResourceRef) (data : StoredRecord)
    (action : string) (ex : expectations) : res unit :=
  visible ← decision actor row ref data "read" nothing_expected;
  _ ← raise_if (visible <> Allowed) not_found;
  code ← decision actor row ref data action ex;
  if decide (code = Allowed) then Ok tt
  else if decide (code = RevisionConflict) then Raise revision_conflict
  else Raise (ApiError "forbidden" 403).

Definition RegistryRecord_valid (r : RegistryRecord) : res RegistryRecord :=
  label ← LabelFields_validate (rr_label r) (rr_order r);
  _ ← raise_if (~ ResourceRef_valid (rr_ref r) \/ ~ Revision (rr_revision r) \/ ~ Revision (rr_aclRevision r) \/
                ~ Permissions_valid (rr_permissions r)) (ValueError "validation_error");
  Ok {| rr_ref := rr_ref r; rr_revision := rr_revision r; rr_aclRevision := rr_aclRevision r;
        rr_label := label; rr_order := rr_order r; rr_permissions := rr_permissions r |}.

(** [_public] *)
Definition public (actor : ActorFacts) (ref : ResourceRef) (revision acl_revision : Z) (data : StoredRecord)
  : res RegistryRecord :=
  RegistryRecord_valid
    {| rr_ref := ref; rr_revision := revision; rr_aclRevision := acl_revision; rr_label := sr_label data;
       rr_order := sr_order data;
       rr_permissions := if decide (af_role actor = Admin) then FULL
                         else default NONE (sr_grants data !! af_userId actor) |}.

(** ** Reading *)

(** The body of the loop of [_validated_ids] and of [validate_storage]. *)
Definition count_row (acc : Z * Z * list string) (row : record_row) : res (Z * Z * list string) :=
  let '(records, grants, ids) := acc in
  _ ← raise_if (records + 1 > MAX_RECORDS) (ValueError "");
  '(ref, data) ← decode_row row;
  Ok (records + 1, grants + Z.of_nat (size (sr_grants data)), rf_id ref :: ids).

(** [_validated_ids]; a set is the list of its members. *)
Definition validated_ids w : res (list string) :=
  let d := hw_registry w in
  _ ← check_context w (hs_coreId scope) (hs_homeId scope);
  state ← state_ d;
  '(records, grants, ids) ← fold_res count_row (0, 0, []) (take (Z.to_nat (MAX_RECORDS + 1)) (hd_records d));
  _ ← raise_if ((records, grants) <> (hs_record_count state, hs_grant_count state)) (ValueError "");
  _ ← raise_if ((MAX_AUDIT < length (hd_audit d))%nat) (ValueError "");
  Ok ids.

(** [validate_storage] *)
Definition validate_storage w : res unit :=
  except_any (_ ← validated_ids w; Ok tt) (StartupError "storage_invalid").

(** [validate_reference], of [home_resources] *)
Definition validate_reference w (record_id expected_kind missing : string) : res unit :=
  _ ← raise_if (expected_kind ∉ ["room"; "resource"]%string \/
                missing ∉ ["invalid_request"; "not_found"]%string) (ApiError "invalid_request" 400);
  let absent := ApiError missing (if decide (missing = "not_found"%string) then 404 else 400) in
  _ ← check_context w (hs_coreId scope) (hs_homeId scope);
  _ ← state_ (hw_registry w);
  '(_, ref, _) ← match target record_id (hw_registry w) with
    | Raise (ApiError code status) =>
        Raise (if decide (code = "not_found"%string) then absent else ApiError code status)
    | r => r
    end;
  raise_if (rf_kind ref <> expected_kind) absent.

(** The JSON values that [list] binds. *)
Definition scope_json (s : HomeScope) : list (string * jval) :=
  [("coreId", JStr (hs_coreId s)); ("homeId", JStr (hs_homeId s)); ("schemaVersion", JInt 1)]%string.
Definition reader_json (facts : ActorFacts) : jval :=
  JObj [("scope", JObj (scope_json scope)); ("userId", JStr (af_userId facts));
        ("userRevision", JInt (af_revision facts))]%string.
Definition public_json (r : RegistryRecord) : jval :=
  JObj [("aclRevision", JInt (rr_aclRevision r)); ("label", JText (rr_label r)); ("order", JInt (rr_order r));
        ("permissions", JObj [("read", JBool (pm_read (rr_permissions r)));
                              ("write", JBool (pm_write (rr_permissions r)))]);
        ("ref", JObj [("coreId", JStr (hs_coreId (rf_scope (rr_ref r))));
                      ("homeId", JStr (hs_homeId (rf_scope (rr_ref r)))); ("id", JStr (rf_id (rr_ref r)));
                      ("kind", JStr (rf_kind (rr_ref r))); ("schemaVersion", JInt 1)]);
        ("revision", JInt (rr_revision r))]%string.

(** The variables of the loop of [list]. *)
Record listing := {
  ls_bound : list jval;
  ls_entries : list RegistryRecord;
  ls_records : Z;
  ls_grants : Z;
  ls_cursor_visible : bool;
}.

(** [value > (after or '')] *)
Definition id_after (after : option string) (id : string) : Prop :=
  match after with Some a => str_le a id /\ a <> id | None => id <> ""%string end.
#[local] Instance id_after_dec after id : Decision (id_after after id).
Proof. unfold id_after. destruct after; apply _. Defined.

Definition list_row (facts : ActorFacts) (after : option string) (limit : Z) (acc : listing) (row : record_row)
  : res listing :=
  let records := ls_records acc + 1 in
  _ ← raise_if (records > MAX_RECORDS) (ValueError "invalid_storage");
  '(ref, data) ← decode_row row;
  let grants := ls_grants acc + Z.of_nat (size (sr_grants data)) in
  code ← decision facts row ref data "read" nothing_expected;
  if decide (code = Allowed) then
    shown ← public facts ref (hr_revision row) (hr_acl_revision row) data;
    Ok {| ls_bound := ls_bound acc ++ [public_json shown];
          ls_entries := if decide (id_after after (hr_id row) /\ Z.of_nat (length (ls_entries acc)) <= limit)
                        then ls_entries acc ++ [shown] else ls_entries acc;
          ls_records := records; ls_grants := grants;
          ls_cursor_visible := ls_cursor_visible acc || bool_decide (Some (hr_id row) = after) |}
  else Ok {| ls_bound := ls_bound acc; ls_entries := ls_entries acc; ls_records := records;
             ls_grants := grants; ls_cursor_visible := ls_cursor_visible acc |}.

(** The body of [list] inside its transaction. *)
Definition list_body (facts : ActorFacts) (after expected_snapshot : option string) (limit : Z) d
  : res ListAnswer :=
  state ← state_ d;
  acc ← fold_res (list_row facts after limit)
          {| ls_bound := [reader_json facts]; ls_entries := []; ls_records := 0; ls_grants := 0;
             ls_cursor_visible := bool_decide (after = None) |}
          (take (Z.to_nat (MAX_RECORDS + 1)) (py_sorted row_le (hd_records d)));
  _ ← raise_if ((ls_records acc, ls_grants acc) <> (hs_record_count state, hs_grant_count state))
        (ValueError "invalid_storage");
  let snapshot := visible_hmac rg_snapshot_domain (ls_bound acc) in
  _ ← raise_if (~ optional (fun s => s = snapshot) expected_snapshot) revision_conflict;
  _ ← raise_if (ls_cursor_visible acc = false) not_found;
  next ← (if decide (Z.of_nat (length (ls_entries acc)) > limit)
          then (x ← require_some (ls_entries acc !! Z.to_nat (limit - 1)) (PyError "IndexError");
                Ok (Some (rf_id (rr_ref x))))
          else Ok None);
  Ok {| la_scope := scope; la_userRevision := if rg_names_reader then Some (af_revision facts) else None;
        la_entries := take (Z.to_nat limit) (ls_entries acc); la_snapshot := snapshot; la_nextAfter := next |}.

(** A reading inside the transaction. *)
Definition read_tables {A} (f : registry_db -> res A) : M world A :=
  w ← get_state; lift (f (hw_registry w)).

(** [list] *)
Definition list_records (e : registry_env) (actor : Principal) (core_id home_id : string)
    (after expected_snapshot : option string) (limit : Z) : M world ListAnswer :=
  _ ← lift (raise_if (~ 1 <= limit <= 100 \/ (after <> None /\ expected_snapshot = None))
              (ApiError "invalid_request" 400));
  _ ← lift (match after with Some a => id_ a | None => Ok tt end);
  _ ← lift (raise_if (~ optional Snapshot expected_snapshot) (ApiError "invalid_request" 400));
  registry_transaction e actor core_id home_id false true None
    (fun facts => read_tables (list_body facts after expected_snapshot limit)).

(** [get] *)
Definition get (e : registry_env) (actor : Principal) (core_id home_id record_id : string)
  : M world RegistryRecord :=
  registry_transaction e actor core_id home_id false true None (fun facts => read_tables (fun d =>
    '(row, ref, data) ← target record_id d;
    _ ← require facts row ref data "read" nothing_expected;
    public facts ref (hr_revision row) (hr_acl_revision row) data)).

(** The check of a named record inside a transaction. *)
Definition authority_check (facts : ActorFacts) (record_id action : string) (ex : expectations) d : res unit :=
  '(row, ref, data) ← target record_id d;
  require facts row ref data action ex.

(** [_authorize]: [authorize] consumes the rate limit, [reauthorize] does not. *)
Definition authorize (consume : bool) (e : registry_env) (actor : Principal)
    (core_id home_id record_id action : string) (ex : expectations) : M world unit :=
  registry_transaction e actor core_id home_id false consume None
    (fun facts => read_tables (authority_check facts record_id action ex)).

(** [perform_authorized], of [home_resources] *)
Definition perform_authorized (e : registry_env) (actor : Principal) (core_id home_id record_id action : string)
    {A} (callback : ActorFacts -> M world A)
    (expected_revision expected_acl_revision expected_user_revision : option Z) : M world A :=
  _ ← lift (raise_if (action ∉ ["read"; "write"]%string) (ApiError "invalid_request" 400));
  registry_transaction e actor core_id home_id false false None (fun facts =>
    _ ← read_tables (authority_check facts record_id action
          {| ex_user_revision := expected_user_revision; ex_revision := expected_revision;
             ex_acl_revision := expected_acl_revision; ex_cancelled := false |});
    callback facts).

(** [authorize_connection], of [home_people]: the caller's own transaction, and
    no session to check. *)
Definition authorize_connection (actor : Principal) (record_id action : string)
    (expected_revision expected_acl_revision : option Z) w : res unit :=
  user ← require_some (sql_one (fun x => u_id x = p_id actor) (users (hw_auth w))) (ApiError "invalid_session" 401);
  _ ← raise_if (u_disabled user = true \/ u_must_change user = true) (ApiError "invalid_session" 401);
  facts ← model_validate (Shaped
    {| af_userId := u_id user; af_revision := u_revision user; af_role := u_role user; af_disabled := false;
       af_mustChangePassword := false; af_sessionCurrent := true |});
  authority_check facts record_id action
    {| ex_user_revision := None; ex_revision := expected_revision; ex_acl_revision := expected_acl_revision;
       ex_cancelled := false |} (hw_registry w).

(** ** Writing *)

(** [create]; a profile's body has no kind, its kind is [person]. *)
Definition create (e : registry_env) (actor : Principal) (core_id home_id : string) (body : raw CreateRecordRequest)
  : M world RegistryRecord :=
  body ← lift (match body with Shaped b => CreateRecord_validate b | Malformed => Raise (ValueError "") end);
  registry_transaction e actor core_id home_id true true (Some ("create"%string, he_uuid e)) (fun facts =>
    w ← get_state;
    state ← lift (state_ (hw_registry w));
    _ ← lift (raise_if (hs_record_count state >= MAX_RECORDS) revision_conflict);
    data ← lift (StoredRecord_validate
             {| sr_label := cb_label body; sr_order := cb_order body; sr_grants := ∅ |});
    _ ← on_tables (save e (he_uuid e) (cb_kind body) 1 1 data);
    _ ← on_tables (bump 1 0);
    ref ← lift (model_validate (Shaped (ref_of (he_uuid e) (cb_kind body))));
    lift (public facts ref 1 1 data)).

(** [update] *)
Definition update (e : registry_env) (actor : Principal) (core_id home_id record_id : string)
    (body : raw UpdateRecordRequest) : M world RegistryRecord :=
  body ← lift (match body with Shaped b => UpdateRecord_validate b | Malformed => Raise (ValueError "") end);
  registry_transaction e actor core_id home_id true true (Some ("update"%string, record_id)) (fun facts =>
    '(row, ref, data) ← read_tables (target record_id);
    _ ← lift (require facts row ref data "write"
          {| ex_user_revision := None; ex_revision := Some (ub_expectedRevision body);
             ex_acl_revision := Some (ub_expectedAclRevision body); ex_cancelled := false |});
    '(revision, data) ← (
      if decide ((ub_label body, ub_order body) <> (sr_label data, sr_order data)) then
        revision ← lift (next_ (hr_revision row));
        data ← lift (StoredRecord_validate
                 {| sr_label := ub_label body; sr_order := ub_order body; sr_grants := sr_grants data |});
        _ ← on_tables (save e (hr_id row) (hr_kind row) revision (hr_acl_revision row) data);
        _ ← on_tables (bump 0 0);
        mret (revision, data)
      else mret (hr_revision row, data));
    lift (public facts ref revision (hr_acl_revision row) data)).

(** [delete] *)
Definition delete_record (e : registry_env) (actor : Principal) (core_id home_id record_id : string)
    (expected_revision expected_acl_revision : Z) : M world unit :=
  _ ← lift (revision_ expected_revision);
  _ ← lift (revision_ expected_acl_revision);
  registry_transaction e actor core_id home_id true true (Some ("delete"%string, record_id)) (fun facts =>
    '(row, ref, data) ← read_tables (target record_id);
    _ ← lift (require facts row ref data "write"
          {| ex_user_revision := None; ex_revision := Some expected_revision;
             ex_acl_revision := Some expected_acl_revision; ex_cancelled := false |});
    on_tables (
      _ ← modify (fun d => set_records (sql_delete (fun r => hr_id r = record_id) (hd_records d)) d);
      bump (-1) (- Z.of_nat (size (sr_grants data))))).

(** [sorted(data.grants.items())]; no two items have the same key. *)
Definition item_le (a b : string * Permissions) : Prop := str_le a.1 b.1.
#[local] Instance item_le_dec a b : Decision (item_le a b).
Proof. unfold item_le. apply _. Defined.

(** [grants] *)
Definition list_grants (e : registry_env) (actor : Principal) (core_id home_id record_id : string)
  : M world GrantsAnswer :=
  registry_transaction e actor core_id home_id true true None (fun _ => read_tables (fun d =>
    '(row, ref, data) ← target record_id d;
    grants ← fold_res (fun acc item =>
        g ← model_validate (Shaped {| gs_subjectId := item.1; gs_target := ref;
                                      gs_aclRevision := hr_acl_revision row; gs_permissions := item.2 |});
        Ok (acc ++ [g])) [] (py_sorted item_le (map_to_list (sr_grants data)));
    Ok {| ga_aclRevision := hr_acl_revision row; ga_grants := grants |})).

(** The grants of a record after those of one subject are set. *)
Definition change_grant (subject : string) (p : Permissions) (g : gmap string Permissions)
  : gmap string Permissions :=
  if pm_read p then <[subject := p]> g else delete subject g.

(** [set_grant] *)
Definition set_grant (e : registry_env) (actor : Principal) (core_id home_id record_id subject_id : string)
    (body : raw SetGrantRequest) : M world GrantSnapshot :=
  body ← lift (match body with Shaped b => SetGrant_validate b | Malformed => Raise (ValueError "") end);
  _ ← lift (id_ subject_id);
  registry_transaction e actor core_id home_id true true (Some ("grant"%string, record_id)) (fun facts =>
    '(row, ref, data) ← read_tables (target record_id);
    _ ← lift (require facts row ref data "write"
          {| ex_user_revision := None; ex_revision := None;
             ex_acl_revision := Some (gb_expectedAclRevision body); ex_cancelled := false |});
    w ← get_state;
    _ ← lift (require_some (sql_one (fun x => u_id x = subject_id) (users (hw_auth w))) not_found);
    acl_revision ← (
      if decide (default NONE (sr_grants data !! subject_id) <> gb_permissions body) then
        let grants := change_grant subject_id (gb_permissions body) (sr_grants data) in
        _ ← lift (raise_if (Z.of_nat (size grants) > MAX_GRANTS) revision_conflict);
        let delta := Z.of_nat (size grants) - Z.of_nat (size (sr_grants data)) in
        acl_revision ← lift (next_ (hr_acl_revision row));
        data ← lift (StoredRecord_validate
                 {| sr_label := sr_label data; sr_order := sr_order data; sr_grants := grants |});
        _ ← on_tables (save e (hr_id row) (hr_kind row) (hr_revision row) acl_revision data);
        _ ← on_tables (bump 0 delta);
        mret acl_revision
      else mret (hr_acl_revision row));
    lift (model_validate (Shaped {| gs_subjectId := subject_id; gs_target := ref;
            gs_aclRevision := acl_revision; gs_permissions := gb_permissions body |}))).

(** [migrate_home_resources] and [migrate_home_people] on an empty database. *)
Definition new_registry : registry_db :=
  {| hd_records := [];
     hd_state := Some {| hs_revision := 1; hs_record_count := 0; hs_grant_count := 0;
                         hs_authentication_tag := state_tag 1 0 0 |};
     hd_audit := []; hd_sequence := 0 |}.

(** ** Views

    What an account may know of a registry: the records that it may read, as they
    are shown to it, in the order of their identities. *)

Definition shown_permissions (facts : ActorFacts) (data : StoredRecord) : Permissions :=
  if decide (af_role facts = Admin) then FULL else default NONE (sr_grants data !! af_userId facts).
Definition view_of (facts : ActorFacts) (row : record_row) : option RegistryRecord :=
  match decode_row row with
  | Ok (ref, data) =>
      let p := shown_permissions facts data in
      if pm_read p then Some {| rr_ref := ref; rr_revision := hr_revision row; rr_aclRevision := hr_acl_revision row;
                                rr_label := sr_label data; rr_order := sr_order data; rr_permissions := p |}
      else None
  | Raise _ => None
  end.
Definition views (facts : ActorFacts) d : list RegistryRecord :=
  omap (view_of facts) (py_sorted row_le (hd_records d)).
Definition view_id (v : RegistryRecord) : string := rf_id (rr_ref v).

(** The access to a record as it is shown. *)
Definition check_view (facts : ActorFacts) (action : string) (ex : expectations) (v : RegistryRecord) : res unit :=
  _ ← raise_if (action ∉ ["read"; "write"]%string) (ValueError "invalid_access_request");
  _ ← raise_if (~ optional Revision (ex_user_revision ex) \/ ~ optional Revision (ex_revision ex) \/
                ~ optional Revision (ex_acl_revision ex)) (ValueError "invalid_revision");
  if ex_cancelled ex then Raise (ApiError "forbidden" 403)
  else if decide (as_expected (ex_user_revision ex) (af_revision facts) /\
                  as_expected (ex_revision ex) (rr_revision v) /\ as_expected (ex_acl_revision ex) (rr_aclRevision v))
  then if permits action (rr_permissions v) then Ok tt else Raise (ApiError "forbidden" 403)
  else Raise revision_conflict.

(** The page of a list of views after a cursor. *)
Definition page_of (facts : ActorFacts) (after expected_snapshot : option string) (limit : Z)
    (vs : list RegistryRecord) : res ListAnswer :=
  let snapshot := visible_hmac rg_snapshot_domain (reader_json facts :: (public_json <$> vs)) in
  _ ← raise_if (~ optional (fun s => s = snapshot) expected_snapshot) revision_conflict;
  _ ← raise_if (~ optional (fun a => a ∈ view_id <$> vs) after) not_found;
  let rest := filter (fun v => id_after after (view_id v)) vs in
  Ok {| la_scope := scope; la_userRevision := if rg_names_reader then Some (af_revision facts) else None;
        la_entries := take (Z.to_nat limit) rest; la_snapshot := snapshot;
        la_nextAfter := if decide (limit < Z.of_nat (length rest))
                        then view_id <$> (rest !! Z.to_nat (limit - 1)) else None |}.

(** A client that follows [nextAfter] until there is none. *)
Fixpoint read_pages (fuel : nat) (facts : ActorFacts) (limit : Z) (after expected_snapshot : option string) d
  : res (list RegistryRecord) :=
  match fuel with
  | O => Raise (PyError "fuel")
  | S fuel =>
      page ← list_body facts after expected_snapshot limit d;
      match la_nextAfter page with
      | None => Ok (la_entries page)
      | Some next =>
          rest ← read_pages fuel facts limit (Some next) (Some (la_snapshot page)) d;
          Ok (la_entries page ++ rest)
      end
  end.

(** ** Stored records

    The laws of the parameters: what was encrypted is decrypted under the same
    nonce and text, sixteen bytes longer; what was printed is read back. *)

Hypothesis gcm_open : forall n p a, gcm_decrypt n (gcm_encrypt n p a) a = Some p.
Hypothesis gcm_length : forall n p a, length (gcm_encrypt n p a) = (length p + 16)%nat.
Hypothesis json_round : forall s, StoredRecord_validate s = Ok s -> read_json (dump_json s) = Shaped s.
Hypothesis scope_ok : HomeScope_valid scope.

Definition readable_grants (s : StoredRecord) : Prop := map_Forall (fun _ p => pm_read p = true) (sr_grants s).

Lemma StoredRecord_validate_ok s t : StoredRecord_validate s = Ok t ->
  sr_order t = sr_order s /\ sr_grants t = sr_grants s /\ grants_valid (sr_grants s) /\
  LabelFields_validate (sr_label s) (sr_order s) = Ok (sr_label t) /\ StoredRecord_validate t = Ok t.
Proof.
  intros E. pose proof (StoredRecord_again _ _ E) as Ha. unfold StoredRecord_validate in E. inv_ok.
  cbn in *. split_and!; try done. by apply dec_stable.
Qed.

Lemma decode_row_ok row ref data : decode_row row = Ok (ref, data) ->
  Identity (hr_id row) /\ hr_kind row ∈ rg_kinds /\ Revision (hr_revision row) /\ Revision (hr_acl_revision row) /\
  ref = ref_of (hr_id row) (hr_kind row) /\ readable_grants data /\ StoredRecord_validate data = Ok data /\
  grants_valid (sr_grants data).
Proof.
  intros E. unfold decode_row in E. apply bind_ok in E as (u1 & E1 & E).
  destruct (_ ← id_ (hr_id row); _ ← revision_ (hr_revision row); revision_ (hr_acl_revision row)) eqn:Ei; [|done].
  apply bind_ok in Ei as (? & Hid & Ei). apply bind_ok in Ei as (? & Hr & Ha).
  apply raise_if_ok, dec_stable in Hid, Hr, Ha.
  apply bind_ok in E as (r & Er & E). apply model_validate_ok in Er as [[= <-] (_ & Hk & _)].
  apply bind_ok in E as (? & _ & E). apply bind_ok in E as (plain & _ & E).
  apply bind_ok in E as (s & Es & E). apply bind_ok in E as (? & Hg & E). injection E as <- <-.
  apply raise_if_ok in Hg. destruct (read_json plain) as [t|]; [|done].
  apply StoredRecord_validate_ok in Es as (Ho & Hgr & Hv & _ & Hs). rewrite <- Hgr in Hv.
  split_and!; try done. unfold readable_grants. apply dec_stable. tauto.
Qed.

(** A row as [_save] writes it. *)
Definition saved_row (e : registry_env) (id kind : string) (revision acl_revision : Z) (s : StoredRecord)
  : record_row :=
  {| hr_id := id; hr_kind := kind; hr_revision := revision; hr_acl_revision := acl_revision;
     hr_nonce := he_nonce e;
     hr_ciphertext := gcm_encrypt (he_nonce e) (dump_json s) (aad id kind revision acl_revision) |}.

Lemma decode_saved e id kind revision acl s :
  Identity id -> kind ∈ rg_kinds -> Revision revision -> Revision acl -> length (he_nonce e) = 12%nat ->
  StoredRecord_validate s = Ok s -> readable_grants s -> Z.of_nat (length (dump_json s)) <= 32752 ->
  decode_row (saved_row e id kind revision acl s) = Ok (ref_of id kind, s).
Proof.
  intros Hid Hk Hr Ha Hn Hs Hg Hl. unfold decode_row, saved_row. cbn [hr_id hr_kind hr_revision hr_acl_revision
    hr_nonce hr_ciphertext].
  apply bind_ok. exists tt. split.
  { unfold id_, revision_. by rewrite !raise_if_no by tauto. }
  apply bind_ok. exists (ref_of id kind). split.
  { apply model_validate_valid. unfold model_valid. cbn. by split_and!. }
  apply bind_ok. exists tt. split; [apply raise_if_no; rewrite gcm_length; lia|].
  rewrite gcm_open. cbn [require_some mbind res_bind]. rewrite json_round by done.
  apply bind_ok. exists s. split; [done|].
  apply bind_ok. exists tt. split; [|done]. apply raise_if_no.
  apply StoredRecord_validate_ok in Hs as (_ & _ & [Hv _] & _). intros [?|Hx]; [lia|by apply Hx].
Qed.

Definition grant_size (row : record_row) : Z :=
  match decode_row row with Ok (_, data) => Z.of_nat (size (sr_grants data)) | Raise _ => 0 end.

(** Every row decodes, no two have the same identity, and the audit table is
    bounded, with its sequence numbers below the last. *)
Record rows_ok d : Prop := {
  ro_ids : NoDup (hr_id <$> hd_records d);
  ro_rows : Forall (fun r => is_ok (decode_row r) = true) (hd_records d);
  ro_audit : (length (hd_audit d) <= MAX_AUDIT)%nat;
  ro_sequence : Forall (fun r => ha_sequence r <= hd_sequence d) (hd_audit d);
}.
(** The sealed row is genuine and says [r] records and [g] grants. *)
Definition sealed d (r g : Z) : Prop :=
  exists s, hd_state d = Some s /\ state_ d = Ok s /\ hs_record_count s = r /\ hs_grant_count s = g.
Definition stored d : Prop :=
  rows_ok d /\ sealed d (Z.of_nat (length (hd_records d))) (zsum (grant_size <$> hd_records d)).

Lemma state_row_some d s : state_ d = Ok s -> hd_state d = Some s.
Proof. unfold state_. intros E. inv_ok. done. Qed.

Lemma sealed_intro d s : state_ d = Ok s -> sealed d (hs_record_count s) (hs_grant_count s).
Proof. intros E. exists s. split_and!; try done. by apply state_row_some. Qed.

Lemma state_same d d' : hd_state d' = hd_state d -> state_ d' = state_ d.
Proof. unfold state_. by intros ->. Qed.

Lemma sealed_same d d' r g : hd_state d' = hd_state d -> sealed d r g -> sealed d' r g.
Proof.
  intros E (s & H1 & H2 & H3). exists s. rewrite E, (state_same d d' E). done.
Qed.

Lemma bump_ok records grants d u1 d' r g :
  bump records grants d = (Ok u1, d') -> sealed d r g ->
  hd_records d' = hd_records d /\ hd_audit d' = hd_audit d /\ hd_sequence d' = hd_sequence d /\
  sealed d' (r + records) (g + grants).
Proof.
  intros E (s & Hs & Hst & <- & <-). unfold bump in E. inv_M.
  match goal with E : state_ _ = Ok ?x |- _ => rewrite Hst in E; injection E as <- end.
  match goal with E : next_ _ = Ok _ |- _ => unfold next_ in E; inv_ok end.
  match goal with E : state_ _ = Ok _ |- _ => unfold state_ in E end. inv_ok.
  cbn. split_and!; try done. eexists. split_and!; try done. unfold state_. cbn [hd_state set_state require_some].
  cbn [mbind res_bind]. rewrite !raise_if_no; try done; cbn [hs_revision hs_record_count hs_grant_count];
    unfold Revision in *; lia || tauto.
Qed.

Lemma save_ok e id kind revision acl s d u1 d' :
  save e id kind revision acl s d = (Ok u1, d') ->
  exists t, StoredRecord_validate s = Ok t /\ Z.of_nat (length (dump_json t)) <= 32752 /\
    upsert_row (saved_row e id kind revision acl t) (hd_records d) = Ok (hd_records d') /\
    d' = set_records (hd_records d') d.
Proof.
  unfold save. intros E. inv_M. eexists. split_and!; [done|lia|done|done].
Qed.

(** The row that a writing leaves, for a record of the registry's home. *)
Definition written (e : registry_env) (id kind : string) (revision acl : Z) (s : StoredRecord) : Prop :=
  Identity id /\ kind ∈ rg_kinds /\ Revision revision /\ Revision acl /\ length (he_nonce e) = 12%nat /\
  readable_grants s.

Lemma rows_ok_records d l :
  NoDup (hr_id <$> l) -> Forall (fun r => is_ok (decode_row r) = true) l -> rows_ok d -> rows_ok (set_records l d).
Proof. intros H1 H2 []. by constructor. Qed.

Lemma save_decodes e id kind revision acl s t :
  StoredRecord_validate s = Ok t -> Z.of_nat (length (dump_json t)) <= 32752 ->
  written e id kind revision acl s ->
  decode_row (saved_row e id kind revision acl t) = Ok (ref_of id kind, t).
Proof.
  intros Es Hl (? & ? & ? & ? & ? & Hg). apply StoredRecord_validate_ok in Es as (_ & Et & _ & _ & Es).
  apply decode_saved; try done. unfold readable_grants. by rewrite Et.
Qed.

Lemma save_new e id kind revision acl s d u1 d' :
  save e id kind revision acl s d = (Ok u1, d') -> written e id kind revision acl s ->
  id ∉ hr_id <$> hd_records d -> rows_ok d ->
  rows_ok d' /\ hd_state d' = hd_state d /\
  exists row, hd_records d' = hd_records d ++ [row] /\ grant_size row = Z.of_nat (size (sr_grants s)).
Proof.
  intros E Hw Hnew Hd. apply save_ok in E as (t & Es & Hl & Hu & ->).
  pose proof (save_decodes _ _ _ _ _ _ _ Es Hl Hw) as Hdec.
  apply StoredRecord_validate_ok in Es as (_ & Hg & _).
  unfold upsert_row in Hu. inv_ok. cbn [hr_id saved_row] in *.
  destruct (sql_one _ _) as [r|] eqn:Eo.
  { apply sql_one_some in Eo as [Hr <-]. destruct Hnew. by apply list_elem_of_fmap_2. }
  match goal with E : _ = hd_records d' |- _ => rewrite <- E end.
  split_and!; [|done|].
  - apply rows_ok_records; [|apply Forall_app; split; [apply Hd|by apply Forall_singleton; rewrite Hdec]|done].
    apply snoc_column; [apply Hd|]. apply sql_one_none in Eo. eapply Forall_impl; [exact Eo|]. cbn. congruence.
  - cbn [hd_records set_records]. eexists. split; [done|]. unfold grant_size. by rewrite Hdec, Hg.
Qed.

Lemma save_old e row revision acl s d u1 d' :
  save e (hr_id row) (hr_kind row) revision acl s d = (Ok u1, d') ->
  written e (hr_id row) (hr_kind row) revision acl s -> row ∈ hd_records d -> rows_ok d ->
  rows_ok d' /\ hd_state d' = hd_state d /\ length (hd_records d') = length (hd_records d) /\
  zsum (grant_size <$> hd_records d') =
  zsum (grant_size <$> hd_records d) + Z.of_nat (size (sr_grants s)) - grant_size row.
Proof.
  intros E Hw Hrow Hd. apply save_ok in E as (t & Es & Hl & Hu & ->).
  pose proof (save_decodes _ _ _ _ _ _ _ Es Hl Hw) as Hdec.
  apply StoredRecord_validate_ok in Es as (_ & Hg & _).
  unfold upsert_row in Hu. inv_ok. cbn [hr_id saved_row] in *.
  destruct (split_unique hr_id (hd_records d) row (ro_ids _ Hd) Hrow) as (l1 & l2 & El & Hl1 & Hl2).
  destruct (sql_one_exists (fun r => hr_id r = hr_id row) (hd_records d) row Hrow eq_refl) as [y Ey].
  rewrite Ey in *.
  match goal with E : sql_update _ _ _ = hd_records d' |- _ => rewrite El, sql_update_split in E by done;
    rename E into Ed' end.
  rewrite <- Ed'. set (new := {| hr_id := hr_id row |}).
  assert (new = saved_row e (hr_id row) (hr_kind row) revision acl t) as -> by done. clear Ed'.
  pose proof (ro_ids _ Hd) as Hn. pose proof (ro_rows _ Hd) as Hr. rewrite El in Hn, Hr.
  rewrite !fmap_app, !fmap_cons in Hn. apply Forall_app in Hr as [Hr1 [_ Hr2]%Forall_cons].
  cbn [hd_records set_records hd_state]. split_and!; [|done|rewrite El, !length_app; done|].
  - apply rows_ok_records; [|apply Forall_app; split; [done|constructor; [by rewrite Hdec|done]]|done].
    rewrite fmap_app, fmap_cons. done.
  - rewrite El, !fmap_app, !fmap_cons, !zsum_app, !zsum_cons.
    unfold grant_size at 2. rewrite Hdec, Hg. lia.
Qed.

Lemma delete_row d row :
  row ∈ hd_records d -> rows_ok d ->
  let d' := set_records (sql_delete (fun r => hr_id r = hr_id row) (hd_records d)) d in
  rows_ok d' /\ Z.of_nat (length (hd_records d')) = Z.of_nat (length (hd_records d)) - 1 /\
  zsum (grant_size <$> hd_records d') = zsum (grant_size <$> hd_records d) - grant_size row.
Proof.
  intros Hrow Hd. destruct (split_unique hr_id (hd_records d) row (ro_ids _ Hd) Hrow) as (l1 & l2 & El & Hl1 & Hl2).
  pose proof (ro_ids _ Hd) as Hn. pose proof (ro_rows _ Hd) as Hr. cbn zeta. rewrite El in *.
  rewrite sql_delete_split by done. cbn [hd_records set_records].
  rewrite !fmap_app, !fmap_cons, !zsum_app, !zsum_cons, !length_app. cbn [length].
  split_and!; [|lia|lia]. apply Forall_app in Hr as [Hr1 [_ Hr2]%Forall_cons].
  apply rows_ok_records; [|by apply Forall_app|done].
  rewrite fmap_app in *. cbn in Hn.
  apply NoDup_app in Hn as (? & Hx & [_ ?]%NoDup_cons). apply NoDup_app. split_and!; try done.
  intros k Hk Hin. apply (Hx k Hk). by right.
Qed.

(** ** Requests *)

(** A change of the accounts alone. *)
Definition accounts_only w w' : Prop :=
  hw_context w' = hw_context w /\ hw_schema w' = hw_schema w /\ hw_registry w' = hw_registry w /\
  hw_rest w' = hw_rest w.

Definition audited (action : option (string * string)) (actor : Principal) (now : Z) (denied : bool) w : world :=
  match action with
  | Some (name, target) => set_registry (audit_action name denied (p_id actor) target now (hw_registry w)) w
  | None => w
  end.

(** A request either fails before its savepoint, or was admitted, and its body
    succeeded, or failed with the answer of the request and left nothing but
    the audit row. *)
Inductive request_outcome (e : registry_env) (actor : Principal) (core_id home_id : string) (admin : bool)
    (action : option (string * string)) {A} (body : ActorFacts -> M world A) w1 : res A -> world -> Prop :=
  | OutcomeRefused x : request_outcome e actor core_id home_id admin action body w1 (Raise x) w1
  | OutcomeDone facts a w2 :
      admission (clock (he_auth e) 1) actor core_id home_id admin w1 = Ok facts ->
      body facts w1 = (Ok a, w2) ->
      request_outcome e actor core_id home_id admin action body w1 (Ok a)
        (audited action actor (clock (he_auth e) 2) false w2)
  | OutcomeDenied facts code status :
      admission (clock (he_auth e) 1) actor core_id home_id admin w1 = Ok facts ->
      (body facts w1).1 = Raise (ApiError code status) ->
      request_outcome e actor core_id home_id admin action body w1 (Raise (ApiError code status))
        (audited action actor (clock (he_auth e) 2) true w1).

Lemma on_accounts_only {A} (m : M auth_db A) w r w' : on_accounts m w = (r, w') -> accounts_only w w'.
Proof. unfold on_accounts. destruct (m (hw_auth w)) as [r1 a]. by intros [= _ <-]. Qed.

Lemma registry_transaction_outcome e actor core_id home_id admin consume action A (body : ActorFacts -> M world A)
    w r w' :
  registry_transaction e actor core_id home_id admin consume action body w = (r, w') ->
  exists w1, accounts_only w w1 /\ (consume = false -> w1 = w) /\
    request_outcome e actor core_id home_id admin action body w1 r w'.
Proof.
  unfold registry_transaction. intros E. unfold mbind at 1, M_bind at 1 in E.
  match type of E with context [(if consume then ?a else ?b) w] =>
    destruct ((if consume then a else b) w) as [[[]|x] w1] eqn:Er end.
  2:{ injection E as <- <-. destruct consume; [|done].
      exists w1. split; [by eapply on_accounts_only|]. split; [done|]. constructor. }
  assert (accounts_only w w1 /\ (consume = false -> w1 = w)) as [Hw1 Hc].
  { destruct consume; [split; [by eapply on_accounts_only|done]|]. by injection Er as <-. }
  exists w1. split; [done|]. split; [done|]. clear Er Hw1 Hc.
  unfold storage_guard, mbind, M_bind, transaction, get_state, lift in E.
  destruct (admission (clock (he_auth e) 1) actor core_id home_id admin w1) as [facts|x] eqn:Ea.
  2:{ injection E as <- <-. constructor. }
  destruct (savepoint (body facts) w1) as [[out|x] w2] eqn:Es.
  2:{ injection E as <- <-. constructor. }
  assert ((r, w') = (out, audited action actor (clock (he_auth e) 2) (negb (is_ok out)) w2)
          \/ exists x, out = Raise x /\ storage_exn x = true) as Hrw.
  { destruct action as [[n t]|]; cbn in E; destruct out as [a|x]; cbn in E; try (by left; injection E as <- <-);
      destruct (storage_exn x) eqn:Ex; try (right; by eexists); left; by injection E as <- <-. }
  clear E. unfold savepoint in Es. destruct (body facts w1) as [[a|x] w3] eqn:Eb.
  - injection Es as <- <-. destruct Hrw as [[= -> ->]|(x & [=] & _)]. by econstructor.
  - destruct x; try done. injection Es as <- <-. destruct Hrw as [[= -> ->]|(x & [= <-] & [=])].
    apply (OutcomeDenied _ _ _ _ _ _ _ _ facts); [done|]. by rewrite Eb.
Qed.

(** The tables stay well formed, and the home's identity stays. *)
Definition kept w w' : Prop :=
  hw_context w' = hw_context w /\ hw_schema w' = hw_schema w /\
  (stored (hw_registry w) -> stored (hw_registry w')).
#[local] Instance kept_refl : Reflexive kept.
Proof. by intros w. Qed.
#[local] Instance kept_trans : Transitive kept.
Proof. intros w1 w2 w3 (H1 & H2 & H3) (H4 & H5 & H6). split_and!; [congruence..|tauto]. Qed.

Lemma accounts_kept w w' : accounts_only w w' -> kept w w'.
Proof. intros (H1 & H2 & H3 & _). split_and!; [done..|by rewrite H3]. Qed.

#[local] Instance newest_first_total : Total newest_first.
Proof. intros a b. unfold newest_first. lia. Qed.
#[local] Instance newest_first_trans : Transitive newest_first.
Proof. intros a b c. unfold newest_first. lia. Qed.

Lemma audit_stored name denied actor_id target_id now d :
  stored d -> stored (audit_action name denied actor_id target_id now d).
Proof.
  intros [[Hn Hr Ha Hs] Hst]. unfold audit_action.
  split; [constructor|]; cbn [hd_records hd_state hd_audit hd_sequence]; [exact Hn|exact Hr| | |exact Hst].
  - apply keep_newest_length.
  - apply Forall_forall. intros x [[Hx|Hx%list_elem_of_singleton]%elem_of_app _]%sql_delete_elem.
    + rewrite Forall_forall in Hs. specialize (Hs _ Hx). lia.
    + subst x. cbn. lia.
Qed.

Lemma audited_kept action actor now denied w : kept w (audited action actor now denied w).
Proof.
  destruct action as [[n t]|]; [|done]. split_and!; [done..|]. cbn. apply audit_stored.
Qed.

(** A request keeps the tables well formed when its body does. *)
Lemma transaction_kept e actor core_id home_id admin consume action A (body : ActorFacts -> M world A) w r w' :
  registry_transaction e actor core_id home_id admin consume action body w = (r, w') ->
  (forall facts w1 a w2, kept w w1 -> hw_registry w1 = hw_registry w -> body facts w1 = (Ok a, w2) -> kept w1 w2) ->
  kept w w'.
Proof.
  intros E Hb. apply registry_transaction_outcome in E as (w1 & Hw1 & _ & Ho).
  pose proof (accounts_kept _ _ Hw1) as Hk. destruct Hw1 as (_ & _ & Er & _).
  destruct Ho as [x|facts a w2 _ Eb|facts c n _ _]; [done| |etrans; [done|apply audited_kept]].
  etrans; [exact Hk|]. etrans; [by eapply Hb|apply audited_kept].
Qed.

Lemma read_tables_ok {A} (f : registry_db -> res A) w a w' :
  read_tables f w = (Ok a, w') <-> f (hw_registry w) = Ok a /\ w' = w.
Proof. unfold read_tables, mbind, M_bind, get_state. apply lift_ok. Qed.

Lemma on_tables_ok {A} (m : M registry_db A) w a w' :
  on_tables m w = (Ok a, w') <-> exists d, m (hw_registry w) = (Ok a, d) /\ w' = set_registry d w.
Proof. unfold on_tables. destruct (m (hw_registry w)) as [r d]. naive_solver. Qed.

Lemma target_ok id d row ref data : target id d = Ok (row, ref, data) ->
  row ∈ hd_records d /\ hr_id row = id /\ decode_row row = Ok (ref, data) /\ Identity id.
Proof.
  unfold target, id_. intros E. apply bind_ok in E as (? & Hi & E). apply raise_if_ok, dec_stable in Hi.
  apply bind_ok in E as (r & Er & E). apply require_some_ok, sql_one_some in Er as [??].
  apply bind_ok in E as ([rf0 s0] & Ed & [= -> -> ->]). done.
Qed.

Lemma grant_size_decoded row ref data :
  decode_row row = Ok (ref, data) -> grant_size row = Z.of_nat (size (sr_grants data)).
Proof. unfold grant_size. by intros ->. Qed.

Lemma next_ok n m : next_ n = Ok m -> m = n + 1 /\ n < MAX_REVISION.
Proof. unfold next_. intros E. inv_ok. lia. Qed.

(** Rewriting a record of the registry, then counting it. *)
Lemma rewrite_kept e row ref data revision acl s u1 d d1 u2 d2 :
  row ∈ hd_records d -> decode_row row = Ok (ref, data) -> length (he_nonce e) = 12%nat ->
  Revision revision -> Revision acl -> readable_grants s ->
  save e (hr_id row) (hr_kind row) revision acl s d = (Ok u1, d1) ->
  bump 0 (Z.of_nat (size (sr_grants s)) - Z.of_nat (size (sr_grants data))) d1 = (Ok u2, d2) ->
  stored d -> stored d2.
Proof.
  intros Hrow Hdec Hn Hr Ha Hg Es Eb [Hd Hst].
  pose proof (decode_row_ok _ _ _ Hdec) as (Hid & Hk & _).
  eapply save_old in Es as (Hd1 & Hs1 & Hlen & Hsum); [|by split_and!|done|done].
  eapply bump_ok in Eb as (Er & Ea & Eq & Hs2); [|eapply sealed_same; [exact Hs1|exact Hst]].
  split; [destruct Hd1; constructor; by rewrite ?Er, ?Ea, ?Eq|].
  rewrite Er, Hlen, Hsum, (grant_size_decoded _ _ _ Hdec).
  replace (zsum (grant_size <$> hd_records d) + Z.of_nat (size (sr_grants s)) - Z.of_nat (size (sr_grants data)))
    with (zsum (grant_size <$> hd_records d) + (Z.of_nat (size (sr_grants s)) - Z.of_nat (size (sr_grants data))))
    by lia.
  by rewrite <- (Z.add_0_r (Z.of_nat (length (hd_records d)))).
Qed.

Lemma Revision_next n : Revision n -> n < MAX_REVISION -> Revision (n + 1).
Proof. unfold Revision. lia. Qed.

Lemma readable_change subject p data :
  readable_grants data -> map_Forall (fun _ q => pm_read q = true) (change_grant subject p (sr_grants data)).
Proof.
  intros Hd. unfold change_grant. destruct (pm_read p) eqn:E.
  - by apply map_Forall_insert_2.
  - by apply map_Forall_delete.
Qed.

(** A fresh call: an identity that no record has, and a nonce of twelve bytes. *)
Definition fresh_env (e : registry_env) d : Prop :=
  Identity (he_uuid e) /\ he_uuid e ∉ hr_id <$> hd_records d /\ length (he_nonce e) = 12%nat.

Lemma create_kept e actor core_id home_id body w r w' :
  create e actor core_id home_id body w = (r, w') -> fresh_env e (hw_registry w) -> kept w w'.
Proof.
  intros E (Hu & Hnew & Hn). unfold create in E. rewrite lift_bind in E.
  destruct (match body with Shaped b => CreateRecord_validate b | _ => _ end) as [b|] eqn:Eb;
    [|by injection E as <- <-].
  assert (cb_kind b ∈ rg_kinds) as Hk.
  { destruct body as [b0|]; [|done]. unfold CreateRecord_validate in Eb. inv_ok. cbn. by apply dec_stable. }
  eapply transaction_kept; [exact E|]. cbv beta. intros facts w1 a w2 _ Ereg Ebody. rewrite <- Ereg in Hnew.
  apply M_bind_ok in Ebody as (? & ? & [= <- <-] & Ebody).
  apply M_bind_ok in Ebody as (s & ? & [Es ->]%lift_ok & Ebody).
  apply M_bind_ok in Ebody as (? & ? & [_ ->]%lift_ok & Ebody).
  apply M_bind_ok in Ebody as (data & ? & [Ed ->]%lift_ok & Ebody).
  apply M_bind_ok in Ebody as (? & ? & (d1 & Esave & ->)%on_tables_ok & Ebody).
  apply M_bind_ok in Ebody as (? & ? & (d2 & Ebump & ->)%on_tables_ok & Ebody).
  apply M_bind_ok in Ebody as (? & ? & [_ ->]%lift_ok & [_ ->]%lift_ok).
  split_and!; [done..|]. intros [Hd Hst].
  apply StoredRecord_validate_ok in Ed as (_ & Hg & _). cbn in Hg.
  eapply save_new in Esave as (Hd1 & Hs1 & row & Erow & Egs); [| |exact Hnew|exact Hd].
  2:{ split_and!; try done; unfold Revision, MAX_REVISION; try lia. unfold readable_grants. rewrite Hg. done. }
  eapply bump_ok in Ebump as (Er & Ea & Eq & Hs2); [|eapply sealed_same; [exact Hs1|exact Hst]].
  cbn [hw_registry set_registry] in *.
  split; [destruct Hd1; constructor; by rewrite ?Er, ?Ea, ?Eq|].
  rewrite Er, Erow, fmap_app, zsum_app, length_app. cbn [fmap list_fmap length]. rewrite zsum_cons, Egs, Hg.
  replace (Z.of_nat (length (hd_records (hw_registry w1)) + 1)) with (Z.of_nat (length (hd_records (hw_registry w1))) + 1)
    by lia.
  by rewrite map_size_empty.
Qed.

Lemma update_kept e actor core_id home_id id body w r w' :
  update e actor core_id home_id id body w = (r, w') -> length (he_nonce e) = 12%nat -> kept w w'.
Proof.
  intros E Hn. unfold update in E. rewrite lift_bind in E.
  destruct (match body with Shaped b => UpdateRecord_validate b | _ => _ end) as [b|] eqn:Eb;
    [|by injection E as <- <-].
  eapply transaction_kept; [exact E|]. cbv beta. intros facts w1 a w2 _ Ereg Ebody.
  apply M_bind_ok in Ebody as ([[row ref] data] & ? & [Et ->]%read_tables_ok & Ebody).
  apply target_ok in Et as (Hrow & Hid & Hdec & _). pose proof (decode_row_ok _ _ _ Hdec) as (_ & _ & Hr & Ha & _ & Hg & _).
  apply M_bind_ok in Ebody as (? & ? & [_ ->]%lift_ok & Ebody).
  apply M_bind_ok in Ebody as ([rev data'] & w3 & Echange & [_ ->]%lift_ok).
  case_decide; [|by injection Echange as <- <- <-].
  apply M_bind_ok in Echange as (rev' & ? & [[-> Hlt]%next_ok ->]%lift_ok & Echange).
  apply M_bind_ok in Echange as (s & ? & [Es ->]%lift_ok & Echange).
  apply M_bind_ok in Echange as (? & ? & (d1 & Esave & ->)%on_tables_ok & Echange).
  apply M_bind_ok in Echange as (? & ? & (d2 & Ebump & ->)%on_tables_ok & [= <- <- <-]).
  split_and!; [done..|]. apply StoredRecord_validate_ok in Es as (_ & Eg & _). cbn [sr_grants] in Eg.
  eapply rewrite_kept; [exact Hrow|exact Hdec|exact Hn|..|exact Esave|by rewrite Eg, Z.sub_diag];
    [by apply Revision_next|done|unfold readable_grants; by rewrite Eg].
Qed.

Lemma delete_kept e actor core_id home_id id rev acl w r w' :
  delete_record e actor core_id home_id id rev acl w = (r, w') -> kept w w'.
Proof.
  intros E. unfold delete_record in E. rewrite lift_bind in E.
  destruct (revision_ rev) as [v1|]; [|by injection E as <- <-]. rewrite lift_bind in E.
  destruct (revision_ acl) as [v2|]; [|by injection E as <- <-].
  eapply transaction_kept; [exact E|]. cbv beta. intros facts w1 a w2 _ Ereg Ebody.
  apply M_bind_ok in Ebody as ([[row ref] data] & ? & [Et ->]%read_tables_ok & Ebody).
  apply target_ok in Et as (Hrow & <- & Hdec & _).
  apply M_bind_ok in Ebody as (? & ? & [_ ->]%lift_ok & (d2 & Ebody & ->)%on_tables_ok).
  apply M_bind_ok in Ebody as (? & d1 & [= <- <-] & Ebump).
  split_and!; [done..|]. intros [Hd Hst].
  destruct (delete_row _ _ Hrow Hd) as (Hd1 & Hlen & Hsum).
  eapply bump_ok in Ebump as (Er & Ea & Eq & Hs2); [|eapply sealed_same; [|exact Hst]; done].
  split; [destruct Hd1; constructor; cbn [hw_registry set_registry]; by rewrite ?Er, ?Ea, ?Eq|].
  cbn [hw_registry set_registry]. rewrite Er, Hlen, Hsum, (grant_size_decoded _ _ _ Hdec). exact Hs2.
Qed.

Lemma set_grant_kept e actor core_id home_id id subject body w r w' :
  set_grant e actor core_id home_id id subject body w = (r, w') -> length (he_nonce e) = 12%nat -> kept w w'.
Proof.
  intros E Hn. unfold set_grant in E. rewrite lift_bind in E.
  destruct (match body with Shaped b => SetGrant_validate b | _ => _ end) as [b|] eqn:Eb;
    [|by injection E as <- <-]. rewrite lift_bind in E.
  destruct (id_ subject) as [v1|]; [|by injection E as <- <-].
  eapply transaction_kept; [exact E|]. cbv beta. intros facts w1 a w2 _ Ereg Ebody.
  apply M_bind_ok in Ebody as ([[row ref] data] & ? & [Et ->]%read_tables_ok & Ebody).
  apply target_ok in Et as (Hrow & Hid & Hdec & _). pose proof (decode_row_ok _ _ _ Hdec) as (_ & _ & Hr & Ha & _ & Hg & _).
  apply M_bind_ok in Ebody as (? & ? & [_ ->]%lift_ok & Ebody).
  apply M_bind_ok in Ebody as (? & ? & [= <- <-] & Ebody).
  apply M_bind_ok in Ebody as (? & ? & [_ ->]%lift_ok & Ebody).
  apply M_bind_ok in Ebody as (acl & w3 & Echange & [_ ->]%lift_ok).
  case_decide; [|by injection Echange as <- <-].
  apply M_bind_ok in Echange as (? & ? & [_ ->]%lift_ok & Echange).
  apply M_bind_ok in Echange as (acl' & ? & [[-> Hlt]%next_ok ->]%lift_ok & Echange).
  apply M_bind_ok in Echange as (s & ? & [Es ->]%lift_ok & Echange).
  apply M_bind_ok in Echange as (? & ? & (d1 & Esave & ->)%on_tables_ok & Echange).
  apply M_bind_ok in Echange as (? & ? & (d2 & Ebump & ->)%on_tables_ok & [= <- <-]).
  split_and!; [done..|]. apply StoredRecord_validate_ok in Es as (_ & Eg & _). cbn [sr_grants] in Eg.
  eapply rewrite_kept; [exact Hrow|exact Hdec|exact Hn|..|exact Esave|by rewrite Eg];
    [done|by apply Revision_next|unfold readable_grants; rewrite Eg; by apply readable_change].
Qed.

Lemma read_kept e actor core_id home_id admin consume A (f : ActorFacts -> registry_db -> res A) w r w' :
  registry_transaction e actor core_id home_id admin consume None (fun facts => read_tables (f facts)) w = (r, w') ->
  kept w w'.
Proof.
  intros E. eapply transaction_kept; [exact E|]. cbv beta. by intros facts w1 a w2 _ _ [_ ->]%read_tables_ok.
Qed.

(** A callback of another component: it leaves the registry's tables alone. *)
Definition foreign {A} (callback : ActorFacts -> M world A) : Prop :=
  forall facts w r w', callback facts w = (r, w') ->
    hw_registry w' = hw_registry w /\ hw_context w' = hw_context w /\ hw_schema w' = hw_schema w.

Lemma perform_kept e actor core_id home_id id action A (callback : ActorFacts -> M world A) n1 n2 n3 w r w' :
  perform_authorized e actor core_id home_id id action callback n1 n2 n3 w = (r, w') -> foreign callback -> kept w w'.
Proof.
  intros E Hf. unfold perform_authorized in E. rewrite lift_bind in E.
  destruct (raise_if _ _) as [v1|]; [|by injection E as <- <-].
  eapply transaction_kept; [exact E|]. cbv beta. intros facts w1 a w2 _ _ Ebody.
  apply M_bind_ok in Ebody as (? & ? & [_ ->]%read_tables_ok & Ebody).
  apply Hf in Ebody as (E1 & E2 & E3). split_and!; [done..|by rewrite E1].
Qed.

(** What may happen between two states: a request of anyone, whatever it
    answers, or a change of the other tables. *)
Inductive registry_step w w' : Prop :=
  | StepCreate e actor c h body r :
      create e actor c h body w = (r, w') -> fresh_env e (hw_registry w) -> registry_step w w'
  | StepUpdate e actor c h id body r :
      update e actor c h id body w = (r, w') -> length (he_nonce e) = 12%nat -> registry_step w w'
  | StepDelete e actor c h id rev acl r : delete_record e actor c h id rev acl w = (r, w') -> registry_step w w'
  | StepGrant e actor c h id subject body r :
      set_grant e actor c h id subject body w = (r, w') -> length (he_nonce e) = 12%nat -> registry_step w w'
  | StepGrants e actor c h id r : list_grants e actor c h id w = (r, w') -> registry_step w w'
  | StepList e actor c h after snapshot limit r :
      list_records e actor c h after snapshot limit w = (r, w') -> registry_step w w'
  | StepGet e actor c h id r : get e actor c h id w = (r, w') -> registry_step w w'
  | StepAuthorize consume e actor c h id action ex r :
      authorize consume e actor c h id action ex w = (r, w') -> registry_step w w'
  | StepPerform e actor c h id action A (callback : ActorFacts -> M world A) n1 n2 n3 r :
      perform_authorized e actor c h id action callback n1 n2 n3 w = (r, w') -> foreign callback ->
      registry_step w w'
  | StepOther : hw_registry w' = hw_registry w -> hw_context w' = hw_context w -> hw_schema w' = hw_schema w ->
      registry_step w w'.

(** The tables of a new registry in a home whose context is genuine. *)
Definition genuine_context w : Prop := check_context w (hs_coreId scope) (hs_homeId scope) = Ok tt.
Definition fresh_world w : Prop := genuine_context w /\ hw_registry w = new_registry.
Definition registry_reachable w : Prop := exists w0, fresh_world w0 /\ rtc registry_step w0 w.

Lemma step_kept w w' : registry_step w w' -> kept w w'.
Proof.
  destruct 1 as [e actor c h body r E He|e actor c h id body r E He|e actor c h id rev acl r E
    |e actor c h id subject body r E He|e actor c h id r E|e actor c h after snapshot limit r E|e actor c h id r E
    |consume e actor c h id action ex r E|e actor c h id action A callback n1 n2 n3 r E Hf|E1 E2 E3].
  - by eapply create_kept.
  - by eapply update_kept.
  - by eapply delete_kept.
  - by eapply set_grant_kept.
  - unfold list_grants in E. eapply (read_kept _ _ _ _ _ _ _ (fun _ => _)). exact E.
  - unfold list_records in E. rewrite lift_bind in E.
    destruct (raise_if _ _) in E; [|by injection E as <- <-]. rewrite lift_bind in E.
    destruct (match after with Some a => id_ a | None => Ok tt end); [|by injection E as <- <-]. rewrite lift_bind in E.
    destruct (raise_if _ _) in E; [|by injection E as <- <-].
    eapply (read_kept _ _ _ _ _ _ _ (fun facts => list_body facts after snapshot limit)). exact E.
  - unfold get in E. eapply (read_kept _ _ _ _ _ _ _ (fun facts d => _)). exact E.
  - eapply (read_kept _ _ _ _ _ _ _ (fun facts => authority_check facts id action ex)). exact E.
  - by eapply perform_kept.
  - split_and!; [done..|by rewrite E1].
Qed.

Hypothesis bound_ok : 0 <= MAX_RECORDS.

Lemma new_stored : stored (new_registry).
Proof.
  assert (state_ (new_registry) =
          Ok {| hs_revision := 1; hs_record_count := 0; hs_grant_count := 0; hs_authentication_tag := state_tag 1 0 0 |})
    as Hs.
  { unfold state_, new_registry. cbn. rewrite !raise_if_no; try done;
      unfold Revision, MAX_REVISION, MAX_TOTAL_GRANTS; lia || tauto. }
  split; [constructor; [apply NoDup_nil_2|apply Forall_nil_2|apply Nat.le_0_l|apply Forall_nil_2]|].
  apply sealed_intro in Hs. exact Hs.
Qed.

Lemma count_rows l : forall r g ids,
  Forall (fun row => is_ok (decode_row row) = true) l -> r + Z.of_nat (length l) <= MAX_RECORDS ->
  fold_res count_row (r, g, ids) l =
  Ok (r + Z.of_nat (length l), g + zsum (grant_size <$> l), reverse (hr_id <$> l) ++ ids).
Proof.
  induction l as [|row l IH]; intros r g ids Hl Hb; cbn [fold_res length fmap list_fmap zsum].
  { by rewrite !Z.add_0_r. }
  apply Forall_cons in Hl as [Hrow Hl]. destruct (decode_row row) as [[ref data]|] eqn:Ed; [|done].
  pose proof (decode_row_ok _ _ _ Ed) as (_ & _ & _ & _ & Eref & _).
  assert (count_row (r, g, ids) row = Ok (r + 1, g + Z.of_nat (size (sr_grants data)), hr_id row :: ids)) as ->.
  { unfold count_row. apply bind_ok. exists tt. cbn [length] in Hb. split; [apply raise_if_no; lia|].
    rewrite Ed. cbn. by rewrite Eref. }
  cbn [mbind res_bind]. rewrite IH by (done || cbn [length] in Hb; lia).
  rewrite (grant_size_decoded _ _ _ Ed), reverse_cons, <- app_assoc. cbn [app].
  rewrite zsum_cons. do 3 f_equal; cbn [length]; lia.
Qed.

Lemma stored_state d : stored d -> exists s, state_ d = Ok s /\
  hs_record_count s = Z.of_nat (length (hd_records d)) /\ hs_grant_count s = zsum (grant_size <$> hd_records d) /\
  Z.of_nat (length (hd_records d)) <= MAX_RECORDS /\ zsum (grant_size <$> hd_records d) <= MAX_TOTAL_GRANTS.
Proof.
  intros [_ (s & _ & Es & E1 & E2)]. exists s. pose proof Es as Es'. unfold state_ in Es'. inv_ok.
  split_and!; try done; lia.
Qed.

(** A loop that stops after one record too many reads every record. *)
Lemma take_all {A} (l : list A) : Z.of_nat (length l) <= MAX_RECORDS -> take (Z.to_nat (MAX_RECORDS + 1)) l = l.
Proof. intros Hl. apply take_ge. lia. Qed.

Lemma reachable_stored w : registry_reachable w -> genuine_context w /\ stored (hw_registry w).
Proof.
  intros (w0 & [Hc Hr] & Hs). assert (kept w0 w) as (H1 & H2 & H3).
  { clear Hc Hr. induction Hs as [|w1 w2 w3 Hs _ IH]; [done|]. etrans; [by apply step_kept|done]. }
  split; [|apply H3; rewrite Hr; apply new_stored].
  unfold genuine_context, check_context in *. by rewrite H1, H2.
Qed.

(** C24 The storage of a registry always validates.  After any requests of anyone,
    failing ones included, every row decrypts to a record within its bounds
    under its own identity, kind and revisions, the sealed row is genuine and
    counts exactly the records and the grants that are there, and at most the
    newest audit rows are kept: a restart accepts the database, and the
    inventory that other components delete by is the list of the records. *)
Theorem registry_storage_valid w :
  registry_reachable w ->
  validate_storage w = Ok tt /\
  exists ids, validated_ids w = Ok ids /\ ids ≡ₚ hr_id <$> hd_records (hw_registry w) /\ NoDup ids.
Proof.
  intros Hw. apply reachable_stored in Hw as [Hc Hst].
  destruct (stored_state _ Hst) as (s & Es & E1 & E2 & Hb & _). destruct Hst as [Hd _].
  assert (validated_ids w = Ok (reverse (hr_id <$> hd_records (hw_registry w)) ++ [])) as E.
  { unfold validated_ids. unfold genuine_context in Hc. rewrite Hc, Es, take_all by done. cbn [mbind res_bind].
    rewrite count_rows by (try apply Hd; lia). cbn [mbind res_bind]. rewrite !Z.add_0_l.
    apply bind_ok. exists tt. split; [apply raise_if_no; intros Hx; apply Hx; congruence|].
    apply bind_ok. exists tt. split; [apply raise_if_no|done]. pose proof (ro_audit _ Hd). lia. }
  split; [unfold validate_storage; by rewrite E|].
  eexists. split; [exact E|]. rewrite app_nil_r.
  assert (reverse (hr_id <$> hd_records (hw_registry w)) ≡ₚ hr_id <$> hd_records (hw_registry w)) as Hp
    by apply reverse_Permutation.
  split; [exact Hp|]. rewrite Hp. apply Hd.
Qed.

(** ** What an account can learn *)

(** The facts of an account that may use its session. *)
Definition live_facts (facts : ActorFacts) : Prop := ActorFacts_valid facts /\ actor_live facts.

Lemma decision_live facts row ref data action ex :
  decode_row row = Ok (ref, data) -> live_facts facts ->
  decision facts row ref data action ex =
  (_ ← raise_if (action ∉ ["read"; "write"]%string) (ValueError "invalid_access_request");
   _ ← raise_if (~ optional Revision (ex_user_revision ex) \/ ~ optional Revision (ex_revision ex) \/
                 ~ optional Revision (ex_acl_revision ex)) (ValueError "invalid_revision");
   Ok (if ex_cancelled ex then Cancelled
       else if decide (as_expected (ex_user_revision ex) (af_revision facts) /\
                       as_expected (ex_revision ex) (hr_revision row) /\
                       as_expected (ex_acl_revision ex) (hr_acl_revision row))
       then if permits action (shown_permissions facts data) then Allowed else Forbidden
       else RevisionConflict)).
Proof.
  intros Hdec [Hf (Hdis & Hmust & Hses)].
  pose proof (decode_row_ok _ _ _ Hdec) as (Hid & Hk & Hrr & Hra & -> & Hg & _ & [_ Hgv]).
  assert (ResourceRef_valid (ref_of (hr_id row) (hr_kind row))) as Href by (by split_and!).
  unfold decision.
  set (snapshot := fun p => {| gs_subjectId := af_userId facts; gs_target := ref_of (hr_id row) (hr_kind row);
                               gs_aclRevision := hr_acl_revision row; gs_permissions := p |}).
  assert (optional GrantSnapshot_valid (snapshot <$> sr_grants data !! af_userId facts)) as Hgrant.
  { destruct (sr_grants data !! af_userId facts) as [p|] eqn:Ep; [|done]. apply Hgv in Ep as (_ & Hp & _).
    split; [apply Hf|]. split; [exact Href|]. split; [exact Hra|exact Hp]. }
  assert (match sr_grants data !! af_userId facts with
          | None => Ok None
          | Some p => Some <$> model_validate (Shaped (snapshot p))
          end = Ok (snapshot <$> sr_grants data !! af_userId facts)) as ->.
  { destruct (sr_grants data !! af_userId facts) as [p|]; [|done].
    assert (model_validate (Shaped (snapshot p)) = Ok (snapshot p)) as -> by (by apply model_validate_valid). done. }
  cbn [mbind res_bind].
  rewrite evaluate_access_facts; [|exact scope_ok|exact Hf|split; [exact Href|by split]|exact Hgrant].
  match goal with |- context [access_code_of ?a ?b ?c ?g action ex] =>
    enough (access_code_of a b c g action ex =
      Ok (if ex_cancelled ex then Cancelled
          else if decide (as_expected (ex_user_revision ex) (af_revision facts) /\
                          as_expected (ex_revision ex) (hr_revision row) /\
                          as_expected (ex_acl_revision ex) (hr_acl_revision row))
          then if permits action (shown_permissions facts data) then Allowed else Forbidden
          else RevisionConflict)) as -> by done end.
  unfold access_code_of. cbn [tf_ref rf_scope ref_of tf_active tf_revision tf_aclRevision].
  rewrite decide_False by (by intros Hn; apply Hn). rewrite Hdis, Hmust, Hses. cbn [orb negb].
  destruct (ex_cancelled ex); [done|].
  repeat case_decide; try tauto; unfold shown_permissions.
  - rewrite decide_True by done. unfold permits. by case_decide.
  - rewrite decide_False by done. destruct (sr_grants data !! af_userId facts) as [p|]; cbn.
    + rewrite decide_False; [done|]. intros [?|[?|?]]; congruence.
    + unfold permits. by case_decide.
Qed.

Lemma view_of_some facts row ref data :
  decode_row row = Ok (ref, data) ->
  view_of facts row =
  if pm_read (shown_permissions facts data)
  then Some {| rr_ref := ref; rr_revision := hr_revision row; rr_aclRevision := hr_acl_revision row;
               rr_label := sr_label data; rr_order := sr_order data; rr_permissions := shown_permissions facts data |}
  else None.
Proof. unfold view_of. by intros ->. Qed.

Lemma require_view facts row ref data action ex :
  decode_row row = Ok (ref, data) -> live_facts facts ->
  require facts row ref data action ex =
  match view_of facts row with Some v => check_view facts action ex v | None => Raise not_found end.
Proof.
  intros Hdec Hf. unfold require. rewrite !(decision_live _ _ _ _ _ _ Hdec Hf), (view_of_some _ _ _ _ Hdec).
  assert (raise_if ("read"%string ∉ ["read"; "write"]%string) (ValueError "invalid_access_request") = Ok tt) as -> by done.
  cbn [mbind res_bind ex_cancelled ex_user_revision ex_revision ex_acl_revision nothing_expected optional].
  rewrite (raise_if_no (~ True \/ ~ True \/ ~ True)) by tauto. cbn [mbind res_bind as_expected].
  rewrite (decide_True (P := True /\ True /\ True)) by done.
  assert (permits "read" (shown_permissions facts data) = pm_read (shown_permissions facts data)) as -> by done.
  destruct (pm_read (shown_permissions facts data)) eqn:Ep; [|done].
  rewrite (raise_if_no (Allowed <> Allowed)) by (by intros Hn; apply Hn). cbn [mbind res_bind].
  unfold check_view. destruct (raise_if (action ∉ _) _); [|done]. cbn [mbind res_bind].
  destruct (raise_if _ (ValueError "invalid_revision")); [|done]. cbn [mbind res_bind rr_revision rr_aclRevision].
  destruct (ex_cancelled ex); [done|]. cbn [rr_permissions].
  destruct (decide (as_expected (ex_user_revision ex) (af_revision facts) /\ _)); [|done].
  by destruct (permits action _).
Qed.

(** The checks of a public record pass on stored data. *)
Lemma public_view facts row ref data v :
  decode_row row = Ok (ref, data) -> view_of facts row = Some v ->
  public facts ref (hr_revision row) (hr_acl_revision row) data = Ok v.
Proof.
  intros Hdec Hv. rewrite (view_of_some _ _ _ _ Hdec) in Hv.
  destruct (pm_read (shown_permissions facts data)) eqn:Ep; [|done]. injection Hv as <-.
  pose proof (decode_row_ok _ _ _ Hdec) as (Hid & Hk & Hrr & Hra & -> & Hg & Hs & [_ Hgv]).
  apply StoredRecord_validate_ok in Hs as (_ & _ & _ & Hl & _).
  unfold public, RegistryRecord_valid. cbn [rr_label rr_order rr_ref rr_revision rr_aclRevision rr_permissions].
  rewrite Hl. apply bind_ok. exists (sr_label data). split; [done|].
  apply bind_ok. exists tt. split; [|done]. apply raise_if_no.
  assert (ResourceRef_valid (ref_of (hr_id row) (hr_kind row))) as Href by (by split_and!).
  assert (Permissions_valid (shown_permissions facts data)) as Hp.
  { unfold shown_permissions. case_decide; [done|].
    destruct (sr_grants data !! af_userId facts) as [p|] eqn:E; [|done]. by apply Hgv in E as (_ & ? & _). }
  unfold shown_permissions in Hp. tauto.
Qed.

Lemma view_of_id facts row v : view_of facts row = Some v -> view_id v = hr_id row.
Proof.
  unfold view_of. destruct (decode_row row) as [[ref data]|] eqn:E; [|done].
  apply decode_row_ok in E as (_ & _ & _ & _ & -> & _). case_match; [|done]. by intros [= <-].
Qed.

Lemma views_elem facts d v : v ∈ views facts d <-> exists row, row ∈ hd_records d /\ view_of facts row = Some v.
Proof.
  unfold views. rewrite list_elem_of_omap. by setoid_rewrite py_sorted_elem.
Qed.

(** A record is looked up among the views. *)
Lemma views_find facts d id row :
  rows_ok d -> sql_one (fun r => hr_id r = id) (hd_records d) = Some row ->
  sql_one (fun v => view_id v = id) (views facts d) = view_of facts row.
Proof.
  intros Hd Hrow. apply sql_one_some in Hrow as [Hrow Hid].
  destruct (view_of facts row) as [v|] eqn:Ev.
  - destruct (sql_one_exists (fun v => view_id v = id) (views facts d) v) as [v' Hv'].
    { apply views_elem. by exists row. } { by rewrite (view_of_id _ _ _ Ev). }
    rewrite Hv'. apply sql_one_some in Hv' as [(row' & Hrow' & Ev')%views_elem Hid'].
    rewrite (view_of_id _ _ _ Ev') in Hid'.
    assert (row' = row) as -> by (eapply (nodup_column_inj hr_id); [apply Hd|done..|congruence]). congruence.
  - apply sql_one_none. apply Forall_forall. intros v (row' & Hrow' & Ev')%views_elem Hid'.
    rewrite (view_of_id _ _ _ Ev') in Hid'.
    assert (row' = row) as -> by (eapply (nodup_column_inj hr_id); [apply Hd|done..|congruence]). congruence.
Qed.

Lemma views_find_none facts d id :
  sql_one (fun r => hr_id r = id) (hd_records d) = None ->
  sql_one (fun v => view_id v = id) (views facts d) = None.
Proof.
  intros Hn. apply sql_one_none in Hn. apply sql_one_none, Forall_forall.
  intros v (row & Hrow & Ev)%views_elem Hid. rewrite (view_of_id _ _ _ Ev) in Hid.
  rewrite Forall_forall in Hn. by apply (Hn row).
Qed.

(** A computation on the record of a name, when a record that is not shown
    answers as an absent one. *)
Lemma target_view {A} facts id d (k : record_row -> ResourceRef -> StoredRecord -> res A) (g : RegistryRecord -> res A) :
  rows_ok d ->
  (forall row ref data, decode_row row = Ok (ref, data) ->
     k row ref data = match view_of facts row with Some v => g v | None => Raise not_found end) ->
  ('(row, ref, data) ← target id d; k row ref data) =
  (_ ← id_ id; v ← require_some (sql_one (fun v => view_id v = id) (views facts d)) not_found; g v).
Proof.
  intros Hd Hk. unfold target. destruct (id_ id) as [t|]; [|done]. cbn [mbind res_bind].
  destruct (sql_one (fun r => hr_id r = id) (hd_records d)) as [row|] eqn:Er.
  - rewrite (views_find _ _ _ _ Hd Er). cbn [require_some mbind res_bind].
    pose proof (sql_one_some _ _ _ Er) as [Hrow _]. pose proof (ro_rows _ Hd) as Hr. rewrite Forall_forall in Hr.
    specialize (Hr _ Hrow). destruct (decode_row row) as [[ref data]|] eqn:Ed; [|done]. cbn.
    rewrite (Hk _ _ _ Ed). by destruct (view_of facts row).
  - by rewrite (views_find_none _ _ _ Er).
Qed.

(** ** Pages *)

Lemma list_row_view facts after limit acc row :
  live_facts facts -> is_ok (decode_row row) = true -> ls_records acc + 1 <= MAX_RECORDS ->
  list_row facts after limit acc row =
  Ok match view_of facts row with
     | Some v =>
         {| ls_bound := ls_bound acc ++ [public_json v];
            ls_entries := if decide (id_after after (view_id v) /\ Z.of_nat (length (ls_entries acc)) <= limit)
                          then ls_entries acc ++ [v] else ls_entries acc;
            ls_records := ls_records acc + 1; ls_grants := ls_grants acc + grant_size row;
            ls_cursor_visible := ls_cursor_visible acc || bool_decide (Some (view_id v) = after) |}
     | None => {| ls_bound := ls_bound acc; ls_entries := ls_entries acc; ls_records := ls_records acc + 1;
                  ls_grants := ls_grants acc + grant_size row; ls_cursor_visible := ls_cursor_visible acc |}
     end.
Proof.
  intros Hf Hok Hb. unfold list_row.
  rewrite (raise_if_no (ls_records acc + 1 > MAX_RECORDS)) by lia. cbn [mbind res_bind].
  destruct (decode_row row) as [[ref data]|] eqn:Ed; [|done]. cbn [mbind res_bind].
  rewrite (decision_live _ _ _ _ _ _ Ed Hf), (grant_size_decoded _ _ _ Ed).
  assert (raise_if ("read"%string ∉ ["read"; "write"]%string) (ValueError "invalid_access_request") = Ok tt) as -> by done.
  cbn [mbind res_bind ex_cancelled ex_user_revision ex_revision ex_acl_revision nothing_expected optional as_expected].
  rewrite (raise_if_no (~ True \/ ~ True \/ ~ True)) by tauto. cbn [mbind res_bind].
  rewrite (decide_True (P := True /\ True /\ True)) by done.
  assert (permits "read" (shown_permissions facts data) = pm_read (shown_permissions facts data)) as -> by done.
  pose proof (view_of_some facts _ _ _ Ed) as Ev.
  destruct (pm_read (shown_permissions facts data)) eqn:Ep; rewrite Ev; [|done].
  rewrite decide_True by done. rewrite (public_view _ _ _ _ _ Ed Ev). cbn [mbind res_bind].
  by rewrite <- (view_of_id _ _ _ Ev).
Qed.

Lemma list_rows facts after limit l : forall acc,
  live_facts facts -> Forall (fun row => is_ok (decode_row row) = true) l ->
  ls_records acc + Z.of_nat (length l) <= MAX_RECORDS ->
  (length (ls_entries acc) <= Z.to_nat (limit + 1))%nat -> 0 <= limit ->
  let vs := omap (view_of facts) l in
  fold_res (list_row facts after limit) acc l =
  Ok {| ls_bound := ls_bound acc ++ (public_json <$> vs);
        ls_entries := take (Z.to_nat (limit + 1)) (ls_entries acc ++ filter (fun v => id_after after (view_id v)) vs);
        ls_records := ls_records acc + Z.of_nat (length l);
        ls_grants := ls_grants acc + zsum (grant_size <$> l);
        ls_cursor_visible := ls_cursor_visible acc || bool_decide (after ∈ Some <$> (view_id <$> vs)) |}.
Proof.
  induction l as [|row l IH]; intros acc Hf Hl Hb Hlen Hlim; cbn [fold_res].
  { cbn. rewrite !app_nil_r, take_ge, !Z.add_0_r, orb_false_r by done. by destruct acc. }
  apply Forall_cons in Hl as [Hrow Hl]. cbn [length] in Hb.
  rewrite list_row_view by (done || lia). cbn [mbind res_bind omap list_omap].
  destruct (view_of facts row) as [v|]; cbn zeta.
  - rewrite IH; cbn [ls_bound ls_entries ls_records ls_grants ls_cursor_visible]; [|done|done|lia| |done].
    2:{ case_decide; [rewrite length_app; cbn; lia|done]. }
    f_equal. f_equal; cbn [fmap list_fmap length].
    + by rewrite <- app_assoc.
    + rewrite filter_cons. destruct (decide (id_after after (view_id v))) as [Ha|Ha].
      * destruct (decide (Z.of_nat (length (ls_entries acc)) <= limit)) as [Hle|Hle].
        -- rewrite decide_True by done. by rewrite <- app_assoc.
        -- rewrite decide_False by tauto. rewrite !take_app_length'; [done|lia..].
      * by rewrite decide_False by tauto.
    + lia.
    + rewrite zsum_cons. lia.
    + rewrite <- orb_assoc. f_equal. apply eq_true_iff_eq.
      rewrite orb_true_iff, !bool_decide_eq_true, elem_of_cons. naive_solver.
  - rewrite IH; cbn [ls_bound ls_entries ls_records ls_grants ls_cursor_visible]; [|done|done|lia|done|done].
    f_equal. f_equal; cbn [fmap list_fmap length]; rewrite ?zsum_cons; lia.
Qed.

(** The page that [list] answers is a page of the views. *)
Lemma list_body_page facts after snapshot limit d :
  stored d -> live_facts facts -> 1 <= limit ->
  list_body facts after snapshot limit d = page_of facts after snapshot limit (views facts d).
Proof.
  intros Hst Hf Hlim. destruct (stored_state _ Hst) as (s & Es & E1 & E2 & Hb & _). destruct Hst as [Hd _].
  unfold list_body. rewrite Es. cbn [mbind res_bind].
  rewrite take_all by (by rewrite py_sorted_length).
  rewrite list_rows; cbn [ls_bound ls_entries ls_records ls_grants ls_cursor_visible length];
    [|done|rewrite py_sorted_perm; apply Hd|rewrite py_sorted_length; lia|lia|lia].
  cbn [mbind res_bind ls_bound ls_entries ls_records ls_grants ls_cursor_visible app].
  assert (zsum (grant_size <$> py_sorted row_le (hd_records d)) = zsum (grant_size <$> hd_records d)) as ->.
  { by rewrite py_sorted_perm. }
  rewrite py_sorted_length.
  rewrite (raise_if_no (_ <> _)) by (intros Hn; apply Hn; f_equal; lia). cbn [mbind res_bind].
  fold (views facts d). unfold page_of.
  destruct (raise_if _ revision_conflict); [|done]. cbn [mbind res_bind].
  set (vs := views facts d). set (rest := filter (fun v => id_after after (view_id v)) vs).
  assert (bool_decide (after = None) || bool_decide (after ∈ Some <$> (view_id <$> vs)) = false <->
          ~ optional (fun a => a ∈ view_id <$> vs) after) as Hc.
  { rewrite orb_false_iff, !bool_decide_eq_false. destruct after as [cursor|]; cbn [optional].
    - rewrite list_elem_of_fmap. naive_solver.
    - tauto. }
  destruct (decide (optional (fun a => a ∈ view_id <$> vs) after)) as [Ho|Ho].
  2:{ rewrite !raise_if_yes; [done|done|by apply Hc]. }
  rewrite (raise_if_no (_ = false)) by (rewrite Hc; tauto).
  rewrite (raise_if_no (~ optional _ after)) by tauto. cbn [mbind res_bind].
  rewrite length_take. destruct (decide (limit < Z.of_nat (length rest))) as [Hm|Hm].
  - rewrite decide_True by lia. rewrite lookup_take_lt by lia.
    destruct (lookup_lt_is_Some_2 rest (Z.to_nat (limit - 1))) as [x Hx]; [lia|].
    rewrite Hx. cbn. rewrite take_take. by rewrite Nat.min_l by lia.
  - rewrite decide_False by lia. cbn. rewrite take_take. by rewrite Nat.min_l by lia.
Qed.

Definition id_lt (v w : RegistryRecord) : Prop := id_after (Some (view_id v)) (view_id w).

#[local] Instance row_le_total : Total row_le.
Proof. intros a b. apply str_le_total. Qed.
#[local] Instance row_le_trans : Transitive row_le.
Proof. intros a b c. apply str_le_trans. Qed.

Lemma views_sorted facts d : rows_ok d -> StronglySorted id_lt (views facts d).
Proof.
  intros Hd. unfold views. pose proof (py_sorted_strong row_le (hd_records d)) as Hs.
  assert (NoDup (hr_id <$> py_sorted row_le (hd_records d))) as Hn by (rewrite py_sorted_perm; apply Hd).
  induction Hs as [|row l Hl IH Hle]; [constructor|]. cbn in Hn. apply NoDup_cons in Hn as [Hrow Hn].
  cbn [omap list_omap]. specialize (IH Hn). destruct (view_of facts row) as [v|] eqn:Ev; [|done].
  constructor; [done|]. apply Forall_forall. intros w (row' & Hr & Ew)%list_elem_of_omap.
  unfold id_lt, id_after. rewrite (view_of_id _ _ _ Ev), (view_of_id _ _ _ Ew).
  rewrite Forall_forall in Hle. split; [by apply Hle|]. intros E. apply Hrow. rewrite E.
  by apply list_elem_of_fmap_2.
Qed.

Lemma view_id_identity facts d v : v ∈ views facts d -> Identity (view_id v).
Proof.
  intros (row & _ & Ev)%views_elem. rewrite (view_of_id _ _ _ Ev). unfold view_of in Ev.
  destruct (decode_row row) as [[ref data]|] eqn:E; [|done]. by apply decode_row_ok in E as (? & _).
Qed.

(** What follows the last record of a prefix is the rest. *)
Lemma after_prefix pre x suf :
  StronglySorted id_lt (pre ++ x :: suf) ->
  filter (fun v => id_after (Some (view_id x)) (view_id v)) (pre ++ x :: suf) = suf.
Proof.
  intros Hs. rewrite filter_app, filter_cons, decide_False by (intros [_ Hn]; by apply Hn).
  apply StronglySorted_app in Hs as (Hx & _ & Hs). apply StronglySorted_inv in Hs as [_ Hs].
  rewrite filter_none.
  - rewrite filter_all; [done|]. intros v Hv. rewrite Forall_forall in Hs. by apply (Hs v).
  - intros v Hv [H1 H2]. destruct (Hx v x Hv ltac:(left)) as [H3 H4]. apply H2. symmetry.
    by apply str_le_antisym.
Qed.

Definition cursor_at (after : option string) (pre : list RegistryRecord) : Prop :=
  match after with None => pre = [] | Some a => exists pre' x, pre = pre' ++ [x] /\ a = view_id x end.

Lemma page_after facts after limit snapshot pre suf :
  StronglySorted id_lt (pre ++ suf) -> Forall (fun v => Identity (view_id v)) (pre ++ suf) -> cursor_at after pre ->
  1 <= limit ->
  optional (fun s => s = visible_hmac rg_snapshot_domain (reader_json facts :: (public_json <$> pre ++ suf))) snapshot ->
  page_of facts after snapshot limit (pre ++ suf) =
  Ok {| la_scope := scope; la_userRevision := if rg_names_reader then Some (af_revision facts) else None;
        la_entries := take (Z.to_nat limit) suf;
        la_snapshot := visible_hmac rg_snapshot_domain (reader_json facts :: (public_json <$> pre ++ suf));
        la_nextAfter := if decide (limit < Z.of_nat (length suf))
                        then view_id <$> (suf !! Z.to_nat (limit - 1)) else None |}.
Proof.
  intros Hs Hi Hc Hlim Hsnap. unfold page_of.
  rewrite (raise_if_no (~ optional _ snapshot)) by tauto. cbn [mbind res_bind].
  assert (filter (fun v => id_after after (view_id v)) (pre ++ suf) = suf) as ->.
  { destruct after as [cursor|]; cbn in Hc.
    - destruct Hc as (pre' & x & -> & ->). rewrite <- app_assoc in Hs |- *. by apply after_prefix.
    - subst pre. apply filter_all. intros v Hv E. rewrite Forall_forall in Hi. specialize (Hi v Hv).
      rewrite E in Hi. by destruct Hi. }
  rewrite (raise_if_no (~ optional _ after)); [done|]. intros Hn. apply Hn.
  destruct after as [cursor|]; cbn in Hc |- *; [|done].
  destruct Hc as (pre' & x & -> & ->).
  apply list_elem_of_fmap_2. rewrite !elem_of_app. left. right. left.
Qed.

Lemma read_pages_from facts limit d fuel : forall after snapshot pre suf,
  stored d -> live_facts facts -> 1 <= limit -> views facts d = pre ++ suf -> cursor_at after pre ->
  optional (fun s => s = visible_hmac rg_snapshot_domain (reader_json facts :: (public_json <$> pre ++ suf))) snapshot ->
  (length suf < fuel)%nat -> read_pages fuel facts limit after snapshot d = Ok suf.
Proof.
  induction fuel as [|fuel IH]; intros after snapshot pre suf Hst Hf Hlim Hv Hc Hsnap Hlen; [lia|].
  cbn [read_pages]. rewrite list_body_page by done.
  pose proof (views_sorted facts d (proj1 Hst)) as Hs. rewrite Hv in Hs |- *.
  rewrite page_after; [|done| |done|done|done].
  2:{ apply Forall_forall. intros v Hin. rewrite <- Hv in Hin. by eapply view_id_identity. }
  cbn [mbind res_bind la_nextAfter la_entries la_snapshot].
  destruct (decide (limit < Z.of_nat (length suf))) as [Hm|Hm].
  2:{ by rewrite take_ge by lia. }
  destruct (lookup_lt_is_Some_2 suf (Z.to_nat (limit - 1))) as [x Hx]; [lia|]. rewrite Hx. cbn [fmap option_fmap option_map].
  assert (take (Z.to_nat limit) suf = take (Z.to_nat (limit - 1)) suf ++ [x]) as Ht.
  { replace (Z.to_nat limit) with (S (Z.to_nat (limit - 1))) by lia. by apply take_S_r. }
  rewrite (IH (Some (view_id x)) _ (pre ++ take (Z.to_nat limit) suf) (drop (Z.to_nat limit) suf));
    try done.
  - cbn [mbind res_bind]. by rewrite take_drop.
  - by rewrite <- app_assoc, take_drop.
  - rewrite Ht, app_assoc. cbn. by eexists _, _.
  - cbn. by rewrite <- app_assoc, take_drop.
  - rewrite length_drop. lia.
Qed.

(** C35 Reading page by page shows every record that the account may read once, in
    the order of identities.  In a stored registry, an account that starts
    without a cursor and follows [nextAfter] with the snapshot that it was given
    reaches the end of the list, whatever the size of its pages, and the pages
    together are exactly the views of the account; no page is refused. *)
Theorem list_pages_exact facts limit d fuel :
  stored d -> live_facts facts -> 1 <= limit -> (length (hd_records d) < fuel)%nat ->
  read_pages fuel facts limit None None d = Ok (views facts d) /\ StronglySorted id_lt (views facts d).
Proof.
  intros Hst Hf Hlim Hfuel. split; [|apply views_sorted, Hst].
  eapply (read_pages_from _ _ _ _ None None []); [done|done|done|done|done|done|].
  eapply Nat.le_lt_trans; [|exact Hfuel]. unfold views. rewrite <- (py_sorted_length row_le (hd_records d)).
  induction (py_sorted row_le (hd_records d)) as [|row l IH]; cbn; [done|]. case_match; cbn; lia.
Qed.

(** ** Hidden records *)

(** A current session is that of an enabled account, as it is stored. *)
Lemma assert_current_user now accounts p v : assert_current now accounts p = Ok v ->
  exists x, sql_one (fun x => u_id x = p_id p) (users accounts) = Some x /\ u_disabled x = false /\
    u_role x = p_role p /\ u_must_change x = p_must_change_password p.
Proof.
  unfold assert_current. intros Hc. apply bind_ok in Hc as ([[t1 f1] x1] & Hj & Hl).
  apply require_some_ok in Hj. apply bind_Some in Hj as (t & _ & Hj).
  apply bind_Some in Hj as ([[t2 f2] x2] & Hj & Hd). case_decide as Hd'; [|done]. injection Hd as -> -> ->.
  unfold join_session, user_by_id in Hj. apply bind_Some in Hj as (f & _ & Hj).
  apply bind_Some in Hj as (x & Hx & [= -> -> ->]). cbn in Hd'. destruct Hd' as [_ E]. rewrite E in Hx.
  exists x1. split; [exact Hx|]. apply raise_if_ok in Hl. cbn in Hl.
  assert (session_live now (t1, f1, x1)) as (? & _) by (apply dec_stable; cbn; tauto).
  destruct (decide (u_role x1 = p_role p)), (decide (u_must_change x1 = p_must_change_password p)); tauto.
Qed.

Lemma admission_ok now actor core_id home_id admin w facts :
  admission now actor core_id home_id admin w = Ok facts ->
  live_facts facts /\ af_userId facts = p_id actor /\ af_role facts = p_role actor /\
  (admin = true -> p_role actor = Admin) /\ (core_id, home_id) = (hs_coreId scope, hs_homeId scope) /\
  assert_current now (hw_auth w) actor = Ok tt /\
  exists x, sql_one (fun x => u_id x = p_id actor) (users (hw_auth w)) = Some x /\ facts = user_facts x.
Proof.
  unfold admission. intros E. apply bind_ok in E as ([] & Ecur & E).
  destruct (assert_current_user _ _ _ _ Ecur) as (x & Ex & Hdis & Hrole & Hmust).
  apply bind_ok in E as (? & Hm & E). apply raise_if_ok in Hm.
  apply bind_ok in E as (? & Hctx & E). rewrite Ex in E. cbn [require_some mbind res_bind] in E.
  apply bind_ok in E as (f & Hf & E). apply model_validate_ok in Hf as [[= <-] Hf].
  apply bind_ok in E as (? & Hadm & E). apply raise_if_ok in Hadm.
  apply bind_ok in E as (s & _ & [= <-]). pose proof (sql_one_some _ _ _ Ex) as [_ Hid].
  unfold check_context in Hctx. apply bind_ok in Hctx as (? & _ & Hctx). apply bind_ok in Hctx as (? & _ & Hctx).
  apply bind_ok in Hctx as (? & Hscope & _). apply raise_if_ok, dec_stable in Hscope.
  cbn [af_role user_facts] in Hadm.
  assert (live_facts (user_facts x)) as Hlive.
  { split; [exact Hf|]. unfold actor_live. cbn. rewrite Hmust. by destruct (p_must_change_password actor). }
  split; [exact Hlive|]. split; [exact Hid|]. split; [exact Hrole|]. split.
  { intros ->. rewrite <- Hrole. apply dec_stable. tauto. }
  split; [exact Hscope|]. split; [exact Ecur|]. by exists x.
Qed.

(** Two registries that show the same records to an account. *)
Definition same_view (user : string) (role : Role) d d' : Prop :=
  forall facts, af_userId facts = user -> af_role facts = role -> views facts d = views facts d'.
#[local] Instance same_view_equiv user role : Equivalence (same_view user role).
Proof.
  split; [by intros d facts|intros d d' Hd facts H1 H2; symmetry; by apply Hd|].
  intros d1 d2 d3 H12 H23 facts H1 H2. rewrite H12 by done. by apply H23.
Qed.

(** Two databases with the same accounts and the same home. *)
Definition same_accounts w w' : Prop :=
  hw_auth w' = hw_auth w /\ hw_context w' = hw_context w /\ hw_schema w' = hw_schema w.

Lemma admission_same now actor core_id home_id admin w w' :
  same_accounts w w' -> stored (hw_registry w) -> stored (hw_registry w') ->
  admission now actor core_id home_id admin w' = admission now actor core_id home_id admin w.
Proof.
  intros (H1 & H2 & H3) Hs Hs'. unfold admission, check_context. rewrite H1, H2, H3.
  destruct (stored_state _ Hs) as (s & -> & _). by destruct (stored_state _ Hs') as (s' & -> & _).
Qed.

(** The answer of a reading. *)
Definition guarded {A} (r : res A) : res A :=
  match r with Raise x => Raise (if storage_exn x then server_unavailable else x) | Ok a => Ok a end.
Definition rate_gate (consume : bool) (category : string) (e : registry_env) (actor : Principal) : M world unit :=
  if consume then on_accounts (rate_limit rate_key (he_auth e) [(category, u (p_id actor), 120)]) else mret tt.

Lemma reading_answer e actor core_id home_id admin consume A (f : ActorFacts -> registry_db -> res A) w :
  (registry_transaction e actor core_id home_id admin consume None (fun facts => read_tables (f facts)) w).1 =
  match rate_gate consume rg_read_category e actor w with
  | (Raise x, _) => Raise x
  | (Ok _, w1) => guarded (facts ← admission (clock (he_auth e) 1) actor core_id home_id admin w1;
                           f facts (hw_registry w1))
  end.
Proof.
  unfold registry_transaction, rate_gate. unfold mbind at 1, M_bind at 1.
  match goal with |- context [(if consume then ?a else ?b) w] =>
    destruct ((if consume then a else b) w) as [[[]|x] w1] end; [|done].
  unfold storage_guard, mbind, M_bind, transaction, get_state, lift, res_bind.
  destruct (admission _ _ _ _ _ w1) as [facts|x]; [|done].
  unfold savepoint, read_tables, mbind, M_bind, get_state, lift, mret, M_ret.
  destruct (f facts (hw_registry w1)) as [a|x]; [done|]. by destruct x.
Qed.

Lemma rate_gate_same consume category e actor w w' :
  same_accounts w w' ->
  match rate_gate consume category e actor w, rate_gate consume category e actor w' with
  | (Ok _, w1), (Ok _, w1') => same_accounts w1 w1' /\ hw_registry w1 = hw_registry w /\ hw_registry w1' = hw_registry w'
  | (Raise x, _), (Raise x', _) => x = x'
  | _, _ => False
  end.
Proof.
  intros (H1 & H2 & H3). unfold rate_gate. destruct consume; [|done]. unfold on_accounts. rewrite H1.
  by destruct (rate_limit _ _ _ (hw_auth w)) as [[[]|x] a].
Qed.

(** A reading answers the same in both when its body does. *)
Lemma reading_same e actor core_id home_id consume A (f : ActorFacts -> registry_db -> res A) w w' :
  same_accounts w w' -> stored (hw_registry w) -> stored (hw_registry w') ->
  (forall facts, live_facts facts -> af_userId facts = p_id actor -> af_role facts = p_role actor ->
     f facts (hw_registry w') = f facts (hw_registry w)) ->
  (registry_transaction e actor core_id home_id false consume None (fun facts => read_tables (f facts)) w').1 =
  (registry_transaction e actor core_id home_id false consume None (fun facts => read_tables (f facts)) w).1.
Proof.
  intros Hsame Hs Hs' Hf. rewrite !reading_answer.
  pose proof (rate_gate_same consume rg_read_category e actor w w' Hsame) as Hg.
  destruct (rate_gate _ _ _ _ w) as [[t|x] w1], (rate_gate _ _ _ _ w') as [[t'|x'] w1']; try done; [|by subst].
  destruct Hg as (Hsame1 & Er & Er'). rewrite <- Er in Hs, Hf. rewrite <- Er' in Hs', Hf.
  rewrite (admission_same _ _ _ _ _ w1 w1') by done.
  destruct (admission _ _ _ _ _ w1) as [facts|x] eqn:Ea; [|done]. cbn [mbind res_bind].
  apply admission_ok in Ea as (Hlive & Hu & Hr & _). by rewrite Hf.
Qed.

Lemma get_view facts id d :
  rows_ok d -> live_facts facts ->
  ('(row, ref, data) ← target id d;
   _ ← require facts row ref data "read" nothing_expected;
   public facts ref (hr_revision row) (hr_acl_revision row) data) =
  (_ ← id_ id; require_some (sql_one (fun v => view_id v = id) (views facts d)) not_found).
Proof.
  intros Hd Hf. rewrite (target_view facts id d _ (fun v => Ok v) Hd).
  - destruct (id_ id); [|done]. cbn [mbind res_bind]. by destruct (require_some _ _).
  - intros row ref data Ed. rewrite (require_view _ _ _ _ _ _ Ed Hf).
    pose proof (view_of_some facts _ _ _ Ed) as Ev.
    destruct (view_of facts row) as [v|] eqn:Ew; [|done]. rewrite (public_view _ _ _ _ _ Ed Ew).
    destruct (pm_read (shown_permissions facts data)) eqn:Ep; [|done]. injection Ev as ->.
    unfold check_view. cbn [ex_user_revision ex_revision ex_acl_revision nothing_expected optional ex_cancelled as_expected].
    rewrite (decide_True (P := True /\ True /\ True)) by done. unfold permits. cbn [rr_permissions].
    rewrite decide_True by done. by rewrite Ep.
Qed.

Lemma authority_view facts id action ex d :
  rows_ok d -> live_facts facts ->
  authority_check facts id action ex d =
  (_ ← id_ id; v ← require_some (sql_one (fun v => view_id v = id) (views facts d)) not_found;
   check_view facts action ex v).
Proof.
  intros Hd Hf. unfold authority_check. apply (target_view facts id d _ (check_view facts action ex) Hd).
  intros row ref data Ed. by apply require_view.
Qed.

(** C4 What an account is not shown, it cannot learn.  In two databases with the
    same accounts whose registries show the account the same records, whatever
    other records there are and whatever they hold, every request of the account
    is answered alike: a record by its identity, the check of an authority with
    any expected revisions, and any page of the list, with its snapshot and its
    cursor.  So a hidden record is answered as an absent one, and a change of
    hidden records or of the number of records does not show. *)
Theorem hidden_records_never_show e actor core_id home_id w w' :
  same_accounts w w' -> stored (hw_registry w) -> stored (hw_registry w') ->
  same_view (p_id actor) (p_role actor) (hw_registry w) (hw_registry w') ->
  (forall id, (get e actor core_id home_id id w').1 = (get e actor core_id home_id id w).1) /\
  (forall consume id action ex, (authorize consume e actor core_id home_id id action ex w').1 =
                                (authorize consume e actor core_id home_id id action ex w).1) /\
  (forall after snapshot limit, (list_records e actor core_id home_id after snapshot limit w').1 =
                                (list_records e actor core_id home_id after snapshot limit w).1).
Proof.
  intros Hsame Hs Hs' Hv. split_and!.
  - intros id. unfold get. apply (reading_same _ _ _ _ _ _ (fun facts d => _)); [done..|].
    intros facts Hf Hu Hr. rewrite !get_view by (done || apply Hs || apply Hs'). by rewrite (Hv facts).
  - intros consume id action ex. unfold authorize.
    apply (reading_same _ _ _ _ _ _ (fun facts => authority_check facts id action ex)); [done..|].
    intros facts Hf Hu Hr. rewrite !authority_view by (done || apply Hs || apply Hs'). by rewrite (Hv facts).
  - intros after snapshot limit. unfold list_records. rewrite !lift_bind.
    destruct (raise_if (~ 1 <= limit <= 100 \/ _) _) as [t|x] eqn:El; [|done].
    apply raise_if_ok in El.
    destruct (match after with Some a => id_ a | None => Ok tt end) as [t1|]; [|done].
    destruct (raise_if (~ optional _ snapshot) _) as [t2|]; [|done].
    apply (reading_same _ _ _ _ _ _ (fun facts => list_body facts after snapshot limit)); [done..|].
    intros facts Hf Hu Hr. rewrite !list_body_page by (done || lia). by rewrite (Hv facts).
Qed.

(** ** Authority *)

(** What a stored record gives an account: everything to an administrator, and
    to a member what the record's list of grants gives it. *)
Definition rights_of (account : user_row) (data : StoredRecord) : Permissions :=
  match u_role account with
  | Admin => {| pm_read := true; pm_write := true |}
  | Member => match sr_grants data !! u_id account with Some p => p | None => {| pm_read := false; pm_write := false |} end
  end.
Lemma shown_rights account data : shown_permissions (user_facts account) data = rights_of account data.
Proof. unfold shown_permissions, rights_of. cbn. destruct (u_role account); [done|]. cbn. by destruct (_ !! _). Qed.

(** C17 Work done on a record happens under the authority to do it.  When
    [perform_authorized] succeeds, the account's session is current at that
    moment and the home is this one; the callback gets the identity, the role
    and the revision that the account's stored row has, and the account is
    neither disabled nor must it change its password; the record is stored,
    and the account may read it and, to write, write it: an administrator
    always, a member by the permissions that the record's stored list of grants
    gives it; every revision that the caller expects is the stored one of the
    record, of its grants and of the account; and the callback ran once on
    exactly this database, with its effects.  When it fails, for want of
    authority or in the callback, nothing has changed. *)
Theorem perform_authorized_safe e actor core_id home_id id action A (callback : ActorFacts -> M world A) n1 n2 n3
    w r w' :
  stored (hw_registry w) ->
  perform_authorized e actor core_id home_id id action callback n1 n2 n3 w = (r, w') ->
  (exists a account row ref data, r = Ok a /\
     callback {| af_userId := u_id account; af_revision := u_revision account; af_role := u_role account;
                 af_disabled := false; af_mustChangePassword := false; af_sessionCurrent := true |} w = (Ok a, w') /\
     assert_current (clock (he_auth e) 1) (hw_auth w) actor = Ok tt /\
     (core_id, home_id) = (hs_coreId scope, hs_homeId scope) /\
     account ∈ users (hw_auth w) /\ u_id account = p_id actor /\ u_role account = p_role actor /\
     row ∈ hd_records (hw_registry w) /\ hr_id row = id /\ decode_row row = Ok (ref, data) /\
     pm_read (rights_of account data) = true /\
     (action = "read"%string \/ (action = "write"%string /\ pm_write (rights_of account data) = true)) /\
     as_expected n1 (hr_revision row) /\ as_expected n2 (hr_acl_revision row) /\ as_expected n3 (u_revision account)) \/
  ((forall a, r <> Ok a) /\ w' = w).
Proof.
  intros Hst E. unfold perform_authorized in E. rewrite lift_bind in E.
  destruct (raise_if _ _) as [t|x] eqn:Hact in E; [|injection E as <- <-; by right]. apply raise_if_ok, dec_stable in Hact.
  apply registry_transaction_outcome in E as (w1 & _ & Hw1 & Ho). rewrite (Hw1 eq_refl) in Ho. clear Hw1 w1.
  destruct Ho as [x|facts a w2 Ha Hb|facts c n _ _]; [by right| |by right].
  left. apply M_bind_ok in Hb as (t1 & w3 & [Hauth ->]%read_tables_ok & Hcb). cbn [audited].
  apply admission_ok in Ha as (Hlive & Hu & Hrole & _ & Hsc & Hcur & account & [Hacc Haid]%sql_one_some & ->).
  unfold authority_check in Hauth. apply bind_ok in Hauth as ([[row ref] data] & Ht & Hauth).
  unfold target in Ht. apply bind_ok in Ht as (? & _ & Ht). apply bind_ok in Ht as (row0 & Hrow & Ht).
  apply require_some_ok, sql_one_some in Hrow as [Hrow Hid]. apply bind_ok in Ht as ([ref0 data0] & Hdec & [= -> -> ->]).
  rewrite (require_view _ _ _ _ _ _ Hdec Hlive), (view_of_some _ _ _ _ Hdec), shown_rights in Hauth.
  destruct (pm_read (rights_of account data)) eqn:Hread; [|done].
  unfold check_view in Hauth. cbn [ex_user_revision ex_revision ex_acl_revision ex_cancelled rr_revision rr_aclRevision rr_permissions] in Hauth.
  apply bind_ok in Hauth as (t3 & _ & Hauth). apply bind_ok in Hauth as (t4 & _ & Hauth).
  case_decide as Hx; [|done]. destruct Hx as (? & ? & ?).
  destruct (permits action (rights_of account data)) eqn:Ep; [|done].
  destruct Hlive as [_ (Hd & Hm & _)]. cbn in Hd, Hm, Hrole.
  exists a, account, row, ref, data. split_and!; try done.
  - rewrite <- Hcb. unfold user_facts. by rewrite Hd, Hm.
  - unfold permits in Ep. set_unfold in Hact. destruct Hact as [->|[->|[]]]; [by left|right]. split; [done|]. exact Ep.
Qed.

(** ** Writings *)

Inductive writing :=
  | Creating (body : raw CreateRecordRequest)
  | Updating (id : string) (body : raw UpdateRecordRequest)
  | Deleting (id : string) (revision acl_revision : Z)
  | Granting (id subject : string) (body : raw SetGrantRequest).
Definition run_writing (e : registry_env) (actor : Principal) (core_id home_id : string) (q : writing) : M world unit :=
  match q with
  | Creating body => _ ← create e actor core_id home_id body; mret tt
  | Updating id body => _ ← update e actor core_id home_id id body; mret tt
  | Deleting id rev acl => delete_record e actor core_id home_id id rev acl
  | Granting id subject body => _ ← set_grant e actor core_id home_id id subject body; mret tt
  end.
(** The action and the target of the audit row. *)
Definition audit_name (e : registry_env) (q : writing) : string * string :=
  match q with
  | Creating _ => ("create", he_uuid e)
  | Updating id _ => ("update", id)
  | Deleting id _ _ => ("delete", id)
  | Granting id _ _ => ("grant", id)
  end%string.

(** What a request left: it failed before its savepoint, or it left its audit
    row. *)
Definition audit_left (e : registry_env) (actor : Principal) (name : string * string) (r : res unit) d d' : Prop :=
  (is_ok r = false /\ d' = d) \/
  (exists d1, d' = audit_action name.1 (negb (is_ok r)) (p_id actor) name.2 (clock (he_auth e) 2) d1 /\
     hd_audit d1 = hd_audit d /\ hd_sequence d1 = hd_sequence d /\ (is_ok r = false -> d1 = d)).
(** A body that leaves the audit table to the transaction. *)
Definition no_audit {A} (m : M world A) : Prop :=
  forall w a w', m w = (Ok a, w') ->
    accounts_only w (set_registry (hw_registry w) w') /\
    hd_audit (hw_registry w') = hd_audit (hw_registry w) /\ hd_sequence (hw_registry w') = hd_sequence (hw_registry w).

Lemma no_audit_bind {A B} (m : M world A) (f : A -> M world B) :
  no_audit m -> (forall a, no_audit (f a)) -> no_audit (m ≫= f).
Proof.
  intros Hm Hf w b w' E. apply M_bind_ok in E as (a & w1 & E1 & E2).
  apply Hm in E1 as ((H1 & H2 & _ & H4) & Ha & Hs). apply (Hf a) in E2 as ((H1' & H2' & _ & H4') & Ha' & Hs').
  cbn in *. split; [|split; congruence]. split_and!; cbn; congruence.
Qed.
Lemma no_audit_lift {A} (r : res A) : no_audit (lift r).
Proof. by intros w a w' [_ ->]%lift_ok. Qed.
Lemma no_audit_ret {A} (a : A) : no_audit (mret a).
Proof. by intros w b w' [= <- <-]. Qed.
Lemma no_audit_state : no_audit get_state.
Proof. by intros w b w' [= <- <-]. Qed.
Lemma no_audit_read {A} (f : registry_db -> res A) : no_audit (read_tables f).
Proof. by intros w a w' [_ ->]%read_tables_ok. Qed.
Lemma no_audit_tables {A} (m : M registry_db A) :
  (forall d a d', m d = (Ok a, d') -> hd_audit d' = hd_audit d /\ hd_sequence d' = hd_sequence d) ->
  no_audit (on_tables m).
Proof. intros Hm w a w' (d & E & ->)%on_tables_ok. apply Hm in E. done. Qed.
Lemma save_audit e id kind rev acl s d t d' :
  save e id kind rev acl s d = (Ok t, d') -> hd_audit d' = hd_audit d /\ hd_sequence d' = hd_sequence d.
Proof. intros (s' & _ & _ & _ & ->)%save_ok. done. Qed.
Lemma bump_audit n m d t d' : bump n m d = (Ok t, d') -> hd_audit d' = hd_audit d /\ hd_sequence d' = hd_sequence d.
Proof. unfold bump. intros E. by inv_M. Qed.

Ltac no_audit_tac :=
  repeat first
    [ apply no_audit_lift | apply no_audit_ret | apply no_audit_state | apply no_audit_read
    | apply no_audit_tables; intros ? ? ?; first [apply save_audit | apply bump_audit]
    | apply no_audit_bind; [|intros ?]
    | match goal with |- no_audit (let (_, _) := ?x in _) => destruct x end
    | match goal with |- no_audit (if ?b then _ else _) => destruct b end ].

Lemma transaction_audited e actor core_id home_id admin name A (body : ActorFacts -> M world A) w r w' :
  registry_transaction e actor core_id home_id admin true (Some name) body w = (r, w') ->
  (forall facts, no_audit (body facts)) ->
  accounts_only (set_registry (hw_registry w') w) w' /\
  audit_left e actor name (_ ← r; Ok tt) (hw_registry w) (hw_registry w').
Proof.
  intros E Hb. apply registry_transaction_outcome in E as (w1 & (H1 & H2 & H3 & H4) & _ & Ho). destruct name as [n t].
  destruct Ho as [x|facts a w2 _ Eb|facts c s _ _].
  - split; [done|]. by left.
  - apply Hb in Eb as ((H1' & H2' & _ & H4') & Ha & Hs). cbn in *. split; [split_and!; cbn; congruence|]. right.
    exists (hw_registry w2). rewrite <- H3. done.
  - split; [done|]. right. exists (hw_registry w1). cbn. by rewrite H3.
Qed.

Lemma run_unit {A} (m : M world A) w r w' :
  (_ ← m; mret tt) w = (r, w') -> exists r0, m w = (r0, w') /\ r = (_ ← r0; Ok tt).
Proof.
  unfold mbind, M_bind. destruct (m w) as [[a|x] w1]; intros [= <- <-]; [by exists (Ok a)|by exists (Raise x)].
Qed.

(** Every writing is accounted for, and a denied one does nothing else.  A
    creation, an update, a deletion or a grant leaves the tables of the other
    components alone.  If it fails before its savepoint, in its body, its rate
    limit or its admission, the registry is as it was; otherwise exactly one
    audit row names its action, its target and whether it was denied, and when
    it was denied the records and the sealed row are as they were. *)
Theorem writings_audited e actor core_id home_id q w r w' :
  run_writing e actor core_id home_id q w = (r, w') ->
  hw_rest w' = hw_rest w /\ hw_context w' = hw_context w /\ hw_schema w' = hw_schema w /\
  audit_left e actor (audit_name e q) r (hw_registry w) (hw_registry w').
Proof.
  intros E.
  assert (accounts_only (set_registry (hw_registry w') w) w' /\
          audit_left e actor (audit_name e q) r (hw_registry w) (hw_registry w')) as [(H1 & H2 & _ & H4) Ha]; [|done].
  assert (forall x, accounts_only (set_registry (hw_registry w) w) w /\
            audit_left e actor (audit_name e q) (Raise x) (hw_registry w) (hw_registry w)) as Hfail.
  { intros x. split; [done|]. by left. }
  destruct q as [body|id body|id rev acl|id subject body]; cbn [run_writing audit_name] in *.
  - apply run_unit in E as (r0 & E & ->). unfold create in E. rewrite lift_bind in E.
    destruct (match body with Shaped b => CreateRecord_validate b | _ => _ end); [|injection E as <- <-; apply Hfail].
    apply transaction_audited in E; [exact E|]. intros facts. no_audit_tac.
  - apply run_unit in E as (r0 & E & ->). unfold update in E. rewrite lift_bind in E.
    destruct (match body with Shaped b => UpdateRecord_validate b | _ => _ end); [|injection E as <- <-; apply Hfail].
    apply transaction_audited in E; [exact E|]. intros facts. no_audit_tac.
  - unfold delete_record in E. rewrite lift_bind in E. destruct (revision_ rev); [|injection E as <- <-; apply Hfail].
    rewrite lift_bind in E. destruct (revision_ acl); [|injection E as <- <-; apply Hfail].
    apply transaction_audited in E; [|intros facts; no_audit_tac].
    + destruct r as [[]|x]; exact E.
    + apply no_audit_tables. intros d t d' E'. by apply M_bind_ok in E' as (? & ? & [= <- <-] & E'%bump_audit).
  - apply run_unit in E as (r0 & E & ->). unfold set_grant in E. rewrite lift_bind in E.
    destruct (match body with Shaped b => SetGrant_validate b | _ => _ end); [|injection E as <- <-; apply Hfail].
    rewrite lift_bind in E. destruct (id_ subject); [|injection E as <- <-; apply Hfail].
    apply transaction_audited in E; [exact E|]. intros facts. no_audit_tac.
Qed.

(** ** Grants *)

Lemma change_same subject p data :
  readable_grants data -> Permissions_valid p -> default NONE (sr_grants data !! subject) = p ->
  change_grant subject p (sr_grants data) = sr_grants data.
Proof.
  intros Hg Hp E. unfold change_grant. destruct (sr_grants data !! subject) as [q|] eqn:Eq; cbn in E; subst.
  - pose proof (Hg _ _ Eq) as ->. by apply insert_id.
  - cbn. by apply delete_id.
Qed.

Lemma save_rewrites e row revision acl s d u1 d' :
  save e (hr_id row) (hr_kind row) revision acl s d = (Ok u1, d') -> row ∈ hd_records d -> rows_ok d ->
  written e (hr_id row) (hr_kind row) revision acl s ->
  exists t, StoredRecord_validate s = Ok t /\
    hd_records d' = sql_update (fun r => hr_id r = hr_id row)
      (fun _ => saved_row e (hr_id row) (hr_kind row) revision acl t) (hd_records d) /\
    decode_row (saved_row e (hr_id row) (hr_kind row) revision acl t) = Ok (ref_of (hr_id row) (hr_kind row), t).
Proof.
  intros E Hrow Hd Hw. apply save_ok in E as (t & Es & Hl & Hu & ->). exists t. split; [done|].
  split; [|by eapply save_decodes]. cbn [hd_records set_records].
  unfold upsert_row in Hu. inv_ok. cbn [hr_id saved_row] in *.
  destruct (sql_one_exists (fun r => hr_id r = hr_id row) (hd_records d) row Hrow eq_refl) as [y Ey].
  match goal with E : _ = hd_records d' |- _ => rewrite <- E; clear E end. rewrite Ey.
  destruct (split_unique hr_id (hd_records d) row (ro_ids _ Hd) Hrow) as (l1 & l2 & -> & Hl1 & Hl2).
  by rewrite !sql_update_split by done.
Qed.

Lemma rewrite_same d row :
  row ∈ hd_records d -> rows_ok d ->
  sql_update (fun r => hr_id r = hr_id row) (fun _ => row) (hd_records d) = hd_records d.
Proof.
  intros Hrow Hd. destruct (split_unique hr_id (hd_records d) row (ro_ids _ Hd) Hrow) as (l1 & l2 & -> & Hl1 & Hl2).
  by rewrite sql_update_split by done.
Qed.

Lemma bump_records n m d t d' : bump n m d = (Ok t, d') -> hd_records d' = hd_records d.
Proof. unfold bump. intros E. by inv_M. Qed.

(** A record that is required under a revision has it. *)
Lemma require_revisions facts row ref data action ex t :
  decode_row row = Ok (ref, data) -> live_facts facts -> require facts row ref data action ex = Ok t ->
  as_expected (ex_revision ex) (hr_revision row) /\ as_expected (ex_acl_revision ex) (hr_acl_revision row) /\
  permits action (shown_permissions facts data) = true.
Proof.
  intros Hdec Hf. rewrite (require_view _ _ _ _ _ _ Hdec Hf), (view_of_some _ _ _ _ Hdec).
  destruct (pm_read _); [|done]. unfold check_view. cbn [rr_revision rr_aclRevision rr_permissions].
  intros E. apply bind_ok in E as (? & _ & E). apply bind_ok in E as (? & _ & E).
  destruct (ex_cancelled ex); [done|]. case_decide; [|done]. destruct (permits action _); [tauto|done].
Qed.

(** The part of [set_grant] that changes the record. *)
Lemma change_stored e row ref data subject b w1 acl w3 :
  stored (hw_registry w1) -> length (he_nonce e) = 12%nat -> Permissions_valid (gb_permissions b) ->
  row ∈ hd_records (hw_registry w1) -> decode_row row = Ok (ref, data) ->
  (if decide (default NONE (sr_grants data !! subject) <> gb_permissions b) then
     let grants := change_grant subject (gb_permissions b) (sr_grants data) in
     _ ← lift (raise_if (Z.of_nat (size grants) > MAX_GRANTS) revision_conflict);
     let delta := Z.of_nat (size grants) - Z.of_nat (size (sr_grants data)) in
     acl_revision ← lift (next_ (hr_acl_revision row));
     data ← lift (StoredRecord_validate
              {| sr_label := sr_label data; sr_order := sr_order data; sr_grants := grants |});
     _ ← on_tables (save e (hr_id row) (hr_kind row) (hr_revision row) acl_revision data);
     _ ← on_tables (bump 0 delta);
     mret acl_revision
   else mret (hr_acl_revision row)) w1 = (Ok acl, w3) ->
  exists row' data',
    hw_auth w3 = hw_auth w1 /\
    (hd_records (hw_registry w3) = sql_update (fun r => hr_id r = hr_id row) (fun _ => row') (hd_records (hw_registry w1)) /\
     decode_row row' = Ok (ref, data') /\
     sr_grants data' = change_grant subject (gb_permissions b) (sr_grants data) /\
     sr_label data' = sr_label data /\ sr_order data' = sr_order data /\ hr_revision row' = hr_revision row /\
     hr_acl_revision row' = (if decide (sr_grants data' = sr_grants data) then hr_acl_revision row
                             else hr_acl_revision row + 1) /\
     acl = hr_acl_revision row').
Proof.
  intros [Hd _] Hn Hp Hrow Hdec E.
  pose proof (decode_row_ok _ _ _ Hdec) as (Hid & Hk & Hr & Ha & Eref & Hg & Hv & _).
  destruct (decide (default NONE (sr_grants data !! subject) <> gb_permissions b)) as [Hc|Hc].
  2:{ apply dec_stable in Hc. injection E as <- <-. exists row, data. split; [done|].
      rewrite (change_same subject (gb_permissions b) data) by done.
      rewrite rewrite_same by done. by rewrite decide_True by done. }
  apply M_bind_ok in E as (? & ? & [_ ->]%lift_ok & E).
  apply M_bind_ok in E as (n & ? & [[-> Hlt]%next_ok ->]%lift_ok & E).
  apply M_bind_ok in E as (s & ? & [Es ->]%lift_ok & E).
  apply M_bind_ok in E as (? & ? & (d1 & Esave & ->)%on_tables_ok & E).
  apply M_bind_ok in E as (? & ? & (d2 & Ebump & ->)%on_tables_ok & [= <- <-]).
  pose proof (StoredRecord_validate_ok _ _ Es) as (Eo & Egr & _ & El & Es'). cbn in Eo, Egr, El.
  apply StoredRecord_validate_ok in Hv as (_ & _ & _ & El' & _). rewrite El' in El. injection El as El.
  eapply save_rewrites in Esave as (t & Et & Erec & Hdec'); [|done|done|].
  2:{ split_and!; try done; [unfold Revision in *; lia..|]. unfold readable_grants. rewrite Egr.
      by apply readable_change. }
  rewrite Es' in Et. injection Et as <-. apply bump_records in Ebump.
  exists (saved_row e (hr_id row) (hr_kind row) (hr_revision row) (hr_acl_revision row + 1) s), s.
  split; [done|]. cbn [hw_registry set_registry saved_row hr_revision hr_acl_revision] in *.
  rewrite Ebump, Erec. subst ref. split_and!; try done.
  rewrite decide_False; [done|]. rewrite Egr. intros Hsame. apply Hc. unfold change_grant in Hsame.
  destruct (pm_read (gb_permissions b)) eqn:Er.
  - rewrite <- Hsame, lookup_insert_eq. done.
  - assert (sr_grants data !! subject = None) as -> by (rewrite <- Hsame; apply lookup_delete_eq).
    cbn. destruct (gb_permissions b) as [[] []]; cbn in *; try done. by specialize (Hp eq_refl).
Qed.

(** [set_grant] does what it says.  When it succeeds, the caller expected the
    present list of grants of a stored record and the subject is an account; the
    record is the only one that may have changed, it is still decrypted, with the
    label, the order and the revision that it had, and its grants are those of
    before with the subject's set to the new permissions, or removed when these
    permit nothing; the revision of the list of grants is the next one exactly
    when a permission changed, and it is the one that is answered. *)
Theorem set_grant_exact e actor core_id home_id id subject b w g w' :
  stored (hw_registry w) -> length (he_nonce e) = 12%nat ->
  set_grant e actor core_id home_id id subject (Shaped b) w = (Ok g, w') ->
  exists row ref data row' data',
    row ∈ hd_records (hw_registry w) /\ hr_id row = id /\ decode_row row = Ok (ref, data) /\
    hr_acl_revision row = gb_expectedAclRevision b /\ subject ∈ u_id <$> users (hw_auth w') /\
    hd_records (hw_registry w') = sql_update (fun r => hr_id r = id) (fun _ => row') (hd_records (hw_registry w)) /\
    decode_row row' = Ok (ref, data') /\
    sr_grants data' = change_grant subject (gb_permissions b) (sr_grants data) /\
    sr_label data' = sr_label data /\ sr_order data' = sr_order data /\ hr_revision row' = hr_revision row /\
    hr_acl_revision row' = (if decide (sr_grants data' = sr_grants data) then hr_acl_revision row
                            else hr_acl_revision row + 1) /\
    gs_subjectId g = subject /\ gs_target g = ref /\ gs_aclRevision g = hr_acl_revision row' /\
    gs_permissions g = gb_permissions b.
Proof.
  intros Hst Hn E. unfold set_grant in E. rewrite lift_bind in E.
  destruct (SetGrant_validate b) as [b'|] eqn:Eb; [|done].
  assert (b' = b /\ Permissions_valid (gb_permissions b)) as [-> Hp].
  { unfold SetGrant_validate in Eb. inv_ok. split; [done|]. apply dec_stable. tauto. }
  rewrite lift_bind in E. destruct (id_ subject) as [v1|]; [|done].
  apply registry_transaction_outcome in E as (w1 & (_ & _ & Ereg & _) & _ & Ho). rewrite <- Ereg in *. clear Ereg.
  inversion Ho as [|facts a w2 Hadm Hbody|]; subst. clear Ho. cbn [audited hw_registry set_registry hw_auth].
  apply M_bind_ok in Hbody as ([[row ref] data] & ? & [Et ->]%read_tables_ok & Hbody).
  apply target_ok in Et as (Hrow & Hid & Hdec & _).
  apply M_bind_ok in Hbody as (? & ? & [Hreq ->]%lift_ok & Hbody).
  apply M_bind_ok in Hbody as (? & ? & [= <- <-] & Hbody).
  apply M_bind_ok in Hbody as (who & ? & [Hx ->]%lift_ok & Hbody).
  apply M_bind_ok in Hbody as (acl & w3 & Echange & [Eg ->]%lift_ok).
  apply admission_ok in Hadm as (Hlive & _).
  apply require_some_ok, sql_one_some in Hx as [Hx <-].
  pose proof (require_revisions _ _ _ _ _ _ _ Hdec Hlive Hreq) as (_ & Hacl & _). cbn in Hacl.
  pose proof (decode_row_ok _ _ _ Hdec) as (Hidr & Hk & Hr & Ha & Eref & Hg & Hv & _).
  destruct (change_stored e row ref data (u_id who) b w1 acl w3) as (row' & data' & Hw3 & Hrest);
    [done|done|done|done|done|exact Echange|].
  apply model_validate_ok in Eg as [[= <-] _]. subst id.
  exists row, ref, data, row', data'. rewrite Hw3. split_and!; try done; try apply Hrest.
  by apply list_elem_of_fmap_2.
Qed.
End registry.

(** ** A worked home

    Bytes are packed into a list of one number; a ciphertext is the plaintext
    with sixteen numbers of its text of association. *)

#[export] Instance Permissions_countable : Countable Permissions.
Proof.
  refine (inj_countable' (fun p => (pm_read p, pm_write p))
    (fun '(r, w) => {| pm_read := r; pm_write := w |}) _). by intros [].
Defined.
#[export] Instance StoredRecord_eq_dec : EqDecision StoredRecord.
Proof. solve_decision. Defined.
#[export] Instance StoredRecord_countable : Countable StoredRecord.
Proof.
  refine (inj_countable' (fun s => (sr_label s, sr_order s, sr_grants s))
    (fun '(l, o, g) => {| sr_label := l; sr_order := o; sr_grants := g |}) _). by intros [].
Defined.

Module HomeExample.
#[local] Existing Instance home_resources.
Definition dump (s : StoredRecord) : list Z := [Z.pos (encode s)].
Definition read (l : list Z) : raw StoredRecord :=
  match l with
  | [Z.pos p] => match decode p with Some s => Shaped s | None => Malformed end
  | _ => Malformed
  end.
Definition seal (a : string) : list Z := take 16 (reverse (u a) ++ replicate 16 0).
Definition encrypt (n p : list Z) (a : string) : list Z := seal a ++ p.
Definition decrypt (n c : list Z) (a : string) : option (list Z) :=
  if decide (take 16 c = seal a) then Some (drop 16 c) else None.
Lemma seal_length a : length (seal a) = 16%nat.
Proof. unfold seal. rewrite length_take, length_app, length_replicate. lia. Qed.
Lemma open n p a : decrypt n (encrypt n p a) a = Some p.
Proof.
  unfold decrypt, encrypt. rewrite take_app_length', drop_app_length' by (by rewrite seal_length).
  by rewrite decide_True.
Qed.
Lemma longer n p a : length (encrypt n p a) = (length p + 16)%nat.
Proof. unfold encrypt. rewrite length_app, seal_length. lia. Qed.
Lemma round `{UnicodeData, Registry} s : StoredRecord_validate s = Ok s -> read (dump s) = Shaped s.
Proof. intros _. unfold read, dump. by rewrite decode_encode. Qed.

Fixpoint text (j : jval) : string :=
  match j with
  | JInt z => pretty z
  | JStr s => s
  | JList l | JObj [(_, JList l)] => foldr (fun j s => text j +:+ "," +:+ s) "" l
  | _ => "?"
  end.
Definition tag (domain : string) (j : jval) : string := domain +:+ text j.
Definition visible (domain : string) (l : list jval) : string := domain +:+ pretty (Z.of_nat (length l)).
Definition place (c h : string) : string := c +:+ h.

Definition repeat (c : string) : string := foldr String.append "" (replicate 32 c).
Definition core : string := repeat "c".
Definition home : string := repeat "d".
Definition here : HomeScope := {| hs_coreId := core; hs_homeId := home |}.
Lemma here_ok : HomeScope_valid here.
Proof. by vm_compute. Qed.
Lemma bounded : 0 <= @MAX_RECORDS home_resources.
Proof. by vm_compute. Qed.

Definition person (i : string) (r : Role) : user_row :=
  {| u_id := repeat i; u_username := i; u_role := r; u_password_hash := ""; u_must_change := false;
     u_created_at := 0; u_disabled := false; u_revision := 1 |}.
Definition family (i : string) : family_row :=
  {| f_id := "family-" +:+ i; f_user_id := repeat i; f_device_name := []; f_created_at := 0;
     f_expires_at := seconds 5000; f_revoked_at := None |}.
Definition token (i : string) : token_row :=
  {| t_id := "token-" +:+ i; t_family_id := "family-" +:+ i; t_access_hash := i; t_refresh_hash := i +:+ "r";
     t_access_expires_at := seconds 5000; t_refresh_expires_at := seconds 5000; t_created_at := 0;
     t_rotated_at := None |}.
Definition session (i : string) (r : Role) : Principal :=
  {| p_id := repeat i; p_username := i; p_role := r; p_must_change_password := false;
     p_family_id := "family-" +:+ i; p_token_id := "token-" +:+ i |}.
Definition accounts : auth_db :=
  {| users := [person "1" Admin; person "2" Member]; families := [family "1"; family "2"];
     tokens := [token "1"; token "2"]; rate_limits := []; admin_audit := []; au_next := 1 |}.
Definition admin : Principal := session "1" Admin.
Definition member : Principal := session "2" Member.

(** The other tables are one counter. *)
Definition w0 : registry_world Z :=
  {| hw_auth := accounts;
     hw_context := [{| cr_singleton := 1; cr_schema_version := 1; cr_core_id := core; cr_home_id := home;
                       cr_authentication_tag := place core home |}];
     hw_schema := Some "3"; hw_registry := @new_registry home_resources tag here; hw_rest := 0 |}%string.
Definition call (k : Z) (i : string) : registry_env :=
  {| he_auth := {| clock := fun n => seconds (1000 + k + Z.of_nat n); uuid4 := fun _ => ""; token_urlsafe := fun _ => [];
                   password_slots := 0 |};
     he_uuid := repeat i; he_nonce := replicate 12 k |}.

Definition key (c : string) (i : list Z) : string := c +:+ AuthExample.text i.
Definition room (label : string) : CreateRecordRequest :=
  {| cb_label := u label; cb_order := 1; cb_kind := "room" |}.
Definition make (k : Z) (i label : string) : M (registry_world Z) RegistryRecord :=
  create key tag place encrypt dump here (call k i) admin core home (Shaped (room label)).
Definition allow (k : Z) (i : string) (acl : Z) (p : Permissions) : M (registry_world Z) GrantSnapshot :=
  set_grant key tag place encrypt decrypt dump read here (call k "0") admin core home (repeat i) (repeat "2")
    (Shaped {| gb_expectedAclRevision := acl; gb_permissions := p |}).
Definition see (k : Z) (who : Principal) (i : string) : M (registry_world Z) RegistryRecord :=
  get key tag place decrypt read here (call k "0") who core home (repeat i).
Definition reading : Permissions := {| pm_read := true; pm_write := false |}.

(** A kitchen that the member may read, and a cellar that the member may not. *)
Definition w1 : registry_world Z := (make 1 "a" "Kitchen" w0).2.
Definition w2 : registry_world Z := (make 2 "b" "Cellar" w1).2.
Definition w3 : registry_world Z := (allow 3 "a" 1 reading w2).2.
(** The same home without a cellar. *)
Definition v2 : registry_world Z := (allow 3 "a" 1 reading w1).2.
Definition v3 : registry_world Z := set_registry (hw_registry v2) w3.

Example all_ok : (is_ok (make 1 "a" "Kitchen" w0).1, is_ok (make 2 "b" "Cellar" w1).1,
  is_ok (allow 3 "a" 1 reading w2).1, is_ok (allow 3 "a" 1 reading w1).1) = (true, true, true, true).
Proof. vm_compute. reflexivity. Qed.
Example seen_and_hidden : (is_ok (see 4 member "a" w3).1, (see 4 member "b" w3).1, is_ok (see 4 admin "b" w3).1)
  = (true, Raise not_found, true).
Proof. vm_compute. reflexivity. Qed.

Definition reachable : registry_world Z -> Prop :=
  registry_reachable key tag place visible encrypt decrypt dump read here.
Definition step : registry_world Z -> registry_world Z -> Prop :=
  registry_step key tag place visible encrypt decrypt dump read here.
Lemma step_make k i label w : fresh_env (call k i) (hw_registry w) -> step w (make k i label w).2.
Proof. intros He. eapply StepCreate; [exact (surjective_pairing _)|exact He]. Qed.
Lemma step_allow k i acl p w : length (he_nonce (call k "0")) = 12%nat -> step w (allow k i acl p w).2.
Proof. intros He. eapply StepGrant; [exact (surjective_pairing _)|exact He]. Qed.
Lemma fresh0 : fresh_world tag place here w0.
Proof. split; [vm_compute; reflexivity|reflexivity]. Qed.
Lemma fresh1 : fresh_env (call 1 "a") (hw_registry w0).
Proof. split; [by vm_compute|split; [|by vm_compute]]. vm_compute. intros Hx. inversion Hx. Qed.
Lemma fresh2 : fresh_env (call 2 "b") (hw_registry w1).
Proof.
  split; [by vm_compute|split; [|by vm_compute]].
  assert (bool_decide (he_uuid (call 2 "b") ∈ hr_id <$> hd_records (hw_registry w1)) = false) as E
    by (vm_compute; reflexivity). by apply bool_decide_eq_false in E.
Qed.
Lemma step1 : step w0 w1.
Proof. exact (step_make 1 "a" "Kitchen" w0 fresh1). Qed.
Lemma step2 : step w1 w2.
Proof. exact (step_make 2 "b" "Cellar" w1 fresh2). Qed.
Lemma step3 : step w2 w3.
Proof. exact (step_allow 3 "a" 1 reading w2 eq_refl). Qed.
Lemma step_v2 : step w1 v2.
Proof. exact (step_allow 3 "a" 1 reading w1 eq_refl). Qed.
Lemma step_v3 : step v2 v3.
Proof. apply StepOther; vm_compute; reflexivity. Qed.
Lemma reached2 : reachable w2.
Proof. exists w0. split; [exact fresh0|]. exact (rtc_l _ _ _ _ step1 (rtc_once _ _ step2)). Qed.
Lemma reached3 : reachable w3.
Proof.
  exists w0. split; [exact fresh0|]. exact (rtc_l _ _ _ _ step1 (rtc_l _ _ _ _ step2 (rtc_once _ _ step3))).
Qed.
Lemma reached_v3 : reachable v3.
Proof.
  exists w0. split; [exact fresh0|]. exact (rtc_l _ _ _ _ step1 (rtc_l _ _ _ _ step_v2 (rtc_once _ _ step_v3))).
Qed.
Lemma stored2 : stored tag decrypt read here (hw_registry w2).
Proof. exact (proj2 (reachable_stored _ _ _ _ _ _ _ _ _ open longer round here_ok bounded _ reached2)). Qed.
Lemma stored3 : stored tag decrypt read here (hw_registry w3).
Proof. exact (proj2 (reachable_stored _ _ _ _ _ _ _ _ _ open longer round here_ok bounded _ reached3)). Qed.
Lemma stored_v3 : stored tag decrypt read here (hw_registry v3).
Proof. exact (proj2 (reachable_stored _ _ _ _ _ _ _ _ _ open longer round here_ok bounded _ reached_v3)). Qed.
Lemma same3 : same_view decrypt read here (p_id member) (p_role member) (hw_registry w3) (hw_registry v3).
Proof.
  intros [id rev role dis must ses] E1 E2. cbn [af_userId af_role] in E1, E2. subst id role. vm_compute. reflexivity.
Qed.
Definition facts_of (x : user_row) : ActorFacts := user_facts x.
Lemma live_admin : live_facts (facts_of (person "1" Admin)).
Proof. by vm_compute. Qed.
(** Work of another component: it counts. *)
Definition count (_ : ActorFacts) : M (registry_world Z) unit := fun w =>
  (Ok tt, {| hw_auth := hw_auth w; hw_context := hw_context w; hw_schema := hw_schema w;
             hw_registry := hw_registry w; hw_rest := hw_rest w + 1 |}).
Definition work (k : Z) (rev : Z) : M (registry_world Z) unit :=
  perform_authorized key tag place decrypt read here (call k "0") member core home (repeat "a") "read" count
    (Some rev) None None.
Definition w4 : registry_world Z := (work 6 1 w3).2.
Lemma worked : perform_authorized key tag place decrypt read here (call 6 "0") member core home (repeat "a") "read"
  count (Some 1) None None w3 = (Ok tt, w4).
Proof. vm_compute. reflexivity. Qed.
Definition given : GrantSnapshot :=
  {| gs_subjectId := repeat "2"; gs_target := ref_of here (repeat "a") "room"; gs_aclRevision := 2;
     gs_permissions := reading |}.
Lemma twelve : length (he_nonce (call 3 "0")) = 12%nat.
Proof. reflexivity. Qed.
Lemma gave : set_grant key tag place encrypt decrypt dump read here (call 3 "0") admin core home (repeat "a")
  (repeat "2") (Shaped {| gb_expectedAclRevision := 1; gb_permissions := reading |}) w2 = (Ok given, w3).
Proof. vm_compute. reflexivity. Qed.
Definition refused : res unit := (work 6 2 w3).1.
(** An update that expects an old revision. *)
Definition stale : writing := Updating (repeat "a")
  (Shaped {| ub_label := u "Pantry"; ub_order := 1; ub_expectedRevision := 7; ub_expectedAclRevision := 2 |}).
Definition w5 : registry_world Z :=
  (run_writing key tag place encrypt decrypt dump read here (call 5 "e") admin core home stale w3).2.
Lemma refused_update : run_writing key tag place encrypt decrypt dump read here (call 5 "e") admin core home stale w3 =
  (Raise revision_conflict, w5).
Proof. vm_compute. reflexivity. Qed.
End HomeExample.

Lemma registry_storage_valid_witness :
  validate_storage HomeExample.tag HomeExample.place HomeExample.decrypt HomeExample.read HomeExample.here
    (H0 := home_resources) HomeExample.w3 = Ok tt.
Proof.
  exact (proj1 (registry_storage_valid _ _ _ _ _ _ _ _ _ HomeExample.open HomeExample.longer HomeExample.round
    HomeExample.here_ok HomeExample.bounded _ HomeExample.reached3)).
Defined.

Lemma hidden_records_never_show_witness :
  (HomeExample.see 9 HomeExample.member "b" HomeExample.v3).1 =
  (HomeExample.see 9 HomeExample.member "b" HomeExample.w3).1 /\
  length (hd_records (hw_registry HomeExample.w3)) = 2%nat /\ length (hd_records (hw_registry HomeExample.v3)) = 1%nat.
Proof.
  split; [|split; vm_compute; reflexivity].
  refine (proj1 (hidden_records_never_show HomeExample.key HomeExample.tag HomeExample.place HomeExample.visible
    HomeExample.decrypt HomeExample.read HomeExample.here HomeExample.here_ok HomeExample.bounded
    (HomeExample.call 9 "0") HomeExample.member HomeExample.core HomeExample.home HomeExample.w3 HomeExample.v3
    _ HomeExample.stored3 HomeExample.stored_v3 HomeExample.same3) (HomeExample.repeat "b")).
  split; [|split]; vm_compute; reflexivity.
Defined.

Lemma list_pages_exact_witness :
  exists l, read_pages HomeExample.tag HomeExample.visible HomeExample.decrypt HomeExample.read HomeExample.here
    (H0 := home_resources) 3 (HomeExample.facts_of (HomeExample.person "1" Admin)) 1 None None
    (hw_registry HomeExample.w3) = Ok l /\ rr_label <$> l = [u "Kitchen"; u "Cellar"].
Proof.
  eexists. split; [exact (proj1 (list_pages_exact HomeExample.key HomeExample.tag HomeExample.place HomeExample.visible
    HomeExample.decrypt HomeExample.read HomeExample.here HomeExample.here_ok HomeExample.bounded (HomeExample.facts_of (HomeExample.person "1" Admin)) 1
    (hw_registry HomeExample.w3) 3 HomeExample.stored3 HomeExample.live_admin ltac:(lia)
    ltac:(vm_compute; lia)))|].
  vm_compute. reflexivity.
Defined.

Lemma perform_authorized_safe_witness :
  exists facts row ref data, HomeExample.count facts HomeExample.w3 = (Ok tt, HomeExample.w4) /\
    af_userId facts = HomeExample.repeat "2" /\ af_role facts = Member /\
    hr_id row = HomeExample.repeat "a" /\ hr_revision row = 1 /\
    decode_row HomeExample.decrypt HomeExample.read HomeExample.here (H0 := home_resources) row = Ok (ref, data) /\
    HomeExample.refused = Raise revision_conflict.
Proof.
  destruct (perform_authorized_safe _ _ _ HomeExample.visible _ _ _ HomeExample.here_ok _ _ _ _ _ _ _ _ _ _ _ _ _ _
    HomeExample.stored3 HomeExample.worked)
    as [(a & account & row & ref & data & Hr & Hcb & _ & _ & _ & Hu & Hrole & _ & Hid & Hdec & _ & _ & Hn & _)|[Hn _]].
  - exists {| af_userId := u_id account; af_revision := u_revision account; af_role := u_role account;
              af_disabled := false; af_mustChangePassword := false; af_sessionCurrent := true |}, row, ref, data.
    destruct a. split; [exact Hcb|]. split; [exact Hu|]. split; [exact Hrole|]. split; [exact Hid|].
    split; [symmetry; exact Hn|]. split; [exact Hdec|vm_compute; reflexivity].
  - destruct (Hn tt eq_refl).
Defined.

Lemma set_grant_exact_witness :
  exists row' ref data,
    decode_row HomeExample.decrypt HomeExample.read HomeExample.here (H0 := home_resources) row' = Ok (ref, data) /\
    sr_grants data !! HomeExample.repeat "2" = Some HomeExample.reading /\
    hr_acl_revision row' = gs_aclRevision HomeExample.given.
Proof.
  destruct (set_grant_exact _ _ _ HomeExample.visible _ _ _ _ _ HomeExample.open HomeExample.longer HomeExample.round
    HomeExample.here_ok _ _ _ _ _ _ _ _ _ _ HomeExample.stored2 HomeExample.twelve HomeExample.gave)
    as (row & ref & data & row' & data' & _ & _ & _ & _ & _ & _ & Hd & Hg & _ & _ & _ & _ & _ & _ & Ha & _).
  exists row', ref, data'. split; [exact Hd|]. split; [|symmetry; exact Ha].
  rewrite Hg. apply lookup_insert_eq.
Defined.

Lemma writings_audited_witness :
  hw_rest HomeExample.w5 = 0 /\
  audit_left (HomeExample.call 5 "e") HomeExample.admin ("update", HomeExample.repeat "a")%string
    (Raise revision_conflict) (hw_registry HomeExample.w3) (hw_registry HomeExample.w5) /\
  length (hd_audit (hw_registry HomeExample.w5)) = 4%nat.
Proof.
  destruct (writings_audited _ _ _ _ _ _ _ _ _ _ _ _ _ _ _ _ HomeExample.refused_update) as (Hrest & _ & _ & Ha).
  split; [rewrite Hrest; vm_compute; reflexivity|]. split; [exact Ha|vm_compute; reflexivity].
Defined.
