(* ===== verification/SoundEvents.v ===== *)
(** * Sound events: the reducer and its journal

    [server/larenor_server/sound_events/models.py] and [engine.py]: a classifier
    reports how sure it is to have heard a class of sound; the engine turns a run
    of confident reports into one event, hands it to the automation and keeps a
    journal whose rows hold the digest of the row before.  Audio has no field.

    An exception leaves what the engine did before it: its lists and
    dictionaries live in memory and nothing is rolled back, so the state is
    threaded through failures.  A confidence is a double between 0 and 1, kept
    as a multiple of the least positive double; HMAC, the resolvers, the clock
    and the automation are parameters, and the automation does not call the
    engine back.  The triggers that were handed over are part of the state, as a
    history. *)

From S2P Require Import Prelude.

Definition MAX_EVENTS : Z := 10000.
Definition MAX_AUDIT : Z := 10000.
Definition MAX_OBSERVATIONS : Z := 20000.
Definition ZERO_HASH : string := String.concat "" (repeat "0"%string 64).
Definition NO_EVENT : string := String.substring 0 32 ZERO_HASH.

(** ** Contracts *)

(** One as a multiple of the least positive double. *)
Definition CERTAIN : Z := 2 ^ 1074.
Definition Confidence (c : Z) : Prop := 0 <= c <= CERTAIN.
#[export] Instance Confidence_dec c : Decision (Confidence c).
Proof. unfold Confidence. apply _. Defined.

(** What a report is about, in the order of [_binding_tuple]. *)
Record sound_source := {
  ss_coreId : string;
  ss_homeId : string;
  ss_roomId : string;
  ss_roomRevision : Z;
  ss_deviceId : string;
  ss_deviceRevision : Z;
  ss_modelId : string;
  ss_modelRevision : Z;
  ss_providerRevision : Z;
  ss_policyRevision : Z;
  ss_consentRevision : Z;
}.
#[export] Instance sound_source_eq_dec : EqDecision sound_source.
Proof. solve_decision. Defined.
Definition source_valid (s : sound_source) : Prop :=
  Identity (ss_coreId s) /\ Identity (ss_homeId s) /\ Identity (ss_roomId s) /\ Revision (ss_roomRevision s) /\
  Identity (ss_deviceId s) /\ Revision (ss_deviceRevision s) /\ Identity (ss_modelId s) /\
  Revision (ss_modelRevision s) /\ Revision (ss_providerRevision s) /\ Revision (ss_policyRevision s) /\
  Revision (ss_consentRevision s).
#[export] Instance source_valid_dec s : Decision (source_valid s).
Proof. unfold source_valid. apply _. Defined.

Record SoundEventAuthority := {
  sa_coreId : string;
  sa_homeId : string;
  sa_homeRevision : Z;
  sa_accountId : string;
  sa_accountRevision : Z;
  sa_memberRevision : Z;
  sa_sessionFamilyId : string;
  sa_accessibleRoomIds : list string;
  sa_accessibleDeviceIds : list string;
  sa_active : bool;
  sa_canObserve : bool;
}.
#[export] Instance SoundEventAuthority_eq_dec : EqDecision SoundEventAuthority.
Proof. solve_decision. Defined.
Definition id_list (l : list string) : Prop := (1 <= length l <= 128)%nat /\ Forall Identity l /\ NoDup l.
#[export] Instance id_list_dec l : Decision (id_list l).
Proof. unfold id_list. apply _. Defined.
Definition SoundEventAuthority_valid (a : SoundEventAuthority) : Prop :=
  Identity (sa_coreId a) /\ Identity (sa_homeId a) /\ Revision (sa_homeRevision a) /\ Identity (sa_accountId a) /\
  Revision (sa_accountRevision a) /\ Revision (sa_memberRevision a) /\ Identity (sa_sessionFamilyId a) /\
  id_list (sa_accessibleRoomIds a) /\ id_list (sa_accessibleDeviceIds a).
#[export] Instance SoundEventAuthority_valid_dec a : Decision (SoundEventAuthority_valid a).
Proof. unfold SoundEventAuthority_valid. apply _. Defined.
#[export] Instance SoundEventAuthority_model : Model SoundEventAuthority :=
  {| model_valid := SoundEventAuthority_valid |}.

Record SoundClassifierBinding := {
  sb_source : sound_source;
  sb_consentGranted : bool;
  sb_retentionSeconds : Z;
  sb_triggerConfidence : Z;
  sb_releaseConfidence : Z;
  sb_consecutiveTriggerCount : Z;
  sb_dedupWindowMs : Z;
  sb_degraded : bool;
}.
(** The fields' bounds and [valid_hysteresis]. *)
Definition SoundClassifierBinding_valid (b : SoundClassifierBinding) : Prop :=
  source_valid (sb_source b) /\ 60 <= sb_retentionSeconds b <= 7 * 24 * 60 * 60 /\
  Confidence (sb_triggerConfidence b) /\ Confidence (sb_releaseConfidence b) /\
  1 <= sb_consecutiveTriggerCount b <= 10 /\ 1000 <= sb_dedupWindowMs b <= 24 * 60 * 60 * 1000 /\
  sb_releaseConfidence b < sb_triggerConfidence b.
#[export] Instance SoundClassifierBinding_valid_dec b : Decision (SoundClassifierBinding_valid b).
Proof. unfold SoundClassifierBinding_valid. apply _. Defined.
#[export] Instance SoundClassifierBinding_model : Model SoundClassifierBinding :=
  {| model_valid := SoundClassifierBinding_valid |}.

Record SoundObservation := {
  so_observationId : string;
  so_source : sound_source;
  so_className : ustr;
  so_confidence : Z;
  so_observedAtMs : Z;
  so_evidenceDigest : string;
}.
#[export] Instance SoundObservation_eq_dec : EqDecision SoundObservation.
Proof. solve_decision. Defined.
Record SoundEvent := {
  sv_eventId : string;
  sv_source : sound_source;
  sv_className : ustr;
  sv_confidence : Z;
  sv_observedAtMs : Z;
  sv_evidenceDigest : string;
  sv_retentionExpiresAtMs : Z;
  sv_automationVerified : bool;
}.
#[export] Instance SoundEvent_eq_dec : EqDecision SoundEvent.
Proof. solve_decision. Defined.
Record AutomationSoundTrigger := {
  at_eventId : string;
  at_source : sound_source;
  at_className : ustr;
  at_confidence : Z;
  at_observedAtMs : Z;
  at_evidenceDigest : string;
  at_auditSequence : Z;
  at_auditHead : string;
}.
Record AutomationReceipt := {
  ar_eventId : string;
  ar_coreId : string;
  ar_homeId : string;
  ar_roomRevision : Z;
  ar_deviceRevision : Z;
  ar_modelRevision : Z;
  ar_providerRevision : Z;
  ar_policyRevision : Z;
  ar_consentRevision : Z;
  ar_auditSequence : Z;
  ar_auditHead : string;
  ar_accepted : bool;
}.
#[export] Instance AutomationReceipt_eq_dec : EqDecision AutomationReceipt.
Proof. solve_decision. Defined.
Definition AutomationReceipt_valid (r : AutomationReceipt) : Prop :=
  Identity (ar_eventId r) /\ Identity (ar_coreId r) /\ Identity (ar_homeId r) /\ Revision (ar_roomRevision r) /\
  Revision (ar_deviceRevision r) /\ Revision (ar_modelRevision r) /\ Revision (ar_providerRevision r) /\
  Revision (ar_policyRevision r) /\ Revision (ar_consentRevision r) /\ 1 <= ar_auditSequence r <= 10000 /\
  Snapshot (ar_auditHead r).
#[export] Instance AutomationReceipt_valid_dec r : Decision (AutomationReceipt_valid r).
Proof. unfold AutomationReceipt_valid. apply _. Defined.
#[export] Instance AutomationReceipt_model : Model AutomationReceipt := {| model_valid := AutomationReceipt_valid |}.

Inductive ingest_status := Suppressed | Event | Degraded.
Inductive ingest_reason :=
  | BelowThreshold
  | AwaitingConfirmation
  | HysteresisActive
  | Deduplicated
  | ProviderUnavailable
  | AutomationUnavailable
  | AutomationUnverified.
#[export] Instance ingest_status_eq_dec : EqDecision ingest_status.
Proof. solve_decision. Defined.
#[export] Instance ingest_reason_eq_dec : EqDecision ingest_reason.
Proof. solve_decision. Defined.
Record SoundIngestResult := {
  ir_status : ingest_status;
  ir_reason : option ingest_reason;
  ir_event : option SoundEvent;
  ir_automationVerified : bool;
}.

Section labels.
Context `{UnicodeData}.

(** [_safe_label]: control characters, surrogates, directional marks and the
    byte order mark are refused. *)
Definition unsafe_char (c : Z) : Prop :=
  c < 32 \/ 127 <= c <= 159 \/ 0xD800 <= c <= 0xDFFF \/ 0x202A <= c <= 0x202E \/ 0x2066 <= c <= 0x2069 \/ c = 0xFEFF.
#[export] Instance unsafe_char_dec c : Decision (unsafe_char c).
Proof. unfold unsafe_char. apply _. Defined.
Definition safe_label (value : ustr) : res ustr :=
  let value := str_strip value in
  _ ← raise_if (value = [] \/ Exists unsafe_char value) (ValueError "unsafe_label");
  Ok value.
(** [className]: its length, then its characters. *)
Definition class_name (value : ustr) : res ustr :=
  _ ← raise_if (~ 1 <= Z.of_nat (length value) <= 48) (ValueError "validation_error");
  safe_label value.

Definition SoundObservation_validate (r : raw SoundObservation) : res SoundObservation :=
  match r with
  | Malformed => Raise (ValueError "validation_error")
  | Shaped o =>
      name ← class_name (so_className o);
      _ ← raise_if (~ (Identity (so_observationId o) /\ source_valid (so_source o) /\ Confidence (so_confidence o) /\
                       TimestampMs (so_observedAtMs o) /\ Snapshot (so_evidenceDigest o)))
            (ValueError "validation_error");
      Ok {| so_observationId := so_observationId o; so_source := so_source o; so_className := name;
            so_confidence := so_confidence o; so_observedAtMs := so_observedAtMs o;
            so_evidenceDigest := so_evidenceDigest o |}
  end.

Definition SoundEvent_validate (e : SoundEvent) : res SoundEvent :=
  name ← class_name (sv_className e);
  _ ← raise_if (~ (Identity (sv_eventId e) /\ source_valid (sv_source e) /\ Confidence (sv_confidence e) /\
                   TimestampMs (sv_observedAtMs e) /\ Snapshot (sv_evidenceDigest e) /\
                   TimestampMs (sv_retentionExpiresAtMs e))) (ValueError "validation_error");
  Ok {| sv_eventId := sv_eventId e; sv_source := sv_source e; sv_className := name; sv_confidence := sv_confidence e;
        sv_observedAtMs := sv_observedAtMs e; sv_evidenceDigest := sv_evidenceDigest e;
        sv_retentionExpiresAtMs := sv_retentionExpiresAtMs e; sv_automationVerified := sv_automationVerified e |}.

Definition AutomationSoundTrigger_validate (t : AutomationSoundTrigger) : res AutomationSoundTrigger :=
  name ← class_name (at_className t);
  _ ← raise_if (~ (Identity (at_eventId t) /\ source_valid (at_source t) /\ Confidence (at_confidence t) /\
                   TimestampMs (at_observedAtMs t) /\ Snapshot (at_evidenceDigest t) /\
                   1 <= at_auditSequence t <= 10000 /\ Snapshot (at_auditHead t))) (ValueError "validation_error");
  Ok {| at_eventId := at_eventId t; at_source := at_source t; at_className := name; at_confidence := at_confidence t;
        at_observedAtMs := at_observedAtMs t; at_evidenceDigest := at_evidenceDigest t;
        at_auditSequence := at_auditSequence t; at_auditHead := at_auditHead t |}.

(** The conditions under which [coherent_result] refuses. *)
Definition incoherent (r : SoundIngestResult) : Prop :=
  match ir_status r with
  | Event => ir_event r = None \/ ir_automationVerified r = false \/ ir_reason r <> None
  | Suppressed => ir_event r <> None \/ ir_automationVerified r = true \/ ir_reason r = None
  | Degraded => ir_event r = None /\ ir_reason r <> Some ProviderUnavailable /\
                ir_reason r <> Some AutomationUnavailable
  end.
#[export] Instance incoherent_dec r : Decision (incoherent r).
Proof. unfold incoherent. destruct (ir_status r); apply _. Defined.

(** [SoundIngestResult(...)]: the event is validated again. *)
Definition SoundIngestResult_validate (r : SoundIngestResult) : res SoundIngestResult :=
  event ← match ir_event r with None => Ok None | Some e => Some <$> SoundEvent_validate e end;
  let r := {| ir_status := ir_status r; ir_reason := ir_reason r; ir_event := event;
              ir_automationVerified := ir_automationVerified r |} in
  _ ← raise_if (incoherent r) (ValueError "invalid_result");
  Ok r.
End labels.

(** ** The detector *)

Record DetectorState := {
  ds_last_observed_ms : Z;
  ds_consecutive : Z;
  ds_active : bool;
  ds_last_event_ms : option Z;
}.
Definition new_detector : DetectorState :=
  {| ds_last_observed_ms := -1; ds_consecutive := 0; ds_active := false; ds_last_event_ms := None |}.

(** [state.last_event_ms is not None and observation.observedAtMs - ... < ...] *)
Definition within_window (b : SoundClassifierBinding) (o : SoundObservation) (s : DetectorState) : Prop :=
  match ds_last_event_ms s with
  | Some t => so_observedAtMs o - t < sb_dedupWindowMs b
  | None => False
  end.
#[export] Instance within_window_dec b o s : Decision (within_window b o s).
Proof. unfold within_window. destruct (ds_last_event_ms s); apply _. Defined.

(** The branches of [ingest] from the comparison with [releaseConfidence]: the
    new state and the reason to suppress the report, if there is one. *)
Definition detect (b : SoundClassifierBinding) (o : SoundObservation) (s : DetectorState)
  : DetectorState * option ingest_reason :=
  let at_time consecutive active :=
    {| ds_last_observed_ms := so_observedAtMs o; ds_consecutive := consecutive; ds_active := active;
       ds_last_event_ms := ds_last_event_ms s |} in
  if decide (so_confidence o <= sb_releaseConfidence b) then (at_time 0 false, Some BelowThreshold)
  else if decide (so_confidence o < sb_triggerConfidence b) then (at_time 0 (ds_active s), Some BelowThreshold)
  else if ds_active s then (at_time (ds_consecutive s) true, Some HysteresisActive)
  else
    let consecutive := ds_consecutive s + 1 in
    if decide (consecutive < sb_consecutiveTriggerCount b)
    then (at_time consecutive false, Some AwaitingConfirmation)
    else (at_time 0 true,
          if decide (within_window b o s) then Some Deduplicated else None).

(** [state.last_event_ms = observation.observedAtMs] *)
Definition set_last_event (t : Z) (s : DetectorState) : DetectorState :=
  {| ds_last_observed_ms := ds_last_observed_ms s; ds_consecutive := ds_consecutive s; ds_active := ds_active s;
     ds_last_event_ms := Some t |}.

(** ** The engine *)

Inductive sound_action := ActSuppressed | ActProviderDegraded | ActDetected | ActVerified | ActRejected.
#[export] Instance sound_action_eq_dec : EqDecision sound_action.
Proof. solve_decision. Defined.
Definition action_text (a : sound_action) : string :=
  match a with
  | ActSuppressed => "suppressed" | ActProviderDegraded => "provider_degraded" | ActDetected => "detected"
  | ActVerified => "handoff_verified" | ActRejected => "handoff_rejected"
  end.

Record SoundAuditEntry := {
  sr_sequence : Z;
  sr_action : sound_action;
  sr_observationId : string;
  sr_eventId : string;
  sr_deviceId : string;
  sr_modelRevision : Z;
  sr_policyRevision : Z;
  sr_consentRevision : Z;
  sr_createdAtMs : Z;
  sr_previousHash : string;
  sr_entryHash : string;
}.

Definition detector_key : Type := sound_source * ustr.

Record sound_engine := {
  en_events : list SoundEvent;
  en_audit : list SoundAuditEntry;
  en_detectors : list (detector_key * DetectorState);
  en_observations : list (string * (SoundObservation * SoundIngestResult));
  en_sent : list AutomationSoundTrigger;
}.
Definition new_engine : sound_engine :=
  {| en_events := []; en_audit := []; en_detectors := []; en_observations := []; en_sent := [] |}.
Definition set_audit (l : list SoundAuditEntry) (s : sound_engine) : sound_engine :=
  {| en_events := en_events s; en_audit := l; en_detectors := en_detectors s; en_observations := en_observations s;
     en_sent := en_sent s |}.
Definition set_events (l : list SoundEvent) (s : sound_engine) : sound_engine :=
  {| en_events := l; en_audit := en_audit s; en_detectors := en_detectors s; en_observations := en_observations s;
     en_sent := en_sent s |}.
Definition set_detector (k : detector_key) (x : DetectorState) (s : sound_engine) : sound_engine :=
  {| en_events := en_events s; en_audit := en_audit s; en_detectors := dict_set (en_detectors s) k x;
     en_observations := en_observations s; en_sent := en_sent s |}.
Definition set_observations (l : list (string * (SoundObservation * SoundIngestResult))) (s : sound_engine)
  : sound_engine :=
  {| en_events := en_events s; en_audit := en_audit s; en_detectors := en_detectors s; en_observations := l;
     en_sent := en_sent s |}.
Definition hand_over (t : AutomationSoundTrigger) (s : sound_engine) : sound_engine :=
  {| en_events := en_events s; en_audit := en_audit s; en_detectors := en_detectors s;
     en_observations := en_observations s; en_sent := en_sent s ++ [t] |}.

(** What one call reads: the resolvers, the automation ([None] when none is
    configured), the clock and [uuid4]. *)
Record sound_env := {
  ev_authority : string -> resolved SoundEventAuthority;
  ev_binding : string -> resolved SoundClassifierBinding;
  ev_handoff : option (AutomationSoundTrigger -> resolved AutomationReceipt);
  ev_clock : nat -> Z;
  ev_event_id : string;
}.

Definition integrity_failed : exn := ApiError "sound_event_integrity_failed" 503.

Section engine.
Context `{UnicodeData}.
(** [hmac.new(audit_key, domain + json.dumps(values), sha256).hexdigest()] *)
Variable entry_hash : jval -> string.

(** The list that is hashed, from a row's fields and the digest before it. *)
Definition audit_values (r : SoundAuditEntry) : jval :=
  JList [JInt (sr_sequence r); JStr (action_text (sr_action r)); JStr (sr_observationId r); JStr (sr_eventId r);
         JStr (sr_deviceId r); JInt (sr_modelRevision r); JInt (sr_policyRevision r); JInt (sr_consentRevision r);
         JInt (sr_createdAtMs r); JStr (sr_previousHash r)].

(** The fields of a row under another sequence number and digest. *)
Definition renumbered (sequence : Z) (previous : string) (r : SoundAuditEntry) : SoundAuditEntry :=
  {| sr_sequence := sequence; sr_action := sr_action r; sr_observationId := sr_observationId r;
     sr_eventId := sr_eventId r; sr_deviceId := sr_deviceId r; sr_modelRevision := sr_modelRevision r;
     sr_policyRevision := sr_policyRevision r; sr_consentRevision := sr_consentRevision r;
     sr_createdAtMs := sr_createdAtMs r; sr_previousHash := previous; sr_entryHash := sr_entryHash r |}.

(** The loop of [_validate_audit]. *)
Fixpoint validate_rows (sequence : Z) (previous : string) (l : list SoundAuditEntry) : res unit :=
  match l with
  | [] => Ok tt
  | r :: l =>
      _ ← raise_if (sr_sequence r <> sequence \/ sr_previousHash r <> previous \/
                    sr_entryHash r <> entry_hash (audit_values (renumbered sequence previous r))) integrity_failed;
      validate_rows (sequence + 1) (sr_entryHash r) l
  end.
Definition validate_audit (s : sound_engine) : res unit :=
  _ ← raise_if (Z.of_nat (length (en_audit s)) > MAX_AUDIT) integrity_failed;
  validate_rows 1 ZERO_HASH (en_audit s).

(** [audit] *)
Definition audit_rows (s : sound_engine) : res (list SoundAuditEntry) := _ ← validate_audit s; Ok (en_audit s).

(** The row [_append_audit] builds; the clock is read for the [n]th time. *)
Definition next_entry (e : sound_env) (n : nat) (action : sound_action) (o : SoundObservation) (event_id : string)
    (s : sound_engine) : SoundAuditEntry :=
  let row hash :=
    {| sr_sequence := Z.of_nat (length (en_audit s)) + 1; sr_action := action;
       sr_observationId := so_observationId o; sr_eventId := event_id; sr_deviceId := ss_deviceId (so_source o);
       sr_modelRevision := ss_modelRevision (so_source o); sr_policyRevision := ss_policyRevision (so_source o);
       sr_consentRevision := ss_consentRevision (so_source o); sr_createdAtMs := ev_clock e n;
       sr_previousHash := match last (en_audit s) with Some r => sr_entryHash r | None => ZERO_HASH end;
       sr_entryHash := hash |} in
  row (entry_hash (audit_values (row ""%string))).

(** [self._audit.append(entry)] *)
Definition add_row (r : SoundAuditEntry) (s : sound_engine) : sound_engine := set_audit (en_audit s ++ [r]) s.

(** [_append_audit] *)
Definition append_audit (e : sound_env) (n : nat) (action : sound_action) (o : SoundObservation) (event_id : string)
  : M sound_engine SoundAuditEntry :=
  s ← get_state;
  _ ← lift (validate_audit s);
  _ ← lift (raise_if (Z.of_nat (length (en_audit s)) >= MAX_AUDIT) integrity_failed);
  let entry := next_entry e n action o event_id s in
  _ ← put_state (add_row entry s);
  mret entry.

(** [_authority] *)
Definition sound_authority (e : sound_env) (presented : raw SoundEventAuthority) : res SoundEventAuthority :=
  let forbidden := ApiError "forbidden" 403 in
  '(authority, current) ← except_any
    (authority ← model_validate presented;
     current ← validate_optional (ev_authority e (sa_accountId authority));
     Ok (authority, current)) forbidden;
  current ← require_some current forbidden;
  _ ← raise_if (current <> authority) (ApiError "revision_conflict" 409);
  _ ← raise_if (sa_active authority = false \/ sa_canObserve authority = false) forbidden;
  Ok authority.

(** An authority reaches the home, the room and the device. *)
Definition in_reach (a : SoundEventAuthority) (src : sound_source) : Prop :=
  ss_coreId src = sa_coreId a /\ ss_homeId src = sa_homeId a /\ ss_roomId src ∈ sa_accessibleRoomIds a /\
  ss_deviceId src ∈ sa_accessibleDeviceIds a.
#[export] Instance in_reach_dec a src : Decision (in_reach a src).
Proof. unfold in_reach. apply _. Defined.

(** [_binding] *)
Definition sound_binding (e : sound_env) (a : SoundEventAuthority) (o : SoundObservation)
  : res (option SoundClassifierBinding) :=
  _ ← raise_if (~ in_reach a (so_source o)) (ApiError "not_found" 404);
  match validate_optional (ev_binding e (ss_deviceId (so_source o))) with
  | Raise _ | Ok None => Ok None
  | Ok (Some b) =>
      _ ← raise_if (sb_source b <> so_source o) (ApiError "revision_conflict" 409);
      _ ← raise_if (sb_consentGranted b = false) (ApiError "forbidden" 403);
      Ok (Some b)
  end.

Definition suppressed (reason : ingest_reason) : res SoundIngestResult :=
  SoundIngestResult_validate
    {| ir_status := Suppressed; ir_reason := Some reason; ir_event := None; ir_automationVerified := false |}.
Definition degraded (reason : ingest_reason) (event : option SoundEvent) : res SoundIngestResult :=
  SoundIngestResult_validate
    {| ir_status := Degraded; ir_reason := Some reason; ir_event := event; ir_automationVerified := false |}.

(** [_remember], on the engine's state. *)
Definition remembered (o : SoundObservation) (r : SoundIngestResult) (s : sound_engine) : sound_engine :=
  let kept := if decide (Z.of_nat (length (en_observations s)) >= MAX_OBSERVATIONS)
              then match en_observations s with (oldest, _) :: _ => dict_pop (en_observations s) oldest | [] => [] end
              else en_observations s in
  set_observations (dict_set kept (so_observationId o) (o, r)) s.
Definition remember (o : SoundObservation) (r : SoundIngestResult) : M sound_engine SoundIngestResult :=
  _ ← modify (remembered o r);
  mret r.

(** [_purge] *)
Definition purge (now : Z) (s : sound_engine) : sound_engine :=
  set_events (filter (fun x => sv_retentionExpiresAtMs x > now) (en_events s)) s.

Definition expected_receipt (o : SoundObservation) (event_id : string) (detected : SoundAuditEntry)
  : AutomationReceipt :=
  let src := so_source o in
  {| ar_eventId := event_id; ar_coreId := ss_coreId src; ar_homeId := ss_homeId src;
     ar_roomRevision := ss_roomRevision src; ar_deviceRevision := ss_deviceRevision src;
     ar_modelRevision := ss_modelRevision src; ar_providerRevision := ss_providerRevision src;
     ar_policyRevision := ss_policyRevision src; ar_consentRevision := ss_consentRevision src;
     ar_auditSequence := sr_sequence detected; ar_auditHead := sr_entryHash detected; ar_accepted := true |}.

Definition trigger_for (o : SoundObservation) (event_id : string) (detected : SoundAuditEntry)
  : AutomationSoundTrigger :=
  {| at_eventId := event_id; at_source := so_source o; at_className := so_className o;
     at_confidence := so_confidence o; at_observedAtMs := so_observedAtMs o;
     at_evidenceDigest := so_evidenceDigest o; at_auditSequence := sr_sequence detected;
     at_auditHead := sr_entryHash detected |}.

Definition event_for (b : SoundClassifierBinding) (o : SoundObservation) (event_id : string) (verified : bool)
  : SoundEvent :=
  {| sv_eventId := event_id; sv_source := so_source o; sv_className := so_className o;
     sv_confidence := so_confidence o; sv_observedAtMs := so_observedAtMs o;
     sv_evidenceDigest := so_evidenceDigest o;
     sv_retentionExpiresAtMs := so_observedAtMs o + sb_retentionSeconds b * 1000;
     sv_automationVerified := verified |}.

(** [if len(self._events) >= MAX_EVENTS: self._events.pop(0)] and the append. *)
Definition keep_event (x : SoundEvent) (s : sound_engine) : sound_engine :=
  let kept := if decide (Z.of_nat (length (en_events s)) >= MAX_EVENTS) then tail (en_events s) else en_events s in
  set_events (kept ++ [x]) s.

(** [AutomationReceipt.model_validate(self._handoff(trigger))], or nothing. *)
Definition answer (e : sound_env) (t : AutomationSoundTrigger) : option AutomationReceipt :=
  match ev_handoff e with
  | None => None
  | Some handoff => match validate_resolved (handoff t) with Ok r => Some r | Raise _ => None end
  end.

(** The detector whose state [ingest] holds under [state]. *)
Definition detector_of (b : SoundClassifierBinding) (o : SoundObservation) : detector_key :=
  (sb_source b, so_className o).
Definition detector (s : sound_engine) (k : detector_key) : DetectorState :=
  default new_detector (dict_get (en_detectors s) k).

(** The part of [ingest] after a detection. *)
Definition emit (e : sound_env) (b : SoundClassifierBinding) (o : SoundObservation) : M sound_engine SoundIngestResult :=
  let event_id := ev_event_id e in
  detected ← append_audit e 0 ActDetected o event_id;
  trigger ← lift (AutomationSoundTrigger_validate (trigger_for o event_id detected));
  _ ← modify (fun s => match ev_handoff e with Some _ => hand_over trigger s | None => s end);
  let receipt := answer e trigger in
  expected ← lift (model_validate (Shaped (expected_receipt o event_id detected)));
  let verified := bool_decide (receipt = Some expected) in
  event ← lift (SoundEvent_validate (event_for b o event_id verified));
  _ ← modify (purge (ev_clock e 1));
  _ ← modify (keep_event event);
  _ ← modify (fun s =>
        set_detector (detector_of b o) (set_last_event (so_observedAtMs o) (detector s (detector_of b o))) s);
  _ ← append_audit e 2 (if verified then ActVerified else ActRejected) o event_id;
  result ← lift (if verified
    then SoundIngestResult_validate
           {| ir_status := Event; ir_reason := None; ir_event := Some event; ir_automationVerified := true |}
    else degraded (match ev_handoff e with None => AutomationUnavailable | Some _ => AutomationUnverified end)
           (Some event));
  remember o result.

(** What [ingest] does with a new report of a classifier that is ready. *)
Definition reduce (e : sound_env) (b : SoundClassifierBinding) (o : SoundObservation) : M sound_engine SoundIngestResult :=
  s ← get_state;
  let key := detector_of b o in
  let state := detector s key in
  _ ← modify (set_detector key state);
  _ ← lift (raise_if (so_observedAtMs o <= ds_last_observed_ms state) (ApiError "invalid_request" 400));
  let found := detect b o state in
  _ ← modify (set_detector key found.1);
  match found.2 with
  | Some reason => _ ← append_audit e 0 ActSuppressed o NO_EVENT;
                   r ← lift (suppressed reason); remember o r
  | None => emit e b o
  end.

(** What it does when the classifier is missing or degraded. *)
Definition refuse (e : sound_env) (o : SoundObservation) : M sound_engine SoundIngestResult :=
  _ ← append_audit e 0 ActProviderDegraded o NO_EVENT;
  r ← lift (degraded ProviderUnavailable None);
  remember o r.

(** [ingest] *)
Definition ingest (e : sound_env) (presented : raw SoundEventAuthority) (observed : raw SoundObservation)
  : M sound_engine SoundIngestResult :=
  authority ← lift (sound_authority e presented);
  o ← lift (except_value_error (SoundObservation_validate observed) (ApiError "invalid_request" 400));
  s ← get_state;
  _ ← lift (validate_audit s);
  match dict_get (en_observations s) (so_observationId o) with
  | Some (old, result) => lift (_ ← raise_if (old <> o) (ApiError "invalid_request" 400); Ok result)
  | None =>
      binding ← lift (sound_binding e authority o);
      match binding with
      | Some b => if sb_degraded b then refuse e o else reduce e b o
      | None => refuse e o
      end
  end.

(** [events] *)
Definition list_events (e : sound_env) (presented : raw SoundEventAuthority) : M sound_engine (list SoundEvent) :=
  authority ← lift (sound_authority e presented);
  s ← get_state;
  _ ← lift (validate_audit s);
  _ ← modify (purge (ev_clock e 0));
  s ← get_state;
  mret (filter (fun x => in_reach authority (sv_source x)) (en_events s)).
End engine.

(** ** Labels *)

Section label_facts.
Context `{UnicodeData}.

Lemma class_name_ok v n :
  class_name v = Ok n <->
  1 <= Z.of_nat (length v) <= 48 /\ n = str_strip v /\ n <> [] /\ ~ Exists unsafe_char n.
Proof.
  unfold class_name, safe_label. rewrite bind_ok. split.
  - intros ([] & H1%raise_if_ok%dec_stable & ([] & [H2 H3]%raise_if_ok%neither & [= <-])%bind_ok). done.
  - intros (H1 & -> & H2 & H3). exists tt. split; [apply raise_if_ok; naive_solver|].
    apply bind_ok. exists tt. split; [apply raise_if_ok; naive_solver|done].
Qed.

(** A name that passed passes again, and is left alone. *)
Lemma class_name_idem v n : class_name v = Ok n -> class_name n = Ok n.
Proof.
  intros (H1 & -> & H2 & H3)%class_name_ok. apply class_name_ok. rewrite str_strip_idem.
  destruct (str_strip_sub v) as (a & b & E). apply (f_equal length) in E. rewrite !length_app in E.
  destruct (str_strip v); [done|]. cbn in *. repeat split; [lia|lia|done|done].
Qed.

Definition observation_valid (o : SoundObservation) : Prop := SoundObservation_validate (Shaped o) = Ok o.

Lemma SoundObservation_validate_ok r o : SoundObservation_validate r = Ok o -> observation_valid o.
Proof.
  destruct r as [x|]; [|done]. cbn.
  intros (n & Hn & ([] & Hv%raise_if_ok%dec_stable & [= <-])%bind_ok)%bind_ok.
  unfold observation_valid. cbn. rewrite (class_name_idem _ _ Hn). cbn.
  apply bind_ok. exists tt. split; [apply raise_if_ok; naive_solver|done].
Qed.

Lemma observation_valid_iff o :
  observation_valid o <->
  class_name (so_className o) = Ok (so_className o) /\
  Identity (so_observationId o) /\ source_valid (so_source o) /\ Confidence (so_confidence o) /\
  TimestampMs (so_observedAtMs o) /\ Snapshot (so_evidenceDigest o).
Proof.
  unfold observation_valid. cbn. split.
  - intros (n & Hn & ([] & Hv%raise_if_ok%dec_stable & E)%bind_ok)%bind_ok.
    injection E as E. apply (f_equal so_className) in E. cbn in E. by subst n.
  - intros [Hn Hv]. rewrite Hn. cbn. apply bind_ok. exists tt.
    split; [apply raise_if_ok; naive_solver|by destruct o].
Qed.

Lemma suppressed_ok reason :
  suppressed reason = Ok {| ir_status := Suppressed; ir_reason := Some reason; ir_event := None;
                            ir_automationVerified := false |}.
Proof. by destruct reason. Qed.
Lemma unavailable_ok :
  degraded ProviderUnavailable None =
    Ok {| ir_status := Degraded; ir_reason := Some ProviderUnavailable; ir_event := None;
          ir_automationVerified := false |}.
Proof. done. Qed.

Lemma SoundEvent_validate_iff x y :
  SoundEvent_validate x = Ok y -> class_name (sv_className x) = Ok (sv_className x) -> y = x.
Proof.
  unfold SoundEvent_validate. intros (n & Hn & ([] & _ & [= <-])%bind_ok)%bind_ok E.
  rewrite Hn in E. injection E as ->. by destruct x.
Qed.
Lemma SoundEvent_validate_id x :
  class_name (sv_className x) = Ok (sv_className x) ->
  Identity (sv_eventId x) /\ source_valid (sv_source x) /\ Confidence (sv_confidence x) /\
  TimestampMs (sv_observedAtMs x) /\ Snapshot (sv_evidenceDigest x) /\ TimestampMs (sv_retentionExpiresAtMs x) ->
  SoundEvent_validate x = Ok x.
Proof.
  intros Hn Hv. unfold SoundEvent_validate. rewrite Hn. cbn. apply bind_ok. exists tt.
  split; [apply raise_if_ok; naive_solver|by destruct x].
Qed.
End label_facts.

(** ** The journal *)

Section journal.
Context `{UnicodeData}.
Variable entry_hash : jval -> string.
Notation next_entry := (next_entry entry_hash).
Notation validate_audit := (validate_audit entry_hash).
Notation append_audit := (append_audit entry_hash).

#[local] Instance sound_chain : ChainRow SoundAuditEntry string := {|
  row_previous := sr_previousHash; row_stored := sr_entryHash; row_computed r := entry_hash (audit_values r);
|}.

(** Rows count from [n]. *)
Fixpoint counted (n : Z) (l : list SoundAuditEntry) : Prop :=
  match l with [] => True | r :: l => sr_sequence r = n /\ counted (n + 1) l end.

Lemma counted_snoc n l r : counted n l -> sr_sequence r = n + Z.of_nat (length l) -> counted n (l ++ [r]).
Proof.
  revert n. induction l as [|x l IH]; intros n; cbn -[Z.of_nat]; [naive_solver lia|].
  intros [H1 H2] H3. split; [done|]. apply IH; [done|]. lia.
Qed.

Lemma counted_lookup n l i r : counted n l -> l !! i = Some r -> sr_sequence r = n + Z.of_nat i.
Proof.
  revert n i. induction l as [|x l IH]; intros n [|i] Hc Hi; try done; cbn in Hc; destruct Hc as [H1 H2].
  - injection Hi as ->. lia.
  - cbn in Hi. rewrite (IH _ _ H2 Hi). lia.
Qed.

Lemma validate_rows_ok n p l :
  validate_rows entry_hash n p l = Ok tt <-> counted n l /\ chained p l.
Proof.
  revert n p. induction l as [|r l IH]; intros n p; [done|]. cbn. rewrite bind_ok. split.
  - intros ([] & (Hs%dec_stable & [Hp%dec_stable He%dec_stable]%neither)%raise_if_ok%neither & Hl).
    apply IH in Hl as [Hc Hch]. repeat split; [done|done|done| |done].
    unfold row_stored, row_computed. cbn. rewrite He. subst. by destruct r.
  - intros ([Hs Hc] & [Hp He] & Hch). exists tt. split; [|by apply IH].
    apply raise_if_ok. unfold row_previous, row_stored, row_computed in *. cbn in *. subst.
    destruct r; cbn in *; naive_solver.
Qed.

Definition journal_ok (s : sound_engine) : Prop :=
  counted 1 (en_audit s) /\ chained ZERO_HASH (en_audit s) /\ Z.of_nat (length (en_audit s)) <= MAX_AUDIT.

Lemma validate_audit_ok s : validate_audit s = Ok tt <-> journal_ok s.
Proof.
  unfold validate_audit, journal_ok. rewrite bind_ok. setoid_rewrite validate_rows_ok. split.
  - intros ([] & H1%raise_if_ok & ?). split_and!; [naive_solver..|lia].
  - intros (? & ? & ?). exists tt. split; [apply raise_if_ok; lia|done].
Qed.

Lemma next_entry_link e n a o i s : link_ok (chain_head ZERO_HASH (en_audit s)) (next_entry e n a o i s).
Proof. by split. Qed.

Lemma add_row_ok e n a o i s :
  journal_ok s -> Z.of_nat (length (en_audit s)) < MAX_AUDIT -> journal_ok (add_row (next_entry e n a o i s) s).
Proof.
  intros (Hc & Hch & Hl) Hlt. split_and!; cbn -[Z.of_nat MAX_AUDIT].
  - apply counted_snoc; [done|]. cbn -[Z.of_nat]. lia.
  - apply chained_snoc; [done|]. apply next_entry_link.
  - rewrite length_app. cbn. unfold MAX_AUDIT in *. lia.
Qed.

Lemma append_journal_run e n a o i s :
  journal_ok s ->
  append_audit e n a o i s =
    if decide (Z.of_nat (length (en_audit s)) < MAX_AUDIT)
    then (Ok (next_entry e n a o i s), add_row (next_entry e n a o i s) s)
    else (Raise integrity_failed, s).
Proof.
  intros Hj%validate_audit_ok. unfold append_audit, M_bind, mbind, get_state.
  rewrite Hj. unfold lift at 1. unfold lift. unfold raise_if.
  destruct (decide (Z.of_nat (length (en_audit s)) >= MAX_AUDIT)), (decide (Z.of_nat (length (en_audit s)) < MAX_AUDIT));
    [lia|done|done|lia].
Qed.
End journal.

(** ** One call

    What every branch returns and leaves, for a verified journal. *)

Section calls.
Context `{UnicodeData}.
Variable entry_hash : jval -> string.
Hypothesis hash_hex : forall v, Snapshot (entry_hash v).
Notation next_entry := (next_entry entry_hash).
Notation journal_ok := (journal_ok entry_hash).

Definition room_left (n : Z) (s : sound_engine) : Prop := Z.of_nat (length (en_audit s)) + n <= MAX_AUDIT.
#[local] Instance room_left_dec n s : Decision (room_left n s).
Proof. unfold room_left. apply _. Defined.

Definition detected_row (e : sound_env) (o : SoundObservation) (s : sound_engine) : SoundAuditEntry :=
  next_entry e 0 ActDetected o (ev_event_id e) s.
Definition sent_trigger (e : sound_env) (o : SoundObservation) (s : sound_engine) : AutomationSoundTrigger :=
  trigger_for o (ev_event_id e) (detected_row e o s).
Definition delivered (e : sound_env) (o : SoundObservation) (s : sound_engine) : sound_engine :=
  let s1 := add_row (detected_row e o s) s in
  match ev_handoff e with Some _ => hand_over (sent_trigger e o s) s1 | None => s1 end.
Definition confirmed (e : sound_env) (o : SoundObservation) (s : sound_engine) : bool :=
  bool_decide (answer e (sent_trigger e o s) = Some (expected_receipt o (ev_event_id e) (detected_row e o s))).
Definition recorded (e : sound_env) (b : SoundClassifierBinding) (o : SoundObservation) (s : sound_engine)
  : sound_engine :=
  let s := keep_event (event_for b o (ev_event_id e) (confirmed e o s)) (purge (ev_clock e 1) (delivered e o s)) in
  set_detector (detector_of b o) (set_last_event (so_observedAtMs o) (detector s (detector_of b o))) s.
Definition closing_row e b o s : SoundAuditEntry :=
  next_entry e 2 (if confirmed e o s then ActVerified else ActRejected) o (ev_event_id e) (recorded e b o s).
Definition detection (e : sound_env) (b : SoundClassifierBinding) (o : SoundObservation) (s : sound_engine)
  : SoundIngestResult :=
  let event := Some (event_for b o (ev_event_id e) (confirmed e o s)) in
  if confirmed e o s
  then {| ir_status := Event; ir_reason := None; ir_event := event; ir_automationVerified := true |}
  else {| ir_status := Degraded;
          ir_reason := Some (match ev_handoff e with None => AutomationUnavailable | Some _ => AutomationUnverified end);
          ir_event := event; ir_automationVerified := false |}.

Lemma expected_valid e o s :
  observation_valid o -> Identity (ev_event_id e) -> room_left 1 s ->
  AutomationReceipt_valid (expected_receipt o (ev_event_id e) (detected_row e o s)).
Proof.
  intros (_ & _ & Hsrc & _)%observation_valid_iff Hid Hroom. unfold source_valid, room_left, MAX_AUDIT in *.
  unfold AutomationReceipt_valid. cbn -[Z.of_nat]. naive_solver lia.
Qed.

Lemma trigger_valid e o s :
  observation_valid o -> Identity (ev_event_id e) -> room_left 1 s ->
  AutomationSoundTrigger_validate (sent_trigger e o s) = Ok (sent_trigger e o s).
Proof.
  intros (Hn & _ & Hsrc & Hc & Ht & Hev)%observation_valid_iff Hid Hroom. unfold room_left, MAX_AUDIT in *.
  unfold AutomationSoundTrigger_validate. cbn -[Z.of_nat Z.add class_name]. rewrite Hn. cbn -[Z.of_nat Z.add].
  apply bind_ok. exists tt. split; [|done]. apply raise_if_ok. intros [].   split_and!; first [done | lia | apply hash_hex].
Qed.

Lemma event_validated e b o verified :
  observation_valid o -> Identity (ev_event_id e) ->
  SoundEvent_validate (event_for b o (ev_event_id e) verified) =
    if decide (TimestampMs (so_observedAtMs o + sb_retentionSeconds b * 1000))
    then Ok (event_for b o (ev_event_id e) verified) else Raise (ValueError "validation_error").
Proof.
  intros (Hn & _ & Hsrc & Hc & Ht & Hev)%observation_valid_iff Hid.
  unfold SoundEvent_validate. cbn -[class_name Z.mul]. rewrite Hn. cbn -[Z.mul].
  case_decide as Hx.
  - rewrite (raise_if_no (~ _)) by naive_solver. done.
  - rewrite (raise_if_yes (~ _)) by naive_solver. done.
Qed.

Lemma delivered_audit e o s : en_audit (delivered e o s) = en_audit s ++ [detected_row e o s].
Proof. unfold delivered. by destruct (ev_handoff e). Qed.
Lemma recorded_audit e b o s : en_audit (recorded e b o s) = en_audit s ++ [detected_row e o s].
Proof. unfold recorded. cbn. apply delivered_audit. Qed.

Lemma journal_ok_audit s s' : en_audit s' = en_audit s -> journal_ok s -> journal_ok s'.
Proof. unfold SoundEvents.journal_ok. by intros ->. Qed.

Lemma recorded_ok e b o s : journal_ok s -> room_left 1 s -> journal_ok (recorded e b o s).
Proof.
  intros Hj Hr. apply (journal_ok_audit (add_row (detected_row e o s) s)); [by rewrite recorded_audit|].
  apply add_row_ok; [done|]. unfold room_left in Hr. lia.
Qed.

Lemma detection_validated e b o s :
  observation_valid o -> Identity (ev_event_id e) ->
  TimestampMs (so_observedAtMs o + sb_retentionSeconds b * 1000) ->
  let event := event_for b o (ev_event_id e) (confirmed e o s) in
  (if confirmed e o s
   then SoundIngestResult_validate
          {| ir_status := Event; ir_reason := None; ir_event := Some event; ir_automationVerified := true |}
   else degraded (match ev_handoff e with None => AutomationUnavailable | Some _ => AutomationUnverified end)
          (Some event)) = Ok (detection e b o s).
Proof.
  intros Ho Hid Ht event. pose proof (event_validated e b o (confirmed e o s) Ho Hid) as Hev.
  rewrite decide_True in Hev by done. unfold detection, degraded, SoundIngestResult_validate. fold event in Hev |- *.
  destruct (confirmed e o s); cbn -[SoundEvent_validate event]; rewrite Hev; cbn -[event].
  - apply bind_ok. exists tt. split; [apply raise_if_ok; naive_solver|done].
  - apply bind_ok. exists tt. split; [apply raise_if_ok; naive_solver|done].
Qed.

Lemma emit_run e b o s :
  journal_ok s -> observation_valid o -> Identity (ev_event_id e) ->
  emit entry_hash e b o s =
    if decide (room_left 1 s) then
      if decide (TimestampMs (so_observedAtMs o + sb_retentionSeconds b * 1000)) then
        if decide (room_left 2 s)
        then (Ok (detection e b o s), remembered o (detection e b o s) (add_row (closing_row e b o s) (recorded e b o s)))
        else (Raise integrity_failed, recorded e b o s)
      else (Raise (ValueError "validation_error"), delivered e o s)
    else (Raise integrity_failed, s).
Proof.
  intros Hj Ho Hid. unfold emit. unfold mbind at 1, M_bind at 1. rewrite append_journal_run by done.
  unfold room_left at 1. destruct (decide (_ < _)) as [Hlt|], (decide (_ <= _)); [|unfold MAX_AUDIT in *; lia..|done].
  assert (Hr : room_left 1 s) by (unfold room_left; lia).
  pose proof (trigger_valid e o s Ho Hid Hr) as Ht. pose proof (expected_valid e o s Ho Hid Hr) as Hx.
  fold (detected_row e o s). fold (sent_trigger e o s). rewrite Ht.
  rewrite (model_validate_valid (expected_receipt o (ev_event_id e) (detected_row e o s))) by done.
  pose proof (event_validated e b o (confirmed e o s) Ho Hid) as Hev.
  pose proof (detection_validated e b o s Ho Hid) as Hres.
  unfold modify. unfold mbind, M_bind, lift. cbn -[append_audit Z.add room_left MAX_AUDIT degraded SoundIngestResult_validate].
  fold (confirmed e o s). rewrite Hev. case_decide as Htime; [|done]. specialize (Hres Htime). cbn zeta in Hres.
  match goal with |- context [append_audit _ e 2 _ _ _ ?st] => change st with (recorded e b o s) end.
  rewrite append_journal_run by (by apply recorded_ok). rewrite Hres, recorded_audit, length_app.
  unfold room_left. cbn -[Z.of_nat Z.add].
  destruct (decide (_ < _)) as [|], (decide (_ + 2 <= _)); [done|lia..|done].
Qed.

Definition unavailable : SoundIngestResult :=
  {| ir_status := Degraded; ir_reason := Some ProviderUnavailable; ir_event := None; ir_automationVerified := false |}.
Definition suppression (reason : ingest_reason) : SoundIngestResult :=
  {| ir_status := Suppressed; ir_reason := Some reason; ir_event := None; ir_automationVerified := false |}.
(** The report is journalled and its answer kept. *)
Definition answered (e : sound_env) (a : sound_action) (o : SoundObservation) (r : SoundIngestResult) (s : sound_engine)
  : sound_engine := remembered o r (add_row (next_entry e 0 a o NO_EVENT s) s).

Lemma refuse_run e o s :
  journal_ok s ->
  refuse entry_hash e o s =
    if decide (room_left 1 s) then (Ok unavailable, answered e ActProviderDegraded o unavailable s)
    else (Raise integrity_failed, s).
Proof.
  intros Hj. unfold refuse. unfold mbind at 1, M_bind at 1. rewrite append_journal_run by done.
  unfold room_left. destruct (decide (_ < _)) as [|], (decide (_ <= _)); [done|lia..|done].
Qed.

(** The detectors after a report was compared. *)
Definition compared (b : SoundClassifierBinding) (o : SoundObservation) (s : sound_engine) : sound_engine :=
  let k := detector_of b o in
  set_detector k (detect b o (detector s k)).1 (set_detector k (detector s k) s).

Lemma reduce_run e b o s :
  journal_ok s ->
  reduce entry_hash e b o s =
    if decide (so_observedAtMs o <= ds_last_observed_ms (detector s (detector_of b o)))
    then (Raise (ApiError "invalid_request" 400), set_detector (detector_of b o) (detector s (detector_of b o)) s)
    else match (detect b o (detector s (detector_of b o))).2 with
         | Some reason =>
             if decide (room_left 1 (compared b o s))
             then (Ok (suppression reason), answered e ActSuppressed o (suppression reason) (compared b o s))
             else (Raise integrity_failed, compared b o s)
         | None => emit entry_hash e b o (compared b o s)
         end.
Proof.
  intros Hj. unfold reduce. unfold mbind, M_bind, get_state, modify, lift. unfold raise_if.
  destruct (decide (_ <= _)); [done|].
  fold (compared b o s). destruct (detect b o _).2 as [reason|]; [|done].
  rewrite append_journal_run by (by apply (journal_ok_audit s)).
  rewrite suppressed_ok. unfold room_left. destruct (decide (_ < _)) as [|], (decide (_ <= _)); [done|lia..|done].
Qed.

(** What [ingest] decides before it looks at the journal. *)
Inductive admission (e : sound_env) (p : raw SoundEventAuthority) (r : raw SoundObservation) (s : sound_engine)
  : res SoundIngestResult * sound_engine -> Prop :=
  | turned_away x : admission e p r s (Raise x, s)
  | known_before o res :
      observation_valid o -> dict_get (en_observations s) (so_observationId o) = Some (o, res) ->
      admission e p r s (Ok res, s)
  | without_classifier o :
      observation_valid o -> dict_get (en_observations s) (so_observationId o) = None ->
      admission e p r s (refuse entry_hash e o s)
  | with_classifier a o b :
      sound_authority e p = Ok a -> SoundObservation_validate r = Ok o -> sound_binding e a o = Ok (Some b) ->
      observation_valid o -> dict_get (en_observations s) (so_observationId o) = None ->
      admission e p r s (reduce entry_hash e b o s).

Lemma ingest_admission e p r s : journal_ok s -> admission e p r s (ingest entry_hash e p r s).
Proof.
  intros Hj%validate_audit_ok. unfold ingest. unfold mbind, M_bind, lift, get_state. rewrite Hj.
  destruct (sound_authority e p) as [a|x] eqn:Ha; [|constructor].
  destruct (except_value_error _ _) as [o|x] eqn:Ho; [|constructor].
  apply except_value_error_ok in Ho. pose proof (SoundObservation_validate_ok _ _ Ho) as Hv.
  destruct (dict_get _ _) as [[old res]|] eqn:Hd.
  - unfold raise_if. case_decide as Hne; cbn; [constructor|]. subst. by econstructor.
  - destruct (sound_binding e a o) as [[b|]|x] eqn:Hb; [|by apply without_classifier|constructor].
    destruct (sb_degraded b); [by apply without_classifier|by eapply with_classifier].
Qed.

Lemma sound_binding_ok e a o b :
  sound_binding e a o = Ok (Some b) ->
  in_reach a (so_source o) /\ SoundClassifierBinding_valid b /\ sb_source b = so_source o /\ sb_consentGranted b = true.
Proof.
  unfold sound_binding. intros ([] & Hr%raise_if_ok%dec_stable & H0)%bind_ok.
  destruct (validate_optional _) as [[x|]|] eqn:Hv; [|done..].
  apply validate_optional_some in Hv as [_ Hv].
  apply bind_ok in H0 as ([] & H1%raise_if_ok%dec_stable & H0).
  apply bind_ok in H0 as ([] & H2%raise_if_ok & [= <-]).
  do 3 (split; [done|]). by destruct (sb_consentGranted x).
Qed.

(** ** The engine's invariant *)

(** What was handed over, up to the event's id. *)
Definition occurrence : Type := detector_key * Z.
Definition occurrence_of (t : AutomationSoundTrigger) : occurrence := ((at_source t, at_className t), at_observedAtMs t).
Definition occurrence_seen (o : SoundObservation) : occurrence := ((so_source o, so_className o), so_observedAtMs o).

(** A row of the journal that announces a trigger. *)
Definition announces (r : SoundAuditEntry) (t : AutomationSoundTrigger) : Prop :=
  sr_action r = ActDetected /\ sr_eventId r = at_eventId t /\ sr_deviceId r = ss_deviceId (at_source t) /\
  sr_modelRevision r = ss_modelRevision (at_source t) /\ sr_policyRevision r = ss_policyRevision (at_source t) /\
  sr_consentRevision r = ss_consentRevision (at_source t) /\ sr_sequence r = at_auditSequence t /\
  sr_entryHash r = at_auditHead t.

(** The occurrence was handed over. *)
Definition handed (s : sound_engine) (x : occurrence) : Prop := exists t, t ∈ en_sent s /\ occurrence_of t = x.

Record engine_ok (s : sound_engine) : Prop := {
  eo_journal : journal_ok s;
  eo_keys : NoDup (dict_keys (en_observations s));
  eo_few : (length (en_observations s) <= length (en_audit s))%nat;
  eo_answers : forall i o r, (i, (o, r)) ∈ en_observations s ->
    i = so_observationId o /\ observation_valid o /\ (ir_status r = Event -> handed s (occurrence_seen o));
  eo_announced : forall t, t ∈ en_sent s -> exists r, r ∈ en_audit s /\ announces r t;
  eo_once : NoDup (occurrence_of <$> en_sent s);
  eo_order : forall t, t ∈ en_sent s -> at_observedAtMs t <= ds_last_observed_ms (detector s (occurrence_of t).1);
  eo_events : forall x, x ∈ en_events s ->
    sv_automationVerified x = true -> handed s ((sv_source x, sv_className x), sv_observedAtMs x);
}.

Lemma new_engine_ok : engine_ok new_engine.
Proof. split; cbn -[MAX_AUDIT Z.of_nat]; try set_solver; try constructor; done. Qed.

Lemma handed_mono s s' x : en_sent s ⊆ en_sent s' -> handed s x -> handed s' x.
Proof. intros Hs (t & Ht & <-). exists t. set_solver. Qed.

Lemma detector_set s k k' x :
  detector (set_detector k x s) k' = if decide (k = k') then x else detector s k'.
Proof. unfold detector. cbn. rewrite dict_get_set. by case_decide. Qed.

(** A detector whose clock does not go back. *)
Lemma set_detector_ok k x s :
  engine_ok s -> ds_last_observed_ms (detector s k) <= ds_last_observed_ms x -> engine_ok (set_detector k x s).
Proof.
  intros [H1 H2 H3 H4 H5 H6 H7 H8] Hx. split; try done.
  intros t Ht. rewrite detector_set. case_decide as E; [|by apply H7]. subst k. specialize (H7 t Ht). lia.
Qed.

Lemma add_row_engine_ok e n a o i s : engine_ok s -> room_left 1 s -> engine_ok (add_row (next_entry e n a o i s) s).
Proof.
  intros [H1 H2 H3 H4 H5 H6 H7 H8] Hr. split; try done.
  - apply add_row_ok; [done|]. unfold room_left in Hr. lia.
  - cbn. rewrite length_app. lia.
  - intros t (r & Hin & Ha)%H5. exists r. split; [|done]. cbn. set_solver.
Qed.

Lemma remembered_eq o r s :
  engine_ok s -> remembered o r s = set_observations (dict_set (en_observations s) (so_observationId o) (o, r)) s.
Proof.
  intros [(_ & _ & H1) _ H3 _ _ _ _ _]. unfold remembered. rewrite decide_False; [done|].
  unfold MAX_AUDIT, MAX_OBSERVATIONS in *. lia.
Qed.

Lemma remembered_ok o r s :
  engine_ok s -> observation_valid o -> (length (en_observations s) < length (en_audit s))%nat ->
  (ir_status r = Event -> handed s (occurrence_seen o)) -> engine_ok (remembered o r s).
Proof.
  intros Hs Hv Hlt He. rewrite remembered_eq by done. destruct Hs as [H1 H2 H3 H4 H5 H6 H7 H8]. split; try done; cbn.
  - by apply dict_set_nodup.
  - rewrite dict_set_length. destruct (dict_get _ _); lia.
  - intros i o' r' Hin. apply dict_elem_get in Hin; [|by apply dict_set_nodup].
    rewrite dict_get_set in Hin. case_decide; [naive_solver|]. by apply H4, dict_get_elem.
Qed.

Lemma purge_ok now s : engine_ok s -> engine_ok (purge now s).
Proof. intros [H1 H2 H3 H4 H5 H6 H7 H8]. split; try done. cbn. intros x [_ Hx]%list_elem_of_filter. by apply H8. Qed.

Lemma keep_event_elem x y s : y ∈ en_events (keep_event x s) -> y = x \/ y ∈ en_events s.
Proof.
  cbn. case_decide; [|set_solver]. intros [Hy|Hy]%elem_of_app; [|set_solver].
  right. destruct (en_events s); [done|]. by right.
Qed.

Lemma keep_event_ok x s :
  engine_ok s -> (sv_automationVerified x = true -> handed s ((sv_source x, sv_className x), sv_observedAtMs x)) ->
  engine_ok (keep_event x s).
Proof.
  intros [H1 H2 H3 H4 H5 H6 H7 H8] Hx. split; try done. intros y [->|Hy]%keep_event_elem; [done|by apply H8].
Qed.

Lemma hand_over_ok t s :
  engine_ok s -> (exists r, r ∈ en_audit s /\ announces r t) -> ~ handed s (occurrence_of t) ->
  at_observedAtMs t <= ds_last_observed_ms (detector s (occurrence_of t).1) -> engine_ok (hand_over t s).
Proof.
  intros [H1 H2 H3 H4 H5 H6 H7 H8] Ha Hn Ht. split; try done.
  - intros i o r Hin. destruct (H4 i o r Hin) as (? & ? & Hh). split_and!; [done..|].
    intros E. eapply handed_mono; [|by apply Hh]. cbn. set_solver.
  - cbn. intros x [Hx|Hx]%elem_of_app; [by apply H5|]. apply list_elem_of_singleton in Hx as ->. done.
  - cbn. rewrite fmap_app. apply NoDup_app. split_and!; [done| |apply NoDup_singleton].
    intros x (y & -> & Hy)%list_elem_of_fmap Hx. apply Hn. exists y. set_solver.
  - cbn. intros x [Hx|Hx]%elem_of_app; [by apply H7|]. apply list_elem_of_singleton in Hx as ->. done.
  - intros x Hx E. eapply handed_mono; [|by apply (H8 x)]. cbn. set_solver.
Qed.

Lemma detect_time b o x : ds_last_observed_ms (detect b o x).1 = so_observedAtMs o.
Proof. unfold detect. repeat case_decide; cbn; try done; by destruct (ds_active x). Qed.

Lemma compared_detector b o s :
  detector (compared b o s) (detector_of b o) = (detect b o (detector s (detector_of b o))).1.
Proof. unfold compared. by rewrite detector_set, decide_True. Qed.

Lemma compared_ok b o s :
  engine_ok s -> ds_last_observed_ms (detector s (detector_of b o)) < so_observedAtMs o -> engine_ok (compared b o s).
Proof.
  intros Hs Ht. unfold compared. apply set_detector_ok; [by apply set_detector_ok|].
  rewrite detector_set, decide_True, detect_time by done. lia.
Qed.

(** An occurrence later than everything its detector has seen is new. *)
Lemma not_handed s b o :
  engine_ok s -> sb_source b = so_source o ->
  ds_last_observed_ms (detector s (detector_of b o)) < so_observedAtMs o -> ~ handed s (occurrence_seen o).
Proof.
  intros Hs Hb Ht (t & Hin & E). pose proof (eo_order s Hs t Hin) as Hle. rewrite E in Hle.
  apply (f_equal snd) in E. cbn in *. unfold detector_of in Ht. rewrite Hb in Ht. lia.
Qed.

Lemma detected_announces e o s : announces (detected_row e o s) (sent_trigger e o s).
Proof. by repeat split. Qed.

Lemma delivered_ok e b o s :
  engine_ok s -> room_left 1 s -> sb_source b = so_source o -> ~ handed s (occurrence_seen o) ->
  ds_last_observed_ms (detector s (detector_of b o)) = so_observedAtMs o -> engine_ok (delivered e o s).
Proof.
  intros Hs Hr Hb Hn Ht. unfold delivered.
  assert (engine_ok (add_row (detected_row e o s) s)) by by apply add_row_engine_ok.
  destruct (ev_handoff e); [|done]. apply hand_over_ok; [done| |done|].
  - exists (detected_row e o s). split; [cbn; set_solver|apply detected_announces].
  - cbn. unfold detector_of in Ht. rewrite Hb in Ht. unfold detector in *. cbn. lia.
Qed.

Lemma confirmed_handed e o s : confirmed e o s = true -> handed (delivered e o s) (occurrence_seen o).
Proof.
  unfold confirmed, answer, delivered. rewrite bool_decide_eq_true. destruct (ev_handoff e); [|done].
  intros _. exists (sent_trigger e o s). split; [cbn; set_solver|done].
Qed.

Lemma recorded_engine_ok e b o s :
  engine_ok s -> room_left 1 s -> sb_source b = so_source o -> ~ handed s (occurrence_seen o) ->
  ds_last_observed_ms (detector s (detector_of b o)) = so_observedAtMs o -> engine_ok (recorded e b o s).
Proof.
  intros Hs Hr Hb Hn Ht. unfold recorded. apply set_detector_ok; [|done].
  apply keep_event_ok; [apply purge_ok; by eapply delivered_ok|].
  cbn. intros Hc. by apply (confirmed_handed e o s).
Qed.

Lemma emit_ok e b o s :
  engine_ok s -> observation_valid o -> Identity (ev_event_id e) -> sb_source b = so_source o ->
  ~ handed s (occurrence_seen o) -> ds_last_observed_ms (detector s (detector_of b o)) = so_observedAtMs o ->
  engine_ok (emit entry_hash e b o s).2.
Proof.
  intros Hs Ho Hid Hb Hn Ht. rewrite emit_run by (try done; apply Hs).
  destruct (decide (room_left 1 s)) as [Hr|]; [|done].
  pose proof (recorded_engine_ok e b o s Hs Hr Hb Hn Ht) as Hrec.
  destruct (decide (TimestampMs _)); [|by eapply delivered_ok].
  destruct (decide (room_left 2 s)) as [Hr2|]; [|done]. cbn [snd].
  apply remembered_ok; [| done| |].
  - apply add_row_engine_ok; [done|]. unfold room_left in *. rewrite recorded_audit, length_app. cbn. lia.
  - cbn -[recorded]. rewrite length_app, recorded_audit, length_app. cbn -[recorded].
    replace (en_observations (recorded e b o s)) with (en_observations s).
    + pose proof (eo_few s Hs). lia.
    + unfold recorded, delivered. by destruct (ev_handoff e).
  - unfold detection. intros He. destruct (confirmed e o s) eqn:Hc; [|done].
    eapply handed_mono; [|by apply (confirmed_handed e o s)]. done.
Qed.

Lemma answered_ok e a o r s :
  engine_ok s -> room_left 1 s -> observation_valid o -> ir_status r <> Event -> engine_ok (answered e a o r s).
Proof.
  intros Hs Hr Ho Hne. apply remembered_ok; [by apply add_row_engine_ok|done| |done].
  cbn. rewrite length_app. cbn. pose proof (eo_few s Hs). lia.
Qed.

Lemma ingest_ok e p r s :
  engine_ok s -> Identity (ev_event_id e) -> engine_ok (ingest entry_hash e p r s).2.
Proof.
  intros Hs Hid. destruct (ingest_admission e p r s (eo_journal s Hs)) as [x|o res Ho Hd|o Ho Hd|a o b Ha Hr Hb Ho Hd];
    [done|done| |].
  - rewrite refuse_run by apply Hs. case_decide; [|done]. by apply answered_ok.
  - apply sound_binding_ok in Hb as (_ & _ & Hb & _). rewrite reduce_run by apply Hs.
    case_decide as Ht; [by apply set_detector_ok|].
    assert (Hc : engine_ok (compared b o s)) by (apply compared_ok; [done|lia]).
    destruct (detect b o _).2 as [reason|] eqn:Hd2.
    + case_decide; [|done]. by apply answered_ok.
    + apply emit_ok; [done|done|done|done| |].
      * intros Hh. apply (not_handed s b o Hs Hb); [lia|done].
      * by rewrite compared_detector, detect_time.
Qed.

Lemma list_events_run e p s :
  journal_ok s ->
  list_events entry_hash e p s =
    match sound_authority e p with
    | Ok a => (Ok (filter (fun x => in_reach a (sv_source x)) (en_events (purge (ev_clock e 0) s))), purge (ev_clock e 0) s)
    | Raise x => (Raise x, s)
    end.
Proof.
  intros Hj%validate_audit_ok. unfold list_events. unfold mbind, M_bind, lift, get_state, modify. rewrite Hj.
  by destruct (sound_authority e p).
Qed.

(** ** Runs of the engine *)

Inductive engine_step : sound_engine -> sound_engine -> Prop :=
  | step_ingest e p r s : Identity (ev_event_id e) -> engine_step s (ingest entry_hash e p r s).2
  | step_events e p s : engine_step s (list_events entry_hash e p s).2.

Lemma engine_step_ok s s' : engine_step s s' -> engine_ok s -> engine_ok s'.
Proof.
  intros [e p r x Hid|e p x] Hs; [by apply ingest_ok|].
  rewrite list_events_run by apply Hs. destruct (sound_authority e p); [by apply purge_ok|done].
Qed.
Lemma engine_run_ok s s' : rtc engine_step s s' -> engine_ok s -> engine_ok s'.
Proof. induction 1; [done|]. intros. eauto using engine_step_ok. Qed.
Lemma engine_reached_ok s : rtc engine_step new_engine s -> engine_ok s.
Proof. intros Hr. eapply engine_run_ok; [done|apply new_engine_ok]. Qed.
End calls.

(** ** What the detector reports

    A reference over the whole list of reports, oldest first. *)

Section detection.
Variable b : SoundClassifierBinding.
Hypothesis Hb : SoundClassifierBinding_valid b.

(** What [ingest] leaves in the detector. *)
Definition observe (x : DetectorState) (o : SoundObservation) : DetectorState :=
  match (detect b o x).2 with
  | None => set_last_event (so_observedAtMs o) (detect b o x).1
  | Some _ => (detect b o x).1
  end.
Definition after (h : list SoundObservation) : DetectorState := foldl observe new_detector h.
Definition fires (h : list SoundObservation) (o : SoundObservation) : Prop := (detect b o (after h)).2 = None.

Definition confident (o : SoundObservation) : Prop := sb_triggerConfidence b <= so_confidence o.
#[local] Instance confident_dec o : Decision (confident o).
Proof. unfold confident. apply _. Defined.
Definition run_length : nat := Z.to_nat (sb_consecutiveTriggerCount b).

(** The sound is heard: a full run of confident reports, and nothing at or
    below the release level since. *)
Definition heard (h : list SoundObservation) : Prop :=
  exists before run since, h = before ++ run ++ since /\ length run = run_length /\ Forall confident run /\
    Forall (fun o => sb_releaseConfidence b < so_confidence o) since.

(** The length of the confident reports at the end. *)
Definition streak (h : list SoundObservation) : nat := foldl (fun n o => if decide (confident o) then S n else O) O h.

Lemma streak_snoc h o : streak (h ++ [o]) = if decide (confident o) then S (streak h) else O.
Proof. unfold streak. by rewrite foldl_app. Qed.

Lemma streak_run h n : (n <= streak h)%nat <-> exists before run, h = before ++ run /\ length run = n /\ Forall confident run.
Proof.
  revert n. induction h as [|o h IH] using rev_ind; intros n.
  - split; [intros Hn; exists [], []; cbn in *; split_and!; [done|lia|done]|].
    intros (bf & run & E & <- & _). destruct bf, run; done.
  - rewrite streak_snoc. split.
    + case_decide as Hc.
      * intros Hn. destruct n as [|n]; [exists (h ++ [o]), []; by rewrite app_nil_r|].
        destruct (proj1 (IH n)) as (bf & run & -> & Hl & Hf); [lia|].
        exists bf, (run ++ [o]). rewrite app_assoc, length_app. cbn. split_and!; [done|lia|].
        apply Forall_app. by repeat constructor.
      * intros Hn. exists (h ++ [o]), []. rewrite app_nil_r. cbn. split_and!; [done|lia|done].
    + intros (bf & run & E & <- & Hf). destruct run as [|y run _] using rev_ind; [cbn; lia|].
      rewrite app_assoc in E. apply app_inj_tail in E as [E ->]. apply Forall_app in Hf as [Hf [Hy _]%Forall_cons].
      case_decide; [|done]. rewrite length_app. cbn.
      enough (length run <= streak h)%nat by lia. apply IH. by exists bf, run.
Qed.

Lemma heard_snoc h o :
  heard (h ++ [o]) <->
  (heard h /\ sb_releaseConfidence b < so_confidence o) \/ (run_length <= streak (h ++ [o]))%nat.
Proof.
  rewrite streak_run. split.
  - intros (bf & run & since & E & Hl & Hf & Hs). destruct since as [|y since _] using rev_ind.
    + right. exists bf, run. by rewrite app_nil_r in E.
    + left. rewrite !app_assoc in E. apply app_inj_tail in E as [-> ->].
      apply Forall_app in Hs as [Hs [Hy _]%Forall_cons]. split; [|done]. exists bf, run, since. by rewrite app_assoc.
  - intros [[(bf & run & since & -> & Hl & Hf & Hs) Ho]|(bf & run & E & Hl & Hf)].
    + exists bf, run, (since ++ [o]). rewrite !app_assoc. split_and!; [done..|]. apply Forall_app. by repeat constructor.
    + exists bf, run, []. by rewrite app_nil_r.
Qed.

Lemma run_length_pos : (1 <= run_length)%nat /\ Z.of_nat run_length = sb_consecutiveTriggerCount b.
Proof. unfold run_length. destruct Hb as (_ & _ & _ & _ & H1 & _). lia. Qed.

Lemma not_heard_nil : ~ heard [].
Proof.
  intros (bf & run & since & E & Hl & _). pose proof run_length_pos. destruct bf, run; cbn in *; try done; lia.
Qed.

(** The detector's two registers are the reference's. *)
Definition tracks (h : list SoundObservation) (x : DetectorState) : Prop :=
  if ds_active x then heard h /\ ds_consecutive x = 0
  else ~ heard h /\ ds_consecutive x = Z.of_nat (streak h) /\ (streak h < run_length)%nat.

Lemma detect_tracks h o x :
  tracks h x ->
  tracks (h ++ [o]) (detect b o x).1 /\
  (detect b o x).2 =
    if decide (confident o) then
      if ds_active x then Some HysteresisActive
      else if decide (S (streak h) < run_length)%nat then Some AwaitingConfirmation
      else if decide (within_window b o x) then Some Deduplicated else None
    else Some BelowThreshold.
Proof.
  intros Ht. destruct run_length_pos as [Hpos Hn]. destruct Hb as (_ & _ & _ & _ & _ & _ & Hlt).
  pose proof (heard_snoc h o) as Hh. pose proof (streak_snoc h o) as Hst. unfold detect, tracks in *.
  destruct (decide (confident o)) as [Hf|Hf]; unfold confident in Hf.
  - rewrite decide_False by lia. rewrite decide_False by lia. destruct (ds_active x); cbn.
    + split; [|done]. destruct Ht as [H1 H2]. split; [|done]. apply Hh. left. split; [done|lia].
    + destruct Ht as (H1 & H2 & H3). repeat case_decide; cbn; try lia; (split; [|done]); rewrite Hh, ?Hst; split_and?; try lia.
      all: first [right; lia|intros [[? _]|?]; [done|lia]].
  - case_decide as Hc; cbn.
    + split; [|done]. rewrite Hh, Hst. split_and!; [intros [[_ ?]|?]; lia|done|lia].
    + rewrite decide_True by lia. cbn. split; [|done]. rewrite Hst. destruct (ds_active x); cbn.
      * split; [|done]. apply Hh. left. split; [naive_solver|lia].
      * split_and!; [|done|lia]. rewrite Hh, Hst. intros [[? _]|?]; [naive_solver|lia].
Qed.

Lemma after_snoc h o : after (h ++ [o]) = observe (after h) o.
Proof. unfold after. by rewrite foldl_app. Qed.

Lemma after_tracks h : tracks h (after h).
Proof.
  induction h as [|o h IH] using rev_ind.
  - pose proof run_length_pos. split_and!; [apply not_heard_nil|done|cbn; lia].
  - rewrite after_snoc. destruct (detect_tracks h o _ IH) as [Ht _]. unfold observe.
    by destruct (detect b o (after h)).2.
Qed.

(** An event was reported at this time. *)
Definition fired_at (h : list SoundObservation) (t : Z) : Prop :=
  exists h1 o h2, h = h1 ++ o :: h2 /\ fires h1 o /\ t = so_observedAtMs o.

Lemma fired_at_snoc h o t : fired_at (h ++ [o]) t <-> fired_at h t \/ (fires h o /\ t = so_observedAtMs o).
Proof.
  split.
  - intros (h1 & y & h2 & E & Hf & ->). destruct h2 as [|z h2 _] using rev_ind.
    + apply app_inj_tail in E as [-> ->]. by right.
    + rewrite app_comm_cons, app_assoc in E. apply app_inj_tail in E as [-> _]. left. by exists h1, y, h2.
  - intros [(h1 & y & h2 & -> & Hf & ->)|[Hf ->]].
    + exists h1, y, (h2 ++ [o]). by rewrite <- app_assoc.
    + by exists h, o, [].
Qed.

(** Reports arrive in the order of their times. *)
Definition in_time : list SoundObservation -> Prop :=
  StronglySorted (fun x y => so_observedAtMs x < so_observedAtMs y).

Lemma in_time_snoc h o : in_time (h ++ [o]) -> in_time h /\ forall t, fired_at h t -> t < so_observedAtMs o.
Proof.
  intros (Hl & Hh & _)%StronglySorted_app. split; [done|].
  intros t (h1 & y & h2 & -> & _ & ->). apply (Hl y o); set_solver.
Qed.

Lemma detect_last_event o x : ds_last_event_ms (detect b o x).1 = ds_last_event_ms x.
Proof. unfold detect. repeat case_decide; cbn; try done; by destruct (ds_active x). Qed.

Lemma after_last_event h :
  in_time h ->
  match ds_last_event_ms (after h) with
  | None => forall t, ~ fired_at h t
  | Some t => fired_at h t /\ forall t', fired_at h t' -> t' <= t
  end.
Proof.
  induction h as [|o h IH] using rev_ind; intros Ht.
  - cbn. intros t (h1 & y & h2 & E & _). by destruct h1.
  - apply in_time_snoc in Ht as [Ht Hlt]. specialize (IH Ht). rewrite after_snoc.
    pose proof (fun t => fired_at_snoc h o t) as Hs. unfold observe, fires in *.
    destruct (detect b o (after h)).2 as [reason|] eqn:E; cbn.
    + rewrite detect_last_event.
      destruct (ds_last_event_ms (after h)); setoid_rewrite Hs; naive_solver.
    + setoid_rewrite Hs. split; [by right|]. intros t' [Hf|[_ ->]]; [|lia]. specialize (Hlt t' Hf). lia.
Qed.

Lemma within_window_after h o :
  in_time h ->
  within_window b o (after h) <-> exists t, fired_at h t /\ so_observedAtMs o - t < sb_dedupWindowMs b.
Proof.
  intros Ht%after_last_event. unfold within_window. destruct (ds_last_event_ms (after h)) as [t|].
  - destruct Ht as [Hf Hmax]. split; [by exists t|]. intros (t' & Hf' & Hw). specialize (Hmax t' Hf'). lia.
  - split; [done|]. intros (t & Hf & _). by apply (Ht t).
Qed.

(** The detector answers, of every report in a list in order of time, what the
    reference says: a report below the trigger level is below; a confident one
    while the sound is heard is part of it; one that does not make it heard
    awaits more; and the one that makes it heard is the event, unless an event
    was reported less than the window before. *)
Theorem detector_exact h o :
  in_time (h ++ [o]) ->
  match (detect b o (after h)).2 with
  | Some BelowThreshold => ~ confident o
  | Some HysteresisActive => confident o /\ heard h
  | Some AwaitingConfirmation => confident o /\ ~ heard (h ++ [o])
  | Some Deduplicated => ~ heard h /\ heard (h ++ [o]) /\
                         exists t, fired_at h t /\ so_observedAtMs o - t < sb_dedupWindowMs b
  | None => ~ heard h /\ heard (h ++ [o]) /\
            forall t, fired_at h t -> sb_dedupWindowMs b <= so_observedAtMs o - t
  | Some _ => False
  end.
Proof.
  intros [Ht _]%in_time_snoc. pose proof (after_tracks h) as Ha. destruct (detect_tracks h o _ Ha) as [Hd ->].
  pose proof (heard_snoc h o) as Hh. rewrite streak_snoc in Hh. pose proof (within_window_after h o Ht) as Hw.
  unfold tracks in Ha. destruct (decide (confident o)) as [Hc|]; [|done].
  destruct (ds_active (after h)); [naive_solver|]. destruct Ha as (Hn & _ & Hs).
  case_decide; [split; [done|]; rewrite Hh; intros [[? _]|?]; [done|lia]|].
  assert (heard (h ++ [o])) by (apply Hh; right; lia).
  case_decide as Hin; [naive_solver|]. split_and!; [done..|]. intros t Hf.
  destruct (decide (sb_dedupWindowMs b <= so_observedAtMs o - t)); [done|]. destruct Hin. apply Hw. exists t. split; [done|lia].
Qed.
End detection.

(** ** The engine and its detectors *)

Section engine_facts.
Context `{UnicodeData}.
Variable entry_hash : jval -> string.
Hypothesis hash_hex : forall v, Snapshot (entry_hash v).
Notation ingest := (ingest entry_hash).
Notation engine_step := (engine_step entry_hash).
Notation engine_ok := (engine_ok entry_hash).

(** A call brings a new report of a classifier that is ready. *)
Definition reporting e p r s b o : Prop :=
  exists a, sound_authority e p = Ok a /\ SoundObservation_validate r = Ok o /\
    sound_binding e a o = Ok (Some b) /\ sb_degraded b = false /\
    dict_get (en_observations s) (so_observationId o) = None.

Lemma ingest_reporting e p r s b o :
  engine_ok s -> reporting e p r s b o -> ingest e p r s = reduce entry_hash e b o s.
Proof.
  intros Hs (a & Ha & Hr & Hb & Hd & Hn). pose proof (eo_journal _ s Hs) as Hj%validate_audit_ok.
  unfold SoundEvents.ingest. unfold mbind, M_bind, lift, get_state. rewrite Ha, Hr. cbn -[validate_audit]. by rewrite Hj, Hn, Hb, Hd.
Qed.

(** What the detector found, in the answer. *)
Definition answers (found : option ingest_reason) (res : SoundIngestResult) : Prop :=
  match found with
  | Some reason => res = suppression reason
  | None => is_Some (ir_event res) /\ ir_status res <> Suppressed
  end.

Lemma recorded_detector e b o s :
  detector (recorded entry_hash e b o s) (detector_of b o) =
    set_last_event (so_observedAtMs o) (detector s (detector_of b o)).
Proof.
  unfold recorded. rewrite detector_set, decide_True by done. unfold delivered. by destruct (ev_handoff e).
Qed.

Lemma reduce_observes e b o s res s' :
  engine_ok s -> observation_valid o -> Identity (ev_event_id e) ->
  reduce entry_hash e b o s = (Ok res, s') ->
  ds_last_observed_ms (detector s (detector_of b o)) < so_observedAtMs o /\
  detector s' (detector_of b o) = observe b (detector s (detector_of b o)) o /\
  answers (detect b o (detector s (detector_of b o))).2 res.
Proof.
  intros Hs Ho Hid. rewrite reduce_run by apply Hs. case_decide as Ht; [done|].
  pose proof (compared_ok entry_hash b o s Hs ltac:(lia)) as Hc. unfold observe, answers.
  rewrite <- compared_detector. destruct (detect b o _).2 as [reason|] eqn:E.
  - case_decide; [|done]. intros [= <- <-]. split; [lia|]. done.
  - rewrite emit_run by (try done; apply Hc). case_decide; [|done]. case_decide; [|done]. case_decide; [|done].
    intros Hres. split; [lia|].
    assert (res = detection entry_hash e b o (compared b o s) /\
            s' = remembered o (detection entry_hash e b o (compared b o s))
                   (add_row (closing_row entry_hash e b o (compared b o s)) (recorded entry_hash e b o (compared b o s))))
      as [-> ->] by (split; congruence).
    split; [apply recorded_detector|]. unfold detection. by destruct (confirmed _ _ _ _).
Qed.

(** The engine as seen by one classifier and one class: the reports about it
    that were answered, oldest first. *)
Inductive listening (b : SoundClassifierBinding) (k : detector_key) : list SoundObservation -> sound_engine -> Prop :=
  | listen_new s : rtc engine_step new_engine s -> detector s k = new_detector -> listening b k [] s
  | listen_elsewhere h s s' :
      listening b k h s -> engine_step s s' -> detector s' k = detector s k -> listening b k h s'
  | listen_report h s e p r o res s' :
      listening b k h s -> Identity (ev_event_id e) -> reporting e p r s b o -> detector_of b o = k ->
      ingest e p r s = (Ok res, s') -> listening b k (h ++ [o]) s'.

Lemma observe_time b o x : ds_last_observed_ms (observe b x o) = so_observedAtMs o.
Proof. unfold observe. destruct (detect b o x).2; cbn; by rewrite detect_time. Qed.

(** A report that was answered is later than all before it. *)
Lemma in_time_next b h o :
  in_time h -> ds_last_observed_ms (after b h) < so_observedAtMs o -> in_time (h ++ [o]).
Proof.
  intros Ht Hlt. apply StronglySorted_snoc; [done|]. apply Forall_forall. intros x Hx.
  destruct h as [|y h _] using rev_ind; [by apply not_elem_of_nil in Hx|].
  rewrite after_snoc, observe_time in Hlt. unfold in_time in Ht. apply StronglySorted_app in Ht as (Hl & _).
  apply elem_of_app in Hx as [Hx| ->%list_elem_of_singleton]; [|done].
  assert (so_observedAtMs x < so_observedAtMs y) by (apply Hl; set_solver). lia.
Qed.

Lemma listening_after b k h s :
  listening b k h s -> engine_ok s /\ detector s k = after b h /\ in_time h.
Proof.
  induction 1 as [s Hr Hk|h s s' _ (Hs & Hd & Ht) Hst Hk|h s e p r o res s' _ (Hs & Hd & Ht) Hid Hrep <- Hi].
  - split_and!; [by apply engine_reached_ok|done|constructor].
  - split_and!; [by eapply engine_step_ok|congruence|done].
  - pose proof (ingest_ok entry_hash hash_hex e p r s Hs Hid) as Hs'. rewrite Hi in Hs'.
    rewrite (ingest_reporting _ _ _ _ b o) in Hi by done. destruct Hrep as (a & _ & Hr & _).
    apply reduce_observes in Hi as (Hlt & Hd' & _); [|done|by eapply SoundObservation_validate_ok|done].
    rewrite Hd in Hlt, Hd'. split_and!; [done|by rewrite after_snoc|by eapply in_time_next].
Qed.

(** What the reference says about the next report, and the answer. *)
Definition judged (b : SoundClassifierBinding) (h : list SoundObservation) (o : SoundObservation)
    (res : SoundIngestResult) : Prop :=
  match ir_event res, ir_reason res with
  | Some _, _ => ~ heard b h /\ heard b (h ++ [o]) /\
                 forall t, fired_at b h t -> sb_dedupWindowMs b <= so_observedAtMs o - t
  | None, Some BelowThreshold => so_confidence o < sb_triggerConfidence b
  | None, Some HysteresisActive => sb_triggerConfidence b <= so_confidence o /\ heard b h
  | None, Some AwaitingConfirmation => sb_triggerConfidence b <= so_confidence o /\ ~ heard b (h ++ [o])
  | None, Some Deduplicated => ~ heard b h /\ heard b (h ++ [o]) /\
                               exists t, fired_at b h t /\ so_observedAtMs o - t < sb_dedupWindowMs b
  | None, _ => False
  end.

(** C18 An answered report is judged by the whole list of the reports answered
    before it, whatever other classifiers and readers did in between: an event
    is returned exactly when the sound was not heard before, this report
    completes a full run of confident ones, and no event of the same classifier
    and class lies less than the window before it. *)
Theorem sound_reports_judged b h s e p r o res s' :
  listening b (detector_of b o) h s -> Identity (ev_event_id e) -> reporting e p r s b o ->
  ingest e p r s = (Ok res, s') ->
  judged b h o res.
Proof.
  intros Hl Hid Hrep Hi. destruct (listening_after _ _ _ _ Hl) as (Hs & Hd & Ht).
  rewrite (ingest_reporting _ _ _ _ b o) in Hi by done. destruct Hrep as (a & _ & Hr & Hb & _).
  apply sound_binding_ok in Hb as (_ & Hb & _).
  apply reduce_observes in Hi as (Hlt & _ & Ha); [|done|by eapply SoundObservation_validate_ok|done].
  rewrite Hd in Hlt, Ha. pose proof (detector_exact b Hb h o ltac:(by eapply in_time_next)) as Hx.
  unfold judged, answers, confident in *. destruct (detect b o (after b h)).2 as [reason|].
  - subst res. cbn. destruct reason; try done. lia.
  - destruct Ha as [[x ->] _]. done.
Qed.

(** C21 In every reachable state the journal verifies; what was handed to the
    automation was announced in the journal before, with the sequence number and
    the digest the automation was given; no report of a class by a classifier is
    handed over twice; and every verified event, kept or answered, was handed
    over. *)
Theorem sound_handoffs_once s :
  rtc engine_step new_engine s ->
  audit_rows entry_hash s = Ok (en_audit s) /\
  NoDup (occurrence_of <$> en_sent s) /\
  (forall t, t ∈ en_sent s -> exists row, row ∈ en_audit s /\ announces row t) /\
  (forall x, x ∈ en_events s -> sv_automationVerified x = true ->
     handed s ((sv_source x, sv_className x), sv_observedAtMs x)) /\
  (forall i o res, (i, (o, res)) ∈ en_observations s -> ir_status res = Event -> handed s (occurrence_seen o)).
Proof.
  intros Hr. pose proof (engine_reached_ok entry_hash hash_hex s Hr) as [Hj H2 H3 H4 H5 H6 H7 H8].
  split_and!; [|done..|].
  - unfold audit_rows. apply validate_audit_ok in Hj. by rewrite Hj.
  - intros i o res Hin. by apply (H4 i o res).
Qed.

Lemma observations_kept s i x s' :
  engine_ok s -> dict_get (en_observations s) i = Some x -> engine_step s s' ->
  dict_get (en_observations s') i = Some x.
Proof.
  intros Hs Hi Hst. destruct Hst as [e p r s Hid|e p s].
  - assert (Hkeep : forall o res s', engine_ok s' -> en_observations s' = en_observations s ->
              dict_get (en_observations s) (so_observationId o) = None ->
              dict_get (en_observations (remembered o res s')) i = Some x).
    { intros o res s' Hs' E Hn. rewrite (remembered_eq entry_hash) by done. cbn. rewrite E, dict_get_set.
      case_decide; [congruence|done]. }
    destruct (ingest_admission entry_hash e p r s (eo_journal _ s Hs))
      as [y|o res Ho Hd|o Ho Hd|a o b Ha Hr Hb Ho Hd]; [done|done| |].
    + rewrite refuse_run by apply Hs. case_decide; [|done]. apply Hkeep; [by apply add_row_engine_ok|done|done].
    + apply sound_binding_ok in Hb as (_ & _ & Hb & _). rewrite reduce_run by apply Hs.
      case_decide as Ht; [done|].
      assert (Hc : engine_ok (compared b o s)) by (apply compared_ok; [done|lia]).
      destruct (detect b o _).2 as [reason|] eqn:Hd2.
      * case_decide; [|done]. apply Hkeep; [by apply add_row_engine_ok|done|done].
      * rewrite emit_run by (try done; apply Hc).
        assert (Hn : ~ handed (compared b o s) (occurrence_seen o)).
        { intros Hh. apply (not_handed entry_hash s b o Hs Hb); [lia|done]. }
        assert (E : en_observations (delivered entry_hash e o (compared b o s)) = en_observations s).
        { unfold delivered. by destruct (ev_handoff e). }
        case_decide as Hr1; [|done]. case_decide; [|cbn; by rewrite E].
        pose proof (recorded_engine_ok entry_hash hash_hex e b o _ Hc Hr1 Hb Hn
                      ltac:(by rewrite compared_detector, detect_time)) as Hrec.
        case_decide as Hr2; [|cbn; by rewrite E]. apply Hkeep; [|done|done].
        apply (add_row_engine_ok entry_hash hash_hex); [done|]. unfold room_left in *. rewrite recorded_audit, length_app. cbn [length]. lia.
  - rewrite list_events_run by apply Hs. by destruct (sound_authority e p).
Qed.

Lemma ingest_replays e p r s a o res :
  engine_ok s -> sound_authority e p = Ok a -> SoundObservation_validate r = Ok o ->
  dict_get (en_observations s) (so_observationId o) = Some (o, res) -> ingest e p r s = (Ok res, s).
Proof.
  intros Hs Ha Hr Hd. pose proof (eo_journal _ s Hs) as Hj%validate_audit_ok.
  unfold SoundEvents.ingest. unfold mbind, M_bind, lift, get_state. rewrite Ha, Hr. cbn -[validate_audit].
  rewrite Hj, Hd. unfold raise_if. by case_decide.
Qed.

(** An answer is final: whatever happens after, the same report by any
    observer gets the answer it got, without a change to the engine; the cache
    of answers never drops one, because the journal is full first. *)
Theorem sound_answers_final s0 s e p r a o res :
  rtc engine_step new_engine s0 -> dict_get (en_observations s0) (so_observationId o) = Some (o, res) ->
  rtc engine_step s0 s -> sound_authority e p = Ok a -> SoundObservation_validate r = Ok o ->
  ingest e p r s = (Ok res, s).
Proof.
  intros H0%engine_reached_ok Hd Hrun Ha Hr; [|done].
  assert (Hs : engine_ok s /\ dict_get (en_observations s) (so_observationId o) = Some (o, res)).
  { induction Hrun as [s|s s1 s2 Hst Hrun IH]; [done|].
    apply IH; [by eapply engine_step_ok|by eapply observations_kept]. }
  destruct Hs. by eapply ingest_replays.
Qed.

(** A full journal is final: nothing is recorded, handed over or answered any
    more, except the answers given before. *)
Theorem full_journal_is_final s e p r res s' :
  rtc engine_step new_engine s -> Z.of_nat (length (en_audit s)) = MAX_AUDIT -> Identity (ev_event_id e) ->
  ingest e p r s = (Ok res, s') ->
  s' = s /\ exists o, dict_get (en_observations s) (so_observationId o) = Some (o, res).
Proof.
  intros Hs%engine_reached_ok Hfull Hid Hi; [|done].
  assert (Hr1 : forall s, Z.of_nat (length (en_audit s)) = MAX_AUDIT -> ~ room_left 1 s)
    by (unfold room_left; lia).
  destruct (ingest_admission entry_hash e p r s (eo_journal _ s Hs))
    as [y|o y Ho Hd|o Ho Hd|a o b Ha Hr Hb Ho Hd]; [done| | |].
  - injection Hi as <- <-. eauto.
  - rewrite refuse_run in Hi by apply Hs. case_decide; [|done]. by destruct (Hr1 s).
  - rewrite reduce_run in Hi by apply Hs. case_decide; [done|].
    assert (Hc : engine_ok (compared b o s)) by (apply compared_ok; [done|lia]).
    assert (Hf : ~ room_left 1 (compared b o s)) by by apply Hr1.
    destruct (detect b o _).2; [by case_decide|].
    rewrite emit_run in Hi by (try done; apply Hc). by case_decide.
Qed.

(** A report that completes an event whose expiry does not fit, or whose
    closing row does not fit the journal, is handed over first and fails
    after: the caller gets an error and no answer is kept. *)
Theorem handed_over_then_failed e p r s b o :
  rtc engine_step new_engine s -> Identity (ev_event_id e) -> reporting e p r s b o -> is_Some (ev_handoff e) ->
  ds_last_observed_ms (detector s (detector_of b o)) < so_observedAtMs o ->
  (detect b o (detector s (detector_of b o))).2 = None -> Z.of_nat (length (en_audit s)) < MAX_AUDIT ->
  ~ TimestampMs (so_observedAtMs o + sb_retentionSeconds b * 1000) \/
    Z.of_nat (length (en_audit s)) = MAX_AUDIT - 1 ->
  exists x s' t, ingest e p r s = (Raise x, s') /\ en_sent s' = en_sent s ++ [t] /\
    occurrence_of t = occurrence_seen o /\ en_observations s' = en_observations s.
Proof.
  intros Hs%engine_reached_ok Hid Hrep [f Hf] Hlt Hd Hroom Hbad; [|done].
  rewrite (ingest_reporting e p r s b o) by done. destruct Hrep as (a & _ & Hr & Hb & _).
  rewrite reduce_run by apply Hs. rewrite decide_False by lia. rewrite Hd.
  assert (Hc : engine_ok (compared b o s)) by by apply compared_ok.
  rewrite emit_run by (try done; first [apply Hc|by eapply SoundObservation_validate_ok]).
  assert (Hr1 : room_left 1 (compared b o s)) by (unfold room_left; cbn -[Z.of_nat MAX_AUDIT]; lia).
  rewrite decide_True by done.
  assert (Hsent : forall g, en_sent (delivered entry_hash e o g) = en_sent g ++ [sent_trigger entry_hash e o g]).
  { intros g. unfold delivered. by rewrite Hf. }
  assert (Hobs : forall g, en_observations (delivered entry_hash e o g) = en_observations g).
  { intros g. unfold delivered. by rewrite Hf. }
  case_decide as Ht.
  - rewrite decide_False by (unfold room_left; cbn -[Z.of_nat MAX_AUDIT]; naive_solver lia).
    do 3 eexists. split; [done|]. cbn [en_sent en_observations recorded set_detector keep_event set_events purge].
    rewrite Hsent, Hobs. by split_and!.
  - do 3 eexists. split; [done|]. rewrite Hsent, Hobs. by split_and!.
Qed.
End engine_facts.

(** ** A doorbell *)

Module DoorbellExample.
Definition id (c : string) : string := String.concat "" (repeat c 32).
Definition hash (v : jval) : string := ZERO_HASH.
Definition source : sound_source :=
  {| ss_coreId := id "a"; ss_homeId := id "b"; ss_roomId := id "c"; ss_roomRevision := 1; ss_deviceId := id "d";
     ss_deviceRevision := 1; ss_modelId := id "e"; ss_modelRevision := 1; ss_providerRevision := 1;
     ss_policyRevision := 1; ss_consentRevision := 1 |}.
Definition authority : SoundEventAuthority :=
  {| sa_coreId := id "a"; sa_homeId := id "b"; sa_homeRevision := 1; sa_accountId := id "1"; sa_accountRevision := 1;
     sa_memberRevision := 1; sa_sessionFamilyId := id "2"; sa_accessibleRoomIds := [id "c"];
     sa_accessibleDeviceIds := [id "d"]; sa_active := true; sa_canObserve := true |}.
Definition binding : SoundClassifierBinding :=
  {| sb_source := source; sb_consentGranted := true; sb_retentionSeconds := 3600; sb_triggerConfidence := CERTAIN;
     sb_releaseConfidence := 0; sb_consecutiveTriggerCount := 2; sb_dedupWindowMs := 1000; sb_degraded := false |}.
(** The automation accepts whatever it is given. *)
Definition receipt_of (t : AutomationSoundTrigger) : AutomationReceipt :=
  let src := at_source t in
  {| ar_eventId := at_eventId t; ar_coreId := ss_coreId src; ar_homeId := ss_homeId src;
     ar_roomRevision := ss_roomRevision src; ar_deviceRevision := ss_deviceRevision src;
     ar_modelRevision := ss_modelRevision src; ar_providerRevision := ss_providerRevision src;
     ar_policyRevision := ss_policyRevision src; ar_consentRevision := ss_consentRevision src;
     ar_auditSequence := at_auditSequence t; ar_auditHead := at_auditHead t; ar_accepted := true |}.
Definition env : sound_env :=
  {| ev_authority _ := Resolved (Shaped authority); ev_binding _ := Resolved (Shaped binding);
     ev_handoff := Some (fun t => Resolved (Shaped (receipt_of t))); ev_clock _ := 5; ev_event_id := id "f" |}.
Definition report (c : string) (t : Z) : SoundObservation :=
  {| so_observationId := id c; so_source := source; so_className := u "doorbell"; so_confidence := CERTAIN;
     so_observedAtMs := t; so_evidenceDigest := ZERO_HASH |}.
Definition hear (o : SoundObservation) (s : sound_engine) : sound_engine :=
  (ingest hash env (Shaped authority) (Shaped o) s).2.

Definition first := report "6" 1000.
Definition second := report "7" 1500.
Definition late := report "8" (2 ^ 63 - 1).
Definition once : sound_engine := hear first new_engine.
Definition twice : sound_engine := hear second once.

Lemma hash_hex v : Snapshot (hash v).
Proof. by vm_compute. Qed.
Lemma env_id : Identity (ev_event_id env).
Proof. by vm_compute. Qed.

Lemma once_reached : rtc (engine_step hash) new_engine once.
Proof. apply rtc_once. apply step_ingest. apply env_id. Qed.
Lemma twice_reached : rtc (engine_step hash) once twice.
Proof. apply rtc_once. apply step_ingest. apply env_id. Qed.

Lemma reporting_first : reporting env (Shaped authority) (Shaped first) new_engine binding first.
Proof. exists authority. split_and!; by vm_compute. Qed.
Lemma reporting_second : reporting env (Shaped authority) (Shaped second) once binding second.
Proof. exists authority. split_and!; by vm_compute. Qed.
Lemma reporting_late : reporting env (Shaped authority) (Shaped late) once binding late.
Proof. exists authority. split_and!; by vm_compute. Qed.

(** The first report awaits a second one, which makes the event. *)
Lemma first_answer :
  (ingest hash env (Shaped authority) (Shaped first) new_engine).1 = Ok (suppression AwaitingConfirmation).
Proof. by vm_compute. Qed.
Definition rung : SoundIngestResult :=
  {| ir_status := Event; ir_reason := None; ir_event := Some (event_for binding second (id "f") true);
     ir_automationVerified := true |}.
Lemma second_answer : (ingest hash env (Shaped authority) (Shaped second) once).1 = Ok rung.
Proof. by vm_compute. Qed.

Lemma listening_once : listening hash binding (detector_of binding second) [first] once.
Proof.
  apply (listen_report _ _ _ [] new_engine env (Shaped authority) (Shaped first) _ (suppression AwaitingConfirmation)).
  - by apply listen_new.
  - apply env_id.
  - apply reporting_first.
  - done.
  - rewrite <- first_answer. apply surjective_pairing.
Qed.

Lemma sound_reports_judged_witness :
  reporting env (Shaped authority) (Shaped second) once binding second /\ judged binding [first] second rung.
Proof.
  split; [apply reporting_second|].
  apply (sound_reports_judged hash hash_hex binding [first] once env (Shaped authority) (Shaped second) second rung twice).
  - apply listening_once.
  - apply env_id.
  - apply reporting_second.
  - rewrite <- second_answer. apply surjective_pairing.
Defined.

Lemma sound_handoffs_once_witness :
  length (en_sent twice) = 1%nat /\ NoDup (occurrence_of <$> en_sent twice).
Proof.
  split; [by vm_compute|].
  apply (sound_handoffs_once hash hash_hex twice). etrans; [apply once_reached|apply twice_reached].
Defined.

Lemma sound_answers_final_witness :
  ingest hash env (Shaped authority) (Shaped first) twice = (Ok (suppression AwaitingConfirmation), twice).
Proof.
  apply (sound_answers_final hash hash_hex once twice env (Shaped authority) (Shaped first) authority first).
  - apply once_reached.
  - by vm_compute.
  - apply twice_reached.
  - by vm_compute.
  - by vm_compute.
Defined.

Lemma handed_over_then_failed_witness :
  exists x s' t, ingest hash env (Shaped authority) (Shaped late) once = (Raise x, s') /\
    en_sent s' = en_sent once ++ [t] /\ occurrence_of t = occurrence_seen late /\
    en_observations s' = en_observations once.
Proof.
  apply (handed_over_then_failed hash hash_hex env (Shaped authority) (Shaped late) once binding late).
  - apply once_reached.
  - apply env_id.
  - apply reporting_late.
  - by eexists.
  - by vm_compute.
  - by vm_compute.
  - by vm_compute.
  - left. by vm_compute; intros [_ ?].
Defined.
End DoorbellExample.
