(* ===== verification/SoundRepository.v ===== *)
(** * Sound events: the store of recorded events

    [server/larenor_server/sound_events/repository.py] with its part of
    [models.py]: the local classifier's ingress records an event for one
    account, that account lists its events and acknowledges each once.  Every
    row carries a tag over its columns, one sealed row counts the events and
    numbers the changes, and a receipt answers a repeated request.

    The store has its own file and reads the account tables of the primary
    database, which the operations here never write.  HMAC, SHA-256 and
    pydantic's printer and parser of receipts are parameters.  A confidence is
    the multiple of the least positive double it is in SoundEvents.v;
    [executescript] commits first, so a migration is not a transaction. *)

From stdpp Require Import countable.
From S2P Require Import Prelude Auth SoundEvents.

Definition MAX_STORED : Z := 10000.
Definition MAX_RECEIPTS : Z := 20000.

(** ** Contracts *)

Record SoundEventClientAuthority := {
  sc_coreId : string;
  sc_homeId : string;
  sc_accountId : string;
  sc_sessionFamilyId : string;
  sc_accountRevision : Z;
  sc_repositoryRevision : Z;
  sc_canRead : bool;
  sc_canAcknowledge : bool;
}.
Definition SoundEventClientAuthority_valid (a : SoundEventClientAuthority) : Prop :=
  Identity (sc_coreId a) /\ Identity (sc_homeId a) /\ Identity (sc_accountId a) /\ Identity (sc_sessionFamilyId a) /\
  Revision (sc_accountRevision a) /\ Revision (sc_repositoryRevision a).
#[export] Instance SoundEventClientAuthority_valid_dec a : Decision (SoundEventClientAuthority_valid a).
Proof. unfold SoundEventClientAuthority_valid. apply _. Defined.
#[export] Instance SoundEventClientAuthority_model : Model SoundEventClientAuthority :=
  {| model_valid := SoundEventClientAuthority_valid |}.

Record SoundEventRecord := {
  sn_eventId : string;
  sn_roomId : string;
  sn_deviceId : string;
  sn_className : ustr;
  sn_confidence : Z;
  sn_observedAtMs : Z;
  sn_retentionExpiresAtMs : Z;
  sn_eventRevision : Z;
  sn_acknowledged : bool;
  sn_automationVerified : bool;
}.
#[export] Instance SoundEventRecord_eq_dec : EqDecision SoundEventRecord.
Proof. solve_decision. Defined.

Definition SoundEventRecord_validate `{UnicodeData} (x : SoundEventRecord) : res SoundEventRecord :=
  name ← class_name (sn_className x);
  _ ← raise_if (~ (Identity (sn_eventId x) /\ Identity (sn_roomId x) /\ Identity (sn_deviceId x) /\
                   Confidence (sn_confidence x) /\ TimestampMs (sn_observedAtMs x) /\
                   TimestampMs (sn_retentionExpiresAtMs x) /\ Revision (sn_eventRevision x)))
        (ValueError "validation_error");
  Ok {| sn_eventId := sn_eventId x; sn_roomId := sn_roomId x; sn_deviceId := sn_deviceId x; sn_className := name;
        sn_confidence := sn_confidence x; sn_observedAtMs := sn_observedAtMs x;
        sn_retentionExpiresAtMs := sn_retentionExpiresAtMs x; sn_eventRevision := sn_eventRevision x;
        sn_acknowledged := sn_acknowledged x; sn_automationVerified := sn_automationVerified x |}.

Record SoundEventSnapshot := {
  sh_authority : SoundEventClientAuthority;
  sh_repositoryRevision : Z;
  sh_events : list SoundEventRecord;
}.
(** [SoundEventSnapshot(...)]: its parts are validated again, then
    [exact_revision]. *)
Definition SoundEventSnapshot_validate `{UnicodeData} (x : SoundEventSnapshot) : res SoundEventSnapshot :=
  authority ← model_validate (Shaped (sh_authority x));
  _ ← raise_if (~ Revision (sh_repositoryRevision x) \/ ~ (length (sh_events x) <= 100)%nat)
        (ValueError "validation_error");
  events ← fold_res (fun acc e => e ← SoundEventRecord_validate e; Ok (acc ++ [e])) [] (sh_events x);
  _ ← raise_if (sc_repositoryRevision authority <> sh_repositoryRevision x) (ValueError "revision_mismatch");
  Ok {| sh_authority := authority; sh_repositoryRevision := sh_repositoryRevision x; sh_events := events |}.

Record SoundEventAcknowledgementRequest := {
  sq_requestId : string;
  sq_expectedRepositoryRevision : Z;
  sq_expectedEventRevision : Z;
}.
Definition SoundEventAcknowledgementRequest_valid (r : SoundEventAcknowledgementRequest) : Prop :=
  Identity (sq_requestId r) /\ Revision (sq_expectedRepositoryRevision r) /\ Revision (sq_expectedEventRevision r).
#[export] Instance SoundEventAcknowledgementRequest_valid_dec r : Decision (SoundEventAcknowledgementRequest_valid r).
Proof. unfold SoundEventAcknowledgementRequest_valid. apply _. Defined.
#[export] Instance SoundEventAcknowledgementRequest_model : Model SoundEventAcknowledgementRequest :=
  {| model_valid := SoundEventAcknowledgementRequest_valid |}.

Record SoundEventAcknowledgement := {
  sk_requestId : string;
  sk_eventId : string;
  sk_coreId : string;
  sk_homeId : string;
  sk_accountId : string;
  sk_sessionFamilyId : string;
  sk_repositoryRevision : Z;
  sk_eventRevision : Z;
}.
Definition SoundEventAcknowledgement_valid (k : SoundEventAcknowledgement) : Prop :=
  Identity (sk_requestId k) /\ Identity (sk_eventId k) /\ Identity (sk_coreId k) /\ Identity (sk_homeId k) /\
  Identity (sk_accountId k) /\ Identity (sk_sessionFamilyId k) /\ Revision (sk_repositoryRevision k) /\
  Revision (sk_eventRevision k).
#[export] Instance SoundEventAcknowledgement_valid_dec k : Decision (SoundEventAcknowledgement_valid k).
Proof. unfold SoundEventAcknowledgement_valid. apply _. Defined.
#[export] Instance SoundEventAcknowledgement_model : Model SoundEventAcknowledgement :=
  {| model_valid := SoundEventAcknowledgement_valid |}.

(** ** Tables *)

Record stored_event := {
  er_event_id : string;
  er_owner_id : string;
  er_source : sound_source;
  er_class_name : ustr;
  er_confidence : Z;
  er_observed_at_ms : Z;
  er_evidence_digest : string;
  er_retention_expires_at_ms : Z;
  er_automation_verified : Z;
  er_event_revision : Z;
  er_acknowledged : Z;
  er_authentication_tag : string;
}.
Record receipt_row := {
  rr_request_id : string;
  rr_owner_id : string;
  rr_family_id : string;
  rr_command_digest : string;
  rr_receipt_json : string;
  rr_authentication_tag : string;
  rr_created_at : Z;
}.
Record state_row := { st_revision : Z; st_event_count : Z; st_authentication_tag : string }.

(** The tables by name, the versions in [sound_event_metadata], the one row of
    [sound_event_state]; [sound_events] in the order of insertion. *)
Record sound_db := {
  sd_tables : list string;
  sd_metadata : list Z;
  sd_state : option state_row;
  sd_events : list stored_event;
  sd_receipts : list receipt_row;
}.
Definition empty_file : sound_db :=
  {| sd_tables := []; sd_metadata := []; sd_state := None; sd_events := []; sd_receipts := [] |}.
Definition set_tables (l : list string) (d : sound_db) : sound_db :=
  {| sd_tables := l; sd_metadata := sd_metadata d; sd_state := sd_state d; sd_events := sd_events d;
     sd_receipts := sd_receipts d |}.
Definition set_metadata (l : list Z) (d : sound_db) : sound_db :=
  {| sd_tables := sd_tables d; sd_metadata := l; sd_state := sd_state d; sd_events := sd_events d;
     sd_receipts := sd_receipts d |}.
Definition set_state_row (x : option state_row) (d : sound_db) : sound_db :=
  {| sd_tables := sd_tables d; sd_metadata := sd_metadata d; sd_state := x; sd_events := sd_events d;
     sd_receipts := sd_receipts d |}.
Definition set_stored (l : list stored_event) (d : sound_db) : sound_db :=
  {| sd_tables := sd_tables d; sd_metadata := sd_metadata d; sd_state := sd_state d; sd_events := l;
     sd_receipts := sd_receipts d |}.
Definition set_receipts (l : list receipt_row) (d : sound_db) : sound_db :=
  {| sd_tables := sd_tables d; sd_metadata := sd_metadata d; sd_state := sd_state d; sd_events := sd_events d;
     sd_receipts := l |}.

Definition required_tables : list string :=
  ["sound_event_metadata"; "sound_event_state"; "sound_events"; "sound_event_receipts"]%string.

(** What one call reads: the account tables, the clock [assert_current] reads,
    the repository's clock and [int(self._clock() * 1000)]. *)
Record repository_env := {
  rv_accounts : auth_db;
  rv_auth_now : Z;
  rv_now : Z;
  rv_now_ms : Z;
}.

(** [except ApiError: raise] and [except (sqlite3.Error, TypeError, ValueError,
    OverflowError)], each in a transaction. *)
Definition storage_exn (e : exn) : bool :=
  match e with
  | ValueError _ | IntegrityError => true
  | PyError name => bool_decide (name ∈ ["TypeError"; "OverflowError"]%string)
  | _ => false
  end.
Definition guarded {A} (m : M sound_db A) : M sound_db A := fun d =>
  match transaction m d with
  | (Raise e, d') => (Raise (if storage_exn e then integrity_failed else e), d')
  | x => x
  end.

(** [except (OSError, sqlite3.Error, TypeError, ValueError)] of [__init__]. *)
Definition at_start {A} (m : M sound_db A) : M sound_db A := fun d =>
  match m d with
  | (Raise e, d') => (Raise (if storage_exn e then StartupError "sound_event_storage_invalid" else e), d')
  | x => x
  end.

Definition newest_first (a b : stored_event) : Prop := er_observed_at_ms b <= er_observed_at_ms a.
#[export] Instance newest_first_dec a b : Decision (newest_first a b).
Proof. unfold newest_first. apply _. Defined.
Definition latest_receipt (a b : receipt_row) : Prop := rr_created_at b <= rr_created_at a.
#[export] Instance latest_receipt_dec a b : Decision (latest_receipt a b).
Proof. unfold latest_receipt. apply _. Defined.

(** The primary key of [sound_event_receipts]. *)
Definition same_request (a b : receipt_row) : Prop := rr_request_id a = rr_request_id b.
#[export] Instance same_request_dec a b : Decision (same_request a b).
Proof. unfold same_request. apply _. Defined.

Section repository.
Context `{UnicodeData}.
(** [self._tag(domain, value)], the SHA-256 of a command, and pydantic's
    [model_dump_json] and [model_validate_json] of a receipt. *)
Variable tag : string -> jval -> string.
Variable digest : jval -> string.
Variable dump_receipt : SoundEventAcknowledgement -> string.
Variable parse_receipt : string -> res SoundEventAcknowledgement.
(** [self._context.coreId], [.homeId] *)
Variable coreId homeId : string.

(** ** Tags *)

Definition state_tag (revision count : Z) : string := tag "state" (JList [JInt revision; JInt count]).

Definition event_values (r : stored_event) : jval :=
  let s := er_source r in
  JList [JStr (er_event_id r); JStr (ss_coreId s); JStr (ss_homeId s); JStr (er_owner_id r); JStr (ss_roomId s);
         JInt (ss_roomRevision s); JStr (ss_deviceId s); JInt (ss_deviceRevision s); JStr (ss_modelId s);
         JInt (ss_modelRevision s); JInt (ss_providerRevision s); JInt (ss_policyRevision s);
         JInt (ss_consentRevision s); JText (er_class_name r); JInt (er_confidence r); JInt (er_observed_at_ms r);
         JStr (er_evidence_digest r); JInt (er_retention_expires_at_ms r); JInt (er_automation_verified r);
         JInt (er_event_revision r); JInt (er_acknowledged r)].
Definition event_tag (r : stored_event) : string := tag "event" (event_values r).

Definition receipt_tag (owner family request command_digest receipt_json : string) (created : Z) : string :=
  tag "receipt" (JList [JStr owner; JStr family; JStr request; JStr command_digest; JStr receipt_json; JTime created]).

(** [_state] *)
Definition check_state (d : sound_db) : res state_row :=
  row ← require_some (sd_state d) (ValueError "invalid_state");
  _ ← raise_if (~ Revision (st_revision row) \/ ~ 0 <= st_event_count row <= MAX_STORED \/
                st_authentication_tag row <> state_tag (st_revision row) (st_event_count row))
        (ValueError "invalid_state");
  _ ← raise_if (Z.of_nat (length (sd_events d)) <> st_event_count row) (ValueError "invalid_count");
  Ok row.

(** An integer column takes what fits 64 bits. *)
Definition bind_integer (n : Z) : res unit := raise_if (~ - 2 ^ 63 <= n < 2 ^ 63) (PyError "OverflowError").

(** [_set_state] *)
Definition set_state (revision count : Z) : M sound_db unit :=
  _ ← lift (bind_integer revision);
  modify (fun d => set_state_row
    ((fun _ => {| st_revision := revision; st_event_count := count; st_authentication_tag := state_tag revision count |})
       <$> sd_state d) d).

(** [_migrate] *)
Definition migrate : M sound_db unit :=
  d ← get_state;
  _ ← lift (raise_if (sd_tables d <> [] /\ ~ (sd_tables d ⊆ required_tables /\ required_tables ⊆ sd_tables d))
              (ValueError "incomplete_schema"));
  _ ← put_state (set_tables required_tables d);
  d ← get_state;
  _ ← match sd_metadata d with
      | [] => put_state (set_metadata [1] d)
      | versions => lift (raise_if (versions <> [1]) (ValueError "invalid_schema"))
      end;
  modify (fun d =>
    match sd_state d with
    | None => set_state_row (Some {| st_revision := 1; st_event_count := 0; st_authentication_tag := state_tag 1 0 |}) d
    | Some _ => d
    end).

(** [_context_current] *)
Definition context_current (core_id home_id : string) : res unit :=
  raise_if ((core_id, home_id) <> (coreId, homeId)) (ApiError "not_found" 404).

(** [_actor] *)
Definition actor_revision (e : repository_env) (actor : Principal) : res Z :=
  _ ← assert_current (rv_auth_now e) (rv_accounts e) actor;
  let row := sql_one (fun x => u_id x = p_id actor) (users (rv_accounts e)) in
  let forbidden := ApiError "forbidden" 403 in
  row ← require_some row forbidden;
  _ ← raise_if (u_disabled row = true \/ u_must_change row = true \/ u_role row <> p_role actor) forbidden;
  Ok (u_revision row).

(** [_authority] *)
Definition client_authority (e : repository_env) (actor : Principal) (repository_revision : Z)
  : res SoundEventClientAuthority :=
  revision ← actor_revision e actor;
  model_validate (Shaped
    {| sc_coreId := coreId; sc_homeId := homeId; sc_accountId := p_id actor; sc_sessionFamilyId := p_family_id actor;
       sc_accountRevision := revision; sc_repositoryRevision := repository_revision; sc_canRead := true;
       sc_canAcknowledge := true |}).

(** ** Recording *)

Definition current_session (e : repository_env) (a : SoundEventAuthority) : Prop :=
  match sql_one (fun x => u_id x = sa_accountId a) (users (rv_accounts e)),
        sql_one (fun f => f_id f = sa_sessionFamilyId a /\ f_user_id f = sa_accountId a) (families (rv_accounts e)) with
  | Some x, Some f => u_disabled x = false /\ u_revision x = sa_accountRevision a /\ f_revoked_at f = None /\
                      rv_now e < f_expires_at f
  | _, _ => False
  end.
#[export] Instance current_session_dec e a : Decision (current_session e a).
Proof.
  unfold current_session. destruct (sql_one _ _) as [x|]; [|apply _].
  destruct (sql_one _ _) as [f|]; [|apply _]. destruct (f_revoked_at f); apply _.
Defined.

Definition sealed (r : stored_event) : stored_event :=
  {| er_event_id := er_event_id r; er_owner_id := er_owner_id r; er_source := er_source r;
     er_class_name := er_class_name r; er_confidence := er_confidence r; er_observed_at_ms := er_observed_at_ms r;
     er_evidence_digest := er_evidence_digest r; er_retention_expires_at_ms := er_retention_expires_at_ms r;
     er_automation_verified := er_automation_verified r; er_event_revision := er_event_revision r;
     er_acknowledged := er_acknowledged r; er_authentication_tag := event_tag r |}.

(** The row of a new event, with its tag. *)
Definition new_row (a : SoundEventAuthority) (x : SoundEvent) : stored_event :=
  sealed {| er_event_id := sv_eventId x; er_owner_id := sa_accountId a; er_source := sv_source x;
            er_class_name := sv_className x; er_confidence := sv_confidence x;
            er_observed_at_ms := sv_observedAtMs x; er_evidence_digest := sv_evidenceDigest x;
            er_retention_expires_at_ms := sv_retentionExpiresAtMs x;
            er_automation_verified := if sv_automationVerified x then 1 else 0; er_event_revision := 1;
            er_acknowledged := 0; er_authentication_tag := "" |}.

(** [record] *)
Definition record (e : repository_env) (authority : raw SoundEventAuthority) (raw_event : raw SoundEvent)
  : M sound_db unit :=
  a ← lift (model_validate authority);
  x ← lift (match raw_event with Malformed => Raise (ValueError "validation_error") | Shaped x => SoundEvent_validate x end);
  _ ← lift (context_current (sa_coreId a) (sa_homeId a));
  _ ← lift (raise_if (~ in_reach a (sv_source x) \/ sa_active a = false \/ sa_canObserve a = false)
              (ApiError "forbidden" 403));
  _ ← lift (raise_if (~ current_session e a) (ApiError "revision_conflict" 409));
  let row := new_row a x in
  guarded (
    d ← get_state;
    state ← lift (check_state d);
    match sql_one (fun r => er_event_id r = sv_eventId x) (sd_events d) with
    | Some old =>
        _ ← lift (raise_if (er_authentication_tag old <> event_tag old) (ValueError "invalid_event"));
        lift (raise_if (event_values old <> event_values row) (ApiError "invalid_request" 400))
    | None =>
        _ ← lift (raise_if (st_event_count state >= MAX_STORED) (ApiError "rate_limited" 429));
        _ ← put_state (set_stored (sd_events d ++ [row]) d);
        set_state (st_revision state + 1) (st_event_count state + 1)
    end).

(** ** Reading *)

(** [_record] *)
Definition read_row (r : stored_event) : res SoundEventRecord :=
  _ ← raise_if (er_authentication_tag r <> event_tag r) (ValueError "invalid_event");
  SoundEventRecord_validate
    {| sn_eventId := er_event_id r; sn_roomId := ss_roomId (er_source r); sn_deviceId := ss_deviceId (er_source r);
       sn_className := er_class_name r; sn_confidence := er_confidence r; sn_observedAtMs := er_observed_at_ms r;
       sn_retentionExpiresAtMs := er_retention_expires_at_ms r; sn_eventRevision := er_event_revision r;
       sn_acknowledged := bool_decide (er_acknowledged r <> 0);
       sn_automationVerified := bool_decide (er_automation_verified r <> 0) |}.

Record list_filter := {
  lf_room_id : option string;
  lf_class_name : option ustr;
  lf_acknowledged : option bool;
  lf_limit : nat;
}.
(** The conditions of the loop that skip a record. *)
Definition skipped (now_ms : Z) (q : list_filter) (x : SoundEventRecord) : Prop :=
  sn_retentionExpiresAtMs x <= now_ms \/
  (match lf_room_id q with None => False | Some r => sn_roomId x <> r end) \/
  (match lf_class_name q with None => False | Some c => sn_className x <> c end) \/
  (match lf_acknowledged q with None => False | Some b => sn_acknowledged x <> b end).
#[export] Instance skipped_dec now_ms q x : Decision (skipped now_ms q x).
Proof.
  unfold skipped. destruct (lf_room_id q), (lf_class_name q), (lf_acknowledged q); apply _.
Defined.

(** The loop of [list]. *)
Fixpoint collect (now_ms : Z) (q : list_filter) (acc : list SoundEventRecord) (l : list stored_event)
  : res (list SoundEventRecord) :=
  match l with
  | [] => Ok acc
  | r :: l =>
      x ← read_row r;
      if decide (skipped now_ms q x) then collect now_ms q acc l
      else if decide (length (acc ++ [x]) = lf_limit q) then Ok (acc ++ [x])
      else collect now_ms q (acc ++ [x]) l
  end.

(** [list] *)
Definition list_stored (e : repository_env) (actor : Principal) (core_id home_id : string) (q : list_filter)
  : M sound_db SoundEventSnapshot :=
  _ ← lift (context_current core_id home_id);
  guarded (
    d ← get_state;
    state ← lift (check_state d);
    authority ← lift (client_authority e actor (st_revision state));
    let rows := take (Z.to_nat (MAX_STORED + 1))
                  (py_sorted newest_first (filter (fun r => er_owner_id r = p_id actor) (sd_events d))) in
    _ ← lift (raise_if (Z.of_nat (length rows) > MAX_STORED) (ValueError "too_many_events"));
    events ← lift (collect (rv_now_ms e) q [] rows);
    lift (SoundEventSnapshot_validate
      {| sh_authority := authority; sh_repositoryRevision := st_revision state; sh_events := events |})).

(** ** Acknowledging *)

Definition request_json (r : SoundEventAcknowledgementRequest) : jval :=
  JObj [("expectedEventRevision", JInt (sq_expectedEventRevision r));
        ("expectedRepositoryRevision", JInt (sq_expectedRepositoryRevision r));
        ("requestId", JStr (sq_requestId r)); ("schemaVersion", JInt 1)]%string.

Definition receipt_genuine (r : receipt_row) : Prop :=
  rr_authentication_tag r = receipt_tag (rr_owner_id r) (rr_family_id r) (rr_request_id r) (rr_command_digest r)
                              (rr_receipt_json r) (rr_created_at r).
#[export] Instance receipt_genuine_dec r : Decision (receipt_genuine r).
Proof. unfold receipt_genuine. apply _. Defined.

(** The three columns that [UPDATE sound_events] sets. *)
Definition marked (event_revision : Z) (authentication_tag : string) (r : stored_event) : stored_event :=
  {| er_event_id := er_event_id r; er_owner_id := er_owner_id r; er_source := er_source r;
     er_class_name := er_class_name r; er_confidence := er_confidence r; er_observed_at_ms := er_observed_at_ms r;
     er_evidence_digest := er_evidence_digest r; er_retention_expires_at_ms := er_retention_expires_at_ms r;
     er_automation_verified := er_automation_verified r; er_event_revision := event_revision; er_acknowledged := 1;
     er_authentication_tag := authentication_tag |}.

Definition receipt_for (actor : Principal) (core_id home_id event_id : string)
    (request : SoundEventAcknowledgementRequest) (repository_revision event_revision : Z) : SoundEventAcknowledgement :=
  {| sk_requestId := sq_requestId request; sk_eventId := event_id; sk_coreId := core_id; sk_homeId := home_id;
     sk_accountId := p_id actor; sk_sessionFamilyId := p_family_id actor;
     sk_repositoryRevision := repository_revision; sk_eventRevision := event_revision |}.

Definition receipt_row_of (created : Z) (actor : Principal) (request : SoundEventAcknowledgementRequest)
    (receipt : SoundEventAcknowledgement) : receipt_row :=
  let json := dump_receipt receipt in
  let command := digest (request_json request) in
  {| rr_request_id := sq_requestId request; rr_owner_id := p_id actor; rr_family_id := p_family_id actor;
     rr_command_digest := command; rr_receipt_json := json;
     rr_authentication_tag := receipt_tag (p_id actor) (p_family_id actor) (sq_requestId request) command json created;
     rr_created_at := created |}.

(** [DELETE FROM sound_event_receipts ... LIMIT -1 OFFSET ?] *)
Definition prune_receipts (l : list receipt_row) : list receipt_row :=
  sql_delete (fun r => rr_request_id r ∈ rr_request_id <$> drop (Z.to_nat MAX_RECEIPTS) (py_sorted latest_receipt l)) l.

(** The transaction of [acknowledge] when the request is new. *)
Definition acknowledge_new (e : repository_env) (actor : Principal) (core_id home_id event_id : string)
    (request : SoundEventAcknowledgementRequest) (state : state_row) : M sound_db SoundEventAcknowledgement :=
  d ← get_state;
  row ← lift (require_some
    (sql_one (fun r => er_event_id r = event_id /\ er_owner_id r = p_id actor) (sd_events d)) (ApiError "not_found" 404));
  _ ← lift (read_row row);
  _ ← lift (raise_if (st_revision state <> sq_expectedRepositoryRevision request \/
                      er_event_revision row <> sq_expectedEventRevision request \/ er_acknowledged row <> 0)
              (ApiError "revision_conflict" 409));
  _ ← lift (bind_integer (er_event_revision row + 1));
  let event_revision := er_event_revision row + 1 in
  let row_tag := event_tag (marked event_revision "" row) in
  _ ← put_state (set_stored
        (sql_update (fun r => er_event_id r = event_id) (marked event_revision row_tag) (sd_events d)) d);
  _ ← set_state (st_revision state + 1) (st_event_count state);
  receipt ← lift (model_validate (Shaped
    (receipt_for actor core_id home_id event_id request (st_revision state + 1) event_revision)));
  let created := rv_now e in
  d ← get_state;
  receipts ← lift (sql_insert same_request
    (receipt_row_of created actor request receipt) (sd_receipts d));
  _ ← put_state (set_receipts (prune_receipts receipts) d);
  mret receipt.

(** [acknowledge] *)
Definition acknowledge (e : repository_env) (actor : Principal) (core_id home_id event_id : string)
    (raw_request : raw SoundEventAcknowledgementRequest) : M sound_db SoundEventAcknowledgement :=
  _ ← lift (context_current core_id home_id);
  request ← lift (model_validate raw_request);
  _ ← lift (actor_revision e actor);
  let command := digest (request_json request) in
  guarded (
    d ← get_state;
    state ← lift (check_state d);
    match sql_one (fun r => rr_request_id r = sq_requestId request) (sd_receipts d) with
    | Some replay =>
        _ ← lift (raise_if (~ receipt_genuine replay) (ValueError "invalid_receipt"));
        _ ← lift (raise_if (rr_owner_id replay <> p_id actor \/ rr_family_id replay <> p_family_id actor \/
                            rr_command_digest replay <> command) (ApiError "revision_conflict" 409));
        lift (parse_receipt (rr_receipt_json replay))
    | None => acknowledge_new e actor core_id home_id event_id request state
    end).

(** [validate_storage] *)
Definition validate_storage (d : sound_db) : res unit :=
  match
    (_ ← check_state d;
     let events := take (Z.to_nat (MAX_STORED + 1)) (sd_events d) in
     _ ← raise_if (Z.of_nat (length events) > MAX_STORED) (ValueError "too_many_events");
     _ ← for_each (fun r => _ ← read_row r; Ok tt) events;
     let receipts := take (Z.to_nat (MAX_RECEIPTS + 1)) (sd_receipts d) in
     _ ← raise_if (Z.of_nat (length receipts) > MAX_RECEIPTS) (ValueError "too_many_receipts");
     for_each (fun r => raise_if (~ receipt_genuine r) (ValueError "invalid_receipt")) receipts)
  with
  | Raise x => Raise (if storage_exn x then StartupError "sound_event_storage_invalid" else x)
  | Ok _ => Ok tt
  end.

(** [__init__]: the key's length, the migration, the check. *)
Definition open_repository (key : list Z) : M sound_db unit :=
  _ ← lift (raise_if (length key <> 32%nat) (ValueError "invalid_key"));
  at_start (_ ← migrate; d ← get_state; lift (validate_storage d)).
End repository.

(** ** Facts *)

Lemma guarded_ok {A} (m : M sound_db A) d a d' : guarded m d = (Ok a, d') -> m d = (Ok a, d').
Proof. unfold guarded, transaction. destruct (m d) as [[x|x] s]; naive_solver. Qed.
Lemma guarded_raise {A} (m : M sound_db A) d x d' : guarded m d = (Raise x, d') -> d' = d.
Proof. unfold guarded, transaction. destruct (m d) as [[y|y] s]; naive_solver. Qed.

Section repository_facts.
Context `{UnicodeData}.
Variable tag : string -> jval -> string.
Variable digest : jval -> string.
Variable dump_receipt : SoundEventAcknowledgement -> string.
Variable parse_receipt : string -> res SoundEventAcknowledgement.
Variable coreId homeId : string.
(** The parser reads back what the printer wrote, for a valid receipt. *)
Hypothesis receipt_roundtrip : forall k, SoundEventAcknowledgement_valid k -> parse_receipt (dump_receipt k) = Ok k.
Notation record := (record tag coreId homeId).
Notation list_stored := (list_stored tag coreId homeId).
Notation acknowledge := (acknowledge tag digest dump_receipt parse_receipt coreId homeId).
Notation acknowledge_new := (acknowledge_new tag digest dump_receipt).
Notation open_repository := (open_repository tag).
Notation validate_storage := (validate_storage tag).
Notation read_row := (read_row tag).
Notation check_state := (check_state tag).
Notation event_tag := (event_tag tag).

(** ** The invariant *)

Definition columns_ok (r : stored_event) : Prop :=
  class_name (er_class_name r) = Ok (er_class_name r) /\ Identity (er_event_id r) /\ source_valid (er_source r) /\
  Confidence (er_confidence r) /\ TimestampMs (er_observed_at_ms r) /\ TimestampMs (er_retention_expires_at_ms r).
(** The two stages of a row. *)
Definition unread (r : stored_event) : Prop := er_event_revision r = 1 /\ er_acknowledged r = 0.
Definition acked (r : stored_event) : Prop := er_event_revision r = 2 /\ er_acknowledged r = 1.

Record row_ok (r : stored_event) : Prop := {
  ro_tag : er_authentication_tag r = event_tag r;
  ro_columns : columns_ok r;
  ro_stage : unread r \/ acked r;
}.

(** A receipt and the row it is about. *)
Definition receipt_ok (events : list stored_event) (r : receipt_row) : Prop :=
  receipt_genuine tag r /\
  exists k, rr_receipt_json r = dump_receipt k /\ SoundEventAcknowledgement_valid k /\
    sk_requestId k = rr_request_id r /\ sk_accountId k = rr_owner_id r /\ sk_sessionFamilyId k = rr_family_id r /\
    exists x, x ∈ events /\ er_event_id x = sk_eventId k /\ er_owner_id x = rr_owner_id r /\ acked x.

Record store_ok (d : sound_db) : Prop := {
  so_tables : sd_tables d = required_tables;
  so_metadata : sd_metadata d = [1];
  so_state : exists st, sd_state d = Some st /\ Revision (st_revision st) /\
    st_event_count st = Z.of_nat (length (sd_events d)) /\
    st_authentication_tag st = state_tag tag (st_revision st) (st_event_count st);
  so_few : Z.of_nat (length (sd_events d)) <= MAX_STORED;
  so_rows : Forall row_ok (sd_events d);
  so_ids : NoDup (er_event_id <$> sd_events d);
  so_receipts : Forall (receipt_ok (sd_events d)) (sd_receipts d);
  so_requests : NoDup (rr_request_id <$> sd_receipts d);
  so_kept : (length (sd_receipts d) <= Z.to_nat MAX_RECEIPTS)%nat;
}.

(** What a row is read as. *)
Definition record_of (r : stored_event) : SoundEventRecord :=
  {| sn_eventId := er_event_id r; sn_roomId := ss_roomId (er_source r); sn_deviceId := ss_deviceId (er_source r);
     sn_className := er_class_name r; sn_confidence := er_confidence r; sn_observedAtMs := er_observed_at_ms r;
     sn_retentionExpiresAtMs := er_retention_expires_at_ms r; sn_eventRevision := er_event_revision r;
     sn_acknowledged := bool_decide (er_acknowledged r <> 0);
     sn_automationVerified := bool_decide (er_automation_verified r <> 0) |}.

Lemma SoundEventRecord_validate_id x :
  class_name (sn_className x) = Ok (sn_className x) ->
  Identity (sn_eventId x) /\ Identity (sn_roomId x) /\ Identity (sn_deviceId x) /\ Confidence (sn_confidence x) /\
  TimestampMs (sn_observedAtMs x) /\ TimestampMs (sn_retentionExpiresAtMs x) /\ Revision (sn_eventRevision x) ->
  SoundEventRecord_validate x = Ok x.
Proof.
  intros Hn Hv. unfold SoundEventRecord_validate. rewrite Hn. cbn. apply bind_ok. exists tt.
  split; [apply raise_if_ok; naive_solver|by destruct x].
Qed.

Lemma record_of_valid r : row_ok r -> SoundEventRecord_validate (record_of r) = Ok (record_of r).
Proof.
  intros [Ht (Hn & Hid & Hsrc & Hc & Ho & He) Hst]. apply SoundEventRecord_validate_id; [done|]. cbn.
  unfold source_valid in Hsrc.
  assert (Revision (er_event_revision r)) by (destruct Hst as [[-> _]|[-> _]]; done). naive_solver.
Qed.

Lemma read_row_ok r : row_ok r -> read_row r = Ok (record_of r).
Proof.
  intros Hr. unfold SoundRepository.read_row. rewrite raise_if_no by (intros Hne; apply Hne, Hr).
  by apply record_of_valid.
Qed.

Lemma check_state_ok d : store_ok d -> exists st, check_state d = Ok st /\ sd_state d = Some st /\
  Revision (st_revision st) /\ st_event_count st = Z.of_nat (length (sd_events d)).
Proof.
  intros [_ _ (st & Hst & Hr & Hc & Ht) Hf _ _ _ _ _]. exists st. split; [|done].
  unfold SoundRepository.check_state. rewrite Hst. cbn -[Z.of_nat MAX_STORED].
  rewrite raise_if_no by congruence. rewrite raise_if_no; [done|].
  rewrite <- Hc in Hf. intros [?|[?|?]]; [done|lia|done].
Qed.

Lemma check_state_some d st : store_ok d -> check_state d = Ok st -> sd_state d = Some st /\
  Revision (st_revision st) /\ st_event_count st = Z.of_nat (length (sd_events d)).
Proof. intros (st' & E & Hst)%check_state_ok E'. rewrite E in E'. by injection E' as ->. Qed.

Lemma validate_storage_ok d : store_ok d -> validate_storage d = Ok tt.
Proof.
  intros Hd. destruct (check_state_ok d Hd) as (st & E & _). unfold SoundRepository.validate_storage.
  rewrite E. cbn -[Z.of_nat MAX_STORED MAX_RECEIPTS take Z.to_nat Z.add].
  destruct Hd as [_ _ _ Hf Hrows _ Hrec _ Hk].
  rewrite (take_ge (sd_events d)) by (unfold MAX_STORED in *; lia).
  rewrite (take_ge (sd_receipts d)) by (unfold MAX_RECEIPTS in *; lia).
  rewrite (raise_if_no (Z.of_nat (length (sd_events d)) > MAX_STORED)) by lia. cbn -[Z.of_nat MAX_RECEIPTS].
  replace (for_each _ (sd_events d)) with (Ok tt).
  - cbn -[Z.of_nat MAX_RECEIPTS]. rewrite raise_if_no by (unfold MAX_RECEIPTS in *; lia). cbn.
    replace (for_each _ (sd_receipts d)) with (Ok tt); [done|]. symmetry. apply for_each_ok, Forall_forall. intros r Hr.
    apply raise_if_ok. rewrite Forall_forall in Hrec. intros Hn. apply Hn. by apply Hrec.
  - symmetry. apply for_each_ok, Forall_forall. intros r Hr. rewrite Forall_forall in Hrows. by rewrite read_row_ok by auto.
Qed.

(** ** Recording *)

Lemma new_row_ok a x y : SoundEvent_validate x = Ok y -> row_ok (new_row tag a y).
Proof.
  unfold SoundEvent_validate. intros (n & Hn & ([] & Hv%raise_if_ok%dec_stable & [= <-])%bind_ok)%bind_ok.
  split; [done| |by left]. unfold columns_ok. cbn. rewrite (class_name_idem _ _ Hn). naive_solver.
Qed.

Lemma receipts_mono l l' rs :
  (forall x, x ∈ l -> acked x -> x ∈ l') -> Forall (receipt_ok l) rs -> Forall (receipt_ok l') rs.
Proof.
  intros Hl Hrs. apply (Forall_impl _ _ _ Hrs). intros r (Hg & k & Hj & Hv & Hq & Ho & Hf & x & Hx & Hi & How & Ha).
  split; [done|]. exists k. split_and!; [done..|]. exists x. auto.
Qed.

Lemma set_state_ok revision count d u d' st :
  sd_state d = Some st -> set_state tag revision count d = (Ok u, d') ->
  revision <= MAX_REVISION /\
  d' = set_state_row (Some {| st_revision := revision; st_event_count := count;
                              st_authentication_tag := state_tag tag revision count |}) d.
Proof.
  intros Hst. unfold set_state. intros Hi. apply M_bind_ok in Hi as ([] & d1 & Hb & Hi).
  apply lift_ok in Hb as [Hb ->]. unfold bind_integer in Hb. apply raise_if_ok, dec_stable in Hb.
  unfold modify in Hi. rewrite Hst in Hi. cbn in Hi. split; [unfold MAX_REVISION; lia|congruence].
Qed.

(** What [record] stores: nothing, or one new row for a current session. *)
Lemma record_outcome e p r d u d' :
  store_ok d -> record e p r d = (Ok u, d') ->
  exists a x x0, r = Shaped x0 /\ SoundEvent_validate x0 = Ok x /\ model_validate p = Ok a /\ row_ok (new_row tag a x) /\ in_reach a (sv_source x) /\ sa_active a = true /\
    sa_canObserve a = true /\ current_session e a /\ ss_coreId (sv_source x) = coreId /\
    ss_homeId (sv_source x) = homeId /\
    ((d' = d /\ exists old, old ∈ sd_events d /\ event_values old = event_values (new_row tag a x)) \/
     exists st, sd_state d = Some st /\ Revision (st_revision st + 1) /\
       Z.of_nat (length (sd_events d)) < MAX_STORED /\ sv_eventId x ∉ er_event_id <$> sd_events d /\
       d' = set_state_row (Some {| st_revision := st_revision st + 1; st_event_count := st_event_count st + 1;
              st_authentication_tag := state_tag tag (st_revision st + 1) (st_event_count st + 1) |})
              (set_stored (sd_events d ++ [new_row tag a x]) d)).
Proof.
  intros Hd. unfold SoundRepository.record. intros Hi.
  apply M_bind_ok in Hi as (a & d1 & [Ha ->]%lift_ok & Hi).
  apply M_bind_ok in Hi as (x & d1 & [Hx ->]%lift_ok & Hi).
  apply M_bind_ok in Hi as ([] & d1 & [Hc ->]%lift_ok & Hi).
  apply M_bind_ok in Hi as ([] & d1 & [Hf ->]%lift_ok & Hi).
  apply M_bind_ok in Hi as ([] & d1 & [Hcur%raise_if_ok%dec_stable ->]%lift_ok & Hi).
  apply raise_if_ok in Hf as [Hr%dec_stable [Hac Ho]%neither]%neither.
  unfold context_current in Hc. apply raise_if_ok, dec_stable in Hc. injection Hc as Hc1 Hc2.
  destruct r as [x0|]; [|done]. pose proof (new_row_ok a _ _ Hx) as Hrow.
  exists a, x, x0. do 5 (split; [done|]). split; [by destruct (sa_active a)|].
  split; [by destruct (sa_canObserve a)|]. split; [done|]. destruct Hr as (-> & -> & _). do 2 (split; [done|]).
  apply guarded_ok in Hi. apply M_bind_ok in Hi as (d1 & d2 & Hg & Hi). injection Hg as <- <-.
  apply M_bind_ok in Hi as (st & d1 & [Hst ->]%lift_ok & Hi).
  destruct (check_state_some d st Hd Hst) as (Hst' & Hrev & Hcount).
  destruct (sql_one _ _) as [old|] eqn:Eo.
  - left. apply sql_one_some in Eo as [Hin _].
    apply M_bind_ok in Hi as ([] & d1 & [_ ->]%lift_ok & Hi). apply lift_ok in Hi as [Hv ->].
    apply raise_if_ok, dec_stable in Hv. eauto.
  - right. apply M_bind_ok in Hi as ([] & d1 & [Hm%raise_if_ok ->]%lift_ok & Hi).
    apply M_bind_ok in Hi as ([] & d1 & Hp & Hi). injection Hp as <-.
    apply (set_state_ok _ _ _ _ _ st) in Hi as [Hle ->]; [|done].
    exists st. split; [done|]. split; [unfold Revision in *; lia|]. split; [lia|]. split; [|done].
    intros (y & E & Hy)%list_elem_of_fmap. pose proof (proj1 (sql_one_none _ _) Eo) as Hn.
    rewrite Forall_forall in Hn. by apply (Hn y).
Qed.

Lemma stored_ok d st l :
  store_ok d -> sd_state d = Some st -> Revision (st_revision st + 1) ->
  Z.of_nat (length l) <= MAX_STORED -> Forall row_ok l -> NoDup (er_event_id <$> l) ->
  (forall x, x ∈ sd_events d -> acked x -> x ∈ l) ->
  store_ok (set_state_row (Some {| st_revision := st_revision st + 1; st_event_count := Z.of_nat (length l);
              st_authentication_tag := state_tag tag (st_revision st + 1) (Z.of_nat (length l)) |})
              (set_stored l d)).
Proof.
  intros [H1 H2 H3 H4 H5 H6 H7 H8 H9] Hst Hr Hl Hrow Hid Hm. split; try done.
  - eexists. split; [done|]. done.
  - cbn. by eapply receipts_mono.
Qed.

Lemma record_ok e p r d u d' : store_ok d -> record e p r d = (Ok u, d') -> store_ok d'.
Proof.
  intros Hd Hi. destruct (record_outcome _ _ _ _ _ _ Hd Hi)
    as (a & x & x0 & _ & _ & _ & Hrow & _ & _ & _ & _ & _ & _ & [[-> _]|(st & Hst & Hr & Hlt & Hn & ->)]); [done|].
  destruct (check_state_ok d Hd) as (st' & _ & Hst' & _ & Hc). rewrite Hst in Hst'. injection Hst' as <-.
  replace (st_event_count st + 1) with (Z.of_nat (length (sd_events d ++ [new_row tag a x])))
    by (rewrite length_app; cbn [length]; lia).
  apply stored_ok; [done|done|done| | | |set_solver].
  - rewrite length_app. cbn [length]. lia.
  - apply Forall_app. split; [apply Hd|]. constructor; [done|constructor].
  - rewrite fmap_app. apply NoDup_app. split_and!; [apply Hd| |apply NoDup_singleton].
    by intros y Hy ->%list_elem_of_singleton.
Qed.

(** ** Acknowledging *)

Lemma marked_values revision t r : event_values (marked revision t r) = event_values (marked revision "" r).
Proof. done. Qed.

Lemma acknowledge_new_outcome e actor core_id home_id event_id q st d k d' :
  store_ok d -> check_state d = Ok st -> acknowledge_new e actor core_id home_id event_id q st d = (Ok k, d') ->
  exists row, row ∈ sd_events d /\ er_event_id row = event_id /\ er_owner_id row = p_id actor /\ unread row /\
    st_revision st = sq_expectedRepositoryRevision q /\ 1 = sq_expectedEventRevision q /\
    Revision (st_revision st + 1) /\ SoundEventAcknowledgement_valid k /\
    k = receipt_for actor core_id home_id event_id q (st_revision st + 1) 2 /\
    sq_requestId q ∉ rr_request_id <$> sd_receipts d /\
    d' = set_receipts
           (prune_receipts (sd_receipts d ++ [receipt_row_of tag digest dump_receipt (rv_now e) actor q k]))
           (set_state_row (Some {| st_revision := st_revision st + 1; st_event_count := st_event_count st;
                                   st_authentication_tag := state_tag tag (st_revision st + 1) (st_event_count st) |})
             (set_stored (sql_update (fun r => er_event_id r = event_id)
                            (marked 2 (event_tag (marked 2 "" row))) (sd_events d)) d)).
Proof.
  intros Hd Hst Hi. destruct (check_state_some d st Hd Hst) as (Hst' & Hrev & Hcount).
  unfold SoundRepository.acknowledge_new in Hi.
  apply M_bind_ok in Hi as (d1 & d2 & Hg & Hi). injection Hg as <- <-.
  apply M_bind_ok in Hi as (row & d1 & [Hrow%require_some_ok ->]%lift_ok & Hi).
  apply M_bind_ok in Hi as (x & d1 & [_ ->]%lift_ok & Hi).
  apply M_bind_ok in Hi as ([] & d1 & [Hc ->]%lift_ok & Hi).
  apply M_bind_ok in Hi as ([] & d1 & [_ ->]%lift_ok & Hi).
  apply M_bind_ok in Hi as ([] & d1 & Hp & Hi). injection Hp as <-.
  apply M_bind_ok in Hi as ([] & d1 & Hs & Hi). apply (set_state_ok _ _ _ _ _ st) in Hs as [Hle ->]; [|done].
  apply M_bind_ok in Hi as (k0 & d1 & [Hk ->]%lift_ok & Hi).
  apply model_validate_ok in Hk as [[= <-] Hk].
  apply M_bind_ok in Hi as (d1 & d2 & Hg & Hi). injection Hg as <- <-.
  apply M_bind_ok in Hi as (rs & d1 & [Hins%sql_insert_ok ->]%lift_ok & Hi).
  apply M_bind_ok in Hi as ([] & d1 & Hp & Hi). injection Hp as <-. injection Hi as <- <-.
  apply sql_one_some in Hrow as [Hin [<- Hown]].
  apply raise_if_ok in Hc as [H1%dec_stable [H2%dec_stable H3%dec_stable]%neither]%neither.
  assert (Hrow : unread row).
  { pose proof (so_rows d Hd) as Hr. rewrite Forall_forall in Hr. destruct (ro_stage row (Hr row Hin)) as [?|[_ ?]]; [done|lia]. }
  destruct Hrow as [Hr1 Hr0]. rewrite Hr1 in *. change (1 + 1) with 2 in *.
  exists row. split; [done|]. do 2 (split; [done|]). split; [done|]. do 2 (split; [done|]).
  split; [unfold Revision in *; lia|]. destruct Hins as [-> Hn]. do 2 (split; [done|]). split; [|done].
  intros (y & E & Hy)%list_elem_of_fmap. rewrite Forall_forall in Hn. by apply (Hn y).
Qed.

(** The rows after an acknowledgement. *)
Lemma marked_rows d row t x :
  store_ok d -> row ∈ sd_events d ->
  x ∈ sql_update (fun r => er_event_id r = er_event_id row) (marked 2 t) (sd_events d) ->
  x = marked 2 t row \/ (x ∈ sd_events d /\ er_event_id x <> er_event_id row).
Proof.
  intros Hd Hrow (y & Hy & Hx)%sql_update_elem. case_decide as E; [|by right; subst].
  left. rewrite Hx. f_equal. by apply (nodup_column_inj er_event_id (sd_events d)); [apply Hd|..].
Qed.

Lemma acked_stays d row t x :
  store_ok d -> row ∈ sd_events d -> unread row -> x ∈ sd_events d -> acked x ->
  x ∈ sql_update (fun r => er_event_id r = er_event_id row) (marked 2 t) (sd_events d).
Proof.
  intros Hd Hrow [Hu _] Hx [Ha _].
  assert (Hne : er_event_id x <> er_event_id row).
  { intros E. assert (x = row) as -> by (by apply (nodup_column_inj er_event_id (sd_events d)); [apply Hd|..]). lia. }
  pose proof (sql_update_elem_2 (fun r => er_event_id r = er_event_id row) (marked 2 t) (sd_events d) x Hx) as Hin.
  by rewrite decide_False in Hin.
Qed.

Lemma marked_row_ok row : row_ok row -> row_ok (marked 2 (event_tag (marked 2 "" row)) row).
Proof. intros [Ht Hc _]. split; [done|done|]. by right. Qed.

Lemma acknowledge_new_ok e actor core_id home_id event_id q st d k d' :
  store_ok d -> check_state d = Ok st -> acknowledge_new e actor core_id home_id event_id q st d = (Ok k, d') ->
  store_ok d'.
Proof.
  intros Hd Hst Hi. destruct (check_state_some d st Hd Hst) as (Hst' & _ & Hcount).
  apply acknowledge_new_outcome in Hi
    as (row & Hrow & <- & Hown & Hun & _ & _ & Hrev & Hk & Ek & Hfresh & ->); [|done|done].
  set (t := event_tag (marked 2 "" row)). set (upd := sql_update _ _ _).
  assert (Hlen : length upd = length (sd_events d)) by apply sql_update_length.
  assert (Hmid : store_ok (set_state_row (Some {| st_revision := st_revision st + 1;
      st_event_count := Z.of_nat (length upd);
      st_authentication_tag := state_tag tag (st_revision st + 1) (Z.of_nat (length upd)) |}) (set_stored upd d))).
  { apply stored_ok; [done|done|done| | | |].
    - rewrite Hlen. apply Hd.
    - apply Forall_forall. intros x [-> |[Hx _]]%marked_rows; [|..|done|done].
      + apply marked_row_ok. pose proof (so_rows d Hd) as Hr. rewrite Forall_forall in Hr. by apply Hr.
      + pose proof (so_rows d Hd) as Hr. rewrite Forall_forall in Hr. by apply Hr.
    - unfold upd. rewrite sql_update_column; [apply Hd|done].
    - intros x Hx Ha. by apply acked_stays. }
  rewrite Hlen, <- Hcount in Hmid. destruct Hmid as [H1 H2 H3 H4 H5 H6 H7 H8 H9].
  set (new := receipt_row_of tag digest dump_receipt (rv_now e) actor q k).
  assert (Hnew : receipt_ok upd new).
  { split; [done|]. exists k. split; [done|]. split; [done|]. rewrite Ek. do 3 (split; [done|]).
    exists (marked 2 t row). split; [|done].
    pose proof (sql_update_elem_2 (fun r => er_event_id r = er_event_id row) (marked 2 t) (sd_events d) row Hrow) as Hin.
    by rewrite decide_True in Hin. }
  split; try done; cbn [sd_receipts set_receipts].
  - apply Forall_forall. intros r [Hr _]%sql_delete_elem. apply elem_of_app in Hr as [Hr|Hr%list_elem_of_singleton].
    + rewrite Forall_forall in H7. by apply H7.
    + by subst r.
  - apply sql_delete_column. rewrite fmap_app. apply NoDup_app. split_and!; [done| |apply NoDup_singleton].
    intros y Hy ->%list_elem_of_singleton. by apply Hfresh.
  - apply keep_newest_length.
Qed.

(** What [acknowledge] does: it answers an old request from its receipt, or
    marks an event of the account. *)
Lemma acknowledge_outcome e actor core_id home_id event_id r d k d' :
  store_ok d -> acknowledge e actor core_id home_id event_id r d = (Ok k, d') ->
  exists q rev, r = Shaped q /\ (core_id, home_id) = (coreId, homeId) /\
    SoundEventAcknowledgementRequest_valid q /\ actor_revision e actor = Ok rev /\
    ((d' = d /\ exists row, row ∈ sd_receipts d /\ rr_request_id row = sq_requestId q /\
        rr_owner_id row = p_id actor /\ rr_family_id row = p_family_id actor /\
        rr_command_digest row = digest (request_json q) /\ parse_receipt (rr_receipt_json row) = Ok k) \/
     exists st, check_state d = Ok st /\ acknowledge_new e actor core_id home_id event_id q st d = (Ok k, d')).
Proof.
  intros Hd Hi. unfold SoundRepository.acknowledge in Hi.
  apply M_bind_ok in Hi as ([] & d1 & [Hc ->]%lift_ok & Hi).
  unfold context_current in Hc. apply raise_if_ok, dec_stable in Hc.
  apply M_bind_ok in Hi as (q & d1 & [Hq ->]%lift_ok & Hi). apply model_validate_ok in Hq as [-> Hq].
  apply M_bind_ok in Hi as (rev & d1 & [Hrev ->]%lift_ok & Hi).
  exists q, rev. do 4 (split; [done|]). apply guarded_ok in Hi.
  apply M_bind_ok in Hi as (d1 & d2 & Hg & Hi). injection Hg as <- <-.
  apply M_bind_ok in Hi as (st & d1 & [Hst ->]%lift_ok & Hi).
  destruct (sql_one _ _) as [row|] eqn:Eo; [left|right; eauto].
  apply sql_one_some in Eo as [Hin Hreq].
  apply M_bind_ok in Hi as ([] & d1 & [_ ->]%lift_ok & Hi).
  apply M_bind_ok in Hi as ([] & d1 & [Hm ->]%lift_ok & Hi).
  apply raise_if_ok in Hm as [H1%dec_stable [H2%dec_stable H3%dec_stable]%neither]%neither.
  apply lift_ok in Hi as [Hp ->]. split; [done|]. by exists row.
Qed.

Lemma acknowledge_ok e actor core_id home_id event_id r d k d' :
  store_ok d -> acknowledge e actor core_id home_id event_id r d = (Ok k, d') -> store_ok d'.
Proof.
  intros Hd (q & rev & _ & _ & _ & _ & [[-> _]|(st & Hst & Hi)])%acknowledge_outcome; [done| |done].
  by eapply acknowledge_new_ok.
Qed.

(** ** Opening *)

Lemma open_ok key d : store_ok d -> length key = 32%nat -> open_repository key d = (Ok tt, d).
Proof.
  intros Hd Hk. unfold SoundRepository.open_repository. rewrite lift_bind.
  rewrite raise_if_no by lia. unfold at_start, migrate. destruct (so_state d Hd) as (st & Hst & _).
  pose proof (validate_storage_ok d Hd) as Hv.
  unfold mbind, M_bind, get_state, put_state, lift, modify.
  rewrite raise_if_no by (intros [_ Hn]; apply Hn; by rewrite (so_tables d Hd)).
  cbn [sd_metadata set_tables]. rewrite (so_metadata d Hd). rewrite raise_if_no by congruence.
  cbn [sd_state set_tables]. rewrite Hst.
  replace (set_tables required_tables d) with d; [by rewrite Hv|].
  destruct d. cbn in *. unfold set_tables. cbn. f_equal. apply Hd.
Qed.

Lemma open_empty key : length key = 32%nat -> exists d, open_repository key empty_file = (Ok tt, d) /\ store_ok d.
Proof.
  intros Hk. set (d := set_state_row (Some {| st_revision := 1; st_event_count := 0;
      st_authentication_tag := state_tag tag 1 0 |}) (set_metadata [1] (set_tables required_tables empty_file))).
  assert (Hd : store_ok d).
  { split; [done|done| |done|constructor|constructor|constructor|constructor|apply Nat.le_0_l].
    eexists. split; [done|]. done. }
  exists d. split; [|done]. unfold SoundRepository.open_repository. rewrite lift_bind, raise_if_no by lia.
  unfold at_start, mbind, M_bind. cbn -[SoundRepository.validate_storage migrate].
  assert (migrate tag empty_file = (Ok tt, d)) as -> by done. unfold lift. by rewrite validate_storage_ok.
Qed.

(** ** Reading *)

Lemma collect_rows now_ms q l acc :
  Forall row_ok l -> (length acc < lf_limit q)%nat ->
  collect tag now_ms q acc l =
    Ok (take (lf_limit q) (acc ++ filter (fun x => ~ skipped now_ms q x) (record_of <$> l))).
Proof.
  revert acc. induction l as [|r l IH]; intros acc Hl Hacc; cbn [collect].
  - cbn. rewrite app_nil_r. by rewrite take_ge by lia.
  - apply Forall_cons in Hl as [Hr Hl]. rewrite read_row_ok by done. rewrite fmap_cons, filter_cons. cbn [mbind res_bind].
    destruct (decide (skipped now_ms q (record_of r))) as [Hs|Hs].
    + rewrite decide_False by naive_solver. by apply IH.
    + destruct (decide (~ skipped now_ms q (record_of r))) as [_|]; [|done]. case_decide as Hlen.
      * rewrite (cons_middle (record_of r) acc (filter _ _)), app_assoc, <- Hlen. by rewrite take_app_length.
      * rewrite IH; [by rewrite <- app_assoc|done|]. rewrite length_app in *. cbn in *. lia.
Qed.

(** The records [list] shows: the account's rows, the newest first, those that
    no condition skips, up to the limit. *)
Definition shown (e : repository_env) (actor : Principal) (q : list_filter) (d : sound_db) : list SoundEventRecord :=
  take (lf_limit q) (filter (fun x => ~ skipped (rv_now_ms e) q x)
    (record_of <$> py_sorted newest_first (filter (fun r => er_owner_id r = p_id actor) (sd_events d)))).

Definition snapshot_of (e : repository_env) (actor : Principal) (revision repository_revision : Z) (q : list_filter)
    (d : sound_db) : SoundEventSnapshot :=
  {| sh_authority :=
       {| sc_coreId := coreId; sc_homeId := homeId; sc_accountId := p_id actor; sc_sessionFamilyId := p_family_id actor;
          sc_accountRevision := revision; sc_repositoryRevision := repository_revision; sc_canRead := true;
          sc_canAcknowledge := true |};
     sh_repositoryRevision := repository_revision; sh_events := shown e actor q d |}.

Lemma records_validated l :
  Forall (fun x => SoundEventRecord_validate x = Ok x) l ->
  forall acc, fold_res (fun acc e => e ← SoundEventRecord_validate e; Ok (acc ++ [e])) acc l = Ok (acc ++ l).
Proof.
  induction 1 as [|x l Hx Hl IH]; intros acc; cbn; [by rewrite app_nil_r|].
  rewrite Hx. cbn. by rewrite IH, <- app_assoc.
Qed.

Lemma shown_valid e actor q d :
  store_ok d -> Forall (fun x => SoundEventRecord_validate x = Ok x) (shown e actor q d).
Proof.
  intros Hd. apply Forall_forall. intros x Hx. unfold shown in Hx.
  apply (subseteq_take _ _) in Hx. apply list_elem_of_filter in Hx as [_ (r & -> & Hr)%list_elem_of_fmap].
  apply py_sorted_elem, list_elem_of_filter in Hr as [_ Hr]. apply record_of_valid.
  pose proof (so_rows d Hd) as Hrows. rewrite Forall_forall in Hrows. by apply Hrows.
Qed.

Lemma list_stored_run e actor q d revision :
  store_ok d -> actor_revision e actor = Ok revision ->
  Identity coreId -> Identity homeId -> Identity (p_id actor) -> Identity (p_family_id actor) -> Revision revision ->
  (1 <= lf_limit q <= 100)%nat ->
  exists st, sd_state d = Some st /\
    list_stored e actor coreId homeId q d = (Ok (snapshot_of e actor revision (st_revision st) q d), d).
Proof.
  intros Hd Hact Hc Hh Ha Hf Hrev Hlim. destruct (check_state_ok d Hd) as (st & Hst & Hs & Hr & _).
  exists st. split; [done|]. unfold SoundRepository.list_stored. rewrite lift_bind.
  unfold context_current. rewrite raise_if_no by congruence. unfold guarded, transaction.
  unfold mbind, M_bind, get_state, lift. rewrite Hst. unfold client_authority. rewrite Hact. cbn [mbind res_bind].
  rewrite model_validate_valid by done.
  set (rows := py_sorted newest_first (filter (fun r => er_owner_id r = p_id actor) (sd_events d))).
  assert (Hlen : (length rows <= length (sd_events d))%nat).
  { unfold rows. rewrite py_sorted_length. apply length_filter. }
  pose proof (so_few d Hd) as Hfew. rewrite (take_ge rows) by (unfold MAX_STORED in *; lia).
  rewrite raise_if_no by (unfold MAX_STORED in *; lia).
  rewrite collect_rows; [|apply Forall_forall|cbn; lia].
  - cbn [app]. fold (shown e actor q d). unfold SoundEventSnapshot_validate.
    cbn [sh_authority sh_repositoryRevision sh_events]. rewrite model_validate_valid by done. cbn [mbind res_bind].
    assert (length (shown e actor q d) <= 100)%nat by (unfold shown; rewrite length_take; lia).
    rewrite (raise_if_no (_ \/ _)) by (by intros [?|?]). cbn [mbind res_bind].
    rewrite records_validated by by apply shown_valid. cbn. by case_decide.
  - intros r [_ Hr']%py_sorted_elem%list_elem_of_filter. pose proof (so_rows d Hd) as Hrows.
    rewrite Forall_forall in Hrows. by apply Hrows.
Qed.

(** ** Runs *)

Inductive store_step : sound_db -> sound_db -> Prop :=
  | step_record e p r d : store_step d (record e p r d).2
  | step_list e actor core_id home_id q d : store_step d (list_stored e actor core_id home_id q d).2
  | step_acknowledge e actor core_id home_id event_id r d :
      store_step d (acknowledge e actor core_id home_id event_id r d).2
  | step_open key d : store_step d (open_repository key d).2.

Lemma rolls_back_guarded {A} (m : M sound_db A) : rolls_back (guarded m).
Proof. intros d x d'. apply guarded_raise. Qed.

Lemma list_stored_keeps e actor core_id home_id q d : (list_stored e actor core_id home_id q d).2 = d.
Proof.
  unfold SoundRepository.list_stored. rewrite lift_bind. destruct (context_current _ _ _ _); [|done].
  unfold guarded, transaction, mbind, M_bind, get_state, lift.
  destruct (check_state d) as [st|]; [|done]. destruct (client_authority _ _ _ _ _) as [au|]; [|done].
  destruct (raise_if _ _); [|done]. destruct (collect _ _ _ _ _) as [l|]; [|done].
  by destruct (SoundEventSnapshot_validate _).
Qed.

Lemma record_rolls_back e p r : rolls_back (record e p r).
Proof. unfold SoundRepository.record. do 5 (apply rolls_back_lift; intros). apply rolls_back_guarded. Qed.
Lemma acknowledge_rolls_back e actor core_id home_id event_id r :
  rolls_back (acknowledge e actor core_id home_id event_id r).
Proof. unfold SoundRepository.acknowledge. do 3 (apply rolls_back_lift; intros). apply rolls_back_guarded. Qed.

Lemma store_step_ok d d' : store_step d d' -> store_ok d -> store_ok d'.
Proof.
  intros Hst Hd. destruct Hst as [e p r d|e actor c h q d|e actor c h i r d|key d].
  - destruct (record e p r d) as [[u|x] d'] eqn:E; cbn; [by eapply record_ok|].
    by rewrite (record_rolls_back _ _ _ _ _ _ E).
  - by rewrite list_stored_keeps.
  - destruct (acknowledge e actor c h i r d) as [[k|x] d'] eqn:E; cbn; [by eapply acknowledge_ok|].
    by rewrite (acknowledge_rolls_back _ _ _ _ _ _ _ _ _ E).
  - destruct (decide (length key = 32%nat)) as [Hk|Hk]; [by rewrite open_ok|].
    unfold SoundRepository.open_repository. rewrite lift_bind. rewrite (raise_if_yes (_ <> _)) by done. done.
Qed.
Lemma store_run_ok d d' : rtc store_step d d' -> store_ok d -> store_ok d'.
Proof. induction 1; eauto using store_step_ok. Qed.

(** The file as it was opened first, after any calls. *)
Definition in_use (d : sound_db) : Prop :=
  exists key d0, open_repository key empty_file = (Ok tt, d0) /\ rtc store_step d0 d.

Lemma in_use_ok d : in_use d -> store_ok d.
Proof.
  intros (key & d0 & Ho & Hr). eapply store_run_ok; [done|].
  assert (Hk : length key = 32%nat).
  { unfold SoundRepository.open_repository in Ho. rewrite lift_bind in Ho. unfold raise_if in Ho.
    destruct (decide (length key <> 32%nat)); [done|]. lia. }
  destruct (open_empty key Hk) as (d1 & Ho' & Hd1). rewrite Ho in Ho'. by injection Ho' as ->.
Qed.

(** ** Properties *)

(** The store always opens.  After any calls by anyone, its check accepts it,
    opening it again changes nothing, and every stored event reads as a valid
    record which is either new, at revision 1, or acknowledged, at revision 2. *)
Theorem sound_store_valid d :
  in_use d ->
  validate_storage d = Ok tt /\
  (forall key, length key = 32%nat -> open_repository key d = (Ok tt, d)) /\
  forall r, r ∈ sd_events d -> exists x, read_row r = Ok x /\ SoundEventRecord_validate x = Ok x /\
    sn_eventRevision x = if sn_acknowledged x then 2 else 1.
Proof.
  intros Hd%in_use_ok. split; [by apply validate_storage_ok|]. split; [intros; by apply open_ok|].
  intros r Hr. pose proof (so_rows d Hd) as Hrows. rewrite Forall_forall in Hrows. specialize (Hrows r Hr).
  exists (record_of r). split; [by apply read_row_ok|]. split; [by apply record_of_valid|].
  destruct (ro_stage r Hrows) as [[H1 H0]|[H1 H0]]; cbn; by rewrite H1, H0.
Qed.

(** A current account is always answered with exactly its own events that
    have not expired and pass the filter, the newest first, up to the limit. *)
Theorem sound_events_listed e actor q d revision :
  in_use d -> actor_revision e actor = Ok revision ->
  Identity coreId -> Identity homeId -> Identity (p_id actor) -> Identity (p_family_id actor) -> Revision revision ->
  (1 <= lf_limit q <= 100)%nat ->
  exists st, sd_state d = Some st /\
    list_stored e actor coreId homeId q d = (Ok (snapshot_of e actor revision (st_revision st) q d), d).
Proof. intros Hd%in_use_ok. intros. by apply list_stored_run. Qed.

(** A step appends rows, or marks one that was new. *)
Lemma step_rows d d' :
  store_step d d' -> store_ok d ->
  (exists l, sd_events d' = sd_events d ++ l) \/
  exists row t, row ∈ sd_events d /\ unread row /\
    sd_events d' = sql_update (fun r => er_event_id r = er_event_id row) (marked 2 t) (sd_events d).
Proof.
  intros Hst Hd. destruct Hst as [e p r d|e actor c h q d|e actor c h i r d|key d].
  - left. destruct (record e p r d) as [[u|y] d'] eqn:E; cbn;
      [|exists []; by rewrite (record_rolls_back _ _ _ _ _ _ E), app_nil_r].
    destruct (record_outcome _ _ _ _ _ _ Hd E)
      as (a & z & z0 & _ & _ & _ & _ & _ & _ & _ & _ & _ & _ & [[-> _]|(st & _ & _ & _ & _ & ->)]);
      [exists []; by rewrite app_nil_r|]. by eexists.
  - left. exists []. by rewrite list_stored_keeps, app_nil_r.
  - destruct (acknowledge e actor c h i r d) as [[k|y] d'] eqn:E; cbn;
      [|left; exists []; by rewrite (acknowledge_rolls_back _ _ _ _ _ _ _ _ _ E), app_nil_r].
    destruct (acknowledge_outcome _ _ _ _ _ _ _ _ _ Hd E) as (q & rev & _ & _ & _ & _ & [[-> _]|(st & Hs & Hi)]);
      [left; exists []; by rewrite app_nil_r|].
    destruct (acknowledge_new_outcome _ _ _ _ _ _ _ _ _ _ Hd Hs Hi)
      as (row & Hrow & <- & _ & Hun & _ & _ & _ & _ & _ & _ & ->). right. by do 2 eexists.
  - left. exists []. rewrite app_nil_r. destruct (decide (length key = 32%nat)) as [Hk|Hk]; [by rewrite open_ok|].
    unfold SoundRepository.open_repository. rewrite lift_bind. by rewrite (raise_if_yes (_ <> _)).
Qed.

Lemma acked_grow d d' x :
  store_step d d' -> store_ok d -> x ∈ sd_events d -> acked x -> x ∈ sd_events d'.
Proof.
  intros Hst Hd Hx Ha. destruct (step_rows d d' Hst Hd) as [[l ->]|(row & t & Hrow & Hun & ->)].
  - apply elem_of_app. by left.
  - by apply acked_stays.
Qed.

Lemma acked_forever d d' x : rtc store_step d d' -> store_ok d -> x ∈ sd_events d -> acked x -> x ∈ sd_events d'.
Proof. induction 1 as [|d d1 d2 Hst _ IH]; [done|]. intros Hd Hx Ha. eauto using store_step_ok, acked_grow. Qed.

(** The event an answer is about is acknowledged and belongs to the account. *)
Lemma acknowledged_row_exists e actor core_id home_id event_id r d k d' :
  store_ok d -> acknowledge e actor core_id home_id event_id r d = (Ok k, d') ->
  exists x, x ∈ sd_events d' /\ er_event_id x = sk_eventId k /\ er_owner_id x = p_id actor /\ acked x.
Proof.
  intros Hd Hi. destruct (acknowledge_outcome _ _ _ _ _ _ _ _ _ Hd Hi)
    as (q & rev & _ & _ & _ & _ & [[-> (row & Hrow & _ & Ho & _ & _ & Hp)]|(st & Hs & Hn)]).
  - pose proof (so_receipts d Hd) as Hr. rewrite Forall_forall in Hr.
    destruct (Hr row Hrow) as (_ & k' & Hj & Hv & _ & _ & _ & x & Hx & Hxi & Hxo & Ha).
    rewrite Hj, receipt_roundtrip in Hp by done. injection Hp as <-. exists x. by rewrite <- Ho.
  - destruct (acknowledge_new_outcome _ _ _ _ _ _ _ _ _ _ Hd Hs Hn)
      as (row & Hrow & <- & Hown & Hun & _ & _ & _ & _ & -> & _ & ->).
    exists (marked 2 (event_tag (marked 2 "" row)) row). split; [|done].
    pose proof (sql_update_elem_2 (fun r => er_event_id r = er_event_id row)
      (marked 2 (event_tag (marked 2 "" row))) (sd_events d) row Hrow) as Hin.
    by rewrite decide_True in Hin.
Qed.

(** The receipt that is stored answers. *)
Lemma acknowledge_replays e actor event_id q rev row k d :
  store_ok d -> actor_revision e actor = Ok rev -> SoundEventAcknowledgementRequest_valid q ->
  row ∈ sd_receipts d -> rr_request_id row = sq_requestId q -> rr_owner_id row = p_id actor ->
  rr_family_id row = p_family_id actor -> rr_command_digest row = digest (request_json q) ->
  parse_receipt (rr_receipt_json row) = Ok k ->
  acknowledge e actor coreId homeId event_id (Shaped q) d = (Ok k, d).
Proof.
  intros Hd Hact Hq Hrow Hreq Ho Hf Hc Hp. destruct (check_state_ok d Hd) as (st & Hst & _).
  unfold SoundRepository.acknowledge, context_current, guarded, transaction, mbind, M_bind, get_state, lift.
  rewrite (raise_if_no (_ <> _)) by congruence. rewrite model_validate_valid by done. rewrite Hact, Hst.
  rewrite (sql_one_unique rr_request_id _ row) by (done || apply Hd).
  pose proof (so_receipts d Hd) as Hr. rewrite Forall_forall in Hr. destruct (Hr row Hrow) as [Hg _].
  rewrite (raise_if_no (~ receipt_genuine tag row)) by (intros Hn; by apply Hn).
  rewrite (raise_if_no (_ \/ _)) by naive_solver. by rewrite Hp.
Qed.

(** The receipt of the request, if it is kept, is the answer's. *)
Lemma acknowledge_receipt e actor core_id home_id event_id q d k d' row :
  store_ok d -> acknowledge e actor core_id home_id event_id (Shaped q) d = (Ok k, d') ->
  row ∈ sd_receipts d' -> rr_request_id row = sq_requestId q ->
  SoundEventAcknowledgementRequest_valid q /\ rr_owner_id row = p_id actor /\ rr_family_id row = p_family_id actor /\
  rr_command_digest row = digest (request_json q) /\ parse_receipt (rr_receipt_json row) = Ok k.
Proof.
  intros Hd Hi Hrow Hreq. destruct (acknowledge_outcome _ _ _ _ _ _ _ _ _ Hd Hi)
    as (q' & rev & [= <-] & _ & Hq & _ & [[-> (row' & Hrow' & Hreq' & ?)]|(st & Hs & Hn)]).
  - assert (row = row') as -> by (apply (nodup_column_inj rr_request_id (sd_receipts d)); [apply Hd|done|done|congruence]).
    naive_solver.
  - destruct (acknowledge_new_outcome _ _ _ _ _ _ _ _ _ _ Hd Hs Hn)
      as (x & _ & _ & _ & _ & _ & _ & _ & Hk & _ & Hfresh & ->).
    cbn [sd_receipts set_receipts] in Hrow. apply sql_delete_elem in Hrow as [Hrow _].
    apply elem_of_app in Hrow as [Hrow|Hrow%list_elem_of_singleton].
    + destruct Hfresh. apply list_elem_of_fmap. by exists row.
    + subst row. do 4 (split; [done|]). by apply receipt_roundtrip.
Qed.

(** C23 An acknowledgement is final.  Once one was answered, for a new request or
    an old one, the event stays acknowledged whatever follows; every later
    answer about that event changes nothing; and as long as the request's receipt is
    kept, the account's session gets the same answer to it. *)
Theorem sound_acknowledged_once d d' d'' e actor core_id home_id event_id q k :
  in_use d -> acknowledge e actor core_id home_id event_id (Shaped q) d = (Ok k, d') -> rtc store_step d' d'' ->
  (exists x, x ∈ sd_events d'' /\ er_event_id x = sk_eventId k /\ er_owner_id x = p_id actor /\ acked x) /\
  (forall e2 actor2 r2 k2 d3,
     acknowledge e2 actor2 coreId homeId (sk_eventId k) r2 d'' = (Ok k2, d3) -> d3 = d'') /\
  forall row e2 rev event_id2,
     row ∈ sd_receipts d' -> rr_request_id row = sq_requestId q -> row ∈ sd_receipts d'' ->
     actor_revision e2 actor = Ok rev ->
     acknowledge e2 actor coreId homeId event_id2 (Shaped q) d'' = (Ok k, d'').
Proof.
  intros Hd%in_use_ok Hi Hrun. pose proof (acknowledge_ok _ _ _ _ _ _ _ _ _ Hd Hi) as Hd'.
  pose proof (store_run_ok _ _ Hrun Hd') as Hd''.
  destruct (acknowledged_row_exists _ _ _ _ _ _ _ _ _ Hd Hi) as (x & Hx & Hxi & Hxo & Ha).
  pose proof (acked_forever _ _ _ Hrun Hd' Hx Ha) as Hx''.
  split; [by exists x|]. split.
  - intros e2 actor2 r2 k2 d3 Hi2.
    destruct (acknowledge_outcome _ _ _ _ _ _ _ _ _ Hd'' Hi2) as (q2 & rev & _ & _ & _ & _ & [[-> _]|(st & Hs & Hn)]); [done|].
    destruct (acknowledge_new_outcome _ _ _ _ _ _ _ _ _ _ Hd'' Hs Hn) as (row & Hrow & Hid & _ & [Hun _] & _).
    assert (x = row) as -> by (apply (nodup_column_inj er_event_id (sd_events d'')); [apply Hd''|done|done|congruence]).
    destruct Ha. lia.
  - intros row e2 rev event_id2 Hrow Hreq Hin Hact.
    destruct (acknowledge_receipt _ _ _ _ _ _ _ _ _ _ Hd Hi Hrow Hreq) as (Hq & H2 & H3 & H4 & H5).
    by eapply acknowledge_replays.
Qed.

(** Only a current session's own classifier records: an event that was
    accepted was already stored, or is appended as a new one of the account whose
    session, revision and reach were checked, in the home that the store serves. *)
Theorem sound_record_authorised e p r d d' :
  in_use d -> record e p r d = (Ok tt, d') ->
  exists a x, model_validate p = Ok a /\ current_session e a /\ in_reach a (sv_source x) /\ sa_active a = true /\
    sa_canObserve a = true /\ ss_coreId (sv_source x) = coreId /\ ss_homeId (sv_source x) = homeId /\
    (d' = d \/
     (sd_events d' = sd_events d ++ [new_row tag a x] /\ sv_eventId x ∉ er_event_id <$> sd_events d /\
      sd_receipts d' = sd_receipts d /\
      exists st st', sd_state d = Some st /\ sd_state d' = Some st' /\ st_revision st' = st_revision st + 1)).
Proof.
  intros Hd%in_use_ok Hi.
  destruct (record_outcome _ _ _ _ _ _ Hd Hi) as (a & x & x0 & _ & _ & Ha & _ & Hr & Hac & Ho & Hcur & Hc & Hh & Hout).
  exists a, x. do 7 (split; [done|]). destruct Hout as [[-> _]|(st & Hst & _ & _ & Hn & ->)]; [by left|right].
  do 3 (split; [done|]). by do 2 eexists.
Qed.

(** An event that was acknowledged cannot be reported again: [record] refuses
    the report it accepted, although nothing in it changed. *)
Theorem acknowledged_event_refused e p x y row d d' :
  in_use d -> SoundEvent_validate x = Ok y -> row ∈ sd_events d -> er_event_id row = sv_eventId x -> acked row ->
  record e p (Shaped x) d <> (Ok tt, d').
Proof.
  intros Hd%in_use_ok Hx Hrow Hid [_ Ha] Hi.
  destruct (record_outcome _ _ _ _ _ _ Hd Hi) as (a & z & x0 & [= <-] & Hz & _ & _ & _ & _ & _ & _ & _ & _ & Hout).
  assert (Ez : sv_eventId z = sv_eventId x).
  { unfold SoundEvent_validate in Hz. by apply bind_ok in Hz as (n & _ & ([] & _ & [= <-])%bind_ok). }
  destruct Hout as [[_ (old & Hold & E)]|(st & _ & _ & _ & Hn & _)].
  - assert (er_event_id old = sv_eventId z /\ er_acknowledged old = 0) as [Eid E0].
    { unfold event_values in E. injection E. cbn. naive_solver. }
    assert (old = row) as -> by (apply (nodup_column_inj er_event_id (sd_events d)); [apply Hd|done|done|congruence]).
    congruence.
  - apply Hn, list_elem_of_fmap. exists row. by rewrite Ez.
Qed.

Lemma events_kept d d' : store_step d d' -> store_ok d -> (length (sd_events d) <= length (sd_events d'))%nat.
Proof.
  intros Hst Hd. destruct (step_rows d d' Hst Hd) as [[l ->]|(row & t & _ & _ & ->)].
  - rewrite length_app. lia.
  - by rewrite sql_update_length.
Qed.

(** A full store is final: no event is ever removed, so once it holds its
    10,000 events no new one is accepted, whatever expired. *)
Theorem full_store_is_final d d' e p r d'' :
  in_use d -> Z.of_nat (length (sd_events d)) = MAX_STORED -> rtc store_step d d' ->
  record e p r d' = (Ok tt, d'') -> d'' = d'.
Proof.
  intros Hd%in_use_ok Hfull Hrun Hi.
  assert (Hlen : (length (sd_events d) <= length (sd_events d'))%nat).
  { clear Hi. induction Hrun as [|x y z Hst Hrun IH]; [done|]. pose proof (events_kept _ _ Hst Hd) as H1.
    pose proof (store_step_ok _ _ Hst Hd) as Hy. pose proof (so_few _ Hy). specialize (IH Hy ltac:(lia)). lia. }
  pose proof (store_run_ok _ _ Hrun Hd) as Hd'.
  destruct (record_outcome _ _ _ _ _ _ Hd' Hi)
    as (a & z & z0 & _ & _ & _ & _ & _ & _ & _ & _ & _ & _ & [[-> _]|(st & _ & _ & Hlt & _)]); [done|].
  lia.
Qed.
End repository_facts.

(** ** The doorbell's event *)

Module StoreExample.
Import DoorbellExample(id, source, authority).

Fixpoint bits (p : positive) : string :=
  match p with
  | xH => ""
  | xO p => String Ascii.zero (bits p)
  | xI p => String Ascii.one (bits p)
  end.
Fixpoint unbits (s : string) : positive :=
  match s with
  | EmptyString => xH
  | String c s => if decide (c = Ascii.one) then xI (unbits s) else xO (unbits s)
  end.
Lemma unbits_bits p : unbits (bits p) = p.
Proof. induction p; cbn; by rewrite ?IHp. Qed.

Definition tuple : Type := string * string * string * string * string * string * Z * Z.
Definition to_tuple (k : SoundEventAcknowledgement) : tuple :=
  (sk_requestId k, sk_eventId k, sk_coreId k, sk_homeId k, sk_accountId k, sk_sessionFamilyId k,
   sk_repositoryRevision k, sk_eventRevision k).
Definition of_tuple (t : tuple) : SoundEventAcknowledgement :=
  let '(q, v, c, h, a, f, r, s) := t in
  {| sk_requestId := q; sk_eventId := v; sk_coreId := c; sk_homeId := h; sk_accountId := a; sk_sessionFamilyId := f;
     sk_repositoryRevision := r; sk_eventRevision := s |}.
Definition dump (k : SoundEventAcknowledgement) : string := bits (encode (to_tuple k)).
Definition parse (s : string) : res SoundEventAcknowledgement :=
  match decode (A := tuple) (unbits s) with
  | Some t => Ok (of_tuple t)
  | None => Raise (ValueError "invalid_json")
  end.
Lemma parse_dump k : SoundEventAcknowledgement_valid k -> parse (dump k) = Ok k.
Proof. intros _. unfold parse, dump. rewrite unbits_bits, decode_encode. by destruct k. Qed.

Definition tag (domain : string) (v : jval) : string := domain.
Definition digest (v : jval) : string := "digest".

Definition alice : user_row :=
  {| u_id := id "1"; u_username := "alice"; u_role := Member; u_password_hash := ""; u_must_change := false;
     u_created_at := 0; u_disabled := false; u_revision := 1 |}.
Definition tablet : family_row :=
  {| f_id := id "2"; f_user_id := id "1"; f_device_name := []; f_created_at := 0; f_expires_at := seconds 9000;
     f_revoked_at := None |}.
Definition session : token_row :=
  {| t_id := id "3"; t_family_id := id "2"; t_access_hash := "a"; t_refresh_hash := "r";
     t_access_expires_at := seconds 9000; t_refresh_expires_at := seconds 9000; t_created_at := 0;
     t_rotated_at := None |}.
Definition accounts : auth_db :=
  {| users := [alice]; families := [tablet]; tokens := [session]; rate_limits := []; admin_audit := []; au_next := 1 |}.
Definition actor : Principal :=
  {| p_id := id "1"; p_username := "alice"; p_role := Member; p_must_change_password := false; p_family_id := id "2";
     p_token_id := id "3" |}.
Definition env : repository_env :=
  {| rv_accounts := accounts; rv_auth_now := seconds 5; rv_now := seconds 5; rv_now_ms := 5000 |}.
Definition rung : SoundEvent :=
  {| sv_eventId := id "f"; sv_source := source; sv_className := u "doorbell"; sv_confidence := CERTAIN;
     sv_observedAtMs := 1000; sv_evidenceDigest := ZERO_HASH; sv_retentionExpiresAtMs := 3601000;
     sv_automationVerified := true |}.
Definition request : SoundEventAcknowledgementRequest :=
  {| sq_requestId := id "9"; sq_expectedRepositoryRevision := 2; sq_expectedEventRevision := 1 |}.
Definition key : list Z := replicate 32 0.

Notation opened := (open_repository tag key empty_file).
Notation reported := (record tag (id "a") (id "b") env (Shaped authority) (Shaped rung)).
Notation confirm := (acknowledge tag digest dump parse (id "a") (id "b") env actor (id "a") (id "b") (id "f") (Shaped request)).
Definition d0 : sound_db := opened.2.
Definition d1 : sound_db := (reported d0).2.
Definition d2 : sound_db := (confirm d1).2.
Definition receipt : SoundEventAcknowledgement := receipt_for actor (id "a") (id "b") (id "f") request 3 2.
Definition all : list_filter := {| lf_room_id := None; lf_class_name := None; lf_acknowledged := None; lf_limit := 100 |}.

Lemma store_opened_ok : opened = (Ok tt, d0).
Proof. done. Qed.
Lemma reported_ok : reported d0 = (Ok tt, d1).
Proof. replace (Ok tt) with (reported d0).1 by (by vm_compute). apply surjective_pairing. Qed.
Lemma confirmed_ok : confirm d1 = (Ok receipt, d2).
Proof. replace (Ok receipt) with (confirm d1).1 by (by vm_compute). apply surjective_pairing. Qed.

Lemma used0 : in_use tag digest dump parse (id "a") (id "b") d0.
Proof. exists key, d0. split; [apply store_opened_ok|done]. Qed.
Lemma used1 : in_use tag digest dump parse (id "a") (id "b") d1.
Proof. exists key, d0. split; [apply store_opened_ok|]. apply rtc_once, step_record. Qed.
Lemma alice_current : actor_revision env actor = Ok 1.
Proof. by vm_compute. Qed.

Lemma sound_store_valid_witness :
  length (sd_events d1) = 1%nat /\ validate_storage tag d1 = Ok tt.
Proof.
  split; [by vm_compute|]. apply (sound_store_valid tag digest dump parse (id "a") (id "b") parse_dump d1 used1).
Defined.

Lemma sound_events_listed_witness :
  length (shown env actor all d1) = 1%nat /\
  exists st, sd_state d1 = Some st /\
    list_stored tag (id "a") (id "b") env actor (id "a") (id "b") all d1 =
      (Ok (snapshot_of (id "a") (id "b") env actor 1 (st_revision st) all d1), d1).
Proof.
  split; [by vm_compute|].
  apply (sound_events_listed tag digest dump parse (id "a") (id "b") parse_dump env actor all d1 1 used1 alice_current).
  all: try (by vm_compute). cbn. lia.
Defined.

Lemma sound_acknowledged_once_witness :
  exists x, x ∈ sd_events d2 /\ er_event_id x = id "f" /\ er_owner_id x = id "1" /\ acked x.
Proof.
  apply (sound_acknowledged_once tag digest dump parse (id "a") (id "b") parse_dump d1 d2 d2 env actor (id "a") (id "b")
           (id "f") request receipt used1 confirmed_ok (rtc_refl _ _)).
Defined.

Lemma sound_record_authorised_witness :
  exists a, model_validate (Shaped authority) = Ok a /\ current_session env a.
Proof.
  destruct (sound_record_authorised tag digest dump parse (id "a") (id "b") parse_dump env (Shaped authority)
              (Shaped rung) d0 d1 used0 reported_ok) as (a & x & Ha & Hc & _).
  by exists a.
Defined.
End StoreExample.
