(* ===== verification/PresenceRepository.v ===== *)
(** * Room presence: the encrypted store and calibration

    [server/larenor_server/room_presence/repository.py] with
    [management_models.py] and the table of [schema.py]: the devices of a home,
    each with its policy, its names, its last estimate and the serialised state
    of its fusion engine ([Presence]), in one encrypted row; administrators
    calibrate a device in two calls, a preview and a confirmation.

    Every public operation starts by reading the row anew ([_sync]), so what
    the object holds between calls is never used and the state is a value of
    one call.  [rate_limit] runs in a transaction of its own.  AES-GCM, the
    tag of a client's authority, SHA-256 and the JSON text of the state are
    parameters; json.dumps writes keys in order, so a state that was stored is
    read back sorted ([canonical]). *)

From stdpp Require Import gmap.
From S2P Require Import Prelude Auth Presence.

Definition MAX_STATE_BYTES : Z := 8 * 1024 * 1024.
Definition MAX_DEVICES : Z := 100.
Definition MAX_RECEIPTS : Z := 256.
Definition MAX_SOURCE_CHECKPOINTS : Z := 256.

(** ** Contracts *)

Record PresenceRouteBinding := {
  bd_routeId : string;
  bd_routeRevision : Z;
  bd_clientSessionRevision : Z;
}.
Definition PresenceRouteBinding_valid (b : PresenceRouteBinding) : Prop :=
  Identity (bd_routeId b) /\ Revision (bd_routeRevision b) /\ Revision (bd_clientSessionRevision b).
#[export] Instance PresenceRouteBinding_valid_dec b : Decision (PresenceRouteBinding_valid b).
Proof. unfold PresenceRouteBinding_valid. apply _. Defined.
#[export] Instance PresenceRouteBinding_model : Model PresenceRouteBinding :=
  {| model_valid := PresenceRouteBinding_valid |}.

Record PresenceClientAuthority := {
  ca_coreId : string;
  ca_homeId : string;
  ca_accountId : string;
  ca_sessionFamilyId : string;
  ca_routeId : string;
  ca_homeRevision : Z;
  ca_accountRevision : Z;
  ca_clientSessionRevision : Z;
  ca_routeRevision : Z;
  ca_bindingTag : string;
}.
#[export] Instance PresenceClientAuthority_eq_dec : EqDecision PresenceClientAuthority.
Proof. solve_decision. Defined.
Definition PresenceClientAuthority_valid (a : PresenceClientAuthority) : Prop :=
  Identity (ca_coreId a) /\ Identity (ca_homeId a) /\ Identity (ca_accountId a) /\ Identity (ca_sessionFamilyId a) /\
  Identity (ca_routeId a) /\ Revision (ca_homeRevision a) /\ Revision (ca_accountRevision a) /\
  Revision (ca_clientSessionRevision a) /\ Revision (ca_routeRevision a) /\ Snapshot (ca_bindingTag a).
#[export] Instance PresenceClientAuthority_valid_dec a : Decision (PresenceClientAuthority_valid a).
Proof. unfold PresenceClientAuthority_valid. apply _. Defined.
#[export] Instance PresenceClientAuthority_model : Model PresenceClientAuthority :=
  {| model_valid := PresenceClientAuthority_valid |}.

Record PresenceDeviceView := {
  vw_authority : PresenceClientAuthority;
  vw_deviceId : string;
  vw_deviceName : ustr;
  vw_deviceRevision : Z;
  vw_modelRevision : Z;
  vw_policyRevision : Z;
  vw_consentRevision : Z;
  vw_consentActive : bool;
  vw_configuredRoomId : string;
  vw_configuredRoomName : ustr;
  vw_configuredRoomRevision : Z;
  vw_detectedRoomId : option string;
  vw_detectedRoomRevision : option Z;
  vw_estimateRevision : string;
  vw_transitionRevision : Z;
  vw_calibrationRevision : Z;
  vw_state : presence_status;
  vw_confidencePermille : Z;
  vw_sampleCount : Z;
  vw_observedAtMs : Z;
  vw_providerReachable : bool;
}.

(** [coherent_room] *)
Definition coherent_room (v : PresenceDeviceView) : Prop :=
  (vw_detectedRoomId v = None <-> vw_detectedRoomRevision v = None) /\
  (vw_state v = PPresent \/ vw_state v = PUncertain ->
     vw_detectedRoomId v <> None /\ vw_detectedRoomRevision v <> None) /\
  (vw_state v = PUnknown \/ vw_state v = PCandidate ->
     ~ (vw_detectedRoomId v <> None /\ vw_detectedRoomRevision v <> None)) /\
  (vw_state v = PUnknown -> vw_confidencePermille v = 0 /\ vw_sampleCount v = 0).
#[export] Instance coherent_room_dec v : Decision (coherent_room v).
Proof. unfold coherent_room. solve_dec. Defined.

(** The bounds of [PresenceDeviceView]'s fields. *)
Definition view_fields_valid (v : PresenceDeviceView) : Prop :=
  PresenceClientAuthority_valid (vw_authority v) /\ Identity (vw_deviceId v) /\
  (1 <= length (vw_deviceName v) <= 80)%nat /\ Revision (vw_deviceRevision v) /\ Revision (vw_modelRevision v) /\
  Revision (vw_policyRevision v) /\ Revision (vw_consentRevision v) /\ Identity (vw_configuredRoomId v) /\
  (1 <= length (vw_configuredRoomName v) <= 80)%nat /\ Revision (vw_configuredRoomRevision v) /\
  optional (is_hex 32) (vw_detectedRoomId v) /\ optional Revision (vw_detectedRoomRevision v) /\
  Identity (vw_estimateRevision v) /\ 0 <= vw_transitionRevision v <= MAX_REVISION /\
  Revision (vw_calibrationRevision v) /\ Confidence (vw_confidencePermille v) /\ 0 <= vw_sampleCount v <= 64 /\
  0 <= vw_observedAtMs v <= MAX_REVISION.
#[export] Instance view_fields_valid_dec v : Decision (view_fields_valid v).
Proof. unfold view_fields_valid. solve_dec. Defined.

Record PresenceDevicePage := { pg_authority : PresenceClientAuthority; pg_devices : list PresenceDeviceView }.

Record CalibrationPreviewCommand := {
  cc_authority : PresenceClientAuthority;
  cc_deviceId : string;
  cc_expectedDeviceRevision : Z;
  cc_expectedModelRevision : Z;
  cc_roomId : string;
  cc_expectedRoomRevision : Z;
  cc_expectedPolicyRevision : Z;
  cc_expectedConsentRevision : Z;
  cc_expectedCalibrationRevision : Z;
}.
Definition CalibrationPreviewCommand_valid (c : CalibrationPreviewCommand) : Prop :=
  PresenceClientAuthority_valid (cc_authority c) /\ Identity (cc_deviceId c) /\ Identity (cc_roomId c) /\
  Revision (cc_expectedDeviceRevision c) /\ Revision (cc_expectedModelRevision c) /\
  Revision (cc_expectedRoomRevision c) /\ Revision (cc_expectedPolicyRevision c) /\
  Revision (cc_expectedConsentRevision c) /\ Revision (cc_expectedCalibrationRevision c).
#[export] Instance CalibrationPreviewCommand_valid_dec c : Decision (CalibrationPreviewCommand_valid c).
Proof. unfold CalibrationPreviewCommand_valid. apply _. Defined.
#[export] Instance CalibrationPreviewCommand_model : Model CalibrationPreviewCommand :=
  {| model_valid := CalibrationPreviewCommand_valid |}.

Record CalibrationPreview := {
  cp_authority : PresenceClientAuthority;
  cp_requestId : string;
  cp_deviceId : string;
  cp_deviceRevision : Z;
  cp_modelRevision : Z;
  cp_roomId : string;
  cp_roomRevision : Z;
  cp_policyRevision : Z;
  cp_consentRevision : Z;
  cp_previousCalibrationRevision : Z;
  cp_nextCalibrationRevision : Z;
  cp_expiresAtMs : Z;
}.
#[export] Instance CalibrationPreview_eq_dec : EqDecision CalibrationPreview.
Proof. solve_decision. Defined.
Definition CalibrationPreview_valid (c : CalibrationPreview) : Prop :=
  PresenceClientAuthority_valid (cp_authority c) /\ Identity (cp_requestId c) /\ Identity (cp_deviceId c) /\
  Identity (cp_roomId c) /\ Revision (cp_deviceRevision c) /\ Revision (cp_modelRevision c) /\
  Revision (cp_roomRevision c) /\ Revision (cp_policyRevision c) /\ Revision (cp_consentRevision c) /\
  Revision (cp_previousCalibrationRevision c) /\ Revision (cp_nextCalibrationRevision c) /\
  0 <= cp_expiresAtMs c <= MAX_REVISION.
#[export] Instance CalibrationPreview_valid_dec c : Decision (CalibrationPreview_valid c).
Proof. unfold CalibrationPreview_valid. apply _. Defined.
#[export] Instance CalibrationPreview_model : Model CalibrationPreview := {| model_valid := CalibrationPreview_valid |}.

Inductive calibration_status := Applied | Rejected | Uncertain.
#[export] Instance calibration_status_eq_dec : EqDecision calibration_status.
Proof. solve_decision. Defined.
Record CalibrationReceipt := {
  ct_authority : PresenceClientAuthority;
  ct_requestId : string;
  ct_deviceId : string;
  ct_deviceRevision : Z;
  ct_modelRevision : Z;
  ct_roomId : string;
  ct_roomRevision : Z;
  ct_policyRevision : Z;
  ct_consentRevision : Z;
  ct_previousCalibrationRevision : Z;
  ct_observedCalibrationRevision : option Z;
  ct_status : calibration_status;
}.
#[export] Instance CalibrationReceipt_eq_dec : EqDecision CalibrationReceipt.
Proof. solve_decision. Defined.
Definition CalibrationReceipt_valid (c : CalibrationReceipt) : Prop :=
  PresenceClientAuthority_valid (ct_authority c) /\ Identity (ct_requestId c) /\ Identity (ct_deviceId c) /\
  Identity (ct_roomId c) /\ Revision (ct_deviceRevision c) /\ Revision (ct_modelRevision c) /\
  Revision (ct_roomRevision c) /\ Revision (ct_policyRevision c) /\ Revision (ct_consentRevision c) /\
  Revision (ct_previousCalibrationRevision c) /\ optional Revision (ct_observedCalibrationRevision c).
#[export] Instance CalibrationReceipt_valid_dec c : Decision (CalibrationReceipt_valid c).
Proof. unfold CalibrationReceipt_valid. apply _. Defined.
#[export] Instance CalibrationReceipt_model : Model CalibrationReceipt := {| model_valid := CalibrationReceipt_valid |}.

(** ** The stored document *)

Record device_record := {
  dr_policy : PresencePolicy;
  dr_deviceName : ustr;
  dr_roomNames : list (string * ustr);
  dr_providerReachable : bool;
  dr_calibrationRevision : Z;
  dr_estimate : PresenceEstimate;
  dr_fusion : jval;
}.
Record presence_state := {
  ps_revision : Z;
  ps_devices : list (string * device_record);
  ps_previews : list (string * CalibrationPreview);
  ps_receipts : list (string * CalibrationReceipt);
}.
(** [_empty] *)
Definition empty_presence : presence_state :=
  {| ps_revision := 0; ps_devices := []; ps_previews := []; ps_receipts := [] |}.

Definition set_device (id : string) (r : device_record) (s : presence_state) : presence_state :=
  {| ps_revision := ps_revision s; ps_devices := dict_set (ps_devices s) id r; ps_previews := ps_previews s;
     ps_receipts := ps_receipts s |}.
Definition set_previews (l : list (string * CalibrationPreview)) (s : presence_state) : presence_state :=
  {| ps_revision := ps_revision s; ps_devices := ps_devices s; ps_previews := l; ps_receipts := ps_receipts s |}.
Definition set_receipt (id : string) (r : CalibrationReceipt) (s : presence_state) : presence_state :=
  {| ps_revision := ps_revision s; ps_devices := ps_devices s; ps_previews := ps_previews s;
     ps_receipts := dict_set (ps_receipts s) id r |}.
(** [self._state["revision"] = before + 1] *)
Definition next_revision (s : presence_state) : presence_state :=
  {| ps_revision := ps_revision s + 1; ps_devices := ps_devices s; ps_previews := ps_previews s;
     ps_receipts := ps_receipts s |}.

(** [record["estimate"] = ...; record["fusion"] = ...] *)
Definition set_estimate (e : PresenceEstimate) (fusion : jval) (r : device_record) : device_record :=
  {| dr_policy := dr_policy r; dr_deviceName := dr_deviceName r; dr_roomNames := dr_roomNames r;
     dr_providerReachable := dr_providerReachable r; dr_calibrationRevision := dr_calibrationRevision r;
     dr_estimate := e; dr_fusion := fusion |}.
(** [record["calibrationRevision"] = n] *)
Definition set_calibration (n : Z) (r : device_record) : device_record :=
  {| dr_policy := dr_policy r; dr_deviceName := dr_deviceName r; dr_roomNames := dr_roomNames r;
     dr_providerReachable := dr_providerReachable r; dr_calibrationRevision := n; dr_estimate := dr_estimate r;
     dr_fusion := dr_fusion r |}.

(** The row of [room_presence_state]. *)
Record presence_row := { pw_revision : Z; pw_nonce : list Z; pw_ciphertext : list Z }.
Record presence_world := { pw_row : option presence_row; pw_auth : auth_db }.

(** What one call reads: what [rate_limit] reads, the clock of
    [assert_current], [int(clock() * 1000)], [token_hex(16)] and the nonce. *)
Record presence_env := {
  pn_auth : AuthEnv;
  pn_now : Z;
  pn_now_ms : Z;
  pn_token : string;
  pn_nonce : list Z;
}.

(** What [register_local] is given beside the policy. *)
Record registration := {
  rg_device_name : ustr;
  rg_room_names : list (string * ustr);
  rg_provider_reachable : bool;
}.

(** [b"rawIdentifier"] *)
Definition RAW : list Z := u "rawIdentifier".
(** [needle in text] *)
Fixpoint occurs (needle text : list Z) : bool :=
  bool_decide (needle `prefix_of` text) || match text with [] => false | _ :: text => occurs needle text end.

Section repository.
Context `{UnicodeData}.
(** [json.dumps(state, ...).encode("utf-8")]; [json.loads] with the check of
    the document's fields and types; AES-GCM under the data key and the
    address of a revision; the hashes. *)
Variable dump : presence_state -> res (list Z).
Variable load : list Z -> raw presence_state.
Variable encrypt : list Z -> list Z -> Z -> list Z.
Variable decrypt : list Z -> list Z -> Z -> option (list Z).
Variable _digest : jval -> string.
Variable binding_tag : jval -> string.
Variable rate_key : string -> list Z -> string.
(** [self.scope] *)
Variable coreId homeId : string.

(** ** Reading the row *)

(** [_safe_label] *)
Definition safe_name (value : ustr) : res ustr :=
  _ ← raise_if (str_strip value = [] \/ (80 < length value)%nat \/ Exists is_control value)
        (ValueError "invalid_label");
  Ok (str_strip value).

(** [RoomPresenceFusion.restore_state] into a fresh engine. *)
Definition engine_of (raw : jval) : res RoomPresenceFusion := fusion_of_json MAX_SOURCE_CHECKPOINTS raw.

Definition room_ids (p : PresencePolicy) : list string := pr_roomId <$> pp_rooms p.
(** [set(a) != set(b)] *)
Definition same_set (a b : list string) : Prop := a ⊆ b /\ b ⊆ a.
#[export] Instance same_set_dec a b : Decision (same_set a b).
Proof. unfold same_set. apply _. Defined.

(** One device in the loop of [_validate_state]. *)
Definition validate_device (kv : string * device_record) : res unit :=
  let invalid := ValueError "invalid_room_presence_state" in
  let r := kv.2 in
  p ← model_validate (Shaped (dr_policy r));
  _ ← raise_if (kv.1 <> pd_deviceId (pp_device p) \/ (pp_coreId p, pp_homeId p) <> (coreId, homeId)) invalid;
  _ ← safe_name (dr_deviceName r);
  _ ← raise_if (~ same_set (dict_keys (dr_roomNames r)) (room_ids p)) invalid;
  _ ← for_each (fun nv => _ ← safe_name nv.2; Ok tt) (dr_roomNames r);
  _ ← raise_if (~ Revision (dr_calibrationRevision r)) invalid;
  _ ← model_validate (Shaped (dr_estimate r));
  _ ← engine_of (dr_fusion r);
  Ok tt.

(** [len(home_revisions) > 1] *)
Definition several_revisions (l : list (string * device_record)) : Prop :=
  match l with
  | [] => False
  | kv :: l => Exists (fun kv' => pp_homeRevision (dr_policy kv'.2) <> pp_homeRevision (dr_policy kv.2)) l
  end.
#[export] Instance several_revisions_dec l : Decision (several_revisions l).
Proof. destruct l; cbn; apply _. Defined.

(** [_validate_state] *)
Definition validate_state (s : presence_state) : res presence_state :=
  let invalid := ValueError "invalid_room_presence_state" in
  _ ← raise_if (~ 0 <= ps_revision s <= MAX_REVISION) invalid;
  _ ← raise_if (Z.of_nat (length (ps_devices s)) > MAX_DEVICES \/ Z.of_nat (length (ps_previews s)) > MAX_RECEIPTS \/
                Z.of_nat (length (ps_receipts s)) > MAX_RECEIPTS) invalid;
  _ ← for_each validate_device (ps_devices s);
  _ ← raise_if (several_revisions (ps_devices s)) invalid;
  _ ← for_each (fun kv => p ← model_validate (Shaped kv.2); raise_if (cp_requestId p <> kv.1) invalid) (ps_previews s);
  _ ← for_each (fun kv => r ← model_validate (Shaped kv.2); raise_if (ct_requestId r <> kv.1) invalid) (ps_receipts s);
  Ok s.

(** [_decode] *)
Definition decode_row (row : presence_row) : res presence_state :=
  let invalid := ValueError "invalid_room_presence_state" in
  _ ← raise_if (~ 0 <= pw_revision row <= MAX_REVISION \/ length (pw_nonce row) <> 12%nat \/
                ~ 16 <= Z.of_nat (length (pw_ciphertext row)) <= MAX_STATE_BYTES + 16) invalid;
  plain ← require_some (decrypt (pw_nonce row) (pw_ciphertext row) (pw_revision row)) (PyError "InvalidTag");
  _ ← raise_if (Z.of_nat (length plain) > MAX_STATE_BYTES \/ occurs RAW plain = true) invalid;
  s ← match load plain with Malformed => Raise invalid | Shaped s => validate_state s end;
  _ ← raise_if (ps_revision s <> pw_revision row) (ValueError "invalid_room_presence_revision");
  Ok s.

(** [_read] and [_sync] *)
Definition sync_row (row : option presence_row) : res presence_state :=
  match row with None => Ok empty_presence | Some row => decode_row row end.
Definition sync : M presence_world presence_state := w ← get_state; lift (sync_row (pw_row w)).

(** [validate_storage] *)
Definition storage_broken (e : exn) : bool :=
  match e with
  | ValueError _ | IntegrityError => true
  | PyError name => bool_decide (name ∈ ["InvalidTag"; "TypeError"; "OverflowError"]%string)
  | _ => false
  end.
Definition validate_storage (w : presence_world) : res unit :=
  match sync_row (pw_row w) with
  | Ok _ => Ok tt
  | Raise e => Raise (if storage_broken e then StartupError "room_presence_storage_invalid" else e)
  end.

(** [_persist] *)
Definition persist (e : presence_env) (s : presence_state) (previous_revision : Z) : M presence_world unit :=
  plain ← lift (dump s);
  _ ← lift (raise_if (Z.of_nat (length plain) > MAX_STATE_BYTES) (ApiError "revision_conflict" 409));
  let ciphertext := encrypt (pn_nonce e) plain (ps_revision s) in
  transaction (
    w ← get_state;
    let current := match pw_row w with None => 0 | Some row => pw_revision row end in
    _ ← lift (raise_if (current <> previous_revision) (ApiError "revision_conflict" 409));
    _ ← lift (raise_if (ps_revision s > MAX_REVISION) (PyError "OverflowError"));
    put_state {| pw_row := Some {| pw_revision := ps_revision s; pw_nonce := pn_nonce e; pw_ciphertext := ciphertext |};
                 pw_auth := pw_auth w |}).

(** [try: self._persist(before) except Exception: self._sync(); raise] *)
Definition persist_or_sync (e : presence_env) (s : presence_state) (before : Z) : M presence_world unit := fun w =>
  match persist e s before w with
  | (Raise x, w') => match sync w' with (Raise y, w'') => (Raise y, w'') | (Ok _, w'') => (Raise x, w'') end
  | r => r
  end.

(** ** Authority *)

(** [_actor] *)
Definition presence_actor (e : presence_env) (principal : Principal) (w : presence_world) : res user_row :=
  _ ← assert_current (pn_now e) (pw_auth w) principal;
  row ← require_some (sql_one (fun x => u_id x = p_id principal) (users (pw_auth w))) (ApiError "invalid_session" 401);
  _ ← raise_if (u_disabled row = true \/ u_must_change row = true \/ p_must_change_password principal = true)
        (ApiError "invalid_session" 401);
  Ok row.

(** [_scope] *)
Definition check_scope (core_id home_id : string) : res unit :=
  raise_if ((core_id, home_id) <> (coreId, homeId)) (ApiError "not_found" 404).

(** [_home_revision] *)
Definition home_revision (s : presence_state) : Z :=
  match ps_devices s with [] => 1 | kv :: _ => pp_homeRevision (dr_policy kv.2) end.

(** The fields that [bindingTag] covers. *)
Definition authority_json (a : PresenceClientAuthority) : jval :=
  JObj [("accountId", JStr (ca_accountId a)); ("accountRevision", JInt (ca_accountRevision a));
        ("clientSessionRevision", JInt (ca_clientSessionRevision a)); ("coreId", JStr (ca_coreId a));
        ("homeId", JStr (ca_homeId a)); ("homeRevision", JInt (ca_homeRevision a)); ("routeId", JStr (ca_routeId a));
        ("routeRevision", JInt (ca_routeRevision a)); ("schemaVersion", JInt 1);
        ("sessionFamilyId", JStr (ca_sessionFamilyId a))]%string.

Definition set_binding_tag (t : string) (a : PresenceClientAuthority) : PresenceClientAuthority :=
  {| ca_coreId := ca_coreId a; ca_homeId := ca_homeId a; ca_accountId := ca_accountId a;
     ca_sessionFamilyId := ca_sessionFamilyId a; ca_routeId := ca_routeId a; ca_homeRevision := ca_homeRevision a;
     ca_accountRevision := ca_accountRevision a; ca_clientSessionRevision := ca_clientSessionRevision a;
     ca_routeRevision := ca_routeRevision a; ca_bindingTag := t |}.

(** [_client_authority] *)
Definition client_authority (principal : Principal) (row : user_row) (b : PresenceRouteBinding) (s : presence_state)
  : res PresenceClientAuthority :=
  let a :=
    {| ca_coreId := coreId; ca_homeId := homeId; ca_accountId := p_id principal;
       ca_sessionFamilyId := p_family_id principal; ca_routeId := bd_routeId b; ca_homeRevision := home_revision s;
       ca_accountRevision := u_revision row; ca_clientSessionRevision := bd_clientSessionRevision b;
       ca_routeRevision := bd_routeRevision b; ca_bindingTag := "" |} in
  model_validate (Shaped (set_binding_tag (binding_tag (authority_json a)) a)).

(** [_verify_authority] *)
Definition verify_authority (e : presence_env) (principal : Principal) (r : raw PresenceClientAuthority)
    (s : presence_state) (w : presence_world) : res (PresenceClientAuthority * user_row) :=
  a ← model_validate r;
  row ← presence_actor e principal w;
  _ ← raise_if ((ca_coreId a, ca_homeId a) <> (coreId, homeId)) (ApiError "not_found" 404);
  _ ← raise_if ((ca_accountId a, ca_sessionFamilyId a, ca_homeRevision a, ca_accountRevision a) <>
                (p_id principal, p_family_id principal, home_revision s, u_revision row))
        (ApiError "revision_conflict" 409);
  _ ← raise_if (ca_bindingTag a <> binding_tag (authority_json a)) (ApiError "revision_conflict" 409);
  Ok (a, row).

(** [self.auth.rate_limit([(category, principal.id, limit)])] *)
Definition limited (e : presence_env) (principal : Principal) (category : string) (limit : Z)
  : M presence_world unit := fun w =>
  match rate_limit rate_key (pn_auth e) [(category, u (p_id principal), limit)] (pw_auth w) with
  | (r, d) => (r, {| pw_row := pw_row w; pw_auth := d |})
  end.

(** [scope_authority] *)
Definition scope_authority (e : presence_env) (principal : Principal) (core_id home_id : string)
    (rb : raw PresenceRouteBinding) : M presence_world PresenceClientAuthority :=
  _ ← lift (check_scope core_id home_id);
  b ← lift (model_validate rb);
  s ← sync;
  w ← get_state;
  row ← lift (presence_actor e principal w);
  lift (client_authority principal row b s).

(** ** Devices *)

(** The estimate of a device that was just registered. *)
Definition registered_estimate (p : PresencePolicy) (before : Z) : PresenceEstimate :=
  let d := pp_device p in
  {| pe_estimateId := String.substring 0 32
       (_digest (JObj [("deviceId", JStr (pd_deviceId d)); ("registered", JInt (before + 1))]%string));
     pe_coreId := pp_coreId p; pe_homeId := pp_homeId p; pe_homeRevision := pp_homeRevision p;
     pe_deviceId := pd_deviceId d; pe_deviceRevision := pd_deviceRevision d; pe_modelId := pd_modelId d;
     pe_modelRevision := pd_modelRevision d; pe_policyId := pp_policyId p; pe_policyRevision := pp_policyRevision p;
     pe_consentId := pd_consentId d; pe_consentRevision := pd_consentRevision d; pe_status := PUnknown;
     pe_roomId := None; pe_roomRevision := None; pe_confidencePermille := 0; pe_observedAtMs := 0;
     pe_sampleCount := 0; pe_transitionRevision := 0 |}.

(** The comprehension over [room_names.items()]. *)
Definition safe_names (l : list (string * ustr)) : res (list (string * ustr)) :=
  fold_res (fun acc kv => n ← safe_name kv.2; Ok (dict_set acc kv.1 n)) [] l.

(** [register_local] *)
Definition register_local (e : presence_env) (principal : Principal) (raw_policy : raw PresencePolicy)
    (r : raw registration) : M presence_world unit :=
  p ← lift (model_validate raw_policy);
  _ ← lift (check_scope (pp_coreId p) (pp_homeId p));
  w ← get_state;
  row ← lift (presence_actor e principal w);
  _ ← lift (raise_if (u_role row <> Admin) (ApiError "forbidden" 403));
  let invalid := ApiError "invalid_request" 400 in
  r ← lift (match r with Malformed => Raise invalid | Shaped r => Ok r end);
  '(name, names) ← lift (except_value_error
    (name ← safe_name (rg_device_name r); names ← safe_names (rg_room_names r); Ok (name, names)) invalid);
  _ ← lift (raise_if (~ same_set (dict_keys names) (room_ids p)) invalid);
  s ← sync;
  let id := pd_deviceId (pp_device p) in
  _ ← lift (raise_if (id ∉ dict_keys (ps_devices s) /\ Z.of_nat (length (ps_devices s)) >= MAX_DEVICES)
              (ApiError "revision_conflict" 409));
  _ ← lift (raise_if (Exists (fun kv => pp_homeRevision (dr_policy kv.2) <> pp_homeRevision p) (ps_devices s))
              (ApiError "revision_conflict" 409));
  let before := ps_revision s in
  estimate ← lift (model_validate (Shaped (registered_estimate p before)));
  let s := set_device id
    {| dr_policy := p; dr_deviceName := name; dr_roomNames := names;
       dr_providerReachable := rg_provider_reachable r; dr_calibrationRevision := 1; dr_estimate := estimate;
       dr_fusion := snapshot_state no_presence |} s in
  persist_or_sync e (next_revision s) before.

(** [_authority_for_fusion] *)
Definition fusion_authority (principal : Principal) (row : user_row) (p : PresencePolicy) : PresenceAuthority :=
  {| pa_coreId := pp_coreId p; pa_homeId := pp_homeId p; pa_homeRevision := pp_homeRevision p;
     pa_accountId := p_id principal; pa_accountRevision := u_revision row;
     pa_sessionFamilyId := p_family_id principal; pa_active := true; pa_canReadPresence := true;
     pa_canManagePresence := bool_decide (u_role row = Admin) |}.

(** The engine's [fuse] under the resolvers that [fuse_local] gives it. *)
Definition fuse_here (a : PresenceAuthority) (p : PresencePolicy) (rl : list (raw PrivatePresenceSignal)) (now : Z)
  : M RoomPresenceFusion PresenceEstimate :=
  fuse _digest
    (fun account => if decide (account = pa_accountId a) then Resolved (Shaped a) else ResolvedNone)
    (fun policy_id => if decide (policy_id = pp_policyId p) then Resolved (Shaped p) else ResolvedNone)
    MAX_SOURCE_CHECKPOINTS (Shaped a) (Shaped p) rl now.

(** [fuse_local] *)
Definition fuse_local (e : presence_env) (principal : Principal) (policy_id : string)
    (rl : list (raw PrivatePresenceSignal)) (now : Z) : M presence_world PresenceEstimate :=
  s ← sync;
  w ← get_state;
  row ← lift (presence_actor e principal w);
  kv ← lift (require_some (head (filter (fun kv => pp_policyId (dr_policy kv.2) = policy_id) (ps_devices s)))
               (ApiError "not_found" 404));
  p ← lift (model_validate (Shaped (dr_policy kv.2)));
  engine ← lift (engine_of (dr_fusion kv.2));
  a ← lift (model_validate (Shaped (fusion_authority principal row p)));
  let fused := fuse_here a p rl now engine in
  estimate ← lift fused.1;
  let s' := set_device kv.1 (set_estimate estimate (snapshot_state fused.2) kv.2) s in
  _ ← persist_or_sync e (next_revision s') (ps_revision s);
  mret estimate.

(** The room that [_view] calls configured. *)
Definition configured_room (p : PresencePolicy) (e : PresenceEstimate) : res PresenceRoom :=
  first ← require_some (head (pp_rooms p)) (PyError "IndexError");
  let wanted := default (pr_roomId first) (pe_roomId e) in
  Ok (default first (head (filter (fun r => pr_roomId r = wanted) (pp_rooms p)))).

(** [PresenceDeviceView(...)] *)
Definition validate_view (v : PresenceDeviceView) : res PresenceDeviceView :=
  let label_ok s := raise_if (str_strip s = [] \/ Exists is_control (str_strip s)) (ValueError "invalid_label") in
  _ ← raise_if (~ view_fields_valid v) (ValueError "validation_error");
  _ ← label_ok (vw_deviceName v);
  _ ← label_ok (vw_configuredRoomName v);
  _ ← raise_if (~ coherent_room v) (ValueError "validation_error");
  Ok {| vw_authority := vw_authority v; vw_deviceId := vw_deviceId v; vw_deviceName := str_strip (vw_deviceName v);
        vw_deviceRevision := vw_deviceRevision v; vw_modelRevision := vw_modelRevision v;
        vw_policyRevision := vw_policyRevision v; vw_consentRevision := vw_consentRevision v;
        vw_consentActive := vw_consentActive v; vw_configuredRoomId := vw_configuredRoomId v;
        vw_configuredRoomName := str_strip (vw_configuredRoomName v);
        vw_configuredRoomRevision := vw_configuredRoomRevision v; vw_detectedRoomId := vw_detectedRoomId v;
        vw_detectedRoomRevision := vw_detectedRoomRevision v; vw_estimateRevision := vw_estimateRevision v;
        vw_transitionRevision := vw_transitionRevision v; vw_calibrationRevision := vw_calibrationRevision v;
        vw_state := vw_state v; vw_confidencePermille := vw_confidencePermille v;
        vw_sampleCount := vw_sampleCount v; vw_observedAtMs := vw_observedAtMs v;
        vw_providerReachable := vw_providerReachable v |}.

(** What a view says before it is validated. *)
Definition view_of (a : PresenceClientAuthority) (r : device_record) (room : PresenceRoom) (room_name : ustr)
  : PresenceDeviceView :=
  let p := dr_policy r in
  let e := dr_estimate r in
  {| vw_authority := a; vw_deviceId := pd_deviceId (pp_device p); vw_deviceName := dr_deviceName r;
     vw_deviceRevision := pd_deviceRevision (pp_device p); vw_modelRevision := pd_modelRevision (pp_device p);
     vw_policyRevision := pp_policyRevision p; vw_consentRevision := pd_consentRevision (pp_device p);
     vw_consentActive := pd_consentActive (pp_device p); vw_configuredRoomId := pr_roomId room;
     vw_configuredRoomName := room_name; vw_configuredRoomRevision := pr_roomRevision room;
     vw_detectedRoomId := pe_roomId e; vw_detectedRoomRevision := pe_roomRevision e;
     vw_estimateRevision := pe_estimateId e; vw_transitionRevision := pe_transitionRevision e;
     vw_calibrationRevision := dr_calibrationRevision r; vw_state := pe_status e;
     vw_confidencePermille := pe_confidencePermille e; vw_sampleCount := pe_sampleCount e;
     vw_observedAtMs := pe_observedAtMs e; vw_providerReachable := dr_providerReachable r |}.

(** [_view] *)
Definition device_view (a : PresenceClientAuthority) (r : device_record) : res PresenceDeviceView :=
  p ← model_validate (Shaped (dr_policy r));
  e ← model_validate (Shaped (dr_estimate r));
  room ← configured_room p e;
  name ← require_some (dict_get (dr_roomNames r) (pr_roomId room)) KeyError;
  validate_view (view_of a r room name).

(** The order of [sorted(dict.items())]. *)
Definition key_le {V} (a b : string * V) : Prop := str_le a.1 b.1.
#[export] Instance key_le_dec {V} (a b : string * V) : Decision (key_le a b).
Proof. unfold key_le. apply _. Defined.

(** [list_devices] *)
Definition list_devices (e : presence_env) (principal : Principal) (core_id home_id : string)
    (ra : raw PresenceClientAuthority) : M presence_world PresenceDevicePage :=
  _ ← lift (check_scope core_id home_id);
  _ ← limited e principal "room_presence_read" 120;
  s ← sync;
  w ← get_state;
  '(a, _) ← lift (verify_authority e principal ra s w);
  devices ← lift (fold_res (fun acc kv => v ← device_view a kv.2; Ok (acc ++ [v])) []
                    (py_sorted key_le (ps_devices s)));
  _ ← lift (raise_if (Z.of_nat (length devices) > 100) (ValueError "validation_error"));
  mret {| pg_authority := a; pg_devices := devices |}.

(** [readback] *)
Definition readback (e : presence_env) (principal : Principal) (core_id home_id device_id : string)
    (ra : raw PresenceClientAuthority) : M presence_world PresenceDeviceView :=
  page ← list_devices e principal core_id home_id ra;
  lift (match filter (fun v => vw_deviceId v = device_id) (pg_devices page) with
        | [v] => Ok v
        | _ => Raise (ApiError "not_found" 404)
        end).

(** ** Calibration *)

Definition find_room (p : PresencePolicy) (id : string) : option PresenceRoom :=
  head (filter (fun r => pr_roomId r = id) (pp_rooms p)).

(** The revisions a calibration binds. *)
Definition bound_revisions (p : PresencePolicy) (room : PresenceRoom) (r : device_record) : list Z :=
  [pd_deviceRevision (pp_device p); pd_modelRevision (pp_device p); pr_roomRevision room; pp_policyRevision p;
   pd_consentRevision (pp_device p); dr_calibrationRevision r].
Definition expected_revisions (c : CalibrationPreviewCommand) : list Z :=
  [cc_expectedDeviceRevision c; cc_expectedModelRevision c; cc_expectedRoomRevision c; cc_expectedPolicyRevision c;
   cc_expectedConsentRevision c; cc_expectedCalibrationRevision c].
Definition previewed_revisions (c : CalibrationPreview) : list Z :=
  [cp_deviceRevision c; cp_modelRevision c; cp_roomRevision c; cp_policyRevision c; cp_consentRevision c;
   cp_previousCalibrationRevision c].

Definition new_preview (request_id : string) (now_ms : Z) (a : PresenceClientAuthority) (device_id : string)
    (p : PresencePolicy) (room : PresenceRoom) (r : device_record) : CalibrationPreview :=
  {| cp_authority := a; cp_requestId := request_id; cp_deviceId := device_id;
     cp_deviceRevision := pd_deviceRevision (pp_device p); cp_modelRevision := pd_modelRevision (pp_device p);
     cp_roomId := pr_roomId room; cp_roomRevision := pr_roomRevision room; cp_policyRevision := pp_policyRevision p;
     cp_consentRevision := pd_consentRevision (pp_device p); cp_previousCalibrationRevision := dr_calibrationRevision r;
     cp_nextCalibrationRevision := dr_calibrationRevision r + 1; cp_expiresAtMs := now_ms + 120000 |}.

(** [preview] *)
Definition preview (e : presence_env) (principal : Principal) (core_id home_id device_id : string)
    (rc : raw CalibrationPreviewCommand) : M presence_world CalibrationPreview :=
  _ ← lift (check_scope core_id home_id);
  c ← lift (model_validate rc);
  _ ← lift (raise_if (cc_deviceId c <> device_id) (ApiError "invalid_request" 400));
  _ ← limited e principal "room_presence_write" 30;
  s ← sync;
  w ← get_state;
  '(a, row) ← lift (verify_authority e principal (Shaped (cc_authority c)) s w);
  _ ← lift (raise_if (u_role row <> Admin) (ApiError "forbidden" 403));
  r ← lift (require_some (dict_get (ps_devices s) device_id) (ApiError "not_found" 404));
  p ← lift (model_validate (Shaped (dr_policy r)));
  room ← lift (require_some (find_room p (cc_roomId c)) (ApiError "not_found" 404));
  _ ← lift (raise_if (expected_revisions c <> bound_revisions p room r \/ pp_active p = false \/
                      pd_consentActive (pp_device p) = false) (ApiError "revision_conflict" 409));
  let now_ms := pn_now_ms e in
  let previews := filter (fun kv => cp_expiresAtMs kv.2 > now_ms) (ps_previews s) in
  _ ← lift (raise_if (Z.of_nat (length previews) >= MAX_RECEIPTS) (ApiError "revision_conflict" 409));
  answer ← lift (model_validate (Shaped (new_preview (pn_token e) now_ms a device_id p room r)));
  let s' := set_previews (dict_set previews (pn_token e) answer) s in
  _ ← persist_or_sync e (next_revision s') (ps_revision s);
  mret answer.

Definition new_receipt (request_id : string) (c : CalibrationPreview) : CalibrationReceipt :=
  {| ct_authority := cp_authority c; ct_requestId := request_id; ct_deviceId := cp_deviceId c;
     ct_deviceRevision := cp_deviceRevision c; ct_modelRevision := cp_modelRevision c; ct_roomId := cp_roomId c;
     ct_roomRevision := cp_roomRevision c; ct_policyRevision := cp_policyRevision c;
     ct_consentRevision := cp_consentRevision c;
     ct_previousCalibrationRevision := cp_previousCalibrationRevision c;
     ct_observedCalibrationRevision := Some (cp_nextCalibrationRevision c); ct_status := Applied |}.

(** [exact and policy.active and policy.device.consentActive] *)
Definition still_exact (p : PresencePolicy) (r : device_record) (c : CalibrationPreview) : Prop :=
  match find_room p (cp_roomId c) with
  | Some room => bound_revisions p room r = previewed_revisions c
  | None => False
  end /\ pp_active p = true /\ pd_consentActive (pp_device p) = true.
#[export] Instance still_exact_dec p r c : Decision (still_exact p r c).
Proof. unfold still_exact. destruct (find_room p (cp_roomId c)); apply _. Defined.

(** The end of [confirm], for a preview that has no receipt. *)
Definition apply_calibration (e : presence_env) (request_id : string) (c : CalibrationPreview) (s : presence_state)
  : M presence_world CalibrationReceipt :=
  let conflict := ApiError "revision_conflict" 409 in
  _ ← lift (raise_if (cp_expiresAtMs c <= pn_now_ms e) conflict);
  r ← lift (require_some (dict_get (ps_devices s) (cp_deviceId c)) (ApiError "not_found" 404));
  p ← lift (model_validate (Shaped (dr_policy r)));
  _ ← lift (raise_if (~ still_exact p r c) conflict);
  receipt ← lift (model_validate (Shaped (new_receipt request_id c)));
  _ ← lift (raise_if (Z.of_nat (length (ps_receipts s)) >= MAX_RECEIPTS) conflict);
  let s' := set_receipt request_id receipt
              (set_device (cp_deviceId c) (set_calibration (cp_nextCalibrationRevision c) r) s) in
  _ ← persist_or_sync e (next_revision s') (ps_revision s);
  mret receipt.

(** [confirm] *)
Definition confirm (e : presence_env) (principal : Principal) (core_id home_id request_id : string)
    (rp : raw CalibrationPreview) : M presence_world CalibrationReceipt :=
  _ ← lift (check_scope core_id home_id);
  c ← lift (model_validate rp);
  _ ← lift (raise_if (cp_requestId c <> request_id) (ApiError "invalid_request" 400));
  _ ← limited e principal "room_presence_write" 30;
  s ← sync;
  w ← get_state;
  _ ← lift (verify_authority e principal (Shaped (cp_authority c)) s w);
  let conflict := ApiError "idempotency_conflict" 409 in
  stored ← lift (require_some (dict_get (ps_previews s) request_id) conflict);
  stored ← lift (model_validate (Shaped stored));
  _ ← lift (raise_if (stored <> c) conflict);
  match dict_get (ps_receipts s) request_id with
  | Some replay =>
      receipt ← lift (model_validate (Shaped replay));
      _ ← lift (raise_if (ct_authority receipt <> cp_authority c) conflict);
      mret receipt
  | None => apply_calibration e request_id c s
  end.
End repository.

(** ** The order of keys *)

#[export] Instance key_le_total {V} : Total (@key_le V).
Proof. intros a b. apply (total str_le). Qed.
#[export] Instance key_le_trans {V} : Transitive (@key_le V).
Proof. intros a b c. apply (transitivity (R := str_le)). Qed.

Section sorted_keys.
Context {V : Type}.
Implicit Types d : list (string * V).

Lemma dict_get_perm d d' k : NoDup (dict_keys d) -> d ≡ₚ d' -> dict_get d k = dict_get d' k.
Proof.
  intros Hn Hp. assert (Hn' : NoDup (dict_keys d')) by (unfold dict_keys in *; by rewrite <- Hp).
  destruct (dict_get d k) as [v|] eqn:E; symmetry.
  - apply dict_elem_get; [done|]. rewrite <- Hp. by apply dict_get_elem.
  - apply dict_get_None. apply dict_get_None in E. unfold dict_keys in *. by rewrite <- Hp.
Qed.

Lemma sorted_keys_perm d : dict_keys (py_sorted key_le d) ≡ₚ dict_keys d.
Proof. unfold dict_keys. by rewrite py_sorted_perm. Qed.
Lemma sorted_nodup d : NoDup (dict_keys d) -> NoDup (dict_keys (py_sorted key_le d)).
Proof. by rewrite sorted_keys_perm. Qed.
Lemma sorted_get d k : NoDup (dict_keys d) -> dict_get (py_sorted key_le d) k = dict_get d k.
Proof. intros Hn. symmetry. apply dict_get_perm; [done|]. symmetry. apply py_sorted_perm. Qed.
Lemma sorted_forall (P : string * V -> Prop) d : Forall P d -> Forall P (py_sorted key_le d).
Proof. by rewrite py_sorted_perm. Qed.

(** Sorting looks at the keys alone. *)
Lemma sorted_fmap {W} (f : string * V -> string * W) d :
  (forall kv, (f kv).1 = kv.1) -> py_sorted key_le (f <$> d) = f <$> py_sorted key_le d.
Proof.
  intros Hf. induction d as [|kv d IH]; [done|]. rewrite fmap_cons. cbn [py_sorted foldr].
  change (foldr (insert_sorted key_le) [] (f <$> d)) with (py_sorted key_le (f <$> d)). rewrite IH.
  change (foldr (insert_sorted key_le) [] d) with (py_sorted key_le d). clear IH.
  induction (py_sorted key_le d) as [|x l IH]; [done|]. rewrite fmap_cons. cbn [insert_sorted].
  assert (key_le (f kv) (f x) <-> key_le kv x) as Hle by (unfold key_le; by rewrite !Hf).
  destruct (decide (key_le (f kv) (f x))), (decide (key_le kv x)); try tauto.
  rewrite fmap_cons. by f_equal.
Qed.
End sorted_keys.

(** ** What is read back *)

(** The value with the keys of every object in order. *)
Fixpoint json_sorted (v : jval) : jval :=
  match v with
  | JList l => JList (map json_sorted l)
  | JObj l => JObj (py_sorted key_le (map (fun kv => (kv.1, json_sorted kv.2)) l))
  | v => v
  end.

Definition canonical_device (r : device_record) : device_record :=
  {| dr_policy := dr_policy r; dr_deviceName := dr_deviceName r; dr_roomNames := py_sorted key_le (dr_roomNames r);
     dr_providerReachable := dr_providerReachable r; dr_calibrationRevision := dr_calibrationRevision r;
     dr_estimate := dr_estimate r; dr_fusion := json_sorted (dr_fusion r) |}.
Definition canonical (s : presence_state) : presence_state :=
  {| ps_revision := ps_revision s;
     ps_devices := py_sorted key_le ((fun kv => (kv.1, canonical_device kv.2)) <$> ps_devices s);
     ps_previews := py_sorted key_le (ps_previews s); ps_receipts := py_sorted key_le (ps_receipts s) |}.

(** ** Engines up to the order of their checkpoints *)

Definition with_checkpoints (l : list (string * Z)) (s : RoomPresenceFusion) : RoomPresenceFusion :=
  {| pf_bound_scope := pf_bound_scope s; pf_current_room := pf_current_room s;
     pf_candidate_room := pf_candidate_room s; pf_candidate_count := pf_candidate_count s;
     pf_exit_count := pf_exit_count s; pf_transition_revision := pf_transition_revision s;
     pf_last_observations := l |}.

Definition engine_equiv (s t : RoomPresenceFusion) : Prop :=
  exists l, t = with_checkpoints l s /\ pf_last_observations s ≡ₚ l.
#[export] Instance engine_equiv_equivalence : Equivalence engine_equiv.
Proof.
  split.
  - intros s. exists (pf_last_observations s). by destruct s.
  - intros s t (l & -> & Hl). exists (pf_last_observations s). split; [by destruct s|done].
  - intros s t v (l & -> & Hl) (l' & -> & Hl'). exists l'. split; [done|]. by etrans.
Qed.

Definition sorted_engine (s : RoomPresenceFusion) : RoomPresenceFusion :=
  with_checkpoints (py_sorted key_le (pf_last_observations s)) s.
Lemma sorted_engine_equiv s : engine_equiv s (sorted_engine s).
Proof. eexists. split; [done|]. symmetry. apply py_sorted_perm. Qed.

Lemma sorted_engine_sound n s : engine_sound n s -> engine_sound n (sorted_engine s).
Proof.
  intros (H1 & H2 & H3 & H4 & H5 & H6 & H7 & H8 & H9). unfold engine_sound. cbn.
  split_and!; try done; try lia; [by apply sorted_nodup|by apply sorted_forall|by rewrite py_sorted_length].
Qed.

Lemma scope_item_sorted l : map json_sorted (scope_item_json <$> l) = scope_item_json <$> l.
Proof. induction l as [|[] l IH]; cbn; by rewrite ?IH. Qed.
Lemma optional_sorted o : json_sorted (optional_json o) = optional_json o.
Proof. by destruct o. Qed.

(** The fields of a snapshot in the order of their keys. *)
Definition snapshot_sorted (s : RoomPresenceFusion) : jval :=
  JObj [("boundScope", match pf_bound_scope s with
                       | Some ((_ :: _) as scope) => JList (scope_item_json <$> scope)
                       | _ => JNull
                       end);
        ("candidateCount", JInt (pf_candidate_count s)); ("candidateRoom", optional_json (pf_candidate_room s));
        ("currentRoom", optional_json (pf_current_room s)); ("exitCount", JInt (pf_exit_count s));
        ("observationCheckpoints", JObj ((fun kv => (kv.1, JInt kv.2)) <$> pf_last_observations s));
        ("schemaVersion", JInt 1); ("transitionRevision", JInt (pf_transition_revision s))]%string.

Lemma json_sorted_snapshot s : json_sorted (snapshot_state s) = snapshot_sorted (sorted_engine s).
Proof.
  unfold snapshot_state, snapshot_sorted. cbn [pf_bound_scope pf_current_room pf_candidate_room pf_candidate_count
    pf_exit_count pf_transition_revision pf_last_observations sorted_engine with_checkpoints].
  rewrite <- (sorted_fmap (fun kv : string * Z => (kv.1, JInt kv.2))) by done.
  set (scope := match pf_bound_scope s with Some ((_ :: _) as scope) => _ | _ => _ end).
  set (checkpoints := (fun kv : string * Z => (kv.1, JInt kv.2)) <$> pf_last_observations s).
  assert (Hs : json_sorted scope = scope).
  { unfold scope. destruct (pf_bound_scope s) as [[|i l]|]; [done| |done].
    cbn [json_sorted]. by rewrite scope_item_sorted. }
  assert (Hc : map (fun kv => (kv.1, json_sorted kv.2)) checkpoints = checkpoints).
  { unfold checkpoints. induction (pf_last_observations s) as [|kv l IH]; cbn; by rewrite ?IH. }
  transitivity (JObj (py_sorted key_le [("schemaVersion", JInt 1); ("boundScope", json_sorted scope);
    ("currentRoom", json_sorted (optional_json (pf_current_room s)));
    ("candidateRoom", json_sorted (optional_json (pf_candidate_room s)));
    ("candidateCount", JInt (pf_candidate_count s)); ("exitCount", JInt (pf_exit_count s));
    ("transitionRevision", JInt (pf_transition_revision s));
    ("observationCheckpoints", JObj (py_sorted key_le (map (fun kv => (kv.1, json_sorted kv.2)) checkpoints)))]%string));
    [reflexivity|].
  rewrite Hs, !optional_sorted, Hc. reflexivity.
Qed.

Lemma raise_if_iff P Q `{Decision P, Decision Q} e : (P <-> Q) -> raise_if P e = raise_if Q e.
Proof. intros HPQ. unfold raise_if. destruct (decide P), (decide Q); tauto. Qed.

(** The checks of [restore_state] read the fields by name. *)
Lemma fusion_of_json_perm n l l' :
  NoDup (dict_keys l) -> l ≡ₚ l' -> fusion_of_json n (JObj l) = fusion_of_json n (JObj l').
Proof.
  intros Hn Hp.
  assert (Hk : dict_keys l ≡ₚ dict_keys l') by (unfold dict_keys; by rewrite Hp).
  assert (Hc : ~ (dict_keys l ⊆ fusion_keys /\ fusion_keys ⊆ dict_keys l) <->
               ~ (dict_keys l' ⊆ fusion_keys /\ fusion_keys ⊆ dict_keys l')).
  { split; intros Hno [H1 H2]; apply Hno; split; intros k Hx; [apply H1|rewrite Hk; by apply H2|apply H1|].
    - by rewrite <- Hk.
    - by rewrite Hk.
    - rewrite <- Hk. by apply H2. }
  assert (Hg : forall k, dict_get l k = dict_get l' k) by (intros; by apply dict_get_perm).
  unfold fusion_of_json. cbv zeta beta. cbn [mbind res_bind]. rewrite !Hg. by rewrite (raise_if_iff _ _ _ Hc).
Qed.

(** A stored value that holds an engine, as it was written or as it was read. *)
Definition stores (v : jval) (e : RoomPresenceFusion) : Prop := v = snapshot_state e \/ v = snapshot_sorted e.

Lemma json_sorted_again e : json_sorted (snapshot_sorted e) = json_sorted (snapshot_state e).
Proof.
  unfold snapshot_state, snapshot_sorted. cbn [json_sorted]. reflexivity.
Qed.
Lemma stores_sorted v e : stores v e -> stores (json_sorted v) (sorted_engine e).
Proof. right. destruct H as [->| ->]; [|rewrite json_sorted_again]; apply json_sorted_snapshot. Qed.

Definition kept_engine (e : RoomPresenceFusion) : Prop :=
  engine_sound MAX_SOURCE_CHECKPOINTS e /\ pf_transition_revision e <= MAX_REVISION.

Lemma engine_of_stored v e : kept_engine e -> stores v e -> engine_of v = Ok e.
Proof.
  unfold engine_of. intros [He Ht] Hv.
  rewrite <- (snapshot_restored MAX_SOURCE_CHECKPOINTS e) by done. destruct Hv as [->| ->]; [done|].
  symmetry. apply fusion_of_json_perm; unfold snapshot_state.
  - cbn. apply (bool_decide_unpack (NoDup _)). by vm_compute.
  - etrans; [symmetry; apply (py_sorted_perm key_le)|]. reflexivity.
Qed.

(** *** The engine reads its checkpoints by name *)

Lemma dict_perm_of_get {V} (d d' : list (string * V)) :
  NoDup (dict_keys d) -> NoDup (dict_keys d') -> (forall k, dict_get d k = dict_get d' k) -> d ≡ₚ d'.
Proof.
  intros Hn Hn' Hg. apply NoDup_Permutation.
  - by eapply NoDup_fmap_1.
  - by eapply NoDup_fmap_1.
  - intros [k v]. split; intros Hin; apply dict_get_elem; [rewrite <- Hg|rewrite Hg]; by apply dict_elem_get.
Qed.

Lemma dict_update_perm {V} (ck d d' : list (string * V)) :
  NoDup (dict_keys d) -> d ≡ₚ d' -> dict_update d ck ≡ₚ dict_update d' ck.
Proof.
  revert d d'. induction ck as [|[k v] ck IH] using rev_ind; intros d d' Hn Hp; [done|].
  rewrite !dict_update_snoc. cbn [fst snd]. specialize (IH d d' Hn Hp).
  assert (Hn' : NoDup (dict_keys d')) by (unfold dict_keys in *; by rewrite <- Hp).
  apply dict_perm_of_get; [by apply dict_set_nodup, dict_update_nodup..|].
  intros k'. rewrite !dict_get_set. case_decide; [done|]. apply dict_get_perm; [by apply dict_update_nodup|done].
Qed.

Section equivalence.
Variable _digest : jval -> string.
Variables (fa : string -> resolved PresenceAuthority) (fp : string -> resolved PresencePolicy).
Notation n := MAX_SOURCE_CHECKPOINTS.

Lemma check_batch_equiv s t ra rp rl now :
  NoDup (dict_keys (pf_last_observations s)) -> engine_equiv s t ->
  check_batch _digest fa fp n t ra rp rl now = check_batch _digest fa fp n s ra rp rl now.
Proof.
  intros Hn (l & -> & Hp). unfold check_batch. cbn [pf_bound_scope with_checkpoints pf_last_observations].
  assert (Hg : forall k, dict_get l k = dict_get (pf_last_observations s) k)
    by (intros; symmetry; by apply dict_get_perm).
  assert (Hk : forall k, k ∉ dict_keys l <-> k ∉ dict_keys (pf_last_observations s))
    by (intros; unfold dict_keys; by rewrite Hp).
  assert (Hs : forall p gs seen, fold_res (check_signal _digest p l) seen gs =
                                 fold_res (check_signal _digest p (pf_last_observations s)) seen gs).
  { intros p gs. induction gs as [|g gs IH]; intros seen; [done|]. cbn [fold_res].
    assert (check_signal _digest p l seen g = check_signal _digest p (pf_last_observations s) seen g) as ->
      by (unfold check_signal; by rewrite Hg). destruct (check_signal _ _ _ _ _); [apply IH|done]. }
  repeat (match goal with |- (?m ≫= _) = (?m ≫= _) => destruct m as [?|?]; [|done]; cbn [mbind res_bind] end).
  rewrite Hs. destruct (fold_res _ _ _) as [seen|]; [|done]. cbn [mbind res_bind].
  rewrite (raise_if_iff _ (Z.of_nat (length (pf_last_observations s)) +
    Z.of_nat (length (filter (fun k => k ∉ dict_keys (pf_last_observations s)) seen)) > n)); [done|].
  by rewrite Hp, (list_filter_iff (fun k => k ∉ dict_keys l) _ seen Hk).
Qed.

Lemma observe_checkpoints p gs now l s :
  observe _digest p gs now (with_checkpoints l s) =
    ((observe _digest p gs now s).1, with_checkpoints l (observe _digest p gs now s).2).
Proof.
  unfold observe. destruct (py_max _) as [best|]; [|done].
  cbv beta iota delta [mbind M_bind get_state]. cbn [pf_current_room with_checkpoints].
  destruct (pf_current_room s) as [here|].
  - unfold observe_present. cbv zeta. case_decide.
    + cbv beta iota delta [mbind M_bind modify get_state lift]. cbn [pf_candidate_count advance_candidate
        pf_candidate_room with_checkpoints]. case_decide; [done|]. by destruct (known_room p here).
    + cbv beta iota delta [mbind M_bind modify get_state lift]. case_decide; [|done].
      cbn [pf_exit_count set_exit_count no_candidate with_checkpoints]. case_decide; [done|].
      by destruct (known_room p here).
  - unfold observe_absent. case_decide; [done|].
    cbv beta iota delta [mbind M_bind modify get_state]. cbn [pf_candidate_count advance_candidate pf_candidate_room
      with_checkpoints]. by case_decide.
Qed.

(** Equivalent engines give one answer and stay equivalent. *)
Lemma fuse_equiv s t ra rp rl now :
  NoDup (dict_keys (pf_last_observations s)) -> engine_equiv s t ->
  (fuse _digest fa fp n ra rp rl now t).1 = (fuse _digest fa fp n ra rp rl now s).1 /\
  engine_equiv (fuse _digest fa fp n ra rp rl now s).2 (fuse _digest fa fp n ra rp rl now t).2.
Proof.
  intros Hn Hst. pose proof (check_batch_equiv s t ra rp rl now Hn Hst) as Hc. unfold fuse.
  cbv beta iota delta [mbind M_bind get_state lift modify]. rewrite Hc.
  destruct (check_batch _ _ _ _ s _ _ _ _) as [[p gs]|x]; [|by split].
  destruct Hst as (l & -> & Hp). set (ck := _ <$> gs).
  assert (E : accept_batch (exact_scope p) ck (with_checkpoints l s) =
              with_checkpoints (dict_update l ck) (accept_batch (exact_scope p) ck s)) by done.
  rewrite E, observe_checkpoints. split; [done|]. eexists. split; [done|].
  transitivity (dict_update (pf_last_observations s) ck); [|by apply dict_update_perm].
  rewrite observe_state. by destruct (next_keeps p (fresh_of p now gs) (accept_batch (exact_scope p) ck s)) as [-> _].
Qed.
End equivalence.

(** ** What is stored *)

Section labels.
Context `{UnicodeData}.

Definition label_ok (v : ustr) : Prop := v <> [] /\ (length v <= 80)%nat /\ Forall (fun c => ~ is_control c) v /\ str_strip v = v.

Lemma safe_name_ok v v' : safe_name v = Ok v' -> v' = str_strip v /\ label_ok v'.
Proof.
  unfold safe_name. intros ([] & Hr & [= <-])%bind_ok. split; [done|].
  apply raise_if_ok in Hr as [H1 [H2 H3]%neither]%neither. destruct (str_strip_sub v) as (a & b & E).
  split; [done|]. split; [|split].
  - apply (f_equal length) in E. rewrite !length_app in E. lia.
  - apply Forall_forall. intros c Hc Hbad. apply H3, Exists_exists. exists c. split; [|done].
    rewrite E. set_solver.
  - apply str_strip_idem.
Qed.
Lemma label_is_safe v : label_ok v -> safe_name v = Ok v.
Proof.
  intros (H1 & H2 & H3 & H4). unfold safe_name. rewrite H4, raise_if_no; [done|].
  intros [?|[?|Hx]]; [done|lia|]. apply Exists_exists in Hx as (c & Hc & Hb). rewrite Forall_forall in H3. by eapply H3.
Qed.

Lemma safe_names_ok (l acc l' : list (string * ustr)) :
  fold_res (fun acc kv => n ← safe_name kv.2; Ok (dict_set acc kv.1 n)) acc l = Ok l' ->
  NoDup (dict_keys acc) -> Forall label_ok (dict_values acc) ->
  NoDup (dict_keys l') /\ Forall label_ok (dict_values l').
Proof.
  revert acc. induction l as [|kv l IH]; intros acc Hf Hn Hl; cbn in Hf; [by injection Hf as <-|].
  apply bind_ok in Hf as (acc' & (n & [_ Hok]%safe_name_ok & [= <-])%bind_ok & Hf).
  apply (IH _ Hf); [by apply dict_set_nodup|].
  apply Forall_forall. intros v (x & -> & Hx)%list_elem_of_fmap. destruct x as [k v]. cbn.
  apply dict_elem_get in Hx; [|by apply dict_set_nodup]. rewrite dict_get_set in Hx.
  case_decide; [by injection Hx as <-|]. rewrite Forall_forall in Hl. apply Hl, list_elem_of_fmap.
  exists (k, v). split; [done|]. by apply dict_get_elem.
Qed.
End labels.

Lemma one_revision l :
  ~ several_revisions l <-> exists h, Forall (fun kv => pp_homeRevision (dr_policy kv.2) = h) l.
Proof.
  destruct l as [|kv l]; cbn [several_revisions].
  - split; [intros _; by exists 0|tauto].
  - split.
    + intros Hn. eexists. constructor; [done|]. apply Forall_forall. intros x Hx. apply dec_stable. intros Hne.
      apply Hn, Exists_exists. by exists x.
    + intros (h & [Hh Hl]%Forall_cons) Hx. apply Exists_exists in Hx as (x & Hx & Hne).
      rewrite Forall_forall in Hl. apply Hne. rewrite Hh. by apply Hl.
Qed.

Section stored.
Context `{UnicodeData}.
Variable coreId homeId : string.

Record device_ok (id : string) (r : device_record) : Prop := {
  do_policy : PresencePolicy_valid (dr_policy r);
  do_id : id = pd_deviceId (pp_device (dr_policy r));
  do_home : (pp_coreId (dr_policy r), pp_homeId (dr_policy r)) = (coreId, homeId);
  do_name : label_ok (dr_deviceName r);
  do_rooms : same_set (dict_keys (dr_roomNames r)) (room_ids (dr_policy r));
  do_room_keys : NoDup (dict_keys (dr_roomNames r));
  do_room_names : Forall (fun kv => label_ok kv.2) (dr_roomNames r);
  do_calibration : Revision (dr_calibrationRevision r);
  do_estimate : PresenceEstimate_valid (dr_estimate r);
  do_engine : exists e, kept_engine e /\ stores (dr_fusion r) e;
}.

(** What every state that is stored satisfies. *)
Record state_inv (s : presence_state) : Prop := {
  si_revision : 0 <= ps_revision s <= MAX_REVISION;
  si_devices_few : Z.of_nat (length (ps_devices s)) <= MAX_DEVICES;
  si_previews_few : Z.of_nat (length (ps_previews s)) <= MAX_RECEIPTS;
  si_receipts_few : Z.of_nat (length (ps_receipts s)) <= MAX_RECEIPTS;
  si_device_keys : NoDup (dict_keys (ps_devices s));
  si_preview_keys : NoDup (dict_keys (ps_previews s));
  si_receipt_keys : NoDup (dict_keys (ps_receipts s));
  si_devices : Forall (fun kv => device_ok kv.1 kv.2) (ps_devices s);
  si_home : ~ several_revisions (ps_devices s);
  si_previews : Forall (fun kv => CalibrationPreview_valid kv.2 /\ cp_requestId kv.2 = kv.1 /\
                          cp_nextCalibrationRevision kv.2 = cp_previousCalibrationRevision kv.2 + 1) (ps_previews s);
  si_receipts : Forall (fun kv => CalibrationReceipt_valid kv.2 /\ ct_requestId kv.2 = kv.1) (ps_receipts s);
}.

Lemma device_validates kv : device_ok kv.1 kv.2 -> validate_device coreId homeId kv = Ok tt.
Proof.
  intros [H1 H2 H3 H4 H5 H6 H7 H8 H9 (e & He & Hs)]. unfold validate_device.
  rewrite (model_validate_valid (dr_policy kv.2)) by done. cbn [mbind res_bind].
  rewrite (raise_if_no (_ \/ _)) by naive_solver. cbn [mbind res_bind].
  rewrite label_is_safe by done. cbn [mbind res_bind].
  rewrite (raise_if_no (~ same_set _ _)) by tauto. cbn [mbind res_bind].
  assert (for_each (fun nv => _ ← safe_name nv.2; Ok tt) (dr_roomNames kv.2) = Ok tt) as ->.
  { apply for_each_ok. apply Forall_forall. intros x Hx. rewrite Forall_forall in H7.
    by rewrite label_is_safe by by apply H7. }
  cbn [mbind res_bind]. rewrite (raise_if_no (~ Revision _)) by tauto. cbn [mbind res_bind].
  rewrite model_validate_valid by done. cbn [mbind res_bind]. by rewrite (engine_of_stored _ e).
Qed.

Lemma for_each_done {A} (f : A -> res unit) l : Forall (fun x => f x = Ok tt) l -> for_each f l = Ok tt.
Proof. induction 1 as [|x l Hx Hl IH]; [done|]. cbn. by rewrite Hx. Qed.

Lemma state_validates s : state_inv s -> validate_state coreId homeId s = Ok s.
Proof.
  intros [H1 H2 H3 H4 H5 H6 H7 H8 H9 H10 H11]. unfold validate_state.
  rewrite (raise_if_no (~ _)) by lia. cbn [mbind res_bind]. rewrite (raise_if_no (_ > _ \/ _)) by lia. cbn [mbind res_bind].
  rewrite (for_each_done (validate_device coreId homeId)) by (eapply Forall_impl; [done|]; apply device_validates).
  cbn [mbind res_bind]. rewrite (raise_if_no (several_revisions _)) by done. cbn [mbind res_bind].
  rewrite (for_each_done _ (ps_previews s)); [|eapply Forall_impl; [exact H10|]; intros x (Hx & <- & _); cbv beta;
    rewrite model_validate_valid by done; cbn [mbind res_bind]; by rewrite raise_if_no by tauto].
  cbn [mbind res_bind].
  rewrite for_each_done; [done|]. eapply Forall_impl; [exact H11|]; intros x [Hx <-]; cbv beta.
  rewrite model_validate_valid by done. cbn [mbind res_bind]. by rewrite raise_if_no by tauto.
Qed.

Lemma canonical_device_ok id r : device_ok id r -> device_ok id (canonical_device r).
Proof.
  intros [H1 H2 H3 H4 H5 H6 H7 H8 H9 (e & [He Ht] & Hs)].
  split; cbn [canonical_device dr_policy dr_deviceName dr_roomNames dr_calibrationRevision dr_estimate dr_fusion];
    try done.
  - unfold same_set in *. by rewrite sorted_keys_perm.
  - by apply sorted_nodup.
  - by apply sorted_forall.
  - exists (sorted_engine e). split; [|by apply stores_sorted]. split; [by apply sorted_engine_sound|done].
Qed.

Lemma canonical_keys (l : list (string * device_record)) :
  dict_keys ((fun kv => (kv.1, canonical_device kv.2)) <$> l) = dict_keys l.
Proof. unfold dict_keys. rewrite <- list_fmap_compose. by apply list_fmap_ext. Qed.

Lemma canonical_inv s : state_inv s -> state_inv (canonical s).
Proof.
  intros [H1 H2 H3 H4 H5 H6 H7 H8 H9 H10 H11].
  split; cbn [canonical ps_revision ps_devices ps_previews ps_receipts];
    rewrite ?py_sorted_length, ?length_fmap; try done; try (by apply sorted_nodup); try (by apply sorted_forall).
  - apply sorted_nodup. by rewrite canonical_keys.
  - apply sorted_forall, Forall_fmap. eapply Forall_impl; [done|]. intros x Hx. by apply canonical_device_ok.
  - apply one_revision. apply one_revision in H9 as (h & Hh). exists h.
    apply sorted_forall, Forall_fmap. eapply Forall_impl; [done|]. by intros x Hx.
Qed.

Lemma canonical_device_get s id :
  state_inv s -> dict_get (ps_devices (canonical s)) id = canonical_device <$> dict_get (ps_devices s) id.
Proof.
  intros Hs. cbn [canonical ps_devices]. rewrite sorted_get by (rewrite canonical_keys; apply Hs).
  induction (ps_devices s) as [|[k r] l IH]; [done|]. cbn. by case_decide.
Qed.
Lemma canonical_preview_get s id : state_inv s -> dict_get (ps_previews (canonical s)) id = dict_get (ps_previews s) id.
Proof. intros Hs. apply sorted_get, Hs. Qed.
Lemma canonical_receipt_get s id : state_inv s -> dict_get (ps_receipts (canonical s)) id = dict_get (ps_receipts s) id.
Proof. intros Hs. apply sorted_get, Hs. Qed.

(** A label spells the word that the decoder refuses. *)
Definition raw_label (s : presence_state) : Prop :=
  Exists (fun kv => occurs RAW (dr_deviceName kv.2) = true \/
                    Exists (fun nv => occurs RAW nv.2 = true) (dr_roomNames kv.2)) (ps_devices s).
#[export] Instance raw_label_dec s : Decision (raw_label s).
Proof. unfold raw_label. apply _. Defined.

Lemma empty_presence_inv : state_inv empty_presence.
Proof. split; cbn; try done; try constructor; try (unfold MAX_REVISION, MAX_DEVICES, MAX_RECEIPTS; lia). Qed.
End stored.

Section store.
Context `{UnicodeData}.
Variable dump : presence_state -> res (list Z).
Variable load : list Z -> raw presence_state.
Variable encrypt : list Z -> list Z -> Z -> list Z.
Variable decrypt : list Z -> list Z -> Z -> option (list Z).
Variable _digest : jval -> string.
Variable binding_tag : jval -> string.
Variable rate_key : string -> list Z -> string.
Variable coreId homeId : string.

Notation inv := (state_inv coreId homeId).
Notation sync := (sync load decrypt coreId homeId).
Notation persist := (persist dump encrypt).
Notation persist_or_sync := (persist_or_sync dump load encrypt decrypt coreId homeId).
Notation register_local := (register_local dump load encrypt decrypt _digest coreId homeId).
Notation fuse_local := (fuse_local dump load encrypt decrypt _digest coreId homeId).
Notation scope_authority := (scope_authority load decrypt binding_tag coreId homeId).
Notation list_devices := (list_devices load decrypt binding_tag rate_key coreId homeId).
Notation readback := (readback load decrypt binding_tag rate_key coreId homeId).
Notation preview := (preview dump load encrypt decrypt binding_tag rate_key coreId homeId).
Notation confirm := (confirm dump load encrypt decrypt binding_tag rate_key coreId homeId).
Notation verify_authority := (verify_authority binding_tag coreId homeId).
Notation validate_storage := (validate_storage load decrypt coreId homeId).

(** json.loads of what json.dumps wrote, and where the word that the decoder
    refuses can stand in it: the keys of the document, its identifiers and its
    numbers do not spell it. *)
Hypothesis load_dump : forall s text, inv s -> dump s = Ok text -> load text = Shaped (canonical s).
Hypothesis dump_raw : forall s text, inv s -> dump s = Ok text -> (occurs RAW text = true <-> raw_label s).
(** AES-GCM: the tag is 16 bytes, and a row is opened with the key, nonce and
    address it was sealed with. *)
Hypothesis encrypt_length : forall nonce text rev, length (encrypt nonce text rev) = (length text + 16)%nat.
Hypothesis decrypt_encrypt : forall nonce text rev, decrypt nonce (encrypt nonce text rev) rev = Some text.
(** SHA-256 in hexadecimal. *)
Hypothesis digest_hex : forall v, is_hex 64 (_digest v).

(** The row that [persist] writes for a state. *)
Definition row_of (nonce text : list Z) (s : presence_state) : presence_row :=
  {| pw_revision := ps_revision s; pw_nonce := nonce; pw_ciphertext := encrypt nonce text (ps_revision s) |}.

(** The world holds the state. *)
Definition written (w : presence_world) (s : presence_state) : Prop :=
  inv s /\
  match pw_row w with
  | None => s = empty_presence
  | Some row => exists nonce text, length nonce = 12%nat /\ dump s = Ok text /\ Z.of_nat (length text) <= MAX_STATE_BYTES /\
                                   row = row_of nonce text s
  end.

Lemma sync_written w s :
  written w s ->
  sync w = (if decide (raw_label s) then Raise (ValueError "invalid_room_presence_state") else Ok (canonical s), w).
Proof.
  intros [Hs Hw]. unfold PresenceRepository.sync, mbind, M_bind, get_state, lift. f_equal. unfold sync_row.
  destruct (pw_row w) as [row|]; [|by subst]. destruct Hw as (nonce & text & Hn & Hd & Hlen & ->).
  pose proof (si_revision _ _ _ Hs). unfold decode_row. cbn [row_of pw_revision pw_nonce pw_ciphertext].
  rewrite raise_if_no by (rewrite encrypt_length; lia). cbn [mbind res_bind]. rewrite decrypt_encrypt. cbn [mbind res_bind require_some].
  pose proof (dump_raw s text Hs Hd) as Hraw. case_decide as Hl.
  - rewrite raise_if_yes by tauto. done.
  - rewrite raise_if_no by (intros [?|?]; [lia|tauto]). cbn [mbind res_bind]. rewrite (load_dump s text Hs Hd).
    rewrite state_validates by by apply canonical_inv. cbn [mbind res_bind]. by rewrite raise_if_no by naive_solver.
Qed.

Lemma sync_ok w s s' w' : written w s -> sync w = (Ok s', w') -> w' = w /\ s' = canonical s /\ ~ raw_label s.
Proof. intros Hw. rewrite (sync_written w s Hw). case_decide; intros [=]; naive_solver. Qed.
Lemma sync_state w : (sync w).2 = w.
Proof. done. Qed.
Lemma sync_keeps w r w' : sync w = (r, w') -> w' = w.
Proof. intros E. rewrite <- (sync_state w). by rewrite E. Qed.

Lemma canonical_raw s : raw_label (canonical s) <-> raw_label s.
Proof.
  unfold raw_label. cbn [canonical ps_devices]. rewrite py_sorted_perm, Exists_fmap.
  split; intros (kv & Hin & Hkv)%Exists_exists; apply Exists_exists; exists kv; (split; [done|]); revert Hkv; cbn;
    by rewrite py_sorted_perm.
Qed.

(** What [_persist] does: all of it or nothing. *)
Lemma persist_outcome e s before w r w' :
  persist_or_sync e s before w = (r, w') ->
  (exists x, r = Raise x /\ w' = w) \/
  (r = Ok tt /\ ps_revision s <= MAX_REVISION /\ pw_auth w' = pw_auth w /\
   (inv s -> length (pn_nonce e) = 12%nat -> written w' s)).
Proof.
  unfold PresenceRepository.persist_or_sync. destruct (persist e s before w) as [[[]|x] w1] eqn:E.
  - intros [= <- <-]. right. unfold PresenceRepository.persist in E.
    apply M_bind_ok in E as (text & w2 & [Ht ->]%lift_ok & E).
    apply M_bind_ok in E as ([] & w2 & [Hl%raise_if_ok ->]%lift_ok & E). rewrite transaction_ok in E.
    apply M_bind_ok in E as (w2 & w3 & Hg & E). injection Hg as <- <-.
    apply M_bind_ok in E as ([] & w2 & [_ ->]%lift_ok & E).
    apply M_bind_ok in E as ([] & w2 & [Hr%raise_if_ok ->]%lift_ok & E). injection E as <-.
    split; [done|]. split; [lia|]. split; [done|]. intros Hs Hn. split; [done|]. cbn. exists (pn_nonce e), text.
    do 2 (split; [done|]). split; [lia|done].
  - assert (w1 = w) as ->.
    { unfold PresenceRepository.persist in E.
      apply M_bind_raise in E as [E|(text & w2 & [_ ->]%lift_ok & E)]; [by apply lift_raise in E as [_ ->]|].
      apply M_bind_raise in E as [E|([] & w2 & [_ ->]%lift_ok & E)]; [by apply lift_raise in E as [_ ->]|].
      by apply transaction_raise in E. }
    destruct (sync w) as [[s'|y] w2] eqn:Es; apply sync_keeps in Es as ->; intros [= <- <-]; left; eauto.
Qed.

(** ** What an answer changes *)

(** What one answered call does to the document it read. *)
Inductive change (s : presence_state) : presence_state -> Prop :=
  | change_register p name names reachable :
      PresencePolicy_valid p -> (pp_coreId p, pp_homeId p) = (coreId, homeId) -> label_ok name ->
      same_set (dict_keys names) (room_ids p) -> NoDup (dict_keys names) -> Forall (fun kv => label_ok kv.2) names ->
      PresenceEstimate_valid (registered_estimate _digest p (ps_revision s)) ->
      (pd_deviceId (pp_device p) ∈ dict_keys (ps_devices s) \/ Z.of_nat (length (ps_devices s)) < MAX_DEVICES) ->
      Forall (fun kv => pp_homeRevision (dr_policy kv.2) = pp_homeRevision p) (ps_devices s) ->
      change s (next_revision (set_device (pd_deviceId (pp_device p))
        {| dr_policy := p; dr_deviceName := name; dr_roomNames := names; dr_providerReachable := reachable;
           dr_calibrationRevision := 1; dr_estimate := registered_estimate _digest p (ps_revision s);
           dr_fusion := snapshot_state no_presence |} s))
  | change_fuse id r e estimate :
      dict_get (ps_devices s) id = Some r -> kept_engine e -> PresenceEstimate_valid estimate ->
      change s (next_revision (set_device id (set_estimate estimate (snapshot_state e) r) s))
  | change_preview now id c :
      CalibrationPreview_valid c -> cp_requestId c = id ->
      cp_nextCalibrationRevision c = cp_previousCalibrationRevision c + 1 ->
      Z.of_nat (length (filter (fun kv => cp_expiresAtMs kv.2 > now) (ps_previews s))) < MAX_RECEIPTS ->
      change s (next_revision (set_previews
        (dict_set (filter (fun kv => cp_expiresAtMs kv.2 > now) (ps_previews s)) id c) s))
  | change_confirm id c r :
      dict_get (ps_previews s) id = Some c -> dict_get (ps_receipts s) id = None ->
      Z.of_nat (length (ps_receipts s)) < MAX_RECEIPTS -> CalibrationReceipt_valid (new_receipt id c) ->
      dict_get (ps_devices s) (cp_deviceId c) = Some r -> still_exact (dr_policy r) r c ->
      CalibrationPreview_valid c ->
      change s (next_revision (set_receipt id (new_receipt id c)
        (set_device (cp_deviceId c) (set_calibration (cp_nextCalibrationRevision c) r) s))).

Lemma set_device_forall (P : string * device_record -> Prop) l id r :
  NoDup (dict_keys l) -> Forall P l -> P (id, r) -> Forall P (dict_set l id r).
Proof.
  intros Hn Hl Hr. apply Forall_forall. intros [k v] Hx. apply dict_elem_get in Hx; [|by apply dict_set_nodup].
  rewrite dict_get_set in Hx. case_decide; [by simplify_eq|]. rewrite Forall_forall in Hl. by apply Hl, dict_get_elem.
Qed.

Lemma set_device_inv s id r :
  inv s -> 0 <= ps_revision s < MAX_REVISION -> device_ok coreId homeId id r ->
  Z.of_nat (length (dict_set (ps_devices s) id r)) <= MAX_DEVICES ->
  (exists h, Forall (fun kv => pp_homeRevision (dr_policy kv.2) = h) (ps_devices s) /\ pp_homeRevision (dr_policy r) = h) ->
  inv (next_revision (set_device id r s)).
Proof.
  intros [H1 H2 H3 H4 H5 H6 H7 H8 H9 H10 H11] Hrev Hr Hlen (h & Hh & Hrh). split; cbn; try done; try lia.
  - by apply dict_set_nodup.
  - by apply set_device_forall.
  - apply one_revision. exists h. by apply set_device_forall.
Qed.

Lemma known_device_length s id r r' :
  dict_get (ps_devices s) id = Some r -> length (dict_set (ps_devices s) id r') = length (ps_devices s).
Proof.
  intros Hr. rewrite dict_set_length, Hr. lia.
Qed.

(** A known device keeps its policy. *)
Lemma update_device_inv s id r r' :
  inv s -> 0 <= ps_revision s < MAX_REVISION -> dict_get (ps_devices s) id = Some r ->
  device_ok coreId homeId id r' -> dr_policy r' = dr_policy r -> inv (next_revision (set_device id r' s)).
Proof.
  intros Hs Hrev Hr Hok Hp. apply set_device_inv; [done..|by rewrite (known_device_length _ _ r); [apply Hs|]|].
  pose proof (si_home _ _ _ Hs) as (h & Hh)%one_revision. exists h. split; [done|]. rewrite Hp.
  rewrite Forall_forall in Hh. apply (Hh (id, r)). by apply dict_get_elem.
Qed.

Lemma device_get_ok s id r : inv s -> dict_get (ps_devices s) id = Some r -> device_ok coreId homeId id r.
Proof.
  intros Hs Hr%dict_get_elem. pose proof (si_devices _ _ _ Hs) as Hd. rewrite Forall_forall in Hd. by apply Hd in Hr.
Qed.

Lemma change_inv s s' : inv s -> change s s' -> ps_revision s' <= MAX_REVISION -> inv s'.
Proof.
  intros Hs Hc Hrev. assert (Hr0 : 0 <= ps_revision s < MAX_REVISION).
  { pose proof (si_revision _ _ _ Hs). split; [lia|]. destruct Hc; cbn in Hrev; lia. }
  clear Hrev. destruct Hc as [p name names reachable Hp Hh Hn Hrooms Hk Hl He Hfew Hone|id r e est Hr He Hest|now id c Hc Hid Hnx Hfew
    |id c r Hc Hnone Hfew Hv Hr Hex Hcv].
  - apply set_device_inv; [done..| | |].
    + split; cbn; try done. exists no_presence. split; [split|by left]; [|done].
      by apply engine_sound_start.
    + rewrite dict_set_length. pose proof (si_devices_few _ _ _ Hs). destruct (dict_get _ _) as [r|] eqn:E; [lia|].
      apply dict_get_None in E. destruct Hfew; [done|lia].
    + by exists (pp_homeRevision p).
  - apply (update_device_inv _ _ r); [done..| |done]. destruct (device_get_ok _ _ _ Hs Hr). split; cbn; try done.
    exists e. split; [done|by left].
  - destruct Hs as [H1 H2 H3 H4 H5 H6 H7 H8 H9 H10 H11].
    assert (Hn : NoDup (dict_keys (filter (fun kv => cp_expiresAtMs kv.2 > now) (ps_previews s)))).
    { eapply sublist_NoDup; [exact H6|]. apply fmap_sublist, sublist_filter. }
    split; cbn; try done; try lia.
    + rewrite dict_set_length. destruct (dict_get _ id); lia.
    + by apply dict_set_nodup.
    + apply Forall_forall. intros [k v] Hx. apply dict_elem_get in Hx; [|by apply dict_set_nodup].
      rewrite dict_get_set in Hx. case_decide; [by simplify_eq|].
      apply dict_get_elem, list_elem_of_filter in Hx as [_ Hx]. rewrite Forall_forall in H10. by apply H10.
  - assert (Hi : inv (next_revision (set_device (cp_deviceId c) (set_calibration (cp_nextCalibrationRevision c) r) s))).
    { apply (update_device_inv _ _ r); [done..| |done]. destruct (device_get_ok _ _ _ Hs Hr). split; cbn; try done.
      apply Hcv. }
    destruct Hi as [H1 H2 H3 H4 H5 H6 H7 H8 H9 H10 H11]. split; try done.
    + cbn. rewrite dict_set_length, Hnone. lia.
    + cbn. by apply dict_set_nodup.
    + cbn. rewrite dict_set_fresh by done. apply Forall_app. split; [done|]. constructor; [done|constructor].
Qed.

(** ** What an operation does *)

(** An estimate that [fuse] answers with is one that can be written down, and
    so is the engine it leaves. *)
Lemma estimate_valid p st room c n o t est t' :
  estimate _digest p st room c n o t = (Ok est, t') ->
  t' = t /\ PresenceEstimate_valid est /\ pe_transitionRevision est = pf_transition_revision t.
Proof.
  unfold estimate. intros (u & w & Hg & [[[= <-] Hv]%model_validate_ok ->]%lift_ok)%M_bind_ok.
  by injection Hg as <- <-.
Qed.

Lemma observe_valid p gs now t est t' :
  observe _digest p gs now t = (Ok est, t') ->
  PresenceEstimate_valid est /\ pe_transitionRevision est = pf_transition_revision t'.
Proof.
  intros E. enough (exists u st room c n o, estimate _digest p st room c n o u = (Ok est, t')) as (u & st & room & c & n & o & Hx).
  { by apply estimate_valid in Hx as (-> & ? & ?). }
  revert E. unfold observe. destruct (py_max _) as [best|]; [|cbv beta iota delta [mbind M_bind modify]; eauto 10].
  cbv beta iota delta [mbind M_bind get_state]. destruct (pf_current_room t) as [here|].
  - unfold observe_present. cbv zeta. case_decide; cbv beta iota delta [mbind M_bind modify get_state lift].
    + case_decide; [eauto 10|]. destruct (known_room p here); [eauto 10|done].
    + case_decide; [case_decide; [eauto 10|]; destruct (known_room p here); [eauto 10|done]|eauto 10].
  - unfold observe_absent. case_decide; cbv beta iota delta [mbind M_bind modify get_state]; [eauto 10|].
    case_decide; eauto 10.
Qed.

Lemma fuse_valid fa fp ra rp rl now t est t' :
  kept_engine t -> fuse _digest fa fp MAX_SOURCE_CHECKPOINTS ra rp rl now t = (Ok est, t') ->
  PresenceEstimate_valid est /\ kept_engine t'.
Proof.
  intros [Ht _] E. pose proof (fused_step _digest MAX_SOURCE_CHECKPOINTS t t fa fp ra rp rl now (fused_refl _ _ t)) as Hf.
  rewrite E in Hf. apply (engine_sound_fused _ _ digest_hex) in Hf; [|done].
  destruct (fuse_cases _digest MAX_SOURCE_CHECKPOINTS fa fp ra rp rl now t) as [(x & _ & Hx)|(p & gs & _ & Hx & _)].
  - rewrite E in Hx. discriminate.
  - rewrite E in Hx. symmetry in Hx. apply observe_valid in Hx as [Hv Htr]. split; [done|]. split; [done|].
    rewrite <- Htr. apply Hv.
Qed.

Ltac run H :=
  repeat match type of H with
  | (lift _ ≫= _) _ = (Ok _, _) =>
      let x := fresh "x" in let w := fresh "w" in let Hx := fresh "Hx" in
      apply M_bind_ok in H as (x & w & [Hx ->]%lift_ok & H)
  | (get_state ≫= _) _ = (Ok _, _) =>
      let x := fresh "x" in let w := fresh "w" in let Hx := fresh "Hx" in
      apply M_bind_ok in H as (x & w & Hx & H); injection Hx as <- <-
  end.

(** An answered change was made to the state that could be read. *)
Definition advances (s : presence_state) (w' : presence_world) (s' : presence_state) : Prop :=
  ~ raw_label s /\ change (canonical s) s' /\ written w' s'.

Lemma advance w s e s' before w1 w' v :
  written w s -> ~ raw_label s -> length (pn_nonce e) = 12%nat -> change (canonical s) s' ->
  persist_or_sync e s' before w1 = (Ok v, w') -> advances s w' s'.
Proof.
  intros [Hs Hw] Hraw Hn Hc E. apply persist_outcome in E as [(x & ? & _)|(_ & Hr & _ & Hw')]; [done|].
  split; [done|]. split; [done|]. apply Hw'; [|done]. eapply change_inv; [by apply canonical_inv|done|done].
Qed.

Lemma register_outcome e principal rp rr w s w' :
  written w s -> length (pn_nonce e) = 12%nat -> register_local e principal rp rr w = (Ok tt, w') ->
  exists p reg row name names,
    rp = Shaped p /\ rr = Shaped reg /\ presence_actor e principal w = Ok row /\ u_role row = Admin /\
    name = str_strip (rg_device_name reg) /\ safe_names (rg_room_names reg) = Ok names /\
    advances s w' (next_revision (set_device (pd_deviceId (pp_device p))
        {| dr_policy := p; dr_deviceName := name; dr_roomNames := names;
           dr_providerReachable := rg_provider_reachable reg; dr_calibrationRevision := 1;
           dr_estimate := registered_estimate _digest p (ps_revision s);
           dr_fusion := snapshot_state no_presence |} (canonical s))).
Proof.
  intros Hw Hn E. unfold PresenceRepository.register_local in E. run E. rename x into p, x1 into row.
  apply model_validate_ok in Hx as [-> Hp]. apply raise_if_ok, dec_stable in Hx0. apply raise_if_ok, dec_stable in Hx2.
  destruct rr as [reg|]; [|done]. injection Hx3 as <-.
  apply except_value_error_ok in Hx4. destruct x4 as [name names].
  apply bind_ok in Hx4 as (name' & [Hname Hok]%safe_name_ok & (names' & Hnames & [= <- <-])%bind_ok).
  run E. apply raise_if_ok, dec_stable in Hx.
  apply M_bind_ok in E as (t & w2 & (-> & -> & Hraw)%(sync_ok _ _ _ _ Hw) & E). run E.
  apply raise_if_ok in Hx3, Hx4. apply model_validate_ok in Hx5 as [[= <-] He].
  destruct (safe_names_ok _ _ _ Hnames) as [Hk Hl]; [constructor..|].
  exists p, reg, row, name', names'. do 6 (split; [done|]). apply (advance _ _ _ _ _ _ _ _ Hw Hraw Hn) in E; [done|].
  change (ps_revision s) with (ps_revision (canonical s)). apply change_register; try done.
  - unfold dict_values in Hl. by rewrite Forall_fmap in Hl.
  - destruct (decide (pd_deviceId (pp_device p) ∈ dict_keys (ps_devices (canonical s)))); [by left|right].
    apply Znot_ge_lt. tauto.
  - apply Forall_forall. intros kv Hkv. apply dec_stable. intros Hne. apply Hx4, Exists_exists. by exists kv.
Qed.

Lemma fuse_outcome e principal policy_id rl now w s est w' :
  written w s -> length (pn_nonce e) = 12%nat -> fuse_local e principal policy_id rl now w = (Ok est, w') ->
  exists id r row eng eng',
    dict_get (ps_devices s) id = Some r /\ pp_policyId (dr_policy r) = policy_id /\
    presence_actor e principal w = Ok row /\ engine_of (json_sorted (dr_fusion r)) = Ok eng /\ kept_engine eng /\
    fuse_here _digest (fusion_authority principal row (dr_policy r)) (dr_policy r) rl now eng = (Ok est, eng') /\
    advances s w' (next_revision (set_device id (set_estimate est (snapshot_state eng') (canonical_device r)) (canonical s))).
Proof.
  intros Hw Hn E. unfold PresenceRepository.fuse_local in E.
  apply M_bind_ok in E as (t & w2 & (-> & -> & Hraw)%(sync_ok _ _ _ _ Hw) & E). run E.
  rename x into row. destruct x0 as [id r']. apply require_some_ok in Hx0. cbn [fst snd] in *.
  apply head_Some_elem_of, list_elem_of_filter in Hx0 as [Hid Hin]. cbn [fst snd] in *.
  destruct Hw as [Hs Hw]. pose proof (canonical_inv _ _ _ Hs) as Hcs.
  apply dict_elem_get in Hin; [|apply Hcs]. pose proof Hin as Hget. rewrite (canonical_device_get _ _ _ _ Hs) in Hget.
  apply fmap_Some in Hget as (r & Hr & ->). apply model_validate_ok in Hx1 as [[= <-] _].
  apply model_validate_ok in Hx3 as [[= <-] _].
  destruct (do_engine _ _ _ _ (device_get_ok _ _ _ Hcs Hin)) as (eng & He & Hst).
  pose proof (engine_of_stored _ _ He Hst) as Hof. rewrite Hof in Hx2. injection Hx2 as <-.
  destruct (fuse_here _ _ _ rl now eng) as [[est'|] eng'] eqn:Ef; [|done]. injection Hx4 as <-. cbn [fst snd] in *.
  apply M_bind_ok in E as ([] & w2 & E & Hret). injection Hret as <- <-.
  exists id, r, row, eng, eng'. do 6 (split; [done|]).
  apply (advance _ _ _ _ _ _ _ _ (conj Hs Hw) Hraw Hn) in E; [done|].
  destruct (fuse_valid _ _ _ _ _ _ _ _ _ He Ef) as [Hv Hk]. by apply change_fuse.
Qed.

(** The rate limit writes to its own table alone. *)
Lemma limited_same e principal category limit w r w' :
  limited rate_key e principal category limit w = (r, w') ->
  pw_row w' = pw_row w /\ forall e p, presence_actor e p w' = presence_actor e p w.
Proof.
  unfold limited. destruct (rate_limit _ _ _ _) as [x d] eqn:E. intros [= _ <-].
  apply rate_limit_frame in E as [l ->]. done.
Qed.
Lemma verify_same e principal ra s w w' :
  (forall e p, presence_actor e p w' = presence_actor e p w) ->
  verify_authority e principal ra s w' = verify_authority e principal ra s w.
Proof. intros E. unfold PresenceRepository.verify_authority. by rewrite E. Qed.
Lemma written_row w w' s : pw_row w' = pw_row w -> written w s -> written w' s.
Proof. intros E [Hs Hw]. split; [done|]. by rewrite E. Qed.

Lemma verify_ok e principal ra s w a row :
  verify_authority e principal ra s w = Ok (a, row) ->
  ra = Shaped a /\ PresenceClientAuthority_valid a /\ presence_actor e principal w = Ok row /\
  ca_coreId a = coreId /\ ca_homeId a = homeId /\ ca_accountId a = p_id principal /\
  ca_sessionFamilyId a = p_family_id principal /\ ca_homeRevision a = home_revision s /\
  ca_accountRevision a = u_revision row /\ ca_bindingTag a = binding_tag (authority_json a).
Proof.
  unfold PresenceRepository.verify_authority. intros (a' & [-> Ha]%model_validate_ok & E)%bind_ok.
  apply bind_ok in E as (row' & Hrow & ([] & H1%raise_if_ok & ([] & H2%raise_if_ok & ([] & H3%raise_if_ok & [= <- <-])%bind_ok)%bind_ok)%bind_ok).
  apply dec_stable in H1, H2, H3. naive_solver.
Qed.

Lemma calibration_previewed e principal core_id home_id device_id rc w s c w' :
  written w s -> length (pn_nonce e) = 12%nat -> preview e principal core_id home_id device_id rc w = (Ok c, w') ->
  exists q row r room,
    rc = Shaped q /\ (core_id, home_id) = (coreId, homeId) /\ cc_deviceId q = device_id /\
    verify_authority e principal (Shaped (cc_authority q)) (canonical s) w = Ok (cc_authority q, row) /\
    u_role row = Admin /\ dict_get (ps_devices s) device_id = Some r /\ find_room (dr_policy r) (cc_roomId q) = Some room /\
    expected_revisions q = bound_revisions (dr_policy r) room r /\ pp_active (dr_policy r) = true /\
    pd_consentActive (pp_device (dr_policy r)) = true /\
    c = new_preview (pn_token e) (pn_now_ms e) (cc_authority q) device_id (dr_policy r) room r /\
    CalibrationPreview_valid c /\
    advances s w' (next_revision (set_previews (dict_set
      (filter (fun kv => cp_expiresAtMs kv.2 > pn_now_ms e) (ps_previews (canonical s))) (pn_token e) c) (canonical s))).
Proof.
  intros Hw Hn E. unfold PresenceRepository.preview in E. run E. rename x0 into q.
  apply raise_if_ok, dec_stable in Hx, Hx1. apply model_validate_ok in Hx0 as [-> Hq].
  apply M_bind_ok in E as ([] & w1 & [Hrow Hact]%limited_same & E). apply (written_row _ _ _ Hrow) in Hw as Hw1.
  apply M_bind_ok in E as (t & w2 & (-> & -> & Hraw)%(sync_ok _ _ _ _ Hw1) & E). run E.
  destruct x0 as [a row]. rewrite (verify_same _ _ _ _ _ _ Hact) in Hx0.
  apply verify_ok in Hx0 as Hv. destruct Hv as ([= <-] & _). run E.
  apply raise_if_ok, dec_stable in Hx2. apply require_some_ok in Hx3, Hx5.
  rewrite (canonical_device_get coreId homeId) in Hx3 by apply Hw. apply fmap_Some in Hx3 as (r & Hr & ->).
  apply model_validate_ok in Hx4 as [[= <-] Hp]. apply raise_if_ok in Hx6 as [H1%dec_stable [H2 H3]%neither]%neither.
  apply raise_if_ok in Hx7. apply model_validate_ok in Hx8 as [[= <-] Hc].
  apply M_bind_ok in E as ([] & w2 & E & Hret). injection Hret as <- <-.
  exists q, row, r, x4. do 8 (split; [done|]). split; [by destruct (pp_active _)|].
  split; [by destruct (pd_consentActive _)|]. do 2 (split; [done|]).
  apply (advance _ _ _ _ _ _ _ _ Hw1 Hraw Hn) in E; [done|]. apply change_preview; [done|done|done|lia].
Qed.

Lemma apply_outcome e request_id c w s k w' :
  written w s -> ~ raw_label s -> length (pn_nonce e) = 12%nat ->
  dict_get (ps_previews s) request_id = Some c -> dict_get (ps_receipts s) request_id = None -> CalibrationPreview_valid c ->
  apply_calibration dump load encrypt decrypt coreId homeId e request_id c (canonical s) w = (Ok k, w') ->
  pn_now_ms e < cp_expiresAtMs c /\ k = new_receipt request_id c /\
  exists r, dict_get (ps_devices s) (cp_deviceId c) = Some r /\ still_exact (dr_policy r) r c /\
    advances s w' (next_revision (set_receipt request_id k
      (set_device (cp_deviceId c) (set_calibration (cp_nextCalibrationRevision c) (canonical_device r)) (canonical s)))).
Proof.
  intros Hw Hraw Hn Hprev Hnone Hcv E. unfold PresenceRepository.apply_calibration in E. run E.
  apply raise_if_ok in Hx. apply require_some_ok in Hx0. rewrite (canonical_device_get coreId homeId) in Hx0 by apply Hw.
  apply fmap_Some in Hx0 as (r & Hr & ->). apply model_validate_ok in Hx1 as [[= <-] Hp].
  apply raise_if_ok, dec_stable in Hx2. apply model_validate_ok in Hx3 as [[= <-] Hk]. apply raise_if_ok in Hx4.
  apply M_bind_ok in E as ([] & w2 & E & Hret). injection Hret as <- <-.
  split; [lia|]. split; [done|]. exists r. split; [done|]. split; [done|].
  apply (advance _ _ _ _ _ _ _ _ Hw Hraw Hn) in E; [done|].
  apply change_confirm; [by rewrite (canonical_preview_get coreId homeId) by apply Hw|by rewrite (canonical_receipt_get coreId homeId) by apply Hw
    |lia|done| |done|done].
  rewrite (canonical_device_get coreId homeId) by apply Hw. by rewrite Hr.
Qed.

(** A confirmation answers from its receipt, or applies the preview. *)
Lemma calibration_confirmed e principal core_id home_id request_id rp w s k w' :
  written w s -> length (pn_nonce e) = 12%nat -> confirm e principal core_id home_id request_id rp w = (Ok k, w') ->
  exists c row,
    rp = Shaped c /\ (core_id, home_id) = (coreId, homeId) /\ cp_requestId c = request_id /\ ~ raw_label s /\
    verify_authority e principal (Shaped (cp_authority c)) (canonical s) w = Ok (cp_authority c, row) /\
    dict_get (ps_previews s) request_id = Some c /\
    ((dict_get (ps_receipts s) request_id = Some k /\ ct_authority k = cp_authority c /\ pw_row w' = pw_row w) \/
     (dict_get (ps_receipts s) request_id = None /\ pn_now_ms e < cp_expiresAtMs c /\ k = new_receipt request_id c /\
      exists r, dict_get (ps_devices s) (cp_deviceId c) = Some r /\ still_exact (dr_policy r) r c /\
        advances s w' (next_revision (set_receipt request_id k
          (set_device (cp_deviceId c) (set_calibration (cp_nextCalibrationRevision c) (canonical_device r))
             (canonical s)))))).
Proof.
  intros Hw Hn E. unfold PresenceRepository.confirm in E. run E. rename x0 into c.
  apply raise_if_ok, dec_stable in Hx, Hx1. apply model_validate_ok in Hx0 as [-> Hc].
  apply M_bind_ok in E as ([] & w1 & [Hrow Hact]%limited_same & E). apply (written_row _ _ _ Hrow) in Hw as Hw1.
  apply M_bind_ok in E as (t & w2 & (-> & -> & Hraw)%(sync_ok _ _ _ _ Hw1) & E). run E.
  destruct x0 as [a row]. rewrite (verify_same _ _ _ _ _ _ Hact) in Hx0.
  apply verify_ok in Hx0 as Hv. destruct Hv as ([= <-] & _).
  apply require_some_ok in Hx2. rewrite (canonical_preview_get coreId homeId) in Hx2 by apply Hw.
  apply model_validate_ok in Hx3 as [[= <-] _]. apply raise_if_ok, dec_stable in Hx4. subst x2.
  rewrite (canonical_receipt_get coreId homeId) in E by apply Hw.
  exists c, row. do 6 (split; [done|]).
  destruct (dict_get (ps_receipts s) request_id) as [k'|] eqn:Ek; [left|right].
  - run E. apply model_validate_ok in Hx3 as [[= <-] _]. apply raise_if_ok, dec_stable in Hx4.
    injection E as <- <-. done.
  - by apply apply_outcome in E.
Qed.

(** *** Calls that are refused, and calls that only read *)

Definition row_fixed {A} (m : M presence_world A) : Prop := forall w, pw_row (m w).2 = pw_row w.
Definition keeps_row {A} (m : M presence_world A) : Prop := forall w e w', m w = (Raise e, w') -> pw_row w' = pw_row w.

Lemma row_fixed_bind {A B} (m : M presence_world A) (f : A -> M presence_world B) :
  row_fixed m -> (forall a, row_fixed (f a)) -> row_fixed (m ≫= f).
Proof.
  intros Hm Hf w. unfold mbind, M_bind. specialize (Hm w). destruct (m w) as [[a|] w1]; cbn in *; [|done].
  by rewrite Hf.
Qed.
Lemma keeps_row_bind {A B} (m : M presence_world A) (f : A -> M presence_world B) :
  row_fixed m -> (forall a, keeps_row (f a)) -> keeps_row (m ≫= f).
Proof.
  intros Hm Hf w e w'. unfold mbind, M_bind. specialize (Hm w). destruct (m w) as [[a|] w1]; cbn in *.
  - intros E%Hf. congruence.
  - by intros [= _ <-].
Qed.
Lemma row_fixed_lift {A} (r : res A) : row_fixed (lift r).
Proof. by intros w. Qed.
Lemma row_fixed_get : row_fixed get_state.
Proof. by intros w. Qed.
Lemma row_fixed_ret {A} (a : A) : row_fixed (mret a).
Proof. by intros w. Qed.
Lemma row_fixed_sync : row_fixed sync.
Proof. intros w. by rewrite sync_state. Qed.
Lemma row_fixed_limited e principal category limit : row_fixed (limited rate_key e principal category limit).
Proof.
  intros w. destruct (limited rate_key e principal category limit w) as [r w'] eqn:E. by apply limited_same in E as [? _].
Qed.
Lemma keeps_row_fixed {A} (m : M presence_world A) : row_fixed m -> keeps_row m.
Proof. intros Hm w e w' E. specialize (Hm w). by rewrite E in Hm. Qed.
Lemma keeps_row_persist e s before : keeps_row (persist_or_sync e s before).
Proof. intros w x w' E. by apply persist_outcome in E as [(y & _ & ->)|(? & _)]. Qed.
Lemma keeps_row_persisted {A} e s before (a : A) : keeps_row (persist_or_sync e s before ≫= fun _ => mret a).
Proof. intros w x w' [E|(u & w1 & _ & E)]%M_bind_raise; [by eapply keeps_row_persist|discriminate]. Qed.

Create HintDb presence.
#[local] Hint Resolve row_fixed_bind row_fixed_lift row_fixed_get row_fixed_ret row_fixed_sync row_fixed_limited
  keeps_row_bind keeps_row_fixed keeps_row_persist keeps_row_persisted : presence.
Ltac rows := repeat first
  [apply keeps_row_persisted | apply keeps_row_persist | apply keeps_row_bind; [solve [auto with presence]|intros]
  |apply row_fixed_bind; [solve [auto with presence]|intros] | case_match | solve [auto with presence]].

Lemma register_keeps e principal rp rr : keeps_row (register_local e principal rp rr).
Proof. unfold PresenceRepository.register_local. cbv zeta. rows. Qed.
Lemma fuse_keeps e principal id rl now : keeps_row (fuse_local e principal id rl now).
Proof. unfold PresenceRepository.fuse_local. cbv zeta. rows. Qed.
Lemma preview_keeps e principal c h d r : keeps_row (preview e principal c h d r).
Proof. unfold PresenceRepository.preview. cbv zeta. rows. Qed.
Lemma confirm_keeps e principal c h d r : keeps_row (confirm e principal c h d r).
Proof. unfold PresenceRepository.confirm, apply_calibration. cbv zeta. rows. Qed.
Lemma scope_fixed e principal c h r : row_fixed (scope_authority e principal c h r).
Proof. unfold PresenceRepository.scope_authority. rows. Qed.
Lemma list_fixed e principal c h r : row_fixed (list_devices e principal c h r).
Proof. unfold PresenceRepository.list_devices. rows. Qed.
Lemma readback_fixed e principal c h d r : row_fixed (readback e principal c h d r).
Proof. unfold PresenceRepository.readback. apply row_fixed_bind; [apply list_fixed|]. auto with presence. Qed.

(** ** Runs *)

(** What the world goes through: calls with any arguments, and any change of
    the accounts. *)
Inductive store_step : presence_world -> presence_world -> Prop :=
  | step_accounts w d : store_step w {| pw_row := pw_row w; pw_auth := d |}
  | step_register e principal rp rr w :
      length (pn_nonce e) = 12%nat -> store_step w (register_local e principal rp rr w).2
  | step_fuse e principal id rl now w :
      length (pn_nonce e) = 12%nat -> store_step w (fuse_local e principal id rl now w).2
  | step_scope e principal c h r w : store_step w (scope_authority e principal c h r w).2
  | step_list e principal c h r w : store_step w (list_devices e principal c h r w).2
  | step_readback e principal c h d r w : store_step w (readback e principal c h d r w).2
  | step_preview e principal c h d r w :
      length (pn_nonce e) = 12%nat -> store_step w (preview e principal c h d r w).2
  | step_confirm e principal c h d r w :
      length (pn_nonce e) = 12%nat -> store_step w (confirm e principal c h d r w).2.

Lemma step_changes w w' s :
  written w s -> store_step w w' -> pw_row w' = pw_row w \/ exists s', advances s w' s'.
Proof.
  intros Hw Hst. destruct Hst as [w d|e principal rp rr w Hn|e principal id rl now w Hn|e principal c h r w
    |e principal c h r w|e principal c h d r w|e principal c h d r w Hn|e principal c h d r w Hn].
  - by left.
  - destruct (register_local _ _ _ _ w) as [[[]|x] w'] eqn:E; [right|left; by eapply register_keeps].
    destruct (register_outcome _ _ _ _ _ _ _ Hw Hn E) as (?&?&?&?&?&_&_&_&_&_&_&Ha). by eexists.
  - destruct (fuse_local _ _ _ _ _ w) as [[est|x] w'] eqn:E; [right|left; by eapply fuse_keeps].
    destruct (fuse_outcome _ _ _ _ _ _ _ _ _ Hw Hn E) as (?&?&?&?&?&_&_&_&_&_&_&Ha). by eexists.
  - left. apply scope_fixed.
  - left. apply list_fixed.
  - left. apply readback_fixed.
  - destruct (preview _ _ _ _ _ _ w) as [[x|x] w'] eqn:E; [right|left; by eapply preview_keeps].
    destruct (calibration_previewed _ _ _ _ _ _ _ _ _ _ Hw Hn E) as (?&?&?&?&_&_&_&_&_&_&_&_&_&_&_&_&Ha). by eexists.
  - destruct (confirm _ _ _ _ _ _ w) as [[k|x] w'] eqn:E; [|left; by eapply confirm_keeps].
    destruct (calibration_confirmed _ _ _ _ _ _ _ _ _ _ Hw Hn E) as (?&?&_&_&_&_&_&_&[(_&_&Hrow)|(_&_&_&?&_&_&Ha)]); [by left|right].
    by eexists.
Qed.

(** The store from its creation on. *)
Definition in_use (w : presence_world) : Prop :=
  exists d, rtc store_step {| pw_row := None; pw_auth := d |} w.

Lemma run_written w w' s : rtc store_step w w' -> written w s -> exists s', written w' s'.
Proof.
  intros Hr. revert s. induction Hr as [w|w w1 w' Hst _ IH]; intros s Hw; [eauto|].
  destruct (step_changes _ _ _ Hw Hst) as [E|(s' & _ & _ & Hw')]; [|eauto].
  apply (IH s). by apply (written_row w).
Qed.
Lemma in_use_written w : in_use w -> exists s, written w s.
Proof. intros (d & Hr). eapply run_written; [exact Hr|]. split; [apply empty_presence_inv|done]. Qed.

(** A property of the document that every change keeps. *)
Lemma run_keeps (P : presence_state -> Prop) w w' s :
  (forall s s', inv s -> P s -> change (canonical s) s' -> inv s' -> P s') ->
  rtc store_step w w' -> written w s -> P s -> exists s', written w' s' /\ P s'.
Proof.
  intros Hstep Hr. revert s. induction Hr as [w|w w1 w' Hst _ IH]; intros s Hw Hp; [eauto|].
  destruct (step_changes _ _ _ Hw Hst) as [E|(s' & _ & Hc & Hw')].
  - apply (IH s); [by apply (written_row w)|done].
  - apply (IH s' Hw'). by eapply Hstep; [apply Hw|..|apply Hw'].
Qed.

(** ** The store holds what it was told *)

Lemma storage_written w s :
  written w s ->
  validate_storage w = if decide (raw_label s) then Raise (StartupError "room_presence_storage_invalid") else Ok tt.
Proof.
  intros Hw. pose proof (sync_written w s Hw) as E. unfold PresenceRepository.sync, mbind, M_bind, get_state, lift in E.
  injection E as E. unfold PresenceRepository.validate_storage. rewrite E. by case_decide.
Qed.

(** Whatever calls were made, the stored document satisfies every check of the
    reader: the store opens, and the next call reads exactly the state that was
    written, unless a label that was registered spells "rawIdentifier". *)
Theorem presence_store_valid w :
  in_use w -> exists s, written w s /\
    (~ raw_label s -> validate_storage w = Ok tt /\ sync w = (Ok (canonical s), w)) /\
    (raw_label s -> validate_storage w = Raise (StartupError "room_presence_storage_invalid")).
Proof.
  intros (s & Hw)%in_use_written. exists s. split; [done|]. rewrite (storage_written w s Hw), (sync_written w s Hw).
  by case_decide.
Qed.

Lemma poisoned_row w w' s : rtc store_step w w' -> written w s -> raw_label s -> pw_row w' = pw_row w.
Proof.
  intros Hr. induction Hr as [w|w w1 w' Hst _ IH]; intros Hw Hraw; [done|].
  destruct (step_changes _ _ _ Hw Hst) as [E|(s' & Hno & _)]; [|done].
  rewrite IH; [done| |done]. by apply (written_row w).
Qed.

(** A device name that spells "rawIdentifier" is accepted once and never read
    again: the registration answers, and from then on no call changes the row,
    no call reads it and the store does not open. *)
Theorem presence_label_poisons w w' w'' e principal p reg :
  in_use w -> length (pn_nonce e) = 12%nat ->
  register_local e principal (Shaped p) (Shaped reg) w = (Ok tt, w') ->
  occurs RAW (str_strip (rg_device_name reg)) = true -> rtc store_step w' w'' ->
  pw_row w'' = pw_row w' /\ validate_storage w'' = Raise (StartupError "room_presence_storage_invalid") /\
  sync w'' = (Raise (ValueError "invalid_room_presence_state"), w'').
Proof.
  intros (s & Hw)%in_use_written Hn E Hocc Hr.
  destruct (register_outcome _ _ _ _ _ _ _ Hw Hn E) as (q & reg' & row & name & names & _ & [= <-] & _ & _ & -> & _ & _ & _ & Hw').
  set (s' := next_revision _) in Hw'.
  assert (Hraw : raw_label s').
  { apply Exists_exists. eexists (_, _). split; [apply dict_get_elem, dict_get_set_eq|by left]. }
  pose proof (poisoned_row _ _ _ Hr Hw' Hraw) as Hrow. split; [done|].
  assert (Hw'' : written w'' s') by by apply (written_row w').
  rewrite (storage_written _ _ Hw''), (sync_written _ _ Hw''). by rewrite !decide_True.
Qed.

(** ** The engines of the devices *)

(** The engines as they would be kept in memory, by device. *)
Notation engines := (gmap string (PresencePolicy * RoomPresenceFusion)).

Definition engine_in (r : device_record) (pe : PresencePolicy * RoomPresenceFusion) : Prop :=
  dr_policy r = pe.1 /\ exists e, kept_engine e /\ stores (dr_fusion r) e /\ engine_equiv pe.2 e.
Definition represents (s : presence_state) (A : engines) : Prop :=
  forall id, match dict_get (ps_devices s) id, A !! id with
             | Some r, Some pe => engine_in r pe
             | None, None => True
             | _, _ => False
             end.

(** The abstract store: registering starts an engine, fusing runs it. *)
Inductive spec_step (A : engines) : engines -> Prop :=
  | spec_register p : spec_step A (<[pd_deviceId (pp_device p) := (p, no_presence)]> A)
  | spec_fuse id p eng a rl now est eng' :
      A !! id = Some (p, eng) -> fuse_here _digest a p rl now eng = (Ok est, eng') ->
      spec_step A (<[id := (p, eng')]> A)
  | spec_stay : spec_step A A.

Lemma represents_empty : represents empty_presence ∅.
Proof. intros id. cbn. by rewrite lookup_empty. Qed.

Lemma engine_in_canonical r pe : engine_in r pe -> engine_in (canonical_device r) pe.
Proof.
  intros [Hp (e & [He Ht] & Hs & Heq)]. split; [done|]. exists (sorted_engine e). split; [|split].
  - split; [by apply sorted_engine_sound|done].
  - by apply stores_sorted.
  - etrans; [done|]. apply sorted_engine_equiv.
Qed.

Lemma represents_canonical s A : inv s -> represents s A -> represents (canonical s) A.
Proof.
  intros Hs HA id. rewrite (canonical_device_get coreId homeId) by done. specialize (HA id).
  destruct (dict_get _ id), (A !! id); cbn; [by apply engine_in_canonical|done..].
Qed.

Lemma represents_set s A id r pe :
  represents s A -> engine_in r pe -> represents (next_revision (set_device id r s)) (<[id := pe]> A).
Proof.
  intros HA Hr id'. cbn. rewrite dict_get_set. case_decide as E; [subst; by rewrite lookup_insert_eq|].
  rewrite lookup_insert_ne by done. apply HA.
Qed.

(** A record that keeps its engine. *)
Lemma represents_keep s A id r r' :
  represents s A -> dict_get (ps_devices s) id = Some r -> dr_policy r' = dr_policy r -> dr_fusion r' = dr_fusion r ->
  represents (next_revision (set_device id r' s)) A.
Proof.
  intros HA Hr Hp Hf id'. cbn. rewrite dict_get_set. case_decide as E; [subst id'|apply HA].
  specialize (HA id). rewrite Hr in HA. destruct (A !! id); [|done]. unfold engine_in in *. by rewrite Hp, Hf.
Qed.

(** A stored engine answers as the one in memory. *)
Lemma fuse_represents e principal policy_id rl now w s A est w' :
  written w s -> represents s A -> length (pn_nonce e) = 12%nat ->
  fuse_local e principal policy_id rl now w = (Ok est, w') ->
  exists id p eng eng' row s',
    A !! id = Some (p, eng) /\ pp_policyId p = policy_id /\ presence_actor e principal w = Ok row /\
    fuse_here _digest (fusion_authority principal row p) p rl now eng = (Ok est, eng') /\
    written w' s' /\ represents s' (<[id := (p, eng')]> A).
Proof.
  intros Hw HA Hn E. destruct (fuse_outcome _ _ _ _ _ _ _ _ _ Hw Hn E)
    as (id & r & row & eng & eng' & Hr & Hid & Hrow & Hof & Hk & Hf & _ & _ & Hw').
  pose proof (represents_canonical s A ltac:(apply Hw) HA) as HC. pose proof (HC id) as Hd.
  rewrite (canonical_device_get coreId homeId) in Hd by apply Hw. rewrite Hr in Hd. cbn in Hd.
  destruct (A !! id) as [[p mem]|] eqn:EA; [|done]. destruct Hd as [Hp (e1 & Hk1 & Hs1 & Heq)]. cbn in Hp, Heq, Hs1.
  assert (e1 = eng) as -> by (pose proof (engine_of_stored _ _ Hk1 Hs1); congruence). rewrite Hp in *.
  assert (Hnd : NoDup (dict_keys (pf_last_observations eng))) by apply Hk.
  unfold fuse_here in Hf |- *.
  destruct (fuse_equiv _digest
    (fun account => if decide (account = pa_accountId (fusion_authority principal row p))
                    then Resolved (Shaped (fusion_authority principal row p)) else ResolvedNone)
    (fun policy_id => if decide (policy_id = pp_policyId p) then Resolved (Shaped p) else ResolvedNone)
    eng mem (Shaped (fusion_authority principal row p)) (Shaped p) rl now Hnd (symmetry Heq)) as [E1 E2].
  rewrite Hf in E1, E2. cbn in E1, E2. destruct (fuse _ _ _ _ _ _ _ _ mem) as [r1 mem'] eqn:Em. cbn in E1, E2. subst r1.
  exists id, p, mem, mem', row. eexists. do 4 (split; [done|]). split; [exact Hw'|].
  apply represents_set; [done|]. split; [done|]. exists eng'. split; [|split; [by left|done]].
  destruct (fuse_valid _ _ _ _ _ _ _ _ _ Hk Hf) as [_ ?]. done.
Qed.

Lemma step_represents w w' s A :
  written w s -> represents s A -> store_step w w' ->
  exists s' A', spec_step A A' /\ written w' s' /\ represents s' A'.
Proof.
  intros Hw HA Hst.
  assert (Hsame : pw_row w' = pw_row w -> exists s' A', spec_step A A' /\ written w' s' /\ represents s' A').
  { intros E. exists s, A. split; [constructor|]. split; [by apply (written_row w)|done]. }
  pose proof (represents_canonical s A ltac:(apply Hw) HA) as HC.
  destruct Hst as [w d|e principal rp rr w Hn|e principal id rl now w Hn|e principal c h r w
    |e principal c h r w|e principal c h d r w|e principal c h d r w Hn|e principal c h d r w Hn].
  - by apply Hsame.
  - destruct (register_local _ _ _ _ w) as [[[]|x] w'] eqn:E; [|by apply Hsame; eapply register_keeps].
    destruct (register_outcome _ _ _ _ _ _ _ Hw Hn E) as (p&reg&row&name&names&_&_&_&_&_&_&_&_&Hw').
    do 2 eexists. split; [apply (spec_register A p)|]. split; [exact Hw'|]. apply represents_set; [done|].
    split; [done|]. exists no_presence. split; [split; [by apply engine_sound_start|done]|]. split; [by left|done].
  - destruct (fuse_local _ _ _ _ _ w) as [[est|x] w'] eqn:E; [|by apply Hsame; eapply fuse_keeps].
    destruct (fuse_represents _ _ _ _ _ _ _ _ _ _ Hw HA Hn E) as (i&p&eng&eng'&row&s'&HAi&_&_&Hf&Hw'&HA').
    do 2 eexists. split; [by eapply spec_fuse|]. done.
  - apply Hsame, scope_fixed.
  - apply Hsame, list_fixed.
  - apply Hsame, readback_fixed.
  - destruct (preview _ _ _ _ _ _ w) as [[x|x] w'] eqn:E; [|by apply Hsame; eapply preview_keeps].
    destruct (calibration_previewed _ _ _ _ _ _ _ _ _ _ Hw Hn E) as (?&?&?&?&_&_&_&_&_&_&_&_&_&_&_&_&_&_&Hw').
    do 2 eexists. split; [apply spec_stay|]. split; [exact Hw'|]. exact HC.
  - destruct (confirm _ _ _ _ _ _ w) as [[k|x] w'] eqn:E; [|by apply Hsame; eapply confirm_keeps].
    destruct (calibration_confirmed _ _ _ _ _ _ _ _ _ _ Hw Hn E)
      as (v&?&_&_&_&_&_&_&[(_&_&Hrow)|(_&_&_&q&Hq&_&_&_&Hw')]); [by apply Hsame|].
    do 2 eexists. split; [apply spec_stay|]. split; [exact Hw'|].
    intros i. apply (represents_keep _ _ (cp_deviceId v) (canonical_device q) (set_calibration (cp_nextCalibrationRevision v) (canonical_device q)) HC); [|done|done].
    rewrite (canonical_device_get coreId homeId) by apply Hw. by rewrite Hq.
Qed.

Lemma run_represents w w' s A :
  rtc store_step w w' -> written w s -> represents s A ->
  exists s' A', rtc spec_step A A' /\ written w' s' /\ represents s' A'.
Proof.
  intros Hr. revert s A. induction Hr as [w|w w1 w' Hst _ IH]; intros s A Hw HA; [by exists s, A|].
  destruct (step_represents _ _ _ _ Hw HA Hst) as (s1 & A1 & H1 & Hw1 & HA1).
  destruct (IH _ _ Hw1 HA1) as (s' & A' & H2 & ?). exists s', A'. split; [by econstructor|done].
Qed.

(** C26 The store refines engines that are kept in memory: whatever calls were
    made, the document holds, up to the order of the checkpoints, engines
    that registering and fusing lead to; and a stored engine answers a
    batch with the estimate of the engine in memory, and is then stored as that
    engine is left, the other devices untouched. *)
Theorem presence_store_refines w :
  in_use w -> exists s (A : engines), rtc spec_step ∅ A /\ written w s /\ represents s A /\
    forall e principal policy_id rl now est w',
      length (pn_nonce e) = 12%nat -> fuse_local e principal policy_id rl now w = (Ok est, w') ->
      exists id p eng eng' row s',
        A !! id = Some (p, eng) /\ pp_policyId p = policy_id /\ presence_actor e principal w = Ok row /\
        fuse_here _digest (fusion_authority principal row p) p rl now eng = (Ok est, eng') /\
        written w' s' /\ represents s' (<[id := (p, eng')]> A).
Proof.
  intros (d & Hr). destruct (run_represents _ _ empty_presence ∅ Hr) as (s & A & H1 & H2 & H3);
    [split; [apply empty_presence_inv|done]|apply represents_empty|].
  exists s, A. do 3 (split; [done|]). intros. by eapply fuse_represents.
Qed.

(** ** Calibration *)

(** The calibration revision of a device. *)
Definition calibration (s : presence_state) (id : string) : option Z := dr_calibrationRevision <$> dict_get (ps_devices s) id.

Lemma canonical_calibration s id : inv s -> calibration (canonical s) id = calibration s id.
Proof.
  intros Hs. unfold calibration. rewrite (canonical_device_get coreId homeId) by done.
  by destruct (dict_get _ id).
Qed.

Lemma stored_preview s id c :
  inv s -> dict_get (ps_previews s) id = Some c ->
  CalibrationPreview_valid c /\ cp_requestId c = id /\ cp_nextCalibrationRevision c = cp_previousCalibrationRevision c + 1.
Proof.
  intros Hs Hc%dict_get_elem. pose proof (si_previews _ _ _ Hs) as Hp. rewrite Forall_forall in Hp. by apply Hp in Hc.
Qed.

(** A confirmation changes one number.  A request that is confirmed was
    previewed in the same words, by the same account, session and route, at the
    account's present revision; the first time, while the preview lives, the device's
    calibration revision is the one that was previewed and becomes the next
    one, no other device's changes, and the receipt says so; afterwards
    nothing changes. *)
Theorem presence_calibration_exact e principal core_id home_id request_id rp w s k w' :
  written w s -> length (pn_nonce e) = 12%nat -> confirm e principal core_id home_id request_id rp w = (Ok k, w') ->
  exists c row s', rp = Shaped c /\ dict_get (ps_previews s) request_id = Some c /\
    presence_actor e principal w = Ok row /\ ca_accountId (cp_authority c) = p_id principal /\
    ca_sessionFamilyId (cp_authority c) = p_family_id principal /\ ca_accountRevision (cp_authority c) = u_revision row /\
    written w' s' /\ dict_get (ps_receipts s') request_id = Some k /\
    ((pw_row w' = pw_row w /\ dict_get (ps_receipts s) request_id = Some k) \/
     (dict_get (ps_receipts s) request_id = None /\ pn_now_ms e < cp_expiresAtMs c /\ k = new_receipt request_id c /\
      calibration s (cp_deviceId c) = Some (cp_previousCalibrationRevision c) /\
      calibration s' (cp_deviceId c) = Some (cp_previousCalibrationRevision c + 1) /\
      forall id, id <> cp_deviceId c -> calibration s' id = calibration s id)).
Proof.
  intros Hw Hn E. destruct (calibration_confirmed _ _ _ _ _ _ _ _ _ _ Hw Hn E) as (c & row & -> & _ & _ & _ & Hv & Hp & Hcase).
  apply verify_ok in Hv as (_ & _ & Hact & _ & _ & H1 & H2 & _ & H3 & _).
  destruct (stored_preview _ _ _ (proj1 Hw) Hp) as (Hc & Hid & Hnext).
  destruct Hcase as [(Hk & _ & Hrow)|(Hnone & Hlive & Hk & r & Hr & Hex & _ & _ & Hw')].
  - exists c, row, s. do 6 (split; [done|]). split; [by apply (written_row w)|]. split; [done|]. by left.
  - exists c, row. eexists. do 6 (split; [done|]). split; [exact Hw'|]. split; [apply dict_get_set_eq|]. right.
    do 3 (split; [done|]). unfold calibration. rewrite Hr. split; [|split].
    + destruct Hex as [Hex _]. destruct (find_room _ _) as [room|]; [|done].
      unfold bound_revisions, previewed_revisions in Hex. cbn. f_equal. congruence.
    + cbn. rewrite dict_get_set_eq. cbn. by rewrite Hnext.
    + intros id Hne. cbn. rewrite dict_get_set_ne by done. by apply canonical_calibration, Hw.
Qed.

Lemma receipts_stay s s' id k :
  inv s -> dict_get (ps_receipts s) id = Some k -> change (canonical s) s' -> dict_get (ps_receipts s') id = Some k.
Proof.
  intros Hs Hk Hc. rewrite <- (canonical_receipt_get coreId homeId) in Hk by done. destruct Hc; try done. cbn.
  rewrite dict_get_set_ne; [done|]. intros ->. congruence.
Qed.

(** C34 A confirmation is answered once and for all: after a request was
    confirmed, whatever follows, whoever confirms it again gets the same
    receipt and changes nothing. *)
Theorem presence_calibrated_once e principal core_id home_id request_id rp w k w' w'' :
  in_use w -> length (pn_nonce e) = 12%nat -> confirm e principal core_id home_id request_id rp w = (Ok k, w') ->
  rtc store_step w' w'' ->
  forall e2 principal2 core2 home2 rp2 k2 w3,
    length (pn_nonce e2) = 12%nat -> confirm e2 principal2 core2 home2 request_id rp2 w'' = (Ok k2, w3) ->
    k2 = k /\ pw_row w3 = pw_row w''.
Proof.
  intros (s & Hw)%in_use_written Hn E Hr e2 principal2 core2 home2 rp2 k2 w3 Hn2 E2.
  assert (exists s', written w' s' /\ dict_get (ps_receipts s') request_id = Some k) as (s' & Hw' & Hk).
  { destruct (calibration_confirmed _ _ _ _ _ _ _ _ _ _ Hw Hn E)
      as (c&?&_&_&_&_&_&_&[(Hk&_&Hrow)|(_&_&_&r&_&_&_&_&Hw')]).
    - exists s. split; [by apply (written_row w)|done].
    - eexists. split; [exact Hw'|]. apply dict_get_set_eq. }
  assert (Hstep : forall t t', inv t -> dict_get (ps_receipts t) request_id = Some k -> change (canonical t) t' ->
                          inv t' -> dict_get (ps_receipts t') request_id = Some k) by eauto using receipts_stay.
  destruct (run_keeps _ _ _ _ Hstep Hr Hw' Hk) as (s'' & Hw'' & Hk'').
  destruct (calibration_confirmed _ _ _ _ _ _ _ _ _ _ Hw'' Hn2 E2) as (c&?&_&_&_&_&_&_&[(Hk2&_&Hrow)|(Hnone&_)]); [|congruence].
  split; [congruence|done].
Qed.

(** Receipts are never removed: once there are 256, no calibration is ever
    applied again, and a confirmation that answers only repeats an old
    receipt. *)
Theorem presence_receipts_exhausted w s w' e principal core_id home_id request_id rp k w'' :
  written w s -> Z.of_nat (length (ps_receipts s)) = MAX_RECEIPTS -> rtc store_step w w' ->
  length (pn_nonce e) = 12%nat -> confirm e principal core_id home_id request_id rp w' = (Ok k, w'') ->
  pw_row w'' = pw_row w'.
Proof.
  intros Hw Hfull Hr Hn E.
  assert (Hstep : forall t t', inv t -> Z.of_nat (length (ps_receipts t)) = MAX_RECEIPTS -> change (canonical t) t' ->
                          inv t' -> Z.of_nat (length (ps_receipts t')) = MAX_RECEIPTS).
  { intros t t' _ Ht Hc _. assert (Z.of_nat (length (ps_receipts (canonical t))) = MAX_RECEIPTS)
      by (cbn; by rewrite py_sorted_length). destruct Hc; try done. lia. }
  destruct (run_keeps _ _ _ _ Hstep Hr Hw Hfull) as (s' & Hw' & Hlen).
  destruct (calibration_confirmed _ _ _ _ _ _ _ _ _ _ Hw' Hn E)
    as (c&?&_&_&_&_&_&_&[(_&_&Hrow)|(Hnone&_&_&r&_&_&_&_&Hw'')]); [done|]. exfalso.
  pose proof (si_receipts_few _ _ _ (proj1 Hw'')) as Hf. cbn [next_revision set_receipt set_device ps_receipts] in Hf.
  rewrite dict_set_length in Hf. change (ps_receipts (canonical s')) with (py_sorted key_le (ps_receipts s')) in Hf.
  rewrite py_sorted_length, sorted_get, Hnone in Hf by apply Hw'. lia.
Qed.

(** ** Reading *)

Lemma head_filter_elem {A} (P : A -> Prop) `{!forall x, Decision (P x)} l x : head (filter P l) = Some x -> x ∈ l /\ P x.
Proof. intros [? ?]%head_Some_elem_of%list_elem_of_filter. done. Qed.

(** The device as a client is shown it. *)
Definition shown (a : PresenceClientAuthority) (kv : string * device_record) (v : PresenceDeviceView) : Prop :=
  exists room name, room ∈ pp_rooms (dr_policy kv.2) /\ dict_get (dr_roomNames kv.2) (pr_roomId room) = Some name /\
    v = view_of a kv.2 room name /\ vw_deviceId v = kv.1.

Lemma view_validates a id r room name :
  device_ok coreId homeId id r -> PresenceClientAuthority_valid a -> room ∈ pp_rooms (dr_policy r) ->
  dict_get (dr_roomNames r) (pr_roomId room) = Some name ->
  validate_view (view_of a r room name) = Ok (view_of a r room name).
Proof.
  intros Hd Ha Hroom Hname. assert (Hl : label_ok name).
  { pose proof (do_room_names _ _ _ _ Hd) as H1. rewrite Forall_forall in H1. by apply dict_get_elem, H1 in Hname. }
  destruct (do_policy _ _ _ _ Hd) as (_&_&_&_&Hpr&(_&_&?&?&_&?&_&?)&_&_&_&Hrooms&_).
  rewrite Forall_forall in Hrooms. destruct (Hrooms room Hroom) as (_&_&Hri&Hrr).
  destruct (do_estimate _ _ _ _ Hd) as (?&_&_&_&_&_&_&_&_&_&_&_&?&?&?&?&?&?&Hcoh).
  destruct (do_name _ _ _ _ Hd) as (Hn1 & Hn2 & Hn3 & Hn4). destruct Hl as (Hl1 & Hl2 & Hl3 & Hl4).
  assert (Hpos : forall l : ustr, l <> [] -> (1 <= length l)%nat) by (intros [|x l]; cbn; [done|lia]).
  assert (Hok : forall l : ustr, l <> [] -> Forall (fun c => ~ is_control c) l -> str_strip l = l ->
    raise_if (str_strip l = [] \/ Exists is_control (str_strip l)) (ValueError "invalid_label") = Ok tt).
  { intros l Hne Hc Hs. rewrite Hs, raise_if_no; [done|]. intros [?|Hx]; [done|].
    apply Exists_exists in Hx as (c & Hin & Hb). rewrite Forall_forall in Hc. by eapply Hc. }
  unfold validate_view. rewrite (raise_if_no (~ view_fields_valid _)).
  2: { intros Hno. apply Hno. unfold view_fields_valid, view_of. cbn. pose proof (do_calibration _ _ _ _ Hd).
       pose proof (Hpos _ Hn1). pose proof (Hpos _ Hl1). unfold TimestampMs, MAX_REVISION in *. split_and!; try done; try lia. }
  cbn [mbind res_bind view_of vw_deviceName vw_configuredRoomName]. rewrite (Hok (dr_deviceName r)) by done.
  cbn [mbind res_bind]. rewrite (Hok name) by done. cbn [mbind res_bind].
  rewrite raise_if_no; [cbn; by rewrite Hn4, Hl4|]. intros Hno. apply Hno. destruct Hcoh as [Hst Hun].
  unfold coherent_room, view_of. cbn. destruct (pe_status (dr_estimate r)), (pe_roomId (dr_estimate r)),
    (pe_roomRevision (dr_estimate r)); cbn in *; naive_solver.
Qed.

Lemma device_shown a id r :
  device_ok coreId homeId id r -> PresenceClientAuthority_valid a ->
  exists v, device_view a r = Ok v /\ shown a (id, r) v.
Proof.
  intros Hd Ha. unfold device_view. rewrite model_validate_valid by apply Hd. cbn [mbind res_bind].
  rewrite model_validate_valid by apply Hd. cbn [mbind res_bind].
  assert (exists room, configured_room (dr_policy r) (dr_estimate r) = Ok room /\ room ∈ pp_rooms (dr_policy r))
    as (room & Hc & Hin).
  { unfold configured_room. destruct (do_policy _ _ _ _ Hd) as (_&_&_&_&_&_&_&_&Hlen&_).
    destruct (pp_rooms (dr_policy r)) as [|first l] eqn:El; [cbn in Hlen; lia|]. cbn [head require_some mbind res_bind].
    eexists. split; [done|]. destruct (head (filter _ _)) as [x|] eqn:Ex; cbn; [|by left].
    by apply head_filter_elem in Ex as [? _]. }
  rewrite Hc. cbn [mbind res_bind].
  assert (is_Some (dict_get (dr_roomNames r) (pr_roomId room))) as [name Hn].
  { destruct (dict_get _ _) eqn:E; [by eexists|]. apply dict_get_None in E. exfalso. apply E.
    apply (do_rooms _ _ _ _ Hd). apply list_elem_of_fmap. by exists room. }
  rewrite Hn. cbn [mbind res_bind require_some]. eexists. split; [by eapply view_validates|].
  exists room, name. do 3 (split; [done|]). cbn. symmetry. apply Hd.
Qed.

Lemma views_collect a l :
  PresenceClientAuthority_valid a -> Forall (fun kv => device_ok coreId homeId kv.1 kv.2) l -> forall acc, exists vs,
    fold_res (fun acc kv => v ← device_view a kv.2; Ok (acc ++ [v])) acc l = Ok (acc ++ vs) /\ Forall2 (shown a) l vs.
Proof.
  intros Ha Hl. induction Hl as [|[id r] l Hd Hl IH]; intros acc; cbn [fold_res].
  - exists []. by rewrite app_nil_r.
  - destruct (device_shown a id r Hd Ha) as (v & Hv & Hs). cbn [snd]. rewrite Hv. cbn [mbind res_bind].
    destruct (IH (acc ++ [v])) as (vs & -> & Hf). exists (v :: vs). rewrite <- app_assoc. split; [done|]. by constructor.
Qed.

Lemma list_run e principal a s row w :
  written w s -> ~ raw_label s -> verify_authority e principal (Shaped a) (canonical s) w = Ok (a, row) ->
  (limited rate_key e principal "room_presence_read" 120 w).1 = Ok tt ->
  exists vs w', list_devices e principal coreId homeId (Shaped a) w = (Ok {| pg_authority := a; pg_devices := vs |}, w') /\
    Forall2 (shown a) (ps_devices (canonical s)) vs.
Proof.
  intros Hw Hraw Hv Hlim. destruct (limited rate_key e principal "room_presence_read" 120 w) as [r w1] eqn:El.
  cbn in Hlim. subst r. pose proof (limited_same _ _ _ _ _ _ _ El) as [Hrow Hact].
  apply (written_row _ _ _ Hrow) in Hw as Hw1. pose proof (canonical_inv _ _ _ (proj1 Hw)) as Hc.
  destruct (views_collect a (ps_devices (canonical s)) (proj1 (proj2 (verify_ok _ _ _ _ _ _ _ Hv))) (si_devices _ _ _ Hc) [])
    as (vs & Hvs & Hf).
  exists vs, w1. split; [|done]. unfold PresenceRepository.list_devices, check_scope.
  rewrite lift_bind, raise_if_no by tauto. unfold mbind at 1, M_bind at 1. rewrite El.
  unfold mbind at 1, M_bind at 1. rewrite (sync_written w1 s Hw1). rewrite decide_False by done.
  unfold mbind at 1, M_bind at 1. cbn [get_state]. rewrite lift_bind, (verify_same _ _ _ _ _ _ Hact), Hv.
  rewrite lift_bind. rewrite py_sorted_id by (apply py_sorted_strong; apply _). rewrite Hvs.
  rewrite lift_bind, raise_if_no; [done|]. cbn [app]. apply Forall2_length in Hf. rewrite <- Hf.
  pose proof (si_devices_few _ _ _ Hc). unfold MAX_DEVICES in *. lia.
Qed.

Lemma shown_ids a l vs : Forall2 (shown a) l vs -> vw_deviceId <$> vs = dict_keys l.
Proof.
  unfold dict_keys. induction 1 as [|kv v l vs (room & name & _ & _ & _ & Hid) _ IH]; [done|].
  rewrite !fmap_cons, IH. by f_equal.
Qed.

Lemma pick_shown a l vs id r :
  Forall2 (shown a) l vs -> NoDup (dict_keys l) -> dict_get l id = Some r ->
  exists v, filter (fun v => vw_deviceId v = id) vs = [v] /\ shown a (id, r) v.
Proof.
  intros Hf. induction Hf as [|[k r'] v l vs Hs Hf IH]; [done|]. intros [Hk Hn]%NoDup_cons. cbn [dict_get]. intros Hr.
  rewrite filter_cons. pose proof Hs as (room & name & _ & _ & _ & Hid). cbn [fst] in Hid. rewrite Hid.
  case_decide as E; [subst k; injection Hr as ->|].
  - exists v. rewrite decide_True by done. split; [|done]. f_equal. apply filter_none. intros x Hx Hxi.
    apply Hk. change (id ∈ dict_keys l). rewrite <- (shown_ids _ _ _ Hf). apply list_elem_of_fmap. by exists x.
  - rewrite decide_False by congruence. by apply IH.
Qed.

(** Every device can be shown.  While the document can be read and the rate
    limit allows it, a current authority gets all devices, in the order of their
    identifiers, each with its stored policy, names, estimate and
    calibration; and [readback] answers for each of them with that view. *)
Theorem presence_listed e principal a s row w :
  written w s -> ~ raw_label s -> verify_authority e principal (Shaped a) (canonical s) w = Ok (a, row) ->
  (limited rate_key e principal "room_presence_read" 120 w).1 = Ok tt ->
  (exists vs w', list_devices e principal coreId homeId (Shaped a) w = (Ok {| pg_authority := a; pg_devices := vs |}, w') /\
     Forall2 (shown a) (ps_devices (canonical s)) vs /\ vw_deviceId <$> vs ≡ₚ dict_keys (ps_devices s) /\
     StronglySorted str_le (vw_deviceId <$> vs)) /\
  forall id r, dict_get (ps_devices s) id = Some r ->
    exists v w', readback e principal coreId homeId id (Shaped a) w = (Ok v, w') /\ shown a (id, canonical_device r) v.
Proof.
  intros Hw Hraw Hv Hlim. destruct (list_run e principal a s row w Hw Hraw Hv Hlim) as (vs & w' & E & Hf). split.
  - exists vs, w'. split; [done|]. split; [done|]. rewrite (shown_ids _ _ _ Hf). split.
    + cbn [canonical ps_devices]. rewrite sorted_keys_perm. by rewrite canonical_keys.
    + cbn [canonical ps_devices]. unfold dict_keys.
      assert (Hs := py_sorted_strong key_le ((fun kv => (kv.1, canonical_device kv.2)) <$> ps_devices s)).
      induction Hs as [|x l Hs IH Hx]; rewrite ?fmap_cons; constructor; [done|]. by apply Forall_fmap.
  - intros id r Hr. destruct (pick_shown _ _ _ id (canonical_device r) Hf) as (v & Hfil & Hs).
    + eapply si_device_keys. apply canonical_inv, Hw.
    + rewrite (canonical_device_get coreId homeId) by apply Hw. by rewrite Hr.
    + exists v, w'. split; [|done]. unfold PresenceRepository.readback. unfold mbind, M_bind. rewrite E.
      cbn [pg_devices]. by rewrite Hfil.
Qed.

(** An authority that was issued is accepted as long as it is current: later,
    from any session, it is accepted exactly if the session is the one it was
    issued to, and neither the account nor the home has a new revision;
    otherwise the answer is a conflict. *)
Theorem presence_authority_current e principal rb w s a w' :
  written w s -> scope_authority e principal coreId homeId rb w = (Ok a, w') ->
  exists row, presence_actor e principal w = Ok row /\
    forall e2 principal2 t w2 row2, presence_actor e2 principal2 w2 = Ok row2 ->
      verify_authority e2 principal2 (Shaped a) t w2 =
        if decide (p_id principal2 = p_id principal /\ p_family_id principal2 = p_family_id principal /\
                   home_revision t = home_revision (canonical s) /\ u_revision row2 = u_revision row)
        then Ok (a, row2) else Raise (ApiError "revision_conflict" 409).
Proof.
  intros Hw E. unfold PresenceRepository.scope_authority in E. run E.
  apply M_bind_ok in E as (t & w2 & (-> & -> & Hraw)%(sync_ok _ _ _ _ Hw) & E). run E.
  apply lift_ok in E as [E ->]. unfold client_authority in E. apply model_validate_ok in E as [[= <-] Ha].
  exists x1. split; [done|]. intros e2 principal2 t w2 row2 Hact. unfold PresenceRepository.verify_authority.
  rewrite model_validate_valid by done. cbn [mbind res_bind]. rewrite Hact.
  cbn [mbind res_bind set_binding_tag ca_coreId ca_homeId ca_accountId ca_sessionFamilyId ca_homeRevision ca_accountRevision ca_bindingTag].
  rewrite (raise_if_no ((coreId, homeId) <> _)) by tauto. cbn [mbind res_bind]. case_decide as Hd.
  - destruct Hd as (-> & -> & -> & ->). rewrite raise_if_no by tauto. cbn [mbind res_bind].
    rewrite raise_if_no; [done|]. intros Hne. by apply Hne.
  - rewrite (raise_if_yes ((_, _, _, _) <> _)); [done|]. intros E. apply Hd. naive_solver.
Qed.

(** *** The home's revision *)

Lemma home_revision_all s r id :
  inv s -> dict_get (ps_devices s) id = Some r -> pp_homeRevision (dr_policy r) = home_revision s.
Proof.
  intros Hs Hr%dict_get_elem. pose proof (si_home _ _ _ Hs) as (h & Hh)%one_revision. unfold home_revision.
  destruct (ps_devices s) as [|kv l]; [by apply not_elem_of_nil in Hr|].
  rewrite Forall_forall in Hh. etrans; [apply (Hh _ Hr)|]. symmetry. apply Hh. by left.
Qed.

(** The revision that some device has. *)
Definition at_home_revision (h : Z) (s : presence_state) : Prop :=
  exists id r, dict_get (ps_devices s) id = Some r /\ pp_homeRevision (dr_policy r) = h.

Lemma change_home s s' h : inv s -> at_home_revision h s -> change (canonical s) s' -> inv s' -> at_home_revision h s'.
Proof.
  intros Hs (id & r & Hr & Hh) Hc Hs'.
  assert (Hcr : dict_get (ps_devices (canonical s)) id = Some (canonical_device r))
    by (rewrite (canonical_device_get coreId homeId) by done; by rewrite Hr).
  assert (Hupd : forall id' r', dict_get (dict_set (ps_devices (canonical s)) id' r') id = Some (canonical_device r) \/
                           (id' = id /\ dict_get (dict_set (ps_devices (canonical s)) id' r') id = Some r')).
  { intros id' r'. rewrite dict_get_set. case_decide; [subst; by right|by left]. }
  destruct Hc as [p name names reachable _ _ _ _ _ _ _ _ Hone|id' r' e est Hr' _ _|now id' c _ _ _ _|id' c r' _ _ _ _ Hr' _ _].
  - match goal with |- at_home_revision h (next_revision (set_device ?i ?x _)) => destruct (Hupd i x) as [E|[_ E]] end;
      (do 2 eexists; split; [exact E|]); [done|]. cbn. rewrite Forall_forall in Hone.
    rewrite <- (Hone _ (dict_get_elem _ _ _ Hcr)). done.
  - match goal with |- at_home_revision h (next_revision (set_device ?i ?x _)) => destruct (Hupd i x) as [E|[-> E]] end;
      (do 2 eexists; split; [exact E|]); [done|]. rewrite Hr' in Hcr. by injection Hcr as ->.
  - by exists id, (canonical_device r).
  - match goal with |- at_home_revision h (next_revision (set_receipt _ _ (set_device ?i ?x _))) =>
      destruct (Hupd i x) as [E|[Hi E]] end; (do 2 eexists; split; [exact E|]); [done|].
    rewrite Hi, Hcr in Hr'. by injection Hr' as <-.
Qed.

(** The home's revision is fixed by the first device: once one is registered, whatever
    follows, no policy of another revision of the home is registered, not even
    for the only device there is. *)
Theorem presence_home_revision_fixed w s id r w' e principal p reg w'' :
  written w s -> dict_get (ps_devices s) id = Some r -> rtc store_step w w' -> length (pn_nonce e) = 12%nat ->
  register_local e principal (Shaped p) (Shaped reg) w' = (Ok tt, w'') ->
  pp_homeRevision p = pp_homeRevision (dr_policy r).
Proof.
  intros Hw Hr Hrun Hn E.
  assert (Hstep : forall t t', inv t -> at_home_revision (pp_homeRevision (dr_policy r)) t -> change (canonical t) t' ->
                          inv t' -> at_home_revision (pp_homeRevision (dr_policy r)) t') by eauto using change_home.
  assert (Hat : at_home_revision (pp_homeRevision (dr_policy r)) s) by by exists id, r.
  destruct (run_keeps _ _ _ _ Hstep Hrun Hw Hat) as (s' & Hw' & Hat').
  destruct (register_outcome _ _ _ _ _ _ _ Hw' Hn E) as (q&reg'&row&name&names&[= <-]&_&_&_&_&_&_&Hc&Hw'').
  pose proof (change_home _ _ _ (proj1 Hw') Hat' Hc (proj1 Hw'')) as (i & x & Hx & Hxh).
  rewrite <- Hxh, (home_revision_all _ _ _ (proj1 Hw'') Hx). symmetry.
  rewrite <- (home_revision_all _ (_ : device_record) (pd_deviceId (pp_device p)) (proj1 Hw'') (dict_get_set_eq _ _ _)).
  done.
Qed.
End store.

(** ** Example: a device is registered, heard in the kitchen and calibrated *)

Module CalibrationExample.
Import PresenceExample.

#[export] Instance device_record_eq_dec : EqDecision device_record.
Proof. solve_decision. Defined.
#[export] Instance presence_state_eq_dec : EqDecision presence_state.
Proof. solve_decision. Defined.

Definition core : string := i32 "c".
Definition home : string := i32 "d".
Definition device : string := i32 "4".
Definition policy : PresencePolicy := policy_with 300.
Definition tag (v : jval) : string := dg v.

Definition alice : user_row :=
  {| u_id := i32 "e"; u_username := "alice"; u_role := Admin; u_password_hash := ""; u_must_change := false;
     u_created_at := 0; u_disabled := false; u_revision := 1 |}.
Definition tablet : family_row :=
  {| f_id := i32 "f"; f_user_id := i32 "e"; f_device_name := []; f_created_at := 0; f_expires_at := seconds 9000;
     f_revoked_at := None |}.
Definition session : token_row :=
  {| t_id := i32 "0"; t_family_id := i32 "f"; t_access_hash := "a"; t_refresh_hash := "r";
     t_access_expires_at := seconds 9000; t_refresh_expires_at := seconds 9000; t_created_at := 0;
     t_rotated_at := None |}.
Definition accounts : auth_db :=
  {| users := [alice]; families := [tablet]; tokens := [session]; rate_limits := []; admin_audit := []; au_next := 1 |}.
Definition principal : Principal :=
  {| p_id := i32 "e"; p_username := "alice"; p_role := Admin; p_must_change_password := false; p_family_id := i32 "f";
     p_token_id := i32 "0" |}.
Definition env : presence_env :=
  {| pn_auth := {| clock := fun _ => seconds 5; uuid4 := fun _ => ""; token_urlsafe := fun _ => []; password_slots := 0 |};
     pn_now := seconds 5; pn_now_ms := 5000; pn_token := i32 "9"; pn_nonce := replicate 12 0 |}.
Definition labels (name : string) : registration :=
  {| rg_device_name := u name; rg_room_names := [(kitchen, u "Kitchen"); (hall, u "Hall")]; rg_provider_reachable := true |}.

(** The states of the run, as the operations make them. *)
Definition register_in (s : presence_state) (name : string) : presence_state :=
  next_revision (set_device device
    {| dr_policy := policy; dr_deviceName := u name; dr_roomNames := [(kitchen, u "Kitchen"); (hall, u "Hall")];
       dr_providerReachable := true; dr_calibrationRevision := 1; dr_estimate := registered_estimate dg policy (ps_revision s);
       dr_fusion := snapshot_state no_presence |} s).
Definition record_of (s : presence_state) : device_record :=
  match ps_devices (canonical s) with kv :: _ => kv.2 | [] => {|
    dr_policy := policy; dr_deviceName := []; dr_roomNames := []; dr_providerReachable := true;
    dr_calibrationRevision := 1; dr_estimate := registered_estimate dg policy 0; dr_fusion := JNull |} end.
Definition heard : RoomPresenceFusion := (fuse_here dg (fusion_authority principal alice policy) policy
  [Shaped (signal kitchen 1 700)] 1000 no_presence).2.
Definition candidate : PresenceEstimate := make_estimate dg policy PCandidate None 700 1 1000 0.
Definition t1 : presence_state := register_in empty_presence "Phone".
Definition t2 : presence_state :=
  next_revision (set_device device (set_estimate candidate (snapshot_state heard) (record_of t1)) (canonical t1)).
Definition authority : PresenceClientAuthority :=
  let a := {| ca_coreId := core; ca_homeId := home; ca_accountId := i32 "e"; ca_sessionFamilyId := i32 "f";
              ca_routeId := i32 "b"; ca_homeRevision := 1; ca_accountRevision := 1; ca_clientSessionRevision := 1;
              ca_routeRevision := 1; ca_bindingTag := "" |} in
  set_binding_tag (tag (authority_json a)) a.
Definition binding : PresenceRouteBinding :=
  {| bd_routeId := i32 "b"; bd_routeRevision := 1; bd_clientSessionRevision := 1 |}.
Definition asked : CalibrationPreviewCommand :=
  {| cc_authority := authority; cc_deviceId := device; cc_expectedDeviceRevision := 1; cc_expectedModelRevision := 1;
     cc_roomId := kitchen; cc_expectedRoomRevision := 3; cc_expectedPolicyRevision := 2; cc_expectedConsentRevision := 1;
     cc_expectedCalibrationRevision := 1 |}.
Definition previewed : CalibrationPreview := new_preview (i32 "9") 5000 authority device policy (room kitchen) (record_of t2).
Definition t3 : presence_state := next_revision (set_previews [(i32 "9", previewed)] (canonical t2)).
Definition t4 : presence_state :=
  next_revision (set_receipt (i32 "9") (new_receipt (i32 "9") previewed)
    (set_device device (set_calibration 2 (record_of t3)) (canonical t3))).
Definition states : list presence_state := [t1; t2; t3; t4; register_in (canonical t1) "Watch"; register_in empty_presence "rawIdentifier"].

(** A text for each of these states: its place among them, after the word if
    a label spells it. *)
Definition dump (s : presence_state) : res (list Z) :=
  match list_find (fun t => s = t) states with
  | Some (k, _) => Ok ((if decide (raw_label s) then RAW else []) ++ [Z.of_nat k])
  | None => Raise (ValueError "unencodable")
  end.
Definition load (text : list Z) : raw presence_state :=
  match last text ≫= fun k => states !! Z.to_nat k with Some s => Shaped (canonical s) | None => Malformed end.
Definition encrypt (nonce text : list Z) (revision : Z) : list Z := text ++ replicate 16 0.
Definition decrypt (nonce text : list Z) (revision : Z) : option (list Z) := Some (take (length text - 16) text).
Definition rate_key (category : string) (id : list Z) : string := category.

Lemma dump_place s text :
  dump s = Ok text -> exists k, states !! k = Some s /\ text = (if decide (raw_label s) then RAW else []) ++ [Z.of_nat k].
Proof.
  unfold dump. destruct (list_find _ _) as [[k s']|] eqn:E; [|done]. intros [= <-].
  apply list_find_Some in E as (E & <- & _). by exists k.
Qed.
Lemma loads s text : state_inv core home s -> dump s = Ok text -> load text = Shaped (canonical s).
Proof. intros _ (k & Hk & ->)%dump_place. unfold load. rewrite last_snoc. cbn. by rewrite Nat2Z.id, Hk. Qed.
Lemma occurs_here needle text : needle `prefix_of` text -> occurs needle text = true.
Proof. intros Hp. destruct text; cbn; by rewrite bool_decide_eq_true_2. Qed.
Lemma one_char k : occurs RAW [k] = false.
Proof.
  unfold occurs. rewrite !bool_decide_eq_false_2; [done|..]; intros Hp%prefix_length; cbv in Hp; lia.
Qed.
Lemma spells s text : state_inv core home s -> dump s = Ok text -> (occurs RAW text = true <-> raw_label s).
Proof.
  intros _ (k & _ & ->)%dump_place. case_decide as Hr.
  - split; [done|]. intros _. by apply occurs_here, prefix_app_r.
  - cbn [app]. by rewrite one_char.
Qed.
Lemma encrypted_length nonce text rev : length (encrypt nonce text rev) = (length text + 16)%nat.
Proof. unfold encrypt. by rewrite length_app. Qed.
Lemma decrypted nonce text rev : decrypt nonce (encrypt nonce text rev) rev = Some text.
Proof.
  unfold decrypt. rewrite encrypted_length. f_equal. unfold encrypt. rewrite Nat.add_sub. by rewrite take_app_length.
Qed.

Notation registering name := (register_local dump load encrypt decrypt dg core home env principal (Shaped policy) (Shaped (labels name))).
Notation hearing := (fuse_local dump load encrypt decrypt dg core home env principal (i32 "3")
  [Shaped (signal kitchen 1 700)] 1000).
Notation asking := (preview dump load encrypt decrypt tag rate_key core home env principal core home device (Shaped asked)).
Notation confirming := (confirm dump load encrypt decrypt tag rate_key core home env principal core home (i32 "9") (Shaped previewed)).
Definition w0 : presence_world := {| pw_row := None; pw_auth := accounts |}.
Definition w1 : presence_world := (registering "Phone" w0).2.
Definition w2 : presence_world := (hearing w1).2.
Definition w3 : presence_world := (asking w2).2.
Definition w4 : presence_world := (confirming w3).2.
Definition w1' : presence_world := (registering "Watch" w1).2.
Definition poisoned : presence_world := (registering "rawIdentifier" w0).2.

Ltac runs := match goal with |- ?m = (?r, _) => replace r with m.1 by (by vm_compute); apply surjective_pairing end.
Lemma registered_ok : registering "Phone" w0 = (Ok tt, w1).
Proof. runs. Qed.
Lemma registered_again : registering "Watch" w1 = (Ok tt, w1').
Proof. runs. Qed.
Lemma heard_ok : hearing w1 = (Ok candidate, w2).
Proof. runs. Qed.
Lemma asked_ok : asking w2 = (Ok previewed, w3).
Proof. runs. Qed.
Lemma calibrated_ok : confirming w3 = (Ok (new_receipt (i32 "9") previewed), w4).
Proof. runs. Qed.
Lemma confirmed_again : confirming w4 = (Ok (new_receipt (i32 "9") previewed), (confirming w4).2).
Proof. runs. Qed.
Lemma poisoned_ok : registering "rawIdentifier" w0 = (Ok tt, poisoned).
Proof. runs. Qed.

Notation world_used := (in_use dump load encrypt decrypt dg tag rate_key core home).
Notation holds := (written dump encrypt core home).
Lemma used_next w w' : world_used w -> store_step dump load encrypt decrypt dg tag rate_key core home w w' -> world_used w'.
Proof. intros (d & Hr) Hst. exists d. by eapply rtc_r. Qed.
Lemma world_used0 : world_used w0.
Proof. exists accounts. constructor. Qed.
Lemma world_used1 : world_used w1.
Proof. apply (used_next w0); [apply world_used0|]. by apply step_register. Qed.
Lemma world_used2 : world_used w2.
Proof. apply (used_next w1); [apply world_used1|]. by apply step_fuse. Qed.
Lemma world_used3 : world_used w3.
Proof. apply (used_next w2); [apply world_used2|]. by apply step_preview. Qed.

Lemma holds0 : holds w0 empty_presence.
Proof. split; [apply empty_presence_inv|done]. Qed.
Lemma holds1 : holds w1 t1.
Proof.
  destruct (register_outcome dump load encrypt decrypt dg rate_key core home loads spells encrypted_length decrypted
    env principal (Shaped policy) (Shaped (labels "Phone")) w0 _ w1 holds0 eq_refl registered_ok)
    as (p & reg & row & name & names & [= <-] & [= <-] & _ & _ & -> & Hnames & _ & _ & Hw).
  assert (names = [(kitchen, u "Kitchen"); (hall, u "Hall")]) as -> by (vm_compute in Hnames; by injection Hnames as <-).
  exact Hw.
Qed.
Lemma clean1 : ~ raw_label t1.
Proof. apply (bool_decide_unpack _). by vm_compute. Qed.
Lemma verified : verify_authority tag core home env principal (Shaped authority) (canonical t1) w1 = Ok (authority, alice).
Proof. by vm_compute. Qed.
Lemma home_there : exists r, dict_get (ps_devices t1) device = Some r.
Proof. by eexists. Qed.

Lemma presence_store_valid_witness :
  exists s, holds w2 s /\ (~ raw_label s -> validate_storage load decrypt core home w2 = Ok tt).
Proof.
  destruct (presence_store_valid dump load encrypt decrypt dg tag rate_key core home loads spells encrypted_length
    decrypted dg_hex w2 world_used2) as (s & Hw & Hs & _). exists s. split; [exact Hw|]. intros Hr. apply (proj1 (Hs Hr)).
Defined.

Lemma presence_label_poisons_witness :
  validate_storage load decrypt core home poisoned = Raise (StartupError "room_presence_storage_invalid").
Proof.
  apply (presence_label_poisons dump load encrypt decrypt dg tag rate_key core home loads spells encrypted_length
    decrypted dg_hex w0 poisoned poisoned env principal policy (labels "rawIdentifier") world_used0 eq_refl poisoned_ok).
  - by vm_compute.
  - constructor.
Defined.

Lemma presence_store_refines_witness :
  exists (A : gmap string (PresencePolicy * RoomPresenceFusion)) id p eng eng', A !! id = Some (p, eng) /\
    fuse_here dg (fusion_authority principal alice p) p [Shaped (signal kitchen 1 700)] 1000 eng = (Ok candidate, eng').
Proof.
  destruct (presence_store_refines dump load encrypt decrypt dg tag rate_key core home loads spells encrypted_length
    decrypted dg_hex w1 world_used1) as (s & A & _ & _ & _ & Hf).
  destruct (Hf env principal (i32 "3") [Shaped (signal kitchen 1 700)] 1000 candidate w2 eq_refl heard_ok)
    as (id & p & eng & eng' & row & s' & HA & _ & Hrow & Hfuse & _).
  assert (row = alice) as -> by (vm_compute in Hrow; by injection Hrow as <-). exists A, id, p, eng, eng'. split; [exact HA|exact Hfuse].
Defined.

Lemma presence_calibration_exact_witness :
  exists s s', holds w3 s /\ holds w4 s' /\
    (calibration s' device = Some 2 \/ pw_row w4 = pw_row w3).
Proof.
  destruct (in_use_written dump load encrypt decrypt dg tag rate_key core home loads spells encrypted_length decrypted
    dg_hex w3 world_used3) as (s & Hw).
  destruct (presence_calibration_exact dump load encrypt decrypt dg tag rate_key core home loads spells encrypted_length
    decrypted env principal core home (i32 "9") (Shaped previewed) w3 s _ w4 Hw eq_refl calibrated_ok)
    as (c & row & s' & [= <-] & _ & _ & _ & _ & _ & Hw' & _ & Hcase).
  exists s, s'. split; [exact Hw|]. split; [exact Hw'|].
  destruct Hcase as [[Hrow _]|(_ & _ & _ & _ & Hcal & _)]; [by right|by left].
Defined.

Lemma presence_calibrated_once_witness :
  (confirming w4).1 = Ok (new_receipt (i32 "9") previewed) /\ pw_row (confirming w4).2 = pw_row w4.
Proof.
  split; [by vm_compute|].
  apply (presence_calibrated_once dump load encrypt decrypt dg tag rate_key core home loads spells encrypted_length
    decrypted dg_hex env principal core home (i32 "9") (Shaped previewed) w3 _ w4 w4 world_used3 eq_refl calibrated_ok
    (rtc_refl _ _) env principal core home (Shaped previewed) (new_receipt (i32 "9") previewed) (confirming w4).2 eq_refl
    confirmed_again).
Defined.

Lemma presence_listed_witness :
  exists v w, readback load decrypt tag rate_key core home env principal core home device (Shaped authority) w1 = (Ok v, w) /\
    vw_deviceId v = device.
Proof.
  destruct home_there as [r Hr].
  destruct (presence_listed dump load encrypt decrypt tag rate_key core home loads spells encrypted_length decrypted
    env principal authority t1 alice w1 holds1 clean1 verified ltac:(by vm_compute)) as [_ Hd].
  destruct (Hd device r Hr) as (v & w & E & (room & name & _ & _ & _ & Hid)). exists v, w. split; [exact E|exact Hid].
Defined.

Lemma presence_authority_current_witness :
  verify_authority tag core home env principal (Shaped authority) (canonical t1) w1 = Ok (authority, alice).
Proof.
  assert (E : scope_authority load decrypt tag core home env principal core home (Shaped binding) w1 = (Ok authority, w1)) by runs.
  destruct (presence_authority_current dump load encrypt decrypt tag rate_key core home loads spells encrypted_length
    decrypted env principal (Shaped binding) w1 t1 authority w1 holds1 E) as (row & Hrow & Hv).
  assert (row = alice) as -> by (vm_compute in Hrow; by injection Hrow as <-).
  rewrite (Hv env principal (canonical t1) w1 alice Hrow). rewrite decide_True; [reflexivity|].
  split_and!; by vm_compute.
Defined.

Lemma presence_home_revision_fixed_witness :
  exists r, dict_get (ps_devices t1) device = Some r /\ pp_homeRevision policy = pp_homeRevision (dr_policy r).
Proof.
  destruct home_there as [r Hr]. exists r. split; [exact Hr|].
  apply (presence_home_revision_fixed dump load encrypt decrypt dg tag rate_key core home loads spells encrypted_length
    decrypted dg_hex w1 t1 device r w1 env principal policy (labels "Watch") w1' holds1 Hr (rtc_refl _ _) eq_refl
    registered_again).
Defined.
End CalibrationExample.
