(* ===== verification/EventSharing.v ===== *)
(** * Private event sharing

    [server/larenor_server/private_event_sharing/service.py] on the tables of
    [schema.py]: redacted camera events are shared with a recipient, once or
    until a time, under a consent; the recipient redeems an access token, and the
    owner revokes.  All shares of one event of one camera have one signed
    history, and every call verifies that history first.

    HMAC-SHA-256, AES-GCM, the JSON texts of a command and of a payload, and the
    proof of the redaction are parameters.  Times are clock ticks ([TICK]).  The
    facts start with what a history says of a share ([trail_of]), then give the
    invariant of the tables, the outcome of each call, and the theorems; the
    table of grants at the end is what the store promises. *)

From S2P Require Import Prelude Auth.

Definition MAX_COMMAND_BYTES : Z := 32768.
Definition MAX_SHARES : Z := 256.
Definition MAX_SHARE_EVENTS : Z := 1024.
Definition MAX_EXPORT : Z := 256.
Definition MAX_ACCESS_SECONDS : Z := 7 * 24 * 60 * 60.
Definition MAX_ACCESSES : Z := 128.
Definition MASK_TYPES : list ustr := [u "face"; u "license_plate"].
Definition METADATA_TYPES : list ustr := [u "device_serial"; u "gps"; u "camera_name"; u "network_address"].

Inductive access_mode := OneTime | TimeBound.
#[export] Instance access_mode_eq_dec : EqDecision access_mode.
Proof. solve_decision. Defined.
Definition access_mode_name (m : access_mode) : ustr :=
  match m with OneTime => u "one_time" | TimeBound => u "time_bound" end.

(** [_digest] *)
Definition is_lower_hex (c : Z) : bool := ((48 <=? c) && (c <=? 57)) || ((97 <=? c) && (c <=? 102)).
Definition digest_ok (s : ustr) : Prop := length s = 64%nat /\ forallb is_lower_hex s = true.
#[export] Instance digest_ok_dec s : Decision (digest_ok s).
Proof. unfold digest_ok. apply _. Defined.

Record EventShareAuthority := {
  ea_core_id : ustr;
  ea_home_id : ustr;
  ea_account_id : ustr;
  ea_session_id : ustr;
  ea_core_revision : Z;
  ea_home_revision : Z;
  ea_account_revision : Z;
  ea_members_revision : Z;
  ea_camera_id : ustr;
  ea_camera_revision : Z;
  ea_event_id : ustr;
  ea_event_revision : Z;
  ea_session_revision : Z;
  ea_share_revision : Z;
  ea_member_ids : list ustr;
  ea_can_share : bool;
}.
Definition EventShareAuthority_valid `{UnicodeData} (a : EventShareAuthority) : Prop :=
  Forall _identifier [ea_core_id a; ea_home_id a; ea_account_id a; ea_session_id a; ea_camera_id a; ea_event_id a] /\
  Forall (fun n => 0 < n) [ea_core_revision a; ea_home_revision a; ea_account_revision a; ea_members_revision a;
    ea_camera_revision a; ea_event_revision a; ea_session_revision a; ea_share_revision a] /\
  1 <= Z.of_nat (length (ea_member_ids a)) <= 128 /\ NoDup (ea_member_ids a) /\ Forall _identifier (ea_member_ids a).

Record EventShareConsent := {
  ec_id : ustr;
  ec_revision : Z;
  ec_granted_by : ustr;
  ec_recipient_id : ustr;
  ec_event_id : ustr;
  ec_purpose : ustr;
  ec_accepted_at : Z;
  ec_expires_at : Z;
  ec_access_mode : access_mode;
  ec_required_masks : list ustr;
  ec_required_metadata : list ustr;
}.
Definition EventShareConsent_valid `{UnicodeData} (c : EventShareConsent) : Prop :=
  Forall _identifier [ec_id c; ec_granted_by c; ec_recipient_id c; ec_event_id c] /\ 0 < ec_revision c /\
  1 <= Z.of_nat (length (ec_purpose c)) <= 200 /\ ec_accepted_at c < ec_expires_at c /\
  ec_required_masks c ⊆ MASK_TYPES /\ ec_required_metadata c ⊆ METADATA_TYPES /\
  NoDup (ec_required_masks c) /\ NoDup (ec_required_metadata c).

Record PrivateEventShare := {
  ps_id : ustr;
  ps_owner_id : ustr;
  ps_recipient_id : ustr;
  ps_purpose : ustr;
  ps_access_mode : access_mode;
  ps_expires_at : Z;
  ps_output_artifact_id : ustr;
  ps_output_digest : ustr;
  ps_pipeline_id : ustr;
  ps_pipeline_revision : Z;
  ps_mask_types : list ustr;
  ps_removed_metadata : list ustr;
  ps_created_at : Z;
  ps_revoked_at : option Z;
  ps_consumed_at : option Z;
}.

Inductive share_action := ShareCreated | ShareRedeemed | ShareRevoked.
#[export] Instance share_action_eq_dec : EqDecision share_action.
Proof. solve_decision. Defined.
Definition share_action_name (a : share_action) : string :=
  match a with ShareCreated => "created" | ShareRedeemed => "redeemed" | ShareRevoked => "revoked" end.

Record EventShareReceipt := {
  et_audit_id : ustr;
  et_command_id : ustr;
  et_action : share_action;
  et_share_revision : Z;
  et_share : PrivateEventShare;
  et_access_token : ustr;
}.

(** What the encrypted payload of a share says. *)
Record share_payload := {
  py_owner_id : ustr;
  py_recipient_id : ustr;
  py_purpose : ustr;
  py_access_mode : access_mode;
  py_expires_at : Z;
  py_source_digest : ustr;
  py_output_artifact_id : ustr;
  py_output_digest : ustr;
  py_pipeline_id : ustr;
  py_pipeline_revision : Z;
  py_mask_types : list ustr;
  py_removed_metadata : list ustr;
  py_created_at : Z;
  py_access_token : ustr;
}.

(** What [redeem] answers. *)
Record share_access := {
  sa_shareId : ustr;
  sa_outputArtifactId : ustr;
  sa_outputDigest : ustr;
  sa_expiresAt : Z;
}.

(** ** Tables *)

(** Core, home, camera and event. *)
Notation share_scope := (ustr * ustr * ustr * ustr)%type.

Record share_row := {
  sw_id : ustr;
  sw_scope : share_scope;
  sw_nonce : list Z;
  sw_ciphertext : list Z;
  sw_payload_hash : string;
  sw_token_hash : string;
  sw_request_hash : string;
  sw_created_at : Z;
}.

Record share_event := {
  se_sequence : Z;
  se_audit_id : ustr;
  se_scope : share_scope;
  se_command_id : ustr;
  se_action : share_action;
  se_actor_id : ustr;
  se_recipient_id : ustr;
  se_share_id : ustr;
  se_share_revision : Z;
  se_occurred_at : Z;
  se_request_hash : string;
  se_previous_hash : string;
  se_event_hash : string;
}.

Record share_state := {
  sy_scope : share_scope;
  sy_base_revision : Z;
  sy_revision : Z;
  sy_event_count : Z;
  sy_last_hash : string;
  sy_state_hash : string;
}.

Record share_db := { sd_shares : list share_row; sd_history : list share_event; sd_states : list share_state }.
Definition no_shares : share_db := {| sd_shares := []; sd_history := []; sd_states := [] |}.

(** What one call reads: the clock, two [uuid4], the token and the nonce. *)
Record share_env := {
  es_now : Z;
  es_share_id : ustr;
  es_audit_id : ustr;
  es_token : ustr;
  es_nonce : list Z;
}.

(** ** Reading a command *)

(** A JSON string, an [int] and a number, as [==] compares them. *)
Definition text_of (v : jval) : option ustr :=
  match v with JText s => Some s | JStr s => Some (u s) | _ => None end.
Definition int_of (v : jval) : option Z := match v with JInt z => Some z | _ => None end.
Definition number_of (v : jval) : option Z :=
  match v with
  | JInt z => Some (seconds z)
  | JTime t => Some t
  | JBool b => Some (seconds (if b then 1 else 0))
  | _ => None
  end.

(** What a set holds of a value; lists and objects have no hash. *)
Inductive hash_key := KNone | KNumber (t : Z) | KText (s : ustr).
#[export] Instance hash_key_eq_dec : EqDecision hash_key.
Proof. solve_decision. Defined.
Definition hash_key_of (v : jval) : option hash_key :=
  match v with
  | JNull => Some KNone
  | JList _ | JObj _ => None
  | v => match text_of v with Some s => Some (KText s) | None => KNumber <$> number_of v end
  end.
(** [set(l)], as its elements in the order of the list. *)
Definition py_set (l : list jval) : res (list hash_key) :=
  require_some (mapM hash_key_of l) (PyError "TypeError").

(** [hmac.compare_digest] of a string from outside *)
Definition compare_digest (a : ustr) (b : string) : res bool :=
  _ ← raise_if (Exists (fun c => 128 <= c) a) (PyError "TypeError");
  Ok (bool_decide (a = u b)).

Notation json_object := (list (string * jval)).
Definition has_text (l : json_object) (k : string) (s : ustr) : Prop := dict_get l k ≫= text_of = Some s.
Definition has_int (l : json_object) (k : string) (n : Z) : Prop := dict_get l k ≫= int_of = Some n.
Definition has_number (l : json_object) (k : string) (t : Z) : Prop := dict_get l k ≫= number_of = Some t.
#[export] Instance has_text_dec l k s : Decision (has_text l k s).
Proof. unfold has_text. apply _. Defined.
#[export] Instance has_int_dec l k n : Decision (has_int l k n).
Proof. unfold has_int. apply _. Defined.
#[export] Instance has_number_dec l k t : Decision (has_number l k t).
Proof. unfold has_number. apply _. Defined.

(** [_identifier(value[k])] *)
Definition identifier_at `{UnicodeData} (l : json_object) (k : string) : option ustr :=
  s ← dict_get l k ≫= text_of; if decide (_identifier s) then Some s else None.
(** [_digest(value[k])] *)
Definition digest_at (l : json_object) (k : string) : option ustr :=
  s ← dict_get l k ≫= text_of; if decide (digest_ok s) then Some s else None.

Definition scope_fields : list string :=
  ["action"; "commandId"; "coreId"; "homeId"; "accountId"; "sessionId"; "coreRevision"; "homeRevision";
   "accountRevision"; "membersRevision"; "cameraId"; "cameraRevision"; "eventId"; "eventRevision"; "sessionRevision";
   "expectedShareRevision"]%string.
Definition create_fields : list string :=
  scope_fields ++ ["consentId"; "consentRevision"; "recipientId"; "purpose"; "expiresAt"; "accessMode";
                   "transformation"]%string.
Definition revoke_fields : list string := scope_fields ++ ["shareId"]%string.
Definition transform_fields : list string :=
  ["sourceDigest"; "outputDigest"; "outputArtifactId"; "pipelineId"; "pipelineRevision"; "masks"; "removedMetadata";
   "proof"]%string.

(** [set(l) == fields] *)
Definition exact_keys (l : json_object) (fields : list string) : Prop := dict_keys l ⊆ fields /\ fields ⊆ dict_keys l.
#[export] Instance exact_keys_dec l fields : Decision (exact_keys l fields).
Proof. unfold exact_keys. apply _. Defined.

(** [_authorize] *)
Definition authorize (actor : Principal) (a : EventShareAuthority) (write : bool) : res unit :=
  _ ← raise_if (u (p_id actor) <> ea_account_id a \/ u (p_family_id actor) <> ea_session_id a)
        (ApiError "authority_changed" 409);
  _ ← raise_if (p_role actor <> Admin /\ u (p_id actor) ∉ ea_member_ids a) (ApiError "forbidden" 403);
  raise_if (write = true /\ p_role actor <> Admin /\ ea_can_share a = false) (ApiError "forbidden" 403).

(** What [_check_scope] expects. *)
Definition in_scope (l : json_object) (a : EventShareAuthority) : Prop :=
  has_text l "coreId" (ea_core_id a) /\ has_text l "homeId" (ea_home_id a) /\
  has_text l "accountId" (ea_account_id a) /\ has_text l "sessionId" (ea_session_id a) /\
  has_int l "coreRevision" (ea_core_revision a) /\ has_int l "homeRevision" (ea_home_revision a) /\
  has_int l "accountRevision" (ea_account_revision a) /\ has_int l "membersRevision" (ea_members_revision a) /\
  has_text l "cameraId" (ea_camera_id a) /\ has_int l "cameraRevision" (ea_camera_revision a) /\
  has_text l "eventId" (ea_event_id a) /\ has_int l "eventRevision" (ea_event_revision a) /\
  has_int l "sessionRevision" (ea_session_revision a) /\ has_int l "expectedShareRevision" (ea_share_revision a).
#[export] Instance in_scope_dec l a : Decision (in_scope l a).
Proof. unfold in_scope. apply _. Defined.
Definition check_command_scope (l : json_object) (a : EventShareAuthority) : res unit :=
  raise_if (~ in_scope l a) (ApiError "authority_changed" 409).

(** [_scope] *)
Definition scope_of (a : EventShareAuthority) : share_scope :=
  (ea_core_id a, ea_home_id a, ea_camera_id a, ea_event_id a).

(** The consent covers the command. *)
Definition consent_covers (actor : Principal) (a : EventShareAuthority) (c : EventShareConsent) (now : Z)
    (l : json_object) : Prop :=
  ec_granted_by c = u (p_id actor) /\ ec_event_id c = ea_event_id a /\ ec_accepted_at c <= now /\ now < ec_expires_at c /\
  ec_expires_at c - now <= seconds MAX_ACCESS_SECONDS /\
  has_text l "consentId" (ec_id c) /\ has_number l "consentRevision" (seconds (ec_revision c)) /\
  has_text l "recipientId" (ec_recipient_id c) /\ has_text l "purpose" (ec_purpose c) /\
  has_number l "expiresAt" (ec_expires_at c) /\ has_text l "accessMode" (access_mode_name (ec_access_mode c)).
#[export] Instance consent_covers_dec actor a c now l : Decision (consent_covers actor a c now l).
Proof. unfold consent_covers. apply _. Defined.

(** What a verified transformation says. *)
Record transform := {
  tf_source_digest : ustr;
  tf_output_digest : ustr;
  tf_output_artifact_id : ustr;
  tf_pipeline_id : ustr;
  tf_pipeline_revision : Z;
  tf_masks : list ustr;
  tf_metadata : list ustr;
}.

(** ** The store *)

(** What the history's loop keeps: the last digest, the creations with their
    request and recipient, when each share was revoked and consumed, and how
    often it was redeemed. *)
Record trail := {
  tr_previous : string;
  tr_creates : list (ustr * (string * ustr));
  tr_statuses : list (ustr * (option Z * option Z));
  tr_counts : list (ustr * Z);
}.
Definition no_trail : trail := {| tr_previous := ""; tr_creates := []; tr_statuses := []; tr_counts := [] |}.

(** [statuses.get(share_id, (None, None))] *)
Definition status_in (t : trail) (id : ustr) : option Z * option Z := default (None, None) (dict_get (tr_statuses t) id).
Definition count_in (t : trail) (id : ustr) : Z := default 0 (dict_get (tr_counts t) id).

(** The event does not fit the events before it. *)
Definition misplaced (t : trail) (e : share_event) : Prop :=
  match se_action e with
  | ShareCreated => se_share_id e ∈ dict_keys (tr_creates t)
  | _ => se_share_id e ∉ dict_keys (tr_creates t) \/ (status_in t (se_share_id e)).1 <> None
  end.
#[export] Instance misplaced_dec t e : Decision (misplaced t e).
Proof. unfold misplaced. destruct (se_action e); apply _. Defined.

(** What one event changes. *)
Definition next_trail (t : trail) (e : share_event) : trail :=
  let id := se_share_id e in
  let '(revoked, consumed) := status_in t id in
  match se_action e with
  | ShareCreated =>
      {| tr_previous := se_event_hash e;
         tr_creates := dict_set (tr_creates t) id (se_request_hash e, se_recipient_id e);
         tr_statuses := dict_set (tr_statuses t) id (revoked, consumed); tr_counts := tr_counts t |}
  | ShareRevoked =>
      {| tr_previous := se_event_hash e; tr_creates := tr_creates t;
         tr_statuses := dict_set (tr_statuses t) id (Some (se_occurred_at e), consumed); tr_counts := tr_counts t |}
  | ShareRedeemed =>
      {| tr_previous := se_event_hash e; tr_creates := tr_creates t;
         tr_statuses := dict_set (tr_statuses t) id (revoked, Some (se_occurred_at e));
         tr_counts := dict_set (tr_counts t) id (count_in t id + 1) |}
  end.

Definition history_invalid : exn := StartupError "private_event_share_history_invalid".
Definition storage_invalid : exn := StartupError "private_event_share_storage_invalid".

(** The order of [ORDER BY sequence] and of [ORDER BY created_at,id]. *)
Definition event_le (a b : share_event) : Prop := se_sequence a <= se_sequence b.
#[export] Instance event_le_dec a b : Decision (event_le a b).
Proof. unfold event_le. apply _. Defined.
Definition share_le (a b : share_row) : Prop :=
  sw_created_at a < sw_created_at b \/ (sw_created_at a = sw_created_at b /\ ustr_le (sw_id a) (sw_id b)).
#[export] Instance share_le_dec a b : Decision (share_le a b).
Proof. unfold share_le. apply _. Defined.

(** Uniqueness: the keys and [UNIQUE] columns of the tables. *)
Definition share_clash (a b : share_row) : Prop := sw_id a = sw_id b \/ sw_token_hash a = sw_token_hash b.
Definition event_clash (a b : share_event) : Prop :=
  se_sequence a = se_sequence b \/ se_audit_id a = se_audit_id b \/
  (se_scope a = se_scope b /\ se_command_id a = se_command_id b).
#[export] Instance share_clash_dec a b : Decision (share_clash a b).
Proof. unfold share_clash. apply _. Defined.
#[export] Instance event_clash_dec a b : Decision (event_clash a b).
Proof. unfold event_clash. apply _. Defined.

Definition scope_values (s : share_scope) : list jval :=
  let '(core, home, camera, event) := s in [JText core; JText home; JText camera; JText event].
(** The address of a payload. *)
Definition share_aad (s : share_scope) (id : ustr) : ustr :=
  let '(core, home, camera, event) := s in core ++ [0] ++ home ++ [0] ++ camera ++ [0] ++ event ++ [0] ++ id.

(** The values that [event_hash] covers. *)
Definition event_values (e : share_event) : jval :=
  JList ([JInt (se_sequence e); JText (se_audit_id e)] ++ scope_values (se_scope e) ++
         [JText (se_command_id e); JStr (share_action_name (se_action e)); JText (se_actor_id e);
          JText (se_recipient_id e); JText (se_share_id e); JInt (se_share_revision e); JTime (se_occurred_at e);
          JStr (se_request_hash e); JStr (se_previous_hash e)]).
(** The values that [state_hash] covers. *)
Definition state_values (s : share_state) : jval :=
  JList (scope_values (sy_scope s) ++ [JInt (sy_base_revision s); JInt (sy_revision s); JInt (sy_event_count s);
                                       JStr (sy_last_hash s)]).
Definition set_event_hash (h : string) (e : share_event) : share_event :=
  {| se_sequence := se_sequence e; se_audit_id := se_audit_id e; se_scope := se_scope e;
     se_command_id := se_command_id e; se_action := se_action e; se_actor_id := se_actor_id e;
     se_recipient_id := se_recipient_id e; se_share_id := se_share_id e; se_share_revision := se_share_revision e;
     se_occurred_at := se_occurred_at e; se_request_hash := se_request_hash e;
     se_previous_hash := se_previous_hash e; se_event_hash := h |}.
Definition set_state_hash (h : string) (s : share_state) : share_state :=
  {| sy_scope := sy_scope s; sy_base_revision := sy_base_revision s; sy_revision := sy_revision s;
     sy_event_count := sy_event_count s; sy_last_hash := sy_last_hash s; sy_state_hash := h |}.

Definition set_history (l : list share_event) (d : share_db) : share_db :=
  {| sd_shares := sd_shares d; sd_history := l; sd_states := sd_states d |}.
Definition set_shares (l : list share_row) (d : share_db) : share_db :=
  {| sd_shares := l; sd_history := sd_history d; sd_states := sd_states d |}.
Definition set_states (l : list share_state) (d : share_db) : share_db :=
  {| sd_shares := sd_shares d; sd_history := sd_history d; sd_states := l |}.

(** The history may not grow. *)
Definition history_full (state : option share_state) : Prop :=
  match state with None => False | Some s => sy_event_count s >= MAX_SHARE_EVENTS end.
#[export] Instance history_full_dec state : Decision (history_full state).
Proof. destruct state; cbn; apply _. Defined.

(** [PrivateEventShare(...)] of a payload *)
Definition share_of (id : ustr) (p : share_payload) (status : option Z * option Z) : PrivateEventShare :=
  {| ps_id := id; ps_owner_id := py_owner_id p; ps_recipient_id := py_recipient_id p; ps_purpose := py_purpose p;
     ps_access_mode := py_access_mode p; ps_expires_at := py_expires_at p;
     ps_output_artifact_id := py_output_artifact_id p; ps_output_digest := py_output_digest p;
     ps_pipeline_id := py_pipeline_id p; ps_pipeline_revision := py_pipeline_revision p;
     ps_mask_types := py_mask_types p; ps_removed_metadata := py_removed_metadata p; ps_created_at := py_created_at p;
     ps_revoked_at := status.1; ps_consumed_at := status.2 |}.

Section store.
Context `{UnicodeData}.
(** [json.loads] with the refusal of repeated keys; [None] is any exception
    that the source turns into a bad request. *)
Variable loads : list Z -> option jval.
(** The JSON text of a payload and back; [None] is any exception of reading it. *)
Variable dump_payload : share_payload -> list Z.
Variable load_payload : list Z -> option share_payload.
Variable encrypt : list Z -> list Z -> ustr -> list Z.
Variable decrypt : list Z -> list Z -> ustr -> option (list Z).
(** [_fingerprint] of bytes, and of the canonical JSON of a value *)
Variable fingerprint : string -> list Z -> string.
Variable fingerprint_json : string -> jval -> string.
(** [transformation_proof] under the transformation key *)
Variable transformation_proof : jval -> string.

Definition event_hash (e : share_event) : string := fingerprint_json "event" (event_values e).
Definition state_hash (s : share_state) : string := fingerprint_json "state" (state_values s).

(** [_parse] *)
Definition parse (command_bytes : list Z) (fields : list string) : res json_object :=
  let invalid := ApiError "invalid_request" 400 in
  _ ← raise_if (~ 1 <= Z.of_nat (length command_bytes) <= MAX_COMMAND_BYTES) invalid;
  match loads command_bytes with
  | Some (JObj l) => _ ← raise_if (~ exact_keys l fields) invalid; Ok l
  | _ => Raise invalid
  end.

(** The checks that [create] makes of [value["transformation"]]. *)
Definition check_transformation (c : EventShareConsent) (l : json_object) : res transform :=
  let unverified := ApiError "transformation_unverified" 409 in
  t ← match dict_get l "transformation"%string with Some (JObj t) => Ok t | _ => Raise unverified end;
  _ ← raise_if (~ exact_keys t transform_fields) unverified;
  source ← require_some (digest_at t "sourceDigest") unverified;
  output ← require_some (digest_at t "outputDigest") unverified;
  _ ← raise_if (source = output) unverified;
  artifact ← require_some (identifier_at t "outputArtifactId") unverified;
  pipeline ← require_some (identifier_at t "pipelineId") unverified;
  revision ← require_some (dict_get t "pipelineRevision"%string ≫= int_of) unverified;
  _ ← raise_if (revision <= 0) unverified;
  masks ← match dict_get t "masks"%string with Some (JList m) => Ok m | _ => Raise unverified end;
  metadata ← match dict_get t "removedMetadata"%string with Some (JList m) => Ok m | _ => Raise unverified end;
  mask_set ← py_set masks;
  _ ← raise_if (~ NoDup mask_set) unverified;
  metadata_set ← py_set metadata;
  _ ← raise_if (~ NoDup metadata_set) unverified;
  mask_texts ← require_some (mapM text_of masks) unverified;
  _ ← raise_if (~ mask_texts ⊆ MASK_TYPES) unverified;
  metadata_texts ← require_some (mapM text_of metadata) unverified;
  _ ← raise_if (~ metadata_texts ⊆ METADATA_TYPES) unverified;
  _ ← raise_if (~ ec_required_masks c ⊆ mask_texts \/ ~ ec_required_metadata c ⊆ metadata_texts) unverified;
  proof ← require_some (dict_get t "proof"%string ≫= text_of) unverified;
  same ← compare_digest proof (transformation_proof (JObj (filter (fun kv => kv.1 <> "proof"%string) t)));
  _ ← raise_if (same = false) unverified;
  Ok {| tf_source_digest := source; tf_output_digest := output; tf_output_artifact_id := artifact;
        tf_pipeline_id := pipeline; tf_pipeline_revision := revision; tf_masks := mask_texts;
        tf_metadata := metadata_texts |}.

(** ** Reading *)

(** [_state] *)
Definition read_state (d : share_db) (scope : share_scope) : res (option share_state) :=
  match sql_one (fun s => sy_scope s = scope) (sd_states d) with
  | None => Ok None
  | Some s => _ ← raise_if (sy_state_hash s <> state_hash s) history_invalid; Ok (Some s)
  end.

(** The payload of a row, and the share that [_decrypt] builds of it. *)
Definition payload_of (r : share_row) : res share_payload :=
  raw ← require_some (decrypt (sw_nonce r) (sw_ciphertext r) (share_aad (sw_scope r) (sw_id r))) storage_invalid;
  _ ← raise_if (sw_payload_hash r <> fingerprint "payload" raw) storage_invalid;
  p ← require_some (load_payload raw) storage_invalid;
  _ ← raise_if (~ digest_ok (py_source_digest p) \/ (length (py_access_token p) < 32)%nat \/
                sw_token_hash r <> fingerprint "token" (py_access_token p)) storage_invalid;
  Ok p.
Definition decrypt_row (r : share_row) (status : option Z * option Z) : res (PrivateEventShare * ustr) :=
  p ← payload_of r; Ok (share_of (sw_id r) p status, py_access_token p).

(** One row of the loop of [_verified]. *)
Definition verify_event (t : trail) (e : share_event) : res trail :=
  _ ← raise_if (se_previous_hash e <> tr_previous t \/ se_event_hash e <> event_hash e) history_invalid;
  _ ← raise_if (misplaced t e) history_invalid;
  let t' := next_trail t e in
  _ ← raise_if (se_action e = ShareRedeemed /\ count_in t' (se_share_id e) > MAX_ACCESSES) history_invalid;
  Ok t'.

Notation share_values := (list (ustr * (PrivateEventShare * ustr))).

(** One entry of [values]. *)
Definition read_share (t : trail) (values : share_values) (r : share_row) : res share_values :=
  v ← decrypt_row r (status_in t (sw_id r)); Ok (dict_set values (sw_id r) v).

(** The last loop of [_verified]. *)
Definition check_record (t : trail) (values : share_values) (r : share_row) : res unit :=
  c ← require_some (dict_get (tr_creates t) (sw_id r)) KeyError;
  v ← require_some (dict_get values (sw_id r)) KeyError;
  raise_if (sw_request_hash r <> c.1 \/ ps_recipient_id v.1 <> c.2) history_invalid.

(** [_verified] *)
Definition verified (d : share_db) (scope : share_scope) : res (list share_event * share_values) :=
  state ← read_state d scope;
  let rows := py_sorted event_le (filter (fun e => se_scope e = scope) (sd_history d)) in
  let records := py_sorted share_le (filter (fun r => sw_scope r = scope) (sd_shares d)) in
  match state with
  | None => _ ← raise_if (rows <> [] \/ records <> []) history_invalid; Ok ([], [])
  | Some s =>
      t ← fold_res verify_event no_trail rows;
      values ← fold_res (read_share t) [] records;
      _ ← raise_if (~ (dict_keys values ⊆ dict_keys (tr_creates t) /\ dict_keys (tr_creates t) ⊆ dict_keys values) \/
                    Z.of_nat (length rows) <> sy_event_count s \/
                    sy_revision s <> sy_base_revision s + Z.of_nat (length rows) \/
                    sy_last_hash s <> tr_previous t) history_invalid;
      _ ← for_each (check_record t values) records;
      Ok (rows, values)
  end.

(** [_find_event] *)
Definition find_event (d : share_db) (scope : share_scope) (command_id : ustr) : option share_event :=
  sql_one (fun e => se_scope e = scope /\ se_command_id e = command_id) (sd_history d).

(** ** Writing *)

(** The row that [_insert_event] inserts. *)
Definition new_event (e : share_env) (scope : share_scope) (state : option share_state) (base_revision : Z)
    (command_id : ustr) (action : share_action) (actor_id recipient_id share_id : ustr) (request_hash : string)
    (occurred_at : Z) (d : share_db) : share_event :=
  let row :=
    {| se_sequence := next_key (se_sequence <$> sd_history d); se_audit_id := es_audit_id e; se_scope := scope;
       se_command_id := command_id; se_action := action; se_actor_id := actor_id; se_recipient_id := recipient_id;
       se_share_id := share_id;
       se_share_revision := match state with None => base_revision | Some s => sy_revision s end + 1;
       se_occurred_at := occurred_at; se_request_hash := request_hash;
       se_previous_hash := match state with None => "" | Some s => sy_last_hash s end; se_event_hash := "" |} in
  set_event_hash (event_hash row) row.

(** The row of [private_event_share_state] after it. *)
Definition next_state (scope : share_scope) (state : option share_state) (base_revision : Z) (row : share_event)
  : share_state :=
  let s :=
    {| sy_scope := scope; sy_base_revision := match state with None => base_revision | Some s => sy_base_revision s end;
       sy_revision := se_share_revision row;
       sy_event_count := match state with None => 0 | Some s => sy_event_count s end + 1;
       sy_last_hash := se_event_hash row; sy_state_hash := "" |} in
  set_state_hash (state_hash s) s.

(** [ON CONFLICT ... DO UPDATE SET] of every column but the base *)
Definition update_state (s old : share_state) : share_state :=
  {| sy_scope := sy_scope old; sy_base_revision := sy_base_revision old; sy_revision := sy_revision s;
     sy_event_count := sy_event_count s; sy_last_hash := sy_last_hash s; sy_state_hash := sy_state_hash s |}.
Definition upsert_state (s : share_state) (l : list share_state) : list share_state :=
  match sql_one (fun x => sy_scope x = sy_scope s) l with
  | None => l ++ [s]
  | Some _ => sql_update (fun x => sy_scope x = sy_scope s) (update_state s) l
  end.

(** [_insert_event] *)
Definition insert_event (e : share_env) (scope : share_scope) (state : option share_state) (base_revision : Z)
    (command_id : ustr) (action : share_action) (actor_id recipient_id share_id : ustr) (request_hash : string)
    (occurred_at : Z) : M share_db (ustr * Z) :=
  d ← get_state;
  let row := new_event e scope state base_revision command_id action actor_id recipient_id share_id request_hash
               occurred_at d in
  _ ← lift (raise_if (se_share_revision row > MAX_REVISION) (PyError "OverflowError"));
  _ ← lift (raise_if (share_id ∉ sw_id <$> sd_shares d) IntegrityError);
  history ← lift (sql_insert event_clash row (sd_history d));
  _ ← put_state (set_states (upsert_state (next_state scope state base_revision row) (sd_states d)) (set_history history d));
  mret (se_audit_id row, se_share_revision row).

(** ** [create] *)

Definition share_payload_of (e : share_env) (actor : Principal) (c : EventShareConsent) (t : transform) : share_payload :=
  {| py_owner_id := u (p_id actor); py_recipient_id := ec_recipient_id c; py_purpose := ec_purpose c;
     py_access_mode := ec_access_mode c; py_expires_at := ec_expires_at c; py_source_digest := tf_source_digest t;
     py_output_artifact_id := tf_output_artifact_id t; py_output_digest := tf_output_digest t;
     py_pipeline_id := tf_pipeline_id t; py_pipeline_revision := tf_pipeline_revision t;
     py_mask_types := py_sorted ustr_le (tf_masks t); py_removed_metadata := py_sorted ustr_le (tf_metadata t);
     py_created_at := es_now e; py_access_token := es_token e |}.

Definition new_share_row (e : share_env) (scope : share_scope) (request_hash : string) (p : share_payload) : share_row :=
  let raw := dump_payload p in
  {| sw_id := es_share_id e; sw_scope := scope; sw_nonce := es_nonce e;
     sw_ciphertext := encrypt (es_nonce e) raw (share_aad scope (es_share_id e));
     sw_payload_hash := fingerprint "payload" raw; sw_token_hash := fingerprint "token" (es_token e);
     sw_request_hash := request_hash; sw_created_at := es_now e |}.

(** The transaction of [create] for a command that was not seen before. *)
Definition create_new (e : share_env) (actor : Principal) (a : EventShareAuthority) (c : EventShareConsent)
    (t : transform) (command_id : ustr) (request_hash : string) (shares : share_values)
  : M share_db EventShareReceipt :=
  d ← get_state;
  let scope := scope_of a in
  state ← lift (read_state d scope);
  let current := match state with None => ea_share_revision a | Some s => sy_revision s end in
  _ ← lift (raise_if (current <> ea_share_revision a) (ApiError "authority_changed" 409));
  _ ← lift (raise_if (Z.of_nat (length shares) >= MAX_SHARES \/ history_full state)
              (ApiError "private_event_share_limit_reached" 413));
  _ ← lift (raise_if (existsb is_surrogate (ec_purpose c) = true) (ValueError "UnicodeEncodeError"));
  let p := share_payload_of e actor c t in
  let row := new_share_row e scope request_hash p in
  rows ← lift (sql_insert share_clash row (sd_shares d));
  _ ← put_state (set_shares rows d);
  '(audit_id, revision) ← insert_event e scope state (ea_share_revision a) command_id ShareCreated (u (p_id actor))
                            (ec_recipient_id c) (es_share_id e) request_hash (es_now e);
  '(share, _) ← lift (decrypt_row row (None, None));
  mret {| et_audit_id := audit_id; et_command_id := command_id; et_action := ShareCreated;
          et_share_revision := revision; et_share := share; et_access_token := es_token e |}.

(** The receipt that an event of the past gives again. *)
Definition replayed (row : share_event) (command_id : ustr) (action : share_action) (shares : share_values)
    (token_of : PrivateEventShare * ustr -> ustr) : res EventShareReceipt :=
  v ← require_some (dict_get shares (se_share_id row)) KeyError;
  Ok {| et_audit_id := se_audit_id row; et_command_id := command_id; et_action := action;
        et_share_revision := se_share_revision row; et_share := v.1; et_access_token := token_of v |}.

Definition create (e : share_env) (actor : Principal) (command_bytes : list Z) (a : EventShareAuthority)
    (c : EventShareConsent) : M share_db EventShareReceipt :=
  _ ← lift (authorize actor a true);
  l ← lift (parse command_bytes create_fields);
  _ ← lift (check_command_scope l a);
  _ ← lift (raise_if (~ has_text l "action" (u "create")) (ApiError "invalid_request" 400));
  command_id ← lift (require_some (identifier_at l "commandId") (ApiError "invalid_request" 400));
  _ ← lift (raise_if (~ consent_covers actor a c (es_now e) l) (ApiError "consent_scope_changed" 409));
  t ← lift (check_transformation c l);
  let request_hash := fingerprint "request" command_bytes in
  transaction (
    d ← get_state;
    '(_, shares) ← lift (verified d (scope_of a));
    match find_event d (scope_of a) command_id with
    | Some old =>
        _ ← lift (raise_if (se_action old <> ShareCreated \/ se_actor_id old <> u (p_id actor) \/
                            se_request_hash old <> request_hash) (ApiError "idempotency_conflict" 409));
        lift (replayed old command_id ShareCreated shares snd)
    | None => create_new e actor a c t command_id request_hash shares
    end).

(** ** [redeem] *)

Definition access_values (recipient_id access_id share_id : ustr) : jval :=
  JList [JText recipient_id; JText access_id; JText share_id].

(** The share may not be accessed. *)
Definition unavailable (share : PrivateEventShare) (token access_token recipient_id : ustr) (timestamp : Z) : Prop :=
  token <> access_token \/ ps_recipient_id share <> recipient_id \/ ps_revoked_at share <> None \/
  ps_expires_at share <= timestamp \/ (ps_access_mode share = OneTime /\ ps_consumed_at share <> None).
#[export] Instance unavailable_dec share token access_token recipient_id timestamp :
  Decision (unavailable share token access_token recipient_id timestamp).
Proof. unfold unavailable. apply _. Defined.

Definition access_of (share : PrivateEventShare) : share_access :=
  {| sa_shareId := ps_id share; sa_outputArtifactId := ps_output_artifact_id share;
     sa_outputDigest := ps_output_digest share; sa_expiresAt := ps_expires_at share |}.

Definition redeem (e : share_env) (recipient_id access_token access_id : ustr) (now : option Z)
  : M share_db share_access :=
  let gone := ApiError "share_unavailable" 404 in
  _ ← lift (raise_if (~ _identifier recipient_id \/ ~ _identifier access_id) gone);
  _ ← lift (raise_if (existsb is_surrogate access_token = true) (ValueError "UnicodeEncodeError"));
  let token_hash := fingerprint "token" access_token in
  let timestamp := default (es_now e) now in
  transaction (
    d ← get_state;
    row ← lift (require_some (sql_one (fun r => sw_token_hash r = token_hash) (sd_shares d)) gone);
    let scope := sw_scope row in
    '(_, shares) ← lift (verified d scope);
    '(share, token) ← lift (require_some (dict_get shares (sw_id row)) KeyError);
    _ ← lift (raise_if (Exists (fun c => 128 <= c) (token ++ access_token)) (PyError "TypeError"));
    _ ← lift (raise_if (unavailable share token access_token recipient_id timestamp) gone);
    let request_hash := fingerprint_json "access" (access_values recipient_id access_id (sw_id row)) in
    match find_event d scope access_id with
    | Some old =>
        _ ← lift (raise_if (se_action old <> ShareRedeemed \/ se_recipient_id old <> recipient_id) gone);
        mret (access_of share)
    | None =>
        state ← lift (read_state d scope);
        match state with
        | None => lift (Raise gone)
        | Some s =>
            _ ← lift (raise_if (sy_event_count s >= MAX_SHARE_EVENTS) gone);
            _ ← insert_event e scope (Some s) (sy_base_revision s) access_id ShareRedeemed recipient_id recipient_id
                  (ps_id share) request_hash timestamp;
            mret (access_of share)
        end
    end).

(** ** [revoke] *)

(** The share of a receipt of [revoke]. *)
Definition set_revoked_at (now : Z) (s : PrivateEventShare) : PrivateEventShare :=
  {| ps_id := ps_id s; ps_owner_id := ps_owner_id s; ps_recipient_id := ps_recipient_id s; ps_purpose := ps_purpose s;
     ps_access_mode := ps_access_mode s; ps_expires_at := ps_expires_at s;
     ps_output_artifact_id := ps_output_artifact_id s; ps_output_digest := ps_output_digest s;
     ps_pipeline_id := ps_pipeline_id s; ps_pipeline_revision := ps_pipeline_revision s;
     ps_mask_types := ps_mask_types s; ps_removed_metadata := ps_removed_metadata s; ps_created_at := ps_created_at s;
     ps_revoked_at := Some now; ps_consumed_at := ps_consumed_at s |}.

(** The transaction of [revoke] for a command that was not seen before. *)
Definition revoke_new (e : share_env) (actor : Principal) (a : EventShareAuthority) (command_id share_id : ustr)
    (request_hash : string) (shares : share_values) : M share_db EventShareReceipt :=
  d ← get_state;
  let scope := scope_of a in
  state ← lift (read_state d scope);
  s ← lift (require_some state (ApiError "authority_changed" 409));
  _ ← lift (raise_if (sy_revision s <> ea_share_revision a) (ApiError "authority_changed" 409));
  '(share, _) ← lift (require_some (dict_get shares share_id) (ApiError "not_found" 404));
  _ ← lift (raise_if (p_role actor <> Admin /\ ps_owner_id share <> u (p_id actor)) (ApiError "forbidden" 403));
  _ ← lift (raise_if (ps_revoked_at share <> None) (ApiError "share_unavailable" 409));
  '(audit_id, revision) ← insert_event e scope (Some s) (sy_base_revision s) command_id ShareRevoked (u (p_id actor))
                            (ps_recipient_id share) (ps_id share) request_hash (es_now e);
  mret {| et_audit_id := audit_id; et_command_id := command_id; et_action := ShareRevoked;
          et_share_revision := revision; et_share := set_revoked_at (es_now e) share; et_access_token := [] |}.

Definition revoke (e : share_env) (actor : Principal) (command_bytes : list Z) (a : EventShareAuthority)
  : M share_db EventShareReceipt :=
  let invalid := ApiError "invalid_request" 400 in
  _ ← lift (authorize actor a true);
  l ← lift (parse command_bytes revoke_fields);
  _ ← lift (check_command_scope l a);
  _ ← lift (raise_if (~ has_text l "action" (u "revoke")) invalid);
  command_id ← lift (require_some (identifier_at l "commandId") invalid);
  share_id ← lift (require_some (identifier_at l "shareId") invalid);
  let request_hash := fingerprint "request" command_bytes in
  transaction (
    d ← get_state;
    '(_, shares) ← lift (verified d (scope_of a));
    match find_event d (scope_of a) command_id with
    | Some old =>
        _ ← lift (raise_if (se_action old <> ShareRevoked \/ se_request_hash old <> request_hash)
                    (ApiError "idempotency_conflict" 409));
        lift (replayed old command_id ShareRevoked shares (fun _ => []))
    | None => revoke_new e actor a command_id share_id request_hash shares
    end).

(** ** [export] *)

Record share_export := { sx_revision : Z; sx_shares : list PrivateEventShare }.

(** The exported columns of a share are all but its creation; whether it was
    revoked and consumed is told without the time. *)
Definition export (actor : Principal) (a : EventShareAuthority) (limit : Z) (d : share_db) : res share_export :=
  _ ← authorize actor a false;
  _ ← raise_if (~ 1 <= limit <= MAX_EXPORT) (ApiError "invalid_request" 400);
  let scope := scope_of a in
  '(_, shares) ← verified d scope;
  state ← read_state d scope;
  let current := match state with None => ea_share_revision a | Some s => sy_revision s end in
  _ ← raise_if (current <> ea_share_revision a) (ApiError "authority_changed" 409);
  let visible := filter (fun s => p_role actor = Admin \/ ps_owner_id s = u (p_id actor))
                   ((fun kv => kv.2.1) <$> shares) in
  _ ← raise_if (p_role actor <> Admin /\ ea_can_share a = false) (ApiError "forbidden" 403);
  _ ← raise_if (Z.of_nat (length visible) > limit) (ApiError "private_event_share_export_limit_reached" 413);
  Ok {| sx_revision := current; sx_shares := visible |}.
End store.

(** ** What a history says *)

Definition events_in (s : share_scope) (l : list share_event) : list share_event := filter (fun e => se_scope e = s) l.
Definition shares_in (s : share_scope) (l : list share_row) : list share_row := filter (fun r => sw_scope r = s) l.
Definition trail_of (l : list share_event) : trail := foldl next_trail no_trail l.
(** The events of a share of one kind. *)
Definition kind_of (a : share_action) (id : ustr) (l : list share_event) : list share_event :=
  filter (fun e => se_action e = a /\ se_share_id e = id) l.
Definition redemptions : ustr -> list share_event -> list share_event := kind_of ShareRedeemed.

Lemma trail_snoc l e : trail_of (l ++ [e]) = next_trail (trail_of l) e.
Proof. unfold trail_of. by rewrite foldl_app. Qed.

Lemma kind_app a id l l' : kind_of a id (l ++ l') = kind_of a id l ++ kind_of a id l'.
Proof. apply filter_app. Qed.
Lemma kind_one a id e : kind_of a id [e] = if decide (se_action e = a /\ se_share_id e = id) then [e] else [].
Proof. unfold kind_of. by rewrite filter_cons, filter_nil. Qed.
Lemma kind_snoc a id l e :
  kind_of a id (l ++ [e]) = kind_of a id l ++ (if decide (se_action e = a /\ se_share_id e = id) then [e] else []).
Proof. by rewrite kind_app, kind_one. Qed.

(** What one event does to the status of every share. *)
Lemma status_next t e id :
  status_in (next_trail t e) id =
    if decide (se_share_id e = id) then
      match se_action e with
      | ShareCreated => status_in t id
      | ShareRevoked => (Some (se_occurred_at e), (status_in t id).2)
      | ShareRedeemed => ((status_in t id).1, Some (se_occurred_at e))
      end
    else status_in t id.
Proof.
  unfold next_trail. destruct (status_in t (se_share_id e)) as [r c] eqn:E.
  destruct (se_action e); unfold status_in in *; cbn; rewrite dict_get_set;
    (case_decide as Hd; [rewrite <- Hd, E; done|done]).
Qed.

Lemma count_next t e id :
  count_in (next_trail t e) id =
    count_in t id + (if decide (se_action e = ShareRedeemed /\ se_share_id e = id) then 1 else 0).
Proof.
  unfold next_trail. destruct (status_in t (se_share_id e)) as [r c].
  destruct (se_action e); cbn; unfold count_in at 1; cbn; try (rewrite decide_False by naive_solver; unfold count_in; lia).
  rewrite dict_get_set. destruct (decide (se_share_id e = id)) as [<-|].
  - rewrite !decide_True by done. cbn. unfold count_in. lia.
  - rewrite !decide_False by naive_solver. unfold count_in. lia.
Qed.

Lemma creates_next t e id :
  dict_get (tr_creates (next_trail t e)) id =
    if decide (se_action e = ShareCreated /\ se_share_id e = id) then Some (se_request_hash e, se_recipient_id e)
    else dict_get (tr_creates t) id.
Proof.
  unfold next_trail. destruct (status_in t (se_share_id e)) as [r c].
  destruct (se_action e); cbn; try (by rewrite decide_False by naive_solver).
  rewrite dict_get_set. repeat case_decide; naive_solver.
Qed.

Lemma previous_next t e : tr_previous (next_trail t e) = se_event_hash e.
Proof. unfold next_trail. destruct (status_in t (se_share_id e)). by destruct (se_action e). Qed.

Lemma redemptions_counted l id : count_in (trail_of l) id = Z.of_nat (length (redemptions id l)).
Proof.
  induction l as [|e l IH] using rev_ind; [done|].
  rewrite trail_snoc, count_next, IH. unfold redemptions. rewrite kind_snoc, length_app. case_decide; cbn; lia.
Qed.

Lemma redeemed_consumed l id : (status_in (trail_of l) id).2 = None <-> redemptions id l = [].
Proof.
  induction l as [|e l IH] using rev_ind; [done|]. unfold redemptions in *.
  rewrite trail_snoc, status_next, kind_snoc. destruct (decide (se_share_id e = id)) as [<-|].
  - destruct (se_action e); cbn; rewrite ?app_nil_r; [done| |done].
    rewrite decide_True by done. split; [done|]. by intros [_ ?]%app_eq_nil.
  - rewrite decide_False by naive_solver. by rewrite app_nil_r.
Qed.

Lemma revoked_recorded l id : (status_in (trail_of l) id).1 = None <-> kind_of ShareRevoked id l = [].
Proof.
  induction l as [|e l IH] using rev_ind; [done|].
  rewrite trail_snoc, status_next, kind_snoc. destruct (decide (se_share_id e = id)) as [<-|].
  - destruct (se_action e); cbn; rewrite ?app_nil_r; [done|done|].
    rewrite decide_True by done. split; [done|]. by intros [_ ?]%app_eq_nil.
  - rewrite decide_False by naive_solver. by rewrite app_nil_r.
Qed.

Lemma created_recorded l id : dict_get (tr_creates (trail_of l)) id = None <-> kind_of ShareCreated id l = [].
Proof.
  induction l as [|e l IH] using rev_ind; [done|].
  rewrite trail_snoc, creates_next, kind_snoc. case_decide; [|by rewrite app_nil_r].
  split; [done|]. by intros [_ ?]%app_eq_nil.
Qed.

(** Where an event does not belong, in terms of the events before it. *)
Lemma misplaced_recorded l e : misplaced (trail_of l) e <->
  match se_action e with
  | ShareCreated => kind_of ShareCreated (se_share_id e) l <> []
  | _ => kind_of ShareCreated (se_share_id e) l = [] \/ kind_of ShareRevoked (se_share_id e) l <> []
  end.
Proof.
  pose proof (created_recorded l (se_share_id e)) as Hc. rewrite dict_get_None in Hc.
  pose proof (revoked_recorded l (se_share_id e)) as Hr. unfold misplaced. destruct (se_action e).
  - rewrite <- Hc. split; [auto|apply dec_stable].
  - by rewrite Hc, Hr.
  - by rewrite Hc, Hr.
Qed.

Lemma counts_grow l : forall t id, count_in t id <= count_in (foldl next_trail t l) id.
Proof.
  induction l as [|e l IH]; intros t id; cbn; [lia|].
  etrans; [|apply IH]. rewrite count_next. case_decide; lia.
Qed.

Section verification.
Context `{UnicodeData}.
Variable fingerprint_json : string -> jval -> string.
Notation event_hash := (event_hash fingerprint_json).
Notation verify_event := (verify_event fingerprint_json).

(** The event is the next one of the history. *)
Definition follows (t : trail) (e : share_event) : Prop :=
  se_previous_hash e = tr_previous t /\ se_event_hash e = event_hash e /\ ~ misplaced t e.
Fixpoint placed (t : trail) (l : list share_event) : Prop :=
  match l with [] => True | e :: l' => follows t e /\ placed (next_trail t e) l' end.

Lemma placed_app l1 : forall t l2, placed t (l1 ++ l2) <-> placed t l1 /\ placed (foldl next_trail t l1) l2.
Proof. induction l1 as [|e l1 IH]; intros t l2; cbn; [tauto|]. rewrite IH. tauto. Qed.

Lemma verify_event_follows t e :
  follows t e -> verify_event t e =
    if decide (se_action e = ShareRedeemed /\ count_in (next_trail t e) (se_share_id e) > MAX_ACCESSES)
    then Raise history_invalid else Ok (next_trail t e).
Proof.
  intros (Hp & Hh & Hm). unfold EventSharing.verify_event. rewrite (raise_if_no (_ \/ _)) by (intros [Hn|Hn]; by apply Hn).
  cbv beta iota delta [mbind res_bind]. rewrite (raise_if_no (misplaced t e)) by done.
  unfold raise_if. by repeat case_decide.
Qed.

Lemma verify_placed l : forall t, placed t l -> (forall id, count_in (foldl next_trail t l) id <= MAX_ACCESSES) ->
  fold_res verify_event t l = Ok (foldl next_trail t l).
Proof.
  induction l as [|e l IH]; intros t Hp Hc; [done|]. destruct Hp as [Hf Hp]. cbn.
  rewrite (verify_event_follows _ _ Hf), decide_False.
  - cbn. by apply IH.
  - intros [_ Hn]. pose proof (counts_grow l (next_trail t e) (se_share_id e)). specialize (Hc (se_share_id e)).
    cbn in Hc. lia.
Qed.

(** A share that was redeemed too often makes the whole history unreadable. *)
Lemma verify_overused l : forall t, placed t l -> forall id, count_in t id <= MAX_ACCESSES ->
  count_in (foldl next_trail t l) id > MAX_ACCESSES -> fold_res verify_event t l = Raise history_invalid.
Proof.
  induction l as [|e l IH]; intros t Hp id Ht Hc; [cbn in Hc; lia|]. destruct Hp as [Hf Hp]. cbn.
  rewrite (verify_event_follows _ _ Hf). case_decide as Hd; [done|]. cbn. apply (IH _ Hp id); [|done].
  pose proof (count_next t e id) as En. case_decide as Hi; [|lia]. destruct Hi as [Ha <-].
  destruct (decide (count_in (next_trail t e) (se_share_id e) > MAX_ACCESSES)); [|lia]. by destruct Hd.
Qed.
End verification.

(** ** The invariant *)

Section store_facts.
Context `{UnicodeData}.
Variable loads : list Z -> option jval.
Variable dump_payload : share_payload -> list Z.
Variable load_payload : list Z -> option share_payload.
Variable encrypt : list Z -> list Z -> ustr -> list Z.
Variable decrypt : list Z -> list Z -> ustr -> option (list Z).
Variable fingerprint : string -> list Z -> string.
Variable fingerprint_json : string -> jval -> string.
Variable transformation_proof : jval -> string.
(** What is encrypted is decrypted at the same address, and the text of a
    payload that has one is read back. *)
Hypothesis decrypt_encrypt : forall nonce raw aad, decrypt nonce (encrypt nonce raw aad) aad = Some raw.
Hypothesis load_dump : forall p, existsb is_surrogate (py_purpose p) = false -> load_payload (dump_payload p) = Some p.
Notation payload_of := (payload_of load_payload decrypt fingerprint).
Notation decrypt_row := (decrypt_row load_payload decrypt fingerprint).
Notation verified := (verified load_payload decrypt fingerprint fingerprint_json).
Notation read_state := (read_state fingerprint_json).
Notation event_hash := (event_hash fingerprint_json).
Notation state_hash := (state_hash fingerprint_json).
Notation placed := (placed fingerprint_json).
Notation new_event := (new_event fingerprint_json).
Notation next_state := (next_state fingerprint_json).
Notation insert_event := (insert_event fingerprint_json).
Notation new_share_row := (new_share_row dump_payload encrypt fingerprint).
Notation create_new := (create_new dump_payload load_payload encrypt decrypt fingerprint fingerprint_json).
Notation create := (create loads dump_payload load_payload encrypt decrypt fingerprint fingerprint_json transformation_proof).
Notation redeem := (redeem load_payload decrypt fingerprint fingerprint_json).
Notation revoke_new := (revoke_new fingerprint_json).
Notation revoke := (revoke loads load_payload decrypt fingerprint fingerprint_json).
Notation export := (export load_payload decrypt fingerprint fingerprint_json).

(** The events, shares and state row of one scope agree. *)
Record scope_ok (E : list share_event) (R : list share_row) (state : option share_state) : Prop := {
  so_placed : placed no_trail E;
  so_state : match state with
    | None => E = []
    | Some st => sy_state_hash st = state_hash st /\ sy_event_count st = Z.of_nat (length E) /\
                 sy_revision st = sy_base_revision st + Z.of_nat (length E) /\
                 sy_last_hash st = tr_previous (trail_of E)
    end;
  so_ids : forall id, id ∈ sw_id <$> R <-> kind_of ShareCreated id E <> [];
  so_rows : forall r, r ∈ R -> exists p, payload_of r = Ok p /\
    dict_get (tr_creates (trail_of E)) (sw_id r) = Some (sw_request_hash r, py_recipient_id p) /\
    (py_access_mode p = OneTime -> (length (redemptions (sw_id r) E) <= 1)%nat);
  so_shares : Z.of_nat (length R) <= MAX_SHARES;
  so_events : Z.of_nat (length (filter (fun e => se_action e <> ShareRevoked) E)) <= MAX_SHARE_EVENTS;
}.

Definition state_in (s : share_scope) (d : share_db) : option share_state := sql_one (fun x => sy_scope x = s) (sd_states d).

Record store_ok (d : share_db) : Prop := {
  ok_sequences : StronglySorted event_le (sd_history d);
  ok_ids : NoDup (sw_id <$> sd_shares d);
  ok_tokens : NoDup (sw_token_hash <$> sd_shares d);
  ok_scopes : forall s, scope_ok (events_in s (sd_history d)) (shares_in s (sd_shares d)) (state_in s d);
}.

Lemma no_shares_ok : store_ok no_shares.
Proof.
  split; [constructor|constructor|constructor|]. intros s. split; cbn; try done; [|set_solver].
  intros id. split; [by intros ?%elem_of_nil|done].
Qed.

Lemma read_state_ok d s : store_ok d -> read_state d s = Ok (state_in s d).
Proof.
  intros Hd. pose proof (so_state _ _ _ (ok_scopes _ Hd s)) as Hs.
  unfold EventSharing.read_state. change (sql_one _ (sd_states d)) with (state_in s d).
  destruct (state_in s d) as [st|]; [|done]. destruct Hs as [Hh _]. rewrite raise_if_no; [done|]. by intros [].
Qed.

Lemma events_sorted d s : store_ok d -> py_sorted event_le (events_in s (sd_history d)) = events_in s (sd_history d).
Proof. intros Hd. apply py_sorted_id, StronglySorted_filter_le, (ok_sequences _ Hd). Qed.

(** What [verified] finds in a row. *)
Definition read_as (t : trail) (r : share_row) (kv : ustr * (PrivateEventShare * ustr)) : Prop :=
  exists p, payload_of r = Ok p /\
    kv = (sw_id r, (share_of (sw_id r) p (status_in t (sw_id r)), py_access_token p)).

Lemma share_rows_read t R : forall acc, NoDup ((sw_id <$> R) ++ dict_keys acc) -> (forall r, r ∈ R -> exists p, payload_of r = Ok p) ->
  exists values, Forall2 (read_as t) R values /\
    fold_res (read_share load_payload decrypt fingerprint t) acc R = Ok (acc ++ values).
Proof.
  induction R as [|r R IH]; intros acc Hn Hp.
  { exists []. split; [constructor|]. by rewrite app_nil_r. }
  destruct (Hp r) as (p & Hr); [left|]. cbn in Hn. apply NoDup_cons in Hn as [Hf Hn].
  set (v := (share_of (sw_id r) p (status_in t (sw_id r)), py_access_token p)).
  assert (dict_set acc (sw_id r) v = acc ++ [(sw_id r, v)]) as Hset.
  { apply dict_set_fresh, dict_get_None. set_solver. }
  destruct (IH (acc ++ [(sw_id r, v)])) as (values & Hv & Hfold).
  - unfold dict_keys. rewrite fmap_app, app_assoc, Permutation_app_comm. cbn. by apply NoDup_cons.
  - intros x Hx. apply Hp. by right.
  - exists ((sw_id r, v) :: values). split; [constructor; [by exists p|done]|].
    assert (read_share load_payload decrypt fingerprint t acc r = Ok (acc ++ [(sw_id r, v)])) as Hread.
    { unfold read_share, EventSharing.decrypt_row. rewrite Hr. cbn. by rewrite <- Hset. }
    cbn [fold_res]. rewrite Hread. cbn [mbind res_bind]. rewrite Hfold. by rewrite <- app_assoc.
Qed.

Lemma read_keys t R values : Forall2 (read_as t) R values -> dict_keys values = sw_id <$> R.
Proof. induction 1 as [|r kv R values (p & _ & ->) _ IH]; [done|]. cbn. by f_equal. Qed.

Lemma read_get t R values r kv : NoDup (sw_id <$> R) -> Forall2 (read_as t) R values -> r ∈ R -> read_as t r kv ->
  dict_get values (sw_id r) = Some kv.2.
Proof.
  intros Hn Hv Hr (p & Hp & ->). pose proof (read_keys _ _ _ Hv) as Hk.
  apply dict_elem_get; [by rewrite Hk|].
  apply list_elem_of_lookup in Hr as (i & Hi). destruct (Forall2_lookup_l _ _ _ _ _ Hv Hi) as (kv & Hkv & q & Hq & ->).
  rewrite Hp in Hq. injection Hq as <-. by apply list_elem_of_lookup_2 in Hkv.
Qed.

Lemma read_get_inv t R values id v : Forall2 (read_as t) R values -> dict_get values id = Some v ->
  exists r, r ∈ R /\ sw_id r = id /\ read_as t r (id, v).
Proof.
  intros Hv Hg. apply dict_get_elem, list_elem_of_lookup in Hg as (i & Hi).
  destruct (Forall2_lookup_r _ _ _ _ _ Hv Hi) as (r & Hr & p & Hp & [= -> ->]).
  exists r. split; [by apply list_elem_of_lookup_2 in Hr|]. split; [done|]. by exists p.
Qed.

Definition sorted_shares (s : share_scope) (d : share_db) : list share_row := py_sorted share_le (shares_in s (sd_shares d)).
Notation trail_in s d := (trail_of (events_in s (sd_history d))).
(** No share of the scope was redeemed more often than [MAX_ACCESSES]. *)
Definition readable (s : share_scope) (d : share_db) : Prop :=
  Forall (fun e => Z.of_nat (length (redemptions (se_share_id e) (events_in s (sd_history d)))) <= MAX_ACCESSES)
    (events_in s (sd_history d)).

Lemma readable_all s d id : readable s d -> count_in (trail_in s d) id <= MAX_ACCESSES.
Proof.
  intros Hr. rewrite redemptions_counted. destruct (redemptions id _) as [|e l] eqn:E; [done|].
  assert (e ∈ redemptions id (events_in s (sd_history d))) as He by (rewrite E; left).
  apply list_elem_of_filter in He as [[_ Hid] He]. rewrite <- E, <- Hid. by apply (Forall_forall _ _) with (x := e) in Hr.
Qed.

Lemma readable_iff s d : readable s d <->
  forall id, Z.of_nat (length (redemptions id (events_in s (sd_history d)))) <= MAX_ACCESSES.
Proof.
  split; [intros Hr id; rewrite <- redemptions_counted; by apply readable_all|].
  intros Hr. apply Forall_forall. intros e _. apply Hr.
Qed.

Lemma not_readable s d : ~ readable s d -> exists id, count_in (trail_in s d) id > MAX_ACCESSES.
Proof.
  intros Hr. apply not_Forall_Exists, Exists_exists in Hr as (e & _ & He); [|intros ?; apply _].
  exists (se_share_id e). rewrite redemptions_counted. cbn in He. lia.
Qed.

Lemma scope_ids_nodup d s : store_ok d -> NoDup (sw_id <$> sorted_shares s d).
Proof.
  intros Hd. unfold sorted_shares. rewrite py_sorted_perm. eapply sublist_NoDup; [exact (ok_ids _ Hd)|].
  apply fmap_sublist, sublist_filter.
Qed.
Lemma sorted_elem d s r : r ∈ sorted_shares s d <-> r ∈ sd_shares d /\ sw_scope r = s.
Proof. unfold sorted_shares, shares_in. rewrite py_sorted_elem, list_elem_of_filter. tauto. Qed.

Lemma verified_readable d s : store_ok d -> readable s d -> exists values,
  verified d s = Ok (events_in s (sd_history d), values) /\ Forall2 (read_as (trail_in s d)) (sorted_shares s d) values.
Proof.
  intros Hd Hr. pose proof (ok_scopes _ Hd s) as Hs. unfold EventSharing.verified. rewrite read_state_ok by done. cbn [mbind res_bind].
  change (filter _ (sd_history d)) with (events_in s (sd_history d)). rewrite events_sorted by done.
  change (py_sorted share_le _) with (sorted_shares s d).
  pose proof (so_state _ _ _ Hs) as Hst. destruct (state_in s d) as [st|].
  - destruct (share_rows_read (trail_in s d) (sorted_shares s d) []) as (values & Hv & Hfold).
    { rewrite app_nil_r. by apply scope_ids_nodup. }
    { intros r [Hin Hsc]%sorted_elem. destruct (so_rows _ _ _ Hs r) as (p & Hp & _); [|by exists p].
      by apply list_elem_of_filter. }
    exists values. split; [|done]. rewrite (verify_placed fingerprint_json); [|apply (so_placed _ _ _ Hs)|].
    2:{ intros id. by apply readable_all. }
    fold (trail_of (events_in s (sd_history d))). cbn [mbind res_bind]. rewrite Hfold. cbn [mbind res_bind app].
    destruct Hst as (_ & Hcount & Hrev & Hlast).
    assert (forall id, id ∈ dict_keys values <-> id ∈ dict_keys (tr_creates (trail_in s d))) as Hids.
    { intros id. rewrite (read_keys _ _ _ Hv). unfold sorted_shares. rewrite py_sorted_perm, (so_ids _ _ _ Hs).
      rewrite <- created_recorded, dict_get_None. split; [apply dec_stable|auto]. }
    rewrite (raise_if_no (_ \/ _)) by (intros [Hn|[Hn|[Hn|Hn]]]; try congruence; apply Hn; split; intros id; apply Hids).
    cbn [mbind res_bind].
    enough (for_each (check_record (trail_in s d) values) (sorted_shares s d) = Ok tt) as -> by done.
    destruct (for_each _ _) as [[]|x] eqn:Ef; [done|]. apply for_each_raise in Ef as (r & Hin & Hx). exfalso.
    pose proof (proj1 (sorted_elem _ _ _) Hin) as [Hrd Hsc].
    destruct (so_rows _ _ _ Hs r) as (p & Hp & Hc & _); [by apply list_elem_of_filter|].
    unfold check_record in Hx. rewrite Hc in Hx.
    rewrite (read_get _ _ _ _ _ (scope_ids_nodup _ _ Hd) Hv Hin (ex_intro _ p (conj Hp eq_refl))) in Hx. cbn in Hx.
    rewrite raise_if_no in Hx by (by intros []). done.
  - rewrite Hst. exists []. assert (sorted_shares s d = []) as ->; [|split; [done|constructor]].
    apply elem_of_nil_inv. intros r [Hin Hsc]%sorted_elem.
    assert (sw_id r ∈ sw_id <$> shares_in s (sd_shares d)) as Hid by (by apply list_elem_of_fmap_2, list_elem_of_filter).
    apply (so_ids _ _ _ Hs) in Hid. rewrite Hst in Hid. done.
Qed.

Lemma verified_overused d s : store_ok d -> ~ readable s d -> verified d s = Raise history_invalid.
Proof.
  intros Hd Hr. pose proof (ok_scopes _ Hd s) as Hs. unfold EventSharing.verified. rewrite read_state_ok by done. cbn [mbind res_bind].
  change (filter _ (sd_history d)) with (events_in s (sd_history d)). rewrite events_sorted by done.
  apply not_readable in Hr as (id & Hid).
  pose proof (so_state _ _ _ Hs) as Hst. destruct (state_in s d) as [st|]; [|by rewrite Hst in Hid].
  by rewrite (verify_overused fingerprint_json _ no_trail (so_placed _ _ _ Hs) id).
Qed.

Lemma verified_reads d s E values : store_ok d -> verified d s = Ok (E, values) ->
  readable s d /\ Forall2 (read_as (trail_in s d)) (sorted_shares s d) values.
Proof.
  intros Hd Hv. destruct (decide (readable s d)) as [Hr|Hr].
  - destruct (verified_readable _ _ Hd Hr) as (values' & Hv' & Hf). rewrite Hv in Hv'. by injection Hv' as -> ->.
  - by rewrite verified_overused in Hv.
Qed.

(** ** One more event *)

(** The tables after an event of a scope was recorded. *)
Definition grown (d : share_db) (rows : list share_row) (scope : share_scope) (base : Z) (row : share_event) : share_db :=
  {| sd_shares := rows; sd_history := sd_history d ++ [row];
     sd_states := upsert_state (next_state scope (state_in scope d) base row) (sd_states d) |}.

Lemma upsert_state_other st s l : s <> sy_scope st ->
  sql_one (fun x => sy_scope x = s) (upsert_state st l) = sql_one (fun x => sy_scope x = s) l.
Proof.
  intros Hs. unfold upsert_state. destruct (sql_one (fun x => sy_scope x = sy_scope st) l) eqn:E.
  - apply sql_one_update_away. intros x Hx. cbn. rewrite Hx. split; congruence.
  - rewrite sql_one_app, sql_one_single. case_decide; [congruence|]. destruct (sql_one (fun x => sy_scope x = s) l) eqn:E2; rewrite ?E2; done.
Qed.

Lemma upsert_row st l :
  sql_one (fun x => sy_scope x = sy_scope st) (upsert_state st l) =
    Some match sql_one (fun x => sy_scope x = sy_scope st) l with None => st | Some old => update_state st old end.
Proof.
  unfold upsert_state. destruct (sql_one (fun x => sy_scope x = sy_scope st) l) as [old|] eqn:E.
  - rewrite sql_one_update_map by done. by rewrite E.
  - rewrite sql_one_app, E, sql_one_single. by rewrite decide_True.
Qed.

Lemma upsert_same d scope base row rows : state_in scope (grown d rows scope base row) = Some (next_state scope (state_in scope d) base row).
Proof.
  transitivity (Some match state_in scope d with
    | None => next_state scope (state_in scope d) base row
    | Some old => update_state (next_state scope (state_in scope d) base row) old end).
  - exact (upsert_row (next_state scope (state_in scope d) base row) (sd_states d)).
  - destruct (state_in scope d) as [old|] eqn:E; [|done]. apply sql_one_some in E as [_ <-]. by destruct old.
Qed.

Lemma grown_events d rows scope base row s :
  se_scope row = scope ->
  events_in s (sd_history (grown d rows scope base row)) =
    events_in s (sd_history d) ++ (if decide (s = scope) then [row] else []).
Proof.
  intros Hs. unfold events_in. cbn. rewrite filter_app, filter_cons, filter_nil.
  do 2 case_decide; naive_solver.
Qed.

Lemma placed_snoc E e : placed no_trail E -> follows fingerprint_json (trail_of E) e -> placed no_trail (E ++ [e]).
Proof. intros. apply placed_app. cbn. split; [done|]. split; [|done]. done. Qed.

Section append.
Variables (d : share_db) (rows : list share_row) (e : share_env) (scope : share_scope) (base at_time : Z).
Variables (command_id actor_id recipient_id share_id : ustr) (action : share_action) (request_hash : string).
Let row := new_event e scope (state_in scope d) base command_id action actor_id recipient_id share_id request_hash at_time d.
Let E := events_in scope (sd_history d).

Lemma new_event_follows : store_ok d -> ~ misplaced (trail_of E) row -> follows fingerprint_json (trail_of E) row.
Proof.
  intros Hd Hm. pose proof (so_state _ _ _ (ok_scopes _ Hd scope)) as Hs. fold E in Hs. split; [|split; [done|done]].
  cbn. destruct (state_in scope d) as [st|]; [by destruct Hs as (_ & _ & _ & ->)|by rewrite Hs].
Qed.

Lemma grown_ok : store_ok d -> ~ misplaced (trail_of E) row ->
  NoDup (sw_id <$> rows) -> NoDup (sw_token_hash <$> rows) ->
  (forall s, s <> scope -> shares_in s rows = shares_in s (sd_shares d)) ->
  (forall id, id ∈ sw_id <$> shares_in scope rows <-> kind_of ShareCreated id (E ++ [row]) <> []) ->
  (forall r, r ∈ shares_in scope rows -> exists p, payload_of r = Ok p /\
    dict_get (tr_creates (trail_of (E ++ [row]))) (sw_id r) = Some (sw_request_hash r, py_recipient_id p) /\
    (py_access_mode p = OneTime -> (length (redemptions (sw_id r) (E ++ [row])) <= 1)%nat)) ->
  Z.of_nat (length (shares_in scope rows)) <= MAX_SHARES ->
  (action <> ShareRevoked -> ~ history_full (state_in scope d)) ->
  store_ok (grown d rows scope base row).
Proof.
  intros Hd Hm Hids Htok Hother Hsame Hrows Hlen Hfull. split; [|done|done|].
  - apply StronglySorted_snoc; [apply (ok_sequences _ Hd)|]. apply Forall_forall. intros x Hx. unfold event_le. cbn.
    apply Z.lt_le_incl, next_key_above. by apply list_elem_of_fmap_2.
  - intros s. pose proof (ok_scopes _ Hd s) as Hs. rewrite grown_events by done. case_decide as Hsc.
    + subst s. rewrite upsert_same. fold E. fold E in Hs. split; try done.
      * apply placed_snoc; [apply (so_placed _ _ _ Hs)|by apply new_event_follows].
      * pose proof (so_state _ _ _ Hs) as Hst. split; [done|]. cbn. rewrite length_app, trail_snoc, previous_next. cbn.
        destruct (state_in scope d) as [st|]; [destruct Hst as (_ & ? & ? & _)|rewrite Hst; cbn]; split_and!; (done || lia).
      * rewrite filter_app, length_app, filter_cons, filter_nil. pose proof (so_events _ _ _ Hs) as He.
        case_decide as Ha; cbn [length]; [|lia].
        pose proof (so_state _ _ _ Hs) as Hst. specialize (Hfull Ha).
        pose proof (length_filter (fun e => se_action e <> ShareRevoked) E) as Hf.
        destruct (state_in scope d) as [st|]; cbn in Hfull; [destruct Hst as (_ & Hc & _); fold E in Hc|rewrite Hst; cbn]; 
          unfold MAX_SHARE_EVENTS in *; lia.
    + rewrite app_nil_r. unfold state_in, grown. cbn [sd_shares sd_states]. rewrite upsert_state_other by done. by rewrite Hother.
Qed.
End append.

Lemma insert_event_run e scope state base cid act actor rcp sid rh at_time d aid rev d' :
  insert_event e scope state base cid act actor rcp sid rh at_time d = (Ok (aid, rev), d') ->
  let row := new_event e scope state base cid act actor rcp sid rh at_time d in
  aid = se_audit_id row /\ rev = se_share_revision row /\ sid ∈ sw_id <$> sd_shares d /\
  Forall (fun x => ~ event_clash row x) (sd_history d) /\ rev <= MAX_REVISION /\
  d' = {| sd_shares := sd_shares d; sd_history := sd_history d ++ [row];
          sd_states := upsert_state (next_state scope state base row) (sd_states d) |}.
Proof.
  unfold EventSharing.insert_event. intros Hi. cbv zeta. inv_M.
  match goal with Hx : sql_insert _ _ _ = Ok _ |- _ => apply sql_insert_ok in Hx as [-> Hc] end.
  split_and!; try done; first [by apply dec_stable|cbn in *; lia].
Qed.

(** ** What the calls do *)

Lemma share_create_outcome e actor bytes a c d k d' : create e actor bytes a c d = (Ok k, d') ->
  exists l cid t E values, authorize actor a true = Ok tt /\ parse loads bytes create_fields = Ok l /\ in_scope l a /\
  has_text l "action" (u "create") /\ identifier_at l "commandId" = Some cid /\ consent_covers actor a c (es_now e) l /\
  check_transformation transformation_proof c l = Ok t /\ verified d (scope_of a) = Ok (E, values) /\
  match find_event d (scope_of a) cid with
  | Some old => d' = d /\ se_action old = ShareCreated /\ se_actor_id old = u (p_id actor) /\
      se_request_hash old = fingerprint "request" bytes /\ replayed old cid ShareCreated values snd = Ok k
  | None => create_new e actor a c t cid (fingerprint "request" bytes) values d = (Ok k, d')
  end.
Proof.
  unfold EventSharing.create. intros Hc. inv_M.
  match goal with Hx : authorize _ _ _ = Ok ?z |- _ => destruct z end.
  match goal with Hx : check_command_scope _ _ = Ok _ |- _ => unfold check_command_scope in Hx end. inv_ok.
  match goal with Hx : verified _ _ = Ok ?z |- _ => destruct z as [E values] end. cbn in Hc.
  do 5 eexists. split_and!; try done; try (by apply dec_stable).
  destruct (find_event _ _ _) as [old|]; [|done]. inv_M. passed. naive_solver.
Qed.

Lemma payload_new e scope rh p q : existsb is_surrogate (py_purpose p) = false ->
  payload_of (new_share_row e scope rh p) = Ok q -> q = p.
Proof.
  intros Hs Hp. unfold EventSharing.payload_of in Hp. cbn in Hp. rewrite decrypt_encrypt in Hp. inv_ok.
  match goal with Hx : Some _ = Some _ |- _ => injection Hx as <- end. rewrite load_dump in * by done. congruence.
Qed.

Lemma create_new_run e actor a c t cid rh values d k d' : store_ok d ->
  create_new e actor a c t cid rh values d = (Ok k, d') ->
  let scope := scope_of a in
  let p := share_payload_of e actor c t in
  let row := new_share_row e scope rh p in
  let ev := new_event e scope (state_in scope d) (ea_share_revision a) cid ShareCreated (u (p_id actor))
              (ec_recipient_id c) (es_share_id e) rh (es_now e) d in
  d' = grown d (sd_shares d ++ [row]) scope (ea_share_revision a) ev /\
  match state_in scope d with None => True | Some st => sy_revision st = ea_share_revision a end /\
  Z.of_nat (length values) < MAX_SHARES /\ ~ history_full (state_in scope d) /\
  Forall (fun r => ~ share_clash row r) (sd_shares d) /\ Forall (fun x => ~ event_clash ev x) (sd_history d) /\
  payload_of row = Ok p /\
  k = {| et_audit_id := es_audit_id e; et_command_id := cid; et_action := ShareCreated;
         et_share_revision := ea_share_revision a + 1; et_share := share_of (es_share_id e) p (None, None);
         et_access_token := es_token e |}.
Proof.
  intros Hd Hc. unfold EventSharing.create_new in Hc. inv_M.
  match goal with Hx : read_state _ _ = Ok _ |- _ => rewrite read_state_ok in Hx by done end. inv_ok. subst.
  match goal with Hx : sql_insert _ _ _ = Ok _ |- _ => apply sql_insert_ok in Hx as [-> Hr] end.
  match goal with Hx : insert_event _ _ _ _ _ _ _ _ _ _ _ _ = (Ok ?z, _) |- _ =>
    destruct z as [aid rev]; apply insert_event_run in Hx as (-> & -> & _ & He & _ & ->) end.
  inv_M. match goal with Hx : decrypt_row _ _ = Ok _ |- _ => unfold EventSharing.decrypt_row in Hx end. inv_ok. inv_M. passed.
  match goal with Hx : payload_of _ = Ok _ |- _ => pose proof Hx as Hp; apply payload_new in Hx as -> end;
    [|by apply not_true_is_false].
  cbv zeta. split_and!; try done; try lia.
  - destruct (state_in _ _); [congruence|done].
  - cbn. f_equal. destruct (state_in _ _); [congruence|done].
Qed.

(** Every event of a history is about a share that the history created. *)
Lemma placed_created l : placed no_trail l -> forall e, e ∈ l -> kind_of ShareCreated (se_share_id e) l <> [].
Proof.
  induction l as [|x l IH] using rev_ind; intros Hp e He; [by apply elem_of_nil in He|].
  apply placed_app in Hp as [Hp [(_ & _ & Hm) _]]. fold (trail_of l) in Hm. rewrite kind_snoc.
  apply elem_of_app in He as [He|He%list_elem_of_singleton].
  - intros [Hn _]%app_eq_nil. by apply (IH Hp e He).
  - subst x. intros [Hn Hs]%app_eq_nil. apply created_recorded, dict_get_None in Hn. unfold misplaced in Hm.
    destruct (se_action e) eqn:Ea; [by rewrite decide_True in Hs by done|apply Hm; by left|apply Hm; by left].
Qed.

Lemma kind_none a id l e : kind_of a id l = [] -> e ∈ l -> se_share_id e = id -> se_action e <> a.
Proof.
  intros Hk He Hid Ha. assert (e ∈ kind_of a id l) as Hin by (by apply list_elem_of_filter).
  rewrite Hk in Hin. by apply elem_of_nil in Hin.
Qed.

Lemma kind_empty a id l : (forall e, e ∈ l -> se_share_id e <> id) -> kind_of a id l = [].
Proof. intros Hl. apply elem_of_nil_inv. intros e [[_ Hid] He]%list_elem_of_filter. by apply (Hl e). Qed.

(** The id of no stored share is the id of no event. *)
Lemma fresh_id d s id : store_ok d -> id ∉ sw_id <$> sd_shares d ->
  forall e, e ∈ events_in s (sd_history d) -> se_share_id e <> id.
Proof.
  intros Hd Hf e He <-. pose proof (ok_scopes _ Hd s) as Hs. apply Hf.
  pose proof (placed_created _ (so_placed _ _ _ Hs) e He) as Hc. apply (so_ids _ _ _ Hs) in Hc.
  apply list_elem_of_fmap in Hc as (r & -> & Hr). apply list_elem_of_filter in Hr as [_ Hr]. by apply list_elem_of_fmap_2.
Qed.

Lemma shares_snoc s l r : shares_in s (l ++ [r]) = shares_in s l ++ (if decide (sw_scope r = s) then [r] else []).
Proof. unfold shares_in. by rewrite filter_app, filter_cons, filter_nil. Qed.

Lemma values_length s d values : Forall2 (read_as (trail_in s d)) (sorted_shares s d) values ->
  length values = length (shares_in s (sd_shares d)).
Proof. intros Hv. rewrite <- (Forall2_length _ _ _ Hv). apply py_sorted_length. Qed.

Lemma fresh_row row d : Forall (fun r => ~ share_clash row r) (sd_shares d) -> sw_id row ∉ sw_id <$> sd_shares d.
Proof.
  rewrite Forall_forall. intros Hc (r & Hr & Hin)%list_elem_of_fmap. apply (Hc r Hin). by left.
Qed.

(** The share that [create] adds keeps the invariant. *)
Lemma create_new_ok e actor a c t cid rh values d k d' : store_ok d ->
  Forall2 (read_as (trail_in (scope_of a) d)) (sorted_shares (scope_of a) d) values ->
  create_new e actor a c t cid rh values d = (Ok k, d') -> store_ok d'.
Proof.
  intros Hd Hv Hc. destruct (create_new_run _ _ _ _ _ _ _ _ _ _ _ Hd Hc) as (-> & _ & Hlen & Hfull & Hclash & _ & Hp & _).
  set (row := new_share_row e (scope_of a) rh (share_payload_of e actor c t)) in *.
  pose proof (ok_scopes _ Hd (scope_of a)) as Hs.
  assert (es_share_id e ∉ sw_id <$> sd_shares d) as Hfresh by (by apply fresh_row in Hclash).
  rewrite Forall_forall in Hclash.
  pose proof (fresh_id d (scope_of a) _ Hd Hfresh) as Hid.
  apply grown_ok; try done.
  - cbn. rewrite <- dict_get_None, created_recorded. by apply kind_empty.
  - apply snoc_column; [apply (ok_ids _ Hd)|]. apply Forall_forall. intros r Hr E. apply (Hclash r Hr). by left.
  - apply snoc_column; [apply (ok_tokens _ Hd)|]. apply Forall_forall. intros r Hr E. apply (Hclash r Hr). by right.
  - intros s Hsc. rewrite shares_snoc, decide_False by (cbn; congruence). apply app_nil_r.
  - intros id. rewrite shares_snoc, decide_True, fmap_app, elem_of_app, kind_snoc, (so_ids _ _ _ Hs) by done. cbn.
    destruct (decide (ShareCreated = ShareCreated /\ es_share_id e = id)) as [[_ <-]|Hn].
    + split; [|intros _; right; by left]. by intros _ [_ ?]%app_eq_nil.
    + rewrite app_nil_r. split; [|by left]. intros [|Hx%list_elem_of_singleton]; [done|]. by destruct Hn.
  - intros r Hr. rewrite shares_snoc, decide_True in Hr by done. unfold redemptions.
    rewrite trail_snoc, creates_next, kind_snoc. cbn. rewrite (decide_False (P := ShareCreated = ShareRedeemed /\ _)), app_nil_r by (by intros []).
    apply elem_of_app in Hr as [Hr|Hr%list_elem_of_singleton]; [|subst r].
    + destruct (so_rows _ _ _ Hs r Hr) as (p & Hp' & Hc' & Hone). exists p. split; [done|].
      rewrite decide_False; [done|]. intros [_ E]. apply Hfresh. rewrite E.
      apply list_elem_of_filter in Hr as [_ Hr]. by apply list_elem_of_fmap_2.
    + exists (share_payload_of e actor c t). rewrite decide_True by done. split_and!; [done|done|].
      intros _. cbn. rewrite kind_empty by done. cbn. lia.
  - rewrite shares_snoc, decide_True, length_app by done. cbn. rewrite (values_length _ _ _ Hv) in Hlen. lia.
Qed.

Lemma share_create_ok e actor bytes a c d k d' : store_ok d -> create e actor bytes a c d = (Ok k, d') -> store_ok d'.
Proof.
  intros Hd Hc. destruct (share_create_outcome _ _ _ _ _ _ _ _ Hc) as (l & cid & t & E & values & _ & _ & _ & _ & _ & _ & _ & Hv & Hrun).
  apply verified_reads in Hv as [_ Hv]; [|done]. destruct (find_event _ _ _); [by destruct Hrun as [-> _]|].
  by apply create_new_ok in Hrun.
Qed.

(** A later event of a stored share keeps the invariant. *)
Lemma later_ok d row e base cid act actor rcp rh at_time :
  let scope := sw_scope row in
  let E := events_in scope (sd_history d) in
  store_ok d -> row ∈ sd_shares d -> act <> ShareCreated -> kind_of ShareRevoked (sw_id row) E = [] ->
  (act <> ShareRevoked -> ~ history_full (state_in scope d)) ->
  (act = ShareRedeemed -> forall p, payload_of row = Ok p -> py_access_mode p = OneTime -> redemptions (sw_id row) E = []) ->
  store_ok (grown d (sd_shares d) scope base
    (new_event e scope (state_in scope d) base cid act actor rcp (sw_id row) rh at_time d)).
Proof.
  intros scope E Hd Hrow Hact Hrev Hfull Hone. pose proof (ok_scopes _ Hd scope) as Hs. fold E in Hs.
  assert (row ∈ shares_in scope (sd_shares d)) as Hin by (by apply list_elem_of_filter).
  apply grown_ok; fold E; try done; [|apply (ok_ids _ Hd)|apply (ok_tokens _ Hd)| | |apply (so_shares _ _ _ Hs)].
  - intros Hm%misplaced_recorded. cbn in Hm.
    assert (kind_of ShareCreated (sw_id row) E <> []) as Hc by (by apply (so_ids _ _ _ Hs), list_elem_of_fmap_2).
    destruct act; [done| |]; by destruct Hm.
  - intros id. rewrite kind_snoc, (so_ids _ _ _ Hs). cbn. rewrite decide_False by naive_solver. by rewrite app_nil_r.
  - intros r Hr. destruct (so_rows _ _ _ Hs r Hr) as (p & Hp & Hc & Ho). exists p. split; [done|].
    rewrite trail_snoc, creates_next. unfold redemptions in *. rewrite kind_snoc. cbn.
    rewrite decide_False by naive_solver. split; [done|]. intros Hm. specialize (Ho Hm). rewrite length_app.
    destruct (decide (act = ShareRedeemed /\ sw_id row = sw_id r)) as [[Ha Hid]|_]; [|cbn; lia].
    assert (r = row) as ->.
    { apply (nodup_column_inj sw_id (sd_shares d)); try done; [apply (ok_ids _ Hd)|].
      by apply list_elem_of_filter in Hr as [_ ?]. }
    by rewrite (Hone Ha p Hp Hm).
Qed.

(** What the values that [verified] read say of a row that is found by its
    token or by its id. *)
Lemma row_value d s values r share token : store_ok d -> Forall2 (read_as (trail_in s d)) (sorted_shares s d) values ->
  r ∈ sd_shares d -> sw_scope r = s -> dict_get values (sw_id r) = Some (share, token) ->
  exists p, payload_of r = Ok p /\ share = share_of (sw_id r) p (status_in (trail_in s d) (sw_id r)) /\
    token = py_access_token p.
Proof.
  intros Hd Hv Hr Hs Hg. destruct (so_rows _ _ _ (ok_scopes _ Hd s) r) as (p & Hp & _); [by apply list_elem_of_filter|].
  exists p. split; [done|]. assert (r ∈ sorted_shares s d) as Hin by (by apply sorted_elem).
  rewrite (read_get _ _ _ _ _ (scope_ids_nodup _ _ Hd) Hv Hin (ex_intro _ p (conj Hp eq_refl))) in Hg. cbn in Hg.
  by injection Hg as <- <-.
Qed.

(** The shares that may be accessed, and how. *)
Definition accessible (d : share_db) (row : share_row) (p : share_payload) (recipient_id access_token : ustr)
    (timestamp : Z) : Prop :=
  row ∈ sd_shares d /\ payload_of row = Ok p /\ py_access_token p = access_token /\ py_recipient_id p = recipient_id /\
  timestamp < py_expires_at p /\ kind_of ShareRevoked (sw_id row) (events_in (sw_scope row) (sd_history d)) = [] /\
  (py_access_mode p = OneTime -> redemptions (sw_id row) (events_in (sw_scope row) (sd_history d)) = []).
Definition access_to (row : share_row) (p : share_payload) : share_access :=
  {| sa_shareId := sw_id row; sa_outputArtifactId := py_output_artifact_id p; sa_outputDigest := py_output_digest p;
     sa_expiresAt := py_expires_at p |}.

Lemma available d s row p token recipient_id timestamp : row ∈ sd_shares d -> sw_scope row = s -> payload_of row = Ok p ->
  ~ unavailable (share_of (sw_id row) p (status_in (trail_in s d) (sw_id row))) (py_access_token p) token recipient_id timestamp
  <-> accessible d row p recipient_id token timestamp.
Proof.
  intros Hr <- Hp. unfold unavailable, accessible. cbn. rewrite <- revoked_recorded. unfold redemptions in *.
  pose proof (redeemed_consumed (events_in (sw_scope row) (sd_history d)) (sw_id row)) as Hc. unfold redemptions in Hc.
  split.
  - intros Hn. passed. split_and!; try done; [lia|]. intros Hm. apply Hc.
    apply dec_stable. intros Hcon. match goal with Hx : ~ (_ /\ _) |- _ => by apply Hx end.
  - intros (_ & _ & Ht & Hrc & He & Hv & Ho). intros [Hn|[Hn|[Hn|[Hn|[Hm Hn]]]]]; try done; [lia|].
    by apply Hn, Hc, Ho.
Qed.

Definition access_hash (recipient_id access_id : ustr) (row : share_row) : string :=
  fingerprint_json "access" (access_values recipient_id access_id (sw_id row)).
(** The event of an access. *)
Definition redeemed_event (e : share_env) (d : share_db) (row : share_row) (base : Z) (recipient_id access_id : ustr)
    (timestamp : Z) : share_event :=
  new_event e (sw_scope row) (state_in (sw_scope row) d) base access_id ShareRedeemed recipient_id recipient_id (sw_id row)
    (access_hash recipient_id access_id row) timestamp d.

Lemma redeem_run e rcp tok aid now d x d' : store_ok d -> redeem e rcp tok aid now d = (Ok x, d') ->
  exists row p, accessible d row p rcp tok (default (es_now e) now) /\ x = access_to row p /\ readable (sw_scope row) d /\
  match find_event d (sw_scope row) aid with
  | Some old => d' = d /\ se_action old = ShareRedeemed /\ se_recipient_id old = rcp
  | None => ~ history_full (state_in (sw_scope row) d) /\
      exists base, let ev := redeemed_event e d row base rcp aid (default (es_now e) now) in
        Forall (fun y => ~ event_clash ev y) (sd_history d) /\ d' = grown d (sd_shares d) (sw_scope row) base ev
  end.
Proof.
  intros Hd Hr. unfold EventSharing.redeem in Hr. inv_M.
  match goal with Hx : sql_one _ _ = Some ?r |- _ => rename r into row; apply sql_one_some in Hx as [Hrow Htok] end.
  match goal with Hx : verified _ _ = Ok ?z |- _ => destruct z as [E values]; rename Hx into Hv end.
  apply verified_reads in Hv as [Hread Hv]; [|done]. inv_M.
  match goal with Hx : dict_get _ _ = Some ?z |- _ => destruct z as [share token]; rename Hx into Hg end.
  destruct (row_value _ _ _ _ _ _ Hd Hv Hrow eq_refl Hg) as (p & Hp & -> & ->). inv_M.
  match goal with Hx : ~ unavailable _ _ _ _ _ |- _ => apply available in Hx; try done; rename Hx into Ha end.
  exists row, p. split; [done|].
  destruct (find_event x5 (sw_scope row) aid) as [old|]; inv_M; [passed; done|].
  match goal with Hx : read_state _ _ = Ok _ |- _ => rewrite read_state_ok in Hx by done end. inv_ok. subst.
  destruct (state_in (sw_scope row) x5) as [st|] eqn:Es; inv_M.
  match goal with Hx : insert_event _ _ _ _ _ _ _ _ _ _ _ _ = (Ok ?z, _) |- _ =>
    destruct z as [aid' rev]; apply insert_event_run in Hx as (_ & _ & _ & He & _ & ->) end.
  split_and!; try done. exists (sy_base_revision st). unfold redeemed_event, grown. by rewrite Es.
Qed.

Lemma redeem_ok e rcp tok aid now d x d' : store_ok d -> redeem e rcp tok aid now d = (Ok x, d') -> store_ok d'.
Proof.
  intros Hd Hr. destruct (redeem_run _ _ _ _ _ _ _ _ Hd Hr) as (row & p & Ha & _ & _ & Hrun).
  destruct (find_event _ _ _); [by destruct Hrun as [-> _]|]. destruct Hrun as (Hfull & base & _ & ->).
  destruct Ha as (Hrow & Hp & _ & _ & _ & Hrev & Hone). apply later_ok; try done.
  intros _ q Hq. rewrite Hp in Hq. by injection Hq as <-.
Qed.

(** The share that the owner, or an administrator, may revoke. *)
Definition revocable (d : share_db) (actor : Principal) (a : EventShareAuthority) (row : share_row) (p : share_payload) : Prop :=
  row ∈ sd_shares d /\ sw_scope row = scope_of a /\ payload_of row = Ok p /\
  (p_role actor = Admin \/ py_owner_id p = u (p_id actor)) /\
  kind_of ShareRevoked (sw_id row) (events_in (scope_of a) (sd_history d)) = [].

Lemma revoke_outcome e actor bytes a d k d' : revoke e actor bytes a d = (Ok k, d') ->
  exists l cid sid E values, authorize actor a true = Ok tt /\ parse loads bytes revoke_fields = Ok l /\ in_scope l a /\
  has_text l "action" (u "revoke") /\ identifier_at l "commandId" = Some cid /\ identifier_at l "shareId" = Some sid /\
  verified d (scope_of a) = Ok (E, values) /\
  match find_event d (scope_of a) cid with
  | Some old => d' = d /\ se_action old = ShareRevoked /\ se_request_hash old = fingerprint "request" bytes /\
      replayed old cid ShareRevoked values (fun _ => []) = Ok k
  | None => revoke_new e actor a cid sid (fingerprint "request" bytes) values d = (Ok k, d')
  end.
Proof.
  unfold EventSharing.revoke. intros Hc. inv_M.
  match goal with Hx : authorize _ _ _ = Ok ?z |- _ => destruct z end.
  match goal with Hx : check_command_scope _ _ = Ok _ |- _ => unfold check_command_scope in Hx end. inv_ok.
  match goal with Hx : verified _ _ = Ok ?z |- _ => destruct z as [E values] end. cbn in Hc.
  do 5 eexists. split_and!; try done; try (by apply dec_stable).
  destruct (find_event _ _ _) as [old|]; [|done]. inv_M. passed. naive_solver.
Qed.

Lemma revoke_new_run e actor a cid sid rh values d k d' : store_ok d ->
  Forall2 (read_as (trail_in (scope_of a) d)) (sorted_shares (scope_of a) d) values ->
  revoke_new e actor a cid sid rh values d = (Ok k, d') ->
  exists row p base, revocable d actor a row p /\ sw_id row = sid /\
  let ev := new_event e (scope_of a) (state_in (scope_of a) d) base cid ShareRevoked (u (p_id actor)) (py_recipient_id p)
              sid rh (es_now e) d in
  Forall (fun y => ~ event_clash ev y) (sd_history d) /\ d' = grown d (sd_shares d) (scope_of a) base ev /\
  k = {| et_audit_id := es_audit_id e; et_command_id := cid; et_action := ShareRevoked;
         et_share_revision := ea_share_revision a + 1;
         et_share := set_revoked_at (es_now e) (share_of sid p (status_in (trail_in (scope_of a) d) sid));
         et_access_token := [] |}.
Proof.
  intros Hd Hv Hr. unfold EventSharing.revoke_new in Hr. inv_M.
  match goal with Hx : read_state _ _ = Ok _ |- _ => rewrite read_state_ok in Hx by done end. inv_ok. subst.
  match goal with Hx : dict_get _ _ = Some ?z |- _ => destruct z as [share token]; rename Hx into Hg end.
  destruct (read_get_inv _ _ _ _ _ Hv Hg) as (row & [Hrow Hs]%sorted_elem & Hid & p & Hp & [= -> -> ->]). inv_M.
  match goal with Hx : insert_event _ _ _ _ _ _ _ _ _ _ _ _ = (Ok ?z, _) |- _ =>
    destruct z as [aid rev]; apply insert_event_run in Hx as (-> & -> & _ & He & _ & ->) end.
  inv_M. passed.
  match goal with Hx : state_in _ _ = Some ?st |- _ => rename st into s; rename Hx into Est end.
  exists row, p, (sy_base_revision s). rewrite Est. unfold revocable. split_and!; try done.
  - destruct (decide (p_role actor = Admin)); [by left|right].
    match goal with Hx : ~ (_ /\ _) |- _ => apply dec_stable; intros Hn; by apply Hx end.
  - by apply revoked_recorded.
  - unfold grown. by rewrite Est.
  - f_equal. lia.
Qed.

Lemma revoke_ok e actor bytes a d k d' : store_ok d -> revoke e actor bytes a d = (Ok k, d') -> store_ok d'.
Proof.
  intros Hd Hr. destruct (revoke_outcome _ _ _ _ _ _ _ Hr) as (l & cid & sid & E & values & _ & _ & _ & _ & _ & _ & Hv & Hrun).
  apply verified_reads in Hv as [_ Hv]; [|done]. destruct (find_event _ _ _); [by destruct Hrun as [-> _]|].
  destruct (revoke_new_run _ _ _ _ _ _ _ _ _ _ Hd Hv Hrun) as (row & p & base & (Hrow & Hs & Hp & _ & Hrev) & <- & _ & -> & _).
  rewrite <- Hs in *. by apply later_ok.
Qed.

(** ** Histories of calls *)

Inductive share_step (d d' : share_db) : Prop :=
  | step_create e actor bytes a c k : create e actor bytes a c d = (Ok k, d') -> share_step d d'
  | step_redeem e rcp tok aid now x : redeem e rcp tok aid now d = (Ok x, d') -> share_step d d'
  | step_revoke e actor bytes a k : revoke e actor bytes a d = (Ok k, d') -> share_step d d'.
(** A database that calls made from the empty one. *)
Definition in_use (d : share_db) : Prop := rtc share_step no_shares d.

Lemma share_step_ok d d' : share_step d d' -> store_ok d -> store_ok d'.
Proof. intros [] Hd; [by eapply share_create_ok|by eapply redeem_ok|by eapply revoke_ok]. Qed.
Lemma share_run_ok d d' : rtc share_step d d' -> store_ok d -> store_ok d'.
Proof. induction 1; [done|]. intros. eauto using share_step_ok. Qed.
Lemma share_in_use_ok d : in_use d -> store_ok d.
Proof. intros Hd. apply (share_run_ok _ _ Hd), no_shares_ok. Qed.

Lemma create_rolls_back e actor bytes a c : rolls_back (create e actor bytes a c).
Proof. unfold EventSharing.create. auto 20 with rollback. Qed.
Lemma redeem_rolls_back e rcp tok aid now : rolls_back (redeem e rcp tok aid now).
Proof. unfold EventSharing.redeem. auto 20 with rollback. Qed.
Lemma revoke_rolls_back e actor bytes a : rolls_back (revoke e actor bytes a).
Proof. unfold EventSharing.revoke. auto 20 with rollback. Qed.

(** Nothing is deleted. *)
Lemma share_step_grows d d' : share_step d d' -> store_ok d ->
  (forall r, r ∈ sd_shares d -> r ∈ sd_shares d') /\ exists l, sd_history d' = sd_history d ++ l.
Proof.
  intros [e actor bytes a c k Hs|e rcp tok aid now x Hs|e actor bytes a k Hs] Hd.
  - destruct (share_create_outcome _ _ _ _ _ _ _ _ Hs) as (l & cid & t & E & values & _ & _ & _ & _ & _ & _ & _ & Hv & Hrun).
    destruct (find_event _ _ _); [destruct Hrun as [-> _]; split; [done|exists []; by rewrite app_nil_r]|].
    destruct (create_new_run _ _ _ _ _ _ _ _ _ _ _ Hd Hrun) as (-> & _). cbn. split; [|by eexists].
    intros r Hr. apply elem_of_app. by left.
  - destruct (redeem_run _ _ _ _ _ _ _ _ Hd Hs) as (row & p & _ & _ & _ & Hrun).
    destruct (find_event _ _ _); [destruct Hrun as [-> _]; split; [done|exists []; by rewrite app_nil_r]|].
    destruct Hrun as (_ & base & _ & ->). cbn. split; [done|by eexists].
  - destruct (revoke_outcome _ _ _ _ _ _ _ Hs) as (l & cid & sid & E & values & _ & _ & _ & _ & _ & _ & Hv & Hrun).
    apply verified_reads in Hv as [_ Hv]; [|done].
    destruct (find_event _ _ _); [destruct Hrun as [-> _]; split; [done|exists []; by rewrite app_nil_r]|].
    destruct (revoke_new_run _ _ _ _ _ _ _ _ _ _ Hd Hv Hrun) as (row & p & base & _ & _ & _ & -> & _). cbn.
    split; [done|by eexists].
Qed.
Lemma run_grows d d' : rtc share_step d d' -> store_ok d ->
  (forall r, r ∈ sd_shares d -> r ∈ sd_shares d') /\ exists l, sd_history d' = sd_history d ++ l.
Proof.
  induction 1 as [d|d1 d2 d3 Hs Hrun IH]; intros Hd; [split; [done|exists []; by rewrite app_nil_r]|].
  destruct (share_step_grows _ _ Hs Hd) as (Hr & l & Hl). destruct (IH (share_step_ok _ _ Hs Hd)) as (Hr' & l' & Hl').
  split; [auto|]. exists (l ++ l'). by rewrite Hl', Hl, app_assoc.
Qed.

(** The events of a share are in the history of its scope. *)
Lemma event_scope d row e : store_ok d -> row ∈ sd_shares d -> e ∈ sd_history d -> se_share_id e = sw_id row ->
  se_scope e = sw_scope row.
Proof.
  intros Hd Hr He Hid. pose proof (ok_scopes _ Hd (se_scope e)) as Hs.
  assert (e ∈ events_in (se_scope e) (sd_history d)) as Hin by (by apply list_elem_of_filter).
  apply (placed_created _ (so_placed _ _ _ Hs)), (so_ids _ _ _ Hs) in Hin.
  apply list_elem_of_fmap in Hin as (r & Hid' & [Hsc Hr']%list_elem_of_filter).
  rewrite (nodup_column_inj sw_id (sd_shares d) row r); try done; [apply (ok_ids _ Hd)|congruence].
Qed.

Lemma kind_scope d row a : store_ok d -> row ∈ sd_shares d ->
  kind_of a (sw_id row) (sd_history d) = kind_of a (sw_id row) (events_in (sw_scope row) (sd_history d)).
Proof.
  intros Hd Hr. unfold kind_of, events_in. rewrite list_filter_filter. apply filter_ext_in. intros e He.
  split; [|tauto]. intros [Ha Hid]. split; [done|]. by apply (event_scope d).
Qed.

(** A history revokes a share at most once. *)
Lemma revocations_unique l : placed no_trail l -> NoDup (se_share_id <$> filter (fun e => se_action e = ShareRevoked) l).
Proof.
  induction l as [|e l IH] using rev_ind; intros Hp; [constructor|].
  apply placed_app in Hp as [Hp [(_ & _ & Hm) _]]. fold (trail_of l) in Hm. rewrite filter_app, filter_cons, filter_nil.
  case_decide as Ha; [|rewrite app_nil_r; auto]. apply snoc_column; [auto|]. apply Forall_forall.
  intros x [Hx Hin]%list_elem_of_filter E. apply Hm, misplaced_recorded. rewrite Ha. right. intros Hn.
  by apply (kind_none _ _ _ _ Hn Hin).
Qed.

(** What one scope may hold: the redemptions and creations are limited by the
    call, the revocations by the shares. *)
Theorem shares_bounded d s : in_use d ->
  Z.of_nat (length (shares_in s (sd_shares d))) <= 256 /\
  Z.of_nat (length (events_in s (sd_history d))) <= 1024 + 256 /\
  match state_in s d with
  | None => events_in s (sd_history d) = []
  | Some st => sy_revision st = sy_base_revision st + Z.of_nat (length (events_in s (sd_history d)))
  end.
Proof.
  intros Hd%share_in_use_ok. pose proof (ok_scopes _ Hd s) as Hs. pose proof (so_shares _ _ _ Hs) as Hsh.
  pose proof (so_events _ _ _ Hs) as He. unfold MAX_SHARES, MAX_SHARE_EVENTS in *. split; [done|]. split.
  - set (E := events_in s (sd_history d)) in *.
    assert (length (filter (fun e => se_action e = ShareRevoked) E) <= length (shares_in s (sd_shares d)))%nat as Hrev.
    { rewrite <- (length_fmap se_share_id), <- (length_fmap sw_id). apply submseteq_length, NoDup_submseteq.
      - apply revocations_unique, (so_placed _ _ _ Hs).
      - intros id (e & -> & [_ Hin]%list_elem_of_filter)%list_elem_of_fmap. apply (so_ids _ _ _ Hs).
        by apply (placed_created _ (so_placed _ _ _ Hs)). }
    assert (length E = length (filter (fun e => se_action e = ShareRevoked) E)
                     + length (filter (fun e => se_action e <> ShareRevoked) E))%nat as Hlen; [|lia].
    clear. induction E as [|e E IH]; [done|]. rewrite !filter_cons. cbn [length]. repeat case_decide; cbn [length]; (done || lia).
  - pose proof (so_state _ _ _ Hs) as Hst. destruct (state_in s d); [tauto|done].
Qed.

(** A history that calls made is always genuine: it reads back every event and
    every share, unless one share was redeemed more than 128 times, when nothing
    of the scope can be read. *)
Theorem share_store_valid d s : in_use d ->
  if decide (readable s d) then
    exists values, verified d s = Ok (events_in s (sd_history d), values) /\
      Forall2 (read_as (trail_in s d)) (sorted_shares s d) values
  else verified d s = Raise history_invalid.
Proof. intros Hd%share_in_use_ok. case_decide; [by apply verified_readable|by apply verified_overused]. Qed.

(** A share for one access is redeemed at most once: whatever is called, its
    history never records a second redemption. *)
Theorem one_time_share_once d row p : in_use d -> row ∈ sd_shares d -> payload_of row = Ok p ->
  py_access_mode p = OneTime -> (length (redemptions (sw_id row) (sd_history d)) <= 1)%nat.
Proof.
  intros Hd%share_in_use_ok Hr Hp Hm. unfold redemptions. rewrite kind_scope by done.
  destruct (so_rows _ _ _ (ok_scopes _ Hd (sw_scope row)) row) as (q & Hq & _ & Ho); [by apply list_elem_of_filter|].
  rewrite Hp in Hq. injection Hq as <-. by apply Ho.
Qed.

(** Who is given a share holds its token, is its recipient and comes before it
    expires; it was never revoked, and never redeemed if it is for one access.
    The access is recorded, or the recipient's access id was recorded before. *)
Theorem redeem_authorised e rcp tok aid now d x d' : in_use d -> redeem e rcp tok aid now d = (Ok x, d') ->
  exists row p, row ∈ sd_shares d /\ payload_of row = Ok p /\ py_access_token p = tok /\ py_recipient_id p = rcp /\
  default (es_now e) now < py_expires_at p /\ kind_of ShareRevoked (sw_id row) (sd_history d) = [] /\
  (py_access_mode p = OneTime -> redemptions (sw_id row) (sd_history d) = []) /\ x = access_to row p /\
  (d' = d /\ (exists old, find_event d (sw_scope row) aid = Some old /\ se_action old = ShareRedeemed /\ se_recipient_id old = rcp) \/
   exists ev, sd_history d' = sd_history d ++ [ev] /\ sd_shares d' = sd_shares d /\ se_action ev = ShareRedeemed /\
     se_share_id ev = sw_id row /\ se_recipient_id ev = rcp /\ se_command_id ev = aid).
Proof.
  intros Hd%share_in_use_ok Hr. destruct (redeem_run _ _ _ _ _ _ _ _ Hd Hr) as (row & p & Ha & -> & _ & Hrun).
  destruct Ha as (Hrow & Hp & Ht & Hrc & He & Hv & Ho). exists row, p. unfold redemptions in *.
  rewrite !kind_scope by done. split_and!; try done.
  destruct (find_event d (sw_scope row) aid) as [old|]; [left|right].
  - destruct Hrun as (-> & Ha & Hrec). split; [done|]. by exists old.
  - destruct Hrun as (_ & base & _ & ->). by eexists.
Qed.

Lemma kind_grows a id l l' : kind_of a id l <> [] -> kind_of a id (l ++ l') <> [].
Proof. rewrite kind_app. by intros Hn [? _]%app_eq_nil. Qed.

(** The row of a token. *)
Lemma token_row d r1 r2 p1 p2 : store_ok d -> r1 ∈ sd_shares d -> r2 ∈ sd_shares d -> payload_of r1 = Ok p1 ->
  payload_of r2 = Ok p2 -> py_access_token p1 = py_access_token p2 -> r1 = r2.
Proof.
  intros Hd H1 H2 Hp1 Hp2 E. apply (nodup_column_inj sw_token_hash (sd_shares d)); try done; [apply (ok_tokens _ Hd)|].
  unfold EventSharing.payload_of in Hp1, Hp2. inv_ok. passed. congruence.
Qed.

(** C33 Once a share is revoked, its token opens nothing, whatever is called in between. *)
Theorem revoked_share_closed d d' row p e rcp aid now : in_use d -> row ∈ sd_shares d -> payload_of row = Ok p ->
  kind_of ShareRevoked (sw_id row) (sd_history d) <> [] -> rtc share_step d d' ->
  exists x, redeem e rcp (py_access_token p) aid now d' = (Raise x, d').
Proof.
  intros Hd%share_in_use_ok Hr Hp Hv Hrun. pose proof (share_run_ok _ _ Hrun Hd) as Hd'.
  destruct (redeem e rcp (py_access_token p) aid now d') as [[x|x] d''] eqn:E.
  - exfalso. destruct (redeem_run _ _ _ _ _ _ _ _ Hd' E) as (row' & p' & (Hr' & Hp' & Ht & _ & _ & Hv' & _) & _).
    destruct (run_grows _ _ Hrun Hd) as (Hg & l & Hl).
    assert (row' = row) as -> by (eapply token_row; eauto). rewrite <- kind_scope in Hv' by done.
    rewrite Hl in Hv'. by apply kind_grows in Hv'.
  - exists x. f_equal. by apply redeem_rolls_back in E.
Qed.

(** *** Creation *)

Lemma check_transformation_sound c l t : check_transformation transformation_proof c l = Ok t ->
  tf_source_digest t <> tf_output_digest t /\ ec_required_masks c ⊆ tf_masks t /\ ec_required_metadata c ⊆ tf_metadata t.
Proof. unfold check_transformation. intros Ht. inv_ok. cbn. passed. split_and!; try done; by apply dec_stable. Qed.

(** A share that is created says what the consent says, for at most seven days,
    masks and removes at least what the consent demands, and opens with its token
    until it expires; otherwise the command was created before. *)
Theorem create_sound e actor bytes a c d k d' : in_use d -> create e actor bytes a c d = (Ok k, d') ->
  (d' = d /\ exists old, old ∈ sd_history d /\ se_action old = ShareCreated /\ se_actor_id old = u (p_id actor) /\
     se_request_hash old = fingerprint "request" bytes) \/
  exists row p, sd_shares d' = sd_shares d ++ [row] /\ payload_of row = Ok p /\ sw_scope row = scope_of a /\
    py_owner_id p = u (p_id actor) /\ ec_granted_by c = u (p_id actor) /\ py_recipient_id p = ec_recipient_id c /\
    py_purpose p = ec_purpose c /\ py_access_mode p = ec_access_mode c /\ py_expires_at p = ec_expires_at c /\
    ec_accepted_at c <= es_now e < py_expires_at p /\
    py_expires_at p <= es_now e + seconds (7 * 24 * 60 * 60) /\
    py_source_digest p <> py_output_digest p /\ ec_required_masks c ⊆ py_mask_types p /\
    ec_required_metadata c ⊆ py_removed_metadata p /\
    forall t, t < py_expires_at p -> accessible d' row p (ec_recipient_id c) (et_access_token k) t.
Proof.
  intros Hd%share_in_use_ok Hc. destruct (share_create_outcome _ _ _ _ _ _ _ _ Hc)
    as (l & cid & t & E & values & _ & _ & _ & _ & _ & Hcov & Ht & Hv & Hrun).
  destruct (find_event _ _ _) as [old|] eqn:Ef.
  { left. destruct Hrun as (-> & Ha & Hact & Hh & _). apply sql_one_some in Ef as [Hin _]. eauto 10. }
  right. destruct (create_new_run _ _ _ _ _ _ _ _ _ _ _ Hd Hrun) as (-> & _ & _ & _ & Hclash & _ & Hp & ->).
  destruct Hcov as (Hg & _ & Hacc & Hexp & Hmax & _). apply check_transformation_sound in Ht as (Hdig & Hm & Hmeta).
  set (row := new_share_row e _ _ _) in *. exists row, (share_payload_of e actor c t).
  cbn [grown sd_shares et_access_token]. split_and!; try done.
  - cbn. unfold MAX_ACCESS_SECONDS in Hmax. lia.
  - intros x Hx. cbn. apply py_sorted_elem. by apply Hm.
  - intros x Hx. cbn. apply py_sorted_elem. by apply Hmeta.
  - intros x Hx. unfold accessible. cbn [sw_scope row]. change (sw_scope row) with (scope_of a). 
    rewrite grown_events by done. rewrite decide_True by done. unfold redemptions. rewrite !kind_snoc. cbn.
    assert (es_share_id e ∉ sw_id <$> sd_shares d) as Hfresh by (by apply fresh_row in Hclash).
    pose proof (fresh_id d (scope_of a) _ Hd Hfresh) as Hid. rewrite !(decide_False (P := ShareCreated = _ /\ _)), !app_nil_r by (by intros []).
    split_and!; try done; [apply elem_of_app; right; by apply list_elem_of_singleton|by apply kind_empty|].
    intros _. by apply kind_empty.
Qed.

(** A command that the history has is answered from it. *)
Lemma create_replays e actor bytes a c d l cid t E values old k : authorize actor a true = Ok tt ->
  parse loads bytes create_fields = Ok l -> in_scope l a -> has_text l "action" (u "create") ->
  identifier_at l "commandId" = Some cid -> consent_covers actor a c (es_now e) l ->
  check_transformation transformation_proof c l = Ok t -> verified d (scope_of a) = Ok (E, values) ->
  find_event d (scope_of a) cid = Some old -> se_action old = ShareCreated -> se_actor_id old = u (p_id actor) ->
  se_request_hash old = fingerprint "request" bytes -> replayed old cid ShareCreated values snd = Ok k ->
  create e actor bytes a c d = (Ok k, d).
Proof.
  intros Hauth Hparse Hscope Haction Hcid Hcov Ht Hv Hf Ha Hact Hh Hr. unfold EventSharing.create.
  rewrite lift_bind, Hauth, lift_bind, Hparse, lift_bind. unfold check_command_scope.
  rewrite (raise_if_no (~ in_scope _ _)) by (by intros []). rewrite lift_bind, raise_if_no by (by intros []).
  rewrite lift_bind, Hcid. cbn [require_some]. rewrite lift_bind, raise_if_no by (by intros []). rewrite lift_bind, Ht.
  apply transaction_ok. cbn [mbind M_bind get_state]. unfold get_state, mbind at 1, M_bind at 1. rewrite lift_bind, Hv, Hf.
  rewrite lift_bind, raise_if_no by (intros [Hn|[Hn|Hn]]; by apply Hn). by rewrite Hr.
Qed.

Lemma untouched l id : kind_of ShareRevoked id l = [] -> redemptions id l = [] -> status_in (trail_of l) id = (None, None).
Proof.
  intros Hv Hr. apply revoked_recorded in Hv. apply redeemed_consumed in Hr. destruct (status_in _ _); cbn in *; congruence.
Qed.

(** Trying again with the same bytes gives the same receipt, token included,
    and changes nothing. *)
Theorem create_retried e e' actor bytes a c d k d' : in_use d -> create e actor bytes a c d = (Ok k, d') ->
  es_now e <= es_now e' < ec_expires_at c -> create e' actor bytes a c d' = (Ok k, d').
Proof.
  intros Hd%share_in_use_ok Hc Hnow. pose proof (share_create_ok _ _ _ _ _ _ _ _ Hd Hc) as Hd'.
  destruct (share_create_outcome _ _ _ _ _ _ _ _ Hc)
    as (l & cid & t & E & values & Hauth & Hparse & Hscope & Haction & Hcid & Hcov & Ht & Hv & Hrun).
  assert (consent_covers actor a c (es_now e') l) as Hcov'.
  { destruct Hcov as (H1 & H2 & H3 & H4 & H5 & H6). split_and!; try done; try lia; apply H6. }
  destruct (find_event d (scope_of a) cid) as [old|] eqn:Ef.
  { destruct Hrun as (-> & Ha & Hact & Hh & Hk). by eapply create_replays. }
  apply verified_reads in Hv as [Hread _]; [|done].
  destruct (create_new_run _ _ _ _ _ _ _ _ _ _ _ Hd Hrun) as (-> & Hrev & _ & _ & Hclash & _ & Hp & ->).
  set (row := new_share_row e _ _ _) in *. set (ev := new_event _ _ _ _ _ _ _ _ _ _ _ d) in *.
  set (d' := grown _ _ _ _ _) in *.
  assert (es_share_id e ∉ sw_id <$> sd_shares d) as Hfresh by (by apply fresh_row in Hclash).
  pose proof (fresh_id d (scope_of a) _ Hd Hfresh) as Hid.
  assert (events_in (scope_of a) (sd_history d') = events_in (scope_of a) (sd_history d) ++ [ev]) as Hev.
  { unfold d'. rewrite grown_events by done. by rewrite decide_True. }
  assert (readable (scope_of a) d') as Hread'.
  { apply readable_iff. intros id. rewrite Hev. unfold redemptions. rewrite kind_snoc. cbn.
    rewrite decide_False, app_nil_r by (by intros []). by apply readable_iff. }
  destruct (verified_readable _ _ Hd' Hread') as (values' & Hv' & Hf').
  eapply create_replays; try done.
  - unfold find_event. unfold d', grown. cbn [sd_history]. rewrite sql_one_app. 
    change (sql_one _ (sd_history d)) with (find_event d (scope_of a) cid). rewrite Ef, sql_one_single. by rewrite decide_True.
  - done.
  - done.
  - done.
  - unfold replayed. cbn. assert (row ∈ sorted_shares (scope_of a) d') as Hin.
    { apply sorted_elem. split; [|done]. unfold d', grown. cbn. apply elem_of_app. right. by left. }
    change (es_share_id e) with (sw_id row) at 1.
    rewrite (read_get _ _ _ _ _ (scope_ids_nodup _ _ Hd') Hf' Hin (ex_intro _ _ (conj Hp eq_refl))). cbn [require_some mbind res_bind snd fst].
    rewrite Hev, untouched; [|unfold redemptions; rewrite kind_snoc; cbn; rewrite decide_False, app_nil_r by (by intros []); by apply kind_empty..].
    f_equal. f_equal. cbn. destruct (state_in _ _); congruence.
Qed.


(** *** Redemption *)

(** An insertion that nothing prevents. *)
Lemma insert_event_total e scope state base cid act actor rcp sid rh at_time d :
  let row := new_event e scope state base cid act actor rcp sid rh at_time d in
  se_share_revision row <= MAX_REVISION -> sid ∈ sw_id <$> sd_shares d ->
  es_audit_id e ∉ se_audit_id <$> sd_history d -> find_event d scope cid = None ->
  insert_event e scope state base cid act actor rcp sid rh at_time d =
    (Ok (es_audit_id e, se_share_revision row),
     {| sd_shares := sd_shares d; sd_history := sd_history d ++ [row];
        sd_states := upsert_state (next_state scope state base row) (sd_states d) |}).
Proof.
  intros row Hrev Hsid Haudit Hfind. unfold EventSharing.insert_event. unfold mbind at 1, M_bind at 1, get_state.
  fold row. rewrite lift_bind, raise_if_no by lia. rewrite lift_bind, raise_if_no by (by intros []).
  rewrite lift_bind, sql_insert_total; [done|]. apply sql_one_none in Hfind. rewrite Forall_forall in Hfind.
  apply Forall_forall. intros x Hx [Hn|[Hn|[Hs Hc]]].
  - pose proof (next_key_above (se_sequence <$> sd_history d) (se_sequence x)) as Hk. cbn in Hn.
    rewrite Hn in Hk. apply (Z.lt_irrefl (se_sequence x)), Hk. by apply list_elem_of_fmap_2.
  - apply Haudit. cbn in Hn. rewrite Hn. by apply list_elem_of_fmap_2.
  - apply (Hfind x Hx). cbn in Hs, Hc. done.
Qed.

Lemma ascii_no_surrogate (s : ustr) : Forall (fun ch => ch < 128) s -> existsb is_surrogate s = false.
Proof.
  induction 1 as [|x s Hx _ IH]; [done|]. cbn. rewrite IH. unfold is_surrogate.
  by destruct (Z.leb_spec 0xD800 x); [lia|].
Qed.

Lemma token_found d row p : store_ok d -> row ∈ sd_shares d -> payload_of row = Ok p ->
  sql_one (fun r => sw_token_hash r = fingerprint "token" (py_access_token p)) (sd_shares d) = Some row.
Proof.
  intros Hd Hr Hp. apply sql_one_unique; [apply (ok_tokens _ Hd)|done|].
  unfold EventSharing.payload_of in Hp. inv_ok. by passed.
Qed.

(** [redeem] up to the point where it looks for a former access. *)
Lemma redeem_reads e rcp aid now d row p : store_ok d -> readable (sw_scope row) d ->
  accessible d row p rcp (py_access_token p) (default (es_now e) now) -> _identifier rcp -> _identifier aid ->
  Forall (fun ch => ch < 128) (py_access_token p) ->
  redeem e rcp (py_access_token p) aid now d = transaction (fun d =>
    match find_event d (sw_scope row) aid with
    | Some old =>
        (_ ← lift (raise_if (se_action old <> ShareRedeemed \/ se_recipient_id old <> rcp) (ApiError "share_unavailable" 404));
         mret (access_to row p)) d
    | None =>
        match state_in (sw_scope row) d with
        | None => (Raise (ApiError "share_unavailable" 404), d)
        | Some st =>
            (_ ← lift (raise_if (sy_event_count st >= MAX_SHARE_EVENTS) (ApiError "share_unavailable" 404));
             _ ← insert_event e (sw_scope row) (Some st) (sy_base_revision st) aid ShareRedeemed rcp rcp (sw_id row)
                   (access_hash rcp aid row) (default (es_now e) now);
             mret (access_to row p)) d
        end
    end) d.
Proof.
  intros Hd Hread Ha Hrcp Haid Hascii. pose proof Ha as (Hrow & Hp & _).
  destruct (verified_readable _ _ Hd Hread) as (values & Hv & Hf).
  assert (row ∈ sorted_shares (sw_scope row) d) as Hin by (by apply sorted_elem).
  pose proof (read_get _ _ _ _ _ (scope_ids_nodup _ _ Hd) Hf Hin (ex_intro _ p (conj Hp eq_refl))) as Hg. cbn [snd] in Hg.
  unfold EventSharing.redeem. rewrite lift_bind, raise_if_no by (intros [Hn|Hn]; by apply Hn).
  rewrite lift_bind, raise_if_no by (apply not_true_iff_false, ascii_no_surrogate; done).
  unfold transaction. unfold mbind at 1, M_bind at 1, get_state at 1. rewrite lift_bind, (token_found d row p) by done.
  cbn [require_some]. rewrite lift_bind, Hv, lift_bind, Hg. cbn [require_some]. rewrite lift_bind, raise_if_no.
  2:{ rewrite Exists_app, !Exists_exists. rewrite Forall_forall in Hascii.
      intros [(x & Hx & Hn)|(x & Hx & Hn)]; specialize (Hascii x Hx); lia. }
  rewrite lift_bind, raise_if_no by (by apply available). destruct (find_event _ _ _); [done|].
  rewrite lift_bind, read_state_ok by done. by destruct (state_in _ _).
Qed.

(** A share that may be accessed is given, and the access is recorded. *)
Lemma redeem_total e rcp aid now d row p st : store_ok d -> readable (sw_scope row) d ->
  accessible d row p rcp (py_access_token p) (default (es_now e) now) -> _identifier rcp -> _identifier aid ->
  Forall (fun ch => ch < 128) (py_access_token p) -> state_in (sw_scope row) d = Some st ->
  sy_event_count st < MAX_SHARE_EVENTS -> sy_revision st < MAX_REVISION ->
  find_event d (sw_scope row) aid = None -> es_audit_id e ∉ se_audit_id <$> sd_history d ->
  redeem e rcp (py_access_token p) aid now d = (Ok (access_to row p),
    grown d (sd_shares d) (sw_scope row) (sy_base_revision st)
      (redeemed_event e d row (sy_base_revision st) rcp aid (default (es_now e) now))).
Proof.
  intros Hd Hread Ha Hrcp Haid Hascii Hst Hfull Hrev Hfind Haudit. pose proof Ha as (Hrow & Hp & _).
  rewrite (redeem_reads _ _ _ _ _ _ _ Hd Hread Ha) by done. unfold transaction. rewrite Hfind, Hst.
  rewrite lift_bind, raise_if_no by lia. unfold mbind at 1, M_bind at 1.
  rewrite insert_event_total; [|cbn; lia|by apply list_elem_of_fmap_2|done|done].
  unfold redeemed_event, grown. by rewrite Hst.
Qed.

(** Whoever may access a share gets it, and the access is counted. *)
Theorem share_redeemable e rcp aid now d row p st : in_use d -> readable (sw_scope row) d ->
  accessible d row p rcp (py_access_token p) (default (es_now e) now) -> _identifier rcp -> _identifier aid ->
  Forall (fun ch => ch < 128) (py_access_token p) -> state_in (sw_scope row) d = Some st ->
  sy_event_count st < 1024 -> sy_revision st < MAX_REVISION ->
  find_event d (sw_scope row) aid = None -> es_audit_id e ∉ se_audit_id <$> sd_history d ->
  exists d', redeem e rcp (py_access_token p) aid now d = (Ok (access_to row p), d') /\
    length (redemptions (sw_id row) (sd_history d')) = S (length (redemptions (sw_id row) (sd_history d))).
Proof.
  intros Hd%share_in_use_ok Hread Ha Hrcp Haid Hascii Hst Hfull Hrev Hfind Haudit.
  eexists. split; [by eapply redeem_total|].
  cbn [grown sd_history]. unfold redemptions. rewrite kind_snoc, length_app. cbn. rewrite decide_True by done. cbn. lia.
Qed.

(** A recorded access of the recipient is taken for a retry whatever share it
    was to, and gives the share without a record. *)
Theorem access_id_reused e rcp aid now d row p old : in_use d -> readable (sw_scope row) d ->
  accessible d row p rcp (py_access_token p) (default (es_now e) now) -> _identifier rcp -> _identifier aid ->
  Forall (fun ch => ch < 128) (py_access_token p) -> find_event d (sw_scope row) aid = Some old ->
  se_action old = ShareRedeemed -> se_recipient_id old = rcp ->
  redeem e rcp (py_access_token p) aid now d = (Ok (access_to row p), d).
Proof.
  intros Hd%share_in_use_ok Hread Ha Hrcp Haid Hascii Hfind Hact Hrec. pose proof Ha as (Hrow & Hp & _).
  rewrite (redeem_reads _ _ _ _ _ _ _ Hd Hread Ha) by done. unfold transaction.
  rewrite Hfind, lift_bind, raise_if_no by (intros [Hn|Hn]; by apply Hn). done.
Qed.

(** A redemption is not refused because it is the last one that can be read:
    it is accepted, and from then on every call for its event fails. *)
Theorem overused_share_closes e rcp aid now d d' d'' row p x : in_use d -> row ∈ sd_shares d -> payload_of row = Ok p ->
  Z.of_nat (length (redemptions (sw_id row) (sd_history d))) = 128 -> find_event d (sw_scope row) aid = None ->
  redeem e rcp (py_access_token p) aid now d = (Ok x, d') -> rtc share_step d' d'' ->
  verified d'' (sw_scope row) = Raise history_invalid /\
  (forall e a actor bytes c, scope_of a = sw_scope row -> exists y, create e actor bytes a c d'' = (Raise y, d'')) /\
  (forall e a actor bytes, scope_of a = sw_scope row -> exists y, revoke e actor bytes a d'' = (Raise y, d'')) /\
  (forall actor a limit, scope_of a = sw_scope row -> exists y, export actor a limit d'' = Raise y) /\
  (forall e rcp aid now r q, r ∈ sd_shares d'' -> sw_scope r = sw_scope row -> payload_of r = Ok q ->
     exists y, redeem e rcp (py_access_token q) aid now d'' = (Raise y, d'')).
Proof.
  intros Hd%share_in_use_ok Hrow Hp H128 Hf Hr Hrun. pose proof (redeem_ok _ _ _ _ _ _ _ _ Hd Hr) as Hd'.
  pose proof (share_run_ok _ _ Hrun Hd') as Hd''. destruct (run_grows _ _ Hrun Hd') as (Hg & l & Hl).
  assert (~ readable (sw_scope row) d'') as Hn.
  { rewrite readable_iff. intros Hread. specialize (Hread (sw_id row)). unfold redemptions in *.
    destruct (redeem_run _ _ _ _ _ _ _ _ Hd Hr) as (row' & p' & (Hr' & Hp' & Ht & _) & _ & _ & Hrec).
    pose proof (token_row _ _ _ _ _ Hd Hr' Hrow Hp' Hp Ht) as ->. rewrite Hf in Hrec. destruct Hrec as (_ & base & _ & ->).
    assert (row ∈ sd_shares d'') as Hrow'' by (by apply Hg).
    rewrite <- kind_scope, Hl in Hread by done. cbn [grown sd_history] in Hread.
    rewrite !kind_app, !length_app, kind_one in Hread. cbn in Hread. rewrite decide_True in Hread by done. cbn [length] in Hread.
    unfold MAX_ACCESSES in Hread. lia. }
  pose proof (verified_overused _ _ Hd'' Hn) as Hv. split; [done|]. split_and!.
  - intros e' a actor bytes c Hs. destruct (create e' actor bytes a c d'') as [[k|y] d3] eqn:E.
    + destruct (share_create_outcome _ _ _ _ _ _ _ _ E) as (? & ? & ? & ? & ? & _ & _ & _ & _ & _ & _ & _ & Hv' & _).
      rewrite Hs in Hv'. congruence.
    + exists y. by rewrite (create_rolls_back _ _ _ _ _ _ _ _ E).
  - intros e' a actor bytes Hs. destruct (revoke e' actor bytes a d'') as [[k|y] d3] eqn:E.
    + destruct (revoke_outcome _ _ _ _ _ _ _ E) as (? & ? & ? & ? & ? & _ & _ & _ & _ & _ & _ & Hv' & _).
      rewrite Hs in Hv'. congruence.
    + exists y. by rewrite (revoke_rolls_back _ _ _ _ _ _ _ E).
  - intros actor a limit Hs. destruct (export actor a limit d'') as [k|y] eqn:E; [|by exists y].
    unfold EventSharing.export in E. inv_ok. rewrite Hs in *. congruence.
  - intros e' rcp' aid' now' r q Hin Hs Hq. destruct (redeem e' rcp' (py_access_token q) aid' now' d'') as [[k|y] d3] eqn:E.
    + destruct (redeem_run _ _ _ _ _ _ _ _ Hd'' E) as (r' & q' & (Hr' & Hq' & Ht & _) & _ & Hread & _).
      pose proof (token_row _ _ _ _ _ Hd'' Hr' Hin Hq' Hq Ht) as ->. by rewrite Hs in Hread.
    + exists y. by rewrite (redeem_rolls_back _ _ _ _ _ _ _ _ E).
Qed.

(** *** Export *)

Definition shown (actor : Principal) (s : share_scope) (d : share_db) : list PrivateEventShare :=
  filter (fun x => p_role actor = Admin \/ ps_owner_id x = u (p_id actor))
    (omap (fun r => match payload_of r with
                    | Ok p => Some (share_of (sw_id r) p (status_in (trail_in s d) (sw_id r)))
                    | Raise _ => None
                    end) (sorted_shares s d)).

Lemma read_shares t R values : Forall2 (read_as t) R values ->
  (fun kv => kv.2.1) <$> values =
    omap (fun r => match payload_of r with
                   | Ok p => Some (share_of (sw_id r) p (status_in t (sw_id r)))
                   | Raise _ => None
                   end) R.
Proof. induction 1 as [|r kv R values (p & Hp & ->) _ IH]; [done|]. cbn in *. rewrite Hp. by f_equal. Qed.

Lemma authorize_reads actor a : authorize actor a true = Ok tt ->
  authorize actor a false = Ok tt /\ ~ (p_role actor <> Admin /\ ea_can_share a = false).
Proof.
  unfold authorize. intros Ha. inv_ok. split; [|tauto]. rewrite !raise_if_no; try done. by intros (? & _).
Qed.

(** The export has the caller's shares, or all of them for an administrator, in
    the order of their creation. *)
Theorem share_export_exact d actor a limit : in_use d -> readable (scope_of a) d -> authorize actor a true = Ok tt ->
  1 <= limit <= 256 ->
  match state_in (scope_of a) d with Some st => sy_revision st = ea_share_revision a | None => True end ->
  export actor a limit d =
    if decide (Z.of_nat (length (shown actor (scope_of a) d)) > limit)
    then Raise (ApiError "private_event_share_export_limit_reached" 413)
    else Ok {| sx_revision := ea_share_revision a; sx_shares := shown actor (scope_of a) d |}.
Proof.
  intros Hd%share_in_use_ok Hread Hauth Hlim Hrev. destruct (verified_readable _ _ Hd Hread) as (values & Hv & Hf).
  destruct (authorize_reads _ _ Hauth) as [Ha Hshare]. unfold EventSharing.export. rewrite Ha. cbn [mbind res_bind].
  rewrite (raise_if_no (~ 1 <= limit <= MAX_EXPORT)) by (unfold MAX_EXPORT; tauto). cbn [mbind res_bind].
  rewrite Hv. cbn [mbind res_bind]. rewrite read_state_ok by done. cbn [mbind res_bind].
  assert (match state_in (scope_of a) d with None => ea_share_revision a | Some st => sy_revision st end = ea_share_revision a)
    as -> by (by destruct (state_in _ _)).
  rewrite (raise_if_no (ea_share_revision a <> _)) by (by intros []). cbn [mbind res_bind].
  rewrite (raise_if_no (p_role actor <> Admin /\ _)) by done. cbn [mbind res_bind].
  rewrite (read_shares _ _ _ Hf). fold (shown actor (scope_of a) d). unfold raise_if. by case_decide.
Qed.


(** ** What the store promises

    Behind the encrypted rows and the signed histories is a table of grants: a
    grant is given, used and withdrawn, and it remembers by whom, when and under
    which id.  The calls and their answers are the labels of the steps of both
    machines, so the table gives the very answers of the store. *)

(** One entry of the log of a grant: the command or access id, who it was, and when. *)
Record entry := { en_id : ustr; en_by : ustr; en_time : Z }.
Record grant := {
  gr_scope : share_scope;
  gr_payload : option share_payload;
  gr_given : list entry;
  gr_uses : list entry;
  gr_withdrawn : list entry;
}.
Definition used (n : entry) (g : grant) : grant :=
  {| gr_scope := gr_scope g; gr_payload := gr_payload g; gr_given := gr_given g; gr_uses := gr_uses g ++ [n];
     gr_withdrawn := gr_withdrawn g |}.
Definition withdrawn (n : entry) (g : grant) : grant :=
  {| gr_scope := gr_scope g; gr_payload := gr_payload g; gr_given := gr_given g; gr_uses := gr_uses g;
     gr_withdrawn := gr_withdrawn g ++ [n] |}.
Definition change (id : ustr) (f : grant -> grant) (l : list (ustr * grant)) : list (ustr * grant) :=
  (fun kv => if decide (kv.1 = id) then (kv.1, f kv.2) else kv) <$> l.

(** The calls, each with its answer; a call that is refused is one that raises. *)
Inductive share_answer :=
  | Shared (actor : Principal) (s : share_scope) (c : EventShareConsent) (k : EventShareReceipt)
  | Accessed (recipient_id access_token access_id : ustr) (timestamp : Z) (x : share_access)
  | Closed (actor : Principal) (s : share_scope) (k : EventShareReceipt)
  | Refused (x : exn).
Inductive answers (d : share_db) : share_answer -> share_db -> Prop :=
  | answers_create e actor bytes a c k d' : create e actor bytes a c d = (Ok k, d') ->
      answers d (Shared actor (scope_of a) c k) d'
  | answers_redeem e rcp tok aid now x d' : redeem e rcp tok aid now d = (Ok x, d') ->
      answers d (Accessed rcp tok aid (default (es_now e) now) x) d'
  | answers_revoke e actor bytes a k d' : revoke e actor bytes a d = (Ok k, d') ->
      answers d (Closed actor (scope_of a) k) d'
  | answers_no_create e actor bytes a c x d' : create e actor bytes a c d = (Raise x, d') -> answers d (Refused x) d'
  | answers_no_redeem e rcp tok aid now x d' : redeem e rcp tok aid now d = (Raise x, d') -> answers d (Refused x) d'
  | answers_no_revoke e actor bytes a x d' : revoke e actor bytes a d = (Raise x, d') -> answers d (Refused x) d'.

(** A run and the labels of its steps. *)
Inductive run_of {S L} (step : S -> L -> S -> Prop) (a : S) : list L -> S -> Prop :=
  | run_none : run_of step a [] a
  | run_step x b tr c : step a x b -> run_of step b tr c -> run_of step a (x :: tr) c.

(** What the owner sees of a grant, and who may open it. *)
Definition view (id : ustr) (g : grant) (p : share_payload) : PrivateEventShare :=
  share_of id p (en_time <$> last (gr_withdrawn g), en_time <$> last (gr_uses g)).
Definition opens (g : grant) (p : share_payload) (recipient_id access_token : ustr) (timestamp : Z) : Prop :=
  gr_payload g = Some p /\ py_access_token p = access_token /\ py_recipient_id p = recipient_id /\
  timestamp < py_expires_at p /\ gr_withdrawn g = [] /\ (py_access_mode p = OneTime -> gr_uses g = []).
Definition opened (id : ustr) (p : share_payload) : share_access :=
  {| sa_shareId := id; sa_outputArtifactId := py_output_artifact_id p; sa_outputDigest := py_output_digest p;
     sa_expiresAt := py_expires_at p |}.
(** An id that some grant of the scope has in its log. *)
Definition seen (l : list (ustr * grant)) (s : share_scope) (cid : ustr) : Prop :=
  exists id g n, (id, g) ∈ l /\ gr_scope g = s /\ n ∈ gr_given g ++ gr_uses g ++ gr_withdrawn g /\ en_id n = cid.
Definition receipt_is (k : EventShareReceipt) (a : share_action) (share : PrivateEventShare) (token : ustr) : Prop :=
  et_action k = a /\ et_share k = share /\ et_access_token k = token.
Definition kept_terms (p : share_payload) (actor : Principal) (c : EventShareConsent) : Prop :=
  py_owner_id p = u (p_id actor) /\ py_recipient_id p = ec_recipient_id c /\ py_purpose p = ec_purpose c /\
  py_access_mode p = ec_access_mode c /\ py_expires_at p = ec_expires_at c.

(** The steps of the table.  The first, third and fifth are for an id that is new
    to the scope, and each makes an entry; the second, fourth and sixth answer an
    id that is in a log again and change nothing. *)
Inductive grant_step (l : list (ustr * grant)) : share_answer -> list (ustr * grant) -> Prop :=
  | grant_given actor s c k id p : id ∉ dict_keys l -> ~ seen l s (et_command_id k) -> kept_terms p actor c ->
      let n := {| en_id := et_command_id k; en_by := u (p_id actor); en_time := py_created_at p |} in
      let g := {| gr_scope := s; gr_payload := Some p; gr_given := [n]; gr_uses := []; gr_withdrawn := [] |} in
      receipt_is k ShareCreated (view id g p) (py_access_token p) ->
      grant_step l (Shared actor s c k) (l ++ [(id, g)])
  | grant_given_again actor s c k id g p n : (id, g) ∈ l -> gr_scope g = s -> gr_payload g = Some p ->
      n ∈ gr_given g -> en_id n = et_command_id k -> en_by n = u (p_id actor) ->
      receipt_is k ShareCreated (view id g p) (py_access_token p) -> grant_step l (Shared actor s c k) l
  | grant_used rcp tok aid t id g p : (id, g) ∈ l -> opens g p rcp tok t -> ~ seen l (gr_scope g) aid ->
      grant_step l (Accessed rcp tok aid t (opened id p)) (change id (used {| en_id := aid; en_by := rcp; en_time := t |}) l)
  (** the logged access may be of another grant [g'] of the scope *)
  | grant_used_again rcp tok aid t id g p id' g' n : (id, g) ∈ l -> opens g p rcp tok t -> (id', g') ∈ l ->
      gr_scope g' = gr_scope g -> n ∈ gr_uses g' -> en_id n = aid -> en_by n = rcp ->
      grant_step l (Accessed rcp tok aid t (opened id p)) l
  | grant_withdrawn actor s k id g p t : (id, g) ∈ l -> gr_scope g = s -> gr_payload g = Some p ->
      (p_role actor = Admin \/ py_owner_id p = u (p_id actor)) -> gr_withdrawn g = [] -> ~ seen l s (et_command_id k) ->
      let n := {| en_id := et_command_id k; en_by := u (p_id actor); en_time := t |} in
      receipt_is k ShareRevoked (view id (withdrawn n g) p) [] -> grant_step l (Closed actor s k) (change id (withdrawn n) l)
  | grant_withdrawn_again actor s k id g p n : (id, g) ∈ l -> gr_scope g = s -> gr_payload g = Some p ->
      n ∈ gr_withdrawn g -> en_id n = et_command_id k -> receipt_is k ShareRevoked (view id g p) [] ->
      grant_step l (Closed actor s k) l
  | grant_refused x : grant_step l (Refused x) l.

Definition entry_of (e : share_event) : entry :=
  {| en_id := se_command_id e;
     en_by := match se_action e with ShareRedeemed => se_recipient_id e | _ => se_actor_id e end;
     en_time := se_occurred_at e |}.
Definition payload_at (r : share_row) : option share_payload := match payload_of r with Ok p => Some p | Raise _ => None end.
Definition grant_of (h : list share_event) (r : share_row) : ustr * grant :=
  let log a := entry_of <$> kind_of a (sw_id r) h in
  (sw_id r, {| gr_scope := sw_scope r; gr_payload := payload_at r; gr_given := log ShareCreated;
               gr_uses := log ShareRedeemed; gr_withdrawn := log ShareRevoked |}).
Definition grants (d : share_db) : list (ustr * grant) := grant_of (sd_history d) <$> sd_shares d.

(** What one more event does to the grants of the rows. *)
Lemma grants_snoc h rows ev f : (forall r, r ∈ rows -> grant_of (h ++ [ev]) r =
    if decide (sw_id r = se_share_id ev) then (sw_id r, f (grant_of h r).2) else grant_of h r) ->
  grant_of (h ++ [ev]) <$> rows = change (se_share_id ev) f (grant_of h <$> rows).
Proof.
  intros Hr. unfold change. rewrite <- list_fmap_compose. apply list_fmap_ext. intros i r Hi.
  apply list_elem_of_lookup_2 in Hi. by rewrite Hr.
Qed.

Lemma grant_other h r ev : se_share_id ev <> sw_id r -> grant_of (h ++ [ev]) r = grant_of h r.
Proof. intros Hn. unfold grant_of. rewrite !kind_snoc, !decide_False by naive_solver. by rewrite !app_nil_r. Qed.
Lemma grant_event h r ev : se_action ev <> ShareCreated -> grant_of (h ++ [ev]) r =
  if decide (sw_id r = se_share_id ev)
  then (sw_id r, (match se_action ev with ShareRedeemed => used | _ => withdrawn end) (entry_of ev) (grant_of h r).2)
  else grant_of h r.
Proof.
  intros Ha. case_decide as Hid; [symmetry in Hid|by apply grant_other].
  unfold grant_of, used, withdrawn. rewrite !kind_snoc. cbn.
  destruct (se_action ev); [done|..]; repeat case_decide; destruct_and?; try discriminate; try (exfalso; tauto);
    by rewrite ?app_nil_r, ?fmap_app.
Qed.

(** The status of a share is in its log. *)
Lemma status_recorded l id : status_in (trail_of l) id =
  (se_occurred_at <$> last (kind_of ShareRevoked id l), se_occurred_at <$> last (kind_of ShareRedeemed id l)).
Proof.
  induction l as [|e l IH] using rev_ind; [done|]. rewrite trail_snoc, status_next, !kind_snoc, IH.
  destruct (decide (se_share_id e = id)) as [Hid|]; [|by rewrite !decide_False, !app_nil_r by naive_solver].
  destruct (se_action e); repeat case_decide; destruct_and?; try discriminate; try (exfalso; tauto);
    by rewrite ?app_nil_r, ?last_snoc.
Qed.
Lemma view_row d row p : store_ok d -> row ∈ sd_shares d ->
  view (sw_id row) (grant_of (sd_history d) row).2 p
  = share_of (sw_id row) p (status_in (trail_in (sw_scope row) d) (sw_id row)).
Proof.
  intros Hd Hr. unfold view, trail_in. rewrite status_recorded, <- !kind_scope by done. cbn.
  rewrite !fmap_last, <- !option_fmap_compose. done.
Qed.

Lemma event_row d e : store_ok d -> e ∈ sd_history d ->
  exists r, r ∈ sd_shares d /\ sw_id r = se_share_id e /\ sw_scope r = se_scope e.
Proof.
  intros Hd He. pose proof (ok_scopes _ Hd (se_scope e)) as Hs.
  assert (e ∈ events_in (se_scope e) (sd_history d)) as Hin by (by apply list_elem_of_filter).
  apply (placed_created _ (so_placed _ _ _ Hs)), (so_ids _ _ _ Hs) in Hin.
  apply list_elem_of_fmap in Hin as (r & Hid' & [Hsc Hr']%list_elem_of_filter). by exists r.
Qed.

Lemma grant_in d r : r ∈ sd_shares d -> (sw_id r, (grant_of (sd_history d) r).2) ∈ grants d.
Proof. intros Hr. apply (list_elem_of_fmap_2 (grant_of (sd_history d))) in Hr. done. Qed.

(** An id that the history of a scope does not have is in no log. *)
Lemma unseen d s cid : store_ok d -> find_event d s cid = None -> ~ seen (grants d) s cid.
Proof.
  intros Hd Hf%sql_one_none (id & g & n & Hg & <- & Hn & <-). rewrite Forall_forall in Hf.
  apply list_elem_of_fmap in Hg as (r & [= -> ->] & Hr). cbn in Hn.
  assert (exists a e, n = entry_of e /\ e ∈ kind_of a (sw_id r) (sd_history d)) as (a & e & -> & He).
  { repeat (apply elem_of_app in Hn as [Hn|Hn]); apply list_elem_of_fmap in Hn as (e & -> & He); by eexists _, e. }
  apply list_elem_of_filter in He as [[_ Hid] He]. apply (Hf e He). split; [|done]. by apply (event_scope d).
Qed.

(** The event that an id is found to have is in the log of its share. *)
Lemma logged d s cid old : store_ok d -> find_event d s cid = Some old -> exists r, r ∈ sd_shares d /\
  sw_id r = se_share_id old /\ sw_scope r = s /\ old ∈ kind_of (se_action old) (sw_id r) (sd_history d) /\
  en_id (entry_of old) = cid.
Proof.
  intros Hd [Hin [Hs Hc]]%sql_one_some. destruct (event_row _ _ Hd Hin) as (r & Hr & Hid & Hsc). exists r.
  split_and!; try done; [congruence|]. by apply list_elem_of_filter.
Qed.

Lemma payload_seen d row p : payload_of row = Ok p -> gr_payload (grant_of (sd_history d) row).2 = Some p.
Proof. intros Hp. cbn. unfold payload_at. by rewrite Hp. Qed.

Lemma accessible_opens d row p rcp tok t : store_ok d -> accessible d row p rcp tok t ->
  opens (grant_of (sd_history d) row).2 p rcp tok t.
Proof.
  intros Hd (Hr & Hp & Ht & Hrc & He & Hv & Ho). unfold redemptions in Ho. rewrite <- kind_scope in Hv, Ho by done.
  unfold opens. rewrite (payload_seen d _ _ Hp). split_and!; try done; cbn; [by rewrite Hv|]. intros Hm. by rewrite Ho.
Qed.

(** What an earlier command is answered with. *)
Lemma replayed_run d s E values cid old a f k : store_ok d -> verified d s = Ok (E, values) ->
  find_event d s cid = Some old -> replayed old cid a values f = Ok k -> exists r p,
    r ∈ sd_shares d /\ sw_scope r = s /\ payload_of r = Ok p /\ old ∈ kind_of (se_action old) (sw_id r) (sd_history d) /\
    en_id (entry_of old) = cid /\ et_command_id k = cid /\
    receipt_is k a (view (sw_id r) (grant_of (sd_history d) r).2 p)
      (f (view (sw_id r) (grant_of (sd_history d) r).2 p, py_access_token p)).
Proof.
  intros Hd [_ Hv]%verified_reads Hf Hr; [|done]. destruct (logged _ _ _ _ Hd Hf) as (r & Hin & Hid & Hs & Hl & Hc).
  unfold replayed in Hr. inv_ok. match goal with Hx : dict_get _ _ = Some ?z |- _ => destruct z as [share token]; rename Hx into Hg end.
  rewrite <- Hid in Hg. destruct (row_value _ _ _ _ _ _ Hd Hv Hin eq_refl Hg) as (p & Hp & -> & ->).
  exists r, p. rewrite view_row by done. split_and!; done.
Qed.

Lemma create_refines e actor bytes a c k d d' : store_ok d -> create e actor bytes a c d = (Ok k, d') ->
  grant_step (grants d) (Shared actor (scope_of a) c k) (grants d').
Proof.
  intros Hd Hs. destruct (share_create_outcome _ _ _ _ _ _ _ _ Hs) as (l & cid & t & E & values & _ & _ & _ & _ & _ & Hcov & _ & Hv & Hrun).
  destruct (find_event _ _ _) as [old|] eqn:Ef.
  - destruct Hrun as (-> & Ha & Hact & _ & Hk). destruct (replayed_run _ _ _ _ _ _ _ _ _ Hd Hv Ef Hk)
      as (r & p & Hr & Hsc & Hp & Hl & Hc & Hkc & Hrec).
    eapply (grant_given_again _ _ _ _ _ _ _ p (entry_of old)); [by apply grant_in|done|by apply payload_seen| | | |exact Hrec].
    + rewrite Ha in Hl. by apply list_elem_of_fmap_2.
    + congruence.
    + cbn. by rewrite Ha.
  - destruct (create_new_run _ _ _ _ _ _ _ _ _ _ _ Hd Hrun) as (-> & _ & _ & _ & Hclash & _ & Hp & ->).
    set (row := new_share_row e _ _ _) in *. set (ev := new_event _ _ _ _ _ _ _ _ _ _ _ _). apply fresh_row in Hclash.
    assert (forall x, x ∈ sd_history d -> se_share_id x <> sw_id row) as Hid.
    { intros x Hx. apply (fresh_id d (se_scope x) _ Hd Hclash). by apply list_elem_of_filter. }
    unfold grants at 2. cbn [grown sd_shares sd_history]. rewrite fmap_app.
    rewrite (list_fmap_ext (grant_of (sd_history d ++ _)) (grant_of (sd_history d)) (sd_shares d))
      by (intros i r Hi; apply grant_other; change (sw_id row <> sw_id r); intros E'; apply Hclash; rewrite E';
          by eapply list_elem_of_fmap_2, list_elem_of_lookup_2).
    change (grant_of (sd_history d) <$> sd_shares d) with (grants d). cbn [fmap list_fmap].
    replace (grant_of (sd_history d ++ [ev]) row) with (sw_id row, {| gr_scope := scope_of a;
      gr_payload := Some (share_payload_of e actor c t); gr_given := [entry_of ev]; gr_uses := []; gr_withdrawn := [] |}).
    2:{ unfold grant_of, payload_at. rewrite Hp, !kind_snoc, !kind_empty by done. cbn. by rewrite decide_True. }
    apply grant_given; [|by apply unseen|done|done].
    unfold grants, dict_keys. by rewrite <- list_fmap_compose.
Qed.

Lemma redeem_refines e rcp tok aid now x d d' : store_ok d -> redeem e rcp tok aid now d = (Ok x, d') ->
  grant_step (grants d) (Accessed rcp tok aid (default (es_now e) now) x) (grants d').
Proof.
  intros Hd Hs. destruct (redeem_run _ _ _ _ _ _ _ _ Hd Hs) as (row & p & Ha & -> & _ & Hrun).
  pose proof Ha as (Hrow & _). apply (accessible_opens _ _ _ _ _ _ Hd) in Ha.
  destruct (find_event _ _ _) as [old|] eqn:Ef.
  - destruct Hrun as (-> & Hact & Hrec). destruct (logged _ _ _ _ Hd Ef) as (r & Hr & Hid & Hsc & Hl & Hc).
    eapply (grant_used_again _ _ _ _ _ _ _ _ _ _ (entry_of old)); [by apply grant_in|done|by apply grant_in|done| |done|].
    + rewrite Hact in Hl. by apply list_elem_of_fmap_2.
    + cbn. by rewrite Hact.
  - destruct Hrun as (_ & base & _ & ->). unfold grants at 2. cbn [grown sd_shares sd_history].
    rewrite (grants_snoc _ _ _ (used (entry_of (redeemed_event e d row base rcp aid (default (es_now e) now)))))
      by (intros r _; by apply grant_event).
    eapply grant_used; [by apply grant_in|done|by apply unseen].
Qed.

Lemma revoke_refines e actor bytes a k d d' : store_ok d -> revoke e actor bytes a d = (Ok k, d') ->
  grant_step (grants d) (Closed actor (scope_of a) k) (grants d').
Proof.
  intros Hd Hs. destruct (revoke_outcome _ _ _ _ _ _ _ Hs) as (l & cid & sid & E & values & _ & _ & _ & _ & _ & _ & Hv & Hrun).
  destruct (find_event _ _ _) as [old|] eqn:Ef.
  - destruct Hrun as (-> & Ha & _ & Hk). destruct (replayed_run _ _ _ _ _ _ _ _ _ Hd Hv Ef Hk)
      as (r & p & Hr & Hsc & Hp & Hl & Hc & Hkc & Hrec).
    eapply (grant_withdrawn_again _ _ _ _ _ _ p (entry_of old)); [by apply grant_in|done|by apply payload_seen| | |exact Hrec].
    + rewrite Ha in Hl. by apply list_elem_of_fmap_2.
    + congruence.
  - pose proof Hv as [_ Hf]%verified_reads; [|done].
    destruct (revoke_new_run _ _ _ _ _ _ _ _ _ _ Hd Hf Hrun)
      as (row & p & base & (Hrow & Hsc & Hp & Hown & Hrev) & <- & _ & -> & ->).
    rewrite <- Hsc in Ef, Hrev |- *. rewrite <- kind_scope in Hrev by done.
    unfold grants at 2. cbn [grown sd_shares sd_history]. set (ev := new_event _ _ _ _ _ _ _ _ _ _ _ _).
    rewrite (grants_snoc _ _ _ (withdrawn (entry_of ev))) by (intros r _; by apply grant_event).
    match goal with |- grant_step _ (Closed _ _ ?k) _ => refine (grant_withdrawn _ actor _ k _ _ p (es_now e)
      (grant_in d row Hrow) eq_refl (payload_seen d _ _ Hp) Hown _ (unseen _ _ _ Hd Ef) _) end.
    + cbn. by rewrite Hrev.
    + split_and!; [done| |done]. cbn [et_share]. rewrite <- view_row by done. unfold view. cbn. by rewrite last_snoc.
Qed.

Lemma answers_refine d x d' : store_ok d -> answers d x d' -> store_ok d' /\ grant_step (grants d) x (grants d').
Proof.
  intros Hd [e actor bytes a c k d1 Hs|e rcp tok aid now k d1 Hs|e actor bytes a k d1 Hs
            |e actor bytes a c k d1 Hs|e rcp tok aid now k d1 Hs|e actor bytes a k d1 Hs].
  - eauto using share_create_ok, create_refines.
  - eauto using redeem_ok, redeem_refines.
  - eauto using revoke_ok, revoke_refines.
  - apply create_rolls_back in Hs as ->. eauto using grant_refused.
  - apply redeem_rolls_back in Hs as ->. eauto using grant_refused.
  - apply revoke_rolls_back in Hs as ->. eauto using grant_refused.
Qed.

(** C27 Every run of the store is a run of the table of grants, with the same
    calls and the same answers.  A share is created for a new id, on the terms of
    the consent; it is opened by its recipient, with its token, before it expires,
    while it is not withdrawn and, for one access, not yet used, and an access
    under a new access id is logged on that share; it is withdrawn once, by its
    owner or an administrator, under a new id.  The only other answers are to an
    id that is already in a log of the camera event, and refusals; neither changes
    anything.  An access under an id that the recipient already used is one of
    them: it opens a share that could be opened anyway, and the log that has the id
    may be that of another share, so that such an access goes unrecorded
    ([access_id_reused]). *)
Theorem share_store_refines d tr d' : in_use d -> run_of answers d tr d' -> run_of grant_step (grants d) tr (grants d').
Proof.
  intros Hd%share_in_use_ok. induction 1 as [d|d x d1 tr d2 Hs _ IH]; [constructor|].
  destruct (answers_refine _ _ _ Hd Hs) as [Hd1 Hg]. by econstructor; [|apply IH].
Qed.
End store_facts.

(** ** A camera event shared twice *)

Module SharingExample.
(** A text that is read back: every string after its length. *)
Definition put (s : ustr) : list Z := Z.of_nat (length s) :: s.
Definition puts (l : list ustr) : list Z := Z.of_nat (length l) :: concat (put <$> l).
Definition reader (A : Type) : Type := list Z -> option (A * list Z).
Definition get : reader ustr := fun l =>
  match l with [] => None | n :: l => Some (take (Z.to_nat n) l, drop (Z.to_nat n) l) end.
Fixpoint get_many (n : nat) : reader (list ustr) := fun l =>
  match n with
  | O => Some ([], l)
  | S n => '(s, l) ← get l; '(k, l) ← get_many n l; Some (s :: k, l)
  end.
Definition gets : reader (list ustr) := fun l =>
  match l with [] => None | n :: l => get_many (Z.to_nat n) l end.

Definition dump (p : share_payload) : list Z :=
  put (py_owner_id p) ++ put (py_recipient_id p) ++ put (py_purpose p) ++ put (py_source_digest p) ++
  put (py_output_artifact_id p) ++ put (py_output_digest p) ++ put (py_pipeline_id p) ++ put (py_access_token p) ++
  puts (py_mask_types p) ++ puts (py_removed_metadata p) ++
  [if py_access_mode p then 0 else 1; py_expires_at p; py_pipeline_revision p; py_created_at p].
Definition load (l : list Z) : option share_payload :=
  '(owner, l) ← get l; '(recipient, l) ← get l; '(purpose, l) ← get l; '(source, l) ← get l; '(artifact, l) ← get l;
  '(output, l) ← get l; '(pipeline, l) ← get l; '(token, l) ← get l; '(masks, l) ← gets l; '(metadata, l) ← gets l;
  match l with
  | [mode; expires; revision; created] =>
      Some {| py_owner_id := owner; py_recipient_id := recipient; py_purpose := purpose;
              py_access_mode := if decide (mode = 0) then OneTime else TimeBound; py_expires_at := expires;
              py_source_digest := source; py_output_artifact_id := artifact; py_output_digest := output;
              py_pipeline_id := pipeline; py_pipeline_revision := revision; py_mask_types := masks;
              py_removed_metadata := metadata; py_created_at := created; py_access_token := token |}
  | _ => None
  end.
Lemma get_put s l : get (put s ++ l) = Some (s, l).
Proof. unfold get, put. cbn. rewrite Nat2Z.id. by rewrite take_app_length, drop_app_length. Qed.
Lemma get_puts k l : gets (puts k ++ l) = Some (k, l).
Proof.
  unfold gets, puts. cbn. rewrite Nat2Z.id. induction k as [|s k IH]; [done|].
  cbn [fmap list_fmap concat length get_many]. rewrite <- app_assoc, get_put. cbn. by rewrite IH.
Qed.
Lemma load_dump p : existsb is_surrogate (py_purpose p) = false -> load (dump p) = Some p.
Proof.
  intros _. unfold load, dump. do 8 (rewrite get_put; cbn [mbind option_bind]).
  do 2 (rewrite get_puts; cbn [mbind option_bind]). by destruct p as [o r s [] x d a i v n k l c w].
Qed.

Definition encrypt (nonce raw : list Z) (aad : ustr) : list Z := raw.
Definition decrypt (nonce raw : list Z) (aad : ustr) : option (list Z) := Some raw.
Lemma decrypt_encrypt nonce raw aad : decrypt nonce (encrypt nonce raw aad) aad = Some raw.
Proof. done. Qed.
Fixpoint letters (l : list Z) : string :=
  match l with [] => "" | c :: l => String (Ascii.ascii_of_N (Z.to_N c)) (letters l) end.
Definition fingerprint (domain : string) (l : list Z) : string :=
  if decide (domain = "payload"%string) then domain else domain ++ letters l.
Definition fingerprint_json (domain : string) (v : jval) : string := domain.
Definition proof (v : jval) : string := "proof".

Definition hex (n : nat) (c : string) : ustr := concat (replicate n (u c)).
Definition anna : Principal :=
  {| p_id := "anna"; p_username := "anna"; p_role := Member; p_must_change_password := false; p_family_id := "tablet";
     p_token_id := "t" |}.
Definition authority (revision : Z) : EventShareAuthority :=
  {| ea_core_id := u "core"; ea_home_id := u "home"; ea_account_id := u "anna"; ea_session_id := u "tablet";
     ea_core_revision := 1; ea_home_revision := 1; ea_account_revision := 1; ea_members_revision := 1;
     ea_camera_id := u "door"; ea_camera_revision := 1; ea_event_id := u "visit"; ea_event_revision := 1;
     ea_session_revision := 1; ea_share_revision := revision; ea_member_ids := [u "anna"]; ea_can_share := true |}.
Definition consent (m : access_mode) : EventShareConsent :=
  {| ec_id := u "consent"; ec_revision := 1; ec_granted_by := u "anna"; ec_recipient_id := u "bob";
     ec_event_id := u "visit"; ec_purpose := u "review"; ec_accepted_at := 0; ec_expires_at := seconds 5000;
     ec_access_mode := m; ec_required_masks := [u "face"]; ec_required_metadata := [u "gps"] |}.
Definition scope_json (action command : string) (revision : Z) : json_object :=
  [("action", JStr action); ("commandId", JStr command); ("coreId", JStr "core"); ("homeId", JStr "home");
   ("accountId", JStr "anna"); ("sessionId", JStr "tablet"); ("coreRevision", JInt 1); ("homeRevision", JInt 1);
   ("accountRevision", JInt 1); ("membersRevision", JInt 1); ("cameraId", JStr "door"); ("cameraRevision", JInt 1);
   ("eventId", JStr "visit"); ("eventRevision", JInt 1); ("sessionRevision", JInt 1);
   ("expectedShareRevision", JInt revision)]%string.
Definition redaction : json_object :=
  [("sourceDigest", JText (hex 64 "a")); ("outputDigest", JText (hex 64 "b")); ("outputArtifactId", JStr "clip");
   ("pipelineId", JStr "local"); ("pipelineRevision", JInt 4); ("masks", JList [JStr "face"]);
   ("removedMetadata", JList [JStr "gps"; JStr "camera_name"]); ("proof", JStr "proof")]%string.
Definition create_json (command : string) (revision : Z) (m : access_mode) : json_object :=
  scope_json "create" command revision ++
  [("consentId", JStr "consent"); ("consentRevision", JInt 1); ("recipientId", JStr "bob"); ("purpose", JStr "review");
   ("expiresAt", JInt 5000); ("accessMode", JText (access_mode_name m)); ("transformation", JObj redaction)]%string.
Definition loads (l : list Z) : option jval :=
  match l with
  | [1] => Some (JObj (create_json "first" 7 OneTime))
  | [2] => Some (JObj (create_json "second" 8 TimeBound))
  | [3] => Some (JObj (scope_json "revoke" "third" 9 ++ [("shareId"%string, JStr "s2")]))
  | _ => None
  end.
Definition env (now : Z) (share : Z) (audit : nat) : share_env :=
  {| es_now := seconds now; es_share_id := u "s" ++ [48 + share]; es_audit_id := replicate audit 97;
     es_token := replicate 43 (97 + share); es_nonce := [] |}.

Notation create := (create loads dump load encrypt decrypt fingerprint fingerprint_json proof).
Notation redeem := (redeem load decrypt fingerprint fingerprint_json).
Notation revoke := (revoke loads load decrypt fingerprint fingerprint_json).
Notation verified := (verified load decrypt fingerprint fingerprint_json).
Notation payload_of := (payload_of load decrypt fingerprint).
Notation in_use := (in_use loads dump load encrypt decrypt fingerprint fingerprint_json proof).
Notation share_step := (share_step loads dump load encrypt decrypt fingerprint fingerprint_json proof).
Definition token (share : Z) : ustr := replicate 43 (97 + share).

Notation make_first := (create (env 100 1 1) anna [1] (authority 7) (consent OneTime)).
Notation make_second := (create (env 100 2 2) anna [2] (authority 8) (consent TimeBound)).
Definition d1 : share_db := (make_first no_shares).2.
Definition d2 : share_db := (make_second d1).2.
Notation open_first := (redeem (env 200 0 3) (u "bob") (token 1) (u "a1") None).
Definition d3 : share_db := (open_first d2).2.

Definition tf : transform :=
  {| tf_source_digest := hex 64 "a"; tf_output_digest := hex 64 "b"; tf_output_artifact_id := u "clip";
     tf_pipeline_id := u "local"; tf_pipeline_revision := 4; tf_masks := [u "face"];
     tf_metadata := [u "gps"; u "camera_name"] |}.
Definition p1 : share_payload := share_payload_of (env 100 1 1) anna (consent OneTime) tf.
Definition p2 : share_payload := share_payload_of (env 100 2 2) anna (consent TimeBound) tf.
Definition scope : share_scope := (u "core", u "home", u "door", u "visit").
Definition row1 : share_row := new_share_row dump encrypt fingerprint (env 100 1 1) scope (fingerprint "request" [1]) p1.
Definition row2 : share_row := new_share_row dump encrypt fingerprint (env 100 2 2) scope (fingerprint "request" [2]) p2.

(** The outcome of a call, from the state it leaves. *)
Lemma ran {A} (m : M share_db A) (d : share_db) (a : A) : (m d).1 = Ok a -> m d = (Ok a, (m d).2).
Proof. intros Ha. rewrite <- Ha. apply surjective_pairing. Qed.
Definition receipt1 : EventShareReceipt :=
  {| et_audit_id := u "a"; et_command_id := u "first"; et_action := ShareCreated; et_share_revision := 8;
     et_share := share_of (sw_id row1) p1 (None, None); et_access_token := token 1 |}.
Definition receipt2 : EventShareReceipt :=
  {| et_audit_id := u "aa"; et_command_id := u "second"; et_action := ShareCreated; et_share_revision := 9;
     et_share := share_of (sw_id row2) p2 (None, None); et_access_token := token 2 |}.
Lemma made_first : make_first no_shares = (Ok receipt1, d1).
Proof. unfold d1. apply ran. by vm_compute. Qed.
Lemma made_second : make_second d1 = (Ok receipt2, d2).
Proof. unfold d2. apply ran. by vm_compute. Qed.
Lemma opened_first : open_first d2 = (Ok (access_to row1 p1), d3).
Proof. unfold d3. apply ran. by vm_compute. Qed.
Lemma rows2 : sd_shares d2 = [row1; row2].
Proof. by vm_compute. Qed.
Lemma read1 : payload_of row1 = Ok p1.
Proof. by vm_compute. Qed.
Lemma read2 : payload_of row2 = Ok p2.
Proof. by vm_compute. Qed.

Lemma in_use0 : in_use no_shares.
Proof. apply rtc_refl. Qed.
Lemma in_use1 : in_use d1.
Proof. apply rtc_once. eapply step_create, made_first. Qed.
Lemma in_use2 : in_use d2.
Proof. eapply rtc_r; [apply in_use1|]. eapply step_create, made_second. Qed.
Lemma in_use3 : in_use d3.
Proof. eapply rtc_r; [apply in_use2|]. eapply step_redeem, opened_first. Qed.

Notation applied f := (f loads dump load encrypt decrypt fingerprint fingerprint_json proof decrypt_encrypt load_dump).

Lemma share_store_valid_witness : exists values,
  verified d3 scope = Ok (events_in scope (sd_history d3), values) /\ length values = 2%nat.
Proof.
  pose proof (applied share_store_valid d3 scope in_use3) as Hv.
  destruct (decide (readable scope d3)) as [Hr|Hr]; [|by destruct Hr; vm_compute; repeat constructor].
  destruct Hv as (values & Hv & Hf). exists values. split; [done|]. apply Forall2_length in Hf. by rewrite <- Hf.
Defined.

Lemma shares_bounded_witness :
  length (events_in scope (sd_history d3)) = 3%nat /\ Z.of_nat (length (events_in scope (sd_history d3))) <= 1024 + 256.
Proof. split; [by vm_compute|]. destruct (applied shares_bounded d3 scope in_use3) as (_ & Hb & _). exact Hb. Defined.

Lemma one_time_share_once_witness : length (redemptions (sw_id row1) (sd_history d3)) = 1%nat /\
  (length (redemptions (sw_id row1) (sd_history d3)) <= 1)%nat.
Proof.
  split; [by vm_compute|]. apply (applied one_time_share_once d3 row1 p1 in_use3); [|exact read1|done].
  replace (sd_shares d3) with [row1; row2] by (by vm_compute). left.
Defined.

Lemma redeem_authorised_witness : exists row p, row ∈ sd_shares d2 /\ payload_of row = Ok p /\
  py_recipient_id p = u "bob" /\ seconds 200 < py_expires_at p.
Proof.
  destruct (applied redeem_authorised _ _ _ _ _ d2 _ d3 in_use2 opened_first) as (row & p & Hr & Hp & _ & Hb & Hx & _).
  by exists row, p.
Defined.

Notation close_second := (revoke (env 300 0 4) anna [3] (authority 9)).
Definition d4 : share_db := (close_second d2).2.
Definition receipt4 : EventShareReceipt :=
  {| et_audit_id := u "aaaa"; et_command_id := u "third"; et_action := ShareRevoked; et_share_revision := 10;
     et_share := set_revoked_at (seconds 300) (share_of (sw_id row2) p2 (None, None)); et_access_token := [] |}.
Lemma closed_second : close_second d2 = (Ok receipt4, d4).
Proof. unfold d4. apply ran. by vm_compute. Qed.
Lemma in_use4 : in_use d4.
Proof. eapply rtc_r; [apply in_use2|]. eapply step_revoke, closed_second. Qed.

Lemma revoked_share_closed_witness :
  exists x, redeem (env 400 0 5) (u "bob") (token 2) (u "a1") None d4 = (Raise x, d4).
Proof.
  apply (applied revoked_share_closed d4 d4 row2 p2 (env 400 0 5) (u "bob") (u "a1") None in_use4); [| | |apply rtc_refl].
  - replace (sd_shares d4) with [row1; row2] by (by vm_compute). right. left.
  - exact read2.
  - by vm_compute.
Defined.

Lemma create_sound_witness : exists row p, sd_shares d1 = [row] /\ payload_of row = Ok p /\
  py_recipient_id p = u "bob" /\ [u "face"] ⊆ py_mask_types p.
Proof.
  destruct (applied create_sound _ _ _ _ _ no_shares _ d1 in_use0 made_first)
    as [[Hn _]|(row & p & Hs & Hp & _ & _ & _ & Hr & _ & _ & _ & _ & _ & _ & Hm & _)].
  - exfalso. apply (f_equal (length ∘ sd_shares)) in Hn. by vm_compute in Hn.
  - exists row, p. by split_and!.
Defined.

Lemma create_retried_witness :
  create (env 150 9 9) anna [1] (authority 7) (consent OneTime) d1 = (Ok receipt1, d1).
Proof.
  apply (applied create_retried (env 100 1 1) (env 150 9 9) anna [1] (authority 7) (consent OneTime) no_shares receipt1 d1
           in_use0 made_first). vm_compute. by split.
Defined.

(** The table of the two shares, after the first was opened. *)
Definition story : list share_answer :=
  [Shared anna scope (consent OneTime) receipt1; Shared anna scope (consent TimeBound) receipt2;
   Accessed (u "bob") (token 1) (u "a1") (seconds 200) (access_to row1 p1)].
Lemma told : run_of (answers loads dump load encrypt decrypt fingerprint fingerprint_json proof) no_shares story d3.
Proof.
  eapply run_step; [eapply (answers_create _ _ _ _ _ _ _ _ _ _ _ _ (authority 7)), made_first|].
  eapply run_step; [eapply (answers_create _ _ _ _ _ _ _ _ _ _ _ _ (authority 8)), made_second|].
  eapply run_step; [eapply (answers_redeem _ _ _ _ _ _ _ _ _ (env 200 0 3) _ _ _ None), opened_first|apply run_none].
Qed.
Lemma share_store_refines_witness :
  (fun kv => (kv.1, en_id <$> gr_uses kv.2)) <$> grants load decrypt fingerprint d3 = [(u "s1", [u "a1"]); (u "s2", [])] /\
  run_of grant_step [] story (grants load decrypt fingerprint d3).
Proof.
  split; [by vm_compute|]. exact (applied share_store_refines no_shares story d3 in_use0 told).
Defined.

Lemma readable2 : readable (sw_scope row2) d2.
Proof. vm_compute. repeat constructor; discriminate. Qed.
Lemma accessible2 : accessible load decrypt fingerprint d2 row2 p2 (u "bob") (py_access_token p2)
  (default (es_now (env 200 0 3)) None).
Proof.
  unfold accessible. rewrite rows2. split_and!; try by vm_compute. right. left.
Qed.

Lemma bob_ok : _identifier (u "bob").
Proof. apply (bool_decide_eq_true_1 _). by vm_compute. Qed.
Lemma b1_ok : _identifier (u "b1").
Proof. apply (bool_decide_eq_true_1 _). by vm_compute. Qed.

Lemma share_redeemable_witness : exists d', redeem (env 200 0 3) (u "bob") (py_access_token p2) (u "b1") None d2 = (Ok (access_to row2 p2), d').
Proof.
  destruct (state_in (sw_scope row2) d2) as [st|] eqn:Es; [|by vm_compute in Es].
  destruct (applied share_redeemable (env 200 0 3) (u "bob") (u "b1") None d2 row2 p2 st in_use2 readable2 accessible2)
    as (d' & Hr & _); [..|by exists d'].
  - exact bob_ok.
  - exact b1_ok.
  - repeat constructor; lia.
  - exact Es.
  - vm_compute in Es. injection Es as <-. done.
  - vm_compute in Es. injection Es as <-. done.
  - clear. by vm_compute.
  - clear. vm_compute. intros Hx. repeat (apply elem_of_cons in Hx as [Hx|Hx]; [done|]). by apply elem_of_nil in Hx.
Defined.

Lemma share_export_exact_witness :
  export load decrypt fingerprint fingerprint_json anna (authority 10) 10 d3 =
    Ok {| sx_revision := 10; sx_shares := shown load decrypt fingerprint anna scope d3 |}.
Proof.
  rewrite (applied share_export_exact d3 anna (authority 10) 10 in_use3).
  - by rewrite decide_False by (vm_compute; congruence).
  - vm_compute. repeat constructor; discriminate.
  - by vm_compute.
  - lia.
  - by vm_compute.
Defined.

(** The second share is opened first; then the one-time share opens, again and
    again, for the same access. *)
Notation open_second := (redeem (env 200 0 3) (u "bob") (token 2) (u "a1") None).
Definition d5 : share_db := (open_second d2).2.
Lemma opened_second : open_second d2 = (Ok (access_to row2 p2), d5).
Proof. unfold d5. apply ran. by vm_compute. Qed.
Lemma in_use5 : in_use d5.
Proof. eapply rtc_r; [apply in_use2|]. eapply step_redeem, opened_second. Qed.
Lemma readable5 : readable (sw_scope row1) d5.
Proof. vm_compute. repeat constructor; discriminate. Qed.
Lemma accessible5 : accessible load decrypt fingerprint d5 row1 p1 (u "bob") (py_access_token p1)
  (default (es_now (env 250 0 4)) None).
Proof.
  unfold accessible. replace (sd_shares d5) with [row1; row2] by (by vm_compute).
  split_and!; try by vm_compute. left.
Qed.
Lemma a1_ok : _identifier (u "a1").
Proof. apply (bool_decide_eq_true_1 _). by vm_compute. Qed.

Lemma access_id_reused_witness : py_access_mode p1 = OneTime /\
  redeem (env 250 0 4) (u "bob") (py_access_token p1) (u "a1") None d5 = (Ok (access_to row1 p1), d5).
Proof.
  split; [done|]. destruct (find_event d5 (sw_scope row1) (u "a1")) as [old|] eqn:Ef; [|by vm_compute in Ef].
  apply (applied access_id_reused (env 250 0 4) (u "bob") (u "a1") None d5 row1 p1 old in_use5 readable5 accessible5).
  - exact bob_ok.
  - exact a1_ok.
  - repeat constructor; lia.
  - exact Ef.
  - clear -Ef. vm_compute in Ef. by injection Ef as <-.
  - clear -Ef. vm_compute in Ef. by injection Ef as <-.
Defined.

(** The second share is opened as often as it can be read. *)
Definition access (n : nat) : ustr := [97 + Z.of_nat n / 20; 97 + Z.of_nat n mod 20].
Record spent (n : nat) (d : share_db) : Prop := {
  sp_used : in_use d;
  sp_shares : sd_shares d = [row1; row2];
  sp_count : length (redemptions (sw_id row2) (sd_history d)) = n;
  sp_all : forall id, (length (redemptions id (sd_history d)) <= n)%nat;
  sp_open : kind_of ShareRevoked (sw_id row2) (sd_history d) = [];
  sp_audits : forall k, (n + 3 <= k)%nat -> replicate k 97 ∉ se_audit_id <$> sd_history d;
  sp_commands : forall k, (n < k)%nat -> access k ∉ se_command_id <$> sd_history d;
  sp_state : exists st, state_in (sw_scope row2) d = Some st /\ sy_event_count st = Z.of_nat n + 2 /\
    sy_revision st = Z.of_nat n + 9;
}.

Lemma kind_filter a id s h : (length (kind_of a id (events_in s h)) <= length (kind_of a id h))%nat.
Proof.
  unfold kind_of, events_in. induction h as [|e h IH]; [done|].
  rewrite !filter_cons. repeat case_decide; rewrite ?filter_cons; repeat case_decide; cbn; (lia || tauto).
Qed.

Lemma access_ok k : (k < 200)%nat -> _identifier (access k).
Proof.
  intros Hk. apply (bool_decide_eq_true_1 _).
  assert (forallb (fun k => bool_decide (_identifier (access k))) (seq 0 200) = true) as Hall by (by vm_compute).
  rewrite forallb_forall in Hall. apply Hall, in_seq. lia.
Qed.
Lemma access_inj j k : access j = access k -> j = k.
Proof.
  unfold access. intros [= Hd Hm]. pose proof (Z.div_mod (Z.of_nat j) 20). pose proof (Z.div_mod (Z.of_nat k) 20). lia.
Qed.

Lemma spent_start : spent 0 d2.
Proof.
  split.
  - exact in_use2.
  - exact rows2.
  - by vm_compute.
  - intros id. unfold redemptions, kind_of. apply Nat.eq_le_incl, (f_equal length (y := [])), elem_of_nil_inv.
    intros e [[Ha _] He]%list_elem_of_filter.
    assert (Forall (fun e => se_action e <> ShareRedeemed) (sd_history d2)) as Hall by (vm_compute; repeat constructor; discriminate).
    rewrite Forall_forall in Hall. by apply (Hall e).
  - by vm_compute.
  - intros k Hk. replace (se_audit_id <$> sd_history d2) with [replicate 1 97; replicate 2 97] by (by vm_compute).
    intros Hx. repeat (apply elem_of_cons in Hx as [Hx|Hx]; [apply (f_equal length) in Hx; rewrite !length_replicate in Hx; lia|]).
    by apply elem_of_nil in Hx.
  - intros k Hk. replace (se_command_id <$> sd_history d2) with [u "first"; u "second"] by (by vm_compute).
    intros Hx. repeat (apply elem_of_cons in Hx as [Hx|Hx]; [done|]). by apply elem_of_nil in Hx.
  - destruct (state_in (sw_scope row2) d2) as [st|] eqn:Es; [|by vm_compute in Es].
    exists st. split; [done|]. vm_compute in Es. by injection Es as <-.
Qed.

Notation open_again n := (redeem (env 200 0 (n + 3)) (u "bob") (py_access_token p2) (access (S n)) None).

(** The tables after the second share was opened once more. *)
Definition again (d : share_db) (n : nat) (st : share_state) : share_db :=
  grown fingerprint_json d (sd_shares d) (sw_scope row2) (sy_base_revision st)
    (redeemed_event fingerprint_json (env 200 0 (n + 3)) d row2 (sy_base_revision st) (u "bob") (access (S n)) (seconds 200)).

Lemma spent_run n d st : spent n d -> (n <= 128)%nat -> state_in (sw_scope row2) d = Some st ->
  sy_event_count st = Z.of_nat n + 2 -> sy_revision st = Z.of_nat n + 9 ->
  open_again n d = (Ok (access_to row2 p2), again d n st).
Proof.
  intros Hs Hn Est Hcount Hrev. pose proof (share_in_use_ok _ _ _ _ _ _ _ _ decrypt_encrypt load_dump _ (sp_used _ _ Hs)) as Hd.
  assert (row2 ∈ sd_shares d) as Hrow by (rewrite (sp_shares _ _ Hs); right; left).
  assert (readable (sw_scope row2) d) as Hread.
  { apply readable_iff. intros id. pose proof (sp_all _ _ Hs id). unfold redemptions in *.
    pose proof (kind_filter ShareRedeemed id (sw_scope row2) (sd_history d)). unfold MAX_ACCESSES. lia. }
  apply (redeem_total loads dump load encrypt decrypt fingerprint fingerprint_json decrypt_encrypt load_dump); try done.
  - split; [done|]. split; [exact read2|]. split_and!; try done.
    rewrite <- (kind_scope load decrypt fingerprint fingerprint_json); [apply (sp_open _ _ Hs)|done|done].
  - apply access_ok. lia.
  - clear. vm_compute. repeat constructor.
  - unfold MAX_SHARE_EVENTS. lia.
  - unfold MAX_REVISION. lia.
  - apply sql_one_none, Forall_forall. intros e He [_ Hc]. apply (sp_commands _ _ Hs (S n)); [lia|].
    rewrite <- Hc. by apply list_elem_of_fmap_2.
  - apply (sp_audits _ _ Hs). lia.
Qed.

Lemma spend n d : spent n d -> (n <= 128)%nat ->
  exists d', open_again n d = (Ok (access_to row2 p2), d') /\ spent (S n) d'.
Proof.
  intros Hs Hn. destruct (sp_state _ _ Hs) as (st & Est & Hcount & Hrev).
  pose proof (spent_run n d st Hs Hn Est Hcount Hrev) as Hrun. exists (again d n st). split; [exact Hrun|].
  split; unfold again; cbn [grown sd_shares sd_history]; try rewrite fmap_app.
  - eapply rtc_r; [apply (sp_used _ _ Hs)|]. by eapply step_redeem.
  - apply (sp_shares _ _ Hs).
  - pose proof (sp_count _ _ Hs) as Hc. unfold redemptions in *. rewrite kind_snoc, length_app, Hc.
    rewrite decide_True by done. cbn. lia.
  - intros id. unfold redemptions. rewrite kind_snoc, length_app. pose proof (sp_all _ _ Hs id) as Hc.
    unfold redemptions in Hc. case_decide; cbn; lia.
  - rewrite kind_snoc, (sp_open _ _ Hs). done.
  - intros k Hk [Hx|Hx%list_elem_of_singleton]%elem_of_app; [apply (sp_audits _ _ Hs k); [lia|done]|].
    apply (f_equal length) in Hx. cbn in Hx. rewrite !length_replicate in Hx. lia.
  - intros k Hk [Hx|Hx%list_elem_of_singleton]%elem_of_app; [apply (sp_commands _ _ Hs k); [lia|done]|].
    apply access_inj in Hx. lia.
  - eexists. split; [apply upsert_same|]. unfold redeemed_event. rewrite Est.
    split; [change (sy_event_count st + 1 = Z.of_nat (S n) + 2)|change (sy_revision st + 1 = Z.of_nat (S n) + 9)]; lia.
Qed.

Lemma spent_all n : (n <= 129)%nat -> exists d, spent n d.
Proof.
  induction n as [|n IH]; intros Hn; [exists d2; exact spent_start|].
  destruct IH as (d & Hs); [lia|]. destruct (spend n d Hs) as (d' & _ & Hs'); [lia|]. by exists d'.
Qed.

Lemma overused_share_closes_witness : exists d d', spent 128 d /\ open_again 128 d = (Ok (access_to row2 p2), d') /\
  verified d' (sw_scope row2) = Raise history_invalid.
Proof.
  destruct (spent_all 128) as (d & Hs); [lia|]. destruct (spend 128 d Hs) as (d' & Hrun & _); [lia|].
  exists d, d'. split; [exact Hs|]. split; [exact Hrun|].
  apply (applied overused_share_closes (env 200 0 131) (u "bob") (access 129) None d d' d' row2 p2 (access_to row2 p2)
           (sp_used _ _ Hs)).
  - rewrite (sp_shares _ _ Hs). right. left.
  - exact read2.
  - by rewrite (sp_count _ _ Hs).
  - apply sql_one_none, Forall_forall. intros e He [_ Hc]. apply (sp_commands _ _ Hs 129); [lia|].
    rewrite <- Hc. by apply list_elem_of_fmap_2.
  - exact Hrun.
  - apply rtc_refl.
Defined.
End SharingExample.
